(* ===== verification/_CoqProject ===== *)
-Q . S2P
Prelude.v
Strconv.v
Facade.v
Context.v
Queue.v
Serializer.v
Method.v
Actor.v
ActorSystem.v
Steps.v
Delivery.v
Lifecycle.v
Agp.v
Connection.v
ConnectionInv.v
Routing.v
Node.v
HttpActor.v
Cluster.v
Nats.v
DelayQueue.v
Poller.v
TimeWheel.v
TimeWheelInv.v
Civil.v
CTime.v
CTimeLaws.v
Schedule.v
Snowflake.v
Base58.v
Discovery.v
DiscoveryInv.v
Files.v
Profile.v
Etcd.v
EtcdInv.v
Helpers.v
AnyMap.v
Containers.v
Connector.v
Disconnect.v
Server.v
Application.v
Startup.v
Rabbit.v
RabbitInv.v
RedisLock.v
RedisRenew.v
Links.v
DataConfig.v
FileSys.v
RotateLogs.v
Logger.v
Gin.v
Databases.v
Gob.v
HttpClient.v
Regex.v
HttpServe.v
Cron.v
ActorBase.v
WheelLife.v
