(* ===== verification/Prelude.v ===== *)
(** ActorGo: a verification library for the actor runtime of a Go game server framework.

    * The program

    An application runs actors. An actor owns a mailbox, an event queue and a timer queue,
    and one goroutine that takes from them in turn; everybody else reaches it through the
    actor system, which resolves a path, allocates a pooled message and pushes it. Methods
    are numbered: a table of the whole application maps an identifier to the path of the
    actor that serves it. Requests enter through three adapters that all end in the table's
    Dispatch or in the system's target calls: the AGP server (framed packets over TCP or
    WebSocket connections), the HTTP adapter, and the cluster transports over NATS and
    RabbitMQ, through which the actor systems of two nodes call each other. An application
    builds these parts as components, starts them in order and stops them in reverse; it
    reads its settings from a profile, and writes to rotating log files. Around them are
    optional components (data tables, a Gin server, databases, cron, a lock on Redis) and a
    library of helpers.

    * The files, and the code each one models

    - Prelude: machine integers as [Z] with their wrap-around, the error monad [res],
      strings, bytes, Go maps ([gomap], [None] being the nil map), tactics and hints.
    - Strconv: Go's decimal conversions.
    - Facade (src/facade, src/extend/string, src/net/proto/session.go): paths, node
      identifiers, results, Go contexts, sessions, the delivery message.
    - Context (src/facade/request_context.go, message.go): contexts and their cloning, as
      values and on a store where sharing is visible; the message pool.
    - Queue (src/net/actor/queue.go): the lock-free queue at the grain of its atomic
      operations ([qexec]) and the abstract queue [aqueue] it refines to, which the actors
      use. A Push of it is in steps too ([aq_swap], [aq_counted], [aq_sent]): a value can be
      in the queue and not yet in its counter, which is what the loop of an actor reads
      ([push_simulation], [pop_simulation]).
    - Serializer (src/net/serializer): the codec registry and its codecs.
    - Method (src/net/method): the adaptation of handlers by reflection, the method table,
      Dispatch.
    - Actor (src/net/actor/actor*.go): one actor, its operations.
    - ActorSystem (src/net/actor/system.go): the heap of actors, creation, routing, events,
      calls. Two forms of it are given: whole operations ([System_InvokeTarget],
      [System_PostEvent], ...), run without interference, and their atomic parts.
    - Steps: the atomic parts as one step relation ([exec], [wrun], [wreach]) of all the
      goroutines of the runtime; a creation, a call, a push or a stop is several actions,
      which interleave with everything else.
    - Delivery, Lifecycle, Routing: what holds of its runs. Delivery follows messages and
      answers; Lifecycle the queues, routes, phases and the wait group; Routing the
      callers: calls, answers, events.
    - Agp (src/net/proto/agp_*.go, src/net/parser/tcp_packet_framer.go,
      packet_transport.go, options.go): packet limits, validation, codec, framing.
    - Connection (src/net/parser/connection.go, connection_manager.go, component.go): the
      connections of a server with their reader, writer and handler goroutines, and the
      manager that indexes them, as a step relation ([exec_net]). Close is in steps, from the
      state to the manager's Remove ([Close_step]), and so is a send: the test of [done],
      and the queue.
    - ConnectionInv: what holds of its runs.
    - Node: an AGP server in front of an actor runtime, the two step relations composed
      ([exec_node]): from a packet to the actor's queue and back to the connection.
    - HttpActor (src/net/httpactor): the HTTP handler as one function. HttpServe
      (component.go): the start of its server in a goroutine, and its stop.
    - Cluster (src/net/cluster/nats_cluster): messages between nodes; the work queue with
      its workers and Stop as a step relation ([exec_work]).
    - Nats (src/net/nats): the connection pool; requests and replies of a connection as a
      step relation ([exec_nats]).
    - DelayQueue (src/extend/time_wheel/delay_queue.go): the heap of the delay queue, its
      operations on arrays, and the queue against a multiset.
    - Poller (delay_queue.go): the goroutine that polls the queue and those that offer to
      it, at the grain of their atomic operations ([exec_dq]).
    - TimeWheel (src/extend/time_wheel, src/net/actor/actor_timer.go): levels, buckets,
      timers; the loop, the poller and the callers as a step relation ([exec_tw]).
    - TimeWheelInv: what holds of its runs. WheelLife (time_wheel.go): Start and Stop with
      the two goroutines.
    - Civil: the part of Go's time package in use: the Gregorian calendar, locations,
      [time.Date], [AddDate], layouts.
    - CTime (src/extend/time): the calendar helpers, all of them. CTimeLaws: what they
      compute.
    - Schedule (src/extend/time_wheel/schedule.go, actor_timer.go): schedules of fixed
      times of day.
    - Snowflake (src/extend/snowflake), Base58 (src/extend/base58): identifiers and their
      text forms.
    - Discovery (src/net/discovery): the member table, and the protocol over NATS by which
      nodes find each other, as a step relation of the network ([exec_disc]).
    - DiscoveryInv: what holds of its runs.
    - Etcd (src/net/discovery/discovery_etcd.go): nodes, their watches and the store as a
      step relation. EtcdInv: what holds of its runs.
    - Files (src/extend/file): paths and their cleaning, a file system that is read;
      FileSys: one that changes, with links, for the log.
    - Profile (src/profile, src/extend/json): the configuration with its includes, the
      node, the settings.
    - Connector (src/net/connector): the hand-over of sockets to the server, its stop, the
      WebSocket upgrade and the stream over its messages.
    - Disconnect, Server (src/net/parser/component.go): the component with its connectors
      in front of the connections, its shutdown (each Close of it in its steps), and the
      notice of a disconnect.
    - Links (src/net/nats/connect.go, src/net/cluster): a NATS connection with its
      subscriptions, and how the clusters use it.
    - Application (src/actorgo.go, src/application.go, the component files): registration,
      and [Startup] from the first hook to the last, with hooks as scripts of calls.
      Startup: what it does in which order.
    - Rabbit (src/net/cluster/rabbitmq_cluster): a network of nodes and a broker as a step
      relation ([exec_rb]), in which an identifier can be started again. RabbitInv: what
      holds of its runs.
    - DataConfig (src/components/data-config): tables that are loaded from files or from
      Redis and loaded again when they change.
    - RotateLogs (src/logger/rotatelogs): the rotating log on [FileSys], with the goroutines
      that remove old files, as a step relation ([exec_rl]), in which every call can fail, a
      write after any number of bytes. Logger (src/logger): the
      loggers of the package, from the profile.
    - Gin (src/components/gin), Databases (src/components/gorm, mongo, redis), Cron
      (src/components/cron), ActorBase (src/net/actor/actor_base.go).
    - Helpers (src/extend/slice, string, utils), AnyMap (src/extend/map/string_any_map.go)
      on a heap of Go maps, with a lock for each string map and not for each Go map,
      Containers (src/extend/map, queue, sync), Gob (src/extend/gob)
      with the aliasing of its pooled buffers, HttpClient (src/extend/http, net), Regex
      (src/extend/regex).
    - RedisLock (src/components/redis/lock.go): the locks of many processes on one server
      as a step relation ([exec_lock]). RedisRenew: the watchdog, the blocking operations.

    Every definition that models code is preceded by a comment with the file and the lines
    it translates. Names are the code's, with the receiver's type in front where two types
    share a method name.

    * What the theorems show

    - Messages and answers: [message_exactly_once] (one owner for each message, one answer
      for each call, under every interleaving), [typedMessage_fresh], [call_never_hangs],
      [local_call_answers], [PostEvent_delivers] (an event reaches every subscriber);
      [answers_are_own] for a server and a runtime together: what a connection is answered
      is what an actor said to that request of that connection.
    - Queues: [queue_fifo], [queue_no_lost_wakeup], [queue_drain] over the atomic steps,
      [aqueue_refinement] to the abstract queue, [loop_takes_queued_work] for the actor that
      uses it.
    - The life of actors: [routes_reach_serving_actors] (a route leads to an actor that
      serves it, late registrations apart), [stop_only_when_drained] (what a stopping actor
      leaves behind is bounded by the pushes on their way), [failed_init_withdraws],
      [wait_group_counts_actors].
    - Methods and codecs: [method_table_spec], [Dispatch_routes], [AdaptHandler_spec],
      [registry_sound], [Decode_local_remote].
    - Connections: [handshake_gates_dispatch], [inflight_bounded], [write_queue_fifo],
      [close_is_final] (what each step of Close ends, and what a late sender can still do),
      [manager_index_sound], [OnBeforeStop_closes_all]; [stop_returns],
      [connect_no_leak], [ws_stream] for the connectors; [server_stop_closes_all] and
      [disconnect_once] for the component.
    - Packets: [ValidatePacket_spec], [NormalizeLimits_spec], [PacketCodec_roundtrip],
      [framing_roundtrip], [writeFull_total].
    - HTTP: [ServeHTTP_spec]; [http_component_stops] (no request after the stop, wherever
      the start is); [AddParams_query] (the server finds the parameters of a client);
      [max_connect_bound], [gin_server_lifecycle] and [read_numbers_fit] for Gin.
    - Cluster: [cluster_message_roundtrip], [remote_request_answered],
      [cluster_stop_drains], [reply_correlation], [GetConnect_round_robin]; over RabbitMQ
      [rabbit_request_answered] and [rabbit_at_most_once] (while no identifier is started
      twice and no type of node holds a dot), and [transports_agree]: both transports do the
      same with a message.
    - The application: [components_unique], [startup_lifecycle] (the hooks run in the
      order of registration and stop in the reverse order), [startup_failed].
    - Timers: [delay_queue_spec], [poller_no_lost_wakeup] and [due_element_served] for the
      queue and its poller; [timers_on_time] (no timer runs before its time or more than
      the granularity of its level late), [wheel_never_stuck] (for tasks that do not call
      the wheel) and [stop_is_final];
      [FixedDateSchedule_spec] (the next time of a schedule is the first one of its hour,
      minute and second after the given time).
    - The calendar: [periods_bracket] (starts and ends of periods enclose the time and
      nothing else), [NoOverflow_spec] (months and years without overflow).
    - The distributed lock: [lock_mutual_exclusion], [auto_renew_holds],
      [Unlock_result], [Lock_loop_result].
    - Identifiers: [ids_unique], [snowflake_text_roundtrip], [base58_roundtrip],
      [base58_plain_digits] (the groups of ten digits are an optimisation).
    - Discovery: [table_queries], [listener_view]; [discovery_agrees] and
      [discovery_settles] while no node leaves; [etcd_settles].
    - Settings and logs: [LoadFile_overrides] (a profile over its includes), [Init_spec];
      [log_keeps_writes] (each write is in one file, once, as far as it was reported, under
      every interleaving and failure), [new_file_is_new], [purge_spec]; [loggers_stay], [NewLogger_files];
      [data_config_Init], [file_event_reads]; [gorm_Init_spec].
    - Helpers: [GetOrSet_first_wins] (on maps that do not share their data),
      [merge_ordered_progress] (string maps), [mpsc_fifo],
      the laws of slices, [encoded_until_reused] (gob), [regex_cache_transparent].
    - Data: [Clone_ref_refines], [ToActorPath_String], [ToActorPath_inv],
      [GenNodeId_fields], [GenNodeIdByStr_ToNodeIdStr], [Session_Restore_spec].

    Some theorems state behaviour that the code does not mean to have:
    [CreateActor_race] (two creations of one identifier that both pass the check),
    [late_register_leaves_route] (a route of an actor that is gone), [Count_misses_value] and
    [stop_leaves_finished_push] (a counter that lags behind its queue),
    [closing_still_indexed] and [closed_queues_late_response] (between the steps of Close),
    [closed_reports_ready] (a handshake that finishes after Close makes the closed
    connection report Ready), [InvokeChild_dotted_panics] (a child whose identifier holds a
    dot can be created and not be called), [late_timer_lost], [timer_two_ticks_early] and
    [exit_strands_offer] (races of the time wheel with its poller), [short_timer_immediate],
    [ParseBase32_accepts_letters_outside] and [ParseBase58_accepts_letters_outside] (decode
    tables that are not filled), [late_answer_keeps_gone_node], [new_master_knows_nobody]
    and [restarted_node_keeps_old_address] (tables that stay wrong after a node has left),
    [registered_in_init], [removed_in_init] and [stop_abandoned] (hooks that change the list
    that is being ranged over), [restarted_builder_loses_cluster],
    [stopped_node_keeps_connection], [restart_takes_stale_reply] and
    [dotted_types_share_a_queue] (RabbitMQ), [fixed_hour_across_dst] (a day taken as 24 hours),
    [GetAbsValue_beyond], [Microsecond_zero], [WeekOfMonth_days], [DiffInMonths_asymmetric],
    [offset_applied_twice], [unknown_location_panics] (the calendar helpers),
    [watchdog_not_restarted], [failed_renewal_ends_watchdog] and [short_renewal_releases]
    (locks that are lost), [delete_before_watch_missed], [second_read_adds_gone_node],
    [dead_node_keeps_key] and [moved_node_keeps_old_address] (etcd),
    [dotted_node_id_not_found], [absolute_path_shadowed] (profiles), [SetIfNotExist_both_true],
    [shared_data_loses_first], [merge_into_itself_hangs], [merge_into_each_other_hangs], [merge_stuck_forever],
    [merges_stuck_forever] and [given_map_is_shared] (maps), [stop_before_listen],
    [close_while_reconnecting], [change_panic_escapes], [change_told_anyway],
    [init_panic_loads_nothing], [two_dots_not_reloaded] and [redis_stop_hangs] (data
    tables), [wheel_stop_hangs] (a stop of the time wheel that waits for ever),
    [stop_under_lock_never_returns] (a task that stops a timer of its own bucket),
    [thirty_bits_repeat], [clock_too_large_is_negative] and [sixty_four_step_bits_repeat]
    (identifiers with more bits than there are),
    [encode_overwritten] (an encoding that the next one overwrites), [params_swallowed],
    [current_file_removed_by_count], [current_file_removed_by_age], [generations_stay],
    [link_dangles], [closed_log_refuses], [failed_write_tears_line], [purges_other_nodes], [max_age_wraps],
    [print_level_ignored], [no_caller_no_time_stderr_twice] and [var_order_matters] (logs),
    [body_read_is_lost], [stopped_before_init], [no_address_panics] and [params_disagree]
    (Gin), [full_dsn_garbled], [disabled_panics_or_skips], [Init_leaves_old_running] and
    [own_options_reject_daily].

    * Conventions and bounds

    A Go panic is [None] (of the whole step, or [w_crashed] where it ends the process); an
    error is [Err]. Where Go iterates over a map the order is an argument or a permutation,
    and theorems hold for every order. Time is a number the environment gives; a timer or a
    [select] that can take several branches is several enabled steps. The counters of the
    code are kept at their width (seconds of the calendar are not, which hold 292 billion years in
    Go; durations and nanosecond times are): the statements name the bound under which a counter does
    not wrap (2^31 queued values, 2^64 requests). The code of users can panic where the
    code guards it or a caller sees it (handlers, hooks, the authenticator); body codecs do
    not.

    Fuel: [writeFull_loop] takes the length of the data ([writeFull_total]: each turn writes
    at least a byte or ends); [mediaParams_ok] the length of the header, of which each
    parameter takes a character; [nextRequestID] two turns, since two successive values of a
    32-bit counter are not both zero; [digits_le] the number of binary digits.
    Adding a timer recurses once for each level it overflows, a factor of the wheel's size,
    so 64 levels reach past any int64 time; [run_fuel] is what a chain of expired timers
    needs. [base_fuel] is the number of binary digits of an identifier, which halves at
    least with every letter; the base 58 loops take the number of digits of the value, and
    [base58_roundtrip] shows that they suffice.

    * What is a parameter

    The protobuf library ([PacketProto], [ControlProto], [ClusterProto], [MemberProto]) and
    the encodings of bodies ([CodecLib]) are classes with their documented round trips as
    laws, each with a concrete instance at which the theorems are used. The NATS client,
    sockets, the HTTP server, the clock and the business code are choices of the run or
    functions the definitions take; so are the AMQP client and its broker, the hooks of user
    components ([Program]), the database of locations, and the parser of durations. The
    Redis server and the source of lock tokens are classes ([Redis], [Tokens]) with laws and
    instances. JSON and its lazy values are [JsonLib] and [AnyLib] with [AnyLaws], gob is
    [GobLib] with [GobLaws], regular expressions are [RegexpLib]; the strftime library, the
    requests of Gin ([gin_laws]), the drivers of databases, the parser of cron texts and the
    HTTP exchange of a client are functions. The CRC-32 checksum is a function. In the files
    of the runtime the logger has no effect on any state and is left out.

    * What is not modelled

    Tasks of the time wheel that call the wheel from the goroutine that runs them
    ([stop_under_lock_never_returns] shows one that hangs). The copy of mapstructure (src/extend/mapstructure) is third-party code that no file of
    the repository imports. Of zap the encoder and the core are not under src/, and the
    functions of the logger that hand a line on to them have no behaviour of their own; the
    same holds of the wrappers of zlib, hashes, NUID and reflection, of the gops agent, and
    of the interfaces of src/facade, which are Go declarations. Left out as well: the texts
    of logs, the statistics of NATS connections, TLS and the sockets themselves, the walk
    over directory trees, and getLeaseId of the etcd discovery, which nobody calls. *)
From Stdlib Require Export ZArith Lia Ascii String Strings.Byte.
From stdpp Require Export base numbers list strings gmap sets option.

#[global] Open Scope Z_scope.
Declare Scope go_scope.
Delimit Scope go_scope with go.
#[global] Open Scope go_scope.

(** ** Machine integers

    An integer of a Go type of width [w] is a [Z]; every operation that can leave
    the range of its type goes through one of the two wrap functions. *)

Definition wrapU (w z : Z) : Z := z mod 2 ^ w.
Definition wrapS (w z : Z) : Z := (z + 2 ^ (w - 1)) mod 2 ^ w - 2 ^ (w - 1).

Abbreviation u32 := (wrapU 32).
Abbreviation u64 := (wrapU 64).
Abbreviation i32 := (wrapS 32).
Abbreviation i64 := (wrapS 64).

Definition inU (w z : Z) : Prop := 0 <= z < 2 ^ w.
Definition inS (w z : Z) : Prop := - 2 ^ (w - 1) <= z < 2 ^ (w - 1).

Lemma wrapU_range w z : 0 <= w -> inU w (wrapU w z).
Proof. intros Hw. apply Z.mod_pos_bound. apply Z.pow_pos_nonneg; lia. Qed.

Lemma wrapU_id w z : inU w z -> wrapU w z = z.
Proof. intros Hz. apply Z.mod_small, Hz. Qed.

Lemma pow2_half w : 1 <= w -> 2 ^ w = 2 * 2 ^ (w - 1).
Proof. intros Hw. rewrite <- Z.pow_succ_r by lia. f_equal. lia. Qed.

Lemma wrapS_range w z : 1 <= w -> inS w (wrapS w z).
Proof.
  intros Hw. unfold inS, wrapS. pose proof (pow2_half w Hw) as E.
  pose proof (Z.pow_pos_nonneg 2 (w - 1) ltac:(lia) ltac:(lia)).
  pose proof (Z.mod_pos_bound (z + 2 ^ (w - 1)) (2 ^ w) ltac:(lia)). lia.
Qed.

Lemma wrapS_id w z : 1 <= w -> inS w z -> wrapS w z = z.
Proof.
  intros Hw Hz. unfold inS, wrapS in *. pose proof (pow2_half w Hw).
  rewrite Z.mod_small; lia.
Qed.

(** [wrapS] picks the representative of its argument modulo [2^w]. *)
Lemma wrapS_mod w z : 1 <= w -> wrapS w z mod 2 ^ w = z mod 2 ^ w.
Proof.
  intros Hw. unfold wrapS. pose proof (Z.pow_pos_nonneg 2 w ltac:(lia) ltac:(lia)).
  rewrite Zminus_mod_idemp_l. f_equal. lia.
Qed.

(** Go's [/] and [%] on integers truncate toward zero. *)
Abbreviation goquot := Z.quot.
Abbreviation gorem := Z.rem.

(** ** Results of fallible Go functions: [(T, error)] with a nil or a non-nil error *)

Inductive res (A : Type) : Type :=
| Ok (a : A)
| Err (e : string).
Arguments Ok {A} a.
Arguments Err {A} e.

Definition res_bind {A B} (m : res A) (k : A -> res B) : res B :=
  match m with Ok a => k a | Err e => Err e end.
Notation "x <-? m ;; k" := (res_bind m (fun x => k))
  (at level 100, m at next level, right associativity) : go_scope.
Notation "m ;;? k" := (res_bind m (fun _ => k))
  (at level 100, right associativity) : go_scope.

(** [if cond { return err }] *)
Definition guard_err (b : bool) (e : string) : res unit := if b then Err e else Ok tt.

Definition is_ok {A} (r : res A) : bool := match r with Ok _ => true | Err _ => false end.

Lemma res_bind_ok {A B} (m : res A) (k : A -> res B) b :
  res_bind m k = Ok b <-> exists a, m = Ok a /\ k a = Ok b.
Proof.
  destruct m as [a|e]; simpl; split.
  - intros H. by exists a.
  - by intros (a' & [= <-] & H).
  - done.
  - by intros (a' & ? & _).
Qed.

Lemma guard_err_ok b e u : guard_err b e = Ok u <-> b = false.
Proof. by destruct b, u. Qed.

(** ** Strings *)

Abbreviation str := String.string.

Definition str_len (s : str) : Z := Z.of_nat (String.length s).

(** [strings.Split(s, sep)] for a one-byte separator. *)
Fixpoint split_on (c : ascii) (s : str) : list str :=
  match s with
  | EmptyString => [EmptyString]
  | String a s' =>
      if Ascii.eqb a c then EmptyString :: split_on c s'
      else match split_on c s' with
           | h :: t => String a h :: t
           | [] => [String a EmptyString]
           end
  end.

(** [strings.Join(parts, sep)]. *)
Fixpoint join (sep : str) (parts : list str) : str :=
  match parts with
  | [] => EmptyString
  | [p] => p
  | p :: ps => String.append p (String.append sep (join sep ps))
  end.

Fixpoint str_mem (c : ascii) (s : str) : bool :=
  match s with EmptyString => false | String a s' => Ascii.eqb a c || str_mem c s' end.

Definition char_str (c : ascii) : str := String c EmptyString.

Lemma str_app_cons a s t : String.append (String a s) t = String a (String.append s t).
Proof. done. Qed.

Lemma str_app_nil_r s : String.append s EmptyString = s.
Proof. induction s as [|a s IH]; [done|]. by rewrite str_app_cons, IH. Qed.

Lemma str_app_assoc a b c : String.append a (String.append b c) = String.append (String.append a b) c.
Proof. induction a as [|x a IH]; [done|]. by rewrite !str_app_cons, IH. Qed.

Lemma str_append_inj p s t : String.append p s = String.append p t -> s = t.
Proof. induction p as [|a p IH]; [done|]. rewrite !str_app_cons. intros [= E]. by apply IH. Qed.

Lemma str_mem_app c a b : str_mem c (String.append a b) = str_mem c a || str_mem c b.
Proof. induction a as [|x a IH]; [done|]. rewrite str_app_cons. simpl. by rewrite IH, orb_assoc. Qed.

Lemma split_on_ne c s : split_on c s <> [].
Proof. destruct s; simpl; [done|]. destruct (Ascii.eqb _ _); [done|]. by destruct (split_on c s). Qed.

Lemma join_split_on c s : join (char_str c) (split_on c s) = s.
Proof.
  induction s as [|a s IH]; [done|]. simpl.
  pose proof (split_on_ne c s) as Hne. destruct (Ascii.eqb_spec a c) as [->|].
  - destruct (split_on c s); [done|]. by rewrite <- IH.
  - destruct (split_on c s) as [|h t]; [done|]. rewrite <- IH. by destruct t.
Qed.

Lemma split_on_nomem c s : str_mem c s = false -> split_on c s = [s].
Proof.
  induction s as [|a s IH]; simpl; [done|]. intros H.
  destruct (Ascii.eqb a c); [done|]. by rewrite IH.
Qed.

(** A separator-free first part splits off. *)
Lemma split_on_app c p s :
  str_mem c p = false -> split_on c (String.append p (String c s)) = p :: split_on c s.
Proof.
  induction p as [|a p IH]; intros H.
  - change (split_on c (String c s) = EmptyString :: split_on c s). simpl. by rewrite Ascii.eqb_refl.
  - rewrite str_app_cons. simpl in *. destruct (Ascii.eqb a c); [done|]. by rewrite IH.
Qed.

Lemma split_on_join c ps :
  ps <> [] -> Forall (fun p => str_mem c p = false) ps -> split_on c (join (char_str c) ps) = ps.
Proof.
  induction ps as [|p ps IH]; [done|]. intros _ [Hp Hps]%Forall_cons_iff.
  destruct ps as [|q ps]; [by apply split_on_nomem|].
  change (split_on c (String.append p (String c (join (char_str c) (q :: ps)))) = p :: q :: ps).
  rewrite split_on_app by done. by rewrite IH.
Qed.

Lemma split_on_parts_nomem c s : Forall (fun p => str_mem c p = false) (split_on c s).
Proof.
  induction s as [|a s IH]; simpl; [by repeat constructor|].
  destruct (Ascii.eqb a c) eqn:E; [by constructor|].
  destruct (split_on c s) as [|h t]; simpl in *.
  - repeat constructor. simpl. by rewrite E.
  - apply Forall_cons_iff in IH as [Hh Ht]. constructor; [|done]. simpl. by rewrite E.
Qed.

(** [strings.TrimSpace(s) == ""]: every rune of [s] is white space for [unicode.IsSpace]
    (the ASCII ones, and the UTF-8 encodings of U+0085, U+00A0, U+1680, U+2000-U+200A,
    U+2028, U+2029, U+202F, U+205F, U+3000). *)
Fixpoint is_blank (s : str) : bool :=
  match s with
  | EmptyString => true
  | String a s1 =>
      let b := N_of_ascii a in
      if ((9 <=? b) && (b <=? 13) || (b =? 32))%N then is_blank s1 else
      match s1 with
      | String a1 s2 =>
          let b1 := N_of_ascii a1 in
          if ((b =? 194) && ((b1 =? 133) || (b1 =? 160)))%N then is_blank s2 else
          match s2 with
          | String a2 s3 =>
              let b2 := N_of_ascii a2 in
              if (((b =? 225) && (b1 =? 154) && (b2 =? 128))
                  || ((b =? 226) && (b1 =? 128)
                      && (((128 <=? b2) && (b2 <=? 138)) || (b2 =? 168) || (b2 =? 169) || (b2 =? 175)))
                  || ((b =? 226) && (b1 =? 129) && (b2 =? 159))
                  || ((b =? 227) && (b1 =? 128) && (b2 =? 128)))%N
              then is_blank s3 else false
          | EmptyString => false
          end
      | EmptyString => false
      end
  end.

(** ** Bytes *)

Abbreviation bytes := (list Byte.byte).

#[global] Instance byte_eq_decision : EqDecision Byte.byte := Byte.byte_eq_dec.

Definition byte_val (b : Byte.byte) : Z := Z.of_N (Byte.to_N b).
Definition byte_of (z : Z) : Byte.byte :=
  match Byte.of_N (Z.to_N (z mod 256)) with Some b => b | None => Byte.x00 end.

Lemma byte_val_range b : 0 <= byte_val b < 256.
Proof. unfold byte_val. pose proof (Byte.to_N_bounded b). lia. Qed.

Lemma byte_val_of z : byte_val (byte_of z) = z mod 256.
Proof.
  unfold byte_val, byte_of. pose proof (Z.mod_pos_bound z 256 ltac:(lia)).
  destruct (Byte.of_N _) as [b|] eqn:E.
  - apply Byte.to_of_N in E. rewrite E. lia.
  - apply Byte.of_N_None_iff in E. lia.
Qed.

Lemma byte_of_val b : byte_of (byte_val b) = b.
Proof.
  unfold byte_of. rewrite Z.mod_small by apply byte_val_range.
  unfold byte_val. rewrite N2Z.id. by rewrite Byte.of_to_N.
Qed.

(** Bytes of a positive number, one for each binary digit: a simple encoding for examples. *)
Fixpoint pos_bytes (p : positive) : bytes :=
  match p with
  | xH => [Byte.x02]
  | xO p => Byte.x00 :: pos_bytes p
  | xI p => Byte.x01 :: pos_bytes p
  end.
Fixpoint bytes_pos (b : bytes) : option positive :=
  match b with
  | [Byte.x02] => Some xH
  | Byte.x00 :: b => xO <$> bytes_pos b
  | Byte.x01 :: b => xI <$> bytes_pos b
  | _ => None
  end.
Lemma bytes_pos_bytes p : bytes_pos (pos_bytes p) = Some p.
Proof. induction p as [p IH|p IH|]; simpl; by rewrite ?IH. Qed.

Definition blen (bs : bytes) : Z := Z.of_nat (length bs).

(** [binary.BigEndian.PutUint32] and [binary.BigEndian.Uint32]. *)
Definition be32_put (z : Z) : bytes :=
  [byte_of (Z.shiftr z 24); byte_of (Z.shiftr z 16); byte_of (Z.shiftr z 8); byte_of z].
Definition be32_get (a b c d : Byte.byte) : Z :=
  byte_val a * 2 ^ 24 + byte_val b * 2 ^ 16 + byte_val c * 2 ^ 8 + byte_val d.

Lemma be32_roundtrip z : inU 32 z ->
  match be32_put z with [a; b; c; d] => be32_get a b c d = z | _ => False end.
Proof.
  unfold inU, be32_put, be32_get. intros Hz.
  rewrite !byte_val_of, !Z.shiftr_div_pow2 by lia.
  change (2 ^ 24) with 16777216. change (2 ^ 16) with 65536. change (2 ^ 8) with 256.
  change (2 ^ 32) with 4294967296 in Hz.
  pose proof (Z.div_mod z 256 ltac:(lia)).
  pose proof (Z.div_mod (z / 256) 256 ltac:(lia)).
  pose proof (Z.div_mod (z / 65536) 256 ltac:(lia)).
  pose proof (Z.div_div z 256 256 ltac:(lia) ltac:(lia)).
  pose proof (Z.div_div z 65536 256 ltac:(lia) ltac:(lia)).
  change (256 * 256) with 65536 in *. change (65536 * 256) with 16777216 in *.
  assert (z / 16777216 < 256) by (apply Z.div_lt_upper_bound; lia).
  assert (0 <= z / 16777216) by (apply Z.div_pos; lia).
  rewrite (Z.mod_small (z / 16777216)) by lia. lia.
Qed.

(** ** Maps: Go's [map[K]V] may be nil. [None] is the nil map; assigning to it panics. *)

Abbreviation gomap K V := (option (gmap K V)).

Definition gomap_get {V} `{Countable K} (m : gomap K V) (k : K) : option V :=
  match m with Some g => g !! k | None => None end.
Definition gomap_len {V} `{Countable K} (m : gomap K V) : Z :=
  match m with Some g => Z.of_nat (size g) | None => 0 end.
(** [delete(m, k)] is a no-op on a nil map. *)
Definition gomap_delete {V} `{Countable K} (k : K) (m : gomap K V) : gomap K V :=
  match m with Some g => Some (delete k g) | None => None end.

(** ** Counting *)

(** How often [x] is in a list. *)
Fixpoint occ (x : nat) (l : list nat) : nat :=
  match l with [] => 0 | y :: l' => (if Nat.eqb x y then 1 else 0) + occ x l' end.

Lemma occ_app x l1 l2 : occ x (l1 ++ l2) = (occ x l1 + occ x l2)%nat.
Proof. induction l1 as [|y l1 IH]; simpl; [done|]. rewrite IH. lia. Qed.

Lemma occ_pos x l : (0 < occ x l)%nat <-> x ∈ l.
Proof.
  induction l as [|y l IH]; simpl; [split; [lia|by intros ?%not_elem_of_nil]|].
  rewrite elem_of_cons. destruct (Nat.eqb_spec x y) as [->|Hne]; [split; [by left|lia]|].
  simpl. rewrite IH. split; [by right|]. by intros [?|?].
Qed.

Lemma occ_nodup l : (forall x, (occ x l <= 1)%nat) -> NoDup l.
Proof.
  induction l as [|y l IH]; intros H; constructor.
  - intros Hin%occ_pos. specialize (H y). simpl in H. rewrite Nat.eqb_refl in H. lia.
  - apply IH. intros x. specialize (H x). simpl in H. lia.
Qed.

Lemma occ_delete x (l : list nat) i y : l !! i = Some y ->
  occ x l = ((if Nat.eqb x y then 1 else 0) + occ x (delete i l))%nat.
Proof.
  revert i. induction l as [|z l IH]; intros [|i] H; simplify_eq/=; [done|].
  rewrite (IH i H). lia.
Qed.

(** ** Tactics *)

(** Case analysis on the first [if] or [match] scrutinee of the goal. *)
Ltac case_if := match goal with
  | |- context [ if ?b then _ else _ ] => let E := fresh "E" in destruct b eqn:E
  end.
Ltac case_if_in H := match type of H with
  | context [ if ?b then _ else _ ] => let E := fresh "E" in destruct b eqn:E
  end.
Ltac case_match_in H := match type of H with
  | context [ match ?x with _ => _ end ] => let E := fresh "E" in destruct x eqn:E
  end.

(** Boolean comparisons to propositions. *)
Lemma negb_eqb_true a b : negb (a =? b) = true <-> a <> b.
Proof. rewrite negb_true_iff, Z.eqb_neq. done. Qed.
Ltac breflect := repeat match goal with
  | H : (_ && _)%bool = true |- _ => apply andb_true_iff in H as [? ?]
  | H : (_ && _)%bool = false |- _ => apply andb_false_iff in H
  | H : (_ || _)%bool = false |- _ => apply orb_false_iff in H as [? ?]
  | H : (_ || _)%bool = true |- _ => apply orb_true_iff in H
  | H : negb _ = true |- _ => apply negb_true_iff in H
  | H : negb _ = false |- _ => apply negb_false_iff in H
  | H : (_ =? _) = true |- _ => apply Z.eqb_eq in H
  | H : (_ =? _) = false |- _ => apply Z.eqb_neq in H
  | H : (_ <? _) = true |- _ => apply Z.ltb_lt in H
  | H : (_ <? _) = false |- _ => apply Z.ltb_ge in H
  | H : (_ <=? _) = true |- _ => apply Z.leb_le in H
  | H : (_ <=? _) = false |- _ => apply Z.leb_gt in H
  | H : String.eqb _ _ = true |- _ => apply String.eqb_eq in H
  | H : String.eqb _ _ = false |- _ => apply String.eqb_neq in H
  end.

Create HintDb golib.
#[export] Hint Resolve wrapU_range wrapS_range byte_val_range : golib.
Create Rewrite HintDb golib.
#[export] Hint Rewrite @res_bind_ok guard_err_ok : golib.
