(* ===== verification/Strconv.v ===== *)
(** Decimal (and base [b]) conversion between integers and strings, as Go's
    [strconv] package does it: [FormatInt]/[FormatUint]/[Itoa] and
    [ParseUint]/[ParseInt]/[Atoi] with their syntax and range errors.  The
    components that print or parse numbers (node identifiers, snowflake IDs, the
    HTTP route and timeout header, session values) share these definitions and
    the round-trip lemmas below. *)
From S2P Require Import Prelude.

(** ** Digits *)

Definition digit_char (d : Z) : ascii :=
  if d <? 10 then ascii_of_N (Z.to_N (48 + d)) else ascii_of_N (Z.to_N (87 + d)).

Definition digit_val (c : ascii) : option Z :=
  let n := Z.of_N (N_of_ascii c) in
  if (48 <=? n) && (n <=? 57) then Some (n - 48)
  else if (97 <=? n) && (n <=? 122) then Some (n - 87)
  else if (65 <=? n) && (n <=? 90) then Some (n - 55)
  else None.

Lemma ascii_code z : 0 <= z < 256 -> Z.of_N (N_of_ascii (ascii_of_N (Z.to_N z))) = z.
Proof. intros Hz. rewrite N_ascii_embedding; lia. Qed.

Lemma digit_val_char d : 0 <= d < 36 -> digit_val (digit_char d) = Some d.
Proof.
  intros Hd. unfold digit_val, digit_char.
  destruct (Z.ltb_spec d 10); rewrite ascii_code by lia; cbv zeta.
  - rewrite (proj2 (Z.leb_le 48 (48 + d))), (proj2 (Z.leb_le (48 + d) 57)) by lia. simpl.
    f_equal. lia.
  - rewrite (proj2 (Z.leb_gt (87 + d) 57)), andb_false_r by lia.
    rewrite (proj2 (Z.leb_le 97 (87 + d))), (proj2 (Z.leb_le (87 + d) 122)) by lia. simpl.
    f_equal. lia.
Qed.

(** Little-endian digits of [n] in base [b]; [fuel] bounds their number. *)
Fixpoint digits_le (fuel : nat) (b n : Z) : list Z :=
  match fuel with
  | O => []
  | S f => if n <? b then [n] else (n mod b) :: digits_le f b (n / b)
  end.

(** Value of a big-endian digit list. *)
Definition eval_digits (b acc : Z) (ds : list Z) : Z := fold_left (fun a d => a * b + d) ds acc.

Lemma eval_digits_app b acc ds1 ds2 :
  eval_digits b acc (ds1 ++ ds2) = eval_digits b (eval_digits b acc ds1) ds2.
Proof. apply fold_left_app. Qed.

Lemma eval_digits_acc b acc ds : eval_digits b acc ds = acc * b ^ Z.of_nat (length ds) + eval_digits b 0 ds.
Proof.
  induction ds as [|d ds IH] using rev_ind; [simpl; lia|]. rewrite !eval_digits_app, length_app, Nat.add_1_r, Nat2Z.inj_succ, Z.pow_succ_r by lia.
  change (eval_digits b ?x [d]) with (x * b + d). rewrite IH. lia.
Qed.

Lemma eval_digits_zeros b k ds : eval_digits b 0 (replicate k 0 ++ ds) = eval_digits b 0 ds.
Proof. induction k as [|k IH]; [done|]. exact IH. Qed.

Lemma eval_digits_le fuel b n :
  2 <= b -> 0 <= n < b ^ Z.of_nat fuel -> eval_digits b 0 (rev (digits_le fuel b n)) = n.
Proof.
  intros Hb. revert n. induction fuel as [|f IH]; intros n Hn; simpl.
  - simpl in Hn. unfold eval_digits. simpl. lia.
  - rewrite Nat2Z.inj_succ, Z.pow_succ_r in Hn by lia.
    destruct (Z.ltb_spec n b); simpl; [unfold eval_digits; simpl; lia|].
    rewrite eval_digits_app, IH.
    + unfold eval_digits. simpl. pose proof (Z.div_mod n b ltac:(lia)). lia.
    + split; [apply Z.div_pos; lia|]. apply Z.div_lt_upper_bound; lia.
Qed.

Lemma digits_le_range fuel b n :
  2 <= b -> 0 <= n -> Forall (fun d => 0 <= d < b) (digits_le fuel b n).
Proof.
  intros Hb. revert n. induction fuel as [|f IH]; intros n Hn; simpl; [constructor|].
  destruct (Z.ltb_spec n b); repeat constructor; try lia.
  - apply Z.mod_pos_bound. lia.
  - apply Z.mod_pos_bound. lia.
  - apply IH. apply Z.div_pos; lia.
Qed.

Lemma digits_le_ne fuel b n : digits_le (S fuel) b n <> [].
Proof. simpl. by destruct (n <? b). Qed.

(** Enough fuel: as many digits as [n] has bits. *)
Definition digit_fuel (n : Z) : nat := S (Z.to_nat (Z.log2 n)).

Lemma digit_fuel_ok b n : 2 <= b -> 0 <= n -> n < b ^ Z.of_nat (digit_fuel n).
Proof.
  intros Hb Hn. unfold digit_fuel. rewrite Nat2Z.inj_succ, Z2Nat.id by apply Z.log2_nonneg.
  apply Z.lt_le_trans with (2 ^ Z.succ (Z.log2 n)).
  - destruct (Z.eq_dec n 0) as [->|]; [done|]. apply Z.log2_spec. lia.
  - apply Z.pow_le_mono_l. lia.
Qed.

(** ** Formatting *)

(** The digits of [FormatUint], most significant first. *)
Definition uint_digits (b n : Z) : list Z := rev (digits_le (digit_fuel n) b n).

Definition format_uint (b n : Z) : str := string_of_list_ascii (map digit_char (uint_digits b n)).

Definition minus_char : ascii := ascii_of_N 45.
Definition plus_char : ascii := ascii_of_N 43.

Definition format_int (b n : Z) : str :=
  if n <? 0 then String minus_char (format_uint b (- n)) else format_uint b n.

Abbreviation itoa := (format_int 10).

(** ** Parsing *)

Inductive num_error := ErrSyntax | ErrRange.

#[global] Instance num_error_eq_dec : EqDecision num_error.
Proof. solve_decision. Defined.

(** The digit loop of [ParseUint]: the first bad character or overflow decides. *)
Fixpoint parse_digits (b max acc : Z) (cs : list ascii) : Z * option num_error :=
  match cs with
  | [] => (acc, None)
  | c :: cs' =>
      match digit_val c with
      | None => (0, Some ErrSyntax)
      | Some d =>
          if d <? b then
            if acc * b + d <=? max then parse_digits b max (acc * b + d) cs'
            else (max, Some ErrRange)
          else (0, Some ErrSyntax)
      end
  end.

Definition parse_uint (b bits : Z) (s : str) : Z * option num_error :=
  match s with
  | EmptyString => (0, Some ErrSyntax)
  | _ => parse_digits b (2 ^ bits - 1) 0 (list_ascii_of_string s)
  end.

Definition parse_int (b bits : Z) (s : str) : Z * option num_error :=
  match s with
  | EmptyString => (0, Some ErrSyntax)
  | String c s' =>
      let neg := Ascii.eqb c minus_char in
      let body := if neg || Ascii.eqb c plus_char then s' else s in
      match parse_uint b bits body with
      | (_, Some ErrSyntax) => (0, Some ErrSyntax)
      | (un, _) =>
          let cutoff := 2 ^ (bits - 1) in
          if negb neg && (cutoff <=? un) then (cutoff - 1, Some ErrRange)
          else if neg && (cutoff <? un) then (- cutoff, Some ErrRange)
          else (if neg then - un else un, None)
      end
  end.

Abbreviation atoi := (parse_int 10 64).

(** ** Round trips *)

Lemma parse_digits_ok b max ds acc :
  2 <= b <= 36 -> Forall (fun d => 0 <= d < b) ds -> 0 <= acc ->
  eval_digits b acc ds <= max ->
  parse_digits b max acc (map digit_char ds) = (eval_digits b acc ds, None).
Proof.
  intros Hb Hds. revert acc. induction Hds as [|d ds Hd Hds IH]; intros acc Hacc Hmax; [done|].
  simpl. rewrite digit_val_char by lia. rewrite (proj2 (Z.ltb_lt d b)) by lia.
  assert (Hmono : forall a, 0 <= a -> a <= eval_digits b a ds).
  { clear -Hds Hb. induction Hds as [|e es He Hes IH]; intros a Ha; simpl; [done|].
    etransitivity; [|apply IH; nia]. nia. }
  change (eval_digits b acc (d :: ds)) with (eval_digits b (acc * b + d) ds) in *.
  assert (0 <= acc * b + d) by nia.
  rewrite (proj2 (Z.leb_le (acc * b + d) max)) by (specialize (Hmono _ H); lia).
  by apply IH.
Qed.

Lemma uint_digits_eval b n : 2 <= b -> 0 <= n -> eval_digits b 0 (uint_digits b n) = n.
Proof. intros Hb Hn. apply eval_digits_le; [done|]. split; [done|]. by apply digit_fuel_ok. Qed.

Lemma uint_digits_range b n : 2 <= b -> 0 <= n -> Forall (fun d => 0 <= d < b) (uint_digits b n).
Proof. intros. by apply Forall_rev, digits_le_range. Qed.

Lemma uint_digits_ne b n : uint_digits b n <> [].
Proof.
  unfold uint_digits, digit_fuel. intros E. apply (f_equal (@rev Z)) in E.
  rewrite rev_involutive in E. by apply digits_le_ne in E.
Qed.

Lemma format_uint_cons b n : exists c s, format_uint b n = String c s.
Proof.
  unfold format_uint. pose proof (uint_digits_ne b n).
  destruct (uint_digits b n) as [|d ds]; [done|]. simpl. by eexists _, _.
Qed.

Lemma format_uint_chars b n : list_ascii_of_string (format_uint b n) = map digit_char (uint_digits b n).
Proof. apply list_ascii_of_string_of_list_ascii. Qed.

Theorem parse_format_uint b bits n :
  2 <= b <= 36 -> 0 <= n < 2 ^ bits -> parse_uint b bits (format_uint b n) = (n, None).
Proof.
  intros Hb Hn. unfold parse_uint. destruct (format_uint_cons b n) as (c & s & E). rewrite E, <- E.
  rewrite format_uint_chars, parse_digits_ok, uint_digits_eval; try done; try lia.
  - apply uint_digits_range; lia.
  - rewrite uint_digits_eval; lia.
Qed.

(** A digit is never a sign. *)
Lemma digit_char_not_sign d : 0 <= d < 36 -> digit_char d <> minus_char /\ digit_char d <> plus_char.
Proof.
  intros Hd. pose proof (digit_val_char d Hd). split; intros E; rewrite E in H; discriminate.
Qed.

Lemma format_uint_first b n : 2 <= b <= 36 -> 0 <= n -> exists d s, 0 <= d < b /\
  format_uint b n = String (digit_char d) s.
Proof.
  intros Hb Hn. unfold format_uint. pose proof (uint_digits_ne b n).
  pose proof (uint_digits_range b n ltac:(lia) Hn) as Hr.
  destruct (uint_digits b n) as [|d ds]; [done|]. apply Forall_cons_iff in Hr as [Hd _].
  by exists d, (string_of_list_ascii (map digit_char ds)).
Qed.

Theorem parse_format_int b bits n :
  2 <= b <= 36 -> 1 <= bits -> inS bits n -> parse_int b bits (format_int b n) = (n, None).
Proof.
  unfold inS. intros Hb Hbits Hn. pose proof (pow2_half bits Hbits) as Hp.
  pose proof (Z.pow_pos_nonneg 2 (bits - 1) ltac:(lia) ltac:(lia)).
  unfold format_int. destruct (Z.ltb_spec n 0); unfold parse_int.
  - change (Ascii.eqb minus_char minus_char) with true. cbv zeta. simpl orb. cbv iota.
    rewrite parse_format_uint by lia. simpl.
    rewrite (proj2 (Z.ltb_ge _ _)) by lia. f_equal. lia.
  - destruct (format_uint_first b n Hb ltac:(lia)) as (d & s & Hd & E).
    rewrite E. destruct (digit_char_not_sign d ltac:(lia)) as [H1 H2].
    rewrite (proj2 (Ascii.eqb_neq _ _) H1), (proj2 (Ascii.eqb_neq _ _) H2). cbv zeta. simpl orb. cbv iota.
    rewrite <- E, parse_format_uint by lia. simpl.
    by rewrite (proj2 (Z.leb_gt _ _)) by lia.
Qed.

(** A successful parse is in range. *)
Lemma parse_digits_bound b max cs acc v :
  2 <= b -> 0 <= acc <= max -> parse_digits b max acc cs = (v, None) -> 0 <= v <= max.
Proof.
  intros Hb. revert acc. induction cs as [|c cs IH]; intros acc Hacc; simpl; [by intros [= <-]|].
  destruct (digit_val c) as [d|] eqn:Ed; [|done].
  assert (0 <= d).
  { unfold digit_val in Ed. repeat case_if_in Ed; breflect; try done; injection Ed; lia. }
  destruct (d <? b); [|done]. destruct (Z.leb_spec (acc * b + d) max); [|done].
  apply IH. nia.
Qed.

Lemma parse_uint_bound b bits s v :
  2 <= b -> 0 <= bits -> parse_uint b bits s = (v, None) -> 0 <= v < 2 ^ bits.
Proof.
  intros Hb Hbits. unfold parse_uint. destruct s; [done|]. intros H.
  pose proof (Z.pow_pos_nonneg 2 bits ltac:(lia) ltac:(lia)).
  apply parse_digits_bound in H; lia.
Qed.
#[export] Hint Resolve parse_uint_bound : golib.

(** ** Big-endian bytes *)

(** The low [n] bytes of [z], most significant first, and the number of a byte string. *)
Fixpoint be_put (n : nat) (z : Z) : bytes :=
  match n with O => [] | S n => be_put n (Z.shiftr z 8) ++ [byte_of z] end.
Definition be_get (bs : bytes) : Z := eval_digits 256 0 (map byte_val bs).

Lemma be_get_app bs1 bs2 : be_get (bs1 ++ bs2) = eval_digits 256 (be_get bs1) (map byte_val bs2).
Proof. unfold be_get. by rewrite map_app, eval_digits_app. Qed.

Lemma be_get_put n z : be_get (be_put n z) = z mod 256 ^ Z.of_nat n.
Proof.
  revert z. induction n as [|n IH]; intros z; cbn [be_put]; [by rewrite Z.mod_1_r|].
  rewrite be_get_app, IH. unfold eval_digits. simpl. rewrite byte_val_of, Z.shiftr_div_pow2 by lia. change (2 ^ 8) with 256.
  rewrite Nat2Z.inj_succ, Z.pow_succ_r by lia. rewrite Z.rem_mul_r by lia. lia.
Qed.

(** ** Digits without leading zeros *)

(** The digits of [n], least significant first; 0 has none. *)
Definition ldigits (b n : Z) : list Z := if n =? 0 then [] else digits_le (digit_fuel n) b n.

Definition no_leading_zero (ds : list Z) : Prop := match ds with [] => True | d :: _ => d <> 0 end.

Lemma digits_le_enough b n f1 f2 : 2 <= b -> 0 <= n -> n < b ^ Z.of_nat f1 -> n < b ^ Z.of_nat f2 -> (0 < f1)%nat -> (0 < f2)%nat ->
  digits_le f1 b n = digits_le f2 b n.
Proof.
  intros Hb. revert n f2. induction f1 as [|f1 IH]; intros n f2 Hn H1 H2 P1 P2; [lia|]. destruct f2 as [|f2]; [lia|]. cbn [digits_le].
  rewrite Nat2Z.inj_succ, Z.pow_succ_r in H1, H2 by lia. destruct (Z.ltb_spec n b) as [|Hge]; [done|]. f_equal.
  apply IH; try (apply Z.div_lt_upper_bound; lia); try (apply Z.div_pos; lia).
  - destruct f1; [simpl in H1; lia|lia].
  - destruct f2; [simpl in H2; lia|lia].
Qed.

Lemma ldigits_step b n : 2 <= b -> 0 < n -> ldigits b n = n mod b :: ldigits b (n / b).
Proof.
  intros Hb Hn. unfold ldigits at 1. rewrite (proj2 (Z.eqb_neq _ _)) by lia. unfold digit_fuel. cbn [digits_le].
  destruct (Z.ltb_spec n b) as [Hlt|Hge].
  - rewrite Z.mod_small, Z.div_small by lia. done.
  - f_equal. assert (1 <= n / b) by (apply Z.div_le_lower_bound; lia). unfold ldigits. rewrite (proj2 (Z.eqb_neq _ _)) by lia.
    assert (Hl : 0 < Z.log2 n) by (apply Z.log2_pos; lia). assert (Hn1 : n / b < n) by (apply Z.div_lt; lia).
    pose proof (digit_fuel_ok b n Hb ltac:(lia)) as Hf. unfold digit_fuel in Hf. rewrite Nat2Z.inj_succ, Z.pow_succ_r in Hf by lia.
    apply digits_le_enough; [lia|lia|apply Z.div_lt_upper_bound; lia|apply digit_fuel_ok; lia|lia|unfold digit_fuel; lia].
Qed.

Lemma ldigits_eval b n : 2 <= b -> 0 <= n -> eval_digits b 0 (rev (ldigits b n)) = n.
Proof. intros Hb Hn. unfold ldigits. destruct (Z.eqb_spec n 0) as [->|]; [done|]. by apply uint_digits_eval. Qed.

Lemma ldigits_range b n : 2 <= b -> 0 <= n -> Forall (fun d => 0 <= d < b) (ldigits b n).
Proof. intros Hb Hn. unfold ldigits. destruct (n =? 0); [constructor|]. by apply digits_le_range. Qed.

Lemma eval_digits_nonneg b acc ds : 0 <= b -> 0 <= acc -> Forall (fun d => 0 <= d < b) ds -> 0 <= eval_digits b acc ds.
Proof.
  intros Hb Ha Hds. revert acc Ha. induction Hds as [|d ds Hd _ IH]; intros acc Ha; [done|]. apply (IH (acc * b + d)). nia.
Qed.

Lemma eval_digits_pos b ds : 2 <= b -> Forall (fun d => 0 <= d < b) ds -> no_leading_zero ds -> ds <> [] -> 0 < eval_digits b 0 ds.
Proof.
  intros Hb Hds Hz Hne. destruct ds as [|d ds]; [done|]. simpl in Hz. apply Forall_cons_iff in Hds as [Hd Hds].
  change (0 < eval_digits b (0 * b + d) ds). rewrite Z.mul_0_l, Z.add_0_l. clear Hne. assert (0 < d) by lia. clear Hz Hd. revert d H.
  induction Hds as [|e ds He _ IH]; intros d Hd; [done|]. apply (IH (d * b + e)). nia.
Qed.

(** The digits of a number are the only ones without a leading zero. *)
Lemma ldigits_of_eval b ds : 2 <= b -> Forall (fun d => 0 <= d < b) ds -> no_leading_zero ds -> ldigits b (eval_digits b 0 ds) = rev ds.
Proof.
  intros Hb. induction ds as [|d ds IH] using rev_ind; [done|]. intros Hds Hz. pose proof Hds as Hall.
  apply Forall_app in Hds as [Hds Hd]. apply Forall_cons_iff in Hd as [Hd _].
  assert (Hz' : no_leading_zero ds) by (destruct ds; done).
  pose proof (eval_digits_pos b (ds ++ [d]) Hb Hall Hz ltac:(by destruct ds)) as Hpos.
  pose proof (eval_digits_nonneg b 0 ds ltac:(lia) ltac:(lia) Hds).
  rewrite ldigits_step by lia. rewrite eval_digits_app in *. change (eval_digits b ?x [d]) with (x * b + d) in *.
  rewrite Z.add_comm, Z.mod_add, Z.div_add, Z.mod_small, Z.div_small, Z.add_0_l, rev_app_distr by lia. by rewrite IH.
Qed.

Lemma strip_zeros (ds : list Z) : exists k es, ds = replicate k 0 ++ es /\ no_leading_zero es.
Proof.
  induction ds as [|d ds (k & es & -> & He)]; [by exists 0%nat, []|].
  destruct (Z.eq_dec d 0) as [->|Hne]; [by exists (S k), es|]. by exists 0%nat, (d :: replicate k 0 ++ es).
Qed.

Lemma ldigits_no_leading b n : 2 <= b -> 0 <= n -> no_leading_zero (rev (ldigits b n)).
Proof.
  intros Hb Hn. destruct (rev (ldigits b n)) as [|d ds] eqn:E; [done|]. intros Hd. cbn in Hd. subst d.
  pose proof (ldigits_eval b n Hb Hn) as Hev. rewrite E in Hev. change (eval_digits b 0 (0 :: ds)) with (eval_digits b 0 ds) in Hev.
  (* dropping the leading zeros gives shorter digits of the same number *)
  assert (Hr : Forall (fun d => 0 <= d < b) (0 :: ds)) by (rewrite <- E; by apply Forall_rev, ldigits_range).
  apply Forall_cons_iff in Hr as [_ Hr]. destruct (strip_zeros ds) as (k & es & -> & He). apply Forall_app in Hr as [_ Hr].
  rewrite eval_digits_zeros in Hev. pose proof (ldigits_of_eval b es Hb Hr He) as Hl. rewrite Hev in Hl. rewrite Hl, rev_involutive in E.
  apply (f_equal (@length Z)) in E. simpl in E. rewrite length_app, length_replicate in E. lia.
Qed.

(** ** Ranges *)

Lemma digit_val_nonneg c d : digit_val c = Some d -> 0 <= d.
Proof. unfold digit_val. repeat case_if; intros [= <-]; try lia; breflect; lia. Qed.

Lemma parse_digits_nonneg b max acc cs : 0 <= b -> 0 <= max -> 0 <= acc -> 0 <= (parse_digits b max acc cs).1.
Proof.
  intros Hb Hm. revert acc. induction cs as [|c cs IH]; intros acc Ha; simpl; [done|]. destruct (digit_val c) as [d|] eqn:E; [|done].
  apply digit_val_nonneg in E. destruct (d <? b); [|done]. case_if; [|done]. apply IH. nia.
Qed.

(** What [ParseInt] gives without an error has the width asked for. *)
Lemma parse_int_range b bits s v : 0 <= b -> 1 <= bits -> parse_int b bits s = (v, None) -> inS bits v.
Proof.
  intros Hb Hw. unfold parse_int, inS. destruct s as [|c s]; [done|]. destruct (parse_uint b bits _) as [un e] eqn:E. assert (0 <= un) as Hun.
  { revert E. unfold parse_uint. generalize (if Ascii.eqb c minus_char || Ascii.eqb c plus_char then s else String c s). intros [|c' s']; [by intros [= <- _]|].
    intros E. change un with (un, e).1. rewrite <- E. apply parse_digits_nonneg; [done| |done]. pose proof (Z.pow_pos_nonneg 2 bits). lia. }
  pose proof (Z.pow_pos_nonneg 2 (bits - 1)) as Hp. destruct e as [[]|]; [done| |];
    (destruct (Ascii.eqb c minus_char); cbn [negb andb]; case_if; try done; intros [= <-]; breflect; lia).
Qed.

(** A sign that is not a digit is not in a number. *)
Lemma format_no_char c n : 0 <= n -> forallb (fun d => negb (Ascii.eqb (digit_char d) c)) [0; 1; 2; 3; 4; 5; 6; 7; 8; 9] = true ->
  str_mem c (format_uint 10 n) = false.
Proof.
  intros Hn Hc. assert (forall d, 0 <= d < 10 -> Ascii.eqb (digit_char d) c = false) as Hd.
  { intros d Hd. rewrite forallb_forall in Hc. apply negb_true_iff, Hc. simpl. lia. }
  unfold format_uint. pose proof (uint_digits_range 10 n ltac:(lia) Hn) as Hr. induction Hr as [|d ds Hr _ IH]; [done|]. simpl. by rewrite Hd.
Qed.
