(* ===== verification/Facade.v ===== *)
(** The vocabulary every layer of the framework shares (package [facade], with
    [net/proto/session.go] and [extend/string]'s [ToString]): AGP status codes,
    actor paths and their textual form, packed node identifiers, invocation
    results, Go contexts and request contexts, sessions, and the pooled
    delivery message.

    Go's [any] payloads are [payload]: nil, a byte slice, or a typed value whose
    type carries what reflection looks at and whose content is opaque. *)
From S2P Require Import Prelude Strconv.

(** ** Status codes and message types (net/proto/agp.proto, cluster_message.proto) *)

(** src/net/proto/agp.proto:8-23, StatusCode *)
Inductive StatusCode :=
| STATUS_OK | STATUS_CANCELLED | STATUS_INVALID_ARGUMENT | STATUS_DEADLINE_EXCEEDED
| STATUS_NOT_FOUND | STATUS_ALREADY_EXISTS | STATUS_PERMISSION_DENIED
| STATUS_UNAUTHENTICATED | STATUS_RESOURCE_EXHAUSTED | STATUS_FAILED_PRECONDITION
| STATUS_ABORTED | STATUS_INTERNAL | STATUS_UNAVAILABLE | STATUS_UNSUPPORTED_MEDIA.

(** src/net/proto/agp.proto:8-23, StatusCode *)
Definition status_num (c : StatusCode) : Z :=
  match c with
  | STATUS_OK => 0 | STATUS_CANCELLED => 1 | STATUS_INVALID_ARGUMENT => 2
  | STATUS_DEADLINE_EXCEEDED => 3 | STATUS_NOT_FOUND => 4 | STATUS_ALREADY_EXISTS => 5
  | STATUS_PERMISSION_DENIED => 6 | STATUS_UNAUTHENTICATED => 7
  | STATUS_RESOURCE_EXHAUSTED => 8 | STATUS_FAILED_PRECONDITION => 9 | STATUS_ABORTED => 10
  | STATUS_INTERNAL => 11 | STATUS_UNAVAILABLE => 12 | STATUS_UNSUPPORTED_MEDIA => 13
  end.

(** src/net/proto/cluster_message.proto:10-14, MsgType *)
Inductive MsgType := REQUEST | RESPONSE | NOTIFY.

#[global] Instance StatusCode_eq_dec : EqDecision StatusCode.
Proof. solve_decision. Defined.
#[global] Instance MsgType_eq_dec : EqDecision MsgType.
Proof. solve_decision. Defined.

Definition MsgType_eqb (a b : MsgType) : bool := bool_decide (a = b).

(** src/facade/codec.go:6-7, CodecProtobuf *)
Definition CodecProtobuf : Z := 1.
(** src/facade/codec.go:6-7, CodecJSON *)
Definition CodecJSON : Z := 2.

(** src/net/proto/agp_validator.go:6-12, SystemMethodHandshake *)
Definition SystemMethodHandshake : Z := 1.
(** src/net/proto/agp_validator.go:6-12, SystemMethodHeartbeat *)
Definition SystemMethodHeartbeat : Z := 2.
(** src/net/proto/agp_validator.go:6-12, SystemMethodCancel *)
Definition SystemMethodCancel : Z := 3.
(** src/net/proto/agp_validator.go:6-12, SystemMethodGoAway *)
Definition SystemMethodGoAway : Z := 4.
(** src/net/proto/agp_validator.go:6-12, SystemMethodKick *)
Definition SystemMethodKick : Z := 5.

(** ** Go values *)

(** What the framework observes of a Go type through [reflect]: its name, whether
    it is a pointer, whether it implements [proto.Message]. *)
Record gotype := GoType { gt_name : str; gt_ptr : bool; gt_proto : bool }.
#[global] Instance gotype_eq_dec : EqDecision gotype.
Proof. solve_decision. Defined.

Record value := Value { v_type : gotype; v_data : bytes }.
#[global] Instance value_eq_dec : EqDecision value.
Proof. solve_decision. Defined.

Inductive payload := PNil | PBytes (b : bytes) | PVal (v : value).
#[global] Instance payload_eq_dec : EqDecision payload.
Proof. solve_decision. Defined.

(** ** Actor paths *)

Definition dot_char : ascii := ascii_of_N 46.
(** src/const/const.go:22-24, DOT *)
Definition DOT : str := char_str dot_char.

(** The dynamic types [cstring.ToString] distinguishes; [AOther] carries the text
    [json.Marshal] gives (empty when it fails). *)
Inductive any_arg :=
| ANil | AStr (s : str) | AInt (z : Z) | AInt32 (z : Z) | AInt64 (z : Z)
| AUint (z : Z) | AUint32 (z : Z) | AUint64 (z : Z) | AOther (json : str).

(** src/extend/string/string.go:116-144, ToString *)
Definition ToString (v : any_arg) : str :=
  match v with
  | ANil => EmptyString
  | AStr s => s
  | AInt z | AInt32 z | AInt64 z => format_int 10 z
  | AUint z | AUint32 z | AUint64 z => format_uint 10 z
  | AOther j => j
  end.

(** src/facade/message.go:29-33, ActorPath *)
Record ActorPath := mkActorPath { NodeID : str; ActorID : str; ChildID : str }.
#[global] Instance ActorPath_eq_dec : EqDecision ActorPath.
Proof. solve_decision. Defined.

(** src/facade/message.go:79-82, NewPath *)
Definition NewPath (nodeID actorID : any_arg) : str :=
  String.append (ToString nodeID) (String.append DOT (ToString actorID)).

(** [childID == ""] holds only of the empty string, never of another dynamic type. *)
Definition any_is_empty_string (v : any_arg) : bool :=
  match v with AStr EmptyString => true | _ => false end.

(** src/facade/message.go:71-77, NewChildPath *)
Definition NewChildPath (nodeID actorID childID : any_arg) : str :=
  if any_is_empty_string childID then NewPath nodeID actorID
  else String.append (ToString nodeID) (String.append DOT
         (String.append (ToString actorID) (String.append DOT (ToString childID)))).

(** src/facade/message.go:67-69, NewActorPath *)
Definition NewActorPath (nodeID actorID childID : str) : ActorPath :=
  mkActorPath nodeID actorID childID.

(** The receiver may be a nil pointer. *)
(** src/facade/message.go:59-59, ActorPath.IsChild *)
Definition ActorPath_IsChild (p : option ActorPath) : bool :=
  match p with Some p => negb (String.eqb (ChildID p) EmptyString) | None => false end.

(** src/facade/message.go:60-60, ActorPath.IsParent *)
Definition ActorPath_IsParent (p : option ActorPath) : bool :=
  match p with Some p => String.eqb (ChildID p) EmptyString | None => false end.

(** src/facade/message.go:62-64, ActorPath.String *)
Definition ActorPath_String (p : ActorPath) : str :=
  NewChildPath (AStr (NodeID p)) (AStr (ActorID p)) (AStr (ChildID p)).

(** src/error/error.go:67-69, ActorPathError *)
Definition ActorPathError : str := "Actor path is error.".

(** src/facade/message.go:84-103, ToActorPath *)
Definition ToActorPath (path : str) : res ActorPath :=
  if String.eqb path EmptyString then Err ActorPathError
  else match split_on dot_char path with
       | [n; a] => Ok (NewActorPath n a EmptyString)
       | [n; a; c] => Ok (NewActorPath n a c)
       | [n1; n2; n3; n4; a] => Ok (NewActorPath (join DOT [n1; n2; n3; n4]) a EmptyString)
       | [n1; n2; n3; n4; a; c] => Ok (NewActorPath (join DOT [n1; n2; n3; n4]) a c)
       | _ => Err ActorPathError
       end.

(** A node ID is one dot-free segment or the four segments of a generated ID. *)
Definition dot_free (s : str) : Prop := str_mem dot_char s = false.
Definition wf_node (n : str) : Prop :=
  dot_free n \/
  exists a b c d, dot_free a /\ dot_free b /\ dot_free c /\ dot_free d /\ n = join DOT [a; b; c; d].
Definition wf_path (p : ActorPath) : Prop :=
  wf_node (NodeID p) /\ dot_free (ActorID p) /\ dot_free (ChildID p).

Lemma dot_app s t : String.append s (String.append DOT t) = String.append s (String dot_char t).
Proof. done. Qed.

Lemma join_dot_cons p ps :
  ps <> [] -> join DOT (p :: ps) = String.append p (String dot_char (join DOT ps)).
Proof. by destruct ps. Qed.

Lemma append_not_empty s c t : String.append s (String c t) <> EmptyString.
Proof. by destruct s. Qed.

Lemma ActorPath_String_child p : ChildID p <> EmptyString ->
  ActorPath_String p =
  String.append (NodeID p) (String dot_char (String.append (ActorID p) (String dot_char (ChildID p)))).
Proof. intros H. unfold ActorPath_String, NewChildPath. simpl. by destruct (ChildID p). Qed.

Lemma ActorPath_String_parent p : ChildID p = EmptyString ->
  ActorPath_String p = String.append (NodeID p) (String dot_char (ActorID p)).
Proof. intros H. unfold ActorPath_String, NewChildPath. by rewrite H. Qed.

Lemma split_four a b c d t :
  dot_free a -> dot_free b -> dot_free c -> dot_free d ->
  split_on dot_char (String.append (join DOT [a; b; c; d]) (String dot_char t))
  = a :: b :: c :: d :: split_on dot_char t.
Proof.
  intros. rewrite !join_dot_cons by done. change (join DOT [d]) with d.
  rewrite <- !str_app_assoc, !str_app_cons, <- !str_app_assoc, !str_app_cons, <- !str_app_assoc, !str_app_cons.
  by rewrite !split_on_app.
Qed.

(** ToActorPath accepts everything ActorPath.String prints for a well-formed
    path and returns exactly that path, for short and for generated node IDs, for
    parents and for children. *)
Theorem ToActorPath_String (p : ActorPath) :
  wf_path p -> ToActorPath (ActorPath_String p) = Ok p.
Proof.
  destruct p as [n a c]. unfold wf_path. simpl. intros (Hn & Ha & Hc). unfold ToActorPath.
  destruct (decide (c = EmptyString)) as [->|Hne].
  - rewrite ActorPath_String_parent by done. simpl NodeID. simpl ActorID.
    rewrite (proj2 (String.eqb_neq _ _)) by apply append_not_empty.
    destruct Hn as [Hn|(x & y & z & w & ? & ? & ? & ? & ->)].
    + by rewrite split_on_app, split_on_nomem.
    + by rewrite split_four, split_on_nomem.
  - rewrite ActorPath_String_child by done. simpl NodeID. simpl ActorID. simpl ChildID.
    rewrite (proj2 (String.eqb_neq _ _)) by apply append_not_empty.
    destruct Hn as [Hn|(x & y & z & w & ? & ? & ? & ? & ->)].
    + by rewrite split_on_app, split_on_app, split_on_nomem.
    + by rewrite split_four, split_on_app, split_on_nomem.
Qed.

Lemma ToActorPath_String_witness :
  wf_path (mkActorPath "1.10001.5.1" "player" "42") /\
  ToActorPath (ActorPath_String (mkActorPath "1.10001.5.1" "player" "42"))
  = Ok (mkActorPath "1.10001.5.1" "player" "42").
Proof.
  assert (H : wf_path (mkActorPath "1.10001.5.1" "player" "42")).
  { split; [right; by exists "1", "10001", "5", "1"|done]. }
  split; [exact H|]. apply ToActorPath_String. exact H.
Defined.

(** A path ToActorPath accepts is well formed, and printing it gives the input
    back; the one exception is an input with a final dot, whose empty child
    segment is read as a parent path. *)
Theorem ToActorPath_inv (s : str) (p : ActorPath) :
  ToActorPath s = Ok p ->
  wf_path p /\
  (ActorPath_String p = s \/ (ChildID p = EmptyString /\ String.append (ActorPath_String p) DOT = s)).
Proof.
  unfold ToActorPath. destruct (String.eqb s EmptyString); [done|].
  pose proof (split_on_parts_nomem dot_char s) as Hf.
  pose proof (join_split_on dot_char s) as Hj. change (char_str dot_char) with DOT in Hj.
  destruct (split_on dot_char s) as [|n1 [|n2 [|n3 [|n4 [|n5 [|n6 [|n7 l]]]]]]]; try done;
    intros [= <-]; rewrite !Forall_cons_iff in Hf; destruct_and!; unfold NewActorPath;
    (split; [split; [|done]; first [by left | right; by exists n1, n2, n3, n4]|]).
  - left. by rewrite ActorPath_String_parent.
  - destruct (decide (n3 = EmptyString)) as [->|Hne].
    + right. split; [done|]. rewrite ActorPath_String_parent by done. simpl NodeID. simpl ActorID.
      rewrite <- Hj, !join_dot_cons by done. change (join DOT [EmptyString]) with EmptyString.
      by rewrite <- str_app_assoc, str_app_cons.
    + left. by rewrite ActorPath_String_child.
  - left. rewrite ActorPath_String_parent by done. simpl NodeID. simpl ActorID.
    rewrite <- Hj, !join_dot_cons by done.
    by repeat rewrite <- ?str_app_assoc, ?str_app_cons.
  - destruct (decide (n6 = EmptyString)) as [->|Hne].
    + right. split; [done|]. rewrite ActorPath_String_parent by done. simpl NodeID. simpl ActorID.
      rewrite <- Hj, !join_dot_cons by done. change (join DOT [EmptyString]) with EmptyString.
      by repeat rewrite <- ?str_app_assoc, ?str_app_cons.
    + left. rewrite ActorPath_String_child by done. simpl NodeID. simpl ActorID. simpl ChildID.
      rewrite <- Hj, !join_dot_cons by done.
      by repeat rewrite <- ?str_app_assoc, ?str_app_cons.
Qed.

Lemma ToActorPath_inv_witness :
  ToActorPath "n1.room." = Ok (mkActorPath "n1" "room" "") /\
  (wf_path (mkActorPath "n1" "room" "") /\
   (ActorPath_String (mkActorPath "n1" "room" "") = "n1.room."%string \/
    (ChildID (mkActorPath "n1" "room" "") = EmptyString /\
     String.append (ActorPath_String (mkActorPath "n1" "room" "")) DOT = "n1.room."%string))).
Proof. split; [reflexivity|]. apply ToActorPath_inv. reflexivity. Defined.

(** ** Packed node identifiers (facade/uid.go) *)

(** src/facade/uid.go:9-16, BigWorldIdShift *)
Definition BigWorldIdShift : Z := 54.
(** src/facade/uid.go:9-16, WorldIdShift *)
Definition WorldIdShift : Z := 36.
(** src/facade/uid.go:9-16, NodeTypeShift *)
Definition NodeTypeShift : Z := 18.
(** src/facade/uid.go:9-16, NodeInstShift *)
Definition NodeInstShift : Z := 0.
(** src/facade/uid.go:19-20, BigWorldIdMask *)
Definition BigWorldIdMask : Z := 0x3FF.
(** src/facade/uid.go:19-20, CommonMask *)
Definition CommonMask : Z := 0x3FFFF.

(** src/facade/uid.go:28-36, GenNodeId *)
Definition GenNodeId (bigworldId worldId NodeType NodeInst : Z) : Z :=
  Z.lor (Z.lor (Z.lor
    (u64 (Z.shiftl (Z.land bigworldId BigWorldIdMask) BigWorldIdShift))
    (u64 (Z.shiftl (Z.land worldId CommonMask) WorldIdShift)))
    (u64 (Z.shiftl (Z.land NodeType CommonMask) NodeTypeShift)))
    (u64 (Z.shiftl (Z.land NodeInst CommonMask) NodeInstShift)).

(** src/facade/uid.go:38-41, GetBigWorldId *)
Definition GetBigWorldId (nodeId : Z) : Z := u32 (Z.land (Z.shiftr nodeId BigWorldIdShift) BigWorldIdMask).
(** src/facade/uid.go:43-46, GetWorldId *)
Definition GetWorldId (nodeId : Z) : Z := u32 (Z.land (Z.shiftr nodeId WorldIdShift) CommonMask).
(** src/facade/uid.go:48-51, GetNodeType *)
Definition GetNodeType (nodeId : Z) : Z := u32 (Z.land (Z.shiftr nodeId NodeTypeShift) CommonMask).
(** src/facade/uid.go:53-56, GetNodeInst *)
Definition GetNodeInst (nodeId : Z) : Z := u32 (Z.land (Z.shiftr nodeId NodeInstShift) CommonMask).

(** src/facade/uid.go:58-61, ToNodeIdStr *)
Definition ToNodeIdStr (nodeId : Z) : str :=
  join DOT [format_uint 10 (GetBigWorldId nodeId); format_uint 10 (GetWorldId nodeId);
            format_uint 10 (GetNodeType nodeId); format_uint 10 (GetNodeInst nodeId)].

(** [fmt.Sscanf] with the verb [%d] into an [int]: skip white space (a newline is an
    error), an optional sign, a maximal run of digits that [ParseInt] accepts. *)
Fixpoint scan_digits (s : str) : str * str :=
  match s with
  | String a s' =>
      let b := N_of_ascii a in
      if ((48 <=? b) && (b <=? 57))%N
      then let '(ds, rest) := scan_digits s' in (String a ds, rest)
      else (EmptyString, s)
  | EmptyString => (EmptyString, EmptyString)
  end.

Fixpoint skip_spaces (s : str) : option str :=
  match s with
  | String a s' =>
      let b := N_of_ascii a in
      if (b =? 10)%N then None
      else if ((b =? 9) || (b =? 11) || (b =? 12) || (b =? 13) || (b =? 32))%N then skip_spaces s'
      else Some s
  | EmptyString => Some EmptyString
  end.

Definition scan_int (s : str) : option (Z * str) :=
  match skip_spaces s with
  | None => None
  | Some s1 =>
      let '(sign, s2) := match s1 with
        | String a s' => if Ascii.eqb a minus_char || Ascii.eqb a plus_char
                         then (char_str a, s') else (EmptyString, s1)
        | EmptyString => (EmptyString, s1)
        end in
      match scan_digits s2 with
      | (EmptyString, _) => None
      | (ds, rest) =>
          match parse_int 10 64 (String.append sign ds) with
          | (v, None) => Some (v, rest)
          | _ => None
          end
      end
  end.

Definition scan_dot (s : str) : option str :=
  match s with String a s' => if Ascii.eqb a dot_char then Some s' else None | EmptyString => None end.

(** The ASCII white space of the scan is modelled; input after the fourth number is
    ignored, as [Sscanf] does. *)
(** src/facade/uid.go:63-73, GenNodeIdByStr *)
Definition GenNodeIdByStr (nodeIdStr : str) : res Z :=
  match
    (r1 ← scan_int nodeIdStr; s1 ← scan_dot r1.2; r2 ← scan_int s1; s2 ← scan_dot r2.2;
     r3 ← scan_int s2; s3 ← scan_dot r3.2; r4 ← scan_int s3; Some (r1.1, r2.1, r3.1, r4.1))
  with
  | Some (b, w, t, i) => Ok (GenNodeId (u32 b) (u32 w) (u32 t) (u32 i))
  | None => Err (String.append "NodeId Parase Err " nodeIdStr)
  end.

(** *** Packing lemmas *)

Lemma land_mask_mod z n : 0 <= n -> Z.land z (2 ^ n - 1) = z mod 2 ^ n.
Proof. intros. rewrite <- Z.land_ones, Z.ones_equiv by done. f_equal. Qed.

Lemma land_big z : Z.land z BigWorldIdMask = z mod 2 ^ 10.
Proof. by rewrite <- land_mask_mod. Qed.
Lemma land_common z : Z.land z CommonMask = z mod 2 ^ 18.
Proof. by rewrite <- land_mask_mod. Qed.

(** Disjoint fields: [lor] of a multiple of [2^n] and a number below [2^n] is their sum. *)
Lemma testbit_high b n m : 0 <= b < 2 ^ n -> 0 <= n <= m -> Z.testbit b m = false.
Proof.
  intros Hb Hm. destruct (Z.eq_dec b 0) as [->|]; [apply Z.testbit_0_l|].
  apply Z.bits_above_log2; [lia|]. apply Z.lt_le_trans with n; [|lia]. apply Z.log2_lt_pow2; lia.
Qed.

Lemma land_shift_disjoint a b n : 0 <= n -> 0 <= b < 2 ^ n -> Z.land (a * 2 ^ n) b = 0.
Proof.
  intros Hn Hb. apply Z.bits_inj'. intros m Hm. rewrite Z.land_spec, Z.bits_0.
  destruct (Z.ltb_spec m n).
  - by rewrite Z.mul_pow2_bits_low.
  - by rewrite (testbit_high b n m), andb_false_r.
Qed.

Lemma lor_shift_add a b n : 0 <= n -> 0 <= b < 2 ^ n -> Z.lor (Z.shiftl a n) b = a * 2 ^ n + b.
Proof.
  intros Hn Hb. rewrite Z.shiftl_mul_pow2 by done.
  rewrite <- Z.lxor_lor, Z.add_nocarry_lxor by (by apply land_shift_disjoint). done.
Qed.

Definition pack4 (b w t i : Z) : Z := ((b * 2 ^ 18 + w) * 2 ^ 18 + t) * 2 ^ 18 + i.

Lemma GenNodeId_pack b w t i :
  GenNodeId b w t i = pack4 (b mod 2 ^ 10) (w mod 2 ^ 18) (t mod 2 ^ 18) (i mod 2 ^ 18).
Proof.
  unfold GenNodeId. rewrite land_big, !land_common.
  pose proof (Z.mod_pos_bound b (2 ^ 10) ltac:(lia)).
  pose proof (Z.mod_pos_bound w (2 ^ 18) ltac:(lia)).
  pose proof (Z.mod_pos_bound t (2 ^ 18) ltac:(lia)).
  pose proof (Z.mod_pos_bound i (2 ^ 18) ltac:(lia)).
  rewrite !wrapU_id by (unfold inU; rewrite Z.shiftl_mul_pow2 by (vm_compute; done);
    unfold BigWorldIdShift, WorldIdShift, NodeTypeShift, NodeInstShift; lia).
  unfold NodeInstShift, BigWorldIdShift, WorldIdShift, NodeTypeShift. rewrite Z.shiftl_0_r.
  rewrite <- !Z.lor_assoc.
  rewrite (lor_shift_add _ (i mod _) 18) by lia.
  rewrite (lor_shift_add _ _ 36) by lia.
  rewrite (lor_shift_add _ _ 54) by lia.
  unfold pack4. lia.
Qed.

Lemma getters_div n : inU 64 n ->
  GetBigWorldId n = n / 2 ^ 54 /\ GetWorldId n = (n / 2 ^ 36) mod 2 ^ 18 /\
  GetNodeType n = (n / 2 ^ 18) mod 2 ^ 18 /\ GetNodeInst n = n mod 2 ^ 18.
Proof.
  unfold inU. intros Hn. unfold GetBigWorldId, GetWorldId, GetNodeType, GetNodeInst.
  rewrite land_big, !land_common.
  unfold BigWorldIdShift, WorldIdShift, NodeTypeShift, NodeInstShift.
  rewrite Z.shiftr_0_r, !Z.shiftr_div_pow2 by lia.
  assert (n / 2 ^ 54 < 2 ^ 10) by (apply Z.div_lt_upper_bound; lia).
  assert (0 <= n / 2 ^ 54) by (apply Z.div_pos; lia).
  rewrite (Z.mod_small (n / 2 ^ 54)) by lia.
  repeat rewrite wrapU_id; [done|..]; unfold inU; try lia.
  all: match goal with |- 0 <= ?x mod ?m < _ => pose proof (Z.mod_pos_bound x m ltac:(lia)); lia end.
Qed.

Lemma pack4_fields b w t i : 0 <= b < 2 ^ 10 -> 0 <= w < 2 ^ 18 -> 0 <= t < 2 ^ 18 -> 0 <= i < 2 ^ 18 ->
  let n := pack4 b w t i in
  inU 64 n /\ n / 2 ^ 54 = b /\ (n / 2 ^ 36) mod 2 ^ 18 = w /\
  (n / 2 ^ 18) mod 2 ^ 18 = t /\ n mod 2 ^ 18 = i.
Proof.
  intros Hb Hw Ht Hi. cbv zeta. unfold pack4, inU.
  assert (E1 : (((b * 2 ^ 18 + w) * 2 ^ 18 + t) * 2 ^ 18 + i) / 2 ^ 18 = (b * 2 ^ 18 + w) * 2 ^ 18 + t)
    by (rewrite Z.div_add_l, (Z.div_small i) by lia; lia).
  assert (E2 : ((b * 2 ^ 18 + w) * 2 ^ 18 + t) / 2 ^ 18 = b * 2 ^ 18 + w)
    by (rewrite Z.div_add_l, (Z.div_small t) by lia; lia).
  assert (E3 : (b * 2 ^ 18 + w) / 2 ^ 18 = b)
    by (rewrite Z.div_add_l, (Z.div_small w) by lia; lia).
  split; [lia|]. split; [|split; [|split]].
  - replace (2 ^ 54) with (2 ^ 18 * 2 ^ 18 * 2 ^ 18) by done.
    by rewrite <- !Z.div_div, E1, E2, E3 by lia.
  - replace (2 ^ 36) with (2 ^ 18 * 2 ^ 18) by done.
    rewrite <- Z.div_div, E1, E2 by lia. by rewrite Z.add_comm, Z.mod_add, Z.mod_small by lia.
  - rewrite E1. by rewrite Z.add_comm, Z.mod_add, Z.mod_small by lia.
  - by rewrite Z.add_comm, Z.mod_add, Z.mod_small by lia.
Qed.

(** GenNodeId never leaves uint64, and the four getters give back each field
    truncated to its bit width: fields cannot bleed into each other. *)
Theorem GenNodeId_fields (b w t i : Z) :
  let n := GenNodeId b w t i in
  inU 64 n /\ GetBigWorldId n = b mod 2 ^ 10 /\ GetWorldId n = w mod 2 ^ 18 /\
  GetNodeType n = t mod 2 ^ 18 /\ GetNodeInst n = i mod 2 ^ 18.
Proof.
  cbv zeta. rewrite GenNodeId_pack.
  destruct (pack4_fields (b mod 2 ^ 10) (w mod 2 ^ 18) (t mod 2 ^ 18) (i mod 2 ^ 18))
    as (Hu & H1 & H2 & H3 & H4); try (apply Z.mod_pos_bound; lia).
  split; [done|]. destruct (getters_div _ Hu) as (-> & -> & -> & ->). done.
Qed.

Lemma getters_GenNodeId n : inU 64 n ->
  GenNodeId (GetBigWorldId n) (GetWorldId n) (GetNodeType n) (GetNodeInst n) = n.
Proof.
  intros Hn. rewrite GenNodeId_pack. destruct (getters_div n Hn) as (-> & -> & -> & ->).
  unfold inU in Hn. rewrite !Z.mod_mod by lia.
  assert (n / 2 ^ 54 < 2 ^ 10) by (apply Z.div_lt_upper_bound; lia).
  assert (0 <= n / 2 ^ 54) by (apply Z.div_pos; lia).
  rewrite (Z.mod_small (n / 2 ^ 54)) by lia. unfold pack4.
  pose proof (Z.div_mod n (2 ^ 18) ltac:(lia)).
  pose proof (Z.div_mod (n / 2 ^ 18) (2 ^ 18) ltac:(lia)) as E2.
  pose proof (Z.div_mod (n / 2 ^ 36) (2 ^ 18) ltac:(lia)) as E3.
  rewrite Z.div_div in E2 by lia. change (2 ^ 18 * 2 ^ 18) with (2 ^ 36) in E2.
  rewrite Z.div_div in E3 by lia. change (2 ^ 36 * 2 ^ 18) with (2 ^ 54) in E3. lia.
Qed.

(** *** Scanning what was printed *)

Definition is_digit (c : ascii) : Prop := exists d, 0 <= d < 10 /\ c = digit_char d.

Lemma digit_code d : 0 <= d < 10 -> N_of_ascii (digit_char d) = Z.to_N (48 + d).
Proof.
  intros Hd. unfold digit_char. rewrite (proj2 (Z.ltb_lt d 10)) by lia.
  apply N_ascii_embedding. lia.
Qed.

Lemma scan_digits_app ds s :
  Forall is_digit ds -> (match s with EmptyString => True | String a _ => a = dot_char end) ->
  scan_digits (String.append (string_of_list_ascii ds) s) = (string_of_list_ascii ds, s).
Proof.
  induction 1 as [|c ds (d & Hd & ->) Hds IH]; intros Hs.
  - destruct s as [|a s]; [done|]. by subst a.
  - simpl string_of_list_ascii. rewrite str_app_cons. simpl. rewrite digit_code by done.
    rewrite (proj2 (N.leb_le 48 _)), (proj2 (N.leb_le _ 57)) by lia. simpl. by rewrite IH.
Qed.

Lemma scan_int_digit_list d ds s :
  0 <= d < 10 -> Forall is_digit ds -> (match s with EmptyString => True | String a _ => a = dot_char end) ->
  scan_int (String.append (String (digit_char d) (string_of_list_ascii ds)) s) =
  match parse_int 10 64 (String (digit_char d) (string_of_list_ascii ds)) with
  | (v, None) => Some (v, s) | _ => None end.
Proof.
  intros Hd Hds Hs.
  pose proof (scan_digits_app (digit_char d :: ds) s ltac:(constructor; [by exists d|done]) Hs) as Hscan.
  simpl string_of_list_ascii in Hscan. unfold scan_int.
  rewrite str_app_cons in *. simpl skip_spaces. rewrite digit_code by done.
  destruct (N.eqb_spec (Z.to_N (48 + d)) 10); [lia|].
  do 5 (match goal with |- context [ (Z.to_N (48 + d) =? ?k)%N ] =>
    destruct (N.eqb_spec (Z.to_N (48 + d)) k); [lia|] end). cbv iota beta. simpl orb. cbv iota.
  destruct (digit_char_not_sign d ltac:(lia)) as [H1 H2].
  rewrite (proj2 (Ascii.eqb_neq _ _) H1), (proj2 (Ascii.eqb_neq _ _) H2). simpl orb. cbv iota beta.
  rewrite Hscan. done.
Qed.

Lemma scan_int_format n s :
  0 <= n < 2 ^ 63 -> (match s with EmptyString => True | String a _ => a = dot_char end) ->
  scan_int (String.append (format_uint 10 n) s) = Some (n, s).
Proof.
  intros Hn Hs. pose proof (uint_digits_range 10 n ltac:(lia) ltac:(lia)) as Hr.
  pose proof (parse_format_int 10 64 n ltac:(lia) ltac:(lia)) as Hp.
  unfold inS, format_int in Hp. change (64 - 1) with 63 in Hp. rewrite (proj2 (Z.ltb_ge n 0)) in Hp by lia.
  unfold format_uint in *. pose proof (uint_digits_ne 10 n).
  destruct (uint_digits 10 n) as [|d ds]; [done|]. apply Forall_cons_iff in Hr as [Hd Hds].
  simpl string_of_list_ascii in *. rewrite scan_int_digit_list; [|done| |done].
  - rewrite Hp by lia. done.
  - clear -Hds. induction Hds; simpl; constructor; [by eexists|done].
Qed.

Lemma scan_dot_dot s : scan_dot (String dot_char s) = Some s.
Proof. done. Qed.

(** A node identifier survives the trip through its dotted text form: every
    uint64 is recovered by GenNodeIdByStr from ToNodeIdStr. *)
Theorem GenNodeIdByStr_ToNodeIdStr (n : Z) : inU 64 n -> GenNodeIdByStr (ToNodeIdStr n) = Ok n.
Proof.
  intros Hn. unfold GenNodeIdByStr, ToNodeIdStr.
  pose proof (getters_GenNodeId n Hn) as Hg.
  destruct (GenNodeId_fields (GetBigWorldId n) (GetWorldId n) (GetNodeType n) (GetNodeInst n))
    as (_ & H1 & H2 & H3 & H4). rewrite Hg in *.
  pose proof (Z.mod_pos_bound (GetBigWorldId n) (2 ^ 10) ltac:(lia)).
  pose proof (Z.mod_pos_bound (GetWorldId n) (2 ^ 18) ltac:(lia)).
  pose proof (Z.mod_pos_bound (GetNodeType n) (2 ^ 18) ltac:(lia)).
  pose proof (Z.mod_pos_bound (GetNodeInst n) (2 ^ 18) ltac:(lia)).
  rewrite !join_dot_cons by done. change (join DOT [?x]) with x.
  rewrite scan_int_format by (done || lia). cbn [mbind option_bind fst snd]. rewrite scan_dot_dot.
  cbn [mbind option_bind fst snd].
  rewrite scan_int_format by (done || lia). cbn [mbind option_bind fst snd]. rewrite scan_dot_dot.
  cbn [mbind option_bind fst snd].
  rewrite scan_int_format by (done || lia). cbn [mbind option_bind fst snd]. rewrite scan_dot_dot.
  cbn [mbind option_bind fst snd].
  rewrite <- (str_app_nil_r (format_uint 10 (GetNodeInst n))).
  rewrite scan_int_format by (done || lia). cbn [mbind option_bind fst snd].
  rewrite !wrapU_id by (unfold inU; lia). by rewrite Hg.
Qed.

Lemma GenNodeIdByStr_ToNodeIdStr_witness :
  inU 64 (GenNodeId 1 10001 5 1) /\
  GenNodeIdByStr (ToNodeIdStr (GenNodeId 1 10001 5 1)) = Ok (GenNodeId 1 10001 5 1).
Proof.
  assert (H : inU 64 (GenNodeId 1 10001 5 1)) by (vm_compute; split; [discriminate|reflexivity]).
  split; [exact H|]. apply GenNodeIdByStr_ToNodeIdStr. exact H.
Defined.

(** ** Invocation results (facade/invoke_result.go) *)

(** src/facade/invoke_result.go:9-15, InvokeResult *)
Record InvokeResult := mkInvokeResult { r_Payload : payload; r_Code : Z; r_Message : str }.
#[global] Instance InvokeResult_eq_dec : EqDecision InvokeResult.
Proof. solve_decision. Defined.

(** src/facade/invoke_result.go:17-20, OKResult *)
Definition OKResult (p : payload) : InvokeResult := mkInvokeResult p 0 "".

(** src/facade/invoke_result.go:22-25, ErrorResult *)
Definition ErrorResult (code : StatusCode) (message : str) : InvokeResult :=
  mkInvokeResult PNil (i32 (status_num code)) message.

(** The receiver may be a nil pointer. *)
(** src/facade/invoke_result.go:27-30, InvokeResult.OK *)
Definition InvokeResult_OK (r : option InvokeResult) : bool :=
  match r with Some r => r_Code r =? 0 | None => false end.

Lemma ErrorResult_not_OK c m : c <> STATUS_OK -> InvokeResult_OK (Some (ErrorResult c m)) = false.
Proof. by destruct c. Qed.
#[export] Hint Resolve ErrorResult_not_OK : golib.

(** ** Go contexts (standard library [context]) *)

Inductive ctx_err := DeadlineExceeded | Canceled.
#[global] Instance ctx_err_eq_dec : EqDecision ctx_err.
Proof. solve_decision. Defined.

(** A context as its users observe it at one instant: its deadline in nanoseconds
    since the Unix epoch and the error once it is done. *)
Record gctx := GCtx { c_deadline : option Z; c_err : option ctx_err }.
#[global] Instance gctx_eq_dec : EqDecision gctx.
Proof. solve_decision. Defined.

Definition Background : gctx := GCtx None None.
Definition WithCancel (parent : gctx) : gctx := parent.
Definition WithoutCancel (_ : gctx) : gctx := Background.
(** An earlier parent deadline wins; a deadline that has passed is done at once. *)
Definition WithDeadline (now : Z) (parent : gctx) (d : Z) : gctx :=
  match c_deadline parent with
  | Some cur => if cur <? d then WithCancel parent
                else GCtx (Some d) (match c_err parent with Some e => Some e
                       | None => if d - now <=? 0 then Some DeadlineExceeded else None end)
  | None => GCtx (Some d) (match c_err parent with Some e => Some e
              | None => if d - now <=? 0 then Some DeadlineExceeded else None end)
  end.
Definition WithTimeout (now : Z) (parent : gctx) (t : Z) : gctx := WithDeadline now parent (now + t).

Lemma WithDeadline_deadline now p d :
  exists d', c_deadline (WithDeadline now p d) = Some d' /\ d' <= d.
Proof.
  unfold WithDeadline, WithCancel. destruct (c_deadline p) as [cur|] eqn:E.
  - destruct (Z.ltb_spec cur d); [exists cur|exists d]; simpl; split; done || lia.
  - exists d. split; [done|lia].
Qed.

(** ** Sessions (net/proto/session.go; the record is proto.proto's message) *)

(** src/net/proto/proto.proto:24-30, Session *)
Record Session := mkSession { s_Sid : str; s_Uid : Z; s_Ip : str; s_Data : gomap str str }.
#[global] Instance Session_eq_dec : EqDecision Session.
Proof. solve_decision. Defined.

Definition set_data (x : Session) (d : gomap str str) : Session :=
  mkSession (s_Sid x) (s_Uid x) (s_Ip x) d.

(** src/net/proto/session.go:7-9, Session.IsBind *)
Definition Session_IsBind (x : Session) : bool := 0 <? s_Uid x.

(** [x.Data[key] = value]: [None] is the panic of an assignment to a nil map. *)
Definition Session_assign (x : Session) (key value : str) : option Session :=
  match s_Data x with Some m => Some (set_data x (Some (<[key := value]> m))) | None => None end.

(** src/net/proto/session.go:11-13, Session.SetAny *)
Definition Session_SetAny (x : Session) (key : str) (value : any_arg) : option Session :=
  Session_assign x key (ToString value).

(** src/net/proto/session.go:15-17, Session.Remove *)
Definition Session_Remove (x : Session) (key : str) : Session :=
  set_data x (gomap_delete key (s_Data x)).

(** src/net/proto/session.go:19-25, Session.Set *)
Definition Session_Set (x : Session) (key value : str) : option Session :=
  if String.eqb key EmptyString || String.eqb value EmptyString then Some x
  else Session_assign x key value.

(** A [range] over a map visits its entries once each, in some order [l]. *)
Fixpoint Session_set_all (x : Session) (l : list (str * str)) : option Session :=
  match l with
  | [] => Some x
  | (k, v) :: l' => match Session_Set x k v with Some x' => Session_set_all x' l' | None => None end
  end.

(** src/net/proto/session.go:27-31, Session.ImportAll *)
Definition Session_ImportAll (x : Session) (l : list (str * str)) : option Session :=
  Session_set_all x l.

(** src/net/proto/session.go:33-36, Session.Contains *)
Definition Session_Contains (x : Session) (key : str) : bool :=
  match gomap_get (s_Data x) key with Some _ => true | None => false end.

(** src/net/proto/session.go:38-45, Session.Equal *)
Definition Session_Equal (x : Session) (key value : str) : bool :=
  match gomap_get (s_Data x) key with None => false | Some d => String.eqb d value end.

(** src/net/proto/session.go:55-60, Session.Clear *)
Definition Session_Clear (x : Session) : Session :=
  set_data x (match s_Data x with Some _ => Some ∅ | None => None end).

(** src/net/proto/session.go:47-53, Session.Restore *)
Definition Session_Restore (x : Session) (l : list (str * str)) : option Session :=
  Session_set_all (Session_Clear x) l.

(** src/extend/string/string.go:36-45, ToUint *)
Definition ToUint (value : str) (def : list Z) : Z * bool :=
  match parse_uint 10 32 value with
  | (v, None) => (v, true)
  | _ => (match def with d :: _ => d | [] => 0 end, false)
  end.

(** src/extend/string/string.go:52-61, ToInt *)
Definition ToInt (value : str) (def : list Z) : Z * bool :=
  match atoi value with
  | (v, None) => (v, true)
  | _ => (match def with d :: _ => d | [] => 0 end, false)
  end.

(** src/extend/string/string.go:68-77, ToInt32 *)
Definition ToInt32 (value : str) (def : list Z) : Z * bool :=
  match parse_int 10 32 value with
  | (v, None) => (i32 v, true)
  | _ => (match def with d :: _ => d | [] => 0 end, false)
  end.

(** src/extend/string/string.go:84-93, ToInt64 *)
Definition ToInt64 (value : str) (def : list Z) : Z * bool :=
  match parse_int 10 64 value with
  | (v, None) => (v, true)
  | _ => (match def with d :: _ => d | [] => 0 end, false)
  end.

(** src/extend/string/string.go:100-109, ToUint64 *)
Definition ToUint64 (value : str) (def : list Z) : Z * bool :=
  match parse_uint 10 64 value with
  | (v, None) => (v, true)
  | _ => (match def with d :: _ => d | [] => 0 end, false)
  end.

(** src/net/proto/session.go:62-73, Session.GetUint *)
Definition Session_GetUint (x : Session) (key : str) : Z :=
  match gomap_get (s_Data x) key with
  | None => 0
  | Some v => match ToUint v [] with (value, true) => value | (_, false) => 0 end
  end.

(** src/net/proto/session.go:75-86, Session.GetInt *)
Definition Session_GetInt (x : Session) (key : str) : Z :=
  match gomap_get (s_Data x) key with
  | None => 0
  | Some v => match ToInt v [] with (value, true) => value | (_, false) => 0 end
  end.

(** src/net/proto/session.go:88-100, Session.GetInt32 *)
Definition Session_GetInt32 (x : Session) (key : str) : Z :=
  match gomap_get (s_Data x) key with
  | None => 0
  | Some v => match ToInt32 v [] with (value, true) => value | (_, false) => 0 end
  end.

(** src/net/proto/session.go:102-113, Session.GetInt64 *)
Definition Session_GetInt64 (x : Session) (key : str) : Z :=
  match gomap_get (s_Data x) key with
  | None => 0
  | Some v => match ToInt64 v [] with (value, true) => value | (_, false) => 0 end
  end.

(** src/net/proto/session.go:115-123, Session.GetString *)
Definition Session_GetString (x : Session) (key : str) : str :=
  match gomap_get (s_Data x) key with None => EmptyString | Some v => v end.

Lemma Session_assign_get x key v x' k :
  Session_assign x key v = Some x' ->
  gomap_get (s_Data x') k = if decide (key = k) then Some v else gomap_get (s_Data x) k.
Proof.
  unfold Session_assign. destruct (s_Data x) as [m|] eqn:E; [|done]. intros [= <-]. simpl.
  by rewrite lookup_insert.
Qed.

Lemma Session_set_all_get x l x' k :
  NoDup l.*1 -> Session_set_all x l = Some x' ->
  gomap_get (s_Data x') k =
  match list_to_map (M := gmap str str) l !! k with
  | Some v => if String.eqb k EmptyString || String.eqb v EmptyString
              then gomap_get (s_Data x) k else Some v
  | None => gomap_get (s_Data x) k
  end.
Proof.
  revert x. induction l as [|[a v] l IH]; intros x Hnd H; simpl in *.
  { injection H as <-. by rewrite lookup_empty. }
  apply list.NoDup_cons in Hnd as [Hin Hnd]. destruct (Session_Set x a v) as [y|] eqn:Ey; [|done].
  rewrite (IH y Hnd H). unfold Session_Set in Ey. rewrite lookup_insert.
  destruct (decide (a = k)) as [->|Hne].
  - rewrite fin_maps.not_elem_of_list_to_map_1 by done.
    destruct (String.eqb k EmptyString || String.eqb v EmptyString); [by injection Ey as <-|].
    rewrite (Session_assign_get _ _ _ _ k Ey). by rewrite decide_True.
  - assert (Hk : gomap_get (s_Data y) k = gomap_get (s_Data x) k).
    { destruct (_ || _); [by injection Ey as <-|].
      rewrite (Session_assign_get _ _ _ _ k Ey). by rewrite decide_False. }
    by rewrite Hk.
Qed.

Lemma Session_set_all_total x l m : s_Data x = Some m -> exists x' m',
  Session_set_all x l = Some x' /\ s_Data x' = Some m' /\
  s_Sid x' = s_Sid x /\ s_Uid x' = s_Uid x /\ s_Ip x' = s_Ip x.
Proof.
  revert x m. induction l as [|[a v] l IH]; intros x m Hm; simpl; [by exists x, m|].
  unfold Session_Set. destruct (_ || _); [by apply (IH x m)|].
  unfold Session_assign. rewrite Hm.
  destruct (IH (set_data x (Some (<[a:=v]> m))) _ eq_refl) as (x' & m' & ? & ? & ? & ? & ?).
  by exists x', m'.
Qed.

(** Restore replaces the session data: it never panics on a non-nil map, keeps
    the identity fields, and afterwards a key maps to its new value exactly when both
    are non-empty, whatever the visiting order of the source map and whatever the
    session held before. *)
Theorem Session_Restore_spec (x : Session) (m src : gmap str str) (l : list (str * str)) :
  s_Data x = Some m -> Permutation l (map_to_list src) ->
  exists x', Session_Restore x l = Some x' /\
    s_Sid x' = s_Sid x /\ s_Uid x' = s_Uid x /\ s_Ip x' = s_Ip x /\
    forall k v, gomap_get (s_Data x') k = Some v <->
      src !! k = Some v /\ k <> EmptyString /\ v <> EmptyString.
Proof.
  intros Hm Hl. unfold Session_Restore, Session_Clear. rewrite Hm.
  destruct (Session_set_all_total (set_data x (Some ∅)) l ∅ eq_refl)
    as (x' & m' & Hx' & _ & ? & ? & ?).
  exists x'. split; [done|]. do 3 (split; [done|]). intros k v.
  assert (Hnd : NoDup l.*1) by (rewrite Hl; apply NoDup_fst_map_to_list).
  assert (Hsrc : list_to_map l = src)
    by (rewrite <- (list_to_map_to_list src); by apply list_to_map_proper).
  rewrite (Session_set_all_get _ _ _ k Hnd Hx'), Hsrc. simpl. rewrite lookup_empty.
  destruct (src !! k) as [w|]; [|by split; [|intros [? _]]].
  destruct (String.eqb_spec k EmptyString) as [->|], (String.eqb_spec w EmptyString) as [->|]; simpl;
    (split; [intros [= <-]; done | intros ([= <-] & ? & ?); done]).
Qed.

Lemma Session_Restore_spec_witness :
  let x := mkSession "s" 7 "ip" (Some {["old" := "1"]}) in
  let src : gmap str str := {["name" := "bob"]} in
  s_Data x = Some {["old" := "1"]} /\ Permutation (map_to_list src) (map_to_list src) /\
  exists x', Session_Restore x (map_to_list src) = Some x' /\
    s_Sid x' = s_Sid x /\ s_Uid x' = s_Uid x /\ s_Ip x' = s_Ip x /\
    forall k v, gomap_get (s_Data x') k = Some v <->
      src !! k = Some v /\ k <> EmptyString /\ v <> EmptyString.
Proof.
  split; [reflexivity|]. split; [apply Permutation_refl|].
  exact (Session_Restore_spec (mkSession "s" 7 "ip" (Some {["old" := "1"]})) _ {["name" := "bob"]}
    _ eq_refl (Permutation_refl _)).
Defined.
