(* ===== verification/Context.v ===== *)
(** Request contexts and the pooled delivery message (facade/request_context.go,
    facade/message.go).

    [RequestContext] is the value of a context; [RequestContextRef] is the same struct
    with its maps, byte slices and session held by reference in a [store], so that
    sharing is visible. [Clone_ref_refines] relates the two versions of [Clone]: the
    copy denotes the cloned value and keeps denoting it whatever happens to the memory
    that existed before. Messages come from a pool whose every element went through
    [Message_Recycle]. *)
From S2P Require Import Prelude Strconv Facade.

(** src/facade/request_context.go:10-18, TransportType *)
Inductive TransportType := TransportUnknown | TransportAGP | TransportHTTP | TransportCluster.
#[global] Instance TransportType_eq_dec : EqDecision TransportType.
Proof. solve_decision. Defined.

(** src/facade/request_context.go:20-31, RequestContext *)
Record RequestContext := mkRequestContext {
  rc_Context : option gctx;
  rc_RequestID : Z;
  rc_Transport : TransportType;
  rc_Codec : Z;
  rc_Session : option Session;
  rc_Metadata : gomap str bytes }.

(** src/facade/request_context.go:33-39, NewRequestContext *)
Definition NewRequestContext (parent : option gctx) : RequestContext :=
  let parent := match parent with None => Background | Some p => p end in
  mkRequestContext (Some parent) 0 TransportUnknown 0 None None.

(** The assignments of a [range] loop that visits the entries in the order [l]. *)
Definition copy_entries {V} (l : list (str * V)) : gmap str V :=
  foldr (fun kv acc => <[kv.1 := kv.2]> acc) ∅ l.

(** [maps.Clone]: a nil map stays nil. *)
Definition maps_Clone {V} (m : gomap str V) : gomap str V :=
  match m with None => None | Some g => Some (copy_entries (map_to_list g)) end.

(** src/facade/request_context.go:68-77, cloneMetadata *)
Definition cloneMetadata (source : gomap str bytes) : gomap str bytes :=
  if gomap_len source =? 0 then None
  else match source with
       | Some m => Some (copy_entries (map_to_list m))
       | None => None
       end.

(** src/facade/request_context.go:41-66, RequestContext.Clone *)
Definition RequestContext_Clone (c : option RequestContext) (parent : option gctx) : RequestContext :=
  let parent := match parent with None => Some Background | Some p => Some p end in
  match c with
  | None => NewRequestContext parent
  | Some c =>
      mkRequestContext parent (rc_RequestID c) (rc_Transport c) (rc_Codec c)
        (match rc_Session c with
         | Some s => Some (mkSession (s_Sid s) (s_Uid s) (s_Ip s) (maps_Clone (s_Data s)))
         | None => None
         end)
        (cloneMetadata (rc_Metadata c))
  end.

Lemma copy_entries_to_list {V} (m : gmap str V) : copy_entries (map_to_list m) = m.
Proof.
  change (list_to_map (M := gmap str V) (map_to_list m) = m). apply list_to_map_to_list.
Qed.

Lemma maps_Clone_id {V} (m : gomap str V) : maps_Clone m = m.
Proof. destruct m as [g|]; simpl; [|done]. by rewrite copy_entries_to_list. Qed.

Lemma cloneMetadata_get m k : gomap_get (cloneMetadata m) k = gomap_get m k.
Proof.
  unfold cloneMetadata, gomap_len. destruct m as [g|]; [|done].
  destruct (Z.eqb_spec (Z.of_nat (size g)) 0) as [E|E].
  - assert (g = ∅) as -> by (apply map_size_empty_iff; lia). simpl. by rewrite lookup_empty.
  - by rewrite copy_entries_to_list.
Qed.

(** ** The same operation on shared memory *)

Abbreviation loc := positive.

(** A Go object reached through a reference: a slice's bytes, a [map[string]string],
    a [map[string][]byte] whose slices are references, a session struct. *)
Inductive cell :=
| CBytes (b : bytes)
| CData (m : gmap str str)
| CMeta (m : gmap str loc)
| CSession (sid : str) (uid : Z) (ip : str) (data : option loc).

Abbreviation store := (gmap loc cell).

Record RequestContextRef := mkRCRef {
  rr_Context : option gctx;
  rr_RequestID : Z;
  rr_Transport : TransportType;
  rr_Codec : Z;
  rr_Session : option loc;
  rr_Metadata : option loc }.

Definition alloc (c : cell) (σ : store) : loc * store :=
  let l := fresh (dom σ) in (l, <[l := c]> σ).

(** [cloned[key] = append([]byte(nil), value...)] for the entries in the order [l]. *)
Fixpoint clone_entries (l : list (str * loc)) (acc : gmap str loc) (σ : store)
  : option (gmap str loc * store) :=
  match l with
  | [] => Some (acc, σ)
  | (key, value) :: l' =>
      match σ !! value with
      | Some (CBytes b) =>
          let '(n, σ1) := alloc (CBytes b) σ in clone_entries l' (<[key := n]> acc) σ1
      | _ => None
      end
  end.

(** src/facade/request_context.go:68-77, cloneMetadata *)
Definition cloneMetadata_ref (source : option loc) (σ : store) : option (option loc * store) :=
  match source with
  | None => Some (None, σ)
  | Some l =>
      match σ !! l with
      | Some (CMeta m) =>
          if Z.of_nat (size m) =? 0 then Some (None, σ)
          else match clone_entries (map_to_list m) ∅ σ with
               | Some (cloned, σ1) => let '(n, σ2) := alloc (CMeta cloned) σ1 in Some (Some n, σ2)
               | None => None
               end
      | _ => None
      end
  end.

Definition clone_data_ref (data : option loc) (σ : store) : option (option loc * store) :=
  match data with
  | None => Some (None, σ)
  | Some l => match σ !! l with
              | Some (CData m) => let '(n, σ1) := alloc (CData m) σ in Some (Some n, σ1)
              | _ => None
              end
  end.

Definition clone_session_ref (s : option loc) (σ : store) : option (option loc * store) :=
  match s with
  | None => Some (None, σ)
  | Some l =>
      match σ !! l with
      | Some (CSession sid uid ip data) =>
          match clone_data_ref data σ with
          | Some (data', σ1) =>
              let '(n, σ2) := alloc (CSession sid uid ip data') σ1 in Some (Some n, σ2)
          | None => None
          end
      | _ => None
      end
  end.

(** src/facade/request_context.go:41-66, RequestContext.Clone *)
Definition RequestContext_Clone_ref (c : RequestContextRef) (parent : option gctx) (σ : store)
  : option (RequestContextRef * store) :=
  let parent := match parent with None => Some Background | Some p => Some p end in
  match cloneMetadata_ref (rr_Metadata c) σ with
  | Some (meta, σ1) =>
      match clone_session_ref (rr_Session c) σ1 with
      | Some (s, σ2) =>
          Some (mkRCRef parent (rr_RequestID c) (rr_Transport c) (rr_Codec c) s meta, σ2)
      | None => None
      end
  | None => None
  end.

(** What a reference denotes in a store. *)
Definition den_meta (σ : store) (r : option loc) (m : gomap str bytes) : Prop :=
  match r, m with
  | None, None => True
  | Some l, Some g => exists refs, σ !! l = Some (CMeta refs) /\
      map_Forall2 (fun _ r b => σ !! r = Some (CBytes b)) refs g
  | _, _ => False
  end.
Definition den_data (σ : store) (r : option loc) (m : gomap str str) : Prop :=
  match r, m with
  | None, None => True
  | Some l, Some g => σ !! l = Some (CData g)
  | _, _ => False
  end.
Definition den_session (σ : store) (r : option loc) (s : option Session) : Prop :=
  match r, s with
  | None, None => True
  | Some l, Some s => exists d, σ !! l = Some (CSession (s_Sid s) (s_Uid s) (s_Ip s) d) /\
      den_data σ d (s_Data s)
  | _, _ => False
  end.
Definition denotes (σ : store) (r : RequestContextRef) (c : RequestContext) : Prop :=
  rr_Context r = rc_Context c /\ rr_RequestID r = rc_RequestID c /\
  rr_Transport r = rc_Transport c /\ rr_Codec r = rc_Codec c /\
  den_session σ (rr_Session r) (rc_Session c) /\ den_meta σ (rr_Metadata r) (rc_Metadata c).

(** [σ'] agrees with [σ] on every location outside [D]. *)
Definition agree_off (D : gset loc) (σ σ' : store) : Prop := forall l, l ∉ D -> σ' !! l = σ !! l.

Lemma alloc_spec c σ l σ' : alloc c σ = (l, σ') -> (l ∉ dom σ) /\ σ' = <[l := c]> σ.
Proof. intros [= <- <-]. split; [|done]. apply is_fresh. Qed.

Lemma alloc_sub c σ l σ' : alloc c σ = (l, σ') -> σ ⊆ σ'.
Proof.
  intros [Hl ->]%alloc_spec. apply insert_subseteq. by apply not_elem_of_dom.
Qed.

#[local] Opaque alloc.

Section Cloning.
Context (σ0 : store).

(** The copying of the entries: each key gets a fresh slice with the same bytes. *)
Lemma clone_entries_spec l acc σ :
  σ0 ⊆ σ -> NoDup l.*1 ->
  (forall k r, (k, r) ∈ l -> exists b, σ0 !! r = Some (CBytes b)) ->
  exists acc' σ', clone_entries l acc σ = Some (acc', σ') /\ σ ⊆ σ' /\
    (forall k r b, (k, r) ∈ l -> σ0 !! r = Some (CBytes b) ->
      exists n, acc' !! k = Some n /\ (n ∉ dom σ0) /\ σ' !! n = Some (CBytes b)) /\
    (forall k, k ∉ l.*1 -> acc' !! k = acc !! k).
Proof.
  revert acc σ. induction l as [|[k r] l IH]; intros acc σ Hs Hnd Hl.
  - exists acc, σ. split_and!; try done. by intros k r b []%not_elem_of_nil.
  - apply list.NoDup_cons in Hnd as [Hk Hnd]. cbn [clone_entries].
    destruct (Hl k r) as (b & Hr); [by left|].
    rewrite (lookup_weaken _ _ _ _ Hr Hs).
    destruct (alloc (CBytes b) σ) as [n σ1] eqn:Ea. pose proof (alloc_sub _ _ _ _ Ea) as Hsub.
    apply alloc_spec in Ea as [Hn Hσ1].
    destruct (IH (<[k := n]> acc) σ1) as (acc' & σ' & He & Hsub' & Hin & Hout).
    + by transitivity σ.
    + done.
    + intros k' r' H. apply (Hl k'). by right.
    + exists acc', σ'. split; [done|]. split; [by transitivity σ1|]. split.
      * intros k' r' b' [[= -> ->]|H]%elem_of_cons Hb'; [|by eapply Hin].
        exists n. rewrite Hout by done. rewrite lookup_insert_eq. split; [done|]. split.
        -- intros H. apply Hn. by apply (subseteq_dom _ _ Hs).
        -- apply (lookup_weaken σ1); [|done]. rewrite Hσ1, lookup_insert_eq. congruence.
      * intros k' [Hne H]%not_elem_of_cons. rewrite Hout by done. by rewrite lookup_insert_ne.
Qed.

(** Everything that is fresh for [σ0] survives changes to [σ0]'s locations. *)
Definition isolated (σ : store) (P : store -> Prop) : Prop :=
  forall σ', agree_off (dom σ0) σ σ' -> P σ'.

Lemma cloneMetadata_ref_spec σ r m :
  σ0 ⊆ σ -> den_meta σ0 r m ->
  exists r' σ', cloneMetadata_ref r σ = Some (r', σ') /\ σ ⊆ σ' /\
    forall σ'', σ' ⊆ σ'' -> isolated σ'' (fun τ => den_meta τ r' (cloneMetadata m)).
Proof.
  intros Hs Hden. destruct r as [l|], m as [g|]; simpl in Hden; try done; simpl.
  2:{ exists None, σ. by split_and!. }
  destruct Hden as (refs & Hl & Hf). rewrite (lookup_weaken _ _ _ _ Hl Hs).
  assert (Hsz : size refs = size g).
  { rewrite <- !size_dom. f_equal. apply set_eq. intros k. rewrite !elem_of_dom.
    specialize (Hf k). by destruct (refs !! k), (g !! k); inversion Hf. }
  unfold cloneMetadata, gomap_len. rewrite Hsz. destruct (Z.of_nat (size g) =? 0).
  { exists None, σ. by split_and!. }
  destruct (clone_entries_spec (map_to_list refs) ∅ σ Hs) as (acc & σ1 & He & Hs1 & Hin & Hout).
  { apply NoDup_fst_map_to_list. }
  { intros k r Hk%elem_of_map_to_list. specialize (Hf k). rewrite Hk in Hf.
    inversion Hf; subst. by eexists. }
  rewrite He. destruct (alloc (CMeta acc) σ1) as [n σ2] eqn:Ea.
  pose proof (alloc_sub _ _ _ _ Ea) as Hs2. apply alloc_spec in Ea as [Hn Hσ2].
  exists (Some n), σ2. split; [done|]. split; [by transitivity σ1|].
  intros σ'' Hs' τ Hτ. rewrite copy_entries_to_list. simpl. exists acc. split.
  - rewrite Hτ. { apply (lookup_weaken σ2); [|done]. rewrite Hσ2. by rewrite lookup_insert_eq. }
    intros H. apply Hn. apply (subseteq_dom _ _ Hs1), (subseteq_dom _ _ Hs), H.
  - assert (Hs3 : σ1 ⊆ σ'') by (by transitivity σ2).
    intros k. specialize (Hf k). destruct (refs !! k) as [r|] eqn:Ek.
    + inversion Hf as [? b Hb|]; subst.
      destruct (Hin k r b) as (n' & -> & Hn' & Hb'); [by apply elem_of_map_to_list|done|].
      constructor. rewrite Hτ by done. apply (lookup_weaken σ1); done.
    + inversion Hf. rewrite Hout, lookup_empty; [by constructor|].
      rewrite list_elem_of_fmap. intros ([k' r] & -> & Hk%elem_of_map_to_list). simpl in *. congruence.
Qed.

Lemma clone_session_ref_spec σ r s :
  σ0 ⊆ σ -> den_session σ0 r s ->
  exists r' σ', clone_session_ref r σ = Some (r', σ') /\ σ ⊆ σ' /\
    forall σ'', σ' ⊆ σ'' -> isolated σ'' (fun τ => den_session τ r' s).
Proof.
  intros Hs Hden. destruct r as [l|], s as [s|]; simpl in Hden; try done; simpl.
  2:{ exists None, σ. by split_and!. }
  destruct Hden as (d & Hl & Hd). rewrite (lookup_weaken _ _ _ _ Hl Hs).
  assert (exists d' σ1, clone_data_ref d σ = Some (d', σ1) /\ σ ⊆ σ1 /\
    forall σ'', σ1 ⊆ σ'' -> isolated σ'' (fun τ => den_data τ d' (s_Data s))) as (d' & σ1 & -> & Hs1 & Hd').
  { destruct d as [ld|], (s_Data s) as [m|]; simpl in Hd; try done; simpl.
    2:{ exists None, σ. by split_and!. }
    rewrite (lookup_weaken _ _ _ _ Hd Hs). destruct (alloc (CData m) σ) as [n σ1] eqn:Ea.
    pose proof (alloc_sub _ _ _ _ Ea). apply alloc_spec in Ea as [Hn Hσ1].
    exists (Some n), σ1. split_and!; [done|done|]. intros σ'' Hs' τ Hτ. simpl.
    rewrite Hτ. { apply (lookup_weaken σ1); [|done]. by rewrite Hσ1, lookup_insert_eq. }
    intros Hx. by apply Hn, (subseteq_dom _ _ Hs). }
  destruct (alloc _ σ1) as [n σ2] eqn:Ea. pose proof (alloc_sub _ _ _ _ Ea).
  apply alloc_spec in Ea as [Hn Hσ2]. exists (Some n), σ2.
  split; [done|]. split; [by transitivity σ1|]. intros σ'' Hs' τ Hτ. simpl. exists d'. split.
  - rewrite Hτ. { apply (lookup_weaken σ2); [|done]. by rewrite Hσ2, lookup_insert_eq. }
    intros Hx. apply Hn, (subseteq_dom _ _ Hs1), (subseteq_dom _ _ Hs), Hx.
  - apply (Hd' σ''); [|done]. by transitivity σ2.
Qed.
End Cloning.

(** Clone on shared memory implements Clone on values, allocates only, and the
    copy is isolated: whatever is later done to the memory the original context could
    reach (or to any memory that existed before), the copy still denotes the same
    request state. *)
Theorem Clone_ref_refines (σ : store) (r : RequestContextRef) (c : RequestContext) (parent : option gctx) :
  denotes σ r c ->
  exists r' σ', RequestContext_Clone_ref r parent σ = Some (r', σ') /\ σ ⊆ σ' /\
    forall σ'', agree_off (dom σ) σ' σ'' -> denotes σ'' r' (RequestContext_Clone (Some c) parent).
Proof.
  intros (Hc & Hid & Ht & Hco & Hse & Hm). unfold RequestContext_Clone_ref.
  destruct (cloneMetadata_ref_spec σ σ _ _ (reflexivity σ) Hm) as (m' & σ1 & -> & Hs1 & Hm').
  destruct (clone_session_ref_spec σ σ1 _ _ Hs1 Hse) as (s' & σ2 & -> & Hs2 & Hse').
  eexists _, σ2. split; [done|]. split; [by transitivity σ1|]. intros σ'' Hag.
  unfold denotes, RequestContext_Clone. simpl. rewrite Hid, Ht, Hco.
  split_and!; [by destruct parent|done|done|done| |].
  - assert (E : match rc_Session c with Some s => Some (mkSession (s_Sid s) (s_Uid s) (s_Ip s)
        (maps_Clone (s_Data s))) | None => None end = rc_Session c).
    { destruct (rc_Session c) as [[]|]; simpl; [|done]. by rewrite maps_Clone_id. }
    rewrite E. by apply (Hse' σ2).
  - by apply (Hm' σ2).
Qed.

Definition demo_store : store :=
  {[ 1%positive := CBytes [Byte.x61]; 2%positive := CMeta {["k" := 1%positive]};
     3%positive := CData {["name" := "bob"]}; 4%positive := CSession "s" 7 "ip" (Some 3%positive) ]}.
Definition demo_ref : RequestContextRef :=
  mkRCRef (Some Background) 9 TransportAGP 2 (Some 4%positive) (Some 2%positive).
Definition demo_ctx : RequestContext :=
  mkRequestContext (Some Background) 9 TransportAGP 2
    (Some (mkSession "s" 7 "ip" (Some {["name" := "bob"]}))) (Some {["k" := [Byte.x61]]}).

Lemma Clone_ref_refines_witness :
  denotes demo_store demo_ref demo_ctx /\
  exists r' σ', RequestContext_Clone_ref demo_ref None demo_store = Some (r', σ') /\ demo_store ⊆ σ' /\
    forall σ'', agree_off (dom demo_store) σ' σ'' -> denotes σ'' r' (RequestContext_Clone (Some demo_ctx) None).
Proof.
  assert (H : denotes demo_store demo_ref demo_ctx).
  { split_and!; try reflexivity.
    - exists (Some 3%positive). split; reflexivity.
    - exists {["k" := 1%positive]}. split; [reflexivity|]. intros k.
      destruct (decide (k = "k")) as [->|Hne]; [by repeat constructor|].
      rewrite !lookup_singleton_ne by congruence. constructor. }
  split; [exact H|]. apply Clone_ref_refines. exact H.
Defined.

(** ** The pooled message *)

(** [m_Chan] and [m_Cancel] name the result channel and the cancel function. *)
(** src/facade/message.go:13-23, Message *)
Record Message := mkMessage {
  m_MethodID : Z;
  m_Target : str;
  m_targetPath : option ActorPath;
  m_Context : option RequestContext;
  m_Payload : payload;
  m_Chan : option Z;
  m_Cancel : option Z }.

(** src/facade/message.go:35-35, messagePool *)
Definition emptyMessage : Message := mkMessage 0 "" None None PNil None None.

(** [sync.Pool.Get] returns some pooled element or, with none taken, what [New] gives. *)
(** src/facade/message.go:37-38, GetMessage *)
Definition GetMessage (pool : list Message) (pick : option nat) : Message * list Message :=
  match pick with
  | Some i => match pool !! i with
              | Some m => (m, delete i pool)
              | None => (emptyMessage, pool)
              end
  | None => (emptyMessage, pool)
  end.

(** The cleared message that goes back to the pool, and the cancel function called. *)
(** src/facade/message.go:40-50, Message.Recycle *)
Definition Message_Recycle (m : Message) : Message * option Z :=
  let m' := mkMessage 0 "" (m_targetPath m) (m_Context m) (m_Payload m) (m_Chan m) (m_Cancel m) in
  let m' := mkMessage (m_MethodID m') (m_Target m') None None (m_Payload m') (m_Chan m') (m_Cancel m') in
  let m' := mkMessage (m_MethodID m') (m_Target m') (m_targetPath m') (m_Context m') PNil None None in
  (m', m_Cancel m).

(** The path, and the message with its cache filled. *)
(** src/facade/message.go:52-58, Message.TargetPath *)
Definition Message_TargetPath (m : Message) : option ActorPath * Message :=
  match m_targetPath m with
  | Some p => (Some p, m)
  | None =>
      let p := match ToActorPath (m_Target m) with Ok p => Some p | Err _ => None end in
      (p, mkMessage (m_MethodID m) (m_Target m) p (m_Context m) (m_Payload m) (m_Chan m) (m_Cancel m))
  end.

(** src/net/actor/system.go:419-425, typedMessage *)
Definition typedMessage (pool : list Message) (pick : option nat) (ctx : option RequestContext)
    (target : str) (methodID : Z) (p : payload) : Message * list Message :=
  let '(m, pool') := GetMessage pool pick in
  (mkMessage methodID target (m_targetPath m) ctx p (m_Chan m) (m_Cancel m), pool').

(** The pools that can arise: messages enter only through [Recycle]. *)
Inductive pool_reach : list Message -> Prop :=
| pool_nil : pool_reach []
| pool_put pool m : pool_reach pool -> pool_reach ((Message_Recycle m).1 :: pool)
| pool_get pool pick : pool_reach pool -> pool_reach (GetMessage pool pick).2.

Lemma pool_reach_cleared pool : pool_reach pool -> Forall (eq emptyMessage) pool.
Proof.
  induction 1 as [|pool m _ IH|pool pick _ IH]; [done|by constructor|].
  unfold GetMessage. destruct pick as [i|]; [|done]. destruct (pool !! i); [|done].
  by apply Forall_delete.
Qed.

Lemma GetMessage_cleared pool pick : pool_reach pool -> (GetMessage pool pick).1 = emptyMessage.
Proof.
  intros H%pool_reach_cleared. unfold GetMessage. destruct pick as [i|]; [|done].
  destruct (pool !! i) as [m|] eqn:E; [|done]. simpl.
  rewrite Forall_lookup in H. symmetry. by eapply H.
Qed.

(** A message taken from the pool carries nothing of the delivery that used it
    before: it has exactly the four given fields, no result channel and no cancel
    function, and its cached path is the parse of its own target, on the first and on
    every later lookup. *)
Theorem typedMessage_fresh (pool : list Message) (pick : option nat) (ctx : option RequestContext)
    (target : str) (methodID : Z) (p : payload) :
  pool_reach pool ->
  let m := (typedMessage pool pick ctx target methodID p).1 in
  m = mkMessage methodID target None ctx p None None /\
  fst (Message_TargetPath m) = match ToActorPath target with Ok q => Some q | Err _ => None end /\
  fst (Message_TargetPath (snd (Message_TargetPath m))) = fst (Message_TargetPath m).
Proof.
  intros Hp m. assert (Hm : m = mkMessage methodID target None ctx p None None).
  { unfold m, typedMessage. pose proof (GetMessage_cleared pool pick Hp) as E.
    destruct (GetMessage pool pick) as [m0 pool']. simpl in *. by subst m0. }
  rewrite Hm. split; [done|]. unfold Message_TargetPath. simpl.
  split; [done|]. by destruct (ToActorPath target).
Qed.

Lemma typedMessage_fresh_witness :
  let used := mkMessage 9 "n.a" (Some (mkActorPath "n" "a" "")) None PNil (Some 4) (Some 5) in
  pool_reach [(Message_Recycle used).1] /\
  let m := (typedMessage [(Message_Recycle used).1] (Some 0%nat) None "n.b" 12 PNil).1 in
  m = mkMessage 12 "n.b" None None PNil None None /\
  fst (Message_TargetPath m) = match ToActorPath "n.b" with Ok q => Some q | Err _ => None end /\
  fst (Message_TargetPath (snd (Message_TargetPath m))) = fst (Message_TargetPath m).
Proof.
  intros used. assert (H : pool_reach [(Message_Recycle used).1]).
  { apply (pool_put [] used). exact pool_nil. }
  split; [exact H|]. exact (typedMessage_fresh _ (Some 0%nat) None "n.b" 12 PNil H).
Defined.
