(* ===== verification/Queue.v ===== *)
(** The multi-producer single-consumer queue behind every mailbox, event queue and
    timer queue (net/actor/queue.go), under arbitrary interleaving.

    A [Push] is four atomic steps of its goroutine (fill a node, swap the head, link
    the predecessor, add to the counter) and a non-blocking send of a wake-up token; a
    [Pop] is three steps of the single consumer. [qexec] executes one step; [qreach]
    closes it from [newQueue]. Nodes are recycled through a pool that other queues
    also use ([EnvPut], [EnvTake]).

    [aqueue] is the abstract queue the rest of the development uses: a list, the token
    channel, the counter, and the pushes under way at the grain of swap, addition and
    offer. [push_simulation], [pop_simulation] and [Count_lags] relate the two under
    every interleaving of the producers, [aqueue_refinement] for uninterrupted
    operations. *)
From S2P Require Import Prelude.

Section Queue.
Context {A : Type}.
Implicit Types (v : A) (n x y : positive) (pid : nat).

(** src/net/actor/queue.go:22-25, queueNode *)
Record queueNode := mkNode { n_next : option positive; n_val : option A }.

(** Where a goroutine is inside [Push]: the node is filled; the head is swapped and
    [prev] not yet linked; linked and not yet counted; counted, about to send. *)
Inductive ppc :=
| PGot (n : positive) (v : A)
| PSwapped (n prev : positive)
| PLinked
| PAdded (count : Z).

(** Where the consumer is: blocked on [C]; received a token; took a value; counted. *)
Inductive cpc := CIdle | CAwake | CTaken (v : A) | CAdded (count : Z).

(** The queue, its nodes and pool, its users, and the values swapped in and popped
    out so far (ghost). *)
(** src/net/actor/queue.go:15-20, queue *)
Record qstate := mkQ {
  q_nodes : gmap positive queueNode;
  q_pool : gset positive;
  q_head : positive;
  q_tail : positive;
  q_C : option Z;
  q_count : Z;
  q_prod : gmap nat ppc;
  q_cons : cpc;
  q_in : list A;
  q_out : list A }.

(** src/net/actor/queue.go:28-37, newQueue *)
Definition newQueue : qstate :=
  mkQ {[1%positive := mkNode None None]} ∅ 1 1 None 0 ∅ CIdle [] [].

Definition set_nodes (f : gmap positive queueNode -> gmap positive queueNode) (s : qstate) : qstate :=
  mkQ (f (q_nodes s)) (q_pool s) (q_head s) (q_tail s) (q_C s) (q_count s) (q_prod s)
    (q_cons s) (q_in s) (q_out s).
Definition set_pool (p : gset positive) (s : qstate) : qstate :=
  mkQ (q_nodes s) p (q_head s) (q_tail s) (q_C s) (q_count s) (q_prod s) (q_cons s)
    (q_in s) (q_out s).
Definition set_prod (p : gmap nat ppc) (s : qstate) : qstate :=
  mkQ (q_nodes s) (q_pool s) (q_head s) (q_tail s) (q_C s) (q_count s) p (q_cons s)
    (q_in s) (q_out s).
Definition set_cons (c : cpc) (s : qstate) : qstate :=
  mkQ (q_nodes s) (q_pool s) (q_head s) (q_tail s) (q_C s) (q_count s) (q_prod s) c
    (q_in s) (q_out s).
Definition set_C (c : option Z) (s : qstate) : qstate :=
  mkQ (q_nodes s) (q_pool s) (q_head s) (q_tail s) c (q_count s) (q_prod s) (q_cons s)
    (q_in s) (q_out s).
Definition set_count (c : Z) (s : qstate) : qstate :=
  mkQ (q_nodes s) (q_pool s) (q_head s) (q_tail s) (q_C s) c (q_prod s) (q_cons s)
    (q_in s) (q_out s).

(** [select { case p.C <- count: default: }] on a channel of capacity one. *)
Definition try_send (ch : option Z) (count : Z) : option Z :=
  match ch with Some c => Some c | None => Some count end.
(** src/net/actor/queue.go:83-91, queue._setCount *)
Definition send_if (ch : option Z) (count : Z) : option Z :=
  if 0 <? count then try_send ch count else ch.

(** [n := queueNodePool.Get()], [n.val = v; n.next = nil]: [n] is pooled or new. *)
(** src/net/actor/queue.go:39-46, queue.Push *)
Definition push_get pid n v (s : qstate) : option qstate :=
  match q_prod s !! pid with
  | Some _ => None
  | None =>
      if bool_decide (n ∈ q_pool s \/ q_nodes s !! n = None)
      then Some (set_prod (<[pid := PGot n v]> (q_prod s))
             (set_pool (q_pool s ∖ {[n]}) (set_nodes (<[n := mkNode None (Some v)]>) s)))
      else None
  end.

(** src/net/actor/queue.go:47-48, queue.Push *)
Definition push_swap pid (s : qstate) : option qstate :=
  match q_prod s !! pid with
  | Some (PGot n v) =>
      Some (mkQ (q_nodes s) (q_pool s) n (q_tail s) (q_C s) (q_count s)
        (<[pid := PSwapped n (q_head s)]> (q_prod s)) (q_cons s) (q_in s ++ [v]) (q_out s))
  | _ => None
  end.

Definition set_next (y : option positive) (nd : queueNode) : queueNode := mkNode y (n_val nd).
Definition set_val (v : option A) (nd : queueNode) : queueNode := mkNode (n_next nd) v.

(** src/net/actor/queue.go:50-51, queue.Push *)
Definition push_link pid (s : qstate) : option qstate :=
  match q_prod s !! pid with
  | Some (PSwapped n prev) =>
      Some (set_prod (<[pid := PLinked]> (q_prod s))
        (set_nodes (alter (set_next (Some n)) prev) s))
  | _ => None
  end.

(** src/net/actor/queue.go:53-53, queue.Push *)
Definition push_count pid (s : qstate) : option qstate :=
  match q_prod s !! pid with
  | Some PLinked =>
      let count := i32 (q_count s + 1) in
      Some (set_prod (<[pid := PAdded count]> (q_prod s)) (set_count count s))
  | _ => None
  end.

(** src/net/actor/queue.go:53-54, queue.Push *)
Definition push_send pid (s : qstate) : option qstate :=
  match q_prod s !! pid with
  | Some (PAdded count) =>
      Some (set_prod (delete pid (q_prod s)) (set_C (send_if (q_C s) count) s))
  | _ => None
  end.

(** The consumer's [<-C]. *)
Definition cons_recv (s : qstate) : option qstate :=
  match q_cons s, q_C s with
  | CIdle, Some _ => Some (set_cons CAwake (set_C None s))
  | _, _ => None
  end.

(** The load of [tail.next] and the consumer-private writes that follow it. *)
(** src/net/actor/queue.go:56-71, queue.Pop *)
Definition pop_take (s : qstate) : option qstate :=
  match q_cons s with
  | CAwake =>
      match q_nodes s !! q_tail s ≫= n_next with
      | Some next =>
          match q_nodes s !! next ≫= n_val with
          | Some v =>
              Some (mkQ (alter (set_next None) (q_tail s) (alter (set_val None) next (q_nodes s)))
                (q_pool s ∪ {[q_tail s]}) (q_head s) next (q_C s) (q_count s) (q_prod s)
                (CTaken v) (q_in s) (q_out s ++ [v]))
          | None => None
          end
      | None => Some (set_cons CIdle s)
      end
  | _ => None
  end.

(** src/net/actor/queue.go:66-67, queue.Pop *)
Definition pop_count (s : qstate) : option qstate :=
  match q_cons s with
  | CTaken _ => let count := i32 (q_count s - 1) in
                Some (set_cons (CAdded count) (set_count count s))
  | _ => None
  end.

(** src/net/actor/queue.go:66-67, queue.Pop *)
Definition pop_send (s : qstate) : option qstate :=
  match q_cons s with
  | CAdded count => Some (set_cons CIdle (set_C (send_if (q_C s) count) s))
  | _ => None
  end.

(** src/net/actor/queue.go:73-77, queue.Empty *)
Definition queue_Empty (s : qstate) : bool :=
  match q_nodes s !! q_tail s ≫= n_next with None => true | Some _ => false end.

(** Another queue puts a node into the shared pool or takes one out. *)
Definition env_put n (s : qstate) : option qstate :=
  if bool_decide (q_nodes s !! n = None)
  then Some (set_pool (q_pool s ∪ {[n]}) (set_nodes (<[n := mkNode None None]>) s)) else None.
Definition env_take n (s : qstate) : option qstate :=
  if bool_decide (n ∈ q_pool s)
  then Some (set_pool (q_pool s ∖ {[n]}) (set_nodes (delete n) s)) else None.

Inductive qaction :=
| Get (pid : nat) (n : positive) (v : A) | Swap (pid : nat) | Link (pid : nat)
| Count (pid : nat) | Send (pid : nat)
| Recv | Take | CountDown | Resend
| EnvPut (n : positive) | EnvTake (n : positive).

(** src/net/actor/queue.go:39-71, queue *)
Definition qexec (a : qaction) (s : qstate) : option qstate :=
  match a with
  | Get pid n v => push_get pid n v s
  | Swap pid => push_swap pid s
  | Link pid => push_link pid s
  | Count pid => push_count pid s
  | Send pid => push_send pid s
  | Recv => cons_recv s
  | Take => pop_take s
  | CountDown => pop_count s
  | Resend => pop_send s
  | EnvPut n => env_put n s
  | EnvTake n => env_take n s
  end.

Fixpoint qrun (l : list qaction) (s : qstate) : option qstate :=
  match l with [] => Some s | a :: l' => qexec a s ≫= qrun l' end.

Inductive qreach : qstate -> Prop :=
| qreach_init : qreach newQueue
| qreach_step s a s' : qreach s -> qexec a s = Some s' -> qreach s'.

Lemma qreach_run l s s' : qreach s -> qrun l s = Some s' -> qreach s'.
Proof.
  revert s. induction l as [|a l IH]; intros s Hs H; simpl in H; [by injection H as <-|].
  destruct (qexec a s) as [s1|] eqn:E; [|done]. apply (IH s1); [|done]. by eapply qreach_step.
Qed.

(** ** The chain invariant *)

Definition nxt (s : qstate) x : option positive := q_nodes s !! x ≫= n_next.
Definition val_of (s : qstate) x : option A := q_nodes s !! x ≫= n_val.

(** [y] is the successor of [x]: linked, or about to be linked by its producer. *)
Definition link (s : qstate) x y : Prop :=
  nxt s x = Some y \/ (nxt s x = None /\ exists pid, q_prod s !! pid = Some (PSwapped y x)).

Fixpoint path (R : positive -> positive -> Prop) x (l : list positive) : Prop :=
  match l with [] => True | y :: l' => R x y /\ path R y l' end.

Definition consec x y (c : list positive) : Prop := exists l1 l2, c = l1 ++ x :: y :: l2.

(** [c] lists the nodes after the tail, [pend] their values. *)
Record chain_inv (s : qstate) (c : list positive) (pend : list A) : Prop := {
  ci_nodup : NoDup (q_tail s :: c);
  ci_last : list.last (q_tail s :: c) = Some (q_head s);
  ci_dom : Forall (fun x => is_Some (q_nodes s !! x)) (q_tail s :: c);
  ci_pool : Forall (fun x => x ∉ q_pool s) (q_tail s :: c);
  ci_path : path (link s) (q_tail s) c;
  ci_head : nxt s (q_head s) = None;
  ci_vals : map (val_of s) c = map Some pend;
  ci_ghost : q_in s = q_out s ++ pend;
  ci_swap : forall pid y x, q_prod s !! pid = Some (PSwapped y x) ->
    nxt s x = None /\ consec x y (q_tail s :: c);
  ci_uniq : forall p1 p2 y1 y2 x, q_prod s !! p1 = Some (PSwapped y1 x) ->
    q_prod s !! p2 = Some (PSwapped y2 x) -> p1 = p2;
  ci_got : forall pid n v, q_prod s !! pid = Some (PGot n v) ->
    q_nodes s !! n = Some (mkNode None (Some v)) /\ (n ∉ q_tail s :: c) /\ (n ∉ q_pool s);
  ci_got_uniq : forall p1 p2 n v1 v2, q_prod s !! p1 = Some (PGot n v1) ->
    q_prod s !! p2 = Some (PGot n v2) -> p1 = p2;
  ci_pooled : forall x, x ∈ q_pool s -> is_Some (q_nodes s !! x)
}.

Lemma path_impl (R R' : positive -> positive -> Prop) a l :
  (forall x y, consec x y (a :: l) -> R x y -> R' x y) -> path R a l -> path R' a l.
Proof.
  revert a. induction l as [|b l IH]; intros a H; [done|]. simpl. intros [Hab Hl]. split.
  - apply H; [|done]. by exists [], l.
  - apply IH; [|done]. intros x y (l1 & l2 & E). apply H. exists (a :: l1), l2. simpl. by rewrite E.
Qed.

Lemma path_snoc R a l h n : list.last (a :: l) = Some h -> path R a l -> R h n -> path R a (l ++ [n]).
Proof.
  revert a. induction l as [|b l IH]; intros a Hl; simpl.
  - by injection Hl as ->.
  - intros [? ?] ?. split; [done|]. by apply IH.
Qed.

Lemma path_consec R x y a l : path R a l -> consec x y (a :: l) -> R x y.
Proof.
  revert a. induction l as [|b l IH]; intros a Hp ([|z l1] & l2 & E); simpl in *; simplify_eq.
  - by destruct l1.
  - by destruct Hp.
  - destruct Hp as [_ Hp]. apply (IH b Hp). exists l1, l2. done.
Qed.

Lemma consec_elem x y c : consec x y c -> x ∈ c /\ y ∈ c.
Proof. intros (l1 & l2 & ->). set_solver. Qed.

Lemma consec_app x y c d : consec x y c -> consec x y (c ++ d).
Proof. intros (l1 & l2 & ->). exists l1, (l2 ++ d). by rewrite <- app_assoc. Qed.

Lemma consec_last c h n : list.last c = Some h -> consec h n (c ++ [n]).
Proof.
  intros H. apply last_Some in H as (l & ->). exists l, []. by rewrite <- app_assoc.
Qed.

Lemma consec_head_fun x y z c : NoDup (x :: y :: c) -> consec x z (x :: y :: c) -> z = y.
Proof.
  intros [Hx _]%list.NoDup_cons ([|w l1] & l2 & E); injection E; [done|].
  intros E' _. exfalso. apply Hx. rewrite E'. set_solver.
Qed.

Lemma consec_tl x z t y c : NoDup (t :: y :: c) -> x <> t -> consec x z (t :: y :: c) -> consec x z (y :: c).
Proof. intros _ Hne ([|w l1] & l2 & E); simplify_eq/=. by exists l1, l2. Qed.

Lemma consec_fun x y z c : NoDup c -> consec x y c -> consec x z c -> y = z.
Proof.
  intros Hnd (l1 & l2 & ->). induction l1 as [|w l1 IH]; simpl in *.
  - intros H. symmetry. by eapply consec_head_fun.
  - apply list.NoDup_cons in Hnd as [Hw Hnd]. intros ([|u m1] & m2 & E); injection E.
    + intros E' ->. exfalso. apply Hw. rewrite E'. set_solver.
    + intros E' _. apply IH; [done|]. by exists m1, m2.
Qed.

Lemma last_elem (c : list positive) h : list.last c = Some h -> h ∈ c.
Proof. intros (l & ->)%last_Some. set_solver. Qed.

Lemma last_no_consec (c : list positive) h y : NoDup c -> list.last c = Some h -> ~ consec h y c.
Proof.
  intros Hnd Hl (l1 & l2 & ->).
  assert (h ∈ y :: l2).
  { apply last_elem. rewrite last_app in Hl. rewrite last_cons_cons in Hl.
    destruct (list.last (y :: l2)) eqn:E; [done|]. by apply last_None in E. }
  apply list.NoDup_app in Hnd as (_ & _ & [Hh _]%list.NoDup_cons). done.
Qed.

(** Steps that leave nodes, ends and the two waiting phases alone. *)
Lemma chain_inv_ext s s' c pend :
  chain_inv s c pend ->
  q_nodes s' = q_nodes s -> q_pool s' = q_pool s -> q_head s' = q_head s -> q_tail s' = q_tail s ->
  q_in s' = q_in s -> q_out s' = q_out s ->
  (forall pid y x, q_prod s' !! pid = Some (PSwapped y x) <-> q_prod s !! pid = Some (PSwapped y x)) ->
  (forall pid n v, q_prod s' !! pid = Some (PGot n v) <-> q_prod s !! pid = Some (PGot n v)) ->
  chain_inv s' c pend.
Proof.
  intros [] Hn Hp Hh Ht Hi Ho Hs Hg.
  split; unfold link, nxt, val_of in *; rewrite ?Hn, ?Hp, ?Hh, ?Ht, ?Hi, ?Ho; try done.
  - eapply path_impl; [|exact ci_path0]. unfold link, nxt. intros x y _ [H|(H & pid & H')].
    + by left.
    + right. split; [done|]. exists pid. by apply Hs.
  - intros pid y x. rewrite Hs. intros H. by eapply ci_swap0.
  - intros p1 p2 y1 y2 x. rewrite !Hs. apply ci_uniq0.
  - intros pid n v. rewrite Hg. apply ci_got0.
  - intros p1 p2 n v1 v2. rewrite !Hg. apply ci_got_uniq0.
Qed.

Lemma push_get_inv s pid n v s' c pend :
  chain_inv s c pend -> push_get pid n v s = Some s' -> chain_inv s' c pend.
Proof.
  unfold push_get. intros I. destruct (q_prod s !! pid) eqn:Epid; [done|].
  case_bool_decide as Hn; [|done]. intros [= <-]. destruct I.
  assert (Hc : n ∉ q_tail s :: c).
  { intros Hin. destruct Hn as [Hn|Hn].
    - rewrite list.Forall_forall in ci_pool0. by apply (ci_pool0 n).
    - rewrite list.Forall_forall in ci_dom0. destruct (ci_dom0 n Hin). congruence. }
  assert (Hne : forall x, x ∈ q_tail s :: c -> n <> x) by (intros x Hx ->; done).
  assert (Hold : forall p' m w, q_prod s !! p' = Some (PGot m w) -> m <> n).
  { intros p' m w Hp' ->. destruct (ci_got0 _ _ _ Hp') as (E & _ & Hnp).
    destruct Hn as [Hn|Hn]; [done|]. congruence. }
  split; simpl; try done.
  - eapply list.Forall_impl; [exact ci_dom0|]. intros x [nd Hx]. simpl.
    destruct (decide (n = x)) as [->|]; [rewrite lookup_insert_eq; eauto|].
    rewrite lookup_insert_ne by done. eauto.
  - eapply list.Forall_impl; [exact ci_pool0|]. simpl. set_solver.
  - eapply path_impl; [|exact ci_path0]. unfold link, nxt. simpl.
    intros x y [Hx _]%consec_elem H. rewrite lookup_insert_ne by (by apply Hne).
    destruct H as [H|(H & p' & H')]; [by left|]. right. split; [done|]. exists p'.
    rewrite lookup_insert_ne; [done|]. intros ->. congruence.
  - unfold nxt in *. simpl. rewrite lookup_insert_ne; [done|]. apply Hne.
    by apply last_elem.
  - rewrite <- ci_vals0. apply map_ext_in. intros x Hx. unfold val_of. simpl.
    rewrite lookup_insert_ne; [done|]. apply Hne. right. by apply list_elem_of_In.
  - intros p' y x. rewrite lookup_insert_Some. intros [[_ ?]|[_ H]]; [done|].
    destruct (ci_swap0 _ _ _ H) as [H1 H2]. split; [|done]. unfold nxt in *. simpl.
    rewrite lookup_insert_ne; [done|]. apply Hne. by apply consec_elem in H2 as [? _].
  - intros p1 p2 y1 y2 x. rewrite !lookup_insert_Some. intros [[_ ?]|[_ H1]]; [done|].
    intros [[_ ?]|[_ H2]]; [done|]. by eapply ci_uniq0.
  - intros p' m w. rewrite lookup_insert_Some. intros [[_ [= -> ->]]|[_ H]].
    + split; [by rewrite lookup_insert_eq|]. split; [done|]. set_solver.
    + destruct (ci_got0 _ _ _ H) as (? & ? & ?). split.
      * rewrite lookup_insert_ne; [done|]. by apply not_eq_sym, (Hold _ _ _ H).
      * split; [done|]. set_solver.
  - intros p1 p2 m v1 v2. rewrite !lookup_insert_Some.
    intros [[<- [= <- <-]]|[_ H1]] [[<- E2]|[_ H2]]; try done.
    + by destruct (Hold _ _ _ H2).
    + injection E2 as <- <-. by destruct (Hold _ _ _ H1).
    + by eapply ci_got_uniq0.
  - intros x Hx. rewrite lookup_insert_ne by set_solver. apply ci_pooled0. set_solver.
Qed.

Lemma push_swap_inv s pid s' c pend :
  chain_inv s c pend -> push_swap pid s = Some s' ->
  exists n v, chain_inv s' (c ++ [n]) (pend ++ [v]).
Proof.
  unfold push_swap. intros I. destruct (q_prod s !! pid) as [[n v| | |]|] eqn:Epid; try done.
  intros [= <-]. exists n, v. destruct I. destruct (ci_got0 _ _ _ Epid) as (En & Hnc & Hnp).
  split; simpl.
  - change (NoDup ((q_tail s :: c) ++ [n])). apply list.NoDup_app. split; [done|].
    split; [|apply list.NoDup_singleton]. set_solver.
  - change (list.last ((q_tail s :: c) ++ [n]) = Some n). by rewrite last_snoc.
  - change (Forall (fun x => is_Some (q_nodes s !! x)) ((q_tail s :: c) ++ [n])).
    apply list.Forall_app. split; [done|]. apply list.Forall_singleton. eauto.
  - change (Forall (fun x => x ∉ q_pool s) ((q_tail s :: c) ++ [n])).
    apply list.Forall_app. split; [done|]. by apply list.Forall_singleton.
  - eapply path_snoc; [exact ci_last0| |].
    + eapply path_impl; [|exact ci_path0]. unfold link, nxt. simpl.
      intros x y _ [H|(H & p' & H')]; [by left|]. right. split; [done|]. exists p'.
      rewrite lookup_insert_ne; [done|]. intros ->. congruence.
    + right. split; [done|]. exists pid. simpl. by rewrite lookup_insert_eq.
  - unfold nxt. simpl. by rewrite En.
  - rewrite !map_app. simpl. f_equal; [done|]. unfold val_of. simpl. by rewrite En.
  - rewrite ci_ghost0. by rewrite app_assoc.
  - intros p' y x. rewrite lookup_insert_Some. intros [[_ [= <- <-]]|[_ H]].
    + split; [done|]. by apply (consec_last (q_tail s :: c)).
    + destruct (ci_swap0 _ _ _ H). split; [done|]. by apply (consec_app _ _ (q_tail s :: c)).
  - intros p1 p2 y1 y2 x. rewrite !lookup_insert_Some.
    assert (Hno : forall p y, q_prod s !! p = Some (PSwapped y (q_head s)) -> False).
    { intros p y H. destruct (ci_swap0 _ _ _ H) as (_ & Hc).
      by eapply last_no_consec. }
    intros [[<- [= <- <-]]|[_ H1]] [[<- E2]|[_ H2]]; try done.
    + by apply Hno in H2.
    + injection E2 as <- <-. by apply Hno in H1.
    + by eapply ci_uniq0.
  - intros p' m w. rewrite lookup_insert_Some. intros [[_ ?]|[Hne H]]; [done|].
    destruct (ci_got0 _ _ _ H) as (? & ? & ?). split_and!; [done| |done].
    intros Hin. change (m ∈ (q_tail s :: c) ++ [n]) in Hin. apply elem_of_app in Hin as [?|Hin]; [done|].
    apply list_elem_of_singleton in Hin as ->. apply Hne. by eapply ci_got_uniq0.
  - intros p1 p2 m v1 v2. rewrite !lookup_insert_Some.
    intros [[_ ?]|[_ H1]] [[_ ?]|[_ H2]]; try done. by eapply ci_got_uniq0.
  - done.
Qed.

Lemma push_link_inv s pid s' c pend :
  chain_inv s c pend -> push_link pid s = Some s' -> chain_inv s' c pend.
Proof.
  unfold push_link. intros I. destruct (q_prod s !! pid) as [[|n prev| |]|] eqn:Epid; try done.
  intros [= <-]. pose proof I as [].
  destruct (ci_swap0 _ _ _ Epid) as [Hnx Hc]. pose proof (consec_elem _ _ _ Hc) as [Hprev _].
  rewrite list.Forall_forall in ci_dom0. destruct (ci_dom0 _ Hprev) as [nd Hnd].
  assert (Hnxt : forall x, x <> prev -> nxt (set_prod (<[pid:=PLinked]> (q_prod s))
      (set_nodes (alter (set_next (Some n)) prev) s)) x = nxt s x).
  { intros x Hne. unfold nxt. simpl. by rewrite lookup_alter_ne. }
  split; simpl; try done.
  - apply list.Forall_forall. intros x Hx. simpl. destruct (ci_dom0 _ Hx) as [nd' Hx'].
    destruct (decide (x = prev)) as [->|]; [rewrite lookup_alter_eq|rewrite lookup_alter_ne by done];
      rewrite ?Hx'; simpl; eauto.
  - eapply path_impl; [|exact ci_path0]. unfold link. simpl. intros x y Hxy H.
    destruct (decide (x = prev)) as [->|Hne].
    + left. rewrite (consec_fun _ _ _ _ ci_nodup0 Hxy Hc). unfold nxt. simpl.
      rewrite lookup_alter_eq, Hnd. done.
    + rewrite Hnxt by done. destruct H as [H|(? & p' & H)]; [by left|]. right.
      split; [done|]. exists p'. rewrite lookup_insert_ne; [done|]. intros ->. congruence.
  - rewrite Hnxt; [done|]. intros E. apply (last_no_consec _ _ n ci_nodup0 ci_last0). by rewrite E.
  - rewrite <- ci_vals0. apply map_ext_in. intros x _. unfold val_of. simpl.
    destruct (decide (x = prev)) as [->|]; [rewrite lookup_alter_eq|by rewrite lookup_alter_ne].
    rewrite Hnd. done.
  - intros p' y x. rewrite lookup_insert_Some. intros [[_ ?]|[Hne H]]; [done|].
    rewrite Hnxt; [by eapply ci_swap0|]. intros ->. apply Hne. by eapply ci_uniq0.
  - intros p1 p2 y1 y2 x. rewrite !lookup_insert_Some. intros [[_ ?]|[_ H1]]; [done|].
    intros [[_ ?]|[_ H2]]; [done|]. by eapply ci_uniq0.
  - intros p' m w. rewrite lookup_insert_Some. intros [[_ ?]|[_ H]]; [done|].
    destruct (ci_got0 _ _ _ H) as (? & ? & ?). split; [|done].
    rewrite lookup_alter_ne; [done|]. intros ->. done.
  - intros p1 p2 m v1 v2. rewrite !lookup_insert_Some. intros [[_ ?]|[_ H1]]; [done|].
    intros [[_ ?]|[_ H2]]; [done|]. by eapply ci_got_uniq0.
  - intros x Hx. destruct (ci_pooled0 x Hx) as [nd' Hx'].
    destruct (decide (x = prev)) as [->|]; [rewrite lookup_alter_eq|rewrite lookup_alter_ne by done];
      rewrite Hx'; simpl; eauto.
Qed.

(** What a successful [Pop] finds: the tail's successor is linked, it is the first
    pending value, and the rest of the chain is kept. *)
(** The consumer's writes to the old tail and to the node it takes. *)
Definition pop_nodes (t y : positive) (nodes : gmap positive queueNode) : gmap positive queueNode :=
  alter (set_next None) t (alter (set_val None) y nodes).

Lemma pop_nodes_next t y nodes x : x <> t -> pop_nodes t y nodes !! x ≫= n_next = nodes !! x ≫= n_next.
Proof.
  intros Hx. unfold pop_nodes. rewrite lookup_alter_ne by done.
  destruct (decide (x = y)) as [->|]; [rewrite lookup_alter_eq|by rewrite lookup_alter_ne].
  by destruct (nodes !! y).
Qed.

Lemma pop_nodes_val t y nodes x : x <> y -> pop_nodes t y nodes !! x ≫= n_val = nodes !! x ≫= n_val.
Proof.
  intros Hx. unfold pop_nodes. destruct (decide (x = t)) as [->|];
    [rewrite lookup_alter_eq|rewrite lookup_alter_ne by done]; rewrite lookup_alter_ne by done; [|done].
  by destruct (nodes !! t).
Qed.

Lemma pop_nodes_dom t y nodes x : is_Some (pop_nodes t y nodes !! x) <-> is_Some (nodes !! x).
Proof. unfold pop_nodes. rewrite <- !elem_of_dom. by rewrite !dom_alter_L. Qed.

Lemma pop_take_inv s s' c pend :
  chain_inv s c pend -> pop_take s = Some s' ->
  (nxt s (q_tail s) = None /\ s' = set_cons CIdle s /\ chain_inv s' c pend) \/
  exists y c' v pend', c = y :: c' /\ pend = v :: pend' /\ nxt s (q_tail s) = Some y /\
    q_cons s' = CTaken v /\ q_out s' = q_out s ++ [v] /\ q_in s' = q_in s /\
    q_prod s' = q_prod s /\ q_C s' = q_C s /\ q_count s' = q_count s /\ chain_inv s' c' pend'.
Proof.
  unfold pop_take. intros I. destruct (q_cons s) eqn:Ec; try done.
  change (q_nodes s !! q_tail s ≫= n_next) with (nxt s (q_tail s)).
  destruct (nxt s (q_tail s)) as [y|] eqn:En.
  2:{ intros [= <-]. left. split_and!; [done|done|]. by eapply chain_inv_ext. }
  change (q_nodes s !! y ≫= n_val) with (val_of s y).
  destruct (val_of s y) as [v|] eqn:Ev; [|done]. intros [= <-]. right. destruct I.
  destruct c as [|y' c'].
  { injection ci_last0 as E. rewrite E in En. congruence. }
  destruct ci_path0 as [[Hl|[Hl _]] Hp]; [|congruence].
  assert (y' = y) as -> by congruence. clear Hl.
  destruct pend as [|v' pend']; [done|]. simpl in ci_vals0. injection ci_vals0 as Hv Hvs.
  assert (v' = v) as -> by congruence.
  exists y, c', v, pend'. split_and!; try done.
  pose proof ci_nodup0 as [Ht Hnd]%list.NoDup_cons.
  pose proof Hnd as [Hy _]%list.NoDup_cons.
  apply Forall_cons_iff in ci_dom0 as [[ndt Hndt] Hdom]. apply Forall_cons_iff in ci_pool0 as [Htp Hpool].
  set (nodes := pop_nodes (q_tail s) y (q_nodes s)).
  pose proof (fun x => pop_nodes_next (q_tail s) y (q_nodes s) x) as Hnx.
  pose proof (fun x => pop_nodes_val (q_tail s) y (q_nodes s) x) as Hvl.
  pose proof (fun x => pop_nodes_dom (q_tail s) y (q_nodes s) x) as Hdm.
  assert (Hto : forall x, x ∈ y :: c' -> x <> q_tail s) by (intros x Hx ->; done).
  fold nodes in Hnx, Hvl, Hdm.
  split; simpl; try fold (pop_nodes (q_tail s) y (q_nodes s)); try fold nodes.
  - done.
  - done.
  - eapply list.Forall_impl; [exact Hdom|]. intros x. by rewrite Hdm.
  - rewrite list.Forall_forall in *. intros x Hx. specialize (Hpool x Hx). specialize (Hto x Hx). set_solver.
  - eapply path_impl; [|exact Hp]. unfold link. simpl. intros x z [Hx _]%consec_elem H.
    unfold nxt at 1 2. simpl. fold (pop_nodes (q_tail s) y (q_nodes s)); fold nodes. rewrite Hnx by (by apply Hto). done.
  - unfold nxt. simpl. fold (pop_nodes (q_tail s) y (q_nodes s)); fold nodes. rewrite Hnx; [done|]. apply Hto. by apply last_elem.
  - rewrite <- Hvs. apply map_ext_in. intros x Hx%list_elem_of_In. unfold val_of at 1. simpl.
    fold (pop_nodes (q_tail s) y (q_nodes s)); fold nodes. apply Hvl. by intros ->.
  - rewrite ci_ghost0. by rewrite <- app_assoc.
  - intros p z x H. destruct (ci_swap0 _ _ _ H) as [H1 H2].
    assert (x <> q_tail s) by congruence. split.
    + unfold nxt. simpl. fold (pop_nodes (q_tail s) y (q_nodes s)); fold nodes. by rewrite Hnx.
    + by eapply consec_tl.
  - done.
  - intros p n w H. destruct (ci_got0 _ _ _ H) as (E & Hn & Hnp).
    apply not_elem_of_cons in Hn as [Hn1 Hn2]. split_and!; [|done|set_solver].
    unfold nodes, pop_nodes. rewrite lookup_alter_ne by done. rewrite lookup_alter_ne; [done|]. set_solver.
  - done.
  - intros x Hx. apply Hdm. apply elem_of_union in Hx as [Hx|Hx%elem_of_singleton]; [by apply ci_pooled0|].
    subst. eauto.
Qed.

Lemma env_put_inv s n s' c pend :
  chain_inv s c pend -> env_put n s = Some s' -> chain_inv s' c pend.
Proof.
  unfold env_put. intros I. case_bool_decide as Hn; [|done]. intros [= <-]. destruct I.
  assert (Hne : forall x, x ∈ q_tail s :: c -> n <> x).
  { intros x Hx ->. rewrite list.Forall_forall in ci_dom0. destruct (ci_dom0 _ Hx). congruence. }
  split; simpl; try done.
  - eapply list.Forall_impl; [exact ci_dom0|]. intros x Hx. simpl.
    destruct (decide (n = x)) as [->|]; [rewrite lookup_insert_eq|rewrite lookup_insert_ne]; eauto.
  - rewrite list.Forall_forall in *. intros x Hx. specialize (ci_pool0 x Hx).
    specialize (Hne x Hx). set_solver.
  - eapply path_impl; [|exact ci_path0]. unfold link, nxt. simpl.
    intros x y [Hx _]%consec_elem. by rewrite lookup_insert_ne by (by apply Hne).
  - unfold nxt. simpl. rewrite lookup_insert_ne; [done|]. apply Hne. by apply last_elem.
  - rewrite <- ci_vals0. apply map_ext_in. intros x Hx%list_elem_of_In. unfold val_of. simpl.
    rewrite lookup_insert_ne; [done|]. apply Hne. by right.
  - intros p y x H. destruct (ci_swap0 _ _ _ H) as [H1 H2]. split; [|done]. unfold nxt. simpl.
    rewrite lookup_insert_ne; [done|]. apply Hne. by apply consec_elem in H2 as [? _].
  - intros p m w H. destruct (ci_got0 _ _ _ H) as (E & ? & ?).
    assert (n <> m) by congruence. rewrite lookup_insert_ne by done. set_solver.
  - intros x Hx. destruct (decide (n = x)) as [->|]; [rewrite lookup_insert_eq; eauto|].
    rewrite lookup_insert_ne by done. apply ci_pooled0. set_solver.
Qed.

Lemma env_take_inv s n s' c pend :
  chain_inv s c pend -> env_take n s = Some s' -> chain_inv s' c pend.
Proof.
  unfold env_take. intros I. case_bool_decide as Hn; [|done]. intros [= <-]. destruct I.
  assert (Hne : forall x, x ∈ q_tail s :: c -> n <> x).
  { intros x Hx ->. rewrite list.Forall_forall in ci_pool0. by apply (ci_pool0 x). }
  split; simpl; try done.
  - rewrite list.Forall_forall in *. intros x Hx. rewrite lookup_delete_ne by (by apply Hne). by apply ci_dom0.
  - eapply list.Forall_impl; [exact ci_pool0|]. simpl. set_solver.
  - eapply path_impl; [|exact ci_path0]. unfold link, nxt. simpl.
    intros x y [Hx _]%consec_elem. by rewrite lookup_delete_ne by (by apply Hne).
  - unfold nxt. simpl. rewrite lookup_delete_ne; [done|]. apply Hne. by apply last_elem.
  - rewrite <- ci_vals0. apply map_ext_in. intros x Hx%list_elem_of_In. unfold val_of. simpl.
    rewrite lookup_delete_ne; [done|]. apply Hne. by right.
  - intros p y x H. destruct (ci_swap0 _ _ _ H) as [H1 H2]. split; [|done]. unfold nxt. simpl.
    rewrite lookup_delete_ne; [done|]. apply Hne. by apply consec_elem in H2 as [? _].
  - intros p m w H. destruct (ci_got0 _ _ _ H) as (E & ? & ?).
    assert (n <> m) by congruence. rewrite lookup_delete_ne by done. set_solver.
  - intros x Hx. rewrite lookup_delete_ne by set_solver. apply ci_pooled0. set_solver.
Qed.

Lemma newQueue_inv : chain_inv newQueue [] [].
Proof.
  split; simpl; try done.
  - apply list.NoDup_singleton.
  - repeat constructor. eauto.
  - repeat constructor. set_solver.
Qed.

Lemma qexec_inv s a s' c pend :
  chain_inv s c pend -> qexec a s = Some s' -> exists c' pend', chain_inv s' c' pend'.
Proof.
  intros I H. destruct a; simpl in H.
  - exists c, pend. by eapply push_get_inv.
  - destruct (push_swap_inv _ _ _ _ _ I H) as (? & ? & ?). eauto.
  - exists c, pend. by eapply push_link_inv.
  - unfold push_count in H. destruct (q_prod s !! pid) as [[]|] eqn:E; try done. injection H as <-.
    exists c, pend. eapply chain_inv_ext; [exact I|done..| |]; simpl; intros;
      rewrite lookup_insert_Some;
      (split; [by intros [[_ ?]|[_ ?]]|intros ?; right; split; [intros ->; congruence|done]]).
  - unfold push_send in H. destruct (q_prod s !! pid) as [[]|] eqn:E; try done. injection H as <-.
    exists c, pend. eapply chain_inv_ext; [exact I|done..| |]; simpl; intros;
      rewrite lookup_delete_Some; (split; [by intros [? ?]|intros ?; split; [intros ->; congruence|done]]).
  - unfold cons_recv in H. destruct (q_cons s), (q_C s); try done. injection H as <-.
    exists c, pend. by eapply chain_inv_ext.
  - destruct (pop_take_inv _ _ _ _ I H) as [(_ & _ & ?)|H']; [eauto|].
    destruct H' as (y & c' & v & pend' & H'). destruct_and!. eauto.
  - unfold pop_count in H. destruct (q_cons s); try done. injection H as <-.
    exists c, pend. by eapply chain_inv_ext.
  - unfold pop_send in H. destruct (q_cons s); try done. injection H as <-.
    exists c, pend. by eapply chain_inv_ext.
  - exists c, pend. by eapply env_put_inv.
  - exists c, pend. by eapply env_take_inv.
Qed.

Lemma qreach_inv s : qreach s -> exists c pend, chain_inv s c pend.
Proof.
  induction 1 as [|s a s' _ (c & pend & I) H]; [exists [], []; apply newQueue_inv|].
  by eapply qexec_inv.
Qed.

(** ** The counter and the wake-up token *)

Definition is_mid (p : ppc) : Prop :=
  match p with PSwapped _ _ | PLinked => True | _ => False end.
#[global] Instance is_mid_dec p : Decision (is_mid p).
Proof. destruct p; simpl; apply _. Defined.

(** Producers that swapped the head and have not counted their value yet. *)
Definition mids (m : gmap nat ppc) : Z := Z.of_nat (size (filter (fun kv => is_mid kv.2) m)).
Definition mid1 (p : ppc) : Z := if decide (is_mid p) then 1 else 0.
Definition taken (c : cpc) : Z := match c with CTaken _ => 1 | _ => 0 end.

Lemma mids_insert_None m pid p : m !! pid = None -> mids (<[pid := p]> m) = mids m + mid1 p.
Proof.
  intros Hm. unfold mids, mid1. destruct (decide (is_mid p)) as [Hp|Hp].
  - rewrite map_filter_insert_True by done. rewrite map_size_insert_None; [lia|].
    apply map_lookup_filter_None. by left.
  - rewrite map_filter_insert_False by done. rewrite delete_id by done. lia.
Qed.

Lemma mids_delete m pid p : m !! pid = Some p -> mids (delete pid m) = mids m - mid1 p.
Proof.
  intros Hm. rewrite <- (insert_delete_id m pid p Hm) at 2.
  rewrite mids_insert_None by apply lookup_delete_eq. lia.
Qed.

Lemma mids_insert_Some m pid p p' : m !! pid = Some p -> mids (<[pid := p']> m) = mids m - mid1 p + mid1 p'.
Proof.
  intros Hm. rewrite <- insert_delete_eq, mids_insert_None by apply lookup_delete_eq.
  by rewrite (mids_delete _ _ _ Hm).
Qed.

Lemma mids_pos m pid p : m !! pid = Some p -> is_mid p -> 0 < mids m.
Proof.
  intros Hm Hp. rewrite <- (insert_delete_id m pid p Hm), mids_insert_None by apply lookup_delete_eq.
  unfold mid1. rewrite decide_True by done. unfold mids. lia.
Qed.

Lemma i32_add a b : i32 (i32 a + b) = i32 (a + b).
Proof.
  unfold wrapS. change (2 ^ (32 - 1)) with 2147483648. change (2 ^ 32) with 4294967296.
  f_equal. replace ((a + 2147483648) mod 4294967296 - 2147483648 + b + 2147483648)
    with ((a + 2147483648) mod 4294967296 + b) by lia.
  rewrite Zplus_mod_idemp_l. f_equal. lia.
Qed.

Definition outstanding (s : qstate) : Z := Z.of_nat (length (q_in s)) - Z.of_nat (length (q_out s)).

Definition count_inv (s : qstate) : Prop :=
  q_count s = i32 (outstanding s - mids (q_prod s) + taken (q_cons s)).

(** The consumer will look at the queue, or send a token, before it blocks again. *)
Definition cons_active (c : cpc) : Prop :=
  match c with CIdle => False | CAwake | CTaken _ => True | CAdded c => 0 < c end.
Definition no_sender (m : gmap nat ppc) : Prop := forall pid c, m !! pid = Some (PAdded c) -> c <= 0.

Definition token_inv (s : qstate) : Prop :=
  q_C s = None -> ~ cons_active (q_cons s) -> no_sender (q_prod s) ->
  q_count s <= 0 \/ 0 < mids (q_prod s).

Lemma send_if_none ch c : send_if ch c = None -> ch = None /\ c <= 0.
Proof.
  unfold send_if, try_send. destruct (Z.ltb_spec 0 c); [by destruct ch|]. intros ->. split; [done|lia].
Qed.

Lemma count_inv_same s s' :
  count_inv s -> q_count s' = q_count s -> outstanding s' = outstanding s ->
  mids (q_prod s') = mids (q_prod s) -> taken (q_cons s') = taken (q_cons s) -> count_inv s'.
Proof. unfold count_inv. by intros H -> -> -> ->. Qed.

(** [Swap] adds a value and a mid-push producer; [Take] removes a value and is one
    step behind on the counter: the counter always equals the same expression. *)
Lemma qexec_count s a s' c pend :
  chain_inv s c pend -> count_inv s -> qexec a s = Some s' -> count_inv s'.
Proof.
  intros I C H. destruct a; simpl in H.
  - unfold push_get in H. destruct (q_prod s !! pid) eqn:E; [done|]. case_bool_decide; [|done].
    injection H as <-. apply (count_inv_same s); try done. simpl.
    rewrite mids_insert_None by done. unfold mid1. simpl. lia.
  - unfold push_swap in H. destruct (q_prod s !! pid) as [[]|] eqn:E; try done. injection H as <-.
    unfold count_inv, outstanding in *. simpl. rewrite C, (mids_insert_Some _ _ _ _ E), length_app.
    unfold mid1. simpl. f_equal. lia.
  - unfold push_link in H. destruct (q_prod s !! pid) as [[]|] eqn:E; try done. injection H as <-.
    apply (count_inv_same s); try done. simpl. rewrite (mids_insert_Some _ _ _ _ E). unfold mid1. simpl. lia.
  - unfold push_count in H. destruct (q_prod s !! pid) as [[]|] eqn:E; try done. injection H as <-.
    unfold count_inv, outstanding in *. simpl. rewrite C, (mids_insert_Some _ _ _ _ E), i32_add.
    unfold mid1. simpl. f_equal. lia.
  - unfold push_send in H. destruct (q_prod s !! pid) as [[]|] eqn:E; try done. injection H as <-.
    apply (count_inv_same s); try done. simpl. rewrite (mids_delete _ _ _ E). unfold mid1. simpl. lia.
  - unfold cons_recv in H. destruct (q_cons s) eqn:E, (q_C s); try done. injection H as <-.
    apply (count_inv_same s); try done. simpl. by rewrite E.
  - assert (Hc : q_cons s = CAwake) by (unfold pop_take in H; by destruct (q_cons s)).
    destruct (pop_take_inv _ _ _ _ I H) as [(_ & -> & _)|H'].
    + apply (count_inv_same s); try done. simpl. by rewrite Hc.
    + destruct H' as (y & c' & v & pend' & _ & _ & _ & H1 & H2 & H3 & H4 & H5 & H6 & _).
      unfold count_inv, outstanding in *. rewrite H1, H2, H3, H4, H6, C, Hc, length_app. simpl.
      f_equal. lia.
  - unfold pop_count in H. destruct (q_cons s) eqn:E; try done. injection H as <-.
    unfold count_inv, outstanding in *. simpl. rewrite C, E. unfold Z.sub at 1. rewrite i32_add.
    simpl. f_equal. lia.
  - unfold pop_send in H. destruct (q_cons s) eqn:E; try done. injection H as <-.
    apply (count_inv_same s); try done. simpl. by rewrite E.
  - unfold env_put in H. case_bool_decide; [|done]. injection H as <-. by apply (count_inv_same s).
  - unfold env_take in H. case_bool_decide; [|done]. injection H as <-. by apply (count_inv_same s).
Qed.

(** A consumer that finds nothing although a value was swapped in leaves a producer
    behind that will count, hence send. *)
Lemma pop_nothing s c pend :
  chain_inv s c pend -> count_inv s -> q_cons s = CAwake -> nxt s (q_tail s) = None ->
  q_count s <= 0 \/ 0 < mids (q_prod s).
Proof.
  intros [] C Hc Hn. destruct c as [|y c].
  - destruct pend; [|done]. unfold count_inv, outstanding in C.
    rewrite ci_ghost0, app_nil_r, Hc in C. simpl in C.
    destruct (decide (0 < mids (q_prod s))); [by right|left].
    assert (mids (q_prod s) = 0) by (unfold mids in *; lia).
    rewrite C, H. replace (_ - _ - 0 + 0) with 0 by lia. done.
  - right. destruct ci_path0 as [[Hl|(_ & pid & Hl)] _]; [congruence|]. by eapply mids_pos.
Qed.

Lemma no_sender_insert m pid p : no_sender (<[pid := p]> m) -> (forall c, p <> PAdded c) ->
  (forall c, m !! pid <> Some (PAdded c)) -> no_sender m.
Proof.
  intros H Hp Hm p' c Hc. apply (H p'). rewrite lookup_insert_ne; [done|]. intros ->. by apply Hm in Hc.
Qed.

Lemma qexec_token s a s' c pend :
  chain_inv s c pend -> count_inv s -> token_inv s -> qexec a s = Some s' -> token_inv s'.
Proof.
  intros I C T H. destruct a; simpl in H.
  - unfold push_get in H. destruct (q_prod s !! pid) eqn:E; [done|]. case_bool_decide; [|done].
    injection H as <-. unfold token_inv in *. simpl. intros HC Ha Hns.
    rewrite mids_insert_None by done. unfold mid1. simpl. rewrite Z.add_0_r. apply T; [done..|].
    eapply no_sender_insert; [exact Hns|done|]. intros c0. by rewrite E.
  - unfold push_swap in H. destruct (q_prod s !! pid) as [[]|] eqn:E; try done. injection H as <-.
    unfold token_inv. simpl. intros _ _ _. right. by eapply mids_pos; [apply lookup_insert_eq|].
  - unfold push_link in H. destruct (q_prod s !! pid) as [[]|] eqn:E; try done. injection H as <-.
    unfold token_inv. simpl. intros _ _ _. right. by eapply mids_pos; [apply lookup_insert_eq|].
  - unfold push_count in H. destruct (q_prod s !! pid) as [[]|] eqn:E; try done. injection H as <-.
    unfold token_inv. simpl. intros _ _ Hns. left. apply (Hns pid). apply lookup_insert_eq.
  - unfold push_send in H. destruct (q_prod s !! pid) as [[| | |k]|] eqn:E; try done. injection H as <-.
    unfold token_inv in *. simpl. intros [HC Hk]%send_if_none Ha Hns.
    rewrite (mids_delete _ _ _ E). unfold mid1. simpl. rewrite Z.sub_0_r. apply T; [done..|].
    intros p' c' Hc. destruct (decide (p' = pid)) as [->|]; [congruence|].
    apply (Hns p'). by rewrite lookup_delete_ne.
  - unfold cons_recv in H. destruct (q_cons s) eqn:E, (q_C s); try done. injection H as <-.
    unfold token_inv. simpl. tauto.
  - assert (Hc : q_cons s = CAwake) by (unfold pop_take in H; by destruct (q_cons s)).
    destruct (pop_take_inv _ _ _ _ I H) as [(Hn & -> & _)|H'].
    + unfold token_inv. simpl. intros _ _ _. by eapply pop_nothing.
    + destruct H' as (y & c' & v & pend' & _ & _ & _ & H1 & _).
      unfold token_inv. rewrite H1. simpl. tauto.
  - unfold pop_count in H. destruct (q_cons s) eqn:E; try done. injection H as <-.
    unfold token_inv. simpl. intros _ Ha _. left. lia.
  - unfold pop_send in H. destruct (q_cons s) eqn:E; try done. injection H as <-.
    unfold token_inv in *. simpl. intros [HC Hk]%send_if_none _ Hns. apply T; [done| |done].
    rewrite E. simpl. lia.
  - unfold env_put in H. case_bool_decide; [|done]. by injection H as <-.
  - unfold env_take in H. case_bool_decide; [|done]. by injection H as <-.
Qed.

Lemma qreach_full s : qreach s -> exists c pend, chain_inv s c pend /\ count_inv s /\ token_inv s.
Proof.
  induction 1 as [|s a s' _ (c & pend & I & C & T) H].
  - exists [], []. split; [apply newQueue_inv|]. split; [vm_compute; reflexivity|]. by left.
  - destruct (qexec_inv _ _ _ _ _ I H) as (c' & pend' & I').
    exists c', pend'. split; [done|]. split; [exact (qexec_count _ _ _ _ _ I C H)|].
    exact (qexec_token _ _ _ _ _ I C T H).
Qed.

Lemma outstanding_pend s c pend : chain_inv s c pend -> outstanding s = Z.of_nat (length pend).
Proof. intros I. unfold outstanding. rewrite (ci_ghost _ _ _ I), length_app. lia. Qed.

Lemma i32_small z : 0 <= z < 2 ^ 31 -> i32 z = z.
Proof. intros H. apply wrapS_id; [lia|]. unfold inS. change (32 - 1) with 31. lia. Qed.

Lemma quiet_token s : token_inv s -> q_prod s = ∅ -> q_cons s = CIdle -> q_C s = None -> q_count s <= 0.
Proof.
  intros T Hp Hc HC. assert (Hor : q_count s <= 0 \/ 0 < mids (q_prod s)).
  { apply T; [done|by rewrite Hc; simpl; tauto|]. rewrite Hp. intros pid k. by rewrite lookup_empty. }
  destruct Hor as [|Hm]; [done|]. by rewrite Hp in Hm.
Qed.

(** In a state without mid-push producers the counter is the number of values. *)
Lemma quiet_count s c pend : chain_inv s c pend -> count_inv s -> q_prod s = ∅ ->
  taken (q_cons s) = 0 -> Z.of_nat (length pend) < 2 ^ 31 -> q_count s = Z.of_nat (length pend).
Proof.
  intros I C Hp Ht Hb. rewrite C, Hp, Ht, (outstanding_pend _ _ _ I).
  replace (mids ∅) with 0 by done. rewrite Z.sub_0_r, Z.add_0_r. apply i32_small. lia.
Qed.

Lemma quiet_path s c pend : chain_inv s c pend -> q_prod s = ∅ ->
  match c with [] => nxt s (q_tail s) = None | y :: _ => nxt s (q_tail s) = Some y end.
Proof.
  intros [] Hp. destruct c as [|y c].
  - assert (q_tail s = q_head s) as -> by (simpl in ci_last0; congruence). done.
  - destruct ci_path0 as [[Hl|(_ & pid & Hl)] _]; [done|]. rewrite Hp, lookup_empty in Hl. done.
Qed.
End Queue.

(** C3: FIFO under every interleaving: at any reachable moment the values popped so
    far are exactly the first values swapped in, in the order of the swaps, with no
    loss, duplication or reordering; and no node in the recycling pool is the tail or a
    node a suspended producer is about to link through. *)
Theorem queue_fifo {A : Type} (s : @qstate A) :
  qreach s ->
  (exists pend, q_in s = q_out s ++ pend) /\ (q_tail s ∉ q_pool s) /\ (q_head s ∉ q_pool s) /\
  forall pid y x, q_prod s !! pid = Some (PSwapped y x) -> (x ∉ q_pool s) /\ (y ∉ q_pool s).
Proof.
  intros (c & pend & I)%qreach_inv. destruct I.
  rewrite list.Forall_forall in ci_pool0. split_and!.
  - by exists pend.
  - apply ci_pool0. by left.
  - apply ci_pool0. by apply last_elem.
  - intros pid y x H. destruct (ci_swap0 _ _ _ H) as [_ [Hx Hy]%consec_elem]. by split; apply ci_pool0.
Qed.

(** Two producers whose steps cross: the first to swap is linked last. *)
Definition crossing : list (@qaction Z) :=
  [Get 0 2%positive 10; Get 1 3%positive 20; Swap 0; Swap 1; Link 1; Count 1; Send 1; Recv; Take;
   Link 0; Count 0; Send 0; Recv; Take; CountDown; Resend; Recv; Take; CountDown; Resend].

Lemma queue_fifo_witness :
  let s := default newQueue (qrun crossing newQueue) in
  qreach s /\
  (exists pend, q_in s = q_out s ++ pend) /\ (q_tail s ∉ q_pool s) /\ (q_head s ∉ q_pool s) /\
  forall pid y x, q_prod s !! pid = Some (PSwapped y x) -> (x ∉ q_pool s) /\ (y ∉ q_pool s).
Proof.
  intros s. assert (H : qreach s).
  { apply (qreach_run crossing newQueue); [exact qreach_init|]. vm_compute. reflexivity. }
  split; [exact H|]. apply queue_fifo. exact H.
Defined.

Example crossing_result :
  match qrun crossing newQueue with Some s => q_out s = [10; 20] /\ q_C s = None | None => False end.
Proof. vm_compute. by split. Qed.

(** C4: No lost wake-up: when no producer is inside Push, the consumer is blocked and
    its channel is empty, then everything pushed has been popped (as long as fewer
    than 2^31 values are queued, the range of the counter). *)
Theorem queue_no_lost_wakeup {A : Type} (s : @qstate A) :
  qreach s -> q_prod s = ∅ -> q_cons s = CIdle -> q_C s = None ->
  Z.of_nat (length (q_in s)) - Z.of_nat (length (q_out s)) < 2 ^ 31 ->
  q_out s = q_in s /\ q_count s = 0.
Proof.
  intros (c & pend & I & C & T)%qreach_full Hp Hc HC Hb.
  pose proof (outstanding_pend _ _ _ I) as Ho. unfold outstanding in Ho.
  pose proof (quiet_count _ _ _ I C Hp ltac:(by rewrite Hc) ltac:(lia)) as Hq.
  pose proof (quiet_token s T Hp Hc HC). destruct pend; [|simpl in *; lia].
  rewrite (ci_ghost _ _ _ I), app_nil_r. by rewrite Hq.
Qed.

Lemma queue_no_lost_wakeup_witness :
  let s := default newQueue (qrun crossing newQueue) in
  qreach s /\ q_prod s = ∅ /\ q_cons s = CIdle /\ q_C s = None /\
  (q_out s = q_in s /\ q_count s = 0).
Proof.
  intros s. assert (H : qreach s).
  { apply (qreach_run crossing newQueue); [exact qreach_init|]. vm_compute. reflexivity. }
  split; [exact H|]. split; [reflexivity|]. split; [reflexivity|]. split; [reflexivity|].
  apply (queue_no_lost_wakeup s H); reflexivity.
Defined.

(** One turn of the consumer's loop. *)
Definition pop_cycle {A : Type} : list (@qaction A) := [Recv; Take; CountDown; Resend].

Lemma qrun_app {A : Type} (l1 l2 : list (@qaction A)) s : qrun (l1 ++ l2) s = qrun l1 s ≫= qrun l2.
Proof.
  revert s. induction l1 as [|a l1 IH]; intros s; simpl; [done|].
  destruct (qexec a s); simpl; [apply IH|done].
Qed.

(** A turn of the loop in a quiescent state with values queued. *)
Lemma pop_cycle_step {A : Type} (s : @qstate A) c v pend :
  qreach s -> chain_inv s c (v :: pend) -> q_prod s = ∅ -> q_cons s = CIdle ->
  Z.of_nat (length (v :: pend)) < 2 ^ 31 ->
  exists s' c', qrun pop_cycle s = Some s' /\ chain_inv s' c' pend /\ q_prod s' = ∅ /\
    q_cons s' = CIdle /\ q_in s' = q_in s /\ q_out s' = q_out s ++ [v].
Proof.
  intros Hs I Hp Hc Hb. destruct (qreach_full s Hs) as (c0 & p0 & I0 & C & T).
  destruct (q_C s) as [k|] eqn:HC.
  2:{ exfalso. pose proof (quiet_count _ _ _ I C Hp ltac:(by rewrite Hc) Hb) as Hq.
      pose proof (quiet_token s T Hp Hc HC). simpl in *. lia. }
  set (s1 := set_cons CAwake (set_C None s)).
  assert (E1 : cons_recv s = Some s1) by (unfold cons_recv; by rewrite Hc, HC).
  assert (I1 : chain_inv s1 c (v :: pend)) by (by eapply chain_inv_ext).
  assert (exists s2, pop_take s1 = Some s2 /\ nxt s1 (q_tail s1) <> None) as (s2 & E2 & Hnn).
  { unfold pop_take. simpl. pose proof (quiet_path _ _ _ I1 Hp) as Hq.
    pose proof (ci_vals _ _ _ I1) as Hv. destruct c as [|y c]; [done|].
    unfold nxt in Hq. simpl in Hq. rewrite Hq. simpl in Hv. injection Hv as Hv _.
    unfold val_of in Hv. simpl in Hv. rewrite Hv. eexists. split; [done|].
    unfold nxt. simpl. by rewrite Hq. }
  destruct (pop_take_inv _ _ _ _ I1 E2) as [(Hn & _)|H']; [done|].
  destruct H' as (y & c' & v' & pend' & -> & [= <- <-] & _ & H1 & H2 & H3 & H4 & H5 & H6 & I2).
  set (s3 := set_cons (CAdded (i32 (q_count s2 - 1))) (set_count (i32 (q_count s2 - 1)) s2)).
  set (s4 := set_cons CIdle (set_C (send_if (q_C s3) (i32 (q_count s2 - 1))) s3)).
  exists s4, c'. split.
  { unfold pop_cycle. cbn [qrun qexec]. rewrite E1. cbn [mbind option_bind]. rewrite E2.
    cbn [mbind option_bind]. unfold pop_count. rewrite H1. done. }
  split; [by eapply chain_inv_ext|]. simpl. rewrite H2, H3, H4. done.
Qed.

(** The tokens suffice to drain: from any quiescent reachable state with n queued
    values, n turns of the consumer loop (receive, pop) never block, and pop every
    value, in order. *)
Theorem queue_drain {A : Type} (s : @qstate A) (n : nat) :
  qreach s -> q_prod s = ∅ -> q_cons s = CIdle ->
  Z.of_nat (length (q_in s)) - Z.of_nat (length (q_out s)) = Z.of_nat n -> Z.of_nat n < 2 ^ 31 ->
  exists s', qrun (concat (repeat pop_cycle n)) s = Some s' /\ q_out s' = q_in s.
Proof.
  intros Hs Hp Hc Hn Hb. destruct (qreach_inv s Hs) as (c & pend & I).
  pose proof (outstanding_pend _ _ _ I) as Ho. unfold outstanding in Ho.
  assert (Hl : length pend = n) by lia. clear Hn Ho.
  revert s c pend Hs Hp Hc I Hl. induction n as [|n IH]; intros s c pend Hs Hp Hc I Hl.
  - exists s. split; [done|]. destruct pend; [|done]. by rewrite (ci_ghost _ _ _ I), app_nil_r.
  - destruct pend as [|v pend]; [done|].
    destruct (pop_cycle_step s c v pend Hs I Hp Hc ltac:(lia)) as (s1 & c1 & E & I1 & Hp1 & Hc1 & Hi & _).
    destruct (IH ltac:(lia) s1 c1 pend) as (s' & E' & Ho); try done.
    + by eapply qreach_run.
    + simpl in Hl. lia.
    + exists s'. split; [|congruence]. simpl concat.
      change (Recv :: Take :: CountDown :: Resend :: concat (repeat pop_cycle n))
        with (pop_cycle (A := A) ++ concat (repeat pop_cycle n)).
      rewrite qrun_app, E. done.
Qed.

Definition three_pushed : list (@qaction Z) :=
  [Get 0 2%positive 10; Swap 0; Link 0; Count 0; Send 0; Get 1 3%positive 20; Swap 1; Link 1; Count 1;
   Send 1; Get 0 4%positive 30; Swap 0; Link 0; Count 0; Send 0].

Lemma queue_drain_witness :
  let s := default newQueue (qrun three_pushed newQueue) in
  qreach s /\ q_prod s = ∅ /\ q_cons s = CIdle /\
  exists s', qrun (concat (repeat pop_cycle 3)) s = Some s' /\ q_out s' = q_in s.
Proof.
  intros s. assert (H : qreach s).
  { apply (qreach_run three_pushed newQueue); [exact qreach_init|]. vm_compute. reflexivity. }
  split; [exact H|]. split; [reflexivity|]. split; [reflexivity|].
  apply (queue_drain s 3 H); reflexivity.
Defined.

(** ** The abstract queue

    What the owner of a queue relies on: a list of values in the order of the swaps, the
    buffered token channel and the counter. A [Push] is three steps of its goroutine:
    it takes its place ([aq_swap]), adds to the counter ([aq_counted]) and offers the
    sum as a token ([aq_sent]); [aq_pend] is the number of pushes between the first and
    the second, [aq_sums] holds the sums of those between the second and the third. The
    store that links the node makes nothing else visible than the place, so it is no
    step of its own: until it is done the push is one of [aq_pend], and a [Pop] that
    comes to its place returns nil ([Actor_processNil] in Steps.v).

    [None] is the panic of an operation on a destroyed queue (its head is nil). *)
Record aqueue (A : Type) := mkAQ {
  aq_items : list A; aq_C : option Z; aq_count : Z; aq_closed : bool;
  aq_pend : nat; aq_sums : list Z }.
Arguments mkAQ {A}.
Arguments aq_items {A}.
Arguments aq_C {A}.
Arguments aq_count {A}.
Arguments aq_closed {A}.
Arguments aq_pend {A}.
Arguments aq_sums {A}.

(** src/net/actor/queue.go:28-37, newQueue *)
Definition aq_new {A : Type} : aqueue A := mkAQ [] None 0 false 0 [].

(** src/net/actor/queue.go:44-51, queue.Push *)
Definition aq_swap {A : Type} (v : A) (q : aqueue A) : option (aqueue A) :=
  if aq_closed q then None
  else Some (mkAQ (aq_items q ++ [v]) (aq_C q) (aq_count q) false (S (aq_pend q)) (aq_sums q)).

(** A push adds itself to the counter; [None]: no push has yet to. *)
(** src/net/actor/queue.go:83-84, queue._setCount *)
Definition aq_counted {A : Type} (q : aqueue A) : option (aqueue A) :=
  match aq_pend q with
  | O => None
  | S n => let count := i32 (aq_count q + 1) in
           Some (mkAQ (aq_items q) (aq_C q) count (aq_closed q) n (count :: aq_sums q))
  end.

(** A push offers its sum, the [i]-th, as a token; the boolean is the panic of a send on
    the channel that [Destroy] has closed. *)
(** src/net/actor/queue.go:85-90, queue._setCount *)
Definition aq_sent {A : Type} (i : nat) (q : aqueue A) : option (aqueue A * bool) :=
  match aq_sums q !! i with
  | None => None
  | Some count =>
      let sums := delete i (aq_sums q) in
      if aq_closed q
      then Some (mkAQ (aq_items q) (aq_C q) (aq_count q) true (aq_pend q) sums, 0 <? count)
      else Some (mkAQ (aq_items q) (send_if (aq_C q) count) (aq_count q) false (aq_pend q) sums, false)
  end.

(** A push whose goroutine is not interrupted. *)
(** src/net/actor/queue.go:39-54, queue.Push *)
Definition aq_Push {A : Type} (v : A) (q : aqueue A) : option (aqueue A) :=
  match aq_swap v q with
  | None => None
  | Some q1 => q2 ← aq_counted q1; fst <$> aq_sent 0 q2
  end.

(** src/net/actor/queue.go:56-71, queue.Pop *)
Definition aq_Pop {A : Type} (q : aqueue A) : option (option A * aqueue A) :=
  if aq_closed q then None
  else match aq_items q with
       | [] => Some (None, q)
       | v :: items =>
           let count := i32 (aq_count q - 1) in
           Some (Some v, mkAQ items (send_if (aq_C q) count) count false (aq_pend q) (aq_sums q))
       end.

(** The receive of [case <-queue.C]. *)
Definition aq_recv {A : Type} (q : aqueue A) : option (aqueue A) :=
  match aq_C q with
  | Some _ => Some (mkAQ (aq_items q) None (aq_count q) (aq_closed q) (aq_pend q) (aq_sums q))
  | None => None
  end.

(** src/net/actor/queue.go:79-81, queue.Count *)
Definition aq_Count {A : Type} (q : aqueue A) : Z := aq_count q.

(** src/net/actor/queue.go:93-98, queue.Destroy *)
Definition aq_Destroy {A : Type} (q : aqueue A) : option (aqueue A) :=
  if aq_closed q then None else Some (mkAQ (aq_items q) (aq_C q) 0 true (aq_pend q) (aq_sums q)).

(** The concrete state shows the abstract queue. *)
Definition added_of {A : Type} (kv : nat * @ppc A) : option Z := match kv.2 with PAdded c => Some c | _ => None end.
Definition absq {A : Type} (s : @qstate A) (q : aqueue A) : Prop :=
  q_in s = q_out s ++ aq_items q /\ q_C s = aq_C q /\ q_count s = aq_count q /\ aq_closed q = false /\
  mids (q_prod s) = Z.of_nat (aq_pend q) /\ omap added_of (map_to_list (q_prod s)) ≡ₚ aq_sums q.

Lemma absq_items {A : Type} (s : @qstate A) q c pend : chain_inv s c pend -> absq s q -> aq_items q = pend.
Proof. intros I (H & _). rewrite (ci_ghost _ _ _ I) in H. by apply app_inv_head in H. Qed.

Lemma absq_quiet {A : Type} (s : @qstate A) q : absq s q -> q_prod s = ∅ -> aq_pend q = 0%nat /\ aq_sums q = [].
Proof.
  intros (_ & _ & _ & _ & Hm & Hs) Hp. rewrite Hp in Hm, Hs. rewrite map_to_list_empty in Hs. simpl in Hs.
  split; [unfold mids in Hm; rewrite map_filter_empty, map_size_empty in Hm; lia|].
  by apply Permutation_nil_l in Hs.
Qed.

Lemma aq_Push_open {A : Type} (v : A) q : aq_closed q = false ->
  aq_Push v q = Some (mkAQ (aq_items q ++ [v]) (send_if (aq_C q) (i32 (aq_count q + 1))) (i32 (aq_count q + 1)) false
    (aq_pend q) (aq_sums q)).
Proof. intros Hc. unfold aq_Push, aq_swap. rewrite Hc. done. Qed.

Lemma aq_Push_closed {A : Type} (v : A) q : aq_closed q = true -> aq_Push v q = None.
Proof. intros Hc. unfold aq_Push, aq_swap. by rewrite Hc. Qed.

Lemma added_insert {A : Type} (m : gmap nat (@ppc A)) pid p p' : m !! pid = Some p -> added_of (pid, p) = None ->
  omap added_of (map_to_list (<[pid := p']> m)) ≡ₚ
    match added_of (pid, p') with Some c => [c] | None => [] end ++ omap added_of (map_to_list m).
Proof.
  intros Hm Hp. rewrite <- (insert_delete_id m pid p Hm) at 2. rewrite <- insert_delete_eq.
  rewrite !map_to_list_insert by apply lookup_delete_eq. simpl. rewrite Hp. by destruct (added_of (pid, p')).
Qed.

Lemma added_delete {A : Type} (m : gmap nat (@ppc A)) pid c : m !! pid = Some (PAdded c) ->
  omap added_of (map_to_list m) ≡ₚ c :: omap added_of (map_to_list (delete pid m)).
Proof.
  intros Hm. rewrite <- (insert_delete_id m pid (PAdded c) Hm) at 1.
  rewrite map_to_list_insert by apply lookup_delete_eq. done.
Qed.

(** The three steps of a push, under any interleaving: the swap, the addition and the
    offer of the concrete queue are [aq_swap], [aq_counted] and [aq_sent], and the link
    between them changes nothing of the abstract queue. *)
Lemma push_simulation {A : Type} (s s' : @qstate A) (q : aqueue A) pid : absq s q ->
  (push_swap pid s = Some s' -> exists v q', aq_swap v q = Some q' /\ absq s' q') /\
  (push_link pid s = Some s' -> absq s' q) /\
  (push_count pid s = Some s' -> exists q', aq_counted q = Some q' /\ absq s' q') /\
  (push_send pid s = Some s' -> exists i q', aq_sent i q = Some (q', false) /\ absq s' q').
Proof.
  intros (Hi & HC & Hn & Hcl & Hm & Hs).
  unfold push_swap, push_link, push_count, push_send, aq_swap, aq_counted, aq_sent, absq.
  split_and!; destruct (q_prod s !! pid) as [p|] eqn:E; try done; destruct p; try done; intros [= <-]; simpl.
  - rewrite Hcl. eexists v, _. split; [done|]. simpl.
    rewrite Hi, app_assoc, (mids_insert_Some _ _ _ _ E), (added_insert _ _ _ _ E) by done. unfold mid1. simpl.
    split_and!; try done. lia.
  - rewrite (mids_insert_Some _ _ _ _ E), (added_insert _ _ _ _ E) by done. unfold mid1. simpl. split_and!; try done. lia.
  - pose proof (mids_pos _ _ _ E I) as Hpos. destruct (aq_pend q) as [|n]; [lia|].
    eexists. split; [done|]. simpl.
    rewrite Hn, (mids_insert_Some _ _ _ _ E), (added_insert _ _ _ _ E) by done. unfold mid1. simpl. split_and!; try done; [lia|]. by constructor.
  - rewrite (added_delete _ _ _ E) in Hs. assert (Hin : count ∈ aq_sums q) by (rewrite <- Hs; left).
    apply list_elem_of_lookup_1 in Hin as [i Hl]. exists i. rewrite Hl, Hcl. eexists. split; [done|]. simpl.
    rewrite (mids_delete _ _ _ E), HC. unfold mid1. simpl. split_and!; try done; [lia|].
    rewrite (delete_Permutation _ _ _ Hl) in Hs. by apply Permutation_cons_inv in Hs.
Qed.

(** What [Count] answers: the values queued less the pushes that have taken their place
    and not added themselves. *)
Lemma Count_lags {A : Type} (s : @qstate A) (q : aqueue A) : qreach s -> absq s q -> taken (q_cons s) = 0 ->
  aq_Count q = i32 (Z.of_nat (length (aq_items q)) - Z.of_nat (aq_pend q)).
Proof.
  intros (c & pend & I & C & _)%qreach_full Ha Ht. pose proof (absq_items _ _ _ _ I Ha) as Hi.
  destruct Ha as (_ & _ & Hn & _ & Hm & _). unfold aq_Count. rewrite <- Hn, C, Ht, Hm, (outstanding_pend _ _ _ I), Hi.
  f_equal. lia.
Qed.

(** The uninterrupted steps of a Pop, whatever the pushes under way: it is [aq_Pop] when
    the front value is linked; otherwise it returns nil, and either nothing is queued or
    a push has yet to add itself. *)
Lemma pop_simulation {A : Type} (s s' : @qstate A) (q : aqueue A) : qreach s -> absq s q -> q_cons s = CAwake ->
  pop_take s = Some s' ->
  (s' = set_cons CIdle s /\ absq s' q /\ (aq_items q = [] \/ (0 < aq_pend q)%nat)) \/
  exists v q' s'', aq_Pop q = Some (Some v, q') /\ qrun [CountDown; Resend] s' = Some s'' /\ absq s'' q' /\
    q_cons s'' = CIdle /\ q_out s'' = q_out s ++ [v].
Proof.
  intros (c & pend & I & C & _)%qreach_full Ha Hc Ht. pose proof (absq_items _ _ _ _ I Ha) as Hi.
  destruct (pop_take_inv _ _ _ _ I Ht) as [(Hn & -> & _)|(y & c' & v & pend' & -> & -> & _ & H1 & H2 & H3 & H4 & H5 & H6 & I')].
  - left. split; [done|]. split; [exact Ha|]. destruct c as [|y c].
    + left. rewrite Hi. pose proof (ci_vals _ _ _ I) as Hv. by destruct pend.
    + right. destruct (ci_path _ _ _ I) as [[Hl|(_ & pid & Hl)] _]; [congruence|].
      pose proof (mids_pos _ _ _ Hl) as Hp. destruct Ha as (_ & _ & _ & _ & Hm & _).
      cut (0 < mids (q_prod s)); [lia|by apply Hp].
  - right. destruct Ha as (Hg & HC & Hn & Hcl & Hm & Hs). unfold aq_Pop. rewrite Hcl, Hi.
    eexists v, _, _. split; [done|]. split.
    { cbn [qrun qexec]. unfold pop_count. rewrite H1. cbn [mbind option_bind]. unfold pop_send. simpl q_cons. done. }
    unfold absq. simpl. rewrite H2, H3, H4, H5, H6, HC, Hn. split_and!; try done.
    by rewrite Hg, Hi, <- app_assoc.
Qed.

(** Two pushes: the first has linked its value and not added it, the second is finished,
    the consumer has taken the first value. The counter is zero and the second value is
    in the queue. *)
Example Count_misses_value :
  match qrun [Get 0 2%positive 10; Swap 0; Link 0; Get 1 3%positive 20; Swap 1; Link 1; Count 1; Send 1; Recv; Take;
              CountDown; Resend] newQueue with
  | Some s => q_count s = 0 /\ q_in s = [10; 20] /\ q_out s = [10]
  | None => False
  end.
Proof. vm_compute. by split_and!. Qed.

(** C40: The concrete queue implements the abstract one: the uninterrupted steps of a
    Push, and those of a Pop by the awake consumer, have exactly the effect and the
    result of the abstract operations on the values, the counter and the token. *)
Theorem aqueue_refinement {A : Type} (s : @qstate A) (q : aqueue A) :
  qreach s -> q_prod s = ∅ -> absq s q ->
  (forall pid n v, (n ∈ q_pool s) \/ q_nodes s !! n = None ->
     exists s' q', qrun [Get pid n v; Swap pid; Link pid; Count pid; Send pid] s = Some s' /\
       aq_Push v q = Some q' /\ absq s' q' /\ q_prod s' = ∅ /\ q_cons s' = q_cons s) /\
  (q_cons s = CAwake ->
     exists s' r q', aq_Pop q = Some (r, q') /\ absq s' q' /\ q_prod s' = ∅ /\ q_cons s' = CIdle /\
       qrun (match r with Some _ => [Take; CountDown; Resend] | None => [Take] end) s = Some s' /\
       q_out s' = q_out s ++ match r with Some v => [v] | None => [] end).
Proof.
  intros (c & pend & I)%qreach_inv Hp Ha. pose proof (absq_items _ _ _ _ I Ha) as Hi.
  destruct (absq_quiet _ _ Ha Hp) as [Hpe Hsu]. destruct Ha as (_ & HC & Hn & Hcl & Hm & Hs). split.
  - intros pid n v Hfree. eexists _, _. rewrite aq_Push_open by done. split.
    { cbn [qrun qexec]. unfold push_get. rewrite Hp, lookup_empty, bool_decide_true by done.
      cbn [mbind option_bind]. unfold push_swap. simpl q_prod. rewrite lookup_insert_eq.
      cbn [mbind option_bind]. unfold push_link. simpl q_prod. rewrite lookup_insert_eq.
      cbn [mbind option_bind]. unfold push_count. simpl q_prod. rewrite lookup_insert_eq.
      cbn [mbind option_bind]. unfold push_send. simpl q_prod. rewrite lookup_insert_eq. done. }
    split; [done|]. unfold absq. simpl. rewrite HC, Hn, (ci_ghost _ _ _ I), Hi, app_assoc.
    rewrite !insert_insert_eq, delete_insert_eq, delete_empty, map_to_list_empty, Hpe, Hsu.
    by split_and!.
  - intros Hc. unfold aq_Pop. rewrite Hcl, Hi. pose proof (quiet_path _ _ _ I Hp) as Hq.
    pose proof (ci_vals _ _ _ I) as Hv. destruct c as [|y c], pend as [|v pend]; try done.
    + exists (set_cons CIdle s), None, q. split; [done|]. split.
      { unfold absq. simpl. rewrite (ci_ghost _ _ _ I), Hi. done. }
      split; [done|]. split; [done|]. simpl. unfold pop_take. rewrite Hc.
      unfold nxt in Hq. rewrite Hq. simpl. by rewrite app_nil_r.
    + injection Hv as Hy _. eexists _, (Some v), _. split; [done|].
      unfold nxt in Hq. unfold val_of in Hy.
      assert (HH : forall P Q R S T : Prop, P -> (P -> Q) -> R -> S -> T -> Q /\ R /\ S /\ P /\ T) by tauto.
      apply HH; clear HH.
      * cbn [qrun qexec]. unfold pop_take. rewrite Hc, Hq, Hy. cbn [mbind option_bind].
        unfold pop_count. simpl q_cons. cbn [mbind option_bind]. unfold pop_send. simpl q_cons. done.
      * intros _. unfold absq. simpl. rewrite HC, Hn, (ci_ghost _ _ _ I), <- app_assoc. done.
      * done.
      * done.
      * done.
Qed.

Lemma aqueue_refinement_witness :
  let s := default newQueue (qrun [Get 0 2%positive 10; Swap 0; Link 0; Count 0; Send 0; Recv] newQueue) in
  let q := mkAQ [10] None 1 false 0 [] in
  qreach s /\ q_prod s = ∅ /\ absq s q /\
  exists s', qrun [Take; CountDown; Resend] s = Some s' /\ q_out s' = [10].
Proof.
  intros s q. assert (H : qreach s).
  { apply (qreach_run [Get 0 2%positive 10; Swap 0; Link 0; Count 0; Send 0; Recv] newQueue);
      [exact qreach_init|]. vm_compute. reflexivity. }
  assert (Ha : absq s q) by (vm_compute; split_and!; reflexivity).
  split; [exact H|]. split; [reflexivity|]. split; [exact Ha|].
  destruct (proj2 (aqueue_refinement s q H eq_refl Ha) eq_refl) as (s' & r & q' & E & _ & _ & _ & Hr & Ho).
  injection E as <- _. exists s'. split; [exact Hr|exact Ho].
Defined.
