(* ===== verification/Serializer.v ===== *)
(** Body codecs (net/serializer, facade/codec.go, facade/invoke_result.go's Decode).

    The encodings themselves (protojson, jsoniter, protobuf) are third-party code:
    the class [CodecLib] holds their functions and [CodecLaws] the documented round
    trip of the two encodings on the values they accept. What is modelled is the
    framework's part: which library a value is sent to, the registry of codec
    identifiers and its default, and the decoding of invocation results. *)
From S2P Require Import Prelude Strconv Facade.

(** The third-party encoders, by the [proto.Message] test and per format. A decoder is
    given the type of the target it fills. *)
Class CodecLib := {
  protojson_Marshal : value -> res bytes;
  protojson_Unmarshal : bytes -> gotype -> res value;
  jsoniter_Marshal : payload -> res bytes;
  jsoniter_Unmarshal : bytes -> gotype -> res value;
  proto_Marshal : value -> res bytes;
  proto_Unmarshal : bytes -> gotype -> res value }.

(** Decoding into a target of its own type what an encoder produced gives the value
    back; a decoder fills the target it is given. *)
Class CodecLaws `{CodecLib} := {
  protojson_roundtrip v b : gt_proto (v_type v) = true ->
    protojson_Marshal v = Ok b -> protojson_Unmarshal b (v_type v) = Ok v;
  jsoniter_roundtrip v b : gt_proto (v_type v) = false ->
    jsoniter_Marshal (PVal v) = Ok b -> jsoniter_Unmarshal b (v_type v) = Ok v;
  proto_roundtrip v b : gt_proto (v_type v) = true ->
    proto_Marshal v = Ok b -> proto_Unmarshal b (v_type v) = Ok v }.

(** src/facade/codec.go:10-15, IBodyCodec *)
Record IBodyCodec := mkCodec {
  codec_ID : Z;
  codec_Name : str;
  codec_Marshal : payload -> res bytes;
  codec_Unmarshal : bytes -> gotype -> res value }.

(** src/error/error.go:48-48, ProtobufWrongValueType *)
Definition ProtobufWrongValueType : str := "Convert on wrong type value".

Section Codecs.
Context `{CodecLib}.

(** src/net/serializer/json.go:29-38, JSON.Marshal *)
Definition JSON_Marshal (v : payload) : res bytes :=
  match v with
  | PBytes data => Ok data
  | PVal message => if gt_proto (v_type message) then protojson_Marshal message
                    else jsoniter_Marshal v
  | PNil => jsoniter_Marshal v
  end.

(** src/net/serializer/json.go:40-46, JSON.Unmarshal *)
Definition JSON_Unmarshal (data : bytes) (v : gotype) : res value :=
  if gt_proto v then protojson_Unmarshal data v else jsoniter_Unmarshal data v.

(** src/net/serializer/json.go:48-56, NewJSON *)
Definition NewJSON : IBodyCodec := mkCodec CodecJSON "json" JSON_Marshal JSON_Unmarshal.

(** src/net/serializer/protobuf.go:17-27, Protobuf.Marshal *)
Definition Protobuf_Marshal (v : payload) : res bytes :=
  match v with
  | PBytes data => Ok data
  | PVal pb => if gt_proto (v_type pb) then proto_Marshal pb else Err ProtobufWrongValueType
  | PNil => Err ProtobufWrongValueType
  end.

(** src/net/serializer/protobuf.go:29-36, Protobuf.Unmarshal *)
Definition Protobuf_Unmarshal (data : bytes) (v : gotype) : res value :=
  if gt_proto v then proto_Unmarshal data v else Err ProtobufWrongValueType.

(** src/net/serializer/protobuf.go:38-46, NewProtobuf *)
Definition NewProtobuf : IBodyCodec := mkCodec CodecProtobuf "protobuf" Protobuf_Marshal Protobuf_Unmarshal.
End Codecs.

(** ** The registry *)

(** src/net/serializer/registry.go:10-15, Registry *)
Record Registry := mkRegistry { reg_codecs : gmap Z IBodyCodec; reg_defaultID : Z }.

Definition registry_error (what : str) (id : Z) : str := String.append what (format_int 10 id).

(** A nil codec is [None]. *)
(** src/net/serializer/registry.go:32-49, Registry.Register *)
Definition Registry_Register (codec : option IBodyCodec) (r : Registry) : res Registry :=
  match codec with
  | None => Err "actorgo: invalid body codec"
  | Some codec =>
      if codec_ID codec =? 0 then Err "actorgo: invalid body codec" else
      let conflict := match reg_codecs r !! codec_ID codec with
                      | Some current => negb (String.eqb (codec_Name current) (codec_Name codec))
                      | None => false
                      end in
      if conflict then Err (registry_error "actorgo: body codec id already registered " (codec_ID codec)) else
      let codecs := <[codec_ID codec := codec]> (reg_codecs r) in
      Ok (mkRegistry codecs (if reg_defaultID r =? 0 then codec_ID codec else reg_defaultID r))
  end.

Fixpoint register_all (l : list (option IBodyCodec)) (r : Registry) : option Registry :=
  match l with
  | [] => Some r
  | c :: l' => match Registry_Register c r with Ok r' => register_all l' r' | Err _ => None end
  end.

(** [None] is the panic on a conflicting codec. *)
(** src/net/serializer/registry.go:17-30, NewRegistry *)
Definition NewRegistry (codecs : list (option IBodyCodec)) : option Registry :=
  match register_all codecs (mkRegistry ∅ 0) with
  | None => None
  | Some r => match reg_codecs r !! CodecProtobuf with
              | Some _ => Some (mkRegistry (reg_codecs r) CodecProtobuf)
              | None => Some r
              end
  end.

(** src/net/serializer/registry.go:51-57, Registry.Lookup *)
Definition Registry_Lookup (r : Registry) (id : Z) : option IBodyCodec := reg_codecs r !! id.

(** src/net/serializer/registry.go:59-64, Registry.Default *)
Definition Registry_Default (r : Registry) : Z := reg_defaultID r.

(** src/net/serializer/registry.go:66-75, Registry.SetDefault *)
Definition Registry_SetDefault (id : Z) (r : Registry) : res Registry :=
  match reg_codecs r !! id with
  | None => Err (registry_error "actorgo: body codec is not registered " id)
  | Some _ => Ok (mkRegistry (reg_codecs r) id)
  end.

(** src/net/serializer/registry.go:77-84, Registry.Marshal *)
Definition Registry_Marshal (r : Registry) (id : Z) (v : payload) : res bytes :=
  match Registry_Lookup r id with
  | None => Err (registry_error "actorgo: unsupported body codec " id)
  | Some codec => codec_Marshal codec v
  end.

(** src/net/serializer/registry.go:86-93, Registry.Unmarshal *)
Definition Registry_Unmarshal (r : Registry) (id : Z) (data : bytes) (v : gotype) : res value :=
  match Registry_Lookup r id with
  | None => Err (registry_error "actorgo: unsupported body codec " id)
  | Some codec => codec_Unmarshal codec data v
  end.

(** A nil registry, and a nil target, are [None]. *)
(** src/facade/invoke_result.go:32-52, InvokeResult.Decode *)
Definition InvokeResult_Decode (r : option InvokeResult) (codecs : option Registry) (codec : Z)
    (target : option gotype) : res value :=
  match r with
  | None => Err "actorgo: invoke result is nil"
  | Some r0 =>
      if negb (InvokeResult_OK r) then
        Err (String.append (registry_error "actorgo: invoke failed: code=" (r_Code r0))
               (String.append " message=" (r_Message r0)))
      else match codecs, target with
      | Some codecs, Some target =>
          match r_Payload r0 with
          | PBytes body => Registry_Unmarshal codecs codec body target
          | p => body <-? Registry_Marshal codecs codec p ;; Registry_Unmarshal codecs codec body target
          end
      | _, _ => Err "actorgo: body codecs and decode target are required"
      end
  end.

(** ** The registry's invariant *)

Record registry_inv (r : Registry) : Prop := {
  ri_keys : forall id c, reg_codecs r !! id = Some c -> codec_ID c = id /\ id <> 0;
  ri_default : match reg_defaultID r with
               | 0 => reg_codecs r = ∅
               | d => is_Some (reg_codecs r !! d)
               end }.

Lemma registry_inv_default r : registry_inv r ->
  (reg_defaultID r = 0 /\ reg_codecs r = ∅) \/ (reg_defaultID r <> 0 /\ is_Some (reg_codecs r !! reg_defaultID r)).
Proof. intros [_ H]. revert H. destruct (reg_defaultID r); [by left|by right..]. Qed.

Lemma registry_inv_intro r :
  (forall id c, reg_codecs r !! id = Some c -> codec_ID c = id /\ id <> 0) ->
  (reg_defaultID r = 0 /\ reg_codecs r = ∅) \/ (is_Some (reg_codecs r !! reg_defaultID r)) ->
  registry_inv r.
Proof.
  intros Hk Hd. split; [done|]. destruct Hd as [[-> ->]|Hd]; [done|].
  destruct (reg_defaultID r) eqn:E; try done. destruct Hd as [c Hc]. by destruct (Hk _ _ Hc).
Qed.

Lemma Registry_Register_inv c r r' : registry_inv r -> Registry_Register c r = Ok r' -> registry_inv r'.
Proof.
  intros I. unfold Registry_Register. destruct c as [c|]; [|done].
  destruct (Z.eqb_spec (codec_ID c) 0); [done|]. destruct (match _ with Some _ => _ | None => _ end); [done|].
  intros [= <-]. apply registry_inv_intro; simpl.
  - intros id c'. rewrite lookup_insert_Some. intros [[<- <-]|[_ H]]; [done|]. by apply I.
  - right. destruct (registry_inv_default r I) as [[-> _]|[Hd Hc]]; simpl; [by rewrite lookup_insert_eq|].
    rewrite (proj2 (Z.eqb_neq _ _) Hd). rewrite lookup_insert. by case_decide.
Qed.

Lemma register_all_inv l r r' : registry_inv r -> register_all l r = Some r' -> registry_inv r'.
Proof.
  revert r. induction l as [|c l IH]; intros r I; simpl; [by intros [= <-]|].
  destruct (Registry_Register c r) eqn:E; [|done]. apply IH. by eapply Registry_Register_inv.
Qed.

(** The registries an application can have. *)
Inductive registry_reach : Registry -> Prop :=
| rr_new cs r : NewRegistry cs = Some r -> registry_reach r
| rr_register c r r' : registry_reach r -> Registry_Register c r = Ok r' -> registry_reach r'
| rr_default id r r' : registry_reach r -> Registry_SetDefault id r = Ok r' -> registry_reach r'.

Lemma registry_reach_inv r : registry_reach r -> registry_inv r.
Proof.
  induction 1 as [cs r E|c r r' _ IH E|id r r' _ IH E].
  - unfold NewRegistry in E. destruct (register_all cs _) as [r0|] eqn:E0; [|done].
    assert (I : registry_inv r0) by (eapply register_all_inv; [|exact E0]; by apply registry_inv_intro; [|left]).
    destruct (reg_codecs r0 !! CodecProtobuf) eqn:Ep; injection E as <-; [|done].
    apply registry_inv_intro; simpl; [apply I|]. right. by rewrite Ep.
  - by eapply Registry_Register_inv.
  - unfold Registry_SetDefault in E. destruct (reg_codecs r !! id) eqn:Eid; [|done]. injection E as <-.
    apply registry_inv_intro; simpl; [apply IH|]. right. by rewrite Eid.
Qed.

(** However the registry was built and changed, a codec is found only under its
    own non-zero identifier, the default is a registered codec as soon as there is any,
    and an identifier never changes its encoding: a later successful Register keeps
    every identifier's name. *)
Theorem registry_sound (r : Registry) :
  registry_reach r ->
  (forall id c, Registry_Lookup r id = Some c -> codec_ID c = id /\ id <> 0) /\
  (forall id c, Registry_Lookup r id = Some c -> is_Some (Registry_Lookup r (Registry_Default r))) /\
  (forall c r' id old, Registry_Register c r = Ok r' -> Registry_Lookup r id = Some old ->
     exists new, Registry_Lookup r' id = Some new /\ codec_Name new = codec_Name old).
Proof.
  intros I%registry_reach_inv. unfold Registry_Lookup, Registry_Default. split_and!.
  - intros id c H. by apply I.
  - intros id c H. destruct (registry_inv_default r I) as [[_ E]|[_ H']]; [|done].
    by rewrite E, lookup_empty in H.
  - intros [c|] r' id old E Ho; [|done]. unfold Registry_Register in E.
    destruct (codec_ID c =? 0); [done|]. destruct (reg_codecs r !! codec_ID c) as [cur|] eqn:Ec.
    + destruct (negb _) eqn:En; [done|]. injection E as <-. simpl. breflect.
      destruct (decide (codec_ID c = id)) as [<-|Hne].
      * exists c. rewrite lookup_insert_eq. split; [done|]. congruence.
      * exists old. by rewrite lookup_insert_ne.
    + injection E as <-. simpl. exists old. rewrite lookup_insert_ne; [done|]. congruence.
Qed.

(** A codec library in which every value is encoded by its own bytes. *)
Definition plain_lib : CodecLib := {|
  protojson_Marshal v := Ok (v_data v); protojson_Unmarshal b t := Ok (Value t b);
  jsoniter_Marshal p := match p with PVal v => Ok (v_data v) | PBytes b => Ok b | PNil => Ok [] end;
  jsoniter_Unmarshal b t := Ok (Value t b);
  proto_Marshal v := Ok (v_data v); proto_Unmarshal b t := Ok (Value t b) |}.
Definition plain_laws : @CodecLaws plain_lib.
Proof. split; intros [t d] b _ [= <-]; reflexivity. Defined.

Definition std_registry : Registry :=
  mkRegistry (<[CodecProtobuf := @NewProtobuf plain_lib]> {[CodecJSON := @NewJSON plain_lib]}) CodecProtobuf.

Lemma std_registry_reach : registry_reach std_registry.
Proof. apply (rr_new [Some (@NewJSON plain_lib); Some (@NewProtobuf plain_lib)]). vm_compute. reflexivity. Defined.

Lemma registry_sound_witness :
  registry_reach std_registry /\
  (forall id c, Registry_Lookup std_registry id = Some c -> codec_ID c = id /\ id <> 0) /\
  (forall id c, Registry_Lookup std_registry id = Some c ->
     is_Some (Registry_Lookup std_registry (Registry_Default std_registry))) /\
  (forall c r' id old, Registry_Register c std_registry = Ok r' -> Registry_Lookup std_registry id = Some old ->
     exists new, Registry_Lookup r' id = Some new /\ codec_Name new = codec_Name old).
Proof. split; [exact std_registry_reach|]. apply registry_sound. exact std_registry_reach. Defined.

Lemma builtin_lookup `{CodecLib} r :
  NewRegistry [Some NewJSON; Some NewProtobuf] = Some r ->
  Registry_Lookup r CodecJSON = Some NewJSON /\ Registry_Lookup r CodecProtobuf = Some NewProtobuf.
Proof. intros [= <-]. by split. Qed.

(** One decode path for local and remote calls: with the built-in codecs, a
    successful result that carries a concrete value (a local call) decodes to that
    value, and so does the result that carries its encoding (a remote call), under
    either codec the value's type supports. *)
Theorem Decode_local_remote `{CodecLaws} (r : Registry) (codec : Z) (v : value) (b : bytes) :
  NewRegistry [Some NewJSON; Some NewProtobuf] = Some r ->
  codec = CodecJSON \/ (codec = CodecProtobuf /\ gt_proto (v_type v) = true) ->
  Registry_Marshal r codec (PVal v) = Ok b ->
  InvokeResult_Decode (Some (OKResult (PVal v))) (Some r) codec (Some (v_type v)) = Ok v /\
  InvokeResult_Decode (Some (OKResult (PBytes b))) (Some r) codec (Some (v_type v)) = Ok v.
Proof.
  intros [HJ HP]%builtin_lookup Hc Hm. unfold InvokeResult_Decode, OKResult. simpl.
  rewrite Hm. simpl. match goal with |- ?P /\ ?Q => change (P /\ P); cut P; [by split|] end.
  unfold Registry_Marshal, Registry_Unmarshal in *.
  destruct Hc as [->|[-> Hp]].
  - rewrite HJ in *. simpl in *. unfold JSON_Unmarshal.
    destruct (gt_proto (v_type v)) eqn:E; [by apply protojson_roundtrip|by apply jsoniter_roundtrip].
  - rewrite HP in *. simpl in *. unfold Protobuf_Unmarshal. rewrite Hp in *. by apply proto_roundtrip.
Qed.

Definition player_type : gotype := GoType "*game.Player" true true.

Lemma Decode_local_remote_witness :
  NewRegistry [Some (@NewJSON plain_lib); Some (@NewProtobuf plain_lib)] = Some std_registry /\
  Registry_Marshal std_registry CodecProtobuf (PVal (Value player_type [Byte.x61])) = Ok [Byte.x61] /\
  (InvokeResult_Decode (Some (OKResult (PVal (Value player_type [Byte.x61])))) (Some std_registry)
     CodecProtobuf (Some player_type) = Ok (Value player_type [Byte.x61]) /\
   InvokeResult_Decode (Some (OKResult (PBytes [Byte.x61]))) (Some std_registry)
     CodecProtobuf (Some player_type) = Ok (Value player_type [Byte.x61])).
Proof.
  split; [vm_compute; reflexivity|]. split; [vm_compute; reflexivity|].
  refine (@Decode_local_remote plain_lib plain_laws std_registry CodecProtobuf
    (Value player_type [Byte.x61]) [Byte.x61] _ _ _).
  - vm_compute. reflexivity.
  - right. split; reflexivity.
  - vm_compute. reflexivity.
Defined.
