(* ===== verification/Method.v ===== *)
(** Actor methods (net/method, facade/method_table.go): the reflection-based handler
    adapter and the application-wide catalog of method identifiers.

    Go types are [gotype]s compared as values; a handler is its signature and the
    function behind it, which may panic. [None] in the result of a definition is a Go
    panic. *)
From S2P Require Import Prelude Strconv Facade Context Serializer.

(** ** Handlers *)

Definition requestContextType : gotype := GoType "*cfacade.RequestContext" true false.
Definition errorType : gotype := GoType "error" false false.

(** src/net/method/invoker.go:28-41, InvokeError *)
Record InvokeError := mkInvokeError { ie_Code : StatusCode; ie_Message : str }.

(** A non-nil Go error: an [*InvokeError] (possibly a nil pointer), an ordinary error,
    or an error wrapping another. *)
Inductive goerr :=
| EInvoke (e : option InvokeError)
| EPlain (msg : str)
| EWrap (msg : str) (inner : goerr).

(** [errors.As] with an [*InvokeError] target. *)
Fixpoint errors_As (e : goerr) : option (option InvokeError) :=
  match e with EInvoke i => Some i | EPlain _ => None | EWrap _ e' => errors_As e' end.

(** A nil error is [None]; reading the code of a nil [*InvokeError] panics. *)
(** src/net/method/invoker.go:43-53, resultFromError *)
Definition resultFromError (err : option goerr) : option InvokeResult :=
  match err with
  | None => Some (OKResult PNil)
  | Some e =>
      match errors_As e with
      | Some (Some i) => Some (ErrorResult (ie_Code i) (ie_Message i))
      | Some None => None
      | None => Some (ErrorResult STATUS_INTERNAL "internal error")
      end
  end.

(** What a call of the handler's function returns: a pointer result may be nil. *)
Inductive retval := RVal (v : option value) | RErr (e : option goerr).

Record gofunc := GoFunc {
  f_in : list gotype; f_out : list gotype; f_nil : bool;
  f_call : RequestContext -> value -> option (list retval) }.

(** The argument of [Register]: nil, something that is no function, a function. *)
Inductive handler := HNil | HOther | HFunc (f : gofunc).

(** [None] is a panic. A nil pointer result is [Some None]; the built methods never
    return one. *)
(** src/facade/invoke_result.go:54-55, TypedInvoke *)
Definition TypedInvoke : Type := option RequestContext -> payload -> option (option InvokeResult).

(** src/net/method/invoker.go:20-26, adaptedHandler *)
Record adaptedHandler := mkAdapted {
  a_msgType : MsgType; a_requestGoType : gotype; a_protobuf : bool; a_invoke : TypedInvoke }.

Definition type_name (p : payload) : str :=
  match p with PNil => "<nil>" | PBytes _ => "[]uint8" | PVal v => gt_name (v_type v) end.

(** The request value, or the failure. *)
(** src/net/method/invoker.go:148-161, requestValue *)
Definition requestValue (p : payload) (requestGoType : gotype) : value + InvokeResult :=
  let mismatch := ErrorResult STATUS_INTERNAL
    (join "" ["actor request type mismatch: got "; type_name p; ", want "; gt_name requestGoType]) in
  match p with
  | PNil => inr (ErrorResult STATUS_INTERNAL "actor method received a nil request")
  | PBytes _ => inr mismatch
  | PVal v => if bool_decide (v_type v = requestGoType) then inl v else inr mismatch
  end.

(** src/net/method/invoker.go:120-146, buildInvoke *)
Definition buildInvoke (h : gofunc) (requestGoType : gotype) (unary : bool) : TypedInvoke :=
  fun ctx p =>
    let ctx := match ctx with None => NewRequestContext None | Some c => c end in
    match requestValue p requestGoType with
    | inr failure => Some (Some failure)
    | inl request =>
        match f_call h ctx request with
        | None => None
        | Some results =>
            if unary then
              match results with
              | RVal resp :: RErr err :: _ =>
                  match err with
                  | Some _ => Some <$> resultFromError err
                  | None =>
                      match resp with
                      | None => Some (Some (ErrorResult STATUS_INTERNAL "actor method returned a nil response"))
                      | Some v => Some (Some (OKResult (PVal v)))
                      end
                  end
              | _ => None
              end
            else
              match results with
              | RErr err :: _ =>
                  match err with
                  | Some _ => Some <$> resultFromError err
                  | None => Some (Some (OKResult PNil))
                  end
              | _ => None
              end
        end
    end.

(** src/net/method/invoker.go:78-118, adapt *)
Definition adapt (h : handler) : res adaptedHandler :=
  match h with
  | HNil => Err "actorgo method: handler is nil"
  | HOther => Err "actorgo method: handler must be a function"
  | HFunc f =>
      if f_nil f then Err "actorgo method: handler must be a function" else
      match f_in f with
      | [t0; t1] =>
          if negb (bool_decide (t0 = requestContextType)) || negb (gt_ptr t1)
          then Err "actorgo method: handler must accept (*facade.RequestContext, *Request)" else
          let requestGoType := t1 in
          let protobuf := gt_proto requestGoType in
          match f_out f with
          | [o0; o1] =>
              if gt_ptr o0 && bool_decide (o1 = errorType) then
                if negb (Bool.eqb (gt_proto o0) protobuf)
                then Err "actorgo method: request and response must both be protobuf messages or ordinary structs"
                else Ok (mkAdapted REQUEST requestGoType protobuf (buildInvoke f requestGoType true))
              else Err "actorgo method: handler must return (*Response, error) or error"
          | [o0] =>
              if bool_decide (o0 = errorType)
              then Ok (mkAdapted NOTIFY requestGoType protobuf (buildInvoke f requestGoType false))
              else Err "actorgo method: handler must return (*Response, error) or error"
          | _ => Err "actorgo method: handler must return (*Response, error) or error"
          end
      | _ => Err "actorgo method: handler must accept (*facade.RequestContext, *Request)"
      end
  end.

(** src/net/method/invoker.go:55-76, AdaptHandler *)
Definition AdaptHandler (h : handler) : res adaptedHandler :=
  adapted <-? adapt h ;;
  Ok (mkAdapted (a_msgType adapted) (a_requestGoType adapted) (a_protobuf adapted) (a_invoke adapted)).

(** The reflection contract of a function: it returns values of its result types. *)
Definition ret_ok (t : gotype) (r : retval) : Prop :=
  match r with
  | RErr _ => t = errorType
  | RVal (Some v) => t = v_type v
  | RVal None => gt_ptr t = true
  end.
Definition well_typed (f : gofunc) : Prop :=
  forall ctx v rs, f_call f ctx v = Some rs -> Forall2 ret_ok (f_out f) rs.

(** How the outcome of a well-typed handler call becomes a result. *)
Definition outcome_result (msgType : MsgType) (rs : list retval) : option InvokeResult :=
  match msgType, rs with
  | REQUEST, [RVal resp; RErr None] =>
      Some match resp with
           | Some v => OKResult (PVal v)
           | None => ErrorResult STATUS_INTERNAL "actor method returned a nil response"
           end
  | NOTIFY, [RErr None] => Some (OKResult PNil)
  | REQUEST, [RVal _; RErr err] | NOTIFY, [RErr err] => resultFromError err
  | _, _ => None
  end.

Lemma ptr_not_error t : gt_ptr t = true -> t <> errorType.
Proof. by intros H ->. Qed.

Lemma buildInvoke_other f req u ctx p : (forall v, p = PVal v -> v_type v <> req) ->
  exists r, buildInvoke f req u ctx p = Some (Some r) /\ r_Code r = status_num STATUS_INTERNAL.
Proof.
  intros Hp. unfold buildInvoke, requestValue. destruct p as [|b|v]; [by eexists..|].
  rewrite bool_decide_false by (by apply Hp). by eexists.
Qed.

Lemma buildInvoke_notify f req ctx v : well_typed f -> f_out f = [errorType] -> v_type v = req ->
  buildInvoke f req false (Some ctx) (PVal v) =
  match f_call f ctx v with None => None | Some rs => Some <$> outcome_result NOTIFY rs end.
Proof.
  intros Hw Eout Hv. unfold buildInvoke, requestValue. rewrite bool_decide_true by done.
  destruct (f_call f ctx v) as [rs|] eqn:Ec; [|done]. apply Hw in Ec. rewrite Eout in Ec.
  apply Forall2_cons_inv_l in Ec as (r & rs' & Hr & Hrs & ->). apply Forall2_nil_inv_l in Hrs as ->.
  destruct r as [[v'|]|[e|]]; simpl in *; done.
Qed.

Lemma buildInvoke_request f req resp ctx v : well_typed f -> f_out f = [resp; errorType] -> gt_ptr resp = true ->
  v_type v = req ->
  buildInvoke f req true (Some ctx) (PVal v) =
  match f_call f ctx v with None => None | Some rs => Some <$> outcome_result REQUEST rs end.
Proof.
  intros Hw Eout Ep Hv. unfold buildInvoke, requestValue. rewrite bool_decide_true by done.
  destruct (f_call f ctx v) as [rs|] eqn:Ec; [|done]. apply Hw in Ec. rewrite Eout in Ec.
  apply Forall2_cons_inv_l in Ec as (r & rs' & Hr & Hrs & ->).
  apply Forall2_cons_inv_l in Hrs as (r2 & rs2 & Hr2 & Hrs2 & ->). apply Forall2_nil_inv_l in Hrs2 as ->.
  destruct r as [out|]; [|simpl in Hr; by apply ptr_not_error in Ep].
  destruct r2 as [[v'|]|err]; simpl in Hr2; [by destruct v'; simplify_eq/=|done|].
  destruct err; [done|]. by destruct out.
Qed.

(** C38: AdaptHandler accepts exactly the functions from a request context and a pointer
    to (pointer, error) with agreeing protobuf-ness, which become REQUEST methods, or to
    an error, which become NOTIFY methods; the adapted method rejects every payload that
    is not of the request type without calling the handler, and otherwise returns what
    the handler's outcome means: a panic stays a panic, an error becomes its status, a
    nil response an internal error. *)
Theorem AdaptHandler_spec (f : gofunc) (a : adaptedHandler) :
  well_typed f ->
  AdaptHandler (HFunc f) = Ok a <->
  f_nil f = false /\
  exists req, f_in f = [requestContextType; req] /\ gt_ptr req = true /\
    a_requestGoType a = req /\ a_protobuf a = gt_proto req /\
    (a_msgType a = REQUEST /\ (exists resp, f_out f = [resp; errorType] /\ gt_ptr resp = true /\
        gt_proto resp = gt_proto req)
     \/ a_msgType a = NOTIFY /\ f_out f = [errorType]) /\
    a_invoke a = buildInvoke f req (MsgType_eqb (a_msgType a) REQUEST) /\
    (forall ctx p, (forall v, p = PVal v -> v_type v <> req) -> exists r,
        a_invoke a ctx p = Some (Some r) /\ r_Code r = status_num STATUS_INTERNAL) /\
    (forall ctx v, v_type v = req ->
        a_invoke a (Some ctx) (PVal v) =
        match f_call f ctx v with
        | None => None
        | Some rs => Some <$> outcome_result (a_msgType a) rs
        end).
Proof.
  intros Hw. unfold AdaptHandler, adapt. split.
  - destruct (f_nil f); [done|]. destruct (f_in f) as [|t0 [|t1 [|]]] eqn:Ein; try done.
    destruct (bool_decide (t0 = requestContextType)) eqn:Et0; [|done]. apply bool_decide_eq_true in Et0 as ->.
    destruct (gt_ptr t1) eqn:Et1; [|done]. simpl.
    destruct (f_out f) as [|o0 [|o1 [|]]] eqn:Eout; simpl; try done.
    + destruct (bool_decide (o0 = errorType)) eqn:Eo; [|done]. apply bool_decide_eq_true in Eo as ->.
      intros [= <-]. split; [done|]. exists t1. simpl. split_and!; try done; [by right|by intros; apply buildInvoke_other|].
      intros ctx v Hv. by apply buildInvoke_notify.
    + destruct (gt_ptr o0) eqn:Ep; [|done]. destruct (bool_decide (o1 = errorType)) eqn:Eo; [|done].
      apply bool_decide_eq_true in Eo as ->. simpl. destruct (Bool.eqb _ _) eqn:Eb; [|done].
      apply Bool.eqb_prop in Eb. intros [= <-]. split; [done|]. exists t1. simpl.
      split_and!; try done; [left; by eauto|by intros; apply buildInvoke_other|].
      intros ctx v Hv. by apply (buildInvoke_request f t1 o0).
  - intros (Hn & req & Hin & Hp & Hr & Hpb & Hcase & Hinv & _). rewrite Hn, Hin.
    rewrite bool_decide_true by done. rewrite Hp. simpl. destruct a as [mt rt pb inv]. simpl in *. subst rt pb.
    destruct Hcase as [[-> (resp & Hout & Hptr & Hpr)]|[-> Hout]]; rewrite Hout.
    + rewrite Hptr, bool_decide_true by done. simpl. rewrite Hpr, Bool.eqb_reflx. simpl. by rewrite Hinv.
    + rewrite bool_decide_true by done. simpl. by rewrite Hinv.
Qed.

Definition echo_type : gotype := GoType "*game.Echo" true true.
(** A request handler that returns its request, or an error when the body is empty. *)
Definition echo_fn : gofunc :=
  GoFunc [requestContextType; echo_type] [echo_type; errorType] false
    (fun _ v => if bool_decide (v_type v = echo_type) then
       Some match v_data v with
            | [] => [RVal None; RErr (Some (EWrap "echo" (EInvoke (Some (mkInvokeError STATUS_NOT_FOUND "empty")))))]
            | _ => [RVal (Some v); RErr None]
            end else None).

Lemma echo_well_typed : well_typed echo_fn.
Proof.
  intros ctx v rs. simpl. case_bool_decide as E; [|done]. intros [= <-].
  destruct (v_data v); repeat constructor; simpl; congruence.
Defined.

Definition echo_adapted : adaptedHandler :=
  mkAdapted REQUEST echo_type true (buildInvoke echo_fn echo_type true).

Lemma AdaptHandler_spec_witness :
  AdaptHandler (HFunc echo_fn) = Ok echo_adapted /\
  forall ctx v, v_type v = echo_type ->
    a_invoke echo_adapted (Some ctx) (PVal v) =
    match f_call echo_fn ctx v with None => None | Some rs => Some <$> outcome_result REQUEST rs end.
Proof.
  split; [reflexivity|].
  destruct (proj1 (AdaptHandler_spec echo_fn echo_adapted echo_well_typed) eq_refl)
    as (_ & req & [= <-] & _ & _ & _ & _ & _ & _ & H). exact H.
Defined.

(** ** The method table *)

(** src/net/method/table.go:12-15, registeredMethod *)
Record registeredMethod := mkMethod { rm_msgType : MsgType; rm_target : str }.

(** [t_app] says whether the application is set. *)
(** src/net/method/table.go:17-25, Table *)
Record Table := mkTable { t_app : bool; t_byID : gmap Z registeredMethod }.

(** src/net/method/table.go:27-30, NewTable *)
Definition NewTable (app : bool) : Table := mkTable app ∅.

(** The error of a rejected registration, with what its text mentions. *)
Inductive regerr :=
| ENotInitialized
| EReserved (methodID : Z)
| ENotTopLevel (target : str)
| EInvalidType (t : MsgType)
| EAlreadyRegistered (methodID : Z) (current : str).

(** The new table, or the error. [None] stands for the nil receiver. *)
(** src/net/method/table.go:32-56, Table.Register *)
Definition Table_Register (methodID : Z) (target : str) (msgType : MsgType) (r : option Table)
  : Table + regerr :=
  match r with
  | None => inr ENotInitialized
  | Some r =>
      if negb (t_app r) then inr ENotInitialized else
      if methodID <=? SystemMethodKick then inr (EReserved methodID) else
      match ToActorPath target with
      | Err _ => inr (ENotTopLevel target)
      | Ok path =>
          if ActorPath_IsChild (Some path) then inr (ENotTopLevel target) else
          if negb (MsgType_eqb msgType REQUEST) && negb (MsgType_eqb msgType NOTIFY)
          then inr (EInvalidType msgType) else
          match t_byID r !! methodID with
          | Some current => inr (EAlreadyRegistered methodID (rm_target current))
          | None => inl (mkTable (t_app r) (<[methodID := mkMethod msgType target]> (t_byID r)))
          end
      end
  end.

(** The body of the [range] loop over [byID]. *)
Definition unregister_step (target : str) (kv : Z * registeredMethod) (m : gmap Z registeredMethod)
  : gmap Z registeredMethod :=
  if String.eqb (rm_target kv.2) target then delete kv.1 m else m.

(** src/net/method/table.go:58-70, Table.UnregisterTarget *)
Definition Table_UnregisterTarget (target : str) (r : Table) : Table :=
  if String.eqb target EmptyString then r
  else mkTable (t_app r) (foldr (unregister_step target) (t_byID r) (map_to_list (t_byID r))).

(** src/net/method/table.go:119-127, Table.lookup *)
Definition Table_lookup (methodID : Z) (r : option Table) : option registeredMethod :=
  match r with None => None | Some r => t_byID r !! methodID end.

(** src/net/method/table.go:72-79, Table.MsgType *)
Definition Table_MsgType (methodID : Z) (r : option Table) : option MsgType :=
  match Table_lookup methodID r with None => None | Some e => Some (rm_msgType e) end.

(** src/net/method/table.go:81-88, Table.Target *)
Definition Table_Target (methodID : Z) (r : option Table) : option str :=
  match Table_lookup methodID r with None => None | Some e => Some (rm_target e) end.

Section Dispatch.
(** [ActorSystem()]'s two entry points and the default codec; [T] is what a call of
    the system gives (its state change and result), [ret] a result returned at once. *)
Context {T : Type}.
Variable NotifyTarget InvokeTarget : RequestContext -> str -> Z -> payload -> T.
Variable ret : InvokeResult -> T.
Variable defaultCodec : Z.

(** [None]: [ctx.Err()] panics when the embedded context is nil. *)
(** src/net/method/table.go:90-117, Table.Dispatch *)
Definition Table_Dispatch (ctx : option RequestContext) (methodID : Z) (body : bytes)
    (msgType : MsgType) (r : option Table) : option T :=
  match Table_lookup methodID r with
  | None => Some (ret (ErrorResult STATUS_NOT_FOUND "method not found"))
  | Some entry =>
      if negb (MsgType_eqb (rm_msgType entry) msgType)
      then Some (ret (ErrorResult STATUS_FAILED_PRECONDITION
                        "method message type does not match request message type"))
      else
        let ctx := match ctx with None => NewRequestContext (Some Background) | Some c => c end in
        let ctx := if rc_Codec ctx =? 0
                   then mkRequestContext (rc_Context ctx) (rc_RequestID ctx) (rc_Transport ctx)
                          defaultCodec (rc_Session ctx) (rc_Metadata ctx)
                   else ctx in
        match rc_Context ctx with
        | None => None
        | Some c =>
            match c_err c with
            | Some DeadlineExceeded => Some (ret (ErrorResult STATUS_DEADLINE_EXCEEDED "request deadline exceeded"))
            | Some Canceled => Some (ret (ErrorResult STATUS_CANCELLED "request cancelled"))
            | None =>
                if MsgType_eqb msgType NOTIFY
                then Some (NotifyTarget ctx (rm_target entry) methodID (PBytes body))
                else Some (InvokeTarget ctx (rm_target entry) methodID (PBytes body))
            end
        end
  end.
End Dispatch.

Lemma unregister_fold target l m k :
  foldr (unregister_step target) m l !! k =
  if existsb (fun kv => (kv.1 =? k) && String.eqb (rm_target kv.2) target) l then None else m !! k.
Proof.
  induction l as [|[k' e] l IH]; [done|]. cbn [foldr existsb fst snd].
  unfold unregister_step at 1. cbn [fst snd]. destruct (String.eqb (rm_target e) target).
  - rewrite lookup_delete, andb_true_r. destruct (Z.eqb_spec k' k) as [->|Hk].
    + by rewrite decide_True.
    + by rewrite decide_False.
  - by rewrite andb_false_r.
Qed.

Lemma Table_UnregisterTarget_lookup target r k : target <> EmptyString ->
  t_byID (Table_UnregisterTarget target r) !! k =
  match t_byID r !! k with
  | Some e => if decide (rm_target e = target) then None else Some e
  | None => None
  end.
Proof.
  intros Ht. unfold Table_UnregisterTarget. rewrite (proj2 (String.eqb_neq _ _) Ht). simpl.
  rewrite unregister_fold. destruct (existsb _ _) eqn:H.
  - apply existsb_exists in H as ([k' e] & Hin & H). simpl in H. breflect. subst.
    apply list_elem_of_In, elem_of_map_to_list in Hin. rewrite Hin. by rewrite decide_True.
  - destruct (t_byID r !! k) as [e|] eqn:E; [|done]. rewrite decide_False; [done|].
    intros He. assert (existsb (fun kv => (kv.1 =? k) && String.eqb (rm_target kv.2) target)
      (map_to_list (t_byID r)) = true); [|congruence].
    apply existsb_exists. exists (k, e). split.
    + by apply list_elem_of_In, elem_of_map_to_list.
    + simpl. by rewrite Z.eqb_refl, He, String.eqb_refl.
Qed.

(** The tables an application can have. *)
Inductive table_reach : Table -> Prop :=
| tr_new app : table_reach (NewTable app)
| tr_register id target ty r r' :
    table_reach r -> Table_Register id target ty (Some r) = inl r' -> table_reach r'
| tr_unregister target r : table_reach r -> table_reach (Table_UnregisterTarget target r).

(** An entry is external, routable and of a type that can be dispatched. *)
Definition method_ok (id : Z) (e : registeredMethod) : Prop :=
  SystemMethodKick < id /\ rm_msgType e <> RESPONSE /\
  exists path, ToActorPath (rm_target e) = Ok path /\ ChildID path = EmptyString.

Lemma Table_Register_inl id target ty r r' :
  Table_Register id target ty (Some r) = inl r' <->
  t_app r = true /\ t_byID r !! id = None /\ method_ok id (mkMethod ty target) /\
  r' = mkTable (t_app r) (<[id := mkMethod ty target]> (t_byID r)).
Proof.
  unfold Table_Register, method_ok, MsgType_eqb. simpl. split.
  - destruct (t_app r) eqn:Ea; [|done]. simpl. case_if; [done|]. breflect.
    destruct (ToActorPath target) as [path|] eqn:Ep; [|done]. destruct (ChildID path) eqn:Ec; [|done]. simpl.
    intros H. assert (ty <> RESPONSE) by (intros ->; done).
    destruct (negb (bool_decide (ty = REQUEST)) && _); [done|].
    destruct (t_byID r !! id) eqn:El; [done|]. injection H as <-.
    split_and!; try done. by exists path.
  - intros (-> & -> & (Hid & Hty & path & -> & Hc) & ->). simpl.
    rewrite (proj2 (Z.leb_gt _ _) Hid), Hc. simpl. by destruct ty.
Qed.

Lemma table_reach_ok r : table_reach r -> map_Forall method_ok (t_byID r).
Proof.
  induction 1 as [app|id target ty r r' _ IH E|target r _ IH].
  - apply map_Forall_empty.
  - apply Table_Register_inl in E as (_ & _ & Hok & ->). simpl. by apply map_Forall_insert_2.
  - unfold Table_UnregisterTarget. destruct (String.eqb_spec target EmptyString); [done|].
    intros k e. pose proof (Table_UnregisterTarget_lookup target r k n) as Hl.
    unfold Table_UnregisterTarget in Hl. rewrite (proj2 (String.eqb_neq _ _) n) in Hl. simpl in *. rewrite Hl.
    destruct (t_byID r !! k) as [e'|] eqn:E; [|done]. case_decide; [done|]. intros [= <-]. by apply IH.
Qed.

(** C37: In every table the application can reach, each registered identifier lies above
    the framework's reserved ones and names a parseable top-level actor path with a
    dispatchable message type; Register succeeds exactly on a free identifier with such
    an entry, and then adds that entry and changes no other; UnregisterTarget removes
    all entries of the target and only those. *)
Theorem method_table_spec (r : Table) :
  table_reach r ->
  map_Forall method_ok (t_byID r) /\
  (forall id target ty r', Table_Register id target ty (Some r) = inl r' <->
     t_app r = true /\ Table_lookup id (Some r) = None /\ method_ok id (mkMethod ty target) /\
     r' = mkTable (t_app r) (<[id := mkMethod ty target]> (t_byID r))) /\
  (forall target id, target <> EmptyString ->
     Table_Target id (Some (Table_UnregisterTarget target r)) =
     match Table_Target id (Some r) with
     | Some t => if decide (t = target) then None else Some t
     | None => None
     end).
Proof.
  intros Hr. split_and!.
  - by apply table_reach_ok.
  - intros. apply Table_Register_inl.
  - intros target id Ht. unfold Table_Target, Table_lookup.
    rewrite Table_UnregisterTarget_lookup by done. destruct (t_byID r !! id) as [e|]; [|done]. by case_decide.
Qed.

Definition demo_table : Table :=
  mkTable true (<[101 := mkMethod NOTIFY "n1.room"]> {[100 := mkMethod REQUEST "n1.player"]}).

Lemma demo_table_reach : table_reach demo_table.
Proof.
  apply (tr_register 101 "n1.room" NOTIFY (mkTable true {[100 := mkMethod REQUEST "n1.player"]})).
  - apply (tr_register 100 "n1.player" REQUEST (NewTable true)); [apply tr_new|vm_compute; reflexivity].
  - vm_compute. reflexivity.
Defined.

Lemma method_table_spec_witness :
  table_reach demo_table /\ map_Forall method_ok (t_byID demo_table) /\
  Table_Target 100 (Some (Table_UnregisterTarget "n1.player" demo_table)) = None.
Proof.
  split; [exact demo_table_reach|].
  destruct (method_table_spec demo_table demo_table_reach) as (H1 & _ & H3).
  split; [exact H1|]. rewrite (H3 "n1.player"%string 100 ltac:(discriminate)). vm_compute. reflexivity.
Defined.

(** Dispatch reaches the actor system only through the entry registered for the
    identifier, with that entry's target and type, with a non-zero codec and a live
    context; every other case is answered with the matching status and never reaches
    an actor. *)
Theorem Dispatch_routes {T} (notify invoke : RequestContext -> str -> Z -> payload -> T)
    (ret : InvokeResult -> T) (codec : Z) (r : option Table) (c : RequestContext) (g : gctx)
    (id : Z) (body : bytes) (ty : MsgType) :
  rc_Context c = Some g -> codec <> 0 ->
  let go := Table_Dispatch notify invoke ret codec (Some c) id body ty r in
  match Table_MsgType id r, Table_Target id r with
  | Some ty', Some target =>
      if decide (ty' <> ty) then exists m, go = Some (ret (ErrorResult STATUS_FAILED_PRECONDITION m))
      else match c_err g with
      | Some DeadlineExceeded => exists m, go = Some (ret (ErrorResult STATUS_DEADLINE_EXCEEDED m))
      | Some Canceled => exists m, go = Some (ret (ErrorResult STATUS_CANCELLED m))
      | None => exists c', go = Some ((match ty with NOTIFY => notify | _ => invoke end) c' target id (PBytes body)) /\
          rc_Codec c' <> 0 /\ (rc_Codec c <> 0 -> c' = c) /\ rc_Session c' = rc_Session c /\
          rc_Context c' = rc_Context c /\ rc_Metadata c' = rc_Metadata c
      end
  | _, _ => exists m, go = Some (ret (ErrorResult STATUS_NOT_FOUND m))
  end.
Proof.
  intros Hg Hcd go. unfold go, Table_Dispatch, Table_MsgType, Table_Target.
  destruct (Table_lookup id r) as [e|]; [|by eexists]. unfold MsgType_eqb.
  case_decide as Hty; [rewrite bool_decide_false by done; by eexists|].
  assert (rm_msgType e = ty) as E by (destruct (decide (rm_msgType e = ty)); [done|by destruct Hty]).
  rewrite bool_decide_true by done. simpl.
  destruct (Z.eqb_spec (rc_Codec c) 0) as [E0|E0]; simpl; rewrite Hg;
    (destruct (c_err g) as [[]|]; [by eexists..|]); destruct ty; simpl; eexists;
    (split; [reflexivity|]); simpl; split_and!; try done; rewrite ?E0; try done; destruct c; done.
Qed.

Lemma Dispatch_routes_witness :
  let c := NewRequestContext None in
  let mk (tag : Z) := fun (_ : RequestContext) (t : str) (id : Z) (_ : payload) => (tag, t, id) in
  rc_Context c = Some Background /\
  exists c', Table_Dispatch (mk 1) (mk 2) (fun r => (3, "", r_Code r)) 1 (Some c) 100 [] REQUEST (Some demo_table)
    = Some (mk 2 c' "n1.player"%string 100 (PBytes [])) /\ rc_Codec c' <> 0.
Proof.
  intros c mk. split; [reflexivity|].
  destruct (Dispatch_routes (mk 1) (mk 2) (fun r => (3, EmptyString, r_Code r)) 1 (Some demo_table) c Background
    100 [] REQUEST eq_refl ltac:(discriminate)) as (c' & E & H & _).
  exists c'. split; [exact E|exact H].
Defined.
