(* ===== verification/Actor.v ===== *)
(** One actor (net/actor/actor.go, actor_mailbox.go, actor_event.go, actor_timer.go,
    actor_child.go): its mailbox and method map, event subscriptions, timers and
    children, as records with one definition per operation. The goroutine that runs
    the actor is the [phase] field; [Steps] interleaves the goroutines.

    Business code is opaque: functions are numbers, and what a handler does is given
    by its outcome. *)
From S2P Require Import Prelude Strconv Facade Context Queue Serializer Method.

(** src/net/actor/actor.go:30-37, State *)
Inductive State := InitState | WorkerState | StopState.
#[global] Instance State_eq_dec : EqDecision State.
Proof. solve_decision. Defined.

(** ** Mailbox *)

(** src/net/actor/actor_mailbox.go:13-18, methodEntry *)
Record methodEntry := mkEntry {
  me_invoke : TypedInvoke; me_requestGoType : option gotype; me_supportsProtobuf : bool }.

(** Queued messages carry the number under which they were created. *)
(** src/net/actor/actor_mailbox.go:20-26, mailbox *)
Record mailbox := mkMailbox { mb_queue : aqueue (nat * Message); mb_methodMap : gmap Z methodEntry }.

(** src/net/actor/actor_mailbox.go:28-30, newMailbox *)
Definition newMailbox : mailbox := mkMailbox aq_new ∅.

(** Why a registration panicked. *)
Inductive regpanic :=
| RequiredArgument | AlreadyInMailbox (methodID : Z) | BadHandler (e : str)
| NoMethodTable | NotDuringInit | TableRejected (e : regerr).

(** The mailbox of an actor at [path] in [state]; [table] is [app.Methods()] ([None]:
    nil). The new mailbox and table, or the panic. *)
(** src/net/actor/actor_mailbox.go:32-66, mailbox.Register *)
Definition mailbox_Register (methodID : Z) (h : handler) (path : ActorPath) (state : State)
    (table : option Table) (m : mailbox) : (mailbox * option Table) + regpanic :=
  if (methodID =? 0) || match h with HNil => true | _ => false end then inr RequiredArgument else
  match mb_methodMap m !! methodID with
  | Some _ => inr (AlreadyInMailbox methodID)
  | None =>
      match AdaptHandler h with
      | Err e => inr (BadHandler e)
      | Ok adapted =>
          if negb (bool_decide (state = InitState)) then inr NotDuringInit else
          let install table := inl (mkMailbox (mb_queue m)
            (<[methodID := mkEntry (a_invoke adapted) (Some (a_requestGoType adapted)) (a_protobuf adapted)]>
               (mb_methodMap m)), table) in
          if ActorPath_IsParent (Some path) then
            match table with
            | None => inr NoMethodTable
            | Some _ =>
                match Table_Register methodID (ActorPath_String path) (a_msgType adapted) table with
                | inr e => inr (TableRejected e)
                | inl table' => install (Some table')
                end
            end
          else install table
      end
  end.

(** src/net/actor/actor_mailbox.go:68-71, mailbox.getMethod *)
Definition mailbox_getMethod (methodID : Z) (m : mailbox) : option methodEntry := mb_methodMap m !! methodID.

(** [codecs] is the application's registry ([None]: nil). The outer [None] is the panic
    of asking a nil registry for its default. *)
(** src/net/actor/actor_mailbox.go:73-101, mailbox.decodePayload *)
Definition mailbox_decodePayload (codecs : option Registry) (ctx : option RequestContext)
    (entry : option methodEntry) (p : payload) : option (payload + InvokeResult) :=
  match p with
  | PBytes body =>
      match entry with
      | Some (mkEntry _ (Some requestGoType) protobuf) =>
          let ctx := match ctx with None => NewRequestContext None | Some c => c end in
          let codec := if rc_Codec ctx =? 0
                       then Registry_Default <$> codecs else Some (rc_Codec ctx) in
          match codec with
          | None => None
          | Some codec =>
              if negb (codec =? CodecJSON) && (negb (codec =? CodecProtobuf) || negb protobuf)
              then Some (inr (ErrorResult STATUS_UNSUPPORTED_MEDIA
                     (String.append "method does not support body codec " (format_int 10 codec))))
              else match codecs with
              | None => Some (inr (ErrorResult STATUS_INTERNAL "body codecs are not initialized"))
              | Some codecs =>
                  match Registry_Unmarshal codecs codec body requestGoType with
                  | Err e => Some (inr (ErrorResult STATUS_INVALID_ARGUMENT
                               (String.append "request body decode failed: " e)))
                  | Ok request => Some (inl (PVal request))
                  end
              end
          end
      | _ => Some (inr (ErrorResult STATUS_INTERNAL "actor method request type missing"))
      end
  | _ => Some (inl p)
  end.

(** src/net/actor/actor_mailbox.go:103-114, mailbox.Pop *)
Definition mailbox_Pop (m : mailbox) : option (option (nat * Message) * mailbox) :=
  match aq_Pop (mb_queue m) with
  | Some (r, q) => Some (r, mkMailbox q (mb_methodMap m))
  | None => None
  end.

(** src/net/actor/actor_mailbox.go:115-119, mailbox.Push *)
Definition mailbox_Push (msg : nat * Message) (m : mailbox) : option mailbox :=
  match aq_Push msg (mb_queue m) with
  | Some q => Some (mkMailbox q (mb_methodMap m))
  | None => None
  end.

(** The first step of [Push]: the message has its place in the queue. *)
(** src/net/actor/actor_mailbox.go:115-119, mailbox.Push *)
Definition mailbox_swap (msg : nat * Message) (m : mailbox) : option mailbox :=
  match aq_swap msg (mb_queue m) with
  | Some q => Some (mkMailbox q (mb_methodMap m))
  | None => None
  end.

(** src/net/actor/actor_mailbox.go:120-120, mailbox.onStop *)
Definition mailbox_onStop (m : mailbox) : option mailbox :=
  match aq_Destroy (mb_queue m) with
  | Some q => Some (mkMailbox q ∅)
  | None => None
  end.

(** ** Events *)

(** src/facade/actor.go:50-54, IEventData *)
Record EventData := mkEvent { ev_Name : str; ev_UniqueID : Z }.
#[global] Instance EventData_eq_dec : EqDecision EventData.
Proof. solve_decision. Defined.

(** src/net/actor/actor_event.go:11-17, actorEvent *)
Record actorEvent := mkActorEvent { ae_queue : aqueue EventData; ae_funcMap : gomap str (list nat) }.

(** src/net/actor/actor_event.go:19-25, newEvent *)
Definition newEvent : actorEvent := mkActorEvent aq_new (Some ∅).

(** [None]: the assignment panics once [onStop] has dropped the map. *)
(** src/net/actor/actor_event.go:27-37, actorEvent.Register *)
Definition actorEvent_Register (name : str) (fn : nat) (e : actorEvent) : option actorEvent :=
  match ae_funcMap e with
  | None => None
  | Some fm => Some (mkActorEvent (ae_queue e) (Some (<[name := default [] (fm !! name) ++ [fn]]> fm)))
  end.

(** src/net/actor/actor_event.go:45-50, actorEvent.Unregister *)
Definition actorEvent_Unregister (name : str) (e : actorEvent) : actorEvent :=
  mkActorEvent (ae_queue e) (gomap_delete name (ae_funcMap e)).

(** src/net/actor/actor_event.go:52-54, actorEvent.Push *)
Definition actorEvent_Push (data : EventData) (e : actorEvent) : option actorEvent :=
  match aq_Push data (ae_queue e) with
  | Some q => Some (mkActorEvent q (ae_funcMap e))
  | None => None
  end.

(** The first step of [Push]. *)
(** src/net/actor/actor_event.go:52-54, actorEvent.Push *)
Definition actorEvent_swap (data : EventData) (e : actorEvent) : option actorEvent :=
  match aq_swap data (ae_queue e) with
  | Some q => Some (mkActorEvent q (ae_funcMap e))
  | None => None
  end.

(** src/net/actor/actor_event.go:56-69, actorEvent.Pop *)
Definition actorEvent_Pop (e : actorEvent) : option (option EventData * actorEvent) :=
  match aq_Pop (ae_queue e) with
  | Some (r, q) => Some (r, mkActorEvent q (ae_funcMap e))
  | None => None
  end.

(** The functions a list runs until one panics (that one included). *)
Fixpoint run_until_panic (panics : nat -> bool) (fns : list nat) : list nat :=
  match fns with
  | [] => []
  | fn :: fns' => fn :: (if panics fn then [] else run_until_panic panics fns')
  end.

(** The functions called for an event; a panic ends the event, not the actor. *)
(** src/net/actor/actor_event.go:71-93, actorEvent.invokeFunc *)
Definition actorEvent_invokeFunc (panics : nat -> bool) (data : EventData) (e : actorEvent) : list nat :=
  match gomap_get (ae_funcMap e) (ev_Name data) with
  | None => []
  | Some funcList => run_until_panic panics funcList
  end.

(** src/net/actor/actor_event.go:104-106, actorEvent.EventNames *)
Definition actorEvent_EventNames (e : actorEvent) : list str :=
  match ae_funcMap e with None => [] | Some fm => (map_to_list fm).*1 end.

(** The new state; the names to take out of the system's event map come first. *)
(** src/net/actor/actor_event.go:95-102, actorEvent.onStop *)
Definition actorEvent_onStop (e : actorEvent) : list str * option actorEvent :=
  (actorEvent_EventNames e,
   match aq_Destroy (ae_queue e) with
   | Some q => Some (mkActorEvent q None)
   | None => None
   end).

(** ** Timers *)

(** src/net/actor/actor_timer.go:18-22, timerInfo *)
Record timerInfo := mkTimerInfo { ti_fn : nat; ti_once : bool }.

(** src/net/actor/actor_timer.go:12-16, actorTimer *)
Record actorTimer := mkActorTimer { at_queue : aqueue Z; at_timerInfoMap : gmap Z timerInfo }.

(** src/net/actor/actor_timer.go:25-32, newTimer *)
Definition newTimer : actorTimer := mkActorTimer aq_new ∅.

(** The first step of [Push]: the rest are [Actor_counted] and [Actor_sent]. *)
(** src/net/actor/actor_timer.go:39-41, actorTimer.Push *)
Definition actorTimer_Push (id : Z) (t : actorTimer) : option actorTimer :=
  match aq_swap id (at_queue t) with
  | Some q => Some (mkActorTimer q (at_timerInfoMap t))
  | None => None
  end.

(** Zero when nothing was queued. *)
(** src/net/actor/actor_timer.go:43-56, actorTimer.Pop *)
Definition actorTimer_Pop (t : actorTimer) : option (Z * actorTimer) :=
  match aq_Pop (at_queue t) with
  | Some (r, q) => Some (default 0 r, mkActorTimer q (at_timerInfoMap t))
  | None => None
  end.

(** src/net/actor/actor_timer.go:137-143, actorTimer.addTimerInfo *)
Definition actorTimer_addTimerInfo (id : Z) (fn : nat) (once : bool) (t : actorTimer) : actorTimer :=
  mkActorTimer (at_queue t) (<[id := mkTimerInfo fn once]> (at_timerInfoMap t)).

(** [delay] in nanoseconds; [newID] is the wheel's next identifier and [timer] says
    whether the wheel returned a timer. The identifier (zero on failure) comes first. *)
(** src/net/actor/actor_timer.go:58-75, actorTimer.Add *)
Definition actorTimer_Add (delay : Z) (fn : option nat) (newID : Z) (timer : bool) (t : actorTimer)
  : Z * actorTimer :=
  match fn with
  | None => (0, t)
  | Some fn =>
      if goquot delay 1000000 <? 1 then (0, t)
      else if negb timer then (0, t)
      else (newID, actorTimer_addTimerInfo newID fn false t)
  end.

(** src/net/actor/actor_timer.go:77-94, actorTimer.AddOnce *)
Definition actorTimer_AddOnce (delay : Z) (fn : option nat) (timerID : Z) (timer : bool) (t : actorTimer)
  : Z * actorTimer :=
  match fn with
  | None => (0, t)
  | Some fn =>
      if goquot delay 1000000 <? 1 then (0, t)
      else if negb timer then (0, t)
      else (timerID, actorTimer_addTimerInfo timerID fn true t)
  end.

(** [None]: the nil timer of an exhausted schedule is dereferenced. *)
(** src/net/actor/actor_timer.go:110-123, actorTimer.AddSchedule *)
Definition actorTimer_AddSchedule (schedule : bool) (fn : option nat) (timerID : Z) (timer : bool)
    (t : actorTimer) : option (Z * actorTimer) :=
  match schedule, fn with
  | true, Some fn =>
      if timer then Some (timerID, actorTimer_addTimerInfo timerID fn false t) else None
  | _, _ => Some (0, t)
  end.

(** The wheel timers stopped come first. *)
(** src/net/actor/actor_timer.go:125-130, actorTimer.Remove *)
Definition actorTimer_Remove (id : Z) (t : actorTimer) : list Z * actorTimer :=
  match at_timerInfoMap t !! id with
  | Some _ => ([id], mkActorTimer (at_queue t) (delete id (at_timerInfoMap t)))
  | None => ([], t)
  end.

(** src/net/actor/actor_timer.go:132-136, actorTimer.RemoveAll *)
Definition actorTimer_RemoveAll (t : actorTimer) : list Z := (map_to_list (at_timerInfoMap t)).*1.

(** src/net/actor/actor_timer.go:34-37, actorTimer.onStop *)
Definition actorTimer_onStop (t : actorTimer) : list Z * actorTimer := (actorTimer_RemoveAll t, t).

(** The function called (a panic in it is recovered). *)
(** src/net/actor/actor_timer.go:145-161, actorTimer.invokeFunc *)
Definition actorTimer_invokeFunc (timerID : Z) (t : actorTimer) : option nat * actorTimer :=
  match at_timerInfoMap t !! timerID with
  | None => (None, t)
  | Some value =>
      (Some (ti_fn value),
       if ti_once value then mkActorTimer (at_queue t) (delete timerID (at_timerInfoMap t)) else t)
  end.

(** ** The actor *)

(** Where the actor's goroutine is: inside [OnInit]; at the top of [loop]; waiting for
    [OnFindChild]; inside the business method of a message; between the two halves of
    [onStop] (with the initialization error, if any); gone. *)
Inductive phase :=
| PhInit
| PhLoop
| PhFind (id : nat) (m : Message)
| PhRun (id : nat) (m : Message)
| PhStop (err : option str)
| PhDead.

(** [ac_children]: the child manager's map; [ac_childOwner]: its [thisActor] is set.
    [ac_close]: the close channel holds its token. [ac_initDone]: what was sent. *)
(** src/net/actor/actor.go:39-53, Actor *)
Record Actor := mkActor {
  ac_path : ActorPath;
  ac_state : State;
  ac_close : bool;
  ac_mail : mailbox;
  ac_event : actorEvent;
  ac_timer : actorTimer;
  ac_children : gmap str nat;
  ac_childOwner : bool;
  ac_lastAt : Z;
  ac_initDone : option (option str);
  ac_phase : phase }.

Definition set_state (st : State) (a : Actor) : Actor :=
  mkActor (ac_path a) st (ac_close a) (ac_mail a) (ac_event a) (ac_timer a) (ac_children a)
    (ac_childOwner a) (ac_lastAt a) (ac_initDone a) (ac_phase a).
Definition set_close (b : bool) (a : Actor) : Actor :=
  mkActor (ac_path a) (ac_state a) b (ac_mail a) (ac_event a) (ac_timer a) (ac_children a)
    (ac_childOwner a) (ac_lastAt a) (ac_initDone a) (ac_phase a).
Definition set_mail (m : mailbox) (a : Actor) : Actor :=
  mkActor (ac_path a) (ac_state a) (ac_close a) m (ac_event a) (ac_timer a) (ac_children a)
    (ac_childOwner a) (ac_lastAt a) (ac_initDone a) (ac_phase a).
Definition set_event (e : actorEvent) (a : Actor) : Actor :=
  mkActor (ac_path a) (ac_state a) (ac_close a) (ac_mail a) e (ac_timer a) (ac_children a)
    (ac_childOwner a) (ac_lastAt a) (ac_initDone a) (ac_phase a).
Definition set_timer (t : actorTimer) (a : Actor) : Actor :=
  mkActor (ac_path a) (ac_state a) (ac_close a) (ac_mail a) (ac_event a) t (ac_children a)
    (ac_childOwner a) (ac_lastAt a) (ac_initDone a) (ac_phase a).
Definition set_children (c : gmap str nat) (a : Actor) : Actor :=
  mkActor (ac_path a) (ac_state a) (ac_close a) (ac_mail a) (ac_event a) (ac_timer a) c
    (ac_childOwner a) (ac_lastAt a) (ac_initDone a) (ac_phase a).
Definition set_childOwner (b : bool) (a : Actor) : Actor :=
  mkActor (ac_path a) (ac_state a) (ac_close a) (ac_mail a) (ac_event a) (ac_timer a) (ac_children a)
    b (ac_lastAt a) (ac_initDone a) (ac_phase a).
Definition set_lastAt (n : Z) (a : Actor) : Actor :=
  mkActor (ac_path a) (ac_state a) (ac_close a) (ac_mail a) (ac_event a) (ac_timer a) (ac_children a)
    (ac_childOwner a) n (ac_initDone a) (ac_phase a).
Definition set_initDone (e : option str) (a : Actor) : Actor :=
  mkActor (ac_path a) (ac_state a) (ac_close a) (ac_mail a) (ac_event a) (ac_timer a) (ac_children a)
    (ac_childOwner a) (ac_lastAt a) (Some e) (ac_phase a).
Definition set_phase (p : phase) (a : Actor) : Actor :=
  mkActor (ac_path a) (ac_state a) (ac_close a) (ac_mail a) (ac_event a) (ac_timer a) (ac_children a)
    (ac_childOwner a) (ac_lastAt a) (ac_initDone a) p.

(** src/net/actor/const.go:7-10, ErrActorIDIsNil *)
Definition ErrActorIDIsNil : str := "actorID is nil.".
(** src/net/actor/const.go:7-10, ErrForbiddenCreateChildActor *)
Definition ErrForbiddenCreateChildActor : str := "Forbidden create child actor".

(** [now] in seconds. *)
(** src/net/actor/actor.go:418-453, newActor *)
Definition newActor (nodeID actorID childID : str) (now : Z) : res Actor :=
  if is_blank actorID then Err ErrActorIDIsNil
  else Ok (mkActor (mkActorPath nodeID actorID childID) InitState false newMailbox newEvent newTimer
             ∅ true now None PhInit).

(** src/net/actor/actor.go:334-340, Actor.ActorID *)
Definition Actor_ActorID (a : Actor) : str :=
  if ActorPath_IsChild (Some (ac_path a)) then ChildID (ac_path a) else ActorID (ac_path a).

(** src/net/actor/actor.go:346-348, Actor.PathString *)
Definition Actor_PathString (a : Actor) : str := ActorPath_String (ac_path a).

(** A non-blocking send into a channel of capacity one. *)
(** src/net/actor/actor.go:372-381, Actor.Exit *)
Definition Actor_Exit (a : Actor) : Actor := set_close true a.

(** src/net/actor/actor.go:409-411, Actor.post *)
Definition Actor_post (msg : nat * Message) (a : Actor) : option Actor :=
  match mailbox_Push msg (ac_mail a) with Some m => Some (set_mail m a) | None => None end.

(** The first step of [post]. *)
(** src/net/actor/actor.go:409-411, Actor.post *)
Definition Actor_post_swap (msg : nat * Message) (a : Actor) : option Actor :=
  match mailbox_swap msg (ac_mail a) with Some m => Some (set_mail m a) | None => None end.

(** The queues of an actor, and the later steps of a push into one of them. *)
Inductive qkind := QMail | QEvent | QTimer.

(** src/net/actor/queue.go:83-84, queue._setCount *)
Definition Actor_counted (k : qkind) (a : Actor) : option Actor :=
  match k with
  | QMail => (fun q => set_mail (mkMailbox q (mb_methodMap (ac_mail a))) a) <$> aq_counted (mb_queue (ac_mail a))
  | QEvent => (fun q => set_event (mkActorEvent q (ae_funcMap (ac_event a))) a) <$> aq_counted (ae_queue (ac_event a))
  | QTimer => (fun q => set_timer (mkActorTimer q (at_timerInfoMap (ac_timer a))) a) <$> aq_counted (at_queue (ac_timer a))
  end.

(** src/net/actor/queue.go:85-90, queue._setCount *)
Definition Actor_sent (k : qkind) (i : nat) (a : Actor) : option (Actor * bool) :=
  match k with
  | QMail => (fun r => (set_mail (mkMailbox r.1 (mb_methodMap (ac_mail a))) a, r.2)) <$> aq_sent i (mb_queue (ac_mail a))
  | QEvent => (fun r => (set_event (mkActorEvent r.1 (ae_funcMap (ac_event a))) a, r.2)) <$> aq_sent i (ae_queue (ac_event a))
  | QTimer =>
      (fun r => (set_timer (mkActorTimer r.1 (at_timerInfoMap (ac_timer a))) a, r.2)) <$> aq_sent i (at_queue (ac_timer a))
  end.

(** src/net/actor/system.go:412-417, contextFailure *)
Definition contextFailure (err : ctx_err) (operation : str) : InvokeResult :=
  match err with
  | DeadlineExceeded => ErrorResult STATUS_DEADLINE_EXCEEDED (String.append operation " deadline exceeded")
  | Canceled => ErrorResult STATUS_CANCELLED (String.append operation " cancelled")
  end.

(** [ctx.Err()] at a moment: what the context already reports, else its deadline against
    the clock, else a cancellation by its owner. *)
Definition ctx_Err (now : Z) (cancelled : bool) (c : gctx) : option ctx_err :=
  match c_err c with
  | Some e => Some e
  | None =>
      match c_deadline c with
      | Some d => if d <=? now then Some DeadlineExceeded else if cancelled then Some Canceled else None
      | None => if cancelled then Some Canceled else None
      end
  end.

(** What [invokeTyped] decides before it calls business code: finish the message with a
    result, call the entry, or panic. *)
Inductive invoke_start := Finish (r : InvokeResult) | Call (e : methodEntry) (ctx : RequestContext) (p : payload) | Panic.

(** src/net/actor/actor.go:135-155, Actor.invokeTyped *)
Definition invokeTyped_start (codecs : option Registry) (now : Z) (cancelled : bool) (m : Message)
    (mail : mailbox) : invoke_start :=
  let ctx := match m_Context m with None => NewRequestContext None | Some c => c end in
  match rc_Context ctx with
  | None => Panic
  | Some g =>
      match ctx_Err now cancelled g with
      | Some err => Finish (contextFailure err "actor invoke")
      | None =>
          match mailbox_getMethod (m_MethodID m) mail with
          | None => Finish (ErrorResult STATUS_NOT_FOUND "actor method not found")
          | Some entry =>
              match mailbox_decodePayload codecs (Some ctx) (Some entry) (m_Payload m) with
              | None => Panic
              | Some (inr decodeFailure) => Finish decodeFailure
              | Some (inl p) => Call entry ctx p
              end
          end
      end
  end.

(** What the deferred recover and the nil check make of the method's outcome. *)
(** src/net/actor/actor.go:157-178, Actor.invokeTyped *)
Definition invokeTyped_result (outcome : option (option InvokeResult)) : InvokeResult :=
  match outcome with
  | None => ErrorResult STATUS_INTERNAL "actor method panic"
  | Some None => ErrorResult STATUS_INTERNAL "actor method returned nil result"
  | Some (Some r) => r
  end.

(** The result the message gets when its method runs to its end at once. *)
(** src/net/actor/actor.go:135-178, Actor.invokeTyped *)
Definition invokeTyped (codecs : option Registry) (now : Z) (cancelled : bool) (m : Message)
    (mail : mailbox) : option InvokeResult :=
  match invokeTyped_start codecs now cancelled m mail with
  | Finish r => Some r
  | Call e ctx p => Some (invokeTyped_result (me_invoke e (Some ctx) p))
  | Panic => None
  end.
