(* ===== verification/ActorSystem.v ===== *)
(** The actor system (net/actor/system.go, and the parts of actor.go, actor_child.go
    that reach other actors): lookup, creation, the contexts of calls and
    notifications, local, child and remote routing, events.

    Actors are objects in a heap indexed by number. A definition is the code run to
    its end without interference; a result of [None] is a Go panic. A call that has to
    wait for an actor returns [Waiting] with the number of its message: the caller then
    blocks on the result channel and on the context. [sys_results], [sys_recycled] and
    [sys_cancelled] record the results sent, messages recycled and cancel functions
    called. *)
From S2P Require Import Prelude Strconv Facade Context Queue Serializer Method Actor.

(** src/net/proto/cluster_message.proto:16-33, ClusterMessage *)
Record ClusterMessage := mkClusterMessage {
  cm_MessageId : Z; cm_MsgType : MsgType; cm_RequestId : Z; cm_MethodId : Z;
  cm_DeadlineUnixMs : Z; cm_TargetPath : str; cm_Session : option Session;
  cm_Metadata : gomap str bytes; cm_Codec : Z; cm_Payload : bytes;
  cm_Code : Z; cm_Message : str }.

(** src/facade/cluster.go:37-43, ICluster *)
Record ICluster := mkICluster {
  cl_Publish : str -> ClusterMessage -> res unit;
  cl_Request : str -> ClusterMessage -> Z -> res ClusterMessage }.

(** What the system uses of the application. *)
Record App := mkApp { app_NodeID : str; app_BodyCodecs : option Registry; app_Cluster : option ICluster }.

(** src/net/actor/system.go:17-29, System *)
Record System := mkSystem {
  sys_app : option App;
  sys_methods : option Table;
  sys_actors : gmap nat Actor;
  sys_nextActor : nat;
  sys_actorMap : gmap str nat;
  sys_eventMap : gmap str (gmap str (option Z));
  sys_wg : Z;
  sys_callTimeout : Z;
  sys_messageSeq : Z;
  sys_executionTimeout : Z;
  sys_nextMsg : nat;
  sys_results : list (Z * InvokeResult);
  sys_recycled : list nat;
  sys_cancelled : list Z }.

(** src/net/actor/system.go:31-42, NewSystem *)
Definition NewSystem : System :=
  mkSystem None None ∅ 0 ∅ ∅ 0 3000000000 0 100 0 [] [] [].

Definition with_actors (h : gmap nat Actor) (s : System) : System :=
  mkSystem (sys_app s) (sys_methods s) h (sys_nextActor s) (sys_actorMap s) (sys_eventMap s) (sys_wg s)
    (sys_callTimeout s) (sys_messageSeq s) (sys_executionTimeout s) (sys_nextMsg s) (sys_results s)
    (sys_recycled s) (sys_cancelled s).
Definition with_methods (t : option Table) (s : System) : System :=
  mkSystem (sys_app s) t (sys_actors s) (sys_nextActor s) (sys_actorMap s) (sys_eventMap s) (sys_wg s)
    (sys_callTimeout s) (sys_messageSeq s) (sys_executionTimeout s) (sys_nextMsg s) (sys_results s)
    (sys_recycled s) (sys_cancelled s).
Definition with_actorMap (m : gmap str nat) (s : System) : System :=
  mkSystem (sys_app s) (sys_methods s) (sys_actors s) (sys_nextActor s) m (sys_eventMap s) (sys_wg s)
    (sys_callTimeout s) (sys_messageSeq s) (sys_executionTimeout s) (sys_nextMsg s) (sys_results s)
    (sys_recycled s) (sys_cancelled s).
Definition with_eventMap (m : gmap str (gmap str (option Z))) (s : System) : System :=
  mkSystem (sys_app s) (sys_methods s) (sys_actors s) (sys_nextActor s) (sys_actorMap s) m (sys_wg s)
    (sys_callTimeout s) (sys_messageSeq s) (sys_executionTimeout s) (sys_nextMsg s) (sys_results s)
    (sys_recycled s) (sys_cancelled s).
Definition with_wg (n : Z) (s : System) : System :=
  mkSystem (sys_app s) (sys_methods s) (sys_actors s) (sys_nextActor s) (sys_actorMap s) (sys_eventMap s) n
    (sys_callTimeout s) (sys_messageSeq s) (sys_executionTimeout s) (sys_nextMsg s) (sys_results s)
    (sys_recycled s) (sys_cancelled s).
Definition with_timeouts (call exec : Z) (s : System) : System :=
  mkSystem (sys_app s) (sys_methods s) (sys_actors s) (sys_nextActor s) (sys_actorMap s) (sys_eventMap s)
    (sys_wg s) call (sys_messageSeq s) exec (sys_nextMsg s) (sys_results s) (sys_recycled s) (sys_cancelled s).
Definition with_messageSeq (n : Z) (s : System) : System :=
  mkSystem (sys_app s) (sys_methods s) (sys_actors s) (sys_nextActor s) (sys_actorMap s) (sys_eventMap s)
    (sys_wg s) (sys_callTimeout s) n (sys_executionTimeout s) (sys_nextMsg s) (sys_results s)
    (sys_recycled s) (sys_cancelled s).
(** A new message number. *)
Definition bump_msg (s : System) : System :=
  mkSystem (sys_app s) (sys_methods s) (sys_actors s) (sys_nextActor s) (sys_actorMap s) (sys_eventMap s)
    (sys_wg s) (sys_callTimeout s) (sys_messageSeq s) (sys_executionTimeout s) (S (sys_nextMsg s))
    (sys_results s) (sys_recycled s) (sys_cancelled s).
(** A new actor object. *)
Definition alloc_actor (a : Actor) (s : System) : System :=
  mkSystem (sys_app s) (sys_methods s) (<[sys_nextActor s := a]> (sys_actors s)) (S (sys_nextActor s))
    (sys_actorMap s) (sys_eventMap s) (sys_wg s) (sys_callTimeout s) (sys_messageSeq s)
    (sys_executionTimeout s) (sys_nextMsg s) (sys_results s) (sys_recycled s) (sys_cancelled s).
Definition set_actor (aid : nat) (a : Actor) (s : System) : System := with_actors (<[aid := a]> (sys_actors s)) s.

(** [Recycle], with its cancel call. *)
Definition sys_Recycle (id : nat) (m : Message) (s : System) : System :=
  mkSystem (sys_app s) (sys_methods s) (sys_actors s) (sys_nextActor s) (sys_actorMap s) (sys_eventMap s)
    (sys_wg s) (sys_callTimeout s) (sys_messageSeq s) (sys_executionTimeout s) (sys_nextMsg s)
    (sys_results s) (id :: sys_recycled s)
    (match (Message_Recycle m).2 with Some c => c :: sys_cancelled s | None => sys_cancelled s end).
Definition send_result (ch : Z) (r : InvokeResult) (s : System) : System :=
  mkSystem (sys_app s) (sys_methods s) (sys_actors s) (sys_nextActor s) (sys_actorMap s) (sys_eventMap s)
    (sys_wg s) (sys_callTimeout s) (sys_messageSeq s) (sys_executionTimeout s) (sys_nextMsg s)
    ((ch, r) :: sys_results s) (sys_recycled s) (sys_cancelled s).

(** src/net/actor/system.go:44-47, System.SetApp *)
Definition System_SetApp (app : App) (methods : option Table) (s : System) : System :=
  mkSystem (Some app) methods (sys_actors s) (sys_nextActor s) (sys_actorMap s) (sys_eventMap s)
    (sys_wg s) (sys_callTimeout s) (sys_messageSeq s) (sys_executionTimeout s) (sys_nextMsg s)
    (sys_results s) (sys_recycled s) (sys_cancelled s).

(** src/net/actor/system.go:49-56, System.NodeID *)
Definition System_NodeID (s : System) : str :=
  match sys_app s with None => EmptyString | Some a => app_NodeID a end.

(** src/net/actor/system.go:521-524, System.SetCallTimeout *)
Definition System_SetCallTimeout (d : Z) (s : System) : System :=
  with_timeouts d (sys_executionTimeout s) s.

(** src/net/actor/system.go:526-531, System.SetExecutionTimeout *)
Definition System_SetExecutionTimeout (t : Z) (s : System) : System :=
  if 1 <? t then with_timeouts (sys_callTimeout s) t s else s.

(** ** Lookup *)

(** src/net/actor/system.go:77-91, System.GetActor *)
Definition System_GetActor (id : str) (s : System) : option nat := sys_actorMap s !! id.

(** src/net/actor/actor_child.go:62-74, actorChild.GetActor *)
Definition actorChild_GetActor (childID : str) (a : Actor) : option nat := ac_children a !! childID.

(** src/net/actor/system.go:93-101, System.GetChildActor *)
Definition System_GetChildActor (actorID childID : str) (s : System) : option nat :=
  match System_GetActor actorID s with
  | None => None
  | Some parent => sys_actors s !! parent ≫= actorChild_GetActor childID
  end.

(** src/net/actor/system.go:103-116, System.GetActorWithPath *)
Definition System_GetActorWithPath (path : str) (s : System) : option nat :=
  match ToActorPath path with
  | Err _ => None
  | Ok actorPath =>
      if ActorPath_IsChild (Some actorPath)
      then System_GetChildActor (ActorID actorPath) (ChildID actorPath) s
      else System_GetActor (ActorID actorPath) s
  end.

(** src/net/actor/system.go:118-120, System.removeActor *)
Definition System_removeActor (actorID : str) (s : System) : System :=
  with_actorMap (delete actorID (sys_actorMap s)) s.

(** ** Creation *)

Inductive create_check := CreateErr (e : str) | Existing (aid : nat) | MustCreate.

(** src/net/actor/system.go:122-130, System.CreateActor *)
Definition CreateActor_check (id : str) (s : System) : create_check :=
  if is_blank id then CreateErr ErrActorIDIsNil
  else match System_GetActor id s with Some aid => Existing aid | None => MustCreate end.

(** src/net/actor/system.go:132-139, System.CreateActor *)
Definition CreateActor_store (id : str) (now : Z) (s : System) : res (System * nat) :=
  match newActor (System_NodeID s) id EmptyString now with
  | Err e => Err e
  | Ok thisActor =>
      let aid := sys_nextActor s in
      let s := alloc_actor thisActor s in
      let s := with_actorMap (<[id := aid]> (sys_actorMap s)) s in
      Ok (with_wg (sys_wg s + 1) s, aid)
  end.

(** The actor to return at once, or the one whose [initDone] the caller waits on. *)
(** src/net/actor/system.go:122-147, System.CreateActor *)
Definition System_CreateActor (id : str) (now : Z) (s : System) : System * (res nat + nat) :=
  match CreateActor_check id s with
  | CreateErr e => (s, inl (Err e))
  | Existing aid => (s, inl (Ok aid))
  | MustCreate =>
      match CreateActor_store id now s with
      | Err e => (s, inl (Err e))
      | Ok (s', aid) => (s', inr aid)
      end
  end.

(** [None]: the manager's owner is gone ([thisActor] is nil). *)
(** src/net/actor/actor_child.go:33-45, actorChild.Create *)
Definition Create_check (parent : Actor) (childID : str) : option create_check :=
  if negb (ac_childOwner parent) then None else Some
  (if ActorPath_IsChild (Some (ac_path parent)) then CreateErr ErrForbiddenCreateChildActor
   else if is_blank childID then CreateErr ErrActorIDIsNil
   else match actorChild_GetActor childID parent with Some aid => Existing aid | None => MustCreate end).

(** src/net/actor/actor_child.go:47-54, actorChild.Create *)
Definition Create_store (parent : nat) (childID : str) (now : Z) (s : System) : res (System * nat) :=
  match sys_actors s !! parent with
  | None => Err "no such actor"
  | Some p =>
      match newActor (System_NodeID s) (Actor_ActorID p) childID now with
      | Err e => Err e
      | Ok childActor =>
          let aid := sys_nextActor s in
          let s := set_actor parent (set_children (<[childID := aid]> (ac_children p)) p) s in
          let s := alloc_actor childActor s in
          Ok (with_wg (sys_wg s + 1) s, aid)
      end
  end.

(** ** Contexts *)

(** [None]: the default codec of a missing application or registry is asked for. *)
(** src/net/actor/system.go:367-379, ensureRequestContext *)
Definition ensureRequestContext (app : option App) (ctx : option RequestContext) : option RequestContext :=
  let ctx := match ctx with None => NewRequestContext (Some Background) | Some c => c end in
  let context := match rc_Context ctx with None => Some Background | c => c end in
  if rc_Codec ctx =? 0 then
    match app ≫= app_BodyCodecs with
    | Some codecs => Some (mkRequestContext context (rc_RequestID ctx) (rc_Transport ctx)
                             (Registry_Default codecs) (rc_Session ctx) (rc_Metadata ctx))
    | None => None
    end
  else Some (mkRequestContext context (rc_RequestID ctx) (rc_Transport ctx) (rc_Codec ctx)
               (rc_Session ctx) (rc_Metadata ctx)).

(** [source.Err()] of an ensured context, at [now], [cancelled] by its owner or not. *)
Definition rc_Err (now : Z) (cancelled : bool) (c : RequestContext) : option ctx_err :=
  match rc_Context c with Some g => ctx_Err now cancelled g | None => None end.
Definition rc_gctx (c : RequestContext) : gctx := default Background (rc_Context c).

(** src/net/actor/system.go:381-394, System.newInvokeContext *)
Definition System_newInvokeContext (now : Z) (cancelled : bool) (source : option RequestContext) (s : System)
  : option (RequestContext + InvokeResult) :=
  match ensureRequestContext (sys_app s) source with
  | None => None
  | Some source =>
      match rc_Err now cancelled source with
      | Some err => Some (inr (contextFailure err "actor invoke"))
      | None =>
          match c_deadline (rc_gctx source) with
          | Some _ => Some (inl (RequestContext_Clone (Some source) (Some (WithCancel (rc_gctx source)))))
          | None => Some (inl (RequestContext_Clone (Some source)
                      (Some (WithTimeout now (rc_gctx source) (sys_callTimeout s)))))
          end
      end
  end.

(** src/net/actor/system.go:396-410, System.newNotifyContext *)
Definition System_newNotifyContext (now : Z) (cancelled : bool) (source : option RequestContext) (s : System)
  : option (RequestContext + InvokeResult) :=
  match ensureRequestContext (sys_app s) source with
  | None => None
  | Some source =>
      match rc_Err now cancelled source with
      | Some err => Some (inr (contextFailure err "actor notify"))
      | None =>
          let parent := WithoutCancel (rc_gctx source) in
          match c_deadline (rc_gctx source) with
          | Some deadline => Some (inl (RequestContext_Clone (Some source) (Some (WithDeadline now parent deadline))))
          | None => Some (inl (RequestContext_Clone (Some source)
                      (Some (WithTimeout now parent (sys_callTimeout s)))))
          end
      end
  end.

(** ** Targets *)

(** src/net/actor/system.go:267-279, System.methodTarget *)
Definition System_methodTarget (methodID : Z) (s : System) : str + InvokeResult :=
  if methodID =? 0 then inr (ErrorResult STATUS_INVALID_ARGUMENT "method id is required") else
  match sys_app s, sys_methods s with
  | Some _, Some methods =>
      match Table_Target methodID (Some methods) with
      | None => inr (ErrorResult STATUS_NOT_FOUND "top-level actor method not found")
      | Some target => inl target
      end
  | _, _ => inr (ErrorResult STATUS_UNAVAILABLE "method table is not initialized")
  end.

(** src/net/actor/system.go:281-290, System.prepareTyped *)
Definition System_prepareTyped (target : str) (methodID : Z) : ActorPath + InvokeResult :=
  if methodID =? 0 then inr (ErrorResult STATUS_INVALID_ARGUMENT "method id is required") else
  match ToActorPath target with
  | Err _ => inr (ErrorResult STATUS_INVALID_ARGUMENT "invalid actor target")
  | Ok targetPath => inl targetPath
  end.

(** ** Remote calls *)

(** src/net/actor/system.go:427-437, cloneBytesMap *)
Definition cloneBytesMap (source : gomap str bytes) : gomap str bytes :=
  if gomap_len source =? 0 then None
  else match source with
       | Some m => Some (copy_entries (map_to_list m))
       | None => None
       end.

(** [Time.UnixMilli] of an instant in nanoseconds. *)
Definition UnixMilli (ns : Z) : Z := ns / 1000000.

(** src/net/actor/system.go:340-357, System.buildClusterMessage *)
Definition System_buildClusterMessage (ctx : RequestContext) (target : str) (methodID : Z) (msgType : MsgType)
    (body : bytes) (s : System) : System * ClusterMessage :=
  let seq := u64 (sys_messageSeq s + 1) in
  (with_messageSeq seq s,
   mkClusterMessage seq msgType (rc_RequestID ctx) methodID
     (match c_deadline (rc_gctx ctx) with Some d => UnixMilli d | None => 0 end) target
     (match rc_Session ctx with
      | Some x => Some (mkSession (s_Sid x) (s_Uid x) (s_Ip x) (maps_Clone (s_Data x)))
      | None => None
      end)
     (cloneBytesMap (rc_Metadata ctx)) (rc_Codec ctx) body 0 EmptyString).

(** src/net/actor/system.go:359-365, encodeClusterPayload *)
Definition encodeClusterPayload (codecs : option Registry) (ctx : RequestContext) (p : payload)
  : option (res bytes) :=
  match p with
  | PBytes body => Some (Ok body)
  | _ => match codecs with
         | Some codecs => Some (Registry_Marshal codecs (rc_Codec ctx) p)
         | None => None
         end
  end.

(** [now1] is the clock when the timeout is computed; [cancelled2] and [now2] the state
    of the context once the request has failed. *)
(** src/net/actor/system.go:292-319, System.invokeRemote *)
Definition System_invokeRemote (now : Z) (cancelled : bool) (now1 now2 : Z) (cancelled2 : bool)
    (ctx : RequestContext) (target nodeID : str) (methodID : Z) (p : payload) (s : System)
  : option (System * InvokeResult) :=
  match sys_app s with
  | None => None
  | Some app =>
      match app_Cluster app with
      | None => Some (s, ErrorResult STATUS_UNAVAILABLE "cluster is not configured")
      | Some cluster =>
          match System_newInvokeContext now cancelled (Some ctx) s with
          | None => None
          | Some (inr failure) => Some (s, failure)
          | Some (inl ctx) =>
              match encodeClusterPayload (app_BodyCodecs app) ctx p with
              | None => None
              | Some (Err _) => Some (s, ErrorResult STATUS_INTERNAL "cluster request body encode failed")
              | Some (Ok body) =>
                  let '(s, message) := System_buildClusterMessage ctx target methodID REQUEST body s in
                  let timeout := default 0 (c_deadline (rc_gctx ctx)) - now1 in
                  if timeout <=? 0
                  then Some (s, ErrorResult STATUS_DEADLINE_EXCEEDED "cluster request deadline exceeded")
                  else match cl_Request cluster nodeID message timeout with
                  | Err e =>
                      match rc_Err now2 cancelled2 ctx with
                      | Some err => Some (s, contextFailure err "cluster request")
                      | None => Some (s, ErrorResult STATUS_UNAVAILABLE e)
                      end
                  | Ok response => Some (s, mkInvokeResult (PBytes (cm_Payload response))
                                              (cm_Code response) (cm_Message response))
                  end
              end
          end
      end
  end.

(** src/net/actor/system.go:321-338, System.notifyRemote *)
Definition System_notifyRemote (now : Z) (cancelled : bool) (ctx : RequestContext) (target nodeID : str)
    (methodID : Z) (p : payload) (s : System) : option (System * InvokeResult) :=
  match sys_app s with
  | None => None
  | Some app =>
      match app_Cluster app with
      | None => Some (s, ErrorResult STATUS_UNAVAILABLE "cluster is not configured")
      | Some cluster =>
          match System_newNotifyContext now cancelled (Some ctx) s with
          | None => None
          | Some (inr failure) => Some (s, failure)
          | Some (inl ctx) =>
              match encodeClusterPayload (app_BodyCodecs app) ctx p with
              | None => None
              | Some (Err _) => Some (s, ErrorResult STATUS_INTERNAL "cluster notify body encode failed")
              | Some (Ok body) =>
                  let '(s, message) := System_buildClusterMessage ctx target methodID NOTIFY body s in
                  match cl_Publish cluster nodeID message with
                  | Err e => Some (s, ErrorResult STATUS_UNAVAILABLE e)
                  | Ok _ => Some (s, OKResult PNil)
                  end
              end
          end
      end
  end.

(** ** Local delivery *)

(** A call whose caller waits for the result of message [id] under [ctx], or one that
    has returned. *)
Inductive outcome := Returned (r : InvokeResult) | Waiting (id : nat) (ctx : RequestContext).

(** The message of a new call: all four fields set, nothing else ([typedMessage_fresh]). *)
Definition new_message (ctx : RequestContext) (target : str) (methodID : Z) (p : payload) (s : System)
  : System * nat * Message :=
  (bump_msg s, sys_nextMsg s, (typedMessage [] None (Some ctx) target methodID p).1).

Definition set_chan (ch : Z) (m : Message) : Message :=
  mkMessage (m_MethodID m) (m_Target m) (m_targetPath m) (m_Context m) (m_Payload m) (Some ch) (m_Cancel m).
Definition set_cancel (c : Z) (m : Message) : Message :=
  mkMessage (m_MethodID m) (m_Target m) (m_targetPath m) (m_Context m) (m_Payload m) (m_Chan m) (Some c).

(** The state check of [post], and the actor the message goes to. *)
(** src/net/actor/system.go:439-462, System.post *)
Definition System_post_check (m : Message) (s : System) : option nat :=
  match (Message_TargetPath m).1 with
  | None => None
  | Some targetPath =>
      match System_GetActor (ActorID targetPath) s with
      | None => None
      | Some aid =>
          match sys_actors s !! aid with
          | None => None
          | Some targetActor =>
              match ac_state targetActor with
              | InitState | WorkerState => Some aid
              | StopState => None
              end
          end
      end
  end.

(** [targetActor.post(m)]; [None] is the panic on a destroyed queue. *)
Definition push_to (aid id : nat) (m : Message) (s : System) : option System :=
  match sys_actors s !! aid with
  | None => None
  | Some a => match Actor_post (id, m) a with Some a' => Some (set_actor aid a' s) | None => None end
  end.

(** Its first step: the message has its place in the mailbox. *)
(** src/net/actor/system.go:455-458, System.post *)
Definition swap_to (aid id : nat) (m : Message) (s : System) : option System :=
  match sys_actors s !! aid with
  | None => None
  | Some a => match Actor_post_swap (id, m) a with Some a' => Some (set_actor aid a' s) | None => None end
  end.

(** src/net/actor/system.go:439-462, System.post *)
Definition System_post (id : nat) (m : Message) (s : System) : option (System * bool) :=
  match System_post_check m s with
  | None => Some (s, false)
  | Some aid => match push_to aid id m s with Some s' => Some (s', true) | None => None end
  end.

(** [answer] is what [OnFindChild] returns. [None] is the panic on an unparseable
    target; [Some None] is not found. *)
(** src/net/actor/actor.go:208-231, Actor.findChildActor *)
Definition Actor_findChildActor (a : Actor) (m : Message) (answer : option nat) : option (option nat) :=
  if ActorPath_IsChild (Some (ac_path a)) then Some None
  else match (Message_TargetPath m).1 with
       | None => None
       | Some targetPath =>
           match actorChild_GetActor (ChildID targetPath) a with
           | Some childActor => Some (Some childActor)
           | None => Some answer
           end
       end.

(** src/net/actor/actor.go:233-266, Actor.InvokeChild *)
Definition Actor_InvokeChild (aid : nat) (now : Z) (cancelled : bool) (ctx : option RequestContext)
    (childID : str) (methodID : Z) (p : payload) (answer : option nat) (s : System)
  : option (System * outcome) :=
  if methodID =? 0 then Some (s, Returned (ErrorResult STATUS_INVALID_ARGUMENT "method id is required")) else
  if String.eqb childID EmptyString
  then Some (s, Returned (ErrorResult STATUS_INVALID_ARGUMENT "child id is required")) else
  match sys_actors s !! aid, ensureRequestContext (sys_app s) ctx with
  | Some a, Some ctx =>
      let target := NewChildPath (AStr (NodeID (ac_path a))) (AStr (ActorID (ac_path a))) (AStr childID) in
      match System_newInvokeContext now cancelled (Some ctx) s with
      | None => None
      | Some (inr failure) => Some (s, Returned failure)
      | Some (inl invokeCtx) =>
          let '(s, id, message) := new_message invokeCtx target methodID p s in
          match Actor_findChildActor a message answer with
          | None => None
          | Some None =>
              Some (sys_Recycle id message s, Returned (ErrorResult STATUS_NOT_FOUND "child actor not found"))
          | Some (Some child) =>
              match push_to child id (set_chan (Z.of_nat id) message) s with
              | None => None
              | Some s => Some (s, Waiting id invokeCtx)
              end
          end
      end
  | _, _ => None
  end.

(** src/net/actor/actor.go:268-291, Actor.NotifyChild *)
Definition Actor_NotifyChild (aid : nat) (now : Z) (cancelled : bool) (ctx : option RequestContext)
    (childID : str) (methodID : Z) (p : payload) (answer : option nat) (s : System)
  : option (System * InvokeResult) :=
  if methodID =? 0 then Some (s, ErrorResult STATUS_INVALID_ARGUMENT "method id is required") else
  if String.eqb childID EmptyString
  then Some (s, ErrorResult STATUS_INVALID_ARGUMENT "child id is required") else
  match sys_actors s !! aid, ensureRequestContext (sys_app s) ctx with
  | Some a, Some ctx =>
      let target := NewChildPath (AStr (NodeID (ac_path a))) (AStr (ActorID (ac_path a))) (AStr childID) in
      match System_newNotifyContext now cancelled (Some ctx) s with
      | None => None
      | Some (inr failure) => Some (s, failure)
      | Some (inl notifyCtx) =>
          let '(s, id, message) := new_message notifyCtx target methodID p s in
          let message := set_cancel (Z.of_nat id) message in
          match Actor_findChildActor a message answer with
          | None => None
          | Some None =>
              Some (sys_Recycle id message s, ErrorResult STATUS_NOT_FOUND "child actor not found")
          | Some (Some child) =>
              match push_to child id message s with
              | None => None
              | Some s => Some (s, OKResult PNil)
              end
          end
      end
  | _, _ => None
  end.

(** What the environment answers during a call: the clock and the caller's context now,
    the clock and that context later (remote calls), and [OnFindChild]'s answer. *)
Record callenv := mkCallenv {
  ce_now : Z; ce_cancelled : bool; ce_now1 : Z; ce_now2 : Z; ce_cancelled2 : bool; ce_answer : option nat }.

(** src/net/actor/system.go:171-212, System.InvokeTarget *)
Definition System_InvokeTarget (v : callenv) (ctx : option RequestContext) (target : str) (methodID : Z)
    (p : payload) (s : System) : option (System * outcome) :=
  match System_prepareTyped target methodID with
  | inr failure => Some (s, Returned failure)
  | inl targetPath =>
      match ensureRequestContext (sys_app s) ctx with
      | None => None
      | Some ctx =>
          if negb (String.eqb (NodeID targetPath) EmptyString)
             && negb (String.eqb (NodeID targetPath) (System_NodeID s))
          then match System_invokeRemote (ce_now v) (ce_cancelled v) (ce_now1 v) (ce_now2 v) (ce_cancelled2 v)
                       ctx target (NodeID targetPath) methodID p s with
               | Some (s, r) => Some (s, Returned r)
               | None => None
               end
          else if ActorPath_IsChild (Some targetPath) then
            match System_GetActor (ActorID targetPath) s with
            | None => Some (s, Returned (ErrorResult STATUS_NOT_FOUND "actor not found"))
            | Some parent => Actor_InvokeChild parent (ce_now v) (ce_cancelled v) (Some ctx)
                               (ChildID targetPath) methodID p (ce_answer v) s
            end
          else
            match System_newInvokeContext (ce_now v) (ce_cancelled v) (Some ctx) s with
            | None => None
            | Some (inr failure) => Some (s, Returned failure)
            | Some (inl invokeCtx) =>
                let '(s, id, message) := new_message invokeCtx target methodID p s in
                let message := set_chan (Z.of_nat id) message in
                match System_post id message s with
                | None => None
                | Some (s, false) =>
                    Some (sys_Recycle id message s, Returned (ErrorResult STATUS_NOT_FOUND "actor not found"))
                | Some (s, true) => Some (s, Waiting id invokeCtx)
                end
            end
      end
  end.

(** src/net/actor/system.go:236-265, System.NotifyTarget *)
Definition System_NotifyTarget (v : callenv) (ctx : option RequestContext) (target : str) (methodID : Z)
    (p : payload) (s : System) : option (System * InvokeResult) :=
  match System_prepareTyped target methodID with
  | inr failure => Some (s, failure)
  | inl targetPath =>
      match ensureRequestContext (sys_app s) ctx with
      | None => None
      | Some ctx =>
          if negb (String.eqb (NodeID targetPath) EmptyString)
             && negb (String.eqb (NodeID targetPath) (System_NodeID s))
          then System_notifyRemote (ce_now v) (ce_cancelled v) ctx target (NodeID targetPath) methodID p s
          else if ActorPath_IsChild (Some targetPath) then
            match System_GetActor (ActorID targetPath) s with
            | None => Some (s, ErrorResult STATUS_NOT_FOUND "actor not found")
            | Some parent => Actor_NotifyChild parent (ce_now v) (ce_cancelled v) (Some ctx)
                               (ChildID targetPath) methodID p (ce_answer v) s
            end
          else
            match System_newNotifyContext (ce_now v) (ce_cancelled v) (Some ctx) s with
            | None => None
            | Some (inr failure) => Some (s, failure)
            | Some (inl notifyCtx) =>
                let '(s, id, message) := new_message notifyCtx target methodID p s in
                let message := set_cancel (Z.of_nat id) message in
                match System_post id message s with
                | None => None
                | Some (s, false) =>
                    Some (sys_Recycle id message s, ErrorResult STATUS_NOT_FOUND "actor not found")
                | Some (s, true) => Some (s, OKResult PNil)
                end
            end
      end
  end.

(** src/net/actor/system.go:149-156, System.Invoke *)
Definition System_Invoke (v : callenv) (ctx : option RequestContext) (methodID : Z) (p : payload) (s : System)
  : option (System * outcome) :=
  match System_methodTarget methodID s with
  | inr failure => Some (s, Returned failure)
  | inl target => System_InvokeTarget v ctx target methodID p s
  end.

(** src/net/actor/system.go:214-222, System.Notify *)
Definition System_Notify (v : callenv) (ctx : option RequestContext) (methodID : Z) (p : payload) (s : System)
  : option (System * InvokeResult) :=
  match System_methodTarget methodID s with
  | inr failure => Some (s, failure)
  | inl target => System_NotifyTarget v ctx target methodID p s
  end.

(** src/net/actor/system.go:158-169, System.InvokeNode *)
Definition System_InvokeNode (v : callenv) (ctx : option RequestContext) (nodeID : str) (methodID : Z)
    (p : payload) (s : System) : option (System * outcome) :=
  if methodID =? 0 then Some (s, Returned (ErrorResult STATUS_INVALID_ARGUMENT "method id is required")) else
  if String.eqb nodeID EmptyString || String.eqb nodeID (System_NodeID s)
  then System_Invoke v ctx methodID p s
  else match ensureRequestContext (sys_app s) ctx with
       | None => None
       | Some ctx =>
           match System_invokeRemote (ce_now v) (ce_cancelled v) (ce_now1 v) (ce_now2 v) (ce_cancelled2 v)
                   ctx EmptyString nodeID methodID p s with
           | Some (s, r) => Some (s, Returned r)
           | None => None
           end
       end.

(** src/net/actor/system.go:224-234, System.NotifyNode *)
Definition System_NotifyNode (v : callenv) (ctx : option RequestContext) (nodeID : str) (methodID : Z)
    (p : payload) (s : System) : option (System * InvokeResult) :=
  if methodID =? 0 then Some (s, ErrorResult STATUS_INVALID_ARGUMENT "method id is required") else
  if String.eqb nodeID EmptyString || String.eqb nodeID (System_NodeID s)
  then System_Notify v ctx methodID p s
  else match ensureRequestContext (sys_app s) ctx with
       | None => None
       | Some ctx => System_notifyRemote (ce_now v) (ce_cancelled v) ctx EmptyString nodeID methodID p s
       end.

(** src/net/actor/actor.go:355-365, Actor.Invoke *)
Definition Actor_Invoke (aid : nat) (v : callenv) (ctx : option RequestContext) (methodID : Z) (p : payload)
    (s : System) : option (System * outcome) :=
  match System_methodTarget methodID s, sys_actors s !! aid with
  | inr failure, _ => Some (s, Returned failure)
  | inl target, Some a =>
      if String.eqb target (Actor_PathString a)
      then Some (s, Returned (ErrorResult STATUS_FAILED_PRECONDITION "actor cannot synchronously invoke itself"))
      else System_InvokeTarget v ctx target methodID p s
  | inl _, None => None
  end.

(** src/net/actor/actor.go:367-370, Actor.Notify *)
Definition Actor_Notify (v : callenv) (ctx : option RequestContext) (methodID : Z) (p : payload) (s : System)
  : option (System * InvokeResult) := System_Notify v ctx methodID p s.

(** The select at the end of a waiting call: the result if it was sent, the context's
    failure if it is done; with both ready either may be taken. [None] keeps waiting. *)
(** src/net/actor/system.go:206-211, System.InvokeTarget *)
Definition await_result (id : nat) (ctx : RequestContext) (now : Z) (cancelled : bool) (prefer_result : bool)
    (s : System) : option InvokeResult :=
  let sent := snd <$> list_find (fun kv => kv.1 = Z.of_nat id) (sys_results s) in
  match sent, rc_Err now cancelled ctx with
  | Some r, None => Some r.2
  | None, Some err => Some (contextFailure err "actor invoke")
  | Some r, Some err => Some (if prefer_result then r.2 else contextFailure err "actor invoke")
  | None, None => None
  end.

(** ** Events *)

(** src/net/actor/system.go:533-543, System.addActorEvent *)
Definition System_addActorEvent (actorPath eventName : str) (uniqueID : list Z) (s : System) : System :=
  let eventMap := default ∅ (sys_eventMap s !! eventName) in
  let value := match uniqueID with u :: _ => Some u | [] => None end in
  with_eventMap (<[eventName := <[actorPath := value]> eventMap]> (sys_eventMap s)) s.

(** src/net/actor/system.go:545-556, System.removeActorEvent *)
Definition System_removeActorEvent (actorPath : str) (eventNames : list str) (s : System) : System :=
  with_eventMap
    (foldl (fun em eventName =>
       match em !! eventName with
       | None => em
       | Some m => <[eventName := delete actorPath m]> em
       end) (sys_eventMap s) eventNames) s.

(** One subscriber of the [Range] in [PostEvent]; [epush] is the push into its event
    queue, whole ([actorEvent_Push]) or its first step ([actorEvent_swap]). *)
(** src/net/actor/system.go:487-518, System.PostEvent *)
Definition PostEvent_one (epush : EventData -> actorEvent -> option actorEvent) (data : EventData) (path : str) (value : option Z) (s : System) : option System :=
  match System_GetActorWithPath path s with
  | None => Some s
  | Some aid =>
      match sys_actors s !! aid with
      | None => Some s
      | Some targetActor =>
          let push :=
            if bool_decide (ac_state targetActor = WorkerState) then
              match epush data (ac_event targetActor) with
              | Some e => Some (set_actor aid (set_event e targetActor) s)
              | None => None
              end
            else Some s in
          match value with
          | None => push
          | Some uniqueID => if uniqueID =? ev_UniqueID data then push else Some s
          end
      end
  end.

Fixpoint PostEvent_range (epush : EventData -> actorEvent -> option actorEvent) (data : EventData) (l : list (str * option Z)) (s : System) : option System :=
  match l with
  | [] => Some s
  | (path, value) :: l' =>
      match PostEvent_one epush data path value s with
      | Some s' => PostEvent_range epush data l' s'
      | None => None
      end
  end.

(** src/net/actor/system.go:464-519, System.PostEvent *)
Definition System_PostEvent (epush : EventData -> actorEvent -> option actorEvent) (data : option EventData) (s : System) : option System :=
  match data with
  | None => Some s
  | Some data =>
      if str_len (ev_Name data) <? 1 then Some s
      else match sys_eventMap s !! ev_Name data with
           | None => Some s
           | Some actorIDSMap => PostEvent_range epush data (map_to_list actorIDSMap) s
           end
  end.

(** [Event().Register] of actor [aid]. *)
(** src/net/actor/actor_event.go:27-37, actorEvent.Register *)
Definition System_EventRegister (aid : nat) (name : str) (fn : nat) (uniqueID : list Z) (s : System)
  : option System :=
  match sys_actors s !! aid with
  | None => None
  | Some a =>
      let s := System_addActorEvent (Actor_PathString a) name uniqueID s in
      match actorEvent_Register name fn (ac_event a) with
      | Some e => Some (set_actor aid (set_event e a) s)
      | None => None
      end
  end.

(** src/net/actor/actor_event.go:39-43, actorEvent.Registers *)
Fixpoint System_EventRegisters (aid : nat) (names : list str) (fn : nat) (uniqueID : list Z) (s : System)
  : option System :=
  match names with
  | [] => Some s
  | name :: names' =>
      match System_EventRegister aid name fn uniqueID s with
      | Some s' => System_EventRegisters aid names' fn uniqueID s'
      | None => None
      end
  end.

(** src/net/actor/actor_event.go:45-50, actorEvent.Unregister *)
Definition System_EventUnregister (aid : nat) (name : str) (s : System) : option System :=
  match sys_actors s !! aid with
  | None => None
  | Some a =>
      let s := System_removeActorEvent (Actor_PathString a) [name] s in
      Some (set_actor aid (set_event (actorEvent_Unregister name (ac_event a)) a) s)
  end.
