(* ===== verification/Steps.v ===== *)
(** The actor runtime as a state machine: the goroutines of all actors and of their
    callers, interleaved.

    A [world] is the actor system with what is in flight between atomic points of its
    code: messages whose sender has chosen the target but not pushed yet
    ([w_posting]), creations that passed their check ([w_creating],
    [w_childCreating]). [exec] performs one action; [wreach] closes it from any fresh
    system. A push is three of these steps: the message takes its place in the queue
    ([APush], [APostEvent], [ATimerFire], or the turn of the loop that forwards it), its
    goroutine adds it to the counter ([ACounted]) and offers the token ([ASent]; on a
    queue destroyed meanwhile the send panics, which ends the process unless the
    goroutine recovers). Handlers are arbitrary: their outcome, and everything they do through the
    framework meanwhile, are actions of their own.

    Bookkeeping of the proofs: messages lost in a push to a destroyed queue
    ([w_lost]), calls answered directly instead of through their channel
    ([w_rejected]), the numbers of the messages that carry a channel ([w_calls]), the
    business functions run for events and timers ([w_fns]), the methods registered by an
    actor that had begun to stop ([w_late]). *)
From S2P Require Import Prelude Strconv Facade Context Queue Serializer Method Actor ActorSystem.

Record world := mkWorld {
  w_sys : System;
  w_posting : list (nat * (nat * Message));
  w_creating : list str;
  w_childCreating : list (nat * str);
  w_crashed : bool;
  w_lost : list nat;
  w_rejected : list nat;
  w_calls : list nat;
  w_fns : list (nat * nat);
  w_late : list (nat * Z) }.

Definition with_sys (s : System) (w : world) : world :=
  mkWorld s (w_posting w) (w_creating w) (w_childCreating w) (w_crashed w) (w_lost w) (w_rejected w)
    (w_calls w) (w_fns w) (w_late w).
Definition crash (w : world) : world :=
  mkWorld (w_sys w) (w_posting w) (w_creating w) (w_childCreating w) true (w_lost w) (w_rejected w)
    (w_calls w) (w_fns w) (w_late w).
Definition lose (id : nat) (w : world) : world :=
  mkWorld (w_sys w) (w_posting w) (w_creating w) (w_childCreating w) (w_crashed w) (id :: w_lost w)
    (w_rejected w) (w_calls w) (w_fns w) (w_late w).
Definition add_posting (x : nat * (nat * Message)) (w : world) : world :=
  mkWorld (w_sys w) (x :: w_posting w) (w_creating w) (w_childCreating w) (w_crashed w) (w_lost w)
    (w_rejected w) (w_calls w) (w_fns w) (w_late w).
Definition with_posting (l : list (nat * (nat * Message))) (w : world) : world :=
  mkWorld (w_sys w) l (w_creating w) (w_childCreating w) (w_crashed w) (w_lost w)
    (w_rejected w) (w_calls w) (w_fns w) (w_late w).
Definition reject (id : nat) (w : world) : world :=
  mkWorld (w_sys w) (w_posting w) (w_creating w) (w_childCreating w) (w_crashed w) (w_lost w)
    (id :: w_rejected w) (w_calls w) (w_fns w) (w_late w).
Definition add_call (id : nat) (w : world) : world :=
  mkWorld (w_sys w) (w_posting w) (w_creating w) (w_childCreating w) (w_crashed w) (w_lost w)
    (w_rejected w) (id :: w_calls w) (w_fns w) (w_late w).
Definition add_fns (l : list (nat * nat)) (w : world) : world :=
  mkWorld (w_sys w) (w_posting w) (w_creating w) (w_childCreating w) (w_crashed w) (w_lost w)
    (w_rejected w) (w_calls w) (w_fns w ++ l) (w_late w).
Definition with_creating (l : list str) (c : list (nat * str)) (w : world) : world :=
  mkWorld (w_sys w) (w_posting w) l c (w_crashed w) (w_lost w) (w_rejected w) (w_calls w) (w_fns w) (w_late w).
Definition add_late (x : nat * Z) (w : world) : world :=
  mkWorld (w_sys w) (w_posting w) (w_creating w) (w_childCreating w) (w_crashed w) (w_lost w)
    (w_rejected w) (w_calls w) (w_fns w) (x :: w_late w).

(** ** What an actor's goroutine does *)

(** src/net/actor/actor.go:180-187, Actor.finishTyped *)
Definition Actor_finishTyped (id : nat) (m : Message) (r : InvokeResult) (s : System) : System :=
  let s := match m_Chan m with Some ch => send_result ch r s | None => s end in
  sys_Recycle id m s.

(** The message takes its place in [child]'s mailbox, or the goroutine dies in the push.
    (The rest of the push, [ACounted] and [ASent], is left to be scheduled; the actor may
    go on before it, which only adds runs.) *)
(** src/net/actor/actor.go:121-131, Actor.processTyped *)
Definition forward_to (child id : nat) (m : Message) (w : world) : world :=
  match swap_to child id m (w_sys w) with
  | Some s => with_sys s w
  | None => crash (lose id w)
  end.

(** Beginning of the business call of a message, on actor [aid]. *)
(** src/net/actor/actor.go:135-155, Actor.invokeTyped *)
Definition Actor_invokeTyped (aid : nat) (a : Actor) (now : Z) (cancelled : bool) (id : nat) (m : Message)
    (w : world) : world :=
  let s := w_sys w in
  match invokeTyped_start (sys_app s ≫= app_BodyCodecs) now cancelled m (ac_mail a) with
  | Finish r => with_sys (Actor_finishTyped id m r (set_actor aid (set_phase PhLoop a) s)) w
  | Call _ _ _ => with_sys (set_actor aid (set_phase (PhRun id m) a) s) w
  | Panic => crash (lose id (with_sys (set_actor aid (set_phase PhLoop a) s) w))
  end.

(** src/net/actor/actor.go:121-133, Actor.processTyped *)
Definition Actor_processTyped (aid : nat) (a : Actor) (now : Z) (cancelled : bool) (id : nat) (m : Message)
    (w : world) : world :=
  let '(path, m) := Message_TargetPath m in
  if ActorPath_IsChild path && negb (ActorPath_IsChild (Some (ac_path a))) then
    match path ≫= (fun p => actorChild_GetActor (ChildID p) a) with
    | Some child => forward_to child id m (with_sys (set_actor aid (set_phase PhLoop a) (w_sys w)) w)
    | None => with_sys (set_actor aid (set_phase (PhFind id m) a) (w_sys w)) w
    end
  else Actor_invokeTyped aid a now cancelled id m w.

(** The mail case of the loop: the token is received, one message popped. *)
(** src/net/actor/actor.go:108-119, Actor.processMail *)
Definition Actor_processMail (aid : nat) (a : Actor) (now : Z) (cancelled : bool) (w : world) : option world :=
  match aq_recv (mb_queue (ac_mail a)) with
  | None => None
  | Some q =>
      match mailbox_Pop (mkMailbox q (mb_methodMap (ac_mail a))) with
      | None => None
      | Some (None, mail) => Some (with_sys (set_actor aid (set_mail mail a) (w_sys w)) w)
      | Some (Some (id, m), mail) =>
          let a := set_lastAt (now / 1000000000) (set_mail mail a) in
          if m_MethodID m =? 0
          then Some (with_sys (Actor_finishTyped id m
                 (ErrorResult STATUS_INVALID_ARGUMENT "method id is required") (set_actor aid a (w_sys w))) w)
          else Some (Actor_processTyped aid a now cancelled id m w)
      end
  end.

(** src/net/actor/actor.go:189-197, Actor.processEvent *)
Definition Actor_processEvent (aid : nat) (a : Actor) (now : Z) (panics : nat -> bool) (w : world) : option world :=
  match aq_recv (ae_queue (ac_event a)) with
  | None => None
  | Some q =>
      match actorEvent_Pop (mkActorEvent q (ae_funcMap (ac_event a))) with
      | None => None
      | Some (None, e) => Some (with_sys (set_actor aid (set_event e a) (w_sys w)) w)
      | Some (Some data, e) =>
          let a := set_lastAt (now / 1000000000) (set_event e a) in
          Some (add_fns ((fun fn => (aid, fn)) <$> actorEvent_invokeFunc panics data e)
                  (with_sys (set_actor aid a (w_sys w)) w))
      end
  end.

(** src/net/actor/actor.go:199-206, Actor.processTimer *)
Definition Actor_processTimer (aid : nat) (a : Actor) (w : world) : option world :=
  match aq_recv (at_queue (ac_timer a)) with
  | None => None
  | Some q =>
      match actorTimer_Pop (mkActorTimer q (at_timerInfoMap (ac_timer a))) with
      | None => None
      | Some (timerID, t) =>
          if timerID <? 1 then Some (with_sys (set_actor aid (set_timer t a) (w_sys w)) w)
          else let '(fn, t) := actorTimer_invokeFunc timerID t in
               Some (add_fns (match fn with Some f => [(aid, f)] | None => [] end)
                       (with_sys (set_actor aid (set_timer t a) (w_sys w)) w))
      end
  end.

(** The token is received and [Pop] finds the front value's push still short of its link:
    nil, and the turn of the loop ends. *)
(** src/net/actor/queue.go:56-71, queue.Pop *)
Definition aq_nil {A} (q : aqueue A) : option (aqueue A) := if Nat.eqb (aq_pend q) 0 then None else aq_recv q.

(** src/net/actor/actor.go:108-112, Actor.processMail *)
Definition Actor_processNil (aid : nat) (a : Actor) (k : qkind) (w : world) : option world :=
  match k with
  | QMail => (fun q => with_sys (set_actor aid (set_mail (mkMailbox q (mb_methodMap (ac_mail a))) a) (w_sys w)) w)
               <$> aq_nil (mb_queue (ac_mail a))
  | QEvent => (fun q => with_sys (set_actor aid (set_event (mkActorEvent q (ae_funcMap (ac_event a))) a) (w_sys w)) w)
               <$> aq_nil (ae_queue (ac_event a))
  | QTimer => (fun q => with_sys (set_actor aid (set_timer (mkActorTimer q (at_timerInfoMap (ac_timer a))) a) (w_sys w)) w)
               <$> aq_nil (at_queue (ac_timer a))
  end.

Definition exit_children (l : list nat) (h : gmap nat Actor) : gmap nat Actor :=
  foldr (fun c h => alter Actor_Exit c h) h l.

(** The first half of [onStop]: routes, actor map, children. *)
(** src/net/actor/actor.go:298-312, Actor.onStop *)
Definition onStop_routes (aid : nat) (a : Actor) (err : option str) (s : System) : System :=
  if ActorPath_IsParent (Some (ac_path a)) then
    let s := match sys_app s, sys_methods s with
             | Some _, Some t => with_methods (Some (Table_UnregisterTarget (Actor_PathString a) t)) s
             | _, _ => s
             end in
    let s := System_removeActor (Actor_ActorID a) s in
    let s := with_actors (exit_children ((map_to_list (ac_children a)).*2) (sys_actors s)) s in
    with_actors (alter (fun b => set_phase (PhStop err) (set_childOwner false b)) aid (sys_actors s)) s
  else
    let s := match System_GetActor (ActorID (ac_path a)) s with
             | Some parent => with_actors
                 (alter (fun b => set_children (delete (ChildID (ac_path a)) (ac_children b)) b) parent
                    (sys_actors s)) s
             | None => s
             end in
    with_actors (alter (set_phase (PhStop err)) aid (sys_actors s)) s.

(** The second half, after [handler.OnStop], which may panic ([None]: destroying a
    queue twice would). *)
(** src/net/actor/actor.go:314-323, Actor.onStop *)
Definition onStop_queues (aid : nat) (a : Actor) (err : option str) (panics : bool) (s : System) : option System :=
  let done a := match err with Some e => set_initDone (Some e) (set_phase PhDead a) | None => set_phase PhDead a end in
  let s := with_wg (sys_wg s - 1) s in
  if panics then Some (set_actor aid (done a) s)
  else
    let '(_, t) := actorTimer_onStop (ac_timer a) in
    let '(names, e) := actorEvent_onStop (ac_event a) in
    match e, mailbox_onStop (ac_mail a) with
    | Some e, Some mail =>
        let s := System_removeActorEvent (Actor_PathString a) names s in
        Some (set_actor aid (done (set_mail mail (set_event e (set_timer t a)))) s)
    | _, _ => None
    end.

(** It has not begun to stop. *)
Definition serving (a : Actor) : bool := match ac_phase a with PhStop _ | PhDead => false | _ => true end.

(** The exit test at the top of [loop]: each [Count] may lag behind its queue by the
    pushes that have not added themselves yet ([aq_pend]). *)
(** src/net/actor/actor.go:87-92, Actor.loop *)
Definition loop_done (a : Actor) : bool :=
  bool_decide (ac_state a = StopState) &&
  ((aq_Count (mb_queue (ac_mail a)) <? 1) && (aq_Count (ae_queue (ac_event a)) <? 1)).

Inductive loop_case :=
| LExit
| LMail (now : Z) (cancelled : bool)
| LEvent (now : Z) (panics : nat -> bool)
| LTimer
| LNil (k : qkind)
| LClose.

(** One turn of [loop], by the ready case of its [select]. *)
(** src/net/actor/actor.go:87-106, Actor.loop *)
Definition Actor_loop (aid : nat) (a : Actor) (c : loop_case) (w : world) : option world :=
  match c with
  | LExit => if loop_done a then Some (with_sys (onStop_routes aid a None (w_sys w)) w) else None
  | _ =>
      if loop_done a then None else
      match c with
      | LMail now cancelled => Actor_processMail aid a now cancelled w
      | LEvent now panics => Actor_processEvent aid a now panics w
      | LTimer => Actor_processTimer aid a w
      | LNil k => Actor_processNil aid a k w
      | LClose => if ac_close a
                  then Some (with_sys (set_actor aid (set_state StopState (set_close false a)) (w_sys w)) w)
                  else None
      | LExit => None
      end
  end.

(** ** Actions *)

Inductive action :=
| AInvoke (notify : bool) (ctx : RequestContext) (target : str) (methodID : Z) (p : payload)
| AInvokeChild (notify : bool) (parent : nat) (ctx : RequestContext) (childID : str) (methodID : Z)
    (p : payload) (answer : option nat)
| APush (i : nat)
| ACounted (aid : nat) (k : qkind)
| ASent (aid : nat) (k : qkind) (i : nat) (recovered : bool)
| ACreateCheck (id : str) | ACreateStore (i : nat) (now : Z)
| AChildCheck (parent : nat) (childID : str) | AChildStore (i : nat) (now : Z)
| ARegister (aid : nat) (methodID : Z) (h : handler)
| AInitDone (aid : nat) (panicked : option str)
| ALoop (aid : nat) (c : loop_case)
| AFound (aid : nat) (answer : option nat)
| AReturn (aid : nat) (outcome : option (option InvokeResult))
| AStopped (aid : nat) (panics : bool)
| AExit (aid : nat)
| APostEvent (data : option EventData)
| AEventRegister (aid : nat) (name : str) (fn : nat) (uniqueID : list Z)
| AEventUnregister (aid : nat) (name : str)
| ATimerAdd (aid : nat) (delay : Z) (fn : option nat) (newID : Z) (timer once : bool)
| ATimerRemove (aid : nat) (id : Z)
| ATimerFire (aid : nat) (id : Z).

Definition mark_call (notify : bool) (id : nat) (m : Message) (w : world) : Message * world :=
  if notify then (set_cancel (Z.of_nat id) m, w) else (set_chan (Z.of_nat id) m, add_call id w).

Definition actor_at (aid : nat) (w : world) : option Actor := sys_actors (w_sys w) !! aid.

Definition exec_invoke notify ctx target methodID p (w : world) : world :=
  let '(s, id, m) := new_message ctx target methodID p (w_sys w) in
  let '(m, w) := mark_call notify id m (with_sys s w) in
  match System_post_check m s with
  | Some aid => add_posting (aid, (id, m)) w
  | None => reject id (with_sys (sys_Recycle id m s) w)
  end.

Definition exec_invoke_child notify parent ctx childID methodID p answer (w : world) : option world :=
  match actor_at parent w with
  | None => None
  | Some a =>
      let target := NewChildPath (AStr (NodeID (ac_path a))) (AStr (ActorID (ac_path a))) (AStr childID) in
      let '(s, id, m) := new_message ctx target methodID p (w_sys w) in
      match Actor_findChildActor a m answer with
      | None => Some (lose id (with_sys s w))
      | Some None =>
          let m := if notify then set_cancel (Z.of_nat id) m else m in
          Some (reject id (with_sys (sys_Recycle id m s) w))
      | Some (Some child) =>
          let '(m, w) := mark_call notify id m (with_sys s w) in
          Some (add_posting (child, (id, m)) w)
      end
  end.

Definition exec_push (i : nat) (w : world) : option world :=
  match w_posting w !! i with
  | None => None
  | Some (aid, (id, m)) =>
      let w := with_posting (delete i (w_posting w)) w in
      match swap_to aid id m (w_sys w) with
      | Some s => Some (with_sys s w)
      | None => Some (lose id w)
      end
  end.

(** A registration, at any time: [Register] itself tests the state variable, which is
    [InitState] from the creation to the end of a successful [OnInit], and for ever when
    [OnInit] panicked. *)
(** src/net/actor/actor_mailbox.go:32-66, mailbox.Register *)
Definition exec_register (aid : nat) (methodID : Z) (h : handler) (w : world) : option world :=
  match actor_at aid w with
  | None => None
  | Some a =>
      match mailbox_Register methodID h (ac_path a) (ac_state a) (sys_methods (w_sys w)) (ac_mail a) with
      | inl (mail, table) =>
          let w' := with_sys (set_actor aid (set_mail mail a) (with_methods table (w_sys w))) w in
          Some (if serving a then w' else add_late (aid, methodID) w')
      | inr _ => Some w
      end
  end.

(** src/net/actor/actor.go:56-106, Actor.run *)
Definition exec (act : action) (w : world) : option world :=
  if w_crashed w then None else
  match act with
  | AInvoke notify ctx target methodID p => Some (exec_invoke notify ctx target methodID p w)
  | AInvokeChild notify parent ctx childID methodID p answer =>
      exec_invoke_child notify parent ctx childID methodID p answer w
  | APush i => exec_push i w
  | ACounted aid k =>
      match actor_at aid w ≫= Actor_counted k with
      | Some a => Some (with_sys (set_actor aid a (w_sys w)) w)
      | None => None
      end
  | ASent aid k i recovered =>
      match actor_at aid w ≫= Actor_sent k i with
      | Some (a, panicked) =>
          let w := with_sys (set_actor aid a (w_sys w)) w in
          Some (if panicked && negb recovered then crash w else w)
      | None => None
      end
  | ACreateCheck id =>
      match CreateActor_check id (w_sys w) with
      | MustCreate => Some (with_creating (id :: w_creating w) (w_childCreating w) w)
      | _ => Some w
      end
  | ACreateStore i now =>
      match w_creating w !! i with
      | None => None
      | Some id =>
          let w := with_creating (delete i (w_creating w)) (w_childCreating w) w in
          match CreateActor_store id now (w_sys w) with
          | Ok (s, _) => Some (with_sys s w)
          | Err _ => Some w
          end
      end
  | AChildCheck parent childID =>
      match actor_at parent w with
      | None => None
      | Some a =>
          match Create_check a childID with
          | Some MustCreate => Some (with_creating (w_creating w) ((parent, childID) :: w_childCreating w) w)
          | _ => Some w
          end
      end
  | AChildStore i now =>
      match w_childCreating w !! i with
      | None => None
      | Some (parent, childID) =>
          let w := with_creating (w_creating w) (delete i (w_childCreating w)) w in
          match Create_store parent childID now (w_sys w) with
          | Ok (s, _) => Some (with_sys s w)
          | Err _ => Some w
          end
      end
  | ARegister aid methodID h => exec_register aid methodID h w
  | AInitDone aid panicked =>
      match actor_at aid w with
      | None => None
      | Some a =>
          match ac_phase a with
          | PhInit =>
              match panicked with
              | None => Some (with_sys (set_actor aid
                          (set_initDone None (set_phase PhLoop (set_state WorkerState a))) (w_sys w)) w)
              | Some e => Some (with_sys (onStop_routes aid a (Some e) (w_sys w)) w)
              end
          | _ => None
          end
      end
  | ALoop aid c =>
      match actor_at aid w with
      | None => None
      | Some a => match ac_phase a with PhLoop => Actor_loop aid a c w | _ => None end
      end
  | AFound aid answer =>
      match actor_at aid w with
      | None => None
      | Some a =>
          match ac_phase a with
          | PhFind id m =>
              let w := with_sys (set_actor aid (set_phase PhLoop a) (w_sys w)) w in
              match answer with
              | Some child => Some (forward_to child id m w)
              | None => Some (with_sys (Actor_finishTyped id m
                          (ErrorResult STATUS_NOT_FOUND "actor child not found") (w_sys w)) w)
              end
          | _ => None
          end
      end
  | AReturn aid outcome =>
      match actor_at aid w with
      | None => None
      | Some a =>
          match ac_phase a with
          | PhRun id m => Some (with_sys (Actor_finishTyped id m (invokeTyped_result outcome)
                            (set_actor aid (set_phase PhLoop a) (w_sys w))) w)
          | _ => None
          end
      end
  | AStopped aid panics =>
      match actor_at aid w with
      | None => None
      | Some a =>
          match ac_phase a with
          | PhStop err =>
              match onStop_queues aid a err panics (w_sys w) with
              | Some s => Some (with_sys s w)
              | None => Some (crash w)
              end
          | _ => None
          end
      end
  | AExit aid =>
      match actor_at aid w with
      | None => None
      | Some a => Some (with_sys (set_actor aid (Actor_Exit a) (w_sys w)) w)
      end
  | APostEvent data =>
      match System_PostEvent actorEvent_swap data (w_sys w) with
      | Some s => Some (with_sys s w)
      | None => Some (crash w)
      end
  | AEventRegister aid name fn uniqueID =>
      match System_EventRegister aid name fn uniqueID (w_sys w) with
      | Some s => Some (with_sys s w)
      | None => None
      end
  | AEventUnregister aid name =>
      match System_EventUnregister aid name (w_sys w) with
      | Some s => Some (with_sys s w)
      | None => None
      end
  | ATimerAdd aid delay fn newID timer once =>
      match actor_at aid w with
      | None => None
      | Some a =>
          let t := (if once then actorTimer_AddOnce delay fn newID timer (ac_timer a)
                    else actorTimer_Add delay fn newID timer (ac_timer a)).2 in
          Some (with_sys (set_actor aid (set_timer t a) (w_sys w)) w)
      end
  | ATimerRemove aid id =>
      match actor_at aid w with
      | None => None
      | Some a => Some (with_sys (set_actor aid (set_timer (actorTimer_Remove id (ac_timer a)).2 a) (w_sys w)) w)
      end
  | ATimerFire aid id =>
      match actor_at aid w with
      | None => None
      | Some a =>
          match actorTimer_Push id (ac_timer a) with
          | Some t => Some (with_sys (set_actor aid (set_timer t a) (w_sys w)) w)
          | None => None
          end
      end
  end.

(** The actions on an actor's event subscriptions and timers. *)
Definition is_registry (act : action) : bool :=
  match act with
  | AEventRegister _ _ _ _ | AEventUnregister _ _ | ATimerAdd _ _ _ _ _ _ | ATimerRemove _ _ | ATimerFire _ _ => true
  | _ => false
  end.

Definition fresh_world (app : App) (table : option Table) : world :=
  mkWorld (System_SetApp app table NewSystem) [] [] [] false [] [] [] [] [].

Fixpoint wrun (l : list action) (w : world) : option world :=
  match l with [] => Some w | a :: l' => exec a w ≫= wrun l' end.

Lemma wrun_app l1 l2 w : wrun (l1 ++ l2) w = wrun l1 w ≫= wrun l2.
Proof.
  revert w. induction l1 as [|a l1 IH]; intros w; [done|]. simpl. destruct (exec a w); [apply IH|done].
Qed.

Inductive wreach (app : App) (table : option Table) : world -> Prop :=
| wreach_init : wreach app table (fresh_world app table)
| wreach_step w act w' : wreach app table w -> exec act w = Some w' -> wreach app table w'.

Lemma wreach_run app table l w w' : wreach app table w -> wrun l w = Some w' -> wreach app table w'.
Proof.
  revert w. induction l as [|a l IH]; intros w Hw H; simpl in H; [by injection H as <-|].
  destruct (exec a w) as [w1|] eqn:E; [|done]. apply (IH w1); [|done]. by eapply wreach_step.
Qed.


Lemma wreach_default app table l w : wreach app table w ->
  match wrun l w with Some _ => true | None => false end = true -> wreach app table (default w (wrun l w)).
Proof.
  intros Hw H. destruct (wrun l w) as [w'|] eqn:E; [|done]. by apply (wreach_run app table l w w' Hw E).
Qed.

(** ** A run used by examples and witnesses

    An actor [player] with the method 100 answers a call, and one with an event
    subscription stops after a second call. *)
Definition demo_app : App := mkApp "n1" (Some std_registry) None.
Definition demo_world : world := fresh_world demo_app (Some (NewTable true)).
Definition demo_call : RequestContext :=
  mkRequestContext (Some (GCtx (Some 5000000000) None)) 7 TransportAGP CodecProtobuf None None.
Definition demo_create : list action :=
  [ACreateCheck "player"; ACreateStore 0 1000; ARegister 0 100 (HFunc echo_fn); AInitDone 0 None].
Definition demo_request : list action :=
  [AInvoke false demo_call "n1.player" 100 (PBytes [Byte.x61]); APush 0; ACounted 0 QMail; ASent 0 QMail 0 true; ALoop 0 (LMail 2000 false)].
Definition demo_answer : option (option InvokeResult) := Some (Some (OKResult (PVal (Value echo_type [Byte.x61])))).
Definition demo_run : list action := demo_create ++ demo_request ++ [AReturn 0 demo_answer].
Definition demo_final : world := default demo_world (wrun demo_run demo_world).

Lemma demo_reach : wreach demo_app (Some (NewTable true)) demo_final.
Proof. apply wreach_default; [apply wreach_init|]. vm_compute. reflexivity. Defined.

Example demo_answered :
  sys_results (w_sys demo_final) = [(0, OKResult (PVal (Value echo_type [Byte.x61])))] /\
  sys_recycled (w_sys demo_final) = [0%nat].
Proof. vm_compute. by split. Qed.
