(* ===== verification/Delivery.v ===== *)
(** Message delivery: where every message is, and what is answered, over all runs of
    [Steps]. Each action is shown to move messages ([moves], [creates]) and to answer
    at most one ([quiet], [finishes], [opens]); the invariant [delivery_inv] follows by
    induction on the run. *)
From S2P Require Import Prelude Strconv Facade Context Queue Serializer Method Actor ActorSystem Steps.

(** ** Where the messages are *)

Section HeapSum.
Context (f : Actor -> nat).

(** The sum of a measure over the actor heap. *)
Definition heap_sum (h : gmap nat Actor) : nat := map_fold (fun _ a n => f a + n)%nat 0%nat h.

Lemma heap_sum_insert h k a : h !! k = None -> heap_sum (<[k := a]> h) = (f a + heap_sum h)%nat.
Proof.
  intros Hk. unfold heap_sum. rewrite map_fold_insert_L; [done| |done].
  intros j1 j2 z1 z2 y _ _ _. lia.
Qed.

Lemma heap_sum_delete h k a : h !! k = Some a -> heap_sum h = (f a + heap_sum (delete k h))%nat.
Proof.
  intros Hk. rewrite <- (insert_delete_id h k a Hk) at 1.
  by rewrite heap_sum_insert by apply lookup_delete_eq.
Qed.

Lemma heap_sum_update h k a a' : h !! k = Some a ->
  (heap_sum (<[k := a']> h) + f a = heap_sum h + f a')%nat.
Proof.
  intros Hk. rewrite <- insert_delete_eq, heap_sum_insert by apply lookup_delete_eq.
  rewrite (heap_sum_delete h k a Hk). lia.
Qed.

Lemma heap_sum_alter h k g : (forall a, f (g a) = f a) -> heap_sum (alter g k h) = heap_sum h.
Proof.
  intros Hg. destruct (h !! k) as [a|] eqn:Hk.
  - rewrite (alter_alt_Some g h k a Hk).
    pose proof (heap_sum_update h k a (g a) Hk) as H. rewrite Hg in H. lia.
  - by rewrite alter_id'.
Qed.

Lemma heap_sum_exit l h : (forall a, f (Actor_Exit a) = f a) -> heap_sum (exit_children l h) = heap_sum h.
Proof. intros Hg. induction l as [|c l IH]; simpl; [done|]. by rewrite heap_sum_alter. Qed.
End HeapSum.

Definition phase_ids (p : phase) : list nat := match p with PhFind id _ | PhRun id _ => [id] | _ => [] end.
Definition mail_ids (a : Actor) : list nat := (aq_items (mb_queue (ac_mail a))).*1.
Definition actor_ids (a : Actor) : list nat := mail_ids a ++ phase_ids (ac_phase a).
Definition posting_ids (w : world) : list nat := (fun x => x.2.1) <$> w_posting w.

(** How often message [id] is somewhere: queued or in the hands of an actor, in the
    hands of a sender, recycled, or lost. *)
Definition total (id : nat) (w : world) : nat :=
  heap_sum (fun a => occ id (actor_ids a)) (sys_actors (w_sys w)) + occ id (posting_ids w)
  + occ id (sys_recycled (w_sys w)) + occ id (w_lost w).

Lemma total_with_sys id s s' w :
  sys_actors s' = sys_actors s -> sys_recycled s' = sys_recycled s ->
  total id (with_sys s' w) = total id (with_sys s w).
Proof. unfold total, posting_ids. simpl. by intros -> ->. Qed.

Lemma with_sys_id w : with_sys (w_sys w) w = w.
Proof. by destruct w. Qed.

Lemma total_set_actor id aid a a' s w : sys_actors s !! aid = Some a ->
  (total id (with_sys (set_actor aid a' s) w) + occ id (actor_ids a)
   = total id (with_sys s w) + occ id (actor_ids a'))%nat.
Proof.
  intros Ha. unfold total, posting_ids. simpl.
  pose proof (heap_sum_update (fun a => occ id (actor_ids a)) _ aid a a' Ha). simpl in *. lia.
Qed.

Lemma total_set_actor_same id aid a a' s w : sys_actors s !! aid = Some a -> actor_ids a' = actor_ids a ->
  total id (with_sys (set_actor aid a' s) w) = total id (with_sys s w).
Proof. intros Ha Hi. pose proof (total_set_actor id aid a a' s w Ha). rewrite Hi in *. lia. Qed.

Lemma total_recycle id i m s w :
  total id (with_sys (sys_Recycle i m s) w) = (occ id [i] + total id (with_sys s w))%nat.
Proof. unfold total, posting_ids. simpl. lia. Qed.

Lemma total_finish id i m r s w :
  total id (with_sys (Actor_finishTyped i m r s) w) = (occ id [i] + total id (with_sys s w))%nat.
Proof.
  unfold Actor_finishTyped. rewrite total_recycle. f_equal.
  by destruct (m_Chan m); [apply total_with_sys|].
Qed.

Lemma swap_to_inv aid i m s s' : swap_to aid i m s = Some s' ->
  exists a mail', sys_actors s !! aid = Some a /\ mailbox_swap (i, m) (ac_mail a) = Some mail' /\
    s' = set_actor aid (set_mail mail' a) s.
Proof.
  unfold swap_to, Actor_post_swap. destruct (sys_actors s !! aid) as [a|]; [|done].
  destruct (mailbox_swap _ _) as [mail'|] eqn:E; [|done]. intros [= <-]. by exists a, mail'.
Qed.

Lemma mailbox_swap_inv x m m' : mailbox_swap x m = Some m' ->
  aq_closed (mb_queue m) = false /\ aq_items (mb_queue m') = aq_items (mb_queue m) ++ [x] /\
  mb_methodMap m' = mb_methodMap m /\ aq_swap x (mb_queue m) = Some (mb_queue m').
Proof.
  unfold mailbox_swap, aq_swap. destruct (aq_closed (mb_queue m)); [done|]. by intros [= <-].
Qed.

Lemma total_push id aid i m s s' w : swap_to aid i m s = Some s' ->
  total id (with_sys s' w) = (occ id [i] + total id (with_sys s w))%nat.
Proof.
  intros (a & mail' & Ha & Hp & ->)%swap_to_inv. apply mailbox_swap_inv in Hp as (_ & Hi & _).
  pose proof (total_set_actor id aid a (set_mail mail' a) s w Ha) as H.
  unfold actor_ids, mail_ids in *. simpl in *. rewrite Hi, fmap_app, !occ_app in H. simpl in *. lia.
Qed.

Lemma total_forward id c i m w : total id (forward_to c i m w) = (occ id [i] + total id w)%nat.
Proof.
  unfold forward_to. destruct (swap_to c i m (w_sys w)) as [s|] eqn:E.
  - rewrite (total_push id _ _ _ _ _ w E). by rewrite with_sys_id.
  - unfold total, posting_ids. simpl. lia.
Qed.

Lemma total_routes id aid a err s w : sys_actors s !! aid = Some a -> phase_ids (ac_phase a) = [] ->
  total id (with_sys (onStop_routes aid a err s) w) = total id (with_sys s w).
Proof.
  intros Ha Hp. unfold onStop_routes, total.
  set (f := fun a => occ id (actor_ids a)).
  assert (Hex : forall b, f (Actor_Exit b) = f b) by done.
  assert (Hst : forall h g, h !! aid = Some g -> ac_phase g = ac_phase a -> forall k,
      (forall b, mail_ids (k b) = mail_ids b) -> (forall b, phase_ids (ac_phase (k b)) = []) ->
      heap_sum f (alter k aid h) = heap_sum f h).
  { intros h g Hg Hph k Hk Hk'. rewrite (alter_alt_Some k h aid g Hg).
    pose proof (heap_sum_update f h aid g (k g) Hg) as H.
    unfold f, actor_ids in *. rewrite Hk, Hk', Hph, Hp in H. lia. }
  assert (Hexit : forall l h, h !! aid = Some a ->
      exists g, exit_children l h !! aid = Some g /\ ac_phase g = ac_phase a).
  { intros l h Hh. induction l as [|c l (g & Hg & Hgp)]; [by exists a|]. simpl.
    destruct (decide (c = aid)) as [->|]; [rewrite lookup_alter_eq, Hg; eexists; split; [done|by simpl]|].
    rewrite lookup_alter_ne by done. by exists g. }
  destruct (ActorPath_IsParent _).
  - assert (E : forall s1, sys_actors s1 = sys_actors s -> sys_recycled s1 = sys_recycled s ->
      (heap_sum f (alter (fun b => set_phase (PhStop err) (set_childOwner false b)) aid
         (exit_children ((map_to_list (ac_children a)).*2) (sys_actors s1)))
       = heap_sum f (sys_actors s))%nat).
    { intros s1 -> _. destruct (Hexit ((map_to_list (ac_children a)).*2) _ Ha) as (g & Hg & Hgp).
      rewrite (Hst _ g Hg Hgp) by done. by apply heap_sum_exit. }
    destruct (sys_app s), (sys_methods s); simpl; f_equal; f_equal; f_equal; by apply E.
  - destruct (System_GetActor _ s) as [p|]; simpl; f_equal; f_equal; f_equal.
    + set (h' := alter _ p (sys_actors s)).
      assert (exists g, h' !! aid = Some g /\ ac_phase g = ac_phase a) as (g & Hg & Hgp).
      { unfold h'. destruct (decide (p = aid)) as [->|]; [rewrite lookup_alter_eq, Ha; by eexists|].
        rewrite lookup_alter_ne by done. by exists a. }
      rewrite (Hst _ g Hg Hgp) by done. by apply heap_sum_alter.
    + by apply (Hst _ a).
Qed.

(** [w'] has the messages of [w] and the new ones. *)
Definition moves (new : list nat) (w w' : world) : Prop :=
  sys_nextMsg (w_sys w') = (sys_nextMsg (w_sys w) + length new)%nat /\
  sys_nextActor (w_sys w') = sys_nextActor (w_sys w) /\
  dom (sys_actors (w_sys w')) = dom (sys_actors (w_sys w)) /\
  forall id, total id w' = (total id w + occ id new)%nat.

Lemma dom_update (h : gmap nat Actor) aid a a' : h !! aid = Some a -> dom (<[aid := a']> h) = dom h.
Proof. intros Ha. apply dom_insert_lookup_L. by eexists. Qed.

Lemma moves_same w w' : w_sys w' = w_sys w -> w_posting w' = w_posting w -> w_lost w' = w_lost w -> moves [] w w'.
Proof.
  intros E1 E2 E3. unfold moves, total, posting_ids. rewrite E1, E2, E3. split_and!; try done; simpl; intros; lia.
Qed.

Lemma moves_refl w : moves [] w w.
Proof. by apply moves_same. Qed.

Lemma moves_set_actor aid a a' w :
  actor_at aid w = Some a -> (forall id, occ id (actor_ids a') = occ id (actor_ids a)) ->
  moves [] w (with_sys (set_actor aid a' (w_sys w)) w).
Proof.
  intros Ha Hi. split_and!; [simpl; lia|done|by apply (dom_update _ _ a)|]. intros id.
  pose proof (total_set_actor id aid a a' (w_sys w) w Ha) as H. rewrite with_sys_id, Hi in H. simpl. lia.
Qed.

Lemma moves_finish aid a a' i m r w :
  actor_at aid w = Some a -> (forall id, occ id (actor_ids a) = (occ id [i] + occ id (actor_ids a'))%nat) ->
  moves [] w (with_sys (Actor_finishTyped i m r (set_actor aid a' (w_sys w))) w).
Proof.
  intros Ha Hi. unfold Actor_finishTyped. split_and!; [destruct (m_Chan m); simpl; lia|by destruct (m_Chan m)| |].
  { destruct (m_Chan m); by apply (dom_update _ _ a). }
  intros id. fold (Actor_finishTyped i m r (set_actor aid a' (w_sys w))). rewrite total_finish.
  pose proof (total_set_actor id aid a a' (w_sys w) w Ha) as H. rewrite with_sys_id, Hi in H. simpl in *. lia.
Qed.

Lemma moves_crash l w w' : moves l w w' -> moves l w (crash w').
Proof. done. Qed.

Lemma moves_late aid id l w w' : moves l w w' -> moves l w (add_late (aid, id) w').
Proof. done. Qed.

(** Handing a message on, after the actor has let go of it. *)
Lemma moves_forward aid a a' c i m w :
  actor_at aid w = Some a -> (forall id, occ id (actor_ids a) = (occ id [i] + occ id (actor_ids a'))%nat) ->
  moves [] w (forward_to c i m (with_sys (set_actor aid a' (w_sys w)) w)).
Proof.
  intros Ha Hi. split_and!.
  - unfold forward_to. destruct (swap_to _ _ _ _) as [s|] eqn:E; simpl; [|lia].
    apply swap_to_inv in E as (? & ? & _ & _ & ->). simpl. lia.
  - unfold forward_to. destruct (swap_to _ _ _ _) as [s|] eqn:E; simpl; [|done].
    by apply swap_to_inv in E as (? & ? & _ & _ & ->).
  - unfold forward_to. destruct (swap_to _ _ _ _) as [s|] eqn:E; simpl; [|by apply (dom_update _ _ a)].
    apply swap_to_inv in E as (b & ? & Hb & _ & ->). simpl in *. rewrite (dom_update _ _ b _ Hb).
    by apply (dom_update _ _ a).
  - intros id. rewrite total_forward.
    pose proof (total_set_actor id aid a a' (w_sys w) w Ha) as H. rewrite with_sys_id, Hi in H. simpl in *. lia.
Qed.

Lemma moves_lose aid a a' i w :
  actor_at aid w = Some a -> (forall id, occ id (actor_ids a) = (occ id [i] + occ id (actor_ids a'))%nat) ->
  moves [] w (lose i (with_sys (set_actor aid a' (w_sys w)) w)).
Proof.
  intros Ha Hi. split_and!; [simpl; lia|done|by apply (dom_update _ _ a)|]. intros id.
  pose proof (total_set_actor id aid a a' (w_sys w) w Ha) as H. rewrite with_sys_id, Hi in H.
  unfold total, posting_ids in *. simpl in *. lia.
Qed.

Lemma mailbox_Pop_inv m r m' : mailbox_Pop m = Some (r, m') ->
  mb_methodMap m' = mb_methodMap m /\ aq_closed (mb_queue m) = false /\
  aq_items (mb_queue m) = match r with Some x => [x] | None => [] end ++ aq_items (mb_queue m').
Proof.
  unfold mailbox_Pop, aq_Pop. destruct (aq_closed (mb_queue m)) eqn:Ec; [done|].
  destruct (aq_items (mb_queue m)) eqn:E; intros [= <- <-]; by rewrite ?E.
Qed.

Lemma aq_recv_inv {A} (q q' : aqueue A) : aq_recv q = Some q' ->
  aq_items q' = aq_items q /\ aq_count q' = aq_count q /\ aq_closed q' = aq_closed q /\
  aq_C q <> None /\ aq_C q' = None.
Proof. unfold aq_recv. destruct (aq_C q) eqn:E; [|done]. by intros [= <-]. Qed.

(** A later step of a push, and a [Pop] that finds nothing linked, touch the counter and
    the tokens of one queue. *)
Inductive touched (a : Actor) : Actor -> Prop :=
| touched_mail q : aq_items q = aq_items (mb_queue (ac_mail a)) -> aq_closed q = aq_closed (mb_queue (ac_mail a)) ->
    touched a (set_mail (mkMailbox q (mb_methodMap (ac_mail a))) a)
| touched_event q : aq_items q = aq_items (ae_queue (ac_event a)) -> aq_closed q = aq_closed (ae_queue (ac_event a)) ->
    touched a (set_event (mkActorEvent q (ae_funcMap (ac_event a))) a)
| touched_timer q : aq_items q = aq_items (at_queue (ac_timer a)) -> aq_closed q = aq_closed (at_queue (ac_timer a)) ->
    touched a (set_timer (mkActorTimer q (at_timerInfoMap (ac_timer a))) a).

Lemma aq_counted_inv {A} (q q' : aqueue A) : aq_counted q = Some q' ->
  aq_items q' = aq_items q /\ aq_closed q' = aq_closed q.
Proof. unfold aq_counted. destruct (aq_pend q); [done|]. by intros [= <-]. Qed.

Lemma aq_sent_inv {A} i (q q' : aqueue A) b : aq_sent i q = Some (q', b) ->
  aq_items q' = aq_items q /\ aq_closed q' = aq_closed q.
Proof. unfold aq_sent. destruct (aq_sums q !! i); [|done]. destruct (aq_closed q) eqn:E; by intros [= <- _]. Qed.

Lemma aq_nil_inv {A} (q q' : aqueue A) : aq_nil q = Some q' -> aq_pend q <> 0%nat /\ aq_recv q = Some q'.
Proof. unfold aq_nil. destruct (Nat.eqb_spec (aq_pend q) 0); [done|]. done. Qed.

Lemma Actor_counted_touched k a a' : Actor_counted k a = Some a' -> touched a a'.
Proof.
  destruct k; simpl; destruct (aq_counted _) as [q|] eqn:E; try done; intros [= <-];
    apply aq_counted_inv in E as [? ?]; by constructor.
Qed.

Lemma Actor_sent_touched k i a a' b : Actor_sent k i a = Some (a', b) -> touched a a'.
Proof.
  destruct k; simpl; destruct (aq_sent _ _) as [[q b']|] eqn:E; try done; intros [= <- _];
    apply aq_sent_inv in E as [? ?]; by constructor.
Qed.

Lemma Actor_processNil_touched aid a k w w' : Actor_processNil aid a k w = Some w' ->
  exists a', touched a a' /\ w' = with_sys (set_actor aid a' (w_sys w)) w.
Proof.
  destruct k; simpl; destruct (aq_nil _) as [q|] eqn:E; try done; intros [= <-];
    apply aq_nil_inv in E as [_ (? & _ & ? & _)%aq_recv_inv]; eexists; (split; [by constructor|done]).
Qed.

Lemma touched_items a a' : touched a a' -> aq_items (mb_queue (ac_mail a')) = aq_items (mb_queue (ac_mail a)) /\
  ac_phase a' = ac_phase a.
Proof. by intros []. Qed.

Lemma touched_ids a a' : touched a a' -> actor_ids a' = actor_ids a.
Proof. intros []; unfold actor_ids, mail_ids; simpl; congruence. Qed.

(** Message identifiers of an updated actor, computed. *)
Ltac ids := intros; unfold actor_ids, mail_ids; simpl;
  repeat match goal with
  | H : ac_phase _ = _ |- _ => rewrite H
  | H : aq_items _ = _ |- _ => rewrite H
  end; rewrite ?fmap_app, ?fmap_cons, ?occ_app; simpl; rewrite ?occ_app; simpl; lia.

Lemma moves_invokeTyped aid a0 a now c i m w :
  actor_at aid w = Some a0 -> ac_phase a = PhLoop ->
  (forall id, occ id (actor_ids a0) = (occ id [i] + occ id (actor_ids a))%nat) ->
  moves [] w (Actor_invokeTyped aid a now c i m w).
Proof.
  intros Ha Hph Hi. unfold Actor_invokeTyped. destruct (invokeTyped_start _ _ _ _ _) as [r| |].
  - apply (moves_finish aid a0); [done|]. intros x. rewrite Hi. ids.
  - apply (moves_set_actor aid a0); [done|]. intros x. rewrite Hi. ids.
  - apply moves_crash, (moves_lose aid a0); [done|]. intros x. rewrite Hi. ids.
Qed.

Lemma moves_processTyped aid a0 a now c i m w :
  actor_at aid w = Some a0 -> ac_phase a = PhLoop ->
  (forall id, occ id (actor_ids a0) = (occ id [i] + occ id (actor_ids a))%nat) ->
  moves [] w (Actor_processTyped aid a now c i m w).
Proof.
  intros Ha Hph Hi. unfold Actor_processTyped. destruct (Message_TargetPath m) as [path m'].
  case_if; [|by eapply moves_invokeTyped]. destruct (path ≫= _).
  - apply (moves_forward aid a0); [done|]. intros x. rewrite Hi. ids.
  - apply (moves_set_actor aid a0); [done|]. intros x. rewrite Hi. ids.
Qed.

(** The turns of the loop only move messages. *)
Lemma moves_processMail aid a now c w w' :
  actor_at aid w = Some a -> ac_phase a = PhLoop -> Actor_processMail aid a now c w = Some w' -> moves [] w w'.
Proof.
  intros Ha Hph. unfold Actor_processMail. destruct (aq_recv _) as [q|] eqn:Eq; [|done].
  apply aq_recv_inv in Eq as (Hq & _). destruct (mailbox_Pop _) as [[[[id m]|] mail]|] eqn:Ep; [| |done];
    apply mailbox_Pop_inv in Ep as (_ & _ & Hi); cbn [mb_queue] in Hi; rewrite Hq in Hi; simpl in Hi.
  - case_if; intros [= <-].
    + apply (moves_finish aid a); [done|]. ids.
    + apply (moves_processTyped aid a); [done|done|]. ids.
  - intros [= <-]. apply (moves_set_actor aid a); [done|]. ids.
Qed.

Lemma moves_processEvent aid a now panics w w' :
  actor_at aid w = Some a -> Actor_processEvent aid a now panics w = Some w' -> moves [] w w'.
Proof.
  intros Ha. unfold Actor_processEvent. destruct (aq_recv _) as [q|]; [|done].
  destruct (actorEvent_Pop _) as [[[data|] e]|]; [| |done]; intros [= <-];
    by apply (moves_set_actor aid a (set_event e a)) || by apply (moves_set_actor aid a).
Qed.

Lemma moves_processTimer aid a w w' :
  actor_at aid w = Some a -> Actor_processTimer aid a w = Some w' -> moves [] w w'.
Proof.
  intros Ha. unfold Actor_processTimer. destruct (aq_recv _) as [q|]; [|done].
  destruct (actorTimer_Pop _) as [[id t]|]; [|done]. case_if; [intros [= <-]; by apply (moves_set_actor aid a)|].
  destruct (actorTimer_invokeFunc id t) as [fn t']. intros [= <-]. by apply (moves_set_actor aid a (set_timer t' a)).
Qed.

Lemma dom_exit_children l h : dom (exit_children l h) = dom h.
Proof. induction l as [|c l IH]; simpl; [done|]. by rewrite dom_alter_L. Qed.

Lemma moves_routes aid a err w :
  actor_at aid w = Some a -> phase_ids (ac_phase a) = [] ->
  moves [] w (with_sys (onStop_routes aid a err (w_sys w)) w).
Proof.
  intros Ha Hp. split_and!; [| | |intros id; rewrite (total_routes id aid a) by done; rewrite with_sys_id; simpl; lia];
    unfold onStop_routes; destruct (ActorPath_IsParent (Some (ac_path a))), (sys_app (w_sys w)),
      (sys_methods (w_sys w)), (System_GetActor (ActorID (ac_path a)) (w_sys w)); simpl;
      rewrite ?dom_alter_L, ?dom_exit_children, ?dom_alter_L; (done || lia).
Qed.

Lemma moves_loop aid a c w w' :
  actor_at aid w = Some a -> ac_phase a = PhLoop -> Actor_loop aid a c w = Some w' -> moves [] w w'.
Proof.
  intros Ha Hph. unfold Actor_loop. destruct c; destruct (loop_done a); try done.
  - intros [= <-]. apply moves_routes; [done|]. by rewrite Hph.
  - by apply moves_processMail.
  - by apply moves_processEvent.
  - by apply moves_processTimer.
  - intros (a' & Ht & ->)%Actor_processNil_touched. apply (moves_set_actor aid a); [done|]. by rewrite (touched_ids _ _ Ht).
  - destruct (ac_close a); [|done]. intros [= <-]. by apply (moves_set_actor aid a).
Qed.

Lemma moves_queues aid a err panics s' w :
  actor_at aid w = Some a -> ac_phase a = PhStop err -> onStop_queues aid a err panics (w_sys w) = Some s' ->
  moves [] w (with_sys s' w).
Proof.
  intros Ha Hph. unfold onStop_queues.
  assert (Hm : forall a' s0, sys_actors s0 = sys_actors (w_sys w) -> sys_nextMsg s0 = sys_nextMsg (w_sys w) ->
      sys_nextActor s0 = sys_nextActor (w_sys w) -> sys_recycled s0 = sys_recycled (w_sys w) ->
      mail_ids a' = mail_ids a -> ac_phase a' = PhDead -> moves [] w (with_sys (set_actor aid a' s0) w)).
  { intros a' s0 E1 E2 E3 E4 E5 E6. split_and!; [simpl; lia|done| |].
    { simpl. rewrite E1. by apply (dom_update _ _ a). }
    intros x.
    unfold actor_at in Ha. rewrite <- E1 in Ha. pose proof (total_set_actor x aid a a' s0 w Ha) as H.
    rewrite (total_with_sys x (w_sys w) s0 w E1 E4), with_sys_id in H.
    unfold actor_ids in H. rewrite E5, E6, Hph in H. simpl in *. lia. }
  destruct panics; [intros [= <-]; destruct err; by apply Hm|]. simpl.
  destruct (aq_Destroy (ae_queue _)); [|done]. unfold mailbox_onStop, aq_Destroy.
  destruct (aq_closed (mb_queue (ac_mail a))); [done|]. intros [= <-]. destruct err; by apply Hm.
Qed.

Lemma moves_trans l w1 w2 w3 : moves [] w1 w2 -> moves l w2 w3 -> moves l w1 w3.
Proof.
  intros (A1 & B1 & D1 & C1) (A2 & B2 & D2 & C2).
  split_and!; [|congruence|congruence|intros id; rewrite C2, C1; simpl; lia].
  rewrite A2, A1. simpl. lia.
Qed.

Lemma moves_sys w s : sys_actors s = sys_actors (w_sys w) -> sys_nextMsg s = sys_nextMsg (w_sys w) ->
  sys_nextActor s = sys_nextActor (w_sys w) -> sys_recycled s = sys_recycled (w_sys w) ->
  moves [] w (with_sys s w).
Proof.
  intros E1 E2 E3 E4. split_and!; [simpl; lia|done|simpl; congruence|]. intros id.
  rewrite (total_with_sys id (w_sys w) s w E1 E4), with_sys_id. simpl. lia.
Qed.

Lemma PostEvent_one_cases epush data path v s s' : PostEvent_one epush data path v s = Some s' ->
  s' = s \/ exists aid a e, System_GetActorWithPath path s = Some aid /\ sys_actors s !! aid = Some a /\
    ac_state a = WorkerState /\ (v = None \/ v = Some (ev_UniqueID data)) /\
    epush data (ac_event a) = Some e /\ s' = set_actor aid (set_event e a) s.
Proof.
  unfold PostEvent_one. destruct (System_GetActorWithPath path s) as [aid|]; [|intros [= <-]; by left].
  destruct (sys_actors s !! aid) as [a|] eqn:Ha; [|intros [= <-]; by left].
  assert (Hpush : forall (P : Prop), P -> (if bool_decide (ac_state a = WorkerState) then
      match epush data (ac_event a) with
      | Some e => Some (set_actor aid (set_event e a) s) | None => None end else Some s) = Some s' ->
      s' = s \/ exists e, P /\ ac_state a = WorkerState /\ epush data (ac_event a) = Some e /\
        s' = set_actor aid (set_event e a) s).
  { intros P HP. case_bool_decide; [|intros [= <-]; by left].
    destruct (epush data (ac_event a)) as [e|]; [|done]. intros [= <-]. right. by exists e. }
  destruct v as [u|].
  - destruct (Z.eqb_spec u (ev_UniqueID data)) as [->|]; [|intros [= <-]; by left].
    intros [->|(e & _ & H)]%(Hpush True); [by left|right|done]. exists aid, a, e. split_and!; try done; [|by right|..]; by destruct_and!.
  - intros [->|(e & _ & H)]%(Hpush True); [by left|right|done]. exists aid, a, e. split_and!; try done; [|by left|..]; by destruct_and!.
Qed.

Lemma moves_PostEvent_range epush data l s' w :
  PostEvent_range epush data l (w_sys w) = Some s' -> moves [] w (with_sys s' w).
Proof.
  revert w. induction l as [|[path v] l IH]; intros w; simpl.
  - intros [= <-]. rewrite with_sys_id. apply moves_refl.
  - destruct (PostEvent_one epush data path v (w_sys w)) as [s1|] eqn:E; [|done]. intros H.
    apply (moves_trans [] w (with_sys s1 w)); [|by apply (IH (with_sys s1 w))].
    apply PostEvent_one_cases in E as [->|(aid & a & e & _ & Ha & _ & _ & _ & ->)].
    + rewrite with_sys_id. apply moves_refl.
    + by apply (moves_set_actor aid a).
Qed.

Lemma moves_PostEvent epush data s' w : System_PostEvent epush data (w_sys w) = Some s' -> moves [] w (with_sys s' w).
Proof.
  unfold System_PostEvent. destruct data as [d|]; [case_if; [|destruct (sys_eventMap _ !! _)]|];
    try (intros [= <-]; rewrite with_sys_id; apply moves_refl). apply moves_PostEvent_range.
Qed.

Lemma new_message_spec ctx target methodID p s :
  new_message ctx target methodID p s =
  (bump_msg s, sys_nextMsg s, mkMessage methodID target None (Some ctx) p None None).
Proof. done. Qed.

(** A message that was created and is handed to its target, or sent back. *)
Lemma moves_new w w' :
  sys_actors (w_sys w') = sys_actors (w_sys w) -> sys_nextMsg (w_sys w') = S (sys_nextMsg (w_sys w)) ->
  sys_nextActor (w_sys w') = sys_nextActor (w_sys w) ->
  (forall id, (occ id (posting_ids w') + occ id (sys_recycled (w_sys w')) + occ id (w_lost w') =
     occ id [sys_nextMsg (w_sys w)] + occ id (posting_ids w) + occ id (sys_recycled (w_sys w)) + occ id (w_lost w))%nat) ->
  moves [sys_nextMsg (w_sys w)] w w'.
Proof.
  intros E1 E2 E3 E4. split_and!; [simpl; lia|done|congruence|]. intros id. specialize (E4 id).
  unfold total. rewrite E1. lia.
Qed.

Lemma moves_exec_invoke notify ctx target methodID p w :
  moves [sys_nextMsg (w_sys w)] w (exec_invoke notify ctx target methodID p w).
Proof.
  unfold exec_invoke. rewrite new_message_spec. unfold mark_call.
  destruct notify, (System_post_check _ _) as [aid|]; apply moves_new; try done; intros id; unfold posting_ids; csimpl; lia.
Qed.

Lemma moves_exec_invoke_child notify parent ctx childID methodID p answer w w' :
  exec_invoke_child notify parent ctx childID methodID p answer w = Some w' ->
  moves [sys_nextMsg (w_sys w)] w w'.
Proof.
  unfold exec_invoke_child. destruct (actor_at parent w) as [a|]; [|done]. rewrite new_message_spec.
  destruct (Actor_findChildActor a _ answer) as [[child|]|]; unfold mark_call;
    [destruct notify| |]; intros [= <-]; apply moves_new; try done; intros id; unfold posting_ids; csimpl; lia.
Qed.

Lemma moves_exec_push i w w' : exec_push i w = Some w' -> moves [] w w'.
Proof.
  unfold exec_push. destruct (w_posting w !! i) as [[aid [id m]]|] eqn:E; [|done].
  assert (Hp : forall x, occ x (posting_ids w) =
    (occ x [id] + occ x (posting_ids (with_posting (delete i (w_posting w)) w)))%nat).
  { intros x. unfold posting_ids. simpl. rewrite (occ_delete x _ i id).
    - rewrite list_fmap_delete. simpl. lia.
    - by rewrite list_lookup_fmap, E. }
  destruct (swap_to aid id m _) as [s|] eqn:Ep; intros [= <-].
  - split_and!.
    + apply swap_to_inv in Ep as (? & ? & _ & _ & ->). simpl. lia.
    + by apply swap_to_inv in Ep as (? & ? & _ & _ & ->).
    + apply swap_to_inv in Ep as (b & ? & Hb & _ & ->). by apply (dom_update _ _ b).
    + intros x. rewrite (total_push x _ _ _ _ _ (with_posting (delete i (w_posting w)) w) Ep).
      specialize (Hp x). rewrite with_sys_id. unfold total in *. simpl in *. lia.
  - split_and!; [simpl; lia|done|done|]. intros x. specialize (Hp x). unfold total, posting_ids in *. simpl in *. lia.
Qed.

(** Every action either only moves messages, or creates one or an actor. *)
Definition fresh_heap (s : System) : Prop := forall aid, (sys_nextActor s <= aid)%nat -> sys_actors s !! aid = None.

Definition creates (w w' : world) : Prop :=
  sys_nextMsg (w_sys w') = sys_nextMsg (w_sys w) /\
  sys_nextActor (w_sys w') = S (sys_nextActor (w_sys w)) /\
  dom (sys_actors (w_sys w')) = {[sys_nextActor (w_sys w)]} ∪ dom (sys_actors (w_sys w)) /\
  forall id, total id w' = total id w.

Lemma newActor_fresh node id child now a : newActor node id child now = Ok a ->
  actor_ids a = [] /\ ac_phase a = PhInit /\ ac_path a = mkActorPath node id child /\ ac_state a = InitState /\
  ac_mail a = newMailbox /\ ac_event a = newEvent.
Proof. unfold newActor. case_if; [done|]. by intros [= <-]. Qed.

Lemma creates_store w id now s aid : fresh_heap (w_sys w) ->
  CreateActor_store id now (w_sys w) = Ok (s, aid) -> creates w (with_sys s w).
Proof.
  intros Hf. unfold CreateActor_store. destruct (newActor _ _ _ _) as [a|] eqn:E; [|done]. intros [= <- <-].
  apply newActor_fresh in E as (Hi & _). split_and!; [done|done|simpl; by rewrite dom_insert_L|].
  intros x. unfold total, posting_ids. simpl. rewrite heap_sum_insert by (by apply Hf). rewrite Hi. simpl. lia.
Qed.

Lemma creates_child_store w parent childID now s aid : fresh_heap (w_sys w) ->
  Create_store parent childID now (w_sys w) = Ok (s, aid) -> creates w (with_sys s w).
Proof.
  intros Hf. unfold Create_store. destruct (sys_actors (w_sys w) !! parent) as [p|] eqn:Ep; [|done].
  destruct (newActor _ _ _ _) as [a|] eqn:E; [|done]. intros [= <- <-].
  apply newActor_fresh in E as (Hi & _). split_and!; [done|done| |].
  { simpl. by rewrite dom_insert_L, (dom_update _ _ p). }
  intros x. unfold total, posting_ids. simpl.
  assert (sys_nextActor (w_sys w) <> parent) by (intros <-; by rewrite Hf in Ep).
  rewrite heap_sum_insert by (rewrite lookup_insert_ne by done; by apply Hf). rewrite Hi. simpl.
  pose proof (heap_sum_update (fun a => occ x (actor_ids a)) _ parent p
    (set_children (<[childID:=sys_nextActor (w_sys w)]> (ac_children p)) p) Ep) as Hsum.
  unfold actor_ids, mail_ids in *. simpl in *. lia.
Qed.

Lemma exec_registry_moves act w w' : is_registry act = true -> exec act w = Some w' -> moves [] w w'.
Proof.
  intros Hreg. unfold exec. destruct (w_crashed w); [done|]. destruct act; try done.
  - unfold System_EventRegister. destruct (sys_actors (w_sys w) !! aid) as [a|] eqn:Ha; [|done].
    destruct (actorEvent_Register _ _ _) as [e|]; [|done]. intros [= <-].
    apply (moves_trans [] w (with_sys (System_addActorEvent (Actor_PathString a) name uniqueID (w_sys w)) w));
      [by apply moves_sys|].
    by refine (moves_set_actor aid a _ (with_sys (System_addActorEvent _ name uniqueID (w_sys w)) w) Ha _).
  - unfold System_EventUnregister. destruct (sys_actors (w_sys w) !! aid) as [a|] eqn:Ha; [|done].
    intros [= <-].
    apply (moves_trans [] w (with_sys (System_removeActorEvent (Actor_PathString a) [name] (w_sys w)) w));
      [by apply moves_sys|].
    by refine (moves_set_actor aid a _ (with_sys (System_removeActorEvent _ [name] (w_sys w)) w) Ha _).
  - destruct (actor_at aid w) as [a|] eqn:Ha; [|done]. intros [= <-]. by apply (moves_set_actor aid a).
  - destruct (actor_at aid w) as [a|] eqn:Ha; [|done]. intros [= <-]. by apply (moves_set_actor aid a).
  - destruct (actor_at aid w) as [a|] eqn:Ha; [|done]. destruct (actorTimer_Push _ _) as [t|]; [|done].
    intros [= <-]. by apply (moves_set_actor aid a).
Qed.

Lemma exec_register_inv aid id h w w' : exec_register aid id h w = Some w' ->
  exists a, actor_at aid w = Some a /\
    (w' = w \/ exists mail table, mailbox_Register id h (ac_path a) (ac_state a) (sys_methods (w_sys w)) (ac_mail a) =
       inl (mail, table) /\ let w1 := with_sys (set_actor aid (set_mail mail a) (with_methods table (w_sys w))) w in
       w' = if serving a then w1 else add_late (aid, id) w1).
Proof.
  unfold exec_register. destruct (actor_at aid w) as [a|]; [|done]. intros H. exists a. split; [done|].
  destruct (mailbox_Register _ _ _ _ _ _) as [[mail table]|]; injection H as <-; [|by left]. right. by exists mail, table.
Qed.

(** The later steps of a push. *)
Definition is_push_step (act : action) : bool :=
  match act with ACounted _ _ | ASent _ _ _ _ => true | _ => false end.

Lemma exec_push_step act w w' : is_push_step act = true -> exec act w = Some w' ->
  exists aid a a', actor_at aid w = Some a /\ touched a a' /\
    let w1 := with_sys (set_actor aid a' (w_sys w)) w in w' = w1 \/ w' = crash w1.
Proof.
  intros Hp. unfold exec. destruct (w_crashed w); [done|]. destruct act; try done.
  - destruct (actor_at aid w) as [a|] eqn:Ha; simpl; [|done]. destruct (Actor_counted k a) as [a'|] eqn:E; [|done].
    intros [= <-]. exists aid, a, a'. split; [done|]. split; [by eapply Actor_counted_touched|by left].
  - destruct (actor_at aid w) as [a|] eqn:Ha; simpl; [|done]. destruct (Actor_sent k i a) as [[a' b]|] eqn:E; [|done].
    intros [= <-]. exists aid, a, a'. split; [done|]. split; [by eapply Actor_sent_touched|].
    destruct (b && negb recovered); [by right|by left].
Qed.

Lemma moves_push_step act w w' : is_push_step act = true -> exec act w = Some w' -> moves [] w w'.
Proof.
  intros Hp (aid & a & a' & Ha & Ht & Hw)%exec_push_step; [|done].
  assert (Hm : moves [] w (with_sys (set_actor aid a' (w_sys w)) w)).
  { apply (moves_set_actor aid a); [done|]. by rewrite (touched_ids _ _ Ht). }
  destruct Hw as [->| ->]; [done|by apply moves_crash].
Qed.

Lemma exec_cases act w w' : fresh_heap (w_sys w) -> exec act w = Some w' ->
  moves [] w w' \/ moves [sys_nextMsg (w_sys w)] w w' \/ creates w w'.
Proof.
  intros Hf. destruct (is_registry act) eqn:Hreg; [left; by eapply exec_registry_moves|].
  destruct (is_push_step act) eqn:Hps; [left; by eapply moves_push_step|]. unfold exec. destruct (w_crashed w); [done|]. destruct act; try done.
  - intros [= <-]. right. left. apply moves_exec_invoke.
  - intros H. right. left. by eapply moves_exec_invoke_child.
  - intros H. left. by eapply moves_exec_push.
  - destruct (CreateActor_check id (w_sys w)); intros [= <-]; left; by apply moves_same.
  - destruct (w_creating w !! i) as [id|]; [|done].
    destruct (CreateActor_store id now _) as [[s aid]|] eqn:E; intros [= <-]; [|left; by apply moves_same].
    right. right. by apply (creates_store w id now s aid) in E.
  - destruct (actor_at parent w) as [a|]; [|done].
    destruct (Create_check a childID) as [[]|]; intros [= <-]; left; by apply moves_same.
  - destruct (w_childCreating w !! i) as [[parent childID]|]; [|done].
    destruct (Create_store parent childID now _) as [[s aid]|] eqn:E; intros [= <-]; [|left; by apply moves_same].
    right. right. by apply (creates_child_store w parent childID now s aid) in E.
  - intros (a & Ha & [->|(mail & table & E & Hw)])%exec_register_inv; left; [apply moves_refl|].
    assert (Hm : moves [] w (with_sys (set_actor aid (set_mail mail a) (with_methods table (w_sys w))) w)).
    { apply (moves_trans [] w (with_sys (with_methods table (w_sys w)) w)); [by apply moves_sys|].
      refine (moves_set_actor aid a _ (with_sys (with_methods table (w_sys w)) w) Ha _).
      unfold mailbox_Register in E. repeat case_match_in E; simplify_eq/=; done. }
    simpl in Hw. rewrite Hw. destruct (serving a); [done|]. by apply moves_late.
  - destruct (actor_at aid w) as [a|] eqn:Ha; [|done]. destruct (ac_phase a) eqn:Hph; try done.
    destruct panicked; intros [= <-]; left; [apply moves_routes; [done|by rewrite Hph]|].
    apply (moves_set_actor aid a); [done|]. ids.
  - destruct (actor_at aid w) as [a|] eqn:Ha; [|done]. destruct (ac_phase a) eqn:Hph; try done.
    intros H. left. by eapply moves_loop.
  - destruct (actor_at aid w) as [a|] eqn:Ha; [|done]. destruct (ac_phase a) as [| |id m| | |] eqn:Hph; try done.
    destruct answer as [child|]; intros [= <-]; left.
    + apply (moves_forward aid a); [done|]. ids.
    + refine (moves_finish aid a (set_phase PhLoop a) id m _ w Ha _). ids.
  - destruct (actor_at aid w) as [a|] eqn:Ha; [|done]. destruct (ac_phase a) as [| | |id m| |] eqn:Hph; try done.
    intros [= <-]. left. apply (moves_finish aid a); [done|]. ids.
  - destruct (actor_at aid w) as [a|] eqn:Ha; [|done]. destruct (ac_phase a) as [| | | |err|] eqn:Hph; try done.
    destruct (onStop_queues _ _ _ _ _) as [s|] eqn:E; intros [= <-]; left; [by eapply moves_queues|].
    apply moves_crash, moves_refl.
  - destruct (actor_at aid w) as [a|] eqn:Ha; [|done]. intros [= <-]. left. by apply (moves_set_actor aid a).
  - destruct (System_PostEvent _ data _) as [s|] eqn:E; intros [= <-]; left; [by eapply moves_PostEvent|].
    apply moves_crash, moves_refl.
Qed.

Lemma fresh_set_actor s aid a a' : sys_actors s !! aid = Some a -> fresh_heap s -> fresh_heap (set_actor aid a' s).
Proof.
  intros Ha Hf k Hk. simpl in *. rewrite lookup_insert_ne; [by apply Hf|].
  intros <-. by rewrite (Hf aid Hk) in Ha.
Qed.

(** ** What is answered *)

Definition msg_ch (x : nat * Message) : nat * option Z := (x.1, m_Chan x.2).
Definition phase_chs (p : phase) : list (nat * option Z) :=
  match p with PhFind id m | PhRun id m => [(id, m_Chan m)] | _ => [] end.
Definition mail_chs (a : Actor) : list (nat * option Z) := msg_ch <$> aq_items (mb_queue (ac_mail a)).
Definition actor_chs (a : Actor) : list (nat * option Z) := mail_chs a ++ phase_chs (ac_phase a).

(** A message with its result channel is queued, in the hands of an actor or of a sender. *)
Definition heap_holds (h : gmap nat Actor) (x : nat * option Z) : Prop :=
  exists aid a, h !! aid = Some a /\ x ∈ actor_chs a.
Definition holds (w : world) (x : nat * option Z) : Prop :=
  heap_holds (sys_actors (w_sys w)) x \/ x ∈ ((fun p => msg_ch p.2) <$> w_posting w).

Lemma heap_holds_insert h aid a x : heap_holds (<[aid := a]> h) x -> x ∈ actor_chs a \/ heap_holds h x.
Proof.
  intros (k & b & Hk & Hx). rewrite lookup_insert_Some in Hk. destruct Hk as [[_ <-]|[_ Hk]]; [by left|].
  right. by exists k, b.
Qed.

Lemma heap_holds_alter h k f x : (forall b y, y ∈ actor_chs (f b) -> y ∈ actor_chs b) ->
  heap_holds (alter f k h) x -> heap_holds h x.
Proof.
  intros Hf (i & b & Hi & Hx). rewrite lookup_alter_Some in Hi. destruct Hi as [(<- & c & Hc & ->)|[_ Hi]].
  - exists k, c. split; [done|by apply Hf].
  - by exists i, b.
Qed.

Lemma heap_holds_exit l h x : heap_holds (exit_children l h) x -> heap_holds h x.
Proof. induction l as [|c l IH]; simpl; [done|]. intros H%heap_holds_alter; [by apply IH|done]. Qed.

Lemma holds_set_actor aid a a' s w x : sys_actors s = sys_actors (w_sys w) -> actor_at aid w = Some a ->
  (forall y, y ∈ actor_chs a' -> y ∈ actor_chs a) -> holds (with_sys (set_actor aid a' s) w) x -> holds w x.
Proof.
  intros E Ha Hs [H|H]; [|by right]. left. simpl in H. rewrite E in H.
  apply heap_holds_insert in H as [H|H]; [|done]. exists aid, a. split; [done|by apply Hs].
Qed.

(** Nothing is answered. *)
Definition quiet (w w' : world) : Prop :=
  sys_results (w_sys w') = sys_results (w_sys w) /\ sys_recycled (w_sys w') = sys_recycled (w_sys w) /\
  w_rejected w' = w_rejected w /\ w_calls w' = w_calls w /\ forall x, holds w' x -> holds w x.

(** One held message is finished. *)
Definition finishes (w w' : world) : Prop :=
  exists id ch r, holds w (id, ch) /\ sys_recycled (w_sys w') = id :: sys_recycled (w_sys w) /\
  sys_results (w_sys w') = match ch with Some c => [(c, r)] | None => [] end ++ sys_results (w_sys w) /\
  w_rejected w' = w_rejected w /\ w_calls w' = w_calls w /\ forall x, holds w' x -> holds w x.

(** One message is created: it has a sender, was rejected, or is lost in a panic. *)
Definition opens (w w' : world) : Prop :=
  exists call : bool, let id := sys_nextMsg (w_sys w) in
  sys_results (w_sys w') = sys_results (w_sys w) /\
  w_calls w' = (if call then [id] else []) ++ w_calls w /\
  exists back : bool,
    sys_recycled (w_sys w') = (if back then [id] else []) ++ sys_recycled (w_sys w) /\
    w_rejected w' = (if back then [id] else []) ++ w_rejected w /\
    forall x, holds w' x -> holds w x \/ x = (id, if call then Some (Z.of_nat id) else None).

Lemma quiet_refl w : quiet w w.
Proof. by split_and!. Qed.

Lemma quiet_same w w' : w_sys w' = w_sys w -> w_posting w' = w_posting w -> w_rejected w' = w_rejected w ->
  w_calls w' = w_calls w -> quiet w w'.
Proof. intros E1 E2 E3 E4. unfold quiet, holds. rewrite E1, E2, E3, E4. by split_and!. Qed.

Lemma quiet_set_actor aid a a' s w :
  sys_actors s = sys_actors (w_sys w) -> sys_results s = sys_results (w_sys w) ->
  sys_recycled s = sys_recycled (w_sys w) -> actor_at aid w = Some a ->
  (forall y, y ∈ actor_chs a' -> y ∈ actor_chs a) -> quiet w (with_sys (set_actor aid a' s) w).
Proof. intros E1 E2 E3 Ha Hs. split_and!; try done. intros x. by apply (holds_set_actor aid a). Qed.

Lemma finishes_intro aid a a' i m r w :
  actor_at aid w = Some a -> (i, m_Chan m) ∈ actor_chs a ->
  (forall y, y ∈ actor_chs a' -> y ∈ actor_chs a) ->
  finishes w (with_sys (Actor_finishTyped i m r (set_actor aid a' (w_sys w))) w).
Proof.
  intros Ha Hi Hs. exists i, (m_Chan m), r. unfold Actor_finishTyped.
  split_and!; try (destruct (m_Chan m); done).
  - left. by exists aid, a.
  - intros x Hx. apply (holds_set_actor aid a a' (w_sys w) w x eq_refl Ha Hs).
    by destruct (m_Chan m).
Qed.

Lemma quiet_forward aid a a' c i m w :
  actor_at aid w = Some a -> (i, m_Chan m) ∈ actor_chs a ->
  (forall y, y ∈ actor_chs a' -> y ∈ actor_chs a) ->
  quiet w (forward_to c i m (with_sys (set_actor aid a' (w_sys w)) w)).
Proof.
  intros Ha Hi Hs. unfold forward_to. destruct (swap_to _ _ _ _) as [s|] eqn:E.
  - apply swap_to_inv in E as (b & mail' & Hb & Hp & ->). split_and!; try done.
    apply mailbox_swap_inv in Hp as (_ & Hit & _).
    intros x [H|H]; [|by right]. simpl in H. apply heap_holds_insert in H as [H|H].
    + unfold actor_chs, mail_chs in H. simpl in H. rewrite Hit, fmap_app, !elem_of_app in H.
      destruct H as [[H|H%list_elem_of_singleton]|H].
      * apply (holds_set_actor aid a a' (w_sys w) w x eq_refl Ha Hs). left. exists c, b.
        split; [done|]. apply elem_of_app. by left.
      * subst x. left. by exists aid, a.
      * apply (holds_set_actor aid a a' (w_sys w) w x eq_refl Ha Hs). left. exists c, b.
        split; [done|]. apply elem_of_app. by right.
    + apply (holds_set_actor aid a a' (w_sys w) w x eq_refl Ha Hs). by left.
  - split_and!; try done. intros x. by apply (holds_set_actor aid a a' (w_sys w) w x eq_refl Ha Hs).
Qed.

(** Channels of an updated actor: the goal is an inclusion of computed lists. *)
Ltac chs := intros ?y; unfold actor_chs, mail_chs; simpl;
  repeat match goal with
  | H : ac_phase _ = _ |- _ => rewrite H
  | H : aq_items _ = _ |- _ => rewrite H
  end; rewrite ?fmap_app, ?fmap_cons, ?elem_of_app, ?elem_of_cons; simpl;
  rewrite ?elem_of_app, ?elem_of_cons; tauto.

Lemma answers_invokeTyped aid a0 a now c i m w :
  actor_at aid w = Some a0 -> ac_phase a = PhLoop -> (i, m_Chan m) ∈ actor_chs a0 ->
  (forall y, y ∈ actor_chs a -> y ∈ actor_chs a0) ->
  quiet w (Actor_invokeTyped aid a now c i m w) \/ finishes w (Actor_invokeTyped aid a now c i m w).
Proof.
  intros Ha Hph Hi Hs. unfold Actor_invokeTyped.
  assert (HL : forall y, y ∈ actor_chs (set_phase PhLoop a) -> y ∈ actor_chs a0).
  { intros y Hy. apply Hs. revert y Hy. chs. }
  destruct (invokeTyped_start _ _ _ _ _) as [r| |].
  - right. by apply (finishes_intro aid a0).
  - left. apply (quiet_set_actor aid a0); try done. intros y [Hy|Hy]%elem_of_app.
    + apply Hs. apply elem_of_app. by left.
    + apply list_elem_of_singleton in Hy as ->. done.
  - left. by apply (quiet_set_actor aid a0 (set_phase PhLoop a)).
Qed.

Lemma TargetPath_chan m : m_Chan (Message_TargetPath m).2 = m_Chan m.
Proof. unfold Message_TargetPath. by destruct (m_targetPath m). Qed.

Lemma answers_processTyped aid a0 a now c i m w :
  actor_at aid w = Some a0 -> ac_phase a = PhLoop -> (i, m_Chan m) ∈ actor_chs a0 ->
  (forall y, y ∈ actor_chs a -> y ∈ actor_chs a0) ->
  quiet w (Actor_processTyped aid a now c i m w) \/ finishes w (Actor_processTyped aid a now c i m w).
Proof.
  intros Ha Hph Hi Hs. unfold Actor_processTyped. pose proof (TargetPath_chan m) as Hch.
  destruct (Message_TargetPath m) as [path m']. simpl in Hch. rewrite <- Hch in Hi.
  assert (HL : forall y, y ∈ actor_chs (set_phase PhLoop a) -> y ∈ actor_chs a0).
  { intros y Hy. apply Hs. revert y Hy. chs. }
  case_if; [|by apply (answers_invokeTyped aid a0)]. left. destruct (path ≫= _).
  - by apply (quiet_forward aid a0).
  - apply (quiet_set_actor aid a0); try done. intros y [Hy|Hy]%elem_of_app.
    + apply Hs. apply elem_of_app. by left.
    + apply list_elem_of_singleton in Hy as ->. done.
Qed.

Lemma answers_processMail aid a now c w w' :
  actor_at aid w = Some a -> ac_phase a = PhLoop -> Actor_processMail aid a now c w = Some w' ->
  quiet w w' \/ finishes w w'.
Proof.
  intros Ha Hph. unfold Actor_processMail. destruct (aq_recv _) as [q|] eqn:Eq; [|done].
  apply aq_recv_inv in Eq as (Hq & _). destruct (mailbox_Pop _) as [[[[id m]|] mail]|] eqn:Ep; [| |done];
    apply mailbox_Pop_inv in Ep as (_ & _ & Hi); cbn [mb_queue] in Hi; rewrite Hq in Hi; simpl in Hi.
  - assert (Hin : (id, m_Chan m) ∈ actor_chs a).
    { unfold actor_chs, mail_chs. rewrite Hi, fmap_cons. by left. }
    assert (Hs : forall y, y ∈ actor_chs (set_lastAt (now / 1000000000) (set_mail mail a)) -> y ∈ actor_chs a).
    { chs. }
    case_if; intros [= <-].
    + right. by apply (finishes_intro aid a).
    + by apply (answers_processTyped aid a).
  - intros [= <-]. left. apply (quiet_set_actor aid a); try done. chs.
Qed.

Lemma quiet_routes aid a err w :
  quiet w (with_sys (onStop_routes aid a err (w_sys w)) w).
Proof.
  assert (Hp : forall b y, y ∈ actor_chs (set_phase (PhStop err) b) -> y ∈ actor_chs b).
  { intros b y. unfold actor_chs. rewrite !elem_of_app. intros [H|H]; [by left|]. by apply not_elem_of_nil in H. }
  unfold onStop_routes. destruct (ActorPath_IsParent (Some (ac_path a))).
  - assert (H : forall s x, sys_actors s = sys_actors (w_sys w) ->
      heap_holds (alter (fun b => set_phase (PhStop err) (set_childOwner false b)) aid
        (exit_children ((map_to_list (ac_children a)).*2) (sys_actors s))) x -> heap_holds (sys_actors (w_sys w)) x).
    { intros s x <- H%heap_holds_alter; [by apply heap_holds_exit in H|]. intros b y Hy. by apply Hp in Hy. }
    destruct (sys_app (w_sys w)), (sys_methods (w_sys w)); split_and!; try done;
      intros x [Hx|Hx]; try (by right); left; by eapply H; [|exact Hx].
  - destruct (System_GetActor (ActorID (ac_path a)) (w_sys w)); split_and!; try done;
      intros x [Hx|Hx]; try (by right); left; simpl in Hx; apply heap_holds_alter in Hx; try exact Hp; [|done].
    by apply heap_holds_alter in Hx.
Qed.

Lemma quiet_trans w1 w2 w3 : quiet w1 w2 -> quiet w2 w3 -> quiet w1 w3.
Proof. intros (?&?&?&?&?) (?&?&?&?&?). split_and!; try congruence. auto. Qed.

Lemma quiet_PostEvent_range epush data l s' w : PostEvent_range epush data l (w_sys w) = Some s' -> quiet w (with_sys s' w).
Proof.
  revert w. induction l as [|[path v] l IH]; intros w; simpl.
  - intros [= <-]. rewrite with_sys_id. apply quiet_refl.
  - destruct (PostEvent_one epush data path v (w_sys w)) as [s1|] eqn:E; [|done]. intros H.
    apply (quiet_trans w (with_sys s1 w)); [|by apply (IH (with_sys s1 w))].
    apply PostEvent_one_cases in E as [->|(aid & a & e & _ & Ha & _ & _ & _ & ->)].
    + rewrite with_sys_id. apply quiet_refl.
    + by apply (quiet_set_actor aid a).
Qed.

Lemma quiet_PostEvent epush data s' w : System_PostEvent epush data (w_sys w) = Some s' -> quiet w (with_sys s' w).
Proof.
  unfold System_PostEvent. destruct data as [d|]; [case_if; [|destruct (sys_eventMap _ !! _)]|];
    try (intros [= <-]; rewrite with_sys_id; apply quiet_refl). apply quiet_PostEvent_range.
Qed.

Lemma quiet_touched aid a a' w : actor_at aid w = Some a -> touched a a' ->
  quiet w (with_sys (set_actor aid a' (w_sys w)) w).
Proof.
  intros Ha [Hi Hp]%touched_items. apply (quiet_set_actor aid a); try done.
  intros y. unfold actor_chs, mail_chs. by rewrite Hi, Hp.
Qed.

Lemma answers_loop aid a c w w' :
  actor_at aid w = Some a -> ac_phase a = PhLoop -> Actor_loop aid a c w = Some w' ->
  quiet w w' \/ finishes w w'.
Proof.
  intros Ha Hph. unfold Actor_loop. destruct c; destruct (loop_done a); try done.
  - intros [= <-]. left. apply quiet_routes.
  - by apply answers_processMail.
  - unfold Actor_processEvent. destruct (aq_recv _) as [q|]; [|done].
    destruct (actorEvent_Pop _) as [[[data|] e]|]; [| |done]; intros [= <-]; left;
      by apply (quiet_set_actor aid a (set_event e a)) || by apply (quiet_set_actor aid a).
  - unfold Actor_processTimer. destruct (aq_recv _) as [q|]; [|done].
    destruct (actorTimer_Pop _) as [[id t]|]; [|done].
    case_if; [intros [= <-]; left; by apply (quiet_set_actor aid a)|].
    destruct (actorTimer_invokeFunc id t) as [fn t']. intros [= <-]. left.
    by apply (quiet_set_actor aid a (set_timer t' a)).
  - intros (a' & Ht & ->)%Actor_processNil_touched. left. by apply (quiet_touched aid a).
  - destruct (ac_close a); [|done]. intros [= <-]. left. by apply (quiet_set_actor aid a).
Qed.

Lemma quiet_queues aid a err panics s' w :
  actor_at aid w = Some a -> ac_phase a = PhStop err -> onStop_queues aid a err panics (w_sys w) = Some s' ->
  quiet w (with_sys s' w).
Proof.
  intros Ha Hph. unfold onStop_queues.
  destruct panics; [intros [= <-]; destruct err; apply (quiet_set_actor aid a); try done; chs|]. simpl.
  destruct (aq_Destroy (ae_queue _)); [|done]. unfold mailbox_onStop, aq_Destroy.
  destruct (aq_closed (mb_queue (ac_mail a))); [done|]. intros [= <-].
  destruct err; apply (quiet_set_actor aid a); try done; chs.
Qed.

Lemma quiet_push i w w' : exec_push i w = Some w' -> quiet w w'.
Proof.
  unfold exec_push. destruct (w_posting w !! i) as [[aid [id m]]|] eqn:E; [|done].
  assert (Hd : forall x, x ∈ ((fun p : nat * (nat * Message) => msg_ch p.2) <$> delete i (w_posting w)) ->
    x ∈ ((fun p : nat * (nat * Message) => msg_ch p.2) <$> w_posting w)).
  { intros x. rewrite !list_elem_of_fmap. intros (p & -> & Hp). exists p. split; [done|].
    revert Hp. apply sublist_subseteq, sublist_delete. }
  destruct (swap_to aid id m _) as [s|] eqn:Ep; intros [= <-].
  - apply swap_to_inv in Ep as (b & mail' & Hb & Hp & ->). split_and!; try done.
    apply mailbox_swap_inv in Hp as (_ & Hit & _).
    intros x [H|H]; [|right; by apply Hd]. simpl in H. apply heap_holds_insert in H as [H|H]; [|by left].
    unfold actor_chs, mail_chs in H. simpl in H. rewrite Hit, fmap_app, !elem_of_app in H.
    destruct H as [[H|H%list_elem_of_singleton]|H].
    + left. exists aid, b. split; [done|]. apply elem_of_app. by left.
    + subst x. right. apply list_elem_of_fmap. exists (aid, (id, m)). split; [done|].
      by eapply list_elem_of_lookup_2.
    + left. exists aid, b. split; [done|]. apply elem_of_app. by right.
  - split_and!; try done. intros x [H|H]; [by left|right; by apply Hd].
Qed.

Lemma opens_invoke notify ctx target methodID p w : opens w (exec_invoke notify ctx target methodID p w).
Proof.
  unfold exec_invoke. rewrite new_message_spec. exists (negb notify). unfold mark_call.
  destruct notify; simpl; (split_and!; [destruct (System_post_check _ _); done..|]);
    destruct (System_post_check _ _) as [aid|];
    [exists false|exists true|exists false|exists true]; (split_and!; [done|done|]);
    intros x [H|H]; try (left; by left); try (left; by right);
    simpl in H; rewrite elem_of_cons in H; (destruct H as [->|H]; [by right|left; by right]).
Qed.

Lemma opens_invoke_child notify parent ctx childID methodID p answer w w' :
  exec_invoke_child notify parent ctx childID methodID p answer w = Some w' -> opens w w'.
Proof.
  unfold exec_invoke_child. destruct (actor_at parent w) as [a|]; [|done]. rewrite new_message_spec.
  destruct (Actor_findChildActor a _ answer) as [[child|]|]; unfold mark_call; intros H.
  - exists (negb notify). destruct notify; injection H as <-; simpl; (split_and!; [done..|]);
      exists false; (split_and!; [done|done|]); intros x [H|H]; try (left; by left);
      simpl in H; rewrite elem_of_cons in H; (destruct H as [->|H]; [by right|left; by right]).
  - injection H as <-. exists false. split_and!; [done..|]. exists true. split_and!; [by destruct notify|done|].
    intros x [H|H]; left; [by left|by right].
  - injection H as <-. exists false. split_and!; [done..|]. exists false. split_and!; [done|done|].
    intros x [H|H]; left; [by left|by right].
Qed.

Lemma quiet_create id now s aid w :
  CreateActor_store id now (w_sys w) = Ok (s, aid) -> quiet w (with_sys s w).
Proof.
  unfold CreateActor_store. destruct (newActor _ _ _ _) as [a|] eqn:E; [|done]. intros [= <- <-].
  unfold newActor in E. case_if_in E; [done|]. injection E as <-.
  split_and!; try done. intros x [H|H]; [|by right]. left. simpl in H.
  apply heap_holds_insert in H as [H|H]; [|done]. by apply not_elem_of_nil in H.
Qed.

Lemma quiet_child_create parent childID now s aid w :
  Create_store parent childID now (w_sys w) = Ok (s, aid) -> quiet w (with_sys s w).
Proof.
  unfold Create_store. destruct (sys_actors (w_sys w) !! parent) as [p|] eqn:Ep; [|done].
  destruct (newActor _ _ _ _) as [a|] eqn:E; [|done]. intros [= <- <-].
  unfold newActor in E. case_if_in E; [done|]. injection E as <-.
  split_and!; try done. intros x [H|H]; [|by right]. left. simpl in H.
  apply heap_holds_insert in H as [H|H]; [by apply not_elem_of_nil in H|].
  apply heap_holds_insert in H as [H|H]; [|done]. by exists parent, p.
Qed.

Lemma exec_registry_quiet act w w' : is_registry act = true -> exec act w = Some w' -> quiet w w'.
Proof.
  intros Hreg. unfold exec. destruct (w_crashed w); [done|]. destruct act; try done.
  - unfold System_EventRegister. destruct (sys_actors (w_sys w) !! aid) as [a|] eqn:Ha; [|done].
    destruct (actorEvent_Register _ _ _) as [e|]; [|done]. intros [= <-]. by apply (quiet_set_actor aid a).
  - unfold System_EventUnregister. destruct (sys_actors (w_sys w) !! aid) as [a|] eqn:Ha; [|done].
    intros [= <-]. by apply (quiet_set_actor aid a).
  - destruct (actor_at aid w) as [a|] eqn:Ha; [|done]. intros [= <-]. by apply (quiet_set_actor aid a).
  - destruct (actor_at aid w) as [a|] eqn:Ha; [|done]. intros [= <-]. by apply (quiet_set_actor aid a).
  - destruct (actor_at aid w) as [a|] eqn:Ha; [|done]. destruct (actorTimer_Push _ _) as [t|]; [|done].
    intros [= <-]. by apply (quiet_set_actor aid a).
Qed.

Lemma quiet_push_step act w w' : is_push_step act = true -> exec act w = Some w' -> quiet w w'.
Proof.
  intros Hp (aid & a & a' & Ha & Ht & Hw)%exec_push_step; [|done].
  pose proof (quiet_touched aid a a' w Ha Ht) as Hq. destruct Hw as [->| ->]; [done|exact Hq].
Qed.

Lemma quiet_register aid id h w w' : exec_register aid id h w = Some w' -> quiet w w'.
Proof.
  intros (a & Ha & [->|(mail & table & E & Hw)])%exec_register_inv; [apply quiet_refl|].
  assert (Hq : quiet w (with_sys (set_actor aid (set_mail mail a) (with_methods table (w_sys w))) w)).
  { apply (quiet_set_actor aid a); try done. unfold mailbox_Register in E.
    repeat case_match_in E; simplify_eq/=; done. }
  simpl in Hw. rewrite Hw. destruct (serving a); exact Hq.
Qed.

Lemma exec_answers act w w' : exec act w = Some w' -> quiet w w' \/ finishes w w' \/
  (opens w w' /\ moves [sys_nextMsg (w_sys w)] w w').
Proof.
  destruct (is_registry act) eqn:Hreg; [left; by eapply exec_registry_quiet|].
  destruct (is_push_step act) eqn:Hps; [left; by eapply quiet_push_step|]. unfold exec. destruct (w_crashed w); [done|]. destruct act; try done.
  - intros [= <-]. right. right. split; [apply opens_invoke|apply moves_exec_invoke].
  - intros H. right. right. split; [by eapply opens_invoke_child|by eapply moves_exec_invoke_child].
  - intros H. left. by eapply quiet_push.
  - destruct (CreateActor_check id (w_sys w)); intros [= <-]; left; by apply quiet_same.
  - destruct (w_creating w !! i) as [id|]; [|done].
    destruct (CreateActor_store id now _) as [[s aid]|] eqn:E; intros [= <-]; left; [|by apply quiet_same].
    by eapply (quiet_create id now s aid w).
  - destruct (actor_at parent w) as [a|]; [|done].
    destruct (Create_check a childID) as [[]|]; intros [= <-]; left; by apply quiet_same.
  - destruct (w_childCreating w !! i) as [[parent childID]|]; [|done].
    destruct (Create_store parent childID now _) as [[s aid]|] eqn:E; intros [= <-]; left; [|by apply quiet_same].
    by eapply (quiet_child_create parent childID now s aid w).
  - intros H. left. by eapply quiet_register.
  - destruct (actor_at aid w) as [a|] eqn:Ha; [|done]. destruct (ac_phase a) eqn:Hph; try done.
    destruct panicked; intros [= <-]; left; [apply quiet_routes|].
    apply (quiet_set_actor aid a); try done. chs.
  - destruct (actor_at aid w) as [a|] eqn:Ha; [|done]. destruct (ac_phase a) eqn:Hph; try done.
    intros H. destruct (answers_loop aid a c w w' Ha Hph H); auto.
  - destruct (actor_at aid w) as [a|] eqn:Ha; [|done]. destruct (ac_phase a) as [| |id m| | |] eqn:Hph; try done.
    assert (Hi : (id, m_Chan m) ∈ actor_chs a).
    { unfold actor_chs. rewrite Hph. apply elem_of_app. right. by left. }
    assert (Hs : forall y, y ∈ actor_chs (set_phase PhLoop a) -> y ∈ actor_chs a) by chs.
    destruct answer as [child|]; intros [= <-].
    + left. by apply (quiet_forward aid a).
    + right. left. exact (finishes_intro aid a (set_phase PhLoop a) id m _ w Ha Hi Hs).
  - destruct (actor_at aid w) as [a|] eqn:Ha; [|done]. destruct (ac_phase a) as [| | |id m| |] eqn:Hph; try done.
    assert (Hi : (id, m_Chan m) ∈ actor_chs a).
    { unfold actor_chs. rewrite Hph. apply elem_of_app. right. by left. }
    intros [= <-]. right. left. apply (finishes_intro aid a); try done. chs.
  - destruct (actor_at aid w) as [a|] eqn:Ha; [|done]. destruct (ac_phase a) as [| | | |err|] eqn:Hph; try done.
    destruct (onStop_queues _ _ _ _ _) as [s|] eqn:E; intros [= <-]; left; [by eapply quiet_queues|by apply quiet_same].
  - destruct (actor_at aid w) as [a|] eqn:Ha; [|done]. intros [= <-]. left. by apply (quiet_set_actor aid a).
  - destruct (System_PostEvent _ data _) as [s|] eqn:E; intros [= <-]; left; [by eapply quiet_PostEvent|by apply quiet_same].
Qed.

(** Results sent for message [id]. *)
Definition results_for (id : nat) (l : list Z) : nat := length (filter (fun c => c = Z.of_nat id) l).
Definition result_chans (w : world) : list Z := fst <$> sys_results (w_sys w).

Record delivery_inv (w : world) : Prop := {
  di_fresh : fresh_heap (w_sys w);
  di_total : forall id, total id w = (if Nat.ltb id (sys_nextMsg (w_sys w)) then 1 else 0)%nat;
  di_chan : forall id ch, holds w (id, ch) ->
    (ch = Some (Z.of_nat id) /\ id ∈ w_calls w) \/ (ch = None /\ id ∉ w_calls w);
  di_calls : forall id, id ∈ w_calls w -> (id < sys_nextMsg (w_sys w))%nat;
  di_call : forall id, id ∈ w_calls w ->
    (results_for id (result_chans w) + occ id (w_rejected w) = occ id (sys_recycled (w_sys w)))%nat;
  di_notify : forall id, id ∉ w_calls w -> results_for id (result_chans w) = 0%nat;
  di_rejected : forall id, (occ id (w_rejected w) <= occ id (sys_recycled (w_sys w)))%nat }.

Lemma results_for_cons id c l :
  results_for id (c :: l) = ((if decide (c = Z.of_nat id) then 1 else 0) + results_for id l)%nat.
Proof.
  unfold results_for. destruct (decide (c = Z.of_nat id)).
  - by rewrite filter_cons_True.
  - by rewrite filter_cons_False.
Qed.

Lemma recycled_below w id : delivery_inv w -> (occ id (sys_recycled (w_sys w)) <= total id w)%nat.
Proof. intros _. unfold total. lia. Qed.

Lemma fresh_moves l w w' : moves l w w' -> fresh_heap (w_sys w) -> fresh_heap (w_sys w').
Proof.
  intros (_ & E & D & _) Hf aid Ha. rewrite E in Ha. apply Hf in Ha. apply not_elem_of_dom.
  rewrite D. by apply not_elem_of_dom.
Qed.

Lemma total_moves l w w' : (l = [] \/ l = [sys_nextMsg (w_sys w)]) -> moves l w w' ->
  (forall id, total id w = (if Nat.ltb id (sys_nextMsg (w_sys w)) then 1 else 0)%nat) ->
  forall id, total id w' = (if Nat.ltb id (sys_nextMsg (w_sys w')) then 1 else 0)%nat.
Proof.
  intros Hl (En & _ & _ & Ht) H id. rewrite Ht, H, En. destruct Hl as [->| ->]; simpl.
  - rewrite !Nat.add_0_r. destruct (Nat.ltb_spec id (sys_nextMsg (w_sys w))); lia.
  - destruct (Nat.eqb_spec id (sys_nextMsg (w_sys w))), (Nat.ltb_spec id (sys_nextMsg (w_sys w))),
      (Nat.ltb_spec id (sys_nextMsg (w_sys w) + 1)); lia.
Qed.

Lemma fresh_creates w w' : creates w w' -> fresh_heap (w_sys w) -> fresh_heap (w_sys w').
Proof.
  intros (_ & E & D & _) Hf aid Ha. rewrite E in Ha. apply not_elem_of_dom. rewrite D.
  rewrite not_elem_of_union, not_elem_of_singleton, not_elem_of_dom. split; [lia|]. apply Hf. lia.
Qed.

Lemma total_creates w w' : creates w w' ->
  (forall id, total id w = (if Nat.ltb id (sys_nextMsg (w_sys w)) then 1 else 0)%nat) ->
  forall id, total id w' = (if Nat.ltb id (sys_nextMsg (w_sys w')) then 1 else 0)%nat.
Proof. intros (En & _ & _ & Ht) H id. by rewrite Ht, H, En. Qed.

Lemma exec_next act w w' : fresh_heap (w_sys w) -> exec act w = Some w' ->
  (sys_nextMsg (w_sys w) <= sys_nextMsg (w_sys w'))%nat.
Proof.
  intros Hf He. destruct (exec_cases _ _ _ Hf He) as [H|[H|H]]; destruct H as [H _]; rewrite H; simpl; lia.
Qed.

Lemma exec_base act w w' : delivery_inv w -> exec act w = Some w' ->
  fresh_heap (w_sys w') /\ forall id, total id w' = (if Nat.ltb id (sys_nextMsg (w_sys w')) then 1 else 0)%nat.
Proof.
  intros I He. pose proof (di_fresh w I) as Hf. pose proof (di_total w I) as Ht.
  destruct (exec_cases _ _ _ Hf He) as [H|[H|H]].
  - split; [by eapply fresh_moves|]. eapply total_moves; [|exact H|done]. by left.
  - split; [by eapply fresh_moves|]. eapply total_moves; [|exact H|done]. by right.
  - split; [by eapply fresh_creates|by eapply total_creates].
Qed.

Lemma new_not_recycled w : delivery_inv w -> occ (sys_nextMsg (w_sys w)) (sys_recycled (w_sys w)) = 0%nat.
Proof.
  intros I. pose proof (recycled_below w (sys_nextMsg (w_sys w)) I) as H.
  rewrite (di_total w I) in H. rewrite (proj2 (Nat.ltb_ge _ _)) in H by lia. lia.
Qed.

Lemma delivery_quiet w w' : delivery_inv w -> quiet w w' -> fresh_heap (w_sys w') ->
  (forall id, total id w' = (if Nat.ltb id (sys_nextMsg (w_sys w')) then 1 else 0)%nat) ->
  (sys_nextMsg (w_sys w) <= sys_nextMsg (w_sys w'))%nat -> delivery_inv w'.
Proof.
  intros I (E1 & E2 & E3 & E4 & Hh) Hf Ht Hn. destruct I. unfold result_chans in *.
  split; try done; unfold result_chans; rewrite ?E1, ?E2, ?E3, ?E4; try done.
  - intros id ch H. apply di_chan0. by apply Hh.
  - intros id H. apply di_calls0 in H. lia.
Qed.

Lemma delivery_finishes w w' : delivery_inv w -> finishes w w' -> fresh_heap (w_sys w') ->
  (forall id, total id w' = (if Nat.ltb id (sys_nextMsg (w_sys w')) then 1 else 0)%nat) ->
  (sys_nextMsg (w_sys w) <= sys_nextMsg (w_sys w'))%nat -> delivery_inv w'.
Proof.
  intros I (i & ch & r & Hi & E2 & E0 & E3 & E4 & Hh) Hf Ht Hn. destruct I.
  assert (E1 : fst <$> sys_results (w_sys w') = match ch with Some c => [c] | None => [] end ++ (fst <$> sys_results (w_sys w)))
    by (rewrite E0, fmap_app; by destruct ch).
  specialize (di_chan0 i ch Hi) as Hch. unfold result_chans in *.
  split; try done; unfold result_chans; rewrite ?E1, ?E2, ?E3, ?E4; try done.
  - intros id c H. apply di_chan0. by apply Hh.
  - intros id H. apply di_calls0 in H. lia.
  - intros id Hid. specialize (di_call0 id Hid). simpl.
    destruct Hch as [[-> Hc]|[-> Hc]]; simpl.
    + rewrite results_for_cons. destruct (Nat.eqb_spec id i) as [->|Hne].
      * rewrite decide_True by done. lia.
      * rewrite decide_False by (intros E; apply Hne; lia). lia.
    + destruct (Nat.eqb_spec id i) as [->|Hne]; [done|]. lia.
  - intros id Hid. specialize (di_notify0 id Hid).
    destruct Hch as [[-> Hc]|[-> Hc]]; simpl; [|done]. rewrite results_for_cons.
    rewrite decide_False; [done|]. intros E. assert (i = id) as -> by lia. done.
  - intros id. specialize (di_rejected0 id). simpl. lia.
Qed.

Lemma delivery_opens w w' : delivery_inv w -> opens w w' -> moves [sys_nextMsg (w_sys w)] w w' ->
  fresh_heap (w_sys w') ->
  (forall id, total id w' = (if Nat.ltb id (sys_nextMsg (w_sys w')) then 1 else 0)%nat) -> delivery_inv w'.
Proof.
  intros I (call & E1 & E4 & back & E2 & E3 & Hh) (En & _) Hf Ht.
  pose proof (new_not_recycled w I) as Hnew. destruct I. unfold result_chans in *.
  set (new := sys_nextMsg (w_sys w)) in *.
  assert (Hnc : new ∉ w_calls w) by (intros H; apply di_calls0 in H; lia).
  assert (Hnr : results_for new (fst <$> sys_results (w_sys w)) = 0%nat) by (by apply di_notify0).
  assert (Hnj : occ new (w_rejected w) = 0%nat) by (specialize (di_rejected0 new); lia).
  assert (Hcalls : forall id, id ∈ (if call then [new] else []) ++ w_calls w <->
    id ∈ w_calls w \/ (call = true /\ id = new)).
  { intros id. destruct call; simpl; rewrite ?elem_of_cons; split.
    - intros [->|?]; [by right|by left].
    - intros [?|[_ ->]]; [by right|by left].
    - by left.
    - by intros [?|[? _]]. }
  assert (Hocc : forall (b : bool) id, occ id (if b then [new] else []) = if b then if Nat.eqb id new then 1%nat else 0%nat else 0%nat).
  { intros [] id; simpl; lia. }
  split; try done; unfold result_chans; rewrite ?E1, ?E2, ?E3, ?E4.
  - intros id ch H. rewrite Hcalls. apply Hh in H as [H|[= -> ->]].
    + destruct (di_chan0 id ch H) as [[? ?]|[? Hc]]; [by left; auto|]. right. split; [done|].
      intros [?|[-> ->]]; [done|]. apply Hc. exfalso.
      assert (0 < total new w)%nat; [|rewrite di_total0, (proj2 (Nat.ltb_ge _ _)) in *; lia].
      unfold total. destruct H as [(aid & a & Ha & Hx)|Hx].
      * pose proof (heap_sum_delete (fun a => occ new (actor_ids a)) _ aid a Ha) as Hs.
        assert (0 < occ new (actor_ids a))%nat; [|simpl in *; lia]. apply occ_pos.
        unfold actor_chs, mail_chs, actor_ids, mail_ids in *. apply elem_of_app in Hx as [Hx|Hx].
        -- apply list_elem_of_fmap in Hx as ([n m] & [= -> _] & Hx). apply elem_of_app. left.
           apply list_elem_of_fmap. by exists (n, m).
        -- apply elem_of_app. right. destruct (ac_phase a); simpl in *; try (by apply not_elem_of_nil in Hx);
             apply list_elem_of_singleton in Hx as [= <- _]; by left.
      * assert (0 < occ new (posting_ids w))%nat; [|lia]. apply occ_pos.
        apply list_elem_of_fmap in Hx as ([aid [n m]] & [= -> _] & Hx). apply list_elem_of_fmap.
        by exists (aid, (n, m)).
    + destruct call; [left|right]; (split; [done|]); [by right|]. by intros [?|[? _]].
  - intros id [H|[_ ->]]%Hcalls; [|rewrite En; simpl; lia]. apply di_calls0 in H. rewrite En. simpl. lia.
  - intros id Hid%Hcalls. rewrite !occ_app, !Hocc. destruct Hid as [Hid|[_ ->]].
    + specialize (di_call0 id Hid). destruct back; lia.
    + rewrite Hnr, Hnew, Hnj. destruct back; lia.
  - intros id Hid. apply di_notify0. intros H. apply Hid, Hcalls. by left.
  - intros id. rewrite !occ_app, !Hocc. specialize (di_rejected0 id). destruct back; lia.
Qed.

Lemma exec_delivery act w w' : delivery_inv w -> exec act w = Some w' -> delivery_inv w'.
Proof.
  intros I He. destruct (exec_base _ _ _ I He) as [Hf Ht]. pose proof (exec_next _ _ _ (di_fresh w I) He) as Hn.
  destruct (exec_answers _ _ _ He) as [H|[H|[H Hm]]].
  - by eapply delivery_quiet.
  - by eapply delivery_finishes.
  - by eapply delivery_opens.
Qed.

Lemma delivery_init app table : delivery_inv (fresh_world app table).
Proof.
  split; try done; simpl.
  - intros id ch [(aid & a & Ha & _)|H]; [cbn in Ha; by apply lookup_empty_Some in Ha|by apply not_elem_of_nil in H].
  - intros id H. by apply not_elem_of_nil in H.
Qed.

Lemma wreach_delivery app table w : wreach app table w -> delivery_inv w.
Proof. induction 1; [apply delivery_init|by eapply exec_delivery]. Qed.

(** Results and calls are only added. *)
Lemma exec_adds act w w' : exec act w = Some w' ->
  (forall x, x ∈ sys_results (w_sys w) -> x ∈ sys_results (w_sys w')) /\ (forall id, id ∈ w_calls w -> id ∈ w_calls w').
Proof.
  intros He. destruct (exec_answers _ _ _ He) as [H|[H|[H _]]].
  - destruct H as (-> & _ & _ & -> & _). done.
  - destruct H as (id & ch & r & _ & _ & -> & _ & -> & _). split; [|done]. intros x Hx. apply elem_of_app. by right.
  - destruct H as (call & -> & -> & _). split; [done|]. intros id Hid. apply elem_of_app. by right.
Qed.

(** C1: Every message has exactly one owner and every call exactly one answer, under
    every interleaving of actors, callers, routing through parents, handler panics and
    shutdowns: a created message is in exactly one place (queued or held by one actor,
    held by its sender, recycled, or lost with a panicking push); none is recycled
    twice; a call is recycled exactly when it was answered, once, through its channel
    or directly to the caller; a notification is never answered. *)
Theorem message_exactly_once (app : App) (table : option Table) (w : world) :
  wreach app table w ->
  (forall id, (id < sys_nextMsg (w_sys w))%nat -> total id w = 1%nat) /\
  NoDup (sys_recycled (w_sys w)) /\
  (forall id, id ∈ w_calls w ->
     (results_for id (result_chans w) + occ id (w_rejected w) = occ id (sys_recycled (w_sys w)))%nat /\
     (results_for id (result_chans w) <= 1)%nat) /\
  (forall id, id ∉ w_calls w -> results_for id (result_chans w) = 0%nat).
Proof.
  intros I%wreach_delivery.
  assert (Hle : forall id, (occ id (sys_recycled (w_sys w)) <= 1)%nat).
  { intros id. pose proof (recycled_below w id I). rewrite (di_total w I) in *. destruct (Nat.ltb _ _); lia. }
  split_and!.
  - intros id Hid. rewrite (di_total w I). by rewrite (proj2 (Nat.ltb_lt _ _) Hid).
  - by apply occ_nodup.
  - intros id Hid. pose proof (di_call w I id Hid). specialize (Hle id). split; [done|lia].
  - apply (di_notify w I).
Qed.

Lemma message_exactly_once_witness :
  wreach demo_app (Some (NewTable true)) demo_final /\
  (forall id, (id < sys_nextMsg (w_sys demo_final))%nat -> total id demo_final = 1%nat) /\
  (results_for 0 (result_chans demo_final) + occ 0 (w_rejected demo_final)
   = occ 0 (sys_recycled (w_sys demo_final)))%nat.
Proof.
  split; [exact demo_reach|].
  destruct (message_exactly_once _ _ _ demo_reach) as (H1 & _ & H3 & _). split; [exact H1|].
  apply H3. vm_compute. left.
Defined.
