(* ===== verification/Lifecycle.v ===== *)
(** The life of actors over all runs of [Steps]: the queues of a running actor are open
    and announce what they hold, the wait group counts the live goroutines, the method
    table routes only to actors that have not begun to stop (but for what an actor whose
    [OnInit] failed registers afterwards), and an actor leaves its loop only when what its
    queues hold is no more than the pushes under way. *)
From S2P Require Import Prelude Strconv Facade Context Queue Serializer Method Actor ActorSystem Steps Delivery.

(** ** Queues of an actor *)

(** The counter is the number of values less the pushes that have not added themselves;
    when it is positive a token is there, or a push is still to offer one. *)
Definition aq_ok {A} (q : aqueue A) : Prop :=
  aq_closed q = false ->
  aq_count q = i32 (Z.of_nat (length (aq_items q)) - Z.of_nat (aq_pend q)) /\
  (aq_C q <> None \/ (exists c, c ∈ aq_sums q /\ 0 < c) \/ (0 < aq_pend q)%nat \/ aq_count q <= 0).

(** No push is under way. *)
Definition aq_settled {A} (q : aqueue A) : Prop := aq_pend q = 0%nat /\ aq_sums q = [].

Lemma send_if_pos ch c : 0 < c -> send_if ch c <> None.
Proof. intros H. unfold send_if. rewrite (proj2 (Z.ltb_lt _ _) H). by destruct ch. Qed.

Lemma aq_new_ok {A} : aq_ok (@aq_new A).
Proof. split; [done|]. right. right. right. done. Qed.

Lemma aq_swap_ok {A} (v : A) q q' : aq_ok q -> aq_swap v q = Some q' -> aq_ok q' /\ aq_closed q' = false.
Proof.
  unfold aq_swap. intros Hq. destruct (aq_closed q) eqn:Ec; [done|]. destruct (Hq Ec) as [Hn _].
  intros [= <-]. split; [|done]. intros _. simpl. rewrite length_app, Hn. simpl.
  split; [f_equal; lia|]. right. right. left. lia.
Qed.

Lemma aq_counted_ok {A} (q q' : aqueue A) : aq_ok q -> aq_counted q = Some q' -> aq_ok q'.
Proof.
  unfold aq_counted. intros Hq. destruct (aq_pend q) as [|n] eqn:Ep; [done|]. intros [= <-] Hc. simpl in *.
  destruct (Hq Hc) as [Hn _]. rewrite Hn, i32_add, Ep. split; [f_equal; lia|].
  set (c := i32 _). destruct (decide (0 < c)); [right; left; exists c; split; [left|done]|]. right. right. right. lia.
Qed.

Lemma aq_sent_ok {A} i (q q' : aqueue A) b : aq_ok q -> aq_sent i q = Some (q', b) -> aq_ok q'.
Proof.
  unfold aq_sent. intros Hq. destruct (aq_sums q !! i) as [c|] eqn:El; [|done].
  destruct (aq_closed q) eqn:Ec; intros [= <- _] Hx0; [discriminate Hx0|]. clear Hx0. simpl.
  destruct (Hq Ec) as [Hn Ht]. split; [done|]. destruct (decide (0 < c)) as [Hpos|Hneg].
  { left. by apply send_if_pos. }
  destruct Ht as [Ht|[(x & Hx & Hx0)|Ht]].
  - left. unfold send_if, try_send. case_match; [by destruct (aq_C q)|done].
  - right. left. exists x. split; [|done]. rewrite (delete_Permutation _ _ _ El) in Hx.
    apply elem_of_cons in Hx as [->|]; [done|done].
  - by right; right.
Qed.

Lemma aq_nil_ok {A} (q q' : aqueue A) : aq_ok q -> aq_nil q = Some q' -> aq_ok q'.
Proof.
  intros Hq [Hp Hr]%aq_nil_inv Hc. unfold aq_recv in Hr. destruct (aq_C q); [|done]. injection Hr as <-. simpl in *.
  destruct (Hq Hc) as [Hn _]. split; [done|]. right. right. left. lia.
Qed.

Lemma aq_recv_Pop_ok {A} (q q1 q2 : aqueue A) r : aq_ok q -> aq_recv q = Some q1 -> aq_Pop q1 = Some (r, q2) ->
  aq_ok q2 /\ aq_closed q2 = false.
Proof.
  intros Hq Hr. unfold aq_recv in Hr. destruct (aq_C q) eqn:HC; [|done]. injection Hr as <-. unfold aq_Pop. simpl.
  destruct (aq_closed q) eqn:Ec; [done|]. destruct (Hq Ec) as [Hcount _].
  destruct (aq_items q) as [|v items] eqn:Ei; intros [= <- <-]; (split; [|done]); intros _; simpl.
  - split; [done|]. right. right. rewrite Hcount. simpl.
    destruct (aq_pend q); [right; simpl; done|left; lia].
  - rewrite Hcount. unfold Z.sub at 1. rewrite i32_add. split; [f_equal; simpl; lia|].
    set (c := i32 _). destruct (decide (0 < c)); [left; by apply send_if_pos|]. right. right. right. lia.
Qed.

(** Once no push is under way a token is there when a value is. *)
Lemma aq_settled_token {A} (q : aqueue A) : aq_ok q -> aq_closed q = false -> aq_settled q -> aq_items q <> [] ->
  Z.of_nat (length (aq_items q)) < 2 ^ 31 -> aq_C q <> None /\ aq_count q = Z.of_nat (length (aq_items q)).
Proof.
  intros Hq Hc [Hp Hs] Hne Hb. destruct (Hq Hc) as [Hn Ht]. rewrite Hp, Z.sub_0_r, i32_small in Hn by lia.
  split; [|done]. rewrite Hs, Hp in Ht. destruct Ht as [?|[(c & Hc0 & _)|[?|Ht]]]; [done| |lia|].
  - by apply not_elem_of_nil in Hc0.
  - destruct (aq_items q); [done|]. simpl in *. lia.
Qed.

Definition phase_state_ok (p : phase) (st : State) : Prop :=
  match p with PhInit => st = InitState | PhLoop | PhFind _ _ | PhRun _ _ => st <> InitState
  | PhStop _ | PhDead => st <> WorkerState end.

Record actor_ok (a : Actor) : Prop := {
  ao_open : ac_phase a <> PhDead ->
    aq_closed (mb_queue (ac_mail a)) = false /\ aq_closed (ae_queue (ac_event a)) = false;
  ao_timer : aq_closed (at_queue (ac_timer a)) = false;
  ao_mail_ok : aq_ok (mb_queue (ac_mail a));
  ao_event_ok : aq_ok (ae_queue (ac_event a));
  ao_timer_ok : aq_ok (at_queue (ac_timer a));
  ao_state : phase_state_ok (ac_phase a) (ac_state a) }.

(** The goroutine exists. *)
Definition alive (a : Actor) : nat := match ac_phase a with PhDead => 0 | _ => 1 end.

(** Why an entry is in the method table: its actor serves and has a handler for it, or
    the actor, whose [OnInit] failed, registered it after it had begun to stop. *)
Definition route_ok (late : list (nat * Z)) (h : gmap nat Actor) (id : Z) (e : registeredMethod) : Prop :=
  exists aid a, h !! aid = Some a /\ ActorPath_IsParent (Some (ac_path a)) = true /\
    Actor_PathString a = rm_target e /\
    ((serving a = true /\ is_Some (mb_methodMap (ac_mail a) !! id)) \/
     (serving a = false /\ ac_state a = InitState /\ (aid, id) ∈ late)).

Record life_inv (late : list (nat * Z)) (s : System) : Prop := {
  lf_app : is_Some (sys_app s);
  lf_fresh : fresh_heap s;
  lf_ok : map_Forall (fun _ => actor_ok) (sys_actors s);
  lf_wg : sys_wg s = Z.of_nat (heap_sum alive (sys_actors s));
  lf_routes : forall t id e, sys_methods s = Some t -> t_byID t !! id = Some e ->
    route_ok late (sys_actors s) id e }.

Arguments lf_app {late}.
Arguments lf_fresh {late}.
Arguments lf_ok {late}.
Arguments lf_wg {late}.
Arguments lf_routes {late}.

Section Life.
Context (late : list (nat * Z)).
Abbreviation life := (life_inv late).
Abbreviation route_ok := (route_ok late).

Lemma life_ext s s' : life s -> sys_app s' = sys_app s -> sys_nextActor s' = sys_nextActor s ->
  sys_actors s' = sys_actors s -> sys_wg s' = sys_wg s -> sys_methods s' = sys_methods s -> life s'.
Proof.
  intros [] E1 E2 E3 E4 E5.
  split; unfold fresh_heap in *; rewrite ?E1, ?E2, ?E3, ?E4, ?E5; done.
Qed.

(** An update that keeps the actor's identity, its methods and its stage. *)
Definition compat (a a' : Actor) : Prop :=
  ac_path a' = ac_path a /\ mb_methodMap (ac_mail a') = mb_methodMap (ac_mail a) /\
  serving a' = serving a /\ alive a' = alive a /\ (serving a = false -> ac_state a' = ac_state a).

Lemma route_update h aid a a' id e : h !! aid = Some a -> compat a a' ->
  route_ok h id e -> route_ok (<[aid := a']> h) id e.
Proof.
  intros Ha (Hp & Hm & Hs & _ & Hst) (k & b & Hk & Hb & He & Hsv).
  destruct (decide (aid = k)) as [->|Hne].
  - assert (b = a) as -> by congruence. exists k, a'. rewrite lookup_insert_eq.
    unfold Actor_PathString in *. rewrite Hp, Hm, Hs. split_and!; try done.
    destruct Hsv as [?|(H1 & H2 & H3)]; [by left|right]. by rewrite Hst.
  - exists k, b. by rewrite lookup_insert_ne.
Qed.

Lemma life_update s aid a a' : life s -> sys_actors s !! aid = Some a -> actor_ok a' -> compat a a' ->
  life (set_actor aid a' s).
Proof.
  intros [] Ha Hok Hc. split; simpl; try done.
  - by apply (fresh_set_actor s aid a).
  - by apply map_Forall_insert_2.
  - pose proof (heap_sum_update alive _ aid a a' Ha) as H. destruct Hc as (_ & _ & _ & Hal & _). lia.
  - intros t id e Ht He. apply (route_update _ aid a); [done|done|by eapply lf_routes0].
Qed.

Lemma life_at s aid a : life s -> sys_actors s !! aid = Some a -> actor_ok a.
Proof. intros I Ha. by apply (lf_ok s I aid). Qed.

Lemma compat_refl a : compat a a.
Proof. done. Qed.

Lemma compat_trans a b c : compat a b -> compat b c -> compat a c.
Proof. intros (?&?&E&?&Ha) (?&?&?&?&Hb). unfold compat. split_and!; try congruence. intros Hs. rewrite Hb, Ha; congruence. Qed.

(** Phases between which an actor moves while it serves. *)
Definition running (p : phase) : Prop := match p with PhLoop | PhFind _ _ | PhRun _ _ => True | _ => False end.

Lemma ok_phase a p : actor_ok a -> running (ac_phase a) -> running p -> actor_ok (set_phase p a).
Proof.
  intros [] Hr Hp. split; simpl; try done.
  - intros _. apply ao_open0. by intros E; rewrite E in Hr.
  - destruct (ac_phase a); try done; by destruct p.
Qed.

Lemma compat_phase a p : running (ac_phase a) -> running p -> compat a (set_phase p a).
Proof. intros Hr Hp. unfold compat, serving, alive. simpl. destruct (ac_phase a); try done; by destruct p. Qed.

Lemma life_push s c i m s' : life s -> swap_to c i m s = Some s' -> life s'.
Proof.
  intros I (a & mail' & Ha & Hp & ->)%swap_to_inv.
  pose proof (life_at s c a I Ha) as []. apply mailbox_swap_inv in Hp as (_ & _ & Hm & Hq).
  destruct (aq_swap_ok _ _ _ ao_mail_ok0 Hq) as [Hok Hc].
  apply (life_update s c a); [done|done| |].
  - split; simpl; try done. intros Hd. split; [done|]. by apply ao_open0.
  - by split_and!.
Qed.

Lemma life_finish s i m r : life s -> life (Actor_finishTyped i m r s).
Proof. intros I. apply (life_ext s); [done|..]; unfold Actor_finishTyped; by destruct (m_Chan m). Qed.

Lemma life_forward c i m w : life (w_sys w) -> life (w_sys (forward_to c i m w)).
Proof.
  intros I. unfold forward_to. destruct (swap_to c i m (w_sys w)) eqn:E; [by eapply life_push|done].
Qed.

Lemma life_invokeTyped aid a0 a now c i m w :
  life (w_sys w) -> actor_at aid w = Some a0 -> ac_phase a = PhLoop -> actor_ok a -> compat a0 a ->
  life (w_sys (Actor_invokeTyped aid a now c i m w)).
Proof.
  intros I Ha Hph Hok Hc.
  assert (Hu : forall p, running p -> life (set_actor aid (set_phase p a) (w_sys w))).
  { intros p Hp. apply (life_update _ aid a0); [done|done|apply ok_phase; by rewrite ?Hph|].
    apply (compat_trans a0 a); [done|]. by apply compat_phase; [rewrite Hph|]. }
  unfold Actor_invokeTyped. destruct (invokeTyped_start _ _ _ _ _) as [r| |].
  - simpl. apply life_finish. by apply Hu.
  - by apply Hu.
  - by apply Hu.
Qed.

Lemma life_processTyped aid a0 a now c i m w :
  life (w_sys w) -> actor_at aid w = Some a0 -> ac_phase a = PhLoop -> actor_ok a -> compat a0 a ->
  life (w_sys (Actor_processTyped aid a now c i m w)).
Proof.
  intros I Ha Hph Hok Hc.
  assert (Hu : forall p, running p -> life (set_actor aid (set_phase p a) (w_sys w))).
  { intros p Hp. apply (life_update _ aid a0); [done|done|apply ok_phase; by rewrite ?Hph|].
    apply (compat_trans a0 a); [done|]. by apply compat_phase; [rewrite Hph|]. }
  unfold Actor_processTyped. destruct (Message_TargetPath m) as [path m'].
  case_if; [|by apply (life_invokeTyped aid a0)]. destruct (path ≫= _); [|by apply Hu].
  apply life_forward. by apply Hu.
Qed.

Lemma aq_recv_closed {A} (q q' : aqueue A) : aq_recv q = Some q' -> aq_closed q' = aq_closed q.
Proof. intros (_ & _ & H & _)%aq_recv_inv. done. Qed.

Lemma life_processMail aid a now c w w' :
  life (w_sys w) -> actor_at aid w = Some a -> ac_phase a = PhLoop ->
  Actor_processMail aid a now c w = Some w' -> life (w_sys w').
Proof.
  intros I Ha Hph. unfold Actor_processMail. destruct (aq_recv _) as [q|] eqn:Eq; [|done].
  pose proof (life_at _ aid a I Ha) as Hok. destruct (mailbox_Pop _) as [[r mail]|] eqn:Ep; [|done].
  pose proof Ep as (Hm & _ & _)%mailbox_Pop_inv. cbn [mb_methodMap] in Hm.
  unfold mailbox_Pop in Ep. simpl in Ep. destruct (aq_Pop q) as [[r0 q2]|] eqn:Epop; [|done].
  injection Ep as -> <-. destruct (aq_recv_Pop_ok _ _ _ _ (ao_mail_ok a Hok) Eq Epop) as [Hq2 Hcl].
  assert (Hok' : forall n, actor_ok (set_lastAt n (set_mail (mkMailbox q2 (mb_methodMap (ac_mail a))) a))).
  { intros n. destruct Hok. split; simpl; try done. intros Hd. split; [done|by apply ao_open0]. }
  destruct r as [[id m]|].
  - case_if; intros [= <-].
    + simpl. apply life_finish. apply (life_update _ aid a); try done; by split_and!.
    + apply (life_processTyped aid a); try done; by split_and!.
  - intros [= <-]. apply (life_update _ aid a); try done; try (by split_and!).
    specialize (Hok' (ac_lastAt a)). by destruct Hok'.
Qed.

Lemma life_processEvent aid a now panics w w' :
  life (w_sys w) -> actor_at aid w = Some a -> Actor_processEvent aid a now panics w = Some w' -> life (w_sys w').
Proof.
  intros I Ha. unfold Actor_processEvent. destruct (aq_recv _) as [q|] eqn:Eq; [|done].
  pose proof (life_at _ aid a I Ha) as Hok. destruct (actorEvent_Pop _) as [[r e]|] eqn:Ep; [|done].
  unfold actorEvent_Pop in Ep. simpl in Ep. destruct (aq_Pop q) as [[r0 q2]|] eqn:Epop; [|done].
  injection Ep as -> <-. destruct (aq_recv_Pop_ok _ _ _ _ (ao_event_ok a Hok) Eq Epop) as [Hq2 Hcl].
  assert (Hok' : forall n, actor_ok (set_lastAt n (set_event (mkActorEvent q2 (ae_funcMap (ac_event a))) a))).
  { intros n. destruct Hok. split; simpl; try done. intros Hd. split; [by apply ao_open0|done]. }
  destruct r; intros [= <-]; apply (life_update _ aid a); try done.
  specialize (Hok' (ac_lastAt a)). by destruct Hok'.
Qed.

Lemma life_processTimer aid a w w' :
  life (w_sys w) -> actor_at aid w = Some a -> Actor_processTimer aid a w = Some w' -> life (w_sys w').
Proof.
  intros I Ha. unfold Actor_processTimer. destruct (aq_recv _) as [q|] eqn:Eq; [|done].
  pose proof (life_at _ aid a I Ha) as Hok. destruct (actorTimer_Pop _) as [[r t]|] eqn:Ep; [|done].
  unfold actorTimer_Pop in Ep. simpl in Ep. destruct (aq_Pop q) as [[r0 q2]|] eqn:Epop; [|done].
  injection Ep as <- <-. destruct (aq_recv_Pop_ok _ _ _ _ (ao_timer_ok a Hok) Eq Epop) as [Hq2 Hcl].
  assert (Hok' : forall m, actor_ok (set_timer (mkActorTimer q2 m) a)) by (intros m; by destruct Hok).
  case_if; [intros [= <-]; by apply (life_update _ aid a)|].
  unfold actorTimer_invokeFunc. destruct (at_timerInfoMap _ !! _) as [ti|]; [destruct (ti_once ti)|];
    intros [= <-]; by apply (life_update _ aid a).
Qed.

Lemma life_touched aid a a' s : life s -> sys_actors s !! aid = Some a -> touched a a' -> actor_ok a' ->
  life (set_actor aid a' s).
Proof. intros I Ha Ht Hok. apply (life_update s aid a); [done..|]. by destruct Ht. Qed.

Lemma ok_mail a q : actor_ok a -> aq_closed q = aq_closed (mb_queue (ac_mail a)) -> aq_ok q ->
  actor_ok (set_mail (mkMailbox q (mb_methodMap (ac_mail a))) a).
Proof. intros [] Hc Hq. split; simpl; rewrite ?Hc; done. Qed.
Lemma ok_event a q : actor_ok a -> aq_closed q = aq_closed (ae_queue (ac_event a)) -> aq_ok q ->
  actor_ok (set_event (mkActorEvent q (ae_funcMap (ac_event a))) a).
Proof. intros [] Hc Hq. split; simpl; rewrite ?Hc; done. Qed.
Lemma ok_timer a q : actor_ok a -> aq_closed q = aq_closed (at_queue (ac_timer a)) -> aq_ok q ->
  actor_ok (set_timer (mkActorTimer q (at_timerInfoMap (ac_timer a))) a).
Proof. intros [] Hc Hq. split; simpl; rewrite ?Hc; done. Qed.

Lemma ok_counted k a a' : actor_ok a -> Actor_counted k a = Some a' -> actor_ok a'.
Proof.
  intros I. pose proof I as []. destruct k; simpl; destruct (aq_counted _) as [q|] eqn:E; try done; intros [= <-];
    pose proof (aq_counted_inv _ _ E) as [_ Hc]; apply aq_counted_ok in E; try done;
    by first [apply ok_mail|apply ok_event|apply ok_timer].
Qed.

Lemma ok_sent k i a a' b : actor_ok a -> Actor_sent k i a = Some (a', b) -> actor_ok a'.
Proof.
  intros I. pose proof I as []. destruct k; simpl; destruct (aq_sent _ _) as [[q b']|] eqn:E; try done; intros [= <- _];
    pose proof (aq_sent_inv _ _ _ _ E) as [_ Hc]; apply aq_sent_ok in E; try done;
    by first [apply ok_mail|apply ok_event|apply ok_timer].
Qed.

Lemma life_processNil aid a k w w' : life (w_sys w) -> actor_at aid w = Some a ->
  Actor_processNil aid a k w = Some w' -> life (w_sys w').
Proof.
  intros I Ha. pose proof (life_at _ aid a I Ha) as Hok. pose proof Hok as [].
  destruct k; simpl; destruct (aq_nil _) as [q|] eqn:E; try done; intros [= <-];
    pose proof (aq_nil_inv _ _ E) as [_ (Hi & _ & Hc & _)%aq_recv_inv]; apply aq_nil_ok in E; try done;
    apply (life_touched aid a); try done; try (by constructor);
    by first [apply ok_mail|apply ok_event|apply ok_timer].
Qed.

Lemma life_push_step act w w' : is_push_step act = true -> life (w_sys w) -> exec act w = Some w' -> life (w_sys w').
Proof.
  intros Hp I. unfold exec. destruct (w_crashed w); [done|]. destruct act; try done.
  - destruct (actor_at aid w) as [a|] eqn:Ha; simpl; [|done]. destruct (Actor_counted k a) as [a'|] eqn:E; [|done].
    intros [= <-]. apply (life_touched aid a); [done..|by eapply Actor_counted_touched|].
    eapply ok_counted; [by eapply life_at|done].
  - destruct (actor_at aid w) as [a|] eqn:Ha; simpl; [|done]. destruct (Actor_sent k i a) as [[a' b]|] eqn:E; [|done].
    intros [= <-]. assert (H : life (set_actor aid a' (w_sys w))).
    { apply (life_touched aid a); [done..|by eapply Actor_sent_touched|]. eapply ok_sent; [by eapply life_at|done]. }
    destruct (b && negb recovered); exact H.
Qed.

(** Stopping takes the routes of the actor's path out of the table first. *)
Lemma route_exit l h id e : route_ok h id e -> route_ok (exit_children l h) id e.
Proof.
  induction l as [|c l IH]; intros H; simpl; [done|]. destruct (IH H) as (k & b & Hk & Hr).
  destruct (decide (c = k)) as [->|].
  - exists k, (Actor_Exit b). by rewrite lookup_alter_eq, Hk.
  - exists k, b. by rewrite lookup_alter_ne.
Qed.

Lemma ok_exit l h : map_Forall (fun _ => actor_ok) h -> map_Forall (fun _ => actor_ok) (exit_children l h).
Proof.
  induction l as [|c l IH]; intros H; simpl; [done|]. intros k a.
  rewrite lookup_alter_Some. intros [(<- & b & Hb & ->)|[_ Hk]]; [|by apply (IH H k)].
  pose proof (IH H c b Hb) as []. by split.
Qed.

Lemma exit_phase l h k a : h !! k = Some a ->
  exists b, exit_children l h !! k = Some b /\ ac_phase b = ac_phase a /\ ac_path b = ac_path a /\
    ac_state b = ac_state a.
Proof.
  intros Hk. induction l as [|c l (b & Hb & Hp & Hq & Hs)]; [by exists a|]. simpl.
  destruct (decide (c = k)) as [->|]; [rewrite lookup_alter_eq, Hb; by eexists|].
  rewrite lookup_alter_ne by done. by exists b.
Qed.

Lemma alter_ok f k (h : gmap nat Actor) :
  (forall a, h !! k = Some a -> actor_ok a -> actor_ok (f a)) ->
  map_Forall (fun _ => actor_ok) h -> map_Forall (fun _ => actor_ok) (alter f k h).
Proof.
  intros Hf H i a. rewrite lookup_alter_Some. intros [(<- & b & Hb & ->)|[_ Hi]]; [|by apply (H i)].
  apply Hf; [done|]. by apply (H k).
Qed.

Lemma stop_ok err a : ac_phase a <> PhDead -> ac_state a <> WorkerState -> actor_ok a -> actor_ok (set_phase (PhStop err) a).
Proof. intros Hd Hs []. split; simpl; try done. intros _. by apply ao_open0. Qed.

Lemma wg_stop err (f : Actor -> Actor) k h a : h !! k = Some a -> ac_phase a <> PhDead ->
  (forall b, ac_phase (f b) = PhStop err) -> heap_sum alive (alter f k h) = heap_sum alive h.
Proof.
  intros Hk Hd Hf. rewrite (alter_alt_Some f h k a Hk). pose proof (heap_sum_update alive h k a (f a) Hk) as H.
  unfold alive in *. rewrite Hf in H. destruct (ac_phase a); try done; lia.
Qed.

(** The stopping actor loses its role, and nobody else does. *)
Lemma route_stop f aid h a id e :
  h !! aid = Some a -> (ActorPath_IsParent (Some (ac_path a)) = true -> Actor_PathString a <> rm_target e) ->
  (forall b, ac_path (f b) = ac_path b) ->
  route_ok h id e -> route_ok (alter f aid h) id e.
Proof.
  intros Ha Hne Hf (k & b & Hk & Hp & Ht & Hr). destruct (decide (aid = k)) as [->|Hk'].
  - assert (b = a) as -> by congruence. by destruct (Hne Hp).
  - exists k, b. by rewrite lookup_alter_ne.
Qed.

Lemma PathString_not_empty a : Actor_PathString a <> EmptyString.
Proof.
  unfold Actor_PathString, ActorPath_String, NewChildPath, NewPath.
  destruct (any_is_empty_string _); apply append_not_empty.
Qed.

(** A child leaves its parent's map. *)
Lemma life_child_routes aid a err s (f : gmap nat Actor -> gmap nat Actor) :
  life s -> sys_actors s !! aid = Some a -> ac_phase a <> PhDead -> ac_state a <> WorkerState ->
  ActorPath_IsParent (Some (ac_path a)) = false ->
  (f = id \/ exists k c, f = alter (fun b => set_children (delete c (ac_children b)) b) k) ->
  life (with_actors (alter (set_phase (PhStop err)) aid (f (sys_actors s))) s).
Proof.
  intros [] Ha Hd Hst Hpar Hf.
  assert (H1 : dom (f (sys_actors s)) = dom (sys_actors s)).
  { destruct Hf as [->|(k & c & ->)]; [done|]. by rewrite dom_alter_L. }
  assert (H2 : map_Forall (fun _ => actor_ok) (f (sys_actors s))).
  { destruct Hf as [->|(k & c & ->)]; [done|]. apply alter_ok; [|done]. intros b _ []. by split. }
  assert (H3 : heap_sum alive (f (sys_actors s)) = heap_sum alive (sys_actors s)).
  { destruct Hf as [->|(k & c & ->)]; [done|]. by apply heap_sum_alter. }
  assert (H4 : exists b, f (sys_actors s) !! aid = Some b /\ ac_phase b = ac_phase a /\ ac_path b = ac_path a /\
    ac_state b = ac_state a).
  { destruct Hf as [->|(k & c & ->)]; [by exists a|]. destruct (decide (k = aid)) as [->|].
    - rewrite lookup_alter_eq, Ha. by eexists.
    - rewrite lookup_alter_ne by done. by exists a. }
  assert (H5 : forall id e, route_ok (sys_actors s) id e -> route_ok (f (sys_actors s)) id e).
  { destruct Hf as [->|(k & c & ->)]; [done|]. intros id e (i & b & Hi & Hr). destruct (decide (k = i)) as [->|].
    - exists i, (set_children (delete c (ac_children b)) b). by rewrite lookup_alter_eq, Hi.
    - exists i, b. by rewrite lookup_alter_ne. }
  destruct H4 as (b & Hb & Hbp & Hbq & Hbs). split; simpl; try done.
  - intros k Hk. apply not_elem_of_dom. simpl. rewrite dom_alter_L, H1. apply not_elem_of_dom. by apply lf_fresh0.
  - apply alter_ok; [|done]. intros c Hc. rewrite Hc in Hb. injection Hb as ->.
    apply stop_ok; [by rewrite Hbp|by rewrite Hbs].
  - rewrite (wg_stop err (set_phase (PhStop err)) aid _ b Hb); [|by rewrite Hbp|done]. by rewrite H3.
  - intros t id e Ht He. apply (route_stop _ aid _ b); [done| |done|apply H5; by eapply lf_routes0].
    rewrite Hbq, Hpar. done.
Qed.

Lemma life_routes aid a err s : life s -> sys_actors s !! aid = Some a -> ac_phase a <> PhDead ->
  ac_state a <> WorkerState -> life (onStop_routes aid a err s).
Proof.
  intros I Ha Hd Hst. pose proof I as []. unfold onStop_routes.
  set (h1 := exit_children ((map_to_list (ac_children a)).*2) (sys_actors s)).
  assert (Hx : exists b, h1 !! aid = Some b /\ ac_phase b = ac_phase a /\ ac_path b = ac_path a /\
    ac_state b = ac_state a) by by apply exit_phase.
  destruct Hx as (b & Hb & Hbp & Hbq & Hbs).
  destruct (ActorPath_IsParent (Some (ac_path a))) eqn:Epar.
  - set (f := fun b => set_phase (PhStop err) (set_childOwner false b)).
    assert (Hh : forall t', (forall t id e, t' = Some t -> t_byID t !! id = Some e ->
        Actor_PathString a <> rm_target e /\ route_ok (sys_actors s) id e) ->
      life (with_actors (alter f aid h1) (System_removeActor (Actor_ActorID a) (with_methods t' s)))).
    { intros t' Ht'. split; simpl; try done.
      - intros k Hk. apply not_elem_of_dom. simpl. unfold h1. rewrite dom_alter_L, dom_exit_children.
        apply not_elem_of_dom. by apply lf_fresh0.
      - apply alter_ok; [|by apply ok_exit]. intros c Hc Hok. unfold f. apply stop_ok.
        + simpl. rewrite Hc in Hb. injection Hb as ->. by rewrite Hbp.
        + simpl. rewrite Hc in Hb. injection Hb as ->. by rewrite Hbs.
        + by destruct Hok.
      - rewrite (wg_stop err f aid h1 b Hb); [|by rewrite Hbp|done]. unfold h1. by rewrite heap_sum_exit.
      - intros t id e Ht He. destruct (Ht' t id e Ht He) as [Hne Hr].
        apply (route_stop f aid h1 b); [done| |done|by apply route_exit].
        intros _. unfold Actor_PathString in *. by rewrite Hbq. }
    destruct (sys_app s) as [app|] eqn:Eapp; [|by destruct lf_app0].
    destruct (sys_methods s) as [t|] eqn:Et.
    + apply Hh. intros t' id e [= <-]. rewrite Table_UnregisterTarget_lookup by apply PathString_not_empty.
      destruct (t_byID t !! id) as [e0|] eqn:E0; [|done]. case_decide; [done|]. intros [= <-].
      split; [congruence|]. by eapply lf_routes0.
    + replace (System_removeActor _ s) with (System_removeActor (Actor_ActorID a) (with_methods None s)).
      * apply Hh. intros t' id e [=].
      * unfold System_removeActor, with_methods, with_actorMap. simpl. by rewrite Et, Eapp.
  - destruct (System_GetActor (ActorID (ac_path a)) s) as [p|].
    + refine (life_child_routes aid a err s (alter _ p) I Ha Hd Hst Epar _). right. by eexists _, _.
    + refine (life_child_routes aid a err s id I Ha Hd Hst Epar _). by left.
Qed.

Lemma life_queues aid a err panics s s' : life s -> sys_actors s !! aid = Some a -> ac_phase a = PhStop err ->
  onStop_queues aid a err panics s = Some s' -> life s'.
Proof.
  intros I Ha Hph. pose proof I as []. pose proof (life_at s aid a I Ha) as Hok. unfold onStop_queues.
  assert (Hd : forall a' s0, sys_actors s0 = sys_actors s -> sys_app s0 = sys_app s ->
      sys_nextActor s0 = sys_nextActor s -> sys_methods s0 = sys_methods s -> sys_wg s0 = sys_wg s - 1 ->
      ac_path a' = ac_path a -> ac_state a' = ac_state a ->
      actor_ok a' -> ac_phase a' = PhDead -> life (set_actor aid a' s0)).
  { intros a' s0 E1 E2 E3 E4 E5 E6 E7 Hok' Hph'. split; simpl; rewrite ?E1, ?E2, ?E4, ?E5; try done.
    - intros k Hk. simpl in *. rewrite E1, E3 in *. rewrite lookup_insert_ne; [by apply lf_fresh0|].
      intros <-. by rewrite lf_fresh0 in Ha.
    - by apply map_Forall_insert_2.
    - pose proof (heap_sum_update alive _ aid a a' Ha) as H. unfold alive in H. rewrite Hph, Hph' in H.
      fold alive in H. lia.
    - intros t id e Ht He. destruct (lf_routes0 t id e Ht He) as (k & b & Hk & Hp & Hn & Hsv).
      destruct (decide (aid = k)) as [->|Hne]; [|exists k, b; by rewrite lookup_insert_ne].
      assert (b = a) as -> by congruence. exists k, a'. rewrite lookup_insert_eq.
      unfold serving, Actor_PathString in *. rewrite Hph in Hsv. rewrite Hph', E6, E7. split_and!; try done.
      destruct Hsv as [[? _]|(_ & H1 & H2)]; [done|by right]. }
  destruct panics.
  - intros [= <-]. destruct err; apply Hd; try done; destruct Hok as [Ho ? ? ? ? Hs]; rewrite Hph in Hs, Ho; by split; try (intros Hx; by destruct Hx).
  - simpl. unfold aq_Destroy at 1. destruct (aq_closed (ae_queue (ac_event a))); [done|].
    unfold mailbox_onStop, aq_Destroy. destruct (aq_closed (mb_queue (ac_mail a))); [done|]. intros [= <-].
    destruct err; apply Hd; try done; destruct Hok as [Ho ? ? ? ? Hs]; rewrite Hph in Hs, Ho; by split; try (intros Hx; by destruct Hx).
Qed.

(** A stopping actor's queues are still open, so its stop never destroys one twice. *)
Lemma queues_total aid a err panics s : life s -> sys_actors s !! aid = Some a -> ac_phase a = PhStop err ->
  is_Some (onStop_queues aid a err panics s).
Proof.
  intros I Ha Hph. pose proof (life_at s aid a I Ha) as []. destruct ao_open0 as [H1 H2]; [by rewrite Hph|].
  unfold onStop_queues. destruct panics; [by eexists|]. simpl. unfold mailbox_onStop, aq_Destroy.
  rewrite H1, H2. by eexists.
Qed.

Lemma life_alloc s a : life s -> actor_ok a -> alive a = 1%nat ->
  life (with_wg (sys_wg s + 1) (alloc_actor a s)).
Proof.
  intros [] Hok Hal. pose proof (lf_fresh0 (sys_nextActor s) (Nat.le_refl _)) as Hn. split; simpl; try done.
  - intros k Hk. simpl in *. rewrite lookup_insert_ne by lia. apply lf_fresh0. lia.
  - by apply map_Forall_insert_2.
  - rewrite heap_sum_insert by done. lia.
  - intros t id e Ht He. destruct (lf_routes0 t id e Ht He) as (k & b & Hk & Hr). exists k, b.
    rewrite lookup_insert_ne; [done|]. intros <-. congruence.
Qed.

Lemma newActor_ok node id child now a : newActor node id child now = Ok a -> actor_ok a /\ alive a = 1%nat.
Proof.
  unfold newActor. case_if; [done|]. intros [= <-]. split; [|done]. split; simpl; try done; apply aq_new_ok.
Qed.

Lemma life_create id now s s' aid : life s -> CreateActor_store id now s = Ok (s', aid) -> life s'.
Proof.
  intros I. unfold CreateActor_store. destruct (newActor _ _ _ _) as [a|] eqn:E; [|done]. intros [= <- <-].
  apply newActor_ok in E as [Hok Hal]. apply (life_ext _ _ (life_alloc s a I Hok Hal)); done.
Qed.

Lemma life_child_create parent childID now s s' aid :
  life s -> Create_store parent childID now s = Ok (s', aid) -> life s'.
Proof.
  intros I. unfold Create_store. destruct (sys_actors s !! parent) as [p|] eqn:Ep; [|done].
  destruct (newActor _ _ _ _) as [a|] eqn:E; [|done]. intros [= <- <-].
  apply newActor_ok in E as [Hok Hal].
  apply (life_alloc (set_actor parent (set_children _ p) s) a); [|done|done].
  apply (life_update s parent p); [done|done| |done]. pose proof (life_at s parent p I Ep) as []. by split.
Qed.

Lemma mailbox_Register_inl id h path st table m m' table' :
  mailbox_Register id h path st table m = inl (m', table') ->
  mb_queue m' = mb_queue m /\ mb_methodMap m !! id = None /\
  (exists entry, mb_methodMap m' = <[id := entry]> (mb_methodMap m)) /\ st = InitState /\
  (if ActorPath_IsParent (Some path)
   then exists t t' ty, table = Some t /\ table' = Some t' /\
     Table_Register id (ActorPath_String path) ty (Some t) = inl t'
   else table' = table).
Proof.
  unfold mailbox_Register. case_if; [done|]. destruct (mb_methodMap m !! id) eqn:Em; [done|].
  destruct (AdaptHandler h) as [adapted|]; [|done]. case_bool_decide as Est; [|done]. cbn [negb].
  destruct (ActorPath_IsParent (Some path)).
  - destruct table as [t|]; [|done]. destruct (Table_Register _ _ _ _) as [t'|] eqn:Et; [|done].
    intros [= <- <-]. split_and!; try done; [by eexists|]. by eexists _, _, _.
  - intros [= <- <-]. split_and!; try done. by eexists.
Qed.

Lemma route_late late' h id e : late ⊆ late' -> route_ok h id e -> Lifecycle.route_ok late' h id e.
Proof. intros Hs (k & b & ? & ? & ? & [?|(? & ? & ?)]); exists k, b; split_and!; try done; [by left|right; auto]. Qed.

(** The entries there were, after a registration. *)
Lemma route_register aid a id h mail table table' id' e :
  mailbox_Register id h (ac_path a) (ac_state a) table (ac_mail a) = inl (mail, table') ->
  forall hp, hp !! aid = Some a -> route_ok hp id' e -> route_ok (<[aid:=set_mail mail a]> hp) id' e.
Proof.
  intros (_ & _ & (entry & Hm) & _)%mailbox_Register_inl hp Ha (k & b & Hk & Hp & Hs & Hsv).
  destruct (decide (aid = k)) as [->|Hne]; [|exists k, b; by rewrite lookup_insert_ne].
  assert (b = a) as -> by congruence. exists k, (set_mail mail a). rewrite lookup_insert_eq.
  split_and!; try done. destruct Hsv as [[H1 H2]|H]; [left|by right]. split; [done|]. simpl. rewrite Hm, lookup_insert.
  case_decide; [by eexists|done].
Qed.

Lemma life_register aid a id h mail table s : life s -> sys_actors s !! aid = Some a ->
  mailbox_Register id h (ac_path a) (ac_state a) (sys_methods s) (ac_mail a) = inl (mail, table) ->
  life_inv (if serving a then late else (aid, id) :: late) (set_actor aid (set_mail mail a) (with_methods table s)).
Proof.
  intros I Ha Hreg. pose proof (route_register aid a id h mail (sys_methods s) table) as Hkeep.
  pose proof Hreg as (Hq & Hnew & (entry & Hm) & Hst & Ht)%mailbox_Register_inl. pose proof I as [].
  pose proof (life_at s aid a I Ha) as []. split; simpl; try done.
  - intros k Hk. simpl in *. rewrite lookup_insert_ne; [by apply lf_fresh0|]. intros <-. by rewrite lf_fresh0 in Ha.
  - apply map_Forall_insert_2; [|done]. split; simpl; rewrite ?Hq; try done.
  - pose proof (heap_sum_update alive _ aid a (set_mail mail a) Ha) as H. unfold alive in H at 2 4. simpl in H. lia.
  - intros t' id' e Ht' He.
    assert (Hold : forall t, sys_methods s = Some t -> t_byID t !! id' = Some e ->
        Lifecycle.route_ok (if serving a then late else (aid, id) :: late)
          (<[aid:=set_mail mail a]> (sys_actors s)) id' e).
    { intros t E1 E2. apply route_late; [destruct (serving a); set_solver|]. eapply Hkeep; [done|done|by eapply lf_routes0]. }
    destruct (ActorPath_IsParent (Some (ac_path a))) eqn:Epar; [|subst table; by eapply Hold].
    destruct Ht as (t & t1 & ty & E & E' & Hr). apply Table_Register_inl in Hr as (_ & _ & _ & ->).
    rewrite E' in Ht'. injection Ht' as <-. simpl in He. rewrite lookup_insert in He.
    case_decide as Eid; [|by eapply Hold]. injection He as <-. subst id'.
    exists aid, (set_mail mail a). rewrite lookup_insert_eq. split_and!; try done.
    change (serving (set_mail mail a)) with (serving a). destruct (serving a); [left|right; split_and!; try done; left].
    split; [done|]. simpl. rewrite Hm, lookup_insert_eq. by eexists.
Qed.

Lemma life_PostEvent_range data l s s' : life s -> PostEvent_range actorEvent_swap data l s = Some s' -> life s'.
Proof.
  revert s. induction l as [|[path v] l IH]; intros s I; simpl; [by intros [= <-]|].
  destruct (PostEvent_one actorEvent_swap data path v s) as [s1|] eqn:E; [|done]. intros H. apply (IH s1); [|done].
  apply PostEvent_one_cases in E as [->|(aid & a & e & _ & Ha & Hst & _ & Hp & ->)]; [done|].
  unfold actorEvent_swap in Hp. destruct (aq_swap _ _) as [q|] eqn:Eq; [|done]. injection Hp as <-.
  pose proof (life_at s aid a I Ha) as []. destruct (aq_swap_ok _ _ _ ao_event_ok0 Eq) as [Hok Hcl].
  apply (life_update s aid a); [done|done| |done]. split; simpl; try done.
  intros Hd. split; [by apply ao_open0|done].
Qed.

Lemma life_PostEvent data s s' : life s -> System_PostEvent actorEvent_swap data s = Some s' -> life s'.
Proof.
  intros I. unfold System_PostEvent. destruct data as [d|]; [case_if; [|destruct (sys_eventMap _ !! _)]|];
    try (by intros [= <-]). by apply life_PostEvent_range.
Qed.

Lemma loop_done_state a : loop_done a = true -> ac_state a = StopState.
Proof. unfold loop_done. by intros [H%bool_decide_eq_true _]%andb_true_iff. Qed.

Lemma life_loop aid a c w w' : life (w_sys w) -> actor_at aid w = Some a -> ac_phase a = PhLoop ->
  Actor_loop aid a c w = Some w' -> life (w_sys w').
Proof.
  intros I Ha Hph. unfold Actor_loop. destruct c; destruct (loop_done a) eqn:Eld; try done.
  - intros [= <-]. apply life_routes; [done|done|by rewrite Hph|by rewrite (loop_done_state a)].
  - by apply life_processMail.
  - by apply life_processEvent.
  - by apply life_processTimer.
  - by apply life_processNil.
  - destruct (ac_close a); [|done]. intros [= <-]. apply (life_update _ aid a); [done|done| |].
    + pose proof (life_at _ aid a I Ha) as []. split; simpl; try done. by rewrite Hph.
    + split_and!; try done. unfold serving. by rewrite Hph.
Qed.

Lemma life_event aid a e w : life (w_sys w) -> actor_at aid w = Some a ->
  ae_queue e = ae_queue (ac_event a) -> forall s, sys_app s = sys_app (w_sys w) ->
  sys_nextActor s = sys_nextActor (w_sys w) -> sys_actors s = sys_actors (w_sys w) -> sys_wg s = sys_wg (w_sys w) ->
  sys_methods s = sys_methods (w_sys w) -> life (set_actor aid (set_event e a) s).
Proof.
  intros I Ha He s E1 E2 E3 E4 E5. apply (life_update s aid a).
  - by apply (life_ext (w_sys w)).
  - by rewrite E3.
  - pose proof (life_at _ aid a I Ha) as []. split; simpl; rewrite ?He; done.
  - done.
Qed.

Lemma life_timer aid a t w : life (w_sys w) -> actor_at aid w = Some a ->
  aq_ok (at_queue t) -> aq_closed (at_queue t) = false -> life (set_actor aid (set_timer t a) (w_sys w)).
Proof.
  intros I Ha H1 H2. apply (life_update _ aid a); [done|done| |done].
  pose proof (life_at _ aid a I Ha) as []. by split.
Qed.

Lemma exec_registry_life act w w' : is_registry act = true -> life (w_sys w) -> exec act w = Some w' -> life (w_sys w').
Proof.
  intros Hreg I. unfold exec. destruct (w_crashed w); [done|]. destruct act; try done.
  - unfold System_EventRegister. destruct (sys_actors (w_sys w) !! aid) as [a|] eqn:Ha; [|done].
    unfold actorEvent_Register. destruct (ae_funcMap _); [|done]. intros [= <-]. by apply (life_event aid a _ w).
  - unfold System_EventUnregister. destruct (sys_actors (w_sys w) !! aid) as [a|] eqn:Ha; [|done].
    intros [= <-]. by apply (life_event aid a _ w).
  - destruct (actor_at aid w) as [a|] eqn:Ha; [|done]. intros [= <-]. pose proof (life_at _ aid a I Ha) as [].
    apply (life_timer aid a); try done; unfold actorTimer_AddOnce, actorTimer_Add;
      destruct once, fn; try done; repeat case_if; done.
  - destruct (actor_at aid w) as [a|] eqn:Ha; [|done]. intros [= <-]. pose proof (life_at _ aid a I Ha) as [].
    apply (life_timer aid a); try done; unfold actorTimer_Remove; by destruct (_ !! id).
  - destruct (actor_at aid w) as [a|] eqn:Ha; [|done]. pose proof (life_at _ aid a I Ha) as [].
    unfold actorTimer_Push. destruct (aq_swap _ _) as [q|] eqn:Eq; [|done]. intros [= <-].
    destruct (aq_swap_ok _ _ _ ao_timer_ok0 Eq). by apply (life_timer aid a).
Qed.

Definition is_register (act : action) : bool := match act with ARegister _ _ _ => true | _ => false end.

Lemma exec_life_other act w w' : is_register act = false ->
  life (w_sys w) -> exec act w = Some w' -> life (w_sys w').
Proof.
  intros Hno I. destruct (is_registry act) eqn:Hreg; [by apply exec_registry_life|].
  destruct (is_push_step act) eqn:Hps; [by apply life_push_step|]. unfold exec. destruct (w_crashed w); [done|]. destruct act; try done.
  - intros [= <-]. unfold exec_invoke. rewrite new_message_spec. unfold mark_call.
    destruct notify, (System_post_check _ _); apply (life_ext (w_sys w)); done.
  - unfold exec_invoke_child. destruct (actor_at parent w) as [a|]; [|done]. rewrite new_message_spec.
    destruct (Actor_findChildActor a _ answer) as [[child|]|]; unfold mark_call;
      destruct notify; intros [= <-]; apply (life_ext (w_sys w)); done.
  - unfold exec_push. destruct (w_posting w !! i) as [[aid [id m]]|]; [|done].
    destruct (swap_to aid id m _) as [s|] eqn:E; intros [= <-]; [|done]. by eapply life_push.
  - destruct (CreateActor_check id (w_sys w)); by intros [= <-].
  - destruct (w_creating w !! i) as [id|]; [|done].
    destruct (CreateActor_store id now _) as [[s aid]|] eqn:E; intros [= <-]; [|done]. by eapply life_create.
  - destruct (actor_at parent w) as [a|]; [|done]. destruct (Create_check a childID) as [[]|]; by intros [= <-].
  - destruct (w_childCreating w !! i) as [[parent childID]|]; [|done].
    destruct (Create_store parent childID now _) as [[s aid]|] eqn:E; intros [= <-]; [|done].
    by eapply life_child_create.
  - destruct (actor_at aid w) as [a|] eqn:Ha; [|done]. destruct (ac_phase a) eqn:Hph; try done.
    destruct panicked; intros [= <-].
    { apply life_routes; [done|done|by rewrite Hph|]. pose proof (life_at _ aid a I Ha) as [].
      rewrite Hph in ao_state0. simpl in ao_state0. by rewrite ao_state0. }
    apply (life_update _ aid a); [done|done| |].
    + pose proof (life_at _ aid a I Ha) as []. split; simpl; try done. intros _. apply ao_open0. by rewrite Hph.
    + unfold compat, serving, alive. simpl. by rewrite Hph.
  - destruct (actor_at aid w) as [a|] eqn:Ha; [|done]. destruct (ac_phase a) eqn:Hph; try done.
    by apply life_loop.
  - destruct (actor_at aid w) as [a|] eqn:Ha; [|done]. destruct (ac_phase a) as [| |id m| | |] eqn:Hph; try done.
    assert (Hl : life (set_actor aid (set_phase PhLoop a) (w_sys w))).
    { pose proof (life_at _ aid a I Ha). apply (life_update _ aid a); [done|done|apply ok_phase|apply compat_phase];
        by rewrite ?Hph. }
    destruct answer as [child|]; intros [= <-]; [by apply life_forward|]. simpl. by apply life_finish.
  - destruct (actor_at aid w) as [a|] eqn:Ha; [|done]. destruct (ac_phase a) as [| | |id m| |] eqn:Hph; try done.
    intros [= <-]. simpl. apply life_finish. pose proof (life_at _ aid a I Ha).
    apply (life_update _ aid a); [done|done|apply ok_phase|apply compat_phase]; by rewrite ?Hph.
  - destruct (actor_at aid w) as [a|] eqn:Ha; [|done]. destruct (ac_phase a) as [| | | |err|] eqn:Hph; try done.
    destruct (onStop_queues _ _ _ _ _) as [s|] eqn:E; intros [= <-]; [by eapply life_queues|done].
  - destruct (actor_at aid w) as [a|] eqn:Ha; [|done]. intros [= <-]. apply (life_update _ aid a); [done|done| |done].
    pose proof (life_at _ aid a I Ha) as []. by split.
  - destruct (System_PostEvent _ data _) as [s|] eqn:E; intros [= <-]; [by eapply life_PostEvent|done].
Qed.

End Life.
Arguments life_at {late}.
Arguments queues_total {late}.

(** Only registrations add to [w_late]. *)
Lemma late_forward c i m w : w_late (forward_to c i m w) = w_late w.
Proof. unfold forward_to. by destruct (swap_to c i m _). Qed.

Lemma late_processTyped aid a now c i m w : w_late (Actor_processTyped aid a now c i m w) = w_late w.
Proof.
  unfold Actor_processTyped. destruct (Message_TargetPath m) as [path m']. case_if.
  - destruct (path ≫= _); [by rewrite late_forward|done].
  - unfold Actor_invokeTyped. by destruct (invokeTyped_start _ _ _ _ _).
Qed.

Lemma late_loop aid a c w w' : Actor_loop aid a c w = Some w' -> w_late w' = w_late w.
Proof.
  unfold Actor_loop. destruct c; destruct (loop_done a); try done.
  - by intros [= <-].
  - unfold Actor_processMail. destruct (aq_recv _) as [q|]; [|done].
    destruct (mailbox_Pop _) as [[[[id m]|] mail]|]; [| |done]; [case_if|]; intros [= <-]; try done.
    by rewrite late_processTyped.
  - unfold Actor_processEvent. destruct (aq_recv _); [|done]. destruct (actorEvent_Pop _) as [[[]]|]; by intros [= <-].
  - unfold Actor_processTimer. destruct (aq_recv _); [|done]. destruct (actorTimer_Pop _) as [[id t]|]; [|done].
    case_if; [by intros [= <-]|]. destruct (actorTimer_invokeFunc id t) as [fn t']. by intros [= <-].
  - intros (a' & _ & ->)%Actor_processNil_touched. done.
  - destruct (ac_close a); [|done]. by intros [= <-].
Qed.

Lemma late_other act w w' : is_register act = false -> exec act w = Some w' -> w_late w' = w_late w.
Proof.
  intros Hno. destruct (is_push_step act) eqn:Hps.
  { intros (aid & a & a' & _ & _ & [->| ->])%exec_push_step; done. }
  unfold exec. destruct (w_crashed w); [done|]. destruct act; try done.
  - intros [= <-]. unfold exec_invoke. rewrite new_message_spec. unfold mark_call.
    by destruct notify, (System_post_check _ _).
  - unfold exec_invoke_child. destruct (actor_at parent w); [|done]. rewrite new_message_spec.
    destruct (Actor_findChildActor _ _ answer) as [[]|]; unfold mark_call; destruct notify; by intros [= <-].
  - unfold exec_push. destruct (w_posting w !! i) as [[aid [id m]]|]; [|done]. destruct (swap_to _ _ _ _); by intros [= <-].
  - destruct (CreateActor_check id _); by intros [= <-].
  - destruct (w_creating w !! i); [|done]. destruct (CreateActor_store _ now _) as [[]|]; by intros [= <-].
  - destruct (actor_at parent w); [|done]. destruct (Create_check _ childID) as [[]|]; by intros [= <-].
  - destruct (w_childCreating w !! i) as [[]|]; [|done]. destruct (Create_store _ _ now _) as [[]|]; by intros [= <-].
  - destruct (actor_at aid w) as [a|]; [|done]. destruct (ac_phase a); try done. destruct panicked; by intros [= <-].
  - destruct (actor_at aid w) as [a|]; [|done]. destruct (ac_phase a); try done. apply late_loop.
  - destruct (actor_at aid w) as [a|]; [|done]. destruct (ac_phase a); try done.
    destruct answer; intros [= <-]; [by rewrite late_forward|done].
  - destruct (actor_at aid w) as [a|]; [|done]. destruct (ac_phase a); try done. by intros [= <-].
  - destruct (actor_at aid w) as [a|]; [|done]. destruct (ac_phase a); try done.
    destruct (onStop_queues _ _ _ _ _); by intros [= <-].
  - destruct (actor_at aid w) as [a|]; [|done]. by intros [= <-].
  - destruct (System_PostEvent _ data _); by intros [= <-].
  - destruct (System_EventRegister _ _ _ _ _); by intros [= <-].
  - destruct (System_EventUnregister _ _ _); by intros [= <-].
  - destruct (actor_at aid w) as [a|]; [|done]. by intros [= <-].
  - destruct (actor_at aid w) as [a|]; [|done]. by intros [= <-].
  - destruct (actor_at aid w) as [a|]; [|done]. destruct (actorTimer_Push _ _); by intros [= <-].
Qed.

(** The invariant of a world. *)
Definition life (w : world) : Prop := life_inv (w_late w) (w_sys w).

Lemma exec_life act w w' : life w -> exec act w = Some w' -> life w'.
Proof.
  unfold life. intros I He. destruct (is_register act) eqn:Hreg.
  2: { rewrite (late_other _ _ _ Hreg He). by apply (exec_life_other _ _ _ _ Hreg I He). }
  destruct act as [| | | | | | | | |aid id h| | | | | | | | | | | |]; try done.
  unfold exec in He. destruct (w_crashed w); [done|].
  destruct (exec_register_inv _ _ _ _ _ He) as (a & Ha & [->|(mail & table & E & ->)]); [done|].
  pose proof (life_register _ aid a id h mail table _ I Ha E) as H. by destruct (serving a).
Qed.

(** The method table an application starts with. *)
Definition empty_table (table : option Table) : Prop := match table with Some t => t_byID t = ∅ | None => True end.

Lemma wreach_life app table w : empty_table table -> wreach app table w -> life w.
Proof.
  intros Ht. induction 1 as [|w act w' _ I He]; [|by eapply exec_life].
  split; simpl; try done.
  intros t id e -> He. simpl in Ht. by rewrite Ht, lookup_empty in He.
Qed.

(** ** Properties of all runs *)

(** C2: Every entry of the method table, whatever has happened, names the path of a
    top-level actor that has not begun to stop and has a handler for the identifier, unless
    that very entry was registered late: [Register] accepts it after the actor's [OnInit]
    failed (its state variable is [InitState] for ever), and it then names an actor that is
    stopping or gone. *)
Theorem routes_reach_serving_actors (app : App) (table : option Table) (w : world) (t : Table) (id : Z)
    (e : registeredMethod) :
  empty_table table -> wreach app table w -> sys_methods (w_sys w) = Some t -> t_byID t !! id = Some e ->
  exists aid a, actor_at aid w = Some a /\ ActorPath_IsParent (Some (ac_path a)) = true /\
    Actor_PathString a = rm_target e /\
    ((serving a = true /\ is_Some (mailbox_getMethod id (ac_mail a))) \/
     (serving a = false /\ ac_state a = InitState /\ (aid, id) ∈ w_late w)).
Proof. intros Ht Hw. apply (lf_routes _ (wreach_life app table w Ht Hw)). Qed.

Lemma routes_reach_serving_actors_witness :
  wreach demo_app (Some (NewTable true)) demo_final /\
  exists aid a, actor_at aid demo_final = Some a /\ ActorPath_IsParent (Some (ac_path a)) = true /\
    Actor_PathString a = "n1.player"%string /\ serving a = true /\ is_Some (mailbox_getMethod 100 (ac_mail a)).
Proof.
  split; [exact demo_reach|].
  destruct (routes_reach_serving_actors demo_app (Some (NewTable true)) demo_final
    (default (NewTable true) (sys_methods (w_sys demo_final))) 100 (mkMethod REQUEST "n1.player"))
    as (aid & a & H1 & H2 & H3 & [[H4 H5]|(_ & _ & H)]);
    [reflexivity|exact demo_reach|vm_compute; reflexivity|vm_compute; reflexivity| |].
  - exists aid, a. by split_and!.
  - assert (E : w_late demo_final = []) by (vm_compute; reflexivity). rewrite E in H. destruct (not_elem_of_nil _ H).
Defined.

(** A route of a dead actor: [OnInit] panics, the actor's goroutine is done, and a
    goroutine the [OnInit] had started registers a method. [Register] accepts it, and the
    entry stays: its calls find no actor. *)
Definition late_run : list action :=
  [ACreateCheck "player"; ACreateStore 0 1000; AInitDone 0 (Some "boom"%string); AStopped 0 false;
   ARegister 0 100 (HFunc echo_fn)].
Definition late_world : world := default demo_world (wrun late_run demo_world).

Lemma late_register_leaves_route :
  wreach demo_app (Some (NewTable true)) late_world /\
  Table_Target 100 (sys_methods (w_sys late_world)) = Some "n1.player"%string /\
  System_GetActor "player" (w_sys late_world) = None /\ sys_wg (w_sys late_world) = 0.
Proof.
  split; [apply wreach_default; [apply wreach_init|vm_compute; reflexivity]|].
  split_and!; vm_compute; reflexivity.
Qed.

(** The wait group counts the actors whose goroutine has not finished, so
    System.Stop, which waits for zero, returns exactly when all of them are gone. *)
Theorem wait_group_counts_actors (app : App) (table : option Table) (w : world) :
  empty_table table -> wreach app table w ->
  0 <= sys_wg (w_sys w) /\
  (sys_wg (w_sys w) = 0 <-> forall aid a, actor_at aid w = Some a -> ac_phase a = PhDead).
Proof.
  intros Ht Hw. pose proof (wreach_life app table w Ht Hw) as I. rewrite (lf_wg _ I). split; [lia|].
  unfold actor_at. generalize (sys_actors (w_sys w)). intros h. split.
  - intros Hz aid a Ha. pose proof (heap_sum_delete alive h aid a Ha) as H.
    assert (alive a = 0%nat) as E by lia. unfold alive in E. by destruct (ac_phase a).
  - intros Hd. induction h as [|k a h Hk IH] using map_ind; [done|].
    rewrite heap_sum_insert by done. unfold alive at 1.
    rewrite (Hd k a) by apply lookup_insert_eq. rewrite Nat.add_0_l. apply IH.
    intros i b Hi. apply (Hd i). rewrite lookup_insert_ne; [done|]. intros ->. congruence.
Qed.

Lemma wait_group_counts_actors_witness :
  wreach demo_app (Some (NewTable true)) demo_final /\ 0 <= sys_wg (w_sys demo_final) /\
  (sys_wg (w_sys demo_final) = 0 <-> forall aid a, actor_at aid demo_final = Some a -> ac_phase a = PhDead).
Proof.
  split; [exact demo_reach|].
  exact (wait_group_counts_actors demo_app (Some (NewTable true)) demo_final eq_refl demo_reach).
Defined.

(** The loop never sleeps on work: once no push into its mailbox is under way, an actor at
    the top of its loop with a message in it can take it, and the same for its events, even
    after it was told to stop (while fewer than 2^31 are queued). *)
Theorem loop_takes_queued_work (app : App) (table : option Table) (w : world) (aid : nat) (a : Actor) :
  empty_table table -> wreach app table w -> w_crashed w = false ->
  actor_at aid w = Some a -> ac_phase a = PhLoop ->
  (aq_settled (mb_queue (ac_mail a)) -> aq_items (mb_queue (ac_mail a)) <> [] ->
     Z.of_nat (length (aq_items (mb_queue (ac_mail a)))) < 2 ^ 31 ->
     forall now c, is_Some (exec (ALoop aid (LMail now c)) w)) /\
  (aq_settled (ae_queue (ac_event a)) -> aq_items (ae_queue (ac_event a)) <> [] ->
     Z.of_nat (length (aq_items (ae_queue (ac_event a)))) < 2 ^ 31 ->
     forall now panics, is_Some (exec (ALoop aid (LEvent now panics)) w)).
Proof.
  intros Ht Hw Hcr Ha Hph. pose proof (wreach_life app table w Ht Hw) as I.
  pose proof (life_at _ aid a I Ha) as []. destruct ao_open0 as [Hm He]; [by rewrite Hph|].
  assert (Hlen : forall {A} (l : list A), l <> [] -> 0 < Z.of_nat (length l)) by (intros A []; simpl; [done|lia]).
  split; intros Hset Hne Hb now x; unfold exec; rewrite Hcr, Ha, Hph; unfold Actor_loop, loop_done, aq_Count.
  - destruct (aq_settled_token _ ao_mail_ok0 Hm Hset Hne Hb) as [HC ->].
    rewrite (proj2 (Z.ltb_ge _ 1)) by (specialize (Hlen _ _ Hne); lia). rewrite andb_false_r.
    unfold Actor_processMail, aq_recv. destruct (aq_C (mb_queue (ac_mail a))) eqn:EC; [|by destruct HC].
    unfold mailbox_Pop, aq_Pop. simpl. rewrite Hm.
    destruct (aq_items (mb_queue (ac_mail a))) as [|[id m] items]; [done|].
    destruct (m_MethodID m =? 0); by eexists.
  - destruct (aq_settled_token _ ao_event_ok0 He Hset Hne Hb) as [HC ->].
    rewrite (proj2 (Z.ltb_ge (Z.of_nat (length (aq_items (ae_queue (ac_event a))))) 1)) by (specialize (Hlen _ _ Hne); lia). rewrite !andb_false_r.
    unfold Actor_processEvent, aq_recv. destruct (aq_C (ae_queue (ac_event a))) eqn:EC; [|by destruct HC].
    unfold actorEvent_Pop, aq_Pop. simpl. rewrite He.
    destruct (aq_items (ae_queue (ac_event a))); [done|]. by eexists.
Qed.

(** A test of the actor of an address, for evaluating runs. *)
Definition actor_test (aid : nat) (w : world) (f : Actor -> bool) : bool :=
  match actor_at aid w with Some a => f a | None => false end.

Lemma actor_test_at aid w f : actor_test aid w f = true -> exists a, actor_at aid w = Some a /\ f a = true.
Proof. unfold actor_test. destruct (actor_at aid w) as [a|]; [eauto|done]. Qed.

Definition is_loop (a : Actor) : bool := match ac_phase a with PhLoop => true | _ => false end.
Definition is_stopping (a : Actor) : bool := bool_decide (ac_state a = StopState).

Lemma is_loop_phase a : is_loop a = true -> ac_phase a = PhLoop.
Proof. unfold is_loop. by destruct (ac_phase a). Qed.

(** An actor told to stop while a call waits in its mailbox. *)
Definition queued_run : list action :=
  demo_create ++ [AInvoke false demo_call "n1.player" 100 PNil; APush 0; ACounted 0 QMail; ASent 0 QMail 0 true;
    AExit 0; ALoop 0 LClose].
Definition queued_world : world := default demo_world (wrun queued_run demo_world).

Lemma queued_reach : wreach demo_app (Some (NewTable true)) queued_world.
Proof. apply wreach_default; [apply wreach_init|]. vm_compute. reflexivity. Defined.

Lemma queued_actor : exists a, actor_at 0 queued_world = Some a /\
  is_stopping a && is_loop a && (Nat.eqb (length (aq_items (mb_queue (ac_mail a)))) 1 &&
    (Nat.eqb (aq_pend (mb_queue (ac_mail a))) 0 && bool_decide (aq_sums (mb_queue (ac_mail a)) = []))) = true.
Proof. apply actor_test_at. vm_compute. reflexivity. Qed.

Lemma loop_takes_queued_work_witness :
  wreach demo_app (Some (NewTable true)) queued_world /\
  exists a, actor_at 0 queued_world = Some a /\ ac_state a = StopState /\
    is_Some (exec (ALoop 0 (LMail 9 false)) queued_world).
Proof.
  split; [exact queued_reach|]. destruct queued_actor as (a & Ha & Hf).
  apply andb_true_iff in Hf as [Hf Hl]. apply andb_true_iff in Hf as [Hs Hp].
  apply andb_true_iff in Hl as [Hl He]. apply andb_true_iff in He as [He1 He2].
  apply Nat.eqb_eq in Hl, He1. apply bool_decide_eq_true in He2.
  exists a. split; [done|]. split; [by apply bool_decide_eq_true in Hs|].
  assert (Hc : w_crashed queued_world = false) by (vm_compute; reflexivity).
  apply (proj1 (loop_takes_queued_work demo_app (Some (NewTable true)) queued_world 0 a eq_refl queued_reach
    Hc Ha (is_loop_phase a Hp))).
  - by split.
  - intros E. rewrite E in Hl. discriminate.
  - rewrite Hl. reflexivity.
Defined.

Lemma onStop_routes_at aid a err s : sys_actors s !! aid = Some a ->
  exists a', sys_actors (onStop_routes aid a err s) !! aid = Some a' /\ ac_phase a' = PhStop err.
Proof.
  intros Ha. unfold onStop_routes. destruct (ActorPath_IsParent (Some (ac_path a))).
  - destruct (exit_phase ((map_to_list (ac_children a)).*2) _ aid a Ha) as (b & Hb & _).
    destruct (sys_app s), (sys_methods s); simpl; rewrite lookup_alter_eq, Hb; by eexists.
  - destruct (System_GetActor (ActorID (ac_path a)) s) as [p|]; simpl; rewrite lookup_alter_eq.
    + destruct (decide (p = aid)) as [->|]; [rewrite lookup_alter_eq|rewrite lookup_alter_ne by done];
        rewrite Ha; by eexists.
    + rewrite Ha. by eexists.
Qed.

Lemma count_drained {A} (q : aqueue A) : aq_ok q -> aq_closed q = false ->
  Z.of_nat (length (aq_items q)) < 2 ^ 31 -> (aq_Count q <? 1) = true -> (length (aq_items q) <= aq_pend q)%nat.
Proof.
  intros Hq Hc Hb Hn. destruct (Hq Hc) as [E _]. unfold aq_Count in Hn. rewrite E in Hn.
  destruct (decide (length (aq_items q) <= aq_pend q)%nat) as [|Hgt]; [done|].
  rewrite i32_small in Hn by lia. apply Z.ltb_lt in Hn. lia.
Qed.


(** An idle actor that was told to stop and left its loop. *)
Definition idle_run : list action := demo_create ++ [AExit 0; ALoop 0 LClose].
Definition idle_world : world := default demo_world (wrun idle_run demo_world).

Lemma idle_reach : wreach demo_app (Some (NewTable true)) idle_world.
Proof. apply wreach_default; [apply wreach_init|]. vm_compute. reflexivity. Defined.

Definition is_idle (a : Actor) : bool :=
  Nat.eqb (length (aq_items (mb_queue (ac_mail a)))) 0 && Nat.eqb (length (aq_items (ae_queue (ac_event a)))) 0.

Lemma idle_actor : exists a, actor_at 0 idle_world = Some a /\ is_idle a = true.
Proof. apply actor_test_at. vm_compute. reflexivity. Qed.


(** The bound is reached: one call's push has linked its message and not reached the
    counter, a second call's push is complete. The actor takes the first message, [Count]
    answers zero, and the actor, told to stop, leaves its loop and destroys the queue with
    the second message in it: that call is never answered. *)
Definition uncounted_run : list action :=
  demo_create ++
  [AInvoke false demo_call "n1.player" 100 PNil; APush 0;
   AInvoke false demo_call "n1.player" 100 PNil; APush 0; ACounted 0 QMail; ASent 0 QMail 0 true;
   ALoop 0 (LMail 2000 false); AReturn 0 demo_answer; AExit 0; ALoop 0 LClose; ALoop 0 LExit; AStopped 0 false].
Definition uncounted_world : world := default demo_world (wrun uncounted_run demo_world).

Lemma stop_leaves_finished_push :
  wreach demo_app (Some (NewTable true)) uncounted_world /\
  (exists a, actor_at 0 uncounted_world = Some a /\
     Nat.eqb (length (aq_items (mb_queue (ac_mail a)))) 1 && aq_closed (mb_queue (ac_mail a)) = true) /\
  sys_wg (w_sys uncounted_world) = 0 /\ w_calls uncounted_world = [1; 0]%nat /\
  (sys_results (w_sys uncounted_world)).*1 = [0].
Proof.
  split; [apply wreach_default; [apply wreach_init|vm_compute; reflexivity]|].
  split; [apply actor_test_at; vm_compute; reflexivity|]. split_and!; vm_compute; reflexivity.
Qed.

Lemma onStop_queues_at aid a e panics s s' : onStop_queues aid a (Some e) panics s = Some s' ->
  exists a'', sys_actors s' !! aid = Some a'' /\ ac_phase a'' = PhDead /\ ac_initDone a'' = Some (Some e).
Proof.
  unfold onStop_queues. destruct panics.
  - intros [= <-]. simpl. rewrite lookup_insert_eq. by eexists.
  - destruct (actorTimer_onStop (ac_timer a)) as [tl t], (actorEvent_onStop (ac_event a)) as [names [ev|]]; [|done].
    destruct (mailbox_onStop _) as [mail|]; [|done]. intros [= <-]. simpl. rewrite lookup_insert_eq. by eexists.
Qed.

(** A failed initialization is withdrawn: when the goroutine of a top-level actor whose
    OnInit panicked has removed its routes (a later [Register] can add one,
    [late_register_leaves_route]), no method routes to its path and its
    identifier is free, the rest of its stop cannot panic, and the creator is told the
    error and not that the actor is ready. *)
Theorem failed_init_withdraws (app : App) (table : option Table) (w w' : world) (aid : nat) (a : Actor) (e : str) :
  empty_table table -> wreach app table w -> actor_at aid w = Some a ->
  ActorPath_IsParent (Some (ac_path a)) = true -> exec (AInitDone aid (Some e)) w = Some w' ->
  System_GetActor (Actor_ActorID a) (w_sys w') = None /\
  (forall t id m, sys_methods (w_sys w') = Some t -> t_byID t !! id = Some m -> rm_target m <> Actor_PathString a) /\
  forall panics, exists w'' a'', exec (AStopped aid panics) w' = Some w'' /\ w_crashed w'' = false /\
    actor_at aid w'' = Some a'' /\ ac_phase a'' = PhDead /\ ac_initDone a'' = Some (Some e).
Proof.
  intros Ht Hw Ha Hpar Hex. pose proof (wreach_life app table w Ht Hw) as I.
  pose proof (exec_life _ _ _ I Hex) as I'. unfold exec in Hex.
  destruct (w_crashed w) eqn:Hcr; [done|]. rewrite Ha in Hex. destruct (ac_phase a) eqn:Hph; try done.
  injection Hex as <-. split_and!.
  - unfold onStop_routes. rewrite Hpar. unfold System_GetActor.
    destruct (sys_app (w_sys w)), (sys_methods (w_sys w)); simpl; apply lookup_delete_eq.
  - intros t id m Hm Hid. unfold onStop_routes in Hm. rewrite Hpar in Hm.
    pose proof (lf_app _ I) as Happ.
    destruct (sys_app (w_sys w)) eqn:Ea; [|done]. destruct (sys_methods (w_sys w)) as [t0|] eqn:Et; simpl in Hm.
    + injection Hm as <-. rewrite Table_UnregisterTarget_lookup in Hid by apply PathString_not_empty.
      destruct (t_byID t0 !! id); [|done]. case_decide; [done|]. by injection Hid as <-.
    + by rewrite Et in Hm.
  - intros panics. destruct (onStop_routes_at aid a (Some e) (w_sys w) Ha) as (a' & Ha' & Hph').
    destruct (queues_total aid a' (Some e) panics _ I' Ha' Hph') as [s Hs]. simpl in Hs.
    destruct (onStop_queues_at aid a' e panics _ _ Hs) as (a'' & H1 & H2 & H3).
    exists (with_sys s (with_sys (onStop_routes aid a (Some e) (w_sys w)) w)), a''.
    unfold exec, actor_at. simpl. by rewrite Hcr, Ha', Hph', Hs.
Qed.

(** An actor whose OnInit registers a method and then panics. *)
Definition init_world : world :=
  default demo_world (wrun [ACreateCheck "player"; ACreateStore 0 1000; ARegister 0 100 (HFunc echo_fn)] demo_world).

Lemma init_reach : wreach demo_app (Some (NewTable true)) init_world.
Proof. apply wreach_default; [apply wreach_init|]. vm_compute. reflexivity. Defined.

Lemma init_actor : exists a, actor_at 0 init_world = Some a /\
  ActorPath_IsParent (Some (ac_path a)) && String.eqb (Actor_ActorID a) "player" = true.
Proof. apply actor_test_at. vm_compute. reflexivity. Qed.

Lemma failed_init_withdraws_witness :
  exists w', exec (AInitDone 0 (Some "duplicate"%string)) init_world = Some w' /\
    System_GetActor "player" (w_sys w') = None /\
    forall panics, exists w'' a'', exec (AStopped 0 panics) w' = Some w'' /\ w_crashed w'' = false /\
      actor_at 0 w'' = Some a'' /\ ac_phase a'' = PhDead /\ ac_initDone a'' = Some (Some "duplicate"%string).
Proof.
  destruct init_actor as (a & Ha & Hf). apply andb_true_iff in Hf as [Hp Hid]. apply String.eqb_eq in Hid.
  destruct (exec (AInitDone 0 (Some "duplicate"%string)) init_world) as [w'|] eqn:E.
  2: { assert (match exec (AInitDone 0 (Some "duplicate"%string)) init_world with Some _ => true | None => false end
         = true) as F by (vm_compute; reflexivity). rewrite E in F. discriminate. }
  exists w'. split; [done|].
  destruct (failed_init_withdraws demo_app (Some (NewTable true)) init_world w' 0 a "duplicate" eq_refl init_reach
    Ha Hp E) as (H1 & _ & H3). rewrite Hid in H1. by split.
Defined.

(** ** A race of two creations

    [CreateActor] checks the map and stores into it in two steps. When two goroutines
    create the same identifier at once, both actors are started. The second one's
    initialization then fails on the duplicate method, and its stop removes the map
    entry and every route of their common path: the first actor stays alive in its
    loop, its creator was told it is ready, and nothing can reach it. *)
Definition race_run : list action :=
  [ACreateCheck "player"; ACreateCheck "player"; ACreateStore 0 1000; ACreateStore 0 1000;
   ARegister 0 100 (HFunc echo_fn); AInitDone 0 None; ARegister 1 100 (HFunc echo_fn);
   AInitDone 1 (Some "duplicate"%string); AStopped 1 false].
Definition race_world : world := default demo_world (wrun race_run demo_world).

Lemma CreateActor_race :
  wreach demo_app (Some (NewTable true)) race_world /\
  (exists a, actor_at 0 race_world = Some a /\
     is_loop a && bool_decide (ac_initDone a = Some None) && bool_decide (is_Some (mailbox_getMethod 100 (ac_mail a))) = true) /\
  System_GetActor "player" (w_sys race_world) = None /\
  Table_Target 100 (sys_methods (w_sys race_world)) = None.
Proof.
  split; [apply wreach_default; [apply wreach_init|vm_compute; reflexivity]|].
  split; [apply actor_test_at; vm_compute; reflexivity|]. split; vm_compute; reflexivity.
Qed.
