(* ===== verification/Agp.v ===== *)
(** AGP packets and their transports (net/proto/agp_validator.go, agp_codec.go,
    net/parser/tcp_packet_framer.go, packet_transport.go, options.go).

    [ValidatePacket] and [NormalizeLimits] guard every packet that enters or leaves;
    [PacketCodec] is the codec around the protobuf library, which is a parameter
    ([PacketProto], with its documented round trip as [PacketProtoLaws]); the TCP framer
    works over an [io.Reader] that delivers the stream in chunks of any size and an
    [io.Writer] that may accept any part of what it is given. *)
From S2P Require Import Prelude Strconv Facade.

(** ** Limits *)

(** src/net/proto/agp_validator.go:19-26, Limits *)
Record Limits := mkLimits {
  MaxPacketSize : Z; MaxBodySize : Z; MaxMetadataKeys : Z;
  MaxMetadataKey : Z; MaxMetadataValue : Z; MaxMetadataSize : Z }.

(** src/net/proto/agp_codec.go:10-10, DefaultMaxPacketSize *)
Definition DefaultMaxPacketSize : Z := Z.shiftl 4 20.

(** src/net/proto/agp_validator.go:29-38, DefaultLimits *)
Definition DefaultLimits : Limits :=
  mkLimits DefaultMaxPacketSize (DefaultMaxPacketSize - 1024) 32 64 1024 (Z.shiftl 8 10).

Definition default_if_unset (x d : Z) : Z := if x <=? 0 then d else x.

(** src/net/proto/agp_validator.go:42-66, NormalizeLimits *)
Definition NormalizeLimits (limits : Limits) : Limits :=
  let packetSize := default_if_unset (MaxPacketSize limits) (MaxPacketSize DefaultLimits) in
  let bodySize := default_if_unset (MaxBodySize limits) (MaxBodySize DefaultLimits) in
  let bodySize := if packetSize <? bodySize then packetSize else bodySize in
  mkLimits packetSize bodySize
    (default_if_unset (MaxMetadataKeys limits) (MaxMetadataKeys DefaultLimits))
    (default_if_unset (MaxMetadataKey limits) (MaxMetadataKey DefaultLimits))
    (default_if_unset (MaxMetadataValue limits) (MaxMetadataValue DefaultLimits))
    (default_if_unset (MaxMetadataSize limits) (MaxMetadataSize DefaultLimits)).

(** ** Packets *)

(** src/net/proto/agp.proto:39-44, Request *)
Record Request := mkRequest { rq_RequestId : Z; rq_MethodId : Z; rq_TimeoutMs : Z; rq_Body : bytes }.
(** src/net/proto/agp.proto:47-52, Response *)
Record Response := mkResponse { rp_RequestId : Z; rp_Code : Z; rp_Message : str; rp_Body : bytes }.
(** src/net/proto/agp.proto:55-58, Notify *)
Record NotifyMsg := mkNotify { nt_MethodId : Z; nt_Body : bytes }.

(** The [oneof] wrapper of a packet holds a pointer, which may be nil. *)
(** src/net/proto/agp.proto:27-36, Packet *)
Inductive PacketKind :=
| Packet_Request (request : option Request)
| Packet_Response (response : option Response)
| Packet_Notify (notify : option NotifyMsg).
(** src/net/proto/agp.proto:27-36, Packet *)
Record Packet := mkPacket { pk_Kind : option PacketKind; pk_Metadata : gomap str bytes; pk_Codec : Z }.

Inductive agp_err :=
| PacketNil | KindMissing | UnsupportedCodec (codec : Z)
| RequestZero | ResponseZero | NotifyZero | BodyTooLarge (limit : Z)
| TooManyMetadata | MetadataKeyLength | MetadataValueTooLarge (key : str) | MetadataTooLarge (limit : Z)
| MarshalFailed (e : str) | PacketTooLarge (limit : Z) | InvalidPacketSize (size : Z) | UnmarshalFailed (e : str).

(** The metadata loop, over the entries in the order [range] yields them. *)
(** src/net/proto/agp_validator.go:107-119, ValidatePacket *)
Fixpoint validate_metadata (limits : Limits) (entries : list (str * bytes)) (metadataSize : Z) : option agp_err :=
  match entries with
  | [] => if MaxMetadataSize limits <? metadataSize then Some (MetadataTooLarge (MaxMetadataSize limits)) else None
  | (key, value) :: entries =>
      if (str_len key =? 0) || (MaxMetadataKey limits <? str_len key) then Some MetadataKeyLength
      else if MaxMetadataValue limits <? blen value then Some (MetadataValueTooLarge key)
      else validate_metadata limits entries (metadataSize + (str_len key + blen value))
  end.

(** The body of a packet of a known kind. *)
(** src/net/proto/agp_validator.go:81-100, ValidatePacket *)
Definition packet_body (kind : PacketKind) : agp_err + bytes :=
  match kind with
  | Packet_Request None => inl RequestZero
  | Packet_Request (Some r) =>
      if (rq_RequestId r =? 0) || (rq_MethodId r =? 0) then inl RequestZero else inr (rq_Body r)
  | Packet_Response None => inl ResponseZero
  | Packet_Response (Some r) => if rp_RequestId r =? 0 then inl ResponseZero else inr (rp_Body r)
  | Packet_Notify None => inl NotifyZero
  | Packet_Notify (Some n) => if nt_MethodId n =? 0 then inl NotifyZero else inr (nt_Body n)
  end.

Definition entries_of (m : gomap str bytes) : list (str * bytes) :=
  match m with Some g => map_to_list g | None => [] end.

(** [ValidatePacket] when [range] visits the metadata in the order [entries]. *)
(** src/net/proto/agp_validator.go:69-121, ValidatePacket *)
Definition ValidatePacket_in (entries : list (str * bytes)) (packet : option Packet) (limits : Limits) : option agp_err :=
  match packet with
  | None => Some PacketNil
  | Some packet =>
      let limits := NormalizeLimits limits in
      match pk_Kind packet with
      | None => Some KindMissing
      | Some kind =>
          if negb (pk_Codec packet =? CodecProtobuf) && negb (pk_Codec packet =? CodecJSON)
          then Some (UnsupportedCodec (pk_Codec packet))
          else match packet_body kind with
               | inl e => Some e
               | inr body =>
                   if MaxBodySize limits <? blen body then Some (BodyTooLarge (MaxBodySize limits))
                   else if MaxMetadataKeys limits <? gomap_len (pk_Metadata packet) then Some TooManyMetadata
                   else validate_metadata limits entries 0
               end
      end
  end.

Definition ValidatePacket (packet : Packet) (limits : Limits) : option agp_err :=
  ValidatePacket_in (entries_of (pk_Metadata packet)) (Some packet) limits.

(** ** The packet codec *)

(** [proto.Marshal] and [proto.Unmarshal] at the type [Packet]. *)
Class PacketProto := { pb_Marshal : Packet -> res bytes; pb_Unmarshal : bytes -> res Packet }.

(** src/net/proto/agp_codec.go:13-15, PacketCodec *)
Record PacketCodec := mkPacketCodec { pc_Limits : Limits }.

(** src/net/proto/agp_codec.go:18-20, NewPacketCodec *)
Definition NewPacketCodec (limits : Limits) : PacketCodec := mkPacketCodec (NormalizeLimits limits).

Section Codec.
Context `{PacketProto}.

(** src/net/proto/agp_codec.go:23-35, PacketCodec.Encode *)
Definition PacketCodec_Encode (c : PacketCodec) (packet : Packet) : agp_err + bytes :=
  match ValidatePacket packet (pc_Limits c) with
  | Some err => inl err
  | None =>
      match pb_Marshal packet with
      | Err e => inl (MarshalFailed e)
      | Ok data =>
          if MaxPacketSize (pc_Limits c) <? blen data then inl (PacketTooLarge (MaxPacketSize (pc_Limits c)))
          else inr data
      end
  end.

(** src/net/proto/agp_codec.go:38-50, PacketCodec.Decode *)
Definition PacketCodec_Decode (c : PacketCodec) (data : bytes) : agp_err + Packet :=
  if (blen data =? 0) || (MaxPacketSize (pc_Limits c) <? blen data) then inl (InvalidPacketSize (blen data))
  else match pb_Unmarshal data with
       | Err e => inl (UnmarshalFailed e)
       | Ok packet =>
           match ValidatePacket packet (pc_Limits c) with
           | Some err => inl err
           | None => inr packet
           end
       end.
End Codec.

(** The wire format does not distinguish an empty map from a nil one. *)
Definition pb_norm (p : Packet) : Packet :=
  mkPacket (pk_Kind p) (if gomap_len (pk_Metadata p) =? 0 then None else pk_Metadata p) (pk_Codec p).

Definition empty_packet : Packet := mkPacket None None 0.

(** Values of the Go field types, with a message behind the wrapper. *)
Definition packet_typed (p : Packet) : Prop :=
  inS 32 (pk_Codec p) /\
  match pk_Kind p with
  | None => True
  | Some (Packet_Request (Some r)) => inU 32 (rq_RequestId r) /\ inU 32 (rq_MethodId r) /\ inU 32 (rq_TimeoutMs r)
  | Some (Packet_Response (Some r)) => inU 32 (rp_RequestId r) /\ inS 32 (rp_Code r)
  | Some (Packet_Notify (Some n)) => inU 32 (nt_MethodId n)
  | _ => False
  end.

(** What protobuf documents: decoding an encoding gives the message back, and the empty
    input is the encoding of the empty message. *)
Class PacketProtoLaws `{PacketProto} := {
  pb_roundtrip p data : packet_typed p -> pb_Marshal p = Ok data -> pb_Unmarshal data = Ok (pb_norm p);
  pb_empty : pb_Unmarshal [] = Ok empty_packet }.

(** ** Byte streams

    A reader delivers the chunks its successive [Read] calls see and then fails with
    [rd_err] ([io.EOF] at the end of the stream); a chunk longer than the buffer is cut. *)

Record reader := mkReader { rd_chunks : list bytes; rd_err : str }.

Definition EOF : str := "EOF".
Definition ErrUnexpectedEOF : str := "unexpected EOF".
Definition ErrShortWrite : str := "short write".

(** [io.ReadFull] of [need] more bytes after [acc] was read. *)
Fixpoint read_full (chunks : list bytes) (need : nat) (acc : bytes) (err : str) : res (bytes * list bytes) :=
  match need with
  | O => Ok (acc, chunks)
  | _ =>
      match chunks with
      | [] => Err (if (blen acc =? 0) || negb (String.eqb err EOF) then err else ErrUnexpectedEOF)
      | c :: chunks =>
          if Nat.leb (length c) need then read_full chunks (need - length c) (acc ++ c) err
          else Ok (acc ++ take need c, drop need c :: chunks)
      end
  end.

Definition ReadFull (need : nat) (r : reader) : res (bytes * reader) :=
  match read_full (rd_chunks r) need [] (rd_err r) with
  | Ok (data, chunks) => Ok (data, mkReader chunks (rd_err r))
  | Err e => Err e
  end.

(** A writer: what it has accepted, and how many calls it has seen. *)
Record writer := mkWriter { wr_out : bytes; wr_calls : nat }.

Section Writer.
(** What the writer does at each call: how many bytes it accepts, its error. *)
Variable plan : nat -> nat * option str.

Definition Write (data : bytes) (w : writer) : nat * option str * writer :=
  let n := Nat.min (plan (wr_calls w)).1 (length data) in
  (n, (plan (wr_calls w)).2, mkWriter (wr_out w ++ take n data) (S (wr_calls w))).

(** [None]: out of fuel. *)
(** src/net/parser/tcp_packet_framer.go:57-69, writeFull *)
Fixpoint writeFull_loop (fuel : nat) (data : bytes) (w : writer) : option (writer * option str) :=
  match data with
  | [] => Some (w, None)
  | _ =>
      match fuel with
      | O => None
      | S fuel =>
          let '(n, err, w) := Write data w in
          match err with
          | Some e => Some (w, Some e)
          | None => if Nat.eqb n 0 then Some (w, Some ErrShortWrite) else writeFull_loop fuel (drop n data) w
          end
      end
  end.

(** src/net/parser/tcp_packet_framer.go:57-69, writeFull *)
Definition writeFull (data : bytes) (w : writer) : option (writer * option str) :=
  writeFull_loop (length data) data w.
End Writer.

(** ** The TCP framer *)

(** src/net/parser/tcp_packet_framer.go:12-14, TCPPacketFramer *)
Record TCPPacketFramer := mkFramer { fr_MaxPacketSize : Z }.

(** src/net/parser/tcp_packet_framer.go:17-22, NewTCPPacketFramer *)
Definition NewTCPPacketFramer (maxPacketSize : Z) : TCPPacketFramer :=
  mkFramer (if maxPacketSize =? 0 then DefaultMaxPacketSize else maxPacketSize).

(** src/net/parser/tcp_packet_framer.go:25-39, TCPPacketFramer.ReadPacketBytes *)
Definition ReadPacketBytes (f : TCPPacketFramer) (r : reader) : res (bytes * reader) :=
  match ReadFull 4 r with
  | Err e => Err (String.append "agp: read packet length: " e)
  | Ok (prefix, r) =>
      let length := match prefix with [a; b; c; d] => be32_get a b c d | _ => 0 end in
      if (length =? 0) || (fr_MaxPacketSize f <? length)
      then Err (String.append "agp: invalid packet length " (format_uint 10 length))
      else match ReadFull (Z.to_nat length) r with
           | Err e => Err (String.append "agp: read packet payload: " e)
           | Ok (packet, r) => Ok (packet, r)
           end
  end.

(** src/net/parser/tcp_packet_framer.go:42-55, TCPPacketFramer.WritePacketBytes *)
Definition WritePacketBytes (plan : nat -> nat * option str) (f : TCPPacketFramer) (packet : bytes) (w : writer)
  : option (writer * option str) :=
  if (blen packet =? 0) || (fr_MaxPacketSize f <? blen packet)
  then Some (w, Some (String.append "agp: invalid packet length " (format_uint 10 (blen packet))))
  else match writeFull plan (be32_put (u32 (blen packet))) w with
       | None => None
       | Some (w, Some e) => Some (w, Some (String.append "agp: write packet length: " e))
       | Some (w, None) =>
           match writeFull plan packet w with
           | None => None
           | Some (w, Some e) => Some (w, Some (String.append "agp: write packet payload: " e))
           | Some (w, None) => Some (w, None)
           end
       end.

(** ** Transports *)

(** A WebSocket connection of the library: what its next [ReadMessage] returns, and its
    [WriteMessage]. *)
Definition BinaryMessage : Z := 2.

(** src/net/parser/packet_transport.go:50-62, websocketPacketTransport.ReadPacketBytes *)
Definition websocket_ReadPacketBytes (maxPacketSize : Z) (message : res (Z * bytes)) : res bytes :=
  match message with
  | Err e => Err e
  | Ok (typ, data) =>
      if negb (typ =? BinaryMessage) then Err "agp: websocket message must be binary"
      else if (blen data =? 0) || (maxPacketSize <? blen data)
      then Err (String.append "agp: invalid websocket packet length " (format_uint 10 (blen data)))
      else Ok data
  end.

(** The message handed to [WriteMessage], or the error. *)
(** src/net/parser/packet_transport.go:63-68, websocketPacketTransport.WritePacketBytes *)
Definition websocket_WritePacketBytes (maxPacketSize : Z) (data : bytes) : res (Z * bytes) :=
  if (blen data =? 0) || (maxPacketSize <? blen data)
  then Err (String.append "agp: invalid websocket packet length " (format_uint 10 (blen data)))
  else Ok (BinaryMessage, data).

(** [IsWebsocket]: the concrete type of the connection implements [websocketMessageConn]. *)
(** src/net/parser/packet_transport.go:14-48, packetTransport *)
Inductive packetTransport :=
| tcpPacketTransport (framer : TCPPacketFramer)
| websocketPacketTransport (maxPacketSize : Z).

(** The transport, and the read limit set on a WebSocket. *)
(** src/net/parser/packet_transport.go:80-87, newPacketTransport *)
Definition newPacketTransport (isWebsocket : bool) (limits : Limits) : packetTransport * option Z :=
  let limits := NormalizeLimits limits in
  if isWebsocket then (websocketPacketTransport (MaxPacketSize limits), Some (MaxPacketSize limits))
  else (tcpPacketTransport (NewTCPPacketFramer (u32 (MaxPacketSize limits))), None).

(** ** Limits and validation *)

Lemma default_if_unset_pos x d : 0 < d -> 0 < default_if_unset x d.
Proof. unfold default_if_unset. case_if; breflect; lia. Qed.
Lemma default_if_unset_id x d : 0 < x -> default_if_unset x d = x.
Proof. unfold default_if_unset. intros. rewrite (proj2 (Z.leb_gt _ _)); lia. Qed.

Definition limits_ok (l : Limits) : Prop :=
  0 < MaxBodySize l <= MaxPacketSize l /\ 0 < MaxMetadataKeys l /\ 0 < MaxMetadataKey l /\
  0 < MaxMetadataValue l /\ 0 < MaxMetadataSize l.

Lemma NormalizeLimits_ok l : limits_ok (NormalizeLimits l).
Proof.
  unfold limits_ok, NormalizeLimits. simpl.
  pose proof (default_if_unset_pos (MaxPacketSize l) DefaultMaxPacketSize ltac:(done)).
  pose proof (default_if_unset_pos (MaxBodySize l) (DefaultMaxPacketSize - 1024) ltac:(done)).
  split_and!; try (by apply default_if_unset_pos); case_if; breflect; lia.
Qed.

Lemma NormalizeLimits_id l : limits_ok l -> NormalizeLimits l = l.
Proof.
  intros (H1 & H2 & H3 & H4 & H5). destruct l. unfold NormalizeLimits. simpl in *.
  rewrite !default_if_unset_id by lia. rewrite (proj2 (Z.ltb_ge _ _)) by lia. done.
Qed.

(** Limits are normalized field by field: every result has positive fields with the
    body limit within the packet limit, normalizing again changes nothing, each unset
    field takes its default and each set one is kept (the body limit capped by the
    packet limit). *)
Theorem NormalizeLimits_spec (l : Limits) :
  limits_ok (NormalizeLimits l) /\ NormalizeLimits (NormalizeLimits l) = NormalizeLimits l /\
  MaxPacketSize (NormalizeLimits l) = (if MaxPacketSize l <=? 0 then 4194304 else MaxPacketSize l) /\
  MaxBodySize (NormalizeLimits l) =
    Z.min (if MaxBodySize l <=? 0 then 4193280 else MaxBodySize l) (MaxPacketSize (NormalizeLimits l)) /\
  (limits_ok l -> NormalizeLimits l = l).
Proof.
  split; [apply NormalizeLimits_ok|]. split; [apply NormalizeLimits_id, NormalizeLimits_ok|].
  split; [done|]. split; [|apply NormalizeLimits_id]. unfold NormalizeLimits. simpl.
  unfold default_if_unset. change DefaultMaxPacketSize with 4194304.
  change (4194304 - 1024) with 4193280. repeat case_if; breflect; lia.
Qed.

Definition entry_size (kv : str * bytes) : Z := str_len kv.1 + blen kv.2.
Definition metadata_size (entries : list (str * bytes)) : Z := foldr (fun kv acc => entry_size kv + acc) 0 entries.

Lemma metadata_size_perm l l' : l ≡ₚ l' -> metadata_size l = metadata_size l'.
Proof. induction 1; simpl; lia. Qed.

Definition entry_ok (limits : Limits) (kv : str * bytes) : Prop :=
  0 < str_len kv.1 <= MaxMetadataKey limits /\ blen kv.2 <= MaxMetadataValue limits.

Lemma validate_metadata_ok limits entries size :
  validate_metadata limits entries size = None <->
  Forall (entry_ok limits) entries /\ size + metadata_size entries <= MaxMetadataSize limits.
Proof.
  revert size. induction entries as [|[k v] l IH]; intros size; simpl.
  - rewrite Z.add_0_r. split.
    + case_if; [done|]. intros _. split; [constructor|]. breflect. lia.
    + intros [_ H]. by rewrite (proj2 (Z.ltb_ge _ _)).
  - unfold entry_size. simpl. assert (0 <= str_len k) by (unfold str_len; lia). split.
    + do 2 (case_if; [done|]). breflect. intros [Hf Hs]%IH.
      split; [|lia]. constructor; [|done]. split; simpl; lia.
    + intros [[[Hk Hv] Hl]%Forall_cons_iff Hs]. simpl in *.
      rewrite (proj2 (Z.eqb_neq _ _)), !(proj2 (Z.ltb_ge _ _)) by lia. simpl. apply IH. split; [done|lia].
Qed.

(** The packets the protocol admits. *)
Definition kind_ok (kind : PacketKind) (body : bytes) : Prop :=
  match kind with
  | Packet_Request (Some r) => rq_RequestId r <> 0 /\ rq_MethodId r <> 0 /\ body = rq_Body r
  | Packet_Response (Some r) => rp_RequestId r <> 0 /\ body = rp_Body r
  | Packet_Notify (Some n) => nt_MethodId n <> 0 /\ body = nt_Body n
  | _ => False
  end.

Lemma packet_body_ok kind body : packet_body kind = inr body <-> kind_ok kind body.
Proof.
  destruct kind as [[r|]|[r|]|[n|]]; simpl; try (split; done).
  - split.
    + case_if; [done|]. intros [= <-]. breflect. done.
    + intros (H1 & H2 & ->). by rewrite !(proj2 (Z.eqb_neq _ _)).
  - split.
    + case_if; [done|]. intros [= <-]. breflect. done.
    + intros (H1 & ->). by rewrite (proj2 (Z.eqb_neq _ _)).
  - split.
    + case_if; [done|]. intros [= <-]. breflect. done.
    + intros (H1 & ->). by rewrite (proj2 (Z.eqb_neq _ _)).
Qed.

Definition packet_ok (limits : Limits) (p : Packet) : Prop :=
  (pk_Codec p = CodecProtobuf \/ pk_Codec p = CodecJSON) /\
  (exists kind body, pk_Kind p = Some kind /\ kind_ok kind body /\ blen body <= MaxBodySize limits) /\
  gomap_len (pk_Metadata p) <= MaxMetadataKeys limits /\
  (forall k v, gomap_get (pk_Metadata p) k = Some v -> entry_ok limits (k, v)) /\
  metadata_size (entries_of (pk_Metadata p)) <= MaxMetadataSize limits.

Lemma entries_of_ok limits m : Forall (entry_ok limits) (entries_of m) <->
  forall k v, gomap_get m k = Some v -> entry_ok limits (k, v).
Proof.
  destruct m as [g|]; simpl; [|split; [done|constructor]]. rewrite list.Forall_forall. split.
  - intros H k v Hk. apply (H (k, v)). by apply elem_of_map_to_list.
  - intros H [k v] Hk. apply H. by apply elem_of_map_to_list.
Qed.

Lemma ValidatePacket_in_ok entries p limits : entries ≡ₚ entries_of (pk_Metadata p) ->
  ValidatePacket_in entries (Some p) limits = None <-> packet_ok (NormalizeLimits limits) p.
Proof.
  intros Hperm. unfold ValidatePacket_in, packet_ok. rewrite <- entries_of_ok, <- (metadata_size_perm _ _ Hperm).
  generalize (NormalizeLimits limits). clear limits. intros limits.
  assert (Hf : Forall (entry_ok limits) (entries_of (pk_Metadata p)) <-> Forall (entry_ok limits) entries)
    by (by rewrite Hperm). rewrite Hf. clear Hf.
  assert (Hc : negb (pk_Codec p =? CodecProtobuf) && negb (pk_Codec p =? CodecJSON) = false <->
    pk_Codec p = CodecProtobuf \/ pk_Codec p = CodecJSON).
  { rewrite andb_false_iff, !negb_false_iff, !Z.eqb_eq. done. }
  destruct (pk_Kind p) as [kind|] eqn:Ek; [|split; [done|]; intros (_ & (? & ? & ? & _) & _); done].
  destruct (negb (pk_Codec p =? CodecProtobuf) && negb (pk_Codec p =? CodecJSON)).
  { split; [done|]. intros (H & _). by apply Hc in H. }
  destruct (packet_body kind) as [e|body] eqn:Eb.
  { split; [done|]. intros (_ & (k' & b' & [= <-] & H & _) & _). apply packet_body_ok in H. congruence. }
  assert (Hk : kind_ok kind body) by by apply packet_body_ok. split.
  - do 2 (case_if; [done|]). breflect. rewrite validate_metadata_ok. intros (H1 & H2).
    split_and!; [by apply Hc|exists kind, body; by split_and!|lia|done|lia].
  - intros (_ & (k' & b' & [= <-] & H & Hb) & Hn & H1 & H2). apply packet_body_ok in H.
    assert (b' = body) as -> by congruence. rewrite !(proj2 (Z.ltb_ge _ _)) by lia.
    apply validate_metadata_ok. split; [done|lia].
Qed.

(** ValidatePacket accepts exactly the packets of the protocol (a known kind with
    non-zero identifiers, a known codec, body and metadata within the limits), and in
    whatever order Go's range visits the metadata; a nil packet is rejected. *)
Theorem ValidatePacket_spec (p : Packet) (limits : Limits) (entries : list (str * bytes)) :
  entries ≡ₚ entries_of (pk_Metadata p) ->
  (ValidatePacket_in entries (Some p) limits = None <-> packet_ok (NormalizeLimits limits) p) /\
  (ValidatePacket p limits = None <-> packet_ok (NormalizeLimits limits) p) /\
  ValidatePacket_in entries None limits = Some PacketNil.
Proof. intros H. split; [by apply ValidatePacket_in_ok|]. split; [by apply ValidatePacket_in_ok|done]. Qed.

Definition sample_request : Packet :=
  mkPacket (Some (Packet_Request (Some (mkRequest 1 100 500 [Byte.x61; Byte.x62]))))
    (Some (<["k"%string := [Byte.x01]]> (<["l"%string := []]> ∅))) CodecJSON.

Lemma ValidatePacket_spec_witness :
  rev (entries_of (pk_Metadata sample_request)) ≡ₚ entries_of (pk_Metadata sample_request) /\
  packet_ok DefaultLimits sample_request.
Proof.
  assert (H : rev (entries_of (pk_Metadata sample_request)) ≡ₚ entries_of (pk_Metadata sample_request)).
  { symmetry. apply Permutation_rev. }
  split; [exact H|].
  apply (proj1 (proj1 (ValidatePacket_spec sample_request DefaultLimits _ H))). vm_compute. reflexivity.
Defined.

(** ** The codec *)

Lemma gomap_len_zero {V} (m : gomap str V) : gomap_len m = 0 -> m = None \/ m = Some ∅.
Proof.
  destruct m as [g|]; simpl; [|by left]. intros E. right. f_equal. apply map_size_empty_iff. lia.
Qed.

Lemma pb_norm_ok limits p : packet_ok limits p -> packet_ok limits (pb_norm p).
Proof.
  intros (H1 & H2 & H3 & H4 & H5). unfold packet_ok, pb_norm. simpl.
  destruct (Z.eqb_spec (gomap_len (pk_Metadata p)) 0) as [E|]; [|by split_and!].
  split_and!; try done; simpl.
  - by rewrite E in H3.
  - apply gomap_len_zero in E as [E | E]; rewrite E in H5; [done|]. simpl in H5. by rewrite map_to_list_empty in H5.
Qed.

Lemma ValidatePacket_normalized limits p :
  ValidatePacket p (NormalizeLimits limits) = None <-> packet_ok (NormalizeLimits limits) p.
Proof.
  unfold ValidatePacket. rewrite ValidatePacket_in_ok by done.
  by rewrite (NormalizeLimits_id (NormalizeLimits limits)) by apply NormalizeLimits_ok.
Qed.

Lemma Decode_packet_ok `{PacketProto} limits data p : PacketCodec_Decode (NewPacketCodec limits) data = inr p ->
  0 < blen data <= MaxPacketSize (NormalizeLimits limits) /\ packet_ok (NormalizeLimits limits) p.
Proof.
  unfold PacketCodec_Decode. cbn [pc_Limits NewPacketCodec]. case_if; [done|]. breflect.
  destruct (pb_Unmarshal data) as [q|]; [|done]. destruct (ValidatePacket q _) eqn:Ev; [done|].
  intros [= <-]. split; [|by apply ValidatePacket_normalized]. unfold blen in *. lia.
Qed.

(** C26: Whatever Encode emits, Decode with the same limits accepts, and gives the packet
    back (an empty metadata map as a nil one); and of any byte string at all, Decode lets
    through only a non-empty one within the packet limit that holds a packet of the
    protocol within the body and metadata limits. *)
Theorem PacketCodec_roundtrip `{PacketProtoLaws} (limits : Limits) :
  (forall p data, packet_typed p -> PacketCodec_Encode (NewPacketCodec limits) p = inr data ->
     PacketCodec_Decode (NewPacketCodec limits) data = inr (pb_norm p)) /\
  (forall data p, PacketCodec_Decode (NewPacketCodec limits) data = inr p ->
     0 < blen data <= MaxPacketSize (NormalizeLimits limits) /\ packet_ok (NormalizeLimits limits) p).
Proof.
  pose proof (ValidatePacket_normalized limits) as Hv.
  split.
  - intros p data Ht. unfold PacketCodec_Encode, PacketCodec_Decode. cbn [pc_Limits NewPacketCodec].
    destruct (ValidatePacket p _) eqn:Ev; [done|]. apply Hv in Ev.
    destruct (pb_Marshal p) as [d|] eqn:Em; [|done].
    destruct (MaxPacketSize (NormalizeLimits limits) <? blen d) eqn:E; [done|]. intros [= ->]. apply Z.ltb_ge in E.
    pose proof (pb_roundtrip p data Ht Em) as Hr. destruct (Z.eqb_spec (blen data) 0) as [E0|E0].
    + destruct data; [|done]. rewrite pb_empty in Hr. unfold empty_packet, pb_norm in Hr.
      injection Hr as _ _ Hc0. destruct Ev as (Hc & _). rewrite <- Hc0 in Hc. by destruct Hc.
    + rewrite (proj2 (Z.ltb_ge _ _)) by lia. simpl. rewrite Hr.
      by rewrite (proj2 (Hv _) (pb_norm_ok _ _ Ev)).
  - intros data p. apply Decode_packet_ok.
Qed.

(** A small protobuf stand-in for examples: every packet has an encoding, its number in
    stdpp's enumeration written bit by bit. *)
#[global] Instance byte_countable : Countable Byte.byte :=
  inj_countable Byte.to_N Byte.of_N Byte.of_to_N.

Definition kind_code (k : PacketKind) : option (Z * Z * Z * bytes) + option (Z * Z * str * bytes) + option (Z * bytes) :=
  match k with
  | Packet_Request r => inl (inl ((fun r => (rq_RequestId r, rq_MethodId r, rq_TimeoutMs r, rq_Body r)) <$> r))
  | Packet_Response r => inl (inr ((fun r => (rp_RequestId r, rp_Code r, rp_Message r, rp_Body r)) <$> r))
  | Packet_Notify n => inr ((fun n => (nt_MethodId n, nt_Body n)) <$> n)
  end.
Definition code_kind (c : option (Z * Z * Z * bytes) + option (Z * Z * str * bytes) + option (Z * bytes)) : PacketKind :=
  match c with
  | inl (inl r) => Packet_Request ((fun '(a, b, c, d) => mkRequest a b c d) <$> r)
  | inl (inr r) => Packet_Response ((fun '(a, b, c, d) => mkResponse a b c d) <$> r)
  | inr n => Packet_Notify ((fun '(a, b) => mkNotify a b) <$> n)
  end.
Lemma code_kind_code k : code_kind (kind_code k) = k.
Proof. by destruct k as [[[]|]|[[]|]|[[]|]]. Qed.

Definition packet_code (p : Packet) := (kind_code <$> pk_Kind p, map_to_list <$> pk_Metadata p, pk_Codec p).
Definition code_packet (c : option (option (Z * Z * Z * bytes) + option (Z * Z * str * bytes) + option (Z * bytes))
                              * option (list (str * bytes)) * Z) : Packet :=
  let '(k, m, c) := c in mkPacket (code_kind <$> k) (list_to_map <$> m) c.
Lemma code_packet_code p : code_packet (packet_code p) = p.
Proof.
  destruct p as [k m c]. unfold packet_code, code_packet. simpl. f_equal.
  - destruct k; [simpl; by rewrite code_kind_code|done].
  - destruct m; [simpl; by rewrite list_to_map_to_list|done].
Qed.

Definition toy_proto : PacketProto := {|
  pb_Marshal p := Ok (pos_bytes (encode (packet_code (pb_norm p))));
  pb_Unmarshal data := match data with
    | [] => Ok empty_packet
    | _ => match bytes_pos data ≫= decode with Some c => Ok (code_packet c) | None => Err "proto: invalid wire" end
    end |}.

Lemma toy_laws : @PacketProtoLaws toy_proto.
Proof.
  split; [|done]. intros p data _. cbn [pb_Marshal pb_Unmarshal toy_proto]. intros [= <-].
  rewrite bytes_pos_bytes. cbn [mbind option_bind]. rewrite decode_encode, code_packet_code.
  by destruct (encode (packet_code (pb_norm p))).
Qed.

Lemma sample_typed : packet_typed sample_request.
Proof. repeat split; vm_compute; congruence. Qed.

Lemma PacketCodec_roundtrip_witness : exists data,
  @PacketCodec_Encode toy_proto (NewPacketCodec DefaultLimits) sample_request = inr data /\
  @PacketCodec_Decode toy_proto (NewPacketCodec DefaultLimits) data = inr sample_request.
Proof.
  destruct (@PacketCodec_Encode toy_proto (NewPacketCodec DefaultLimits) sample_request) as [e|data] eqn:E.
  - assert (F : match @PacketCodec_Encode toy_proto (NewPacketCodec DefaultLimits) sample_request with
                | inl _ => false | inr _ => true end = true) by (vm_compute; reflexivity).
    rewrite E in F. discriminate.
  - exists data. split; [done|].
    exact (proj1 (@PacketCodec_roundtrip toy_proto toy_laws DefaultLimits) sample_request data sample_typed E).
Defined.

(** ** Streams *)

Lemma read_full_ok chunks need acc err : (need <= length (concat chunks))%nat ->
  exists chunks', read_full chunks need acc err = Ok (acc ++ take need (concat chunks), chunks') /\
    concat chunks' = drop need (concat chunks).
Proof.
  revert need acc. induction chunks as [|c chunks IH]; intros need acc Hn.
  - simpl in *. destruct need; [|lia]. exists []. by rewrite app_nil_r.
  - destruct need as [|need]; [exists (c :: chunks); by rewrite app_nil_r|].
    cbn [read_full concat] in *. rewrite length_app in Hn. destruct (Nat.leb_spec (length c) (S need)).
    + destruct (IH (S need - length c)%nat (acc ++ c)) as (cs & E & Hc); [lia|].
      exists cs. rewrite E, Hc. rewrite take_app_ge, drop_app_ge, app_assoc by lia. done.
    + exists (drop (S need) c :: chunks). rewrite take_app_le, drop_app_le by lia. done.
Qed.

Lemma ReadFull_ok need r : (need <= length (concat (rd_chunks r)))%nat ->
  exists r', ReadFull need r = Ok (take need (concat (rd_chunks r)), r') /\
    concat (rd_chunks r') = drop need (concat (rd_chunks r)).
Proof.
  intros H. unfold ReadFull. destruct (read_full_ok _ _ [] (rd_err r) H) as (cs & -> & Hc).
  by exists (mkReader cs (rd_err r)).
Qed.

Lemma read_full_length chunks need acc err data chunks' :
  read_full chunks need acc err = Ok (data, chunks') -> length data = (length acc + need)%nat.
Proof.
  revert need acc. induction chunks as [|c chunks IH]; intros [|need] acc; simpl; try (intros [= <- <-]; lia); try done.
  destruct (Nat.leb_spec (length c) (S need)); intros E.
  - apply IH in E. rewrite length_app in E. lia.
  - injection E as <- <-. rewrite length_app. simpl. destruct c; simpl in *; [lia|]. rewrite length_take. lia.
Qed.

Lemma ReadFull_length need r data r' : ReadFull need r = Ok (data, r') -> length data = need.
Proof.
  unfold ReadFull. destruct (read_full _ _ _ _) as [[d cs]|] eqn:E; [|done]. intros [= <- <-].
  by apply read_full_length in E.
Qed.

Lemma writeFull_loop_total plan fuel data w : (length data <= fuel)%nat ->
  exists w' e n, writeFull_loop plan fuel data w = Some (w', e) /\ wr_out w' = wr_out w ++ take n data /\
    (n <= length data)%nat /\ (e = None -> n = length data) /\
    ((forall i, (0 < (plan i).1)%nat /\ (plan i).2 = None) -> e = None).
Proof.
  revert data w. induction fuel as [|fuel IH]; intros data w Hf.
  - destruct data; [|simpl in Hf; lia]. exists w, None, 0%nat. by rewrite app_nil_r.
  - destruct data as [|b data]; [exists w, None, 0%nat; by rewrite app_nil_r|].
    cbn [writeFull_loop]. unfold Write. set (d := b :: data) in *.
    set (n := Nat.min (plan (wr_calls w)).1 (length d)). set (w1 := mkWriter (wr_out w ++ take n d) (S (wr_calls w))).
    assert (Hn : (n <= length d)%nat) by lia.
    destruct (plan (wr_calls w)).2 as [e|] eqn:Ep.
    { exists w1, (Some e), n. split_and!; try done. intros Hp. destruct (Hp (wr_calls w)). congruence. }
    destruct (Nat.eqb_spec n 0) as [E0|E0].
    { exists w1, (Some ErrShortWrite), n. split_and!; try done. intros Hp. destruct (Hp (wr_calls w)).
      unfold n in E0. simpl in E0. lia. }
    destruct (IH (drop n d) w1) as (w' & e & k & E & Ho & Hk & He & Hp); [rewrite length_drop; lia|].
    rewrite length_drop in *. exists w', e, (n + k)%nat. rewrite E. split_and!; try done; try lia.
    + rewrite Ho. simpl. rewrite <- app_assoc. f_equal. by rewrite take_take_drop.
    + intros ->. specialize (He eq_refl). lia.
Qed.

(** writeFull always returns: each call of a writer that made progress leaves less to
    write. What it has written is a prefix of the data, all of it when no error is
    returned, and it returns no error on a writer that makes progress without failing. *)
Theorem writeFull_total (plan : nat -> nat * option str) (data : bytes) (w : writer) :
  exists w' e n, writeFull plan data w = Some (w', e) /\ wr_out w' = wr_out w ++ take n data /\
    (n <= length data)%nat /\ (e = None -> n = length data) /\
    ((forall i, (0 < (plan i).1)%nat /\ (plan i).2 = None) -> e = None).
Proof. by apply writeFull_loop_total. Qed.

Definition progress (plan : nat -> nat * option str) : Prop := forall i, (0 < (plan i).1)%nat /\ (plan i).2 = None.

Lemma writeFull_progress plan data w : progress plan ->
  exists w', writeFull plan data w = Some (w', None) /\ wr_out w' = wr_out w ++ data.
Proof.
  intros Hp. unfold writeFull.
  destruct (writeFull_loop_total plan (length data) data w (Nat.le_refl _)) as (w' & e & n & E & Ho & _ & He & Hn).
  rewrite (Hn Hp) in *. rewrite (He eq_refl) in Ho. exists w'. by rewrite E, Ho, firstn_all.
Qed.

Definition frame (packet : bytes) : bytes := be32_put (blen packet) ++ packet.
Definition sized (f : TCPPacketFramer) (packet : bytes) : Prop := 0 < blen packet <= fr_MaxPacketSize f.

Lemma WritePacketBytes_frame plan f packet w : progress plan -> inU 32 (fr_MaxPacketSize f) -> sized f packet ->
  exists w', WritePacketBytes plan f packet w = Some (w', None) /\ wr_out w' = wr_out w ++ frame packet.
Proof.
  intros Hp Hm [H1 H2]. unfold WritePacketBytes. rewrite (proj2 (Z.eqb_neq _ _)), (proj2 (Z.ltb_ge _ _)) by lia. simpl.
  rewrite wrapU_id by (unfold inU in *; lia).
  destruct (writeFull_progress plan (be32_put (blen packet)) w Hp) as (w1 & -> & E1).
  destruct (writeFull_progress plan packet w1 Hp) as (w2 & -> & E2).
  exists w2. split; [done|]. rewrite E2, E1. unfold frame. by rewrite app_assoc.
Qed.

Lemma ReadPacketBytes_frame f packet rest r : inU 32 (fr_MaxPacketSize f) -> sized f packet ->
  concat (rd_chunks r) = frame packet ++ rest ->
  exists r', ReadPacketBytes f r = Ok (packet, r') /\ concat (rd_chunks r') = rest.
Proof.
  intros Hm [H1 H2] Hr. unfold ReadPacketBytes, frame in *. rewrite <- app_assoc in Hr.
  destruct (ReadFull_ok 4 r) as (r1 & -> & E1); [rewrite Hr, length_app; simpl; lia|].
  rewrite Hr in E1 |- *. pose proof (be32_roundtrip (blen packet)) as Hb. unfold be32_put in *.
  cbn [app take drop] in *. rewrite take_0. simpl in E1. rewrite drop_0 in E1. rewrite Hb by (unfold inU in *; lia).
  rewrite (proj2 (Z.eqb_neq _ _)), (proj2 (Z.ltb_ge _ _)) by lia. cbn [orb].
  assert (El : Z.to_nat (blen packet) = length packet) by (unfold blen; lia). rewrite El.
  destruct (ReadFull_ok (length packet) r1) as (r2 & -> & E2); [rewrite E1, length_app; lia|].
  exists r2. rewrite E2, E1. by rewrite take_app_length, drop_app_length.
Qed.

(** A connection's successive packets, written and read. *)
Fixpoint WritePackets (plan : nat -> nat * option str) (f : TCPPacketFramer) (packets : list bytes) (w : writer)
  : option (writer * option str) :=
  match packets with
  | [] => Some (w, None)
  | p :: ps => match WritePacketBytes plan f p w with
               | Some (w, None) => WritePackets plan f ps w
               | r => r
               end
  end.
Fixpoint ReadPackets (n : nat) (f : TCPPacketFramer) (r : reader) : res (list bytes * reader) :=
  match n with
  | O => Ok ([], r)
  | S n => x <-? ReadPacketBytes f r;; y <-? ReadPackets n f x.2;; Ok (x.1 :: y.1, y.2)
  end.

Lemma WritePackets_frames plan f ps w : progress plan -> inU 32 (fr_MaxPacketSize f) -> Forall (sized f) ps ->
  exists w', WritePackets plan f ps w = Some (w', None) /\ wr_out w' = wr_out w ++ concat (frame <$> ps).
Proof.
  intros Hp Hm Hs. revert w. induction Hs as [|p ps Hs _ IH]; intros w; simpl.
  - exists w. by rewrite app_nil_r.
  - destruct (WritePacketBytes_frame plan f p w Hp Hm Hs) as (w1 & -> & E1).
    destruct (IH w1) as (w2 & -> & E2). exists w2. by rewrite E2, E1, <- app_assoc.
Qed.

Lemma ReadPackets_frames f ps rest r : inU 32 (fr_MaxPacketSize f) -> Forall (sized f) ps ->
  concat (rd_chunks r) = concat (frame <$> ps) ++ rest ->
  exists r', ReadPackets (length ps) f r = Ok (ps, r') /\ concat (rd_chunks r') = rest.
Proof.
  intros Hm Hs. revert r. induction Hs as [|p ps Hs _ IH]; intros r Hr; simpl in *.
  - by exists r.
  - rewrite <- app_assoc in Hr.
    destruct (ReadPacketBytes_frame f p _ r Hm Hs Hr) as (r1 & -> & E1). simpl.
    destruct (IH r1 E1) as (r2 & E & E2). exists r2. by rewrite E.
Qed.

(** C8: TCP framing keeps packet boundaries whatever the network does to the stream: a
    sequence of packets within the limit, written through a writer that takes any
    non-empty part at each call and read back from chunks cut anywhere, is the same
    sequence, with nothing left over; and every packet a framer accepts from any stream
    is non-empty and within its limit. *)
Theorem framing_roundtrip (plan : nat -> nat * option str) (f : TCPPacketFramer) (packets : list bytes) :
  progress plan -> inU 32 (fr_MaxPacketSize f) -> Forall (sized f) packets ->
  exists w, WritePackets plan f packets (mkWriter [] 0) = Some (w, None) /\
    (forall r, concat (rd_chunks r) = wr_out w ->
       exists r', ReadPackets (length packets) f r = Ok (packets, r') /\ concat (rd_chunks r') = []) /\
    (forall r r' p, ReadPacketBytes f r = Ok (p, r') -> sized f p).
Proof.
  intros Hp Hm Hs. destruct (WritePackets_frames plan f packets (mkWriter [] 0) Hp Hm Hs) as (w & E & Ho).
  exists w. split; [done|]. split.
  - intros r Hr. apply ReadPackets_frames; [done|done|]. by rewrite Hr, Ho, app_nil_r.
  - intros r r' p. unfold ReadPacketBytes. destruct (ReadFull 4 r) as [[prefix r1]|]; [|done].
    set (len := match prefix with [a; b; c; d] => be32_get a b c d | _ => 0 end).
    destruct ((len =? 0) || (fr_MaxPacketSize f <? len)) eqn:E0; [done|]. breflect.
    assert (0 <= len). { subst len. unfold be32_get. destruct prefix as [|a [|b [|c [|d []]]]]; try done.
      pose proof (byte_val_range a). pose proof (byte_val_range b). pose proof (byte_val_range c).
      pose proof (byte_val_range d). lia. }
    destruct (ReadFull (Z.to_nat len) r1) as [[q r2]|] eqn:Eq; [|done]. intros [= <- <-].
    apply ReadFull_length in Eq. unfold sized, blen. lia.
Qed.

(** Two packets, written two bytes at a time and read from chunks of one byte. *)
Definition two_packets : list bytes := [[Byte.x61]; [Byte.x62; Byte.x63; Byte.x64]].

Lemma framing_roundtrip_witness :
  exists w, WritePackets (fun _ => (2%nat, None)) (NewTCPPacketFramer 16) two_packets (mkWriter [] 0) = Some (w, None) /\
    exists r', ReadPackets 2 (NewTCPPacketFramer 16) (mkReader ((fun b => [b]) <$> wr_out w) EOF) = Ok (two_packets, r').
Proof.
  destruct (framing_roundtrip (fun _ => (2%nat, None)) (NewTCPPacketFramer 16) two_packets) as (w & E & H & _).
  - intros i. split; [apply Nat.lt_0_succ|reflexivity].
  - split; vm_compute; congruence.
  - repeat constructor; vm_compute; congruence.
  - exists w. split; [exact E|].
    destruct (H (mkReader ((fun b => [b]) <$> wr_out w) EOF)) as (r' & Hr & _).
    + simpl. clear H. induction (wr_out w) as [|b l IH]; [done|]. simpl. f_equal. exact IH.
    + by exists r'.
Defined.
