(* ===== verification/Connection.v ===== *)
(** The AGP server component: client connections and their index (net/parser/
    connection.go, connection_manager.go, component.go, options.go).

    A [Connection] is the Go struct with the positions of its goroutines: the reader
    ([cn_reader], the loop of [Run]), the writer, and a handler per accepted request.
    Operations are functions on a connection, or on the [net], the heap of all
    connections with the manager that indexes them. [exec_net] is one atomic step of one
    goroutine; a step ends where another goroutine can interleave with an effect on the
    connection: between the state check and [reserve], between the negotiation, the store
    of [ConnectionReady] and the response, between the two [select]s of [enqueue], between
    the steps of [Kick], and between those of [Close] ([Close_step]), which its caller
    begins ([Close_begin]) and [NCloseStep] carries on.

    Parameters: the protobuf library at the packet and at the control messages
    ([PacketProto], [ControlProto]), the body codecs of the application, the options.
    Bookkeeping: what was queued, written and dispatched on each connection. *)
From S2P Require Import Prelude Strconv Facade Context Serializer Agp.

(** ** Options *)

(** [op_OnDisconnect]: a callback is registered. *)
(** src/net/parser/options.go:10-22, Options *)
Record Options := mkOptions {
  op_Limits : Limits;
  op_WriteQueueSize : Z;
  op_MaxInflight : Z;
  op_HandshakeTimeout : Z;
  op_HeartbeatInterval : Z;
  op_IdleTimeout : Z;
  op_WriteTimeout : Z;
  op_MaxRequestTimeout : Z;
  op_OnDisconnect : bool }.

Definition Second : Z := 1000000000.
Definition Millisecond : Z := 1000000.

(** src/net/parser/options.go:27-38, defaultOptions *)
Definition defaultOptions : Options :=
  mkOptions DefaultLimits 256 128 (10 * Second) (30 * Second) (90 * Second) (10 * Second) (30 * Second) false.

(** src/net/parser/options.go:41-41, WithLimits *)
Definition WithLimits (limits : Limits) (o : Options) : Options :=
  mkOptions limits (op_WriteQueueSize o) (op_MaxInflight o) (op_HandshakeTimeout o) (op_HeartbeatInterval o)
    (op_IdleTimeout o) (op_WriteTimeout o) (op_MaxRequestTimeout o) (op_OnDisconnect o).

(** [if value > 0 { field = value }] *)
Definition if_positive (value field : Z) : Z := if 0 <? value then value else field.

(** src/net/parser/options.go:44-50, WithWriteQueue *)
Definition WithWriteQueue (size : Z) (o : Options) : Options :=
  mkOptions (op_Limits o) (if_positive size (op_WriteQueueSize o)) (op_MaxInflight o) (op_HandshakeTimeout o)
    (op_HeartbeatInterval o) (op_IdleTimeout o) (op_WriteTimeout o) (op_MaxRequestTimeout o) (op_OnDisconnect o).

(** src/net/parser/options.go:53-59, WithMaxInflight *)
Definition WithMaxInflight (max : Z) (o : Options) : Options :=
  mkOptions (op_Limits o) (op_WriteQueueSize o) (if_positive max (op_MaxInflight o)) (op_HandshakeTimeout o)
    (op_HeartbeatInterval o) (op_IdleTimeout o) (op_WriteTimeout o) (op_MaxRequestTimeout o) (op_OnDisconnect o).

(** src/net/parser/options.go:62-68, WithHandshakeTimeout *)
Definition WithHandshakeTimeout (timeout : Z) (o : Options) : Options :=
  mkOptions (op_Limits o) (op_WriteQueueSize o) (op_MaxInflight o) (if_positive timeout (op_HandshakeTimeout o))
    (op_HeartbeatInterval o) (op_IdleTimeout o) (op_WriteTimeout o) (op_MaxRequestTimeout o) (op_OnDisconnect o).

(** src/net/parser/options.go:71-80, WithHeartbeat *)
Definition WithHeartbeat (interval idle : Z) (o : Options) : Options :=
  mkOptions (op_Limits o) (op_WriteQueueSize o) (op_MaxInflight o) (op_HandshakeTimeout o)
    (if_positive interval (op_HeartbeatInterval o)) (if_positive idle (op_IdleTimeout o)) (op_WriteTimeout o)
    (op_MaxRequestTimeout o) (op_OnDisconnect o).

(** src/net/parser/options.go:83-89, WithWriteTimeout *)
Definition WithWriteTimeout (timeout : Z) (o : Options) : Options :=
  mkOptions (op_Limits o) (op_WriteQueueSize o) (op_MaxInflight o) (op_HandshakeTimeout o) (op_HeartbeatInterval o)
    (op_IdleTimeout o) (if_positive timeout (op_WriteTimeout o)) (op_MaxRequestTimeout o) (op_OnDisconnect o).

(** src/net/parser/options.go:92-98, WithMaxRequestTimeout *)
Definition WithMaxRequestTimeout (timeout : Z) (o : Options) : Options :=
  mkOptions (op_Limits o) (op_WriteQueueSize o) (op_MaxInflight o) (op_HandshakeTimeout o) (op_HeartbeatInterval o)
    (op_IdleTimeout o) (op_WriteTimeout o) (if_positive timeout (op_MaxRequestTimeout o)) (op_OnDisconnect o).

(** src/net/parser/options.go:101-105, WithOnDisconnect *)
Definition WithOnDisconnect (fn : bool) (o : Options) : Options :=
  mkOptions (op_Limits o) (op_WriteQueueSize o) (op_MaxInflight o) (op_HandshakeTimeout o) (op_HeartbeatInterval o)
    (op_IdleTimeout o) (op_WriteTimeout o) (op_MaxRequestTimeout o) fn.

(** The options after New applied the non-nil ones in order. *)
(** src/net/parser/component.go:27-39, New *)
Definition New_options (opts : list (option (Options -> Options))) : Options :=
  let options := foldl (fun o opt => match opt with Some f => f o | None => o end) defaultOptions opts in
  WithLimits (NormalizeLimits (op_Limits options)) options.

(** src/net/parser/component.go:27-42, New *)
Definition New_name (name : str) : str :=
  String.append "agp_server_" (if String.eqb name EmptyString then "default" else name).

(** ** Connections *)

(** src/net/parser/connection.go:30-36, ConnectionState *)
Inductive ConnectionState := ConnectionHandshaking | ConnectionReady | ConnectionDraining | ConnectionClosed.
#[global] Instance ConnectionState_eq_dec : EqDecision ConnectionState.
Proof. solve_decision. Defined.

(** [ob_result]: the acknowledgement channel, by number. *)
(** src/net/parser/connection.go:25-28, outboundPacket *)
Record outboundPacket := mkOutbound { ob_packet : Packet; ob_result : option nat }.

(** Where the reader goroutine is: not scheduled yet; in [ReadPacketBytes]; about to store
    Ready; in [enqueue] with a response, before ([passed] false) or after its test of
    [done], for the handshake or a heartbeat; about to [reserve] a request with its context
    and cancel function; inside [handleNotify]; returned. Contexts are numbered; cancelling
    one records its number. *)
Inductive reader_phase :=
| RdStart
| RdRead
| RdHandshake (requestID : Z) (body : bytes)
| RdEnqueue (packet : Packet) (handshake passed : bool)
| RdReserve (codec : Z) (request : Request) (ctx : RequestContext) (cancel : nat)
| RdNotify (cancel : nat)
| RdDone.

(** A request handler goroutine: in [Dispatch]; in [enqueue] with its response, before or
    after its test of [done]; at its deferred release. *)
Inductive handler_stage := HgRun | HgEnqueue (packet : Packet) (passed : bool) | HgSent.
Record handler_go := mkHandlerGo {
  hg_codec : Z; hg_request : Request; hg_ctx : RequestContext; hg_stage : handler_stage }.
Definition set_stage (x : handler_stage) (h : handler_go) : handler_go :=
  mkHandlerGo (hg_codec h) (hg_request h) (hg_ctx h) x.

(** How far [Close] has come: not called; the state is stored; the requests in flight are
    cancelled and cleared; [done] and the transport are closed; the manager has removed the
    connection; [runDisconnect] is started. *)
(** src/net/parser/connection.go:438-463, Connection.Close *)
Inductive closing := ClOpen | ClStored | ClCleared | ClDone | ClRemoved | ClNotified.
#[global] Instance closing_eq_dec : EqDecision closing.
Proof. solve_decision. Defined.

(** [cn_conn]: the transport is not nil. [cn_disconnects]: runs of [runDisconnect]
    started. The last four fields record what happened. *)
(** src/net/parser/connection.go:40-59, Connection *)
Record Connection := mkConnection {
  cn_id : str;
  cn_conn : bool;
  cn_session : Session;
  cn_state : ConnectionState;
  cn_writeCh : list outboundPacket;
  cn_closing : closing;
  cn_inflight : gmap Z nat;
  cn_deadline : option Z;
  cn_reader : reader_phase;
  cn_writer : bool;
  cn_handlers : gmap nat handler_go;
  cn_disconnects : nat;
  cn_handshaken : bool;
  cn_queued : list Packet;
  cn_taken : list (Packet * (agp_err + bytes));
  cn_dispatched : list (Z * RequestContext) }.

(** src/net/parser/connection_manager.go:9-13, ConnectionManager *)
Record ConnectionManager := mkManager { cm_connections : gmap str nat; cm_byUID : gmap Z str }.

(** Terminal notifications in progress. *)
Inductive terminal := TKick (reasonCode : Z) (reason : str) (reconnectable : bool) | TGoAway (reasonCode retryAfter : Z).
(** Before the store of the state; before [enqueue]; in it, past the test of [done]; before
    [Close]. *)
Inductive terminal_phase := TStore | TSend | TPut (packet : Packet) | TClose.

(** [n_pushes]: the calls of [Notify] in [enqueue] with their packet, before or after the
    test of [done]. *)
Record net := mkNet {
  n_conns : gmap nat Connection;
  n_manager : ConnectionManager;
  n_next : nat;
  n_ctx : nat;
  n_cancelled : list nat;
  n_terminals : list (nat * terminal * terminal_phase);
  n_pushes : list (nat * Packet * bool);
  n_crashed : bool }.

(** The requests in flight are cleared; the channel [done] is closed; the manager has
    removed the connection. *)
Definition cn_cleared (c : Connection) : bool :=
  match cn_closing c with ClOpen | ClStored => false | _ => true end.
Definition cn_done (c : Connection) : bool :=
  match cn_closing c with ClDone | ClRemoved | ClNotified => true | _ => false end.
Definition cn_removed (c : Connection) : bool :=
  match cn_closing c with ClRemoved | ClNotified => true | _ => false end.

(** ** Field updates *)

Definition cn_set_session (x : Session) (c : Connection) : Connection :=
  mkConnection (cn_id c) (cn_conn c) x (cn_state c) (cn_writeCh c) (cn_closing c) (cn_inflight c)
    (cn_deadline c) (cn_reader c) (cn_writer c) (cn_handlers c) (cn_disconnects c) (cn_handshaken c) (cn_queued c)
    (cn_taken c) (cn_dispatched c).
Definition cn_set_state (x : ConnectionState) (c : Connection) : Connection :=
  mkConnection (cn_id c) (cn_conn c) (cn_session c) x (cn_writeCh c) (cn_closing c) (cn_inflight c)
    (cn_deadline c) (cn_reader c) (cn_writer c) (cn_handlers c) (cn_disconnects c) (cn_handshaken c) (cn_queued c)
    (cn_taken c) (cn_dispatched c).
Definition cn_set_deadline (x : option Z) (c : Connection) : Connection :=
  mkConnection (cn_id c) (cn_conn c) (cn_session c) (cn_state c) (cn_writeCh c) (cn_closing c) (cn_inflight c)
    x (cn_reader c) (cn_writer c) (cn_handlers c) (cn_disconnects c) (cn_handshaken c) (cn_queued c)
    (cn_taken c) (cn_dispatched c).
Definition cn_set_reader (x : reader_phase) (c : Connection) : Connection :=
  mkConnection (cn_id c) (cn_conn c) (cn_session c) (cn_state c) (cn_writeCh c) (cn_closing c) (cn_inflight c)
    (cn_deadline c) x (cn_writer c) (cn_handlers c) (cn_disconnects c) (cn_handshaken c) (cn_queued c)
    (cn_taken c) (cn_dispatched c).
Definition cn_set_writer (x : bool) (c : Connection) : Connection :=
  mkConnection (cn_id c) (cn_conn c) (cn_session c) (cn_state c) (cn_writeCh c) (cn_closing c) (cn_inflight c)
    (cn_deadline c) (cn_reader c) x (cn_handlers c) (cn_disconnects c) (cn_handshaken c) (cn_queued c)
    (cn_taken c) (cn_dispatched c).
Definition cn_set_inflight (x : gmap Z nat) (c : Connection) : Connection :=
  mkConnection (cn_id c) (cn_conn c) (cn_session c) (cn_state c) (cn_writeCh c) (cn_closing c) x
    (cn_deadline c) (cn_reader c) (cn_writer c) (cn_handlers c) (cn_disconnects c) (cn_handshaken c) (cn_queued c)
    (cn_taken c) (cn_dispatched c).
Definition cn_set_handlers (x : gmap nat handler_go) (c : Connection) : Connection :=
  mkConnection (cn_id c) (cn_conn c) (cn_session c) (cn_state c) (cn_writeCh c) (cn_closing c) (cn_inflight c)
    (cn_deadline c) (cn_reader c) (cn_writer c) x (cn_disconnects c) (cn_handshaken c) (cn_queued c)
    (cn_taken c) (cn_dispatched c).
Definition cn_set_handshaken (c : Connection) : Connection :=
  mkConnection (cn_id c) (cn_conn c) (cn_session c) (cn_state c) (cn_writeCh c) (cn_closing c) (cn_inflight c)
    (cn_deadline c) (cn_reader c) (cn_writer c) (cn_handlers c) (cn_disconnects c) true (cn_queued c)
    (cn_taken c) (cn_dispatched c).
Definition cn_log_dispatch (x : Z * RequestContext) (c : Connection) : Connection :=
  mkConnection (cn_id c) (cn_conn c) (cn_session c) (cn_state c) (cn_writeCh c) (cn_closing c) (cn_inflight c)
    (cn_deadline c) (cn_reader c) (cn_writer c) (cn_handlers c) (cn_disconnects c) (cn_handshaken c) (cn_queued c)
    (cn_taken c) (cn_dispatched c ++ [x]).
Definition cn_push (x : outboundPacket) (c : Connection) : Connection :=
  mkConnection (cn_id c) (cn_conn c) (cn_session c) (cn_state c) (cn_writeCh c ++ [x]) (cn_closing c) (cn_inflight c)
    (cn_deadline c) (cn_reader c) (cn_writer c) (cn_handlers c) (cn_disconnects c) (cn_handshaken c)
    (cn_queued c ++ [ob_packet x]) (cn_taken c) (cn_dispatched c).
Definition cn_take (rest : list outboundPacket) (x : Packet * (agp_err + bytes)) (c : Connection) : Connection :=
  mkConnection (cn_id c) (cn_conn c) (cn_session c) (cn_state c) rest (cn_closing c) (cn_inflight c)
    (cn_deadline c) (cn_reader c) (cn_writer c) (cn_handlers c) (cn_disconnects c) (cn_handshaken c)
    (cn_queued c) (cn_taken c ++ [x]) (cn_dispatched c).

Definition cn_set_closing (x : closing) (c : Connection) : Connection :=
  mkConnection (cn_id c) (cn_conn c) (cn_session c) (cn_state c) (cn_writeCh c) x (cn_inflight c)
    (cn_deadline c) (cn_reader c) (cn_writer c) (cn_handlers c) (cn_disconnects c) (cn_handshaken c) (cn_queued c)
    (cn_taken c) (cn_dispatched c).
Definition cn_disconnect (c : Connection) : Connection :=
  mkConnection (cn_id c) (cn_conn c) (cn_session c) (cn_state c) (cn_writeCh c) (cn_closing c) (cn_inflight c)
    (cn_deadline c) (cn_reader c) (cn_writer c) (cn_handlers c) (S (cn_disconnects c)) (cn_handshaken c) (cn_queued c)
    (cn_taken c) (cn_dispatched c).

Definition set_conn (k : nat) (c : Connection) (n : net) : net :=
  mkNet (<[k := c]> (n_conns n)) (n_manager n) (n_next n) (n_ctx n) (n_cancelled n) (n_terminals n) (n_pushes n) (n_crashed n).
Definition set_manager (m : ConnectionManager) (n : net) : net :=
  mkNet (n_conns n) m (n_next n) (n_ctx n) (n_cancelled n) (n_terminals n) (n_pushes n) (n_crashed n).
Definition cancel_ctx (l : list nat) (n : net) : net :=
  mkNet (n_conns n) (n_manager n) (n_next n) (n_ctx n) (l ++ n_cancelled n) (n_terminals n) (n_pushes n) (n_crashed n).
Definition next_ctx (n : net) : net :=
  mkNet (n_conns n) (n_manager n) (n_next n) (S (n_ctx n)) (n_cancelled n) (n_terminals n) (n_pushes n) (n_crashed n).
Definition set_terminals (l : list (nat * terminal * terminal_phase)) (n : net) : net :=
  mkNet (n_conns n) (n_manager n) (n_next n) (n_ctx n) (n_cancelled n) l (n_pushes n) (n_crashed n).
Definition set_pushes (l : list (nat * Packet * bool)) (n : net) : net :=
  mkNet (n_conns n) (n_manager n) (n_next n) (n_ctx n) (n_cancelled n) (n_terminals n) l (n_crashed n).
Definition net_crash (n : net) : net :=
  mkNet (n_conns n) (n_manager n) (n_next n) (n_ctx n) (n_cancelled n) (n_terminals n) (n_pushes n) true.

(** ** Control messages *)

(** src/net/proto/agp.proto:66-71, HandshakeResponse *)
Record HandshakeResponse := mkHandshakeResponse {
  hr_ProtocolVersion : Z; hr_HeartbeatIntervalMs : Z; hr_MaxFrameSize : Z; hr_ConnectionId : str }.

(** [proto.Unmarshal] and [proto.Marshal] at the control messages: the versions of a
    HandshakeRequest, the client time of a HeartbeatRequest, the identifier of a
    CancelNotify. *)
Class ControlProto := {
  handshake_Unmarshal : bytes -> option (list Z);
  handshake_Marshal : HandshakeResponse -> option bytes;
  heartbeat_Unmarshal : bytes -> option Z;
  heartbeat_Marshal : Z -> Z -> option bytes;
  cancel_Unmarshal : bytes -> option Z;
  kick_Marshal : Z -> str -> bool -> option bytes;
  goaway_Marshal : Z -> Z -> option bytes }.

(** ** Operations of one connection *)

(** src/net/parser/connection.go:500-509, cloneMetadata *)
Definition conn_cloneMetadata (source : gomap str bytes) : gomap str bytes :=
  if gomap_len source =? 0 then None
  else match source with Some m => Some (copy_entries (map_to_list m)) | None => None end.

(** src/net/parser/connection.go:511-516, responsePacket *)
Definition responsePacket (requestID codec : Z) (result : option InvokeResult) (body : bytes) : Packet :=
  let result := match result with Some r => r | None => ErrorResult STATUS_INTERNAL "missing invoke result" end in
  mkPacket (Some (Packet_Response (Some (mkResponse requestID (r_Code result) (r_Message result) body)))) None codec.

(** src/net/parser/connection.go:85-91, Connection.Session *)
Definition Connection_Session (c : Connection) : Session :=
  mkSession (s_Sid (cn_session c)) (s_Uid (cn_session c)) (s_Ip (cn_session c)) (maps_Clone (s_Data (cn_session c))).

(** src/net/parser/connection.go:94-98, Connection.UID *)
Definition Connection_UID (c : Connection) : Z := s_Uid (cn_session c).

(** src/net/parser/connection.go:100-108, Connection.bind *)
Definition Connection_bind (uid : Z) (data : gomap str str) (c : Connection) : Connection :=
  let data := match maps_Clone data with None => Some ∅ | d => d end in
  cn_set_session (mkSession (s_Sid (cn_session c)) uid (s_Ip (cn_session c)) data) c.

Section Component.
Context `{PacketProto} `{ControlProto}.
(** [app.BodyCodecs()] and the options of the component. *)
Variable codecs : Registry.
Variable options : Options.

Definition cn_codec : PacketCodec := NewPacketCodec (op_Limits options).

(** [remoteIP]: the host of the remote address, empty when there is no connection. *)
(** src/net/parser/connection.go:61-80, newConnection *)
Definition newConnection (id remoteIP : str) (conn : bool) : Connection :=
  mkConnection id conn (mkSession id 0 remoteIP (Some ∅)) ConnectionHandshaking [] ClOpen ∅ None RdStart false ∅ 0
    false [] [] [].

(** The second [select] of [enqueue]; the first is the test of [cn_done]. *)
(** src/net/parser/connection.go:371-376, Connection.enqueue *)
Definition enqueue_put (outbound : outboundPacket) (c : Connection) : bool * Connection :=
  if Z.of_nat (length (cn_writeCh c)) <? op_WriteQueueSize options then (true, cn_push outbound c)
  else (false, c).

(** Both, with nothing in between. *)
(** src/net/parser/connection.go:365-377, Connection.enqueue *)
Definition Connection_enqueue (outbound : outboundPacket) (c : Connection) : bool * Connection :=
  if cn_done c then (false, c) else enqueue_put outbound c.

(** src/net/parser/connection.go:343-345, Connection.send *)
Definition Connection_send (packet : Packet) (c : Connection) : bool * Connection :=
  Connection_enqueue (mkOutbound packet None) c.

(** The checks of [Notify] and its packet. *)
(** src/net/parser/connection.go:324-336, Connection.Notify *)
Definition Notify_packet (methodID : Z) (p : payload) (c : Connection) : res Packet :=
  if negb (bool_decide (cn_state c = ConnectionReady)) then Err "actorgo agp: connection is not ready"
  else if methodID <=? SystemMethodKick
  then Err (String.append "actorgo agp: notify method " (String.append (format_uint 10 methodID) " is reserved"))
  else
    let codec := Registry_Default codecs in
    match Registry_Marshal codecs codec p with
    | Err e => Err e
    | Ok body => Ok (mkPacket (Some (Packet_Notify (Some (mkNotify methodID body)))) None codec)
    end.

(** src/net/parser/connection.go:324-341, Connection.Notify *)
Definition Connection_Notify (methodID : Z) (p : payload) (c : Connection) : res unit * Connection :=
  match Notify_packet methodID p c with
  | Err e => (Err e, c)
  | Ok packet =>
      match Connection_send packet c with
      | (true, c) => (Ok tt, c)
      | (false, c) => (Err "actorgo agp: connection write queue is full", c)
      end
  end.

(** The context, with the deadline of a request. *)
(** src/net/parser/connection.go:291-302, Connection.requestContext *)
Definition Connection_requestContext (now : Z) (packet : Packet) (requestID timeoutMS : Z) (c : Connection)
  : RequestContext :=
  let timeout := timeoutMS * Millisecond in
  let timeout := if (timeout <=? 0) || (op_MaxRequestTimeout options <? timeout)
                 then op_MaxRequestTimeout options else timeout in
  let base := WithTimeout now Background timeout in
  mkRequestContext (rc_Context (NewRequestContext (Some base))) requestID TransportAGP (pk_Codec packet)
    (Some (Connection_Session c)) (conn_cloneMetadata (pk_Metadata packet)).

(** src/net/parser/connection.go:306-316, Connection.reserve *)
Definition Connection_reserve (requestID : Z) (cancel : nat) (c : Connection) : option Connection :=
  if bool_decide (is_Some (cn_inflight c !! requestID))
     || (op_MaxInflight options <=? Z.of_nat (size (cn_inflight c)))
  then None
  else Some (cn_set_inflight (<[requestID := cancel]> (cn_inflight c)) c).

(** src/net/parser/connection.go:317-321, Connection.release *)
Definition Connection_release (requestID : Z) (c : Connection) : Connection :=
  cn_set_inflight (delete requestID (cn_inflight c)) c.

Definition read_deadline (now timeout : Z) (c : Connection) : Connection :=
  if 0 <? timeout then cn_set_deadline (Some (now + timeout)) c else c.

(** The negotiation, up to the store of the state: the response body. *)
(** src/net/parser/connection.go:197-216, Connection.handleHandshake *)
Definition handleHandshake_negotiate (request : Request) (c : Connection) : option bytes :=
  if rq_RequestId request =? 0 then None
  else match handshake_Unmarshal (rq_Body request) with
       | None => None
       | Some versions =>
           if negb (existsb (Z.eqb 1) versions) then None
           else handshake_Marshal (mkHandshakeResponse 1
                  (u32 (goquot (op_HeartbeatInterval options) Millisecond))
                  (u32 (MaxPacketSize (op_Limits options))) (cn_id c))
       end.

(** The store of the state; the response is then queued. *)
(** src/net/parser/connection.go:217-222, Connection.handleHandshake *)
Definition handleHandshake_ready (now requestID : Z) (body : bytes) (c : Connection) : Connection :=
  let c := cn_set_state ConnectionReady (cn_set_handshaken c) in
  let c := read_deadline now (op_IdleTimeout options) c in
  cn_set_reader (RdEnqueue (responsePacket requestID CodecProtobuf (Some (OKResult PNil)) body) true false) c.

(** What [process] does with a packet, up to the first effect. [VPanic]: a nil message
    inside the packet is dereferenced. *)
Inductive verdict :=
| VStop | VPanic
| VHandshake (requestID : Z) (body : bytes)
| VHeartbeat (request : Request)
| VCancel (body : bytes)
| VRequest (request : Request)
| VNotify (notify : NotifyMsg).

(** src/net/parser/connection.go:148-195, Connection.process *)
Definition Connection_process (packet : Packet) (c : Connection) : verdict :=
  match pk_Kind packet with
  | Some (Packet_Request request) =>
      match cn_state c with
      | ConnectionHandshaking =>
          if negb (pk_Codec packet =? CodecProtobuf) then VStop
          else match request with
               | None => VPanic
               | Some r =>
                   if negb (rq_MethodId r =? SystemMethodHandshake) then VStop
                   else match handleHandshake_negotiate r c with
                        | Some body => VHandshake (rq_RequestId r) body
                        | None => VStop
                        end
               end
      | ConnectionReady =>
          match request with
          | None => VPanic
          | Some r =>
              if rq_MethodId r =? SystemMethodHeartbeat
              then if negb (pk_Codec packet =? CodecProtobuf) then VStop else VHeartbeat r
              else if rq_MethodId r <=? SystemMethodKick then VStop
              else VRequest r
          end
      | _ => VStop
      end
  | Some (Packet_Notify notify) =>
      match cn_state c with
      | ConnectionReady =>
          match notify with
          | None => VPanic
          | Some n =>
              if nt_MethodId n =? SystemMethodCancel
              then if negb (pk_Codec packet =? CodecProtobuf) then VStop else VCancel (nt_Body n)
              else if nt_MethodId n <=? SystemMethodKick then VStop
              else VNotify n
          end
      | _ => VStop
      end
  | _ => VStop
  end.

(** The context to cancel, or the connection is to be closed. *)
(** src/net/parser/connection.go:275-287, Connection.handleCancel *)
Definition Connection_handleCancel (body : bytes) (c : Connection) : option (list nat) :=
  match cancel_Unmarshal body with
  | None => None
  | Some id => if id =? 0 then None else Some (match cn_inflight c !! id with Some cancel => [cancel] | None => [] end)
  end.

(** The response to queue, [None] when the connection is closed instead. *)
(** src/net/parser/connection.go:224-238, Connection.handleHeartbeat *)
Definition Connection_handleHeartbeat (now : Z) (request : Request) : option Packet :=
  match heartbeat_Unmarshal (rq_Body request) with
  | None => None
  | Some clientTime =>
      match heartbeat_Marshal clientTime (now / Millisecond) with
      | None => None
      | Some body => Some (responsePacket (rq_RequestId request) CodecProtobuf (Some (OKResult PNil)) body)
      end
  end.

(** The response to a request whose Dispatch returned [result]. *)
(** src/net/parser/connection.go:243-260, Connection.handleRequest *)
Definition request_response (packetCodec : Z) (request : Request) (ctx : RequestContext)
    (result : option InvokeResult) : Packet :=
  let '(result, body) :=
    match result with
    | Some r =>
        if InvokeResult_OK result then
          match r_Payload r with
          | PNil => (result, [])
          | PBytes encoded => (result, encoded)
          | PVal _ =>
              match Registry_Marshal codecs (rc_Codec ctx) (r_Payload r) with
              | Ok body => (result, body)
              | Err _ => (Some (ErrorResult STATUS_INTERNAL "response body encode failed"), [])
              end
          end
        else (result, [])
    | None => (None, [])
    end in
  let result := match result with
                | None => Some (ErrorResult STATUS_INTERNAL "method table returned nil result")
                | r => r
                end in
  responsePacket (rq_RequestId request) packetCodec result body.

(** ** The manager *)

Definition byUID_get (uid : Z) (m : ConnectionManager) : str := default EmptyString (cm_byUID m !! uid).

(** src/net/parser/connection_manager.go:21-27, ConnectionManager.Add *)
Definition Manager_Add (k : nat) (n : net) : net :=
  match n_conns n !! k with
  | None => n
  | Some c => set_manager (mkManager (<[cn_id c := k]> (cm_connections (n_manager n))) (cm_byUID (n_manager n))) n
  end.

(** src/net/parser/connection_manager.go:30-40, ConnectionManager.Remove *)
Definition Manager_Remove (id : str) (n : net) : net :=
  let m := n_manager n in
  let byUID :=
    match cm_connections m !! id ≫= (fun k => n_conns n !! k) with
    | None => cm_byUID m
    | Some c =>
        if (0 <? Connection_UID c) && String.eqb (byUID_get (Connection_UID c) m) id
        then delete (Connection_UID c) (cm_byUID m) else cm_byUID m
    end in
  set_manager (mkManager (delete id (cm_connections m)) byUID) n.

(** src/net/parser/connection_manager.go:43-48, ConnectionManager.Get *)
Definition Manager_Get (id : str) (n : net) : option nat := cm_connections (n_manager n) !! id.

(** src/net/parser/connection_manager.go:51-57, ConnectionManager.GetUID *)
Definition Manager_GetUID (uid : Z) (n : net) : option nat :=
  match cm_byUID (n_manager n) !! uid with
  | None => None
  | Some id => cm_connections (n_manager n) !! id
  end.

(** src/net/parser/connection_manager.go:61-80, ConnectionManager.Bind *)
Definition Manager_Bind (id : str) (uid : Z) (data : gomap str str) (n : net) : res unit * net :=
  let m := n_manager n in
  if uid <=? 0 then (Err "actorgo agp: uid must be positive", n)
  else match cm_connections m !! id with
       | None => (Err (String.append "actorgo agp: connection not found: " id), n)
       | Some k =>
           match n_conns n !! k with
           | None => (Err (String.append "actorgo agp: connection not found: " id), n)
           | Some c =>
               let existing := byUID_get uid m in
               if negb (String.eqb existing EmptyString) && negb (String.eqb existing id)
               then (Err "actorgo agp: uid is already bound", n)
               else
                 let oldUID := Connection_UID c in
                 let byUID := if (0 <? oldUID) && String.eqb (byUID_get oldUID m) id
                              then delete oldUID (cm_byUID m) else cm_byUID m in
                 (Ok tt, set_manager (mkManager (cm_connections m) (<[uid := id]> byUID))
                           (set_conn k (Connection_bind uid data c) n))
           end
       end.

(** src/net/parser/connection_manager.go:83-88, ConnectionManager.Count *)
Definition Manager_Count (n : net) : Z := Z.of_nat (size (cm_connections (n_manager n))).

(** src/net/parser/connection_manager.go:91-99, ConnectionManager.Snapshot *)
Definition Manager_Snapshot (n : net) : list nat := (map_to_list (cm_connections (n_manager n))).*2.

(** [fn] threads a state and says whether to go on. *)
(** src/net/parser/connection_manager.go:102-109, ConnectionManager.Range *)
Fixpoint Manager_Range {S} (fn : nat -> S -> bool * S) (l : list nat) (s : S) : S :=
  match l with
  | [] => s
  | k :: l => match fn k s with (true, s) => Manager_Range fn l s | (false, s) => s end
  end.

(** ** Closing *)

(** One step of the goroutine that [closeOnce] has let in. *)
(** src/net/parser/connection.go:438-463, Connection.Close *)
Definition Close_step (k : nat) (n : net) : net :=
  match n_conns n !! k with
  | None => n
  | Some c =>
      match cn_closing c with
      | ClOpen => set_conn k (cn_set_closing ClStored (cn_set_state ConnectionClosed c)) n
      | ClStored =>
          set_conn k (cn_set_closing ClCleared (cn_set_inflight ∅ c)) (cancel_ctx ((map_to_list (cn_inflight c)).*2) n)
      | ClCleared => set_conn k (cn_set_closing ClDone c) n
      | ClDone => Manager_Remove (cn_id c) (set_conn k (cn_set_closing ClRemoved c) n)
      | ClRemoved => set_conn k (cn_set_closing ClNotified (cn_disconnect c)) n
      | ClNotified => n
      end
  end.

(** The call of [Close]: its first step, unless [closeOnce] is taken. *)
(** src/net/parser/connection.go:438-441, Connection.Close *)
Definition Close_begin (k : nat) (n : net) : net :=
  match n_conns n !! k with
  | Some c => match cn_closing c with ClOpen => Close_step k n | _ => n end
  | None => n
  end.

(** A call of [Close] that goes on to its end, with nothing in between (one that finds
    [closeOnce] taken waits for the end of the [Do]). *)
(** src/net/parser/connection.go:438-463, Connection.Close *)
Definition Connection_Close (k : nat) (n : net) : net :=
  Close_step k (Close_step k (Close_step k (Close_step k (Close_step k n)))).

(** src/net/parser/connection_manager.go:112-114, ConnectionManager.CloseAll *)
Definition Manager_CloseAll (n : net) : net :=
  Manager_Range (fun k n => (true, Connection_Close k n)) (Manager_Snapshot n) n.

(** The reader leaves [Run]: [c.Close(); return]. *)
Definition reader_close (k : nat) (n : net) : net :=
  let n := match n_conns n !! k with Some c => set_conn k (cn_set_reader RdDone c) n | None => n end in
  Close_begin k n.

(** ** Steps *)

(** A packet that [process] has classified, on the connection [k] whose state is [c]. *)
(** src/net/parser/connection.go:148-195, Connection.process *)
Definition process_step (now : Z) (k : nat) (packet : Packet) (c : Connection) (n : net) : net :=
  match Connection_process packet c with
  | VStop => reader_close k n
  | VPanic => net_crash n
  | VHandshake requestID body => set_conn k (cn_set_reader (RdHandshake requestID body) c) n
  | VHeartbeat request =>
      match Connection_handleHeartbeat now request with
      | Some packet => set_conn k (cn_set_reader (RdEnqueue packet false false) c) n
      | None => Close_begin k n
      end
  | VCancel body =>
      match Connection_handleCancel body c with
      | Some cancels => cancel_ctx cancels n
      | None => reader_close k n
      end
  | VRequest request =>
      let ctx := Connection_requestContext now packet (rq_RequestId request) (rq_TimeoutMs request) c in
      next_ctx (set_conn k (cn_set_reader (RdReserve (pk_Codec packet) request ctx (n_ctx n)) c) n)
  | VNotify notify =>
      let ctx := Connection_requestContext now packet 0 0 c in
      next_ctx (set_conn k (cn_log_dispatch (nt_MethodId notify, ctx) (cn_set_reader (RdNotify (n_ctx n)) c)) n)
  end.

(** One turn of the reader's loop: what [ReadPacketBytes] returned. *)
(** src/net/parser/connection.go:126-145, Connection.Run *)
Definition Run_read (now : Z) (k : nat) (read : option bytes) (c : Connection) (n : net) : net :=
  match read with
  | None => reader_close k n
  | Some data =>
      match PacketCodec_Decode cn_codec data with
      | inl _ => reader_close k n
      | inr packet =>
          let c := if bool_decide (cn_state c = ConnectionHandshaking) then c
                   else read_deadline now (op_IdleTimeout options) c in
          process_step now k packet c (set_conn k c n)
      end
  end.

(** The reader reserves the request it has built the context of, and starts its handler. *)
(** src/net/parser/connection.go:170-176, Connection.process *)
Definition Run_reserve (k : nat) (codec : Z) (request : Request) (ctx : RequestContext) (cancel : nat)
    (c : Connection) (n : net) : net :=
  match Connection_reserve (rq_RequestId request) cancel c with
  | None => reader_close k (cancel_ctx [cancel] n)
  | Some c =>
      let c := cn_set_handlers (<[cancel := mkHandlerGo codec request ctx HgRun]> (cn_handlers c)) c in
      set_conn k (cn_log_dispatch (rq_MethodId request, ctx) (cn_set_reader RdRead c)) n
  end.

(** src/net/parser/connection.go:217-222, Connection.handleHandshake *)
Definition Run_handshake (now : Z) (k : nat) (requestID : Z) (body : bytes) (c : Connection) (n : net) : net :=
  set_conn k (handleHandshake_ready now requestID body c) n.

(** The reader's next [select] in [enqueue]. When the response is not queued, [process]
    returns false for the handshake; for a heartbeat the connection is closed and it
    returns true. *)
(** src/net/parser/connection.go:224-238, Connection.handleHeartbeat *)
Definition Run_send (k : nat) (packet : Packet) (handshake passed : bool) (c : Connection) (n : net) : net :=
  let refused := if handshake then reader_close k n else Close_begin k (set_conn k (cn_set_reader RdRead c) n) in
  if passed then
    match enqueue_put (mkOutbound packet None) c with
    | (true, c) => set_conn k (cn_set_reader RdRead c) n
    | (false, _) => refused
    end
  else if cn_done c then refused
  else set_conn k (cn_set_reader (RdEnqueue packet handshake true) c) n.

(** The handler's Dispatch has returned: it has its response. *)
(** src/net/parser/connection.go:240-260, Connection.handleRequest *)
Definition handler_answer (k cancel : nat) (result : option InvokeResult) (h : handler_go) (c : Connection)
    (n : net) : net :=
  let packet := request_response (hg_codec h) (hg_request h) (hg_ctx h) result in
  set_conn k (cn_set_handlers (<[cancel := set_stage (HgEnqueue packet false) h]> (cn_handlers c)) c) n.

(** Its next [select] in [enqueue]. *)
(** src/net/parser/connection.go:260-263, Connection.handleRequest *)
Definition handler_send (k cancel : nat) (packet : Packet) (passed : bool) (h : handler_go) (c : Connection)
    (n : net) : net :=
  let at_ x c := cn_set_handlers (<[cancel := set_stage x h]> (cn_handlers c)) c in
  if passed then
    match enqueue_put (mkOutbound packet None) c with
    | (true, c) => set_conn k (at_ HgSent c) n
    | (false, c) => Close_begin k (set_conn k (at_ HgSent c) n)
    end
  else if cn_done c then Close_begin k (set_conn k (at_ HgSent c) n)
  else set_conn k (at_ (HgEnqueue packet true) c) n.

(** src/net/parser/connection.go:241-241, Connection.handleRequest *)
Definition handler_release (k cancel : nat) (h : handler_go) (c : Connection) (n : net) : net :=
  let c := Connection_release (rq_RequestId (hg_request h)) c in
  cancel_ctx [cancel] (set_conn k (cn_set_handlers (delete cancel (cn_handlers c)) c) n).

(** One turn of the writer's loop on the first queued packet; [err]: what the transport's
    write returns. *)
(** src/net/parser/connection.go:379-404, Connection.writeLoop *)
Definition writeLoop_step (k : nat) (err : bool) (c : Connection) (n : net) : option net :=
  match cn_writeCh c with
  | [] => None
  | outbound :: rest =>
      let data := PacketCodec_Encode cn_codec (ob_packet outbound) in
      let failed := match data with inl _ => true | inr _ => err end in
      let c := cn_take rest (ob_packet outbound, data) c in
      if failed then Some (Close_begin k (set_conn k (cn_set_writer false c) n))
      else Some (set_conn k c n)
  end.

(** The packet a terminal notification carries. *)
(** src/net/parser/connection.go:412-415, Connection.Kick *)
Definition terminal_packet (t : terminal) : option Packet :=
  match t with
  | TKick reasonCode reason reconnectable =>
      match kick_Marshal reasonCode reason reconnectable with
      | Some body => Some (mkPacket (Some (Packet_Notify (Some (mkNotify SystemMethodKick body)))) None CodecProtobuf)
      | None => None
      end
  | TGoAway reasonCode retryAfter =>
      match goaway_Marshal reasonCode (u32 (goquot retryAfter Millisecond)) with
      | Some body => Some (mkPacket (Some (Packet_Notify (Some (mkNotify SystemMethodGoAway body)))) None CodecProtobuf)
      | None => None
      end
  end.

(** The next step of a Kick or GoAway: store Draining; the two [select]s of the
    notification's [enqueue]; close. The wait for the acknowledgement ends at any time (its
    timer). *)
(** src/net/parser/connection.go:407-434, Connection.Kick *)
Definition terminal_step (k : nat) (t : terminal) (p : terminal_phase) (c : Connection) (n : net)
  : net * option terminal_phase :=
  match p with
  | TStore => (set_conn k (cn_set_state ConnectionDraining c) n, Some TSend)
  | TSend =>
      match terminal_packet t with
      | None => (n, Some TClose)
      | Some packet => (n, Some (if cn_done c then TClose else TPut packet))
      end
  | TPut packet => (set_conn k (enqueue_put (mkOutbound packet (Some k)) c).2 n, Some TClose)
  | TClose => (Close_begin k n, None)
  end.

(** The next [select] of a call of [Notify]; [None]: it returns. *)
(** src/net/parser/connection.go:324-341, Connection.Notify *)
Definition push_step (k : nat) (packet : Packet) (passed : bool) (c : Connection) (n : net) : net * option bool :=
  if passed then (set_conn k (enqueue_put (mkOutbound packet None) c).2 n, None)
  else (n, if cn_done c then None else Some true).

(** src/net/parser/component.go:70-77, Component.HandleConn *)
Definition Component_HandleConn (now : Z) (id remoteIP : str) (conn : bool) (n : net) : net :=
  let k := n_next n in
  let c := newConnection id remoteIP conn in
  let n := mkNet (<[k := c]> (n_conns n)) (n_manager n) (S k) (n_ctx n) (n_cancelled n) (n_terminals n) (n_pushes n) (n_crashed n) in
  Manager_Add k n.

(** The start of [Run]. *)
(** src/net/parser/connection.go:117-125, Connection.Run *)
Definition Run_start (now : Z) (k : nat) (c : Connection) (n : net) : net :=
  if negb (cn_conn c) then reader_close k n
  else set_conn k (cn_set_reader RdRead (read_deadline now (op_HandshakeTimeout options) (cn_set_writer true c))) n.

Inductive net_action :=
| NAccept (now : Z) (id remoteIP : str) (conn : bool)
| NStart (now : Z) (k : nat)
| NRead (now : Z) (k : nat) (read : option bytes)
| NReserve (k : nat) | NHandshake (now : Z) (k : nat) | NSend (k : nat) | NNotified (k : nat)
| NAnswer (k cancel : nat) (result : option InvokeResult)
| NSendAnswer (k cancel : nat)
| NRelease (k cancel : nat)
| NWrite (k : nat) (err : bool) | NWriterDone (k : nat)
| NBind (id : str) (uid : Z) (data : gomap str str)
| NPush (k : nat) (methodID : Z) (p : payload) | NPushStep (i : nat)
| NTerminal (k : nat) (t : terminal) | NTerminalStep (i : nat)
| NClose (k : nat) | NCloseStep (k : nat).

(** src/net/parser/connection.go:117-146, Connection.Run *)
Definition exec_net (act : net_action) (n : net) : option net :=
  if n_crashed n then None else
  match act with
  | NAccept now id remoteIP conn =>
      match cm_connections (n_manager n) !! id with
      | Some _ => None
      | None => if String.eqb id EmptyString then None else Some (Component_HandleConn now id remoteIP conn n)
      end
  | NStart now k =>
      match n_conns n !! k with
      | Some c => match cn_reader c with RdStart => Some (Run_start now k c n) | _ => None end
      | None => None
      end
  | NRead now k read =>
      match n_conns n !! k with
      | Some c => match cn_reader c with RdRead => Some (Run_read now k read c n) | _ => None end
      | None => None
      end
  | NReserve k =>
      match n_conns n !! k with
      | Some c => match cn_reader c with
                  | RdReserve codec request ctx cancel => Some (Run_reserve k codec request ctx cancel c n)
                  | _ => None
                  end
      | None => None
      end
  | NHandshake now k =>
      match n_conns n !! k with
      | Some c => match cn_reader c with
                  | RdHandshake requestID body => Some (Run_handshake now k requestID body c n)
                  | _ => None
                  end
      | None => None
      end
  | NSend k =>
      match n_conns n !! k with
      | Some c => match cn_reader c with
                  | RdEnqueue packet handshake passed => Some (Run_send k packet handshake passed c n)
                  | _ => None
                  end
      | None => None
      end
  | NNotified k =>
      match n_conns n !! k with
      | Some c => match cn_reader c with
                  | RdNotify cancel => Some (cancel_ctx [cancel] (set_conn k (cn_set_reader RdRead c) n))
                  | _ => None
                  end
      | None => None
      end
  | NAnswer k cancel result =>
      match n_conns n !! k with
      | Some c => match cn_handlers c !! cancel with
                  | Some h => match hg_stage h with
                              | HgRun => Some (handler_answer k cancel result h c n)
                              | _ => None
                              end
                  | None => None
                  end
      | None => None
      end
  | NSendAnswer k cancel =>
      match n_conns n !! k with
      | Some c => match cn_handlers c !! cancel with
                  | Some h => match hg_stage h with
                              | HgEnqueue packet passed => Some (handler_send k cancel packet passed h c n)
                              | _ => None
                              end
                  | None => None
                  end
      | None => None
      end
  | NRelease k cancel =>
      match n_conns n !! k with
      | Some c => match cn_handlers c !! cancel with
                  | Some h => match hg_stage h with HgSent => Some (handler_release k cancel h c n) | _ => None end
                  | None => None
                  end
      | None => None
      end
  | NWrite k err =>
      match n_conns n !! k with
      | Some c => if cn_writer c then writeLoop_step k err c n else None
      | None => None
      end
  | NWriterDone k =>
      match n_conns n !! k with
      | Some c => if cn_done c then Some (set_conn k (cn_set_writer false c) n) else None
      | None => None
      end
  | NBind id uid data => Some (Manager_Bind id uid data n).2
  | NPush k methodID p =>
      match n_conns n !! k with
      | Some c => match Notify_packet methodID p c with
                  | Ok packet => Some (set_pushes ((k, packet, false) :: n_pushes n) n)
                  | Err _ => Some n
                  end
      | None => None
      end
  | NPushStep i =>
      match n_pushes n !! i with
      | Some (k, packet, passed) =>
          match n_conns n !! k with
          | Some c =>
              let '(n', next) := push_step k packet passed c n in
              Some (set_pushes (match next with
                                | Some b => <[i := (k, packet, b)]> (n_pushes n)
                                | None => delete i (n_pushes n)
                                end) n')
          | None => None
          end
      | None => None
      end
  | NTerminal k t =>
      match n_conns n !! k with
      | Some c => if bool_decide (cn_state c = ConnectionClosed) then Some n
                  else Some (set_terminals ((k, t, TStore) :: n_terminals n) n)
      | None => None
      end
  | NTerminalStep i =>
      match n_terminals n !! i with
      | Some (k, t, p) =>
          match n_conns n !! k with
          | Some c =>
              let '(n', next) := terminal_step k t p c n in
              Some (set_terminals (match next with
                                   | Some p => <[i := (k, t, p)]> (n_terminals n)
                                   | None => delete i (n_terminals n)
                                   end) n')
          | None => None
          end
      | None => None
      end
  | NClose k => Some (Close_begin k n)
  | NCloseStep k =>
      match n_conns n !! k with
      | Some c => match cn_closing c with ClOpen | ClNotified => None | _ => Some (Close_step k n) end
      | None => None
      end
  end.

Definition fresh_net : net := mkNet ∅ (mkManager ∅ ∅) 0 0 [] [] [] false.

Fixpoint run_net (l : list net_action) (n : net) : option net :=
  match l with [] => Some n | a :: l => exec_net a n ≫= run_net l end.

Inductive net_reach : net -> Prop :=
| net_init : net_reach fresh_net
| net_step n act n' : net_reach n -> exec_net act n = Some n' -> net_reach n'.

Lemma net_reach_run l n n' : net_reach n -> run_net l n = Some n' -> net_reach n'.
Proof.
  revert n. induction l as [|a l IH]; intros n Hn E; simpl in E; [by injection E as <-|].
  destruct (exec_net a n) as [n1|] eqn:E1; [|done]. apply (IH n1); [|done]. by eapply net_step.
Qed.

(** ** The component's operations *)

(** src/net/parser/component.go:131-137, Component.Notify *)
Definition Component_Notify (connectionID : str) (methodID : Z) (p : payload) (n : net) : res unit * net :=
  match Manager_Get connectionID n ≫= (fun k => (fun c => (k, c)) <$> n_conns n !! k) with
  | None => (Err (String.append "actorgo agp: connection not found: " connectionID), n)
  | Some (k, c) => let '(r, c) := Connection_Notify methodID p c in (r, set_conn k c n)
  end.

(** src/net/parser/component.go:141-143, Component.Bind *)
Definition Component_Bind (connectionID : str) (uid : Z) (data : gomap str str) (n : net) : res unit * net :=
  Manager_Bind connectionID uid data n.

(** src/net/parser/component.go:146-152, Component.NotifyUID *)
Definition Component_NotifyUID (uid methodID : Z) (p : payload) (n : net) : res unit * net :=
  match Manager_GetUID uid n ≫= (fun k => (fun c => (k, c)) <$> n_conns n !! k) with
  | None => (Err (String.append "actorgo agp: uid is not connected: " (format_int 10 uid)), n)
  | Some (k, c) => let '(r, c) := Connection_Notify methodID p c in (r, set_conn k c n)
  end.

(** The errors, by connection. *)
(** src/net/parser/component.go:155-164, Component.Broadcast *)
Definition Component_Broadcast (methodID : Z) (p : payload) (n : net) : list (str * str) * net :=
  let '(failures, n) :=
    Manager_Range (fun k '(failures, n) =>
      match n_conns n !! k with
      | None => (true, (failures, n))
      | Some c =>
          let '(r, c') := Connection_Notify methodID p c in
          (true, (match r with Err e => failures ++ [(cn_id c, e)] | Ok _ => failures end, set_conn k c' n))
      end) (Manager_Snapshot n) ([], n) in
  (failures, n).

(** A Kick or GoAway that runs to its end with nothing in between: the error is that of
    the queue or of the encoding ([ack]: what the writer answers). *)
(** src/net/parser/connection.go:407-434, Connection.Kick *)
Definition Connection_terminal (k : nat) (t : terminal) (ack : option str) (n : net) : option str * net :=
  match n_conns n !! k with
  | None => (None, n)
  | Some c =>
      if bool_decide (cn_state c = ConnectionClosed)
      then (match t with TKick _ _ _ => Some "actorgo agp: connection is closed"%string | TGoAway _ _ => None end, n)
      else
        let c := cn_set_state ConnectionDraining c in
        match terminal_packet t with
        | None => (Some "proto: cannot marshal"%string, Connection_Close k (set_conn k c n))
        | Some packet =>
            match Connection_enqueue (mkOutbound packet (Some k)) c with
            | (false, c) => (Some "actorgo agp: connection write queue is full"%string, Connection_Close k (set_conn k c n))
            | (true, c) => (ack, Connection_Close k (set_conn k c n))
            end
        end
  end.

(** src/net/parser/component.go:167-173, Component.Kick *)
Definition Component_Kick (connectionID : str) (reasonCode : Z) (reason : str) (reconnectable : bool)
    (ack : option str) (n : net) : option str * net :=
  match Manager_Get connectionID n with
  | None => (Some (String.append "actorgo agp: connection not found: " connectionID), n)
  | Some k => Connection_terminal k (TKick reasonCode reason reconnectable) ack n
  end.

(** src/net/parser/component.go:81-104, Component.OnBeforeStop *)
Definition Component_OnBeforeStop (acks : nat -> option str) (n : net) : net :=
  let connections := Manager_Snapshot n in
  let n := foldl (fun n k => (Connection_terminal k (TGoAway 0 0) (acks k) n).2) n connections in
  foldl (fun n k => Connection_Close k n) n connections.
End Component.
