(* ===== verification/ConnectionInv.v ===== *)
(** What holds of every run of the AGP server component of [Connection]: nothing is
    dispatched before the handshake, requests in flight are bounded and distinct, packets
    leave in the order they were queued, closing is final and happens once, and the
    manager's two indexes agree with the connections. *)
From S2P Require Import Prelude Strconv Facade Context Serializer Agp Connection.

(** Distinct keys and a map back: as many handlers as requests in flight, at most. *)
Lemma inflight_size (handlers : gmap nat handler_go) (inflight : gmap Z nat) :
  (forall rid cid, inflight !! rid = Some cid <-> exists h, handlers !! cid = Some h /\ rq_RequestId (hg_request h) = rid) ->
  (size handlers <= size inflight)%nat.
Proof.
  intros Hb. rewrite <- !length_map_to_list, <- (length_fmap fst (map_to_list handlers)),
    <- (length_fmap snd (map_to_list inflight)).
  apply submseteq_length, NoDup_submseteq; [apply NoDup_fst_map_to_list|].
  intros cid ([cid' h] & -> & Hin)%list_elem_of_fmap. apply elem_of_map_to_list in Hin. simpl.
  apply list_elem_of_fmap. exists (rq_RequestId (hg_request h), cid'). split; [done|].
  apply elem_of_map_to_list, Hb. by exists h.
Qed.

Section Inv.
Context `{PacketProto} `{ControlProto}.
Variable codecs : Registry.
Variable options : Options.
Hypothesis Max_pos : 0 <= op_MaxInflight options.

Abbreviation net_reach := (net_reach codecs options).
Abbreviation exec_net := (exec_net codecs options).

(** ** The invariant of one connection *)

(** The handlers started are the requests in flight. *)
Definition inflight_ok (c : Connection) : Prop :=
  (forall rid cid, cn_inflight c !! rid = Some cid <->
     exists h, cn_handlers c !! cid = Some h /\ rq_RequestId (hg_request h) = rid) /\
  Z.of_nat (size (cn_inflight c)) <= op_MaxInflight options.

Definition reader_ok (bound : nat) (c : Connection) : Prop :=
  match cn_reader c with
  | RdReserve _ r _ cancel =>
      SystemMethodKick < rq_MethodId r /\ cn_handshaken c = true /\ (cancel < bound)%nat /\
      cn_handlers c !! cancel = None
  | RdNotify _ => cn_handshaken c = true
  | _ => True
  end.

Record conn_ok (bound : nat) (c : Connection) : Prop := {
  co_methods : Forall (fun d => SystemMethodKick < d.1) (cn_dispatched c);
  co_gate : cn_handshaken c = false -> cn_dispatched c = [] /\ cn_state c <> ConnectionReady;
  co_reader : reader_ok bound c;
  co_handlers : forall cid h, cn_handlers c !! cid = Some h -> (cid < bound)%nat;
  co_fifo : cn_queued c = (cn_taken c).*1 ++ (ob_packet <$> cn_writeCh c);
  co_room : Z.of_nat (length (cn_writeCh c)) <= Z.max 0 (op_WriteQueueSize options);
  co_encoded : Forall (fun x => x.2 = PacketCodec_Encode (cn_codec options) x.1) (cn_taken c);
  co_inflight : cn_cleared c = false -> inflight_ok c;
  co_once : cn_disconnects c = (if bool_decide (cn_closing c = ClNotified) then 1 else 0)%nat;
  co_uid : 0 <= Connection_UID c }.

(** What an operation on a connection keeps for the manager. *)
Definition frame_ok (c c' : Connection) : Prop :=
  cn_id c' = cn_id c /\ cn_removed c' = cn_removed c /\ Connection_UID c' = Connection_UID c.

Lemma frame_refl c : frame_ok c c.
Proof. by split_and!. Qed.
Lemma frame_trans a b c : frame_ok a b -> frame_ok b c -> frame_ok a c.
Proof. intros (A1 & A2 & A3) (B1 & B2 & B3). split_and!; congruence. Qed.

Lemma conn_ok_mono b b' c : (b <= b')%nat -> conn_ok b c -> conn_ok b' c.
Proof.
  intros Hb []. split; try done.
  - unfold reader_ok in *. destruct (cn_reader c); try done. destruct co_reader0 as (? & ? & ? & ?).
    split_and!; try done. lia.
  - intros cid h Hh. apply co_handlers0 in Hh. lia.
Qed.

Ltac fields := simpl; try done.

Lemma set_reader_ok b x c : match x with RdReserve _ _ _ _ | RdNotify _ => False | _ => True end ->
  conn_ok b c -> conn_ok b (cn_set_reader x c) /\ frame_ok c (cn_set_reader x c).
Proof. intros Hx []. split; [|by split_and!]. split; fields. unfold reader_ok. simpl. by destruct x. Qed.

Lemma read_deadline_ok b now t c : conn_ok b c ->
  conn_ok b (read_deadline now t c) /\ frame_ok c (read_deadline now t c).
Proof. intros Hok. unfold read_deadline. case_if; [|done]. destruct Hok. split; [|by split_and!]. by split. Qed.

Lemma put_ok b ob c : conn_ok b c ->
  conn_ok b (enqueue_put options ob c).2 /\ frame_ok c (enqueue_put options ob c).2.
Proof.
  intros Hok. unfold enqueue_put. case_if; [|done]. destruct Hok. split; [|by split_and!]. split; fields.
  - rewrite co_fifo0, fmap_app, app_assoc. done.
  - rewrite length_app. simpl. breflect. lia.
Qed.

Lemma enqueue_ok b ob c : conn_ok b c ->
  conn_ok b (Connection_enqueue options ob c).2 /\ frame_ok c (Connection_enqueue options ob c).2.
Proof. intros Hok. unfold Connection_enqueue. destruct (cn_done c); [done|by apply put_ok]. Qed.

(** ** The invariant of the net *)

Record net_ok (n : net) : Prop := {
  no_conns : forall k c, n_conns n !! k = Some c -> conn_ok (n_ctx n) c /\ (k < n_next n)%nat;
  no_index : forall id k, cm_connections (n_manager n) !! id = Some k ->
    id <> EmptyString /\ exists c, n_conns n !! k = Some c /\ cn_id c = id /\ cn_removed c = false;
  no_open : forall k c, n_conns n !! k = Some c -> cn_removed c = false ->
    cm_connections (n_manager n) !! cn_id c = Some k;
  no_uid : forall uid id, cm_byUID (n_manager n) !! uid = Some id -> 0 < uid /\
    exists k c, cm_connections (n_manager n) !! id = Some k /\ n_conns n !! k = Some c /\ Connection_UID c = uid;
  no_bound : forall k c, n_conns n !! k = Some c -> cn_removed c = false -> 0 < Connection_UID c ->
    cm_byUID (n_manager n) !! Connection_UID c = Some (cn_id c);
  no_crash : n_crashed n = false }.

Lemma net_update n k c c' : net_ok n -> n_conns n !! k = Some c -> conn_ok (n_ctx n) c' -> frame_ok c c' ->
  net_ok (set_conn k c' n).
Proof.
  intros [] Hk Hok (F1 & F2 & F3). split; simpl; try done.
  - intros j d. destruct (decide (j = k)) as [->|].
    + rewrite lookup_insert_eq. intros [= <-]. split; [done|]. by destruct (no_conns0 k c Hk).
    + rewrite lookup_insert_ne by done. apply no_conns0.
  - intros id j Hj. destruct (no_index0 id j Hj) as (Hne & d & Hd & Hid & Hdone). split; [done|].
    destruct (decide (j = k)) as [->|].
    + exists c'. rewrite lookup_insert_eq. split_and!; congruence.
    + exists d. by rewrite lookup_insert_ne.
  - intros j d. destruct (decide (j = k)) as [->|].
    + rewrite lookup_insert_eq. intros [= <-] Hd. rewrite F1. apply no_open0; congruence.
    + rewrite lookup_insert_ne by done. apply no_open0.
  - intros uid id Hu. destruct (no_uid0 uid id Hu) as (Hp & j & d & Hj & Hd & Hid). split; [done|].
    destruct (decide (j = k)) as [->|].
    + exists k, c'. rewrite lookup_insert_eq. split_and!; [done..|congruence].
    + exists j, d. by rewrite lookup_insert_ne.
  - intros j d. destruct (decide (j = k)) as [->|].
    + rewrite lookup_insert_eq. intros [= <-]. rewrite F1, F2, F3. by apply (no_bound0 k).
    + rewrite lookup_insert_ne by done. apply no_bound0.
Qed.

Lemma net_ctx n l t : net_ok n -> net_ok (set_terminals t (cancel_ctx l n)).
Proof. intros []. by split. Qed.
Lemma net_cancel n l : net_ok n -> net_ok (cancel_ctx l n).
Proof. intros []. by split. Qed.
Lemma net_terminals n t : net_ok n -> net_ok (set_terminals t n).
Proof. intros []. by split. Qed.
Lemma net_pushes n t : net_ok n -> net_ok (set_pushes t n).
Proof. intros []. by split. Qed.
Lemma net_next_ctx n : net_ok n -> net_ok (next_ctx n).
Proof.
  intros []. split; try done. intros k c Hk. destruct (no_conns0 k c Hk). split; [|done].
  by apply (conn_ok_mono (n_ctx n)); [simpl; lia|].
Qed.

(** A step of [Close], on the connection. *)
Definition close1 (c : Connection) : Connection :=
  match cn_closing c with
  | ClOpen => cn_set_closing ClStored (cn_set_state ConnectionClosed c)
  | ClStored => cn_set_closing ClCleared (cn_set_inflight ∅ c)
  | ClCleared => cn_set_closing ClDone c
  | ClDone => cn_set_closing ClRemoved c
  | ClRemoved => cn_set_closing ClNotified (cn_disconnect c)
  | ClNotified => c
  end.

Lemma Close_step_conns k n : n_conns (Close_step k n) = alter close1 k (n_conns n).
Proof.
  unfold Close_step. destruct (n_conns n !! k) as [c|] eqn:Hk.
  - rewrite (alter_alt_Some close1 _ _ c Hk). unfold close1. destruct (cn_closing c) eqn:E; try done. by rewrite insert_id.
  - symmetry. by apply alter_id; intros c; rewrite Hk.
Qed.

Lemma Close_step_rest k n : n_ctx (Close_step k n) = n_ctx n /\ n_next (Close_step k n) = n_next n /\
  n_terminals (Close_step k n) = n_terminals n /\ n_pushes (Close_step k n) = n_pushes n /\
  n_crashed (Close_step k n) = n_crashed n.
Proof. unfold Close_step. destruct (n_conns n !! k) as [c|]; [|done]. by destruct (cn_closing c). Qed.

Lemma Close_begin_cases k n : Close_begin k n = n \/ Close_begin k n = Close_step k n.
Proof. unfold Close_begin. destruct (n_conns n !! k) as [c|]; [|by left]. destruct (cn_closing c); auto. Qed.

Lemma close1_ok b c : conn_ok b c -> conn_ok b (close1 c).
Proof.
  intros []. unfold close1. destruct (cn_closing c) eqn:E; split; simpl; try done; try (rewrite ?E; done);
    try (rewrite co_once0; rewrite E; done).
  - intros Hh. by destruct (co_gate0 Hh).
  - intros _. apply co_inflight0. unfold cn_cleared. by rewrite E.
  - rewrite co_once0. by rewrite bool_decide_false.
Qed.

Lemma close1_frame c : cn_closing c <> ClDone -> frame_ok c (close1 c).
Proof. unfold close1, frame_ok, cn_removed. by destruct (cn_closing c) eqn:E; simpl; rewrite ?E. Qed.

(** [Remove] takes exactly the entries of the connection out. *)
Lemma net_remove k c n : net_ok n -> n_conns n !! k = Some c -> cn_closing c = ClDone ->
  net_ok (Manager_Remove (cn_id c) (set_conn k (cn_set_closing ClRemoved c) n)).
Proof.
  intros I Hk Hcl. destruct I. assert (Hd : cn_removed c = false) by (unfold cn_removed; by rewrite Hcl).
  pose proof (no_open0 k c Hk Hd) as Ho. destruct (no_conns0 k c Hk) as [Hok Hlt].
  assert (Hother : forall id j, id <> cn_id c -> cm_connections (n_manager n) !! id = Some j -> j <> k).
  { intros id j Hne Hj ->. destruct (no_index0 id k Hj) as (_ & d & Hd' & Hid & _). congruence. }
  unfold Manager_Remove. simpl. rewrite Ho. simpl. rewrite lookup_insert_eq.
  change (Connection_UID (cn_set_closing ClRemoved c)) with (Connection_UID c). split; simpl; try done.
  - intros j d. destruct (decide (j = k)) as [->|].
    + rewrite lookup_insert_eq. intros [= <-]. split; [|done]. pose proof (close1_ok _ _ Hok) as Hc1.
      unfold close1 in Hc1. by rewrite Hcl in Hc1.
    + rewrite lookup_insert_ne by done. apply no_conns0.
  - intros id j Hj. apply lookup_delete_Some in Hj as [Hne Hj].
    destruct (no_index0 id j Hj) as (He & d & Hd' & Hid & Hdn). split; [done|]. exists d.
    rewrite lookup_insert_ne; [done|]. intros <-. by apply (Hother id k).
  - intros j d. destruct (decide (j = k)) as [->|].
    + rewrite lookup_insert_eq. by intros [= <-].
    + rewrite lookup_insert_ne by done. intros Hj Hdj. pose proof (no_open0 j d Hj Hdj) as Hoj.
      rewrite lookup_delete_ne; [done|]. intros E. rewrite E in Ho. congruence.
  - intros uid id Hu.
    assert (Hu' : cm_byUID (n_manager n) !! uid = Some id /\ id <> cn_id c).
    { destruct ((0 <? Connection_UID c) && String.eqb (byUID_get (Connection_UID c) (n_manager n)) (cn_id c)) eqn:E.
      - apply lookup_delete_Some in Hu as [Hne Hu]. split; [done|]. intros ->.
        destruct (no_uid0 uid (cn_id c) Hu) as (_ & j & d & Hj & Hd' & Hid). congruence.
      - split; [done|]. intros ->. destruct (no_uid0 uid (cn_id c) Hu) as (Hp & j & d & Hj & Hd' & Hid).
        assert (j = k) as -> by congruence. assert (d = c) as -> by congruence.
        unfold byUID_get in E. rewrite Hid, Hu in E. simpl in E. rewrite String.eqb_refl in E.
        rewrite (proj2 (Z.ltb_lt _ _)) in E by done. done. }
    destruct Hu' as [Hu' Hne]. destruct (no_uid0 uid id Hu') as (Hp & j & d & Hj & Hd' & Hid). split; [done|].
    exists j, d. rewrite lookup_delete_ne by done. rewrite lookup_insert_ne; [done|].
    intros <-. by apply (Hother id k).
  - intros j d. destruct (decide (j = k)) as [->|].
    + rewrite lookup_insert_eq. by intros [= <-].
    + rewrite lookup_insert_ne by done. intros Hj Hdj Hp. pose proof (no_bound0 j d Hj Hdj Hp) as Hb.
      pose proof (no_open0 j d Hj Hdj) as Hoj. case_if; [|done]. apply lookup_delete_Some. split; [|done].
      intros E'. apply andb_true_iff in E as [_ E]. unfold byUID_get in E. rewrite E', Hb in E. simpl in E.
      apply String.eqb_eq in E. congruence.
Qed.

Lemma net_close_step k n : net_ok n -> net_ok (Close_step k n).
Proof.
  intros I. unfold Close_step. destruct (n_conns n !! k) as [c|] eqn:Hk; [|done].
  destruct (no_conns _ I k c Hk) as [Hok _]. pose proof (close1_ok _ _ Hok) as H1. pose proof (close1_frame c) as F1.
  unfold close1 in H1, F1. destruct (cn_closing c) eqn:E; try (by apply (net_update _ k c); [| | |apply F1]).
  - apply (net_update _ k c); [by apply net_cancel|done|done|by apply F1].
  - by apply net_remove.
  - done.
Qed.

Lemma net_begin k n : net_ok n -> net_ok (Close_begin k n).
Proof. intros I. destruct (Close_begin_cases k n) as [->| ->]; [done|by apply net_close_step]. Qed.

Lemma net_close k n : net_ok n -> net_ok (Connection_Close k n).
Proof. intros I. unfold Connection_Close. by do 5 apply net_close_step. Qed.

Lemma net_bind id uid data n : net_ok n -> net_ok (Manager_Bind id uid data n).2.
Proof.
  intros I. unfold Manager_Bind. destruct (Z.leb_spec uid 0) as [|Hu]; [done|].
  destruct (cm_connections (n_manager n) !! id) as [k|] eqn:Hid; [|done].
  destruct (n_conns n !! k) as [c|] eqn:Hk; [|done].
  destruct (negb _ && negb _) eqn:Eex; [done|]. simpl. destruct I.
  destruct (no_index0 id k Hid) as (Hne & c' & Hc' & Hcid & Hopen). assert (c' = c) as -> by congruence.
  set (del := (0 <? Connection_UID c) && String.eqb (byUID_get (Connection_UID c) (n_manager n)) id) in *.
  assert (Hsame : forall j d, j <> k -> n_conns n !! j = Some d -> cn_removed d = false -> cn_id d <> id).
  { intros j d Hj Hd Ho E. pose proof (no_open0 j d Hd Ho). congruence. }
  split; simpl; try done.
  - intros j d. destruct (decide (j = k)) as [->|].
    + rewrite lookup_insert_eq. intros [= <-]. destruct (no_conns0 k c Hk) as [[] Hlt]. split; [|done].
      split; try done. simpl. unfold Connection_UID. simpl. lia.
    + rewrite lookup_insert_ne by done. apply no_conns0.
  - intros id' j Hj. destruct (no_index0 id' j Hj) as (Hne' & d & Hd & Hdid & Hdn). split; [done|].
    destruct (decide (j = k)) as [->|].
    + exists (Connection_bind uid data c). rewrite lookup_insert_eq.
      change (cn_removed (Connection_bind uid data c)) with (cn_removed c). split_and!; simpl; congruence.
    + exists d. by rewrite lookup_insert_ne.
  - intros j d. destruct (decide (j = k)) as [->|].
    + rewrite lookup_insert_eq. intros [= <-] Hd. simpl. by apply no_open0.
    + rewrite lookup_insert_ne by done. apply no_open0.
  - intros uid' id' Hu'. destruct (decide (uid' = uid)) as [->|].
    + rewrite lookup_insert_eq in Hu'. injection Hu' as <-. split; [done|].
      exists k, (Connection_bind uid data c). by rewrite lookup_insert_eq.
    + rewrite lookup_insert_ne in Hu' by done.
      assert (Hold : cm_byUID (n_manager n) !! uid' = Some id' /\ (uid' = Connection_UID c -> id' <> id)).
      { destruct del eqn:Ed.
        - apply lookup_delete_Some in Hu' as [Hne' Hu']. split; [done|]. congruence.
        - split; [done|]. intros -> ->. destruct (no_uid0 _ _ Hu') as [Hp _]. unfold del, byUID_get in Ed.
          rewrite Hu' in Ed. simpl in Ed. rewrite String.eqb_refl, (proj2 (Z.ltb_lt _ _)) in Ed by done. done. }
      destruct Hold as [Hold Hno]. destruct (no_uid0 _ _ Hold) as (Hp & j & d & Hj & Hd & Hdu). split; [done|].
      exists j, d. rewrite lookup_insert_ne; [done|]. intros <-.
      destruct (no_index0 id' k Hj) as (_ & c' & Hc2 & Hid2 & _). assert (c' = c) as -> by congruence.
      assert (d = c) as -> by congruence. apply Hno; congruence.
  - intros j d. destruct (decide (j = k)) as [->|].
    + rewrite lookup_insert_eq. intros [= <-] _ _. simpl. unfold Connection_UID. simpl. rewrite lookup_insert_eq.
      by rewrite Hcid.
    + rewrite lookup_insert_ne by done. intros Hj Hdj Hp. pose proof (no_bound0 j d Hj Hdj Hp) as Hb.
      pose proof (Hsame j d n0 Hj Hdj) as Hdid. rewrite lookup_insert_ne.
      * destruct del eqn:Ed; [|done]. apply lookup_delete_Some. split; [|done]. intros E.
        apply andb_true_iff in Ed as [_ Ed]. unfold byUID_get in Ed. rewrite E, Hb in Ed. by apply String.eqb_eq in Ed.
      * intros E. unfold byUID_get in Eex. rewrite E, Hb in Eex. simpl in Eex.
        destruct (no_index0 _ _ (no_open0 j d Hj Hdj)) as [Hde _].
        rewrite (proj2 (String.eqb_neq _ _) Hde), (proj2 (String.eqb_neq _ _) Hdid) in Eex. done.
Qed.

(** ** Every step keeps the invariant *)

Lemma net_conn_ok n k c : net_ok n -> n_conns n !! k = Some c -> conn_ok (n_ctx n) c.
Proof. intros [] Hk. by destruct (no_conns0 k c Hk). Qed.

Lemma net_reader_close n k c : net_ok n -> n_conns n !! k = Some c -> net_ok (reader_close k n).
Proof.
  intros I Hk. unfold reader_close. rewrite Hk. apply net_begin.
  destruct (set_reader_ok (n_ctx n) RdDone c Logic.I (net_conn_ok n k c I Hk)). by eapply net_update.
Qed.

Lemma net_set_begin n k c c' : net_ok n -> n_conns n !! k = Some c -> conn_ok (n_ctx n) c' -> frame_ok c c' ->
  net_ok (Close_begin k (set_conn k c' n)).
Proof. intros I Hk H1 H2. apply net_begin. by eapply net_update. Qed.

(** A reader phase after which a message of a method is dispatched. *)
Lemma set_dispatch_ok b c x y : conn_ok b c -> cn_state c = ConnectionReady ->
  SystemMethodKick < x.1 -> conn_ok b (cn_log_dispatch x (cn_set_reader (RdNotify y) c)).
Proof.
  intros [] Hst Hm. assert (Hh : cn_handshaken c = true).
  { destruct (cn_handshaken c); [done|]. by destruct (co_gate0 eq_refl). }
  split; simpl; try done.
  - apply list.Forall_app. split; [done|]. by apply list.Forall_singleton.
  - congruence.
Qed.

Lemma net_process now k packet c n limits : net_ok n -> n_conns n !! k = Some c -> packet_ok limits packet ->
  net_ok (process_step options now k packet c n).
Proof.
  intros I Hk Hp. pose proof (net_conn_ok n k c I Hk) as Hok.
  assert (Hkind : pk_Kind packet <> Some (Packet_Request None) /\ pk_Kind packet <> Some (Packet_Notify None)).
  { destruct Hp as (_ & (kind & body & E & Hkd & _) & _). rewrite E. split; intros [= ->]; done. }
  assert (Hready : cn_state c = ConnectionReady -> cn_handshaken c = true).
  { intros Hst. destruct (cn_handshaken c) eqn:E; [done|]. by destruct (co_gate _ _ Hok E). }
  unfold process_step. destruct (Connection_process options packet c) as [| |rid body|r|body|r|m] eqn:Ev.
  - by eapply net_reader_close.
  - exfalso. revert Ev. unfold Connection_process. destruct Hkind as [H1 H2].
    destruct (pk_Kind packet) as [[[r|]|r|[m|]]|]; try done;
      destruct (cn_state c); try done; repeat (case_if; try done); by destruct (handleHandshake_negotiate _ _ _).
  - destruct (set_reader_ok (n_ctx n) (RdHandshake rid body) c Logic.I Hok). by eapply net_update.
  - destruct (Connection_handleHeartbeat now r) as [p|]; [|by apply net_begin].
    destruct (set_reader_ok (n_ctx n) (RdEnqueue p false false) c Logic.I Hok). by eapply net_update.
  - destruct (Connection_handleCancel body c); [by apply net_cancel|by eapply net_reader_close].
  - assert (Hm : SystemMethodKick < rq_MethodId r /\ cn_state c = ConnectionReady).
    { revert Ev. unfold Connection_process. destruct (pk_Kind packet) as [[[r'|]|r'|[m|]]|]; try done;
        destruct (cn_state c); try done; repeat (case_if; try done);
        try (by destruct (handleHandshake_negotiate _ _ _)). intros [= <-]. breflect. by split. }
    destruct Hm as [Hm Hst].
    change (net_ok (set_conn k (cn_set_reader (RdReserve (pk_Codec packet) r
      (Connection_requestContext options now packet (rq_RequestId r) (rq_TimeoutMs r) c) (n_ctx n)) c) (next_ctx n))).
    apply (net_update _ k c); [by apply net_next_ctx|done| |by split_and!].
    apply (conn_ok_mono _ (S (n_ctx n))) in Hok as Hok'; [|lia]. destruct Hok'. split; simpl; try done.
    split_and!; simpl; [done|by apply Hready|lia|].
    destruct (cn_handlers c !! n_ctx n) as [h|] eqn:Eh; [|done].
    apply (co_handlers _ _ Hok) in Eh. lia.
  - assert (Hm : SystemMethodKick < nt_MethodId m /\ cn_state c = ConnectionReady).
    { revert Ev. unfold Connection_process. destruct (pk_Kind packet) as [[[r'|]|r'|[m'|]]|]; try done;
        destruct (cn_state c); try done; repeat (case_if; try done);
        try (by destruct (handleHandshake_negotiate _ _ _)). intros [= <-]. breflect. by split. }
    destruct Hm as [Hm Hst]. apply net_next_ctx. apply (net_update _ k c); [done|done| |by split_and!].
    by apply set_dispatch_ok.
Qed.

Lemma net_read now k read c n : net_ok n -> n_conns n !! k = Some c -> net_ok (Run_read options now k read c n).
Proof.
  intros I Hk. unfold Run_read. destruct read as [data|]; [|by eapply net_reader_close].
  destruct (PacketCodec_Decode (cn_codec options) data) as [e|packet] eqn:Ed; [by eapply net_reader_close|].
  assert (Hp : packet_ok (NormalizeLimits (op_Limits options)) packet) by exact (proj2 (Decode_packet_ok _ _ _ Ed)).
  set (c' := if bool_decide (cn_state c = ConnectionHandshaking) then c else read_deadline now (op_IdleTimeout options) c).
  assert (Hc : conn_ok (n_ctx n) c' /\ frame_ok c c').
  { pose proof (net_conn_ok n k c I Hk). subst c'. case_if; [done|]. by apply read_deadline_ok. }
  destruct Hc as [H1 H2]. eapply net_process; [by eapply net_update|simpl; by rewrite lookup_insert_eq|done].
Qed.

Lemma inflight_insert c rid cancel h : inflight_ok c -> cn_inflight c !! rid = None ->
  Z.of_nat (size (cn_inflight c)) < op_MaxInflight options -> cn_handlers c !! cancel = None ->
  rq_RequestId (hg_request h) = rid ->
  inflight_ok (cn_set_handlers (<[cancel := h]> (cn_handlers c)) (cn_set_inflight (<[rid := cancel]> (cn_inflight c)) c)).
Proof.
  intros [Hb Hs] Hr Hlt Hc Hh. split; simpl.
  - intros r cid. split.
    + destruct (decide (r = rid)) as [->|].
      * rewrite lookup_insert_eq. intros [= <-]. exists h. by rewrite lookup_insert_eq.
      * rewrite lookup_insert_ne by done. intros Hx. apply Hb in Hx as (g & Hg & Eg). exists g.
        rewrite lookup_insert_ne; [done|]. intros ->. congruence.
    + intros (g & Hg & Eg). destruct (decide (cid = cancel)) as [->|].
      * rewrite lookup_insert_eq in Hg. injection Hg as <-. rewrite <- Eg, Hh. by rewrite lookup_insert_eq.
      * rewrite lookup_insert_ne in Hg by done. rewrite lookup_insert_ne; [apply Hb; by exists g|].
        intros ->. assert (cn_inflight c !! r = Some cid) by (apply Hb; by exists g). congruence.
  - rewrite map_size_insert_None by done. lia.
Qed.

Lemma inflight_delete c cancel h : inflight_ok c -> cn_handlers c !! cancel = Some h ->
  inflight_ok (cn_set_handlers (delete cancel (cn_handlers c)) (Connection_release (rq_RequestId (hg_request h)) c)).
Proof.
  intros [Hb Hs] Hc. set (rid := rq_RequestId (hg_request h)).
  assert (Hr : cn_inflight c !! rid = Some cancel) by (apply Hb; by exists h). split; simpl.
  - intros r cid. split.
    + intros [Hne Hx]%lookup_delete_Some. apply Hb in Hx as (g & Hg & Eg). exists g.
      rewrite lookup_delete_ne; [done|]. intros <-. apply Hne. unfold rid. congruence.
    + intros (g & [Hne Hg]%lookup_delete_Some & Eg).
      assert (Hx : cn_inflight c !! r = Some cid) by (apply Hb; by exists g).
      apply lookup_delete_Some. split; [|done]. intros <-. congruence.
  - rewrite map_size_delete_Some by eauto. lia.
Qed.

Lemma inflight_answer c cancel h h' : inflight_ok c -> cn_handlers c !! cancel = Some h ->
  rq_RequestId (hg_request h') = rq_RequestId (hg_request h) ->
  inflight_ok (cn_set_handlers (<[cancel := h']> (cn_handlers c)) c).
Proof.
  intros [Hb Hs] Hc He. split; [|done]. intros r cid. simpl. rewrite Hb.
  destruct (decide (cid = cancel)) as [->|].
  - rewrite lookup_insert_eq. split; intros (g & Hg & Eg).
    + exists h'. split; [done|]. congruence.
    + exists h. split; [done|]. congruence.
  - by rewrite lookup_insert_ne.
Qed.

Lemma net_reserve k codec r ctx cancel c n : net_ok n -> n_conns n !! k = Some c ->
  cn_reader c = RdReserve codec r ctx cancel -> net_ok (Run_reserve options k codec r ctx cancel c n).
Proof.
  intros I Hk Hr. pose proof (net_conn_ok n k c I Hk) as Hok. unfold Run_reserve, Connection_reserve.
  destruct (bool_decide (is_Some (cn_inflight c !! rq_RequestId r)) || _) eqn:E.
  - apply (net_reader_close _ k c); [by apply net_cancel|done].
  - breflect. apply bool_decide_eq_false, eq_None_not_Some in H1.
    assert (Hro : reader_ok (n_ctx n) c) by apply (co_reader _ _ Hok). unfold reader_ok in Hro. rewrite Hr in Hro.
    destruct Hro as (Hm & Hhs & Hlt & Hfresh). destruct Hok. apply (net_update _ k c); [done|done| |by split_and!].
    split; simpl; try done.
    + apply list.Forall_app. split; [done|]. by apply list.Forall_singleton.
    + congruence.
    + intros cid h. destruct (decide (cid = cancel)) as [->|]; [by rewrite lookup_insert_eq|].
      rewrite lookup_insert_ne by done. apply co_handlers0.
    + intros Hd. specialize (co_inflight0 Hd).
      by apply (inflight_insert c (rq_RequestId r) cancel (mkHandlerGo codec r ctx HgRun)).
Qed.

Lemma net_handshake now k rid body c n : net_ok n -> n_conns n !! k = Some c ->
  cn_reader c = RdHandshake rid body -> net_ok (Run_handshake options now k rid body c n).
Proof.
  intros I Hk Hr. pose proof (net_conn_ok n k c I Hk) as Hok. unfold Run_handshake, handleHandshake_ready.
  set (c1 := cn_set_state ConnectionReady (cn_set_handshaken c)).
  assert (H1 : conn_ok (n_ctx n) c1 /\ frame_ok c c1).
  { destruct Hok. split; [|by split_and!]. split; simpl; try done. unfold reader_ok in *. simpl. by rewrite Hr in *. }
  destruct H1 as [H1 F1]. destruct (read_deadline_ok _ now (op_IdleTimeout options) c1 H1) as [H2 F2].
  match goal with |- context [RdEnqueue ?p true false] =>
    destruct (set_reader_ok _ (RdEnqueue p true false) _ Logic.I H2) as [H3 F3] end.
  eapply net_update; [done..|]. eapply frame_trans; [done|by eapply frame_trans].
Qed.

Lemma net_send k p hs passed c n : net_ok n -> n_conns n !! k = Some c -> net_ok (Run_send options k p hs passed c n).
Proof.
  intros I Hk. pose proof (net_conn_ok n k c I Hk) as Hok. unfold Run_send.
  assert (Hno : net_ok (if hs then reader_close k n else Close_begin k (set_conn k (cn_set_reader RdRead c) n))).
  { destruct hs; [by eapply net_reader_close|]. destruct (set_reader_ok _ RdRead c Logic.I Hok). by eapply net_set_begin. }
  destruct passed.
  - pose proof (put_ok _ (mkOutbound p None) c Hok) as [H1 F1]. destruct (enqueue_put options _ c) as [[] c']; [|done].
    destruct (set_reader_ok _ RdRead c' Logic.I H1). eapply net_update; [done..|by eapply frame_trans].
  - destruct (cn_done c); [done|]. destruct (set_reader_ok _ (RdEnqueue p hs true) c Logic.I Hok). by eapply net_update.
Qed.

Lemma set_handler_ok b c cancel h x : conn_ok b c -> cn_handlers c !! cancel = Some h ->
  conn_ok b (cn_set_handlers (<[cancel := set_stage x h]> (cn_handlers c)) c) /\
  frame_ok c (cn_set_handlers (<[cancel := set_stage x h]> (cn_handlers c)) c).
Proof.
  intros [] Hh. split; [|by split_and!]. split; simpl; try done.
  - unfold reader_ok in *. simpl. destruct (cn_reader c); try done. destruct co_reader0 as (? & ? & ? & ?).
    split_and!; try done. rewrite lookup_insert_ne; [done|]. intros ->. congruence.
  - intros cid g. destruct (decide (cid = cancel)) as [->|].
    + intros _. by apply (co_handlers0 cancel h).
    + rewrite lookup_insert_ne by done. apply co_handlers0.
  - intros Hd. by apply (inflight_answer c cancel h (set_stage x h) (co_inflight0 Hd)).
Qed.

Lemma net_answer k cancel result h c n : net_ok n -> n_conns n !! k = Some c -> cn_handlers c !! cancel = Some h ->
  net_ok (handler_answer codecs k cancel result h c n).
Proof.
  intros I Hk Hh. unfold handler_answer. destruct (set_handler_ok (n_ctx n) c cancel h
    (HgEnqueue (request_response codecs (hg_codec h) (hg_request h) (hg_ctx h) result) false) (net_conn_ok n k c I Hk) Hh).
  by eapply net_update.
Qed.

Lemma net_send_answer k cancel p passed h c n : net_ok n -> n_conns n !! k = Some c -> cn_handlers c !! cancel = Some h ->
  net_ok (handler_send options k cancel p passed h c n).
Proof.
  intros I Hk Hh. pose proof (net_conn_ok n k c I Hk) as Hok. unfold handler_send. destruct passed.
  - pose proof (put_ok _ (mkOutbound p None) c Hok) as [H1 F1].
    assert (Hh' : cn_handlers (enqueue_put options (mkOutbound p None) c).2 !! cancel = Some h)
      by (unfold enqueue_put; by case_if).
    destruct (enqueue_put options _ c) as [b c']. simpl in *.
    destruct (set_handler_ok (n_ctx n) c' cancel h HgSent H1 Hh') as [H2 F2].
    destruct b; [eapply net_update|eapply net_set_begin]; try done; by eapply frame_trans.
  - destruct (set_handler_ok (n_ctx n) c cancel h HgSent Hok Hh).
    destruct (set_handler_ok (n_ctx n) c cancel h (HgEnqueue p true) Hok Hh).
    destruct (cn_done c); [by eapply net_set_begin|by eapply net_update].
Qed.

Lemma net_release k cancel h c n : net_ok n -> n_conns n !! k = Some c -> cn_handlers c !! cancel = Some h ->
  net_ok (handler_release k cancel h c n).
Proof.
  intros I Hk Hh. pose proof (net_conn_ok n k c I Hk) as []. unfold handler_release. apply net_cancel.
  apply (net_update _ k c); [done|done| |by split_and!]. split; simpl; try done.
  - unfold reader_ok in *. simpl. destruct (cn_reader c); try done. destruct co_reader0 as (? & ? & ? & ?).
    split_and!; try done. by apply lookup_delete_None; right.
  - intros cid g [_ Hg]%lookup_delete_Some. by apply co_handlers0 in Hg.
  - intros Hd. by apply (inflight_delete c cancel h (co_inflight0 Hd)).
Qed.

Lemma net_write k err c n n' : net_ok n -> n_conns n !! k = Some c -> writeLoop_step options k err c n = Some n' ->
  net_ok n'.
Proof.
  intros I Hk. pose proof (net_conn_ok n k c I Hk) as Hok. unfold writeLoop_step.
  destruct (cn_writeCh c) as [|ob rest] eqn:Ew; [done|].
  set (data := PacketCodec_Encode (cn_codec options) (ob_packet ob)).
  set (c1 := cn_take rest (ob_packet ob, data) c).
  assert (H1 : conn_ok (n_ctx n) c1 /\ frame_ok c c1).
  { destruct Hok. split; [|by split_and!]. rewrite Ew in *. split; simpl; try done.
    - by rewrite co_fifo0, fmap_app, <- app_assoc.
    - simpl in co_room0. lia.
    - apply list.Forall_app. split; [done|]. by apply list.Forall_singleton. }
  destruct H1 as [H1 F1]. destruct data, err; intros [= <-];
    try (by eapply net_update); eapply net_set_begin; try done; by destruct H1.
Qed.

Lemma net_accept now id ip conn n : net_ok n -> id <> EmptyString -> cm_connections (n_manager n) !! id = None ->
  net_ok (Component_HandleConn now id ip conn n).
Proof.
  intros [] Hne Hid. unfold Component_HandleConn, Manager_Add. simpl. rewrite lookup_insert_eq.
  assert (Hfresh : n_conns n !! n_next n = None).
  { destruct (n_conns n !! n_next n) as [c|] eqn:E; [|done]. destruct (no_conns0 _ _ E). lia. }
  split; simpl; try done.
  - intros k c. destruct (decide (k = n_next n)) as [->|].
    + rewrite lookup_insert_eq. intros [= <-]. split; [|lia]. split; simpl; try done.
      * lia.
      * intros _. split; [|simpl; rewrite map_size_empty; apply Max_pos].
        intros rid cid. simpl. rewrite !lookup_empty. split; [done|]. by intros (g & Hg & _).
    + rewrite lookup_insert_ne by done. intros Hk. destruct (no_conns0 k c Hk). split; [done|lia].
  - intros i k. destruct (decide (i = id)) as [->|].
    + rewrite lookup_insert_eq. intros [= <-]. split; [done|]. eexists. by rewrite lookup_insert_eq.
    + rewrite lookup_insert_ne by done. intros Hk. destruct (no_index0 i k Hk) as (Hi & c & Hc & H3 & H4).
      split; [done|]. exists c. rewrite lookup_insert_ne; [done|]. intros <-. congruence.
  - intros k c. destruct (decide (k = n_next n)) as [->|].
    + rewrite lookup_insert_eq. intros [= <-] _. simpl. by rewrite lookup_insert_eq.
    + rewrite lookup_insert_ne by done. intros Hk Hd. pose proof (no_open0 k c Hk Hd).
      rewrite lookup_insert_ne; [done|]. congruence.
  - intros uid i Hu. destruct (no_uid0 uid i Hu) as (Hp & k & c & H3 & H4 & H5). split; [done|]. exists k, c.
    rewrite !lookup_insert_ne; [done| |]; congruence.
  - intros k c. destruct (decide (k = n_next n)) as [->|].
    + rewrite lookup_insert_eq. intros [= <-] _. done.
    + rewrite lookup_insert_ne by done. apply no_bound0.
Qed.

Lemma net_terminal_step k t p c n : net_ok n -> n_conns n !! k = Some c -> net_ok (terminal_step options k t p c n).1.
Proof.
  intros I Hk. pose proof (net_conn_ok n k c I Hk) as Hok. unfold terminal_step. destruct p as [| |packet|]; simpl.
  - apply (net_update _ k c); [done|done| |by split_and!]. destruct Hok. split; simpl; try done.
    intros Hh. by destruct (co_gate0 Hh).
  - by destruct (terminal_packet t).
  - destruct (put_ok _ (mkOutbound packet (Some k)) c Hok). by eapply net_update.
  - by apply net_begin.
Qed.

Lemma net_push_step k p passed c n : net_ok n -> n_conns n !! k = Some c -> net_ok (push_step options k p passed c n).1.
Proof.
  intros I Hk. unfold push_step. destruct passed; simpl; [|done].
  destruct (put_ok _ (mkOutbound p None) c (net_conn_ok n k c I Hk)). by eapply net_update.
Qed.

Lemma net_start now k c n : net_ok n -> n_conns n !! k = Some c -> net_ok (Run_start options now k c n).
Proof.
  intros I Hk. pose proof (net_conn_ok n k c I Hk) as Hok. unfold Run_start. case_if; [by eapply net_reader_close|].
  assert (H1 : conn_ok (n_ctx n) (cn_set_writer true c) /\ frame_ok c (cn_set_writer true c)).
  { destruct Hok. split; [by split|by split_and!]. }
  destruct H1 as [H1 F1]. destruct (read_deadline_ok _ now (op_HandshakeTimeout options) _ H1) as [H2 F2].
  destruct (set_reader_ok _ RdRead _ Logic.I H2) as [H3 F3].
  eapply net_update; [done..|]. eapply frame_trans; [done|by eapply frame_trans].
Qed.

Lemma exec_net_ok act n n' : net_ok n -> exec_net act n = Some n' -> net_ok n'.
Proof.
  intros I. unfold Connection.exec_net. destruct (n_crashed n); [done|]. destruct act.
  - destruct (cm_connections _ !! id) eqn:Ei; [done|]. destruct (String.eqb_spec id EmptyString); [done|].
    intros [= <-]. by apply net_accept.
  - destruct (n_conns n !! k) as [c|] eqn:Hk; [|done]. destruct (cn_reader c); try done. intros [= <-]. by apply net_start.
  - destruct (n_conns n !! k) as [c|] eqn:Hk; [|done]. destruct (cn_reader c); try done. intros [= <-]. by apply net_read.
  - destruct (n_conns n !! k) as [c|] eqn:Hk; [|done]. destruct (cn_reader c) eqn:Er; try done. intros [= <-].
    by apply net_reserve.
  - destruct (n_conns n !! k) as [c|] eqn:Hk; [|done]. destruct (cn_reader c) eqn:Er; try done. intros [= <-].
    by apply net_handshake.
  - destruct (n_conns n !! k) as [c|] eqn:Hk; [|done]. destruct (cn_reader c) eqn:Er; try done. intros [= <-].
    by apply net_send.
  - destruct (n_conns n !! k) as [c|] eqn:Hk; [|done]. destruct (cn_reader c) eqn:Er; try done. intros [= <-].
    apply net_cancel. destruct (set_reader_ok _ RdRead c Logic.I (net_conn_ok n k c I Hk)). by eapply net_update.
  - destruct (n_conns n !! k) as [c|] eqn:Hk; [|done]. destruct (cn_handlers c !! cancel) as [h|] eqn:Hh; [|done].
    destruct (hg_stage h); try done. intros [= <-]. by apply net_answer.
  - destruct (n_conns n !! k) as [c|] eqn:Hk; [|done]. destruct (cn_handlers c !! cancel) as [h|] eqn:Hh; [|done].
    destruct (hg_stage h); try done. intros [= <-]. by apply net_send_answer.
  - destruct (n_conns n !! k) as [c|] eqn:Hk; [|done]. destruct (cn_handlers c !! cancel) as [h|] eqn:Hh; [|done].
    destruct (hg_stage h); try done. intros [= <-]. by apply net_release.
  - destruct (n_conns n !! k) as [c|] eqn:Hk; [|done]. destruct (cn_writer c); [|done]. by apply net_write.
  - destruct (n_conns n !! k) as [c|] eqn:Hk; [|done]. destruct (cn_done c) eqn:Hd; [|done]. intros [= <-].
    apply (net_update _ k c); [done|done| |by split_and!]. by destruct (net_conn_ok n k c I Hk).
  - intros [= <-]. by apply net_bind.
  - destruct (n_conns n !! k) as [c|] eqn:Hk; [|done]. destruct (Notify_packet _ _ _ _); intros [= <-]; [by apply net_pushes|done].
  - destruct (n_pushes n !! i) as [[[k p] passed]|]; [|done]. destruct (n_conns n !! k) as [c|] eqn:Hk; [|done].
    destruct (push_step options k p passed c n) as [n1 next] eqn:E. intros [= <-]. apply net_pushes.
    change n1 with ((n1, next).1). rewrite <- E. by apply net_push_step.
  - destruct (n_conns n !! k) as [c|] eqn:Hk; [|done]. case_if; intros [= <-]; [done|by apply net_terminals].
  - destruct (n_terminals n !! i) as [[[k t] ph]|]; [|done]. destruct (n_conns n !! k) as [c|] eqn:Hk; [|done].
    destruct (terminal_step options k t ph c n) as [n1 next] eqn:E. intros [= <-]. apply net_terminals.
    change n1 with ((n1, next).1). rewrite <- E. by apply net_terminal_step.
  - intros [= <-]. by apply net_begin.
  - destruct (n_conns n !! k) as [c|] eqn:Hk; [|done].
    destruct (cn_closing c); try done; intros [= <-]; by apply net_close_step.
Qed.

Lemma net_reach_ok n : net_reach n -> net_ok n.
Proof. induction 1; [by split|by eapply exec_net_ok]. Qed.

(** ** What happens to a connection that is closed

    The packets of the goroutines that are in [enqueue] on the connection [k], past the test
    of [done]. *)
Definition reader_late (c : Connection) : list Packet := match cn_reader c with RdEnqueue p _ true => [p] | _ => [] end.
Definition handler_late (x : nat * handler_go) : option Packet :=
  match hg_stage x.2 with HgEnqueue p true => Some p | _ => None end.
Definition handlers_late (m : gmap nat handler_go) : list Packet := omap handler_late (map_to_list m).
Definition conn_late (c : Connection) : list Packet := reader_late c ++ handlers_late (cn_handlers c).
Definition push_late (k : nat) (x : nat * Packet * bool) : option Packet :=
  match x with (j, p, b) => if Nat.eqb j k && b then Some p else None end.
Definition terminal_late (k : nat) (x : nat * terminal * terminal_phase) : option Packet :=
  match x with (j, _, TPut p) => if Nat.eqb j k then Some p else None | _ => None end.
Definition others_late (k : nat) (n : net) : list Packet :=
  omap (push_late k) (n_pushes n) ++ omap (terminal_late k) (n_terminals n).
Definition late_packets (k : nat) (n : net) : list Packet :=
  match n_conns n !! k with Some c => conn_late c | None => [] end ++ others_late k n.

Definition cl_rank (x : closing) : nat :=
  match x with ClOpen => 0 | ClStored => 1 | ClCleared => 2 | ClDone => 3 | ClRemoved => 4 | ClNotified => 5 end.

Lemma rank_done c c' : (cl_rank (cn_closing c) <= cl_rank (cn_closing c'))%nat -> cn_done c = true -> cn_done c' = true.
Proof. unfold cn_done. destruct (cn_closing c), (cn_closing c'); simpl; try done; lia. Qed.
Lemma rank_removed c c' : (cl_rank (cn_closing c) <= cl_rank (cn_closing c'))%nat -> cn_removed c = true -> cn_removed c' = true.
Proof. unfold cn_removed. destruct (cn_closing c), (cn_closing c'); simpl; try done; lia. Qed.
Lemma rank_notified x : (5 <= cl_rank x)%nat -> x = ClNotified.
Proof. destruct x; simpl; try lia. done. Qed.

(** [Close] only goes on, and once [done] is closed a packet is queued only by a goroutine
    that was past the test. *)
Definition evolves (c c' : Connection) : Prop :=
  (cl_rank (cn_closing c) <= cl_rank (cn_closing c'))%nat /\
  (cn_done c = true -> exists l, cn_queued c' = cn_queued c ++ l /\ l ++ conn_late c' ⊆+ conn_late c).

Definition final (n n' : net) : Prop := forall k c, n_conns n !! k = Some c ->
  exists c', n_conns n' !! k = Some c' /\ (cl_rank (cn_closing c) <= cl_rank (cn_closing c'))%nat /\
    (cn_done c = true -> exists l, cn_queued c' = cn_queued c ++ l /\ l ++ late_packets k n' ⊆+ late_packets k n).

Lemma evolves_same c c' : cn_closing c' = cn_closing c -> cn_queued c' = cn_queued c -> conn_late c' ⊆+ conn_late c -> evolves c c'.
Proof. intros E1 E2 E3. split; [by rewrite E1|]. intros _. exists []. by rewrite app_nil_r. Qed.

Lemma final_trans a b c : final a b -> final b c -> final a c.
Proof.
  intros F G k x Hk. destruct (F k x Hk) as (y & Hy & R1 & L1). destruct (G k y Hy) as (z & Hz & R2 & L2).
  exists z. split; [done|]. split; [lia|]. intros Hd. destruct (L1 Hd) as (l1 & E1 & S1).
  destruct (L2 (rank_done _ _ R1 Hd)) as (l2 & E2 & S2). exists (l1 ++ l2).
  rewrite E2, E1, <- !app_assoc. split; [done|]. etrans; [|exact S1]. by apply submseteq_app.
Qed.

(** The connections and the calls on their way to the queue change together. *)
Lemma final_step n n' k c c' : n_conns n !! k = Some c -> n_conns n' = <[k := c']> (n_conns n) ->
  (cl_rank (cn_closing c) <= cl_rank (cn_closing c'))%nat ->
  (cn_done c = true -> exists l, cn_queued c' = cn_queued c ++ l /\
     l ++ conn_late c' ++ others_late k n' ⊆+ conn_late c ++ others_late k n) ->
  (forall j, j <> k -> others_late j n' ⊆+ others_late j n) -> final n n'.
Proof.
  intros Hk E Hr Hl Ho j d Hj. destruct (decide (j = k)) as [->|Hne].
  - assert (d = c) as -> by congruence. exists c'. rewrite E, lookup_insert_eq. split; [done|]. split; [done|].
    intros Hd. destruct (Hl Hd) as (l & E1 & S1). exists l. split; [done|]. unfold late_packets.
    by rewrite E, lookup_insert_eq, Hk.
  - exists d. rewrite E, lookup_insert_ne by done. split; [done|]. split; [done|]. intros _. exists []. rewrite app_nil_r.
    split; [done|]. unfold late_packets. rewrite E, lookup_insert_ne by done. simpl.
    apply submseteq_app; [done|by apply Ho].
Qed.

Lemma final_set_conns n n' k c c' : n_conns n !! k = Some c -> evolves c c' ->
  n_conns n' = <[k := c']> (n_conns n) -> n_pushes n' = n_pushes n -> n_terminals n' = n_terminals n -> final n n'.
Proof.
  intros Hk [Hr Hl] E Ep Et.
  assert (Ho : forall j, others_late j n' = others_late j n) by (intros j; unfold others_late; by rewrite Ep, Et).
  apply (final_step n n' k c c' Hk E Hr); [|intros j _; by rewrite Ho].
  intros Hd. destruct (Hl Hd) as (l & E1 & S1). exists l. split; [done|]. rewrite Ho, app_assoc. by apply submseteq_app.
Qed.

Lemma final_set n k c c' : n_conns n !! k = Some c -> evolves c c' -> final n (set_conn k c' n).
Proof. intros Hk H1. by apply (final_set_conns n _ k c c'). Qed.

Lemma final_conns n n' : n_conns n' = n_conns n -> (forall k, others_late k n' ⊆+ others_late k n) -> final n n'.
Proof.
  intros E Ho k c Hk. exists c. rewrite E. split; [done|]. split; [done|]. intros _. exists []. rewrite app_nil_r.
  split; [done|]. unfold late_packets. rewrite E. simpl. by apply submseteq_app.
Qed.

Lemma final_refl n : final n n.
Proof. by apply final_conns. Qed.

Lemma final_close_step k n : final n (Close_step k n).
Proof.
  destruct (n_conns n !! k) as [c|] eqn:Hk; [|unfold Close_step; rewrite Hk; apply final_refl].
  destruct (Close_step_rest k n) as (_ & _ & Et & Ep & _).
  apply (final_set_conns n _ k c (close1 c)); [done| |by rewrite Close_step_conns, (alter_alt_Some _ _ _ c)|done..].
  split; [unfold close1; destruct (cn_closing c) eqn:E; simpl; rewrite ?E; simpl; lia|]. intros _. exists [].
  rewrite app_nil_r. unfold close1. by destruct (cn_closing c).
Qed.

Lemma final_begin k n : final n (Close_begin k n).
Proof. destruct (Close_begin_cases k n) as [->| ->]; [apply final_refl|apply final_close_step]. Qed.

Lemma final_close k n : final n (Connection_Close k n).
Proof.
  unfold Connection_Close. eapply final_trans; [|apply final_close_step]. eapply final_trans; [|apply final_close_step].
  eapply final_trans; [|apply final_close_step]. eapply final_trans; apply final_close_step.
Qed.

Lemma evolves_reader c x : match x with RdEnqueue _ _ true => False | _ => True end -> evolves c (cn_set_reader x c).
Proof.
  intros Hx. apply evolves_same; try done. unfold conn_late. simpl. unfold reader_late at 1. simpl.
  destruct x as [| | |p hs []| | |]; simpl; try done; by apply submseteq_inserts_l.
Qed.

Lemma final_reader_close k n c : n_conns n !! k = Some c -> final n (reader_close k n).
Proof.
  intros Hk. unfold reader_close. rewrite Hk. eapply final_trans; [|apply final_begin].
  eapply final_set; [done|by apply evolves_reader].
Qed.

Lemma final_set_begin n k c c' : n_conns n !! k = Some c -> evolves c c' -> final n (Close_begin k (set_conn k c' n)).
Proof. intros Hk F. eapply final_trans; [by eapply final_set|apply final_begin]. Qed.

Lemma evolves_deadline now t c : evolves c (read_deadline now t c).
Proof. unfold read_deadline. case_if; by apply evolves_same. Qed.

Lemma evolves_trans a b c : evolves a b -> evolves b c -> evolves a c.
Proof.
  intros [R1 L1] [R2 L2]. split; [lia|]. intros Hd. destruct (L1 Hd) as (l1 & E1 & S1).
  destruct (L2 (rank_done _ _ R1 Hd)) as (l2 & E2 & S2). exists (l1 ++ l2).
  rewrite E2, E1, <- !app_assoc. split; [done|]. etrans; [|exact S1]. by apply submseteq_app.
Qed.

Lemma omap_delete_perm {A B} (f : A -> option B) l i x : l !! i = Some x ->
  omap f l ≡ₚ match f x with Some y => [y] | None => [] end ++ omap f (delete i l).
Proof. intros Hi. rewrite (delete_Permutation _ _ _ Hi) at 1. simpl. by destruct (f x). Qed.

Lemma omap_insert_perm {A B} (f : A -> option B) l i x y : l !! i = Some x ->
  omap f (<[i := y]> l) ≡ₚ match f y with Some z => [z] | None => [] end ++ omap f (delete i l).
Proof.
  intros Hi. pose proof (lookup_lt_Some _ _ _ Hi) as Hlt.
  rewrite (omap_delete_perm f _ i y) by (by apply list_lookup_insert_eq).
  f_equiv. rewrite !delete_take_drop, take_insert_ge, drop_insert_lt by lia. done.
Qed.

Lemma handlers_insert m i h h' : m !! i = Some h -> handlers_late (<[i := h']> m) ≡ₚ
  match handler_late (i, h') with Some p => [p] | None => [] end ++ handlers_late (delete i m).
Proof.
  intros Hi. unfold handlers_late. rewrite <- insert_delete_eq, map_to_list_insert by apply lookup_delete_eq.
  simpl. by destruct (handler_late (i, h')).
Qed.

Lemma handlers_delete m i h : m !! i = Some h -> handlers_late m ≡ₚ
  match handler_late (i, h) with Some p => [p] | None => [] end ++ handlers_late (delete i m).
Proof.
  intros Hi. rewrite <- (insert_delete_id m i h Hi) at 1. unfold handlers_late.
  rewrite map_to_list_insert by apply lookup_delete_eq. simpl. by destruct (handler_late (i, h)).
Qed.

Lemma final_read now k read c n : n_conns n !! k = Some c -> final n (Run_read options now k read c n).
Proof.
  intros Hk. unfold Run_read. destruct read as [data|]; [|by eapply final_reader_close].
  destruct (PacketCodec_Decode _ data) as [e|packet]; [by eapply final_reader_close|].
  set (c' := if bool_decide _ then c else _).
  assert (F : evolves c c') by (subst c'; case_if; [by apply evolves_same|apply evolves_deadline]).
  eapply final_trans; [by eapply final_set|]. set (n1 := set_conn k c' n).
  assert (Hk1 : n_conns n1 !! k = Some c') by (simpl; by rewrite lookup_insert_eq).
  unfold process_step. destruct (Connection_process options packet c').
  - by eapply final_reader_close.
  - by apply final_conns.
  - eapply final_set; [done|by apply evolves_reader].
  - destruct (Connection_handleHeartbeat now request); [|apply final_begin].
    eapply final_set; [done|by apply evolves_reader].
  - destruct (Connection_handleCancel body c'); [by apply final_conns|by eapply final_reader_close].
  - eapply final_set_conns; [done| |reflexivity|done..]; by apply evolves_reader.
  - eapply final_set_conns; [done| |reflexivity|done..].
    apply (evolves_trans _ (cn_set_reader (RdNotify (n_ctx n1)) c')); [by apply evolves_reader|by apply evolves_same].
Qed.

Lemma final_bind id uid data n : final n (Manager_Bind id uid data n).2.
Proof.
  unfold Manager_Bind. destruct (uid <=? 0); [apply final_refl|].
  destruct (cm_connections _ !! id) as [k|]; [|apply final_refl].
  destruct (n_conns n !! k) as [c|] eqn:Hk; [|apply final_refl]. case_if; [apply final_refl|].
  eapply (final_set_conns n _ k c); [done| |reflexivity|done..]. by apply evolves_same.
Qed.

Lemma final_accept now id ip conn n : n_conns n !! n_next n = None -> final n (Component_HandleConn now id ip conn n).
Proof.
  intros Hf j d Hj. exists d. unfold Component_HandleConn, Manager_Add, late_packets. simpl. rewrite lookup_insert_eq. simpl.
  rewrite lookup_insert_ne; [|intros <-; congruence]. split; [done|]. split; [done|]. intros _. exists []. by rewrite app_nil_r.
Qed.

(** A response is queued, or not, by the reader that is in [enqueue] with it. *)
Lemma final_send k p hs passed c n : n_conns n !! k = Some c -> cn_reader c = RdEnqueue p hs passed ->
  final n (Run_send options k p hs passed c n).
Proof.
  intros Hk Hr. unfold Run_send.
  assert (Hno : final n (if hs then reader_close k n else Close_begin k (set_conn k (cn_set_reader RdRead c) n))).
  { destruct hs; [by eapply final_reader_close|]. eapply final_set_begin; [done|by apply evolves_reader]. }
  destruct passed.
  - unfold enqueue_put. case_if; [|done]. eapply final_set; [done|]. split; [done|]. intros _. exists [p].
    split; [done|]. unfold conn_late, reader_late. simpl. by rewrite Hr.
  - destruct (cn_done c) eqn:Hd; [done|]. eapply final_set; [done|]. split; [done|]. congruence.
Qed.

(** The same for a handler. *)
Lemma final_send_answer k cancel p passed h c n : n_conns n !! k = Some c -> cn_handlers c !! cancel = Some h ->
  hg_stage h = HgEnqueue p passed -> final n (handler_send options k cancel p passed h c n).
Proof.
  intros Hk Hh Hs. unfold handler_send.
  assert (Hl : forall c1, cn_closing c1 = cn_closing c -> cn_reader c1 = cn_reader c -> forall l, cn_queued c1 = cn_queued c ++ l ->
    l ⊆+ (if passed then [p] else []) ->
    evolves c (cn_set_handlers (<[cancel := set_stage HgSent h]> (cn_handlers c)) c1)).
  { intros c1 E1 E2 l E3 Sl. split; [simpl; by rewrite E1|]. intros _. exists l. split; [done|]. unfold conn_late, reader_late. simpl.
    rewrite E2, (handlers_insert _ _ h _ Hh), (handlers_delete _ _ _ Hh). unfold handler_late. simpl. rewrite Hs.
    rewrite app_assoc, (Permutation_app_comm l), <- app_assoc. apply submseteq_app; [done|].
    destruct passed; by apply submseteq_app. }
  destruct passed.
  - unfold enqueue_put. case_if.
    + eapply final_set; [done|]. by apply (Hl (cn_push (mkOutbound p None) c) eq_refl eq_refl [p]).
    + eapply final_set_begin; [done|]. apply (Hl c eq_refl eq_refl []); [by rewrite app_nil_r|apply submseteq_nil_l].
  - destruct (cn_done c) eqn:Hd.
    + eapply final_set_begin; [done|]. by apply (Hl c eq_refl eq_refl []); [rewrite app_nil_r|].
    + eapply final_set; [done|]. split; [done|]. congruence.
Qed.

Definition late1 (o : option Packet) : list Packet := match o with Some p => [p] | None => [] end.

(** One call on its way to the queue of [k] moves on: from [px] late to [py] late. *)
Lemma final_moves n n' k c c' px py rest : n_conns n !! k = Some c -> n_conns n' = <[k := c']> (n_conns n) ->
  cn_closing c' = cn_closing c ->
  others_late k n ≡ₚ late1 px ++ rest -> others_late k n' ≡ₚ late1 py ++ rest ->
  (cn_done c = true -> exists l, cn_queued c' = cn_queued c ++ l /\ conn_late c' = conn_late c /\ l ++ late1 py ⊆+ late1 px) ->
  (forall j, j <> k -> others_late j n' ⊆+ others_late j n) -> final n n'.
Proof.
  intros Hk E Er P P' Hl Ho. apply (final_step n n' k c c' Hk E); [by rewrite Er| |done].
  intros Hd. destruct (Hl Hd) as (l & E1 & E2 & S1). exists l. split; [done|]. rewrite P, P', E2, !app_assoc.
  apply submseteq_app; [|done]. rewrite (Permutation_app_comm l), <- app_assoc. by apply submseteq_app.
Qed.

Lemma pushes_at k i x n : n_pushes n !! i = Some x ->
  let rest := omap (push_late k) (delete i (n_pushes n)) ++ omap (terminal_late k) (n_terminals n) in
  others_late k n ≡ₚ late1 (push_late k x) ++ rest /\
  (forall y n', n_pushes n' = <[i := y]> (n_pushes n) -> n_terminals n' = n_terminals n ->
     others_late k n' ≡ₚ late1 (push_late k y) ++ rest) /\
  (forall n', n_pushes n' = delete i (n_pushes n) -> n_terminals n' = n_terminals n -> others_late k n' = rest).
Proof.
  intros Hi rest. unfold others_late, rest. split_and!; [by rewrite (omap_delete_perm _ _ _ _ Hi), <- app_assoc| |by intros n' -> ->].
  intros y n' -> ->. by rewrite (omap_insert_perm _ _ _ _ _ Hi), <- app_assoc.
Qed.

Lemma terminals_at k i x n : n_terminals n !! i = Some x ->
  let rest := omap (terminal_late k) (delete i (n_terminals n)) ++ omap (push_late k) (n_pushes n) in
  others_late k n ≡ₚ late1 (terminal_late k x) ++ rest /\
  (forall y n', n_terminals n' = <[i := y]> (n_terminals n) -> n_pushes n' = n_pushes n ->
     others_late k n' ≡ₚ late1 (terminal_late k y) ++ rest) /\
  (forall n', n_terminals n' = delete i (n_terminals n) -> n_pushes n' = n_pushes n -> others_late k n' ≡ₚ rest).
Proof.
  intros Hi rest. unfold others_late, rest. split_and!.
  - rewrite (omap_delete_perm _ _ _ _ Hi), Permutation_app_comm, app_assoc. done.
  - intros y n' -> ->. rewrite (omap_insert_perm _ _ _ _ _ Hi), Permutation_app_comm, app_assoc. done.
  - intros n' -> ->. apply Permutation_app_comm.
Qed.

Lemma final_push_step i k p passed c n : n_pushes n !! i = Some (k, p, passed) -> n_conns n !! k = Some c ->
  let '(n', next) := push_step options k p passed c n in
  final n (set_pushes (match next with Some b => <[i := (k, p, b)]> (n_pushes n) | None => delete i (n_pushes n) end) n').
Proof.
  intros Hi Hk. assert (Hne : forall j b, j <> k -> push_late j (k, p, b) = None).
  { intros j b Hj. simpl. by rewrite (proj2 (Nat.eqb_neq k j)) by congruence. }
  assert (Ht : forall b, push_late k (k, p, b) = if b then Some p else None) by (intros b; simpl; by rewrite Nat.eqb_refl).
  pose proof (fun j => pushes_at j i _ n Hi) as At.
  assert (Hdel : forall n', n_pushes n' = delete i (n_pushes n) -> n_terminals n' = n_terminals n ->
    forall j, j <> k -> others_late j n' ⊆+ others_late j n).
  { intros n' E1 E2 j Hj. destruct (At j) as (P & _ & D). rewrite P, (D n' E1 E2), Hne by done. done. }
  destruct (At k) as (P & P' & D). rewrite Ht in P. unfold push_step. destruct passed; simpl.
  - assert (exists l, cn_queued (enqueue_put options (mkOutbound p None) c).2 = cn_queued c ++ l /\ l ⊆+ [p]) as (l & El & Sl).
    { unfold enqueue_put. case_if; [by exists [p]|]. exists []. split; [by rewrite app_nil_r|apply submseteq_nil_l]. }
    eapply (final_moves _ _ k c _ (Some p) None _ Hk); [reflexivity| |exact P|by rewrite D| |by apply Hdel].
    + unfold enqueue_put. by case_if.
    + intros _. exists l. rewrite app_nil_r. split_and!; try done. unfold enqueue_put. by case_if.
  - destruct (cn_done c) eqn:Hd.
    + apply final_conns; [done|]. intros j. destruct (At j) as (Pj & _ & Dj). rewrite Pj, Dj by done.
      by apply submseteq_inserts_l.
    + eapply (final_moves _ _ k c c None (Some p) _ Hk); [simpl; by rewrite insert_id|done|exact P| |congruence|].
      * by rewrite (P' (k, p, true)), Ht.
      * intros j Hj. destruct (At j) as (Pj & Pj' & _). rewrite Pj, (Pj' (k, p, true)), !Hne by done. done.
Qed.

Lemma final_terminal_step i k t p c n : n_terminals n !! i = Some (k, t, p) -> n_conns n !! k = Some c ->
  let '(n', next) := terminal_step options k t p c n in
  final n (set_terminals (match next with Some p => <[i := (k, t, p)]> (n_terminals n) | None => delete i (n_terminals n) end) n').
Proof.
  intros Hi Hk. pose proof (fun j => terminals_at j i _ n Hi) as At.
  assert (Hne : forall j q, j <> k -> terminal_late j (k, t, q) = None).
  { intros j q Hj. simpl. rewrite (proj2 (Nat.eqb_neq k j)) by congruence. by destruct q. }
  assert (Ho : forall q n', n_terminals n' = <[i := (k, t, q)]> (n_terminals n) -> n_pushes n' = n_pushes n ->
    forall j, j <> k -> others_late j n' ⊆+ others_late j n).
  { intros q n' E1 E2 j Hj. destruct (At j) as (P & P' & _). by rewrite P, (P' (k, t, q) n' E1 E2), !Hne by done. }
  destruct (At k) as (P & P' & _).
  assert (Hmove : forall q c' l, cn_closing c' = cn_closing c -> conn_late c' = conn_late c ->
    (cn_done c = true -> cn_queued c' = cn_queued c ++ l /\ l ++ late1 (terminal_late k (k, t, q)) ⊆+ late1 (terminal_late k (k, t, p))) ->
    final n (set_terminals (<[i := (k, t, q)]> (n_terminals n)) (set_conn k c' n))).
  { intros q c' l E1 E2 Hl. eapply (final_moves _ _ k c c' _ _ _ Hk); [reflexivity|done|exact P|by apply P'| |by eapply Ho].
    intros Hd. exists l. destruct (Hl Hd) as [? ?]. by split_and!. }
  unfold terminal_step. destruct p as [| |packet|].
  - apply (Hmove TSend _ []); [done..|]. intros _. by rewrite app_nil_r.
  - assert (Hstay : forall q, (cn_done c = true -> terminal_late k (k, t, q) = None) ->
      final n (set_terminals (<[i := (k, t, q)]> (n_terminals n)) n)).
    { intros q Hq. eapply (final_moves _ _ k c c _ _ _ Hk); [simpl; by rewrite insert_id|done|exact P|by apply (P' (k, t, q))| |by eapply Ho].
      intros Hd. exists []. rewrite app_nil_r, (Hq Hd). split_and!; [done..|apply submseteq_nil_l]. }
    destruct (terminal_packet t) as [packet|]; [|by apply Hstay]. destruct (cn_done c) eqn:Hd; apply Hstay; [done|congruence].
  - assert (exists l, cn_queued (enqueue_put options (mkOutbound packet (Some k)) c).2 = cn_queued c ++ l /\ l ⊆+ [packet]) as (l & El & Sl).
    { unfold enqueue_put. case_if; [by exists [packet]|]. exists []. split; [by rewrite app_nil_r|apply submseteq_nil_l]. }
    apply (Hmove TClose _ l); [unfold enqueue_put; by case_if..|]. intros _. split; [done|]. simpl.
    by rewrite Nat.eqb_refl, app_nil_r.
  - destruct (Close_begin_cases k n) as [E|E]; rewrite E; [|eapply final_trans; [apply (final_close_step k)|]].
    all: apply final_conns; [done|]; intros j.
    2: destruct (Close_step_rest k n) as (_ & _ & Et & Ep & _).
    all: destruct (At j) as (Pj & _ & Dj).
    + rewrite Pj, Dj by done. by apply submseteq_inserts_l.
    + rewrite Dj by done. unfold others_late at 1. rewrite Et, Ep. fold (others_late j n). rewrite Pj. by apply submseteq_inserts_l.
Qed.

Lemma final_write k err c n n' : n_conns n !! k = Some c -> writeLoop_step options k err c n = Some n' -> final n n'.
Proof.
  intros Hk. unfold writeLoop_step. destruct (cn_writeCh c) as [|ob rest]; [done|]. case_if; intros [= <-].
  - eapply final_set_begin; [done|]. by apply evolves_same.
  - eapply final_set; [done|]. by apply evolves_same.
Qed.

Lemma final_answer k cancel r h c n : n_conns n !! k = Some c -> cn_handlers c !! cancel = Some h -> hg_stage h = HgRun ->
  final n (handler_answer codecs k cancel r h c n).
Proof.
  intros Hk Hh Hs. eapply final_set; [done|]. apply evolves_same; [done..|]. unfold conn_late. simpl.
  rewrite (handlers_insert _ _ h _ Hh), (handlers_delete _ _ _ Hh). unfold handler_late at 1. simpl.
  apply submseteq_app; [done|]. by apply submseteq_inserts_l.
Qed.

Lemma final_release k cancel h c n : n_conns n !! k = Some c -> cn_handlers c !! cancel = Some h ->
  final n (handler_release k cancel h c n).
Proof.
  intros Hk Hh. eapply (final_set_conns n _ k c); [done| |reflexivity|done..]. apply evolves_same; [done..|].
  unfold conn_late. simpl. rewrite (handlers_delete (cn_handlers c) _ _ Hh). apply submseteq_app; [done|].
  by apply submseteq_inserts_l.
Qed.

Lemma final_reserve k codec r ctx cancel c n : n_conns n !! k = Some c -> cn_reader c = RdReserve codec r ctx cancel ->
  cn_handlers c !! cancel = None -> final n (Run_reserve options k codec r ctx cancel c n).
Proof.
  intros Hk Hr Hh. unfold Run_reserve, Connection_reserve. case_if.
  - eapply final_trans; [by apply (final_conns n (cancel_ctx [cancel] n))|by eapply final_reader_close].
  - eapply final_set; [done|]. apply evolves_same; [done..|]. unfold conn_late, reader_late. simpl. rewrite Hr.
    unfold handlers_late. by rewrite map_to_list_insert.
Qed.

Lemma exec_net_final act n n' : net_ok n -> exec_net act n = Some n' -> final n n'.
Proof.
  intros I. unfold Connection.exec_net. destruct (n_crashed n); [done|]. destruct act.
  all: try (destruct (n_conns n !! k) as [c|] eqn:Hk; [|done]).
  - destruct (_ !! id); [done|]. destruct (String.eqb _ _); [done|]. intros [= <-]. apply final_accept.
    destruct (n_conns n !! n_next n) as [d|] eqn:Hd; [|done]. destruct (no_conns _ I _ d Hd). lia.
  - destruct (cn_reader c); try done. intros [= <-]. unfold Run_start. case_if; [by eapply final_reader_close|].
    eapply final_set; [done|]. eapply evolves_trans; [|by apply evolves_reader].
    eapply evolves_trans; [|apply evolves_deadline]. by apply evolves_same.
  - destruct (cn_reader c); try done. intros [= <-]. by apply final_read.
  - destruct (cn_reader c) eqn:Er; try done. intros [= <-]. apply final_reserve; try done.
    destruct (net_conn_ok n k c I Hk). unfold reader_ok in co_reader0. rewrite Er in co_reader0. by destruct_and!.
  - destruct (cn_reader c); try done. intros [= <-]. eapply final_set; [done|]. unfold handleHandshake_ready.
    eapply evolves_trans; [|by apply evolves_reader]. eapply evolves_trans; [|apply evolves_deadline]. by apply evolves_same.
  - destruct (cn_reader c) eqn:Er; try done. intros [= <-]. by apply final_send.
  - destruct (cn_reader c); try done. intros [= <-]. eapply (final_set_conns n _ k c); [done| |reflexivity|done..].
    by apply evolves_reader.
  - destruct (cn_handlers c !! cancel) as [h|] eqn:Hh; [|done]. destruct (hg_stage h) eqn:Hs; try done. intros [= <-].
    by apply final_answer.
  - destruct (cn_handlers c !! cancel) as [h|] eqn:Hh; [|done]. destruct (hg_stage h) eqn:Hs; try done. intros [= <-].
    by apply final_send_answer.
  - destruct (cn_handlers c !! cancel) as [h|] eqn:Hh; [|done]. destruct (hg_stage h) eqn:Hs; try done. intros [= <-].
    by apply final_release.
  - destruct (cn_writer c); [|done]. by apply final_write.
  - destruct (cn_done c); [|done]. intros [= <-]. eapply final_set; [done|]. by apply evolves_same.
  - intros [= <-]. apply final_bind.
  - destruct (Notify_packet _ _ _ _); intros [= <-]; [|apply final_refl]. apply final_conns; [done|]. intros j.
    unfold others_late. simpl. by rewrite andb_false_r.
  - destruct (n_pushes n !! i) as [[[k p] b]|] eqn:Hi; [|done]. destruct (n_conns n !! k) as [c|] eqn:Hk; [|done].
    pose proof (final_push_step i k p b c n Hi Hk) as F. destruct (push_step _ _ _ _ _ _) as [n1 next]. by intros [= <-].
  - case_if; intros [= <-]; [apply final_refl|]. by apply final_conns.
  - destruct (n_terminals n !! i) as [[[k t] p]|] eqn:Hi; [|done]. destruct (n_conns n !! k) as [c|] eqn:Hk; [|done].
    pose proof (final_terminal_step i k t p c n Hi Hk) as F. destruct (terminal_step _ _ _ _ _ _) as [n1 next]. by intros [= <-].
  - intros [= <-]. apply final_begin.
  - destruct (cn_closing c); try done; intros [= <-]; apply final_close_step.
Qed.

Lemma run_net_ok l n n' : net_ok n -> run_net codecs options l n = Some n' -> net_ok n' /\ final n n'.
Proof.
  revert n. induction l as [|a l IH]; intros n I E; simpl in E; [injection E as <-; split; [done|by apply final_conns]|].
  destruct (Connection.exec_net codecs options a n) as [n1|] eqn:E1; [|done].
  destruct (IH n1 (exec_net_ok _ _ _ I E1) E) as [I' F]. split; [done|].
  eapply final_trans; [by eapply exec_net_final|done].
Qed.

Definition closed_conn (c : Connection) : Connection := close1 (close1 (close1 (close1 (close1 c)))).

Lemma Close_conns k n : n_conns (Connection_Close k n) = alter closed_conn k (n_conns n).
Proof. unfold Connection_Close. rewrite !Close_step_conns, !alter_alter_eq. done. Qed.

Lemma closed_conn_eq c : let c' := closed_conn c in
  cn_closing c' = ClNotified /\ cn_id c' = cn_id c /\ cn_queued c' = cn_queued c /\ conn_late c' = conn_late c.
Proof. unfold closed_conn. destruct (cn_closing c) eqn:E; unfold close1; repeat (rewrite ?E; simpl); by split_and!. Qed.

Lemma Close_done k c n : n_conns n !! k = Some c -> exists c', n_conns (Connection_Close k n) !! k = Some c' /\
  cn_closing c' = ClNotified /\ cn_id c' = cn_id c /\ cn_queued c' = cn_queued c /\ conn_late c' = conn_late c.
Proof.
  intros Hk. exists (closed_conn c). rewrite Close_conns, lookup_alter_eq, Hk. split; [done|]. apply closed_conn_eq.
Qed.

Lemma Close_step_cancelled x k n : x ∈ n_cancelled n -> x ∈ n_cancelled (Close_step k n).
Proof.
  intros Hx. unfold Close_step. destruct (n_conns n !! k) as [c|]; [|done].
  destruct (cn_closing c); try done. simpl. apply elem_of_app. by right.
Qed.

Lemma Close_step_clears k c n rid x : n_conns n !! k = Some c -> cn_closing c = ClStored ->
  cn_inflight c !! rid = Some x -> x ∈ n_cancelled (Close_step k n).
Proof.
  intros Hk E Hx. unfold Close_step. rewrite Hk, E. simpl. apply elem_of_app. left. apply list_elem_of_fmap.
  exists (rid, x). split; [done|]. by apply elem_of_map_to_list.
Qed.

Lemma Close_cancels k c n rid x : n_conns n !! k = Some c -> cn_cleared c = false -> cn_inflight c !! rid = Some x ->
  x ∈ n_cancelled (Connection_Close k n).
Proof.
  intros Hk Hc Hx. unfold Connection_Close, cn_cleared in *. do 3 apply Close_step_cancelled.
  destruct (cn_closing c) eqn:E; try done; [|by eapply Close_step_cancelled, Close_step_clears].
  apply (Close_step_clears k (close1 c) _ rid); [by rewrite Close_step_conns, lookup_alter_eq, Hk| |];
    unfold close1; by rewrite E.
Qed.

(** No connection that [Close] has removed is in the index. *)
Lemma removed_unindexed n k c : net_ok n -> n_conns n !! k = Some c -> cn_removed c = true ->
  (forall id, Manager_Get id n <> Some k) /\ forall uid, Manager_GetUID uid n <> Some k.
Proof.
  intros I Hk Hr. assert (Hno : forall id, Manager_Get id n <> Some k).
  { intros id Hg. destruct (no_index _ I id k Hg) as (_ & x & Hx & _ & Hxd). congruence. }
  split; [done|]. intros uid. unfold Manager_GetUID. destruct (_ !! uid) as [id|]; [|done]. apply Hno.
Qed.

Lemma net_terminal k t ack n : net_ok n -> net_ok (Connection_terminal options k t ack n).2.
Proof.
  intros I. unfold Connection_terminal. destruct (n_conns n !! k) as [c|] eqn:Hk; [|done]. case_if; [done|].
  assert (H1 : conn_ok (n_ctx n) (cn_set_state ConnectionDraining c) /\ frame_ok c (cn_set_state ConnectionDraining c)).
  { destruct (net_conn_ok n k c I Hk). split; [|by split_and!]. split; simpl; try done.
    intros Hh. by destruct (co_gate0 Hh). }
  destruct H1 as [H1 F1]. destruct (terminal_packet t) as [packet|]; [|apply net_close; by eapply net_update].
  pose proof (enqueue_ok _ (mkOutbound packet (Some k)) _ H1) as [H2 F2].
  destruct (Connection_enqueue options _ _) as [[] c2]; apply net_close; eapply net_update; try done; by eapply frame_trans.
Qed.

(** Connections are only added by [HandleConn]. *)
Lemma dom_set k c c' n : n_conns n !! k = Some c -> dom (n_conns (set_conn k c' n)) = dom (n_conns n).
Proof. intros Hk. simpl. apply dom_insert_lookup_L. by eexists. Qed.

Lemma dom_step k n : dom (n_conns (Close_step k n)) = dom (n_conns n).
Proof. rewrite Close_step_conns. apply dom_alter_L. Qed.

Lemma dom_begin k n : dom (n_conns (Close_begin k n)) = dom (n_conns n).
Proof. destruct (Close_begin_cases k n) as [->| ->]; [done|apply dom_step]. Qed.

Lemma dom_close k n : dom (n_conns (Connection_Close k n)) = dom (n_conns n).
Proof. rewrite Close_conns. apply dom_alter_L. Qed.

Lemma dom_reader_close k n : dom (n_conns (reader_close k n)) = dom (n_conns n).
Proof.
  unfold reader_close. rewrite dom_begin. destruct (n_conns n !! k) eqn:E; [|done]. by apply (dom_set _ _ _ _ E).
Qed.

Lemma dom_process now k packet c n : n_conns n !! k = Some c ->
  dom (n_conns (process_step options now k packet c n)) = dom (n_conns n).
Proof.
  intros E. unfold process_step. destruct (Connection_process _ _ _); repeat case_match; simpl;
    rewrite ?dom_begin, ?dom_reader_close; try done; apply (dom_set _ _ _ _ E).
Qed.

Lemma dom_read now k read c n : n_conns n !! k = Some c ->
  dom (n_conns (Run_read options now k read c n)) = dom (n_conns n).
Proof.
  intros E. unfold Run_read. destruct read as [b|]; [|apply dom_reader_close]. destruct (PacketCodec_Decode _ _); [apply dom_reader_close|].
  rewrite dom_process by (simpl; apply lookup_insert_eq). apply (dom_set _ _ _ _ E).
Qed.

Ltac dom_solve E := repeat first [rewrite dom_begin | rewrite dom_reader_close | progress simpl]; try done; try apply (dom_set _ _ _ _ E).

Lemma dom_bind id uid data n : dom (n_conns (Manager_Bind id uid data n).2) = dom (n_conns n).
Proof.
  unfold Manager_Bind. destruct (uid <=? 0); [done|]. destruct (_ !! id) as [k|]; [|done].
  destruct (n_conns n !! k) eqn:E; [|done]. destruct (_ && _); [done|]. apply (dom_set _ _ _ _ E).
Qed.

Lemma exec_net_dom a n n' : (forall now id ip b, a <> NAccept now id ip b) -> exec_net a n = Some n' -> dom (n_conns n') = dom (n_conns n).
Proof.
  intros Ha. unfold exec_net. destruct (n_crashed n); [done|]. destruct a; try (by destruct (Ha now id remoteIP conn)).
  all: try (destruct (n_conns n !! k) as [c|] eqn:E; [|done]).
  - destruct (cn_reader c); try done. intros [= <-]. unfold Run_start. destruct (cn_conn c); dom_solve E.
  - destruct (cn_reader c); try done. intros [= <-]. by apply dom_read.
  - destruct (cn_reader c); try done. intros [= <-]. unfold Run_reserve. destruct (Connection_reserve _ _ _ _); dom_solve E.
  - destruct (cn_reader c); try done. intros [= <-]. dom_solve E.
  - destruct (cn_reader c); try done. intros [= <-]. unfold Run_send, enqueue_put. repeat case_match; dom_solve E.
  - destruct (cn_reader c); try done. intros [= <-]. dom_solve E.
  - destruct (cn_handlers c !! cancel); [|done]. destruct (hg_stage _); try done. intros [= <-]. dom_solve E.
  - destruct (cn_handlers c !! cancel); [|done]. destruct (hg_stage _); try done. intros [= <-].
    unfold handler_send, enqueue_put. repeat case_match; dom_solve E.
  - destruct (cn_handlers c !! cancel); [|done]. destruct (hg_stage _); try done. intros [= <-]. unfold handler_release. dom_solve E.
  - destruct (cn_writer c); [|done]. unfold writeLoop_step. destruct (cn_writeCh c); [done|].
    destruct (PacketCodec_Encode _ _), err; intros [= <-]; dom_solve E.
  - destruct (cn_done c); [|done]. intros [= <-]. dom_solve E.
  - intros [= <-]. apply dom_bind.
  - destruct (Notify_packet _ _ _ _); by intros [= <-].
  - destruct (n_pushes n !! i) as [[[k p] b]|]; [|done]. destruct (n_conns n !! k) as [c|] eqn:E; [|done].
    unfold push_step. destruct b; intros [= <-]; dom_solve E.
  - destruct (bool_decide _); intros [= <-]; done.
  - destruct (n_terminals n !! i) as [[[k t] p]|]; [|done]. destruct (n_conns n !! k) as [c|] eqn:E; [|done].
    unfold terminal_step. destruct p as [| |q|]; [|destruct (terminal_packet t)| |]; intros [= <-]; dom_solve E.
  - intros [= <-]. apply dom_begin.
  - destruct (cn_closing c); try done; intros [= <-]; apply dom_step.
Qed.

(** Nothing reopens a connection. *)
Definition closes_on (n n' : net) : Prop := forall k c, n_conns n !! k = Some c ->
  exists c', n_conns n' !! k = Some c' /\ (cl_rank (cn_closing c) <= cl_rank (cn_closing c'))%nat.

Lemma closes_trans a b c : closes_on a b -> closes_on b c -> closes_on a c.
Proof.
  intros F G k x Hk. destruct (F k x Hk) as (y & Hy & R1). destruct (G k y Hy) as (z & Hz & R2). exists z. split; [done|lia].
Qed.
Lemma final_closes n n' : final n n' -> closes_on n n'.
Proof. intros F k c Hk. destruct (F k c Hk) as (c' & H1 & H2 & _). eauto. Qed.
Lemma closes_refl n : closes_on n n.
Proof. intros k c Hk. eauto. Qed.

Lemma terminal_final k t ack n : let n' := (Connection_terminal options k t ack n).2 in
  closes_on n n' /\ dom (n_conns n') = dom (n_conns n).
Proof.
  unfold Connection_terminal. destruct (n_conns n !! k) as [c|] eqn:Hk; [|split; [apply closes_refl|done]].
  case_if; [split; [apply closes_refl|done]|].
  assert (Hc : forall c2, cn_closing c2 = cn_closing c -> closes_on n (Connection_Close k (set_conn k c2 n)) /\
    dom (n_conns (Connection_Close k (set_conn k c2 n))) = dom (n_conns n)).
  { intros c2 Ec. split; [|rewrite dom_close; by eapply dom_set]. eapply closes_trans; [|apply final_closes, final_close].
    intros j d Hj. simpl. destruct (decide (j = k)) as [->|].
    - exists c2. rewrite lookup_insert_eq. split; [done|]. assert (d = c) as -> by congruence. by rewrite Ec.
    - exists d. by rewrite lookup_insert_ne. }
  destruct (terminal_packet t) as [packet|]; simpl; [|by apply Hc].
  unfold Connection_enqueue, enqueue_put. repeat case_match; simplify_eq; by apply Hc.
Qed.

Lemma fold_terminals acks l n : net_ok n ->
  let n' := foldl (fun n k => (Connection_terminal options k (TGoAway 0 0) (acks k) n).2) n l in
  net_ok n' /\ closes_on n n' /\ dom (n_conns n') = dom (n_conns n).
Proof.
  revert n. induction l as [|k l IH]; intros n I; simpl; [split_and!; [done|apply closes_refl|done]|].
  pose proof (terminal_final k (TGoAway 0 0) (acks k) n) as [F D].
  destruct (IH _ (net_terminal k (TGoAway 0 0) (acks k) n I)) as (I' & F' & D').
  split_and!; [done|by eapply closes_trans|congruence].
Qed.

Lemma fold_close l n : net_ok n -> let n' := foldl (fun n k => Connection_Close k n) n l in
  net_ok n' /\ closes_on n n' /\ dom (n_conns n') = dom (n_conns n) /\
  forall k c, k ∈ l -> n_conns n !! k = Some c -> exists c', n_conns n' !! k = Some c' /\ cn_closing c' = ClNotified.
Proof.
  revert n. induction l as [|j l IH]; intros n I; simpl.
  - split_and!; [done|apply closes_refl|done|]. by intros k c ?%elem_of_nil.
  - destruct (IH _ (net_close j n I)) as (I' & F' & D' & H'). split_and!; [done| |by rewrite D', dom_close|].
    + eapply closes_trans; [apply final_closes, final_close|done].
    + intros k c [->|Hk]%elem_of_cons Hc.
      * destruct (Close_done j c n Hc) as (c1 & Hc1 & Hd & _). destruct (F' j c1 Hc1) as (c2 & ? & R).
        rewrite Hd in R. apply rank_notified in R. eauto.
      * assert (is_Some (n_conns (Connection_Close j n) !! k)) as [c1 Hc1].
        { apply elem_of_dom. rewrite dom_close. apply elem_of_dom. by eexists. }
        by apply (H' k c1).
Qed.

(** ** Properties of all runs *)

(** C5: No application code runs on a connection before its handshake: the reader never
    panics on a packet, every method dispatched lies above the reserved ones, and
    whenever one was dispatched or the connection reports Ready, the handshake had been
    completed on it. *)
Theorem handshake_gates_dispatch (n : net) : net_reach n ->
  n_crashed n = false /\
  forall k c, n_conns n !! k = Some c ->
    (forall id ctx, (id, ctx) ∈ cn_dispatched c -> SystemMethodKick < id) /\
    (cn_dispatched c <> [] \/ cn_state c = ConnectionReady -> cn_handshaken c = true).
Proof.
  intros I%net_reach_ok. split; [by apply no_crash|]. intros k c Hk. pose proof (net_conn_ok n k c I Hk) as [].
  split.
  - intros id ctx Hin. rewrite list.Forall_forall in co_methods0. by apply (co_methods0 (id, ctx)).
  - intros Hd. destruct (cn_handshaken c); [done|]. destruct (co_gate0 eq_refl). by destruct Hd.
Qed.

(** C9: Until Close clears the requests in flight, the running request handlers of a
    connection are exactly the requests in flight: their request identifiers are distinct
    and they are at most MaxInflight, so no identifier is handled twice at once and
    CancelNotify finds the handler. *)
Theorem inflight_bounded (n : net) (k : nat) (c : Connection) :
  net_reach n -> n_conns n !! k = Some c -> cn_cleared c = false ->
  (forall cid1 cid2 h1 h2, cn_handlers c !! cid1 = Some h1 -> cn_handlers c !! cid2 = Some h2 ->
     rq_RequestId (hg_request h1) = rq_RequestId (hg_request h2) -> cid1 = cid2) /\
  Z.of_nat (size (cn_handlers c)) <= op_MaxInflight options /\
  (forall cid h body, cn_handlers c !! cid = Some h -> cancel_Unmarshal body = Some (rq_RequestId (hg_request h)) ->
     rq_RequestId (hg_request h) <> 0 -> Connection_handleCancel body c = Some [cid]).
Proof.
  intros I%net_reach_ok Hk Hd. pose proof (net_conn_ok n k c I Hk) as [].
  destruct (co_inflight0 Hd) as [Hb Hs]. split_and!.
  - intros c1 c2 h1 h2 H1 H2 E. assert (cn_inflight c !! rq_RequestId (hg_request h1) = Some c1) by (apply Hb; by exists h1).
    assert (cn_inflight c !! rq_RequestId (hg_request h2) = Some c2) by (apply Hb; by exists h2). congruence.
  - etrans; [|exact Hs]. apply Nat2Z.inj_le. by apply (inflight_size (cn_handlers c) (cn_inflight c)).
  - intros cid h body Hh Hu Hne. unfold Connection_handleCancel. rewrite Hu, (proj2 (Z.eqb_neq _ _)) by done.
    assert (cn_inflight c !! rq_RequestId (hg_request h) = Some cid) as -> by (apply Hb; by exists h). done.
Qed.

(** Packets leave a connection in the order they were queued: the ones the writer has
    taken, followed by those waiting, are the ones queued; each was encoded by the
    connection's codec when it was taken, and at most WriteQueueSize wait. *)
Theorem write_queue_fifo (n : net) (k : nat) (c : Connection) :
  net_reach n -> n_conns n !! k = Some c ->
  cn_queued c = (cn_taken c).*1 ++ (ob_packet <$> cn_writeCh c) /\
  (forall p e, (p, e) ∈ cn_taken c -> e = PacketCodec_Encode (cn_codec options) p) /\
  Z.of_nat (length (cn_writeCh c)) <= Z.max 0 (op_WriteQueueSize options).
Proof.
  intros I%net_reach_ok Hk. pose proof (net_conn_ok n k c I Hk) as []. split_and!; [done| |done].
  intros p e Hin. rewrite list.Forall_forall in co_encoded0. apply (co_encoded0 (p, e) Hin).
Qed.

Lemma reach_Close_step k n : net_reach n -> net_reach (Close_step k n).
Proof.
  intros Hn. destruct (n_conns n !! k) as [c|] eqn:Hk; [|unfold Close_step; by rewrite Hk].
  pose proof (no_crash _ (net_reach_ok n Hn)) as Hc. destruct (cn_closing c) eqn:E.
  6: unfold Close_step; by rewrite Hk, E.
  1: apply (net_step _ _ n (NClose k)); [done|]; unfold Connection.exec_net, Close_begin; by rewrite Hc, Hk, E.
  all: apply (net_step _ _ n (NCloseStep k)); [done|]; unfold Connection.exec_net; by rewrite Hc, Hk, E.
Qed.

Lemma reach_Close k n : net_reach n -> net_reach (Connection_Close k n).
Proof. intros Hn. unfold Connection_Close. by do 5 apply reach_Close_step. Qed.

Lemma notified_idle k c n : n_conns n !! k = Some c -> cn_closing c = ClNotified ->
  Close_step k n = n /\ Close_begin k n = n.
Proof. intros Hk E. unfold Close_begin, Close_step. by rewrite Hk, E. Qed.

(** C7: Close is final and happens once. A call that goes on to its end leaves the
    connection closed, with the contexts that were in flight cancelled; a call whose steps
    are interleaved with anything can always go on. Once [done] is closed, only the packets
    of goroutines that had passed the test of [done] in [enqueue] before are still queued,
    each at most once ([late_packets]). Once Close has returned, OnDisconnect was started
    exactly once, no identifier and no user leads to the connection, closing again changes
    nothing, and whatever runs afterwards it stays so. *)
Theorem close_is_final (n : net) (k : nat) (c : Connection) :
  net_reach n -> n_conns n !! k = Some c ->
  (let n' := Connection_Close k n in net_reach n' /\ Connection_Close k n' = n' /\
   (cn_cleared c = false -> forall rid cancel, cn_inflight c !! rid = Some cancel -> cancel ∈ n_cancelled n') /\
   exists c', n_conns n' !! k = Some c' /\ cn_closing c' = ClNotified /\ cn_queued c' = cn_queued c) /\
  (cn_closing c <> ClOpen -> cn_closing c <> ClNotified -> exec_net (NCloseStep k) n = Some (Close_step k n)) /\
  (cn_done c = true -> forall l n', run_net codecs options l n = Some n' ->
     exists c' sent, n_conns n' !! k = Some c' /\ cn_done c' = true /\ cn_queued c' = cn_queued c ++ sent /\
       sent ++ late_packets k n' ⊆+ late_packets k n) /\
  (cn_closing c = ClNotified -> exec_net (NClose k) n = Some n /\
     forall l n', run_net codecs options l n = Some n' ->
       exists c', n_conns n' !! k = Some c' /\ cn_closing c' = ClNotified /\ cn_disconnects c' = 1%nat /\
         (forall id, Manager_Get id n' <> Some k) /\ forall uid, Manager_GetUID uid n' <> Some k).
Proof.
  intros Hn Hk. pose proof (net_reach_ok n Hn) as I. split_and!.
  - split; [by apply reach_Close|]. destruct (Close_done k c n Hk) as (c' & Hc' & Hd & _ & Hq & _). split_and!.
    + unfold Connection_Close at 1. by rewrite !(proj1 (notified_idle k c' _ Hc' Hd)).
    + intros Hopen rid cancel. by apply (Close_cancels k c).
    + by exists c'.
  - intros H1 H2. unfold Connection.exec_net. rewrite (no_crash _ I), Hk. by destruct (cn_closing c).
  - intros Hd l n' E. destruct (run_net_ok l n n' I E) as [_ F]. destruct (F k c Hk) as (c' & Hc' & R & L).
    destruct (L Hd) as (sent & E1 & S1). exists c', sent. split_and!; try done. by eapply rank_done.
  - intros Hd. split; [unfold Connection.exec_net; by rewrite (no_crash _ I), (proj2 (notified_idle k c n Hk Hd))|].
    intros l n' E. destruct (run_net_ok l n n' I E) as [I' F]. destruct (F k c Hk) as (c' & Hc' & R & _).
    rewrite Hd in R. apply rank_notified in R. exists c'. destruct (net_conn_ok n' k c' I' Hc'). split_and!; try done.
    + by rewrite co_once0, R.
    + apply (removed_unindexed n' k c' I' Hc'). unfold cn_removed. by rewrite R.
    + apply (removed_unindexed n' k c' I' Hc'). unfold cn_removed. by rewrite R.
Qed.

(** C11: The manager's indexes agree with the connections. GetUID answers exactly the
    connection whose session is bound to that user and that Close has not yet removed, so
    no user has two connections; Get answers exactly the connection of that identifier that
    Close has not yet removed. A connection whose Close has begun is answered until Close
    removes it, its last step but one, after the state, [done] and the transport are
    closed. *)
Theorem manager_index_sound (n : net) : net_reach n ->
  (forall uid k, Manager_GetUID uid n = Some k <->
     0 < uid /\ exists c, n_conns n !! k = Some c /\ cn_removed c = false /\ Connection_UID c = uid) /\
  (forall id k, Manager_Get id n = Some k <->
     exists c, n_conns n !! k = Some c /\ cn_removed c = false /\ cn_id c = id).
Proof.
  intros I%net_reach_ok. split.
  - intros uid k. unfold Manager_GetUID. split.
    + destruct (cm_byUID (n_manager n) !! uid) as [id|] eqn:Eu; [|done]. intros Hk.
      destruct (no_uid _ I uid id Eu) as (Hp & j & c & Hj & Hc & Hu). assert (j = k) as -> by congruence.
      split; [done|]. exists c. destruct (no_index _ I id k Hk) as (_ & d & Hd & _ & Hdn). split_and!; try done. congruence.
    + intros (Hp & c & Hk & Hd & <-). rewrite (no_bound _ I k c Hk Hd Hp). by apply (no_open _ I).
  - intros id k. unfold Manager_Get. split.
    + intros Hk. destruct (no_index _ I id k Hk) as (_ & c & H1 & H2 & H3). by exists c.
    + intros (c & Hk & Hd & <-). by apply (no_open _ I).
Qed.

(** Stopping the component leaves no connection open: after OnBeforeStop the index is
    empty, and every connection has been closed and removed. *)
Theorem OnBeforeStop_closes_all (acks : nat -> option str) (n : net) : net_reach n ->
  let n' := Component_OnBeforeStop options acks n in
  cm_connections (n_manager n') = ∅ /\ (forall uid, Manager_GetUID uid n' = None) /\
  forall k c, n_conns n' !! k = Some c -> cn_removed c = true.
Proof.
  intros I%net_reach_ok n'. unfold n', Component_OnBeforeStop.
  set (l := Manager_Snapshot n). destruct (fold_terminals acks l n I) as (I1 & F1 & D1). simpl in *.
  set (n1 := foldl _ n l) in *. destruct (fold_close l n1 I1) as (I2 & F2 & D2 & H2). simpl in *.
  set (n2 := foldl _ n1 l) in *.
  assert (Hall : forall k c, n_conns n2 !! k = Some c -> cn_removed c = true).
  { intros k c Hk. assert (is_Some (n_conns n !! k)) as [d Hd].
    { apply elem_of_dom. rewrite <- D1, <- D2. apply elem_of_dom. by eexists. }
    assert (is_Some (n_conns n1 !! k)) as [d1 Hd1] by (apply elem_of_dom; rewrite <- D2; apply elem_of_dom; by eexists).
    destruct (cn_removed d) eqn:Ed.
    - destruct (closes_trans n n1 n2 F1 F2 k d Hd) as (y & Hy & R). assert (y = c) as -> by congruence. by eapply rank_removed.
    - destruct (H2 k d1) as (x & Hx & Dx); [|done|assert (x = c) as -> by congruence; unfold cn_removed; by rewrite Dx].
      unfold l, Manager_Snapshot. apply list_elem_of_fmap. exists (cn_id d, k). split; [done|].
      apply elem_of_map_to_list. by apply (no_open _ I). }
  assert (Hempty : cm_connections (n_manager n2) = ∅).
  { apply map_empty. intros id. destruct (cm_connections (n_manager n2) !! id) as [k|] eqn:E; [|done].
    destruct (no_index _ I2 id k E) as (_ & c & Hc & _ & Hd). rewrite (Hall k c Hc) in Hd. done. }
  split_and!; [done| |done].
  intros uid. unfold Manager_GetUID. rewrite Hempty. destruct (_ !! uid); [apply lookup_empty|done].
Qed.
End Inv.

(** ** A run used by the examples

    Control messages of one byte: a handshake offers the version its byte says, a cancel
    names the request its byte says. A client connects, negotiates, is bound to the user
    42 and sends the request 7 for the method 100, whose handler is then running. *)

Definition toy_control : ControlProto := {|
  handshake_Unmarshal b := match b with [v] => Some [byte_val v] | _ => None end;
  handshake_Marshal _ := Some [Byte.x68];
  heartbeat_Unmarshal b := match b with [v] => Some (byte_val v) | _ => None end;
  heartbeat_Marshal a b := Some [byte_of a; byte_of b];
  cancel_Unmarshal b := match b with [v] => Some (byte_val v) | _ => None end;
  kick_Marshal code _ _ := Some [byte_of code];
  goaway_Marshal code _ := Some [byte_of code] |}.

#[local] Existing Instance toy_proto.
#[local] Existing Instance toy_control.

Definition demo_options : Options := New_options [].
Definition enc (p : Packet) : bytes :=
  match PacketCodec_Encode (cn_codec demo_options) p with inr d => d | inl _ => [] end.
Definition request_packet (rid method : Z) (body : bytes) : Packet :=
  mkPacket (Some (Packet_Request (Some (mkRequest rid method 0 body)))) None CodecProtobuf.

Definition demo_net_run : list net_action :=
  [NAccept 0 "c1" "10.0.0.9" true; NStart 0 0;
   NRead 0 0 (Some (enc (request_packet 1 SystemMethodHandshake [Byte.x01]))); NHandshake 0 0; NSend 0; NSend 0;
   NBind "c1" 42 None; NRead 0 0 (Some (enc (request_packet 7 100 [Byte.x61]))); NReserve 0; NWrite 0 false].
Definition demo_net : net := default fresh_net (run_net std_registry demo_options demo_net_run fresh_net).

Lemma net_reach_default codecs options l n : net_reach codecs options n ->
  match run_net codecs options l n with Some _ => true | None => false end = true ->
  net_reach codecs options (default n (run_net codecs options l n)).
Proof.
  intros Hn E. destruct (run_net codecs options l n) as [n'|] eqn:Er; [|done]. by eapply net_reach_run.
Qed.

Lemma demo_net_reach : net_reach std_registry demo_options demo_net.
Proof. apply net_reach_default; [apply net_init|]. vm_compute. reflexivity. Defined.

(** A test of one connection of a net, for evaluating runs. *)
Definition conn_test (k : nat) (n : net) (f : Connection -> bool) : bool :=
  match n_conns n !! k with Some c => f c | None => false end.
Lemma conn_test_at k n f : conn_test k n f = true -> exists c, n_conns n !! k = Some c /\ f c = true.
Proof. unfold conn_test. destruct (n_conns n !! k) as [c|]; [eauto|done]. Qed.

Lemma demo_conn : exists c, n_conns demo_net !! 0%nat = Some c /\ cn_cleared c = false /\
  length (cn_dispatched c) = 1%nat /\ length (cn_taken c) = 1%nat /\ size (cn_handlers c) = 1%nat /\
  Connection_UID c = 42.
Proof.
  destruct (conn_test_at 0 demo_net (fun c => negb (cn_cleared c) && ((Connection_UID c =? 42)
    && (Nat.eqb (length (cn_dispatched c)) 1 && (Nat.eqb (length (cn_taken c)) 1 && Nat.eqb (size (cn_handlers c)) 1)))))
    as (c & Hc & Hf); [vm_compute; reflexivity|].
  exists c. breflect. repeat match goal with E : Nat.eqb _ _ = true |- _ => apply Nat.eqb_eq in E end.
  by split_and!.
Qed.

Lemma demo_max : 0 <= op_MaxInflight demo_options.
Proof. vm_compute. discriminate. Qed.

Lemma handshake_gates_dispatch_witness :
  net_reach std_registry demo_options demo_net /\
  exists c, n_conns demo_net !! 0%nat = Some c /\ length (cn_dispatched c) = 1%nat /\ cn_handshaken c = true.
Proof.
  split; [exact demo_net_reach|]. destruct demo_conn as (c & Hc & _ & Hl & _). exists c. split; [done|]. split; [done|].
  destruct (handshake_gates_dispatch std_registry demo_options demo_max demo_net demo_net_reach) as [_ Hg].
  apply (Hg 0%nat c Hc). left. by destruct (cn_dispatched c).
Defined.

Lemma inflight_bounded_witness :
  exists c, n_conns demo_net !! 0%nat = Some c /\ cn_cleared c = false /\ size (cn_handlers c) = 1%nat /\
    Z.of_nat (size (cn_handlers c)) <= 128.
Proof.
  destruct demo_conn as (c & Hc & Hd & _ & _ & Hs & _).
  exists c. split; [done|]. split; [done|]. split; [done|].
  apply (inflight_bounded std_registry demo_options demo_max demo_net 0 c demo_net_reach Hc Hd).
Defined.

Lemma write_queue_fifo_witness :
  exists c, n_conns demo_net !! 0%nat = Some c /\ length (cn_taken c) = 1%nat /\
    cn_queued c = (cn_taken c).*1 ++ (ob_packet <$> cn_writeCh c).
Proof.
  destruct demo_conn as (c & Hc & _ & _ & Ht & _).
  exists c. split; [done|]. split; [done|].
  apply (write_queue_fifo std_registry demo_options demo_max demo_net 0 c demo_net_reach Hc).
Defined.

Lemma close_is_final_witness :
  exists c, n_conns demo_net !! 0%nat = Some c /\ cn_cleared c = false /\
    Connection_Close 0 (Connection_Close 0 demo_net) = Connection_Close 0 demo_net /\
    forall l n', run_net std_registry demo_options l (Connection_Close 0 demo_net) = Some n' ->
      exists c', n_conns n' !! 0%nat = Some c' /\ cn_disconnects c' = 1%nat.
Proof.
  destruct demo_conn as (c & Hc & Hd & _). exists c. split; [done|]. split; [done|].
  destruct (close_is_final std_registry demo_options demo_max demo_net 0 c demo_net_reach Hc)
    as ((Hn & H1 & _ & c' & Hc' & Hd' & _) & _). split; [exact H1|]. intros l n' E.
  destruct (close_is_final std_registry demo_options demo_max (Connection_Close 0 demo_net) 0 c' Hn Hc')
    as (_ & _ & _ & Hf). destruct (proj2 (Hf Hd') l n' E) as (d & ? & _ & ? & _).
  exists d. split; assumption.
Defined.

Lemma manager_index_sound_witness :
  net_reach std_registry demo_options demo_net /\ Manager_GetUID 42 demo_net = Some 0%nat.
Proof.
  split; [exact demo_net_reach|]. destruct demo_conn as (c & Hc & Hd & _ & _ & _ & Hu).
  apply (proj1 (manager_index_sound std_registry demo_options demo_max demo_net demo_net_reach)). split; [done|]. exists c. split; [done|].
  split; [|done]. unfold cn_cleared, cn_removed in *. by destruct (cn_closing c).
Defined.

Lemma OnBeforeStop_closes_all_witness :
  net_reach std_registry demo_options demo_net /\
  cm_connections (n_manager (Component_OnBeforeStop demo_options (fun _ => None) demo_net)) = ∅.
Proof.
  split; [exact demo_net_reach|].
  apply (OnBeforeStop_closes_all std_registry demo_options demo_max (fun _ => None) demo_net demo_net_reach).
Defined.

(** [Close] between the negotiation and the store of Ready: the connection is closed and
    no longer indexed, yet reports Ready, and Notify blames a full queue. *)
Definition revived_net : net := default fresh_net (run_net std_registry demo_options
  [NAccept 0 "c1" "10.0.0.9" true; NStart 0 0;
   NRead 0 0 (Some (enc (request_packet 1 SystemMethodHandshake [Byte.x01])));
   NClose 0; NCloseStep 0; NCloseStep 0; NCloseStep 0; NCloseStep 0; NHandshake 0 0] fresh_net).

Lemma closed_reports_ready :
  net_reach std_registry demo_options revived_net /\
  (exists c, n_conns revived_net !! 0%nat = Some c /\
     bool_decide (cn_closing c = ClNotified) && bool_decide (cn_state c = ConnectionReady)
     && match (Connection_Notify std_registry demo_options 100 (PBytes []) c).1 with
        | Err e => String.eqb e "actorgo agp: connection write queue is full" | Ok _ => false end = true) /\
  Manager_Get "c1" revived_net = None.
Proof.
  split; [apply net_reach_default; [apply net_init|vm_compute; reflexivity]|].
  split; [apply conn_test_at; vm_compute; reflexivity|vm_compute; reflexivity].
Qed.

(** [Close] up to the manager's Remove: [done] and the transport are closed, and the
    identifier and the user still lead to the connection. *)
Definition closing_net : net := default demo_net (run_net std_registry demo_options
  [NClose 0; NCloseStep 0; NCloseStep 0] demo_net).

Lemma closing_still_indexed :
  net_reach std_registry demo_options closing_net /\
  (exists c, n_conns closing_net !! 0%nat = Some c /\
     cn_done c && bool_decide (cn_state c = ConnectionClosed) = true) /\
  Manager_Get "c1" closing_net = Some 0%nat /\ Manager_GetUID 42 closing_net = Some 0%nat.
Proof.
  split; [apply net_reach_default; [exact demo_net_reach|vm_compute; reflexivity]|].
  split; [apply conn_test_at; vm_compute; reflexivity|]. split; vm_compute; reflexivity.
Qed.

(** The handler of the request 7 has passed the test of [done] when Close runs: its
    response is queued on the closed connection, and nobody writes it. *)
Definition late_net : net := default demo_net (run_net std_registry demo_options
  [NAnswer 0 0 None; NSendAnswer 0 0; NClose 0; NCloseStep 0; NCloseStep 0; NCloseStep 0; NCloseStep 0;
   NSendAnswer 0 0; NWriterDone 0] demo_net).

Lemma closed_queues_late_response :
  net_reach std_registry demo_options late_net /\
  exists c, n_conns late_net !! 0%nat = Some c /\
    bool_decide (cn_closing c = ClNotified) && negb (cn_writer c) && Nat.eqb (length (cn_writeCh c)) 1 = true.
Proof.
  split; [apply net_reach_default; [exact demo_net_reach|vm_compute; reflexivity]|].
  apply conn_test_at; vm_compute; reflexivity.
Qed.
