(* ===== verification/Routing.v ===== *)
(** What callers of the actor system can rely on: every call ends by its deadline, a call
    of a local actor gets the answer of its method, an event reaches its subscribers. *)
From S2P Require Import Prelude Strconv Facade Context Queue Serializer Method Actor ActorSystem Steps Delivery Lifecycle.

(** ** Deadlines of calls *)

Definition deadline_of (c : RequestContext) : option Z := c_deadline (rc_gctx c).

Lemma ensure_some app ctx c : ensureRequestContext app ctx = Some c -> exists g, rc_Context c = Some g /\
  deadline_of c = match ctx with Some x => c_deadline (default Background (rc_Context x)) | None => None end.
Proof.
  unfold ensureRequestContext, deadline_of, rc_gctx. destruct ctx as [x|]; simpl.
  - destruct (rc_Codec x =? 0).
    + destruct (app ≫= app_BodyCodecs); [|done]. intros [= <-]. simpl. destruct (rc_Context x); by eexists.
    + intros [= <-]. simpl. destruct (rc_Context x); by eexists.
  - destruct (app ≫= app_BodyCodecs); [|done]. intros [= <-]. by eexists.
Qed.

(** What a caller's deadline becomes. *)
Definition effective_deadline (now : Z) (s : System) (c : RequestContext) : Z :=
  match deadline_of c with Some d => d | None => now + sys_callTimeout s end.

Lemma newInvokeContext_deadline now cancelled ctx s c : System_newInvokeContext now cancelled (Some ctx) s = Some (inl c) ->
  deadline_of c = Some (effective_deadline now s ctx) /\ is_Some (rc_Context c).
Proof.
  unfold System_newInvokeContext. destruct (ensureRequestContext (sys_app s) (Some ctx)) as [src|] eqn:E; [|done].
  apply ensure_some in E as (g & Hg & Hd). destruct (rc_Err now cancelled src); [done|].
  unfold effective_deadline, deadline_of, rc_gctx in *. rewrite Hg in *. simpl in *.
  destruct (c_deadline g) as [d|] eqn:Ed; intros [= <-]; simpl; rewrite <- Hd.
  - unfold WithCancel. rewrite Ed. split; [done|by eexists].
  - unfold WithTimeout, WithDeadline. rewrite Ed. split; [done|by eexists].
Qed.

Lemma ctx_Err_expired now cancelled g d : c_deadline g = Some d -> d <= now -> is_Some (ctx_Err now cancelled g).
Proof.
  intros Hd Hn. unfold ctx_Err. rewrite Hd. destruct (c_err g); [by eexists|].
  rewrite (proj2 (Z.leb_le _ _) Hn). by eexists.
Qed.

Lemma InvokeChild_deadline aid now cancelled ctx child methodID p answer s s' id c :
  Actor_InvokeChild aid now cancelled (Some ctx) child methodID p answer s = Some (s', Waiting id c) ->
  deadline_of c = Some (effective_deadline now s ctx) /\ is_Some (rc_Context c).
Proof.
  unfold Actor_InvokeChild. destruct (methodID =? 0); [done|]. destruct (String.eqb child EmptyString); [done|].
  destruct (sys_actors s !! aid) as [a|]; [|done].
  destruct (ensureRequestContext (sys_app s) (Some ctx)) as [e|] eqn:Ee; [|done].
  destruct (System_newInvokeContext now cancelled (Some e) s) as [[ic|f]|] eqn:En; [|done..].
  cbn [new_message]. destruct (Actor_findChildActor a _ answer) as [[ch|]|]; [|done..].
  destruct (push_to ch _ _ _) as [s1|]; [|done]. intros [= <- <- <-].
  apply newInvokeContext_deadline in En as [En Hs]. split; [|done]. rewrite En. unfold effective_deadline.
  apply ensure_some in Ee as (g & _ & Hd). rewrite Hd. done.
Qed.

(** A wait ends when the result is there. *)
Lemma await_ready id c now cancelled prefer s r : (Z.of_nat id, r) ∈ sys_results s ->
  is_Some (await_result id c now cancelled prefer s).
Proof.
  intros Hin. unfold await_result.
  destruct (list_find_elem_of (fun kv => kv.1 = Z.of_nat id) (sys_results s) (Z.of_nat id, r) Hin eq_refl) as [[i x] ->].
  simpl. destruct (rc_Err now cancelled c); by eexists.
Qed.

(** Past its deadline a wait ends. *)
Lemma await_expired c d id now cancelled prefer s : deadline_of c = Some d -> d <= now ->
  is_Some (await_result id c now cancelled prefer s).
Proof.
  intros Hd Hn. unfold deadline_of, rc_gctx in Hd. unfold await_result, rc_Err. destruct (rc_Context c) as [g|]; [|done].
  destruct (ctx_Err_expired now cancelled g d Hd Hn) as [e ->]. destruct (snd <$> _); by eexists.
Qed.

(** C15: No call waits for ever. Whatever context the caller brings, a call that is left
    waiting waits under a context with a deadline (the caller's own, or the system's call
    timeout from now), and once that has passed the wait ends with a result whatever the
    actor does; before it, it ends when the result arrives. *)
Theorem call_never_hangs (v : callenv) (ctx : RequestContext) (target : str) (methodID : Z) (p : payload)
    (s s' : System) (id : nat) (c : RequestContext) :
  System_InvokeTarget v (Some ctx) target methodID p s = Some (s', Waiting id c) ->
  let d := effective_deadline (ce_now v) s ctx in
  deadline_of c = Some d /\
  (forall now cancelled prefer s'', d <= now -> is_Some (await_result id c now cancelled prefer s'')) /\
  (forall now cancelled prefer s'' r, (Z.of_nat id, r) ∈ sys_results s'' -> is_Some (await_result id c now cancelled prefer s'')).
Proof.
  intros H d. assert (Hd : deadline_of c = Some d /\ is_Some (rc_Context c)).
  { revert H. unfold System_InvokeTarget. destruct (System_prepareTyped target methodID) as [tp|f]; [|done].
    destruct (ensureRequestContext (sys_app s) (Some ctx)) as [e|] eqn:Ee; [|done].
    assert (Hed : effective_deadline (ce_now v) s e = d).
    { apply ensure_some in Ee as (g & _ & Hd). unfold effective_deadline. rewrite Hd. done. }
    destruct (negb _ && negb _).
    { by destruct (System_invokeRemote _ _ _ _ _ _ _ _ _ _ _) as [[]|]. }
    destruct (ActorPath_IsChild (Some tp)).
    { destruct (System_GetActor (ActorID tp) s) as [parent|]; [|done]. intros H%InvokeChild_deadline. by rewrite <- Hed. }
    destruct (System_newInvokeContext (ce_now v) (ce_cancelled v) (Some e) s) as [[ic|f]|] eqn:En; [|done..].
    cbn [new_message]. destruct (System_post _ _ _) as [[s1 []]|]; [|done..]. intros [= <- <- <-].
    apply newInvokeContext_deadline in En. by rewrite <- Hed. }
  destruct Hd as [Hd _]. by split_and!; [|intros; eapply await_expired|intros; eapply await_ready].
Qed.

Definition demo_ready : world := default demo_world (wrun demo_create demo_world).
Lemma demo_ready_reach : wreach demo_app (Some (NewTable true)) demo_ready.
Proof. apply wreach_default; [apply wreach_init|]. vm_compute. reflexivity. Defined.

(** A caller without a deadline. *)
Definition bare_ctx : RequestContext := mkRequestContext None 0 TransportUnknown 0 None None.
Definition demo_env : callenv := mkCallenv 100 false 0 0 false None.

Lemma call_never_hangs_witness : exists s' id c,
  System_InvokeTarget demo_env (Some bare_ctx) "n1.player" 100 PNil (w_sys demo_ready) = Some (s', Waiting id c) /\
  deadline_of c = Some (100 + sys_callTimeout (w_sys demo_ready)).
Proof.
  destruct (System_InvokeTarget demo_env (Some bare_ctx) "n1.player" 100 PNil (w_sys demo_ready)) as [[s' [r|id c]]|] eqn:E.
  2: { exists s', id, c. split; [done|].
       apply (call_never_hangs demo_env bare_ctx "n1.player" 100 PNil (w_sys demo_ready) s' id c E). }
  all: assert (F : match System_InvokeTarget demo_env (Some bare_ctx) "n1.player" 100 PNil (w_sys demo_ready) with
                   | Some (_, Waiting _ _) => true | _ => false end = true) by (vm_compute; reflexivity);
       rewrite E in F; discriminate.
Defined.

(** ** A local call, end to end *)

(** The pushes under way add themselves: the queue and what it has to offer, after [n]. *)
Fixpoint counted_run (aid : nat) (n : nat) : list action :=
  match n with O => [] | S n => ACounted aid QMail :: counted_run aid n end.

Lemma counted_all aid n w a : w_crashed w = false -> actor_at aid w = Some a ->
  n = aq_pend (mb_queue (ac_mail a)) -> aq_ok (mb_queue (ac_mail a)) -> aq_closed (mb_queue (ac_mail a)) = false ->
  exists q, aq_ok q /\ aq_closed q = false /\ aq_pend q = 0%nat /\ aq_items q = aq_items (mb_queue (ac_mail a)) /\
    wrun (counted_run aid n) w =
    Some (with_sys (set_actor aid (set_mail (mkMailbox q (mb_methodMap (ac_mail a))) a) (w_sys w)) w).
Proof.
  revert w a. induction n as [|n IH]; intros w a Hcr Ha Hn Hq Hc.
  - exists (mb_queue (ac_mail a)). split_and!; try done. simpl. f_equal.
    replace (set_mail _ a) with a by (by destruct a as []; simpl; f_equal; by destruct ac_mail).
    unfold set_actor, actor_at in *. rewrite insert_id by done. by destruct w as [[]].
  - destruct (aq_counted (mb_queue (ac_mail a))) as [q|] eqn:E; [|unfold aq_counted in E; by rewrite <- Hn in E].
    pose proof (aq_counted_ok _ _ Hq E) as Hq1. pose proof (aq_counted_inv _ _ E) as [Hi1 Hc1].
    set (a1 := set_mail (mkMailbox q (mb_methodMap (ac_mail a))) a).
    set (w1 := with_sys (set_actor aid a1 (w_sys w)) w).
    assert (S1 : exec (ACounted aid QMail) w = Some w1).
    { unfold exec. rewrite Hcr, Ha. simpl. by rewrite E. }
    destruct (IH w1 a1) as (q2 & H1 & H2 & H3 & H4 & H5); try done.
    + unfold actor_at. simpl. by rewrite lookup_insert_eq.
    + unfold a1. simpl. unfold aq_counted in E. rewrite <- Hn in E. by injection E as <-.
    + simpl. by rewrite Hc1.
    + exists q2. split_and!; try done; [by rewrite H4|]. simpl wrun. rewrite S1. simpl. rewrite H5. simpl.
      f_equal. unfold w1, with_sys, set_actor, with_actors. simpl. by rewrite insert_insert_eq.
Qed.

(** Pushing onto an empty queue whose pushes have all added themselves, and taking the
    message. *)
Lemma aq_single {A} (q : aqueue A) v : aq_ok q -> aq_closed q = false -> aq_pend q = 0%nat -> aq_items q = [] ->
  exists q1 q2 q3 q4 q5, aq_swap v q = Some q1 /\ aq_counted q1 = Some q2 /\ aq_sent 0 q2 = Some (q3, false) /\
    aq_recv q3 = Some q4 /\ aq_Pop q4 = Some (Some v, q5).
Proof.
  intros Hq Hc Hp Hi. destruct (Hq Hc) as [Hn _]. rewrite Hi, Hp in Hn. simpl in Hn. change (i32 (0 - 0)) with 0 in Hn.
  unfold aq_swap, aq_counted, aq_sent, aq_recv, aq_Pop. rewrite Hc, Hi, Hn, Hp. simpl. change (i32 (0 + 1)) with 1.
  eexists _, _, _, _, _. split; [done|]. simpl. split; [done|]. simpl. split; [done|]. simpl.
  unfold send_if. simpl. destruct (aq_C q); simpl; by split_and!.
Qed.

(** The run of a call from the caller to the result, the method's outcome included: pushes
    of others under way reach the counter, the caller pushes, the actor takes the message. *)
Definition call_run (aid : nat) (a : Actor) (ctx : RequestContext) (target : str) (methodID : Z) (p : payload) (now : Z)
    (finish : list action) : list action :=
  counted_run aid (aq_pend (mb_queue (ac_mail a))) ++
  [AInvoke false ctx target methodID p; APush 0; ACounted aid QMail; ASent aid QMail 0 true;
   ALoop aid (LMail now false)] ++ finish.

(** The return of the registered method, when the message comes to call it: the value the
    method computes on the decoded payload. *)
Definition method_returns (aid : nat) (codecs : option Registry) (now : Z) (m : Message) (mail : mailbox) : list action :=
  match invokeTyped_start codecs now false m mail with
  | Call e ctx p => [AReturn aid (me_invoke e (Some ctx) p)]
  | _ => []
  end.

(** The call when no push into the mailbox has yet to reach its counter. *)
Lemma call_settled (w : world) (path : ActorPath) (aid : nat) (a : Actor) (ctx : RequestContext) (target : str)
    (methodID : Z) (p : payload) (now : Z) (r : InvokeResult) :
  w_crashed w = false -> methodID <> 0 -> ToActorPath target = Ok path -> ChildID path = EmptyString ->
  System_GetActor (ActorID path) (w_sys w) = Some aid -> actor_at aid w = Some a ->
  ac_phase a = PhLoop -> ac_state a = WorkerState -> aq_items (mb_queue (ac_mail a)) = [] ->
  aq_ok (mb_queue (ac_mail a)) -> aq_closed (mb_queue (ac_mail a)) = false -> aq_pend (mb_queue (ac_mail a)) = 0%nat ->
  let codecs := sys_app (w_sys w) ≫= app_BodyCodecs in
  let m := mkMessage methodID target (Some path) (Some ctx) p (Some (Z.of_nat (sys_nextMsg (w_sys w)))) None in
  invokeTyped codecs now false m (ac_mail a) = Some r ->
  exists w', wrun ([AInvoke false ctx target methodID p; APush 0; ACounted aid QMail; ASent aid QMail 0 true;
    ALoop aid (LMail now false)] ++ method_returns aid codecs now m (ac_mail a)) w = Some w' /\
    (Z.of_nat (sys_nextMsg (w_sys w)), r) ∈ sys_results (w_sys w').
Proof.
  intros Hcr Hm Hpath Hchild Hget Ha Hph Hst Hitems Hok Hmo Hpe codecs m Hr.
  set (id := sys_nextMsg (w_sys w)) in *.
  set (m0 := mkMessage methodID target None (Some ctx) p (Some (Z.of_nat id)) None).
  destruct (aq_single (mb_queue (ac_mail a)) (id, m0) Hok Hmo Hpe Hitems) as (q1 & q2 & q3 & q4 & q5 & E1 & E2 & E3 & E4 & E5).
  set (at_ q := set_mail (mkMailbox q (mb_methodMap (ac_mail a))) a).
  set (w1 := add_posting (aid, (id, m0)) (add_call id (with_sys (bump_msg (w_sys w)) w))).
  set (w_ q := with_sys (set_actor aid (at_ q) (bump_msg (w_sys w))) (with_posting (w_posting w) w1)).
  assert (Hins : forall q q', with_sys (set_actor aid (at_ q') (w_sys (w_ q))) (w_ q) = w_ q').
  { intros q q'. unfold w_, with_sys, set_actor, with_actors. simpl. by rewrite insert_insert_eq. }
  assert (Hat : forall q, actor_at aid (w_ q) = Some (at_ q)) by (intros q; unfold actor_at; simpl; by rewrite lookup_insert_eq).
  assert (S1 : exec (AInvoke false ctx target methodID p) w = Some w1).
  { unfold exec. rewrite Hcr. unfold exec_invoke. rewrite new_message_spec. unfold mark_call.
    unfold System_post_check, Message_TargetPath. simpl. rewrite Hpath. simpl. unfold System_GetActor in *. simpl.
    rewrite Hget. unfold actor_at in Ha. simpl. rewrite Ha, Hst. done. }
  assert (S2 : exec (APush 0) w1 = Some (w_ q1)).
  { unfold exec. simpl. rewrite Hcr. unfold exec_push. simpl. unfold swap_to. simpl. unfold actor_at in Ha. rewrite Ha.
    unfold Actor_post_swap, mailbox_swap. rewrite E1. done. }
  assert (S3 : exec (ACounted aid QMail) (w_ q1) = Some (w_ q2)).
  { unfold exec. replace (w_crashed (w_ q1)) with false by done. rewrite Hat. simpl. rewrite E2. simpl. by rewrite <- (Hins q1 q2). }
  assert (S4 : exec (ASent aid QMail 0 true) (w_ q2) = Some (w_ q3)).
  { unfold exec. replace (w_crashed (w_ q2)) with false by done. rewrite Hat. simpl. rewrite E3. simpl. by rewrite <- (Hins q2 q3). }
  set (a2 := set_lastAt (now / 1000000000) (set_mail (mkMailbox q5 (mb_methodMap (ac_mail a))) (at_ q3))).
  assert (S5 : exec (ALoop aid (LMail now false)) (w_ q3) = Some (Actor_invokeTyped aid a2 now false id m (w_ q3))).
  { unfold exec. replace (w_crashed (w_ q3)) with false by done. rewrite Hat. replace (ac_phase (at_ q3)) with PhLoop by done.
    unfold Actor_loop. replace (loop_done (at_ q3)) with false by (unfold loop_done; simpl; by rewrite Hst).
    unfold Actor_processMail. simpl ac_mail. simpl mb_queue. rewrite E4. unfold mailbox_Pop. simpl mb_queue.
    rewrite E5. simpl m_MethodID. rewrite (proj2 (Z.eqb_neq _ _)) by done.
    unfold Actor_processTyped, Message_TargetPath. simpl m_targetPath. simpl m_Target. rewrite Hpath.
    unfold ActorPath_IsChild at 1. rewrite Hchild. done. }
  unfold invokeTyped in Hr. unfold method_returns. rewrite wrun_app.
  simpl wrun. rewrite S1. simpl. rewrite S2. simpl. rewrite S3. simpl. rewrite S4. simpl. rewrite S5. simpl.
  unfold Actor_invokeTyped.
  change (invokeTyped_start (sys_app (w_sys (w_ q3)) ≫= app_BodyCodecs) now false m (ac_mail a2))
    with (invokeTyped_start codecs now false m (ac_mail a)).
  destruct (invokeTyped_start codecs now false m (ac_mail a)) as [r'|e c q|] eqn:Es; [| |done].
  - injection Hr as ->. eexists. split; [done|]. simpl. apply list_elem_of_here.
  - injection Hr as <-. eexists. split.
    + unfold wrun, exec. simpl. rewrite Hcr. unfold actor_at. simpl. rewrite lookup_insert_eq. simpl. done.
    + simpl. apply list_elem_of_here.
Qed.

(** C16: A call of a method of a local actor gets that method's answer. In any run, when
    the target is an idle actor that is serving, its caller's message goes through the
    mailbox to the actor's goroutine and the result in the caller's channel is that of
    [invokeTyped], the decoded payload applied to the registered method (or the failure of
    the deadline, the lookup or the decoding). *)
Theorem local_call_answers (app : App) (table : option Table) (w : world) (path : ActorPath) (aid : nat) (a : Actor)
    (ctx : RequestContext) (target : str) (methodID : Z) (p : payload) (now : Z) (r : InvokeResult) :
  empty_table table -> wreach app table w -> w_crashed w = false -> methodID <> 0 ->
  ToActorPath target = Ok path -> ChildID path = EmptyString ->
  System_GetActor (ActorID path) (w_sys w) = Some aid -> actor_at aid w = Some a ->
  ac_phase a = PhLoop -> ac_state a = WorkerState -> aq_items (mb_queue (ac_mail a)) = [] ->
  let codecs := sys_app (w_sys w) ≫= app_BodyCodecs in
  let m := mkMessage methodID target (Some path) (Some ctx) p (Some (Z.of_nat (sys_nextMsg (w_sys w)))) None in
  invokeTyped codecs now false m (ac_mail a) = Some r ->
  exists w', wrun (call_run aid a ctx target methodID p now (method_returns aid codecs now m (ac_mail a))) w = Some w' /\
    (Z.of_nat (sys_nextMsg (w_sys w)), r) ∈ sys_results (w_sys w').
Proof.
  intros Ht Hw Hcr Hm Hpath Hchild Hget Ha Hph Hst Hitems codecs m Hr.
  pose proof (wreach_life app table w Ht Hw) as I. pose proof (life_at _ aid a I Ha) as [].
  destruct ao_open as [Hmo _]; [by rewrite Hph|].
  destruct (counted_all aid _ w a Hcr Ha eq_refl ao_mail_ok Hmo) as (q & Hq & Hqc & Hqp & Hqi & E).
  unfold call_run. rewrite wrun_app, E.
  set (a0 := set_mail (mkMailbox q (mb_methodMap (ac_mail a))) a).
  set (w0 := with_sys (set_actor aid a0 (w_sys w)) w).
  assert (Ha0 : actor_at aid w0 = Some a0) by (unfold actor_at; simpl; by rewrite lookup_insert_eq).
  assert (Hi0 : aq_items (mb_queue (ac_mail a0)) = []) by (simpl; by rewrite Hqi).
  exact (call_settled w0 path aid a0 ctx target methodID p now r Hcr Hm Hpath Hchild Hget Ha0 Hph Hst Hi0 Hq Hqc Hqp Hr).
Qed.

Definition ready_actor (a : Actor) : bool :=
  is_loop a && (bool_decide (ac_state a = WorkerState) && Nat.eqb (length (aq_items (mb_queue (ac_mail a)))) 0).

Definition demo_message : Message :=
  mkMessage 100 "n1.player" (Some (mkActorPath "n1" "player" "")) (Some demo_call) (PBytes [Byte.x61]) (Some 0) None.

(** What the method computes for the demo call. *)
Definition demo_result (a : Actor) : option InvokeResult :=
  invokeTyped (sys_app (w_sys demo_ready) ≫= app_BodyCodecs) 2000 false demo_message (ac_mail a).

Lemma local_call_answers_witness : exists acts w' r, wrun acts demo_ready = Some w' /\
  r_Code r = 0 /\ (0, r) ∈ sys_results (w_sys w').
Proof.
  destruct (actor_test_at 0 demo_ready (fun a => ready_actor a &&
    match demo_result a with Some r => r_Code r =? 0 | None => false end)) as (a & Ha & Hf); [vm_compute; reflexivity|].
  apply andb_true_iff in Hf as [Hready Hr]. apply andb_true_iff in Hready as [Hloop Hq].
  apply andb_true_iff in Hq as [Hw Hq]. apply bool_decide_eq_true in Hw. apply Nat.eqb_eq in Hq.
  destruct (demo_result a) as [r|] eqn:Er; [|done]. apply Z.eqb_eq in Hr.
  destruct (local_call_answers demo_app (Some (NewTable true)) demo_ready (mkActorPath "n1" "player" "") 0 a demo_call
    "n1.player" 100 (PBytes [Byte.x61]) 2000 r eq_refl demo_ready_reach) as (w' & E & Hin).
  - vm_compute. reflexivity.
  - discriminate.
  - vm_compute. reflexivity.
  - reflexivity.
  - vm_compute. reflexivity.
  - exact Ha.
  - exact (is_loop_phase a Hloop).
  - exact Hw.
  - by destruct (aq_items (mb_queue (ac_mail a))).
  - assert (sys_nextMsg (w_sys demo_ready) = 0%nat) as -> by (vm_compute; reflexivity). exact Er.
  - assert (En : sys_nextMsg (w_sys demo_ready) = 0%nat) by (vm_compute; reflexivity). rewrite En in Hin.
    eexists _, w', r. split; [exact E|]. by split.
Defined.

(** ** Events *)

(** Whether [PostEvent data] pushes for the subscription ([path], [value]) to the actor
    [aid]: the path resolves to it, it is working, and the unique identifier fits. *)
Definition subscribed (data : EventData) (aid : nat) (s : System) (sub : str * option Z) : bool :=
  bool_decide (System_GetActorWithPath sub.1 s = Some aid) &&
  match sys_actors s !! aid with Some a => bool_decide (ac_state a = WorkerState) | None => false end &&
  match sub.2 with Some u => u =? ev_UniqueID data | None => true end.

(** What resolves and filters subscriptions does not change while events are pushed. *)
Record same_routes (s s' : System) : Prop := {
  sr_path : forall path, System_GetActorWithPath path s' = System_GetActorWithPath path s;
  sr_state : forall aid, ac_state <$> sys_actors s' !! aid = ac_state <$> sys_actors s !! aid }.

Lemma set_event_routes aid a e s : sys_actors s !! aid = Some a -> same_routes s (set_actor aid (set_event e a) s).
Proof.
  intros Ha. split.
  - intros path. unfold System_GetActorWithPath. destruct (ToActorPath path) as [q|]; [|done].
    destruct (ActorPath_IsChild (Some q)); [|done]. unfold System_GetChildActor, System_GetActor. simpl.
    destruct (sys_actorMap s !! ActorID q) as [parent|]; [|done].
    destruct (decide (parent = aid)) as [->|]; [by rewrite lookup_insert_eq, Ha|by rewrite lookup_insert_ne].
  - intros k. simpl. destruct (decide (k = aid)) as [->|]; [by rewrite lookup_insert_eq, Ha|by rewrite lookup_insert_ne].
Qed.

Lemma subscribed_same data aid s s' sub : same_routes s s' -> subscribed data aid s' sub = subscribed data aid s sub.
Proof.
  intros [Hp Hs]. unfold subscribed. rewrite Hp. specialize (Hs aid).
  destruct (sys_actors s' !! aid) as [a'|], (sys_actors s !! aid) as [a|]; simpl in Hs; try done. by injection Hs as ->.
Qed.

Definition events_of (aid : nat) (s : System) : list EventData :=
  match sys_actors s !! aid with Some a => aq_items (ae_queue (ac_event a)) | None => [] end.

(** A working actor's event queue is open. *)
Definition events_open (s : System) : Prop := forall aid a, sys_actors s !! aid = Some a ->
  ac_state a = WorkerState -> aq_closed (ae_queue (ac_event a)) = false.

Lemma life_events_open late s : life_inv late s -> events_open s.
Proof.
  intros I aid a Ha Hst. pose proof (life_at s aid a I Ha) as []. apply ao_open.
  intros E. rewrite E in ao_state. by apply ao_state.
Qed.

Lemma push_events data a s aid : sys_actors s !! aid = Some a -> aq_closed (ae_queue (ac_event a)) = false ->
  exists e, actorEvent_Push data (ac_event a) = Some e /\
    (forall k, events_of k (set_actor aid (set_event e a) s) = events_of k s ++ if decide (k = aid) then [data] else []) /\
    aq_closed (ae_queue e) = false.
Proof.
  intros Ha Hc. unfold actorEvent_Push. rewrite aq_Push_open by done. eexists. split; [done|]. split; [|done].
  intros k. unfold events_of. simpl. destruct (decide (k = aid)) as [->|].
  - rewrite lookup_insert_eq, Ha. done.
  - by rewrite lookup_insert_ne, app_nil_r.
Qed.

Lemma PostEvent_one_events data path value s : events_open s ->
  exists s', PostEvent_one actorEvent_Push data path value s = Some s' /\ same_routes s s' /\ events_open s' /\
    forall k, events_of k s' = events_of k s ++ if subscribed data k s (path, value) then [data] else [].
Proof.
  intros Ho. assert (Hself : same_routes s s) by by split.
  assert (Hnone : (forall k, subscribed data k s (path, value) = false) -> forall k,
    events_of k s = events_of k s ++ if subscribed data k s (path, value) then [data] else []).
  { intros Hn k. by rewrite Hn, app_nil_r. }
  unfold PostEvent_one. destruct (System_GetActorWithPath path s) as [aid|] eqn:Ep.
  2: { exists s. split_and!; try done. apply Hnone. intros k. unfold subscribed. simpl. by rewrite Ep. }
  destruct (sys_actors s !! aid) as [a|] eqn:Ha.
  2: { exists s. split_and!; try done. apply Hnone. intros k. unfold subscribed. simpl. rewrite Ep.
       destruct (decide (aid = k)) as [->|]; [by rewrite Ha, andb_false_r|by rewrite bool_decide_false by congruence]. }
  set (fits := match value with Some u => u =? ev_UniqueID data | None => true end).
  set (works := bool_decide (ac_state a = WorkerState)).
  assert (Hsub : forall k, subscribed data k s (path, value) = bool_decide (aid = k) && (works && fits)).
  { intros k. unfold subscribed. simpl. rewrite Ep. destruct (decide (aid = k)) as [->|].
    - rewrite !bool_decide_true by done. rewrite Ha. done.
    - rewrite !bool_decide_false by congruence. done. }
  destruct fits eqn:Ef; destruct works eqn:Ew; unfold works in Ew.
  - apply bool_decide_eq_true in Ew. pose proof (Ho aid a Ha Ew) as Hc.
    destruct (push_events data a s aid Ha Hc) as (e & E & He & Hce).
    exists (set_actor aid (set_event e a) s). rewrite E. split.
    { unfold fits in Ef. destruct value; [by rewrite Ef|done]. }
    split; [by apply set_event_routes|]. split.
    + intros k b. simpl. destruct (decide (k = aid)) as [->|].
      * rewrite lookup_insert_eq. by intros [= <-] _.
      * rewrite lookup_insert_ne by done. apply Ho.
    + intros k. rewrite He, Hsub. destruct (decide (k = aid)) as [->|].
      * by rewrite bool_decide_true.
      * by rewrite bool_decide_false by congruence.
  - exists s. split; [|split_and!; try done; apply Hnone; intros k; by rewrite Hsub, andb_false_r].
    unfold fits in Ef. destruct value; [by rewrite Ef|done].
  - exists s. split; [|split_and!; try done; apply Hnone; intros k; by rewrite Hsub, andb_false_r].
    unfold fits in Ef. destruct value; [by rewrite Ef|done].
  - exists s. split; [|split_and!; try done; apply Hnone; intros k; by rewrite Hsub, andb_false_r].
    unfold fits in Ef. destruct value; [by rewrite Ef|done].
Qed.

Lemma PostEvent_range_events data l s : events_open s ->
  exists s', PostEvent_range actorEvent_Push data l s = Some s' /\
    forall k, events_of k s' = events_of k s ++ replicate (length (filter (fun sub => subscribed data k s sub = true) l)) data.
Proof.
  revert s. induction l as [|[path value] l IH]; intros s Ho; simpl.
  - exists s. split; [done|]. intros k. by rewrite app_nil_r.
  - destruct (PostEvent_one_events data path value s Ho) as (s1 & -> & Hr & Ho1 & H1).
    destruct (IH s1 Ho1) as (s2 & -> & H2). exists s2. split; [done|]. intros k. rewrite H2, H1, <- app_assoc. f_equal.
    rewrite (list_filter_iff (fun sub => subscribed data k s1 sub = true) (fun sub => subscribed data k s sub = true)).
    2: { intros x. by rewrite (subscribed_same data k s s1 x Hr). }
    rewrite filter_cons. destruct (subscribed data k s (path, value)); simpl; done.
Qed.

(** An event reaches its subscribers: in every run, PostEvent of a named event returns
    without panic, and each actor's event queue grows by exactly one copy for each of its
    subscriptions to that name that fits (it resolves to the working actor, and the unique
    identifier is absent or the event's); no other queue changes. *)
Theorem PostEvent_delivers (app : App) (table : option Table) (w : world) (data : EventData) :
  empty_table table -> wreach app table w -> 1 <= str_len (ev_Name data) ->
  exists s', System_PostEvent actorEvent_Push (Some data) (w_sys w) = Some s' /\
    forall aid, events_of aid s' = events_of aid (w_sys w) ++
      replicate (length (filter (fun sub => subscribed data aid (w_sys w) sub = true)
                          (map_to_list (default ∅ (sys_eventMap (w_sys w) !! ev_Name data))))) data.
Proof.
  intros Ht Hw Hn. pose proof (wreach_life app table w Ht Hw) as I. unfold System_PostEvent.
  rewrite (proj2 (Z.ltb_ge _ _)) by lia. destruct (sys_eventMap (w_sys w) !! ev_Name data) as [subs|].
  - apply PostEvent_range_events. by eapply life_events_open.
  - exists (w_sys w). split; [done|]. intros aid. simpl. rewrite map_to_list_empty. simpl. by rewrite app_nil_r.
Qed.

(** The actor of the demo run subscribes to an event for the identifier 7. *)
Definition event_run : list action := demo_create ++ [AEventRegister 0 "login" 3 [7]].
Definition event_world : world := default demo_world (wrun event_run demo_world).
Lemma event_reach : wreach demo_app (Some (NewTable true)) event_world.
Proof. apply wreach_default; [apply wreach_init|]. vm_compute. reflexivity. Defined.

Lemma PostEvent_delivers_witness :
  exists s', System_PostEvent actorEvent_Push (Some (mkEvent "login" 7)) (w_sys event_world) = Some s' /\
    events_of 0 s' = events_of 0 (w_sys event_world) ++ [mkEvent "login" 7].
Proof.
  destruct (PostEvent_delivers demo_app (Some (NewTable true)) event_world (mkEvent "login" 7) eq_refl event_reach)
    as (s' & E & H); [by vm_compute|].
  exists s'. split; [exact E|]. rewrite H. f_equal.
Defined.

(** ** A panic of InvokeChild

    A child identifier may contain dots: [Create] accepts it. [InvokeChild] then builds a
    path of more than six segments, [TargetPath] is nil, and [findChildActor] reads its
    [ChildID]: the goroutine of the parent's handler panics. *)
Definition dotted_child_run : list action := demo_create ++ [AChildCheck 0 "a.b.c.d.e"; AChildStore 0 5; AInitDone 1 None].
Definition dotted_world : world := default demo_world (wrun dotted_child_run demo_world).

Lemma InvokeChild_dotted_panics :
  wreach demo_app (Some (NewTable true)) dotted_world /\
  (exists a, actor_at 0 dotted_world = Some a /\
     bool_decide (actorChild_GetActor "a.b.c.d.e" a = Some 1%nat) = true) /\
  match Actor_InvokeChild 0 100 false (Some demo_call) "a.b.c.d.e" 100 PNil None (w_sys dotted_world) with
  | None => true | Some _ => false end = true.
Proof.
  split; [apply wreach_default; [apply wreach_init|vm_compute; reflexivity]|].
  split; [apply actor_test_at; vm_compute; reflexivity|vm_compute; reflexivity].
Qed.
