(* ===== verification/Node.v ===== *)
(** A node: the AGP server and the actor runtime behind it, in one state.

    [exec_node] is one step of a connection ([exec_net]), of the runtime ([exec]), or of a
    handler goroutine of the server, which looks its method up in the table ([Dispatch]),
    starts the call ([InvokeTarget]) and answers when the result or the deadline is there.
    What is shown combines the invariants of the two parts: an answer on a connection comes
    from the call that was made for its request, and from no other. *)
From S2P Require Import Prelude Strconv Facade Context Queue Serializer Method Actor ActorSystem Steps Delivery Routing Agp Connection ConnectionInv.

(** ** What a step of the server does to a connection *)

(** Packets are only added; a handler is one that was there, or that of the request the
    reader was about to reserve, or the one that takes a step of its answer ([answers]); [x]
    is the context that is made next. A handler that has not answered stays, until it is the
    one that answers. *)
Record grows (x : nat) (answers : nat -> Prop) (c c' : Connection) : Prop := {
  gr_queue : cn_queued c `prefix_of` cn_queued c';
  gr_handlers : forall i h, cn_handlers c' !! i = Some h ->
    cn_handlers c !! i = Some h \/ (hg_stage h = HgRun /\ exists codec r ctx, cn_reader c = RdReserve codec r ctx i) \/ answers i;
  gr_reader : forall codec r ctx i, cn_reader c' = RdReserve codec r ctx i -> cn_reader c = RdReserve codec r ctx i \/ i = x;
  gr_keeps : reader_ok x c -> forall i h, cn_handlers c !! i = Some h -> hg_stage h = HgRun -> cn_handlers c' !! i = Some h \/ answers i }.

(** Nothing of it has changed. *)
Definition stays (c c' : Connection) : Prop :=
  cn_queued c' = cn_queued c /\ cn_handlers c' = cn_handlers c /\
  forall codec r ctx i, cn_reader c' = RdReserve codec r ctx i -> cn_reader c = RdReserve codec r ctx i.

Definition net_grows (answers : nat -> nat -> Prop) (n n' : net) : Prop :=
  (n_ctx n <= n_ctx n')%nat /\ forall k c', n_conns n' !! k = Some c' ->
    (exists c, n_conns n !! k = Some c /\ grows (n_ctx n) (answers k) c c') \/
    (n_conns n !! k = None /\ cn_handlers c' = ∅ /\ forall codec r ctx i, cn_reader c' <> RdReserve codec r ctx i).

Definition net_stays (n n' : net) : Prop :=
  n_ctx n' = n_ctx n /\ forall k c', n_conns n' !! k = Some c' -> exists c, n_conns n !! k = Some c /\ stays c c'.

Lemma stays_refl c : stays c c.
Proof. by split_and!. Qed.
Lemma stays_grows x an c c' : stays c c' -> grows x an c c'.
Proof. intros (H1 & H2 & H3). split; [by rewrite H1|by rewrite H2; auto|eauto|by rewrite H2; auto]. Qed.
Lemma grows_stays x an a b c : grows x an a b -> stays b c -> grows x an a c.
Proof. intros [] (H1 & H2 & H3). split; [by rewrite H1|by rewrite H2|eauto|by rewrite H2]. Qed.

Lemma net_stays_conns n n' : n_conns n' = n_conns n -> n_ctx n' = n_ctx n -> net_stays n n'.
Proof. intros H1 H2. split; [done|]. rewrite H1. intros k c' H. exists c'. split; [done|apply stays_refl]. Qed.
Lemma net_stays_grows an n n' : net_stays n n' -> net_grows an n n'.
Proof.
  intros [H1 H2]. split; [by rewrite H1|]. intros k c' Hk. destruct (H2 k c' Hk) as (c & Hc & Hs). left. exists c.
  split; [done|by apply stays_grows].
Qed.
Lemma net_grows_stays an n n1 n' : net_grows an n n1 -> net_stays n1 n' -> net_grows an n n'.
Proof.
  intros [H1 H2] [H3 H4]. split; [by rewrite H3|]. intros k c' Hk. destruct (H4 k c' Hk) as (c1 & Hc1 & Hs).
  destruct (H2 k c1 Hc1) as [(c & Hc & Hg)|(Hn & Hh & Hr)]; [left; exists c; split; [done|by eapply grows_stays]|].
  right. destruct Hs as (_ & E & Hx). rewrite E, Hh. split_and!; try done. intros codec r ctx i Hi. by apply Hx, Hr in Hi.
Qed.

Lemma net_grows_at an n n' k c c' : n_conns n !! k = Some c -> (n_ctx n <= n_ctx n')%nat -> n_conns n' = <[k := c']> (n_conns n) ->
  grows (n_ctx n) (an k) c c' -> net_grows an n n'.
Proof.
  intros Hk Hn E Hg. split; [done|]. rewrite E. intros j d. destruct (decide (j = k)) as [->|].
  - rewrite lookup_insert_eq. intros [= <-]. left. eauto.
  - rewrite lookup_insert_ne by done. intros Hj. left. exists d. split; [done|]. apply stays_grows, stays_refl.
Qed.

Lemma close1_stays c : stays c (close1 c).
Proof. unfold close1. by destruct (cn_closing c). Qed.

Lemma step_stays k n : net_stays n (Close_step k n).
Proof.
  split; [apply Close_step_rest|]. rewrite Close_step_conns. intros j d.
  intros [(-> & c & Hc & ->)|[Hne Hj]]%lookup_alter_Some; [exists c; split; [done|apply close1_stays]|].
  exists d. split; [done|apply stays_refl].
Qed.

Lemma close_grows an n n1 k : net_grows an n n1 -> net_grows an n (Close_begin k n1).
Proof.
  intros Hg. destruct (Close_begin_cases k n1) as [->| ->]; [done|]. eapply net_grows_stays; [done|apply step_stays].
Qed.

Lemma reader_close_grows an n n1 k : net_grows an n n1 -> net_grows an n (reader_close k n1).
Proof.
  intros H. unfold reader_close. apply close_grows. destruct (n_conns n1 !! k) as [c|] eqn:Hk; [|done]. eapply net_grows_stays; [done|].
  split; [done|]. simpl. intros j d. destruct (decide (j = k)) as [->|].
  - rewrite lookup_insert_eq. intros [= <-]. exists c. by split_and!.
  - rewrite lookup_insert_ne by done. intros Hj. exists d. split; [done|apply stays_refl].
Qed.

Lemma grows_refl an n : net_grows an n n.
Proof. by apply net_stays_grows, net_stays_conns. Qed.

Section Grows.
Context `{PacketProto} `{ControlProto}.
Variable codecs : Registry.
Variable options : Options.
Local Abbreviation exec_net := (Connection.exec_net codecs options).

Lemma put_grows ob c b c' : enqueue_put options ob c = (b, c') ->
  cn_handlers c' = cn_handlers c /\ cn_reader c' = cn_reader c /\
  cn_queued c' = cn_queued c ++ (if b then [ob_packet ob] else []).
Proof. unfold enqueue_put. destruct (_ <? _); intros [= <- <-]; simpl; by rewrite ?app_nil_r. Qed.

Lemma put_grows_at x an ob c : grows x an c (enqueue_put options ob c).2.
Proof.
  destruct (enqueue_put options ob c) as [b d] eqn:E. apply put_grows in E as (H1 & H2 & H3). simpl.
  split; [rewrite H3; by eexists|rewrite H1; auto|rewrite H2; auto|rewrite H1; auto].
Qed.

Lemma process_grows an now k packet c0 c n : n_conns n !! k = Some c0 -> stays c0 c ->
  net_grows an n (process_step options now k packet c (set_conn k c n)).
Proof.
  intros Hk Hs. assert (net_grows an n (set_conn k c n)) as H1 by (by eapply net_grows_at; [done| |reflexivity|apply stays_grows]).
  unfold process_step. destruct (Connection_process options packet c) as [| |rid body|r|body|r|nt].
  - by apply reader_close_grows.
  - eapply net_grows_stays; [done|by apply net_stays_conns].
  - eapply (net_grows_at _ _ _ k c0); [done|done|simpl; by rewrite insert_insert_eq|]. apply (grows_stays _ _ c0 c); [by apply stays_grows|by split_and!].
  - destruct (Connection_handleHeartbeat now r); [|by apply close_grows].
    eapply (net_grows_at _ _ _ k c0); [done|done|simpl; by rewrite insert_insert_eq|]. apply (grows_stays _ _ c0 c); [by apply stays_grows|by split_and!].
  - destruct (Connection_handleCancel body c); [|by apply reader_close_grows]. eapply net_grows_stays; [done|by apply net_stays_conns].
  - eapply (net_grows_at _ _ _ k c0); [done|simpl; lia|simpl; by rewrite insert_insert_eq|]. destruct Hs as (Q1 & Q2 & Q3).
    split; simpl; [by rewrite Q1|rewrite Q2; auto| |rewrite Q2; auto]. intros ? ? ? i [= _ _ _ <-]. by right.
  - eapply (net_grows_at _ _ _ k c0); [done|simpl; lia|simpl; by rewrite insert_insert_eq|]. destruct Hs as (Q1 & Q2 & Q3).
    split; simpl; [by rewrite Q1|rewrite Q2; auto|done|rewrite Q2; auto].
Qed.

Lemma deadline_stays now t c : stays c (read_deadline now t c).
Proof. unfold read_deadline. case_if; by split_and!. Qed.

Lemma read_grows an now k read c n : n_conns n !! k = Some c -> net_grows an n (Run_read options now k read c n).
Proof.
  intros Hk. unfold Run_read. destruct read as [b|]; [|apply reader_close_grows, grows_refl].
  destruct (PacketCodec_Decode _ _); [apply reader_close_grows, grows_refl|]. apply (process_grows an now k p c); [done|].
  case_if; [apply stays_refl|apply deadline_stays].
Qed.

Lemma bind_grows an id uid data n : net_grows an n (Manager_Bind id uid data n).2.
Proof.
  unfold Manager_Bind. destruct (uid <=? 0); [apply grows_refl|]. destruct (_ !! id) as [k|]; [|apply grows_refl].
  destruct (n_conns n !! k) as [c|] eqn:E; [|apply grows_refl]. destruct (_ && _); [apply grows_refl|].
  eapply (net_grows_at _ _ _ k c); [done|done|reflexivity|]. unfold Connection_bind. apply stays_grows. by split_and!.
Qed.

Lemma accept_grows an now id ip b n : n_conns n !! n_next n = None -> net_grows an n (Component_HandleConn now id ip b n).
Proof.
  intros Hn. unfold Component_HandleConn, Manager_Add. simpl. rewrite lookup_insert_eq. split; [done|]. simpl. intros k c'.
  destruct (decide (k = n_next n)) as [->|].
  - rewrite lookup_insert_eq. intros [= <-]. right. by split_and!.
  - rewrite lookup_insert_ne by done. intros Hk. left. exists c'. split; [done|apply stays_grows, stays_refl].
Qed.

(** The handler that takes a step of its answer. *)
Definition answers_of (a : net_action) (k i : nat) : Prop := (exists r, a = NAnswer k i r) \/ a = NSendAnswer k i.

Lemma handlers_grows an k i h' c d n : n_conns n !! k = Some c -> an k i -> grows (n_ctx n) (an k) c d ->
  cn_handlers d = cn_handlers c -> net_grows an n (set_conn k (cn_set_handlers (<[i := h']> (cn_handlers c)) d) n).
Proof.
  intros Hk Ha [] E. eapply (net_grows_at _ _ _ k c); [done|done|reflexivity|]. split; simpl; [done| |done|].
  - intros j h [[<- _]|[_ Hj]]%lookup_insert_Some; auto.
  - intros _ j h Hj _. destruct (decide (i = j)) as [<-|]; [auto|rewrite lookup_insert_ne by done; auto].
Qed.

Lemma send_answer_grows an k i p passed h c n : n_conns n !! k = Some c -> an k i ->
  net_grows an n (handler_send options k i p passed h c n).
Proof.
  intros Hk Ha. assert (forall h', net_grows an n (set_conn k (cn_set_handlers (<[i := h']> (cn_handlers c)) c) n)) as H1
    by (intros h'; apply handlers_grows; [done|done|apply stays_grows, stays_refl|done]).
  unfold handler_send. destruct passed.
  - pose proof (put_grows_at (n_ctx n) (an k) (mkOutbound p None) c) as G. destruct (enqueue_put _ _ _) as [b d] eqn:E.
    apply put_grows in E as (E1 & _ & _). destruct b; [|apply close_grows]; rewrite E1; by apply handlers_grows.
  - destruct (cn_done c); [apply close_grows|]; apply H1.
Qed.

Lemma send_grows an k p hs passed c n : n_conns n !! k = Some c -> net_grows an n (Run_send options k p hs passed c n).
Proof.
  intros Hk. assert (forall x, match x with RdReserve _ _ _ _ => False | _ => True end -> net_grows an n (set_conn k (cn_set_reader x c) n)) as H1.
  { intros x Hx. eapply (net_grows_at _ _ _ k c); [done|done|reflexivity|]. apply stays_grows. split_and!; try done. intros ? ? ? ? Hr. simpl in Hr. by subst x. }
  assert (net_grows an n (if hs then reader_close k n else Close_begin k (set_conn k (cn_set_reader RdRead c) n))) as H2
    by (destruct hs; [apply reader_close_grows, grows_refl|by apply close_grows, H1]).
  unfold Run_send. destruct passed; [|destruct (cn_done c); [done|by apply H1]].
  pose proof (put_grows_at (n_ctx n) (an k) (mkOutbound p None) c) as G. destruct (enqueue_put _ _ _) as [b d] eqn:E.
  destruct b; [|done]. eapply (net_grows_at _ _ _ k c); [done|done|reflexivity|]. eapply grows_stays; [exact G|by split_and!].
Qed.

Lemma ready_grows an now k rid body c n : n_conns n !! k = Some c -> net_grows an n (Run_handshake options now k rid body c n).
Proof.
  intros Hk. unfold Run_handshake, handleHandshake_ready.
  pose proof (deadline_stays now (op_IdleTimeout options) (cn_set_state ConnectionReady (cn_set_handshaken c))) as (Q1 & Q2 & Q3). simpl in *.
  eapply (net_grows_at _ _ _ k c); [done|done|reflexivity|]. apply stays_grows. by split_and!.
Qed.

Lemma write_grows an k err c n n' : n_conns n !! k = Some c -> writeLoop_step options k err c n = Some n' -> net_grows an n n'.
Proof.
  intros Hk. unfold writeLoop_step. destruct (cn_writeCh c); [done|].
  assert (forall d, stays c d -> net_grows an n (set_conn k d n)) as Hset
    by (intros d Hd; eapply (net_grows_at _ _ _ k c); [done|done|reflexivity|by apply stays_grows]).
  destruct (PacketCodec_Encode _ _), err; intros [= <-]; try apply close_grows; apply Hset; by split_and!.
Qed.

Lemma terminal_grows an k t p c n : n_conns n !! k = Some c -> net_grows an n (terminal_step options k t p c n).1.
Proof.
  intros Hk. unfold terminal_step. destruct p as [| |packet|]; [|destruct (terminal_packet t)| |]; simpl; try apply grows_refl.
  - eapply (net_grows_at _ _ _ k c); [done|done|reflexivity|]. apply stays_grows. by split_and!.
  - eapply (net_grows_at _ _ _ k c); [done|done|reflexivity|]. apply put_grows_at.
  - apply close_grows, grows_refl.
Qed.

Lemma push_grows an k p passed c n : n_conns n !! k = Some c -> net_grows an n (push_step options k p passed c n).1.
Proof.
  intros Hk. unfold push_step. destruct passed; [|apply grows_refl].
  eapply (net_grows_at _ _ _ k c); [done|done|reflexivity|]. apply put_grows_at.
Qed.

Lemma exec_net_grows a n n' : net_ok options n -> exec_net a n = Some n' -> net_grows (answers_of a) n n'.
Proof.
  intros I. unfold exec_net. destruct (n_crashed n); [done|]. destruct a.
  all: try (destruct (n_conns n !! k) as [c|] eqn:Hk; [|done]).
  - destruct (_ !! id); [done|]. destruct (String.eqb id EmptyString); [done|]. intros [= <-]. apply accept_grows.
    destruct (n_conns n !! n_next n) eqn:E; [|done]. destruct (no_conns _ _ I _ _ E). lia.
  - destruct (cn_reader c); try done. intros [= <-]. unfold Run_start. destruct (cn_conn c); simpl; [|apply reader_close_grows, grows_refl].
    eapply (net_grows_at _ _ _ k c); [done|done|reflexivity|]. apply stays_grows. unfold read_deadline. case_if; by split_and!.
  - destruct (cn_reader c); try done. intros [= <-]. by apply read_grows.
  - destruct (cn_reader c) eqn:Er; try done. intros [= <-]. unfold Run_reserve, Connection_reserve. case_if.
    + apply reader_close_grows. apply net_stays_grows. by apply net_stays_conns.
    + eapply (net_grows_at _ _ _ k c); [done|done|reflexivity|]. split; simpl; [done| |done|].
      * intros i h [[<- <-]|[_ Hi]]%lookup_insert_Some; [|auto]. right. left. split; [done|eauto].
      * intros Hr i h Hi _. unfold reader_ok in Hr. rewrite Er in Hr. left. rewrite lookup_insert_ne; [done|]. intros <-. destruct Hr as (_ & _ & _ & Hr). congruence.
  - destruct (cn_reader c); try done. intros [= <-]. by apply ready_grows.
  - destruct (cn_reader c); try done. intros [= <-]. by apply send_grows.
  - destruct (cn_reader c) eqn:Er; try done. intros [= <-]. eapply (net_grows_at _ _ _ k c); [done|done|reflexivity|].
    apply stays_grows. by split_and!.
  - destruct (cn_handlers c !! cancel) as [h|]; [|done]. destruct (hg_stage h); try done. intros [= <-].
    apply handlers_grows; [done|left; by eexists|apply stays_grows, stays_refl|done].
  - destruct (cn_handlers c !! cancel) as [h|]; [|done]. destruct (hg_stage h); try done. intros [= <-].
    apply send_answer_grows; [done|by right].
  - destruct (cn_handlers c !! cancel) as [h|] eqn:Eh; [|done]. destruct (hg_stage h) eqn:Es; try done. intros [= <-].
    eapply (net_grows_at _ _ _ k c); [done|done|reflexivity|]. split; simpl; [done| |auto|].
    + intros i h' [_ Hi]%lookup_delete_Some. auto.
    + intros _ i h' Hi Hn. left. rewrite lookup_delete_ne; [done|congruence].
  - destruct (cn_writer c); [|done]. by apply write_grows.
  - destruct (cn_done c); [|done]. intros [= <-]. eapply (net_grows_at _ _ _ k c); [done|done|reflexivity|]. apply stays_grows. by split_and!.
  - intros [= <-]. apply bind_grows.
  - destruct (Notify_packet _ _ _ _); intros [= <-]; [|apply grows_refl]. by apply net_stays_grows, net_stays_conns.
  - destruct (n_pushes n !! i) as [[[k p] b]|]; [|done]. destruct (n_conns n !! k) as [c|] eqn:Hk; [|done].
    pose proof (push_grows (answers_of (NPushStep i)) k p b c n Hk) as Ht. destruct (push_step _ _ _ _ _ _) as [n1 next]. intros [= <-].
    eapply net_grows_stays; [exact Ht|by apply net_stays_conns].
  - case_if; intros [= <-]; [apply grows_refl|]. by apply net_stays_grows, net_stays_conns.
  - destruct (n_terminals n !! i) as [[[k t] p]|]; [|done]. destruct (n_conns n !! k) as [c|] eqn:Hk; [|done].
    pose proof (terminal_grows (answers_of (NTerminalStep i)) k t p c n Hk) as Ht. destruct (terminal_step _ _ _ _ _ _) as [n1 next]. intros [= <-].
    eapply net_grows_stays; [exact Ht|by apply net_stays_conns].
  - intros [= <-]. apply close_grows, grows_refl.
  - destruct (cn_closing c); try done; intros [= <-]; apply net_stays_grows, step_stays.
Qed.
End Grows.

(** ** The node *)

(** A handler goroutine between [Dispatch] and its answer: the method is found, and the call
    not started; the call waits for the result of its message under its context. *)
Inductive hphase := HRouted (ctx : RequestContext) (target : str) | HWaiting (id : nat) (ctx : RequestContext).

(** What was answered: to which handler of which connection, and from which call. *)
Record node_answer := mkNodeAnswer {
  na_conn : nat; na_cancel : nat; na_call : option nat; na_handler : handler_go; na_result : InvokeResult }.

(** [nd_taken]: the packets that connections took for their writers from their handlers, in
    this order. *)
Record node := mkNode { nd_net : net; nd_world : world; nd_phases : list (nat * nat * hphase); nd_answers : list node_answer;
  nd_taken : list (nat * nat * Packet) }.

(** What a call comes to before it waits. *)
Inductive started := SReturned (r : InvokeResult) | SWaiting (id : nat) (ctx : RequestContext).

(** [Actor.InvokeChild] up to its push. *)
(** src/net/actor/actor.go:234-260, Actor.InvokeChild *)
Definition InvokeChild_start (v : callenv) (parent : nat) (ctx : RequestContext) (childID : str) (methodID : Z) (p : payload) (w : world)
  : option (world * started) :=
  let s := w_sys w in
  if methodID =? 0 then Some (w, SReturned (ErrorResult STATUS_INVALID_ARGUMENT "method id is required")) else
  if String.eqb childID EmptyString then Some (w, SReturned (ErrorResult STATUS_INVALID_ARGUMENT "child id is required")) else
  match sys_actors s !! parent, ensureRequestContext (sys_app s) (Some ctx) with
  | Some a, Some ctx =>
      match System_newInvokeContext (ce_now v) (ce_cancelled v) (Some ctx) s with
      | None => None
      | Some (inr failure) => Some (w, SReturned failure)
      | Some (inl ic) =>
          let target := NewChildPath (AStr (NodeID (ac_path a))) (AStr (ActorID (ac_path a))) (AStr childID) in
          let '(_, id, message) := new_message ic target methodID p s in
          w' ← exec (AInvokeChild false parent ic childID methodID p (ce_answer v)) w;
          match Actor_findChildActor a message (ce_answer v) with
          | None => None
          | Some None => Some (w', SReturned (ErrorResult STATUS_NOT_FOUND "child actor not found"))
          | Some (Some _) => Some (w', SWaiting id ic)
          end
      end
  | _, _ => None
  end.

(** [System.InvokeTarget] up to its push, which is an action of the runtime. *)
(** src/net/actor/system.go:173-204, System.InvokeTarget *)
Definition InvokeTarget_start (v : callenv) (ctx : option RequestContext) (target : str) (methodID : Z) (p : payload) (w : world)
  : option (world * started) :=
  let s := w_sys w in
  match System_prepareTyped target methodID with
  | inr failure => Some (w, SReturned failure)
  | inl targetPath =>
      match ensureRequestContext (sys_app s) ctx with
      | None => None
      | Some ctx =>
          if negb (String.eqb (NodeID targetPath) EmptyString) && negb (String.eqb (NodeID targetPath) (System_NodeID s))
          then match System_invokeRemote (ce_now v) (ce_cancelled v) (ce_now1 v) (ce_now2 v) (ce_cancelled2 v)
                       ctx target (NodeID targetPath) methodID p s with
               | Some (s', r) => Some (with_sys s' w, SReturned r)
               | None => None
               end
          else if ActorPath_IsChild (Some targetPath) then
            match System_GetActor (ActorID targetPath) s with
            | None => Some (w, SReturned (ErrorResult STATUS_NOT_FOUND "actor not found"))
            | Some parent => InvokeChild_start v parent ctx (ChildID targetPath) methodID p w
            end
          else
            match System_newInvokeContext (ce_now v) (ce_cancelled v) (Some ctx) s with
            | None => None
            | Some (inr failure) => Some (w, SReturned failure)
            | Some (inl ic) =>
                let '(s1, id, message) := new_message ic target methodID p s in
                w' ← exec (AInvoke false ic target methodID p) w;
                match System_post_check (set_chan (Z.of_nat id) message) s1 with
                | None => Some (w', SReturned (ErrorResult STATUS_NOT_FOUND "actor not found"))
                | Some _ => Some (w', SWaiting id ic)
                end
            end
      end
  end.

(** What [Dispatch] goes on with. *)
Inductive dispatch_next := DReturn (r : InvokeResult) | DInvoke (ctx : RequestContext) (target : str).

(** The context of a request as it is at the moment. *)
Definition ctx_at (err : option ctx_err) (c : RequestContext) : RequestContext :=
  mkRequestContext ((fun g => GCtx (c_deadline g) (match c_err g with Some e => Some e | None => err end)) <$> rc_Context c)
    (rc_RequestID c) (rc_Transport c) (rc_Codec c) (rc_Session c) (rc_Metadata c).

(** ** What a call does to the runtime *)

(** Results and calls are only added, and every message keeps its owner. *)
Definition world_grows (w w' : world) : Prop :=
  delivery_inv w' /\ (sys_nextMsg (w_sys w) <= sys_nextMsg (w_sys w'))%nat /\
  (forall x, x ∈ sys_results (w_sys w) -> x ∈ sys_results (w_sys w')) /\ (forall id, id ∈ w_calls w -> id ∈ w_calls w').

Lemma world_grows_refl w : delivery_inv w -> world_grows w w.
Proof. intros I. by split_and!. Qed.

Lemma exec_grows a w w' : delivery_inv w -> exec a w = Some w' -> world_grows w w'.
Proof.
  intros I E. destruct (exec_adds a w w' E) as [H1 H2]. split_and!; [by eapply exec_delivery|by eapply exec_next; [apply I|]|done|done].
Qed.

(** Only the sequence number of cluster messages changes in a remote call. *)
Lemma invokeRemote_frame now cancelled now1 now2 cancelled2 ctx target nodeID methodID p s s' r :
  System_invokeRemote now cancelled now1 now2 cancelled2 ctx target nodeID methodID p s = Some (s', r) ->
  s' = s \/ exists seq, s' = with_messageSeq seq s.
Proof.
  unfold System_invokeRemote. destruct (sys_app s); [|done]. destruct (app_Cluster a); [|intros [= <- _]; auto].
  destruct (System_newInvokeContext _ _ _ _) as [[ic|f]|]; [|intros [= <- _]; auto|done].
  destruct (encodeClusterPayload _ _ _) as [[body|e]|]; [|intros [= <- _]; auto|done].
  cbn [System_buildClusterMessage]. case_if; [intros [= <- _]; eauto|]. destruct (cl_Request _ _ _ _); [intros [= <- _]; eauto|].
  destruct (rc_Err _ _ _); intros [= <- _]; eauto.
Qed.

Lemma messageSeq_grows seq w : delivery_inv w -> world_grows w (with_sys (with_messageSeq seq (w_sys w)) w).
Proof.
  intros I. split_and!; [|done|done|done]. apply (delivery_quiet w); [done|by split_and!|apply I|apply I|done].
Qed.

(** A call that waits has made the message it waits for, and waits under a deadline. *)
Definition waits_for (w w' : world) (r : started) : Prop :=
  match r with
  | SWaiting id ctx => id = sys_nextMsg (w_sys w) /\ (id < sys_nextMsg (w_sys w'))%nat /\ id ∈ w_calls w' /\ is_Some (deadline_of ctx)
  | _ => True
  end.

Lemma InvokeChild_start_grows v parent ctx child m p w w' r : delivery_inv w -> InvokeChild_start v parent ctx child m p w = Some (w', r) ->
  world_grows w w' /\ waits_for w w' r.
Proof.
  intros I. unfold InvokeChild_start. destruct (m =? 0); [intros [= <- <-]; split; [by apply world_grows_refl|done]|].
  destruct (String.eqb child _); [intros [= <- <-]; split; [by apply world_grows_refl|done]|].
  destruct (sys_actors (w_sys w) !! parent) as [a|] eqn:Ea; [|done]. destruct (ensureRequestContext _ _) as [ctx'|]; [|done].
  destruct (System_newInvokeContext _ _ _ _) as [[ic|f]|] eqn:En; [|intros [= <- <-]; split; [by apply world_grows_refl|done]|done].
  apply newInvokeContext_deadline in En as [En _].
  rewrite new_message_spec. destruct (exec _ w) as [w1|] eqn:E; [|done]. simpl. pose proof (exec_grows _ _ _ I E) as G. intros Hr.
  destruct (Actor_findChildActor a _ _) as [[c|]|] eqn:Ef; [|injection Hr as <- <-; done|done]. injection Hr as <- <-. split; [done|].
  unfold exec in E. destruct (w_crashed w); [done|]. unfold exec_invoke_child, actor_at in E. rewrite Ea, new_message_spec, Ef in E. injection E as <-.
  simpl. split_and!; [done|lia|by left|by eexists].
Qed.

Lemma InvokeTarget_start_grows v ctx target m p w w' r : delivery_inv w -> InvokeTarget_start v ctx target m p w = Some (w', r) ->
  world_grows w w' /\ waits_for w w' r.
Proof.
  intros I. unfold InvokeTarget_start. destruct (System_prepareTyped target m) as [tp|f]; [|intros [= <- <-]; split; [by apply world_grows_refl|done]].
  destruct (ensureRequestContext _ _) as [ctx'|]; [|done]. case_match.
  { destruct (System_invokeRemote _ _ _ _ _ _ _ _ _ _ _) as [[s' r']|] eqn:E; [|done]. intros [= <- <-]. split; [|done].
    apply invokeRemote_frame in E as [->|[seq ->]]; [rewrite with_sys_id; by apply world_grows_refl|by apply messageSeq_grows]. }
  case_match.
  { destruct (System_GetActor _ _) as [parent|]; [|intros [= <- <-]; split; [by apply world_grows_refl|done]]. by apply InvokeChild_start_grows. }
  destruct (System_newInvokeContext _ _ _ _) as [[ic|f]|] eqn:En; [|intros [= <- <-]; split; [by apply world_grows_refl|done]|done].
  apply newInvokeContext_deadline in En as [En _].
  rewrite new_message_spec. destruct (exec _ w) as [w1|] eqn:E; [|done]. simpl. pose proof (exec_grows _ _ _ I E) as G. intros Hr.
  destruct (System_post_check _ _) as [aid|] eqn:Ep; [|injection Hr as <- <-; done]. injection Hr as <- <-. split; [done|].
  unfold exec in E. destruct (w_crashed w); [done|]. injection E as <-. unfold exec_invoke. rewrite new_message_spec. cbn [mark_call].
  destruct (System_post_check _ _); simpl; (split_and!; [done|lia|by left|by eexists]).
Qed.

(** A message has one result. *)
Lemma results_one w id : delivery_inv w -> (results_for id (result_chans w) <= 1)%nat.
Proof.
  intros I. destruct (decide (id ∈ w_calls w)) as [Hc|Hc].
  - pose proof (di_call w I id Hc). pose proof (recycled_below w id I). rewrite (di_total w I) in *. destruct (Nat.ltb _ _); lia.
  - rewrite (di_notify w I id Hc). lia.
Qed.

Lemma result_counted (l : list (Z * InvokeResult)) id r : (Z.of_nat id, r) ∈ l -> (0 < results_for id (fst <$> l))%nat.
Proof.
  induction l as [|[c x] l IH]; [by intros ?%elem_of_nil|]. rewrite elem_of_cons, fmap_cons, results_for_cons. simpl. intros [[= <- <-]|Hl].
  - rewrite decide_True by done. lia.
  - apply IH in Hl. lia.
Qed.

Lemma results_unique w id r r' : delivery_inv w -> (Z.of_nat id, r) ∈ sys_results (w_sys w) -> (Z.of_nat id, r') ∈ sys_results (w_sys w) -> r = r'.
Proof.
  intros I. pose proof (results_one w id I) as Hone. unfold result_chans in Hone. induction (sys_results (w_sys w)) as [|[c x] l IH]; [by intros ?%elem_of_nil|].
  rewrite fmap_cons, results_for_cons in Hone. rewrite !elem_of_cons. simpl in Hone.
  intros H1 H2. destruct (decide (c = Z.of_nat id)) as [->|Hne].
  - destruct H1 as [[= <-]|H1], H2 as [[= <-]|H2]; [done|..]; exfalso.
    + apply result_counted in H2. lia.
    + apply result_counted in H1. lia.
    + apply result_counted in H1. lia.
  - apply IH; [lia|by destruct H1 as [[= E _]|H1]|by destruct H2 as [[= E _]|H2]].
Qed.

(** A result that is waited for is that of the message, or the failure of the context. *)
Lemma await_own id ctx now cancelled prefer w r : await_result id ctx now cancelled prefer (w_sys w) = Some r ->
  (Z.of_nat id, r) ∈ sys_results (w_sys w) \/ exists e, r = contextFailure e "actor invoke".
Proof.
  unfold await_result. destruct (list_find _ _) as [[j [ch r0]]|] eqn:E; simpl.
  - apply list_find_Some in E as (Hj & Hc & _). simpl in Hc. subst ch. apply list_elem_of_lookup_2 in Hj.
    destruct (rc_Err now cancelled ctx) as [e|]; [destruct prefer|]; intros [= <-]; eauto.
  - destruct (rc_Err now cancelled ctx) as [e|]; intros [= <-]; eauto.
Qed.

Section Node.
Context `{PacketProto} `{ControlProto}.
Variable codecs : Registry.
Variable options : Options.
Hypothesis max_inflight : 0 <= op_MaxInflight options.
Local Abbreviation exec_net := (Connection.exec_net codecs options).

Definition handler_at (k i : nat) (s : node) : option handler_go := c ← n_conns (nd_net s) !! k; cn_handlers c !! i.

(** It is still in [Dispatch]. *)
Definition hg_running (h : handler_go) : bool := match hg_stage h with HgRun => true | _ => false end.

Definition answer_packet (h : handler_go) (r : InvokeResult) : Packet :=
  request_response codecs (hg_codec h) (hg_request h) (hg_ctx h) (Some r).

(** [Dispatch] has returned [r]: the handler has its answer. *)
(** src/net/parser/connection.go:240-260, Connection.handleRequest *)
Definition finish (k i : nat) (call : option nat) (r : InvokeResult) (w : world) (phases : list (nat * nat * hphase)) (s : node) : option node :=
  c ← n_conns (nd_net s) !! k;
  h ← cn_handlers c !! i;
  n' ← exec_net (NAnswer k i (Some r)) (nd_net s);
  Some (mkNode n' w phases (nd_answers s ++ [mkNodeAnswer k i call h r]) (nd_taken s)).

(** The packet that the handler puts into the connection's queue, if it does. *)
Definition put_of (h : handler_go) (c : Connection) : list Packet :=
  match hg_stage h with
  | HgEnqueue p true => if (enqueue_put options (mkOutbound p None) c).1 then [p] else []
  | _ => []
  end.

(** The next step of its [enqueue]. *)
(** src/net/parser/connection.go:260-263, Connection.handleRequest *)
Definition handler_put (k i : nat) (s : node) : option node :=
  c ← n_conns (nd_net s) !! k;
  h ← cn_handlers c !! i;
  n' ← exec_net (NSendAnswer k i) (nd_net s);
  Some (mkNode n' (nd_world s) (nd_phases s) (nd_answers s) (nd_taken s ++ ((fun p => (k, i, p)) <$> put_of h c))).

(** The lookup of the method; [err]: the state of the context by then. *)
(** src/net/method/table.go:90-117, Table.Dispatch *)
Definition handler_lookup (k i : nat) (err : option ctx_err) (s : node) : option node :=
  h ← handler_at k i s;
  if negb (hg_running h) || bool_decide ((k, i) ∈ (nd_phases s).*1) then None else
  next ← Table_Dispatch (fun _ _ _ _ => DReturn (OKResult PNil)) (fun ctx target _ _ => DInvoke ctx target) DReturn (Registry_Default codecs)
           (Some (ctx_at err (hg_ctx h))) (rq_MethodId (hg_request h)) (rq_Body (hg_request h)) REQUEST (sys_methods (w_sys (nd_world s)));
  match next with
  | DReturn r => finish k i None r (nd_world s) (nd_phases s) s
  | DInvoke ctx target => Some (mkNode (nd_net s) (nd_world s) ((k, i, HRouted ctx target) :: nd_phases s) (nd_answers s) (nd_taken s))
  end.

(** The call is started. *)
(** src/net/actor/system.go:173-204, System.InvokeTarget *)
Definition handler_call (j : nat) (v : callenv) (s : node) : option node :=
  match nd_phases s !! j with
  | Some (k, i, HRouted ctx target) =>
      h ← handler_at k i s;
      '(w', r) ← InvokeTarget_start v (Some ctx) target (rq_MethodId (hg_request h)) (PBytes (rq_Body (hg_request h))) (nd_world s);
      match r with
      | SReturned r => finish k i None r w' (delete j (nd_phases s)) s
      | SWaiting id ctx => Some (mkNode (nd_net s) w' (<[j := (k, i, HWaiting id ctx)]> (nd_phases s)) (nd_answers s) (nd_taken s))
      end
  | _ => None
  end.

(** The wait is over. *)
(** src/net/actor/system.go:206-211, System.InvokeTarget *)
Definition handler_result (j : nat) (now : Z) (cancelled prefer : bool) (s : node) : option node :=
  match nd_phases s !! j with
  | Some (k, i, HWaiting id ctx) =>
      r ← await_result id ctx now cancelled prefer (w_sys (nd_world s));
      finish k i (Some id) r (nd_world s) (delete j (nd_phases s)) s
  | _ => None
  end.

Inductive node_action :=
| NdNet (a : net_action) | NdWorld (a : action)
| NdLookup (k i : nat) (err : option ctx_err) | NdSend (k i : nat) | NdCall (j : nat) (v : callenv) | NdResult (j : nat) (now : Z) (cancelled prefer : bool).

Definition exec_node (a : node_action) (s : node) : option node :=
  match a with
  | NdNet a => match a with
               | NAnswer _ _ _ | NSendAnswer _ _ => None
               | _ => n' ← exec_net a (nd_net s); Some (mkNode n' (nd_world s) (nd_phases s) (nd_answers s) (nd_taken s))
               end
  | NdWorld a => w' ← exec a (nd_world s); Some (mkNode (nd_net s) w' (nd_phases s) (nd_answers s) (nd_taken s))
  | NdLookup k i err => handler_lookup k i err s
  | NdSend k i => handler_put k i s
  | NdCall j v => handler_call j v s
  | NdResult j now cancelled prefer => handler_result j now cancelled prefer s
  end.

Definition node_init (app : App) (table : option Table) : node := mkNode fresh_net (fresh_world app table) [] [] [].

Fixpoint run_node (l : list node_action) (s : node) : option node :=
  match l with [] => Some s | a :: l => exec_node a s ≫= run_node l end.

Inductive node_reach (app : App) (table : option Table) : node -> Prop :=
| node_start : node_reach app table (node_init app table)
| node_step s a s' : node_reach app table s -> exec_node a s = Some s' -> node_reach app table s'.
(** ** What holds of its runs *)

Definition answer_key (a : node_answer) : nat * nat := (na_conn a, na_cancel a).
Definition wait_id (x : nat * nat * hphase) : option nat := match x.2 with HWaiting id _ => Some id | _ => None end.

(** The calls that were made: answered, and waiting. *)
Definition node_calls (s : node) : list nat := omap na_call (nd_answers s) ++ omap wait_id (nd_phases s).

(** The packets that a connection took from its handlers. *)
Definition node_packets (k : nat) (l : list (nat * nat * Packet)) : list Packet :=
  omap (fun x => if (x.1.1 =? k)%nat then Some x.2 else None) l.

(** The packet [p] is the answer that the handler [i] of the connection [k] was given. *)
Definition is_answer (l : list node_answer) (k i : nat) (p : Packet) : Prop :=
  exists a, a ∈ l /\ answer_key a = (k, i) /\ p = answer_packet (na_handler a) (na_result a).

(** Where the result of a call comes from: the channel of its own message, or its context. *)
Definition own_result (w : world) (id : nat) (r : InvokeResult) : Prop :=
  (Z.of_nat id, r) ∈ sys_results (w_sys w) \/ exists e, r = contextFailure e "actor invoke".

Record node_ok (s : node) : Prop := {
  nk_net : net_ok options (nd_net s);
  nk_world : delivery_inv (nd_world s);
  nk_answered : forall a, a ∈ nd_answers s -> is_Some (n_conns (nd_net s) !! na_conn a) /\ (na_cancel a < n_ctx (nd_net s))%nat /\
    forall c, n_conns (nd_net s) !! na_conn a = Some c ->
      (forall h, cn_handlers c !! na_cancel a = Some h -> hg_stage h <> HgRun) /\
      (forall codec r ctx, cn_reader c <> RdReserve codec r ctx (na_cancel a));
  nk_sent : forall k c i h, n_conns (nd_net s) !! k = Some c -> cn_handlers c !! i = Some h -> hg_stage h <> HgRun ->
    (k, i) ∈ (answer_key <$> nd_answers s);
  nk_unique : NoDup (answer_key <$> nd_answers s);
  nk_calls : NoDup (node_calls s);
  nk_below : forall id, id ∈ node_calls s -> (id < sys_nextMsg (w_sys (nd_world s)))%nat /\ id ∈ w_calls (nd_world s);
  nk_results : forall a id, a ∈ nd_answers s -> na_call a = Some id -> own_result (nd_world s) id (na_result a);
  nk_keys : NoDup (nd_phases s).*1;
  nk_live : forall k i p, (k, i, p) ∈ nd_phases s -> exists h, handler_at k i s = Some h /\ hg_stage h = HgRun;
  nk_deadline : forall k i id ctx, (k, i, HWaiting id ctx) ∈ nd_phases s -> is_Some (deadline_of ctx);
  nk_once : NoDup (nd_taken s).*1;
  nk_taken : forall k i p, (k, i, p) ∈ nd_taken s -> is_answer (nd_answers s) k i p;
  nk_enqueue : forall k c i h p b, n_conns (nd_net s) !! k = Some c -> cn_handlers c !! i = Some h -> hg_stage h = HgEnqueue p b ->
    ((k, i) ∉ (nd_taken s).*1) /\ is_answer (nd_answers s) k i p;
  nk_queued : forall k c, n_conns (nd_net s) !! k = Some c -> node_packets k (nd_taken s) `sublist_of` cn_queued c }.

Lemma node_ok_init app table : node_ok (node_init app table).
Proof.
  split; simpl; try done; try (by intros a Ha%elem_of_nil); try apply base.NoDup_nil_2.
  - apply delivery_init.
  - intros a id Ha. by inversion Ha.
  - intros k i p Hp. by inversion Hp.
  - intros k i id ctx Hp. by inversion Hp.
  - intros k i p Hp. by inversion Hp.
Qed.

Lemma conn_persists a n n' k : exec_net a n = Some n' -> is_Some (n_conns n !! k) -> is_Some (n_conns n' !! k).
Proof.
  intros E Hk. destruct a as [now id ip b| | | | | | | | | | | | | | | | | |].
  2-19: apply exec_net_dom in E; [|done]; apply elem_of_dom; rewrite E; by apply elem_of_dom.
  unfold Connection.exec_net in E. destruct (n_crashed n); [done|]. destruct (_ !! id); [done|]. destruct (String.eqb id EmptyString); [done|].
  injection E as <-. unfold Component_HandleConn, Manager_Add. simpl. rewrite lookup_insert_eq. simpl. apply lookup_insert_is_Some.
  destruct (decide (n_next n = k)); auto.
Qed.

Lemma packets_none k l : (forall i p, (k, i, p) ∉ l) -> node_packets k l = [].
Proof.
  induction l as [|[[j i] p] l IH]; [done|]. intros Hl. unfold node_packets in *. simpl. destruct (Nat.eqb_spec j k) as [->|_].
  - by destruct (Hl i p ltac:(by left)).
  - apply IH. intros i' p' Hb. apply (Hl i' p'). by right.
Qed.

(** A step of the server that answers nothing. *)
Lemma node_ok_net a n' s : node_ok s -> (forall k i, ~ answers_of a k i) -> exec_net a (nd_net s) = Some n' ->
  node_ok (mkNode n' (nd_world s) (nd_phases s) (nd_answers s) (nd_taken s)).
Proof.
  intros [] Ha E. pose proof (exec_net_grows codecs options a _ _ nk_net0 E) as [Hctx Hc].
  assert (forall k c' i h, n_conns n' !! k = Some c' -> cn_handlers c' !! i = Some h ->
    hg_stage h = HgRun \/ exists c, n_conns (nd_net s) !! k = Some c /\ cn_handlers c !! i = Some h) as Hold.
  { intros k c' i h Hk Hi. destruct (Hc _ _ Hk) as [(c & Hkc & [_ G2 _ _])|(_ & Hh & _)]; [|by rewrite Hh in Hi].
    destruct (G2 _ _ Hi) as [?|[(Hn & _)|?]]; [right; eauto|by left|by destruct (Ha k i)]. }
  split; simpl; try done.
  - by apply (exec_net_ok codecs options max_inflight a (nd_net s)).
  - intros x Hx. destruct (nk_answered0 x Hx) as (H1 & H2 & H3). split_and!; [by eapply conn_persists|lia|].
    intros c' Hk. destruct (Hc _ _ Hk) as [(c & Hkc & [G1 G2 G3 G4])|(_ & Hh & Hr)]; [|rewrite Hh; split; [done|auto]].
    destruct (H3 c Hkc) as [H4 H5]. split.
    + intros h Hi. destruct (G2 _ _ Hi) as [?|[(_ & codec & r & ctx & Hr)|?]]; [by apply H4|by destruct (H5 codec r ctx)|by edestruct Ha].
    + intros codec r ctx Hr. destruct (G3 _ _ _ _ Hr) as [?|E1]; [by destruct (H5 codec r ctx)|lia].
  - intros k c' i h Hk Hi Hs. destruct (Hold k c' i h Hk Hi) as [?|(c & ? & ?)]; [done|by apply (nk_sent0 k c i h)].
  - intros k i p Hp. destruct (nk_live0 k i p Hp) as (h & Hh & Hn). unfold handler_at in *. simpl.
    destruct (n_conns (nd_net s) !! k) as [c|] eqn:Hk; [|done]. simpl in Hh. exists h. split; [|done].
    destruct (conn_persists a _ _ k E) as [c' Hk']; [by rewrite Hk|]. rewrite Hk'. simpl.
    destruct (Hc k c' Hk') as [(c1 & Hk1 & [_ _ _ G4])|(Hk1 & _)]; [|congruence]. rewrite Hk in Hk1. injection Hk1 as <-.
    destruct (no_conns options _ nk_net0 k c Hk) as [[] _]. destruct (G4 co_reader i h Hh Hn); [done|by edestruct Ha].
  - intros k c' i h p b Hk Hi Hs. destruct (Hold k c' i h Hk Hi) as [?|(c & ? & ?)]; [congruence|by apply (nk_enqueue0 k c i h p b)].
  - intros k c' Hk. destruct (Hc _ _ Hk) as [(c & Hkc & [G1 G2 G3 G4])|(Hn & _ & _)].
    + destruct G1 as [l ->]. by apply sublist_inserts_r, nk_queued0.
    + rewrite packets_none; [apply sublist_nil_l|]. intros i p (a0 & Ha0 & [= Ek _] & _)%nk_taken0.
      destruct (nk_answered0 a0 Ha0) as ((c & Hxc) & _). congruence.
Qed.

(** A step of the runtime. *)
Lemma own_result_mono w w' id r : (forall x, x ∈ sys_results (w_sys w) -> x ∈ sys_results (w_sys w')) -> own_result w id r -> own_result w' id r.
Proof. intros Hw [H1|H1]; [left; auto|by right]. Qed.

Lemma node_ok_world w' s : node_ok s -> delivery_inv w' -> (sys_nextMsg (w_sys (nd_world s)) <= sys_nextMsg (w_sys w'))%nat ->
  (forall x, x ∈ sys_results (w_sys (nd_world s)) -> x ∈ sys_results (w_sys w')) -> (forall id, id ∈ w_calls (nd_world s) -> id ∈ w_calls w') ->
  node_ok (mkNode (nd_net s) w' (nd_phases s) (nd_answers s) (nd_taken s)).
Proof.
  intros [] Hd Hn Hr Hc. split; simpl; try done.
  - intros id Hid. destruct (nk_below0 id Hid). split; [lia|auto].
  - intros a id Ha E. by eapply own_result_mono; [|by apply nk_results0].
Qed.

(** Other phases. *)
Lemma node_ok_phases phases s : node_ok s -> let s' := mkNode (nd_net s) (nd_world s) phases (nd_answers s) (nd_taken s) in
  NoDup phases.*1 -> (forall k i p, (k, i, p) ∈ phases -> exists h, handler_at k i s = Some h /\ hg_stage h = HgRun) ->
  (forall k i id ctx, (k, i, HWaiting id ctx) ∈ phases -> is_Some (deadline_of ctx)) -> NoDup (node_calls s') ->
  (forall id, id ∈ node_calls s' -> (id < sys_nextMsg (w_sys (nd_world s)))%nat /\ id ∈ w_calls (nd_world s)) -> node_ok s'.
Proof. intros []. by split. Qed.

(** Fewer phases. *)
Lemma node_ok_fewer phases s : node_ok s -> phases `sublist_of` nd_phases s ->
  node_ok (mkNode (nd_net s) (nd_world s) phases (nd_answers s) (nd_taken s)).
Proof.
  intros I Hs. assert (node_calls (mkNode (nd_net s) (nd_world s) phases (nd_answers s) (nd_taken s)) `sublist_of` node_calls s) as Hc.
  { apply sublist_app; [done|]. simpl. clear -Hs. induction Hs as [|x l1 l2 Hs IH|x l1 l2 Hs IH]; [done|..]; simpl; destruct (wait_id x); first [done|by constructor]. }
  apply node_ok_phases; [done|..].
  - eapply sublist_NoDup; [apply (nk_keys s I)|by apply fmap_sublist].
  - intros k i p Hp. eapply nk_live; [done|by eapply elem_of_sublist].
  - intros k i id ctx Hp. eapply nk_deadline; [done|by eapply elem_of_sublist].
  - eapply sublist_NoDup; [apply (nk_calls s I)|done].
  - intros id Hid. apply (nk_below s I). by eapply elem_of_sublist.
Qed.

(** The exact effect of a step of a handler's answer: the handler comes to the stage [x], and
    the connection takes the packets [l]. *)
Record moved (k i : nat) (x : handler_stage) (l : list Packet) (n n' : net) (c : Connection) (h : handler_go) (c' : Connection) : Prop := {
  mv_conn : n_conns n !! k = Some c;
  mv_handler : cn_handlers c !! i = Some h;
  mv_ctx : n_ctx n' = n_ctx n;
  mv_conns : n_conns n' = <[k := c']> (n_conns n);
  mv_handlers : cn_handlers c' = <[i := set_stage x h]> (cn_handlers c);
  mv_reader : cn_reader c' = cn_reader c;
  mv_queued : cn_queued c' = cn_queued c ++ l }.

Lemma moved_set k i x l n c h d : n_conns n !! k = Some c -> cn_handlers c !! i = Some h -> cn_reader d = cn_reader c ->
  cn_queued d = cn_queued c ++ l -> let d' := cn_set_handlers (<[i := set_stage x h]> (cn_handlers c)) d in
  moved k i x l n (set_conn k d' n) c h d' /\ exists c', moved k i x l n (Close_begin k (set_conn k d' n)) c h c'.
Proof.
  intros Hk Hi Hr Hq d'. assert (moved k i x l n (set_conn k d' n) c h d') as M by (by split). split; [done|].
  destruct (Close_begin_cases k (set_conn k d' n)) as [->| ->]; [by eexists|]. exists (close1 d'). destruct M.
  split; try done; [etrans; [apply Close_step_rest|done]| | | |]; try (unfold close1; by destruct (cn_closing d')).
  rewrite Close_step_conns. simpl. by rewrite alter_insert_eq.
Qed.

Lemma exec_answer k i r n n' : exec_net (NAnswer k i (Some r)) n = Some n' -> exists c h c',
  hg_stage h = HgRun /\ moved k i (HgEnqueue (answer_packet h r) false) [] n n' c h c'.
Proof.
  unfold Connection.exec_net. destruct (n_crashed n); [done|]. destruct (n_conns n !! k) as [c|] eqn:Hk; [|done].
  destruct (cn_handlers c !! i) as [h|] eqn:Hi; [|done]. destruct (hg_stage h) eqn:Hs; try done. intros [= <-].
  destruct (moved_set k i (HgEnqueue (answer_packet h r) false) [] n c h c Hk Hi) as [M _]; [done|by rewrite app_nil_r|].
  by eexists c, h, _.
Qed.

Lemma exec_put k i n n' : exec_net (NSendAnswer k i) n = Some n' -> exists c h c' x p b,
  hg_stage h = HgEnqueue p b /\ (x = HgSent \/ x = HgEnqueue p true /\ put_of h c = []) /\ moved k i x (put_of h c) n n' c h c'.
Proof.
  unfold Connection.exec_net. destruct (n_crashed n); [done|]. destruct (n_conns n !! k) as [c|] eqn:Hk; [|done].
  destruct (cn_handlers c !! i) as [h|] eqn:Hi; [|done]. destruct (hg_stage h) as [|p b|] eqn:Hs; try done. intros [= <-].
  assert (put_of h c = if b then if (enqueue_put options (mkOutbound p None) c).1 then [p] else [] else []) as Ep
    by (unfold put_of; rewrite Hs; by destruct b). unfold handler_send. destruct b.
  - destruct (enqueue_put options (mkOutbound p None) c) as [b d] eqn:E. apply put_grows in E as (E1 & E2 & E3).
    destruct (moved_set k i HgSent (if b then [p] else []) n c h d Hk Hi E2 E3) as [M1 (c' & M2)]. simpl in Ep. rewrite <- Ep in M1, M2. rewrite E1.
    destruct b; [eexists c, h, _|exists c, h, c']; exists HgSent, p, true; split_and!; by auto.
  - destruct (moved_set k i HgSent [] n c h c Hk Hi) as [_ (c' & M2)]; [done|by rewrite app_nil_r|].
    destruct (moved_set k i (HgEnqueue p true) [] n c h c Hk Hi) as [M1 _]; [done|by rewrite app_nil_r|]. rewrite <- Ep in M1, M2.
    destruct (cn_done c); [exists c, h, c', HgSent|eexists c, h, _, (HgEnqueue p true)]; exists p, false; split_and!; by auto.
Qed.

Lemma node_packets_app k l1 l2 : node_packets k (l1 ++ l2) = node_packets k l1 ++ node_packets k l2.
Proof. apply omap_app. Qed.

(** What a call has to be for its handler to answer with its result. *)
Definition fresh_call (call : option nat) (r : InvokeResult) (s : node) : Prop :=
  forall id, call = Some id -> ~ (id ∈ node_calls s) /\ (id < sys_nextMsg (w_sys (nd_world s)))%nat /\ id ∈ w_calls (nd_world s) /\
    own_result (nd_world s) id r.

Lemma answer_calls s n' taken call k i h r : fresh_call call r s -> node_ok s ->
  let s' := mkNode n' (nd_world s) (nd_phases s) (nd_answers s ++ [mkNodeAnswer k i call h r]) taken in
  NoDup (node_calls s') /\ (forall id, id ∈ node_calls s' -> (id < sys_nextMsg (w_sys (nd_world s)))%nat /\ id ∈ w_calls (nd_world s)).
Proof.
  intros Hf []. simpl. assert (node_calls (mkNode n' (nd_world s) (nd_phases s) (nd_answers s ++ [mkNodeAnswer k i call h r]) taken) ≡ₚ
    (from_option (fun id => [id]) [] call) ++ node_calls s) as Hp.
  { unfold node_calls. simpl. rewrite omap_app. simpl. destruct call; simpl; [rewrite <- app_assoc; symmetry; apply Permutation_middle|by rewrite app_nil_r]. }
  split; [rewrite Hp|intros x; rewrite Hp]; (destruct call as [id|]; simpl; [|by auto]); destruct (Hf id eq_refl) as (H1 & H2 & H3 & _).
  - by constructor.
  - intros [->|Hx]%elem_of_cons; [done|by apply nk_below0].
Qed.

(** The other handlers are as they were. *)
Lemma moved_frame k i x l n n' c h c' k1 c1 i1 h1 : moved k i x l n n' c h c' ->
  n_conns n' !! k1 = Some c1 -> cn_handlers c1 !! i1 = Some h1 ->
  ((k1, i1) = (k, i) /\ h1 = set_stage x h) \/
  ((k1, i1) <> (k, i) /\ exists c0, n_conns n !! k1 = Some c0 /\ cn_handlers c0 !! i1 = Some h1).
Proof.
  intros []. rewrite mv_conns0. intros [[<- <-]|[Hne Hk1]]%lookup_insert_Some Hi1.
  - rewrite mv_handlers0 in Hi1. apply lookup_insert_Some in Hi1 as [[<- <-]|[Hne Hi1]]; [by left|]. right. split; [congruence|eauto].
  - right. split; [congruence|eauto].
Qed.

(** The answers on record, with that of the handler. *)
Lemma moved_answered s k i x l n' c h c' : node_ok s -> moved k i x l (nd_net s) n' c h c' -> x <> HgRun ->
  forall a, a ∈ nd_answers s \/ answer_key a = (k, i) ->
  is_Some (n_conns n' !! na_conn a) /\ (na_cancel a < n_ctx n')%nat /\
  forall d, n_conns n' !! na_conn a = Some d ->
    (forall h, cn_handlers d !! na_cancel a = Some h -> hg_stage h <> HgRun) /\
    (forall codec r ctx, cn_reader d <> RdReserve codec r ctx (na_cancel a)).
Proof.
  intros I M Hx a Ha. pose proof M as []. rewrite mv_ctx0, mv_conns0.
  destruct (no_conns options _ (nk_net s I) k c mv_conn0) as [[] _]. destruct Ha as [Ha|[= Ek Ei]].
  - destruct (nk_answered s I a Ha) as (H1 & H2 & H3). split_and!; [rewrite lookup_insert_is_Some; destruct (decide (k = na_conn a)); auto|done|].
    intros d [[Ek <-]|[_ Hd]]%lookup_insert_Some; [|by apply H3]. rewrite <- Ek in H3. destruct (H3 c mv_conn0) as [H4 H5].
    split; [|rewrite mv_reader0; apply H5]. intros h'. rewrite mv_handlers0. intros [[_ <-]|[_ Hh]]%lookup_insert_Some; [done|by apply H4].
  - rewrite Ek, Ei. split_and!; [rewrite lookup_insert_is_Some; auto|by eapply co_handlers|].
    intros d. rewrite lookup_insert_eq. intros [= <-]. split.
    + intros h'. rewrite mv_handlers0, lookup_insert_eq. by intros [= <-].
    + rewrite mv_reader0. intros codec rq ctx Hr. unfold reader_ok in co_reader. rewrite Hr in co_reader. destruct co_reader as (_ & _ & _ & E). congruence.
Qed.

Lemma moved_live s k i x l n' c h c' : node_ok s -> moved k i x l (nd_net s) n' c h c' -> (k, i) ∉ (nd_phases s).*1 ->
  forall k1 i1 p, (k1, i1, p) ∈ nd_phases s ->
  exists h1, (c ← n_conns n' !! k1; cn_handlers c !! i1) = Some h1 /\ hg_stage h1 = HgRun.
Proof.
  intros I [] Hki k1 i1 p Hp. destruct (nk_live s I k1 i1 p Hp) as (h1 & Hh1 & Hn1). exists h1. split; [|done]. unfold handler_at in Hh1.
  rewrite mv_conns0. destruct (decide (k = k1)) as [<-|Hne]; [|rewrite lookup_insert_ne by done; exact Hh1].
  rewrite lookup_insert_eq. rewrite mv_conn0 in Hh1. simpl in *. rewrite mv_handlers0. rewrite lookup_insert_ne; [done|]. intros <-.
  apply Hki, list_elem_of_fmap. by exists (k, i, p).
Qed.

Lemma is_answer_more l l' k i p : is_answer l k i p -> is_answer (l ++ l') k i p.
Proof. intros (a & H1 & H2). exists a. split; [|done]. apply elem_of_app. by left. Qed.

(** What a connection has queued, with one handler's step. *)
Lemma moved_queued s k i x l n' c h c' : node_ok s -> moved k i x l (nd_net s) n' c h c' ->
  forall k1 c1, n_conns n' !! k1 = Some c1 ->
  node_packets k1 (nd_taken s ++ ((fun p => (k, i, p)) <$> l)) `sublist_of` cn_queued c1.
Proof.
  intros I [] k1 c1 Hk1. rewrite node_packets_app. rewrite mv_conns0 in Hk1.
  assert (node_packets k1 ((fun p => (k, i, p)) <$> l) = if (k =? k1)%nat then l else []) as ->.
  { clear. destruct (k =? k1)%nat eqn:E; induction l as [|q l IH]; unfold node_packets in *; csimpl; rewrite ?E, ?IH; done. }
  destruct (Nat.eqb_spec k k1) as [->|Hne].
  - rewrite lookup_insert_eq in Hk1. injection Hk1 as <-. rewrite mv_queued0. apply sublist_app; [by apply (nk_queued s I)|done].
  - rewrite lookup_insert_ne in Hk1 by done. rewrite app_nil_r. by apply (nk_queued s I).
Qed.

Lemma unanswered s k c i h : node_ok s -> n_conns (nd_net s) !! k = Some c -> cn_handlers c !! i = Some h -> hg_stage h = HgRun ->
  (k, i) ∉ (answer_key <$> nd_answers s).
Proof.
  intros I Hk Hi Hs (a & E & Ha)%list_elem_of_fmap. injection E as -> ->. destruct (nk_answered s I a Ha) as (_ & _ & H3).
  destruct (H3 c Hk) as [H4 _]. by apply H4 in Hi.
Qed.

Lemma node_ok_finish k i call r s s' : node_ok s -> fresh_call call r s -> (k, i) ∉ (nd_phases s).*1 ->
  finish k i call r (nd_world s) (nd_phases s) s = Some s' -> node_ok s'.
Proof.
  intros I Hf Hki. unfold finish. destruct (n_conns (nd_net s) !! k) as [c|] eqn:Hk; [|done]. simpl.
  destruct (cn_handlers c !! i) as [h|] eqn:Hi; [|done]. simpl. destruct (exec_net _ _) as [n'|] eqn:E; [|done]. intros [= <-].
  pose proof (exec_net_ok codecs options max_inflight _ _ _ (nk_net s I) E) as Hn'.
  apply exec_answer in E as (c0 & h0 & c' & Hs & M). pose proof M as [Ek Ei _ _ _ _ _]. rewrite Hk in Ek. injection Ek as <-. rewrite Hi in Ei. injection Ei as <-.
  destruct (answer_calls s n' (nd_taken s) call k i h r Hf I) as [Hd Hb]. pose proof (unanswered s k c i h I Hk Hi Hs) as Hnew.
  split; simpl; try done; try apply I.
  - intros a [Ha| ->%list_elem_of_singleton]%elem_of_app; eapply moved_answered; eauto.
  - intros k1 c1 i1 h1 Hk1 Hi1 Hs1. rewrite fmap_app. destruct (moved_frame _ _ _ _ _ _ _ _ _ _ _ _ _ M Hk1 Hi1) as [[-> _]|(_ & d & Hd1 & Hd2)].
    + apply elem_of_app. right. by left.
    + apply elem_of_app. left. by eapply (nk_sent s I).
  - rewrite fmap_app. apply list.NoDup_app. split_and!; [apply I| |apply NoDup_singleton]. by intros x Hx ->%list_elem_of_singleton.
  - intros a id [Ha1| ->%list_elem_of_singleton]%elem_of_app Hid; [by eapply (nk_results s I)|]. simpl in *. by destruct (Hf id Hid) as (_ & _ & _ & Hr).
  - by eapply moved_live.
  - intros k1 i1 p Hp. by apply is_answer_more, (nk_taken s I).
  - intros k1 c1 i1 h1 p b Hk1 Hi1 Hs1. destruct (moved_frame _ _ _ _ _ _ _ _ _ _ _ _ _ M Hk1 Hi1) as [[[= -> ->] ->]|(_ & d & Hd1 & Hd2)].
    + simpl in Hs1. injection Hs1 as <- <-. split.
      * intros ([[k2 i2] p] & [= <- <-] & (a & Ha & Ea & _)%(nk_taken s I))%list_elem_of_fmap. apply Hnew, list_elem_of_fmap. by exists a.
      * exists (mkNodeAnswer k i call h r). split; [apply elem_of_app; right; by left|done].
    + destruct (nk_enqueue s I k1 d i1 h1 p b Hd1 Hd2 Hs1) as [? ?]. split; [done|by apply is_answer_more].
  - intros k1 c1 Hk1. pose proof (moved_queued _ _ _ _ _ _ _ _ _ I M k1 c1 Hk1) as Hq. simpl in Hq. by rewrite app_nil_r in Hq.
Qed.

(** The handler is in [enqueue] with its answer: at most this one packet is taken from it. *)
Lemma node_ok_put k i s s' : node_ok s -> handler_put k i s = Some s' -> node_ok s'.
Proof.
  intros I. unfold handler_put. destruct (n_conns (nd_net s) !! k) as [c|] eqn:Hk; [|done]. simpl.
  destruct (cn_handlers c !! i) as [h|] eqn:Hi; [|done]. simpl. destruct (exec_net _ _) as [n'|] eqn:E; [|done]. intros [= <-].
  pose proof (exec_net_ok codecs options max_inflight _ _ _ (nk_net s I) E) as Hn'.
  apply exec_put in E as (c0 & h0 & c' & x & p & b & Hs & Hx & M). pose proof M as [Ek Ei _ _ _ _ _].
  rewrite Hk in Ek. injection Ek as <-. rewrite Hi in Ei. injection Ei as <-.
  destruct (nk_enqueue s I k c i h p b Hk Hi Hs) as [Hnt Hans].
  assert (x <> HgRun) as Hxr by (by destruct Hx as [->|[-> _]]).
  assert ((k, i) ∈ (answer_key <$> nd_answers s)) as Hkey by (apply (nk_sent s I k c i h Hk Hi); by rewrite Hs).
  assert (put_of h c = [] \/ put_of h c = [p]) as Hput by (unfold put_of; rewrite Hs; destruct b; [case_match|]; auto).
  assert (((fun q => (k, i, q)) <$> put_of h c).*1 = [] \/ ((fun q => (k, i, q)) <$> put_of h c).*1 = [(k, i)]) as Hput1
    by (destruct Hput as [->| ->]; auto).
  split; simpl; try done; try apply I.
  - intros a Ha. eapply moved_answered; eauto.
  - intros k1 c1 i1 h1 Hk1 Hi1 Hs1. destruct (moved_frame _ _ _ _ _ _ _ _ _ _ _ _ _ M Hk1 Hi1) as [[-> _]|(_ & d & Hd1 & Hd2)]; [done|].
    by eapply (nk_sent s I).
  - eapply moved_live; [done|done|]. intros ([[k1 i1] q] & [= <- <-] & Hq)%list_elem_of_fmap.
    destruct (nk_live s I k i q Hq) as (h1 & Hh1 & Hr). unfold handler_at in Hh1. rewrite Hk in Hh1. simpl in Hh1. congruence.
  - rewrite fmap_app. apply list.NoDup_app. split_and!; [apply I| |by destruct Hput1 as [->| ->]; [apply base.NoDup_nil_2|apply NoDup_singleton]].
    intros y Hy1 Hy2. destruct Hput1 as [E1|E1]; rewrite E1 in Hy2; [by apply not_elem_of_nil in Hy2|]. apply list_elem_of_singleton in Hy2 as ->. done.
  - intros k1 i1 q [Hq|(q' & E1 & Hq')%list_elem_of_fmap]%elem_of_app; [by apply (nk_taken s I)|].
    injection E1 as -> -> ->. destruct Hput as [E1|E1]; rewrite E1 in Hq'; [by apply not_elem_of_nil in Hq'|].
    apply list_elem_of_singleton in Hq' as ->. done.
  - intros k1 c1 i1 h1 q b1 Hk1 Hi1 Hs1. rewrite fmap_app, not_elem_of_app.
    destruct (moved_frame _ _ _ _ _ _ _ _ _ _ _ _ _ M Hk1 Hi1) as [[[= -> ->] ->]|(Hne & d & Hd1 & Hd2)].
    + simpl in Hs1. destruct Hx as [->|[-> E0]]; [done|]. injection Hs1 as <- <-. rewrite E0. split; [|done]. split; [done|apply not_elem_of_nil].
    + destruct (nk_enqueue s I k1 d i1 h1 q b1 Hd1 Hd2 Hs1) as [? ?]. split; [|done]. split; [done|].
      destruct Hput1 as [E1|E1]; rewrite E1; [apply not_elem_of_nil|by rewrite list_elem_of_singleton].
  - by eapply moved_queued.
Qed.

(** ** Every step keeps it *)

Lemma node_ok_lookup k i err s s' : node_ok s -> handler_lookup k i err s = Some s' -> node_ok s'.
Proof.
  intros I. unfold handler_lookup. destruct (handler_at k i s) as [h|] eqn:Eh; [|done]. simpl. destruct (hg_stage h) eqn:Es; unfold hg_running; rewrite Es; try done. simpl.
  case_bool_decide as Hki; [done|]. destruct (Table_Dispatch _ _ _ _ _ _ _ _ _) as [[r|ctx target]|]; [|intros [= <-]|done].
  - simpl. by apply node_ok_finish.
  - apply (node_ok_phases ((k, i, HRouted ctx target) :: nd_phases s)); [done| | | |apply (nk_calls s I)|apply (nk_below s I)].
    + constructor; [done|apply (nk_keys s I)].
    + intros k1 i1 p [[= -> -> ->]|Hp]%elem_of_cons; [by eauto|by apply (nk_live s I) in Hp].
    + intros k1 i1 id c [Heq|Hp]%elem_of_cons; [done|by apply (nk_deadline s I) in Hp].
Qed.

Lemma phase_at j k i p s : node_ok s -> nd_phases s !! j = Some (k, i, p) ->
  nd_phases s ≡ₚ (k, i, p) :: delete j (nd_phases s) /\ (k, i) ∉ (delete j (nd_phases s)).*1.
Proof.
  intros I Hj. pose proof (delete_Permutation _ _ _ Hj) as Hp. split; [done|]. pose proof (nk_keys s I) as Hd. rewrite Hp in Hd. by apply list.NoDup_cons in Hd as [].
Qed.

Lemma insert_waiting j k i id ctx p phases : phases !! j = Some (k, i, p) -> let l := <[j := (k, i, HWaiting id ctx)]> phases in
  (forall x, x ∈ l -> x = (k, i, HWaiting id ctx) \/ x ∈ phases) /\ l.*1 = phases.*1 /\
  (wait_id (k, i, p) = None -> omap wait_id l ≡ₚ id :: omap wait_id phases).
Proof.
  intros Hj. split_and!.
  - intros x [m Hm]%list_elem_of_lookup. destruct (decide (m = j)) as [->|Hne].
    + rewrite list_lookup_insert_eq in Hm by (by eapply lookup_lt_Some). injection Hm as <-. auto.
    + rewrite list_lookup_insert_ne in Hm by done. right. by eapply list_elem_of_lookup_2.
  - rewrite list_fmap_insert. apply list_insert_id. by rewrite list_lookup_fmap, Hj.
  - intros Hw. rewrite insert_take_drop by (by eapply lookup_lt_Some). rewrite <- (take_drop_middle _ _ _ Hj) at 3. rewrite !omap_app. simpl. rewrite Hw.
    symmetry. apply Permutation_middle.
Qed.

Lemma node_ok_call j v s s' : node_ok s -> handler_call j v s = Some s' -> node_ok s'.
Proof.
  intros I. unfold handler_call. destruct (nd_phases s !! j) as [[[k i] [ctx target|]]|] eqn:Hj; [|done..].
  destruct (handler_at k i s) as [h|] eqn:Eh; [|done]. simpl. destruct (InvokeTarget_start _ _ _ _ _ _) as [[w' r]|] eqn:E; [|done]. simpl.
  destruct (InvokeTarget_start_grows _ _ _ _ _ _ _ _ (nk_world s I) E) as [(G1 & G2 & G3 & G4) W].
  destruct (phase_at _ _ _ _ _ I Hj) as [Hp Hki]. pose proof (node_ok_world w' s I G1 G2 G3 G4) as Iw.
  destruct r as [r|id ic]; [|intros [= <-]].
  - pose proof (node_ok_fewer (delete j (nd_phases s)) _ Iw (sublist_delete _ _)) as If. by apply (node_ok_finish k i None r _ _ If).
  - destruct W as (-> & W2 & W3 & W4). destruct (insert_waiting j k i (sys_nextMsg (w_sys (nd_world s))) ic (HRouted ctx target) (nd_phases s) Hj) as (Q1 & Q2 & Q3).
    apply (node_ok_phases _ _ Iw).
    + rewrite Q2. apply (nk_keys s I).
    + intros k1 i1 p [[= -> -> ->]|Hx]%Q1; [|by apply (nk_live s I) in Hx]. apply (nk_live s I k i (HRouted ctx target)). by eapply list_elem_of_lookup_2.
    + intros k1 i1 id c [[= -> -> -> ->]|Hx]%Q1; [done|by apply (nk_deadline s I) in Hx].
    + unfold node_calls. simpl. rewrite Q3, <- Permutation_middle by done. constructor; [|apply (nk_calls s I)].
      intros Hx. apply (nk_below s I) in Hx as [Hx _]. lia.
    + unfold node_calls. simpl. intros id. rewrite Q3, <- Permutation_middle by done. intros [->|Hx]%elem_of_cons; [done|]. apply (nk_below _ Iw). done.
Qed.

Lemma node_ok_result j now cancelled prefer s s' : node_ok s -> handler_result j now cancelled prefer s = Some s' -> node_ok s'.
Proof.
  intros I. unfold handler_result. destruct (nd_phases s !! j) as [[[k i] [|id ctx]]|] eqn:Hj; [done| |done].
  destruct (await_result _ _ _ _ _ _) as [r|] eqn:E; [|done]. simpl. destruct (phase_at _ _ _ _ _ I Hj) as [Hp Hki].
  pose proof (node_ok_fewer (delete j (nd_phases s)) _ I (sublist_delete _ _)) as If. apply (node_ok_finish k i (Some id) r _ _ If); [|done].
  pose proof (nk_calls s I) as Hc. pose proof (nk_below s I id) as Hb. assert (node_calls s ≡ₚ
    id :: node_calls (mkNode (nd_net s) (nd_world s) (delete j (nd_phases s)) (nd_answers s) (nd_taken s))) as Hq.
  { unfold node_calls. simpl. rewrite Permutation_middle. apply Permutation_app; [done|]. apply (omap_Permutation wait_id) in Hp. exact Hp. }
  rewrite Hq in Hc, Hb. apply list.NoDup_cons in Hc as [Hc _]. destruct Hb as [Hb1 Hb2]; [by left|].
  intros x [= <-]. split_and!; [done|done|done|by eapply await_own].
Qed.

Lemma exec_node_ok a s s' : node_ok s -> exec_node a s = Some s' -> node_ok s'.
Proof.
  intros I. destruct a as [a|a|k i err|k i|j v|j now cancelled prefer].
  - assert (forall n', exec_net a (nd_net s) = Some n' -> (forall k i, ~ answers_of a k i) -> node_ok (mkNode n' (nd_world s) (nd_phases s) (nd_answers s) (nd_taken s))) as Hn
      by (intros n' E Ha; by eapply node_ok_net).
    destruct a; try done; cbn [exec_node]; (destruct (exec_net _ _) as [n'|] eqn:E; [|done]); intros [= <-]; (apply Hn; [done|by intros k0 i0 [[r0 E0]|E0]]).
  - cbn [exec_node]. destruct (exec a (nd_world s)) as [w'|] eqn:E; [|done]. intros [= <-].
    destruct (exec_grows a _ _ (nk_world s I) E) as (G1 & G2 & G3 & G4). by apply node_ok_world.
  - by apply node_ok_lookup.
  - by apply node_ok_put.
  - by apply node_ok_call.
  - by apply node_ok_result.
Qed.

Lemma node_reach_ok app table s : node_reach app table s -> node_ok s.
Proof. induction 1; [apply node_ok_init|by eapply exec_node_ok]. Qed.

Lemma finish_ready k i call r w phases s h : node_ok s -> handler_at k i s = Some h -> hg_stage h = HgRun ->
  is_Some (finish k i call r w phases s).
Proof.
  intros I. unfold handler_at, finish. destruct (n_conns (nd_net s) !! k) as [c|] eqn:Hk; [|done]. simpl. intros Hi Hn. rewrite Hi. simpl.
  unfold Connection.exec_net. rewrite (no_crash options _ (nk_net s I)), Hk, Hi, Hn. by eexists.
Qed.

(** C29: A node answers each request once, and with what its own call came to. Under every
    interleaving of connections, readers, handler goroutines, actors and closing
    connections: a handler answers at most once; no call serves two requests; the answer
    that came from a call is the one result its own message was given, or the failure of
    its own context, never the result of another request; what each connection takes for
    its writer from the handlers are these answers, at most once each, queued in the order
    in which they were taken. And no
    handler waits for ever: it waits under a deadline, and when that has passed, or the
    result of its message is there, it answers. *)
Theorem answers_are_own (app : App) (table : option Table) (s : node) : node_reach app table s ->
  NoDup (answer_key <$> nd_answers s) /\ NoDup (node_calls s) /\
  (forall a id, a ∈ nd_answers s -> na_call a = Some id ->
     ((Z.of_nat id, na_result a) ∈ sys_results (w_sys (nd_world s)) /\
      forall r, (Z.of_nat id, r) ∈ sys_results (w_sys (nd_world s)) -> r = na_result a) \/
     exists e, na_result a = contextFailure e "actor invoke") /\
  NoDup (nd_taken s).*1 /\ (forall k i p, (k, i, p) ∈ nd_taken s -> is_answer (nd_answers s) k i p) /\
  (forall k c, n_conns (nd_net s) !! k = Some c -> node_packets k (nd_taken s) `sublist_of` cn_queued c) /\
  (forall j k i id ctx, nd_phases s !! j = Some (k, i, HWaiting id ctx) -> exists d, deadline_of ctx = Some d /\
     forall now cancelled prefer, d <= now \/ (exists r, (Z.of_nat id, r) ∈ sys_results (w_sys (nd_world s))) ->
     is_Some (handler_result j now cancelled prefer s)).
Proof.
  intros I%node_reach_ok. split_and!; [apply (nk_unique s I)|apply (nk_calls s I)| |apply (nk_once s I)|apply (nk_taken s I)|apply (nk_queued s I)|].
  - intros a id Ha Hid. destruct (nk_results s I a id Ha Hid) as [Hr|Hr]; [left; split; [done|]|by right].
    intros r Hr'. by eapply results_unique; [apply (nk_world s I)|..].
  - intros j k i id ctx Hj. pose proof (list_elem_of_lookup_2 _ _ _ Hj) as Hp. destruct (nk_deadline s I k i id ctx Hp) as [d Hd].
    exists d. split; [done|]. intros now cancelled prefer Hw. destruct (nk_live s I k i _ Hp) as (h & Hh & Hn). unfold handler_result. rewrite Hj.
    assert (is_Some (await_result id ctx now cancelled prefer (w_sys (nd_world s)))) as [r ->].
    { destruct Hw as [Hw|[r Hr]]; [by eapply await_expired|by eapply await_ready]. }
    simpl. by eapply finish_ready.
Qed.
End Node.

(** ** Two requests of one client *)
#[local] Existing Instance toy_proto.
#[local] Existing Instance toy_control.

(** The first is answered; the second waits for its actor. *)
Definition demo_node_run : list node_action :=
  (NdWorld <$> demo_create) ++
  (NdNet <$> [NAccept 0 "c1" "10.0.0.9" true; NStart 0 0;
    NRead 0 0 (Some (enc (request_packet 1 SystemMethodHandshake [Byte.x01]))); NHandshake 0 0; NSend 0; NSend 0;
    NRead 0 0 (Some (enc (request_packet 7 100 [Byte.x61]))); NReserve 0;
    NRead 0 0 (Some (enc (request_packet 8 100 [Byte.x62]))); NReserve 0]) ++
  [NdLookup 0 0 None; NdLookup 0 1 None; NdCall 1 demo_env; NdCall 0 demo_env] ++
  (NdWorld <$> [APush 1; ACounted 0 QMail; ASent 0 QMail 0 true; ALoop 0 (LMail 2000 false); AReturn 0 demo_answer; APush 0]) ++ [NdResult 1 3000 false true; NdSend 0 0; NdSend 0 0].

Definition demo_node : node := default (node_init demo_app (Some (NewTable true)))
  (run_node std_registry demo_options demo_node_run (node_init demo_app (Some (NewTable true)))).

Lemma node_reach_run codecs options app table l s s' : node_reach codecs options app table s ->
  run_node codecs options l s = Some s' -> node_reach codecs options app table s'.
Proof.
  revert s. induction l as [|a l IH]; simpl; intros s Hs; [by intros [= <-]|].
  destruct (exec_node codecs options a s) as [s1|] eqn:E; [|done]. simpl. apply IH. by eapply node_step.
Qed.

Lemma demo_node_reach : node_reach std_registry demo_options demo_app (Some (NewTable true)) demo_node.
Proof.
  unfold demo_node. destruct (run_node _ _ _ _) as [s|] eqn:E; simpl; [|apply node_start].
  eapply node_reach_run; [apply node_start|exact E].
Qed.

Lemma one_answer (l : list node_answer) x : na_call <$> l = [x] -> exists a, l = [a] /\ na_call a = x.
Proof. destruct l as [|a [|b l]]; simpl; [discriminate| |discriminate]. intros [= <-]. eauto. Qed.

Definition one_waiting (l : list (nat * nat * hphase)) : option (nat * option Z) :=
  match l with [(_, _, HWaiting id ctx)] => Some (id, deadline_of ctx) | _ => None end.
Lemma one_waiting_at l id d : one_waiting l = Some (id, d) -> exists k i ctx, l = [(k, i, HWaiting id ctx)] /\ deadline_of ctx = d.
Proof. destruct l as [|[[k i] [c t|id' ctx]] [|p l]]; simpl; try discriminate. intros [= <- <-]. eauto. Qed.

Definition failed_answer (l : list node_answer) : bool := existsb (fun a => negb (InvokeResult_OK (Some (na_result a)))) l.

Lemma demo_node_answered : (na_call <$> nd_answers demo_node) = [Some 0%nat] /\ failed_answer (nd_answers demo_node) = false /\
  one_waiting (nd_phases demo_node) = Some (1%nat, Some 30000000000) /\ (nd_taken demo_node).*1 = [(0%nat, 0%nat)].
Proof. vm_compute. by split_and!. Qed.

Lemma answers_are_own_witness : exists a k i ctx, nd_answers demo_node = [a] /\ na_call a = Some 0%nat /\
  (0, na_result a) ∈ sys_results (w_sys (nd_world demo_node)) /\ nd_phases demo_node = [(k, i, HWaiting 1 ctx)] /\
  is_Some (handler_result std_registry demo_options 0 30000000000 false false demo_node).
Proof.
  destruct (answers_are_own std_registry demo_options demo_max _ _ _ demo_node_reach) as (_ & _ & Hown & _ & Htaken & _ & Hwait).
  destruct demo_node_answered as (Ha & Hf & Hp & _). apply one_answer in Ha as (a & Ea & Hc). apply one_waiting_at in Hp as (k & i & ctx & Ep & Hd).
  rewrite Ea in Hown, Hf. rewrite Ep in Hwait. exists a, k, i, ctx.
  split; [exact Ea|]. split; [exact Hc|]. split; [|split; [exact Ep|]].
  - destruct (Hown a 0%nat (list_elem_of_here _ _) Hc) as [[Hr _]|[e He]]; [exact Hr|]. simpl in Hf. rewrite He in Hf. clear -Hf; destruct e; discriminate Hf.
  - destruct (Hwait 0%nat k i 1%nat ctx eq_refl) as (d & Hd' & Hr). apply Hr. left. rewrite Hd in Hd'. injection Hd' as <-. apply Z.le_refl.
Defined.
