(* ===== verification/HttpActor.v ===== *)
(** The HTTP adapter of actor calls (net/httpactor/handler.go, options.go, component.go).

    [ServeHTTP] is the whole handler, as a function of the request, the request counter and
    the method table to the response, with the dispatch it made. The environment's part of
    a request is in the record [http_request]: the header lookup, the bytes its body
    delivers before it ends or fails, and the request's own context. The authenticator is
    an option of the handler; the table's Dispatch is an argument. *)
From S2P Require Import Prelude Strconv Facade Context Serializer Method Connection.

(** ** Standard library pieces *)

Definition is_space (a : ascii) : bool := let b := N_of_ascii a in ((9 <=? b) && (b <=? 13) || (b =? 32))%N.
Definition lower (a : ascii) : ascii :=
  let b := N_of_ascii a in if ((65 <=? b) && (b <=? 90))%N then ascii_of_N (b + 32) else a.
Fixpoint ToLower (s : str) : str :=
  match s with EmptyString => EmptyString | String a s => String (lower a) (ToLower s) end.
Fixpoint TrimLeft (s : str) : str :=
  match s with EmptyString => EmptyString | String a s' => if is_space a then TrimLeft s' else s end.
Fixpoint TrimRight (s : str) : str :=
  match s with
  | EmptyString => EmptyString
  | String a s => match TrimRight s with
                  | EmptyString => if is_space a then EmptyString else String a EmptyString
                  | t => String a t
                  end
  end.
Definition TrimSpace (s : str) : str := TrimLeft (TrimRight s).

(** A token character of RFC 2045, and the longest token at the front of a string. *)
Definition tspecials : str := String (ascii_of_N 34) "()<>@,;:\/[]?=".
Definition token_char (a : ascii) : bool :=
  let b := N_of_ascii a in ((32 <? b) && (b <? 127))%N && negb (str_mem a tspecials).
Fixpoint consumeToken (s : str) : str * str :=
  match s with
  | EmptyString => (EmptyString, EmptyString)
  | String a s' => if token_char a then let '(t, r) := consumeToken s' in (String a t, r) else (EmptyString, s)
  end.

Definition quote_char : ascii := ascii_of_N 34.
Definition backslash : ascii := ascii_of_N 92.
(** The quoted string after its opening quote; [None]: it does not end. *)
Fixpoint consumeQuoted (s : str) : option (str * str) :=
  match s with
  | EmptyString => None
  | String a s' =>
      if Ascii.eqb a quote_char then Some (EmptyString, s')
      else if (N_of_ascii a =? 13)%N || (N_of_ascii a =? 10)%N then None
      else match s' with
           | String b s'' =>
               if Ascii.eqb a backslash && str_mem b tspecials
               then match consumeQuoted s'' with Some (t, r) => Some (String b t, r) | None => None end
               else match consumeQuoted s' with Some (t, r) => Some (String a t, r) | None => None end
           | EmptyString => None
           end
  end.

(** One [; name = value] of a media type; [None]: malformed. *)
Definition consumeMediaParam (v : str) : option (str * str * str) :=
  match TrimLeft v with
  | String c rest =>
      if Ascii.eqb c ";" then
        let '(param, rest) := consumeToken (TrimLeft rest) in
        if String.eqb param EmptyString then None
        else match TrimLeft rest with
             | String e rest =>
                 if Ascii.eqb e "=" then
                   let rest := TrimLeft rest in
                   match rest with
                   | String q tail =>
                       if Ascii.eqb q quote_char
                       then match consumeQuoted tail with
                            | Some (value, r) => Some (ToLower param, value, r)
                            | None => None
                            end
                       else let '(value, r) := consumeToken rest in
                            if String.eqb value EmptyString then None else Some (ToLower param, value, r)
                   | EmptyString => None
                   end
                 else None
             | EmptyString => None
             end
      else None
  | EmptyString => None
  end.

(** Whether the parameter list is well formed; [fuel]: a parameter takes a character. *)
Fixpoint mediaParams_ok (fuel : nat) (seen : list (str * str)) (v : str) : bool :=
  match fuel with
  | O => false
  | S fuel =>
      let v := TrimLeft v in
      if String.eqb v EmptyString then true
      else match consumeMediaParam v with
           | None => String.eqb (TrimSpace v) ";"
           | Some (key, value, rest) =>
               negb (existsb (fun kv => String.eqb kv.1 key && negb (String.eqb kv.2 value)) seen)
               && mediaParams_ok fuel ((key, value) :: seen) rest
           end
  end.

Definition mediaType_ok (s : str) : bool :=
  let '(typ, rest) := consumeToken s in
  negb (String.eqb typ EmptyString) &&
  match rest with
  | EmptyString => true
  | String c rest => Ascii.eqb c "/" &&
      let '(subtype, rest) := consumeToken rest in
      negb (String.eqb subtype EmptyString) && String.eqb rest EmptyString
  end.

(** The base of [mime.ParseMediaType] and the parameters after it. *)
Fixpoint cut_semicolon (s : str) : str * str :=
  match s with
  | EmptyString => (EmptyString, EmptyString)
  | String a s' => if Ascii.eqb a ";" then (EmptyString, s) else let '(b, r) := cut_semicolon s' in (String a b, r)
  end.
Definition ParseMediaType (v : str) : option str :=
  let '(base, rest) := cut_semicolon v in
  let mediatype := TrimSpace (ToLower base) in
  if mediaType_ok mediatype && mediaParams_ok (S (String.length rest)) [] rest then Some mediatype else None.

(** ** Options *)

(** [ho_Authenticator]: the session, or the error; [Some (Ok None)]: anonymous; [None]: it
    panics. *)
Record http_request := mkHttpRequest {
  hr_Method : str;
  hr_Path : str;
  hr_Header : str -> str;
  hr_Body : bytes;
  hr_BodyFails : bool;
  hr_Context : gctx }.

(** src/net/httpactor/options.go:15-21, Options *)
Record HttpOptions := mkHttpOptions {
  ho_MaxBodySize : Z;
  ho_DefaultTimeout : Z;
  ho_MaxTimeout : Z;
  ho_Authenticator : option (http_request -> option (res (option Session)));
  ho_MetadataHeaders : list str }.

(** src/net/httpactor/options.go:26-33, defaultOptions *)
Definition http_defaultOptions : HttpOptions :=
  mkHttpOptions (Z.shiftl 4 20) (3 * Second) (30 * Second) None ["traceparent"; "tracestate"; "x-request-id"].

(** src/net/httpactor/options.go:36-42, WithMaxBodySize *)
Definition WithMaxBodySize (size : Z) (o : HttpOptions) : HttpOptions :=
  mkHttpOptions (if_positive size (ho_MaxBodySize o)) (ho_DefaultTimeout o) (ho_MaxTimeout o) (ho_Authenticator o)
    (ho_MetadataHeaders o).
(** src/net/httpactor/options.go:45-54, WithTimeout *)
Definition WithHttpTimeout (defaultTimeout maxTimeout : Z) (o : HttpOptions) : HttpOptions :=
  mkHttpOptions (ho_MaxBodySize o) (if_positive defaultTimeout (ho_DefaultTimeout o))
    (if_positive maxTimeout (ho_MaxTimeout o)) (ho_Authenticator o) (ho_MetadataHeaders o).
(** src/net/httpactor/options.go:57-59, WithAuthenticator *)
Definition WithAuthenticator (a : option (http_request -> option (res (option Session)))) (o : HttpOptions) : HttpOptions :=
  mkHttpOptions (ho_MaxBodySize o) (ho_DefaultTimeout o) (ho_MaxTimeout o) a (ho_MetadataHeaders o).
(** src/net/httpactor/options.go:62-64, WithMetadataHeaders *)
Definition WithMetadataHeaders (headers : list str) (o : HttpOptions) : HttpOptions :=
  mkHttpOptions (ho_MaxBodySize o) (ho_DefaultTimeout o) (ho_MaxTimeout o) (ho_Authenticator o) headers.

(** src/net/httpactor/component.go:24-32, NewComponent *)
Definition HttpComponent_Name (name : str) : str :=
  String.append "http_actor_" (if String.eqb name EmptyString then "default" else name).

(** ** The handler *)

(** src/net/httpactor/handler.go:18-27, ContentTypeJSON *)
Definition ContentTypeJSON : str := "application/json".
(** src/net/httpactor/handler.go:18-27, ContentTypeProtobuf *)
Definition ContentTypeProtobuf : str := "application/x-protobuf".
(** src/net/httpactor/handler.go:18-27, TimeoutHeader *)
Definition TimeoutHeader : str := "X-ActorGo-Timeout-Ms".
(** src/net/httpactor/handler.go:18-27, routePrefix *)
Definition routePrefix : str := "/actor/".

Record http_response := mkHttpResponse { hp_Status : Z; hp_Headers : list (str * str); hp_Body : bytes }.

Definition StatusOK : Z := 200.
Definition StatusAccepted : Z := 202.
Definition StatusBadRequest : Z := 400.
Definition StatusUnauthorized : Z := 401.
Definition StatusForbidden : Z := 403.
Definition StatusNotFound : Z := 404.
Definition StatusMethodNotAllowed : Z := 405.
Definition StatusConflict : Z := 409.
Definition StatusPreconditionFailed : Z := 412.
Definition StatusRequestEntityTooLarge : Z := 413.
Definition StatusUnsupportedMediaType : Z := 415.
Definition StatusTooManyRequests : Z := 429.
Definition StatusInternalServerError : Z := 500.
Definition StatusServiceUnavailable : Z := 503.
Definition StatusGatewayTimeout : Z := 504.

(** src/net/httpactor/handler.go:239-268, httpStatus *)
Definition httpStatus (code : Z) : Z :=
  if code =? status_num STATUS_OK then StatusOK
  else if code =? status_num STATUS_CANCELLED then 499
  else if code =? status_num STATUS_INVALID_ARGUMENT then StatusBadRequest
  else if code =? status_num STATUS_DEADLINE_EXCEEDED then StatusGatewayTimeout
  else if code =? status_num STATUS_NOT_FOUND then StatusNotFound
  else if (code =? status_num STATUS_ALREADY_EXISTS) || (code =? status_num STATUS_ABORTED) then StatusConflict
  else if code =? status_num STATUS_PERMISSION_DENIED then StatusForbidden
  else if code =? status_num STATUS_UNAUTHENTICATED then StatusUnauthorized
  else if code =? status_num STATUS_RESOURCE_EXHAUSTED then StatusTooManyRequests
  else if code =? status_num STATUS_FAILED_PRECONDITION then StatusPreconditionFailed
  else if code =? status_num STATUS_UNSUPPORTED_MEDIA then StatusUnsupportedMediaType
  else if code =? status_num STATUS_UNAVAILABLE then StatusServiceUnavailable
  else StatusInternalServerError.

(** src/net/httpactor/handler.go:232-237, contentType *)
Definition contentType (codec : Z) : str := if codec =? CodecProtobuf then ContentTypeProtobuf else ContentTypeJSON.

(** src/net/httpactor/handler.go:217-230, codecFromContentType *)
Definition codecFromContentType (value : str) : option Z :=
  match ParseMediaType value with
  | None => None
  | Some mediaType =>
      if String.eqb (ToLower mediaType) ContentTypeJSON then Some CodecJSON
      else if String.eqb (ToLower mediaType) ContentTypeProtobuf then Some CodecProtobuf
      else None
  end.

(** [strings.HasPrefix] and [strings.TrimPrefix]. *)
Fixpoint trim_prefix (p s : str) : option str :=
  match p, s with
  | EmptyString, _ => Some s
  | String a p, String b s => if Ascii.eqb a b then trim_prefix p s else None
  | _, _ => None
  end.

(** src/net/httpactor/handler.go:205-215, methodIDFromPath *)
Definition methodIDFromPath (path : str) : option Z :=
  match trim_prefix routePrefix path with
  | None => None
  | Some value =>
      if String.eqb value EmptyString || str_mem "/" value then None
      else match parse_uint 10 32 value with
           | (methodID, None) => if SystemMethodKick <? methodID then Some methodID else None
           | (_, Some _) => None
           end
  end.

(** The counter after it, and the identifier; two turns are enough. *)
(** src/net/httpactor/handler.go:196-203, Handler.nextRequestID *)
Fixpoint nextRequestID (fuel : nat) (counter : Z) : option (Z * Z) :=
  match fuel with
  | O => None
  | S fuel => let id := u32 (counter + 1) in if negb (id =? 0) then Some (id, id) else nextRequestID fuel id
  end.

(** The body sent when even the error cannot be encoded. *)
Definition fallback_error (q : ascii) : str :=
  let quoted s := String q (String.append s (char_str q)) in
  String.append "{" (String.append (quoted "code") (String.append ":11," (String.append (quoted "message")
    (String.append ":" (String.append (quoted "internal error") "}"))))).

Section Handler.
(** The handler's options, the registry of body codecs, and the value an error body is. *)
Variable options : HttpOptions.
Variable codecs : Registry.
Variable HTTPError : Z -> str -> str -> value.

(** src/net/httpactor/handler.go:133-152, Handler.writeError *)
Definition Handler_writeError (codec statusCode : Z) (requestID : str) (result : option InvokeResult) : http_response :=
  let codec := if negb (codec =? CodecProtobuf) then CodecJSON else codec in
  let result := match result with Some r => r | None => ErrorResult STATUS_INTERNAL "missing invoke result" end in
  let '(body, codec) :=
    match Registry_Marshal codecs codec (PVal (HTTPError (r_Code result) (r_Message result) requestID)) with
    | Ok body => (body, codec)
    | Err _ => (list_byte_of_string (fallback_error quote_char), CodecJSON)
    end in
  mkHttpResponse statusCode
    (("Content-Type"%string, contentType codec)
       :: (if String.eqb requestID EmptyString then [] else [("X-ActorGo-Request-ID"%string, requestID)])) body.

(** src/net/httpactor/handler.go:106-131, Handler.writeResult *)
Definition Handler_writeResult (codec : Z) (requestID : str) (ctx : RequestContext) (result : option InvokeResult)
  : http_response :=
  let result := match result with Some r => r | None => ErrorResult STATUS_INTERNAL "method table returned nil result" end in
  if negb (InvokeResult_OK (Some result)) then Handler_writeError codec (httpStatus (r_Code result)) requestID (Some result)
  else
    let success body := mkHttpResponse StatusOK
      [("Content-Type"%string, contentType codec); ("X-ActorGo-Request-ID"%string, requestID)] body in
    match r_Payload result with
    | PNil => success []
    | PBytes encoded => success encoded
    | PVal _ =>
        match Registry_Marshal codecs (rc_Codec ctx) (r_Payload result) with
        | Ok encoded => success encoded
        | Err _ => Handler_writeError codec StatusInternalServerError requestID
                     (Some (ErrorResult STATUS_INTERNAL "response body encode failed"))
        end
    end.

(** [None]: the authenticator panics. *)
(** src/net/httpactor/handler.go:154-170, Handler.authenticate *)
Definition Handler_authenticate (request : http_request) : option (res (option Session)) :=
  match ho_Authenticator options with
  | None => Some (Ok None)
  | Some authenticator =>
      r ← authenticator request;
      match r with
      | Err e => Some (Err e)
      | Ok None => Some (Ok None)
      | Ok (Some x) => Some (Ok (Some (mkSession (s_Sid x) (s_Uid x) (s_Ip x) (maps_Clone (s_Data x)))))
      end
  end.

(** src/net/httpactor/handler.go:172-184, Handler.timeout *)
Definition Handler_timeout (request : http_request) : Z :=
  let timeout := ho_DefaultTimeout options in
  let value := hr_Header request TimeoutHeader in
  let timeout :=
    if String.eqb value EmptyString then timeout
    else match parse_uint 10 32 value with
         | (milliseconds, None) => if 0 <? milliseconds then milliseconds * Millisecond else timeout
         | (_, Some _) => timeout
         end in
  if ho_MaxTimeout options <? timeout then ho_MaxTimeout options else timeout.

(** src/net/httpactor/handler.go:186-194, Handler.metadata *)
Definition Handler_metadata (request : http_request) : gomap str bytes :=
  Some (foldl (fun metadata header =>
    let value := hr_Header request header in
    if String.eqb value EmptyString then metadata
    else <[ToLower header := list_byte_of_string value]> metadata) ∅ (ho_MetadataHeaders options)).

(** [io.ReadAll] of the body behind [http.MaxBytesReader]. *)
Definition read_body (request : http_request) : option bytes :=
  if (ho_MaxBodySize options <? blen (hr_Body request)) || hr_BodyFails request then None else Some (hr_Body request).

(** The call of Dispatch a request led to. *)
Record dispatched := mkDispatched { dp_ctx : RequestContext; dp_method : Z; dp_body : bytes; dp_type : MsgType }.

(** [counter]: the request counter before and after; the response is not written when
    Dispatch or the authenticator panics ([None]). A codec that panics is not modelled. *)
(** src/net/httpactor/handler.go:53-104, Handler.ServeHTTP *)
Definition Handler_ServeHTTP (methods : option Table) (dispatch : dispatched -> option (option InvokeResult))
    (now : Z) (counter : Z) (request : http_request) : option (Z * http_response * option dispatched) :=
  let failed status code message := Handler_writeError CodecJSON status EmptyString (Some (ErrorResult code message)) in
  if negb (String.eqb (hr_Method request) "POST") then
    let r := failed StatusMethodNotAllowed STATUS_FAILED_PRECONDITION "only POST is supported"%string in
    Some (counter, mkHttpResponse (hp_Status r) (("Allow"%string, "POST"%string) :: hp_Headers r) (hp_Body r), None)
  else
  match methodIDFromPath (hr_Path request) with
  | None => Some (counter, failed StatusNotFound STATUS_NOT_FOUND "actor method route not found"%string, None)
  | Some methodID =>
  match Table_MsgType methodID methods with
  | None => Some (counter, failed StatusNotFound STATUS_NOT_FOUND "actor method not found"%string, None)
  | Some msgType =>
  match codecFromContentType (hr_Header request "Content-Type") with
  | None => Some (counter, failed StatusUnsupportedMediaType STATUS_INVALID_ARGUMENT
                    "Content-Type must be application/json or application/x-protobuf"%string, None)
  | Some codec =>
  match nextRequestID 2 counter with
  | None => None
  | Some (counter, requestID) =>
  let requestIDText := format_uint 10 requestID in
  match Handler_authenticate request with
  | None => None
  | Some (Err e) => Some (counter, Handler_writeError codec StatusUnauthorized requestIDText
                              (Some (ErrorResult STATUS_UNAUTHENTICATED e)), None)
  | Some (Ok session) =>
  match read_body request with
  | None => Some (counter, Handler_writeError codec StatusRequestEntityTooLarge requestIDText
                    (Some (ErrorResult STATUS_RESOURCE_EXHAUSTED "request body exceeds limit")), None)
  | Some body =>
      let base := WithTimeout now (hr_Context request) (Handler_timeout request) in
      let ctx := mkRequestContext (rc_Context (NewRequestContext (Some base))) requestID TransportHTTP codec session
                   (Handler_metadata request) in
      let call := mkDispatched ctx methodID body msgType in
      match dispatch call with
      | None => None
      | Some result =>
          let response :=
            if MsgType_eqb msgType NOTIFY && InvokeResult_OK result then mkHttpResponse StatusAccepted [] []
            else Handler_writeResult codec requestIDText ctx result in
          Some (counter, response, Some call)
      end
  end end end end end end.
End Handler.

(** ** Properties *)

Lemma httpStatus_error code : code <> 0 -> 400 <= httpStatus code <= 504.
Proof.
  intros H. unfold httpStatus. rewrite (proj2 (Z.eqb_neq _ _) H : (code =? status_num STATUS_OK) = false).
  repeat case_if; unfold StatusBadRequest, StatusGatewayTimeout, StatusNotFound, StatusConflict, StatusForbidden,
    StatusUnauthorized, StatusTooManyRequests, StatusPreconditionFailed, StatusUnsupportedMediaType,
    StatusServiceUnavailable, StatusInternalServerError; lia.
Qed.

Lemma nextRequestID_total counter : exists id, nextRequestID 2 counter = Some (id, id) /\ id <> 0 /\ inU 32 id.
Proof.
  simpl. destruct (Z.eqb_spec (u32 (counter + 1)) 0) as [E|E]; simpl.
  - rewrite E. change (u32 (0 + 1)) with 1. exists 1. done.
  - exists (u32 (counter + 1)). split_and!; [done..|]. by apply wrapU_range.
Qed.

Lemma writeError_status codecs err codec status id r : hp_Status (Handler_writeError codecs err codec status id r) = status.
Proof. unfold Handler_writeError. by destruct (Registry_Marshal _ _ _). Qed.

Lemma methodIDFromPath_range path id : methodIDFromPath path = Some id -> SystemMethodKick < id.
Proof.
  unfold methodIDFromPath. destruct (trim_prefix _ _); [|done]. destruct (_ || _); [done|].
  destruct (parse_uint 10 32 s) as [n [e|]]; [done|]. case_if; [|done]. intros [= <-]. by apply Z.ltb_lt.
Qed.

Lemma WithTimeout_bound now p t : exists d, c_deadline (WithTimeout now p t) = Some d /\ d <= now + t.
Proof. apply WithDeadline_deadline. Qed.

Lemma Handler_timeout_max options r : Handler_timeout options r <= ho_MaxTimeout options.
Proof. unfold Handler_timeout. cbv zeta. destruct (_ <? _) eqn:E; [lia|]. by apply Z.ltb_ge in E. Qed.

(** What a dispatched request is known to satisfy. *)
Record admitted (options : HttpOptions) (methods : option Table) (now : Z) (request : http_request) (c : dispatched)
  : Prop := {
  ad_post : hr_Method request = "POST"%string;
  ad_route : methodIDFromPath (hr_Path request) = Some (dp_method c);
  ad_method : SystemMethodKick < dp_method c;
  ad_type : Table_MsgType (dp_method c) methods = Some (dp_type c);
  ad_codec : codecFromContentType (hr_Header request "Content-Type") = Some (rc_Codec (dp_ctx c));
  ad_auth : Handler_authenticate options request = Some (Ok (rc_Session (dp_ctx c)));
  ad_body : dp_body c = hr_Body request /\ blen (hr_Body request) <= ho_MaxBodySize options;
  ad_id : rc_RequestID (dp_ctx c) <> 0 /\ inU 32 (rc_RequestID (dp_ctx c));
  ad_deadline : exists g d, rc_Context (dp_ctx c) = Some g /\ c_deadline g = Some d /\ d <= now + ho_MaxTimeout options }.

(** C24: Every request is answered unless Dispatch itself or the authenticator panics (a codec
    that panics is not modelled); a request reaches Dispatch
    only when it is an authenticated POST with a known content type and a body within the
    limit, on the route of a registered application method, and then with a non-zero
    request identifier and a deadline within MaxTimeout; a request that is not dispatched,
    or whose result is an error, gets a status of at least 400, and one whose result is OK
    gets 202 for a notification, else 200 (or 500 when its body cannot be encoded). *)
Theorem ServeHTTP_spec (options : HttpOptions) (codecs : Registry) (err : Z -> str -> str -> value)
    (methods : option Table) (dispatch : dispatched -> option (option InvokeResult)) (now counter : Z) (request : http_request) :
  (forall c, dispatch c <> None) -> Handler_authenticate options request <> None ->
  exists counter' response call,
    Handler_ServeHTTP options codecs err methods dispatch now counter request = Some (counter', response, call) /\
    match call with
    | None => 400 <= hp_Status response
    | Some c => admitted options methods now request c /\ exists result, dispatch c = Some result /\
        (InvokeResult_OK result = false -> 400 <= hp_Status response) /\
        (InvokeResult_OK result = true ->
           if MsgType_eqb (dp_type c) NOTIFY then hp_Status response = 202
           else hp_Status response = 200 \/ hp_Status response = 500)
    end.
Proof.
  intros Hd Hauth. unfold Handler_ServeHTTP.
  destruct (String.eqb_spec (hr_Method request) "POST") as [Hpost|]; simpl negb; cbv iota.
  2: { eexists _, _, None. split; [reflexivity|]. simpl. rewrite writeError_status. unfold StatusMethodNotAllowed. lia. }
  destruct (methodIDFromPath (hr_Path request)) as [methodID|] eqn:Eid.
  2: { eexists _, _, None. split; [reflexivity|]. rewrite writeError_status. unfold StatusNotFound. lia. }
  destruct (Table_MsgType methodID methods) as [msgType|] eqn:Ety.
  2: { eexists _, _, None. split; [reflexivity|]. rewrite writeError_status. unfold StatusNotFound. lia. }
  destruct (codecFromContentType _) as [codec|] eqn:Ec.
  2: { eexists _, _, None. split; [reflexivity|]. rewrite writeError_status. unfold StatusUnsupportedMediaType. lia. }
  destruct (nextRequestID_total counter) as (id & -> & Hid & Hr).
  destruct (Handler_authenticate options request) as [[session|e]|] eqn:Ea; [| |done].
  2: { eexists _, _, None. split; [reflexivity|]. rewrite writeError_status. unfold StatusUnauthorized. lia. }
  unfold read_body. destruct ((ho_MaxBodySize options <? blen (hr_Body request)) || hr_BodyFails request) eqn:Eb.
  { eexists _, _, None. split; [reflexivity|]. rewrite writeError_status. unfold StatusRequestEntityTooLarge. lia. }
  set (ctx := mkRequestContext _ id TransportHTTP codec session _).
  set (call := mkDispatched ctx methodID (hr_Body request) msgType).
  destruct (dispatch call) as [result|] eqn:Ed; [|by apply Hd in Ed].
  eexists _, _, (Some call). split; [reflexivity|]. split.
  - breflect. destruct (WithTimeout_bound now (hr_Context request) (Handler_timeout options request)) as (d & Hdl & Hle).
    pose proof (Handler_timeout_max options request). split; try done.
    + by apply methodIDFromPath_range in Eid.
    + eexists _, d. split; [reflexivity|]. split; [done|lia].
  - exists result. split; [done|]. unfold Handler_writeResult. split.
    + intros Hno. rewrite Hno, andb_false_r. destruct result as [r|]; simpl in *.
      * rewrite Hno. simpl. rewrite writeError_status. apply Z.eqb_neq in Hno. by apply httpStatus_error.
      * rewrite writeError_status. vm_compute. discriminate.
    + intros Hok. rewrite Hok, andb_true_r. change (dp_type call) with msgType.
      destruct (MsgType_eqb msgType NOTIFY); [done|].
      destruct result as [r|]; [|done]. simpl in *. rewrite Hok. simpl. destruct (r_Payload r); [by left..|].
      destruct (Registry_Marshal _ _ _); [by left|right; by rewrite writeError_status].
Qed.

(** A POST of a JSON body to the method 100 of the demo table. *)
Definition demo_post : http_request :=
  mkHttpRequest "POST" "/actor/100"
    (fun h => if String.eqb h "Content-Type" then "Application/JSON; charset=utf-8"%string else EmptyString)
    [Byte.x7b; Byte.x7d] false Background.

Lemma ServeHTTP_spec_witness :
  exists response c,
    Handler_ServeHTTP http_defaultOptions std_registry (fun _ _ _ => Value echo_type []) (Some demo_table)
      (fun _ => Some (Some (OKResult PNil))) 5 (2 ^ 32 - 1) demo_post = Some (1, response, Some c) /\
    hp_Status response = 200 /\ rc_Codec (dp_ctx c) = CodecJSON.
Proof.
  destruct (ServeHTTP_spec http_defaultOptions std_registry (fun _ _ _ => Value echo_type []) (Some demo_table)
    (fun _ => Some (Some (OKResult PNil))) 5 (2 ^ 32 - 1) demo_post) as (counter & response & call & E & H);
    [discriminate|discriminate|].
  assert (F : match Handler_ServeHTTP http_defaultOptions std_registry (fun _ _ _ => Value echo_type []) (Some demo_table)
      (fun _ => Some (Some (OKResult PNil))) 5 (2 ^ 32 - 1) demo_post with
    | Some (n, r, Some c) => (n =? 1) && (hp_Status r =? 200) && (rc_Codec (dp_ctx c) =? CodecJSON) | _ => false end = true)
    by (vm_compute; reflexivity).
  rewrite E in F. destruct call as [c|]; [|done]. breflect. subst counter.
  exists response, c. by split_and!.
Defined.
