(* ===== verification/Cluster.v ===== *)
(** Cluster transport over NATS (net/cluster/nats_cluster/cluster.go, const.go).

    Two parts: what a node does with one message ([Cluster_process], [Cluster_Request],
    [Cluster_Publish] and the context a message carries) and the bounded work queue with its
    workers and [Stop], as a step relation. The NATS connection (its [RequestSync] is
    modelled in Nats.v) and protobuf are parameters. *)
From S2P Require Import Prelude Strconv Facade Context Serializer Method Actor ActorSystem Agp.

(** ** Subjects *)

(** src/net/cluster/nats_cluster/const.go:7-15, GetRemoteSubject *)
Definition GetRemoteSubject (prefix nodeType nodeID : str) : str :=
  String.append "actorgo-" (String.append prefix (String.append ".remote."
    (String.append nodeType (String.append DOT nodeID)))).

(** src/net/cluster/nats_cluster/const.go:17-20, GetReplySubject *)
Definition GetReplySubject (prefix nodeType nodeID : str) : str :=
  String.append "actorgo-" (String.append prefix (String.append ".reply."
    (String.append nodeType (String.append DOT nodeID)))).

(** ** Messages *)

(** A message type outside the enumeration, which the wire can carry, is decoded as
    [RESPONSE]: both are refused by [validateMessage], which is all a node does with them. *)
Class ClusterProto := {
  cm_Marshal : ClusterMessage -> res bytes;
  cm_Unmarshal : bytes -> res ClusterMessage }.

(** src/net/cluster/nats_cluster/cluster.go:265-284, validateMessage *)
Definition validateMessage (message : option ClusterMessage) : res unit :=
  match message with
  | None => Err "actorgo cluster: message is nil"
  | Some m =>
      if (cm_MessageId m =? 0) || (cm_MethodId m =? 0)
      then Err "actorgo cluster: message id and method id are required"
      else
        let target := if negb (String.eqb (cm_TargetPath m) EmptyString) then is_ok (ToActorPath (cm_TargetPath m)) else true in
        if negb target then Err "actorgo cluster: invalid actor target"
        else if negb (MsgType_eqb (cm_MsgType m) REQUEST) && negb (MsgType_eqb (cm_MsgType m) NOTIFY)
        then Err "actorgo cluster: invalid outbound message type"
        else if negb (cm_Codec m =? CodecJSON) && negb (cm_Codec m =? CodecProtobuf)
        then Err "actorgo cluster: unsupported codec"
        else Ok tt
  end.

(** src/net/cluster/nats_cluster/cluster.go:287-303, messageContext *)
Definition messageContext (now : Z) (m : ClusterMessage) : RequestContext :=
  let base := if 0 <? cm_DeadlineUnixMs m then WithDeadline now Background (cm_DeadlineUnixMs m * 1000000) else Background in
  mkRequestContext (rc_Context (NewRequestContext (Some base))) (cm_RequestId m) TransportCluster (cm_Codec m)
    (match cm_Session m with
     | Some x => Some (mkSession (s_Sid x) (s_Uid x) (s_Ip x) (maps_Clone (s_Data x)))
     | None => None
     end)
    (cm_Metadata m).

(** A NATS message: its data, its reply subject, its header (opaque). *)
Record natsMsg := mkNatsMsg { nm_Data : bytes; nm_Reply : str; nm_Header : list (str * str) }.

(** A reply published: subject, header, data. *)
Record published := mkPublished { pb_Subject : str; pb_Header : list (str * str); pb_Data : bytes }.

Section Node.
Context `{ClusterProto}.
(** The registry of body codecs; the actor system's target calls; the method table's
    Dispatch, if there is a table. *)
Variable codecs : option Registry.
Variable NotifyTarget InvokeTarget : RequestContext -> str -> Z -> payload -> option InvokeResult.
Variable Dispatch : option (RequestContext -> Z -> bytes -> MsgType -> option InvokeResult).

(** src/net/cluster/nats_cluster/cluster.go:169-201, Cluster.reply *)
Definition Cluster_reply (message : natsMsg) (request : ClusterMessage) (ctx : option RequestContext)
    (result : InvokeResult) : option published :=
  if MsgType_eqb (cm_MsgType request) NOTIFY || String.eqb (nm_Reply message) EmptyString then None
  else
    let '(payload, result) :=
      match ctx, codecs with
      | Some ctx, Some codecs =>
          if InvokeResult_OK (Some result) && negb (bool_decide (r_Payload result = PNil)) then
            match Registry_Marshal codecs (rc_Codec ctx) (r_Payload result) with
            | Ok body => (body, result)
            | Err _ => ([], ErrorResult STATUS_INTERNAL "response body encode failed")
            end
          else ([], result)
      | _, _ => ([], result)
      end in
    let response := mkClusterMessage (cm_MessageId request) RESPONSE (cm_RequestId request) (cm_MethodId request) 0
      EmptyString None None (cm_Codec request) payload (r_Code result) (r_Message result) in
    match cm_Marshal response with
    | Err _ => None
    | Ok data => Some (mkPublished (nm_Reply message) (nm_Header message) data)
    end.

(** src/net/cluster/nats_cluster/cluster.go:120-130, Cluster.rejectOverload *)
Definition Cluster_rejectOverload (message : natsMsg) : option published :=
  if String.eqb (nm_Reply message) EmptyString then None
  else match cm_Unmarshal (nm_Data message) with
       | Err _ => None
       | Ok m =>
           if negb (MsgType_eqb (cm_MsgType m) REQUEST) then None
           else Cluster_reply message m None (ErrorResult STATUS_RESOURCE_EXHAUSTED "cluster work queue is full")
       end.

(** src/net/cluster/nats_cluster/cluster.go:132-167, Cluster.process *)
Definition Cluster_process (now : Z) (message : natsMsg) : option published :=
  match cm_Unmarshal (nm_Data message) with
  | Err _ => None
  | Ok m =>
      match validateMessage (Some m) with
      | Err _ => None
      | Ok _ =>
          if MsgType_eqb (cm_MsgType m) RESPONSE then None
          else
            let ctx := messageContext now m in
            let result :=
              if negb (String.eqb (cm_TargetPath m) EmptyString) then
                if MsgType_eqb (cm_MsgType m) NOTIFY
                then NotifyTarget ctx (cm_TargetPath m) (cm_MethodId m) (PBytes (cm_Payload m))
                else InvokeTarget ctx (cm_TargetPath m) (cm_MethodId m) (PBytes (cm_Payload m))
              else match Dispatch with
                   | None => Some (ErrorResult STATUS_UNAVAILABLE "method table is not configured")
                   | Some dispatch => dispatch ctx (cm_MethodId m) (cm_Payload m) (cm_MsgType m)
                   end in
            let result := match result with
                          | Some r => r
                          | None => ErrorResult STATUS_INTERNAL "dispatcher returned nil result"
                          end in
            Cluster_reply message m (Some ctx) result
      end
  end.
End Node.

Section Client.
Context `{ClusterProto}.
(** Discovery's node types; the NATS connection: publish, and request with a timeout. *)
Variable prefix : str.
Variable GetType : str -> res str.
Variable nats_Publish : str -> bytes -> res unit.
Variable nats_RequestSync : str -> bytes -> Z -> res bytes.

(** src/net/cluster/nats_cluster/cluster.go:239-248, Cluster.nodeSubject *)
Definition Cluster_nodeSubject (nodeID : str) : res str :=
  if String.eqb nodeID EmptyString then Err "actorgo cluster: node id is required"
  else match GetType nodeID with
       | Err e => Err (String.append "actorgo cluster: node not found: " e)
       | Ok nodeType => Ok (GetRemoteSubject prefix nodeType nodeID)
       end.

(** src/net/cluster/nats_cluster/cluster.go:250-262, publishMessage *)
Definition publishMessage (subject : str) (message : ClusterMessage) : res unit :=
  validateMessage (Some message) ;;?
  match cm_Marshal message with
  | Err e => Err (String.append "actorgo cluster: marshal message: " e)
  | Ok data => match nats_Publish subject data with
               | Err e => Err (String.append "actorgo cluster: publish: " e)
               | Ok _ => Ok tt
               end
  end.

(** src/net/cluster/nats_cluster/cluster.go:204-210, Cluster.Publish *)
Definition Cluster_Publish (nodeID : str) (message : ClusterMessage) : res unit :=
  subject <-? Cluster_nodeSubject nodeID ;; publishMessage subject message.

(** src/net/cluster/nats_cluster/cluster.go:213-237, Cluster.Request *)
Definition Cluster_Request (nodeID : str) (message : ClusterMessage) (timeout : Z) : res ClusterMessage :=
  subject <-? Cluster_nodeSubject nodeID ;;
  validateMessage (Some message) ;;?
  match cm_Marshal message with
  | Err e => Err (String.append "actorgo cluster: marshal message: " e)
  | Ok data =>
      match nats_RequestSync subject data timeout with
      | Err e => Err (String.append "actorgo cluster: request: " e)
      | Ok responseData =>
          match cm_Unmarshal responseData with
          | Err e => Err (String.append "actorgo cluster: unmarshal response: " e)
          | Ok response =>
              if negb (MsgType_eqb (cm_MsgType response) RESPONSE) || negb (cm_MessageId response =? cm_MessageId message)
              then Err "actorgo cluster: response correlation mismatch"
              else Ok response
          end
      end
  end.

(** The cluster as the actor system sees it. *)
Definition nats_ICluster : ICluster := mkICluster Cluster_Publish Cluster_Request.
End Client.

(** ** The work queue *)

(** A worker: waiting; handling a message (after it saw [stop], or not); emptying the queue
    after [stop]; returned. *)
Inductive worker_state (M : Type) := WIdle | WBusy (m : M) (draining : bool) | WDrain | WGone.
Arguments WIdle {M}.
Arguments WBusy {M}.
Arguments WDrain {M}.
Arguments WGone {M}.

(** [wq_stopped]: the stop channel is closed. The last fields record the messages accepted
    and started, in order, and those finished and rejected. *)
(** src/net/cluster/nats_cluster/cluster.go:20-30, Cluster *)
Record workq (M : Type) := mkWorkq {
  wq_work : list M; wq_cap : nat; wq_stopping : bool; wq_stopped : bool; wq_workers : list (worker_state M);
  wq_accepted : list M; wq_started : list M; wq_finished : list M; wq_rejected : list M }.
Arguments mkWorkq {M}.
Arguments wq_work {M}.
Arguments wq_cap {M}.
Arguments wq_stopping {M}.
Arguments wq_stopped {M}.
Arguments wq_workers {M}.
Arguments wq_accepted {M}.
Arguments wq_started {M}.
Arguments wq_finished {M}.
Arguments wq_rejected {M}.

Section WorkQueue.
Context {M : Type}.
Implicit Types (q : workq M) (m : M).

(** src/net/cluster/nats_cluster/cluster.go:36-55, Cluster.Init *)
Definition Cluster_Init (workerCount queueSize : Z) : option (workq M) :=
  if (workerCount <=? 0) || (queueSize <=? 0) then None
  else Some (mkWorkq [] (Z.to_nat queueSize) false false (replicate (Z.to_nat workerCount) WIdle) [] [] [] []).

(** src/net/cluster/nats_cluster/cluster.go:84-95, Cluster.enqueue *)
Definition Cluster_enqueue m q : workq M :=
  if wq_stopping q then q
  else if Nat.ltb (length (wq_work q)) (wq_cap q)
  then mkWorkq (wq_work q ++ [m]) (wq_cap q) false (wq_stopped q) (wq_workers q) (wq_accepted q ++ [m])
         (wq_started q) (wq_finished q) (wq_rejected q)
  else mkWorkq (wq_work q) (wq_cap q) false (wq_stopped q) (wq_workers q) (wq_accepted q)
         (wq_started q) (wq_finished q) (wq_rejected q ++ [m]).

Definition set_worker (i : nat) (x : worker_state M) q : workq M :=
  mkWorkq (wq_work q) (wq_cap q) (wq_stopping q) (wq_stopped q) (<[i := x]> (wq_workers q)) (wq_accepted q)
    (wq_started q) (wq_finished q) (wq_rejected q).

(** What a worker can do next: receive a message, finish one, see [stop], find the queue
    empty after it. *)
Inductive worker_step := WReceive | WFinish | WSeeStop | WEmpty.

(** src/net/cluster/nats_cluster/cluster.go:98-117, Cluster.worker *)
Definition Cluster_worker (i : nat) (st : worker_step) q : option (workq M) :=
  match st, wq_workers q !! i with
  | WReceive, Some (WIdle as w) | WReceive, Some (WDrain as w) =>
      match wq_work q with
      | m :: work =>
          let draining := match w with WDrain => true | _ => false end in
          Some (mkWorkq work (wq_cap q) (wq_stopping q) (wq_stopped q) (<[i := WBusy m draining]> (wq_workers q))
                  (wq_accepted q) (wq_started q ++ [m]) (wq_finished q) (wq_rejected q))
      | [] => None
      end
  | WFinish, Some (WBusy m draining) =>
      Some (mkWorkq (wq_work q) (wq_cap q) (wq_stopping q) (wq_stopped q)
              (<[i := if draining then WDrain else WIdle]> (wq_workers q)) (wq_accepted q) (wq_started q)
              (m :: wq_finished q) (wq_rejected q))
  | WSeeStop, Some WIdle => if wq_stopped q then Some (set_worker i WDrain q) else None
  | WEmpty, Some WDrain => match wq_work q with [] => Some (set_worker i WGone q) | _ => None end
  | _, _ => None
  end.

(** The first two effects of [Stop]; its [workerWG.Wait] ends when every worker returned. *)
(** src/net/cluster/nats_cluster/cluster.go:58-72, Cluster.Stop *)
Definition Cluster_Stop_flag q : workq M :=
  mkWorkq (wq_work q) (wq_cap q) true (wq_stopped q) (wq_workers q) (wq_accepted q) (wq_started q) (wq_finished q) (wq_rejected q).
(** src/net/cluster/nats_cluster/cluster.go:58-72, Cluster.Stop *)
Definition Cluster_Stop_close q : option (workq M) :=
  if wq_stopping q && negb (wq_stopped q)
  then Some (mkWorkq (wq_work q) (wq_cap q) true true (wq_workers q) (wq_accepted q) (wq_started q) (wq_finished q) (wq_rejected q))
  else None.
Definition Stop_returns q : Prop := wq_stopped q = true /\ Forall (fun w => w = WGone) (wq_workers q).

Inductive work_action := QEnqueue (m : M) | QWorker (i : nat) (st : worker_step) | QStopFlag | QStopClose.

(** src/net/cluster/nats_cluster/cluster.go:83-117, Cluster.worker *)
Definition exec_work (a : work_action) q : option (workq M) :=
  match a with
  | QEnqueue m => Some (Cluster_enqueue m q)
  | QWorker i st => Cluster_worker i st q
  | QStopFlag => Some (Cluster_Stop_flag q)
  | QStopClose => Cluster_Stop_close q
  end.

Inductive work_reach (workers size : Z) : workq M -> Prop :=
| work_init q : Cluster_Init workers size = Some q -> work_reach workers size q
| work_step q a q' : work_reach workers size q -> exec_work a q = Some q' -> work_reach workers size q'.

Definition busy_of (w : worker_state M) : list M := match w with WBusy m _ => [m] | _ => [] end.
Definition in_hand q : list M := concat (busy_of <$> wq_workers q).

Record work_ok q : Prop := {
  wo_order : wq_accepted q = wq_started q ++ wq_work q;
  wo_hand : wq_started q ≡ₚ wq_finished q ++ in_hand q;
  wo_cap : (length (wq_work q) <= wq_cap q)%nat;
  wo_stopping : wq_stopped q = true -> wq_stopping q = true;
  wo_drain : forall i w, wq_workers q !! i = Some w ->
    match w with WDrain | WGone | WBusy _ true => wq_stopped q = true | _ => True end;
  wo_gone : forall i, wq_workers q !! i = Some WGone -> wq_work q = [] }.

Lemma in_hand_insert (l : list (worker_state M)) i w w' : l !! i = Some w ->
  busy_of w ++ concat (busy_of <$> <[i := w']> l) ≡ₚ busy_of w' ++ concat (busy_of <$> l).
Proof.
  revert i. induction l as [|x l IH]; intros [|i] Hi; simpl in *; try done.
  - injection Hi as ->. rewrite !app_assoc. by rewrite (Permutation_app_comm (busy_of w)).
  - specialize (IH i Hi). rewrite (Permutation_app_swap_app (busy_of w)), IH.
    by rewrite (Permutation_app_swap_app (busy_of w')).
Qed.

Lemma lookup_set_worker (l : list (worker_state M)) i w w' j x : l !! i = Some w -> <[i := w']> l !! j = Some x ->
  (j = i /\ x = w') \/ (j <> i /\ l !! j = Some x).
Proof.
  intros Hi Hj. destruct (decide (j = i)) as [->|].
  - rewrite list_lookup_insert_eq in Hj by (by eapply lookup_lt_Some). injection Hj as <-. by left.
  - rewrite list_lookup_insert_ne in Hj by done. by right.
Qed.

Lemma worker_ok i st q q' : work_ok q -> Cluster_worker i st q = Some q' -> work_ok q'.
Proof.
  intros [] E. unfold Cluster_worker in E.
  destruct st, (wq_workers q !! i) as [w|] eqn:Hi; try done; destruct w as [|m d| |]; try done.
  - destruct (wq_work q) as [|m work] eqn:Ew; [done|]. injection E as <-. split; simpl; try done.
    + by rewrite wo_order0, <- app_assoc.
    + unfold in_hand. simpl. pose proof (in_hand_insert _ i WIdle (WBusy m false) Hi) as Hp. simpl in Hp.
      rewrite Hp, wo_hand0. unfold in_hand. by rewrite <- app_assoc, (Permutation_app_comm (concat _)).
    + simpl in wo_cap0. lia.
    + intros j w Hj. destruct (lookup_set_worker _ i _ _ j w Hi Hj) as [[-> ->]|[_ Hj']]; [done|by apply (wo_drain0 j)].
    + intros j Hj. destruct (lookup_set_worker _ i _ _ j _ Hi Hj) as [[_ [=]]|[_ Hj']]. by apply wo_gone0 in Hj'.
  - destruct (wq_work q) as [|m work] eqn:Ew; [done|]. injection E as <-. split; simpl; try done.
    + by rewrite wo_order0, <- app_assoc.
    + unfold in_hand. simpl. pose proof (in_hand_insert _ i WDrain (WBusy m true) Hi) as Hp. simpl in Hp.
      rewrite Hp, wo_hand0. unfold in_hand. by rewrite <- app_assoc, (Permutation_app_comm (concat _)).
    + simpl in wo_cap0. lia.
    + intros j w Hj. destruct (lookup_set_worker _ i _ _ j w Hi Hj) as [[-> ->]|[_ Hj']];
        [by apply (wo_drain0 i WDrain)|by apply (wo_drain0 j)].
    + intros j Hj. destruct (lookup_set_worker _ i _ _ j _ Hi Hj) as [[_ [=]]|[_ Hj']]. by apply wo_gone0 in Hj'.
  - injection E as <-. split; simpl; try done.
    + unfold in_hand. simpl. pose proof (in_hand_insert _ i (WBusy m d) (if d then WDrain else WIdle) Hi) as Hp.
      assert (Hb : busy_of (if d then WDrain else WIdle) = @nil M) by by destruct d. rewrite Hb in Hp. simpl in Hp.
      rewrite wo_hand0. unfold in_hand. rewrite <- Hp. by rewrite Permutation_middle.
    + intros j w Hj. destruct (lookup_set_worker _ i _ _ j w Hi Hj) as [[-> ->]|[_ Hj']]; [|by apply (wo_drain0 j)].
      destruct d; [by apply (wo_drain0 i _ Hi)|done].
    + intros j Hj. destruct (lookup_set_worker _ i _ _ j _ Hi Hj) as [[_ Hd]|[_ Hj']]; [by destruct d|by eapply wo_gone0].
  - destruct (wq_stopped q) eqn:Es; [|done]. injection E as <-. split; simpl; try done.
    + unfold in_hand. simpl. pose proof (in_hand_insert _ i WIdle WDrain Hi) as Hp. simpl in Hp. by rewrite Hp.
    + intros _. by apply wo_stopping0.
    + intros j w Hj. rewrite Es. destruct (lookup_set_worker _ i _ _ j w Hi Hj) as [[-> ->]|[_ Hj']]; [done|].
      by destruct w as [| ? [] | |].
    + intros j Hj. destruct (lookup_set_worker _ i _ _ j _ Hi Hj) as [[_ [=]]|[_ Hj']]. by eapply wo_gone0.
  - destruct (wq_work q) eqn:Ew; [|done]. injection E as <-. split; simpl; rewrite ?Ew; try done.
    + unfold in_hand. simpl. pose proof (in_hand_insert _ i WDrain WGone Hi) as Hp. simpl in Hp. by rewrite Hp.
    + intros j w Hj. destruct (lookup_set_worker _ i _ _ j w Hi Hj) as [[-> ->]|[_ Hj']];
        [by apply (wo_drain0 i WDrain)|by apply (wo_drain0 j)].
Qed.

Lemma exec_work_ok a q q' : work_ok q -> exec_work a q = Some q' -> work_ok q'.
Proof.
  intros I. destruct a; simpl.
  - intros [= <-]. unfold Cluster_enqueue. destruct (wq_stopping q) eqn:Es; [done|].
    destruct (Nat.ltb_spec (length (wq_work q)) (wq_cap q)); destruct I; split; simpl; try done.
    + by rewrite wo_order0, app_assoc.
    + rewrite length_app. simpl. lia.
    + intros H0. apply wo_stopping0 in H0. congruence.
    + intros j Hj. pose proof (wo_drain0 j _ Hj) as H0. simpl in H0. apply wo_stopping0 in H0. congruence.
    + intros H0. apply wo_stopping0 in H0. congruence.
  - by apply worker_ok.
  - intros [= <-]. destruct I. by split.
  - unfold Cluster_Stop_close. case_if; [|done]. intros [= <-]. destruct I. split; simpl; try done.
    intros j w Hj. by destruct w as [| ? [] | |].
Qed.

Lemma work_reach_ok workers size q : work_reach workers size q -> work_ok q.
Proof.
  induction 1 as [q Hq|q a q' _ I E]; [|by eapply exec_work_ok].
  unfold Cluster_Init in Hq. case_if_in Hq; [done|]. injection Hq as <-.
  assert (Hw : forall i w, replicate (Z.to_nat workers) (@WIdle M) !! i = Some w -> w = WIdle).
  { intros i w Hi. by apply lookup_replicate in Hi as [-> _]. }
  split; simpl; try done; try lia.
  - unfold in_hand. simpl. rewrite fmap_replicate. clear. induction (Z.to_nat workers) as [|k IH]; simpl; [done|exact IH].
  - intros i w Hi. by rewrite (Hw i w Hi).
Qed.

Lemma gone_in_hand (l : list (worker_state M)) : Forall (fun w => w = WGone) l -> concat (busy_of <$> l) = [].
Proof. induction 1 as [|w l -> _ IH]; [done|exact IH]. Qed.

(** C14: The cluster's workers lose nothing: in every run messages are started in the order
    they were accepted, at most the queue's capacity wait, and each started message is
    finished or in a worker's hands, once; and when Stop returns every message ever
    accepted has been finished, exactly once, and no later message is accepted. *)
Theorem cluster_stop_drains (workers size : Z) (q : workq M) :
  work_reach workers size q ->
  wq_accepted q = wq_started q ++ wq_work q /\ (length (wq_work q) <= wq_cap q)%nat /\
  wq_started q ≡ₚ wq_finished q ++ in_hand q /\
  (0 < length (wq_workers q) -> Stop_returns q ->
     wq_work q = [] /\ wq_finished q ≡ₚ wq_accepted q /\
     forall m, wq_accepted (Cluster_enqueue m q) = wq_accepted q)%nat.
Proof.
  intros []%work_reach_ok. split_and!; try done. intros Hn [Hs Hg].
  assert (Hw : wq_work q = []).
  { destruct (wq_workers q) as [|w l] eqn:El; [simpl in Hn; lia|]. apply (wo_gone0 0%nat).
    apply Forall_cons_iff in Hg as [-> _]. done. }
  split; [done|]. split.
  - rewrite wo_order0, Hw, app_nil_r, wo_hand0. unfold in_hand. by rewrite gone_in_hand, app_nil_r.
  - intros m. unfold Cluster_enqueue. by rewrite wo_stopping0.
Qed.
End WorkQueue.

Definition drain_run : list (@work_action Z) :=
  [QEnqueue 1; QEnqueue 2; QWorker 0 WReceive; QStopFlag; QEnqueue 3; QStopClose; QWorker 0 WFinish;
   QWorker 0 WSeeStop; QWorker 0 WReceive; QWorker 0 WFinish; QWorker 0 WEmpty].
Definition drained : option (workq Z) :=
  foldl (fun q a => q ≫= exec_work a) (Cluster_Init 1 4) drain_run.

Lemma work_fold {M} workers size (l : list work_action) (q q' : workq M) : work_reach workers size q ->
  foldl (fun q a => q ≫= exec_work a) (Some q) l = Some q' -> work_reach workers size q'.
Proof.
  revert q. induction l as [|a l IH]; intros q Hq E; simpl in E; [by injection E as <-|].
  destruct (exec_work a q) as [q1|] eqn:E1; [apply (IH q1); [by eapply work_step|done]|].
  exfalso. clear -E. induction l; [done|auto].
Qed.

Lemma cluster_stop_drains_witness :
  exists q, drained = Some q /\ wq_accepted q = [1; 2] /\ Stop_returns q /\ wq_finished q ≡ₚ [1; 2].
Proof.
  eexists. split; [vm_compute; reflexivity|]. split; [reflexivity|].
  assert (Hs : Stop_returns (mkWorkq (@nil Z) 4 true true [WGone] [1; 2] [1; 2] [2; 1] [])).
  { split; [reflexivity|]. by repeat constructor. }
  split; [exact Hs|].
  assert (Hr : work_reach 1 4 (mkWorkq (@nil Z) 4 true true [WGone] [1; 2] [1; 2] [2; 1] [])).
  { apply (work_fold 1 4 drain_run (mkWorkq [] 4 false false [WIdle] [] [] [] [])); [by apply work_init|].
    vm_compute. reflexivity. }
  destruct (cluster_stop_drains 1 4 _ Hr) as (_ & _ & _ & H). destruct (H (Nat.lt_0_succ 0) Hs) as (_ & Hp & _). exact Hp.
Defined.

(** ** From node to node *)

Definition map_norm {V} (m : gomap str V) : gomap str V := if gomap_len m =? 0 then None else m.

(** The wire does not distinguish an empty map from a nil one. *)
Definition cm_norm (m : ClusterMessage) : ClusterMessage :=
  mkClusterMessage (cm_MessageId m) (cm_MsgType m) (cm_RequestId m) (cm_MethodId m) (cm_DeadlineUnixMs m)
    (cm_TargetPath m)
    (match cm_Session m with Some x => Some (mkSession (s_Sid x) (s_Uid x) (s_Ip x) (map_norm (s_Data x))) | None => None end)
    (map_norm (cm_Metadata m)) (cm_Codec m) (cm_Payload m) (cm_Code m) (cm_Message m).

(** Decoding an encoding gives the message back. *)
Class ClusterProtoLaws `{ClusterProto} := {
  cm_roundtrip m data : cm_Marshal m = Ok data -> cm_Unmarshal data = Ok (cm_norm m) }.

Lemma map_norm_get {V} (m : gomap str V) k : gomap_get (map_norm m) k = gomap_get m k.
Proof.
  unfold map_norm, gomap_len. destruct m as [g|]; [|done]. destruct (Z.eqb_spec (Z.of_nat (size g)) 0); [|done].
  assert (g = ∅) as -> by (apply map_size_empty_iff; lia). simpl. by rewrite lookup_empty.
Qed.

Lemma cloneBytesMap_get m k : gomap_get (cloneBytesMap m) k = gomap_get m k.
Proof.
  unfold cloneBytesMap, gomap_len. destruct m as [g|]; [|done].
  destruct (Z.eqb_spec (Z.of_nat (size g)) 0) as [E|E].
  - assert (g = ∅) as -> by (apply map_size_empty_iff; lia). simpl. by rewrite lookup_empty.
  - simpl. by rewrite copy_entries_to_list.
Qed.

Definition target_ok (target : str) : Prop := target = EmptyString \/ exists path, ToActorPath target = Ok path.

Lemma validateMessage_ok m : validateMessage (Some m) = Ok tt <->
  cm_MessageId m <> 0 /\ cm_MethodId m <> 0 /\ target_ok (cm_TargetPath m) /\ cm_MsgType m <> RESPONSE /\
  (cm_Codec m = CodecJSON \/ cm_Codec m = CodecProtobuf).
Proof.
  assert (Hc : negb (cm_Codec m =? CodecJSON) && negb (cm_Codec m =? CodecProtobuf) = false <->
    cm_Codec m = CodecJSON \/ cm_Codec m = CodecProtobuf).
  { rewrite andb_false_iff, !negb_false_iff, !Z.eqb_eq. done. }
  unfold validateMessage, target_ok. split.
  - destruct ((cm_MessageId m =? 0) || (cm_MethodId m =? 0)) eqn:E0; [done|]. breflect.
    destruct (negb (if negb (String.eqb (cm_TargetPath m) EmptyString) then is_ok (ToActorPath (cm_TargetPath m)) else true)) eqn:Et;
      [done|].
    assert (Htt : cm_TargetPath m = EmptyString \/ exists path, ToActorPath (cm_TargetPath m) = Ok path).
    { destruct (String.eqb_spec (cm_TargetPath m) EmptyString); [by left|]. simpl in Et.
      destruct (ToActorPath (cm_TargetPath m)) as [path|]; [right; by exists path|done]. }
    destruct (cm_MsgType m); simpl; try done;
      (destruct (negb (cm_Codec m =? CodecJSON) && negb (cm_Codec m =? CodecProtobuf)); [done|]);
      intros _; split_and!; try done; by apply Hc.
  - intros (H1 & H2 & H3 & H4 & H5). rewrite !(proj2 (Z.eqb_neq _ _)) by done. simpl.
    assert (negb (if negb (String.eqb (cm_TargetPath m) EmptyString) then is_ok (ToActorPath (cm_TargetPath m)) else true) = false) as ->.
    { destruct (String.eqb_spec (cm_TargetPath m) EmptyString); [done|]. destruct H3 as [|[path ->]]; done. }
    destruct (cm_MsgType m); try done; destruct H5 as [-> | ->]; done.
Qed.

(** A context survives the trip to another node: the message built for a call is
    accepted by both ends, carries the body, the method and the target unchanged, and the
    peer rebuilds from it the request identifier, the codec, the session, the metadata, and
    the caller's deadline to the millisecond, so a chain of nodes shares one time budget. *)
Theorem cluster_message_roundtrip `{ClusterProtoLaws} (ctx : RequestContext) (target : str) (methodID : Z) (ty : MsgType)
    (body : bytes) (s : System) (d now : Z) (data : bytes) :
  u64 (sys_messageSeq s + 1) <> 0 -> methodID <> 0 -> target_ok target -> ty <> RESPONSE ->
  (rc_Codec ctx = CodecJSON \/ rc_Codec ctx = CodecProtobuf) -> c_deadline (rc_gctx ctx) = Some d -> 1000000 <= d ->
  let m := (System_buildClusterMessage ctx target methodID ty body s).2 in
  validateMessage (Some m) = Ok tt /\
  (cm_Marshal m = Ok data -> exists m', cm_Unmarshal data = Ok m' /\ validateMessage (Some m') = Ok tt /\
     cm_MessageId m' = u64 (sys_messageSeq s + 1) /\ cm_MsgType m' = ty /\ cm_MethodId m' = methodID /\
     cm_TargetPath m' = target /\ cm_Payload m' = body /\
     let c := messageContext now m' in
     rc_RequestID c = rc_RequestID ctx /\ rc_Codec c = rc_Codec ctx /\
     (exists d', c_deadline (rc_gctx c) = Some d' /\ d - 1000000 < d' <= d) /\
     (forall k, gomap_get (rc_Metadata c) k = gomap_get (rc_Metadata ctx) k) /\
     match rc_Session c, rc_Session ctx with
     | Some x, Some y => s_Sid x = s_Sid y /\ s_Uid x = s_Uid y /\ s_Ip x = s_Ip y /\
         forall k, gomap_get (s_Data x) k = gomap_get (s_Data y) k
     | None, None => True
     | _, _ => False
     end).
Proof.
  intros Hseq Hm Ht Hty Hc Hd Hd0 m.
  assert (Hv : validateMessage (Some m) = Ok tt) by by apply validateMessage_ok.
  split; [done|]. intros E. exists (cm_norm m). rewrite (cm_roundtrip m data E). split; [done|]. split.
  { apply validateMessage_ok in Hv. by apply validateMessage_ok. }
  unfold rc_gctx in Hd. do 5 (split; [done|]). unfold m, System_buildClusterMessage, rc_gctx. rewrite Hd. simpl. unfold UnixMilli.
  assert (0 < d / 1000000) by (apply Z.div_str_pos; lia).
  rewrite (proj2 (Z.ltb_lt _ _)) by done. split; [done|]. split; [done|]. split.
  - exists (d / 1000000 * 1000000). split; [unfold rc_gctx, WithDeadline; by simpl|].
    pose proof (Z.div_mod d 1000000 ltac:(lia)). pose proof (Z.mod_pos_bound d 1000000 ltac:(lia)). lia.
  - split.
    + intros k. by rewrite map_norm_get, cloneBytesMap_get.
    + destruct (rc_Session ctx) as [y|]; simpl; [|done]. split_and!; try done.
      intros k. by rewrite !maps_Clone_id, map_norm_get.
Qed.


(** A stand-in for the wire format in examples. *)
Definition status_of_type (t : MsgType) : Z := match t with REQUEST => 0 | RESPONSE => 1 | NOTIFY => 2 end.
Definition type_of_status (z : Z) : MsgType := match z with 0 => REQUEST | 2 => NOTIFY | _ => RESPONSE end.
Definition msg_code (m : ClusterMessage) :=
  ((cm_MessageId m, status_of_type (cm_MsgType m), cm_RequestId m, cm_MethodId m),
   (cm_DeadlineUnixMs m, cm_TargetPath m, cm_Codec m, cm_Payload m),
   (cm_Code m, cm_Message m, map_to_list <$> cm_Metadata m,
    (fun x => (s_Sid x, s_Uid x, s_Ip x, map_to_list <$> s_Data x)) <$> cm_Session m)).
Definition code_msg (c : (Z * Z * Z * Z) * (Z * str * Z * bytes)
    * (Z * str * option (list (str * bytes)) * option (str * Z * str * option (list (str * str))))) : ClusterMessage :=
  let '((a1, a2, a3, a4), (b1, b2, b3, b4), (c1, c2, c3, c4)) := c in
  mkClusterMessage a1 (type_of_status a2) a3 a4 b1 b2
    ((fun '(s1, s2, s3, s4) => mkSession s1 s2 s3 (list_to_map <$> s4)) <$> c4) (list_to_map <$> c3) b3 b4 c1 c2.
Lemma code_msg_code m : code_msg (msg_code m) = m.
Proof.
  destruct m as [a1 a2 a3 a4 b1 b2 c4 c3 b3 b4 c1 c2]. unfold msg_code, code_msg. simpl. f_equal.
  - by destruct a2.
  - destruct c4 as [[s1 s2 s3 s4]|]; simpl; [|done]. do 2 f_equal. destruct s4; simpl; by rewrite ?list_to_map_to_list.
  - destruct c3; simpl; by rewrite ?list_to_map_to_list.
Qed.

Definition toy_cluster : ClusterProto := {|
  cm_Marshal m := Ok (pos_bytes (encode (msg_code (cm_norm m))));
  cm_Unmarshal data := match bytes_pos data ≫= decode with Some c => Ok (code_msg c) | None => Err "proto: invalid wire" end |}.

Lemma toy_cluster_laws : @ClusterProtoLaws toy_cluster.
Proof.
  split. intros m data. cbn [cm_Marshal cm_Unmarshal toy_cluster]. intros [= <-].
  rewrite bytes_pos_bytes. cbn [mbind option_bind]. by rewrite decode_encode, code_msg_code.
Qed.

Definition far_ctx : RequestContext :=
  mkRequestContext (Some (GCtx (Some 5000500) None)) 9 TransportAGP CodecJSON
    (Some (mkSession "s" 42 "ip" (Some (<["k"%string := "v"%string]> ∅)))) (Some ∅).

Lemma cluster_message_roundtrip_witness : exists m', let m := (System_buildClusterMessage far_ctx "n2.bag" 100 REQUEST [Byte.x61] NewSystem).2 in
  @cm_Marshal toy_cluster m = Ok (pos_bytes (encode (msg_code (cm_norm m)))) /\
  @cm_Unmarshal toy_cluster (pos_bytes (encode (msg_code (cm_norm m)))) = Ok m' /\
  rc_RequestID (messageContext 0 m') = 9 /\
  exists d', c_deadline (rc_gctx (messageContext 0 m')) = Some d' /\ 5000500 - 1000000 < d' <= 5000500.
Proof.
  set (m := (System_buildClusterMessage far_ctx "n2.bag" 100 REQUEST [Byte.x61] NewSystem).2).
  destruct (proj2 (@cluster_message_roundtrip toy_cluster toy_cluster_laws far_ctx "n2.bag" 100 REQUEST [Byte.x61] NewSystem
    5000500 0 (pos_bytes (encode (msg_code (cm_norm m)))) ltac:(by vm_compute) ltac:(done)
    (or_intror (ex_intro _ (mkActorPath "n2" "bag" "") eq_refl)) ltac:(done) (or_introl eq_refl) eq_refl ltac:(lia)) eq_refl)
    as (m' & E & _ & _ & _ & _ & _ & _ & H1 & _ & H2 & _).
  exists m'. split; [reflexivity|]. split; [exact E|]. split; [exact H1|exact H2].
Defined.

Definition wire_request : ClusterMessage := mkClusterMessage 3 REQUEST 9 100 0 "n2.bag" None None CodecProtobuf [Byte.x61] 0 EmptyString.

