(* ===== verification/Nats.v ===== *)
(** Connections to NATS (net/nats/connect.go, pool.go, msg_pool.go): the pool of
    connections with its round robin, and the correlation of requests and replies on one
    connection, as a step relation whose steps are the accesses to the shared counter and
    to the map of waiters. The NATS client (publishing, subscribing, the delivery of
    replies) is a parameter: whether a publication succeeds, and which messages reach the
    reply subscription in which order, is chosen by the run. *)
From S2P Require Import Prelude Strconv Facade Agp Cluster.

(** ** The pool *)

Record natsConfig := mkNatsConfig {
  nf_address : str; nf_user : str; nf_password : str; nf_maxReconnects : Z; nf_poolSize : Z; nf_isStats : bool }.

(** src/net/nats/connect.go:20-37, Connect *)
Record natsConnect := mkNatsConnect {
  nn_id : Z; nn_reply : str; nn_address : str; nn_maxReconnects : Z; nn_user : str; nn_password : str; nn_isStats : bool }.

(** src/net/nats/connect.go:284-288, WithParams *)
Definition WithParams (maxReconnects : Z) (c : natsConnect) : natsConnect :=
  mkNatsConnect (nn_id c) (nn_reply c) (nn_address c) maxReconnects (nn_user c) (nn_password c) (nn_isStats c).
(** src/net/nats/connect.go:278-282, WithAddress *)
Definition WithAddress (address : str) (c : natsConnect) : natsConnect :=
  mkNatsConnect (nn_id c) (nn_reply c) address (nn_maxReconnects c) (nn_user c) (nn_password c) (nn_isStats c).
(** src/net/nats/connect.go:290-295, WithAuth *)
Definition WithAuth (user password : str) (c : natsConnect) : natsConnect :=
  mkNatsConnect (nn_id c) (nn_reply c) (nn_address c) (nn_maxReconnects c) user password (nn_isStats c).
(** src/net/nats/connect.go:297-301, WithIsStats *)
Definition WithIsStats (isStats : bool) (c : natsConnect) : natsConnect :=
  mkNatsConnect (nn_id c) (nn_reply c) (nn_address c) (nn_maxReconnects c) (nn_user c) (nn_password c) isStats.

(** src/net/nats/connect.go:40-53, NewConnect *)
Definition NewConnect (id : Z) (replySubject : str) (opts : list (natsConnect -> natsConnect)) : natsConnect :=
  fold_left (fun c opt => opt c) opts
    (mkNatsConnect id (String.append replySubject (String.append DOT (format_int 10 id))) EmptyString 0 EmptyString EmptyString false).

(** src/net/nats/pool.go:11-17, connectPool *)
Record natsPool := mkNatsPool { np_connectPool : list natsConnect; np_connectSize : Z; np_roundIndex : Z }.

Definition emptyPool : natsPool := mkNatsPool [] 0 0.

(** src/net/nats/pool.go:20-22, IsReady *)
Definition Pool_IsReady (p : natsPool) : bool := (0 <? np_connectSize p) && (0 <? Z.of_nat (length (np_connectPool p))).

(** src/net/nats/pool.go:27-65, NewPool *)
Definition NewPool (replySubject : str) (config : natsConfig) (p : natsPool) : natsPool :=
  if Pool_IsReady p then p
  else
    let conns := (fun k => NewConnect (Z.of_nat k) replySubject
      [WithAddress (nf_address config); WithAuth (nf_user config) (nf_password config);
       WithParams (nf_maxReconnects config); WithIsStats (nf_isStats config)]) <$> seq 1 (Z.to_nat (nf_poolSize config)) in
    let pool := np_connectPool p ++ conns in
    mkNatsPool pool (Z.of_nat (length pool)) (np_roundIndex p).

(** src/net/nats/pool.go:71-77, GetConnect *)
Definition GetConnect (p : natsPool) : option (natsPool * natsConnect) :=
  if negb (Pool_IsReady p) then None
  else
    let index := u64 (np_roundIndex p + 1) in
    c ← np_connectPool p !! Z.to_nat (index mod np_connectSize p);
    Some (mkNatsPool (np_connectPool p) (np_connectSize p) index, c).

(** src/net/nats/pool.go:91-96, GetTimeout *)
Definition GetTimeout (requestTimeout : Z) (tod : list Z) : Z := match tod with t :: _ => t | [] => requestTimeout end.

(** src/net/nats/connect.go:15-17, REQ_ID *)
Definition REQ_ID : str := "reqID".

(** [n] calls in a row: the connections they return. *)
Fixpoint GetConnect_n (n : nat) (p : natsPool) : option (list natsConnect) :=
  match n with
  | O => Some []
  | S n => '(p, c) ← GetConnect p; l ← GetConnect_n n p; Some (c :: l)
  end.

Record pool_ok (p : natsPool) : Prop := {
  po_size : np_connectSize p = Z.of_nat (length (np_connectPool p));
  po_index : inU 64 (np_roundIndex p) }.

Lemma NewPool_ok replySubject config p : pool_ok p -> pool_ok (NewPool replySubject config p).
Proof. intros []. unfold NewPool. case_if; [by split|]. by split. Qed.

Lemma GetConnect_ok p : pool_ok p -> Pool_IsReady p = true ->
  exists c, np_connectPool p !! Z.to_nat (u64 (np_roundIndex p + 1) mod np_connectSize p) = Some c /\
    let p' := mkNatsPool (np_connectPool p) (np_connectSize p) (u64 (np_roundIndex p + 1)) in
    GetConnect p = Some (p', c) /\ pool_ok p' /\ Pool_IsReady p' = true.
Proof.
  intros [Hs Hi] Hr. pose proof Hr as Hr'. unfold Pool_IsReady in Hr'. apply andb_true_iff in Hr' as [H1%Z.ltb_lt H2%Z.ltb_lt].
  pose proof (Z.mod_pos_bound (u64 (np_roundIndex p + 1)) (np_connectSize p) ltac:(lia)) as Hb.
  assert (Hlt : (Z.to_nat (u64 (np_roundIndex p + 1) mod np_connectSize p) < length (np_connectPool p))%nat).
  { revert Hb. generalize (u64 (np_roundIndex p + 1) mod np_connectSize p). lia. }
  destruct (lookup_lt_is_Some_2 _ _ Hlt) as [c Hc].
  exists c. split; [done|]. unfold GetConnect. rewrite Hr. simpl. rewrite Hc. simpl. split; [done|]. split; [|done].
  split; [done|]. apply wrapU_range. lia.
Qed.

(** The connections of the next [n] calls, from position [k] of the pool. *)
Definition cycle (k : Z) (n : nat) (l : list natsConnect) : list (option natsConnect) :=
  (fun j => l !! Z.to_nat ((k + Z.of_nat j) mod Z.of_nat (length l))) <$> seq 1 n.

Lemma cycle_S k n l : cycle k (S n) l = l !! Z.to_nat ((k + 1) mod Z.of_nat (length l)) :: cycle (k + 1) n l.
Proof.
  unfold cycle. change (seq 1 (S n)) with (1%nat :: seq 2 n). rewrite <- (fmap_S_seq 1 n), fmap_cons, <- list_fmap_compose.
  f_equal. apply list_fmap_ext. intros i j _. unfold compose.
  rewrite Nat2Z.inj_succ. by replace (k + Z.succ (Z.of_nat j)) with (k + 1 + Z.of_nat j) by lia.
Qed.

(** The connections of a pool are handed out in turn: once a pool with a positive size
    was created GetConnect never panics, and [n] calls in a row return the connections at
    the [n] positions after the last one, going round (as long as the 64-bit counter does
    not wrap); creating the pool again changes nothing. *)
Theorem GetConnect_round_robin (replySubject other : str) (config config' : natsConfig) (n : nat) :
  0 < nf_poolSize config -> Z.of_nat n < 2 ^ 64 ->
  let p := NewPool replySubject config emptyPool in
  NewPool other config' p = p /\ Z.of_nat (length (np_connectPool p)) = nf_poolSize config /\
  exists l, GetConnect_n n p = Some l /\ Some <$> l = cycle 0 n (np_connectPool p).
Proof.
  intros Hs Hn p. assert (Hl : Z.of_nat (length (np_connectPool p)) = nf_poolSize config).
  { unfold p, NewPool. simpl. rewrite length_fmap, length_seq. lia. }
  assert (Ho : pool_ok p) by by apply NewPool_ok.
  assert (Hr : Pool_IsReady p = true).
  { unfold Pool_IsReady. destruct Ho as [-> _]. rewrite Hl. by rewrite (proj2 (Z.ltb_lt _ _) Hs). }
  split; [unfold NewPool at 1; by rewrite Hr|]. split; [done|].
  assert (Hi : np_roundIndex p + Z.of_nat n < 2 ^ 64) by (simpl; lia).
  change 0 with (np_roundIndex p). clear Hn Hl. revert Ho Hr Hi. generalize p. clear. intros p. revert p.
  induction n as [|n IH]; intros p Ho Hr Hi; [by exists []|].
  destruct (GetConnect_ok p Ho Hr) as (c & Hc & E & Ho' & Hr'). destruct Ho as [Hs Hx].
  rewrite wrapU_id in * by (unfold inU in *; lia).
  destruct (IH _ Ho' Hr') as (l & El & Hl); [simpl; lia|]. exists (c :: l). split.
  - simpl. rewrite E. simpl. by rewrite El.
  - rewrite cycle_S, <- Hs, Hc, fmap_cons. f_equal. exact Hl.
Qed.

Lemma GetConnect_round_robin_witness :
  let p := NewPool "r" (mkNatsConfig "a" "u" "p" 0 3 false) emptyPool in
  exists l, GetConnect_n 5 p = Some l /\ nn_id <$> l = [2; 3; 1; 2; 3].
Proof.
  destruct (GetConnect_round_robin "r" "o" (mkNatsConfig "a" "u" "p" 0 3 false) (mkNatsConfig "a" "u" "p" 0 3 false) 5
    ltac:(reflexivity) ltac:(reflexivity)) as (_ & _ & l & El & _).
  exists l. split; [exact El|]. vm_compute in El. injection El as <-. reflexivity.
Defined.

(** ** Requests and replies on one connection *)

(** Headers of the NATS client: setting and getting the value of a key. *)
Class NatsHeader := {
  Header_Set : list (str * str) -> str -> str -> list (str * str);
  Header_Get : list (str * str) -> str -> str;
  header_get_set : forall h k v, Header_Get (Header_Set h k v) k = v }.

(** Where a goroutine in RequestSync stands: it has its number and channel; it stored the
    channel; it waits in the select; the publication failed, or the timer fired, and it is
    about to delete its entry; it returned. *)
Inductive rq_pc :=
| RqNumbered | RqStored | RqWaiting | RqFailed (e : string) | RqExpired | RqDone (r : res bytes).

(** A call of RequestSync: its request ID, its arguments, the buffer of its channel, which
    has capacity 1. *)
Record request := mkRequest {
  rq_id : str; rq_subject : str; rq_data : bytes; rq_ch : list natsMsg; rq_at : rq_pc }.

(** The connection: the counter, the waiters (request ID to call, which owns the channel),
    the calls so far, and what the reply subscription's callback holds between taking a
    waiter and sending to it. [nc_published] and [nc_handled] are history: the messages
    published, with their subject, and the messages the callback was given. *)
Record nconn := mkNconn {
  nc_seq : Z; nc_waiters : gmap str nat; nc_requests : list request; nc_held : option (nat * natsMsg);
  nc_published : list (str * natsMsg); nc_handled : list natsMsg }.

Definition new_nconn : nconn := mkNconn 0 ∅ [] None [] [].

Definition set_at (pc : rq_pc) (r : request) : request := mkRequest (rq_id r) (rq_subject r) (rq_data r) (rq_ch r) pc.
Definition set_ch (ch : list natsMsg) (r : request) : request := mkRequest (rq_id r) (rq_subject r) (rq_data r) ch (rq_at r).
Definition set_request (i : nat) (r : request) (c : nconn) : nconn :=
  mkNconn (nc_seq c) (nc_waiters c) (<[i := r]> (nc_requests c)) (nc_held c) (nc_published c) (nc_handled c).
Definition set_waiters (w : gmap str nat) (c : nconn) : nconn :=
  mkNconn (nc_seq c) w (nc_requests c) (nc_held c) (nc_published c) (nc_handled c).

Section Replies.
Context `{NatsHeader}.
(** The connection's reply subject. *)
Variable reply : str.

(** src/net/nats/connect.go:155-159, Connect.RequestSync *)
Definition RequestSync_start (subject : str) (data : bytes) (c : nconn) : nconn :=
  let seq := u64 (nc_seq c + 1) in
  mkNconn seq (nc_waiters c) (nc_requests c ++ [mkRequest (format_uint 10 seq) subject data [] RqNumbered])
    (nc_held c) (nc_published c) (nc_handled c).

(** src/net/nats/connect.go:160-160, Connect.RequestSync *)
Definition RequestSync_store (i : nat) (c : nconn) : option nconn :=
  r ← nc_requests c !! i;
  match rq_at r with
  | RqNumbered => Some (set_waiters (<[rq_id r := i]> (nc_waiters c)) (set_request i (set_at RqStored r) c))
  | _ => None
  end.

(** src/net/nats/connect.go:162-177, Connect.RequestSync *)
Definition RequestSync_publish (i : nat) (err : option string) (c : nconn) : option nconn :=
  r ← nc_requests c !! i;
  match rq_at r with
  | RqStored =>
      match err with
      | Some e => Some (set_request i (set_at (RqFailed e) r) c)
      | None =>
          let msg := mkNatsMsg (rq_data r) reply (Header_Set [] REQ_ID (rq_id r)) in
          let c := set_request i (set_at RqWaiting r) c in
          Some (mkNconn (nc_seq c) (nc_waiters c) (nc_requests c) (nc_held c) (nc_published c ++ [(rq_subject r, msg)]) (nc_handled c))
      end
  | _ => None
  end.

(** src/net/nats/connect.go:179-187, Connect.RequestSync *)
Definition RequestSync_receive (i : nat) (c : nconn) : option nconn :=
  r ← nc_requests c !! i;
  match rq_at r, rq_ch r with
  | RqWaiting, resp :: ch => Some (set_request i (set_at (RqDone (Ok (nm_Data resp))) (set_ch ch r)) c)
  | _, _ => None
  end.

(** src/net/nats/connect.go:179-188, Connect.RequestSync *)
Definition RequestSync_timeout (i : nat) (c : nconn) : option nconn :=
  r ← nc_requests c !! i;
  match rq_at r with RqWaiting => Some (set_request i (set_at RqExpired r) c) | _ => None end.

(** src/net/nats/connect.go:174-192, Connect.RequestSync *)
Definition RequestSync_delete (i : nat) (c : nconn) : option nconn :=
  r ← nc_requests c !! i;
  let finish x := Some (set_waiters (delete (rq_id r) (nc_waiters c)) (set_request i (set_at (RqDone x) r) c)) in
  match rq_at r with
  | RqFailed e => finish (Err e)
  | RqExpired => finish (Err "cluster request timeout")
  | _ => None
  end.

(** src/net/nats/connect.go:122-130, Connect.initReplySubscribe *)
Definition reply_load (msg : natsMsg) (c : nconn) : option nconn :=
  match nc_held c with
  | Some _ => None
  | None =>
      let reqID := Header_Get (nm_Header msg) REQ_ID in
      let handled := nc_handled c ++ [msg] in
      if String.eqb reqID EmptyString
      then Some (mkNconn (nc_seq c) (nc_waiters c) (nc_requests c) None (nc_published c) handled)
      else match nc_waiters c !! reqID with
           | Some i => Some (mkNconn (nc_seq c) (delete reqID (nc_waiters c)) (nc_requests c) (Some (i, msg)) (nc_published c) handled)
           | None => Some (mkNconn (nc_seq c) (nc_waiters c) (nc_requests c) None (nc_published c) handled)
           end
  end.

(** src/net/nats/connect.go:131-136, Connect.initReplySubscribe *)
Definition reply_send (c : nconn) : option nconn :=
  '(i, msg) ← nc_held c;
  r ← nc_requests c !! i;
  let r := if (length (rq_ch r) <? 1)%nat then set_ch (rq_ch r ++ [msg]) r else r in
  Some (mkNconn (nc_seq c) (nc_waiters c) (<[i := r]> (nc_requests c)) None (nc_published c) (nc_handled c)).

Inductive nats_action :=
| NStart (subject : str) (data : bytes) | NStore (i : nat) | NPublish (i : nat) (err : option string)
| NReceive (i : nat) | NTimeout (i : nat) | NDelete (i : nat) | NLoad (msg : natsMsg) | NSend.

(** src/net/nats/connect.go:122-193, Connect.RequestSync *)
Definition exec_nats (a : nats_action) (c : nconn) : option nconn :=
  match a with
  | NStart subject data => Some (RequestSync_start subject data c)
  | NStore i => RequestSync_store i c
  | NPublish i err => RequestSync_publish i err c
  | NReceive i => RequestSync_receive i c
  | NTimeout i => RequestSync_timeout i c
  | NDelete i => RequestSync_delete i c
  | NLoad msg => reply_load msg c
  | NSend => reply_send c
  end.

Definition nats_run (l : list nats_action) (c : nconn) : option nconn :=
  foldl (fun c a => c ≫= exec_nats a) (Some c) l.

Inductive nats_reach : nconn -> Prop :=
| nats_init : nats_reach new_nconn
| nats_step c a c' : nats_reach c -> exec_nats a c = Some c' -> nats_reach c'.

(** *** The invariant *)

Definition reply_of (m : natsMsg) (r : request) (c : nconn) : Prop :=
  Header_Get (nm_Header m) REQ_ID = rq_id r /\ m ∈ nc_handled c.
Definition held_by (i : nat) (c : nconn) : Prop := exists m, nc_held c = Some (i, m).
Definition rq_open (r : request) : Prop := match rq_at r with RqNumbered | RqDone _ => False | _ => True end.

(** What holds of the [i]-th call. *)
Record rq_ok (c : nconn) (i : nat) (r : request) : Prop := {
  ro_id : rq_id r = format_uint 10 (Z.of_nat i + 1);
  ro_ch : Forall (fun m => reply_of m r c) (rq_ch r);
  ro_fresh : rq_at r = RqNumbered -> rq_ch r = [] /\ ~ held_by i c;
  ro_live : rq_at r = RqStored \/ rq_at r = RqWaiting ->
    nc_waiters c !! rq_id r = Some i \/ held_by i c \/ rq_ch r <> [];
  ro_done : forall data, rq_at r = RqDone (Ok data) -> exists m, reply_of m r c /\ nm_Data m = data }.

Record nats_ok (c : nconn) : Prop := {
  no_seq : nc_seq c = Z.of_nat (length (nc_requests c));
  no_rq : forall i r, nc_requests c !! i = Some r -> rq_ok c i r;
  no_wait : forall (k : str) (i : nat), nc_waiters c !! k = Some i -> exists r, nc_requests c !! i = Some r /\ rq_id r = k /\
    rq_open r /\ rq_ch r = [] /\ ~ held_by i c;
  no_held : forall i m, nc_held c = Some (i, m) -> exists r, nc_requests c !! i = Some r /\ reply_of m r c /\
    rq_ch r = [] /\ nc_waiters c !! rq_id r = None }.

Lemma format_uint_inj a b : inU 64 a -> inU 64 b -> format_uint 10 a = format_uint 10 b -> a = b.
Proof.
  intros Ha Hb E. pose proof (parse_format_uint 10 64 a ltac:(lia) Ha) as Pa.
  pose proof (parse_format_uint 10 64 b ltac:(lia) Hb) as Pb. rewrite E, Pb in Pa. by injection Pa.
Qed.

Lemma rq_id_inj c i j r r' : nats_ok c -> Z.of_nat (length (nc_requests c)) < 2 ^ 64 ->
  nc_requests c !! i = Some r -> nc_requests c !! j = Some r' -> rq_id r = rq_id r' -> i = j.
Proof.
  intros I Hn Hi Hj E. rewrite (ro_id _ _ _ (no_rq c I i r Hi)), (ro_id _ _ _ (no_rq c I j r' Hj)) in E.
  pose proof (lookup_lt_Some _ _ _ Hi). pose proof (lookup_lt_Some _ _ _ Hj).
  apply format_uint_inj in E; unfold inU; lia.
Qed.

(** A step that changes one call's record, the waiters, what the callback holds and the
    history keeps the invariant when it keeps it for that call and for the entries. *)
Lemma nats_ok_update c c' i r r' : nats_ok c -> Z.of_nat (length (nc_requests c)) < 2 ^ 64 ->
  nc_requests c !! i = Some r -> rq_id r' = rq_id r ->
  nc_seq c' = nc_seq c -> nc_requests c' = <[i := r']> (nc_requests c) ->
  (forall m, m ∈ nc_handled c -> m ∈ nc_handled c') ->
  (forall j, j <> i -> held_by j c' <-> held_by j c) ->
  (forall k, k <> rq_id r -> nc_waiters c' !! k = nc_waiters c !! k) ->
  rq_ok c' i r' ->
  (forall j, nc_waiters c' !! rq_id r = Some j -> j = i /\ rq_open r' /\ rq_ch r' = [] /\ ~ held_by i c') ->
  (forall m, nc_held c' = Some (i, m) -> reply_of m r' c' /\ rq_ch r' = [] /\ nc_waiters c' !! rq_id r = None) ->
  (forall j m, j <> i -> nc_held c' = Some (j, m) -> nc_held c = Some (j, m)) ->
  nats_ok c'.
Proof.
  intros I Hn Hi Hid Hs Hr Hh Hb Hw Hok Hwi Hhi Hhj. pose proof (lookup_lt_Some _ _ _ Hi) as Hlt.
  assert (Hother : forall j x, j <> i -> nc_requests c !! j = Some x -> rq_id x <> rq_id r).
  { intros j x Hj Hx E. apply Hj. by eapply (rq_id_inj c j i x r). }
  split.
  - rewrite Hs, Hr, length_insert. apply I.
  - intros j x Hj. rewrite Hr in Hj. apply list_lookup_insert_Some in Hj as [(-> & -> & _)|[Hne Hj]]; [done|].
    assert (Hne' : j <> i) by done. destruct (no_rq c I j x Hj). split; try done.
    + eapply list.Forall_impl; [exact ro_ch0|]. intros m [? ?]. split; [done|by apply Hh].
    + intros E. rewrite (Hb j Hne'). by apply ro_fresh0.
    + intros E. rewrite (Hb j Hne'), Hw by (by apply (Hother j)). by apply ro_live0.
    + intros data E. destruct (ro_done0 data E) as (m & [? ?] & ?). exists m. split; [|done]. split; [done|by apply Hh].
  - intros k j Hk. destruct (decide (k = rq_id r)) as [->|Hkr].
    + destruct (Hwi j Hk) as (-> & ? & ? & ?). exists r'. rewrite Hr, list_lookup_insert_eq by done. done.
    + rewrite Hw in Hk by done. destruct (no_wait c I k j Hk) as (x & Hx & Hxk & ? & ? & ?).
      assert (Hne : j <> i) by (intros ->; rewrite Hx in Hi; congruence).
      exists x. rewrite Hr, list_lookup_insert_ne by done. by rewrite (Hb j Hne).
  - intros j m Hj. destruct (decide (j = i)) as [->|Hne].
    + exists r'. rewrite Hr, list_lookup_insert_eq, Hid by done. destruct (Hhi m Hj) as (? & ? & ?). done.
    + destruct (no_held c I j m (Hhj j m Hne Hj)) as (x & Hx & [? ?] & ? & ?). exists x.
      rewrite Hr, list_lookup_insert_ne, Hw by (done || by apply (Hother j)). split_and!; try done. split; [done|by apply Hh].
Qed.

Lemma start_ok subject data c : nats_ok c -> Z.of_nat (length (nc_requests c)) + 1 < 2 ^ 64 ->
  nats_ok (RequestSync_start subject data c).
Proof.
  intros I Hn. unfold RequestSync_start.
  assert (Es : u64 (nc_seq c + 1) = Z.of_nat (length (nc_requests c)) + 1).
  { rewrite (no_seq c I). apply wrapU_id. unfold inU. lia. }
  assert (Hl : forall j x, nc_requests c !! j = Some x ->
    (nc_requests c ++ [mkRequest (format_uint 10 (u64 (nc_seq c + 1))) subject data [] RqNumbered]) !! j = Some x).
  { intros j x Hx. by apply lookup_app_l_Some. }
  split; simpl.
  - rewrite length_app, Es. simpl. lia.
  - intros j x Hj. apply lookup_app_Some in Hj as [Hj|[Hlt Hj]]; [by destruct (no_rq c I j x Hj); split|].
    destruct (j - length (nc_requests c))%nat eqn:Ej; [|done]. injection Hj as <-.
    assert (j = length (nc_requests c)) as -> by lia. split; simpl; try done.
    + by rewrite Es.
    + intros _. split; [done|]. intros [m Hm]. destruct (no_held c I _ _ Hm) as (y & Hy%lookup_lt_Some & _). lia.
    + by intros [?|?].
  - intros k j Hk. destruct (no_wait c I k j Hk) as (x & Hx & Hrest). exists x. split; [by apply Hl|done].
  - intros j m Hj. destruct (no_held c I j m Hj) as (x & Hx & Hrest). exists x. split; [by apply Hl|done].
Qed.

Lemma store_ok i c c' : nats_ok c -> Z.of_nat (length (nc_requests c)) < 2 ^ 64 -> RequestSync_store i c = Some c' -> nats_ok c'.
Proof.
  intros I Hn E. unfold RequestSync_store in E. destruct (nc_requests c !! i) as [r|] eqn:Hi; [|done]. simpl in E.
  destruct (rq_at r) eqn:Ea; try done. injection E as <-. pose proof (no_rq c I i r Hi) as [].
  destruct (ro_fresh0 Ea) as [Hch Hnh].
  eapply (nats_ok_update c _ i r (set_at RqStored r)); simpl; try done.
  - intros k Hk. by rewrite lookup_insert_ne.
  - split; simpl; try done. intros _. left. by rewrite lookup_insert_eq.
  - intros j. rewrite lookup_insert_eq. intros [= <-]. done.
  - intros m Hm. exfalso. apply Hnh. by exists m.
Qed.

(** A call that stays registered and only moves on. *)
Lemma move_ok i r pc c : nats_ok c -> Z.of_nat (length (nc_requests c)) < 2 ^ 64 -> nc_requests c !! i = Some r ->
  (rq_at r = RqStored \/ rq_at r = RqWaiting) -> rq_open (set_at pc r) -> nats_ok (set_request i (set_at pc r) c).
Proof.
  intros I Hn Hi Ha Hopen. pose proof (no_rq c I i r Hi) as [].
  eapply (nats_ok_update c _ i r (set_at pc r)); simpl; try done.
  - split; simpl; try done.
    + intros ->. done.
    + intros _. by apply ro_live0.
    + intros data ->. done.
  - intros j Hj. destruct (no_wait c I _ j Hj) as (x & Hx & Hid & Hrest).
    assert (j = i) as -> by (by eapply (rq_id_inj c j i x r)). rewrite Hx in Hi. injection Hi as ->.
    by destruct Hrest as (_ & ? & ?).
  - intros m Hm. destruct (no_held c I i m Hm) as (x & Hx & Hrest). rewrite Hx in Hi. by injection Hi as ->.
Qed.

Lemma nats_ok_history c p : nats_ok c ->
  nats_ok (mkNconn (nc_seq c) (nc_waiters c) (nc_requests c) (nc_held c) p (nc_handled c)).
Proof. intros []. split; simpl; try done. intros i r Hi. by destruct (no_rq0 i r Hi). Qed.

Lemma publish_ok i err c c' : nats_ok c -> Z.of_nat (length (nc_requests c)) < 2 ^ 64 ->
  RequestSync_publish i err c = Some c' -> nats_ok c'.
Proof.
  intros I Hn E. unfold RequestSync_publish in E. destruct (nc_requests c !! i) as [r|] eqn:Hi; [|done]. simpl in E.
  destruct (rq_at r) eqn:Ea; try done. destruct err as [e|]; injection E as <-.
  - apply move_ok; try done. by left.
  - apply (nats_ok_history (set_request i (set_at RqWaiting r) c)). apply move_ok; try done. by left.
Qed.

Lemma timeout_ok i c c' : nats_ok c -> Z.of_nat (length (nc_requests c)) < 2 ^ 64 ->
  RequestSync_timeout i c = Some c' -> nats_ok c'.
Proof.
  intros I Hn E. unfold RequestSync_timeout in E. destruct (nc_requests c !! i) as [r|] eqn:Hi; [|done]. simpl in E.
  destruct (rq_at r) eqn:Ea; try done. injection E as <-. apply move_ok; try done. by right.
Qed.

Lemma receive_ok i c c' : nats_ok c -> Z.of_nat (length (nc_requests c)) < 2 ^ 64 ->
  RequestSync_receive i c = Some c' -> nats_ok c'.
Proof.
  intros I Hn E. unfold RequestSync_receive in E. destruct (nc_requests c !! i) as [r|] eqn:Hi; [|done]. simpl in E.
  destruct (rq_at r) eqn:Ea; try done. destruct (rq_ch r) as [|m ch] eqn:Ec; [done|]. injection E as <-.
  pose proof (no_rq c I i r Hi) as []. rewrite Ec in ro_ch0. apply Forall_cons_iff in ro_ch0 as [Hm Hch].
  eapply (nats_ok_update c _ i r (set_at (RqDone (Ok (nm_Data m))) (set_ch ch r))); simpl; try done.
  - split; simpl; try done.
    + by intros [?|?].
    + intros data [= <-]. by exists m.
  - intros j Hj. destruct (no_wait c I _ j Hj) as (x & Hx & Hid & _ & Hxc & _).
    assert (j = i) as -> by (by eapply (rq_id_inj c j i x r)). rewrite Hx in Hi. congruence.
  - intros m' Hm'. destruct (no_held c I i m' Hm') as (x & Hx & _ & Hxc & _). rewrite Hx in Hi. congruence.
Qed.

Lemma delete_ok i c c' : nats_ok c -> Z.of_nat (length (nc_requests c)) < 2 ^ 64 ->
  RequestSync_delete i c = Some c' -> nats_ok c'.
Proof.
  intros I Hn E. unfold RequestSync_delete in E. destruct (nc_requests c !! i) as [r|] eqn:Hi; [|done]. simpl in E.
  assert (Hx : exists e, c' = set_waiters (delete (rq_id r) (nc_waiters c)) (set_request i (set_at (RqDone (Err e)) r) c)).
  { destruct (rq_at r); try done; injection E as <-; by eexists. }
  destruct Hx as [e ->]. pose proof (no_rq c I i r Hi) as [].
  eapply (nats_ok_update c _ i r (set_at (RqDone (Err e)) r)); simpl; try done.
  - intros k Hk. by rewrite lookup_delete_ne.
  - split; simpl; try done. by intros [?|?].
  - intros j. by rewrite lookup_delete_eq.
  - intros m Hm. destruct (no_held c I i m Hm) as (x & Hx & ? & ? & _). rewrite Hx in Hi. injection Hi as ->.
    by rewrite lookup_delete_eq.
Qed.

Lemma load_ok m c c' : nats_ok c -> Z.of_nat (length (nc_requests c)) < 2 ^ 64 -> reply_load m c = Some c' -> nats_ok c'.
Proof.
  intros I Hn E. unfold reply_load in E. destruct (nc_held c) eqn:Eh; [done|].
  assert (Hmono : nats_ok (mkNconn (nc_seq c) (nc_waiters c) (nc_requests c) None (nc_published c) (nc_handled c ++ [m]))).
  { destruct I. split; simpl; try done.
    - intros i r Hi. destruct (no_rq0 i r Hi). split; try done; unfold held_by in *; rewrite Eh in *; simpl in *; try done.
      + eapply list.Forall_impl; [exact ro_ch0|]. intros x [? ?]. split; [done|]. by apply elem_of_app; left.
      + intros data Ed. destruct (ro_done0 data Ed) as (x & [? ?] & ?). exists x. split; [|done].
        split; [done|]. by apply elem_of_app; left.
    - unfold held_by in *. rewrite Eh in *. done. }
  destruct (String.eqb _ _); [by injection E as <-|].
  destruct (nc_waiters c !! _) as [i|] eqn:Ew; [|by injection E as <-]. injection E as <-.
  destruct (no_wait c I _ i Ew) as (r & Hi & Hid & Hop & Hch & Hnh). pose proof (no_rq c I i r Hi) as [].
  eapply (nats_ok_update _ _ i r r Hmono Hn Hi); simpl; try done.
  - by rewrite list_insert_id.
  - intros j Hj. unfold held_by. simpl. split; [intros [? [=]]; congruence|by intros [? [=]]].
  - intros k Hk. rewrite lookup_delete_ne; [done|congruence].
  - split; simpl; try done.
    + by rewrite Hch.
    + intros Ha. unfold rq_open in Hop. by rewrite Ha in Hop.
    + intros _. right; left. by exists m.
    + intros data Ed. unfold rq_open in Hop. by rewrite Ed in Hop.
  - intros j. rewrite <- Hid, lookup_delete_eq. done.
  - intros x [= <-]. split; [|split; [done|by rewrite Hid, lookup_delete_eq]]. split; [done|]. simpl.
    apply elem_of_app. right. by apply list_elem_of_singleton.
  - intros j x Hj [= -> _]. done.
Qed.

Lemma reply_send_ok c c' : nats_ok c -> Z.of_nat (length (nc_requests c)) < 2 ^ 64 -> reply_send c = Some c' -> nats_ok c'.
Proof.
  intros I Hn E. unfold reply_send in E. destruct (nc_held c) as [[i m]|] eqn:Eh; [|done]. simpl in E.
  destruct (no_held c I i m Eh) as (r & Hi & Hm & Hch & Hw). rewrite Hi in E. simpl in E. rewrite Hch in E. simpl in E.
  injection E as <-. pose proof (no_rq c I i r Hi) as [].
  eapply (nats_ok_update c _ i r (set_ch [m] r)); simpl; try done.
  - intros j Hj. unfold held_by. simpl. rewrite Eh. split; [by intros [? ?]|intros [? [= -> _]]; done].
  - split; simpl; try done.
    + by repeat constructor; apply Hm.
    + intros Ha. exfalso. apply (ro_fresh0 Ha). by exists m.
    + intros _. by right; right.
  - intros j Hj. congruence.
Qed.

Lemma exec_nats_length a c c' : exec_nats a c = Some c' ->
  length (nc_requests c') = match a with NStart _ _ => S (length (nc_requests c)) | _ => length (nc_requests c) end.
Proof.
  destruct a; simpl; unfold RequestSync_store, RequestSync_publish, RequestSync_receive, RequestSync_timeout,
    RequestSync_delete, reply_load, reply_send; intros E; simplify_option_eq; repeat (case_match; simplify_option_eq);
    rewrite ?length_insert, ?length_app; simpl; try done; lia.
Qed.

Lemma nats_reach_ok c : nats_reach c -> Z.of_nat (length (nc_requests c)) < 2 ^ 64 -> nats_ok c.
Proof.
  induction 1 as [|c a c' _ IH E]; intros Hn; [by split|]. pose proof (exec_nats_length a c c' E) as Hl.
  assert (Hn' : Z.of_nat (length (nc_requests c)) < 2 ^ 64) by (destruct a; lia). specialize (IH Hn').
  destruct a; simpl in E.
  - injection E as <-. apply start_ok; [done|lia].
  - by eapply store_ok.
  - by eapply publish_ok.
  - by eapply receive_ok.
  - by eapply timeout_ok.
  - by eapply delete_ok.
  - by eapply load_ok.
  - by eapply reply_send_ok.
Qed.

Lemma format_uint_ne b n : format_uint b n <> EmptyString.
Proof. by destruct (format_uint_cons b n) as (c & s & ->). Qed.

(** The way of a reply to a call that waits for it. *)
Lemma reply_path c i r m : nc_requests c !! i = Some r -> rq_at r = RqWaiting -> rq_ch r = [] -> nc_held c = None ->
  nc_waiters c !! rq_id r = Some i -> Header_Get (nm_Header m) REQ_ID = rq_id r -> rq_id r <> EmptyString ->
  exists c', nats_run [NLoad m; NSend; NReceive i] c = Some c' /\
    nc_requests c' !! i = Some (set_at (RqDone (Ok (nm_Data m))) r).
Proof.
  intros Hi Hw Hch Hh Hreg Hm Hne%String.eqb_neq. pose proof (lookup_lt_Some _ _ _ Hi) as Hlt.
  unfold nats_run. simpl. unfold reply_load. rewrite Hh, Hm, Hne, Hreg. simpl.
  unfold reply_send. simpl. rewrite Hi. simpl. rewrite Hch. simpl. unfold RequestSync_receive. simpl.
  rewrite list_lookup_insert_eq by done. simpl. rewrite Hw. eexists. split; [reflexivity|]. simpl.
  rewrite list_lookup_insert_eq by (by rewrite length_insert). unfold set_at, set_ch. simpl. by rewrite <- Hch.
Qed.

(** C10: A reply reaches the call it answers and no other. In any run with fewer than 2^64
    calls on the connection: two calls never share a request ID; a call that returned data
    got it from a message the reply subscription received under the call's own ID; a waiting
    call is still registered, or its reply is on the way to it, so that a reply with its ID
    makes it return that reply's data; and when all calls have returned no entry is left. *)
Theorem reply_correlation (c : nconn) :
  nats_reach c -> Z.of_nat (length (nc_requests c)) < 2 ^ 64 ->
  (forall i j r r', nc_requests c !! i = Some r -> nc_requests c !! j = Some r' -> rq_id r = rq_id r' -> i = j) /\
  (forall i r data, nc_requests c !! i = Some r -> rq_at r = RqDone (Ok data) ->
     exists m, m ∈ nc_handled c /\ Header_Get (nm_Header m) REQ_ID = rq_id r /\ nm_Data m = data) /\
  (forall i r m, nc_requests c !! i = Some r -> rq_at r = RqWaiting -> rq_ch r = [] -> nc_held c = None ->
     Header_Get (nm_Header m) REQ_ID = rq_id r ->
     exists c' r', nats_run [NLoad m; NSend; NReceive i] c = Some c' /\ nc_requests c' !! i = Some r' /\
       rq_at r' = RqDone (Ok (nm_Data m))) /\
  ((forall r, r ∈ nc_requests c -> exists x, rq_at r = RqDone x) -> nc_waiters c = ∅).
Proof.
  intros Hc Hn. pose proof (nats_reach_ok c Hc Hn) as I. split_and!.
  - intros i j r r'. by apply rq_id_inj.
  - intros i r data Hi Hd. destruct (ro_done _ _ _ (no_rq c I i r Hi) data Hd) as (m & [? ?] & ?). by exists m.
  - intros i r m Hi Hw Hch Hh Hm. pose proof (no_rq c I i r Hi) as []. pose proof (lookup_lt_Some _ _ _ Hi).
    assert (Hreg : nc_waiters c !! rq_id r = Some i).
    { destruct (ro_live0 (or_intror Hw)) as [|[[x Hx]|]]; [done|congruence|done]. }
    destruct (reply_path c i r m Hi Hw Hch Hh Hreg Hm ltac:(rewrite ro_id0; apply format_uint_ne)) as (c' & E & Hr). by eexists _, _.
  - intros Hd. apply map_empty. intros k. destruct (nc_waiters c !! k) as [i|] eqn:Ek; [|done].
    destruct (no_wait c I k i Ek) as (r & Hi & _ & Ho & _). destruct (Hd r) as [x Hx]; [by eapply list_elem_of_lookup_2|].
    unfold rq_open in Ho. by rewrite Hx in Ho.
Qed.
End Replies.

(** Headers as association lists. *)
Fixpoint alist_get (h : list (str * str)) (k : str) : str :=
  match h with [] => EmptyString | (k', v) :: h => if String.eqb k k' then v else alist_get h k end.
#[refine] Instance alist_headers : NatsHeader := { Header_Set h k v := (k, v) :: h; Header_Get := alist_get }.
Proof. intros h k v. simpl. by rewrite String.eqb_refl. Defined.

(** Two calls; the second is answered first, the first times out while its answer comes. *)
Definition reply_run : list nats_action :=
  [NStart "a" []; NStart "b" []; NStore 1; NStore 0; NPublish 0 None; NPublish 1 None;
   NLoad (mkNatsMsg [Byte.x07] "r" [(REQ_ID, "2")]); NTimeout 0; NSend; NReceive 1;
   NLoad (mkNatsMsg [Byte.x08] "r" [(REQ_ID, "1")]); NDelete 0; NSend].
Definition reply_state : nconn := default new_nconn (nats_run "r" reply_run new_nconn).

Lemma nats_run_reach reply l c c' : nats_reach reply c -> nats_run reply l c = Some c' -> nats_reach reply c'.
Proof.
  revert c. induction l as [|a l IH]; intros c Hc E; [by injection E as <-|].
  unfold nats_run in *. simpl in E. destruct (exec_nats reply a c) as [c1|] eqn:E1.
  - apply (IH c1); [by eapply nats_step|done].
  - exfalso. clear -E. induction l; [done|auto].
Qed.

Lemma nats_reach_default reply l : nats_reach reply (default new_nconn (nats_run reply l new_nconn)).
Proof.
  destruct (nats_run reply l new_nconn) as [c|] eqn:E; [|apply nats_init].
  by apply (nats_run_reach reply l new_nconn); [apply nats_init|].
Qed.

Lemma reply_correlation_witness :
  rq_at <$> nc_requests reply_state = [RqDone (Err "cluster request timeout"); RqDone (Ok [Byte.x07])] /\
  nc_waiters reply_state = ∅.
Proof.
  assert (E : rq_at <$> nc_requests reply_state = [RqDone (Err "cluster request timeout"); RqDone (Ok [Byte.x07])])
    by (vm_compute; reflexivity).
  split; [exact E|]. apply (reply_correlation "r" reply_state).
  - apply nats_reach_default.
  - assert (El : length (nc_requests reply_state) = 2%nat) by (vm_compute; reflexivity). by rewrite El.
  - intros r Hr. apply (list_elem_of_fmap_2 rq_at) in Hr. rewrite E in Hr.
    apply list_elem_of_In in Hr. destruct Hr as [<-|[<-|[]]]; by eexists.
Defined.
