(* ===== verification/DelayQueue.v ===== *)
(** The priority queue behind the time wheel (extend/time_wheel/delay_queue.go): a binary
    heap in a slice, kept by [container/heap], with the smallest priority first.

    Capacities are not represented: [Push] and [Pop] copy the slice when they change them
    and its elements stay the same. The goroutine [Poll] is part of [TimeWheel]. *)
From S2P Require Import Prelude.

(** src/extend/time_wheel/delay_queue.go:12-16, item *)
Record item (A : Type) := mkItem { it_Value : A; it_Priority : Z }.
Arguments mkItem {A}. Arguments it_Value {A}. Arguments it_Priority {A}.

Section Heap.
Context {A : Type}.
Abbreviation pqueue := (list (item A)).

(** src/extend/time_wheel/delay_queue.go:30-32, priorityQueue.Less *)
Definition Less (pq : pqueue) (i j : nat) : bool :=
  match pq !! i, pq !! j with Some x, Some y => it_Priority x <? it_Priority y | _, _ => false end.

(** src/extend/time_wheel/delay_queue.go:34-38, priorityQueue.Swap *)
Definition Swap (i j : nat) (pq : pqueue) : pqueue :=
  match pq !! i, pq !! j with Some x, Some y => <[j := x]> (<[i := y]> pq) | _, _ => pq end.

(** [container/heap]'s [up]: each turn moves to the parent. *)
Fixpoint up (fuel j : nat) (pq : pqueue) : pqueue :=
  match fuel with
  | O => pq
  | S fuel =>
      let i := ((j - 1) / 2)%nat in
      if (i =? j)%nat || negb (Less pq j i) then pq else up fuel i (Swap i j pq)
  end.

(** The child of [i] with the smaller priority. *)
Definition min_child (i n : nat) (pq : pqueue) : nat :=
  let j1 := (2 * i + 1)%nat in
  if (j1 + 1 <? n)%nat && Less pq (j1 + 1) j1 then (j1 + 1)%nat else j1.

(** [container/heap]'s [down] on the first [n] elements: each turn moves to a child. *)
Fixpoint down (fuel i n : nat) (pq : pqueue) : pqueue :=
  match fuel with
  | O => pq
  | S fuel =>
      if (n <=? 2 * i + 1)%nat then pq
      else
        let j := min_child i n pq in
        if negb (Less pq j i) then pq else down fuel j n (Swap i j pq)
  end.

(** [heap.Push] with the queue's own [Push], which appends. *)
(** src/extend/time_wheel/delay_queue.go:40-52, priorityQueue.Push *)
Definition heap_Push (x : item A) (pq : pqueue) : pqueue :=
  let pq := pq ++ [x] in up (length pq) (length pq - 1) pq.

(** [heap.Remove] of the first element with the queue's own [Pop], which takes the last
    one; [up] from 0 does nothing. *)
(** src/extend/time_wheel/delay_queue.go:54-67, priorityQueue.Pop *)
Definition heap_Remove0 (pq : pqueue) : pqueue :=
  let n := (length pq - 1)%nat in
  take n (if (n =? 0)%nat then pq else down (length pq) 0 n (Swap 0 n pq)).

(** src/extend/time_wheel/delay_queue.go:69-81, priorityQueue.PeekAndShift *)
Definition PeekAndShift (maxValue : Z) (pq : pqueue) : option (item A) * Z * pqueue :=
  match pq with
  | [] => (None, 0, pq)
  | value :: _ =>
      if maxValue <? it_Priority value then (None, i64 (it_Priority value - maxValue), pq)
      else (Some value, 0, heap_Remove0 pq)
  end.

(** *** The heap order *)

Definition prio (pq : pqueue) (i : nat) : Z := default 0 (it_Priority <$> pq !! i).

Definition parent (i : nat) : nat := ((i - 1) / 2)%nat.

(** The order holds but possibly between [j] and its parent. *)
Definition heap_but (j : nat) (pq : pqueue) : Prop :=
  (forall i, (0 < i < length pq)%nat -> i <> j -> prio pq (parent i) <= prio pq i) /\
  (forall i, (0 < i < length pq)%nat -> parent i = j -> (0 < j)%nat -> prio pq (parent j) <= prio pq i).

Definition heap_ok (pq : pqueue) : Prop :=
  forall i, (0 < i < length pq)%nat -> prio pq (parent i) <= prio pq i.

Lemma parent_lt i : (0 < i)%nat -> (parent i < i)%nat.
Proof. intros Hi. unfold parent. apply Nat.Div0.div_lt_upper_bound. lia. Qed.

Lemma parent_child i j : (0 < i)%nat -> parent i = j <-> i = (2 * j + 1)%nat \/ i = (2 * j + 2)%nat.
Proof.
  intros Hi. unfold parent. pose proof (Nat.div_mod_eq (i - 1) 2). pose proof (Nat.mod_upper_bound (i - 1) 2). lia.
Qed.

Lemma Less_prio pq i j : (i < length pq)%nat -> (j < length pq)%nat -> Less pq i j = (prio pq i <? prio pq j).
Proof.
  intros Hi Hj. unfold Less, prio. destruct (lookup_lt_is_Some_2 pq i Hi) as [x ->].
  by destruct (lookup_lt_is_Some_2 pq j Hj) as [y ->].
Qed.

Lemma Swap_perm i j pq : Swap i j pq ≡ₚ pq.
Proof.
  unfold Swap. destruct (pq !! i) as [x|] eqn:Hi; [|done]. destruct (pq !! j) as [y|] eqn:Hj; [|done].
  by apply Permutation_insert_swap.
Qed.

Lemma Swap_length i j pq : length (Swap i j pq) = length pq.
Proof. apply Permutation_length, Swap_perm. Qed.

Lemma prio_Swap i j pq k : (i < length pq)%nat -> (j < length pq)%nat ->
  prio (Swap i j pq) k = if decide (k = j) then prio pq i else if decide (k = i) then prio pq j else prio pq k.
Proof.
  intros Hi Hj. unfold Swap, prio. destruct (lookup_lt_is_Some_2 pq i Hi) as [x Hx].
  destruct (lookup_lt_is_Some_2 pq j Hj) as [y Hy]. rewrite Hx, Hy.
  destruct (decide (k = j)) as [->|Hkj]; [by rewrite list_lookup_insert_eq by (by rewrite length_insert)|].
  rewrite list_lookup_insert_ne by done. destruct (decide (k = i)) as [->|Hki]; [by rewrite list_lookup_insert_eq|].
  by rewrite list_lookup_insert_ne.
Qed.

Lemma up_perm fuel j pq : up fuel j pq ≡ₚ pq.
Proof.
  revert j pq. induction fuel as [|fuel IH]; intros j pq; simpl; [done|]. case_if; [done|].
  by rewrite IH, Swap_perm.
Qed.

Lemma up_ok fuel j pq : (j < length pq)%nat -> (j < fuel)%nat -> heap_but j pq -> heap_ok (up fuel j pq).
Proof.
  revert j pq. induction fuel as [|fuel IH]; intros j pq Hj Hf [H1 H2]; [lia|]. cbn [up]. fold (parent j).
  destruct (Nat.eqb_spec (parent j) j) as [E|Hne]; simpl.
  { assert (j = 0%nat) as -> by (destruct j; [done|]; pose proof (parent_lt (S j) ltac:(lia)); lia).
    intros i Hi. apply H1; [done|lia]. }
  assert (Hj0 : (0 < j)%nat) by (destruct j; [done|lia]). pose proof (parent_lt j Hj0) as Hp.
  rewrite Less_prio by lia. destruct (Z.ltb_spec (prio pq j) (prio pq (parent j))) as [Hlt|Hge]; simpl.
  2: { intros i Hi. destruct (decide (i = j)) as [->|]; [done|]. by apply H1. }
  apply IH; [rewrite Swap_length; lia|lia|]. split; rewrite Swap_length.
  - intros k Hk Hki. pose proof (parent_lt k ltac:(lia)). rewrite !prio_Swap by lia.
    destruct (decide (k = j)) as [->|Hkj].
    + rewrite decide_False, decide_True by lia. lia.
    + rewrite (decide_False (P := k = parent j)) by done.
      destruct (decide (parent k = j)) as [E|]; [by apply H2|].
      destruct (decide (parent k = parent j)) as [E|]; [|by apply H1].
      specialize (H1 k ltac:(lia) Hkj). rewrite E in H1. lia.
  - intros k Hk Ek Hpj. pose proof (parent_lt k ltac:(lia)). pose proof (parent_lt (parent j) Hpj).
    rewrite !prio_Swap by lia. rewrite (decide_False (P := parent (parent j) = j)) by lia.
    rewrite (decide_False (P := parent (parent j) = parent j)) by lia.
    pose proof (H1 (parent j) ltac:(lia) ltac:(lia)) as Hpp.
    destruct (decide (k = j)) as [->|Hkj]; [done|]. rewrite decide_False by lia.
    specialize (H1 k ltac:(lia) Hkj). rewrite Ek in H1. lia.
Qed.

(** The order holds in the first [n] elements but possibly between [i] and its children. *)
Definition heap_below (i n : nat) (pq : pqueue) : Prop :=
  (forall k, (0 < k < n)%nat -> parent k <> i -> prio pq (parent k) <= prio pq k) /\
  (forall k, (0 < k < n)%nat -> parent k = i -> (0 < i)%nat -> prio pq (parent i) <= prio pq k).

Lemma down_keeps fuel i n pq : (n <= length pq)%nat ->
  length (down fuel i n pq) = length pq /\ down fuel i n pq ≡ₚ pq /\
  forall k, (i < n)%nat -> (n <= k)%nat -> down fuel i n pq !! k = pq !! k.
Proof.
  revert i pq. induction fuel as [|fuel IH]; intros i pq Hn; cbn [down]; [by split_and!|].
  destruct (Nat.leb_spec n (2 * i + 1)); [by split_and!|].
  set (j := min_child i n pq). assert (Hj : (j < n)%nat /\ (i < j)%nat).
  { unfold j, min_child. destruct (Nat.ltb_spec (2 * i + 1 + 1) n); cbn [andb]; [case_if; lia|lia]. }
  case_if; [by split_and!|]. destruct (IH j (Swap i j pq)) as (H1 & H2 & H3); [by rewrite Swap_length|].
  rewrite H1, H2, Swap_length. split; [done|]. split; [apply Swap_perm|]. intros k Hi Hk. rewrite H3 by lia.
  unfold Swap. destruct (pq !! i), (pq !! j); try done. by rewrite !list_lookup_insert_ne by lia.
Qed.

Lemma down_ok fuel i n pq : (n <= length pq)%nat -> (i < n)%nat -> (n - i <= fuel)%nat -> heap_below i n pq ->
  forall k, (0 < k < n)%nat -> prio (down fuel i n pq) (parent k) <= prio (down fuel i n pq) k.
Proof.
  revert i pq. induction fuel as [|fuel IH]; intros i pq Hn Hi Hf [H1 H2]; [lia|]. cbn [down].
  destruct (Nat.leb_spec n (2 * i + 1)) as [Hl|Hl].
  { intros k Hk. apply H1; [done|]. intros E%parent_child; lia. }
  set (j := min_child i n pq).
  assert (Hj : (j < n)%nat /\ (i < j)%nat /\ parent j = i /\
    forall k, (0 < k < n)%nat -> parent k = i -> prio pq j <= prio pq k).
  { assert (Hc : forall k, (0 < k)%nat -> parent k = i -> k = (2 * i + 1)%nat \/ k = (2 * i + 1 + 1)%nat).
    { intros k Hk E. apply parent_child in E; lia. }
    unfold j, min_child. destruct (Nat.ltb_spec (2 * i + 1 + 1) n) as [H2n|H2n]; cbn [andb].
    - rewrite Less_prio by lia.
      destruct (Z.ltb_spec (prio pq (2 * i + 1 + 1)%nat) (prio pq (2 * i + 1)%nat));
        (split_and!; [lia|lia|apply parent_child; lia|]); intros k Hk E; destruct (Hc k) as [-> | ->]; lia || done.
    - split_and!; [lia|lia|apply parent_child; lia|]. intros k Hk E. destruct (Hc k) as [-> | ->]; lia || done. }
  destruct Hj as (Hjn & Hij & Hpj & Hmin). rewrite Less_prio by lia.
  destruct (Z.ltb_spec (prio pq j) (prio pq i)) as [Hlt|Hge]; simpl.
  2: { intros k Hk. destruct (decide (parent k = i)) as [E|]; [|by apply H1]. rewrite E. specialize (Hmin k Hk E). lia. }
  apply IH; rewrite ?Swap_length; try lia. split.
  - intros k Hk Hkj. pose proof (parent_lt k ltac:(lia)). rewrite !prio_Swap by lia. rewrite (decide_False (P := parent k = j)) by done.
    destruct (decide (k = j)) as [->|Hkj'].
    + rewrite Hpj, decide_True by done. lia.
    + destruct (decide (parent k = i)) as [E|E].
      * rewrite (decide_False (P := k = i)) by lia. by apply Hmin.
      * destruct (decide (k = i)) as [->|]; [|by apply H1].
        destruct (decide (0 < i)%nat); [|lia]. apply H2; [lia|done|lia].
  - intros k Hk Ek _. pose proof (parent_lt k ltac:(lia)). rewrite Hpj, !prio_Swap by lia.
    rewrite (decide_False (P := i = j)), (decide_True (P := i = i)) by lia. rewrite !decide_False by lia.
    specialize (H1 k Hk ltac:(lia)). by rewrite Ek in H1.
Qed.

(** *** The operations *)

Lemma heap_Push_ok x pq : heap_ok pq -> heap_ok (heap_Push x pq) /\ heap_Push x pq ≡ₚ x :: pq.
Proof.
  intros H. unfold heap_Push. set (pq' := pq ++ [x]). assert (Hl : length pq' = S (length pq)).
  { unfold pq'. rewrite length_app. simpl. lia. }
  split; [|rewrite up_perm; unfold pq'; by rewrite Permutation_app_comm].
  apply up_ok; [lia|lia|]. rewrite Hl, Nat.sub_succ, Nat.sub_0_r.
  assert (Hp : forall k, (k < length pq)%nat -> prio pq' k = prio pq k).
  { intros k Hk. unfold prio, pq'. by rewrite lookup_app_l. }
  split; rewrite Hl.
  - intros i Hi Hne. pose proof (parent_lt i ltac:(lia)). rewrite !Hp by lia. apply H. lia.
  - intros i Hi E. pose proof (parent_lt i ltac:(lia)). lia.
Qed.

Lemma heap_head_min v pq : heap_ok (v :: pq) -> forall y, y ∈ v :: pq -> it_Priority v <= it_Priority y.
Proof.
  intros H y [i Hi]%list_elem_of_lookup. assert (Hm : prio (v :: pq) 0 <= prio (v :: pq) i).
  { pose proof (lookup_lt_Some _ _ _ Hi) as Hlt. clear Hi y. revert Hlt.
    induction i as [i IH] using lt_wf_ind. intros Hlt. destruct (decide (i = 0)%nat) as [->|]; [done|].
    pose proof (parent_lt i ltac:(lia)). specialize (IH (parent i) ltac:(lia) ltac:(lia)).
    specialize (H i ltac:(lia)). lia. }
  unfold prio in Hm. by rewrite Hi in Hm.
Qed.

Lemma heap_Remove0_ok v pq : heap_ok (v :: pq) ->
  heap_ok (heap_Remove0 (v :: pq)) /\ v :: heap_Remove0 (v :: pq) ≡ₚ v :: pq.
Proof.
  intros H. unfold heap_Remove0. simpl length. rewrite Nat.sub_succ, Nat.sub_0_r.
  destruct (Nat.eqb_spec (length pq) 0) as [E|Hne].
  { rewrite E. simpl. apply nil_length_inv in E as ->. split; [intros i Hi; simpl in Hi; lia|done]. }
  set (n := length pq) in *. set (p1 := Swap 0 n (v :: pq)).
  assert (Hl1 : length p1 = S n) by (unfold p1; by rewrite Swap_length).
  destruct (down_keeps (S n) 0 n p1 ltac:(lia)) as (Hl & Hp & Hk).
  assert (Hlast : p1 !! n = Some v).
  { unfold p1, Swap. simpl. destruct (lookup_lt_is_Some_2 (v :: pq) n) as [y Hy]; [simpl; lia|]. rewrite Hy.
    rewrite list_lookup_insert_eq; [done|]. simpl. lia. }
  set (d := down (S n) 0 n p1) in *. assert (Hd : take n d ++ [v] = d).
  { rewrite <- (take_drop n d) at 2. f_equal. symmetry. rewrite (drop_S d v n); [|rewrite Hk by lia; done].
    f_equal. apply drop_ge. lia. }
  split.
  - intros i Hi. rewrite length_take in Hi. unfold prio. rewrite !lookup_take_lt by (pose proof (parent_lt i ltac:(lia)); lia).
    apply (down_ok (S n) 0 n p1 ltac:(lia) ltac:(lia) ltac:(lia)); [|lia]. unfold p1. split; [|lia].
    intros k Hk0 Hkp. pose proof (parent_lt k ltac:(lia)). rewrite !prio_Swap by (simpl; lia).
    rewrite !decide_False by lia. apply H. simpl. lia.
  - rewrite (Permutation_cons_append (take n d) v), Hd, Hp. unfold p1. by rewrite Swap_perm.
Qed.
End Heap.

(** The operations of a client of the queue. *)
Inductive dq_op (A : Type) := DqOffer (x : item A) | DqTake (maxValue : Z).
Arguments DqOffer {A}. Arguments DqTake {A}.

Definition dq_step {A} (s : list (item A) * list (item A)) (o : dq_op A) : list (item A) * list (item A) :=
  match o with
  | DqOffer x => (heap_Push x s.1, s.2)
  | DqTake m => let '(value, _, pq) := PeekAndShift m s.1 in (pq, s.2 ++ option_list value)
  end.

Definition dq_run {A} (l : list (dq_op A)) : list (item A) * list (item A) := foldl dq_step ([], []) l.

Definition offered {A} (l : list (dq_op A)) : list (item A) := omap (fun o => match o with DqOffer x => Some x | DqTake _ => None end) l.

Lemma dq_run_ok {A} (l : list (dq_op A)) : heap_ok (dq_run l).1 /\ (dq_run l).1 ++ (dq_run l).2 ≡ₚ offered l.
Proof.
  induction l as [|o l [Hh Hp]] using rev_ind; [split; [intros i Hi; simpl in Hi; lia|done]|].
  unfold dq_run, offered. rewrite foldl_snoc, omap_app. fold (dq_run l) (offered l). destruct (dq_run l) as [pq out]. simpl in *.
  destruct o as [x|m]; simpl.
  - destruct (heap_Push_ok x pq Hh) as [Hh' Hx]. split; [done|]. rewrite Hx. simpl. rewrite Hp. by rewrite Permutation_cons_append.
  - rewrite app_nil_r. unfold PeekAndShift. destruct pq as [|v rest]; simpl; [by rewrite app_nil_r|].
    destruct (m <? it_Priority v); simpl; [by rewrite app_nil_r|]. destruct (heap_Remove0_ok v rest Hh) as [Hh' Hr].
    split; [done|]. rewrite <- Hp. rewrite (Permutation_app_comm out [v]). simpl. rewrite <- Permutation_middle, app_comm_cons, Hr. done.
Qed.

(** The delay queue, after any offers and takes: what is in it and what was taken are
    together exactly what was offered; a take at a moment gives an element of least
    priority among those waiting, due by then, and leaves the others; and when it gives
    none, none is due, and the delay it reports is the exact time until the first one. *)
Theorem delay_queue_spec {A} (l : list (dq_op A)) (maxValue : Z) :
  let pq := (dq_run l).1 in
  (pq ++ (dq_run l).2 ≡ₚ offered l) /\
  match PeekAndShift maxValue pq with
  | (Some x, _, pq') => x :: pq' ≡ₚ pq /\ it_Priority x <= maxValue /\ forall y, y ∈ pq -> it_Priority x <= it_Priority y
  | (None, delta, pq') => pq' = pq /\ (forall y, y ∈ pq -> maxValue < it_Priority y) /\
      match pq with [] => delta = 0 | v :: _ => inS 64 (it_Priority v - maxValue) -> maxValue + delta = it_Priority v end
  end.
Proof.
  destruct (dq_run_ok l) as [Hh Hp]. cbv zeta. split; [done|]. unfold PeekAndShift. destruct (dq_run l).1 as [|v rest].
  { split; [done|]. split; [by intros y ?%not_elem_of_nil|done]. }
  pose proof (heap_head_min v rest Hh) as Hmin. destruct (Z.ltb_spec maxValue (it_Priority v)).
  - split; [done|]. split; [|intros Hr; rewrite wrapS_id by done; lia]. intros y Hy. specialize (Hmin y Hy). lia.
  - split; [by apply heap_Remove0_ok|]. split; [lia|done].
Qed.

Lemma delay_queue_spec_witness :
  let l := [DqOffer (mkItem 7%nat 30); DqOffer (mkItem 8%nat 10); DqOffer (mkItem 9%nat 20); DqTake 10] in
  (dq_run l).2 = [mkItem 8%nat 10] /\ PeekAndShift 15 (dq_run l).1 = (None, 5, (dq_run l).1) /\ 15 + 5 = 20 /\
  (forall y, y ∈ (dq_run l).1 -> 15 < it_Priority y).
Proof.
  set (l := [DqOffer _; _; _; _]). cbv zeta. pose proof (delay_queue_spec l 15) as H. cbv zeta in H.
  assert (E : dq_run l = ([mkItem 9%nat 20; mkItem 7%nat 30], [mkItem 8%nat 10])) by reflexivity. rewrite E in *.
  change (PeekAndShift 15 ([mkItem 9%nat 20; mkItem 7%nat 30], [mkItem 8%nat 10]).1) with (@None (item nat), 5, [mkItem 9%nat 20; mkItem 7%nat 30]) in *.
  destruct H as (_ & _ & H1 & H2). split; [done|]. split; [done|]. split; [apply H2; split; by vm_compute|exact H1].
Defined.
