(* ===== verification/Poller.v ===== *)
(** The protocol between [Offer] and [Poll] of the delay queue (extend/time_wheel/
    delay_queue.go), cut at its lock, its atomics and its channels.

    One goroutine runs [Poll]; any number run [Offer]. The flag [sleeping] and the
    unbuffered channel [wakeupC] decide who wakes whom: the poller raises the flag under the
    lock when it finds nothing due, an offer that became the head lowers it and then sends
    on [wakeupC], and a poller whose timer expired lowers it itself or, when an offer was
    first, receives that offer's value. *)
From S2P Require Import Prelude DelayQueue.

Section Poller.
Context {A : Type}.

(** Where [up] leaves the element it starts from, its [Index]. *)
(** src/extend/time_wheel/delay_queue.go:34-38, priorityQueue.Swap *)
Fixpoint up_index (fuel j : nat) (pq : list (item A)) : nat :=
  match fuel with
  | O => j
  | S fuel =>
      let i := ((j - 1) / 2)%nat in
      if (i =? j)%nat || negb (Less pq j i) then j else up_index fuel i (Swap i j pq)
  end.

Definition heap_Push_index (x : item A) (pq : list (item A)) : nat :=
  let pq := pq ++ [x] in up_index (length pq) (length pq - 1) pq.

(** Where the poller is: about to look at the queue; waiting, without a timer or with one
    that expires at a time; its timer expired; receiving from [wakeupC] after that; sending
    an element on [C]; leaving; gone. *)
Inductive poll_pc :=
| PLook | PWait (timer : option Z) | PExpired | PDrain | PSend (x : item A) | PLeave | PGone.

(** [dq_won]: offers whose element became the head, before their compare-and-swap;
    [dq_sending]: offers that lowered the flag and send on [wakeupC]. *)
(** src/extend/time_wheel/delay_queue.go:88-94, DelayQueue *)
Record dq := mkDq {
  dq_pq : list (item A); dq_sleeping : bool; dq_pc : poll_pc; dq_won : nat; dq_sending : nat; dq_exit : bool }.

(** src/extend/time_wheel/delay_queue.go:97-103, NewDelayQueue *)
Definition NewDelayQueue : dq := mkDq [] false PLook 0 0 false.

Definition dq_with_pc (pc : poll_pc) (s : dq) : dq := mkDq (dq_pq s) (dq_sleeping s) pc (dq_won s) (dq_sending s) (dq_exit s).

(** src/extend/time_wheel/delay_queue.go:106-112, DelayQueue.Offer *)
Definition Offer_push (elem : item A) (s : dq) : dq :=
  let index := heap_Push_index elem (dq_pq s) in
  mkDq (heap_Push elem (dq_pq s)) (dq_sleeping s) (dq_pc s) (if (index =? 0)%nat then S (dq_won s) else dq_won s) (dq_sending s) (dq_exit s).

(** src/extend/time_wheel/delay_queue.go:114-120, DelayQueue.Offer *)
Definition Offer_swap (s : dq) : option dq :=
  match dq_won s with
  | O => None
  | S won =>
      Some (if dq_sleeping s then mkDq (dq_pq s) false (dq_pc s) won (S (dq_sending s)) (dq_exit s)
            else mkDq (dq_pq s) false (dq_pc s) won (dq_sending s) (dq_exit s))
  end.

(** A negative delay, which a wrap-around of the subtraction gives, goes on to the last
    [select] with a nil element: a panic, [None] here. *)
(** src/extend/time_wheel/delay_queue.go:125-152, DelayQueue.Poll *)
Definition Poll_look (now : Z) (s : dq) : option dq :=
  match dq_pc s with
  | PLook =>
      let '(value, delta, pq) := PeekAndShift now (dq_pq s) in
      match value with
      | Some x => Some (mkDq pq (dq_sleeping s) (PSend x) (dq_won s) (dq_sending s) (dq_exit s))
      | None =>
          let wait timer := Some (mkDq pq true (PWait timer) (dq_won s) (dq_sending s) (dq_exit s)) in
          if delta =? 0 then wait None else if 0 <? delta then wait (Some (now + delta)) else None
      end
  | _ => None
  end.

(** A value goes from an offer to the waiting poller. *)
(** src/extend/time_wheel/delay_queue.go:143-157, DelayQueue.Poll *)
Definition Poll_wakeup (s : dq) : option dq :=
  match dq_pc s, dq_sending s with
  | PWait _, S n | PDrain, S n => Some (mkDq (dq_pq s) (dq_sleeping s) PLook (dq_won s) n (dq_exit s))
  | _, _ => None
  end.

(** src/extend/time_wheel/delay_queue.go:158-161, DelayQueue.Poll *)
Definition Poll_timer (now : Z) (s : dq) : option dq :=
  match dq_pc s with
  | PWait (Some t) => if t <=? now then Some (dq_with_pc PExpired s) else None
  | _ => None
  end.

(** src/extend/time_wheel/delay_queue.go:162-167, DelayQueue.Poll *)
Definition Poll_swap (s : dq) : option dq :=
  match dq_pc s with
  | PExpired => Some (mkDq (dq_pq s) false (if dq_sleeping s then PLook else PDrain) (dq_won s) (dq_sending s) (dq_exit s))
  | _ => None
  end.

(** src/extend/time_wheel/delay_queue.go:175-177, DelayQueue.Poll *)
Definition Poll_send (s : dq) : option dq := match dq_pc s with PSend _ => Some (dq_with_pc PLook s) | _ => None end.

(** src/extend/time_wheel/delay_queue.go:178-180, DelayQueue.Poll *)
Definition Poll_exit (s : dq) : option dq :=
  match dq_pc s with
  | PWait _ | PSend _ => if dq_exit s then Some (dq_with_pc PLeave s) else None
  | _ => None
  end.

(** src/extend/time_wheel/delay_queue.go:183-186, DelayQueue.Poll *)
Definition Poll_leave (s : dq) : option dq :=
  match dq_pc s with
  | PLeave => Some (mkDq (dq_pq s) false PGone (dq_won s) (dq_sending s) (dq_exit s))
  | _ => None
  end.

Inductive dq_action :=
| DOffer (x : item A) | DSwapOffer | DLook (now : Z) | DWakeup | DTimer (now : Z) | DSwapPoll | DSend | DClose | DExit | DLeave.

Definition exec_dq (a : dq_action) (s : dq) : option dq :=
  match a with
  | DOffer x => Some (Offer_push x s)
  | DSwapOffer => Offer_swap s
  | DLook now => Poll_look now s
  | DWakeup => Poll_wakeup s
  | DTimer now => Poll_timer now s
  | DSwapPoll => Poll_swap s
  | DSend => Poll_send s
  | DClose => Some (mkDq (dq_pq s) (dq_sleeping s) (dq_pc s) (dq_won s) (dq_sending s) true)
  | DExit => Poll_exit s
  | DLeave => Poll_leave s
  end.

Definition run_dq (l : list dq_action) (s : dq) : option dq := foldl (fun s a => s ≫= exec_dq a) (Some s) l.

(** Clock readings and priorities are milliseconds before the year 2109: differences and
    timers do not overflow. *)
Definition time_ok (t : Z) : Prop := 0 <= t < 2 ^ 42.
Definition action_ok (a : dq_action) : Prop :=
  match a with DOffer x => time_ok (it_Priority x) | DLook now | DTimer now => time_ok now | _ => True end.

Inductive dq_reach : dq -> Prop :=
| dq_new : dq_reach NewDelayQueue
| dq_act s a s' : dq_reach s -> action_ok a -> exec_dq a s = Some s' -> dq_reach s'.

(** ** The place of a new element *)

Lemma up_index_0 fuel j pq : (j < length pq)%nat -> (j < fuel)%nat -> j <> 0%nat ->
  (forall i, (i < length pq)%nat -> i <> j -> prio pq 0 <= prio pq i) ->
  up_index fuel j pq = 0%nat <-> prio pq j < prio pq 0.
Proof.
  revert j pq. induction fuel as [|fuel IH]; intros j pq Hj Hf H0 Hmin; [lia|]. cbn [up_index]. fold (parent j).
  pose proof (parent_lt j ltac:(lia)) as Hp. rewrite (proj2 (Nat.eqb_neq (parent j) j)) by lia. cbn [orb].
  rewrite Less_prio by lia. pose proof (Hmin (parent j) ltac:(lia) ltac:(lia)).
  destruct (Z.ltb_spec (prio pq j) (prio pq (parent j))) as [Hlt|Hge]; cbn [negb]; [|lia].
  destruct (decide (parent j = 0%nat)) as [E|Hne].
  { rewrite E in *. destruct fuel; simpl; lia. }
  assert (Hs : forall i, prio (Swap (parent j) j pq) i =
    if decide (i = j) then prio pq (parent j) else if decide (i = parent j) then prio pq j else prio pq i).
  { intros i. apply prio_Swap; lia. }
  rewrite IH; [|rewrite Swap_length; lia|lia|done|].
  - rewrite !Hs. rewrite (decide_False (P := parent j = j)), decide_True by lia. by rewrite !decide_False by lia.
  - rewrite Swap_length. intros i Hi Hne'. rewrite !Hs. rewrite (decide_False (P := 0%nat = j)), (decide_False (P := 0%nat = parent j)) by lia.
    destruct (decide (i = j)) as [->|]; [done|]. rewrite decide_False by done. by apply Hmin.
Qed.

(** The offer that sees index 0 is the one whose element is before all others. *)
Lemma heap_Push_index_0 x pq : heap_ok pq ->
  heap_Push_index x pq = 0%nat <-> match pq with [] => True | v :: _ => it_Priority x < it_Priority v end.
Proof.
  intros H. unfold heap_Push_index. destruct pq as [|v rest]; [by split|]. set (pq := v :: rest) in *. set (n := length pq).
  assert (Hn : length (pq ++ [x]) = S n) by (rewrite length_app; simpl; unfold n; simpl; lia).
  rewrite Hn, Nat.sub_succ, Nat.sub_0_r.
  assert (Hx : prio (pq ++ [x]) n = it_Priority x) by (unfold prio, n; by rewrite list_lookup_middle).
  assert (Hv : prio (pq ++ [x]) 0 = it_Priority v) by done.
  rewrite up_index_0; [|lia|lia|unfold n, pq; simpl; lia|]; [by rewrite Hx, Hv|].
  intros i Hi Hne. rewrite Hn in Hi. rewrite Hv. unfold prio. rewrite lookup_app_l by (fold n; lia).
  destruct (lookup_lt_is_Some_2 pq i) as [y Hy]; [fold n; lia|]. rewrite Hy. apply (heap_head_min v rest H). by eapply list_elem_of_lookup_2.
Qed.

(** ** Who wakes the poller *)

Definition covered (timer : option Z) (y : item A) : Prop :=
  match timer with Some t => t <= it_Priority y | None => False end.

Record dq_inv (s : dq) : Prop := {
  di_heap : heap_ok (dq_pq s);
  di_time : forall y, y ∈ dq_pq s -> time_ok (it_Priority y);
  di_flag : match dq_pc s with
    | PLook | PSend _ => dq_sleeping s = false /\ dq_sending s = 0%nat
    | PWait _ | PExpired => dq_sending s = if dq_sleeping s then 0%nat else 1%nat
    | PDrain => dq_sleeping s = false /\ dq_sending s = 1%nat
    | PLeave => (dq_sending s <= if dq_sleeping s then 0 else 1)%nat
    | PGone => dq_sleeping s = false /\ (dq_sending s <= 1)%nat
    end;
  di_exit : match dq_pc s with PLeave | PGone => dq_exit s = true | _ => True end;
  di_wait : forall timer y, dq_pc s = PWait timer -> y ∈ dq_pq s -> covered timer y \/ (0 < dq_won s + dq_sending s)%nat }.

Lemma look_inv now s s' : dq_inv s -> time_ok now -> Poll_look now s = Some s' -> dq_inv s'.
Proof.
  intros [] Hn. unfold Poll_look. destruct (dq_pc s); try done. destruct di_flag0 as [E1 E2].
  unfold PeekAndShift. destruct (dq_pq s) as [|v rest] eqn:Epq; simpl.
  { intros [= <-]. split; simpl; try done. by intros ? y _ ?%not_elem_of_nil. }
  pose proof (di_time0 v ltac:(by left)) as Hv. destruct (Z.ltb_spec now (it_Priority v)) as [Hlt|Hge]; simpl.
  - unfold time_ok in *. rewrite wrapS_id by (unfold inS; lia). rewrite (proj2 (Z.eqb_neq _ _)) by lia. rewrite (proj2 (Z.ltb_lt _ _)) by lia.
    intros [= <-]. split; simpl; try done. intros timer y [= <-] Hy. left. simpl.
    pose proof (heap_head_min v rest di_heap0 y Hy). lia.
  - intros [= <-]. destruct (heap_Remove0_ok v rest di_heap0) as [Hh Hp]. split; simpl; try done.
    intros y Hy. apply di_time0. rewrite <- Hp. by right.
Qed.

Lemma offer_inv x s : dq_inv s -> time_ok (it_Priority x) -> dq_inv (Offer_push x s).
Proof.
  intros [] Hx. destruct (heap_Push_ok x (dq_pq s) di_heap0) as [Hh Hp]. split; simpl; try done.
  - intros y. rewrite Hp. intros [->|]%elem_of_cons; auto.
  - intros timer y Hpc. rewrite Hp. pose proof (heap_Push_index_0 x (dq_pq s) di_heap0) as Hi.
    destruct (Nat.eqb_spec (heap_Push_index x (dq_pq s)) 0) as [|Hne]; [lia|]. intros Hy.
    assert (Hold : y ∈ dq_pq s \/ exists v, v ∈ dq_pq s /\ it_Priority v <= it_Priority y).
    { apply elem_of_cons in Hy as [->|]; [|by left]. right. destruct (dq_pq s) as [|v rest]; [tauto|]. exists v. split; [by left|]. lia. }
    destruct Hold as [Hold|(v & Hv & Hle)]; [by eapply di_wait0|].
    destruct (di_wait0 timer v Hpc Hv) as [Hc|]; [|by right]. left. destruct timer; simpl in *; [lia|done].
Qed.

Lemma dq_step_inv a s s' : dq_inv s -> action_ok a -> exec_dq a s = Some s' -> dq_inv s'.
Proof.
  intros I Ha. destruct a as [x| |now| |now| | | | |]; simpl in *.
  - intros [= <-]. by apply offer_inv.
  - destruct I. unfold Offer_swap. destruct (dq_won s) as [|won] eqn:Ew; [done|].
    destruct (dq_sleeping s) eqn:Es; intros [= <-]; rewrite ?Es in di_flag0; split; simpl; try done.
    + destruct (dq_pc s); simpl in *; try (by destruct di_flag0); lia.
    + intros timer y Hpc Hy. right. lia.
    + intros timer y Hpc Hy. rewrite Hpc in di_flag0. right. lia.
  - by apply look_inv.
  - destruct I. unfold Poll_wakeup. destruct (dq_pc s), (dq_sending s) as [|n]; try done; intros [= <-]; split; simpl; try done.
    + destruct (dq_sleeping s); [done|]. split; [done|lia].
    + destruct di_flag0. split; [done|lia].
  - destruct I. unfold Poll_timer. destruct (dq_pc s) as [|[t|]| | | | |]; try done. destruct (t <=? now); [|done]. intros [= <-]. by split.
  - destruct I. unfold Poll_swap. destruct (dq_pc s); try done. intros [= <-]. destruct (dq_sleeping s); by split.
  - destruct I. unfold Poll_send. destruct (dq_pc s); try done. intros [= <-]. by split.
  - intros [= <-]. destruct I. split; simpl; try done. by destruct (dq_pc s).
  - destruct I. unfold Poll_exit. destruct (dq_pc s); try done; destruct (dq_exit s) eqn:Ex; try done; intros [= <-]; split; simpl; try done.
    + by rewrite di_flag0.
    + destruct di_flag0 as [-> ->]. lia.
  - destruct I. unfold Poll_leave. destruct (dq_pc s); try done. intros [= <-]. split; simpl; try done.
    split; [done|]. destruct (dq_sleeping s); lia.
Qed.

Lemma dq_reach_inv s : dq_reach s -> dq_inv s.
Proof.
  induction 1 as [|s a s' _ I Ha E]; [|by eapply dq_step_inv].
  split; simpl; try done; try (by intros y ?%not_elem_of_nil); intros i Hi; simpl in Hi; lia.
Qed.

(** The delay queue loses no wake-up, under every interleaving of offers with the
    poller: while the poller waits, every element in the queue either is not before the
    expiration of the poller's timer, or an offer is on its way to wake it; at most one
    offer ever sends on [wakeupC], and none does while the flag is up. *)
Theorem poller_no_lost_wakeup (s : dq) : dq_reach s ->
  (forall timer y, dq_pc s = PWait timer -> y ∈ dq_pq s -> covered timer y \/ (0 < dq_won s + dq_sending s)%nat) /\
  (dq_sending s <= 1)%nat /\ (dq_sleeping s = true -> dq_sending s = 0%nat).
Proof.
  intros []%dq_reach_inv. split; [done|]. destruct (dq_pc s), (dq_sleeping s); simpl in *; split; intros; lia || by destruct di_flag0.
Qed.

(** The steps the goroutines of the queue take by themselves at a moment. *)
Inductive internal (now : Z) : dq_action -> Prop :=
| in_swap_offer : internal now DSwapOffer | in_look : internal now (DLook now) | in_wakeup : internal now DWakeup
| in_timer : internal now (DTimer now) | in_swap_poll : internal now DSwapPoll | in_send : internal now DSend.

Lemma look_serves now s v rest : dq_pc s = PLook -> dq_pq s = v :: rest -> it_Priority v <= now ->
  exists s', Poll_look now s = Some s' /\ dq_pc s' = PSend v.
Proof.
  intros Hpc Hq Hle. unfold Poll_look. rewrite Hpc, Hq. simpl. rewrite (proj2 (Z.ltb_ge _ _)) by lia. by eexists.
Qed.

(** One step towards the next look, when the poller is not looking. *)
Definition serves (now : Z) (v : item A) (n : nat) (s : dq) : Prop :=
  exists l s', Forall (internal now) l /\ (length l <= n)%nat /\ run_dq l s = Some s' /\ dq_pc s' = PSend v.

Lemma serves_step now v n a s s' : internal now a -> exec_dq a s = Some s' -> serves now v n s' -> serves now v (S n) s.
Proof.
  intros Ha E (l & s2 & Hl & Hn & Hr & Hpc). exists (a :: l), s2. split; [by constructor|]. split; [simpl; lia|].
  split; [|done]. unfold run_dq in *. simpl. by rewrite E.
Qed.

Lemma serves_look now s v rest n : dq_pc s = PLook -> dq_pq s = v :: rest -> it_Priority v <= now -> serves now v (S n) s.
Proof.
  intros Hpc Hq Hle. destruct (look_serves now s v rest Hpc Hq Hle) as (s' & E & Hpc').
  eapply (serves_step now v n (DLook now)); [constructor|exact E|]. exists [], s'. split; [by constructor|]. by split; [simpl; lia|].
Qed.

Lemma serves_wakeup now s v rest n k : (match dq_pc s with PWait _ | PDrain => True | _ => False end) -> dq_sending s = S k ->
  dq_pq s = v :: rest -> it_Priority v <= now -> serves now v (S (S n)) s.
Proof.
  intros Hpc Hk Hq Hle. eapply (serves_step now v _ DWakeup); [constructor|simpl; unfold Poll_wakeup|].
  - rewrite Hk. destruct (dq_pc s); try done.
  - by eapply serves_look.
Qed.

Lemma serves_expired now s v rest n : dq_inv s -> dq_pc s = PExpired -> dq_pq s = v :: rest -> it_Priority v <= now ->
  serves now v (S (S (S n))) s.
Proof.
  intros [] Hpc Hq Hle. rewrite Hpc in *. eapply (serves_step now v _ DSwapPoll); [constructor|simpl; unfold Poll_swap; by rewrite Hpc|].
  destruct (dq_sleeping s); [by eapply serves_look|]. eapply (serves_wakeup _ _ v rest n 0); simpl; done.
Qed.

(** C19: The poller serves what is due. While it has not been told to exit: whenever the
    first element of the queue is due, at most four steps of the poller and of offers under
    way, none of which is a new offer, bring the poller to hand out that element. *)
Theorem due_element_served (s : dq) (v : item A) (rest : list (item A)) (now : Z) :
  dq_reach s -> dq_exit s = false -> dq_pq s = v :: rest -> it_Priority v <= now ->
  exists l s', Forall (internal now) l /\ (length l <= 4)%nat /\ run_dq l s = Some s' /\ dq_pc s' = PSend v.
Proof.
  intros I%dq_reach_inv Hx Hq Hle. change (serves now v 4 s). pose proof I as [].
  destruct (dq_pc s) as [|timer| | |x| |] eqn:Hpc; try congruence.
  - by eapply serves_look.
  - destruct (di_wait0 timer v eq_refl) as [Hc|Hw]; [rewrite Hq; by left| |].
    + destruct timer as [t|]; [|done]. simpl in Hc. eapply (serves_step now v 3 (DTimer now)); [constructor| |].
      * simpl. unfold Poll_timer. by rewrite Hpc, (proj2 (Z.leb_le t now)) by lia.
      * apply (serves_expired _ _ v rest 0); try done.
    + destruct (dq_sending s) as [|k] eqn:Ek.
      2: { eapply (serves_wakeup _ _ v rest _ k); try done. by rewrite Hpc. }
      destruct (dq_won s) as [|won] eqn:Ew; [lia|]. destruct (dq_sleeping s) eqn:Es; [|done].
      eapply (serves_step now v 3 DSwapOffer); [constructor|simpl; unfold Offer_swap; by rewrite Ew, Es|].
      eapply (serves_wakeup _ _ v rest _ (dq_sending s)); simpl; try done. by rewrite Hpc.
  - by eapply serves_expired.
  - destruct di_flag0 as [_ Ek]. eapply (serves_wakeup _ _ v rest _ 0); try done. by rewrite Hpc.
  - eapply (serves_step now v 3 DSend); [constructor|simpl; unfold Poll_send; by rewrite Hpc|]. by eapply serves_look.
Qed.

(** ** After the exit *)

Lemma gone_forever a s s' : dq_pc s = PGone -> exec_dq a s = Some s' -> dq_pc s' = PGone /\ (dq_sending s <= dq_sending s')%nat.
Proof.
  intros Hpc. destruct a; simpl; unfold Offer_swap, Poll_look, Poll_wakeup, Poll_timer, Poll_swap, Poll_send, Poll_exit, Poll_leave;
    rewrite ?Hpc; intros E; try done; repeat case_match; simplify_eq/=; split; try done; lia.
Qed.
End Poller.
Arguments dq : clear implicits.
Arguments dq_action : clear implicits.

(** The poller leaves while an offer has seen index 0: the offer then lowers the flag before
    the poller's last store does, and sends to nobody. When the offer is the wheel's own
    loop, which puts a timer back, [Stop] waits for it forever. *)
Lemma exit_strands_offer :
  exists s, run_dq [DLook 0; DOffer (mkItem 1%nat 5); DClose; DExit; DSwapOffer; DLeave] NewDelayQueue = Some s /\
    dq_sending s = 1%nat /\ dq_pc s = PGone.
Proof. eexists. by vm_compute. Qed.

(** Two offers before the poller sleeps and one, of an earlier element, after. *)
Definition demo_poller : dq nat := mkDq [mkItem 2%nat 5; mkItem 1%nat 9] true (PWait (Some 9)) 2 0 false.

Lemma demo_poller_reach : dq_reach demo_poller.
Proof.
  apply (dq_act (mkDq [mkItem 1%nat 9] true (PWait (Some 9)) 1 0 false) (DOffer (mkItem 2%nat 5))); [|split; by vm_compute|reflexivity].
  apply (dq_act (mkDq [mkItem 1%nat 9] false PLook 1 0 false) (DLook 0)); [|split; by vm_compute|reflexivity].
  apply (dq_act NewDelayQueue (DOffer (mkItem 1%nat 9))); [constructor|split; by vm_compute|reflexivity].
Defined.

Lemma poller_no_lost_wakeup_witness :
  (covered (Some 9) (mkItem 2%nat 5) \/ (0 < dq_won demo_poller + dq_sending demo_poller)%nat) /\ dq_sending demo_poller = 0%nat.
Proof.
  destruct (poller_no_lost_wakeup demo_poller demo_poller_reach) as (H1 & _ & H3).
  split; [apply (H1 (Some 9)); [reflexivity|by left]|by apply H3].
Defined.

Lemma due_element_served_witness :
  exists l s', Forall (internal 7) l /\ (length l <= 4)%nat /\ run_dq l demo_poller = Some s' /\ dq_pc s' = PSend (mkItem 2%nat 5).
Proof. apply (due_element_served demo_poller (mkItem 2%nat 5) [mkItem 1%nat 9] 7 demo_poller_reach); [reflexivity|reflexivity|by vm_compute]. Defined.
