(* ===== verification/TimeWheel.v ===== *)
(** The hierarchical time wheel behind the timers of all actors (extend/time_wheel/
    time_wheel.go, bucket.go, timer.go, schedule.go, utils.go).

    A wheel is the list of its levels, each the overflow wheel of the one before; timers and
    buckets are numbered, a bucket by its level and its place there. [exec_tw] is one step
    of a goroutine that uses the wheel: a caller that adds or stops a timer (an addition is
    cut at the bucket's lock and at the exchange of its expiration), the poller that takes a
    due bucket from the delay queue, the loop that flushes the bucket it was sent and then
    clears its expiration. [serial] steps are the ones whose parts follow each other.

    [None] is a panic, a deadlock on a bucket's lock or a recursion without end. Business
    functions are numbers: what they do has no effect on the wheel. (The actors' timers only
    push to the queue of their actor; what a synchronous function that stops a timer can run
    into is [Timer_Stop_in].) *)
From S2P Require Import Prelude DelayQueue.

(** ** Time *)

Definition Millisecond_ns : Z := 1000000.

(** src/extend/time_wheel/utils.go:11-16, truncate *)
Definition truncate (x m : Z) : Z := if m <=? 0 then x else x - Z.rem x m.

(** An instant is its nanoseconds since 1970, [None] the zero [time.Time], whose
    nanoseconds do not fit an int64. *)
(** src/extend/time_wheel/utils.go:19-21, TimeToMS *)
Definition TimeToMS (zero : Z) (t : option Z) : Z := Z.quot (match t with Some ns => i64 ns | None => zero end) Millisecond_ns.

(** src/extend/time_wheel/utils.go:25-27, MSToTime *)
Definition MSToTime (t : Z) : Z := i64 (t * Millisecond_ns).

(** src/extend/time_wheel/schedule.go:16-22, EverySchedule.Next *)
Definition EverySchedule_Next (interval : Z) (prev : Z) : option Z := Some (prev + interval).

(** ** Timers, buckets, levels *)

Abbreviation bref := (nat * nat)%type.

(** What a timer runs: a function once, or a function on a schedule. *)
Inductive task := TaskFn (f : nat) | TaskSchedule (Next : Z -> option Z) (f : nat).

(** src/extend/time_wheel/timer.go:11-22, Timer *)
Record Timer := mkTimer {
  t_id : Z; t_expiration : Z; t_task : task; t_b : option bref; t_isAsync : bool }.

(** src/extend/time_wheel/bucket.go:9-19, bucket *)
Record bucket := mkBucket { b_expiration : Z; b_timers : list nat }.

(** src/extend/time_wheel/bucket.go:21-26, newBucket *)
Definition newBucket : bucket := mkBucket (-1) [].

(** src/extend/time_wheel/time_wheel.go:14-24, TimeWheel *)
Record level := mkLevel {
  tw_tick : Z; tw_wheelSize : Z; tw_interval : Z; tw_currentTime : Z; tw_buckets : list bucket }.

(** src/extend/time_wheel/time_wheel.go:45-60, newTimingWheel *)
Definition newTimingWheel (tickMs wheelSize startMs : Z) : level :=
  mkLevel tickMs wheelSize (i64 (tickMs * wheelSize)) (truncate startMs tickMs) (replicate (Z.to_nat wheelSize) newBucket).

(** The wheel with its delay queue; the poller and the loop: the bucket sent but not yet
    received, the bucket the loop works on and whether it is flushed; the additions under
    way (timer, bucket, its expiration, and whether the timer is in the bucket); the
    asynchronous tasks started but not yet run. History: the tasks run, as timer, its
    expiration and the latest clock reading; the timers stopped; the latest clock reading. *)
Record tws := mkTws {
  ts_wheels : list level; ts_pq : list (item bref); ts_timers : gmap nat Timer; ts_next : nat;
  ts_sent : option bref; ts_hand : option (bref * bool); ts_adding : list (nat * bref * Z * bool); ts_spawned : list nat;
  ts_fired : list (nat * Z * Z); ts_stopped : list nat; ts_now : Z }.

Definition with_wheels (ws : list level) (s : tws) : tws :=
  mkTws ws (ts_pq s) (ts_timers s) (ts_next s) (ts_sent s) (ts_hand s) (ts_adding s) (ts_spawned s) (ts_fired s) (ts_stopped s) (ts_now s).
Definition with_pq (pq : list (item bref)) (s : tws) : tws :=
  mkTws (ts_wheels s) pq (ts_timers s) (ts_next s) (ts_sent s) (ts_hand s) (ts_adding s) (ts_spawned s) (ts_fired s) (ts_stopped s) (ts_now s).
Definition with_timers (m : gmap nat Timer) (s : tws) : tws :=
  mkTws (ts_wheels s) (ts_pq s) m (ts_next s) (ts_sent s) (ts_hand s) (ts_adding s) (ts_spawned s) (ts_fired s) (ts_stopped s) (ts_now s).
Definition with_loop (sent : option bref) (hand : option (bref * bool)) (s : tws) : tws :=
  mkTws (ts_wheels s) (ts_pq s) (ts_timers s) (ts_next s) sent hand (ts_adding s) (ts_spawned s) (ts_fired s) (ts_stopped s) (ts_now s).
Definition with_adding (l : list (nat * bref * Z * bool)) (s : tws) : tws :=
  mkTws (ts_wheels s) (ts_pq s) (ts_timers s) (ts_next s) (ts_sent s) (ts_hand s) l (ts_spawned s) (ts_fired s) (ts_stopped s) (ts_now s).
Definition with_spawned (l : list nat) (s : tws) : tws :=
  mkTws (ts_wheels s) (ts_pq s) (ts_timers s) (ts_next s) (ts_sent s) (ts_hand s) (ts_adding s) l (ts_fired s) (ts_stopped s) (ts_now s).
Definition fire (tid : nat) (expiration : Z) (s : tws) : tws :=
  mkTws (ts_wheels s) (ts_pq s) (ts_timers s) (ts_next s) (ts_sent s) (ts_hand s) (ts_adding s) (ts_spawned s)
    (ts_fired s ++ [(tid, expiration, ts_now s)]) (ts_stopped s) (ts_now s).
Definition stopped (tid : nat) (s : tws) : tws :=
  mkTws (ts_wheels s) (ts_pq s) (ts_timers s) (ts_next s) (ts_sent s) (ts_hand s) (ts_adding s) (ts_spawned s)
    (ts_fired s) (ts_stopped s ++ [tid]) (ts_now s).
Definition see_clock (now : Z) (s : tws) : tws :=
  mkTws (ts_wheels s) (ts_pq s) (ts_timers s) (ts_next s) (ts_sent s) (ts_hand s) (ts_adding s) (ts_spawned s)
    (ts_fired s) (ts_stopped s) (ts_now s `max` now).
Definition new_timer (t : Timer) (s : tws) : tws :=
  mkTws (ts_wheels s) (ts_pq s) (<[ts_next s := t]> (ts_timers s)) (S (ts_next s)) (ts_sent s) (ts_hand s) (ts_adding s)
    (ts_spawned s) (ts_fired s) (ts_stopped s) (ts_now s).

Definition set_b (b : option bref) (t : Timer) : Timer := mkTimer (t_id t) (t_expiration t) (t_task t) b (t_isAsync t).
Definition set_expiration (e : Z) (t : Timer) : Timer := mkTimer (t_id t) e (t_task t) (t_b t) (t_isAsync t).

Definition bucket_at (b : bref) (ws : list level) : option bucket := tw ← ws !! b.1; tw_buckets tw !! b.2.
Definition set_bucket (b : bref) (x : bucket) (ws : list level) : list level :=
  alter (fun tw => mkLevel (tw_tick tw) (tw_wheelSize tw) (tw_interval tw) (tw_currentTime tw) (<[b.2 := x]> (tw_buckets tw))) b.1 ws.

(** src/extend/time_wheel/time_wheel.go:27-42, NewTimeWheel *)
Definition NewTimeWheel (tick wheelSize now : Z) : option tws :=
  let tickMs := Z.quot tick Millisecond_ns in
  if tickMs <=? 0 then None
  else let startMs := TimeToMS 0 (Some now) in
       Some (mkTws [newTimingWheel tickMs wheelSize startMs] [] ∅ 0 None None [] [] [] [] startMs).

(** ** Adding a timer *)

(** The decision of [add]: expired ([None]), or the bucket and its expiration; the overflow
    wheels on the way are made when they are missing. *)
(** src/extend/time_wheel/time_wheel.go:63-106, TimeWheel.add *)
Fixpoint add_locate (fuel k : nat) (expiration : Z) (ws : list level) : option (list level * option (bref * Z)) :=
  match fuel with
  | O => None
  | S fuel =>
      match ws !! k with
      | None => None
      | Some tw =>
          let currentTime := tw_currentTime tw in
          if expiration <? i64 (currentTime + tw_tick tw) then Some (ws, None)
          else if expiration <? i64 (currentTime + tw_interval tw) then
            let virtualID := Z.quot expiration (tw_tick tw) in
            Some (ws, Some ((k, Z.to_nat (Z.rem virtualID (tw_wheelSize tw))), i64 (virtualID * tw_tick tw)))
          else
            let ws := if decide (S k < length ws)%nat then ws
                      else ws ++ [newTimingWheel (tw_interval tw) (tw_wheelSize tw) currentTime] in
            add_locate fuel (S k) expiration ws
      end
  end.

(** Each level multiplies the interval by the wheel size: 64 levels hold any int64. *)
Definition add_fuel : nat := 64.

(** [locked]: the bucket whose lock the goroutine holds; locking it again never returns. *)
(** src/extend/time_wheel/bucket.go:36-44, bucket.Add *)
Definition bucket_Add (locked : option bref) (tid : nat) (b : bref) (s : tws) : option tws :=
  if decide (locked = Some b) then None
  else
    x ← bucket_at b (ts_wheels s);
    t ← ts_timers s !! tid;
    Some (with_timers (<[tid := set_b (Some b) t]> (ts_timers s))
      (with_wheels (set_bucket b (mkBucket (b_expiration x) (b_timers x ++ [tid])) (ts_wheels s)) s)).

(** src/extend/time_wheel/bucket.go:32-34, bucket.SetExpiration *)
Definition bucket_SetExpiration (b : bref) (expiration : Z) (ws : list level) : option (bool * list level) :=
  x ← bucket_at b ws;
  Some (negb (b_expiration x =? expiration), set_bucket b (mkBucket expiration (b_timers x)) ws).

(** The exchange of the expiration in [add], with the queueing of the bucket. *)
(** src/extend/time_wheel/time_wheel.go:76-85, TimeWheel.add *)
Definition add_offer (b : bref) (expiration : Z) (s : tws) : option tws :=
  '(changed, ws) ← bucket_SetExpiration b expiration (ts_wheels s);
  let s := with_wheels ws s in
  Some (if changed : bool then with_pq (heap_Push (mkItem b expiration) (ts_pq s)) s else s).

(** src/extend/time_wheel/time_wheel.go:63-106, TimeWheel.add *)
Definition TimeWheel_add (locked : option bref) (tid : nat) (s : tws) : option (bool * tws) :=
  t ← ts_timers s !! tid;
  '(ws, place) ← add_locate add_fuel 0 (t_expiration t) (ts_wheels s);
  let s := with_wheels ws s in
  match place with
  | None => Some (false, s)
  | Some (b, e) => s ← bucket_Add locked tid b s; s ← add_offer b e s; Some (true, s)
  end.

Definition level0 (s : tws) : Z := default 0 ((fun tw => tw_currentTime tw + tw_tick tw) <$> ts_wheels s !! 0%nat).

Section Run.
(** What [UnixNano] gives for the zero time. *)
Variable zero : Z.

(** A timer's task: of a one-shot timer its function; of a schedule, first the next
    addition, by [again], then the function. *)
(** src/extend/time_wheel/time_wheel.go:225-237, TimeWheel.ScheduleFunc *)
Definition run_task (again : nat -> tws -> option tws) (tid : nat) (s : tws) : option tws :=
  t ← ts_timers s !! tid;
  match t_task t with
  | TaskFn _ => Some (fire tid (t_expiration t) s)
  | TaskSchedule Next _ =>
      let nextExpiration := Next (MSToTime (t_expiration t)) in
      let t' := set_expiration (TimeToMS zero nextExpiration) t in
      s ← again tid (with_timers (<[tid := t']> (ts_timers s)) s);
      Some (fire tid (t_expiration t) s)
  end.

(** src/extend/time_wheel/time_wheel.go:110-121, TimeWheel.addOrRun *)
Fixpoint addOrRun (fuel : nat) (locked : option bref) (tid : nat) (s : tws) : option tws :=
  match fuel with
  | O => None
  | S fuel =>
      '(added, s) ← TimeWheel_add locked tid s;
      if added : bool then Some s
      else
        t ← ts_timers s !! tid;
        if t_isAsync t then Some (with_spawned (ts_spawned s ++ [tid]) s)
        else run_task (addOrRun fuel locked) tid s
  end.

(** The turns a schedule can take at one moment when each moves its timer by a millisecond. *)
Definition run_fuel (tid : nat) (s : tws) : nat :=
  match ts_timers s !! tid with
  | Some t => S (Z.to_nat (level0 s - t_expiration t))
  | None => 1%nat
  end.

(** src/extend/time_wheel/time_wheel.go:123-135, TimeWheel.advanceClock *)
Fixpoint advanceClock (expiration : Z) (ws : list level) : list level :=
  match ws with
  | [] => []
  | tw :: overflow =>
      if i64 (tw_currentTime tw + tw_tick tw) <=? expiration then
        let currentTime := truncate expiration (tw_tick tw) in
        mkLevel (tw_tick tw) (tw_wheelSize tw) (tw_interval tw) currentTime (tw_buckets tw) :: advanceClock currentTime overflow
      else tw :: overflow
  end.

(** src/extend/time_wheel/bucket.go:46-60, bucket.remove *)
Definition bucket_remove (b : bref) (tid : nat) (s : tws) : option (bool * tws) :=
  t ← ts_timers s !! tid;
  if decide (t_b t = Some b) then
    x ← bucket_at b (ts_wheels s);
    Some (true, with_timers (<[tid := set_b None t]> (ts_timers s))
      (with_wheels (set_bucket b (mkBucket (b_expiration x) (filter (fun i => i <> tid) (b_timers x))) (ts_wheels s)) s))
  else Some (false, s).

(** The loop of [Flush] over the timers of the bucket, whose lock it holds. *)
(** src/extend/time_wheel/bucket.go:68-78, bucket.Flush *)
Fixpoint flush_timers (b : bref) (l : list nat) (s : tws) : option tws :=
  match l with
  | [] => Some s
  | tid :: l =>
      '(_, s) ← bucket_remove b tid s;
      s ← addOrRun (run_fuel tid s) (Some b) tid s;
      flush_timers b l s
  end.

(** src/extend/time_wheel/bucket.go:68-78, bucket.Flush *)
Definition bucket_Flush (b : bref) (s : tws) : option tws :=
  x ← bucket_at b (ts_wheels s);
  flush_timers b (b_timers x) s.

(** ** Steps *)

(** src/extend/time_wheel/delay_queue.go:125-140, DelayQueue.Poll *)
Definition DelayQueue_Poll (now : Z) (s : tws) : option tws :=
  match ts_sent s with
  | Some _ => None
  | None =>
      let '(value, _, pq) := PeekAndShift now (ts_pq s) in
      Some (see_clock now (with_loop (it_Value <$> value) (ts_hand s) (with_pq pq s)))
  end.

(** src/extend/time_wheel/time_wheel.go:146-149, TimeWheel.Start *)
Definition loop_receive (s : tws) : option tws :=
  match ts_hand s, ts_sent s with
  | None, Some b => Some (with_loop None (Some (b, false)) s)
  | _, _ => None
  end.

(** src/extend/time_wheel/time_wheel.go:149-151, TimeWheel.Start *)
Definition loop_flush (s : tws) : option tws :=
  match ts_hand s with
  | Some (b, false) =>
      x ← bucket_at b (ts_wheels s);
      s ← bucket_Flush b (with_wheels (advanceClock (b_expiration x) (ts_wheels s)) s);
      Some (with_loop (ts_sent s) (Some (b, true)) s)
  | _ => None
  end.

(** src/extend/time_wheel/bucket.go:80-81, bucket.Flush *)
Definition loop_reset (s : tws) : option tws :=
  match ts_hand s with
  | Some (b, true) => '(_, ws) ← bucket_SetExpiration b (-1) (ts_wheels s); Some (with_loop (ts_sent s) None (with_wheels ws s))
  | _ => None
  end.

(** src/extend/time_wheel/time_wheel.go:171-181, TimeWheel.AfterFunc *)
Definition TimeWheel_AfterFunc (id now d : Z) (f : nat) (async : bool) (s : tws) : option tws :=
  let tid := ts_next s in
  let s := see_clock (TimeToMS zero (Some now))
    (new_timer (mkTimer id (TimeToMS zero (Some (now + d))) (TaskFn f) None async) s) in
  addOrRun (run_fuel tid s) None tid s.

(** src/extend/time_wheel/time_wheel.go:212-241, TimeWheel.ScheduleFunc *)
Definition TimeWheel_ScheduleFunc (id now : Z) (Next : Z -> option Z) (f : nat) (async : bool) (s : tws) : option (option nat * tws) :=
  match Next now with
  | None => Some (None, s)
  | Some e =>
      let tid := ts_next s in
      let s := see_clock (TimeToMS zero (Some now))
        (new_timer (mkTimer id (TimeToMS zero (Some e)) (TaskSchedule Next f) None async) s) in
      s ← addOrRun (run_fuel tid s) None tid s;
      Some (Some tid, s)
  end.

(** src/extend/time_wheel/time_wheel.go:183-185, TimeWheel.AddEveryFunc *)
Definition TimeWheel_AddEveryFunc (id now interval : Z) (f : nat) (async : bool) (s : tws) : option (option nat * tws) :=
  TimeWheel_ScheduleFunc id now (EverySchedule_Next interval) f async s.

(** src/extend/time_wheel/timer.go:42-55, Timer.Stop *)
Definition Timer_Stop (tid : nat) (s : tws) : option (bool * tws) :=
  t ← ts_timers s !! tid;
  match t_b t with
  | None => Some (false, s)
  | Some b => '(removed, s) ← bucket_remove b tid s; Some (removed, if removed : bool then stopped tid s else s)
  end.

(** [Stop] as a synchronous task calls it, from the flush that holds the lock of the bucket
    [locked]. *)
(** src/extend/time_wheel/bucket.go:62-66, bucket.Remove *)
Definition Timer_Stop_in (locked : option bref) (tid : nat) (s : tws) : option (bool * tws) :=
  t ← ts_timers s !! tid;
  match t_b t with
  | None => Some (false, s)
  | Some b => if decide (locked = Some b) then None else Timer_Stop tid s
  end.

(** An asynchronous task runs. *)
(** src/extend/time_wheel/time_wheel.go:115-119, TimeWheel.addOrRun *)
Definition run_spawned (i : nat) (s : tws) : option tws :=
  tid ← ts_spawned s !! i;
  t ← ts_timers s !! tid;
  let s := with_spawned (delete i (ts_spawned s)) s in
  run_task (fun tid s => addOrRun (run_fuel tid s) None tid s) tid s.

(** An addition cut in three: the decision, the entry into the bucket, the exchange of the
    expiration. *)
Definition add_decide (id now d : Z) (f : nat) (s : tws) : option tws :=
  let e := TimeToMS zero (Some (now + d)) in
  '(ws, place) ← add_locate add_fuel 0 e (ts_wheels s);
  '(b, exp) ← place;
  let tid := ts_next s in
  let s := see_clock (TimeToMS zero (Some now)) (new_timer (mkTimer id e (TaskFn f) None false) (with_wheels ws s)) in
  Some (with_adding (ts_adding s ++ [(tid, b, exp, false)]) s).
Definition add_enter (i : nat) (s : tws) : option tws :=
  '(tid, b, exp, entered) ← ts_adding s !! i;
  if entered : bool then None
  else s ← bucket_Add None tid b s; Some (with_adding (<[i := (tid, b, exp, true)]> (ts_adding s)) s).
Definition add_finish (i : nat) (s : tws) : option tws :=
  '(tid, b, exp, entered) ← ts_adding s !! i;
  if entered : bool then s ← add_offer b exp s; Some (with_adding (delete i (ts_adding s)) s) else None.

Inductive tw_action :=
| TAfter (id now d : Z) (f : nat) (async : bool)
| TSchedule (id now : Z) (Next : Z -> option Z) (f : nat) (async : bool)
| TStop (tid : nat) | TSpawned (i : nat)
| TPoll (now : Z) | TReceive | TFlush | TReset
| TDecide (id now d : Z) (f : nat) | TEnter (i : nat) | TFinish (i : nat).

Definition exec_tw (a : tw_action) (s : tws) : option tws :=
  match a with
  | TAfter id now d f async => TimeWheel_AfterFunc id now d f async s
  | TSchedule id now Next f async => snd <$> TimeWheel_ScheduleFunc id now Next f async s
  | TStop tid => snd <$> Timer_Stop tid s
  | TSpawned i => run_spawned i s
  | TPoll now => DelayQueue_Poll now s
  | TReceive => loop_receive s
  | TFlush => loop_flush s
  | TReset => loop_reset s
  | TDecide id now d f => add_decide id now d f s
  | TEnter i => add_enter i s
  | TFinish i => add_finish i s
  end.

Definition run_tw (l : list tw_action) (s : tws) : option tws := foldl (fun s a => s ≫= exec_tw a) (Some s) l.

(** The loop takes a due bucket from the poller and is done with it before anything else
    happens; a poll with nothing due changes only the clock. *)
Definition loop_turn (now : Z) (s : tws) : option tws :=
  s ← DelayQueue_Poll now s;
  match ts_sent s with
  | None => Some s
  | Some _ => s ← loop_receive s; s ← loop_flush s; loop_reset s
  end.
End Run.
