(* ===== verification/TimeWheelInv.v ===== *)
(** What holds of every serial run of the time wheel of [TimeWheel]: the clocks of the
    levels agree, every pending timer is in the bucket of its expiration and that bucket
    is queued under it, so that no task runs early by a tick or late, none is lost or run
    twice, and no step gets stuck. *)
From S2P Require Import Prelude DelayQueue TimeWheel.

(** ** Multiples of a tick *)

Definition tr (e m : Z) : Z := e / m * m.

Lemma tr_bounds e m : 0 < m -> tr e m <= e < tr e m + m.
Proof. intros Hm. unfold tr. pose proof (Z.div_mod e m ltac:(lia)). pose proof (Z.mod_pos_bound e m Hm). lia. Qed.

Lemma tr_divide e m : (m | tr e m).
Proof. by exists (e / m). Qed.

Lemma divide_gap m a b : 0 < m -> (m | a) -> (m | b) -> a < b -> a + m <= b.
Proof. intros Hm [x ->] [y ->] H. assert (x < y) by nia. nia. Qed.

Lemma tr_unique e m c : 0 < m -> (m | c) -> c <= e < c + m -> tr e m = c.
Proof.
  intros Hm Hc He. pose proof (tr_bounds e m Hm). pose proof (tr_divide e m) as Hd.
  destruct (Z.lt_trichotomy (tr e m) c) as [Hl|[Hl|Hl]]; [|done|].
  - pose proof (divide_gap m _ _ Hm Hd Hc Hl). lia.
  - pose proof (divide_gap m _ _ Hm Hc Hd Hl). lia.
Qed.

Lemma tr_multiple e m : 0 < m -> (m | e) -> tr e m = e.
Proof. intros Hm He. apply tr_unique; [done|done|lia]. Qed.

Lemma tr_above e m c : 0 < m -> (m | c) -> c <= e -> c <= tr e m.
Proof.
  intros Hm Hc He. pose proof (tr_bounds e m Hm). destruct (Z.le_gt_cases c (tr e m)) as [|Hl]; [done|].
  pose proof (divide_gap m _ _ Hm (tr_divide e m) Hc Hl). lia.
Qed.

Lemma tr_tr e m M : 0 < m -> 0 < M -> (m | M) -> tr (tr e m) M = tr e M.
Proof.
  intros Hm HM Hd. apply tr_unique; [done|apply tr_divide|]. pose proof (tr_bounds e m Hm). pose proof (tr_bounds e M HM).
  split; [|lia]. apply tr_above; [done| |lia]. etrans; [exact Hd|apply tr_divide].
Qed.

Lemma truncate_tr e m : 0 < m -> 0 <= e -> truncate e m = tr e m.
Proof.
  intros Hm He. unfold truncate, tr. destruct (Z.leb_spec m 0); [lia|]. rewrite Z.rem_mod_nonneg by lia.
  pose proof (Z.div_mod e m ltac:(lia)). lia.
Qed.

(** Two numbers of one window of [W] that agree modulo [W]. *)
Lemma window_eq W c a b : 0 < W -> c <= a < c + W -> c <= b < c + W -> a mod W = b mod W -> a = b.
Proof.
  intros HW Ha Hb E. pose proof (Z.div_mod a W ltac:(lia)). pose proof (Z.div_mod b W ltac:(lia)).
  assert (a / W = b / W) by nia. nia.
Qed.

(** ** Buckets *)

Lemma bucket_at_set b x ws c : is_Some (bucket_at b ws) ->
  bucket_at c (set_bucket b x ws) = if decide (c = b) then Some x else bucket_at c ws.
Proof.
  intros [y Hy]. unfold bucket_at, set_bucket in *. destruct b as [k i], c as [k' i']. simpl in *.
  destruct (ws !! k) as [tw|] eqn:Hk; [|done]. simpl in Hy. pose proof (lookup_lt_Some _ _ _ Hy) as Hlt.
  destruct (decide (k' = k)) as [->|Hne].
  - rewrite list_lookup_alter_eq, Hk. simpl. destruct (decide (i' = i)) as [->|Hi].
    + rewrite decide_True by done. by rewrite list_lookup_insert_eq.
    + rewrite decide_False by congruence. by rewrite list_lookup_insert_ne.
  - rewrite list_lookup_alter_ne by done. rewrite decide_False by congruence. done.
Qed.

Lemma set_bucket_level b x ws k tw : set_bucket b x ws !! k = Some tw ->
  exists tw0, ws !! k = Some tw0 /\ tw_tick tw = tw_tick tw0 /\ tw_wheelSize tw = tw_wheelSize tw0 /\
    tw_interval tw = tw_interval tw0 /\ tw_currentTime tw = tw_currentTime tw0 /\
    length (tw_buckets tw) = length (tw_buckets tw0).
Proof.
  unfold set_bucket. destruct (decide (k = b.1)) as [->|Hne].
  - rewrite list_lookup_alter_eq. destruct (ws !! b.1) as [tw0|]; [|done]. simpl. intros [= <-]. exists tw0.
    simpl. by rewrite length_insert.
  - rewrite list_lookup_alter_ne by done. intros H. by exists tw.
Qed.

Lemma set_bucket_length b x ws : length (set_bucket b x ws) = length ws.
Proof. apply length_alter. Qed.

Lemma level_set b x ws k tw : ws !! k = Some tw -> exists tw', set_bucket b x ws !! k = Some tw' /\
  tw_tick tw' = tw_tick tw /\ tw_currentTime tw' = tw_currentTime tw /\ tw_interval tw' = tw_interval tw.
Proof.
  intros Hk. destruct (lookup_lt_is_Some_2 (set_bucket b x ws) k) as [tw' Hk'].
  { rewrite set_bucket_length. by eapply lookup_lt_Some. }
  exists tw'. split; [done|]. destruct (set_bucket_level b x ws k tw' Hk') as (tw0 & H0 & ? & ? & ? & ? & ?).
  rewrite Hk in H0. by injection H0 as <-.
Qed.

(** [ws'] has the levels of [ws], with its buckets, and new levels with fresh buckets. *)
Definition ext (ws ws' : list level) : Prop :=
  exists news, ws' = ws ++ news /\ Forall (fun tw => Forall (eq newBucket) (tw_buckets tw)) news.

Lemma ext_refl ws : ext ws ws.
Proof. exists []. by rewrite app_nil_r. Qed.

Lemma ext_trans ws1 ws2 ws3 : ext ws1 ws2 -> ext ws2 ws3 -> ext ws1 ws3.
Proof.
  intros (n1 & -> & F1) (n2 & -> & F2). exists (n1 ++ n2). rewrite app_assoc. split; [done|].
  apply list.Forall_app. done.
Qed.

Lemma ext_level ws ws' k tw : ext ws ws' -> ws !! k = Some tw -> ws' !! k = Some tw.
Proof. intros (news & -> & _) Hk. by apply lookup_app_l_Some. Qed.

Lemma ext_bucket ws ws' b x : ext ws ws' -> bucket_at b ws = Some x -> bucket_at b ws' = Some x.
Proof.
  intros He. unfold bucket_at. destruct (ws !! b.1) as [tw|] eqn:Hk; [|done]. by rewrite (ext_level _ _ _ _ He Hk).
Qed.

Lemma ext_bucket_inv ws ws' b x : ext ws ws' -> bucket_at b ws' = Some x ->
  bucket_at b ws = Some x \/ x = newBucket.
Proof.
  intros (news & -> & F). unfold bucket_at. destruct ((ws ++ news) !! b.1) as [tw|] eqn:Hk; [|done]. simpl. intros Hx.
  apply lookup_app_Some in Hk as [Hk|[_ Hk]]; [left; by rewrite Hk|right].
  eapply list.Forall_lookup_1 in F; [|exact Hk]. by eapply list.Forall_lookup_1 in F.
Qed.

(** ** The levels *)

Section Wheel.
(** What the zero time gives, the wheel size, the tick in milliseconds. *)
Variable zero WS tick0 : Z.
Hypothesis WS_range : 2 <= WS <= 2 ^ 18.
Hypothesis tick0_range : 1 <= tick0 <= 2 ^ 42.

Record lvl_ok (now : Z) (k : nat) (tw : level) : Prop := {
  lo_size : tw_wheelSize tw = WS;
  lo_tick : 2 ^ Z.of_nat k <= tw_tick tw;
  lo_interval : tw_interval tw = tw_tick tw * WS;
  lo_bound : tw_interval tw <= 2 ^ 62;
  lo_cur : 0 <= tw_currentTime tw <= now;
  lo_mul : (tw_tick tw | tw_currentTime tw);
  lo_len : length (tw_buckets tw) = Z.to_nat WS }.

Record geo_ok (now : Z) (ws : list level) : Prop := {
  go_now : 0 <= now < 2 ^ 42;
  go_first : exists tw, ws !! 0%nat = Some tw /\ tw_tick tw = tick0;
  go_lvl : forall k tw, ws !! k = Some tw -> lvl_ok now k tw;
  go_up : forall k tw up, ws !! k = Some tw -> ws !! S k = Some up ->
    tw_tick up = tw_interval tw /\ tw_currentTime up = tr (tw_currentTime tw) (tw_tick up) }.

Lemma lvl_tick_pos now k tw : lvl_ok now k tw -> 0 < tw_tick tw.
Proof. intros []. pose proof (Z.pow_pos_nonneg 2 (Z.of_nat k) ltac:(lia) ltac:(lia)). lia. Qed.

Lemma lvl_tick_interval now k tw : lvl_ok now k tw -> 2 * tw_tick tw <= tw_interval tw.
Proof. intros L. pose proof (lvl_tick_pos _ _ _ L). destruct L. nia. Qed.

Lemma geo_mono now now' ws : geo_ok now ws -> now <= now' < 2 ^ 42 -> geo_ok now' ws.
Proof. intros [] Hn. split; try done; [lia|]. intros k tw Hk. destruct (go_lvl0 k tw Hk). split; try done; lia. Qed.

Lemma geo_set b x now ws : geo_ok now ws -> geo_ok now (set_bucket b x ws).
Proof.
  intros []. split; [done| | |].
  - destruct go_first0 as (tw & Hk & Ht). destruct (level_set b x ws 0%nat tw Hk) as (tw' & ? & ? & _). exists tw'. split; [done|lia].
  - intros k tw Hk. destruct (set_bucket_level b x ws k tw Hk) as (tw0 & Hk0 & E1 & E2 & E3 & E4 & E5).
    destruct (go_lvl0 k tw0 Hk0). split; rewrite ?E1, ?E2, ?E3, ?E4, ?E5; done.
  - intros k tw up Hk Hu. destruct (set_bucket_level b x ws k tw Hk) as (tw0 & Hk0 & E1 & E2 & E3 & E4 & E5).
    destruct (set_bucket_level b x ws (S k) up Hu) as (up0 & Hu0 & F1 & F2 & F3 & F4 & F5).
    rewrite F1, E3, F4, E4. by apply (go_up0 k).
Qed.

(** A new overflow level. *)
Lemma geo_grow now ws k tw e : geo_ok now ws -> ws !! k = Some tw -> length ws = S k ->
  tw_currentTime tw + tw_interval tw <= e -> e < 2 ^ 44 ->
  let up := newTimingWheel (tw_interval tw) (tw_wheelSize tw) (tw_currentTime tw) in
  geo_ok now (ws ++ [up]) /\ ext ws (ws ++ [up]).
Proof.
  intros G Hk Hl He He2 up. pose proof (go_lvl now ws G k tw Hk) as L. pose proof (lvl_tick_pos _ _ _ L) as Hp.
  pose proof (lvl_tick_interval _ _ _ L) as Hi. destruct L.
  assert (Hup : tw_tick up = tw_interval tw /\ tw_currentTime up = tr (tw_currentTime tw) (tw_interval tw) /\
    tw_wheelSize up = WS /\ tw_interval up = tw_interval tw * WS /\ tw_buckets up = replicate (Z.to_nat WS) newBucket).
  { unfold up, newTimingWheel. simpl. rewrite truncate_tr, lo_size0 by lia. split_and!; try done.
    apply wrapS_id; [lia|]. unfold inS. simpl. nia. }
  destruct Hup as (U1 & U2 & U3 & U4 & U5). split.
  2: { exists [up]. split; [done|]. apply list.Forall_singleton. rewrite U5. by apply Forall_replicate. }
  pose proof (tr_bounds (tw_currentTime tw) (tw_interval tw) ltac:(lia)).
  assert (0 <= tr (tw_currentTime tw) (tw_interval tw)) by (apply tr_above; [lia|apply Z.divide_0_r|lia]).
  destruct G as [Gn Gf Gl Gu]. split; [done| | |].
  - destruct Gf as (t0 & Hf0 & ?). exists t0. split; [by apply lookup_app_l_Some|done].
  - intros j t Hj. apply lookup_app_Some in Hj as [Hj|[Hge Hj]]; [by apply Gl|].
    destruct (j - length ws)%nat eqn:Ej; [|done]. injection Hj as <-. assert (j = S k) as -> by lia.
    split; rewrite ?U1, ?U2, ?U3, ?U4, ?U5; try done.
    + rewrite Nat2Z.inj_succ, Z.pow_succ_r by lia. lia.
    + nia.
    + lia.
    + apply tr_divide.
    + by rewrite length_replicate.
  - intros j t u Hj Hu. apply lookup_app_Some in Hu as [Hu|[Hge Hu]].
    + apply lookup_lt_Some in Hu as Hlt. rewrite lookup_app_l in Hj by lia. by apply (Gu j).
    + destruct (S j - length ws)%nat eqn:Ej; [|done]. injection Hu as <-. assert (j = k) as -> by lia.
      rewrite lookup_app_l in Hj by lia. rewrite Hk in Hj. injection Hj as <-. by rewrite U1.
Qed.

(** The place of an expiration: the level whose window holds it, the bucket of its tick. *)
Definition home (b : bref) (e be : Z) (tw : level) : Prop :=
  tw_currentTime tw + tw_tick tw <= e < tw_currentTime tw + tw_interval tw /\
  b.2 = Z.to_nat ((e / tw_tick tw) mod WS) /\ be = tr e (tw_tick tw).

Lemma add_locate_spec now fuel k e ws tw : geo_ok now ws -> ws !! k = Some tw -> e < 2 ^ 44 -> (46 <= fuel + k)%nat ->
  (k = 0%nat \/ tw_currentTime tw + tw_tick tw <= e) ->
  exists ws' place, add_locate fuel k e ws = Some (ws', place) /\ ext ws ws' /\ geo_ok now ws' /\
    match place with
    | None => ws' = ws /\ e < tw_currentTime tw + tw_tick tw
    | Some (b, be) => tw_currentTime tw + tw_tick tw <= e /\ exists t, ws' !! b.1 = Some t /\ home b e be t
    end.
Proof.
  revert k ws tw. induction fuel as [|fuel IH]; intros k ws tw G Hk He Hf Hlow;
    pose proof (go_lvl now ws G k tw Hk) as L; pose proof (lvl_tick_pos _ _ _ L) as Hp;
    pose proof (lvl_tick_interval _ _ _ L) as Hi; destruct L; pose proof (go_now now ws G) as Hn.
  { destruct Hlow as [->|Hlow]; [lia|]. pose proof (Z.pow_le_mono_r 2 46 (Z.of_nat k) ltac:(lia) ltac:(lia)). lia. }
  cbn [add_locate]. rewrite Hk. rewrite !(wrapS_id 64) by (unfold inS; lia).
  destruct (Z.ltb_spec e (tw_currentTime tw + tw_tick tw)) as [Hx|Hx].
  { exists ws, None. split; [done|]. split; [apply ext_refl|]. done. }
  destruct (Z.ltb_spec e (tw_currentTime tw + tw_interval tw)) as [Hy|Hy].
  { eexists ws, (Some _). split; [reflexivity|]. split; [apply ext_refl|]. split; [done|]. split; [done|]. exists tw. simpl.
    split; [done|]. split; [lia|]. simpl. rewrite lo_size0, Z.quot_div_nonneg by lia. split.
    - f_equal. apply Z.rem_mod_nonneg; [apply Z.div_pos; lia|lia].
    - pose proof (tr_bounds e (tw_tick tw) Hp). unfold tr in *. apply wrapS_id; [lia|]. unfold inS. lia. }
  set (ws1 := if decide _ then _ else _).
  assert (H1 : geo_ok now ws1 /\ ext ws ws1 /\ exists up, ws1 !! S k = Some up).
  { unfold ws1. destruct (decide (S k < length ws)%nat) as [Hlt|Hge].
    - split; [done|]. split; [apply ext_refl|]. by apply lookup_lt_is_Some_2.
    - pose proof (lookup_lt_Some _ _ _ Hk). destruct (geo_grow now ws k tw e G Hk ltac:(lia) Hy He) as [G1 E1].
      split; [done|]. split; [done|]. eexists. rewrite lookup_app_r by lia. by replace (S k - length ws)%nat with 0%nat by lia. }
  destruct H1 as (G1 & E1 & up & Hu). pose proof (ext_level _ _ _ _ E1 Hk) as Hk1.
  destruct (go_up now ws1 G1 k tw up Hk1 Hu) as [U1 U2].
  pose proof (tr_bounds (tw_currentTime tw) (tw_tick up) ltac:(lia)) as Hb.
  destruct (IH (S k) ws1 up G1 Hu He ltac:(lia)) as (ws' & place & E & Ex & G' & Hp'); [right; lia|].
  exists ws', place. split; [done|]. split; [by eapply ext_trans|]. split; [done|].
  destruct place as [[b be]|]; [|destruct Hp'; lia]. split; [lia|]. by destruct Hp'.
Qed.

(** The clocks after an advance: every level's clock is the expiration, cut to its tick. *)
Definition set_clock (e : Z) (tw : level) : level :=
  mkLevel (tw_tick tw) (tw_wheelSize tw) (tw_interval tw) (tr e (tw_tick tw)) (tw_buckets tw).

Lemma set_clock_id e tw : tr e (tw_tick tw) = tw_currentTime tw -> set_clock e tw = tw.
Proof. intros E. unfold set_clock. rewrite E. by destruct tw. Qed.

Lemma advanceClock_spec e ws : 0 <= e < 2 ^ 42 ->
  (forall k tw, ws !! k = Some tw -> 0 < tw_tick tw <= 2 ^ 62 /\ (tw_tick tw | tw_currentTime tw) /\ 0 <= tw_currentTime tw <= e) ->
  (forall k tw up, ws !! k = Some tw -> ws !! S k = Some up -> (tw_tick tw | tw_tick up) /\
    tw_currentTime tw + tw_tick tw <= tw_currentTime up + tw_tick up) ->
  advanceClock e ws = set_clock e <$> ws.
Proof.
  revert e. induction ws as [|tw ws IH]; intros e He Hl Hu; [done|]. simpl.
  destruct (Hl 0%nat tw eq_refl) as ([Hp Hb] & Hm & Hc). rewrite (wrapS_id 64) by (unfold inS; lia).
  assert (Hl' : forall k t, ws !! k = Some t -> 0 < tw_tick t <= 2 ^ 62 /\ (tw_tick t | tw_currentTime t) /\ 0 <= tw_currentTime t <= e)
    by (intros k t Hk; exact (Hl (S k) t Hk)).
  assert (Hd : forall k t, ws !! k = Some t -> (tw_tick tw | tw_tick t) /\ tw_currentTime tw + tw_tick tw <= tw_currentTime t + tw_tick t).
  { induction k as [|k IHk]; intros t Hk; [exact (Hu 0%nat tw t eq_refl Hk)|].
    destruct (lookup_lt_is_Some_2 ws k) as [u Hku]; [apply lookup_lt_Some in Hk; lia|].
    destruct (IHk u Hku) as [D1 D2]. destruct (Hu (S k) u t Hku Hk) as [D3 D4]. split; [by etrans|lia]. }
  destruct (Z.leb_spec (tw_currentTime tw + tw_tick tw) e) as [Hadv|Hstop].
  - rewrite truncate_tr by lia. pose proof (tr_bounds e (tw_tick tw) Hp) as Ht. rewrite (IH (tr e (tw_tick tw))).
    + unfold set_clock at 2. f_equal. apply list_fmap_ext. intros k t Hk. unfold set_clock. f_equal.
      destruct (Hl' k t Hk) as ([] & _). apply tr_tr; [done|done|]. by apply (Hd k).
    + split; [|lia]. apply tr_above; [done|apply Z.divide_0_r|lia].
    + intros k t Hk. destruct (Hl' k t Hk) as (? & Hm' & Hc'). split; [done|]. split; [done|]. split; [lia|].
      apply tr_above; [done| |lia]. etrans; [|exact Hm']. by apply (Hd k).
    + intros k t u Hk Hku. exact (Hu (S k) t u Hk Hku).
  - rewrite set_clock_id by (apply tr_unique; [done|done|lia]). f_equal. symmetry.
    rewrite <- (list_fmap_id ws) at 2. apply list_fmap_ext. intros k t Hk. destruct (Hl' k t Hk) as ([] & Hm' & Hc').
    apply set_clock_id, tr_unique; [done|done|]. destruct (Hd k t Hk). unfold id. lia.
Qed.

(** ** The wheel: buckets, queue and timers *)

Definition clock (ws : list level) : Z := default 0 (tw_currentTime <$> ws !! 0%nat).

(** [ex]: the bucket that is being flushed, which is not in the queue. *)
Record wheel_inv (ex : option bref) (now : Z) (ws : list level) (pq : list (item bref)) (tm : gmap nat Timer) : Prop := {
  wi_geo : geo_ok now ws;
  wi_mem : forall b x tid, bucket_at b ws = Some x ->
    tid ∈ b_timers x <-> exists t, tm !! tid = Some t /\ t_b t = Some b;
  wi_nodup : forall b x, bucket_at b ws = Some x -> NoDup (b_timers x);
  wi_home : forall tid t b, tm !! tid = Some t -> t_b t = Some b -> exists tw x, ws !! b.1 = Some tw /\
    bucket_at b ws = Some x /\ 0 <= t_expiration t < 2 ^ 44 /\ b_expiration x = tr (t_expiration t) (tw_tick tw);
  wi_exp : forall b x, bucket_at b ws = Some x -> b_expiration x <> -1 -> exists tw, ws !! b.1 = Some tw /\
    (tw_tick tw | b_expiration x) /\ b.2 = Z.to_nat ((b_expiration x / tw_tick tw) mod WS) /\
    clock ws <= b_expiration x < tw_currentTime tw + tw_interval tw;
  wi_heap : heap_ok pq;
  wi_pqnd : NoDup (it_Value <$> pq);
  wi_pq : forall it, it ∈ pq -> ex <> Some (it_Value it) /\ exists x, bucket_at (it_Value it) ws = Some x /\
    b_expiration x = it_Priority it /\ b_expiration x <> -1;
  wi_queued : forall b x, bucket_at b ws = Some x -> b_expiration x <> -1 -> ex = Some b \/ b ∈ it_Value <$> pq;
  wi_ex : forall b, ex = Some b -> exists tw x, ws !! b.1 = Some tw /\ bucket_at b ws = Some x /\
    b_expiration x = tw_currentTime tw }.

Lemma geo_adj now ws k tw up : geo_ok now ws -> ws !! k = Some tw -> ws !! S k = Some up ->
  (tw_tick tw | tw_tick up) /\ tw_currentTime tw + tw_tick tw <= tw_currentTime up + tw_tick up /\
  tw_currentTime up <= tw_currentTime tw.
Proof.
  intros G Hk Hu. destruct (go_up now ws G k tw up Hk Hu) as [E1 E2].
  pose proof (go_lvl now ws G k tw Hk) as L. pose proof (lvl_tick_pos _ _ _ L). pose proof (lvl_tick_interval _ _ _ L).
  pose proof (go_lvl now ws G (S k) up Hu) as Lu. pose proof (lvl_tick_pos _ _ _ Lu) as Hp.
  pose proof (tr_bounds (tw_currentTime tw) (tw_tick up) Hp).
  assert (Hd : (tw_tick tw | tw_tick up)) by (rewrite E1; destruct L as [_ _ -> _ _ _ _]; by exists WS; rewrite Z.mul_comm).
  split; [done|]. split; [|lia]. apply divide_gap; [done|apply L| |lia].
  etrans; [exact Hd|]. apply Z.divide_add_r; [apply Lu|reflexivity].
Qed.

Lemma clock_level now ws k tw : geo_ok now ws -> ws !! k = Some tw ->
  0 <= tw_currentTime tw <= clock ws /\ clock ws < tw_currentTime tw + tw_tick tw /\ 0 <= clock ws <= now.
Proof.
  intros G. destruct (go_first now ws G) as (t0 & H0 & E0). unfold clock. rewrite H0. simpl.
  pose proof (go_lvl now ws G 0%nat t0 H0) as L0. pose proof (lvl_tick_pos _ _ _ L0). destruct L0.
  revert tw. induction k as [|k IH]; intros tw Hk; [rewrite H0 in Hk; injection Hk as <-; lia|].
  destruct (lookup_lt_is_Some_2 ws k) as [u Hu]; [apply lookup_lt_Some in Hk; lia|]. specialize (IH u Hu).
  destruct (geo_adj now ws k u tw G Hu Hk) as (_ & ? & ?). pose proof (go_lvl now ws G (S k) tw Hk) as []. lia.
Qed.

Lemma clock_ext ws ws' : ext ws ws' -> (0 < length ws)%nat -> clock ws' = clock ws.
Proof. intros (news & -> & _) Hl. unfold clock. by rewrite lookup_app_l. Qed.

Lemma clock_set b x ws : clock (set_bucket b x ws) = clock ws.
Proof.
  unfold clock. destruct (ws !! 0%nat) as [tw|] eqn:E.
  - destruct (level_set b x ws 0%nat tw E) as (tw' & -> & _ & H & _). simpl. by rewrite H.
  - apply lookup_ge_None in E. rewrite (proj2 (lookup_ge_None _ _)); [done|]. by rewrite set_bucket_length.
Qed.

Lemma geo_length now ws : geo_ok now ws -> (0 < length ws)%nat.
Proof. intros G. destruct (go_first now ws G) as (tw & H & _). by eapply lookup_lt_Some. Qed.

Lemma geo_bucket now ws k tw i : geo_ok now ws -> ws !! k = Some tw -> (i < Z.to_nat WS)%nat -> is_Some (bucket_at (k, i) ws).
Proof.
  intros G Hk Hi. unfold bucket_at. simpl. rewrite Hk. simpl. apply lookup_lt_is_Some_2.
  by rewrite (lo_len _ _ _ (go_lvl now ws G k tw Hk)).
Qed.

(** New levels change nothing. *)
Lemma wheel_ext ex now ws ws' pq tm : wheel_inv ex now ws pq tm -> ext ws ws' -> geo_ok now ws' -> wheel_inv ex now ws' pq tm.
Proof.
  intros [] He G'. pose proof (geo_length now ws wi_geo0) as Hl.
  assert (Hno : forall tid t b, tm !! tid = Some t -> t_b t = Some b -> forall x, bucket_at b ws' = Some x -> bucket_at b ws = Some x).
  { intros tid t b Ht Hb x Hx. destruct (wi_home0 tid t b Ht Hb) as (_ & y & _ & Hy & _).
    pose proof (ext_bucket _ _ _ _ He Hy). congruence. }
  split; try done.
  - intros b x tid Hx. destruct (ext_bucket_inv _ _ _ _ He Hx) as [Hx'| ->]; [by apply wi_mem0|].
    split; [by intros ?%not_elem_of_nil|]. intros (t & Ht & Hb). pose proof (Hno tid t b Ht Hb _ Hx) as Hx'.
    apply (wi_mem0 b newBucket tid Hx'). by exists t.
  - intros b x Hx. destruct (ext_bucket_inv _ _ _ _ He Hx) as [Hx'| ->]; [by eapply wi_nodup0|constructor].
  - intros tid t b Ht Hb. destruct (wi_home0 tid t b Ht Hb) as (tw & x & Hk & Hx & ? & ?). exists tw, x.
    split; [by eapply ext_level|]. split; [by eapply ext_bucket|done].
  - intros b x Hx Hne. destruct (ext_bucket_inv _ _ _ _ He Hx) as [Hx'| ->]; [|done].
    destruct (wi_exp0 b x Hx' Hne) as (tw & Hk & Hrest). exists tw. rewrite (clock_ext _ _ He Hl). split; [by eapply ext_level|done].
  - intros it Hit. destruct (wi_pq0 it Hit) as (? & x & Hx & ?). split; [done|]. exists x. split; [by eapply ext_bucket|done].
  - intros b x Hx Hne. destruct (ext_bucket_inv _ _ _ _ He Hx) as [Hx'| ->]; [by eapply wi_queued0|done].
  - intros b Hb. destruct (wi_ex0 b Hb) as (tw & x & Hk & Hx & ?). exists tw, x. split; [by eapply ext_level|].
    split; [by eapply ext_bucket|done].
Qed.

(** Two expirations in the window of a level that fall in the same bucket have the same
    tick. *)
Lemma same_bucket now ws k tw a e : geo_ok now ws -> ws !! k = Some tw ->
  tw_currentTime tw <= a < tw_currentTime tw + tw_interval tw -> (tw_tick tw | a) ->
  tw_currentTime tw <= e < tw_currentTime tw + tw_interval tw ->
  Z.to_nat ((a / tw_tick tw) mod WS) = Z.to_nat ((e / tw_tick tw) mod WS) -> a = tr e (tw_tick tw).
Proof.
  intros G Hk Ha Hd He E. pose proof (go_lvl now ws G k tw Hk) as L. pose proof (lvl_tick_pos _ _ _ L) as Hp. destruct L.
  assert (E' : (a / tw_tick tw) mod WS = (e / tw_tick tw) mod WS).
  { pose proof (Z.mod_pos_bound (a / tw_tick tw) WS ltac:(lia)). pose proof (Z.mod_pos_bound (e / tw_tick tw) WS ltac:(lia)). lia. }
  destruct lo_mul0 as [c Hc]. apply (window_eq WS c) in E'; [|lia| |].
  - rewrite <- (tr_multiple a (tw_tick tw)) by done. unfold tr. by rewrite E'.
  - pose proof (tr_bounds a (tw_tick tw) Hp). unfold tr in *. nia.
  - pose proof (tr_bounds e (tw_tick tw) Hp). unfold tr in *. nia.
Qed.

Lemma heap_pq_push (b : bref) be (pq : list (item bref)) : heap_ok pq -> NoDup (it_Value <$> pq) -> b ∉ it_Value <$> pq ->
  heap_ok (heap_Push (mkItem b be) pq) /\ NoDup (it_Value <$> heap_Push (mkItem b be) pq) /\
  forall it, it ∈ heap_Push (mkItem b be) pq <-> it = mkItem b be \/ it ∈ pq.
Proof.
  intros Hh Hn Hb. destruct (heap_Push_ok (mkItem b be) pq Hh) as [H1 H2]. split; [done|]. split.
  - rewrite H2. simpl. by constructor.
  - intros it. rewrite H2. apply elem_of_cons.
Qed.

(** The bucket of an expiration that is to be entered: it is not the one being flushed, and
    it is free or carries this very expiration. *)
Lemma home_free ex now ws pq tm b be e tw : wheel_inv ex now ws pq tm -> ws !! b.1 = Some tw -> home b e be tw ->
  exists x, bucket_at b ws = Some x /\ ex <> Some b /\ (b_expiration x = -1 \/ b_expiration x = be) /\
    0 <= be /\ clock ws <= be < tw_currentTime tw + tw_interval tw.
Proof.
  intros I Hk (He & Hi & ->). pose proof (wi_geo _ _ _ _ _ I) as G. pose proof (go_lvl now ws G b.1 tw Hk) as L.
  pose proof (lvl_tick_pos _ _ _ L) as Hp. destruct (clock_level now ws b.1 tw G Hk) as (Hc1 & Hc2 & Hc3).
  pose proof (tr_bounds e (tw_tick tw) Hp) as Hb.
  assert (Habove : tw_currentTime tw + tw_tick tw <= tr e (tw_tick tw)).
  { apply tr_above; [done| |lia]. apply Z.divide_add_r; [apply L|reflexivity]. }
  destruct (geo_bucket now ws b.1 tw b.2 G Hk) as [x Hx].
  { rewrite Hi. pose proof (Z.mod_pos_bound (e / tw_tick tw) WS ltac:(lia)). lia. }
  rewrite <- surjective_pairing in Hx. exists x. split; [done|].
  assert (Hsame : b_expiration x <> -1 -> b_expiration x = tr e (tw_tick tw)).
  { intros Hne. destruct (wi_exp _ _ _ _ _ I b x Hx Hne) as (tw' & Hk' & Hd & Hi' & Hw). rewrite Hk in Hk'. injection Hk' as <-.
    apply (same_bucket now ws b.1 tw); [done|done|lia|done|lia|]. by rewrite <- Hi', Hi. }
  split_and!; [|destruct (decide (b_expiration x = -1)); auto|lia|lia|lia].
  intros ->. destruct (wi_ex _ _ _ _ _ I b eq_refl) as (tw' & x' & Hk' & Hx' & E). rewrite Hk in Hk'. injection Hk' as <-.
  rewrite Hx in Hx'. injection Hx' as <-. rewrite Hsame in E by lia. lia.
Qed.

(** Everything a change of one bucket has to keep: [y] replaces the bucket [b]. *)
Lemma wheel_set ex ex' now ws pq pq' tm tm' b x y tw : wheel_inv ex now ws pq tm ->
  ws !! b.1 = Some tw -> bucket_at b ws = Some x ->
  (forall tid, tid ∈ b_timers y <-> exists t, tm' !! tid = Some t /\ t_b t = Some b) -> NoDup (b_timers y) ->
  (forall tid c t, c <> b -> t_b t = Some c -> tm' !! tid = Some t <-> tm !! tid = Some t) ->
  (forall tid t, tm' !! tid = Some t -> t_b t = Some b -> 0 <= t_expiration t < 2 ^ 44 /\ b_expiration y = tr (t_expiration t) (tw_tick tw)) ->
  (b_expiration y <> -1 -> (tw_tick tw | b_expiration y) /\ b.2 = Z.to_nat ((b_expiration y / tw_tick tw) mod WS) /\
    clock ws <= b_expiration y < tw_currentTime tw + tw_interval tw) ->
  heap_ok pq' -> NoDup (it_Value <$> pq') ->
  (forall it, it ∈ pq' -> it_Value it = b /\ ex' <> Some b /\ b_expiration y = it_Priority it /\ b_expiration y <> -1 \/
    it_Value it <> b /\ it ∈ pq) ->
  (forall c, c <> b -> c ∈ it_Value <$> pq -> c ∈ it_Value <$> pq') ->
  (b_expiration y <> -1 -> ex' = Some b \/ b ∈ it_Value <$> pq') ->
  (forall c, c <> b -> ex' = Some c <-> ex = Some c) -> (ex' = Some b -> b_expiration y = tw_currentTime tw) ->
  wheel_inv ex' now (set_bucket b y ws) pq' tm'.
Proof.
  intros [] Hk Hx Hmem Hnd Htm Hhome Hexp Hheap Hpn Hpq Hpq' Hq Hex Hexb.
  assert (Hat : forall c z, bucket_at c (set_bucket b y ws) = Some z <-> (c = b /\ z = y) \/ (c <> b /\ bucket_at c ws = Some z)).
  { intros c z. rewrite bucket_at_set by done. destruct (decide (c = b)); split; [intros [= <-]; by left| |by right|]; intros [[? ?]|[? ?]]; congruence. }
  assert (Hlv : forall k l, ws !! k = Some l -> exists l', set_bucket b y ws !! k = Some l' /\ tw_tick l' = tw_tick l /\
    tw_currentTime l' = tw_currentTime l /\ tw_interval l' = tw_interval l) by (intros; by apply level_set).
  destruct (Hlv b.1 tw Hk) as (lb & Hlb & B1 & B2 & B3). split; try done.
  - by apply geo_set.
  - intros c z i [[-> ->]|[Hc Hz]]%Hat; [apply Hmem|]. rewrite (wi_mem0 c z i Hz).
    split; intros (t & Ht & E); exists t; (split; [by apply (Htm i c)|done]).
  - intros c z [[-> ->]|[Hc Hz]]%Hat; [done|by eapply wi_nodup0].
  - intros i t c Ht E. destruct (decide (c = b)) as [->|Hc].
    + destruct (Hhome i t Ht E). exists lb, y. rewrite B1. split; [done|]. split; [apply Hat; by left|done].
    + apply (Htm i c t Hc E) in Ht. destruct (wi_home0 i t c Ht E) as (l & z & Hl & Hz & ? & ?).
      destruct (Hlv c.1 l Hl) as (l' & Hl' & E1 & _). exists l', z. rewrite E1. split; [done|]. split; [apply Hat; by right|done].
  - intros c z [[-> ->]|[Hc Hz]]%Hat Hne.
    + exists lb. rewrite B1, B2, B3, clock_set. split; [done|]. by apply Hexp.
    + destruct (wi_exp0 c z Hz Hne) as (l & Hl & Hrest). destruct (Hlv c.1 l Hl) as (l' & Hl' & E1 & E2 & E3).
      exists l'. by rewrite E1, E2, E3, clock_set.
  - intros it Hit. destruct (Hpq it Hit) as [(Hv & ? & ? & ?)|[Hv Hit']].
    { rewrite Hv. split; [done|]. exists y. split; [apply Hat; by left|done]. }
    clear Hit. rename Hit' into Hit.
    destruct (wi_pq0 it Hit) as (H1 & z & Hz & ? & ?). split; [by rewrite (Hex _ Hv)|]. exists z. split; [apply Hat; by right|done].
  - intros c z [[-> ->]|[Hc Hz]]%Hat Hne; [by apply Hq|]. rewrite (Hex c Hc). destruct (wi_queued0 c z Hz Hne); auto.
  - intros c E. destruct (decide (c = b)) as [->|Hc].
    + exists lb, y. rewrite B2. split; [done|]. split; [apply Hat; by left|by apply Hexb].
    + apply (Hex c Hc) in E. destruct (wi_ex0 c E) as (l & z & Hl & Hz & E'). destruct (Hlv c.1 l Hl) as (l' & Hl' & _ & E2 & _).
      exists l', z. rewrite E2. split; [done|]. split; [apply Hat; by right|done].
Qed.

Lemma wheel_place ex now ws pq tm tid t b be tw : wheel_inv ex now ws pq tm -> tm !! tid = Some t -> t_b t = None ->
  ws !! b.1 = Some tw -> home b (t_expiration t) be tw -> t_expiration t < 2 ^ 44 ->
  exists x, bucket_at b ws = Some x /\ ex <> Some b /\
    wheel_inv ex now (set_bucket b (mkBucket be (b_timers x ++ [tid])) ws)
      (if b_expiration x =? be then pq else heap_Push (mkItem b be) pq) (<[tid := set_b (Some b) t]> tm).
Proof.
  intros I Ht Hnb Hk Hh He. destruct (home_free _ _ _ _ _ _ _ _ _ I Hk Hh) as (x & Hx & Hex & Hfree & Hbe & Hwin).
  exists x. split; [done|]. split; [done|]. pose proof I as []. destruct Hh as (Hw & Hi & Ebe).
  pose proof (lvl_tick_pos _ _ _ (go_lvl now ws wi_geo0 b.1 tw Hk)) as Hp.
  destruct (clock_level now ws b.1 tw wi_geo0 Hk) as (Hc1 & _).
  set (pq' := if _ : bool then _ else _).
  assert (Hpq : heap_ok pq' /\ NoDup (it_Value <$> pq') /\ (forall it, it ∈ pq' -> it = mkItem b be \/ (it_Value it <> b /\ it ∈ pq)) /\
    b ∈ it_Value <$> pq' /\ forall it, it ∈ pq -> it ∈ pq').
  { unfold pq'. destruct (Z.eqb_spec (b_expiration x) be) as [E|Hne].
    - destruct (wi_queued0 b x Hx ltac:(lia)) as [|Hin]; [done|]. split_and!; try done. intros it Hit.
      destruct (decide (it_Value it = b)) as [Hv|]; [left|by right]. destruct (wi_pq0 it Hit) as (_ & z & Hz & E' & _).
      rewrite Hv, Hx in Hz. injection Hz as <-. destruct it as [v p]. simpl in *. subst v. f_equal. congruence.
    - assert (Hnin : b ∉ it_Value <$> pq).
      { intros (it & -> & Hit)%list_elem_of_fmap. destruct (wi_pq0 it Hit) as (_ & z & Hz & _ & Hz'). rewrite Hx in Hz. injection Hz as <-. lia. }
      destruct (heap_pq_push b be pq wi_heap0 wi_pqnd0 Hnin) as (H1 & H2 & H3). split_and!; try done.
      + intros it [->|Hit]%H3; [by left|]. right. split; [|done]. intros E. destruct Hnin. apply list_elem_of_fmap. by exists it.
      + apply list_elem_of_fmap. exists (mkItem b be). split; [done|]. apply H3. by left.
      + intros it Hit. apply H3. by right. }
  destruct Hpq as (Hpq1 & Hpq2 & Hpq3 & Hpq4 & Hpq5).
  apply (wheel_set ex ex now ws pq pq' tm _ b x _ tw I Hk Hx); simpl; try done.
  - intros i. rewrite elem_of_app, list_elem_of_singleton, (wi_mem0 b x i Hx). destruct (decide (i = tid)) as [->|Hi'].
    + rewrite lookup_insert_eq. split; [intros _; by eexists|by right].
    + rewrite lookup_insert_ne by done. split; [by intros [|]|by left].
  - apply list.NoDup_app. split; [by eapply wi_nodup0|]. split; [|apply list.NoDup_singleton].
    intros i (t' & Ht' & E)%(wi_mem0 b x i Hx) ->%list_elem_of_singleton. congruence.
  - intros i c t' Hc E. destruct (decide (i = tid)) as [->|Hi']; [|by rewrite lookup_insert_ne].
    rewrite lookup_insert_eq, Ht. split; intros [= <-]; simpl in E; congruence.
  - intros i t'. destruct (decide (i = tid)) as [->|Hi']; [rewrite lookup_insert_eq; intros [= <-] _; simpl; split; [lia|done]|].
    rewrite lookup_insert_ne by done. intros Ht' Hb. destruct (wi_home0 i t' b Ht' Hb) as (l & z & Hl & Hz & Hr & E).
    rewrite Hk in Hl. injection Hl as <-. rewrite Hx in Hz. injection Hz as <-. split; [done|].
    destruct Hfree as [E'|E']; [|congruence]. rewrite E' in E.
    assert (0 <= tr (t_expiration t') (tw_tick tw)) by (apply tr_above; [done|apply Z.divide_0_r|lia]). lia.
  - intros _. split; [rewrite Ebe; apply tr_divide|]. split; [|done]. rewrite Hi, Ebe. unfold tr. by rewrite Z.div_mul by lia.
  - intros it [->|[? ?]]%Hpq3; [left|by right]. simpl. split_and!; [done|done|done|lia].
  - intros c _ (it & -> & Hit)%list_elem_of_fmap. apply list_elem_of_fmap. exists it. split; [done|]. by apply Hpq5.
  - by right.
Qed.

Lemma wheel_remove ex now ws pq tm tid t b : wheel_inv ex now ws pq tm -> tm !! tid = Some t -> t_b t = Some b ->
  exists x, bucket_at b ws = Some x /\
    wheel_inv ex now (set_bucket b (mkBucket (b_expiration x) (filter (fun i => i <> tid) (b_timers x))) ws) pq
      (<[tid := set_b None t]> tm).
Proof.
  intros I Ht Hb. pose proof I as []. destruct (wi_home0 tid t b Ht Hb) as (tw & x & Hk & Hx & Hr & E). exists x.
  split; [done|]. apply (wheel_set ex ex now ws pq pq tm _ b x _ tw I Hk Hx); simpl; try done.
  - intros i. rewrite list_elem_of_filter, (wi_mem0 b x i Hx). destruct (decide (i = tid)) as [->|Hi'].
    + rewrite lookup_insert_eq. split; [by intros []|]. by intros (t' & [= <-] & ?).
    + rewrite lookup_insert_ne by done. split; [by intros []|done].
  - apply list.NoDup_filter. by eapply wi_nodup0.
  - intros i c t' Hc E'. destruct (decide (i = tid)) as [->|Hi']; [|by rewrite lookup_insert_ne].
    rewrite lookup_insert_eq, Ht. split; intros [= <-]; simpl in E'; congruence.
  - intros i t'. destruct (decide (i = tid)) as [->|Hi']; [by rewrite lookup_insert_eq; intros [= <-]|].
    rewrite lookup_insert_ne by done. intros Ht' Hb'. destruct (wi_home0 i t' b Ht' Hb') as (l & z & Hl & Hz & ? & ?).
    rewrite Hk in Hl. injection Hl as <-. rewrite Hx in Hz. by injection Hz as <-.
  - intros Hne. destruct (wi_exp0 b x Hx Hne) as (l & Hl & Hrest). rewrite Hk in Hl. by injection Hl as <-.
  - intros it Hit. destruct (decide (it_Value it = b)) as [Hv|]; [left|by right]. destruct (wi_pq0 it Hit) as (H1 & z & Hz & ? & ?).
    rewrite Hv in H1, Hz. rewrite Hx in Hz. by injection Hz as <-.
  - intros Hne. by destruct (wi_queued0 b x Hx Hne); [left|right].
  - intros ->. destruct (wi_ex0 b eq_refl) as (l & z & Hl & Hz & ?). rewrite Hk in Hl. injection Hl as <-. rewrite Hx in Hz. by injection Hz as <-.
Qed.

(** The bucket is empty again and out of the queue. *)
Lemma wheel_reset now ws pq tm b : wheel_inv (Some b) now ws pq tm ->
  (forall tid t, tm !! tid = Some t -> t_b t <> Some b) ->
  exists x, bucket_at b ws = Some x /\ wheel_inv None now (set_bucket b (mkBucket (-1) (b_timers x)) ws) pq tm.
Proof.
  intros I Hno. pose proof I as []. destruct (wi_ex0 b eq_refl) as (tw & x & Hk & Hx & E). exists x. split; [done|].
  apply (wheel_set (Some b) None now ws pq pq tm tm b x _ tw I Hk Hx); simpl; try done.
  - intros i. by apply wi_mem0.
  - by eapply wi_nodup0.
  - intros i t Ht Hb. by destruct (Hno i t Ht).
  - intros it Hit. right. split; [|done]. destruct (wi_pq0 it Hit) as (H1 & _). congruence.
  - intros c Hc. split; congruence.
Qed.

(** *** The clocks advance *)

Lemma bucket_at_clock c e ws : bucket_at c (set_clock e <$> ws) = bucket_at c ws.
Proof. unfold bucket_at. rewrite list_lookup_fmap. by destruct (ws !! c.1). Qed.

Lemma advanceClock_geo now ws e : geo_ok now ws -> clock ws <= e < 2 ^ 42 -> advanceClock e ws = set_clock e <$> ws.
Proof.
  intros G He. destruct (go_first now ws G) as (t0 & H0 & _). destruct (clock_level now ws 0%nat t0 G H0) as (_ & _ & Hc).
  apply advanceClock_spec; [lia| |].
  - intros k tw Hk. pose proof (go_lvl now ws G k tw Hk) as L. pose proof (lvl_tick_pos _ _ _ L).
    pose proof (lvl_tick_interval _ _ _ L). destruct (clock_level now ws k tw G Hk) as (? & _). destruct L. split; [lia|]. split; [done|lia].
  - intros k tw up Hk Hu. by destruct (geo_adj now ws k tw up G Hk Hu) as (? & ? & _).
Qed.

Lemma geo_clock now now' ws e : geo_ok now ws -> 0 <= e <= now' -> now' < 2 ^ 42 -> geo_ok now' (set_clock e <$> ws).
Proof.
  intros [] He Hn. split; [lia| | |].
  - destruct go_first0 as (tw & H0 & E). exists (set_clock e tw). by rewrite list_lookup_fmap, H0.
  - intros k t. rewrite list_lookup_fmap. destruct (ws !! k) as [tw|] eqn:Hk; [|done]. intros [= <-].
    pose proof (go_lvl0 k tw Hk) as L. pose proof (lvl_tick_pos _ _ _ L) as Hp. destruct L. pose proof (tr_bounds e (tw_tick tw) Hp).
    split; simpl; try done; [|apply tr_divide]. split; [|lia]. apply tr_above; [done|apply Z.divide_0_r|lia].
  - intros k t u. rewrite !list_lookup_fmap. destruct (ws !! k) as [tw|] eqn:Hk; [|done].
    destruct (ws !! S k) as [up|] eqn:Hu; [|done]. intros [= <-] [= <-]. simpl. destruct (go_up0 k tw up Hk Hu) as [E _].
    split; [done|]. symmetry. pose proof (go_lvl0 k tw Hk) as L. pose proof (lvl_tick_pos _ _ _ (go_lvl0 (S k) up Hu)).
    apply tr_tr; [by eapply lvl_tick_pos|done|]. rewrite E. destruct L as [_ _ -> _ _ _ _]. by exists WS; rewrite Z.mul_comm.
Qed.

Lemma clock_clock e now ws : geo_ok now ws -> clock (set_clock e <$> ws) = tr e tick0.
Proof.
  intros G. destruct (go_first now ws G) as (tw & H0 & E). unfold clock. rewrite list_lookup_fmap, H0. simpl. by rewrite E.
Qed.

(** The head of the queue is taken and the clocks advance to its expiration. *)
Lemma wheel_take now now' ws v rest tm : wheel_inv None now ws (v :: rest) tm -> now <= now' < 2 ^ 42 -> it_Priority v <= now' ->
  wheel_inv (Some (it_Value v)) now' (advanceClock (it_Priority v) ws) (heap_Remove0 (v :: rest)) tm /\
  clock ws <= clock (advanceClock (it_Priority v) ws).
Proof.
  intros [] Hn Hle. destruct (heap_Remove0_ok v rest wi_heap0) as [Hh Hp].
  pose proof (heap_head_min v rest wi_heap0) as Hmin. set (e := it_Priority v) in *. set (pq := heap_Remove0 (v :: rest)) in *.
  destruct (wi_pq0 v) as (_ & x & Hx & Ex & Hne); [by left|].
  destruct (wi_exp0 _ x Hx Hne) as (tw & Hk & Hd & Hidx & Hw). rewrite Ex in Hd, Hw.
  destruct (clock_level now ws _ tw wi_geo0 Hk) as (_ & _ & Hc0).
  rewrite (advanceClock_geo now ws e wi_geo0) by lia. rewrite (clock_clock e now ws wi_geo0).
  destruct (go_first now ws wi_geo0) as (t0 & H0 & E0). pose proof (go_lvl now ws wi_geo0 0%nat t0 H0) as L0.
  pose proof (tr_bounds e tick0 ltac:(lia)) as Hb0.
  assert (Hnd : NoDup (it_Value v :: (it_Value <$> pq))) by (change (NoDup (it_Value <$> v :: pq)); by rewrite Hp).
  apply list.NoDup_cons in Hnd as [Hnv Hnd].
  split. 2: { apply tr_above; [lia| |lia]. unfold clock. rewrite H0. simpl. rewrite <- E0. apply L0. }
  assert (Hlv : forall k l, ws !! k = Some l -> (set_clock e <$> ws) !! k = Some (set_clock e l) /\ tw_currentTime l <= tr e (tw_tick l) /\ 0 < tw_tick l).
  { intros k l Hl. rewrite list_lookup_fmap, Hl. split; [done|]. pose proof (go_lvl now ws wi_geo0 k l Hl) as L.
    pose proof (lvl_tick_pos _ _ _ L). split; [|done]. apply tr_above; [done|apply L|].
    destruct (clock_level now ws k l wi_geo0 Hl) as (? & _). lia. }
  split; try done.
  - apply (geo_clock now); [done|lia|lia].
  - intros b y tid. rewrite bucket_at_clock. apply wi_mem0.
  - intros b y. rewrite bucket_at_clock. apply wi_nodup0.
  - intros tid t b Ht Hb. destruct (wi_home0 tid t b Ht Hb) as (l & y & Hl & Hy & ? & ?). exists (set_clock e l), y.
    rewrite bucket_at_clock. split; [by apply Hlv|done].
  - intros b y Hy Hye. rewrite bucket_at_clock in Hy. destruct (wi_exp0 b y Hy Hye) as (l & Hl & ? & ? & Hwin).
    exists (set_clock e l). rewrite (clock_clock e now ws wi_geo0). destruct (Hlv _ _ Hl) as (Hl' & Hcl & _). split; [done|]. simpl.
    split; [done|]. split; [done|]. split; [|lia]. destruct (wi_queued0 b y Hy Hye) as [|Hq]; [done|].
    apply list_elem_of_fmap in Hq as (it & -> & Hit). destruct (wi_pq0 it Hit) as (_ & z & Hz & Ez & _). rewrite Hy in Hz. injection Hz as <-.
    rewrite Ez. specialize (Hmin it Hit). lia.
  - intros it Hit. assert (Hit' : it ∈ v :: rest) by (rewrite <- Hp; by right). destruct (wi_pq0 it Hit') as (_ & y & Hy & ?).
    split; [|exists y; by rewrite bucket_at_clock]. intros [= E]. apply Hnv. rewrite E. apply list_elem_of_fmap. by exists it.
  - intros b y Hy Hye. rewrite bucket_at_clock in Hy. destruct (wi_queued0 b y Hy Hye) as [|Hq]; [done|].
    apply list_elem_of_fmap in Hq as (it & -> & Hit). rewrite <- Hp in Hit. apply elem_of_cons in Hit as [->|Hit]; [by left|right].
    apply list_elem_of_fmap. by exists it.
  - intros b [= <-]. exists (set_clock e tw), x. rewrite bucket_at_clock. split; [by apply Hlv|]. split; [done|]. rewrite Ex. simpl.
    symmetry. apply tr_multiple; [by apply (Hlv _ _ Hk)|done].
Qed.

(** ** Where the timers are *)

Definition oneshot (t : Timer) : bool := match t_task t with TaskFn _ => true | TaskSchedule _ _ => false end.

(** A schedule always has a next time, at least a millisecond later. *)
Definition task_ok (t : Timer) : Prop :=
  match t_task t with
  | TaskFn _ => True
  | TaskSchedule Next _ => 0 <= t_expiration t /\
      forall e, 0 <= e < 2 ^ 43 -> e < TimeToMS zero (Next (MSToTime e)) < 2 ^ 44
  end.

Definition pending (t : Timer) : nat := match t_b t with Some _ => 1 | None => 0 end.
Definition fired_ids (s : tws) : list nat := (fun x => x.1.1) <$> ts_fired s.

(** How often a timer is somewhere: in a bucket, in a goroutine that was started for it,
    stopped, and, for a one-shot timer, run. *)
Definition places (s : tws) (tid : nat) (t : Timer) : nat :=
  (pending t + occ tid (ts_spawned s) + occ tid (ts_stopped s) + if oneshot t then occ tid (fired_ids s) else 0)%nat.

(** [hand]: the timers that the running goroutine holds. *)
Record book (hand : list nat) (s : tws) : Prop := {
  bk_known : forall tid, tid ∈ hand ++ ts_spawned s ++ ts_stopped s ++ fired_ids s -> is_Some (ts_timers s !! tid);
  bk_fresh : forall tid t, ts_timers s !! tid = Some t -> (tid < ts_next s)%nat;
  bk_fired : forall tid e n, (tid, e, n) ∈ ts_fired s -> e < n + tick0;
  bk_count : forall tid t, ts_timers s !! tid = Some t -> (places s tid t + occ tid hand = 1)%nat;
  bk_task : forall tid t, ts_timers s !! tid = Some t -> task_ok t /\ t_expiration t < 2 ^ 44;
  bk_spawned : forall tid t, tid ∈ ts_spawned s -> ts_timers s !! tid = Some t -> t_expiration t < clock (ts_wheels s) + tick0 }.

Record inv (ex : option bref) (hand : list nat) (s : tws) : Prop := {
  iv_wheel : wheel_inv ex (ts_now s) (ts_wheels s) (ts_pq s) (ts_timers s);
  iv_book : book hand s;
  iv_idle : ts_sent s = None /\ ts_hand s = (fun b => (b, false)) <$> ex /\ ts_adding s = [] }.

(** A step on one timer. *)
Lemma book_move hand hand' s s' tid t t' : book hand s -> ts_timers s !! tid = Some t ->
  ts_timers s' = <[tid := t']> (ts_timers s) -> ts_next s' = ts_next s -> clock (ts_wheels s) <= clock (ts_wheels s') ->
  (forall i, i <> tid -> occ i (ts_spawned s') = occ i (ts_spawned s) /\ occ i (ts_stopped s') = occ i (ts_stopped s) /\
    occ i (fired_ids s') = occ i (fired_ids s) /\ occ i hand' = occ i hand) ->
  (places s' tid t' + occ tid hand' = 1)%nat ->
  (forall i e n, (i, e, n) ∈ ts_fired s' -> (i, e, n) ∈ ts_fired s \/ e < n + tick0) ->
  task_ok t' /\ t_expiration t' < 2 ^ 44 ->
  (tid ∈ ts_spawned s' -> t_expiration t' < clock (ts_wheels s') + tick0) -> book hand' s'.
Proof.
  intros [] Ht Htm Hnx Hcl Hocc Hcount Hfired Htask Hsp. split.
  - intros i Hi. rewrite Htm. destruct (decide (i = tid)) as [->|Hne]; [rewrite lookup_insert_eq; eauto|].
    rewrite lookup_insert_ne by done. apply bk_known0. destruct (Hocc i Hne) as (E1 & E2 & E3 & E4).
    apply occ_pos. apply occ_pos in Hi. rewrite !occ_app in *. lia.
  - intros i u. rewrite Htm, Hnx. destruct (decide (i = tid)) as [->|Hne]; [by eauto|].
    rewrite lookup_insert_ne by done. apply bk_fresh0.
  - intros i e n Hi. destruct (Hfired i e n Hi); [by eapply bk_fired0|done].
  - intros i u. rewrite Htm. destruct (decide (i = tid)) as [->|Hne]; [by rewrite lookup_insert_eq; intros [= <-]|].
    rewrite lookup_insert_ne by done. intros Hu. specialize (bk_count0 i u Hu). unfold places in *.
    destruct (Hocc i Hne) as (-> & -> & -> & ->). done.
  - intros i u. rewrite Htm. destruct (decide (i = tid)) as [->|Hne]; [by rewrite lookup_insert_eq; intros [= <-]|].
    rewrite lookup_insert_ne by done. apply bk_task0.
  - intros i u Hi. rewrite Htm. destruct (decide (i = tid)) as [->|Hne]; [rewrite lookup_insert_eq; intros [= <-]; by apply Hsp|].
    rewrite lookup_insert_ne by done. intros Hu. destruct (Hocc i Hne) as (E & _). apply occ_pos in Hi. rewrite E in Hi.
    apply occ_pos in Hi. specialize (bk_spawned0 i u Hi Hu). lia.
Qed.

Lemma occ_other (i tid : nat) (l : list nat) : i <> tid -> occ i (tid :: l) = occ i l.
Proof. intros Hne. simpl. by rewrite (proj2 (Nat.eqb_neq _ _) Hne). Qed.
Lemma occ_self (tid : nat) (l : list nat) : occ tid (tid :: l) = S (occ tid l).
Proof. simpl. by rewrite Nat.eqb_refl. Qed.

(** A timer in hand is nowhere else. *)
Lemma hand_nowhere hand s tid t : book (tid :: hand) s -> ts_timers s !! tid = Some t ->
  t_b t = None /\ occ tid (ts_spawned s) = 0%nat /\ occ tid (ts_stopped s) = 0%nat /\ occ tid hand = 0%nat /\
  (oneshot t = true -> occ tid (fired_ids s) = 0%nat).
Proof.
  intros B Ht. pose proof (bk_count _ _ B tid t Ht) as H. rewrite occ_self in H. unfold places, pending in H.
  destruct (t_b t); [lia|]. split_and!; try done; try lia. intros E. rewrite E in H. lia.
Qed.

Lemma known_hand ex hand s tid : inv ex (tid :: hand) s -> exists t, ts_timers s !! tid = Some t.
Proof. intros I. apply (bk_known _ _ (iv_book _ _ _ I)). by left. Qed.

(** What an addition leaves alone. *)
Record frame (ex : option bref) (tid : nat) (s s' : tws) : Prop := {
  fr_now : ts_now s' = ts_now s;
  fr_clock : clock (ts_wheels s') = clock (ts_wheels s);
  fr_other : forall i, i <> tid -> ts_timers s' !! i = ts_timers s !! i;
  fr_self : forall t, ts_timers s !! tid = Some t -> exists t', ts_timers s' !! tid = Some t' /\ t_task t' = t_task t /\
    forall b, ex = Some b -> t_b t' <> Some b }.

Lemma add_frame_trans ex tid s1 s2 s3 : frame ex tid s1 s2 -> frame ex tid s2 s3 -> frame ex tid s1 s3.
Proof.
  intros [] []. split; [congruence|congruence| |].
  - intros i Hi. by rewrite fr_other1, fr_other0.
  - intros t Ht. destruct (fr_self0 t Ht) as (t2 & H2 & E2 & _). destruct (fr_self1 t2 H2) as (t3 & H3 & E3 & ?).
    exists t3. split; [done|]. split; [congruence|done].
Qed.

Lemma with_wheels_id s : with_wheels (ts_wheels s) s = s.
Proof. by destruct s. Qed.

Lemma set_bucket_twice b x y ws : set_bucket b y (set_bucket b x ws) = set_bucket b y ws.
Proof.
  unfold set_bucket. rewrite list_alter_alter_eq. apply list_alter_ext; [|done]. intros tw _. unfold compose. simpl.
  by rewrite list_insert_insert_eq.
Qed.

#[local] Arguments add_locate : simpl never.

Lemma TimeWheel_add_eq locked tid s t ws place : ts_timers s !! tid = Some t ->
  add_locate add_fuel 0 (t_expiration t) (ts_wheels s) = Some (ws, place) ->
  TimeWheel_add locked tid s =
  match place with
  | None => Some (false, with_wheels ws s)
  | Some (b, e) => s ← (bucket_Add locked tid b (with_wheels ws s) ≫= add_offer b e); Some (true, s)
  end.
Proof.
  intros Ht. unfold TimeWheel_add. generalize (add_locate add_fuel 0). intros locate E. rewrite Ht. simpl. rewrite E. simpl.
  destruct place as [[b e]|]; [|done]. by destruct (bucket_Add _ _ _ _).
Qed.

(** The entry of a timer into a bucket, and what it changes. *)
Lemma enter_eq locked tid b be s t x : ts_timers s !! tid = Some t -> bucket_at b (ts_wheels s) = Some x -> locked <> Some b ->
  exists s', bucket_Add locked tid b s ≫= add_offer b be = Some s' /\
    ts_wheels s' = set_bucket b (mkBucket be (b_timers x ++ [tid])) (ts_wheels s) /\
    ts_timers s' = <[tid := set_b (Some b) t]> (ts_timers s) /\
    ts_pq s' = (if b_expiration x =? be then ts_pq s else heap_Push (mkItem b be) (ts_pq s)) /\
    ts_now s' = ts_now s /\ ts_next s' = ts_next s /\ ts_spawned s' = ts_spawned s /\ ts_stopped s' = ts_stopped s /\
    ts_fired s' = ts_fired s /\ ts_sent s' = ts_sent s /\ ts_hand s' = ts_hand s /\ ts_adding s' = ts_adding s.
Proof.
  intros Ht Hx Hne. unfold bucket_Add. rewrite decide_False by done. rewrite Hx. simpl. rewrite Ht. simpl.
  unfold add_offer, bucket_SetExpiration. simpl. rewrite bucket_at_set, decide_True by done. simpl. rewrite set_bucket_twice.
  eexists. split; [reflexivity|]. destruct (b_expiration x =? be); simpl; by split_and!.
Qed.

Lemma TimeWheel_add_ok ex hand tid t s : inv ex (tid :: hand) s -> ts_timers s !! tid = Some t ->
  if t_expiration t <? clock (ts_wheels s) + tick0 then TimeWheel_add ex tid s = Some (false, s)
  else exists s', TimeWheel_add ex tid s = Some (true, s') /\ inv ex hand s' /\ frame ex tid s s'.
Proof.
  intros [IW IB II] Ht. destruct (hand_nowhere hand s tid t IB Ht) as (Hb & Hsp & Hst & Hh & Hf).
  destruct (bk_task _ _ IB tid t Ht) as [Htask He]. pose proof (wi_geo _ _ _ _ _ IW) as G.
  destruct (go_first _ _ G) as (tw & Hk & Etick).
  destruct (add_locate_spec _ add_fuel 0 (t_expiration t) (ts_wheels s) tw G Hk He) as (ws' & place & E & Ex & G' & Hp);
    [unfold add_fuel; lia|by left|].
  assert (Hc : clock (ts_wheels s) = tw_currentTime tw) by (unfold clock; by rewrite Hk).
  rewrite Hc, <- Etick, (TimeWheel_add_eq ex tid s t ws' place Ht E). destruct place as [[b be]|].
  2: { destruct Hp as [-> Hp]. rewrite (proj2 (Z.ltb_lt _ _) Hp). by rewrite with_wheels_id. }
  destruct Hp as (Hlow & l & Hl & Hhome). rewrite (proj2 (Z.ltb_ge _ _) Hlow).
  pose proof (wheel_ext _ _ _ _ _ _ IW Ex G') as IW'.
  destruct (wheel_place _ _ _ _ _ _ _ _ _ _ IW' Ht Hb Hl Hhome He) as (x & Hx & Hne & IW2).
  destruct (enter_eq ex tid b be (with_wheels ws' s) t x Ht Hx Hne) as (s' & Es & F1 & F2 & F3 & F4 & F5 & F6 & F7 & F8 & F9 & F10 & F11).
  rewrite Es. exists s'. split; [done|]. clear Es. cbn [ts_wheels ts_timers ts_pq ts_now ts_next ts_spawned ts_stopped ts_fired ts_sent ts_hand ts_adding with_wheels] in *.
  assert (Hcl : clock (ts_wheels s') = clock (ts_wheels s)).
  { rewrite F1, clock_set. apply (clock_ext _ _ Ex). by eapply geo_length. }
  split; [split|].
  - by rewrite F1, F2, F3, F4.
  - apply (book_move (tid :: hand) hand s s' tid t (set_b (Some b) t) IB Ht F2 F5); [lia| | | |done|].
    + intros i Hi. unfold fired_ids. rewrite F6, F7, F8, occ_other by done. done.
    + unfold places, fired_ids, pending. rewrite F6, F7, F8. simpl. change (oneshot (set_b (Some b) t)) with (oneshot t).
      destruct (oneshot t); [specialize (Hf eq_refl); unfold fired_ids in Hf|]; lia.
    + intros i e n. rewrite F8. by left.
    + rewrite F6. intros H%occ_pos. lia.
  - rewrite F9, F10, F11. apply II.
  - split; [done|done| |].
    + intros i Hi. by rewrite F2, lookup_insert_ne.
    + intros u Hu. rewrite F2, lookup_insert_eq. eexists. split; [reflexivity|]. rewrite Ht in Hu. injection Hu as <-.
      split; [done|]. intros c -> [= ->]. done.
Qed.

Lemma bucket_remove_ok ex hand tid t b s : inv ex hand s -> ts_timers s !! tid = Some t -> t_b t = Some b ->
  exists s', bucket_remove b tid s = Some (true, s') /\ inv ex (tid :: hand) s' /\
    ts_timers s' = <[tid := set_b None t]> (ts_timers s) /\ clock (ts_wheels s') = clock (ts_wheels s) /\ ts_now s' = ts_now s.
Proof.
  intros [IW IB II] Ht Hb. destruct (wheel_remove _ _ _ _ _ _ _ _ IW Ht Hb) as (x & Hx & IW').
  unfold bucket_remove. rewrite Ht. simpl. rewrite decide_True by done. rewrite Hx. simpl.
  set (y := mkBucket (b_expiration x) (filter (fun i => i <> tid) (b_timers x))) in *.
  eexists. split; [reflexivity|]. split; [|simpl; by rewrite clock_set]. split; [done| |done].
  apply (book_move hand (tid :: hand) s _ tid t (set_b None t) IB Ht); simpl; try done.
  - by rewrite clock_set.
  - intros i Hi. by rewrite (proj2 (Nat.eqb_neq _ _) Hi).
  - pose proof (bk_count _ _ IB tid t Ht) as H. unfold places, pending, fired_ids in *. rewrite Hb in H. simpl.
    change (oneshot (set_b None t)) with (oneshot t). rewrite Nat.eqb_refl. lia.
  - intros i e n. by left.
  - exact (bk_task _ _ IB tid t Ht).
  - intros Hsp%occ_pos. pose proof (bk_count _ _ IB tid t Ht) as H. unfold places, pending in H. rewrite Hb in H. lia.
Qed.

(** The timer in hand is put into a list of the state. *)
Lemma book_put hand s s' tid t : book (tid :: hand) s -> ts_timers s !! tid = Some t ->
  ts_timers s' = ts_timers s -> ts_next s' = ts_next s -> ts_wheels s' = ts_wheels s ->
  (ts_spawned s' = ts_spawned s ++ [tid] /\ t_expiration t < clock (ts_wheels s) + tick0 /\
     ts_stopped s' = ts_stopped s /\ ts_fired s' = ts_fired s \/
   ts_spawned s' = ts_spawned s /\ ts_stopped s' = ts_stopped s ++ [tid] /\ ts_fired s' = ts_fired s \/
   ts_spawned s' = ts_spawned s /\ ts_stopped s' = ts_stopped s /\ oneshot t = true /\
     exists e n, ts_fired s' = ts_fired s ++ [(tid, e, n)] /\ e < n + tick0) ->
  book hand s'.
Proof.
  intros B Ht Htm Hnx Hws Hcase. destruct (hand_nowhere hand s tid t B Ht) as (Hb & Hsp & Hst & Hh & Hf).
  assert (Htm' : ts_timers s' = <[tid := t]> (ts_timers s)) by (by rewrite insert_id).
  apply (book_move (tid :: hand) hand s s' tid t t B Ht Htm' Hnx).
  - by rewrite Hws.
  - intros i Hi. rewrite occ_other by done. pose proof (occ_other i tid [] Hi) as Ho. simpl in Ho. unfold fired_ids.
    destruct Hcase as [(-> & _ & -> & ->)|[(-> & -> & ->)|(-> & -> & _ & e & n & -> & _)]];
      rewrite ?fmap_app, ?occ_app; simpl; rewrite ?Ho; lia.
  - pose proof (Nat.eqb_refl tid) as Hr. unfold places, pending, fired_ids in *. rewrite Hb.
    destruct Hcase as [(-> & _ & -> & ->)|[(-> & -> & ->)|(-> & -> & Ho & e & n & -> & _)]];
      rewrite ?fmap_app, ?occ_app; simpl; rewrite ?Hr; [destruct (oneshot t); [rewrite Hf by done|]; lia..|].
    rewrite Ho, Hf by done. lia.
  - intros i e n. destruct Hcase as [(_ & _ & _ & ->)|[(_ & _ & ->)|(_ & _ & _ & e' & n' & -> & Hlt)]]; [by left..|].
    rewrite elem_of_app, list_elem_of_singleton. intros [|[= _ -> ->]]; [by left|by right].
  - exact (bk_task _ _ B tid t Ht).
  - rewrite Hws. destruct Hcase as [(_ & ? & _)|Hcase]; [done|]. intros Hin%occ_pos.
    destruct Hcase as [(E & _)|(E & _)]; rewrite E in Hin; lia.
Qed.

(** Running a schedule's function is only recorded. *)
Lemma book_fire hand s tid e t : book hand s -> ts_timers s !! tid = Some t -> oneshot t = false -> e < ts_now s + tick0 ->
  book hand (fire tid e s).
Proof.
  intros B Ht Ho He. apply (book_move hand hand s _ tid t t B Ht); simpl; try done.
  - by rewrite insert_id.
  - intros i Hi. unfold fired_ids. simpl. rewrite fmap_app, occ_app. simpl. rewrite (proj2 (Nat.eqb_neq _ _) Hi). lia.
  - pose proof (bk_count _ _ B tid t Ht) as H. unfold places in *. rewrite Ho in *. done.
  - intros i e' n. rewrite elem_of_app, list_elem_of_singleton. intros [|[= _ -> ->]]; [by left|by right].
  - exact (bk_task _ _ B tid t Ht).
  - intros Hsp. by apply (bk_spawned _ _ B tid).
Qed.

Lemma frame_same ex tid s s' : ts_now s' = ts_now s -> ts_wheels s' = ts_wheels s -> ts_timers s' = ts_timers s ->
  (forall t, ts_timers s !! tid = Some t -> t_b t = None) -> frame ex tid s s'.
Proof.
  intros E1 E2 E3 Hb. split; [done|by rewrite E2|by intros; rewrite E3|]. intros t Ht. exists t. rewrite E3.
  split; [done|]. split; [done|]. intros b _. rewrite (Hb t Ht). done.
Qed.

(** What a recursive addition has to do for [run_task] to be right. *)
Definition again_ok (ex : option bref) (hand : list nat) (tid : nat) (t : Timer) (s : tws) (again : nat -> tws -> option tws) : Prop :=
  forall s1 t1, inv ex (tid :: hand) s1 -> ts_timers s1 !! tid = Some t1 -> t_expiration t < t_expiration t1 ->
    clock (ts_wheels s1) = clock (ts_wheels s) ->
    exists s2, again tid s1 = Some s2 /\ inv ex hand s2 /\ frame ex tid s1 s2.

Lemma run_task_ok ex hand tid t s again : inv ex (tid :: hand) s -> ts_timers s !! tid = Some t ->
  t_expiration t < clock (ts_wheels s) + tick0 -> again_ok ex hand tid t s again ->
  exists s', run_task zero again tid s = Some s' /\ inv ex hand s' /\ frame ex tid s s'.
Proof.
  intros I Ht He Hagain. pose proof I as [IW IB II]. destruct (hand_nowhere hand s tid t IB Ht) as (Hb & Hsp & _ & _ & _).
  destruct (go_first _ _ (wi_geo _ _ _ _ _ IW)) as (tw0 & Hk0 & _).
  destruct (clock_level _ _ _ _ (wi_geo _ _ _ _ _ IW) Hk0) as (_ & _ & Hc).
  destruct (bk_task _ _ IB tid t Ht) as [Htask Hmax]. unfold run_task. rewrite Ht. simpl.
  destruct (t_task t) as [f|Next f] eqn:Etask.
  - eexists. split; [reflexivity|]. split; [split; [done| |done]|].
    + eapply (book_put hand s _ tid t IB Ht); try done. right; right. unfold oneshot. rewrite Etask.
      split_and!; try done. eexists _, _. split; [reflexivity|]. lia.
    + apply frame_same; try done. intros u Hu. by rewrite Ht in Hu; injection Hu as <-.
  - unfold task_ok in Htask. rewrite Etask in Htask. destruct Htask as [He0 Hnext].
    pose proof (go_now _ _ (wi_geo _ _ _ _ _ IW)) as Hn. destruct (Hnext (t_expiration t)) as [Hlt Hlt2]; [lia|].
    set (e := TimeToMS zero (Next (MSToTime (t_expiration t)))) in *. set (t1 := set_expiration e t).
    set (s1 := with_timers (<[tid := t1]> (ts_timers s)) s).
    assert (Hne : forall c i, t_b t1 = Some c -> i = tid -> False) by (unfold t1; simpl; congruence).
    assert (I1 : inv ex (tid :: hand) s1).
    { split; [|apply (book_move (tid :: hand) (tid :: hand) s s1 tid t t1 IB Ht); try done|done].
      - destruct IW. split; try done.
        + intros b x i Hx. rewrite (wi_mem0 b x i Hx). simpl. destruct (decide (i = tid)) as [->|Hi]; [|by rewrite lookup_insert_ne].
          rewrite lookup_insert_eq, Ht. split; intros (u & [= <-] & E); unfold t1 in *; simpl in *; congruence.
        + intros i u b. simpl. destruct (decide (i = tid)) as [->|Hi]; [|rewrite lookup_insert_ne by done; apply wi_home0].
          rewrite lookup_insert_eq. intros [= <-] E. unfold t1 in E. simpl in E. congruence.
      - apply (bk_count _ _ IB tid t Ht).
      - intros i e' n. by left.
      - unfold task_ok, t1. simpl. rewrite Etask. split; [split; [lia|done]|lia].
      - intros Hin%occ_pos. simpl in Hin. lia. }
    destruct (Hagain s1 t1 I1) as (s2 & -> & I2 & F); [simpl; by rewrite lookup_insert_eq|unfold t1; simpl; lia|done|].
    simpl. eexists. split; [reflexivity|].
    destruct (fr_self _ _ _ _ F t1) as (t2 & Ht2 & E2 & Hb2); [simpl; by rewrite lookup_insert_eq|]. pose proof I2 as [IW2 IB2 II2].
    pose proof (fr_now _ _ _ _ F) as Hn2. simpl in Hn2. split; [split; [done| |done]|].
    + apply (book_fire hand s2 tid _ t2); [done|done|unfold oneshot; by rewrite E2; unfold t1; simpl; rewrite Etask|lia].
    + destruct F as [F1 F2 F3 F4]. split; [done|done| |].
      * intros i Hi. change (ts_timers s2 !! i = ts_timers s !! i). rewrite F3 by done. simpl. by rewrite lookup_insert_ne.
      * intros u Hu. rewrite Ht in Hu. injection Hu as <-. exists t2. split; [done|]. by rewrite E2.
Qed.

Lemma addOrRun_ok fuel ex hand tid t s : inv ex (tid :: hand) s -> ts_timers s !! tid = Some t ->
  (0 < fuel)%nat -> clock (ts_wheels s) + tick0 - t_expiration t < Z.of_nat fuel ->
  exists s', addOrRun zero fuel ex tid s = Some s' /\ inv ex hand s' /\ frame ex tid s s'.
Proof.
  revert s t. induction fuel as [|fuel IH]; intros s t I Ht Hf Hfuel; [lia|]. cbn [addOrRun].
  pose proof (TimeWheel_add_ok ex hand tid t s I Ht) as Hadd.
  destruct (Z.ltb_spec (t_expiration t) (clock (ts_wheels s) + tick0)) as [Hx|Hx].
  2: { destruct Hadd as (s' & -> & ? & ?). simpl. by exists s'. }
  rewrite Hadd. simpl. rewrite Ht. simpl. destruct (t_isAsync t).
  - pose proof I as [IW IB II]. destruct (hand_nowhere hand s tid t IB Ht) as (Hb & _).
    eexists. split; [reflexivity|]. split; [split; [done| |done]|].
    + apply (book_put hand s _ tid t IB Ht); try done. by left.
    + apply frame_same; try done. intros u Hu. rewrite Ht in Hu. by injection Hu as <-.
  - apply (run_task_ok ex hand tid t); [done|done|done|]. intros s1 t1 I1 Ht1 He1 Hc1. apply (IH s1 t1); [done|done|lia|lia].
Qed.

Lemma level0_clock now s : geo_ok now (ts_wheels s) -> level0 s = clock (ts_wheels s) + tick0.
Proof.
  intros G. destruct (go_first _ _ G) as (tw & Hk & E). unfold level0, clock. rewrite Hk. simpl. by rewrite E.
Qed.

Lemma run_fuel_ok ex hand tid t s : inv ex (tid :: hand) s -> ts_timers s !! tid = Some t ->
  exists s', addOrRun zero (run_fuel tid s) ex tid s = Some s' /\ inv ex hand s' /\ frame ex tid s s'.
Proof.
  intros I Ht. pose proof (wi_geo _ _ _ _ _ (iv_wheel _ _ _ I)) as G.
  apply (addOrRun_ok _ ex hand tid t); [done|done|unfold run_fuel; rewrite Ht; lia|].
  unfold run_fuel. rewrite Ht, (level0_clock _ _ G). lia.
Qed.

(** ** The loop *)

Lemma flush_timers_ok b l s : inv (Some b) [] s -> NoDup l ->
  (forall tid, tid ∈ l -> exists t, ts_timers s !! tid = Some t /\ t_b t = Some b) ->
  (forall tid t, ts_timers s !! tid = Some t -> t_b t = Some b -> tid ∈ l) ->
  exists s', flush_timers zero b l s = Some s' /\ inv (Some b) [] s' /\
    forall tid t, ts_timers s' !! tid = Some t -> t_b t <> Some b.
Proof.
  revert s. induction l as [|tid l IH]; intros s I Hnd Hin Hall.
  { exists s. split; [done|]. split; [done|]. intros i t Ht Hb. by apply (not_elem_of_nil i), (Hall i t). }
  apply list.NoDup_cons in Hnd as [Hnot Hnd]. destruct (Hin tid) as (t & Ht & Hb); [by left|].
  destruct (bucket_remove_ok _ _ _ _ _ _ I Ht Hb) as (s1 & E1 & I1 & T1 & C1 & N1). simpl. rewrite E1. simpl.
  assert (Ht1 : ts_timers s1 !! tid = Some (set_b None t)) by (by rewrite T1, lookup_insert_eq).
  destruct (run_fuel_ok _ _ _ _ _ I1 Ht1) as (s2 & E2 & I2 & [_ _ F3 F4]). rewrite E2. simpl.
  assert (Hother : forall i, i <> tid -> ts_timers s2 !! i = ts_timers s !! i).
  { intros i Hi. by rewrite F3, T1, lookup_insert_ne. }
  apply (IH s2 I2 Hnd).
  - intros i Hi. rewrite Hother by (by intros ->). apply Hin. by right.
  - intros i u Hu Hbu. destruct (decide (i = tid)) as [->|Hne].
    + destruct (F4 _ Ht1) as (t' & Ht' & _ & Hnb). rewrite Hu in Ht'. injection Ht' as <-. by destruct (Hnb b eq_refl).
    + rewrite Hother in Hu by done. specialize (Hall i u Hu Hbu). by apply elem_of_cons in Hall as [|].
Qed.

Lemma wheel_now ex now now' ws pq tm : wheel_inv ex now ws pq tm -> now <= now' < 2 ^ 42 -> wheel_inv ex now' ws pq tm.
Proof. intros [] Hn. split; try done. by eapply geo_mono. Qed.

Lemma book_clock hand s s' : book hand s -> ts_timers s' = ts_timers s -> ts_next s' = ts_next s ->
  ts_spawned s' = ts_spawned s -> ts_stopped s' = ts_stopped s -> ts_fired s' = ts_fired s ->
  clock (ts_wheels s) <= clock (ts_wheels s') -> book hand s'.
Proof.
  intros [] E1 E2 E3 E4 E5 Hc. split; unfold places, fired_ids in *; rewrite ?E1, ?E2, ?E3, ?E4, ?E5; try done.
  intros tid t Hs Ht. specialize (bk_spawned0 tid t Hs Ht). lia.
Qed.

Lemma loop_turn_ok now s : inv None [] s -> 0 <= now < 2 ^ 42 -> exists s', loop_turn zero now s = Some s' /\ inv None [] s'.
Proof.
  intros [IW IB (E1 & E2 & E3)] Hn. pose proof (go_now _ _ (wi_geo _ _ _ _ _ IW)) as Hn0.
  unfold loop_turn, DelayQueue_Poll. rewrite E1. unfold PeekAndShift.
  assert (Hidle : exists s', Some (see_clock now (with_loop None (ts_hand s) (with_pq (ts_pq s) s))) = Some s' /\ ts_sent s' = None /\ inv None [] s').
  { eexists. split; [reflexivity|]. split; [done|]. split; [|by apply (book_clock [] s)|by rewrite E2]. simpl. apply (wheel_now _ (ts_now s)); [done|lia]. }
  destruct (ts_pq s) as [|v rest] eqn:Epq.
  { destruct Hidle as (s' & E & Es & I'). simpl in *. injection E as <-. simpl. by eexists. }
  destruct (Z.ltb_spec now (it_Priority v)) as [Hlt|Hge].
  { destruct Hidle as (s' & E & Es & I'). simpl in *. injection E as <-. simpl. by eexists. }
  clear Hidle. cbn [fst snd fmap option_fmap option_map mbind option_bind]. set (b := it_Value v). set (pq' := heap_Remove0 (v :: rest)).
  destruct (wheel_take (ts_now s) (ts_now s `max` now) (ts_wheels s) v rest (ts_timers s) IW ltac:(lia) ltac:(lia)) as [IW1 Hcl].
  destruct (wi_pq _ _ _ _ _ IW v) as (_ & x & Hx & Ex & _); [by left|].
  set (s0 := see_clock now (with_loop (Some b) (ts_hand s) (with_pq pq' s))).
  change (ts_sent s0) with (Some b). unfold loop_receive. change (ts_hand s0) with (ts_hand s). rewrite E2.
  change (ts_sent s0) with (Some b). cbn [mbind option_bind fmap option_fmap option_map].
  unfold loop_flush. cbn [ts_hand with_loop]. change (ts_wheels (with_loop _ _ s0)) with (ts_wheels s). fold b in Hx. rewrite Hx. cbn [mbind option_bind]. rewrite Ex.
  set (s1 := with_wheels (advanceClock (it_Priority v) (ts_wheels s)) (with_loop None (Some (b, false)) s0)).
  assert (I1 : inv (Some b) [] s1) by (split; [done|by apply (book_clock [] s)|done]).
  destruct (wi_ex _ _ _ _ _ IW1 b eq_refl) as (tw & y & Hk & Hy & _).
  unfold bucket_Flush. change (ts_wheels s1) with (advanceClock (it_Priority v) (ts_wheels s)). rewrite Hy. cbn [mbind option_bind].
  destruct (flush_timers_ok b (b_timers y) s1 I1) as (s2 & -> & [IW2 IB2 (F1 & F2 & F3)] & Hno).
  - by eapply (wi_nodup _ _ _ _ _ IW1).
  - intros tid. by apply (wi_mem _ _ _ _ _ IW1 b y).
  - intros tid t Ht Hb. apply (wi_mem _ _ _ _ _ IW1 b y tid Hy). by exists t.
  - cbn [mbind option_bind]. destruct (wheel_reset _ _ _ _ _ IW2 Hno) as (z & Hz & IW3). unfold loop_reset. cbn [ts_hand with_loop].
    unfold bucket_SetExpiration. change (ts_wheels (with_loop _ _ s2)) with (ts_wheels s2). rewrite Hz. simpl. eexists. split; [reflexivity|]. split; [done| |done].
    apply (book_clock [] s2); try done. simpl. by rewrite clock_set.
Qed.

(** ** Serial runs *)

Lemma new_timer_ok now t s : inv None [] s -> t_b t = None -> task_ok t -> t_expiration t < 2 ^ 44 -> 0 <= now < 2 ^ 42 ->
  inv None [ts_next s] (see_clock now (new_timer t s)) /\ ts_timers (see_clock now (new_timer t s)) !! ts_next s = Some t.
Proof.
  intros [IW IB II] Hb Htask He Hn. pose proof (go_now _ _ (wi_geo _ _ _ _ _ IW)) as Hn0.
  assert (Hf : ts_timers s !! ts_next s = None).
  { destruct (ts_timers s !! ts_next s) as [u|] eqn:E; [|done]. pose proof (bk_fresh _ _ IB _ u E). lia. }
  assert (Hz : forall l, (forall i, i ∈ l -> i ∈ ts_spawned s ++ ts_stopped s ++ fired_ids s) -> occ (ts_next s) l = 0%nat).
  { intros l Hl. destruct (occ (ts_next s) l) eqn:E; [done|]. exfalso. assert (Hin : ts_next s ∈ l) by (apply occ_pos; lia).
    destruct (bk_known _ _ IB _ (Hl _ Hin)) as [u Hu]. congruence. }
  split; [|simpl; by rewrite lookup_insert_eq]. split; [| |done].
  - simpl. apply (wheel_now _ (ts_now s)); [|lia]. destruct IW. split; try done.
    + intros b x i Hx. rewrite (wi_mem0 b x i Hx). destruct (decide (i = ts_next s)) as [->|Hi]; [|by rewrite lookup_insert_ne].
      rewrite lookup_insert_eq, Hf. split; intros (u & E & ?); congruence.
    + intros i u b. destruct (decide (i = ts_next s)) as [->|Hi]; [rewrite lookup_insert_eq; intros [= <-]; congruence|].
      rewrite lookup_insert_ne by done. apply wi_home0.
  - destruct IB. split; simpl.
    + intros i [->|Hi]%elem_of_cons; [by rewrite lookup_insert_eq|]. destruct (decide (i = ts_next s)) as [->|Hne]; [by rewrite lookup_insert_eq|].
      rewrite lookup_insert_ne by done. by apply bk_known0.
    + intros i u. destruct (decide (i = ts_next s)) as [->|Hi]; [lia|]. rewrite lookup_insert_ne by done. intros Hu.
      specialize (bk_fresh0 i u Hu). lia.
    + done.
    + intros i u. destruct (decide (i = ts_next s)) as [->|Hi].
      * rewrite lookup_insert_eq. intros [= <-]. unfold places, pending. change (fired_ids (see_clock now (new_timer t s))) with (fired_ids s).
        simpl. rewrite Hb, Nat.eqb_refl. rewrite !Hz; [by destruct (oneshot t)|..]; intros i; rewrite !elem_of_app; auto.
      * rewrite lookup_insert_ne by done. intros Hu. specialize (bk_count0 i u Hu). rewrite (proj2 (Nat.eqb_neq _ _) Hi).
        unfold places, fired_ids in *. simpl in *. lia.
    + intros i u. destruct (decide (i = ts_next s)) as [->|Hi]; [by rewrite lookup_insert_eq; intros [= <-]|].
      rewrite lookup_insert_ne by done. apply bk_task0.
    + intros i u Hi. destruct (decide (i = ts_next s)) as [->|Hne].
      * destruct (bk_known0 (ts_next s)) as [w Hw]; [rewrite !elem_of_app; auto|]. congruence.
      * rewrite lookup_insert_ne by done. by apply bk_spawned0.
Qed.

Lemma run_spawned_ok i s : inv None [] s -> is_Some (ts_spawned s !! i) -> exists s', run_spawned zero i s = Some s' /\ inv None [] s'.
Proof.
  intros [IW IB II] [tid Hi]. unfold run_spawned. rewrite Hi. simpl. pose proof (list_elem_of_lookup_2 _ _ _ Hi) as Hin.
  destruct (bk_known _ _ IB tid) as [t Ht]; [rewrite !elem_of_app; auto|]. rewrite Ht. simpl.
  set (s1 := with_spawned (delete i (ts_spawned s)) s).
  assert (Hocc : forall j, occ j (ts_spawned s) = (occ j [tid] + occ j (ts_spawned s1))%nat).
  { intros j. rewrite (occ_delete j _ i tid Hi). simpl. lia. }
  assert (I1 : inv None [tid] s1).
  { split; [done| |done]. apply (book_move [] [tid] s s1 tid t t IB Ht); simpl; try done.
    - by rewrite insert_id.
    - intros j Hj. rewrite Hocc. pose proof (occ_other j tid [] Hj) as Ho. simpl in *. rewrite Ho. split_and!; lia || done.
    - pose proof (bk_count _ _ IB tid t Ht) as H. unfold places in *. rewrite Hocc in H. simpl in H. rewrite Nat.eqb_refl in *.
      change (fired_ids s1) with (fired_ids s). simpl in *. lia.
    - intros j e n. by left.
    - exact (bk_task _ _ IB tid t Ht).
    - intros _. by apply (bk_spawned _ _ IB tid). }
  destruct (run_task_ok None [] tid t s1 (fun tid s => addOrRun zero (run_fuel tid s) None tid s) I1 Ht) as (s' & -> & I' & _).
  - by apply (bk_spawned _ _ IB tid).
  - intros s2 t2 I2 Ht2 _ _. by apply (run_fuel_ok None [] tid t2).
  - by exists s'.
Qed.

(** A caller's step or a turn of the loop, each run to its end. *)
Inductive serial :=
| SAfter (id now d : Z) (f : nat) (async : bool)
| SSchedule (id now : Z) (Next : Z -> option Z) (f : nat) (async : bool)
| SStop (tid : nat) | SSpawned (i : nat) | STurn (now : Z).

Definition exec_serial (a : serial) (s : tws) : option tws :=
  match a with
  | SAfter id now d f async => TimeWheel_AfterFunc zero id now d f async s
  | SSchedule id now Next f async => snd <$> TimeWheel_ScheduleFunc zero id now Next f async s
  | SStop tid => snd <$> Timer_Stop tid s
  | SSpawned i => run_spawned zero i s
  | STurn now => loop_turn zero now s
  end.

(** The times a step brings: the clock before the year 2109, expirations before 2527; a
    schedule that always has a next time, a millisecond later at least. *)
Definition clock_ok (now : Z) : Prop := 0 <= now < 2 ^ 42.
Definition schedule_ok (Next : Z -> option Z) : Prop :=
  forall e, 0 <= e < 2 ^ 43 -> e < TimeToMS zero (Next (MSToTime e)) < 2 ^ 44.
Definition serial_ok (a : serial) (s : tws) : Prop :=
  match a with
  | SAfter id now d f async => clock_ok (TimeToMS zero (Some now)) /\ TimeToMS zero (Some (now + d)) < 2 ^ 44
  | SSchedule id now Next f async => clock_ok (TimeToMS zero (Some now)) /\ schedule_ok Next /\
      forall e, Next now = Some e -> 0 <= TimeToMS zero (Some e) < 2 ^ 44
  | SStop tid => is_Some (ts_timers s !! tid)
  | SSpawned i => is_Some (ts_spawned s !! i)
  | STurn now => clock_ok now
  end.

Inductive tw_reach : tws -> Prop :=
| tw_new tick now s : Z.quot tick Millisecond_ns = tick0 -> clock_ok (TimeToMS 0 (Some now)) ->
    NewTimeWheel tick WS now = Some s -> tw_reach s
| tw_step s a s' : tw_reach s -> serial_ok a s -> exec_serial a s = Some s' -> tw_reach s'.

Lemma new_ok tick now s : Z.quot tick Millisecond_ns = tick0 -> clock_ok (TimeToMS 0 (Some now)) ->
  NewTimeWheel tick WS now = Some s -> inv None [] s.
Proof.
  intros Et [Hn0 Hn1]. unfold NewTimeWheel. rewrite Et. rewrite (proj2 (Z.leb_gt _ _)) by lia. intros [= <-].
  set (n := TimeToMS 0 (Some now)) in *. unfold newTimingWheel. rewrite (wrapS_id 64) by (unfold inS; simpl; nia).
  rewrite truncate_tr by lia. set (l := mkLevel tick0 WS (tick0 * WS) (tr n tick0) (replicate (Z.to_nat WS) newBucket)).
  assert (Hone : forall k tw, [l] !! k = Some tw -> k = 0%nat /\ tw = l) by (intros [|k] tw; [by intros [= <-]|done]).
  assert (Hb : forall b x, bucket_at b [l] = Some x -> x = newBucket).
  { intros b x. unfold bucket_at. destruct ([l] !! b.1) as [tw|] eqn:E; [|done]. apply Hone in E as [_ ->]. simpl.
    by intros [-> _]%lookup_replicate. }
  pose proof (tr_bounds n tick0 ltac:(lia)). split; [| |done].
  - split; simpl; try done.
    + split; [done|by exists l| |].
      * intros k tw [-> ->]%Hone. split; simpl; try done; try lia; [nia| |apply tr_divide|by rewrite length_replicate].
        split; [|lia]. apply tr_above; [lia|apply Z.divide_0_r|lia].
      * intros k tw up _ [? _]%Hone. done.
    + intros b x tid ->%Hb. split; [by intros ?%not_elem_of_nil|]. by intros (t & ? & _).
    + intros b x ->%Hb. constructor.
    + by intros b x ->%Hb.
    + constructor.
    + by intros it ?%not_elem_of_nil.
    + by intros b x ->%Hb.
  - split; simpl; try done.
    + by intros tid ?%not_elem_of_nil.
    + by intros tid e n' ?%not_elem_of_nil.
Qed.

Lemma Timer_Stop_ok tid s : inv None [] s -> is_Some (ts_timers s !! tid) ->
  exists removed s', Timer_Stop tid s = Some (removed, s') /\ inv None [] s'.
Proof.
  intros I [t Ht]. unfold Timer_Stop. rewrite Ht. simpl. destruct (t_b t) as [b|] eqn:Hb; [|by eexists _, _].
  destruct (bucket_remove_ok _ _ _ _ _ _ I Ht Hb) as (s1 & -> & [IW IB II] & Ht1 & _ & _). simpl.
  eexists _, _. split; [reflexivity|]. split; [done| |done].
  apply (book_put [] s1 _ tid (set_b None t) IB); try done; [by rewrite Ht1, lookup_insert_eq|]. by right; left.
Qed.

Lemma exec_serial_ok a s : inv None [] s -> serial_ok a s -> exists s', exec_serial a s = Some s' /\ inv None [] s'.
Proof.
  intros I. destruct a as [id now d f async|id now Next f async|tid|i|now]; simpl.
  - intros [Hn He]. unfold TimeWheel_AfterFunc.
    destruct (new_timer_ok (TimeToMS zero (Some now)) (mkTimer id (TimeToMS zero (Some (now + d))) (TaskFn f) None async) s I) as [I1 H1]; try done.
    destruct (run_fuel_ok _ _ _ _ _ I1 H1) as (s' & E & I' & _). by exists s'.
  - intros (Hn & Hs & He). unfold TimeWheel_ScheduleFunc. destruct (Next now) as [e|] eqn:En; [|by exists s].
    specialize (He e eq_refl).
    destruct (new_timer_ok (TimeToMS zero (Some now)) (mkTimer id (TimeToMS zero (Some e)) (TaskSchedule Next f) None async) s I) as [I1 H1];
      try done; [split; [apply He|exact Hs]|apply He|]. destruct (run_fuel_ok _ _ _ _ _ I1 H1) as (s' & E & I' & _). rewrite E. by exists s'.
  - intros Hs. destruct (Timer_Stop_ok tid s I Hs) as (r & s' & -> & I'). by exists s'.
  - intros Hs. by apply run_spawned_ok.
  - intros Hn. by apply loop_turn_ok.
Qed.

Lemma tw_reach_inv s : tw_reach s -> inv None [] s.
Proof.
  induction 1 as [tick now s E Hn Hs|s a s' _ I Ha E]; [by eapply new_ok|].
  destruct (exec_serial_ok a s I Ha) as (s2 & E2 & I2). rewrite E in E2. by injection E2 as ->.
Qed.

(** C17: The wheel keeps time. In every serial run: no task is run more than a tick before
    its expiration; once the loop finds no due bucket at a moment, no timer whose expiration
    has come is still waiting, whatever level of the wheel it was put in; and every timer is
    in exactly one place, a bucket, a goroutine started for it, stopped or (one-shot) run,
    so that no timer is lost and no one-shot task runs twice. *)
Theorem timers_on_time (s : tws) : tw_reach s ->
  (forall tid e now, (tid, e, now) ∈ ts_fired s -> e < now + tick0) /\
  (forall now, (PeekAndShift now (ts_pq s)).1.1 = None ->
     forall tid t b, ts_timers s !! tid = Some t -> t_b t = Some b -> now < t_expiration t) /\
  (forall tid t, ts_timers s !! tid = Some t -> places s tid t = 1%nat).
Proof.
  intros [IW IB _]%tw_reach_inv. split_and!.
  - apply IB.
  - intros now Hnone tid t b Ht Hb. destruct (wi_home _ _ _ _ _ IW tid t b Ht Hb) as (tw & x & Hk & Hx & He & E).
    pose proof (lvl_tick_pos _ _ _ (go_lvl _ _ (wi_geo _ _ _ _ _ IW) _ _ Hk)) as Hp. pose proof (tr_bounds (t_expiration t) _ Hp).
    assert (Hne : b_expiration x <> -1).
    { rewrite E. assert (0 <= tr (t_expiration t) (tw_tick tw)) by (apply tr_above; [done|apply Z.divide_0_r|lia]). lia. }
    destruct (wi_queued _ _ _ _ _ IW b x Hx Hne) as [|Hq]; [done|]. apply list_elem_of_fmap in Hq as (it & -> & Hit).
    destruct (wi_pq _ _ _ _ _ IW it Hit) as (_ & y & Hy & Ey & _). rewrite Hx in Hy. injection Hy as <-.
    unfold PeekAndShift in Hnone. pose proof (wi_heap _ _ _ _ _ IW) as Hh. destruct (ts_pq s) as [|v rest]; [by apply not_elem_of_nil in Hit|].
    destruct (Z.ltb_spec now (it_Priority v)); [|done]. pose proof (heap_head_min v rest Hh it Hit). lia.
  - intros tid t Ht. pose proof (bk_count _ _ IB tid t Ht). simpl in *. lia.
Qed.

(** With tasks that do not call the wheel, and schedules that always have a next time, every
    addition, stop, started task and turn of the loop returns after any serial run: it
    indexes no bucket or level that is not there, never waits for the bucket lock it holds
    itself, though the tasks run under it, and a schedule is put back after finitely many
    runs. A task that stops a timer can be stuck ([stop_under_lock_never_returns]). *)
Theorem wheel_never_stuck (s : tws) (a : serial) : tw_reach s -> serial_ok a s -> is_Some (exec_serial a s).
Proof. intros I%tw_reach_inv Ha. destruct (exec_serial_ok a s I Ha) as (s' & -> & _). by eexists. Qed.
End Wheel.

(** A fixed interval of at least a millisecond is a schedule the wheel keeps. *)
Lemma EverySchedule_ok zero interval : Millisecond_ns <= interval < 2 ^ 57 -> schedule_ok zero (EverySchedule_Next interval).
Proof.
  intros Hi e He. unfold TimeToMS, EverySchedule_Next, MSToTime, Millisecond_ns in *.
  rewrite (wrapS_id 64 (e * _)) by (unfold inS; lia). rewrite wrapS_id by (unfold inS; lia).
  rewrite Z.quot_div_nonneg by lia. rewrite Z.add_comm, Z.div_add by lia.
  assert (1 <= interval / 1000000) by (apply Z.div_le_lower_bound; lia).
  assert (interval / 1000000 < 2 ^ 43) by (apply Z.div_lt_upper_bound; lia). lia.
Qed.

(** A run that goes on when a step is refused, with the conditions of its steps. *)
Fixpoint serial_run (zero : Z) (l : list serial) (s : tws) : tws :=
  match l with [] => s | a :: l => serial_run zero l (default s (exec_serial zero a s)) end.
Fixpoint all_ok (zero : Z) (l : list serial) (s : tws) : Prop :=
  match l with [] => True | a :: l => serial_ok zero a s /\ all_ok zero l (default s (exec_serial zero a s)) end.

Lemma serial_run_reach zero WS tick0 l s : tw_reach zero WS tick0 s -> all_ok zero l s -> tw_reach zero WS tick0 (serial_run zero l s).
Proof.
  revert s. induction l as [|a l IH]; intros s Hs; simpl; [done|]. intros [Ha Hl]. apply IH; [|done].
  destruct (exec_serial zero a s) as [s'|] eqn:E; [|done]. by eapply tw_step.
Qed.

(** A wheel of 4 buckets of 10 ms: a one-shot timer, a timer of the second level, an
    asynchronous one and a schedule; turns of the loop at 45 and 130 ms. *)
Definition new_wheel : tws := default (mkTws [] [] ∅ 0 None None [] [] [] [] 0) (NewTimeWheel 10000000 4 0).
Definition demo_actions : list serial :=
  [SAfter 1 0 12000000 7 false; SAfter 2 0 115000000 8 false; SAfter 3 0 25000000 9 true;
   SSchedule 4 0 (EverySchedule_Next 15000000) 5 false; STurn 45; STurn 45; STurn 45; SStop 1; STurn 130; SSpawned 0].
Definition demo_wheel : tws := serial_run 0 demo_actions new_wheel.

Lemma demo_wheel_reach : tw_reach 0 4 10 demo_wheel.
Proof.
  apply serial_run_reach; [apply (tw_new 0 4 10 10000000 0); [reflexivity|by vm_compute|reflexivity]|].
  cbn [all_ok demo_actions serial_ok].
  split; [split; [split|]; by vm_compute|]. split; [split; [split|]; by vm_compute|]. split; [split; [split|]; by vm_compute|].
  split; [split; [split; by vm_compute|]; split; [apply EverySchedule_ok; by vm_compute|]; by intros e [= <-]; vm_compute|].
  do 3 (split; [split; by vm_compute|]). split; [eexists; vm_compute; reflexivity|]. split; [split; by vm_compute|].
  split; [eexists; vm_compute; reflexivity|done].
Defined.

Lemma timers_on_time_witness :
  ((0%nat, 12, 45) ∈ ts_fired demo_wheel /\ 12 < 45 + 10) /\
  ((PeekAndShift 50 (ts_pq demo_wheel)).1.1 = None /\ exists t b, ts_timers demo_wheel !! 3%nat = Some t /\ t_b t = Some b /\ 50 < t_expiration t) /\
  (exists t, ts_timers demo_wheel !! 1%nat = Some t /\ places demo_wheel 1 t = 1%nat).
Proof.
  destruct (timers_on_time 0 4 10 ltac:(lia) ltac:(lia) demo_wheel demo_wheel_reach) as (H1 & H2 & H3).
  assert (H0 : ts_fired demo_wheel !! 0%nat = Some (0%nat, 12, 45)) by (vm_compute; reflexivity).
  apply list_elem_of_lookup_2 in H0.
  split; [split; [done|by apply (H1 0%nat 12 45)]|]. split.
  - assert (E50 : (PeekAndShift 50 (ts_pq demo_wheel)).1.1 = None) by (vm_compute; reflexivity). split; [done|].
    assert (E : exists t b, ts_timers demo_wheel !! 3%nat = Some t /\ t_b t = Some b)
      by (eexists _, _; split; vm_compute; reflexivity). destruct E as (t & b & Ht & Hb). exists t, b.
    split; [done|]. split; [done|]. exact (H2 50 E50 3%nat t b Ht Hb).
  - assert (E : exists t, ts_timers demo_wheel !! 1%nat = Some t) by (eexists; vm_compute; reflexivity).
    destruct E as [t Ht]. exists t. split; [done|]. exact (H3 1%nat t Ht).
Defined.

Lemma wheel_never_stuck_witness : is_Some (exec_serial 0 (STurn 200) demo_wheel).
Proof. apply (wheel_never_stuck 0 4 10 ltac:(lia) ltac:(lia) demo_wheel _ demo_wheel_reach). split; by vm_compute. Defined.

(** ** What interleavings do *)

Definition expirations (s : tws) : list (nat * Z * option bref) := (fun x => (x.1, t_expiration x.2, t_b x.2)) <$> map_to_list (ts_timers s).

(** Two timers of one bucket are due. The function of the first runs under the lock of the
    bucket, and stops the second, which is still in it: it waits for that lock for ever. *)
Lemma stop_under_lock_never_returns :
  exists s b s1, run_tw 0 [TAfter 1 0 12000000 7 false; TAfter 2 0 13000000 8 false; TPoll 20; TReceive] new_wheel = Some s /\
    ts_hand s = Some (b, false) /\ bucket_remove b 0 s = Some (true, s1) /\ Timer_Stop_in (Some b) 1 s1 = None /\
    (fst <$> Timer_Stop_in None 1 s1) = Some true.
Proof. eexists _, _, _. split; [vm_compute; reflexivity|]. split; [reflexivity|]. split; [vm_compute; reflexivity|]. split; vm_compute; reflexivity. Qed.

(** A timer that enters a bucket while the loop is between the flush of that bucket and the
    clearing of its expiration: the exchange finds the old expiration and queues nothing,
    then the expiration is cleared. The timer waits in a bucket that is not queued. *)
Lemma late_timer_lost :
  (fun s => (ts_fired s, ts_pq s, expirations s)) <$>
    run_tw 0 [TAfter 1 0 12000000 7 false; TDecide 2 0 15000000 8; TPoll 20; TReceive; TFlush; TEnter 0; TFinish 0; TReset] new_wheel =
  Some ([(0%nat, 12, 20)], [], [(1%nat, 15, Some (0%nat, 1%nat)); (0%nat, 12, None)]).
Proof. vm_compute. reflexivity. Qed.

(** The poller may hold a bucket of a later time while the loop refills a bucket of an
    earlier one: the clock passes the refilled bucket, whose next user gives it a later
    expiration, and the flush of it takes that one for the time. The last timer, due at 119,
    runs at 97. *)
Lemma timer_two_ticks_early :
  (fun s => (ts_fired s, ts_pq s)) <$>
    run_tw 0 [TAfter 1 0 45000000 7 false; TAfter 2 0 75000000 7 false; TAfter 3 0 85000000 7 false;
      TPoll 95; TReceive; TPoll 95; TFlush; TReset; TReceive; TFlush; TReset; TAfter 4 95000000 24000000 7 false;
      TPoll 97; TReceive; TFlush] new_wheel =
  Some ([(0%nat, 45, 95); (2%nat, 85, 95); (1%nat, 75, 97); (3%nat, 119, 97)], [mkItem (0%nat, 3%nat) 110]).
Proof. vm_compute. reflexivity. Qed.

(** A timer of less than a tick runs at once, in the caller's goroutine. *)
Lemma short_timer_immediate :
  (fun s => (ts_fired s, ts_spawned s)) <$> run_tw 0 [TAfter 1 0 9000000 7 false] new_wheel = Some ([(0%nat, 9, 0)], []).
Proof. vm_compute. reflexivity. Qed.
