(* ===== verification/Civil.v ===== *)
(** The part of Go's [time] package that the calendar helpers and the fixed schedules
    build on: the proleptic Gregorian calendar, locations, [time.Date], [AddDate], [Add],
    [ISOWeek] and the layouts in use. Seconds are unbounded here; Go's 64 bits hold some
    292 billion years. What Go narrows further ([UnixNano], durations) is narrowed. *)

From Stdlib Require Import ZArith List Lia Bool String Ascii.
From stdpp Require Import base list option.
From S2P Require Import Prelude Strconv.
Import ListNotations.

(** ** Years and months *)

Definition is_leap (y : Z) : bool :=
  (y mod 4 =? 0) && (negb (y mod 100 =? 0) || (y mod 400 =? 0)).

(** Days from the first of January of year 1 to that of year [y]. *)
Definition days_before_year (y : Z) : Z :=
  365 * (y - 1) + (y - 1) / 4 - (y - 1) / 100 + (y - 1) / 400.

Definition year_len (y : Z) : Z := if is_leap y then 366 else 365.

Definition month_len (leap : bool) (m : Z) : Z :=
  match m with
  | 2 => if leap then 29 else 28
  | 4 | 6 | 9 | 11 => 30
  | _ => 31
  end.

(** Days of a year before its month [m]. *)
Definition days_before_month (leap : bool) (m : Z) : Z :=
  (match m with
   | 1 => 0 | 2 => 31 | 3 => 59 | 4 => 90 | 5 => 120 | 6 => 151 | 7 => 181
   | 8 => 212 | 9 => 243 | 10 => 273 | 11 => 304 | 12 => 334 | _ => 365
   end) + (if leap && (2 <? m) then 1 else 0).

Fixpoint month_from (k : nat) (m : Z) (leap : bool) (yd : Z) : Z :=
  match k with
  | O => m
  | S k' => if yd <? days_before_month leap (m + 1) then m else month_from k' (m + 1) leap yd
  end.

(** The month that holds day [yd] of a year, days counted from 0. *)
Definition month_of (leap : bool) (yd : Z) : Z := month_from 11 1 leap yd.

(** The year that holds day [d] and the day in it: 400, 100, 4 and 1 years are cut off in
    turn; the last century of four and the last year of four may be a day longer. *)
Definition year_of_days (d : Z) : Z * Z :=
  let n400 := d / 146097 in
  let d1 := d mod 146097 in
  let n100 := d1 / 36524 - d1 / 36524 / 4 in
  let d2 := d1 - 36524 * n100 in
  let n4 := d2 / 1461 in
  let d3 := d2 mod 1461 in
  let n1 := d3 / 365 - d3 / 365 / 4 in
  (400 * n400 + 100 * n100 + 4 * n4 + n1 + 1, d3 - 365 * n1).

(** 1970-01-01, counted from 0001-01-01. *)
Definition unix_epoch_days : Z := 719162.

Definition days_of_civil (y m d : Z) : Z :=
  days_before_year y + days_before_month (is_leap y) m + (d - 1) - unix_epoch_days.

Definition civil_of_days (d : Z) : Z * Z * Z :=
  let '(y, yd) := year_of_days (d + unix_epoch_days) in
  let m := month_of (is_leap y) yd in
  (y, m, yd - days_before_month (is_leap y) m + 1).

Definition civil_ok (y m d : Z) : Prop := 1 <= m <= 12 /\ 1 <= d <= month_len (is_leap y) m.

(** *** The two directions are inverse *)

Ltac zdiv := Z.div_mod_to_equations; lia.

Lemma is_leap_true y : is_leap y = true <-> y mod 4 = 0 /\ (y mod 100 <> 0 \/ y mod 400 = 0).
Proof.
  unfold is_leap. rewrite andb_true_iff, orb_true_iff, negb_true_iff, !Z.eqb_eq, Z.eqb_neq. tauto.
Qed.

Lemma div_pred y k : 0 < k -> y / k = (y - 1) / k + (if y mod k =? 0 then 1 else 0).
Proof.
  intros H. pose proof (Z.div_mod y k). pose proof (Z.mod_pos_bound y k H).
  destruct (Z.eqb_spec (y mod k) 0) as [E|E].
  - assert ((y - 1) / k = y / k - 1); [|lia]. symmetry. apply (Z.div_unique _ _ _ (k - 1)); lia.
  - assert ((y - 1) / k = y / k); [|lia]. symmetry. apply (Z.div_unique _ _ _ (y mod k - 1)); lia.
Qed.

Lemma mod_100_4 y : y mod 100 = 0 -> y mod 4 = 0.
Proof.
  intros H. apply Z.mod_divide in H as [k ->]; [|lia].
  replace (k * 100) with (k * 25 * 4) by lia. apply Z.mod_mul. lia.
Qed.

Lemma mod_400_100 y : y mod 400 = 0 -> y mod 100 = 0.
Proof.
  intros H. apply Z.mod_divide in H as [k ->]; [|lia].
  replace (k * 400) with (k * 4 * 100) by lia. apply Z.mod_mul. lia.
Qed.

Lemma days_before_year_succ y : days_before_year (y + 1) = days_before_year y + year_len y.
Proof.
  unfold days_before_year, year_len, is_leap. replace (y + 1 - 1) with y by lia.
  rewrite (div_pred y 4), (div_pred y 100), (div_pred y 400) by lia.
  pose proof (mod_100_4 y). pose proof (mod_400_100 y).
  destruct (Z.eqb_spec (y mod 4) 0), (Z.eqb_spec (y mod 100) 0), (Z.eqb_spec (y mod 400) 0);
    cbn [andb orb negb]; lia.
Qed.

Lemma year_len_range y : 365 <= year_len y <= 366.
Proof. unfold year_len. destruct (is_leap y); lia. Qed.

Lemma days_before_year_add (n : nat) y :
  days_before_year y + 365 * Z.of_nat n <= days_before_year (y + Z.of_nat n).
Proof.
  induction n as [|n IH]; [cbn [Z.of_nat]; rewrite !Z.add_0_r; apply Z.le_refl|].
  replace (y + Z.of_nat (S n)) with (y + Z.of_nat n + 1) by lia.
  rewrite days_before_year_succ. pose proof (year_len_range (y + Z.of_nat n)). lia.
Qed.

Lemma days_before_year_mono y y' : y < y' -> days_before_year (y + 1) <= days_before_year y'.
Proof.
  intros H. pose proof (days_before_year_add (Z.to_nat (y' - (y + 1))) (y + 1)) as G.
  rewrite Z2Nat.id in G by lia. replace (y + 1 + (y' - (y + 1))) with y' in G by lia. lia.
Qed.

Lemma year_unique y y' d :
  days_before_year y <= d < days_before_year (y + 1) ->
  days_before_year y' <= d < days_before_year (y' + 1) -> y = y'.
Proof.
  intros H H'. destruct (Z.lt_trichotomy y y') as [C|[C|C]]; [|exact C|];
    apply days_before_year_mono in C; lia.
Qed.

Lemma year_of_days_spec d :
  let '(y, yd) := year_of_days d in d = days_before_year y + yd /\ 0 <= yd < year_len y.
Proof.
  unfold year_of_days. set (n400 := d / 146097). set (d1 := d mod 146097).
  assert (Hd : d = 146097 * n400 + d1 /\ 0 <= d1 < 146097) by (unfold n400, d1; zdiv).
  set (n100 := d1 / 36524 - d1 / 36524 / 4). set (d2 := d1 - 36524 * n100).
  assert (H2 : 0 <= n100 <= 3 /\ 0 <= d2 <= 36524 /\ (d2 = 36524 -> n100 = 3)).
  { unfold d2, n100. clearbody d1 n400. zdiv. }
  set (n4 := d2 / 1461). set (d3 := d2 mod 1461).
  assert (H3 : d2 = 1461 * n4 + d3 /\ 0 <= d3 < 1461 /\ 0 <= n4 <= 24 /\ (d3 = 1460 -> n4 = 24 -> n100 = 3)).
  { unfold n4, d3. clearbody d2. zdiv. }
  set (n1 := d3 / 365 - d3 / 365 / 4). set (yd := d3 - 365 * n1).
  assert (H1 : 0 <= n1 <= 3 /\ 0 <= yd <= 365 /\ (yd = 365 -> n1 = 3)).
  { unfold yd, n1. clearbody d3. zdiv. }
  assert (d1 = 36524 * n100 + d2) by (unfold d2; lia). assert (d3 = 365 * n1 + yd) by (unfold yd; lia).
  clearbody n400 d1 n100 d2 n4 d3 n1 yd. split.
  - unfold days_before_year. zdiv.
  - unfold year_len. destruct (is_leap _) eqn:E; [lia|].
    assert (yd = 365 -> False); [|lia]. intros ->.
    assert (~ (let y := 400 * n400 + 100 * n100 + 4 * n4 + n1 + 1 in
               y mod 4 = 0 /\ (y mod 100 <> 0 \/ y mod 400 = 0))) as Hn
      by (cbv zeta; rewrite <- is_leap_true, E; discriminate).
    apply Hn. cbv zeta. zdiv.
Qed.

Lemma forall_range (P : Z -> bool) (n : nat) :
  forallb P (map Z.of_nat (seq 0 n)) = true -> forall z, 0 <= z < Z.of_nat n -> P z = true.
Proof.
  intros H z Hz. rewrite forallb_forall in H. apply H, in_map_iff.
  exists (Z.to_nat z). rewrite Z2Nat.id by lia. split; [done|]. apply in_seq. lia.
Qed.

Definition year_table_ok (leap : bool) (yd : Z) : bool :=
  let m := month_of leap yd in
  (1 <=? m) && (m <=? 12) && (days_before_month leap m <=? yd) &&
  (yd <? days_before_month leap m + month_len leap m).

Lemma month_of_spec (leap : bool) yd : 0 <= yd < (if leap then 366 else 365) ->
  let m := month_of leap yd in
  1 <= m <= 12 /\ days_before_month leap m <= yd < days_before_month leap m + month_len leap m.
Proof.
  intros H. assert (year_table_ok leap yd = true) as E.
  { destruct leap; [apply (forall_range (year_table_ok true) 366)|apply (forall_range (year_table_ok false) 365)];
      try lia; vm_compute; reflexivity. }
  unfold year_table_ok in E. cbv zeta. rewrite !andb_true_iff in E. lia.
Qed.

Lemma month_cases m : 1 <= m <= 12 ->
  m = 1 \/ m = 2 \/ m = 3 \/ m = 4 \/ m = 5 \/ m = 6 \/ m = 7 \/ m = 8 \/ m = 9 \/ m = 10 \/ m = 11 \/ m = 12.
Proof. lia. Qed.

Ltac each_month H := apply month_cases in H; repeat (destruct H as [H|H]); subst.

Lemma month_step leap m : 1 <= m <= 12 ->
  days_before_month leap (m + 1) = days_before_month leap m + month_len leap m.
Proof. intros H. each_month H; destruct leap; done. Qed.

Lemma month_len_range leap m : 28 <= month_len leap m <= 31.
Proof.
  unfold month_len. repeat (case_match; try lia).
Qed.

Lemma month_mono leap m m' : 1 <= m -> m < m' -> m' <= 13 ->
  days_before_month leap (m + 1) <= days_before_month leap m'.
Proof.
  intros H1 H2 H3. assert (H : 1 <= m <= 12) by lia. assert (H' : m' = 13 \/ 1 <= m' <= 12) by lia.
  destruct H' as [-> |H']; [|each_month H'; try lia]; each_month H; try lia; destruct leap; vm_compute; congruence.
Qed.

Lemma month_unique (leap : bool) m yd : 1 <= m <= 12 ->
  days_before_month leap m <= yd < days_before_month leap m + month_len leap m ->
  0 <= yd < (if leap then 366 else 365) -> month_of leap yd = m.
Proof.
  intros Hm H Hy. destruct (month_of_spec leap yd Hy) as [Hm' H']. set (m' := month_of leap yd) in *.
  rewrite <- (month_step leap m) in H by lia. rewrite <- (month_step leap m') in H' by lia.
  destruct (Z.lt_trichotomy m m') as [C|[C|C]]; [|by symmetry|].
  - apply (month_mono leap) in C; lia.
  - apply (month_mono leap) in C; lia.
Qed.

Lemma days_of_month_range (leap : bool) m d : 1 <= m <= 12 -> 1 <= d <= month_len leap m ->
  0 <= days_before_month leap m + (d - 1) < (if leap then 366 else 365).
Proof. intros H. each_month H; destruct leap; unfold month_len, days_before_month; cbn -[Z.le Z.lt]; lia. Qed.

Lemma year_of_days_add y yd : 0 <= yd < year_len y -> year_of_days (days_before_year y + yd) = (y, yd).
Proof.
  intros H. pose proof (year_of_days_spec (days_before_year y + yd)) as G.
  destruct (year_of_days _) as [y' yd']. destruct G as [E Hr].
  assert (y' = y) as ->; [|f_equal; lia].
  apply (year_unique y' y (days_before_year y + yd)); rewrite days_before_year_succ; lia.
Qed.

Lemma civil_of_days_of y m d : civil_ok y m d -> civil_of_days (days_of_civil y m d) = (y, m, d).
Proof.
  intros [Hm Hd]. pose proof (days_of_month_range _ _ _ Hm Hd) as Hr.
  unfold civil_of_days, days_of_civil.
  replace (_ + unix_epoch_days) with (days_before_year y + (days_before_month (is_leap y) m + (d - 1))) by lia.
  rewrite year_of_days_add by (unfold year_len; lia). cbv iota zeta.
  rewrite (month_unique (is_leap y) m) by lia. f_equal. lia.
Qed.

Lemma days_of_civil_of n : let '(y, m, d) := civil_of_days n in civil_ok y m d /\ days_of_civil y m d = n.
Proof.
  unfold civil_of_days. pose proof (year_of_days_spec (n + unix_epoch_days)) as G.
  destruct (year_of_days _) as [y yd]. destruct G as [E Hr]. unfold year_len in Hr.
  destruct (month_of_spec (is_leap y) yd Hr) as [Hm Hd]. unfold civil_ok, days_of_civil. lia.
Qed.

(** ** Locations and times *)

(** A location answers, for an instant, the offset in force and the interval of instants in
    which it is. *)
Record Location := mkLocation { loc_name : str; loc_lookup : Z -> Z * Z * Z }.

Definition loc_offset (l : Location) (u : Z) : Z := (loc_lookup l u).1.1.

Definition FixedZone (name : str) (offset : Z) : Location :=
  mkLocation name (fun _ => (offset, - 2 ^ 63, 2 ^ 63 - 1)).
Definition UTC : Location := FixedZone "UTC" 0.

(** An instant, in seconds and nanoseconds since 1970, and where it is looked at from. *)
Record GoTime := mkGoTime { t_unix : Z; t_nsec : Z; t_loc : Location }.

Definition day_secs : Z := 86400.
Definition ns_per_s : Z := 1000000000.

(** What a clock at the location shows, as seconds. *)
Definition gt_local (t : GoTime) : Z := t_unix t + loc_offset (t_loc t) (t_unix t).

Definition gt_date (t : GoTime) : Z * Z * Z := civil_of_days (gt_local t / day_secs).
Definition gt_year (t : GoTime) : Z := (gt_date t).1.1.
Definition gt_month (t : GoTime) : Z := (gt_date t).1.2.
Definition gt_day (t : GoTime) : Z := (gt_date t).2.
Definition gt_hour (t : GoTime) : Z := gt_local t mod day_secs / 3600.
Definition gt_minute (t : GoTime) : Z := gt_local t mod 3600 / 60.
Definition gt_second (t : GoTime) : Z := gt_local t mod 60.

Definition weekday_of_days (n : Z) : Z := (n + 4) mod 7.
(** Sunday is 0. *)
Definition gt_weekday (t : GoTime) : Z := weekday_of_days (gt_local t / day_secs).
Definition yearday_of_days (n : Z) : Z := (year_of_days (n + unix_epoch_days)).2 + 1.
Definition gt_yearday (t : GoTime) : Z := yearday_of_days (gt_local t / day_secs).

(** The week is the one of its Thursday, counted in the year of that Thursday. *)
Definition isoweek_of_days (n : Z) : Z * Z :=
  let w := weekday_of_days n in
  let d := if w =? 0 then -3 else 4 - w in
  let '(y, yd) := year_of_days (n + d + unix_epoch_days) in (y, yd / 7 + 1).
Definition gt_isoweek (t : GoTime) : Z * Z := isoweek_of_days (gt_local t / day_secs).

Definition gt_total (t : GoTime) : Z := t_unix t * ns_per_s + t_nsec t.
Definition gt_add (d : Z) (t : GoTime) : GoTime :=
  mkGoTime (t_unix t + (t_nsec t + d) / ns_per_s) ((t_nsec t + d) mod ns_per_s) (t_loc t).
Definition gt_in (l : Location) (t : GoTime) : GoTime := mkGoTime (t_unix t) (t_nsec t) l.

(** 0001-01-01 00:00:00 UTC. *)
Definition zero_time : GoTime := mkGoTime (- unix_epoch_days * day_secs) 0 UTC.
Definition gt_iszero (t : GoTime) : bool := (t_unix t =? - unix_epoch_days * day_secs) && (t_nsec t =? 0).

Definition gt_unixmilli (t : GoTime) : Z := wrapS 64 (t_unix t * 1000 + t_nsec t / 1000000).
Definition gt_unixmicro (t : GoTime) : Z := wrapS 64 (t_unix t * 1000000 + t_nsec t / 1000).
Definition gt_unixnano (t : GoTime) : Z := wrapS 64 (gt_total t).

Definition go_unix (s : Z) (l : Location) : GoTime := mkGoTime s 0 l.
Definition go_unixmilli (ms : Z) (l : Location) : GoTime := mkGoTime (ms / 1000) (ms mod 1000 * 1000000) l.

(** The clock reading [time.Date] asks for, in seconds: every field may be out of its
    range and carries into the next. *)
Definition civil_secs (y mo d h mi s : Z) : Z :=
  (days_of_civil (y + (mo - 1) / 12) ((mo - 1) mod 12 + 1) 1 + (d - 1)) * day_secs + h * 3600 + mi * 60 + s.

(** The instant at which the location's clock shows [L]: the offset looked up at [L]
    itself, unless it is not in force at the instant that gives. *)
Definition unix_of_local (l : Location) (L : Z) : Z :=
  let '(o, st, en) := loc_lookup l L in
  if o =? 0 then L
  else let utc := L - o in
       if (st <=? utc) && (utc <? en) then utc else L - loc_offset l utc.

Definition go_date (y mo d h mi s ns : Z) (l : Location) : GoTime :=
  mkGoTime (unix_of_local l (civil_secs y mo d h mi (s + ns / ns_per_s))) (ns mod ns_per_s) l.

Definition gt_adddate (years months days : Z) (t : GoTime) : GoTime :=
  let '(y, m, d) := gt_date t in
  go_date (y + years) (m + months) (d + days) (gt_hour t) (gt_minute t) (gt_second t) (t_nsec t) (t_loc t).

(** *** Layouts *)

Inductive chunk := CYear | CMonth | CDay | CHour | CMinute | CSecond | CFrac (digits : nat) | CLit (c : ascii).

Definition is_digit (c : ascii) : bool := let n := N_of_ascii c in (48 <=? n)%N && (n <=? 57)%N.

(** The digits 0 at the head, their number, and whether a digit follows. *)
Fixpoint zeros (s : str) : nat * bool :=
  match s with
  | String "0" s' => let '(k, b) := zeros s' in (S k, b)
  | String c _ => (O, is_digit c)
  | EmptyString => (O, false)
  end.

(** The elements of a layout; [skip] characters belong to the last one found. *)
Fixpoint chunks_from (skip : nat) (s : str) : list chunk :=
  match s with
  | EmptyString => []
  | String c s' =>
      match skip with
      | S k => chunks_from k s'
      | O =>
          if String.prefix "2006" s then CYear :: chunks_from 3 s'
          else if String.prefix "01" s then CMonth :: chunks_from 1 s'
          else if String.prefix "02" s then CDay :: chunks_from 1 s'
          else if String.prefix "15" s then CHour :: chunks_from 1 s'
          else if String.prefix "04" s then CMinute :: chunks_from 1 s'
          else if String.prefix "05" s then CSecond :: chunks_from 1 s'
          else match (if Ascii.eqb c "." then zeros s' else (O, true)) with
               | (S k, false) => CFrac (S k) :: chunks_from (S k) s'
               | _ => CLit c :: chunks_from 0 s'
               end
      end
  end.

Definition pad_digits (w : nat) (n : Z) : list Z :=
  replicate (w - length (uint_digits 10 n)) 0 ++ uint_digits 10 n.
Definition pad_int (w : nat) (n : Z) : list ascii :=
  (if n <? 0 then [minus_char] else []) ++ map digit_char (pad_digits w (Z.abs n)).

Definition format_chunk (t : GoTime) (c : chunk) : list ascii :=
  match c with
  | CYear => pad_int 4 (gt_year t)
  | CMonth => pad_int 2 (gt_month t)
  | CDay => pad_int 2 (gt_day t)
  | CHour => pad_int 2 (gt_hour t)
  | CMinute => pad_int 2 (gt_minute t)
  | CSecond => pad_int 2 (gt_second t)
  | CFrac n => "."%char :: map digit_char (firstn n (pad_digits 9 (t_nsec t)))
  | CLit c => [c]
  end.

(** [Time.Format], for layouts made of these elements. *)
Definition gt_format (layout : str) (t : GoTime) : str :=
  string_of_list_ascii (flat_map (format_chunk t) (chunks_from 0 layout)).

(** ** Laws *)

(** The location has one offset from a day before the clock shows [a] to a day after it
    shows [b]. *)
Definition steady (l : Location) (o a b : Z) : Prop :=
  Z.abs o <= day_secs /\ forall u, a - day_secs <= u <= b + day_secs -> loc_offset l u = o.

Lemma steady_sub l o a b a' b' : steady l o a b -> a <= a' -> b' <= b -> steady l o a' b'.
Proof. intros [Ho H] Ha Hb. split; [exact Ho|]. intros u Hu. apply H. lia. Qed.

Lemma steady_fixed n o a b : Z.abs o <= day_secs -> steady (FixedZone n o) o a b.
Proof. intros H. split; [exact H|]. intros u _. reflexivity. Qed.

Lemma unix_of_local_steady l o a b L : steady l o a b -> a <= L <= b -> unix_of_local l L = L - o.
Proof.
  unfold steady, unix_of_local, loc_offset. intros [Ho H] HL.
  assert (H1 := H L ltac:(unfold day_secs; lia)). assert (H2 := H (L - o) ltac:(lia)).
  destruct (loc_lookup l L) as [[o1 st] en] eqn:E. cbn in H1. subst o1.
  destruct (Z.eqb_spec o 0); [lia|]. destruct (_ && _); [reflexivity|]. rewrite H2. reflexivity.
Qed.

Lemma gt_local_of_local l o a b L n : steady l o a b -> a <= L <= b ->
  gt_local (mkGoTime (unix_of_local l L) n l) = L.
Proof.
  intros H HL. unfold gt_local. cbn. rewrite (unix_of_local_steady l o a b) by assumption.
  destruct H as [Ho H]. rewrite H by lia. lia.
Qed.

Lemma local_unix t o a b : steady (t_loc t) o a b -> a <= gt_local t <= b -> Z.abs (loc_offset (t_loc t) (t_unix t)) <= day_secs ->
  t_unix t = gt_local t - o.
Proof. unfold gt_local. intros [Ho H] HL Hb. pose proof (H (t_unix t)). lia. Qed.

Lemma days_of_civil_day y m d : days_of_civil y m d = days_of_civil y m 1 + (d - 1).
Proof. unfold days_of_civil. lia. Qed.

(** A month's number since year 0. *)
Definition month_index (y m : Z) : Z := 12 * y + (m - 1).
Definition first_of_month (i : Z) : Z := days_of_civil (i / 12) (i mod 12 + 1) 1.
Definition len_of_month (i : Z) : Z := month_len (is_leap (i / 12)) (i mod 12 + 1).

Lemma month_index_div y m : 1 <= m <= 12 -> month_index y m / 12 = y /\ month_index y m mod 12 + 1 = m.
Proof. unfold month_index. intros H. zdiv. Qed.

Lemma first_of_month_index y m : 1 <= m <= 12 -> first_of_month (month_index y m) = days_of_civil y m 1.
Proof. intros H. unfold first_of_month. destruct (month_index_div y m H) as [-> ->]. reflexivity. Qed.

Lemma len_of_month_index y m : 1 <= m <= 12 -> len_of_month (month_index y m) = month_len (is_leap y) m.
Proof. intros H. unfold len_of_month. destruct (month_index_div y m H) as [-> ->]. reflexivity. Qed.

Lemma civil_secs_index y mo d h mi s :
  civil_secs y mo d h mi s = (first_of_month (month_index y mo) + (d - 1)) * day_secs + h * 3600 + mi * 60 + s.
Proof.
  unfold civil_secs, first_of_month, month_index. set (k := mo - 1).
  replace ((12 * y + k) / 12) with (y + k / 12) by zdiv.
  replace ((12 * y + k) mod 12) with (k mod 12) by zdiv. reflexivity.
Qed.

Lemma month_split i : exists y m, 1 <= m <= 12 /\ i = month_index y m.
Proof. exists (i / 12), (i mod 12 + 1). unfold month_index. zdiv. Qed.

Lemma first_of_next_month i : first_of_month (i + 1) = first_of_month i + len_of_month i.
Proof.
  destruct (month_split i) as (y & m & Hm & ->).
  rewrite first_of_month_index, len_of_month_index by exact Hm. destruct (Z.eq_dec m 12) as [-> | Hn].
  - replace (month_index y 12 + 1) with (month_index (y + 1) 1) by (unfold month_index; lia).
    rewrite first_of_month_index by lia. unfold days_of_civil. rewrite days_before_year_succ.
    pose proof (month_step (is_leap y) 12 ltac:(lia)) as E.
    change (days_before_month (is_leap y) (12 + 1)) with (365 + (if is_leap y && true then 1 else 0)) in E.
    change (days_before_month (is_leap (y + 1)) 1) with (0 + (if is_leap (y + 1) && false then 1 else 0)).
    unfold year_len. destruct (is_leap y), (is_leap (y + 1)); cbn [andb] in *; lia.
  - replace (month_index y m + 1) with (month_index y (m + 1)) by (unfold month_index; lia).
    rewrite first_of_month_index by lia. unfold days_of_civil. rewrite month_step by lia. lia.
Qed.

Lemma len_of_month_range i : 28 <= len_of_month i <= 31.
Proof. apply month_len_range. Qed.

Lemma civil_of_month_day i d : 1 <= d <= len_of_month i ->
  civil_of_days (first_of_month i + (d - 1)) = (i / 12, i mod 12 + 1, d).
Proof.
  intros H. unfold first_of_month. rewrite <- days_of_civil_day. apply civil_of_days_of.
  split; [zdiv|exact H].
Qed.

(** The fields of a reading and the reading itself. *)
Lemma local_parts t : let '(y, m, d) := gt_date t in civil_ok y m d /\
  gt_local t = (first_of_month (month_index y m) + (d - 1)) * day_secs + gt_hour t * 3600 + gt_minute t * 60 + gt_second t /\
  0 <= gt_hour t < 24 /\ 0 <= gt_minute t < 60 /\ 0 <= gt_second t < 60.
Proof.
  unfold gt_date. pose proof (days_of_civil_of (gt_local t / day_secs)) as G.
  destruct (civil_of_days _) as [[y m] d]. destruct G as [Hok E]. split; [exact Hok|].
  rewrite first_of_month_index by apply Hok. rewrite <- days_of_civil_day, E.
  unfold gt_hour, gt_minute, gt_second. set (L := gt_local t). clearbody L. unfold day_secs.
  assert (L mod 86400 / 3600 * 3600 + L mod 3600 = L mod 86400) as Ha by zdiv.
  assert (L mod 3600 / 60 * 60 + L mod 60 = L mod 3600) as Hb by zdiv. zdiv.
Qed.

Definition clock_ok (h mi s : Z) : Prop := 0 <= h < 24 /\ 0 <= mi < 60 /\ 0 <= s < 60.

Lemma local_fields t i d h mi s : 1 <= d <= len_of_month i -> clock_ok h mi s ->
  gt_local t = (first_of_month i + (d - 1)) * day_secs + h * 3600 + mi * 60 + s ->
  gt_date t = (i / 12, i mod 12 + 1, d) /\ gt_hour t = h /\ gt_minute t = mi /\ gt_second t = s.
Proof.
  unfold clock_ok, gt_date, gt_hour, gt_minute, gt_second. intros Hd Hc E. rewrite E. unfold day_secs.
  replace (((first_of_month i + (d - 1)) * 86400 + h * 3600 + mi * 60 + s) / 86400)
    with (first_of_month i + (d - 1)) by (apply (Z.div_unique _ _ _ (h * 3600 + mi * 60 + s)); lia).
  rewrite civil_of_month_day by exact Hd. split; [reflexivity|].
  replace (((first_of_month i + (d - 1)) * 86400 + h * 3600 + mi * 60 + s) mod 86400)
    with (h * 3600 + mi * 60 + s) by (apply (Z.mod_unique _ _ (first_of_month i + (d - 1))); lia).
  replace (((first_of_month i + (d - 1)) * 86400 + h * 3600 + mi * 60 + s) mod 3600)
    with (mi * 60 + s) by (apply (Z.mod_unique _ _ (24 * (first_of_month i + (d - 1)) + h)); lia).
  replace (((first_of_month i + (d - 1)) * 86400 + h * 3600 + mi * 60 + s) mod 60)
    with s by (apply (Z.mod_unique _ _ (1440 * (first_of_month i + (d - 1)) + 60 * h + mi)); lia).
  split; [|split]; [zdiv|zdiv|reflexivity].
Qed.
