(* ===== verification/CTime.v ===== *)
(** Package [ctime] (src/extend/time): [time.Time] with an offset and a location of the
    process, getters, periods, differences, setters, formats, and moving in time. *)

From Stdlib Require Import ZArith List Lia Bool String Ascii.
From stdpp Require Import base list option.
From S2P Require Import Prelude Strconv Facade Civil.
Import ListNotations.

(** ** Constants *)

(** src/extend/time/time.go:13-13, YearsPerCentury *)
Definition YearsPerCentury : Z := 100.
(** src/extend/time/time.go:16-16, MonthsPerYear *)
Definition MonthsPerYear : Z := 12.
(** src/extend/time/time.go:17-17, MonthsPerQuarter *)
Definition MonthsPerQuarter : Z := 3.
(** src/extend/time/time.go:21-21, DaysPerLeapYear *)
Definition DaysPerLeapYear : Z := 366.
(** src/extend/time/time.go:22-22, DaysPerNormalYear *)
Definition DaysPerNormalYear : Z := 365.
(** src/extend/time/time.go:23-23, DaysPerWeek *)
Definition DaysPerWeek : Z := 7.
(** src/extend/time/time.go:25-25, HoursPerDay *)
Definition HoursPerDay : Z := 24.
(** src/extend/time/time.go:29-29, SecondsPerDay *)
Definition SecondsPerDay : Z := 86400.
(** src/extend/time/time.go:30-30, SecondsPerHour *)
Definition SecondsPerHour : Z := 3600.
(** src/extend/time/time.go:31-31, SecondsPerMinute *)
Definition SecondsPerMinute : Z := 60.
(** src/extend/time/time.go:39-39, WeeksPerLongYear *)
Definition WeeksPerLongYear : Z := 53.

(** src/extend/time/time.go:41-41, DateTimeMillisecondFormat *)
Definition DateTimeMillisecondFormat : str := "2006-01-02 15:04:05.000".
(** src/extend/time/time.go:42-42, DateTimeFormat *)
Definition DateTimeFormat : str := "2006-01-02 15:04:05".
(** src/extend/time/time.go:43-43, DateFormat *)
Definition DateFormat : str := "2006-01-02".
(** src/extend/time/time.go:44-44, TimeFormat *)
Definition TimeFormat : str := "15:04:05".
(** src/extend/time/time.go:45-45, ShortDateTimeFormat *)
Definition ShortDateTimeFormat : str := "20060102150405".
(** src/extend/time/time.go:46-46, ShortDateFormat *)
Definition ShortDateFormat : str := "20060102".
(** src/extend/time/time.go:47-47, ShortTimeFormat *)
Definition ShortTimeFormat : str := "150405".

(** ** Machine integers of the package: [int] and [int64] *)

Definition iadd (a b : Z) : Z := wrapS 64 (a + b).
Definition isub (a b : Z) : Z := wrapS 64 (a - b).
Definition imul (a b : Z) : Z := wrapS 64 (a * b).
Definition ineg (a : Z) : Z := wrapS 64 (- a).

(** ** Offsets of the process *)

(** src/extend/time/time_offset.go:5-8, offsetTime, offsetLocation *)
Record ctime_vars := mkVars {
  offsetTime : Z;
  offsetLocation : option Location   (* [None]: the nil pointer *)
}.

(** What the machine provides: the location of the process and the database of the
    others. *)
Record zone_env := mkZoneEnv { ze_local : Location; ze_database : str -> option Location }.

Fixpoint containsDotDot (s : str) : bool :=
  match s with
  | String "." ((String "." _) as s') => true
  | String _ s' => containsDotDot s'
  | EmptyString => false
  end.

(** [time.LoadLocation] *)
Definition LoadLocation (z : zone_env) (name : str) : option Location :=
  if String.eqb name "" || String.eqb name "UTC" then Some UTC
  else if String.eqb name "Local" then Some (ze_local z)
  else if containsDotDot name || String.prefix "/" name || String.prefix "\\" name then None
  else ze_database z name.

(** src/extend/time/time_offset.go:14-16, AddOffsetTime *)
Definition AddOffsetTime (t : Z) (g : ctime_vars) : ctime_vars := mkVars t (offsetLocation g).

(** src/extend/time/time_offset.go:18-20, SubOffsetTime *)
Definition SubOffsetTime (t : Z) (g : ctime_vars) : ctime_vars := mkVars (ineg t) (offsetLocation g).

(** The variable takes what [LoadLocation] returns, which is nil with an error; the flag
    says whether there was none. *)
(** src/extend/time/time_offset.go:22-29, SetOffsetLocation *)
Definition SetOffsetLocation (z : zone_env) (name : str) (g : ctime_vars) : bool * ctime_vars :=
  let l := LoadLocation z name in (bool_decide (is_Some l), mkVars (offsetTime g) l).

(** src/extend/time/time_offset.go:10-12, init *)
Definition ctime_init (z : zone_env) : ctime_vars := (SetOffsetLocation z "Local" (mkVars 0 None)).2.

(** ** Creation *)

(** A [time.Time] embedded in a struct. *)
(** src/extend/time/time.go:50-52, ActorGoTime *)
Definition ActorGoTime : Type := GoTime.

(** [None]: [In] panics without a location. *)
(** src/extend/time/time.go:54-64, NewTime *)
Definition NewTime (g : ctime_vars) (tt : GoTime) (setGlobal : bool) : option ActorGoTime :=
  if setGlobal then (l ← offsetLocation g; Some (gt_add (offsetTime g) (gt_in l tt))) else Some tt.

Section Create.
Context (z : zone_env) (g : ctime_vars).

(** src/extend/time/time.go:66-68, NewSecond *)
Definition NewSecond (second : Z) : option ActorGoTime := NewTime g (go_unix second (ze_local z)) true.

(** src/extend/time/time.go:70-72, NewMillisecond *)
Definition NewMillisecond (millisecond : Z) : option ActorGoTime :=
  NewTime g (go_unixmilli millisecond (ze_local z)) true.

(** [now] is what [time.Now] returns at the call, here and below. *)
(** src/extend/time/time.go:74-76, Now *)
Definition Now (now : GoTime) : option ActorGoTime := NewTime g now true.

(** src/extend/time/time.go:78-81, Yesterday *)
Definition Yesterday (now : GoTime) : option ActorGoTime := NewTime g (gt_adddate 0 0 (-1) now) true.

(** src/extend/time/time.go:83-86, Tomorrow *)
Definition Tomorrow (now : GoTime) : option ActorGoTime :=
  n ← Now now; NewTime g (gt_adddate 0 0 1 n) true.

(** The number of characters of the decimal form says the unit. *)
(** src/extend/time/time.go:89-107, CreateFromTimestamp *)
Definition CreateFromTimestamp (timestamp : Z) : ActorGoTime :=
  let len := str_len (format_int 10 timestamp) in
  let ts := if len =? 10 then timestamp
            else if len =? 13 then Z.quot timestamp 1000
            else if len =? 16 then Z.quot timestamp 1000000
            else if len =? 19 then Z.quot timestamp 1000000000
            else 0 in
  go_unix ts (ze_local z).

(** src/extend/time/time.go:110-113, CreateFromDateTime *)
Definition CreateFromDateTime (year month day hour minute second : Z) : option ActorGoTime :=
  l ← offsetLocation g; Some (go_date year month day hour minute second 0 l).
End Create.

(** ** Getters *)

(** src/extend/time/time_get.go:11-13, ActorGoTime.Timezone *)
Definition Timezone (c : ActorGoTime) : str :=
  loc_name (t_loc c).

(** src/extend/time/time_get.go:194-197, ActorGoTime.StartOfYear *)
Definition StartOfYear (c : ActorGoTime) : ActorGoTime :=
  go_date (gt_year c) 1 1 0 0 0 0 (t_loc c).

(** src/extend/time/time_get.go:200-203, ActorGoTime.EndOfYear *)
Definition EndOfYear (c : ActorGoTime) : ActorGoTime :=
  go_date (gt_year c) 12 31 23 59 59 0 (t_loc c).

(** src/extend/time/time_get.go:206-209, ActorGoTime.StartOfMonth *)
Definition StartOfMonth (c : ActorGoTime) : ActorGoTime :=
  go_date (gt_year c) (gt_month c) 1 0 0 0 0 (t_loc c).

(** src/extend/time/time_get.go:212-215, ActorGoTime.EndOfMonth *)
Definition EndOfMonth (c : ActorGoTime) : ActorGoTime :=
  gt_adddate 0 1 (-1) (go_date (gt_year c) (gt_month c) 1 23 59 59 0 (t_loc c)).

(** src/extend/time/time_get.go:218-226, ActorGoTime.StartOfWeek *)
Definition StartOfWeek (c : ActorGoTime) : ActorGoTime :=
  let days := if gt_weekday c =? 0 then DaysPerWeek else gt_weekday c in
  gt_adddate 0 0 (1 - days) (go_date (gt_year c) (gt_month c) (gt_day c) 0 0 0 0 (t_loc c)).

(** src/extend/time/time_get.go:229-237, ActorGoTime.EndOfWeek *)
Definition EndOfWeek (c : ActorGoTime) : ActorGoTime :=
  let days := if gt_weekday c =? 0 then DaysPerWeek else gt_weekday c in
  gt_adddate 0 0 (DaysPerWeek - days) (go_date (gt_year c) (gt_month c) (gt_day c) 23 59 59 0 (t_loc c)).

(** src/extend/time/time_get.go:240-243, ActorGoTime.StartOfDay *)
Definition StartOfDay (c : ActorGoTime) : ActorGoTime :=
  go_date (gt_year c) (gt_month c) (gt_day c) 0 0 0 0 (t_loc c).

(** src/extend/time/time_get.go:246-249, ActorGoTime.EndOfDay *)
Definition EndOfDay (c : ActorGoTime) : ActorGoTime :=
  go_date (gt_year c) (gt_month c) (gt_day c) 23 59 59 0 (t_loc c).

(** src/extend/time/time_get.go:252-255, ActorGoTime.StartOfHour *)
Definition StartOfHour (c : ActorGoTime) : ActorGoTime :=
  go_date (gt_year c) (gt_month c) (gt_day c) (gt_hour c) 0 0 0 (t_loc c).

(** src/extend/time/time_get.go:258-261, ActorGoTime.EndOfHour *)
Definition EndOfHour (c : ActorGoTime) : ActorGoTime :=
  go_date (gt_year c) (gt_month c) (gt_day c) (gt_hour c) 59 59 0 (t_loc c).

(** src/extend/time/time_get.go:264-267, ActorGoTime.StartOfMinute *)
Definition StartOfMinute (c : ActorGoTime) : ActorGoTime :=
  go_date (gt_year c) (gt_month c) (gt_day c) (gt_hour c) (gt_minute c) 0 0 (t_loc c).

(** src/extend/time/time_get.go:270-273, ActorGoTime.EndOfMinute *)
Definition EndOfMinute (c : ActorGoTime) : ActorGoTime :=
  go_date (gt_year c) (gt_month c) (gt_day c) (gt_hour c) (gt_minute c) 59 0 (t_loc c).

(** src/extend/time/time_get.go:276-279, ActorGoTime.StartOfSecond *)
Definition StartOfSecond (c : ActorGoTime) : ActorGoTime :=
  go_date (gt_year c) (gt_month c) (gt_day c) (gt_hour c) (gt_minute c) (gt_second c) 0 (t_loc c).

(** src/extend/time/time_get.go:282-285, ActorGoTime.EndOfSecond *)
Definition EndOfSecond (c : ActorGoTime) : ActorGoTime :=
  go_date (gt_year c) (gt_month c) (gt_day c) (gt_hour c) (gt_minute c) (gt_second c) 999999999 (t_loc c).

(** *** Fields: all of them are 0 for the zero time (the weekday is -1). *)

(** src/extend/time/time_get.go:36-41, ActorGoTime.MonthOfYear *)
Definition MonthOfYear (c : ActorGoTime) : Z :=
  if gt_iszero c then 0 else gt_month c.

(** src/extend/time/time_get.go:44-49, ActorGoTime.DayOfYear *)
Definition DayOfYear (c : ActorGoTime) : Z :=
  if gt_iszero c then 0 else gt_yearday c.

(** src/extend/time/time_get.go:52-57, ActorGoTime.DayOfMonth *)
Definition DayOfMonth (c : ActorGoTime) : Z :=
  if gt_iszero c then 0 else gt_day c.

(** src/extend/time/time_get.go:60-69, ActorGoTime.DayOfWeek *)
Definition DayOfWeek (c : ActorGoTime) : Z :=
  if gt_iszero c then 0 else if gt_weekday c =? 0 then DaysPerWeek else gt_weekday c.

(** src/extend/time/time_get.go:72-78, ActorGoTime.WeekOfYear *)
Definition WeekOfYear (c : ActorGoTime) : Z :=
  if gt_iszero c then 0 else (gt_isoweek c).2.

(** src/extend/time/time_get.go:81-90, ActorGoTime.WeekOfMonth *)
Definition WeekOfMonth (c : ActorGoTime) : Z :=
  if gt_iszero c then 0 else if gt_day c <? DaysPerWeek then 1 else Z.rem (gt_day c) DaysPerWeek + 1.

(** src/extend/time/time_get.go:93-98, ActorGoTime.Year *)
Definition Year (c : ActorGoTime) : Z :=
  if gt_iszero c then 0 else gt_year c.

(** src/extend/time/time_get.go:120-125, ActorGoTime.Month *)
Definition Month (c : ActorGoTime) : Z :=
  if gt_iszero c then 0 else MonthOfYear c.

(** src/extend/time/time_get.go:101-117, ActorGoTime.Quarter *)
Definition Quarter (c : ActorGoTime) : Z :=
  if gt_iszero c then 0 else if 10 <=? Month c then 4 else if 7 <=? Month c then 3
       else if 4 <=? Month c then 2 else if 1 <=? Month c then 1 else 0.

(** src/extend/time/time_get.go:128-133, ActorGoTime.Week *)
Definition Week (c : ActorGoTime) : Z :=
  if gt_iszero c then -1 else gt_weekday c.

(** src/extend/time/time_get.go:136-141, ActorGoTime.Day *)
Definition Day (c : ActorGoTime) : Z :=
  if gt_iszero c then 0 else DayOfMonth c.

(** src/extend/time/time_get.go:144-149, ActorGoTime.Hour *)
Definition Hour (c : ActorGoTime) : Z :=
  if gt_iszero c then 0 else gt_hour c.

(** src/extend/time/time_get.go:152-157, ActorGoTime.Minute *)
Definition Minute (c : ActorGoTime) : Z :=
  if gt_iszero c then 0 else gt_minute c.

(** src/extend/time/time_get.go:160-165, ActorGoTime.Second *)
Definition Second (c : ActorGoTime) : Z :=
  if gt_iszero c then 0 else gt_second c.

(** src/extend/time/time_get.go:168-173, ActorGoTime.Millisecond *)
Definition Millisecond (c : ActorGoTime) : Z :=
  if gt_iszero c then 0 else Z.quot (t_nsec c) 1000000.

(** src/extend/time/time_get.go:176-181, ActorGoTime.Microsecond *)
Definition Microsecond (c : ActorGoTime) : Z :=
  if gt_iszero c then 0 else Z.quot (t_nsec c) 1000000000.

(** src/extend/time/time_get.go:184-189, ActorGoTime.Nanosecond *)
Definition Nanosecond (c : ActorGoTime) : Z :=
  if gt_iszero c then 0 else t_nsec c.

(** src/extend/time/time_compare.go:24-30, ActorGoTime.IsLeapYear *)
Definition IsLeapYear (c : ActorGoTime) : bool :=
  let year := Year c in
  (Z.rem year 400 =? 0) || ((Z.rem year 4 =? 0) && negb (Z.rem year 100 =? 0)).

(** src/extend/time/time_get.go:16-25, ActorGoTime.DaysInYear *)
Definition DaysInYear (c : ActorGoTime) : Z :=
  if gt_iszero c then 0 else if IsLeapYear c then DaysPerLeapYear else DaysPerNormalYear.


(** *** Periods: [NewTime] without the offset returns its argument. *)

(** src/extend/time/time_get.go:28-33, ActorGoTime.DaysInMonth *)
Definition DaysInMonth (c : ActorGoTime) : Z :=
  if gt_iszero c then 0 else Day (EndOfMonth c).

(** src/extend/time/time_get.go:6-8, ActorGoTime.Copy *)
Definition Copy (g : ctime_vars) (c : ActorGoTime) : option ActorGoTime :=
  NewTime g c true.

(** *** Creation from the clock *)

(** src/extend/time/time.go:116-120, CreateFromDate *)
Definition CreateFromDate (g : ctime_vars) (now : GoTime) (year month day : Z) : option ActorGoTime :=
  n ← Now g now; Some (go_date year month day (Hour n) (Minute n) (Second n) 0 (t_loc n)).

(** src/extend/time/time.go:123-127, CreateFromTime *)
Definition CreateFromTime (g : ctime_vars) (now : GoTime) (hour minute second : Z) : option ActorGoTime :=
  n ← Now g now; Some (go_date (Year n) (gt_month n) (Day n) hour minute second 0 (t_loc n)).

(** [time.ParseDuration] is an argument; the error only changes its text. *)
(** src/extend/time/time.go:130-136, ParseByDuration *)
Definition ParseByDuration (parse : str -> option Z) (duration : str) : option Z :=
  parse duration.

(** [value>>31] is the arithmetic shift. *)
(** src/extend/time/time.go:139-141, GetAbsValue *)
Definition GetAbsValue (value : Z) : Z := isub (Z.lxor value (Z.shiftr value 31)) (Z.shiftr value 31).

(** ** Numbers and text *)

(** src/extend/time/time_to.go:8-11, ActorGoTime.ToSecond *)
Definition ToSecond (c : ActorGoTime) : Z :=
  t_unix c.

(** src/extend/time/time_to.go:14-16, ActorGoTime.ToMillisecond *)
Definition ToMillisecond (c : ActorGoTime) : Z :=
  gt_unixmilli c.

(** src/extend/time/time_to.go:18-21, ActorGoTime.ToMillisecondString *)
Definition ToMillisecondString (c : ActorGoTime) : str :=
  ToString (AInt64 (ToMillisecond c)).

(** src/extend/time/time_to.go:24-26, ActorGoTime.ToMicrosecond *)
Definition ToMicrosecond (c : ActorGoTime) : Z :=
  gt_unixmicro c.

(** src/extend/time/time_to.go:29-31, ActorGoTime.ToNanosecond *)
Definition ToNanosecond (c : ActorGoTime) : Z :=
  gt_unixnano c.

(** src/extend/time/time_to.go:34-36, ActorGoTime.ToDateMillisecondFormat *)
Definition ToDateMillisecondFormat (c : ActorGoTime) : str :=
  gt_format DateTimeMillisecondFormat c.

(** src/extend/time/time_to.go:39-41, ActorGoTime.ToDateTimeFormat *)
Definition ToDateTimeFormat (c : ActorGoTime) : str :=
  gt_format DateTimeFormat c.

(** src/extend/time/time_to.go:44-46, ActorGoTime.ToDateFormat *)
Definition ToDateFormat (c : ActorGoTime) : str :=
  gt_format DateFormat c.

(** src/extend/time/time_to.go:49-51, ActorGoTime.ToTimeFormat *)
Definition ToTimeFormat (c : ActorGoTime) : str :=
  gt_format TimeFormat c.

(** src/extend/time/time_to.go:54-56, ActorGoTime.ToShortDateTimeFormat *)
Definition ToShortDateTimeFormat (c : ActorGoTime) : str :=
  gt_format ShortDateTimeFormat c.

(** src/extend/time/time_to.go:59-61, ActorGoTime.ToShortDateFormat *)
Definition ToShortDateFormat (c : ActorGoTime) : str :=
  gt_format ShortDateFormat c.

(** src/extend/time/time_to.go:70-72, ActorGoTime.ToShortTimeFormat *)
Definition ToShortTimeFormat (c : ActorGoTime) : str :=
  gt_format ShortTimeFormat c.

(** src/extend/string/string.go:79-82, ToInt32D *)
Definition ToInt32D (value : str) (def : list Z) : Z := (ToInt32 value def).1.

(** src/extend/time/time_to.go:64-67, ActorGoTime.ToShortIntDateFormat *)
Definition ToShortIntDateFormat (c : ActorGoTime) : Z :=
  ToInt32D (ToShortDateFormat c) [0].

(** ** Differences *)

(** src/extend/time/time_diff.go:79-81, ActorGoTime.DiffInSeconds *)
Definition DiffInSeconds (c end_ : ActorGoTime) : Z :=
  isub (ToSecond end_) (ToSecond c).

(** src/extend/time/time_diff.go:84-86, ActorGoTime.DiffInSecondsWithAbs *)
Definition DiffInSecondsWithAbs (c end_ : ActorGoTime) : Z :=
  GetAbsValue (DiffInSeconds c end_).

(** src/extend/time/time_diff.go:49-51, ActorGoTime.DiffInDays *)
Definition DiffInDays (c end_ : ActorGoTime) : Z :=
  Z.quot (DiffInSeconds c end_) SecondsPerDay.

(** src/extend/time/time_diff.go:54-56, ActorGoTime.DiffInDaysWithAbs *)
Definition DiffInDaysWithAbs (c end_ : ActorGoTime) : Z :=
  GetAbsValue (DiffInDays c end_).

(** src/extend/time/time_diff.go:59-61, ActorGoTime.DiffInHours *)
Definition DiffInHours (c end_ : ActorGoTime) : Z :=
  Z.quot (DiffInSeconds c end_) SecondsPerHour.

(** src/extend/time/time_diff.go:64-66, ActorGoTime.DiffInHoursWithAbs *)
Definition DiffInHoursWithAbs (c end_ : ActorGoTime) : Z :=
  GetAbsValue (DiffInHours c end_).

(** src/extend/time/time_diff.go:69-71, ActorGoTime.DiffInMinutes *)
Definition DiffInMinutes (c end_ : ActorGoTime) : Z :=
  Z.quot (DiffInSeconds c end_) SecondsPerMinute.

(** src/extend/time/time_diff.go:74-76, ActorGoTime.DiffInMinutesWithAbs *)
Definition DiffInMinutesWithAbs (c end_ : ActorGoTime) : Z :=
  GetAbsValue (DiffInMinutes c end_).

(** src/extend/time/time_diff.go:39-41, ActorGoTime.DiffInWeeks *)
Definition DiffInWeeks (c end_ : ActorGoTime) : Z :=
  Z.quot (DiffInDays c end_) DaysPerWeek.

(** src/extend/time/time_diff.go:44-46, ActorGoTime.DiffInWeeksWithAbs *)
Definition DiffInWeeksWithAbs (c end_ : ActorGoTime) : Z :=
  GetAbsValue (DiffInWeeks c end_).

(** src/extend/time/time_diff.go:89-91, ActorGoTime.DiffInMillisecond *)
Definition DiffInMillisecond (c end_ : ActorGoTime) : Z :=
  isub (ToMillisecond end_) (ToMillisecond c).

(** src/extend/time/time_diff.go:94-96, ActorGoTime.DiffInMicrosecond *)
Definition DiffInMicrosecond (c end_ : ActorGoTime) : Z :=
  isub (ToMicrosecond end_) (ToMicrosecond c).

(** src/extend/time/time_diff.go:99-101, ActorGoTime.DiffInNanosecond *)
Definition DiffInNanosecond (c end_ : ActorGoTime) : Z :=
  isub (ToNanosecond end_) (ToNanosecond c).

(** src/extend/time/time_diff.go:14-31, ActorGoTime.DiffInMonths *)
Definition DiffInMonths (c end_ : ActorGoTime) : Z :=
  let dy := Year end_ - Year c in
  let dm0 := Month end_ - Month c in
  let dd := Day end_ - Day c in
  let dm := if dd <? 0 then dm0 - 1 else dm0 in
  if (dy =? 0) && (dm =? 0) then 0
  else if (dy =? 0) && negb (dm =? 0) && negb (dd =? 0) then
    if DiffInHoursWithAbs end_ c <? DaysInMonth c * HoursPerDay then 0 else dm
  else iadd (imul dy MonthsPerYear) dm.

(** src/extend/time/time_diff.go:34-36, ActorGoTime.DiffInMonthsWithAbs *)
Definition DiffInMonthsWithAbs (c end_ : ActorGoTime) : Z :=
  GetAbsValue (DiffInMonths c end_).

(** src/extend/time/time_diff.go:4-6, ActorGoTime.DiffInYears *)
Definition DiffInYears (c end_ : ActorGoTime) : Z :=
  Z.quot (DiffInMonths c end_) 12.

(** src/extend/time/time_diff.go:9-11, ActorGoTime.DiffInYearsWithAbs *)
Definition DiffInYearsWithAbs (c end_ : ActorGoTime) : Z :=
  GetAbsValue (DiffInYears c end_).

(** src/extend/time/time_diff.go:104-106, ActorGoTime.NowDiffMillisecond *)
Definition NowDiffMillisecond (g : ctime_vars) (now : GoTime) (c : ActorGoTime) : option Z :=
  n ← Now g now; Some (isub (ToMillisecond n) (ToMillisecond c)).

(** src/extend/time/time_diff.go:109-111, ActorGoTime.NowDiffSecond *)
Definition NowDiffSecond (g : ctime_vars) (now : GoTime) (c : ActorGoTime) : option Z :=
  n ← Now g now; Some (isub (ToSecond n) (ToSecond c)).

(** ** Moving in time *)

(** src/extend/time/time_traveler.go:66-68, ActorGoTime.AddYears *)
Definition AddYears (years : Z) (c : ActorGoTime) : ActorGoTime :=
  gt_adddate years 0 0 c.

(** src/extend/time/time_traveler.go:71-78, ActorGoTime.AddYearsNoOverflow *)
Definition AddYearsNoOverflow (years : Z) (c : ActorGoTime) : ActorGoTime :=
  let last := gt_adddate 0 1 (-1) (go_date (iadd (Year c) years) (gt_month c) 1 (Hour c) (Minute c) (Second c) (Nanosecond c) (t_loc c)) in
  let day := Z.min (Day c) (gt_day last) in
  go_date (gt_year last) (gt_month last) day (Hour c) (Minute c) (Second c) (Nanosecond c) (t_loc c).

(** src/extend/time/time_traveler.go:91-93, ActorGoTime.SubYears *)
Definition SubYears (years : Z) (c : ActorGoTime) : ActorGoTime :=
  AddYears (ineg years) c.

(** src/extend/time/time_traveler.go:96-98, ActorGoTime.SubYearsNoOverflow *)
Definition SubYearsNoOverflow (years : Z) (c : ActorGoTime) : ActorGoTime :=
  AddYearsNoOverflow (ineg years) c.

(** src/extend/time/time_traveler.go:81-83, ActorGoTime.AddYear *)
Definition AddYear (c : ActorGoTime) : ActorGoTime :=
  AddYears 1 c.

(** src/extend/time/time_traveler.go:86-88, ActorGoTime.AddYearNoOverflow *)
Definition AddYearNoOverflow (c : ActorGoTime) : ActorGoTime :=
  AddYearsNoOverflow 1 c.

(** src/extend/time/time_traveler.go:101-103, ActorGoTime.SubYear *)
Definition SubYear (c : ActorGoTime) : ActorGoTime :=
  SubYears 1 c.

(** src/extend/time/time_traveler.go:106-108, ActorGoTime.SubYearNoOverflow *)
Definition SubYearNoOverflow (c : ActorGoTime) : ActorGoTime :=
  SubYearsNoOverflow 1 c.

(** src/extend/time/time_traveler.go:26-28, ActorGoTime.AddCenturies *)
Definition AddCenturies (centuries : Z) (c : ActorGoTime) : ActorGoTime :=
  AddYears (imul YearsPerCentury centuries) c.

(** src/extend/time/time_traveler.go:31-33, ActorGoTime.AddCenturiesNoOverflow *)
Definition AddCenturiesNoOverflow (centuries : Z) (c : ActorGoTime) : ActorGoTime :=
  AddYearsNoOverflow (imul centuries YearsPerCentury) c.

(** src/extend/time/time_traveler.go:46-48, ActorGoTime.SubCenturies *)
Definition SubCenturies (centuries : Z) (c : ActorGoTime) : ActorGoTime :=
  SubYears (imul YearsPerCentury centuries) c.

(** src/extend/time/time_traveler.go:51-53, ActorGoTime.SubCenturiesNoOverflow *)
Definition SubCenturiesNoOverflow (centuries : Z) (c : ActorGoTime) : ActorGoTime :=
  SubYearsNoOverflow (imul centuries YearsPerCentury) c.

(** src/extend/time/time_traveler.go:36-38, ActorGoTime.AddCentury *)
Definition AddCentury (c : ActorGoTime) : ActorGoTime :=
  AddCenturies 1 c.

(** src/extend/time/time_traveler.go:41-43, ActorGoTime.AddCenturyNoOverflow *)
Definition AddCenturyNoOverflow (c : ActorGoTime) : ActorGoTime :=
  AddCenturiesNoOverflow 1 c.

(** src/extend/time/time_traveler.go:56-58, ActorGoTime.SubCentury *)
Definition SubCentury (c : ActorGoTime) : ActorGoTime :=
  SubCenturies 1 c.

(** src/extend/time/time_traveler.go:61-63, ActorGoTime.SubCenturyNoOverflow *)
Definition SubCenturyNoOverflow (c : ActorGoTime) : ActorGoTime :=
  SubCenturiesNoOverflow 1 c.

(** src/extend/time/time_traveler.go:151-153, ActorGoTime.AddMonths *)
Definition AddMonths (months : Z) (c : ActorGoTime) : ActorGoTime :=
  gt_adddate 0 months 0 c.

(** src/extend/time/time_traveler.go:156-165, ActorGoTime.AddMonthsNoOverflow *)
Definition AddMonthsNoOverflow (months : Z) (c : ActorGoTime) : ActorGoTime :=
  let month := iadd (gt_month c) months in
  let last := gt_adddate 0 1 (-1) (go_date (Year c) month 1 (Hour c) (Minute c) (Second c) (Nanosecond c) (t_loc c)) in
  let day := Z.min (Day c) (gt_day last) in
  go_date (gt_year last) (gt_month last) day (Hour c) (Minute c) (Second c) (Nanosecond c) (t_loc c).

(** src/extend/time/time_traveler.go:178-180, ActorGoTime.SubMonths *)
Definition SubMonths (months : Z) (c : ActorGoTime) : ActorGoTime :=
  AddMonths (ineg months) c.

(** src/extend/time/time_traveler.go:183-185, ActorGoTime.SubMonthsNoOverflow *)
Definition SubMonthsNoOverflow (months : Z) (c : ActorGoTime) : ActorGoTime :=
  AddMonthsNoOverflow (ineg months) c.

(** src/extend/time/time_traveler.go:168-170, ActorGoTime.AddMonth *)
Definition AddMonth (c : ActorGoTime) : ActorGoTime :=
  AddMonths 1 c.

(** src/extend/time/time_traveler.go:173-175, ActorGoTime.AddMonthNoOverflow *)
Definition AddMonthNoOverflow (c : ActorGoTime) : ActorGoTime :=
  AddMonthsNoOverflow 1 c.

(** src/extend/time/time_traveler.go:188-190, ActorGoTime.SubMonth *)
Definition SubMonth (c : ActorGoTime) : ActorGoTime :=
  SubMonths 1 c.

(** src/extend/time/time_traveler.go:193-195, ActorGoTime.SubMonthNoOverflow *)
Definition SubMonthNoOverflow (c : ActorGoTime) : ActorGoTime :=
  SubMonthsNoOverflow 1 c.

(** src/extend/time/time_traveler.go:111-113, ActorGoTime.AddQuarters *)
Definition AddQuarters (quarters : Z) (c : ActorGoTime) : ActorGoTime :=
  AddMonths (imul quarters MonthsPerQuarter) c.

(** src/extend/time/time_traveler.go:116-118, ActorGoTime.AddQuartersNoOverflow *)
Definition AddQuartersNoOverflow (quarters : Z) (c : ActorGoTime) : ActorGoTime :=
  AddMonthsNoOverflow (imul quarters MonthsPerQuarter) c.

(** src/extend/time/time_traveler.go:131-133, ActorGoTime.SubQuarters *)
Definition SubQuarters (quarters : Z) (c : ActorGoTime) : ActorGoTime :=
  AddQuarters (ineg quarters) c.

(** src/extend/time/time_traveler.go:136-138, ActorGoTime.SubQuartersNoOverflow *)
Definition SubQuartersNoOverflow (quarters : Z) (c : ActorGoTime) : ActorGoTime :=
  AddMonthsNoOverflow (imul (ineg quarters) MonthsPerQuarter) c.

(** src/extend/time/time_traveler.go:121-123, ActorGoTime.AddQuarter *)
Definition AddQuarter (c : ActorGoTime) : ActorGoTime :=
  AddQuarters 1 c.

(** src/extend/time/time_traveler.go:126-128, ActorGoTime.AddQuarterNoOverflow *)
Definition AddQuarterNoOverflow (c : ActorGoTime) : ActorGoTime :=
  AddQuartersNoOverflow 1 c.

(** src/extend/time/time_traveler.go:141-143, ActorGoTime.SubQuarter *)
Definition SubQuarter (c : ActorGoTime) : ActorGoTime :=
  SubQuarters 1 c.

(** src/extend/time/time_traveler.go:146-148, ActorGoTime.SubQuarterNoOverflow *)
Definition SubQuarterNoOverflow (c : ActorGoTime) : ActorGoTime :=
  SubQuartersNoOverflow 1 c.

(** src/extend/time/time_traveler.go:218-220, ActorGoTime.AddDays *)
Definition AddDays (days : Z) (c : ActorGoTime) : ActorGoTime :=
  gt_adddate 0 0 days c.

(** src/extend/time/time_traveler.go:228-230, ActorGoTime.SubDays *)
Definition SubDays (days : Z) (c : ActorGoTime) : ActorGoTime :=
  AddDays (ineg days) c.

(** src/extend/time/time_traveler.go:223-225, ActorGoTime.AddDay *)
Definition AddDay (c : ActorGoTime) : ActorGoTime :=
  AddDays 1 c.

(** src/extend/time/time_traveler.go:233-235, ActorGoTime.SubDay *)
Definition SubDay (c : ActorGoTime) : ActorGoTime :=
  SubDays 1 c.

(** src/extend/time/time_traveler.go:198-200, ActorGoTime.AddWeeks *)
Definition AddWeeks (weeks : Z) (c : ActorGoTime) : ActorGoTime :=
  AddDays (imul weeks DaysPerWeek) c.

(** src/extend/time/time_traveler.go:208-210, ActorGoTime.SubWeeks *)
Definition SubWeeks (weeks : Z) (c : ActorGoTime) : ActorGoTime :=
  SubDays (imul weeks DaysPerWeek) c.

(** src/extend/time/time_traveler.go:203-205, ActorGoTime.AddWeek *)
Definition AddWeek (c : ActorGoTime) : ActorGoTime :=
  AddWeeks 1 c.

(** src/extend/time/time_traveler.go:213-215, ActorGoTime.SubWeek *)
Definition SubWeek (c : ActorGoTime) : ActorGoTime :=
  SubWeeks 1 c.

(** src/extend/time/time_traveler.go:238-241, ActorGoTime.AddHours *)
Definition AddHours (hours : Z) (c : ActorGoTime) : ActorGoTime :=
  gt_add (imul hours 3600000000000) c.

(** src/extend/time/time_traveler.go:244-246, ActorGoTime.AddHour *)
Definition AddHour (c : ActorGoTime) : ActorGoTime :=
  AddHours 1 c.

(** src/extend/time/time_traveler.go:249-251, ActorGoTime.SubHours *)
Definition SubHours (hours : Z) (c : ActorGoTime) : ActorGoTime :=
  AddHours (ineg hours) c.

(** src/extend/time/time_traveler.go:254-256, ActorGoTime.SubHour *)
Definition SubHour (c : ActorGoTime) : ActorGoTime :=
  SubHours 1 c.

(** src/extend/time/time_traveler.go:259-262, ActorGoTime.AddMinutes *)
Definition AddMinutes (minutes : Z) (c : ActorGoTime) : ActorGoTime :=
  gt_add (imul minutes 60000000000) c.

(** src/extend/time/time_traveler.go:265-267, ActorGoTime.AddMinute *)
Definition AddMinute (c : ActorGoTime) : ActorGoTime :=
  AddMinutes 1 c.

(** src/extend/time/time_traveler.go:270-272, ActorGoTime.SubMinutes *)
Definition SubMinutes (minutes : Z) (c : ActorGoTime) : ActorGoTime :=
  AddMinutes (ineg minutes) c.

(** src/extend/time/time_traveler.go:275-277, ActorGoTime.SubMinute *)
Definition SubMinute (c : ActorGoTime) : ActorGoTime :=
  SubMinutes 1 c.

(** src/extend/time/time_traveler.go:280-283, ActorGoTime.AddSeconds *)
Definition AddSeconds (seconds : Z) (c : ActorGoTime) : ActorGoTime :=
  gt_add (imul seconds 1000000000) c.

(** src/extend/time/time_traveler.go:286-288, ActorGoTime.AddSecond *)
Definition AddSecond (c : ActorGoTime) : ActorGoTime :=
  AddSeconds 1 c.

(** src/extend/time/time_traveler.go:291-293, ActorGoTime.SubSeconds *)
Definition SubSeconds (seconds : Z) (c : ActorGoTime) : ActorGoTime :=
  AddSeconds (ineg seconds) c.

(** src/extend/time/time_traveler.go:296-298, ActorGoTime.SubSecond *)
Definition SubSecond (c : ActorGoTime) : ActorGoTime :=
  SubSeconds 1 c.

(** [None] is the error; the receiver is unchanged then. *)
(** src/extend/time/time_traveler.go:9-17, ActorGoTime.AddDuration *)
Definition AddDuration (parse : str -> option Z) (duration : str) (c : ActorGoTime) : option ActorGoTime :=
  td ← ParseByDuration parse duration; Some (gt_add td c).

(** src/extend/time/time_traveler.go:21-23, ActorGoTime.SubDuration *)
Definition SubDuration (parse : str -> option Z) (duration : str) (c : ActorGoTime) : option ActorGoTime :=
  AddDuration parse (String.append "-" duration) c.

(** ** Setters *)

(** [None] is the error; the receiver is unchanged then. *)
(** src/extend/time/time_set.go:5-13, ActorGoTime.SetTimezone *)
Definition SetTimezone (z : zone_env) (timezone : str) (c : ActorGoTime) : option ActorGoTime :=
  loc ← LoadLocation z timezone; Some (gt_in loc c).

(** src/extend/time/time_set.go:15-17, ActorGoTime.SetDate *)
Definition SetDate (year month day : Z) (c : ActorGoTime) : ActorGoTime :=
  go_date year month day (Hour c) (Minute c) (Second c) (Nanosecond c) (t_loc c).

(** src/extend/time/time_set.go:19-21, ActorGoTime.SetTime *)
Definition SetTime (hour mintue second nanoSecond : Z) (c : ActorGoTime) : ActorGoTime :=
  go_date (Year c) (gt_month c) (Day c) hour mintue second nanoSecond (t_loc c).

(** src/extend/time/time_set.go:24-26, ActorGoTime.SetYear *)
Definition SetYear (year : Z) (c : ActorGoTime) : ActorGoTime :=
  SetDate year (Month c) (Day c) c.

(** src/extend/time/time_set.go:29-31, ActorGoTime.SetMonth *)
Definition SetMonth (month : Z) (c : ActorGoTime) : ActorGoTime :=
  SetDate (Year c) month (Day c) c.

(** src/extend/time/time_set.go:34-36, ActorGoTime.SetDay *)
Definition SetDay (day : Z) (c : ActorGoTime) : ActorGoTime :=
  SetDate (Year c) (Month c) day c.

(** src/extend/time/time_set.go:39-41, ActorGoTime.SetHour *)
Definition SetHour (hour : Z) (c : ActorGoTime) : ActorGoTime :=
  SetTime hour (Minute c) (Second c) (Nanosecond c) c.

(** src/extend/time/time_set.go:44-46, ActorGoTime.SetMinute *)
Definition SetMinute (minute : Z) (c : ActorGoTime) : ActorGoTime :=
  SetTime (Hour c) minute (Second c) (Nanosecond c) c.

(** src/extend/time/time_set.go:49-51, ActorGoTime.SetSecond *)
Definition SetSecond (second : Z) (c : ActorGoTime) : ActorGoTime :=
  SetTime (Hour c) (Minute c) second (Nanosecond c) c.

(** src/extend/time/time_set.go:54-56, ActorGoTime.SetNanoSecond *)
Definition SetNanoSecond (nanoSecond : Z) (c : ActorGoTime) : ActorGoTime :=
  SetTime (Hour c) (Minute c) (Second c) nanoSecond c.

(** ** Comparisons *)

(** src/extend/time/time_compare.go:6-9, ActorGoTime.IsNow *)
Definition IsNow (g : ctime_vars) (now : GoTime) (c : ActorGoTime) : option bool :=
  n ← Now g now; Some (ToSecond c =? ToSecond n).

(** src/extend/time/time_compare.go:12-15, ActorGoTime.IsFuture *)
Definition IsFuture (g : ctime_vars) (now : GoTime) (c : ActorGoTime) : option bool :=
  n ← Now g now; Some (ToSecond n <? ToSecond c).

(** src/extend/time/time_compare.go:18-21, ActorGoTime.IsPast *)
Definition IsPast (g : ctime_vars) (now : GoTime) (c : ActorGoTime) : option bool :=
  n ← Now g now; Some (ToSecond c <? ToSecond n).

(** src/extend/time/time_compare.go:33-36, ActorGoTime.IsLongYear *)
Definition IsLongYear (c : ActorGoTime) : bool :=
  (gt_isoweek (go_date (Year c) 12 31 0 0 0 0 (t_loc c))).2 =? WeeksPerLongYear.

(** src/extend/time/time_compare.go:39-41, ActorGoTime.IsJanuary *)
Definition IsJanuary (c : ActorGoTime) : bool :=
  gt_month c =? 1.

(** src/extend/time/time_compare.go:44-46, ActorGoTime.IsFebruary *)
Definition IsFebruary (c : ActorGoTime) : bool :=
  gt_month c =? 2.

(** src/extend/time/time_compare.go:49-51, ActorGoTime.IsMarch *)
Definition IsMarch (c : ActorGoTime) : bool :=
  gt_month c =? 3.

(** src/extend/time/time_compare.go:54-56, ActorGoTime.IsApril *)
Definition IsApril (c : ActorGoTime) : bool :=
  gt_month c =? 4.

(** src/extend/time/time_compare.go:59-61, ActorGoTime.IsMay *)
Definition IsMay (c : ActorGoTime) : bool :=
  gt_month c =? 5.

(** src/extend/time/time_compare.go:64-66, ActorGoTime.IsJune *)
Definition IsJune (c : ActorGoTime) : bool :=
  gt_month c =? 6.

(** src/extend/time/time_compare.go:69-71, ActorGoTime.IsJuly *)
Definition IsJuly (c : ActorGoTime) : bool :=
  gt_month c =? 7.

(** src/extend/time/time_compare.go:74-76, ActorGoTime.IsAugust *)
Definition IsAugust (c : ActorGoTime) : bool :=
  gt_month c =? 8.

(** src/extend/time/time_compare.go:79-81, ActorGoTime.IsSeptember *)
Definition IsSeptember (c : ActorGoTime) : bool :=
  gt_month c =? 9.

(** src/extend/time/time_compare.go:84-86, ActorGoTime.IsOctober *)
Definition IsOctober (c : ActorGoTime) : bool :=
  gt_month c =? 10.

(** src/extend/time/time_compare.go:89-91, ActorGoTime.IsNovember *)
Definition IsNovember (c : ActorGoTime) : bool :=
  gt_month c =? 11.

(** src/extend/time/time_compare.go:94-96, ActorGoTime.IsDecember *)
Definition IsDecember (c : ActorGoTime) : bool :=
  gt_month c =? 12.

(** src/extend/time/time_compare.go:129-131, ActorGoTime.IsSunday *)
Definition IsSunday (c : ActorGoTime) : bool :=
  gt_weekday c =? 0.

(** src/extend/time/time_compare.go:99-101, ActorGoTime.IsMonday *)
Definition IsMonday (c : ActorGoTime) : bool :=
  gt_weekday c =? 1.

(** src/extend/time/time_compare.go:104-106, ActorGoTime.IsTuesday *)
Definition IsTuesday (c : ActorGoTime) : bool :=
  gt_weekday c =? 2.

(** src/extend/time/time_compare.go:109-111, ActorGoTime.IsWednesday *)
Definition IsWednesday (c : ActorGoTime) : bool :=
  gt_weekday c =? 3.

(** src/extend/time/time_compare.go:114-116, ActorGoTime.IsThursday *)
Definition IsThursday (c : ActorGoTime) : bool :=
  gt_weekday c =? 4.

(** src/extend/time/time_compare.go:119-121, ActorGoTime.IsFriday *)
Definition IsFriday (c : ActorGoTime) : bool :=
  gt_weekday c =? 5.

(** src/extend/time/time_compare.go:124-126, ActorGoTime.IsSaturday *)
Definition IsSaturday (c : ActorGoTime) : bool :=
  gt_weekday c =? 6.

(** src/extend/time/time_compare.go:134-136, ActorGoTime.IsWeekday *)
Definition IsWeekday (c : ActorGoTime) : bool :=
  negb (IsSaturday c) && negb (IsSunday c).

(** src/extend/time/time_compare.go:139-141, ActorGoTime.IsWeekend *)
Definition IsWeekend (c : ActorGoTime) : bool :=
  IsSaturday c || IsSunday c.

(** src/extend/time/time_compare.go:144-148, ActorGoTime.IsYesterday *)
Definition IsYesterday (g : ctime_vars) (now : GoTime) (c : ActorGoTime) : option bool :=
  n ← Now g now; Some (String.eqb (ToDateFormat c) (ToDateFormat (SubDay n))).

(** src/extend/time/time_compare.go:151-154, ActorGoTime.IsToday *)
Definition IsToday (g : ctime_vars) (now : GoTime) (c : ActorGoTime) : option bool :=
  n ← Now g now; Some (String.eqb (ToDateFormat c) (ToDateFormat n)).

(** src/extend/time/time_compare.go:157-161, ActorGoTime.IsTomorrow *)
Definition IsTomorrow (g : ctime_vars) (now : GoTime) (c : ActorGoTime) : option bool :=
  n ← Now g now; Some (String.eqb (ToDateFormat c) (ToDateFormat (AddDay n))).
