(* ===== verification/CTimeLaws.v ===== *)
(** What the calendar helpers compute: periods, months without overflow, readings and their
    text, absolute values. Statements about instants assume that the location keeps one
    offset around them ([steady]); fixed-offset locations always do. *)

From Stdlib Require Import ZArith List Lia Bool String Ascii.
From stdpp Require Import base list option.
From S2P Require Import Prelude Strconv Facade Civil CTime.
Import ListNotations.

(** ** Well-formed times *)

Definition loc_wf (l : Location) : Prop := forall u, Z.abs (loc_offset l u) <= day_secs.
Definition time_wf (t : GoTime) : Prop := 0 <= t_nsec t < ns_per_s /\ loc_wf (t_loc t).

(** ** Periods *)

Inductive period := PYear | PMonth | PWeek | PDay | PHour | PMinute | PSecond.

Definition StartOf (p : period) : ActorGoTime -> ActorGoTime :=
  match p with
  | PYear => StartOfYear | PMonth => StartOfMonth | PWeek => StartOfWeek | PDay => StartOfDay
  | PHour => StartOfHour | PMinute => StartOfMinute | PSecond => StartOfSecond
  end.
Definition EndOf (p : period) : ActorGoTime -> ActorGoTime :=
  match p with
  | PYear => EndOfYear | PMonth => EndOfMonth | PWeek => EndOfWeek | PDay => EndOfDay
  | PHour => EndOfHour | PMinute => EndOfMinute | PSecond => EndOfSecond
  end.

(** The number of the period a reading lies in; weeks start on Mondays. *)
Definition period_no (p : period) (t : GoTime) : Z :=
  match p with
  | PYear => gt_year t
  | PMonth => month_index (gt_year t) (gt_month t)
  | PWeek => (gt_local t / day_secs + 3) / 7
  | PDay => gt_local t / day_secs
  | PHour => gt_local t / 3600
  | PMinute => gt_local t / 60
  | PSecond => gt_local t
  end.

(** The reading at which period [n] begins. *)
Definition period_start (p : period) (n : Z) : Z :=
  match p with
  | PYear => first_of_month (12 * n) * day_secs
  | PMonth => first_of_month n * day_secs
  | PWeek => (7 * n - 3) * day_secs
  | PDay => n * day_secs
  | PHour => n * 3600
  | PMinute => n * 60
  | PSecond => n
  end.

Lemma first_of_month_add (k : nat) i : first_of_month i <= first_of_month (i + Z.of_nat k).
Proof.
  induction k as [|k IH]; [rewrite Z.add_0_r; apply Z.le_refl|].
  replace (i + Z.of_nat (S k)) with (i + Z.of_nat k + 1) by lia.
  rewrite first_of_next_month. pose proof (len_of_month_range (i + Z.of_nat k)). lia.
Qed.

Lemma first_of_month_mono i j : i <= j -> first_of_month i <= first_of_month j.
Proof.
  intros H. pose proof (first_of_month_add (Z.to_nat (j - i)) i) as G.
  rewrite Z2Nat.id in G by lia. replace (i + (j - i)) with j in G by lia. exact G.
Qed.

Lemma month_holds_iff i n : first_of_month i <= n < first_of_month (i + 1) ->
  forall j, first_of_month j <= n < first_of_month (j + 1) <-> j = i.
Proof.
  intros H j. split; [|by intros ->]. intros H'.
  destruct (Z.lt_trichotomy i j) as [C|[C|C]]; [|by symmetry|].
  - pose proof (first_of_month_mono (i + 1) j). lia.
  - pose proof (first_of_month_mono (j + 1) i). lia.
Qed.

(** The month of a reading, numbered since year 0. *)
Definition gt_mi (t : GoTime) : Z := month_index (gt_year t) (gt_month t).

Lemma gt_month_range t : 1 <= gt_month t <= 12.
Proof. pose proof (local_parts t) as G. unfold gt_month. destruct (gt_date t) as [[y m] d]. apply G. Qed.

Lemma gt_day_range t : 1 <= gt_day t <= len_of_month (gt_mi t).
Proof.
  pose proof (local_parts t) as G. unfold gt_day, gt_mi, gt_year, gt_month.
  destruct (gt_date t) as [[y m] d]. destruct G as ([Hm Hd] & _). cbn.
  rewrite len_of_month_index by exact Hm. exact Hd.
Qed.

Lemma local_clock t : gt_local t mod day_secs = gt_hour t * 3600 + gt_minute t * 60 + gt_second t.
Proof. unfold gt_hour, gt_minute, gt_second, day_secs. zdiv. Qed.

Lemma local_day t : gt_local t / day_secs = first_of_month (gt_mi t) + (gt_day t - 1).
Proof.
  unfold gt_mi, gt_year, gt_month, gt_day, gt_date. pose proof (days_of_civil_of (gt_local t / day_secs)) as G.
  destruct (civil_of_days _) as [[y m] d]. destruct G as [[Hm Hd] E]. cbn.
  rewrite first_of_month_index by exact Hm. rewrite <- days_of_civil_day. symmetry. exact E.
Qed.

Lemma local_split t :
  gt_local t = (first_of_month (gt_mi t) + (gt_day t - 1)) * day_secs + gt_local t mod day_secs.
Proof. rewrite <- local_day. unfold day_secs. zdiv. Qed.

Lemma reading_month t :
  first_of_month (gt_mi t) <= gt_local t / day_secs < first_of_month (gt_mi t + 1).
Proof. rewrite local_day, first_of_next_month. pose proof (gt_day_range t). lia. Qed.

Lemma year_of_mi t n : gt_year t = n <-> 12 * n <= gt_mi t < 12 * n + 12.
Proof. unfold gt_mi, month_index. pose proof (gt_month_range t). lia. Qed.

(** A reading lies between the start of its period and the start of the next, and in no
    other. *)
Lemma period_no_iff p t n : period_no p t = n <-> period_start p n <= gt_local t < period_start p (n + 1).
Proof.
  pose proof (reading_month t) as Hm.
  assert (Hn : forall a b, a * day_secs <= gt_local t < b * day_secs <-> a <= gt_local t / day_secs < b)
    by (intros a b; unfold day_secs; zdiv).
  destruct p; cbn [period_no period_start]; fold (gt_mi t); unfold day_secs in *; try zdiv.
  - rewrite Hn, year_of_mi. replace (12 * (n + 1)) with (12 * n + 12) by lia.
    set (i := gt_mi t) in *. clearbody i. split; intros H.
    + pose proof (first_of_month_mono (12 * n) i). pose proof (first_of_month_mono (i + 1) (12 * n + 12)). lia.
    + destruct (Z.le_gt_cases (12 * n) i); [|pose proof (first_of_month_mono (i + 1) (12 * n)); lia].
      destruct (Z.lt_ge_cases i (12 * n + 12)); [lia|pose proof (first_of_month_mono (12 * n + 12) i); lia].
  - rewrite Hn. symmetry. rewrite (month_holds_iff _ _ Hm). split; congruence.
Qed.

(** ** Readings of the results *)

Lemma go_date_local l o a b y mo d h mi s ns : steady l o a b ->
  a <= (first_of_month (month_index y mo) + (d - 1)) * day_secs + h * 3600 + mi * 60 + (s + ns / ns_per_s) <= b ->
  gt_local (go_date y mo d h mi s ns l) =
    (first_of_month (month_index y mo) + (d - 1)) * day_secs + h * 3600 + mi * 60 + (s + ns / ns_per_s).
Proof.
  intros Hs Hr. unfold go_date. rewrite civil_secs_index. exact (gt_local_of_local l o a b _ _ Hs Hr).
Qed.

Lemma gt_adddate_eq ys ms ds t :
  gt_adddate ys ms ds t = go_date (gt_year t + ys) (gt_month t + ms) (gt_day t + ds)
    (gt_hour t) (gt_minute t) (gt_second t) (t_nsec t) (t_loc t).
Proof. unfold gt_adddate, gt_year, gt_month, gt_day. destruct (gt_date t) as [[y m] d]. reflexivity. Qed.

Lemma gt_adddate_local o a b ys ms ds t : steady (t_loc t) o a b -> 0 <= t_nsec t < ns_per_s ->
  a <= (first_of_month (gt_mi t + 12 * ys + ms) + (gt_day t + ds - 1)) * day_secs + gt_local t mod day_secs <= b ->
  gt_local (gt_adddate ys ms ds t) =
    (first_of_month (gt_mi t + 12 * ys + ms) + (gt_day t + ds - 1)) * day_secs + gt_local t mod day_secs.
Proof.
  intros Hs Hn. rewrite local_clock, gt_adddate_eq.
  replace (gt_mi t + 12 * ys + ms) with (month_index (gt_year t + ys) (gt_month t + ms))
    by (unfold gt_mi, month_index; lia).
  intros Hr. rewrite (go_date_local _ o a b); rewrite ?(Z.div_small _ _ Hn); try assumption; lia.
Qed.

Lemma gt_adddate_days o a b ds t : steady (t_loc t) o a b -> 0 <= t_nsec t < ns_per_s ->
  a <= gt_local t + ds * day_secs <= b -> gt_local (gt_adddate 0 0 ds t) = gt_local t + ds * day_secs.
Proof.
  intros Hs Hn Hr. pose proof (local_split t) as E.
  rewrite (gt_adddate_local o a b); rewrite ?Z.mul_0_r, ?Z.add_0_r; try assumption; unfold day_secs in *; lia.
Qed.

Lemma fields_mi t i d h mi s : 1 <= d <= len_of_month i -> clock_ok h mi s ->
  gt_local t = (first_of_month i + (d - 1)) * day_secs + h * 3600 + mi * 60 + s -> gt_mi t = i /\ gt_day t = d.
Proof.
  intros Hd Hc E. destruct (local_fields t i d h mi s Hd Hc E) as (Ed & _).
  unfold gt_mi, gt_year, gt_month, gt_day, month_index. rewrite Ed. cbn. split; [zdiv|reflexivity].
Qed.

Lemma ns_0 : 0 / ns_per_s = 0 /\ 0 mod ns_per_s = 0.
Proof. split; reflexivity. Qed.

Lemma weekday_back c : let days := if gt_weekday c =? 0 then DaysPerWeek else gt_weekday c in
  gt_local c / day_secs + (1 - days) = 7 * period_no PWeek c - 3.
Proof.
  unfold gt_weekday, weekday_of_days, period_no, DaysPerWeek. set (n := gt_local c / day_secs). clearbody n.
  destruct (Z.eqb_spec ((n + 4) mod 7) 0) as [E|E]; zdiv.
Qed.

Section Bounds.
Context (c : ActorGoTime) (o a b : Z) (Hs : steady (t_loc c) o a b).
(** Room for the period around the reading, and a month after it. *)
Context (Ha : a + 366 * day_secs <= gt_local c) (Hb : gt_local c <= b - 366 * day_secs).

Lemma date_c h mi s d : -7 <= d <= 40 -> 0 <= h * 3600 + mi * 60 + s < day_secs ->
  gt_local (go_date (gt_year c) (gt_month c) d h mi s 0 (t_loc c)) =
    (first_of_month (gt_mi c) + (d - 1)) * day_secs + h * 3600 + mi * 60 + s.
Proof.
  intros Hd Hc. pose proof (local_split c) as E. pose proof (gt_day_range c). pose proof (len_of_month_range (gt_mi c)).
  assert (0 <= gt_local c mod day_secs < day_secs) by (unfold day_secs; zdiv).
  rewrite (go_date_local _ o a b); rewrite ?(proj1 ns_0), ?Z.add_0_r; fold (gt_mi c); try assumption; unfold day_secs in *; lia.
Qed.

Lemma year_room : first_of_month (12 * gt_year c) <= first_of_month (gt_mi c) /\
  first_of_month (gt_mi c) + (gt_day c - 1) - 366 < first_of_month (12 * gt_year c).
Proof.
  replace (12 * gt_year c) with (month_index (gt_year c) 1) by (unfold month_index; lia).
  pose proof (gt_month_range c) as Hm. pose proof (gt_day_range c) as Hd. unfold gt_mi in *.
  rewrite len_of_month_index in Hd by lia. rewrite !first_of_month_index by lia.
  unfold days_of_civil. pose proof (days_of_month_range (is_leap (gt_year c)) (gt_month c) _ Hm Hd).
  pose proof (days_of_month_range (is_leap (gt_year c)) (gt_month c) 1 Hm ltac:(lia)).
  change (days_before_month (is_leap (gt_year c)) 1) with (0 + (if is_leap (gt_year c) && false then 1 else 0)).
  destruct (is_leap (gt_year c)); cbn [andb]; lia.
Qed.

Lemma next_year_room :
  first_of_month (12 * gt_year c) + 365 <= first_of_month (12 * gt_year c + 12) <= first_of_month (12 * gt_year c) + 366.
Proof.
  replace (12 * gt_year c + 12) with (month_index (gt_year c + 1) 1) by (unfold month_index; lia).
  replace (12 * gt_year c) with (month_index (gt_year c) 1) by (unfold month_index; lia).
  rewrite !first_of_month_index by lia. unfold days_of_civil. rewrite days_before_year_succ.
  pose proof (year_len_range (gt_year c)).
  assert (forall l : bool, days_before_month l 1 = 0) as -> by (intros []; reflexivity).
  assert (forall l : bool, days_before_month l 1 = 0) as -> by (intros []; reflexivity). lia.
Qed.

Lemma StartOf_local p : gt_local (StartOf p c) = period_start p (period_no p c).
Proof.
  pose proof (local_split c) as E. pose proof (local_day c) as Ed. pose proof (local_clock c) as Ec.
  pose proof (local_parts c) as G. destruct (gt_date c) as [[y m] d] eqn:Edate.
  destruct G as (_ & _ & Hh & Hmi & Hse). clear y m d Edate. pose proof (gt_day_range c) as Hd.
  pose proof (len_of_month_range (gt_mi c)) as Hl.
  assert (Hmod : 0 <= gt_local c mod day_secs < day_secs) by (unfold day_secs; zdiv). destruct p; cbn [StartOf period_start].
  - unfold StartOfYear. pose proof year_room as Hy.
    assert (Ei : month_index (gt_year c) 1 = 12 * gt_year c) by (unfold month_index; lia).
    rewrite (go_date_local _ o a b) by (try exact Hs; rewrite Ei; change (0 / ns_per_s) with 0; unfold day_secs in *; lia).
    rewrite Ei. change (0 / ns_per_s) with 0. cbn [period_no]. lia.
  - unfold StartOfMonth. rewrite date_c by (unfold day_secs; lia). cbn [period_no]. fold (gt_mi c). lia.
  - unfold StartOfWeek. pose proof (weekday_back c) as W. cbv zeta in *.
    assert (Hw : -7 <= 1 - (if gt_weekday c =? 0 then DaysPerWeek else gt_weekday c) <= 7)
      by (unfold gt_weekday, weekday_of_days, DaysPerWeek; destruct (_ =? _); zdiv).
    set (days := if gt_weekday c =? 0 then _ else _) in *.
    assert (Hl0 := date_c 0 0 0 (gt_day c) ltac:(lia) ltac:(unfold day_secs; lia)).
    rewrite (gt_adddate_days o a b); [rewrite Hl0; unfold day_secs in *; lia|exact Hs|split; reflexivity|].
    rewrite Hl0. unfold day_secs in *. lia.
  - unfold StartOfDay. rewrite date_c by (unfold day_secs; lia). cbn [period_no]. lia.
  - unfold StartOfHour. rewrite date_c by (unfold day_secs; lia). cbn [period_no]. unfold gt_hour, day_secs in *. zdiv.
  - unfold StartOfMinute. rewrite date_c by (unfold day_secs; lia). cbn [period_no]. unfold gt_hour, gt_minute, day_secs in *. zdiv.
  - unfold StartOfSecond. rewrite date_c by (unfold day_secs; lia). cbn [period_no]. lia.
Qed.

Lemma last_second p : gt_local (EndOf p c) = period_start p (period_no p c + 1) - 1.
Proof.
  pose proof (local_split c) as E. pose proof (local_day c) as Ed. pose proof (local_clock c) as Ec.
  pose proof (local_parts c) as G. destruct (gt_date c) as [[y m] d] eqn:Edate.
  destruct G as (_ & _ & Hh & Hmi & Hse). clear y m d Edate. pose proof (gt_day_range c) as Hd.
  pose proof (len_of_month_range (gt_mi c)) as Hl.
  assert (Hmod : 0 <= gt_local c mod day_secs < day_secs) by (unfold day_secs; zdiv). destruct p; cbn [EndOf period_start].
  - unfold EndOfYear. pose proof year_room as Hy. pose proof next_year_room as Hy'.
    assert (Ei : month_index (gt_year c) 12 = 12 * gt_year c + 11) by (unfold month_index; lia).
    pose proof (first_of_next_month (12 * gt_year c + 11)) as En.
    replace (12 * gt_year c + 11 + 1) with (12 * gt_year c + 12) in En by lia.
    assert (len_of_month (12 * gt_year c + 11) = 31) as El.
    { rewrite <- Ei. rewrite len_of_month_index by lia. reflexivity. }
    rewrite (go_date_local _ o a b) by (try exact Hs; rewrite Ei; change (0 / ns_per_s) with 0; unfold day_secs in *; lia).
    rewrite Ei. change (0 / ns_per_s) with 0. cbn [period_no].
    replace (12 * (gt_year c + 1)) with (12 * gt_year c + 12) by lia. unfold day_secs. lia.
  - unfold EndOfMonth. set (t := go_date _ _ _ _ _ _ _ _).
    assert (Et : gt_local t = (first_of_month (gt_mi c) + (1 - 1)) * day_secs + 23 * 3600 + 59 * 60 + 59)
      by (apply date_c; unfold day_secs; lia).
    destruct (fields_mi t (gt_mi c) 1 23 59 59 ltac:(lia) ltac:(unfold clock_ok; lia) Et) as [Em Eday].
    pose proof (local_split t) as Es. rewrite Em, Eday, Et in Es. cbn [period_no]. fold (gt_mi c).
    pose proof (first_of_next_month (gt_mi c)) as En.
    rewrite (gt_adddate_local o a b); rewrite ?Em, ?Eday, ?Z.mul_0_r, ?Z.add_0_r; [|exact Hs|split; reflexivity|];
      rewrite Et, En; unfold day_secs in *; lia.
  - unfold EndOfWeek. pose proof (weekday_back c) as W. cbv zeta in *.
    assert (Hw : 0 <= DaysPerWeek - (if gt_weekday c =? 0 then DaysPerWeek else gt_weekday c) <= 7)
      by (unfold gt_weekday, weekday_of_days, DaysPerWeek; destruct (_ =? _); zdiv).
    set (days := if gt_weekday c =? 0 then _ else _) in *. unfold DaysPerWeek in *.
    assert (Hl0 := date_c 23 59 59 (gt_day c) ltac:(lia) ltac:(unfold day_secs; lia)).
    rewrite (gt_adddate_days o a b); [rewrite Hl0; unfold day_secs in *; lia|exact Hs|split; reflexivity|].
    rewrite Hl0. unfold day_secs in *. lia.
  - unfold EndOfDay. rewrite date_c by (unfold day_secs; lia). cbn [period_no]. unfold day_secs in *. lia.
  - unfold EndOfHour. rewrite date_c by (unfold day_secs; lia). cbn [period_no]. unfold gt_hour, day_secs in *. zdiv.
  - unfold EndOfMinute. rewrite date_c by (unfold day_secs; lia). cbn [period_no]. unfold gt_hour, gt_minute, day_secs in *. zdiv.
  - unfold EndOfSecond. unfold period_no. rewrite (go_date_local _ o a b); change (999999999 / ns_per_s) with 0; fold (gt_mi c);
      [lia|exact Hs|]. unfold day_secs in *. lia.
Qed.
End Bounds.

Lemma StartOf_rest p c : t_nsec (StartOf p c) = 0 /\ t_loc (StartOf p c) = t_loc c.
Proof. destruct p; split; reflexivity. Qed.

Lemma EndOf_rest p c :
  t_nsec (EndOf p c) = (match p with PSecond => 999999999 | _ => 0 end) /\ t_loc (EndOf p c) = t_loc c.
Proof. destruct p; split; reflexivity. Qed.

(** The start and the end of a period bracket it exactly: a time of the location lies in
    the same year, month, week, day, hour, minute or second as [c] if and only if it is not
    before [StartOf] of [c] and not a whole second (for seconds: a nanosecond) after [EndOf]
    of [c]. The end of a period is its last whole second. *)
Theorem periods_bracket (p : period) (c t : ActorGoTime) (o a b : Z) :
  steady (t_loc c) o a b -> a + 366 * day_secs <= gt_local c <= b - 366 * day_secs ->
  t_loc t = t_loc c -> time_wf t -> a <= gt_local t <= b ->
  (period_no p t = period_no p c <->
   gt_total (StartOf p c) <= gt_total t < gt_total (EndOf p c) + (match p with PSecond => 1 | _ => ns_per_s end)).
Proof.
  intros Hs [Ha Hb] El [Hn Hl] Ht.
  assert (U : forall x, t_loc x = t_loc c -> a <= gt_local x <= b -> t_unix x = gt_local x - o).
  { intros x Ex Hx. apply (local_unix x o a b); [by rewrite Ex|exact Hx|]. rewrite Ex, <- El. apply Hl. }
  destruct (StartOf_rest p c) as [Sn Sl], (EndOf_rest p c) as [En El'].
  pose proof (StartOf_local c o a b Hs Ha Hb p) as Sx. pose proof (last_second c o a b Hs Ha Hb p) as Ex.
  assert (R := proj1 (period_no_iff p c (period_no p c)) eq_refl).
  assert (Hlen : period_start p (period_no p c + 1) <= period_start p (period_no p c) + 366 * day_secs).
  { destruct p; cbn [period_start]; unfold day_secs; try lia.
    - pose proof (next_year_room c). cbn [period_no]. replace (12 * (gt_year c + 1)) with (12 * gt_year c + 12) by lia. lia.
    - rewrite first_of_next_month. pose proof (len_of_month_range (period_no PMonth c)). lia. }
  assert (US := U _ Sl ltac:(unfold day_secs in *; lia)).
  assert (UE := U _ El' ltac:(unfold day_secs in *; lia)). assert (UT := U _ El Ht).
  rewrite period_no_iff. unfold gt_total. rewrite US, UE, UT, Sx, Ex, Sn, En.
  unfold ns_per_s in *. destruct p; lia.
Qed.

Lemma periods_bracket_witness :
  let c := go_date 2024 2 29 13 14 15 600000000 UTC in
  let t := go_date 2024 2 29 23 59 59 999999999 UTC in
  period_no PMonth t = period_no PMonth c /\ gt_total (EndOf PMonth c) < gt_total t.
Proof.
  intros c t. split; [|vm_compute; reflexivity]. refine (proj2 (periods_bracket PMonth c t 0 0 10000000000 _ _ _ _ _) _).
  - apply steady_fixed. vm_compute. discriminate.
  - vm_compute. split; discriminate.
  - reflexivity.
  - split; [vm_compute; split; [discriminate|reflexivity]|]. intros u. vm_compute. discriminate.
  - vm_compute. split; discriminate.
  - vm_compute. split; [discriminate|reflexivity].
Defined.

(** ** Months and years without overflow *)

Section NoOverflow.
Context (l : Location) (o a b i h mi s ns : Z) (Hs : steady l o a b) (Hc : clock_ok h mi s) (Hns : 0 <= ns < ns_per_s).
Context (Ha : a <= (first_of_month i - 1) * day_secs) (Hb : (first_of_month i + 40) * day_secs <= b).

Lemma clock_secs : 0 <= h * 3600 + mi * 60 + s < day_secs.
Proof. unfold clock_ok, day_secs in *. lia. Qed.

Lemma date_in_month y mo d : month_index y mo = i -> 1 <= d <= len_of_month i ->
  gt_local (go_date y mo d h mi s ns l) = (first_of_month i + (d - 1)) * day_secs + h * 3600 + mi * 60 + s.
Proof.
  intros Ei Hd. pose proof clock_secs. pose proof (len_of_month_range i).
  assert (Hq : ns / ns_per_s = 0) by (apply Z.div_small; exact Hns).
  rewrite (go_date_local _ o a b) by (try exact Hs; rewrite Ei, Hq; unfold day_secs in *; lia).
  rewrite Ei, Hq. lia.
Qed.

Lemma last_of_month y mo : month_index y mo = i ->
  let last := gt_adddate 0 1 (-1) (go_date y mo 1 h mi s ns l) in gt_mi last = i /\ gt_day last = len_of_month i.
Proof.
  intros Ei last. pose proof clock_secs. pose proof (len_of_month_range i) as Hl.
  assert (Ef := date_in_month y mo 1 Ei ltac:(lia)). set (f := go_date _ _ _ _ _ _ _ _) in *.
  destruct (fields_mi f i 1 _ _ _ ltac:(lia) Hc Ef) as [Fm Fd].
  pose proof (local_split f) as Fs. rewrite Fm, Fd, Ef in Fs. pose proof (first_of_next_month i) as Hnext.
  apply (fields_mi last i (len_of_month i) h mi s); [lia|exact Hc|]. unfold last.
  rewrite (gt_adddate_local o a b); rewrite ?Fm, ?Fd, ?Z.mul_0_r, ?Z.add_0_r, ?Hnext.
  - rewrite Ef. unfold day_secs in *. lia.
  - exact Hs.
  - cbn. rewrite Z.mod_small; exact Hns.
  - rewrite Ef. unfold day_secs in *. lia.
Qed.

Lemma date_fields x d : gt_mi x = i -> 1 <= d <= len_of_month i ->
  let r := go_date (gt_year x) (gt_month x) d h mi s ns l in
  gt_date r = (i / 12, i mod 12 + 1, d) /\ gt_hour r = h /\ gt_minute r = mi /\ gt_second r = s /\ t_nsec r = ns.
Proof.
  intros Ei Hd r. assert (Er := date_in_month (gt_year x) (gt_month x) d Ei Hd).
  destruct (local_fields _ i d _ _ _ Hd Hc Er) as (R1 & R2 & R3 & R4).
  do 4 (split; [assumption|]). cbn. apply Z.mod_small. exact Hns.
Qed.
End NoOverflow.

Lemma clock_of_local c : clock_ok (gt_hour c) (gt_minute c) (gt_second c).
Proof.
  pose proof (local_parts c) as G. destruct (gt_date c) as [[y m] d]. destruct G as (_ & _ & ? & ? & ?).
  unfold clock_ok. lia.
Qed.

Lemma getters_nonzero c : gt_iszero c = false -> Year c = gt_year c /\ Day c = gt_day c /\ Hour c = gt_hour c /\
  Minute c = gt_minute c /\ Second c = gt_second c /\ Nanosecond c = t_nsec c.
Proof. intros Hz. unfold Year, Day, DayOfMonth, Hour, Minute, Second, Nanosecond. rewrite Hz. repeat split. Qed.

Lemma no_overflow_fields c o a b n : let i := gt_mi c + n in
  steady (t_loc c) o a b -> gt_iszero c = false -> 0 <= t_nsec c < ns_per_s -> inS 64 (gt_month c + n) ->
  a <= (first_of_month i - 1) * day_secs -> (first_of_month i + 40) * day_secs <= b ->
  let r := AddMonthsNoOverflow n c in
  gt_date r = (i / 12, i mod 12 + 1, Z.min (gt_day c) (len_of_month i)) /\
  gt_hour r = gt_hour c /\ gt_minute r = gt_minute c /\ gt_second r = gt_second c /\ t_nsec r = t_nsec c.
Proof.
  intros i Hs Hz Hns Hr Ha Hb. unfold AddMonthsNoOverflow. destruct (getters_nonzero c Hz) as (-> & -> & -> & -> & -> & ->).
  pose proof (clock_of_local c) as Hc. pose proof (gt_day_range c) as Hd. pose proof (len_of_month_range i) as Hli.
  unfold iadd. rewrite wrapS_id by (lia || exact Hr). cbv zeta.
  destruct (last_of_month _ o a b i _ _ _ _ Hs Hc Hns Ha Hb (gt_year c) (gt_month c + n)) as [Lm Ld];
    [unfold i, gt_mi, month_index; lia|].
  rewrite Ld. apply (date_fields _ o a b i _ _ _ _ Hs Hc Hns Ha Hb); [exact Lm|lia].
Qed.

(** Twelve months are a year, also for the carry of the day. *)
Lemma years_are_months k c : gt_iszero c = false -> inS 64 (gt_year c + k) -> inS 64 (gt_month c + 12 * k) ->
  AddYearsNoOverflow k c = AddMonthsNoOverflow (12 * k) c.
Proof.
  intros Hz Hy Hm. unfold AddYearsNoOverflow, AddMonthsNoOverflow, iadd, Year. rewrite Hz.
  rewrite !wrapS_id by (lia || assumption).
  assert (E : forall h mi s ns, go_date (gt_year c + k) (gt_month c) 1 h mi s ns (t_loc c) =
    go_date (gt_year c) (gt_month c + 12 * k) 1 h mi s ns (t_loc c)); [|rewrite E; reflexivity].
  intros h mi s ns. unfold go_date. rewrite !civil_secs_index.
  replace (month_index (gt_year c) (gt_month c + 12 * k)) with (month_index (gt_year c + k) (gt_month c))
    by (unfold month_index; lia). reflexivity.
Qed.

(** [AddMonthsNoOverflow n] moves a time by [n] months, forwards or backwards, keeps its
    clock and its nanoseconds, and keeps its day unless the month it comes to is too short:
    then it takes the last day of that month. [AddYearsNoOverflow k] moves by [12 k] months. *)
Theorem NoOverflow_spec (c : ActorGoTime) (o a b n : Z) : let i := month_index (gt_year c) (gt_month c) + n in
  steady (t_loc c) o a b -> gt_iszero c = false -> 0 <= t_nsec c < ns_per_s ->
  inS 64 (gt_month c + n) -> a <= (first_of_month i - 1) * day_secs -> (first_of_month i + 40) * day_secs <= b ->
  let r := AddMonthsNoOverflow n c in
  gt_date r = (i / 12, i mod 12 + 1, Z.min (gt_day c) (len_of_month i)) /\
  gt_hour r = gt_hour c /\ gt_minute r = gt_minute c /\ gt_second r = gt_second c /\ t_nsec r = t_nsec c /\
  forall k, n = 12 * k -> inS 64 (gt_year c + k) -> AddYearsNoOverflow k c = r.
Proof.
  intros i Hs Hz Hns Hr Ha Hb r.
  destruct (no_overflow_fields c o a b n Hs Hz Hns Hr Ha Hb) as (H1 & H2 & H3 & H4 & H5).
  do 5 (split; [assumption|]). intros k -> Hk. unfold r. by apply years_are_months.
Qed.

Lemma NoOverflow_spec_witness :
  gt_date (AddMonthsNoOverflow 12 (go_date 2024 2 29 13 14 15 7 UTC)) = (2025, 2, 28) /\
  AddYearsNoOverflow 1 (go_date 2024 2 29 13 14 15 7 UTC) = AddMonthsNoOverflow 12 (go_date 2024 2 29 13 14 15 7 UTC).
Proof.
  destruct (NoOverflow_spec (go_date 2024 2 29 13 14 15 7 UTC) 0 0 10000000000 12) as (E & _ & _ & _ & _ & Ek).
  - apply steady_fixed. vm_compute. discriminate.
  - reflexivity.
  - vm_compute. split; [discriminate|reflexivity].
  - vm_compute. split; [discriminate|reflexivity].
  - vm_compute. discriminate.
  - vm_compute. discriminate.
  - split; [rewrite E; reflexivity|]. apply Ek; [reflexivity|]. vm_compute. split; [discriminate|reflexivity].
Defined.

(** [AddMonths] carries the days a month lacks into the next. *)
Lemma AddMonths_overflows : gt_date (AddMonths 1 (go_date 2024 1 31 0 0 0 0 UTC)) = (2024, 3, 2).
Proof. vm_compute. reflexivity. Qed.

(** ** Texts of dates *)

Definition digits_ok (ds : list Z) : Prop := Forall (fun d => 0 <= d < 10) ds.

(** Digits have no sign in front. *)
Lemma parse_int_unsigned bits ds : digits_ok ds -> ds <> [] ->
  parse_int 10 bits (string_of_list_ascii (map digit_char ds)) =
    match parse_digits 10 (2 ^ bits - 1) 0 (map digit_char ds) with
    | (_, Some ErrSyntax) => (0, Some ErrSyntax)
    | (un, _) => if 2 ^ (bits - 1) <=? un then (2 ^ (bits - 1) - 1, Some ErrRange) else (un, None)
    end.
Proof.
  intros Hds Hne. destruct ds as [|d ds]; [done|]. assert (Hd : 0 <= d < 10) by by inversion Hds.
  set (s := string_of_list_ascii (map digit_char ds)).
  change (string_of_list_ascii (map digit_char (d :: ds))) with (String (digit_char d) s).
  unfold parse_int. destruct (digit_char_not_sign d ltac:(lia)) as [H1 H2].
  rewrite (proj2 (Ascii.eqb_neq _ _) H1), (proj2 (Ascii.eqb_neq _ _) H2). cbn [orb]. cbv zeta. cbn [negb andb].
  unfold parse_uint. change (list_ascii_of_string (String (digit_char d) s)) with (digit_char d :: list_ascii_of_string s).
  unfold s. rewrite list_ascii_of_string_of_list_ascii. reflexivity.
Qed.

Lemma parse_int_digits bits ds : 1 <= bits -> digits_ok ds -> ds <> [] -> eval_digits 10 0 ds < 2 ^ (bits - 1) ->
  parse_int 10 bits (string_of_list_ascii (map digit_char ds)) = (eval_digits 10 0 ds, None).
Proof.
  intros Hbits Hds Hne Hmax. pose proof (pow2_half bits Hbits) as Hp. pose proof (Z.pow_pos_nonneg 2 (bits - 1)).
  rewrite parse_int_unsigned, parse_digits_ok by (done || lia). by rewrite (proj2 (Z.leb_gt _ _)) by lia.
Qed.

Lemma pad_digits_ok w n : 0 <= n -> digits_ok (pad_digits w n).
Proof.
  intros H. apply Forall_app. split; [|by apply uint_digits_range]. apply Forall_replicate. lia.
Qed.

Lemma pad_digits_eval w n : 0 <= n -> eval_digits 10 0 (pad_digits w n) = n.
Proof. intros H. unfold pad_digits. rewrite eval_digits_zeros. by apply uint_digits_eval. Qed.

Lemma pad_digits_ne w n : pad_digits w n <> [].
Proof. unfold pad_digits. intros [_ E]%app_eq_nil. by apply uint_digits_ne in E. Qed.

Lemma pad_digits_2 n : 0 <= n < 100 -> length (pad_digits 2 n) = 2%nat.
Proof.
  intros H. apply Nat.eqb_eq. revert n H. apply (forall_range (fun n => Nat.eqb (length (pad_digits 2 n)) 2) 100).
  vm_compute. reflexivity.
Qed.

Lemma pad_int_nonneg w n : 0 <= n -> pad_int w n = map digit_char (pad_digits w n).
Proof. intros H. unfold pad_int. rewrite (proj2 (Z.ltb_ge _ _)), Z.abs_eq by lia. reflexivity. Qed.

Lemma date_digits_eval y m d : 0 <= y -> 0 <= m < 100 -> 0 <= d < 100 ->
  eval_digits 10 0 (pad_digits 4 y ++ pad_digits 2 m ++ pad_digits 2 d) = y * 10000 + m * 100 + d.
Proof.
  intros Hy Hm Hd. rewrite !eval_digits_app. rewrite (eval_digits_acc 10 (eval_digits 10 _ _)).
  rewrite (eval_digits_acc 10 (eval_digits 10 0 _) (pad_digits 2 m)).
  rewrite !pad_digits_eval, !pad_digits_2 by lia. lia.
Qed.

Lemma gt_day_31 t : 1 <= gt_day t <= 31.
Proof. pose proof (gt_day_range t). pose proof (len_of_month_range (gt_mi t)). lia. Qed.

Lemma short_date_text c : 0 <= gt_year c ->
  ToShortDateFormat c = string_of_list_ascii (map digit_char
    (pad_digits 4 (gt_year c) ++ pad_digits 2 (gt_month c) ++ pad_digits 2 (gt_day c))).
Proof.
  intros Hy. pose proof (gt_month_range c). pose proof (gt_day_31 c).
  unfold ToShortDateFormat, gt_format. change (chunks_from 0 ShortDateFormat) with [CYear; CMonth; CDay].
  cbn [flat_map format_chunk]. rewrite !pad_int_nonneg, !map_app, app_nil_r by lia. reflexivity.
Qed.

Lemma parse_digits_over max ds acc : digits_ok ds -> acc <= max -> max < eval_digits 10 acc ds ->
  parse_digits 10 max acc (map digit_char ds) = (max, Some ErrRange).
Proof.
  intros H. revert acc. induction H as [|d ds Hd Hds IH]; intros acc Ha Hm; [cbn in Hm; lia|].
  cbn [map parse_digits]. rewrite digit_val_char by lia. rewrite (proj2 (Z.ltb_lt d 10)) by lia.
  destruct (Z.leb_spec (acc * 10 + d) max) as [C|C]; [|reflexivity]. by apply IH.
Qed.

Lemma parse_int_over bits ds : 1 <= bits -> digits_ok ds -> ds <> [] -> 2 ^ (bits - 1) <= eval_digits 10 0 ds ->
  exists v, parse_int 10 bits (string_of_list_ascii (map digit_char ds)) = (v, Some ErrRange).
Proof.
  intros Hbits Hds Hne Hmax. pose proof (pow2_half bits Hbits) as Hp. pose proof (Z.pow_pos_nonneg 2 (bits - 1)).
  rewrite parse_int_unsigned by done. destruct (Z.leb_spec (eval_digits 10 0 ds) (2 ^ bits - 1)).
  - rewrite parse_digits_ok by (done || lia). rewrite (proj2 (Z.leb_le _ _)) by lia. eauto.
  - rewrite parse_digits_over by (done || lia). rewrite (proj2 (Z.leb_le _ _)) by lia. eauto.
Qed.

(** [ToShortIntDateFormat] of a date from year 0 on is the number whose decimal digits are
    the year, the month and the day ([yyyymmdd]), so it orders dates as the calendar does; a
    date whose number is too large for 32 bits gives 0. *)
Theorem ToShortIntDateFormat_spec (c : ActorGoTime) : 0 <= gt_year c ->
  ToShortIntDateFormat c =
    (if gt_year c * 10000 + gt_month c * 100 + gt_day c <? 2 ^ 31 then gt_year c * 10000 + gt_month c * 100 + gt_day c else 0).
Proof.
  intros Hy. pose proof (gt_month_range c). pose proof (gt_day_31 c).
  assert (E := date_digits_eval (gt_year c) (gt_month c) (gt_day c) Hy ltac:(lia) ltac:(lia)).
  unfold ToShortIntDateFormat, ToInt32D, ToInt32. rewrite short_date_text by exact Hy.
  set (ds := pad_digits 4 _ ++ _) in *.
  assert (Hds : digits_ok ds) by (apply Forall_app; split; [|apply Forall_app; split]; apply pad_digits_ok; lia).
  assert (Hne : ds <> []) by (unfold ds; intros [Hn _]%app_eq_nil; by apply pad_digits_ne in Hn).
  rewrite <- E. destruct (Z.ltb_spec (eval_digits 10 0 ds) (2 ^ 31)) as [C|C].
  - rewrite parse_int_digits by (done || lia). cbn [fst]. apply wrapS_id; [lia|].
    unfold inS. change (2 ^ (32 - 1)) with (2 ^ 31). lia.
  - destruct (parse_int_over 32 ds ltac:(lia) Hds Hne C) as [v ->]. reflexivity.
Qed.

Lemma ToShortIntDateFormat_spec_witness : ToShortIntDateFormat (go_date 2024 2 29 1 2 3 0 UTC) = 20240229.
Proof. rewrite ToShortIntDateFormat_spec by (vm_compute; discriminate). vm_compute. reflexivity. Defined.

Lemma digit_map_inj ds ds' : digits_ok ds -> digits_ok ds' -> map digit_char ds = map digit_char ds' -> ds = ds'.
Proof.
  intros H. revert ds'. induction H as [|d ds Hd Hds IH]; intros [|d' ds'] H' E; try done.
  apply Forall_cons_iff in H' as [Hd' H']. injection E as Ed E. f_equal; [|by apply IH].
  apply (f_equal digit_val) in Ed. rewrite !digit_val_char in Ed by lia. by injection Ed.
Qed.

Lemma pad_map_inj w n n' : 0 <= n -> 0 <= n' ->
  map digit_char (pad_digits w n) = map digit_char (pad_digits w n') -> n = n'.
Proof.
  intros H H' E. apply digit_map_inj in E; [|by apply pad_digits_ok..].
  rewrite <- (pad_digits_eval w n H), E. by apply pad_digits_eval.
Qed.

Lemma date_chars c : 0 <= gt_year c -> list_ascii_of_string (ToDateFormat c) =
  map digit_char (pad_digits 4 (gt_year c)) ++ minus_char :: map digit_char (pad_digits 2 (gt_month c)) ++
    minus_char :: map digit_char (pad_digits 2 (gt_day c)).
Proof.
  intros Hy. pose proof (gt_month_range c). pose proof (gt_day_31 c).
  unfold ToDateFormat, gt_format. change (chunks_from 0 DateFormat) with [CYear; CLit minus_char; CMonth; CLit minus_char; CDay].
  rewrite list_ascii_of_string_of_list_ascii. cbn [flat_map format_chunk].
  rewrite !pad_int_nonneg, app_nil_r by lia. reflexivity.
Qed.

Lemma date_text_inj c c' : 0 <= gt_year c -> 0 <= gt_year c' ->
  ToDateFormat c = ToDateFormat c' <-> gt_local c / day_secs = gt_local c' / day_secs.
Proof.
  intros Hy Hy'. split; intros E.
  - pose proof (gt_month_range c). pose proof (gt_month_range c'). pose proof (gt_day_31 c). pose proof (gt_day_31 c').
    apply (f_equal list_ascii_of_string) in E. rewrite !date_chars in E by assumption.
    apply app_inj_2 in E as [Ey E]; [|repeat rewrite ?length_cons, ?length_app, ?length_map; rewrite !pad_digits_2 by lia; reflexivity].
    injection E as E. apply app_inj_1 in E as [Em E]; [|rewrite !length_map, !pad_digits_2 by lia; reflexivity].
    injection E as Ed. apply pad_map_inj in Ey, Em, Ed; try lia. rewrite !local_day. unfold gt_mi. congruence.
  - unfold ToDateFormat, gt_format. f_equal. change (chunks_from 0 DateFormat) with [CYear; CLit minus_char; CMonth; CLit minus_char; CDay].
    cbn [flat_map format_chunk]. unfold gt_year, gt_month, gt_day, gt_date. rewrite E. reflexivity.
Qed.

Lemma year_nonneg t : 0 <= gt_year t <-> first_of_month 0 <= gt_local t / day_secs.
Proof.
  pose proof (reading_month t) as R. pose proof (year_of_mi t (gt_year t)) as [Y _]. specialize (Y eq_refl).
  split; intros H.
  - pose proof (first_of_month_mono 0 (gt_mi t)). lia.
  - destruct (Z.le_gt_cases 0 (gt_mi t)); [lia|]. pose proof (first_of_month_mono (gt_mi t + 1) 0). lia.
Qed.

Lemma year_pos t : 1 <= gt_year t -> first_of_month 0 < gt_local t / day_secs.
Proof.
  intros H. pose proof (reading_month t) as R. pose proof (proj1 (year_of_mi t _) eq_refl) as Y.
  pose proof (first_of_month_mono 1 (gt_mi t)). pose proof (first_of_next_month 0) as E. change (0 + 1) with 1 in E.
  pose proof (len_of_month_range 0). lia.
Qed.

Lemma date_text_eqb c c' : 0 <= gt_year c -> 0 <= gt_year c' ->
  String.eqb (ToDateFormat c) (ToDateFormat c') = (gt_local c / day_secs =? gt_local c' / day_secs).
Proof.
  intros Hy Hy'. apply eq_iff_eq_true. rewrite String.eqb_eq, Z.eqb_eq. by apply date_text_inj.
Qed.

(** [IsToday], [IsYesterday] and [IsTomorrow], which compare texts of dates, say whether
    the day the clock of [c] shows is the one that [Now] shows, the one before or the one
    after. *)
Theorem day_tests (g : ctime_vars) (now : GoTime) (c n : ActorGoTime) (o a b : Z) :
  Now g now = Some n -> 0 <= gt_year c -> 1 <= gt_year n -> steady (t_loc n) o a b -> 0 <= t_nsec n < ns_per_s ->
  a + day_secs <= gt_local n <= b - day_secs ->
  IsToday g now c = Some (gt_local c / day_secs =? gt_local n / day_secs) /\
  IsYesterday g now c = Some (gt_local c / day_secs =? gt_local n / day_secs - 1) /\
  IsTomorrow g now c = Some (gt_local c / day_secs =? gt_local n / day_secs + 1).
Proof.
  intros En Hc Hn Hs Hns Hr. pose proof (year_pos n Hn) as Hp.
  assert (M : forall k, -1 <= k <= 1 -> gt_local (AddDays k n) / day_secs = gt_local n / day_secs + k).
  { intros k Hk. unfold AddDays. rewrite (gt_adddate_days o a b) by (try assumption; unfold day_secs in *; lia).
    unfold day_secs. rewrite Z.div_add by lia. reflexivity. }
  assert (Y : forall k, -1 <= k <= 1 -> 0 <= gt_year (AddDays k n)) by (intros k Hk; apply year_nonneg; rewrite M; lia).
  unfold IsToday, IsYesterday, IsTomorrow, AddDay, SubDay, SubDays. rewrite En. cbn [mbind option_bind].
  change (ineg 1) with (-1). rewrite !date_text_eqb by (lia || apply Y; lia). rewrite !M by lia. repeat split.
Qed.

Lemma day_tests_witness :
  IsYesterday (mkVars 0 (Some UTC)) (go_date 2024 3 1 0 0 0 0 UTC) (go_date 2024 2 29 23 59 59 0 UTC) = Some true.
Proof.
  destruct (day_tests (mkVars 0 (Some UTC)) (go_date 2024 3 1 0 0 0 0 UTC) (go_date 2024 2 29 23 59 59 0 UTC)
    (go_date 2024 3 1 0 0 0 0 UTC) 0 0 10000000000) as (_ & E & _).
  - reflexivity.
  - vm_compute. discriminate.
  - vm_compute. discriminate.
  - apply steady_fixed. vm_compute. discriminate.
  - vm_compute. split; [discriminate|reflexivity].
  - vm_compute. split; discriminate.
  - rewrite E. vm_compute. reflexivity.
Defined.

(** ** Absolute values *)

(** The shift by 31 finds the sign of 32-bit values. *)
Lemma GetAbsValue_int32 v : inS 32 v -> GetAbsValue v = Z.abs v.
Proof.
  unfold inS, GetAbsValue, isub. change (2 ^ (32 - 1)) with 2147483648. intros H.
  rewrite Z.shiftr_div_pow2 by lia. change (2 ^ 31) with 2147483648. destruct (Z.le_gt_cases 0 v).
  - replace (v / 2147483648) with 0 by zdiv. rewrite Z.lxor_0_r, Z.sub_0_r, wrapS_id; [lia|lia|].
    unfold inS. change (2 ^ (64 - 1)) with 9223372036854775808. lia.
  - replace (v / 2147483648) with (-1) by zdiv. rewrite Z.lxor_m1_r. unfold Z.lnot. rewrite wrapS_id; [lia|lia|].
    unfold inS. change (2 ^ (64 - 1)) with 9223372036854775808. lia.
Qed.

(** Times 68 years and some days apart: two seconds are missing. *)
Lemma GetAbsValue_beyond :
  GetAbsValue (2 ^ 31 + 1) = 2 ^ 31 - 1 /\
  DiffInSecondsWithAbs (go_unix 0 UTC) (go_unix (2 ^ 31 + 1) UTC) = 2 ^ 31 - 1.
Proof. vm_compute. split; reflexivity. Qed.

(** ** Fields *)

Lemma month_end_day e i : gt_local e = first_of_month (i + 1) * day_secs - 1 -> gt_day e = len_of_month i.
Proof.
  intros E. pose proof (len_of_month_range i). rewrite first_of_next_month in E.
  destruct (fields_mi e i (len_of_month i) 23 59 59) as [_ Ed]; [lia|unfold clock_ok; lia| |exact Ed].
  rewrite E. unfold day_secs. lia.
Qed.

Lemma Day_nonzero c : gt_iszero c = false -> Day c = gt_day c.
Proof. intros Hz. unfold Day, DayOfMonth. rewrite Hz. reflexivity. Qed.

Lemma month_period c : period_start PMonth (period_no PMonth c + 1) = first_of_month (gt_mi c + 1) * day_secs.
Proof. cbv beta iota delta [period_start period_no gt_mi]. reflexivity. Qed.

Lemma DaysInMonth_spec c o a b : gt_iszero c = false -> steady (t_loc c) o a b ->
  a + 366 * day_secs <= gt_local c <= b - 366 * day_secs -> gt_iszero (EndOf PMonth c) = false ->
  DaysInMonth c = len_of_month (gt_mi c).
Proof.
  intros Hz Hs [Ha Hb] Hze. transitivity (Day (EndOf PMonth c)); [unfold DaysInMonth; rewrite Hz; reflexivity|].
  rewrite (Day_nonzero _ Hze). apply month_end_day.
  rewrite (last_second c o a b Hs Ha Hb PMonth), month_period. reflexivity.
Qed.

Lemma rem_eqb x k : 0 < k -> (Z.rem x k =? 0) = (x mod k =? 0).
Proof. intros H. apply eq_iff_eq_true. rewrite !Z.eqb_eq, Z.rem_divide, Z.mod_divide by lia. reflexivity. Qed.

Lemma IsLeapYear_spec c : gt_iszero c = false -> IsLeapYear c = is_leap (gt_year c).
Proof.
  intros Hz. unfold IsLeapYear, is_leap, Year. rewrite Hz. cbv zeta. rewrite !rem_eqb by lia.
  pose proof (mod_100_4 (gt_year c)). pose proof (mod_400_100 (gt_year c)). revert H H0.
  generalize (gt_year c). intros y H1 H2.
  destruct (Z.eqb_spec (y mod 4) 0), (Z.eqb_spec (y mod 100) 0), (Z.eqb_spec (y mod 400) 0); cbn [andb orb negb]; (done || lia).
Qed.

Lemma DaysInYear_spec c : gt_iszero c = false ->
  DaysInYear c = first_of_month (12 * (gt_year c + 1)) - first_of_month (12 * gt_year c).
Proof.
  intros Hz. unfold DaysInYear. rewrite Hz, IsLeapYear_spec by exact Hz. generalize (gt_year c). intros y0.
  assert (Y : forall y, first_of_month (12 * y) = days_before_year y - unix_epoch_days).
  { intros y. replace (12 * y) with (month_index y 1) by (unfold month_index; lia).
    rewrite first_of_month_index by lia. unfold days_of_civil.
    assert (days_before_month (is_leap y) 1 = 0) as -> by (destruct (is_leap y); reflexivity). lia. }
  rewrite !Y, days_before_year_succ. unfold year_len, DaysPerLeapYear, DaysPerNormalYear. destruct (is_leap y0); lia.
Qed.

Lemma Quarter_spec c : gt_iszero c = false -> Quarter c = (gt_month c - 1) / 3 + 1.
Proof.
  intros Hz. pose proof (gt_month_range c) as Hm. unfold Quarter, Month, MonthOfYear. rewrite Hz.
  revert Hm. generalize (gt_month c). intros m Hm.
  repeat match goal with |- context [?x <=? ?y] => destruct (Z.leb_spec x y) end; zdiv.
Qed.

Lemma DayOfWeek_spec c : gt_iszero c = false -> DayOfWeek c = (gt_local c / day_secs + 3) mod 7 + 1.
Proof.
  intros Hz. unfold DayOfWeek, gt_weekday, weekday_of_days, DaysPerWeek. rewrite Hz.
  generalize (gt_local c / day_secs). intros n. destruct (Z.eqb_spec ((n + 4) mod 7) 0); zdiv.
Qed.

(** Nanoseconds are divided by a second's worth. *)
Lemma Microsecond_zero c : 0 <= t_nsec c < ns_per_s -> Microsecond c = 0.
Proof. unfold Microsecond, ns_per_s. intros H. destruct (gt_iszero c); [done|]. by apply Z.quot_small. Qed.

(** The week of the month counts the days of the week once more. *)
Lemma WeekOfMonth_days : map (fun d => WeekOfMonth (go_date 2024 5 d 0 0 0 0 UTC)) [6; 7; 8; 13; 14; 15; 31] = [1; 1; 2; 7; 1; 2; 4].
Proof. vm_compute. reflexivity. Qed.

(** Half a month backwards over the end of a year is a month, forwards it is none. *)
Lemma DiffInMonths_asymmetric :
  let x := go_date 2021 12 15 0 0 0 0 UTC in let y := go_date 2022 1 1 0 0 0 0 UTC in
  DiffInMonths x y = 0 /\ DiffInMonthsWithAbs y x = 1.
Proof. vm_compute. split; reflexivity. Qed.

(** With an offset of an hour, tomorrow is 25 hours ahead of [Now], and a copy
    is an hour ahead of its original. *)
Lemma offset_applied_twice :
  let g := mkVars (3600 * ns_per_s) (Some UTC) in let now := go_date 2024 5 1 12 0 0 0 UTC in
  (DiffInSeconds now <$> Now g now) = Some 3600 /\
  (n ← Now g now; DiffInSeconds n <$> Tomorrow g now) = Some (86400 + 3600) /\
  (n ← Now g now; DiffInSeconds n <$> Yesterday g now) = Some (- 86400) /\
  (n ← Now g now; DiffInSeconds n <$> Copy g n) = Some 3600.
Proof. vm_compute. repeat split. Qed.

(** An unknown name leaves no location behind, and from then on [Now] panics. *)
Lemma unknown_location_panics z g name : LoadLocation z name = None ->
  let (ok, g') := SetOffsetLocation z name g in ok = false /\ forall now, Now g' now = None.
Proof. unfold SetOffsetLocation. intros ->. split; reflexivity. Qed.

(** The offset is set, not added to. *)
Lemma AddOffsetTime_sets t t' g : AddOffsetTime t' (AddOffsetTime t g) = AddOffsetTime t' g.
Proof. reflexivity. Qed.

(** The date of the zero time reads 0-0-0, and setting its year alone goes to the November of
    the year before. *)
Lemma zero_time_SetYear : gt_date (SetYear 2024 zero_time) = (2023, 11, 30).
Proof. vm_compute. reflexivity. Qed.
