(* ===== verification/Schedule.v ===== *)
(** The schedule of fixed times of day (src/extend/time_wheel/schedule.go) and the timers
    that actors set with it (src/net/actor/actor_timer.go): every day at a time, or every
    hour at a minute and a second. *)

From Stdlib Require Import ZArith List Lia Bool String.
From stdpp Require Import base list option.
From S2P Require Import Prelude Strconv Facade Civil CTime CTimeLaws.

(** A negative hour is every hour. *)
(** src/extend/time_wheel/schedule.go:24-26, FixedDateSchedule *)
Record FixedDateSchedule := mkFixedDate { fd_Hour : Z; fd_Minute : Z; fd_Second : Z }.

Definition hour_ns : Z := 3600 * ns_per_s.

(** src/extend/time_wheel/schedule.go:28-55, FixedDateSchedule.Next *)
Definition FixedDateSchedule_Next (s : FixedDateSchedule) (prev : GoTime) : GoTime :=
  let hour := if 0 <=? fd_Hour s then fd_Hour s else gt_hour prev in
  let fixedTime := go_date (gt_year prev) (gt_month prev) (gt_day prev) hour (fd_Minute s) (fd_Second s) 0 (t_loc prev) in
  let remain := isub (gt_unixnano fixedTime) (gt_unixnano prev) in
  if 0 <? remain then gt_add remain prev
  else if 0 <=? fd_Hour s then gt_add (24 * hour_ns) fixedTime
  else gt_add hour_ns fixedTime.

(** The schedule as the time wheel calls it: from and to nanoseconds, at the location of
    the process. *)
Definition fixed_next (s : FixedDateSchedule) (local : Location) (ns : Z) : option Z :=
  Some (gt_total (FixedDateSchedule_Next s (mkGoTime (ns / ns_per_s) (ns mod ns_per_s) local))).

(** The schedules that [AddFixedHour] and [AddFixedMinute] hand to [AddSchedule]. *)
(** src/net/actor/actor_timer.go:96-104, actorTimer.AddFixedHour *)
Definition AddFixedHour (hour minute second : Z) : Location -> Z -> option Z :=
  fixed_next (mkFixedDate hour minute second).
(** src/net/actor/actor_timer.go:106-108, actorTimer.AddFixedMinute *)
Definition AddFixedMinute (minute second : Z) : Location -> Z -> option Z := AddFixedHour (-1) minute second.

(** ** Its contract *)

(** The times a schedule names. *)
Definition on_schedule (s : FixedDateSchedule) (t : GoTime) : bool :=
  ((fd_Hour s <? 0) || (gt_hour t =? fd_Hour s)) && (gt_minute t =? fd_Minute s) &&
  (gt_second t =? fd_Second s) && (t_nsec t =? 0).

Definition sched_ok (s : FixedDateSchedule) : Prop :=
  fd_Hour s < 24 /\ 0 <= fd_Minute s < 60 /\ 0 <= fd_Second s < 60.

(** A schedule names the readings with one remainder modulo its period. *)
Definition sched_period (s : FixedDateSchedule) : Z := if 0 <=? fd_Hour s then day_secs else 3600.
Definition sched_phase (s : FixedDateSchedule) : Z :=
  (if 0 <=? fd_Hour s then fd_Hour s * 3600 else 0) + fd_Minute s * 60 + fd_Second s.

Lemma sched_phase_range s : sched_ok s -> 0 <= sched_phase s < sched_period s.
Proof.
  unfold sched_ok, sched_phase, sched_period, day_secs. intros (Hh & Hm & Hs).
  destruct (Z.leb_spec 0 (fd_Hour s)); lia.
Qed.

Lemma on_schedule_iff s t : sched_ok s ->
  on_schedule s t = true <-> gt_local t mod sched_period s = sched_phase s /\ t_nsec t = 0.
Proof.
  unfold sched_ok, on_schedule, sched_phase, sched_period, gt_hour, gt_minute, gt_second, day_secs.
  intros (Hh & Hm & Hs). rewrite !andb_true_iff, orb_true_iff, Z.ltb_lt, !Z.eqb_eq.
  destruct (Z.leb_spec 0 (fd_Hour s)); zdiv.
Qed.

Lemma isub_wrapped x y : inS 64 (x - y) -> isub (wrapS 64 x) (wrapS 64 y) = x - y.
Proof.
  intros H. unfold isub, wrapS, inS in *.
  change (2 ^ (64 - 1)) with 9223372036854775808 in *. change (2 ^ 64) with 18446744073709551616. zdiv.
Qed.

Section Next.
Context (s : FixedDateSchedule) (Hok : sched_ok s) (prev : GoTime) (o a b : Z).
Context (Hs : steady (t_loc prev) o a b) (Hw : time_wf prev).
Context (Ha : a + 2 * day_secs <= gt_local prev) (Hb : gt_local prev <= b - 2 * day_secs).

(** The reading of the period of [prev] that is on the schedule. *)
Let F : Z := gt_local prev / sched_period s * sched_period s + sched_phase s.

Lemma F_near : gt_local prev - sched_period s < F < gt_local prev + sched_period s /\ 3600 <= sched_period s <= day_secs.
Proof.
  pose proof (sched_phase_range s Hok) as H. unfold F. revert H.
  unfold sched_period, day_secs. destruct (0 <=? fd_Hour s); generalize (sched_phase s); intros; zdiv.
Qed.

Lemma unix_of t : t_loc t = t_loc prev -> a <= gt_local t <= b -> t_unix t = gt_local t - o.
Proof.
  intros El Ht. apply (local_unix t o a b); [by rewrite El|exact Ht|]. rewrite El. apply Hw.
Qed.

Lemma fixedTime_local :
  gt_local (go_date (gt_year prev) (gt_month prev) (gt_day prev) (if 0 <=? fd_Hour s then fd_Hour s else gt_hour prev)
    (fd_Minute s) (fd_Second s) 0 (t_loc prev)) = F.
Proof.
  pose proof F_near as HF. pose proof (local_day prev) as Ed.
  assert (E : (first_of_month (gt_mi prev) + (gt_day prev - 1)) * day_secs +
    (if 0 <=? fd_Hour s then fd_Hour s else gt_hour prev) * 3600 + fd_Minute s * 60 + (fd_Second s + 0 / ns_per_s) = F).
  { rewrite <- Ed. change (0 / ns_per_s) with 0. unfold F, sched_period, sched_phase, gt_hour, day_secs.
    destruct (0 <=? fd_Hour s); zdiv. }
  rewrite (go_date_local _ o a b); fold (gt_mi prev); [exact E|exact Hs|]. rewrite E. unfold day_secs in *. lia.
Qed.

Lemma add_local d t n : t_nsec t = 0 -> d = n * ns_per_s -> gt_add d t = mkGoTime (t_unix t + n) 0 (t_loc t).
Proof.
  intros E ->. unfold gt_add. rewrite E, Z.add_0_l, Z.div_mul, Z.mod_mul by discriminate. reflexivity.
Qed.

Lemma shift_local t n : t_loc t = t_loc prev -> a <= gt_local t <= b -> a <= gt_local t + n <= b ->
  gt_local (mkGoTime (t_unix t + n) 0 (t_loc t)) = gt_local t + n.
Proof.
  intros El Ht Hn. pose proof (unix_of t El Ht) as Hu. unfold gt_local at 1. cbn.
  destruct Hs as [Ho H]. rewrite El, H; lia.
Qed.

(** The next time is the reading [F] if it is still ahead, and a period later otherwise. *)
Lemma Next_is : let n := FixedDateSchedule_Next s prev in
  t_loc n = t_loc prev /\ t_nsec n = 0 /\
  gt_local n = (if F * ns_per_s <=? gt_local prev * ns_per_s + t_nsec prev then F + sched_period s else F).
Proof.
  pose proof F_near as [HF HP]. pose proof (unix_of prev eq_refl ltac:(unfold day_secs in *; lia)) as Hu.
  unfold FixedDateSchedule_Next. cbv zeta. set (ft := go_date _ _ _ _ _ _ _ _).
  assert (EF : gt_local ft = F) by apply fixedTime_local.
  assert (Huf : t_unix ft = F - o) by (rewrite <- EF; apply unix_of; [reflexivity|rewrite EF; unfold day_secs in *; lia]).
  assert (Hnf : t_nsec ft = 0) by reflexivity. assert (Hlf : t_loc ft = t_loc prev) by reflexivity. clearbody ft.
  destruct Hw as [Hn Hl]. unfold gt_unixnano. rewrite isub_wrapped by
    (unfold gt_total, inS, day_secs, ns_per_s in *; rewrite Huf, Hnf, Hu; change (2 ^ (64 - 1)) with 9223372036854775808; lia).
  assert (Ediff : gt_total ft - gt_total prev = F * ns_per_s - (gt_local prev * ns_per_s + t_nsec prev))
    by (unfold gt_total; rewrite Huf, Hnf, Hu; unfold ns_per_s; lia).
  rewrite Ediff. destruct (Z.leb_spec (F * ns_per_s) (gt_local prev * ns_per_s + t_nsec prev)) as [C|C].
  - rewrite (proj2 (Z.ltb_ge 0 _)) by lia.
    assert (R : forall p, p = sched_period s -> t_loc (gt_add (p * ns_per_s) ft) = t_loc prev /\
      t_nsec (gt_add (p * ns_per_s) ft) = 0 /\ gt_local (gt_add (p * ns_per_s) ft) = F + sched_period s).
    { intros p ->. rewrite (add_local _ ft (sched_period s)) by done. cbn [t_loc t_nsec]. split; [exact Hlf|]. split; [reflexivity|].
      rewrite shift_local; [by rewrite EF|exact Hlf| |]; rewrite EF; unfold day_secs in *; lia. }
    unfold sched_period in *. destruct (0 <=? fd_Hour s); [apply (R day_secs)|apply (R 3600)]; reflexivity.
  - rewrite (proj2 (Z.ltb_lt 0 _)) by lia. unfold gt_add. cbn [t_loc t_nsec]. split; [reflexivity|].
    set (X := t_nsec prev + _). assert (EX : X = (F - gt_local prev) * ns_per_s) by (unfold X, ns_per_s; lia).
    clearbody X. subst X. rewrite Z.div_mul, Z.mod_mul by discriminate. split; [reflexivity|].
    unfold gt_local at 1. cbn. destruct Hs as [Ho H]. rewrite H; unfold day_secs in *; lia.
Qed.
End Next.

(** [Next] of a fixed schedule gives a time of the schedule, later than the one it is
    given, and the earliest such: no time of the schedule is passed over. *)
Theorem FixedDateSchedule_spec (s : FixedDateSchedule) (prev : GoTime) (o a b : Z) : sched_ok s ->
  steady (t_loc prev) o a b -> time_wf prev -> a + 2 * day_secs <= gt_local prev <= b - 2 * day_secs ->
  let n := FixedDateSchedule_Next s prev in
  t_loc n = t_loc prev /\ on_schedule s n = true /\ gt_total prev < gt_total n /\
  forall t, t_loc t = t_loc prev -> time_wf t -> a <= gt_local t <= b ->
    on_schedule s t = true -> gt_total prev < gt_total t -> gt_total n <= gt_total t.
Proof.
  intros Hok Hs Hw [Ha Hb] n. pose proof (Next_is s Hok prev o a b Hs Hw Ha Hb) as (El & En & E). fold n in El, En, E.
  pose proof (F_near s Hok prev) as [HF HP]. pose proof (sched_phase_range s Hok) as Hph.
  pose proof (unix_of prev o a b Hs Hw) as U. set (P := sched_period s) in *. set (ph := sched_phase s) in *.
  set (q := gt_local prev / P) in *. set (F := q * P + ph) in *.
  assert (Rn : a <= gt_local n <= b) by (rewrite E; unfold day_secs in *; case_match; lia).
  assert (EFm : F mod P = ph /\ (F + P) mod P = ph).
  { unfold F. replace (q * P + ph + P) with (ph + (q + 1) * P) by lia. rewrite (Z.add_comm (q * P)), !Z.mod_add by lia.
    by rewrite Z.mod_small. }
  assert (Tn := U n El Rn). assert (Tp := U prev eq_refl ltac:(unfold day_secs in *; lia)).
  split; [exact El|]. split; [apply (on_schedule_iff s n Hok); split; [rewrite E; fold P ph; case_match; apply EFm|exact En]|].
  destruct Hw as [Hns _]. split; [unfold gt_total; rewrite Tn, Tp, En, E; unfold ns_per_s in *; destruct (Z.leb_spec (F * 1000000000) (gt_local prev * 1000000000 + t_nsec prev)); lia|].
  intros t Elt [Hnt _] Rt Hst Hlt. apply (on_schedule_iff s t Hok) in Hst as [Hmod Ht0]. fold P ph in Hmod.
  assert (Tt := U t Elt Rt). unfold gt_total in *. rewrite Tn, Tt, En, Ht0, E in *. rewrite Tp in Hlt.
  pose proof (Z.div_mod (gt_local t) P ltac:(lia)) as Dt. rewrite Hmod in Dt.
  set (k := gt_local t / P) in *. unfold ns_per_s in *. destruct (Z.leb_spec (F * 1000000000) (gt_local prev * 1000000000 + t_nsec prev)) as [C|C].
  - assert (q < k); [|unfold F; nia]. assert (F < gt_local t) by lia. unfold F in *. nia.
  - assert (q <= k); [|unfold F; nia]. pose proof (Z.div_mod (gt_local prev) P ltac:(lia)) as Dp. fold q in Dp.
    pose proof (Z.mod_pos_bound (gt_local prev) P ltac:(lia)). nia.
Qed.

Lemma FixedDateSchedule_spec_witness :
  let n := FixedDateSchedule_Next (mkFixedDate 9 15 0) (go_date 2024 2 28 23 30 0 500000000 UTC) in
  on_schedule (mkFixedDate 9 15 0) n = true /\ gt_total n <= gt_total (go_date 2024 2 29 9 15 0 0 UTC).
Proof.
  destruct (FixedDateSchedule_spec (mkFixedDate 9 15 0) (go_date 2024 2 28 23 30 0 500000000 UTC) 0 0 10000000000)
    as (_ & Hon & _ & Hleast).
  - vm_compute. repeat split; discriminate.
  - apply steady_fixed. vm_compute. discriminate.
  - split; [vm_compute; split; [discriminate|reflexivity]|]. intros u. vm_compute. discriminate.
  - vm_compute. split; discriminate.
  - split; [exact Hon|]. apply Hleast; try reflexivity.
    + split; [vm_compute; split; [discriminate|reflexivity]|]. intros u. vm_compute. discriminate.
    + vm_compute. split; discriminate.
Defined.

(** A location whose clocks go forward an hour, at 2024-03-31 01:00 UTC. *)
Definition summer_zone : Location :=
  mkLocation "summer" (fun u => if u <? 1711846800 then (3600, - 2 ^ 63, 1711846800) else (7200, 1711846800, 2 ^ 63 - 1)).

(** The next day is 24 hours away even when it has 23: a timer for nine o'clock runs at ten
    on the day the clocks change. *)
Lemma fixed_hour_across_dst :
  let n := FixedDateSchedule_Next (mkFixedDate 9 0 0) (go_date 2024 3 30 10 0 0 0 summer_zone) in
  gt_date n = (2024, 3, 31) /\ gt_hour n = 10 /\ on_schedule (mkFixedDate 9 0 0) n = false.
Proof. vm_compute. repeat split. Qed.
