(* ===== verification/Snowflake.v ===== *)
(** Snowflake identifiers (extend/snowflake/snowflake.go, snowflake_default.go): a 63-bit
    number of a time in milliseconds, a node and a step, its generator, and its text forms.

    The package's variables are a record; the clock is the list of its readings, in
    milliseconds since the epoch, which [Generate] takes one by one. [None] is a panic, or,
    for [Generate], a clock that does not move on in the readings given. *)
From Stdlib Require Import Sorting.Sorted.
From stdpp Require Import sorting.
From S2P Require Import Prelude Strconv Facade.
#[local] Open Scope Z_scope.

(** Go's shift to the left of an int64. *)
Definition shl64 (x n : Z) : Z := i64 (Z.shiftl x n).

(** [-1 ^ (-1 << bits)]. *)
Definition low_bits (bits : Z) : Z := Z.lxor (-1) (shl64 (-1) bits).

(** ** Package variables *)

(** src/extend/snowflake/snowflake.go:17-38, Epoch, NodeBits, StepBits and the derived variables *)
Record sf_vars := mkVars {
  v_Epoch : Z; v_NodeBits : Z; v_StepBits : Z;
  v_nodeMax : Z; v_nodeMask : Z; v_stepMask : Z; v_timeShift : Z; v_nodeShift : Z }.

Definition derive (epoch nodeBits stepBits : Z) : sf_vars :=
  let nodeMax := low_bits nodeBits in
  mkVars epoch nodeBits stepBits nodeMax (shl64 nodeMax stepBits) (low_bits stepBits) (wrapU 8 (nodeBits + stepBits)) stepBits.

(** src/extend/snowflake/snowflake.go:17-38, Epoch, NodeBits, StepBits *)
Definition default_vars : sf_vars := derive 1609430400000 16 6.

(** ** The generator *)

(** src/extend/snowflake/snowflake.go:85-96, Node *)
Record Node := mkNode {
  n_time : Z; n_node : Z; n_step : Z; n_nodeMax : Z; n_nodeMask : Z; n_stepMask : Z; n_timeShift : Z; n_nodeShift : Z }.

(** src/extend/snowflake/snowflake.go:104-132, NewNode *)
Definition NewNode (node : Z) (v : sf_vars) : sf_vars * res Node :=
  let v := derive (v_Epoch v) (v_NodeBits v) (v_StepBits v) in
  let n := mkNode 0 node 0 (v_nodeMax v) (v_nodeMask v) (v_stepMask v) (v_timeShift v) (v_nodeShift v) in
  (v, if (n_node n <? 0) || (n_nodeMax n <? n_node n) then Err "Node number must be between 0 and nodeMax"%string else Ok n).

(** The loop that reads the clock until it has passed [time]. *)
(** src/extend/snowflake/snowflake.go:146-151, Node.Generate *)
Fixpoint wait_past (time : Z) (clock : list Z) : option (Z * list Z) :=
  match clock with
  | [] => None
  | now :: clock => if now <=? time then wait_past time clock else Some (now, clock)
  end.

(** src/extend/snowflake/snowflake.go:138-160, Node.Generate *)
Definition Generate (clock : list Z) (n : Node) : option (Z * Node * list Z) :=
  match clock with
  | [] => None
  | now :: clock =>
      '(now, step, clock) ←
        (if now =? n_time n then
           let step := Z.land (i64 (n_step n + 1)) (n_stepMask n) in
           if step =? 0 then '(now, clock) ← wait_past (n_time n) clock; Some (now, step, clock)
           else Some (now, step, clock)
         else Some (now, 0, clock));
      let n := mkNode now (n_node n) step (n_nodeMax n) (n_nodeMask n) (n_stepMask n) (n_timeShift n) (n_nodeShift n) in
      Some (Z.lor (Z.lor (shl64 now (n_timeShift n)) (shl64 (n_node n) (n_nodeShift n))) (n_step n), n, clock)
  end.

(** src/extend/snowflake/snowflake.go:325-327, ID.Time *)
Definition ID_Time (v : sf_vars) (f : Z) : Z := i64 (Z.shiftr f (v_timeShift v) + v_Epoch v).
(** src/extend/snowflake/snowflake.go:331-333, ID.Node *)
Definition ID_Node (v : sf_vars) (f : Z) : Z := Z.shiftr (Z.land f (v_nodeMask v)) (v_nodeShift v).
(** src/extend/snowflake/snowflake.go:337-339, ID.Step *)
Definition ID_Step (v : sf_vars) (f : Z) : Z := Z.land f (v_stepMask v).

(** ** The default node *)

Section Default.
(** The checksum of the standard library. *)
Variable ChecksumIEEE : str -> Z.

(** src/extend/crypto/crypto.go:41-43, CRC32 *)
Definition CRC32 (value : str) : Z := i64 (ChecksumIEEE value).

(** src/extend/snowflake/snowflake_default.go:21-35, SetDefaultNode *)
Definition SetDefaultNode (nodeValue : Z) (s : sf_vars * option Node) : sf_vars * option Node :=
  match s.2 with
  | Some _ => s
  | None => match NewNode nodeValue s.1 with (v, Ok n) => (v, Some n) | (v, Err _) => (v, None) end
  end.

(** src/extend/snowflake/snowflake_default.go:12-19, InitDefaultNode *)
Definition InitDefaultNode (value : str) (s : sf_vars * option Node) : sf_vars * option Node :=
  SetDefaultNode (Z.rem (CRC32 value) (v_nodeMax s.1)) s.
End Default.

(** src/extend/snowflake/snowflake_default.go:37-39, Next *)
Definition Next (clock : list Z) (s : sf_vars * option Node) : option (Z * (sf_vars * option Node) * list Z) :=
  n ← s.2; '(id, n, clock) ← Generate clock n; Some (id, (s.1, Some n), clock).

(** ** Text forms *)

(** src/extend/snowflake/snowflake.go:173-175, ID.String *)
Definition ID_String (f : Z) : str := format_int 10 f.
(** src/extend/snowflake/snowflake.go:178-182, ParseString *)
Definition ParseString (id : str) : Z * option num_error := parse_int 10 64 id.
(** src/extend/snowflake/snowflake.go:185-187, ID.Base2 *)
Definition ID_Base2 (f : Z) : str := format_int 2 f.
(** src/extend/snowflake/snowflake.go:190-193, ParseBase2 *)
Definition ParseBase2 (id : str) : Z * option num_error := parse_int 2 64 id.
(** src/extend/snowflake/snowflake.go:237-239, ID.Base36 *)
Definition ID_Base36 (f : Z) : str := format_int 36 f.
(** src/extend/snowflake/snowflake.go:242-245, ParseBase36 *)
Definition ParseBase36 (id : str) : Z * option num_error := parse_int 36 64 id.
(** src/extend/snowflake/snowflake.go:299-301, ID.Bytes *)
Definition ID_Bytes (f : Z) : str := ID_String f.
(** src/extend/snowflake/snowflake.go:304-307, ParseBytes *)
Definition ParseBytes (id : str) : Z * option num_error := parse_int 10 64 id.

(** src/extend/snowflake/snowflake.go:40-40, encodeBase32Map *)
Definition encodeBase32Map : list ascii := list_ascii_of_string "ybndrfg8ejkmcpqxot1uwisza345h769".
(** src/extend/snowflake/snowflake.go:44-44, encodeBase58Map *)
Definition encodeBase58Map : list ascii := list_ascii_of_string "123456789abcdefghijkmnopqrstuvwxyzABCDEFGHJKLMNPQRSTUVWXYZ".

Definition code (c : ascii) : Z := Z.of_N (N_of_ascii c).

(** The first loop marks as many entries as the alphabet has letters, not all 256. *)
(** src/extend/snowflake/snowflake.go:65-81, init *)
Definition decode_map (alphabet : list ascii) : list Z :=
  let t := foldl (fun t i => <[i := 255]> t) (replicate 256 0) (seq 0 (length alphabet)) in
  foldl (fun t ic => <[Z.to_nat (code ic.2) := Z.of_nat ic.1]> t) t (imap pair alphabet).

(** src/extend/snowflake/snowflake.go:42-42, decodeBase32Map *)
Definition decodeBase32Map : list Z := decode_map encodeBase32Map.
(** src/extend/snowflake/snowflake.go:46-46, decodeBase58Map *)
Definition decodeBase58Map : list Z := decode_map encodeBase58Map.

Definition letter (alphabet : list ascii) (i : Z) : option ascii := if i <? 0 then None else alphabet !! Z.to_nat i.

(** The loop over the digits, least significant first. *)
(** src/extend/snowflake/snowflake.go:206-210, ID.Base32 *)
Fixpoint base_digits (fuel : nat) (b : Z) (alphabet : list ascii) (f : Z) : option (list ascii) :=
  match fuel with
  | O => None
  | S fuel =>
      if b <=? f then c ← letter alphabet (Z.rem f b); l ← base_digits fuel b alphabet (Z.quot f b); Some (c :: l)
      else c ← letter alphabet f; Some [c]
  end.

(** Enough for the 63 binary digits of an int64. *)
Definition base_fuel : nat := 63.

Definition ID_Base (b : Z) (alphabet : list ascii) (f : Z) : option str :=
  if f <? b then c ← letter alphabet f; Some (String c EmptyString)
  else l ← base_digits base_fuel b alphabet f; Some (string_of_list_ascii (reverse l)).

(** src/extend/snowflake/snowflake.go:199-217, ID.Base32 *)
Definition ID_Base32 (f : Z) : option str := ID_Base 32 encodeBase32Map f.
(** src/extend/snowflake/snowflake.go:248-266, ID.Base58 *)
Definition ID_Base58 (f : Z) : option str := ID_Base 58 encodeBase58Map f.

(** src/extend/snowflake/snowflake.go:222-234, ParseBase32 *)
Fixpoint parse_base (b : Z) (decode : list Z) (error : str) (id : Z) (cs : list ascii) : Z * option str :=
  match cs with
  | [] => (id, None)
  | c :: cs =>
      let d := default 0 (decode !! Z.to_nat (code c)) in
      if d =? 255 then (-1, Some error) else parse_base b decode error (i64 (id * b + d)) cs
  end.

(** src/extend/snowflake/snowflake.go:222-234, ParseBase32 *)
Definition ParseBase32 (b : str) : Z * option str := parse_base 32 decodeBase32Map "invalid base32" 0 (list_ascii_of_string b).
(** src/extend/snowflake/snowflake.go:269-281, ParseBase58 *)
Definition ParseBase58 (b : str) : Z * option str := parse_base 58 decodeBase58Map "invalid base58" 0 (list_ascii_of_string b).

(** [binary.BigEndian.PutUint64] and [Uint64]. *)
(** src/extend/snowflake/snowflake.go:311-315, ID.IntBytes *)
Definition ID_IntBytes (f : Z) : bytes := be_put 8 (u64 f).
(** src/extend/snowflake/snowflake.go:319-321, ParseIntBytes *)
Definition ParseIntBytes (id : bytes) : Z := i64 (be_get id).

Definition quote : ascii := ascii_of_N 34.

(** src/extend/snowflake/snowflake.go:342-348, ID.MarshalJSON *)
Definition ID_MarshalJSON (f : Z) : str := String quote (String.append (format_int 10 f) (String quote EmptyString)).

Inductive json_error := JSONSyntaxError (original : str) | JSONNumError (e : num_error).

(** The identifier afterwards, and the error: the receiver changes only on success. *)
(** src/extend/snowflake/snowflake.go:351-363, ID.UnmarshalJSON *)
Definition ID_UnmarshalJSON (b : str) (f : Z) : Z * option json_error :=
  let n := String.length b in
  let is_quote (c : option ascii) := match c with Some c => Ascii.eqb c quote | None => false end in
  if (n <? 3)%nat || negb (is_quote (String.get 0 b)) || negb (is_quote (String.get (n - 1) b)) then (f, Some (JSONSyntaxError b))
  else match parse_int 10 64 (String.substring 1 (n - 2) b) with
       | (_, Some e) => (f, Some (JSONNumError e))
       | (i, None) => (i, None)
       end.

(** ** Generated identifiers *)

Section Generator.
Variable epoch nb sb : Z.
Hypothesis bits_range : 0 <= nb /\ 0 <= sb /\ nb + sb <= 62.
Let v := derive epoch nb sb.

Lemma inS64_pos x : 0 <= x < 2 ^ 63 -> inS 64 x.
Proof. unfold inS. change (2 ^ (64 - 1)) with (2 ^ 63). lia. Qed.

Lemma pow_62 x : 0 <= x <= 62 -> 0 < 2 ^ x <= 2 ^ 62 /\ 2 ^ 63 = 2 * 2 ^ 62.
Proof. intros Hx. split; [|done]. split; [apply Z.pow_pos_nonneg; lia|apply Z.pow_le_mono_r; lia]. Qed.

Lemma low_bits_eq bits : 0 <= bits <= 62 -> low_bits bits = 2 ^ bits - 1.
Proof.
  intros Hb. unfold low_bits, shl64. rewrite Z.shiftl_mul_pow2 by lia.
  destruct (pow_62 bits Hb) as [H1 H2].
  rewrite wrapS_id by (unfold inS; change (2 ^ (64 - 1)) with (2 ^ 63); lia).
  rewrite Z.lxor_m1_l. unfold Z.lnot. lia.
Qed.

(** The identifier of a time, a node and a step. *)
Definition pack (now node step : Z) : Z := (now * 2 ^ nb + node) * 2 ^ sb + step.

Record node_ok (n : Node) : Prop := {
  no_vars : n_nodeMax n = 2 ^ nb - 1 /\ n_stepMask n = 2 ^ sb - 1 /\ n_timeShift n = nb + sb /\ n_nodeShift n = sb;
  no_node : 0 <= n_node n < 2 ^ nb;
  no_step : 0 <= n_step n < 2 ^ sb }.

(** The readings of a monotonic clock that fit the bits of the time. *)
Definition clock_ok (time : Z) (clock : list Z) : Prop :=
  StronglySorted Z.le (time :: clock) /\ Forall (fun now => 0 <= now < 2 ^ (63 - nb - sb)) (time :: clock).

Definition last_id (n : Node) : Z := pack (n_time n) (n_node n) (n_step n).

Lemma clock_ok_cons t now clock : clock_ok t (now :: clock) -> t <= now /\ 0 <= now < 2 ^ (63 - nb - sb) /\ clock_ok now clock.
Proof.
  intros [Hs Hf]. apply StronglySorted_inv in Hs as [Hs Ht]. apply list.Forall_cons in Ht as [Ht _].
  apply list.Forall_cons in Hf as [_ Hf]. split; [done|]. split; [by apply list.Forall_cons in Hf as [? _]|done].
Qed.

Lemma derived : v_nodeMax v = 2 ^ nb - 1 /\ v_nodeMask v = (2 ^ nb - 1) * 2 ^ sb /\ v_stepMask v = 2 ^ sb - 1 /\
  v_timeShift v = nb + sb /\ v_nodeShift v = sb.
Proof.
  unfold v, derive; simpl. rewrite !low_bits_eq by lia. split; [done|].
  destruct (pow_62 nb ltac:(lia)) as [Hnb _]. destruct (pow_62 sb ltac:(lia)) as [Hsb _].
  destruct (pow_62 (nb + sb) ltac:(lia)) as [Hle E]. rewrite Z.pow_add_r in Hle by lia.
  split; [|split; [done|split; [rewrite wrapU_id; [done|unfold inU; simpl; lia]|done]]].
  unfold shl64. rewrite Z.shiftl_mul_pow2 by lia. apply wrapS_id; [lia|]. apply inS64_pos. nia.
Qed.

Lemma pow_parts : 0 < 2 ^ nb /\ 0 < 2 ^ sb /\ 0 < 2 ^ (63 - nb - sb) /\ 2 ^ (63 - nb - sb) * 2 ^ nb * 2 ^ sb = 2 ^ 63.
Proof.
  split; [|split; [|split]]; try (apply Z.pow_pos_nonneg; lia). rewrite <- !Z.pow_add_r by lia. f_equal. lia.
Qed.

Lemma pack_range now node step : 0 <= now < 2 ^ (63 - nb - sb) -> 0 <= node < 2 ^ nb -> 0 <= step < 2 ^ sb ->
  0 <= pack now node step < 2 ^ 63.
Proof.
  intros. destruct pow_parts as (P1 & P2 & P3 & <-). unfold pack.
  assert (0 <= now * 2 ^ nb + node) by nia. assert (now * 2 ^ nb + node + 1 <= 2 ^ (63 - nb - sb) * 2 ^ nb) by nia. nia.
Qed.

Lemma pack_lt t t' node step step' : 0 <= step < 2 ^ sb -> 0 <= step' -> t < t' \/ (t = t' /\ step < step') ->
  pack t node step < pack t' node step'.
Proof.
  intros Hs Hs' [Ht|[-> Ht]]; unfold pack; [|lia]. destruct pow_parts as (P1 & P2 & _ & _).
  assert (t * 2 ^ nb + 2 ^ nb <= t' * 2 ^ nb) by nia. assert (t * 2 ^ nb + node + 1 <= t' * 2 ^ nb + node) by lia. nia.
Qed.

(** The three parts do not overlap, and the identifier is their sum. *)
Lemma pack_bits now node step : 0 <= now < 2 ^ (63 - nb - sb) -> 0 <= node < 2 ^ nb -> 0 <= step < 2 ^ sb ->
  Z.lor (Z.lor (shl64 now (nb + sb)) (shl64 node sb)) step = pack now node step.
Proof.
  intros Hn Hd Hs. destruct pow_parts as (P1 & P2 & P3 & P4). unfold shl64.
  rewrite !wrapS_id; try lia.
  all: try (apply inS64_pos; rewrite Z.shiftl_mul_pow2, ?Z.pow_add_r by lia).
  2: { pose proof (pack_range 0 node 0). unfold pack in *. lia. }
  2: { pose proof (pack_range now 0 0). unfold pack in *. lia. }
  rewrite <- (Z.shiftl_shiftl now nb sb) by lia. rewrite <- Z.shiftl_lor. rewrite (lor_shift_add _ step) by lia.
  by rewrite lor_shift_add by lia.
Qed.

(** The fields read back. *)
Lemma pack_fields now node step : 0 <= now < 2 ^ (63 - nb - sb) -> 0 <= node < 2 ^ nb -> 0 <= step < 2 ^ sb ->
  ID_Node v (pack now node step) = node /\ ID_Step v (pack now node step) = step /\
  (inS 64 (now + epoch) -> ID_Time v (pack now node step) = now + epoch).
Proof.
  intros Hn Hd Hs. destruct derived as (_ & Em & Es & Et & En). destruct pow_parts as (P1 & P2 & P3 & P4).
  assert (Hstep : (pack now node step) mod 2 ^ sb = step).
  { unfold pack. rewrite Z.add_comm, Z.mod_add by lia. apply Z.mod_small. lia. }
  assert (Hdiv : pack now node step / 2 ^ sb = now * 2 ^ nb + node).
  { unfold pack. rewrite Z.add_comm, Z.div_add by lia. rewrite Z.div_small by lia. lia. }
  split; [|split].
  - unfold ID_Node. rewrite Em, En, <- (Z.shiftl_mul_pow2 _ sb), Z.shiftr_land, Z.shiftr_shiftl_l by lia.
    rewrite Z.sub_diag, Z.shiftl_0_r, land_mask_mod, Z.shiftr_div_pow2, Hdiv, Z.add_comm, Z.mod_add by lia. by apply Z.mod_small.
  - unfold ID_Step. by rewrite Es, land_mask_mod by lia.
  - intros Hr. unfold ID_Time. rewrite Et, Z.shiftr_div_pow2, (Z.add_comm nb), Z.pow_add_r, <- Z.div_div, Hdiv by lia.
    rewrite Z.div_add_l, (Z.div_small node), Z.add_0_r by lia. by apply wrapS_id.
Qed.

Lemma wait_past_spec t clock : clock_ok t clock ->
  (Exists (fun now => t < now) clock -> is_Some (wait_past t clock)) /\
  forall now rest, wait_past t clock = Some (now, rest) -> t < now < 2 ^ (63 - nb - sb) /\ now :: rest ⊆ clock /\ clock_ok now rest.
Proof.
  assert (G : forall u, t <= u -> clock_ok u clock -> (Exists (fun now => t < now) clock -> is_Some (wait_past t clock)) /\
    forall now rest, wait_past t clock = Some (now, rest) -> t < now < 2 ^ (63 - nb - sb) /\ now :: rest ⊆ clock /\ clock_ok now rest);
    [|intros H; by apply (G t)].
  induction clock as [|x clock IH]; intros u Hu Hok; cbn [wait_past]; [by split; [intros ?%Exists_nil|]|].
  apply clock_ok_cons in Hok as (Hx & Hr & Hok). destruct (Z.leb_spec x t) as [Hle|Hgt].
  - destruct (IH x ltac:(lia) Hok) as [IH1 IH2]. split.
    + intros [|Hex]%Exists_cons; [lia|by apply IH1].
    + intros now rest E. destruct (IH2 now rest E) as (? & ? & ?). split; [done|]. split; [|done]. intros y Hy. right. auto.
  - split; [by eexists|]. intros now rest [= <- <-]. split; [lia|done].
Qed.

Definition with_time_step (now step : Z) (n : Node) : Node :=
  mkNode now (n_node n) step (n_nodeMax n) (n_nodeMask n) (n_stepMask n) (n_timeShift n) (n_nodeShift n).

(** What a node becomes with an identifier, between two states of its clock. *)
Definition generates (n : Node) (clock : list Z) (id : Z) (n' : Node) (rest : list Z) : Prop :=
  id = last_id n' /\ last_id n < last_id n' /\ n_node n' = n_node n /\ n_time n' :: rest ⊆ clock /\ node_ok n' /\ clock_ok (n_time n') rest /\
  0 <= n_time n' < 2 ^ (63 - nb - sb).

(** A later time, or the same time and a larger step. *)
Lemma generates_later n clock now step rest : node_ok n -> 0 <= now < 2 ^ (63 - nb - sb) -> 0 <= step < 2 ^ sb ->
  (n_time n < now \/ (n_time n = now /\ n_step n < step)) -> now :: rest ⊆ clock -> clock_ok now rest ->
  let n1 := with_time_step now step n in
  generates n clock (Z.lor (Z.lor (shl64 now (n_timeShift n1)) (shl64 (n_node n1) (n_nodeShift n1))) (n_step n1)) n1 rest.
Proof.
  intros [(E1 & E2 & E3 & E4) Hd Hs] Hr Hst Hlt Hin Hok. destruct pow_parts as (P1 & P2 & P3 & P4). unfold generates. simpl.
  rewrite E3, E4, pack_bits by done. unfold last_id. simpl.
  split_and!; try done; (apply pack_lt; lia) || lia.
Qed.

(** One identifier. *)
Lemma Generate_ok n clock : node_ok n -> clock_ok (n_time n) clock ->
  (Exists (fun now => n_time n < now) clock -> is_Some (Generate clock n)) /\
  forall id n' rest, Generate clock n = Some (id, n', rest) -> generates n clock id n' rest.
Proof.
  intros N Hc. pose proof N as [(E1 & E2 & E3 & E4) Hd Hs]. destruct pow_parts as (P1 & P2 & P3 & P4). unfold Generate.
  destruct clock as [|now clock]; [by split; [intros ?%Exists_nil|]|]. apply clock_ok_cons in Hc as (Hle & Hr & Hc).
  destruct (Z.eqb_spec now (n_time n)) as [E|Hne].
  2: { split; [by eexists|]. intros id n' rest [= <- <- <-]. apply generates_later; try done; try lia. }
  destruct (pow_62 sb ltac:(lia)) as [P5 P6].
  assert (Es : Z.land (i64 (n_step n + 1)) (n_stepMask n) = (n_step n + 1) mod 2 ^ sb).
  { rewrite E2, land_mask_mod by lia. by rewrite wrapS_id by (lia || (apply inS64_pos; lia)). }
  rewrite Es. pose proof (Z.mod_pos_bound (n_step n + 1) (2 ^ sb) ltac:(lia)).
  destruct (Z.eqb_spec ((n_step n + 1) mod 2 ^ sb) 0) as [E0|Hn0]; cbn [mbind option_bind].
  - rewrite E in Hc. destruct (wait_past_spec _ _ Hc) as [W1 W2]. split.
    + intros [|Hex]%Exists_cons; [lia|]. destruct (W1 Hex) as [[now' rest] ->]. by eexists.
    + intros id n' rest. destruct (wait_past (n_time n) clock) as [[now' rest']|] eqn:Ew; [|done].
      destruct (W2 now' rest' eq_refl) as (? & ? & ?). cbn [mbind option_bind]. rewrite E0. intros [= <- <- <-].
      apply (generates_later n (now :: clock) now' 0); try done; try lia. intros y Hy. right. auto.
  - split; [by eexists|]. intros id n' rest [= <- <- <-]. apply (generates_later n (now :: clock) now ((n_step n + 1) mod 2 ^ sb)); try done. right. split; [done|].
    destruct (Z.eq_dec (n_step n + 1) (2 ^ sb)) as [Ee|]; [rewrite Ee, Z.mod_same in Hn0 by lia; done|].
    rewrite Z.mod_small by lia. lia.
Qed.

(** Successive identifiers of one node, oldest first. *)
Fixpoint generate_all (k : nat) (clock : list Z) (n : Node) : option (list Z * Node * list Z) :=
  match k with
  | O => Some ([], n, clock)
  | S k => '(ids, n, clock) ← generate_all k clock n; '(id, n, clock) ← Generate clock n; Some (ids ++ [id], n, clock)
  end.

(** What the methods of an identifier read from it. *)
Definition id_fields (node : Z) (clock : list Z) (id : Z) : Prop :=
  0 <= id < 2 ^ 63 /\ ID_Node v id = node /\ 0 <= ID_Step v id < 2 ^ sb /\
  exists now, now ∈ clock /\ (inS 64 (now + epoch) -> ID_Time v id = now + epoch).

Lemma last_id_fields n clock : node_ok n -> n_time n ∈ clock -> 0 <= n_time n < 2 ^ (63 - nb - sb) -> id_fields (n_node n) clock (last_id n).
Proof.
  intros [_ Hd Hs] Hin Hr. destruct (pack_fields _ _ _ Hr Hd Hs) as (E1 & E2 & E3). split; [by apply pack_range|].
  split; [done|]. unfold last_id. rewrite E2. split; [done|]. exists (n_time n). split; [done|exact E3].
Qed.

Lemma generate_all_ok k clock n ids n' rest : node_ok n -> clock_ok (n_time n) clock -> generate_all k clock n = Some (ids, n', rest) ->
  StronglySorted Z.lt ids /\ (forall id, id ∈ ids -> id <= last_id n' /\ id_fields (n_node n) clock id) /\
  n_node n' = n_node n /\ rest ⊆ clock /\ node_ok n' /\ clock_ok (n_time n') rest.
Proof.
  intros N Hc. revert ids n' rest. induction k as [|k IH]; intros ids n' rest; simpl.
  { intros [= <- <- <-]. split; [constructor|]. split; [by intros id ?%not_elem_of_nil|done]. }
  destruct (generate_all k clock n) as [[[ids1 n1] rest1]|]; [|done]. cbn [mbind option_bind].
  destruct (IH ids1 n1 rest1 eq_refl) as (I1 & I2 & I3 & I4 & I5 & I6). destruct (Generate_ok n1 rest1 I5 I6) as [_ G].
  destruct (Generate rest1 n1) as [[[id n2] rest2]|]; [|done]. cbn [mbind option_bind]. intros [= <- <- <-].
  destruct (G id n2 rest2 eq_refl) as (-> & Hlt & E & Hsub & N2 & C2 & R2). split_and!; try done; try congruence; try (intros y Hy; apply I4, Hsub; by right).
  - apply StronglySorted_app_2; [|done|by repeat constructor]. intros x y Hx ->%list_elem_of_singleton. apply I2 in Hx as [Hx _]. lia.
  - intros x [Hx| ->%list_elem_of_singleton]%elem_of_app; [apply I2 in Hx as [Hx ?]; split; [lia|done]|].
    split; [done|]. rewrite <- I3, <- E. apply last_id_fields; [done|apply I4, Hsub; by left|done].
Qed.

Lemma NewNode_ok node n : NewNode node v = (v, Ok n) -> node_ok n /\ n_time n = 0 /\ n_node n = node.
Proof.
  destruct derived as (E1 & E2 & E3 & E4 & E5). destruct pow_parts as (P1 & P2 & _).
  unfold NewNode. change (derive (v_Epoch v) (v_NodeBits v) (v_StepBits v)) with v. cbv zeta. cbn [n_node n_nodeMax]. rewrite E1, E3, E4, E5.
  destruct (Z.ltb_spec node 0); [done|]. destruct (Z.ltb_spec (2 ^ nb - 1) node); [done|]. simpl. intros [= <-].
  split; [|done]. split; simpl; [done|lia|lia].
Qed.

(** C22: Snowflake identifiers are unique, with at most 62 bits for node and step together
    ([bits_range]) and as long as the clock fits the bits that are left: its readings do not
    go back, are not negative and are below 2^(63 - node bits - step bits) ([clock_ok]; 69
    years from the epoch with the 22 bits of the default). Then the identifiers of a node
    strictly increase, are non-negative, and their fields read back the node, a step and one
    of the clock's readings; whenever the clock moves on the next identifier is generated;
    and no node with another number and such a clock makes the same identifier. The code
    checks neither bound: beyond them see [thirty_bits_repeat], [clock_too_large_is_negative]
    and [sixty_four_step_bits_repeat]. *)
Theorem ids_unique (node : Z) (k : nat) (n n' : Node) (clock ids rest : list Z) :
  NewNode node v = (v, Ok n) -> clock_ok 0 clock -> generate_all k clock n = Some (ids, n', rest) ->
  StronglySorted Z.lt ids /\ (forall id, id ∈ ids -> id_fields node clock id) /\
  (Exists (fun now => n_time n' < now) rest -> is_Some (generate_all (S k) clock n)) /\
  forall node2 k2 n2 n2' clock2 ids2 rest2, node2 <> node -> NewNode node2 v = (v, Ok n2) -> clock_ok 0 clock2 ->
    generate_all k2 clock2 n2 = Some (ids2, n2', rest2) -> forall id, id ∈ ids -> id ∉ ids2.
Proof.
  intros [N [Et En]]%NewNode_ok Hc E. rewrite <- Et in Hc.
  destruct (generate_all_ok _ _ _ _ _ _ N Hc E) as (I1 & I2 & I3 & I4 & I5 & I6). rewrite En in I2.
  split; [done|]. split; [by intros id Hid; apply I2|]. split.
  - intros Hex. simpl. rewrite E. simpl. destruct (proj1 (Generate_ok n' rest I5 I6) Hex) as [[[id n1] r1] ->]. by eexists.
  - intros node2 k2 n2 n2' clock2 ids2 rest2 Hne [N2 [Et2 En2]]%NewNode_ok Hc2 E2 id Hid Hid2. rewrite <- Et2 in Hc2.
    destruct (generate_all_ok _ _ _ _ _ _ N2 Hc2 E2) as (_ & J2 & _). destruct (I2 id Hid) as [_ (_ & F1 & _)].
    destruct (J2 id Hid2) as [_ (_ & F2 & _)]. congruence.
Qed.
End Generator.

(** Four identifiers of node 5 with one step bit: the third waits for the clock. *)
Lemma ids_unique_witness :
  exists ids n' rest, 
    generate_all 4 [7; 7; 7; 8; 9] (mkNode 0 5 0 (2 ^ 16 - 1) ((2 ^ 16 - 1) * 2) 1 17 1) = Some (ids, n', rest) /\
     StronglySorted Z.lt ids /\ forall id, id ∈ ids -> ID_Node (derive 1609430400000 16 1) id = 5.
Proof.
  set (n := mkNode 0 5 0 (2 ^ 16 - 1) ((2 ^ 16 - 1) * 2) 1 17 1).
  assert (E : exists ids n' rest, generate_all 4 [7; 7; 7; 8; 9] n = Some (ids, n', rest)) by (eexists _, _, _; vm_compute; reflexivity).
  destruct E as (ids & n' & rest & E). exists ids, n', rest. split; [done|].
  destruct (ids_unique 1609430400000 16 1 ltac:(lia) 5 4 n n' [7; 7; 7; 8; 9] ids rest) as (H1 & H2 & _); [vm_compute; reflexivity| |done|].
  - split; [repeat constructor; by vm_compute|repeat constructor; by vm_compute].
  - split; [done|]. intros id Hid. by apply H2.
Defined.

(** What [ids_unique] leaves out. With 16 bits for the node and 14 for the step the clock has
    33: 99 days after the epoch identifiers are negative, and after 199 days the first ones
    come again. *)
Lemma clock_too_large_is_negative : match NewNode 5 (derive 1609430400000 16 14) with
  | (_, Ok n) => match generate_all 1 [2 ^ 33] n with Some ([id], _, _) => id <? 0 | _ => false end
  | _ => false end = true.
Proof. vm_compute. reflexivity. Qed.

Lemma thirty_bits_repeat : match NewNode 5 (derive 1609430400000 16 14) with
  | (_, Ok n) => match generate_all 2 [1; 1 + 2 ^ 34] n with Some ([id; id'], _, _) => id =? id' | _ => false end
  | _ => false end = true.
Proof. vm_compute. reflexivity. Qed.

(** With 64 bits for the step there is no time in an identifier. *)
Lemma sixty_four_step_bits_repeat : match NewNode 0 (derive 1609430400000 0 64) with
  | (_, Ok n) => match generate_all 2 [1; 2] n with Some ([id; id'], _, _) => id =? id' | _ => false end
  | _ => false end = true.
Proof. vm_compute. reflexivity. Qed.

(** ** Text forms read back *)

(** An alphabet of [b] letters whose table gives every letter its index. *)
Definition table_ok (b : Z) (alphabet : list ascii) (decode : list Z) : bool :=
  (Z.of_nat (length alphabet) =? b) &&
  forallb (fun d => match alphabet !! d with
    | Some c => match decode !! Z.to_nat (code c) with Some x => (x =? Z.of_nat d) && negb (x =? 255) | None => false end
    | None => false end) (seq 0 (Z.to_nat b)).

Section Base.
Variable b : Z.
Variable alphabet : list ascii.
Variable decode : list Z.
Hypothesis b_range : 2 <= b.
Hypothesis table : table_ok b alphabet decode = true.

Lemma letter_decode d : 0 <= d < b -> exists c, letter alphabet d = Some c /\ default 0 (decode !! Z.to_nat (code c)) = d /\ d <> 255.
Proof.
  intros Hd. unfold table_ok in table. apply andb_true_iff in table as [_ Ht]. rewrite forallb_forall in Ht.
  specialize (Ht (Z.to_nat d) ltac:(apply in_seq; lia)). unfold letter. rewrite (proj2 (Z.ltb_ge _ _)) by lia.
  destruct (alphabet !! Z.to_nat d) as [c|]; [|done]. exists c. split; [done|].
  destruct (decode !! Z.to_nat (code c)) as [x|]; [|done]. apply andb_true_iff in Ht as [Hx Hne]. simpl.
  apply Z.eqb_eq in Hx. apply negb_true_iff, Z.eqb_neq in Hne. lia.
Qed.

Definition letter_of (d : Z) : ascii := default quote (letter alphabet d).

Lemma letter_of_ok d : 0 <= d < b -> letter alphabet d = Some (letter_of d) /\ default 0 (decode !! Z.to_nat (code (letter_of d))) = d /\ d <> 255.
Proof. intros Hd. destruct (letter_decode d Hd) as (c & E & ?). unfold letter_of. by rewrite E. Qed.

Lemma base_digits_eq fuel f : 0 <= f < b ^ Z.of_nat fuel -> (0 < fuel)%nat -> base_digits fuel b alphabet f = Some (map letter_of (digits_le fuel b f)).
Proof.
  revert f. induction fuel as [|fuel IH]; intros f Hf Hfuel; [lia|]. cbn [base_digits digits_le].
  destruct (Z.leb_spec b f) as [Hle|Hgt].
  - rewrite (proj2 (Z.ltb_ge _ _)) by lia. rewrite Z.rem_mod_nonneg, Z.quot_div_nonneg by lia.
    destruct (letter_of_ok (f mod b)) as [-> _]; [apply Z.mod_pos_bound; lia|]. cbn [mbind option_bind].
    rewrite Nat2Z.inj_succ, Z.pow_succ_r in Hf by lia. rewrite IH; [done| |].
    + split; [apply Z.div_pos; lia|apply Z.div_lt_upper_bound; lia].
    + destruct fuel; [|lia]. simpl in Hf. lia.
  - rewrite (proj2 (Z.ltb_lt _ _)) by lia. destruct (letter_of_ok f ltac:(lia)) as [-> _]. done.
Qed.

Lemma parse_base_ok error ds acc : Forall (fun d => 0 <= d < b) ds -> 0 <= acc -> eval_digits b acc ds < 2 ^ 63 ->
  parse_base b decode error acc (map letter_of ds) = (eval_digits b acc ds, None).
Proof.
  intros Hds. revert acc. induction Hds as [|d ds Hd Hds IH]; intros acc Ha Hmax; [done|]. cbn [map parse_base].
  destruct (letter_of_ok d Hd) as (_ & E & Hne). rewrite E, (proj2 (Z.eqb_neq _ _)) by done.
  change (eval_digits b acc (d :: ds)) with (eval_digits b (acc * b + d) ds) in *.
  assert (Hmono : forall a, 0 <= a -> a <= eval_digits b a ds).
  { clear -Hds b_range. induction Hds as [|e es He Hes IH]; intros a Ha; simpl; [done|]. etransitivity; [|apply IH; nia]. nia. }
  assert (0 <= acc * b + d) by nia. rewrite wrapS_id; [by apply IH|done|]. apply inS64_pos. specialize (Hmono _ H). lia.
Qed.

(** A non-negative identifier has a text, and the text reads back. *)
Lemma ID_Base_roundtrip error f : 0 <= f < 2 ^ 63 -> exists s, ID_Base b alphabet f = Some s /\
  parse_base b decode error 0 (list_ascii_of_string s) = (f, None).
Proof.
  intros Hf. assert (Hfuel : 0 <= f < b ^ Z.of_nat base_fuel).
  { split; [lia|]. apply Z.lt_le_trans with (2 ^ 63); [lia|]. change (Z.of_nat base_fuel) with 63. apply Z.pow_le_mono_l. lia. }
  assert (E : ID_Base b alphabet f = Some (string_of_list_ascii (map letter_of (rev (digits_le base_fuel b f))))).
  { unfold ID_Base. destruct (Z.ltb_spec f b) as [Hlt|Hge].
    - destruct (letter_of_ok f ltac:(lia)) as [-> _]. change base_fuel with (S 62). cbn [digits_le]. by rewrite (proj2 (Z.ltb_lt _ _)).
    - rewrite base_digits_eq by (done || unfold base_fuel; lia). cbn [mbind option_bind]. unfold reverse. by rewrite <- rev_alt, <- map_rev. }
  eexists. split; [exact E|]. rewrite list_ascii_of_string_of_list_ascii. rewrite parse_base_ok.
  - by rewrite eval_digits_le.
  - apply Forall_rev, digits_le_range; lia.
  - done.
  - rewrite eval_digits_le; lia.
Qed.
End Base.

Lemma format_int_length b f : (1 <= String.length (format_int b f))%nat.
Proof. unfold format_int. destruct (format_uint_cons b f) as (c & s & E), (f <? 0); simpl; [lia|rewrite E; simpl; lia]. Qed.

Lemma get_app_last s c : String.get (String.length s) (String.append s (String c EmptyString)) = Some c.
Proof. induction s as [|a s IH]; [done|]. exact IH. Qed.
Lemma length_app_char s c : String.length (String.append s (String c EmptyString)) = S (String.length s).
Proof. induction s as [|a s IH]; [done|]. simpl. by rewrite IH. Qed.
Lemma substring_app_char s c : String.substring 0 (String.length s) (String.append s (String c EmptyString)) = s.
Proof. induction s as [|a s IH]; [done|]. simpl. by rewrite IH. Qed.

Lemma MarshalJSON_roundtrip f old : inS 64 f -> ID_UnmarshalJSON (ID_MarshalJSON f) old = (f, None).
Proof.
  intros Hf. unfold ID_UnmarshalJSON, ID_MarshalJSON. set (s := format_int 10 f). pose proof (format_int_length 10 f : (1 <= String.length s)%nat) as Hl.
  simpl String.length. rewrite length_app_char. rewrite (proj2 (Nat.ltb_ge _ _)) by lia.
  replace (S (S (String.length s)) - 1)%nat with (S (String.length s)) by lia.
  replace (S (S (String.length s)) - 2)%nat with (String.length s) by lia. simpl String.get. rewrite get_app_last.
  simpl. rewrite substring_app_char. unfold s. by rewrite parse_format_int by (done || lia).
Qed.

(** Every text form of an identifier reads back as the identifier: decimal, binary, base
    36, bytes, JSON and big-endian bytes for every int64, base 32 and base 58 for every one
    that is not negative; no conversion overflows on the way. *)
Theorem snowflake_text_roundtrip (f old : Z) : inS 64 f ->
  ParseString (ID_String f) = (f, None) /\ ParseBase2 (ID_Base2 f) = (f, None) /\ ParseBase36 (ID_Base36 f) = (f, None) /\
  ParseBytes (ID_Bytes f) = (f, None) /\ ParseIntBytes (ID_IntBytes f) = f /\ ID_UnmarshalJSON (ID_MarshalJSON f) old = (f, None) /\
  (0 <= f -> (exists s, ID_Base32 f = Some s /\ ParseBase32 s = (f, None)) /\ exists s, ID_Base58 f = Some s /\ ParseBase58 s = (f, None)).
Proof.
  intros Hf. split_and!; try (apply parse_format_int; done || lia).
  - unfold ParseIntBytes, ID_IntBytes. rewrite be_get_put. change (256 ^ Z.of_nat 8) with (2 ^ 64). unfold wrapU. rewrite Z.mod_mod by done.
    unfold inS in Hf. change (2 ^ (64 - 1)) with (2 ^ 63) in Hf. unfold wrapS. change (2 ^ (64 - 1)) with (2 ^ 63).
    rewrite Zplus_mod_idemp_l, Z.mod_small by (change (2 ^ 64) with (2 * 2 ^ 63); lia). lia.
  - by apply MarshalJSON_roundtrip.
  - intros H0. unfold inS in Hf. change (2 ^ (64 - 1)) with (2 ^ 63) in Hf.
    split; (apply ID_Base_roundtrip; [lia|vm_compute; reflexivity|lia]).
Qed.

Lemma snowflake_text_roundtrip_witness :
  ParseString (ID_String 1234567890123) = (1234567890123, None) /\ ID_Base58 1234567890123 = Some "yqWx92Z"%string /\ ParseBase58 "yqWx92Z" = (1234567890123, None).
Proof.
  destruct (snowflake_text_roundtrip 1234567890123 0) as (H1 & _ & _ & _ & _ & _ & H2); [split; by vm_compute|].
  split; [done|]. destruct (H2 ltac:(lia)) as [_ (s & E & P)].
  assert (Es : s = "yqWx92Z"%string) by (vm_compute in E; congruence). subst s. by split.
Defined.

(** The tables mark only as many bytes as the alphabet has letters: the others that are not
    letters decode as 0 and not as an error. *)
Lemma ParseBase58_accepts_letters_outside :
  map (fun s => ParseBase58 s) ["I"; "O"; "l"; "{}"; "0"]%string =
  [(0, None); (0, None); (0, None); (0, None); (-1, Some "invalid base58"%string)].
Proof. vm_compute. reflexivity. Qed.

Lemma ParseBase32_accepts_letters_outside : ParseBase32 "2v!" = (0, None).
Proof. vm_compute. reflexivity. Qed.

(** The base 32 and 58 forms of a negative identifier panic. *)
Lemma ID_Base_negative f : f < 0 -> ID_Base32 f = None /\ ID_Base58 f = None.
Proof.
  intros Hf. unfold ID_Base32, ID_Base58, ID_Base, letter. rewrite !(proj2 (Z.ltb_lt f _)) by lia. done.
Qed.

(** The default node is made from any name. *)
Lemma InitDefaultNode_ok ChecksumIEEE value : (forall s, inU 32 (ChecksumIEEE s)) ->
  is_Some (InitDefaultNode ChecksumIEEE value (default_vars, None)).2.
Proof.
  intros Hc. unfold InitDefaultNode, SetDefaultNode. cbn [fst snd]. unfold CRC32. specialize (Hc value). unfold inU in Hc.
  rewrite wrapS_id by (lia || (apply inS64_pos; change (2 ^ 63) with (2 ^ 32 * 2 ^ 31); lia)).
  change (v_nodeMax default_vars) with 65535. rewrite Z.rem_mod_nonneg by lia.
  pose proof (Z.mod_pos_bound (ChecksumIEEE value) 65535 ltac:(lia)). unfold NewNode. simpl n_node. simpl n_nodeMax.
  rewrite (proj2 (Z.ltb_ge _ _)) by lia. change (low_bits 16) with 65535. rewrite (proj2 (Z.ltb_ge _ _)) by lia. by eexists.
Qed.
