(* ===== verification/Base58.v ===== *)
(** Base 58 text of byte strings (extend/base58/base58.go): both directions work in groups
    of ten digits, so that most of the arithmetic is on int64 and little on big integers.
    A [big.Int] is a [Z]; the int64 quantities are wrapped where the code's are. *)
From S2P Require Import Prelude Strconv.

(** src/extend/base58/base58.go:11-11, alphabet *)
Definition alphabet : list ascii := list_ascii_of_string "123456789ABCDEFGHJKLMNPQRSTUVWXYZabcdefghijkmnopqrstuvwxyz".

(** src/extend/base58/base58.go:10-10, bigIntermediateRadix *)
Definition bigIntermediateRadix : Z := 430804206899405824.

(** src/extend/base58/base58.go:12-45, b58table *)
Definition b58table : list Z :=
  replicate 48 255 ++
  [255; 0; 1; 2; 3; 4; 5; 6;
   7; 8; 255; 255; 255; 255; 255; 255;
   255; 9; 10; 11; 12; 13; 14; 15;
   16; 255; 17; 18; 19; 20; 21; 255;
   22; 23; 24; 25; 26; 27; 28; 29;
   30; 31; 32; 255; 255; 255; 255; 255;
   255; 33; 34; 35; 36; 37; 38; 39;
   40; 41; 42; 43; 255; 44; 45; 46;
   47; 48; 49; 50; 51; 52; 53; 54;
   55; 56; 57; 255; 255; 255; 255; 255] ++ replicate 128 255.

Definition digit_at (d : Z) : ascii := default "0"%char (alphabet !! Z.to_nat d).
Definition table_at (c : ascii) : Z := default 255 (b58table !! Z.to_nat (Z.of_N (N_of_ascii c))).

(** ** Encoding *)

(** The inner loop: at most ten digits, as many as [primitiveNum] has when nothing is left
    of [num]. *)
(** src/extend/base58/base58.go:62-65, Encode *)
Fixpoint encode_group (i : nat) (num primitiveNum : Z) : list ascii :=
  match i with
  | O => []
  | S i =>
      if (0 <? num) || (0 <? primitiveNum) then
        digit_at (Z.rem primitiveNum 58) :: encode_group i num (Z.quot primitiveNum 58)
      else []
  end.

(** src/extend/base58/base58.go:56-66, Encode *)
Fixpoint encode_num (fuel : nat) (num : Z) : list ascii :=
  match fuel with
  | O => []
  | S fuel =>
      if 0 <? num then
        let primitiveNum := i64 (num mod bigIntermediateRadix) in
        let num := num / bigIntermediateRadix in
        encode_group 10 num primitiveNum ++ encode_num fuel num
      else []
  end.

(** The bytes in front that are zero. *)
(** src/extend/base58/base58.go:68-70, Encode *)
Fixpoint zero_bytes (input : bytes) : nat :=
  match input with b :: input => if byte_val b =? 0 then S (zero_bytes input) else O | [] => O end.

(** src/extend/base58/base58.go:50-77, Encode *)
Definition Encode (input : bytes) : str :=
  let num := be_get input in
  let output := encode_num (digit_fuel num) num ++ replicate (zero_bytes input) (digit_at 0) in
  string_of_list_ascii (reverse output).

(** ** Decoding *)

(** The inner loop: from position [i] to the next multiple of ten or the end. *)
(** src/extend/base58/base58.go:88-101, Decode *)
Fixpoint decode_group (f : bool) (i : nat) (input : list ascii) (a m : Z) : res (Z * Z * nat * list ascii) :=
  match input with
  | [] => Ok (a, m, i, [])
  | c :: rest =>
      if f || negb (i mod 10 =? 0)%nat then
        let tmp := table_at c in
        if tmp =? 255 then Err "invalid Base58 input string at character"%string
        else decode_group false (S i) rest (i64 (a * 58 + tmp)) (if f then m else i64 (m * 58))
      else Ok (a, m, i, input)
  end.

(** src/extend/base58/base58.go:85-106, Decode *)
Fixpoint decode_num (fuel i : nat) (input : list ascii) (result : Z) : res Z :=
  match input, fuel with
  | [], _ => Ok result
  | _, O => Err "fuel"%string
  | _, S fuel =>
      g <-? decode_group true i input 0 58;;
      let '(a, m, i, rest) := g in
      decode_num fuel i rest (result * m + a)
  end.

(** [big.Int.Bytes]: big-endian without leading zero bytes. *)
Definition big_Bytes (z : Z) : bytes := map byte_of (rev (ldigits 256 z)).

(** src/extend/base58/base58.go:109-114, Decode *)
Fixpoint num_ones (input : list ascii) : nat :=
  match input with c :: input => if Ascii.eqb c "1" then S (num_ones input) else O | [] => O end.

(** src/extend/base58/base58.go:81-120, Decode *)
Definition Decode (input : str) : res bytes :=
  let cs := list_ascii_of_string input in
  result <-? decode_num (S (length cs)) 0 cs 0;;
  Ok (replicate (num_ones cs) Byte.x00 ++ big_Bytes result).

(** ** Groups of ten digits are digits *)

#[local] Abbreviation R := bigIntermediateRadix.

Lemma encode_group_eq i num p : 0 <= num -> 0 <= p < 58 ^ Z.of_nat i ->
  encode_group i num p ++ map digit_at (ldigits 58 num) = map digit_at (ldigits 58 (num * 58 ^ Z.of_nat i + p)).
Proof.
  intros Hn. revert p. induction i as [|i IH]; intros p Hp; cbn [encode_group].
  { change (58 ^ Z.of_nat 0) with 1 in *. by replace (num * 1 + p) with num by lia. }
  rewrite Nat2Z.inj_succ, Z.pow_succ_r in * by lia. set (q := 58 ^ Z.of_nat i) in *.
  destruct (Z.ltb_spec 0 num) as [H1|H1], (Z.ltb_spec 0 p) as [H2|H2]; simpl orb; cbv iota.
  4: { replace num with 0 by lia. replace p with 0 by lia. done. }
  all: assert (Hq : 0 < q) by (apply Z.pow_pos_nonneg; lia); assert (0 < num * (58 * q) + p) by (clearbody q; nia);
    rewrite (ldigits_step 58 (num * (58 * q) + p)) by lia; simpl app; simpl map;
    rewrite Z.rem_mod_nonneg, Z.quot_div_nonneg by lia; rewrite IH by (split; [apply Z.div_pos; lia|apply Z.div_lt_upper_bound; lia]);
    replace (num * (58 * q) + p) with (p + num * q * 58) by lia; rewrite Z.mod_add, Z.div_add, (Z.add_comm (p / 58)) by lia; done.
Qed.

Lemma encode_num_eq fuel num : 0 <= num < R ^ Z.of_nat fuel -> encode_num fuel num = map digit_at (ldigits 58 num).
Proof.
  revert num. induction fuel as [|fuel IH]; intros num Hn; cbn [encode_num]; [simpl in Hn; by replace num with 0 by lia|].
  rewrite Nat2Z.inj_succ, Z.pow_succ_r in Hn by lia. destruct (Z.ltb_spec 0 num) as [Hpos|]; [|by replace num with 0 by lia].
  assert (HR : R = 58 ^ Z.of_nat 10) by reflexivity. pose proof (Z.mod_pos_bound num R ltac:(done)).
  assert (R < 2 ^ 62) by reflexivity. rewrite wrapS_id by (lia || (unfold inS; change (2 ^ (64 - 1)) with (2 * 2 ^ 62); lia)).
  rewrite IH by (split; [apply Z.div_pos; lia|apply Z.div_lt_upper_bound; lia]).
  rewrite encode_group_eq; [|apply Z.div_pos; lia|rewrite <- HR; lia]. rewrite <- HR, (Z.mul_comm _ R), <- Z.div_mod by done. done.
Qed.

(** The digits of [Encode], one by one. *)
Definition encode_digits (input : bytes) : list Z := replicate (zero_bytes input) 0 ++ rev (ldigits 58 (be_get input)).

Lemma byte_vals_range (bs : bytes) : Forall (fun d => 0 <= d < 256) (map byte_val bs).
Proof. induction bs; constructor; [apply byte_val_range|done]. Qed.

Lemma be_get_nonneg bs : 0 <= be_get bs.
Proof. apply eval_digits_nonneg; [lia|lia|apply byte_vals_range]. Qed.

Lemma Encode_eq input : list_ascii_of_string (Encode input) = map digit_at (encode_digits input).
Proof.
  unfold Encode, encode_digits. rewrite list_ascii_of_string_of_list_ascii. pose proof (be_get_nonneg input) as Hn.
  rewrite encode_num_eq.
  - unfold reverse. rewrite <- rev_alt, rev_app_distr, map_app, map_rev. f_equal.
    assert (G : forall (c : ascii) k, rev (replicate k c) = replicate k c).
    { intros c k. induction k as [|k IH]; [done|]. simpl. rewrite IH. by rewrite <- replicate_cons_app. }
    rewrite G. induction (zero_bytes input) as [|k IH]; [done|]. simpl. by rewrite IH.
  - split; [done|]. apply digit_fuel_ok; done.
Qed.

(** *** Decoding a group *)

Definition digit_of (c : ascii) : option Z := if table_at c =? 255 then None else Some (table_at c).
Definition digits_of (cs : list ascii) : option (list Z) := mapM digit_of cs.

Lemma digit_of_range c d : digit_of c = Some d -> 0 <= d < 58.
Proof.
  unfold digit_of, table_at. destruct (b58table !! _) as [x|] eqn:E; [|done]. simpl. apply list_elem_of_lookup_2 in E.
  destruct (Z.eqb_spec x 255); [done|]. intros [= <-].
  assert (H : forallb (fun x => (x =? 255) || ((0 <=? x) && (x <? 58))) b58table = true) by reflexivity.
  rewrite forallb_forall in H. specialize (H x ltac:(by apply list_elem_of_In)). lia.
Qed.

Lemma digits_of_cons c cs : digits_of (c :: cs) = d ← digit_of c; ds ← digits_of cs; Some (d :: ds).
Proof. done. Qed.
Arguments digits_of : simpl never.

Lemma digits_of_range cs ds : digits_of cs = Some ds -> Forall (fun d => 0 <= d < 58) ds.
Proof.
  revert ds. induction cs as [|c cs IH]; intros ds; [by intros [= <-]|]. rewrite digits_of_cons.
  destruct (digit_of c) as [d|] eqn:E; [|done]. simpl. destruct (digits_of cs) as [l|]; [|done]. intros [= <-].
  constructor; [by eapply digit_of_range|by apply IH].
Qed.

Definition small (j : nat) (a : Z) : Prop := 0 <= a < 58 ^ Z.of_nat j.

(** After [j] of at most ten characters of a group that starts at a multiple of ten. *)
Lemma decode_group_eq input : forall q j a, (j <= 10)%nat -> small j a ->
  decode_group (j =? 0)%nat (10 * q + j) input a (58 ^ Z.of_nat (j `max` 1)) =
  let k := ((10 - j) `min` length input)%nat in
  match digits_of (take k input) with
  | None => Err "invalid Base58 input string at character"%string
  | Some ds => Ok (eval_digits 58 a ds, 58 ^ Z.of_nat ((j + k) `max` 1), (10 * q + (j + k))%nat, drop k input)
  end.
Proof.
  induction input as [|c rest IH]; intros q j a Hj Ha.
  { cbv zeta. rewrite Nat.min_0_r. simpl. rewrite !Nat.add_0_r. done. }
  cbn [decode_group]. assert (Hmod : ((10 * q + j) mod 10 = j mod 10)%nat) by (rewrite Nat.add_comm, Nat.mul_comm; apply Nat.Div0.mod_add).
  rewrite Hmod. destruct (decide (j = 10)%nat) as [->|Hne].
  { simpl. rewrite !Nat.add_0_r. done. }
  replace ((j =? 0)%nat || negb (j mod 10 =? 0)%nat) with true.
  2: { rewrite Nat.mod_small by lia. by destruct (j =? 0)%nat. }
  replace ((10 - j) `min` length (c :: rest))%nat with (S ((10 - S j) `min` length rest)) by (simpl length; lia).
  cbv zeta. rewrite firstn_cons, skipn_cons. rewrite digits_of_cons.
  unfold digit_of. destruct (Z.eqb_spec (table_at c) 255) as [E|E]; [done|]. cbn [mbind option_bind].
  assert (Hd : 0 <= table_at c < 58) by (apply (digit_of_range c); unfold digit_of; by rewrite (proj2 (Z.eqb_neq _ _))).
  unfold small in Ha. assert (Hs : 0 <= a * 58 + table_at c < 58 ^ Z.of_nat (S j)) by (rewrite Nat2Z.inj_succ, Z.pow_succ_r by lia; lia).
  assert (H10 : forall i, (i <= 10)%nat -> 58 ^ Z.of_nat i < 2 ^ 62) by (intros i Hi; apply Z.le_lt_trans with (58 ^ 10); [apply Z.pow_le_mono_r; lia|done]).
  rewrite wrapS_id by (lia || (unfold inS; change (2 ^ (64 - 1)) with (2 * 2 ^ 62); specialize (H10 (S j)); lia)).
  replace (S (10 * q + j)) with (10 * q + S j)%nat by lia.
  assert (Hm : (if (j =? 0)%nat then 58 ^ Z.of_nat (j `max` 1) else i64 (58 ^ Z.of_nat (j `max` 1) * 58)) = 58 ^ Z.of_nat (S j `max` 1)).
  { destruct (Nat.eqb_spec j 0) as [->|]; [done|]. rewrite !Nat.max_l by lia. rewrite (Nat2Z.inj_succ j), Z.pow_succ_r by lia.
    specialize (H10 (S j) ltac:(lia)). rewrite Nat2Z.inj_succ, Z.pow_succ_r in H10 by lia. pose proof (Z.pow_pos_nonneg 58 (Z.of_nat j) ltac:(lia) ltac:(lia)).
    rewrite wrapS_id by (lia || (unfold inS; change (2 ^ (64 - 1)) with (2 * 2 ^ 62); lia)). lia. }
  rewrite Hm. pose proof (IH q (S j) (a * 58 + table_at c) ltac:(lia) Hs) as IHj. simpl Nat.eqb in IHj. rewrite IHj. cbv zeta.
  destruct (digits_of _) as [ds|]; [|done]. cbn [mbind option_bind]. by rewrite <- Nat.add_succ_comm.
Qed.

Lemma digits_of_app cs1 cs2 : digits_of (cs1 ++ cs2) = ds1 ← digits_of cs1; ds2 ← digits_of cs2; Some (ds1 ++ ds2).
Proof.
  induction cs1 as [|c cs1 IH]; simpl; [by destruct (digits_of cs2)|]. rewrite !digits_of_cons, IH.
  destruct (digit_of c); [|done]. simpl. destruct (digits_of cs1); [|done]. simpl. by destruct (digits_of cs2).
Qed.

Lemma digits_of_length cs ds : digits_of cs = Some ds -> length ds = length cs.
Proof.
  revert ds. induction cs as [|c cs IH]; intros ds; [by intros [= <-]|]. rewrite digits_of_cons. destruct (digit_of c); [|done]. simpl.
  destruct (digits_of cs) as [l|]; [|done]. simpl. intros [= <-]. simpl. by rewrite (IH l).
Qed.

Lemma decode_num_eq fuel input : forall q r, (length input < fuel)%nat ->
  decode_num fuel (10 * q) input r =
  match digits_of input with
  | None => Err "invalid Base58 input string at character"%string
  | Some ds => Ok (eval_digits 58 r ds)
  end.
Proof.
  revert input. induction fuel as [|fuel IH]; intros input q r Hf; [lia|]. destruct input as [|c rest] eqn:Ein; [done|].
  rewrite <- Ein in *. assert (Hne : (0 < length input)%nat) by (subst; simpl; lia).
  replace (decode_num (S fuel) (10 * q) input r) with
    (g <-? decode_group true (10 * q) input 0 58;; let '(a, m, i, rest) := g in decode_num fuel i rest (r * m + a)) by (by subst input).
  clear Ein. pose proof (decode_group_eq input q 0 0 ltac:(lia) ltac:(done)) as G. rewrite Nat.add_0_r in G.
  change (58 ^ Z.of_nat (0 `max` 1)) with 58 in G. simpl Nat.eqb in G. rewrite G. cbv zeta. rewrite Nat.sub_0_r, Nat.add_0_l.
  set (k := (10 `min` length input)%nat). assert (Hd : digits_of input = ds1 ← digits_of (take k input); ds2 ← digits_of (drop k input); Some (ds1 ++ ds2))
    by (by rewrite <- digits_of_app, take_drop).
  rewrite Hd.
  destruct (digits_of (take k input)) as [ds1|] eqn:E1; [|done]. cbn [res_bind mbind option_bind].
  rewrite Nat.max_l by lia. assert (Hds : length ds1 = k) by (apply digits_of_length in E1; rewrite E1, length_take; lia).
  assert (Hr : r * 58 ^ Z.of_nat k + eval_digits 58 0 ds1 = eval_digits 58 r ds1) by (by rewrite (eval_digits_acc 58 r), Hds).
  rewrite Hr. destruct (decide (10 <= length input)%nat) as [Hge|Hlt].
  - replace (10 * q + k)%nat with (10 * S q)%nat by lia. rewrite IH by (rewrite length_drop; lia).
    destruct (digits_of (drop k input)); [|done]. simpl. by rewrite eval_digits_app.
  - rewrite drop_ge by lia. change (digits_of []) with (Some (@nil Z)). cbn [mbind option_bind]. rewrite app_nil_r. by destruct fuel.
Qed.

(** [Decode] on any text: the digits' value after as many zero bytes as leading ones. *)
Lemma Decode_eq input : let cs := list_ascii_of_string input in
  Decode input = match digits_of cs with
    | None => Err "invalid Base58 input string at character"%string
    | Some ds => Ok (replicate (num_ones cs) Byte.x00 ++ big_Bytes (eval_digits 58 0 ds))
    end.
Proof.
  cbv zeta. unfold Decode. pose proof (decode_num_eq (S (length (list_ascii_of_string input))) (list_ascii_of_string input) 0 0 ltac:(lia)) as E.
  change (10 * 0)%nat with 0%nat in E. rewrite E. by destruct (digits_of _).
Qed.

(** *** Digits and letters *)

Lemma digit_of_at d : 0 <= d < 58 -> digit_of (digit_at d) = Some d.
Proof.
  intros Hd. assert (H : forallb (fun i => match digit_of (digit_at (Z.of_nat i)) with Some x => x =? Z.of_nat i | None => false end) (seq 0 58) = true)
    by reflexivity.
  rewrite forallb_forall in H. specialize (H (Z.to_nat d) ltac:(apply in_seq; lia)). rewrite Z2Nat.id in H by lia.
  destruct (digit_of (digit_at d)) as [x|]; [|done]. f_equal. lia.
Qed.

Lemma digits_of_at ds : Forall (fun d => 0 <= d < 58) ds -> digits_of (map digit_at ds) = Some ds.
Proof. induction 1 as [|d ds Hd _ IH]; [done|]. simpl. rewrite digits_of_cons, digit_of_at, IH by done. done. Qed.

(** A letter is the only one with its digit. *)
Lemma digit_at_of c d : digit_of c = Some d -> digit_at d = c.
Proof.
  intros E. assert (H : forallb (fun i => let c := ascii_of_nat i in match digit_of c with Some d => Ascii.eqb (digit_at d) c | None => true end) (seq 0 256) = true)
    by (vm_compute; reflexivity).
  rewrite forallb_forall in H. specialize (H (nat_of_ascii c) ltac:(apply in_seq; pose proof (nat_ascii_bounded c); lia)).
  cbv zeta in H. rewrite ascii_nat_embedding, E in H. by apply Ascii.eqb_eq.
Qed.

Lemma digits_at_of cs ds : digits_of cs = Some ds -> map digit_at ds = cs.
Proof.
  revert ds. induction cs as [|c cs IH]; intros ds; [by intros [= <-]|]. rewrite digits_of_cons.
  destruct (digit_of c) as [d|] eqn:E; [|done]. simpl. destruct (digits_of cs) as [l|]; [|done]. intros [= <-]. simpl.
  by rewrite (IH l), (digit_at_of c d).
Qed.

Lemma num_ones_eq k ds : no_leading_zero ds -> Forall (fun d => 0 <= d < 58) ds -> num_ones (map digit_at (replicate k 0 ++ ds)) = k.
Proof.
  intros Hz Hr. induction k as [|k IH]; simpl; [|by rewrite IH]. destruct ds as [|d ds]; [done|]. simpl.
  apply Forall_cons_iff in Hr as [Hd _]. destruct (Ascii.eqb_spec (digit_at d) "1") as [E|]; [|done]. exfalso. apply Hz.
  pose proof (digit_of_at d Hd) as H. rewrite E in H. by injection H.
Qed.

Lemma zero_bytes_split (bs : bytes) : exists cs, bs = replicate (zero_bytes bs) Byte.x00 ++ cs /\ no_leading_zero (map byte_val cs).
Proof.
  induction bs as [|b bs (cs & E & Hc)]; [by exists []|]. simpl. destruct (Z.eqb_spec (byte_val b) 0) as [Eb|Hne].
  - exists cs. split; [|done]. simpl. rewrite <- E. f_equal. by rewrite <- (byte_of_val b), Eb.
  - by exists (b :: bs).
Qed.

Lemma be_get_zeros k bs : be_get (replicate k Byte.x00 ++ bs) = be_get bs.
Proof. unfold be_get. rewrite map_app. replace (map byte_val (replicate k Byte.x00)) with (replicate k 0) by (induction k as [|k IH]; [done|simpl; by rewrite <- IH]). apply eval_digits_zeros. Qed.

Lemma zero_bytes_zeros k bs : no_leading_zero (map byte_val bs) -> zero_bytes (replicate k Byte.x00 ++ bs) = k.
Proof.
  intros Hz. induction k as [|k IH]; simpl; [|by rewrite IH]. destruct bs as [|b bs]; [done|]. simpl in *. by rewrite (proj2 (Z.eqb_neq _ _)).
Qed.

Lemma byte_of_vals bs : map byte_of (map byte_val bs) = bs.
Proof. induction bs as [|b bs IH]; [done|]. simpl. by rewrite IH, byte_of_val. Qed.

Lemma byte_vals_of ds : Forall (fun d => 0 <= d < 256) ds -> map byte_val (map byte_of ds) = ds.
Proof. induction 1 as [|d ds Hd _ IH]; [done|]. simpl. by rewrite IH, byte_val_of, Z.mod_small. Qed.

Lemma big_Bytes_get bs : no_leading_zero (map byte_val bs) -> big_Bytes (be_get bs) = bs.
Proof.
  intros Hz. unfold big_Bytes, be_get. rewrite ldigits_of_eval by (lia || apply byte_vals_range || done). by rewrite rev_involutive, byte_of_vals.
Qed.

Lemma big_Bytes_vals z : 0 <= z -> map byte_val (big_Bytes z) = rev (ldigits 256 z).
Proof. intros Hz. unfold big_Bytes. apply byte_vals_of, Forall_rev, ldigits_range; lia. Qed.

Lemma be_get_big_Bytes z : 0 <= z -> be_get (big_Bytes z) = z.
Proof. intros Hz. unfold be_get. by rewrite big_Bytes_vals, ldigits_eval. Qed.

Lemma string_ascii_inj s t : list_ascii_of_string s = list_ascii_of_string t -> s = t.
Proof. intros E. apply (f_equal string_of_list_ascii) in E. by rewrite !string_of_list_ascii_of_string in E. Qed.

(** Base 58 text and byte strings correspond one to one: what [Encode] prints [Decode]
    reads back, leading zero bytes included; and a text that [Decode] reads is the one
    [Encode] prints for its bytes. No int64 of the groups of ten digits overflows. *)
Theorem base58_roundtrip (input : bytes) (text : str) (output : bytes) :
  Decode (Encode input) = Ok input /\ (Decode text = Ok output -> Encode output = text).
Proof.
  split.
  - rewrite Decode_eq, Encode_eq. unfold encode_digits. destruct (zero_bytes_split input) as (cs & E & Hz).
    set (k := zero_bytes input) in *. rewrite E, be_get_zeros. pose proof (be_get_nonneg cs) as Hn.
    rewrite digits_of_at, num_ones_eq, eval_digits_zeros, ldigits_eval, big_Bytes_get; try done; try lia.
    + apply ldigits_no_leading; lia.
    + apply Forall_rev, ldigits_range; lia.
    + apply Forall_app. split; [apply Forall_replicate; lia|apply Forall_rev, ldigits_range; lia].
  - rewrite Decode_eq. cbv zeta. destruct (digits_of (list_ascii_of_string text)) as [ds|] eqn:Ed; [|done]. intros [= <-].
    apply string_ascii_inj. rewrite Encode_eq. unfold encode_digits. rewrite <- (digits_at_of _ _ Ed).
    pose proof (digits_of_range _ _ Ed) as Hr. destruct (strip_zeros ds) as (k & es & -> & Hz). apply Forall_app in Hr as [_ Hr].
    assert (Hn : 0 <= eval_digits 58 0 es) by (apply eval_digits_nonneg; [lia|lia|done]).
    rewrite num_ones_eq, eval_digits_zeros, be_get_zeros, be_get_big_Bytes, zero_bytes_zeros, ldigits_of_eval, rev_involutive by (try done; try lia;
      rewrite big_Bytes_vals by done; apply ldigits_no_leading; lia). done.
Qed.

(** The groups of ten digits change nothing: [Encode] prints the digits a division by 58
    after the other gives, after a one for each leading zero byte, and [Decode] computes
    the value of all digits at once, or fails, on any text. *)
Theorem base58_plain_digits (input : bytes) (text : str) :
  list_ascii_of_string (Encode input) = map digit_at (replicate (zero_bytes input) 0 ++ rev (ldigits 58 (be_get input))) /\
  Decode text = match digits_of (list_ascii_of_string text) with
    | None => Err "invalid Base58 input string at character"%string
    | Some ds => Ok (replicate (num_ones (list_ascii_of_string text)) Byte.x00 ++ big_Bytes (eval_digits 58 0 ds))
    end.
Proof. split; [apply Encode_eq|apply Decode_eq]. Qed.

Definition sample : bytes := map byte_of [0; 0; 1; 255; 128; 7; 200; 33; 90; 250; 3; 17].

Lemma base58_roundtrip_witness : Encode sample = "117Wd685T8jpywW"%string /\ Decode (Encode sample) = Ok sample.
Proof.
  assert (E : Decode "117Wd685T8jpywW" = Ok sample) by (vm_compute; reflexivity).
  destruct (base58_roundtrip sample "117Wd685T8jpywW" sample) as [H1 H2]. split; [by apply H2|done].
Defined.
