(* ===== verification/Discovery.v ===== *)
(** Discovery: the member table of a node (net/discovery/discovery_default.go) and the
    protocol by which nodes find each other over NATS (discovery_nats.go).

    A master keeps the list of all nodes. Every other node, when the master is not in its
    table, asks the master to register it; the master puts it in its own table, answers with
    the members it knows, and publishes the new member to all. A node that stops publishes
    that, and everybody removes it. [exec_disc] is one step of the network: a node starts,
    checks for the master, gives up a request, stops or dies, or a message is delivered, in
    any order. Messages are bytes; protobuf is [MemberProto]. *)
From S2P Require Import Prelude.
#[local] Set Warnings "-clear-no-such-hyp".

(** ** The member table *)

(** The fields the code uses: [lastAt] and [heartbeatTimeout] stay zero. *)
(** src/net/proto/proto.proto:11-19, Member *)
Record Member := mkMember { NodeID : str; NodeType : str; Address : str; Settings : gmap str str }.

#[global] Instance Member_eq_dec : EqDecision Member.
Proof. solve_decision. Defined.

(** Listeners are numbered; a call of one is an event. *)
Inductive member_event := MemberAdded (listener : nat) (m : Member) | MemberRemoved (listener : nat) (m : Member).

(** src/net/discovery/discovery_default.go:18-22, DiscoveryDefault *)
Record DiscoveryDefault := mkDiscovery {
  dd_members : gmap str Member; dd_onAdd : list nat; dd_onRemove : list nat; dd_events : list member_event }.

Definition newDiscovery : DiscoveryDefault := mkDiscovery ∅ [] [] [].

(** src/net/discovery/discovery_default.go:24-26, DiscoveryDefault.PreInit *)
Definition PreInit (d : DiscoveryDefault) : DiscoveryDefault := mkDiscovery ∅ (dd_onAdd d) (dd_onRemove d) (dd_events d).

(** src/net/discovery/discovery_default.go:126-137, DiscoveryDefault.GetMember *)
Definition GetMember (nodeID : str) (d : DiscoveryDefault) : option Member :=
  if decide (nodeID = EmptyString) then None else dd_members d !! nodeID.

(** src/net/discovery/discovery_default.go:139-155, DiscoveryDefault.AddMember *)
Definition AddMember (member : Member) (d : DiscoveryDefault) : DiscoveryDefault :=
  match dd_members d !! NodeID member with
  | Some _ => d
  | None => mkDiscovery (<[NodeID member := member]> (dd_members d)) (dd_onAdd d) (dd_onRemove d)
      (dd_events d ++ map (fun l => MemberAdded l member) (dd_onAdd d))
  end.

(** src/net/discovery/discovery_default.go:157-167, DiscoveryDefault.RemoveMember *)
Definition RemoveMember (nodeID : str) (d : DiscoveryDefault) : DiscoveryDefault :=
  match dd_members d !! nodeID with
  | Some member => mkDiscovery (delete nodeID (dd_members d)) (dd_onAdd d) (dd_onRemove d)
      (dd_events d ++ map (fun l => MemberRemoved l member) (dd_onRemove d))
  | None => d
  end.

(** [None] is the nil listener. *)
(** src/net/discovery/discovery_default.go:169-174, DiscoveryDefault.OnAddMember *)
Definition OnAddMember (listener : option nat) (d : DiscoveryDefault) : DiscoveryDefault :=
  match listener with
  | None => d
  | Some l => mkDiscovery (dd_members d) (dd_onAdd d ++ [l]) (dd_onRemove d) (dd_events d)
  end.

(** src/net/discovery/discovery_default.go:176-181, DiscoveryDefault.OnRemoveMember *)
Definition OnRemoveMember (listener : option nat) (d : DiscoveryDefault) : DiscoveryDefault :=
  match listener with
  | None => d
  | Some l => mkDiscovery (dd_members d) (dd_onAdd d) (dd_onRemove d ++ [l]) (dd_events d)
  end.

(** src/net/discovery/discovery_default.go:73-84, DiscoveryDefault.Map *)
Definition Map (d : DiscoveryDefault) : gmap str Member := list_to_map ((fun kv => (NodeID kv.2, kv.2)) <$> map_to_list (dd_members d)).

(** src/extend/slice/slice.go:29-34, StringIn *)
Definition StringIn (v : str) (sl : list str) : Z * bool :=
  match list_find (fun x => x = v) sl with Some (i, _) => (Z.of_nat i, true) | None => (0, false) end.

(** [order]: the keys as [Range] meets them. *)
(** src/net/discovery/discovery_default.go:86-101, DiscoveryDefault.ListByType *)
Definition ListByType (order : list str) (nodeType : str) (filterNodeID : list str) (d : DiscoveryDefault) : list Member :=
  omap (fun key =>
    member ← dd_members d !! key;
    if decide (NodeType member = nodeType) then
      if snd (StringIn (NodeID member) filterNodeID) then None else Some member
    else None) order.

(** [Intn]: the random number, below its argument. *)
(** src/net/discovery/discovery_default.go:103-116, DiscoveryDefault.Random *)
Definition Random (Intn : nat -> nat) (order : list str) (nodeType : str) (d : DiscoveryDefault) : option Member :=
  let memberList := ListByType order nodeType [] d in
  let memberLen := length memberList in
  if (memberLen <? 1)%nat then None
  else if (memberLen =? 1)%nat then memberList !! 0%nat
  else memberList !! Intn memberLen.

(** src/net/discovery/discovery_default.go:118-124, DiscoveryDefault.GetType *)
Definition GetType (nodeID : str) (d : DiscoveryDefault) : res str :=
  match GetMember nodeID d with
  | None => Err (String.append "nodeID = " (String.append nodeID " not found."))
  | Some member => Ok (NodeType member)
  end.

(** An entry of the profile: node_id, rpc_address and __settings__. *)
Record profile_item := mkItem { pi_node_id : str; pi_rpc_address : str; pi_settings : list (str * str) }.

(** The entries of one type, up to the first without an identifier or with a known one. *)
(** src/net/discovery/discovery_default.go:37-65, DiscoveryDefault.Load *)
Fixpoint load_type (nodeType : str) (items : list profile_item) (d : DiscoveryDefault) : DiscoveryDefault :=
  match items with
  | [] => d
  | item :: items =>
      let nodeID := pi_node_id item in
      if decide (nodeID = EmptyString) then d
      else match GetMember nodeID d with
           | Some _ => d
           | None =>
               let member := mkMember nodeID nodeType (pi_rpc_address item)
                 (foldl (fun m kv => <[kv.1 := kv.2]> m) ∅ (pi_settings item)) in
               load_type nodeType items
                 (mkDiscovery (<[nodeID := member]> (dd_members d)) (dd_onAdd d) (dd_onRemove d) (dd_events d))
           end
  end.

(** [None]: the profile has no nodes. *)
(** src/net/discovery/discovery_default.go:28-67, DiscoveryDefault.Load *)
Definition Load_default (nodeConfig : option (list (str * list profile_item))) (d : DiscoveryDefault) : DiscoveryDefault :=
  match nodeConfig with
  | None => d
  | Some types => foldl (fun d t => load_type t.1 t.2 d) d types
  end.

(** ** The nodes of a network *)

(** The control plane's protobuf: members and lists of members. *)
Class MemberProto := {
  mp_marshal : Member -> option bytes;
  mp_unmarshal : bytes -> option Member;
  mp_marshal_list : list Member -> option bytes;
  mp_unmarshal_list : bytes -> option (list Member) }.

(** What is marshalled unmarshals to the same; a list of valid members is valid. *)
Class MemberLaws (P : MemberProto) : Prop := {
  mp_member : forall m b, mp_marshal m = Some b -> mp_unmarshal b = Some m;
  mp_list : forall l, Forall (fun m => is_Some (mp_marshal m)) l ->
    exists b, mp_marshal_list l = Some b /\ mp_unmarshal_list b = Some l }.

Inductive packet :=
| PRegister (src : str) (request : nat) (data : bytes)
| PReply (dst : str) (request : nat) (data : bytes)
| PAdd (dst : str) (data : bytes)
| PUnregister (dst : str) (data : bytes).

(** The application's own member and its bytes, the table, and the number of the request
    that [registerToMaster] waits for. *)
(** src/net/discovery/discovery_nats.go:24-34, DiscoveryNats *)
Record node := mkNode { d_app : Member; d_bytes : bytes; d_disc : DiscoveryDefault; d_request : option nat }.

Definition with_disc (f : DiscoveryDefault -> DiscoveryDefault) (d : node) : node := mkNode (d_app d) (d_bytes d) (f (d_disc d)) (d_request d).
Definition with_request (r : option nat) (d : node) : node := mkNode (d_app d) (d_bytes d) (d_disc d) r.

Record dnet := mkDnet { dn_nodes : gmap str node; dn_net : list packet; dn_next : nat }.

Section Network.
Context `{P : MemberProto}.
(** The master's member, which every node reads from the profile. *)
Variable masterMember : Member.

Definition masterID : str := NodeID masterMember.

(** src/net/discovery/discovery_nats.go:51-53, DiscoveryNats.isMaster *)
Definition isMaster (d : node) : bool := bool_decide (NodeID (d_app d) = masterID).
(** src/net/discovery/discovery_nats.go:55-57, DiscoveryNats.isClient *)
Definition isClient (d : node) : bool := negb (bool_decide (NodeID (d_app d) = masterID)).

(** A member that does not marshal leaves [masterMember] nil, and [init] panics on it. *)
(** src/net/discovery/discovery_nats.go:87-135, DiscoveryNats.loadMember *)
Definition loadMember (app : Member) : option node :=
  thisMemberBytes ← mp_marshal (mkMember (NodeID app) (NodeType app) (Address app) ∅);
  Some (mkNode (mkMember (NodeID app) (NodeType app) (Address app) ∅) thisMemberBytes (PreInit newDiscovery) None).

(** src/net/discovery/discovery_nats.go:171-178, DiscoveryNats.serverInit *)
Definition serverInit (d : node) : node := if isMaster d then with_disc (AddMember masterMember) d else d.

(** src/net/discovery/discovery_nats.go:63-70, DiscoveryNats.Load *)
Definition Load_nats (app : Member) : option node := serverInit <$> loadMember app.

(** Who receives what is published: everybody, and everybody but the master. *)
Definition everybody (s : dnet) : list str := (map_to_list (dn_nodes s)).*1.
Definition clients (s : dnet) : list str := filter (fun x => x <> masterID) (everybody s).

(** src/net/discovery/discovery_nats.go:180-228, DiscoveryNats.serverInit *)
Definition on_register (order : list str) (subscribers : list str) (src : str) (request : nat) (data : bytes) (d : node) : node * list packet :=
  match mp_unmarshal data with
  | None => (d, [])
  | Some newMember =>
      let d := with_disc (AddMember newMember) d in
      let memberList := omap (fun key =>
        member ← dd_members (d_disc d) !! key;
        if decide (NodeID member <> NodeID newMember) then Some member else None) order in
      match mp_marshal_list memberList with
      | None => (d, [])
      | Some rspData => (d, PReply src request rspData :: map (fun dst => PAdd dst data) subscribers)
      end
  end.

(** src/net/discovery/discovery_nats.go:243-256, DiscoveryNats.clientInit *)
Definition on_add (data : bytes) (d : node) : node :=
  match mp_unmarshal data with
  | None => d
  | Some addMember =>
      match GetMember (NodeID addMember) (d_disc d) with
      | Some _ => d
      | None => with_disc (AddMember addMember) d
      end
  end.

(** src/net/discovery/discovery_nats.go:146-161, DiscoveryNats.init *)
Definition on_unregister (data : bytes) (d : node) : node :=
  match mp_unmarshal data with
  | None => d
  | Some unregisterMember =>
      if decide (NodeID unregisterMember = NodeID (d_app d)) then d else with_disc (RemoveMember (NodeID unregisterMember)) d
  end.

(** The answer, when the request still waits for it. *)
(** src/net/discovery/discovery_nats.go:290-301, DiscoveryNats.registerToMaster *)
Definition on_reply (request : nat) (rsp : bytes) (d : node) : node :=
  if decide (d_request d = Some request) then
    let d := with_request None d in
    match mp_unmarshal_list rsp with
    | None => d
    | Some list => with_disc (fun disc => foldl (fun disc member => AddMember member disc) disc list) d
    end
  else d.

(** A request that nobody answers to fails at once. *)
(** src/net/discovery/discovery_nats.go:272-283, DiscoveryNats.registerToMaster *)
Definition registerToMaster (c : str) (d : node) (s : dnet) : dnet :=
  match dn_nodes s !! masterID with
  | None => s
  | Some _ => mkDnet (<[c := with_request (Some (dn_next s)) d]> (dn_nodes s)) (dn_net s ++ [PRegister c (dn_next s) (d_bytes d)]) (S (dn_next s))
  end.

(** One turn of the loop. *)
(** src/net/discovery/discovery_nats.go:261-270, DiscoveryNats.checkMaster *)
Definition checkMaster (c : str) (s : dnet) : option dnet :=
  d ← dn_nodes s !! c;
  if isClient d then
    match d_request d with
    | Some _ => None
    | None => Some (match GetMember masterID (d_disc d) with Some _ => s | None => registerToMaster c d s end)
    end
  else None.

(** The application stops: the node is gone when its message is out. *)
(** src/net/discovery/discovery_nats.go:303-314, DiscoveryNats.Stop *)
Definition Stop (x : str) (s : dnet) : option dnet :=
  d ← dn_nodes s !! x;
  Some (mkDnet (delete x (dn_nodes s)) (dn_net s ++ map (fun dst => PUnregister dst (d_bytes d)) (everybody s)) (dn_next s)).

Definition set_node (x : str) (d : node) (s : dnet) : dnet := mkDnet (<[x := d]> (dn_nodes s)) (dn_net s) (dn_next s).

(** A message reaches its node, or nobody when the node is gone. *)
Definition deliver (order : list str) (p : packet) (s : dnet) : dnet :=
  match p with
  | PRegister src n data =>
      match dn_nodes s !! masterID with
      | None => s
      | Some d =>
          let '(d, out) := on_register order (clients s) src n data d in
          mkDnet (<[masterID := d]> (dn_nodes s)) (dn_net s ++ out) (dn_next s)
      end
  | PReply dst n data => match dn_nodes s !! dst with None => s | Some d => set_node dst (on_reply n data d) s end
  | PAdd dst data => match dn_nodes s !! dst with None => s | Some d => set_node dst (on_add data d) s end
  | PUnregister dst data => match dn_nodes s !! dst with None => s | Some d => set_node dst (on_unregister data d) s end
  end.

(** The order in which [Range] meets the master's members once the new one is in. *)
Definition range_order (order : list str) (p : packet) (s : dnet) : Prop :=
  match p with
  | PRegister _ _ data =>
      match dn_nodes s !! masterID, mp_unmarshal data with
      | Some d, Some m => NoDup order /\ list_to_set order =@{gset str} dom (dd_members (AddMember m (d_disc d)))
      | _, _ => True
      end
  | _ => True
  end.

#[global] Instance range_order_dec order p s : Decision (range_order order p s).
Proof. unfold range_order. destruct p; try apply _. destruct (dn_nodes s !! masterID); [|apply _]. destruct (mp_unmarshal data); apply _. Defined.

Inductive disc_action :=
| DStart (app : Member) | DCheck (c : str) | DTimeout (c : str) | DDeliver (i : nat) (order : list str) | DStop (x : str) | DCrash (x : str).

Definition exec_disc (a : disc_action) (s : dnet) : option dnet :=
  match a with
  | DStart app =>
      match dn_nodes s !! NodeID app with
      | Some _ => None
      | None => d ← Load_nats app; Some (set_node (NodeID app) d s)
      end
  | DCheck c => checkMaster c s
  | DTimeout c => d ← dn_nodes s !! c; match d_request d with Some _ => Some (set_node c (with_request None d) s) | None => None end
  | DDeliver i order =>
      p ← dn_net s !! i;
      if decide (range_order order p s) then Some (deliver order p (mkDnet (dn_nodes s) (delete i (dn_net s)) (dn_next s))) else None
  | DStop x => Stop x s
  | DCrash x => d ← dn_nodes s !! x; Some (mkDnet (delete x (dn_nodes s)) (dn_net s) (dn_next s))
  end.

Definition run_disc (l : list disc_action) (s : dnet) : option dnet := foldl (fun s a => s ≫= exec_disc a) (Some s) l.

Definition empty_net : dnet := mkDnet ∅ [] 0.
End Network.

(** ** The table and its listeners *)

Inductive table_op :=
| TAdd (m : Member) | TRemove (id : str) | TOnAdd (l : option nat) | TOnRemove (l : option nat)
| TLoad (config : option (list (str * list profile_item))).

Definition exec_table (o : table_op) (d : DiscoveryDefault) : DiscoveryDefault :=
  match o with
  | TAdd m => AddMember m d
  | TRemove id => RemoveMember id d
  | TOnAdd l => OnAddMember l d
  | TOnRemove l => OnRemoveMember l d
  | TLoad config => Load_default config d
  end.

Definition run_table (ops : list table_op) (d : DiscoveryDefault) : DiscoveryDefault := foldl (fun d o => exec_table o d) d ops.

Definition keys_ok (d : DiscoveryDefault) : Prop := forall id m, dd_members d !! id = Some m -> NodeID m = id.

Lemma AddMember_lookup m d id x : dd_members (AddMember m d) !! id = Some x <->
  dd_members d !! id = Some x \/ (dd_members d !! NodeID m = None /\ id = NodeID m /\ x = m).
Proof.
  unfold AddMember. destruct (dd_members d !! NodeID m) as [y|] eqn:E; simpl; [naive_solver|].
  destruct (decide (id = NodeID m)) as [->|Hne]; [rewrite lookup_insert_eq, E|rewrite lookup_insert_ne by done]; naive_solver.
Qed.

Lemma AddMember_is_Some m d id : is_Some (dd_members (AddMember m d) !! id) <-> is_Some (dd_members d !! id) \/ id = NodeID m.
Proof.
  unfold AddMember. destruct (dd_members d !! NodeID m) as [y|] eqn:E; simpl; [split; [by left|intros [?| ->]; by eauto]|].
  destruct (decide (id = NodeID m)) as [->|Hne]; [rewrite lookup_insert_eq; naive_solver|rewrite lookup_insert_ne by done; naive_solver].
Qed.

Lemma AddMember_keys m d : keys_ok d -> keys_ok (AddMember m d).
Proof. intros H id x [Hx|(_ & -> & ->)]%AddMember_lookup; [by apply H|done]. Qed.

Lemma load_type_keys t items d : keys_ok d -> keys_ok (load_type t items d).
Proof.
  revert d. induction items as [|item items IH]; intros d H; simpl; [done|]. destruct (decide _); [done|].
  destruct (GetMember _ _); [done|]. apply IH. intros id m. simpl. rewrite lookup_insert_Some. intros [[<- <-]|[_ ?]]; [done|by apply H].
Qed.

Lemma exec_table_keys o d : keys_ok d -> keys_ok (exec_table o d).
Proof.
  intros H. destruct o as [m|id|[l|]|[l|]|[types|]]; simpl; try done.
  - by apply AddMember_keys.
  - unfold RemoveMember. destruct (dd_members d !! id); [|done]. intros i m0. simpl. rewrite lookup_delete_Some. intros [_ ?]. by apply H.
  - revert d H. induction types as [|t types IH]; intros d H; simpl; [done|]. by apply IH, load_type_keys.
Qed.

Lemma run_table_keys ops d : keys_ok d -> keys_ok (run_table ops d).
Proof. revert d. induction ops as [|o ops IH]; intros d H; [done|]. simpl. by apply IH, exec_table_keys. Qed.

Lemma StringIn_in v sl : snd (StringIn v sl) = true <-> v ∈ sl.
Proof.
  unfold StringIn. destruct (list_find (fun x => x = v) sl) as [[i y]|] eqn:E; simpl.
  - apply list_find_Some in E as (Hy & -> & _). split; [|done]. intros _. by eapply list_elem_of_lookup_2.
  - split; [done|]. intros Hin. apply list_find_None in E. by destruct (proj1 (list.Forall_forall _ _) E v Hin).
Qed.

Lemma ListByType_at order t f d m : m ∈ ListByType order t f d <->
  exists key, key ∈ order /\ dd_members d !! key = Some m /\ NodeType m = t /\ NodeID m ∉ f.
Proof.
  unfold ListByType. rewrite list_elem_of_omap. apply exist_proper. intros key.
  destruct (dd_members d !! key) as [x|]; simpl; [|naive_solver]. case_decide as Ht; [|naive_solver].
  pose proof (StringIn_in (NodeID x) f). destruct (snd (StringIn (NodeID x) f)); naive_solver.
Qed.

Lemma ListByType_spec order t f d m : keys_ok d -> list_to_set order =@{gset str} dom (dd_members d) ->
  m ∈ ListByType order t f d <-> dd_members d !! NodeID m = Some m /\ NodeType m = t /\ NodeID m ∉ f.
Proof.
  intros K Hdom. rewrite ListByType_at. split; [intros (key & _ & Hm & ? & ?); pose proof (K key m Hm); by subst key|].
  intros (Hm & Ht & Hf). exists (NodeID m). split; [|done]. apply (elem_of_list_to_set (C := gset str)). rewrite Hdom. by apply elem_of_dom.
Qed.

Lemma ListByType_NoDup order t f d : keys_ok d -> NoDup order -> NoDup (ListByType order t f d).
Proof.
  intros K. induction 1 as [|key order Hk Hnd IH]; simpl; [constructor|].
  destruct (dd_members d !! key) as [x|] eqn:Ex; [|done]. simpl. case_decide; [|done]. destruct (snd _); [done|].
  apply list.NoDup_cons. split; [|done]. intros (key2 & Hk2 & Ey & _)%ListByType_at. apply Hk. by rewrite <- (K key x Ex), (K key2 x Ey).
Qed.

Lemma Random_spec Intn order t d : (forall n, (0 < n)%nat -> (Intn n < n)%nat) ->
  match Random Intn order t d with Some m => m ∈ ListByType order t [] d | None => ListByType order t [] d = [] end.
Proof.
  intros Hint. unfold Random. destruct (ListByType order t [] d) as [|a [|b l]]; [done|simpl; by left|]. simpl Nat.ltb. simpl Nat.eqb. cbv iota.
  destruct (lookup_lt_is_Some_2 _ _ (Hint (length (a :: b :: l)) ltac:(simpl; lia))) as [m Hm]. rewrite Hm. by eapply list_elem_of_lookup_2.
Qed.

Lemma Map_eq d : keys_ok d -> Map d = dd_members d.
Proof.
  intros K. unfold Map. rewrite <- (list_to_map_to_list (dd_members d)) at 2. f_equal.
  rewrite <- (list_fmap_id (map_to_list (dd_members d))) at 2. apply list_fmap_ext. intros i [k x] Hi.
  apply list_elem_of_lookup_2, elem_of_map_to_list in Hi. simpl. by rewrite (K k x Hi).
Qed.

(** The queries of a table, after any operations on it: [ListByType] gives the members
    of a type that are not filtered, each once, whatever order the map is ranged over in;
    [Random] gives one of them, and none only when there is none; [Map] is the table, and
    [GetType] fails exactly for a node that is not in it. *)
Theorem table_queries (ops : list table_op) (order : list str) (nodeType : str) (filterNodeID : list str) (Intn : nat -> nat) :
  let d := run_table ops newDiscovery in
  NoDup order -> list_to_set order =@{gset str} dom (dd_members d) -> (forall n, (0 < n)%nat -> (Intn n < n)%nat) ->
  (forall m, m ∈ ListByType order nodeType filterNodeID d <->
     dd_members d !! NodeID m = Some m /\ NodeType m = nodeType /\ NodeID m ∉ filterNodeID) /\
  NoDup (ListByType order nodeType filterNodeID d) /\
  match Random Intn order nodeType d with
  | Some m => m ∈ ListByType order nodeType [] d
  | None => ListByType order nodeType [] d = []
  end /\
  Map d = dd_members d /\
  (forall id, is_ok (GetType id d) = true <-> id <> EmptyString /\ is_Some (dd_members d !! id)).
Proof.
  intros d Hnd Hdom Hint. assert (K : keys_ok d) by (by apply run_table_keys).
  split; [intros m; by apply ListByType_spec|]. split; [by apply ListByType_NoDup|]. split; [by apply Random_spec|].
  split; [by apply Map_eq|]. intros id. unfold GetType, GetMember. case_decide as E; [split; [done|tauto]|].
  destruct (dd_members d !! id); simpl; split; try done. by intros [_ [? ?]].
Qed.

Definition member_a : Member := mkMember "10001" "gate" "10.0.0.1:80" ∅.
Definition member_b : Member := mkMember "10002" "gate" "10.0.0.2:80" ∅.
Definition member_c : Member := mkMember "20001" "game" "10.0.0.3:80" ∅.
Definition demo_ops : list table_op := [TAdd member_a; TAdd member_b; TAdd member_a; TAdd member_c; TRemove "20001"; TRemove "1"].

Lemma table_queries_witness :
  member_b ∈ ListByType ["10001"; "10002"] "gate" ["10001"] (run_table demo_ops newDiscovery) /\
  Map (run_table demo_ops newDiscovery) = dd_members (run_table demo_ops newDiscovery).
Proof.
  destruct (table_queries demo_ops ["10001"; "10002"] "gate" ["10001"] (fun _ => 0%nat)) as (H1 & _ & _ & H4 & _).
  - apply (bool_decide_eq_true_1 _). vm_compute. reflexivity.
  - apply (bool_decide_eq_true_1 _). vm_compute. reflexivity.
  - lia.
  - split; [|exact H4]. apply H1. split; [reflexivity|]. split; [reflexivity|]. apply (bool_decide_eq_true_1 _). vm_compute. reflexivity.
Defined.

(** *** What a listener knows *)

Definition event_listener (e : member_event) : nat := match e with MemberAdded l _ | MemberRemoved l _ => l end.

(** The table a listener builds from its events. *)
Fixpoint replay (k : nat) (events : list member_event) (view : gmap str Member) : gmap str Member :=
  match events with
  | [] => view
  | MemberAdded l m :: events => replay k events (if decide (l = k) then <[NodeID m := m]> view else view)
  | MemberRemoved l m :: events => replay k events (if decide (l = k) then delete (NodeID m) view else view)
  end.

Lemma replay_app k e1 e2 view : replay k (e1 ++ e2) view = replay k e2 (replay k e1 view).
Proof. revert view. induction e1 as [|[l m|l m] e1 IH]; intros view; simpl; [done|apply IH|apply IH]. Qed.

Lemma replay_other k events view : Forall (fun e => event_listener e <> k) events -> replay k events view = view.
Proof. intros H. revert view. induction H as [|[l m|l m] events Hl _ IH]; intros view; simpl in *; [done|by rewrite decide_False..]. Qed.

(** A listener that is in the list hears of the change at least once; hearing of it again
    changes nothing. *)
Lemma replay_added k m ls view : k ∈ ls -> replay k (map (fun l => MemberAdded l m) ls) view = <[NodeID m := m]> view.
Proof.
  intros Hin. assert (G : forall ls view, replay k (map (fun l => MemberAdded l m) ls) view = view \/ replay k (map (fun l => MemberAdded l m) ls) view = <[NodeID m := m]> view).
  { clear. induction ls as [|l ls IH]; intros view; simpl; [by left|]. case_decide; [|apply IH].
    destruct (IH (<[NodeID m := m]> view)) as [E|E]; rewrite E; right; [done|by rewrite insert_insert_eq]. }
  revert view. induction ls as [|l ls IH]; intros view; [by apply not_elem_of_nil in Hin|]. simpl. case_decide as E.
  - destruct (G ls (<[NodeID m := m]> view)) as [-> | ->]; [done|by rewrite insert_insert_eq].
  - apply IH. apply elem_of_cons in Hin as [->|]; done.
Qed.

Lemma replay_removed k m ls view : k ∈ ls -> replay k (map (fun l => MemberRemoved l m) ls) view = delete (NodeID m) view.
Proof.
  intros Hin. assert (G : forall ls view, replay k (map (fun l => MemberRemoved l m) ls) view = view \/ replay k (map (fun l => MemberRemoved l m) ls) view = delete (NodeID m) view).
  { clear. induction ls as [|l ls IH]; intros view; simpl; [by left|]. case_decide; [|apply IH].
    destruct (IH (delete (NodeID m) view)) as [E|E]; rewrite E; right; [done|by rewrite delete_delete_eq]. }
  revert view. induction ls as [|l ls IH]; intros view; [by apply not_elem_of_nil in Hin|]. simpl. case_decide as E.
  - destruct (G ls (delete (NodeID m) view)) as [-> | ->]; [done|by rewrite delete_delete_eq].
  - apply IH. apply elem_of_cons in Hin as [->|]; done.
Qed.

(** Operations between two loads: a load fills the table without telling anybody. *)
Definition tells (o : table_op) : Prop := match o with TLoad _ => False | _ => True end.

Definition unheard (k : nat) (d : DiscoveryDefault) : Prop := Forall (fun e => event_listener e <> k) (dd_events d).

Record follows (k : nat) (view : gmap str Member) (d : DiscoveryDefault) : Prop := {
  fo_keys : keys_ok d;
  fo_add : k ∈ dd_onAdd d;
  fo_remove : k ∈ dd_onRemove d;
  fo_view : replay k (dd_events d) view = dd_members d }.

Lemma exec_table_follows k view o d : follows k view d -> tells o -> follows k view (exec_table o d).
Proof.
  intros [K Ha Hr Hv] Ho. pose proof (exec_table_keys o d K) as K'. destruct o as [m|id|[l|]|[l|]|config]; simpl in *; try done.
  - unfold AddMember in *. destruct (dd_members d !! NodeID m) eqn:E; [done|]. split; try done. simpl. rewrite replay_app, Hv. by apply replay_added.
  - unfold RemoveMember in *. destruct (dd_members d !! id) as [m|] eqn:E; [|done]. split; try done. simpl. rewrite replay_app, Hv.
    rewrite replay_removed by done. by rewrite (K id m E).
  - split; try done. simpl. rewrite elem_of_app. by left.
  - split; try done. simpl. rewrite elem_of_app. by left.
Qed.

(** A listener keeps up with the table: one that is registered for additions and
    removals and starts from the table it finds has, from its events alone, the table's
    exact contents after any further operations, repeated additions of one node, removals
    of absent ones and further listeners included. *)
Theorem listener_view (k : nat) (before ops : list table_op) :
  let d0 := run_table before newDiscovery in
  unheard k d0 -> Forall tells ops ->
  let d := run_table ops (OnRemoveMember (Some k) (OnAddMember (Some k) d0)) in
  replay k (dd_events d) (dd_members d0) = dd_members d.
Proof.
  intros d0 Hu Hops d. assert (K : keys_ok d0) by (by apply run_table_keys).
  assert (F : follows k (dd_members d0) (OnRemoveMember (Some k) (OnAddMember (Some k) d0))).
  { split; simpl; [done|by apply elem_of_app; right; left..|by apply replay_other]. }
  revert F. unfold d. generalize (OnRemoveMember (Some k) (OnAddMember (Some k) d0)). clear d.
  induction Hops as [|o ops Ho _ IH]; intros d1 F; [by apply fo_view in F|]. simpl. by apply IH, exec_table_follows.
Qed.

Lemma listener_view_witness :
  let d := run_table [TAdd member_b; TAdd member_b; TRemove "10001"; TOnAdd (Some 4%nat); TAdd member_c]
    (OnRemoveMember (Some 7%nat) (OnAddMember (Some 7%nat) (run_table [TAdd member_a] newDiscovery))) in
  length (dd_events d) = 4%nat /\ replay 7 (dd_events d) (dd_members (run_table [TAdd member_a] newDiscovery)) = dd_members d.
Proof.
  split; [reflexivity|]. apply (listener_view 7 [TAdd member_a]); [by constructor|by repeat constructor].
Defined.
