(* ===== verification/DiscoveryInv.v ===== *)
(** What holds of the discovery protocol of [Discovery]: while no node leaves, the tables
    come to agree on the members, whatever the order of messages and of starts, and whatever
    requests are given up; and two runs in which a node leaves and a table stays wrong. *)
From S2P Require Import Prelude Discovery.
#[local] Set Warnings "-clear-no-such-hyp".

Section Converge.
Context `{L : MemberLaws}.
Variable mm : Member.
#[local] Abbreviation μ := (NodeID mm).
Hypothesis master_named : μ <> EmptyString.
Hypothesis master_valid : is_Some (mp_marshal mm).

#[local] Abbreviation table d := (dd_members (d_disc d)).

(** The master's table, empty before it starts. *)
Definition master_table (s : dnet) : gmap str Member := from_option (fun d => table d) ∅ (dn_nodes s !! μ).

(** A member of a node that is there: the master's from the profile, or a client's own. *)
Definition genuine (s : dnet) (m : Member) : Prop :=
  if decide (NodeID m = μ) then m = mm /\ is_Some (dn_nodes s !! μ)
  else exists d, dn_nodes s !! NodeID m = Some d /\ d_app d = m.

Definition known (s : dnet) (m : Member) : Prop := genuine s m /\ is_Some (master_table s !! NodeID m).

(** A publication of node [x] on its way to [c]. *)
Definition coming (s : dnet) (c x : str) : Prop := exists b m, PAdd c b ∈ dn_net s /\ mp_unmarshal b = Some m /\ NodeID m = x.

Definition has (s : dnet) (d : node) (c x : str) : Prop := is_Some (table d !! x) \/ coming s c x.

Definition packet_ok (s : dnet) (p : packet) : Prop :=
  match p with
  | PRegister c n b => (n < dn_next s)%nat /\ c <> μ /\ is_Some (dn_nodes s !! μ) /\ exists d, dn_nodes s !! c = Some d /\ b = d_bytes d
  | PReply c n b => (n < dn_next s)%nat /\ c <> μ /\ is_Some (master_table s !! c) /\ exists l, mp_unmarshal_list b = Some l /\
      Forall (known s) l /\ mm ∈ l /\
      forall d, dn_nodes s !! c = Some d -> d_request d = Some n -> forall x, is_Some (master_table s !! x) -> has s d c x \/ x ∈ NodeID <$> l
  | PAdd c b => c <> μ /\ is_Some (dn_nodes s !! c) /\ exists m, mp_unmarshal b = Some m /\ NodeID m <> μ /\ known s m
  | PUnregister _ _ => False
  end.

Record node_ok (s : dnet) (a : str) (d : node) : Prop := {
  nd_id : NodeID (d_app d) = a /\ mp_marshal (d_app d) = Some (d_bytes d) /\ a <> EmptyString;
  nd_table : forall x m, table d !! x = Some m -> NodeID m = x /\ known s m;
  nd_master : a = μ -> table d !! μ = Some mm;
  nd_registered : a <> μ -> is_Some (table d !! μ) -> is_Some (master_table s !! a) /\ forall x, is_Some (master_table s !! x) -> has s d a x;
  nd_request : forall n, d_request d = Some n -> (n < dn_next s)%nat }.

Record disc_inv (s : dnet) : Prop := {
  dv_nodes : forall a d, dn_nodes s !! a = Some d -> node_ok s a d;
  dv_net : forall p, p ∈ dn_net s -> packet_ok s p }.

(** *** How a step may change what the parts rely on *)

(** The nodes and the master's members only grow, and a node keeps its own member. *)
Record grows (s s' : dnet) : Prop := {
  gr_nodes : forall a d, dn_nodes s !! a = Some d -> exists d', dn_nodes s' !! a = Some d' /\ d_app d' = d_app d /\ d_bytes d' = d_bytes d;
  gr_master : forall x, is_Some (master_table s !! x) -> is_Some (master_table s' !! x);
  gr_next : (dn_next s <= dn_next s')%nat }.

Lemma grows_is_Some s s' a : grows s s' -> is_Some (dn_nodes s !! a) -> is_Some (dn_nodes s' !! a).
Proof. intros G [d Hd]. destruct (gr_nodes _ _ G a d Hd) as (d' & Hd' & _). by eexists. Qed.

Lemma genuine_grows s s' m : grows s s' -> genuine s m -> genuine s' m.
Proof.
  intros G. unfold genuine. case_decide as E; [intros [-> H]; split; [done|by eapply grows_is_Some]|].
  intros (d & Hd & Ea). destruct (gr_nodes _ _ G _ d Hd) as (d' & Hd' & Ea' & _). exists d'. split; [done|congruence].
Qed.

Lemma known_grows s s' m : grows s s' -> known s m -> known s' m.
Proof. intros G [H1 H2]. split; [by eapply genuine_grows|by apply (gr_master _ _ G)]. Qed.

(** New members of the master are on their way to every client; a node keeps what it has,
    and waits for no request it did not wait for, but for a new one. *)
Record advance (s s' : dnet) : Prop := {
  ad_grows : grows s s';
  ad_new : forall x, is_Some (master_table s' !! x) -> is_Some (master_table s !! x) \/
    forall c, c <> μ -> is_Some (dn_nodes s' !! c) -> coming s' c x;
  ad_node : forall c d', dn_nodes s' !! c = Some d' ->
    (exists d, dn_nodes s !! c = Some d /\ (forall x, has s d c x -> has s' d' c x) /\
       forall n, d_request d' = Some n -> d_request d = Some n \/ (dn_next s <= n)%nat) \/
    (dn_nodes s !! c = None /\ d_request d' = None) }.

Lemma packet_ok_advance s s' p : advance s s' -> packet_ok s p -> packet_ok s' p.
Proof.
  intros [G New Nd]. pose proof (gr_next _ _ G) as Hn. destruct p as [c n b|c n b|c b|c b]; simpl; [| | |done].
  - intros (H1 & H2 & H3 & d & Hd & ->). split; [lia|]. split; [done|]. split; [by eapply grows_is_Some|].
    destruct (gr_nodes _ _ G c d Hd) as (d' & Hd' & _ & Eb). by exists d'.
  - intros (H1 & H2 & H3 & l & Hl & Hk & Hm & Hc). split; [lia|]. split; [done|]. split; [by apply (gr_master _ _ G)|].
    exists l. split; [done|]. split; [eapply list.Forall_impl; [exact Hk|]; intros m; by apply known_grows|]. split; [done|].
    intros d' Hd' Hr x Hx. destruct (Nd c d' Hd') as [(d & Hd & Hhas & Hreq)|[_ E]]; [|congruence].
    destruct (Hreq n Hr) as [Hr0|]; [|lia]. destruct (New x Hx) as [Hx0|Hcom].
    + destruct (Hc d Hd Hr0 x Hx0) as [|]; [left; by apply Hhas|by right].
    + left. right. apply Hcom; [done|by eexists].
  - intros (H1 & H2 & m & Hm & Hne & Hk). split; [done|]. split; [by eapply grows_is_Some|]. exists m. split; [done|]. split; [done|by eapply known_grows].
Qed.

(** A node of the state before, with more in its table. *)
Definition upd (s s' : dnet) (a : str) (d d' : node) : Prop :=
  d_app d' = d_app d /\ d_bytes d' = d_bytes d /\
  (forall x m, table d !! x = Some m -> table d' !! x = Some m) /\
  (forall x m, table d' !! x = Some m -> table d !! x = Some m \/ (NodeID m = x /\ known s' m)) /\
  (a <> μ -> is_Some (table d' !! μ) -> is_Some (table d !! μ) \/
     (is_Some (master_table s' !! a) /\ forall x, is_Some (master_table s' !! x) -> has s' d' a x)) /\
  (forall n, d_request d' = Some n -> d_request d = Some n \/ (n < dn_next s')%nat).

Lemma upd_refl s s' a d : upd s s' a d d.
Proof. split_and!; try done; by left. Qed.

Lemma node_ok_advance s s' a d d' : advance s s' -> node_ok s a d -> dn_nodes s !! a = Some d -> dn_nodes s' !! a = Some d' ->
  upd s s' a d d' -> node_ok s' a d'.
Proof.
  intros A [H1 H2 H3 H4 H5] Hd Hd' (E1 & E2 & U1 & U2 & U3 & U4). pose proof (ad_grows _ _ A) as G. split.
  - by rewrite E1, E2.
  - intros x m Hm. destruct (U2 x m Hm) as [Hm0|]; [|done]. destruct (H2 x m Hm0) as [? ?]. split; [done|by eapply known_grows].
  - intros Ea. by apply U1, H3.
  - intros Ha Hmu. destruct (U3 Ha Hmu) as [Hmu0|]; [|done]. destruct (H4 Ha Hmu0) as [Hin Hall]. split; [by apply (gr_master _ _ G)|].
    intros x Hx. destruct (ad_new _ _ A x Hx) as [Hx0|Hcom]; [|right; apply Hcom; [done|by eexists]].
    destruct (ad_node _ _ A a d' Hd') as [(d0 & Hd0 & Hhas & _)|[E _]]; [|congruence]. rewrite Hd in Hd0. injection Hd0 as <-. by apply Hhas, Hall.
  - intros n Hr. destruct (U4 n Hr) as [Hr0|]; [|done]. specialize (H5 n Hr0). pose proof (gr_next _ _ G). lia.
Qed.

Lemma inv_advance s s' : disc_inv s -> advance s s' ->
  (forall a d', dn_nodes s' !! a = Some d' -> (exists d, dn_nodes s !! a = Some d /\ upd s s' a d d') \/ node_ok s' a d') ->
  (forall p, p ∈ dn_net s' -> p ∈ dn_net s \/ packet_ok s' p) -> disc_inv s'.
Proof.
  intros [I1 I2] A HN HP. split.
  - intros a d' Hd'. destruct (HN a d' Hd') as [(d & Hd & U)|]; [|done]. apply (node_ok_advance s s' a d); auto.
  - intros p Hp. destruct (HP p Hp) as [Hp0|]; [|done]. apply (packet_ok_advance s); auto.
Qed.

(** A step of one client [c], by which it has more and the others the same. *)
Lemma client_step s s' c d d' : disc_inv s -> c <> μ -> dn_nodes s !! c = Some d ->
  dn_nodes s' = <[c := d']> (dn_nodes s) -> (dn_next s <= dn_next s')%nat ->
  d_app d' = d_app d -> d_bytes d' = d_bytes d ->
  (forall a x, a <> c -> coming s a x -> coming s' a x) -> (forall x, has s d c x -> has s' d' c x) ->
  (forall x m, table d !! x = Some m -> table d' !! x = Some m) ->
  (forall x m, table d' !! x = Some m -> table d !! x = Some m \/ (NodeID m = x /\ known s m)) ->
  (is_Some (table d' !! μ) -> is_Some (table d !! μ) \/ (is_Some (master_table s !! c) /\ forall x, is_Some (master_table s !! x) -> has s' d' c x)) ->
  (forall n, d_request d' = Some n -> d_request d = Some n \/ (dn_next s <= n < dn_next s')%nat) ->
  (forall p, p ∈ dn_net s' -> p ∈ dn_net s \/ (advance s s' -> packet_ok s' p)) -> disc_inv s'.
Proof.
  intros I Hc Hd En Hn E1 E2 Hcom Hhas T1 T2 T3 Hr Hp.
  assert (EM : master_table s' = master_table s) by (unfold master_table; by rewrite En, lookup_insert_ne).
  assert (G : grows s s').
  { split; [|by rewrite EM|done]. intros a e He. rewrite En. destruct (decide (a = c)) as [->|Hne]; [|rewrite lookup_insert_ne by done; eauto].
    rewrite lookup_insert_eq. rewrite Hd in He. injection He as <-. eauto. }
  assert (A : advance s s').
  { split; [done|rewrite EM; by left|]. intros a e' He'. left. rewrite En in He'. destruct (decide (a = c)) as [->|Hne].
    - rewrite lookup_insert_eq in He'. injection He' as <-. exists d. split; [done|]. split; [done|]. intros n Hrn. destruct (Hr n Hrn) as [|[? _]]; auto.
    - rewrite lookup_insert_ne in He' by done. exists e'. split; [done|]. split; [|by left]. intros x [|H]; [by left|right; by apply Hcom]. }
  apply (inv_advance s s' I A).
  - intros a e' He'. left. rewrite En in He'. destruct (decide (a = c)) as [->|Hne].
    + rewrite lookup_insert_eq in He'. injection He' as <-. exists d. split; [done|]. split_and!; try done.
      * intros x m Hm. destruct (T2 x m Hm) as [|[? ?]]; [by left|right]. split; [done|by eapply known_grows].
      * intros _ Hmu. rewrite EM. by apply T3.
      * intros n Hrn. destruct (Hr n Hrn) as [|[_ ?]]; auto.
    + rewrite lookup_insert_ne in He' by done. exists e'. split; [done|apply upd_refl].
  - intros p Hin. destruct (Hp p Hin) as [|Hok]; [by left|right; by apply Hok].
Qed.

(** *** The steps of a client *)

Lemma coming_net s s' c x : (forall b, PAdd c b ∈ dn_net s -> PAdd c b ∈ dn_net s') -> coming s c x -> coming s' c x.
Proof. intros H (b & m & Hb & ?). exists b, m. auto. Qed.

Lemma check_inv s s' c : disc_inv s -> checkMaster mm c s = Some s' -> disc_inv s'.
Proof.
  intros I. unfold checkMaster. destruct (dn_nodes s !! c) as [d|] eqn:Hd; [|done]. cbn [mbind option_bind].
  pose proof (dv_nodes _ I c d Hd) as N. destruct (nd_id _ _ _ N) as (Eid & _ & _). unfold isClient, masterID. rewrite Eid.
  destruct (bool_decide_reflect (c = μ)) as [|Hc]; [done|]. simpl. destruct (d_request d) eqn:Er; [done|]. intros [= <-].
  destruct (GetMember μ (d_disc d)); [done|]. unfold registerToMaster, masterID. destruct (dn_nodes s !! μ) eqn:Emu; [|done].
  apply (client_step s _ c d (with_request (Some (dn_next s)) d)); simpl; try done; try lia; auto.
  - intros a x _. apply coming_net. intros b Hb. simpl. apply elem_of_app. by left.
  - intros x [|H]; [by left|right]. eapply coming_net; [|exact H]. intros b Hb. simpl. apply elem_of_app. by left.
  - intros n0 [= <-]. right. lia.
  - intros p [|Hp%list_elem_of_singleton]%elem_of_app; [by left|right]. subst p. intros A. simpl. split; [lia|]. split; [done|].
    rewrite lookup_insert_ne, lookup_insert_eq, Emu by done. split; [by eexists|]. by eexists.
Qed.

Lemma timeout_inv s c d n : disc_inv s -> dn_nodes s !! c = Some d -> d_request d = Some n -> disc_inv (set_node c (with_request None d) s).
Proof.
  intros I Hd Hr. destruct (decide (c = μ)) as [->|Hc].
  - (* the master waits for nothing; the step would change nothing else *)
    assert (EM : master_table (set_node μ (with_request None d) s) = master_table s) by (unfold master_table; simpl; by rewrite lookup_insert_eq, Hd).
    assert (A : advance s (set_node μ (with_request None d) s)).
    { split; [split; [|by rewrite EM|done]|rewrite EM; by left|].
      - intros a e He. simpl. destruct (decide (a = μ)) as [->|Hne]; [rewrite lookup_insert_eq|rewrite lookup_insert_ne by done; eauto].
        rewrite Hd in He. injection He as <-. by eexists.
      - intros a e' He'. left. simpl in He'. destruct (decide (a = μ)) as [->|Hne]; [rewrite lookup_insert_eq in He'; injection He' as <-|rewrite lookup_insert_ne in He' by done].
        + exists d. split; [done|]. split; [by intros|done].
        + exists e'. split; [done|]. split; [by intros|by left]. }
    apply (inv_advance s); [done|done| |by left]. intros a e' He'. left. simpl in He'.
    destruct (decide (a = μ)) as [->|Hne]; [rewrite lookup_insert_eq in He'; injection He' as <-|rewrite lookup_insert_ne in He' by done].
    + exists d. split; [done|]. split_and!; try done; by left.
    + exists e'. split; [done|apply upd_refl].
  - apply (client_step s _ c d (with_request None d)); simpl; try done; auto.
Qed.

Lemma foldl_AddMember l disc x m : dd_members (foldl (fun disc member => AddMember member disc) disc l) !! x = Some m ->
  dd_members disc !! x = Some m \/ (m ∈ l /\ NodeID m = x).
Proof.
  revert disc. induction l as [|y l IH]; intros disc; simpl; [by left|]. intros [H|[H ?]]%IH.
  - apply AddMember_lookup in H as [|(_ & -> & ->)]; [by left|right]. split; [by left|done].
  - right. split; [by right|done].
Qed.

Lemma foldl_AddMember_old l disc x m : dd_members disc !! x = Some m -> dd_members (foldl (fun disc member => AddMember member disc) disc l) !! x = Some m.
Proof. revert disc. induction l as [|y l IH]; intros disc H; simpl; [done|]. apply IH, AddMember_lookup. by left. Qed.

Lemma foldl_AddMember_new l disc x : x ∈ NodeID <$> l -> is_Some (dd_members (foldl (fun disc member => AddMember member disc) disc l) !! x).
Proof.
  revert disc. induction l as [|y l IH]; intros disc; [by intros ?%not_elem_of_nil|]. rewrite fmap_cons. intros [->|Hin]%elem_of_cons; [|by apply IH]. simpl.
  destruct (AddMember_is_Some y disc (NodeID y)) as [_ [z Hz]]; [by right|]. eexists. by apply foldl_AddMember_old.
Qed.

(** The net without the packet that is delivered. *)
Lemma elem_of_delete {A} i (l : list A) p q : l !! i = Some p -> q ∈ l -> q = p \/ q ∈ delete i l.
Proof. intros Hi Hq. rewrite (delete_Permutation l i p Hi) in Hq. by apply elem_of_cons in Hq. Qed.
Lemma delete_elem_of {A} i (l : list A) q : q ∈ delete i l -> q ∈ l.
Proof.
  revert i. induction l as [|y l IH]; intros i; [by destruct i|]. destruct i as [|i]; simpl; [by right|].
  intros [->|Hq]%elem_of_cons; [by left|right; by eapply IH].
Qed.

Definition without (i : nat) (s : dnet) : dnet := mkDnet (dn_nodes s) (delete i (dn_net s)) (dn_next s).

(** A packet that is no publication may go. *)
Lemma drop_inv s i p : disc_inv s -> dn_net s !! i = Some p -> (match p with PAdd _ _ => False | _ => True end) -> disc_inv (without i s).
Proof.
  intros I Hp Hk. assert (C : forall c x, coming s c x -> coming (without i s) c x).
  { intros c x. apply coming_net. intros b Hb. simpl. destruct (elem_of_delete _ _ _ _ Hp Hb) as [<-|]; [done|done]. }
  assert (A : advance s (without i s)).
  { split; [split; [intros a d Hd; by exists d|done|done]|by left|]. intros c d Hd. left. exists d. split; [done|]. split; [|by left]. intros x [|H]; [by left|right; by apply C]. }
  apply (inv_advance s); [done|done| |].
  - intros a d Hd. left. exists d. split; [done|apply upd_refl].
  - intros q Hq. left. exact (delete_elem_of i _ _ Hq).
Qed.

Lemma reply_inv s i c n b d : disc_inv s -> dn_net s !! i = Some (PReply c n b) -> dn_nodes s !! c = Some d ->
  disc_inv (set_node c (on_reply n b d) (without i s)).
Proof.
  intros I Hp Hd. unfold on_reply. destruct (decide (d_request d = Some n)) as [Er|].
  2: { replace (set_node c d (without i s)) with (without i s); [by eapply drop_inv|]. unfold set_node, without. simpl. by rewrite insert_id. }
  pose proof (dv_net _ I _ (list_elem_of_lookup_2 _ _ _ Hp)) as (Hn & Hc & Hin & l & Hl & Hk & Hm & Hcov). rewrite Hl.
  assert (C : forall a x, coming s a x -> coming (set_node c (with_disc (fun disc => foldl (fun disc member => AddMember member disc) disc l) (with_request None d)) (without i s)) a x).
  { intros a x. apply coming_net. intros b' Hb. simpl. by destruct (elem_of_delete _ _ _ _ Hp Hb). }
  apply (client_step s _ c d (with_disc (fun disc => foldl (fun disc member => AddMember member disc) disc l) (with_request None d))); simpl; try done; auto.
  - intros x [[m Hx]|H]; [left; eexists; by apply foldl_AddMember_old|right; by apply C].
  - intros x m. apply foldl_AddMember_old.
  - intros x m [|[Hx <-]]%foldl_AddMember; [by left|right]. split; [done|]. by apply (proj1 (list.Forall_forall _ _) Hk).
  - intros _. right. split; [done|]. intros x Hx. destruct (Hcov d Hd Er x Hx) as [[[m Hm']|Hcom]|Hl2].
    + left. eexists. by apply foldl_AddMember_old.
    + right. by apply C.
    + left. by apply foldl_AddMember_new.
  - intros p Hq. left. exact (delete_elem_of i _ _ Hq).
Qed.

Lemma add_inv s i c b d : disc_inv s -> dn_net s !! i = Some (PAdd c b) -> dn_nodes s !! c = Some d ->
  disc_inv (set_node c (on_add b d) (without i s)).
Proof.
  intros I Hp Hd. pose proof (dv_net _ I _ (list_elem_of_lookup_2 _ _ _ Hp)) as (Hc & _ & m & Hm & Hne & Hk). unfold on_add. rewrite Hm.
  assert (Hall : forall d', d_app d' = d_app d -> d_bytes d' = d_bytes d -> d_request d' = d_request d ->
    (forall x y, table d !! x = Some y -> table d' !! x = Some y) -> is_Some (table d' !! NodeID m) ->
    (forall x y, table d' !! x = Some y -> table d !! x = Some y \/ (NodeID y = x /\ y = m)) -> disc_inv (set_node c d' (without i s))).
  { intros d' E1 E2 E3 T1 Tm T2. apply (client_step s _ c d d'); simpl; try done; try lia; auto.
    - intros a x Ha. apply coming_net. intros b' Hb. simpl. destruct (elem_of_delete _ _ _ _ Hp Hb) as [[= -> ->]|]; done.
    - intros x [[y Hy]|(b' & m' & Hb & Hm' & Ex)]; [left; eexists; by apply T1|].
      destruct (elem_of_delete _ _ _ _ Hp Hb) as [[= ->]|Hb2]; [left|right; by exists b', m'].
      rewrite Hm in Hm'. injection Hm' as <-. by rewrite <- Ex.
    - intros x y Hy. destruct (T2 x y Hy) as [|[Ey ->]]; [by left|by right].
    - intros [y Hy]. left. destruct (T2 _ _ Hy) as [|[Ey ->]]; [by eexists|done].
    - intros n. rewrite E3. by left.
    - intros p Hq. left. exact (delete_elem_of i _ _ Hq). }
  destruct (GetMember (NodeID m) (d_disc d)) as [y|] eqn:Eg.
  - apply Hall; try done; [|by left]. unfold GetMember in Eg. case_decide; [done|by eexists].
  - apply Hall; simpl; try done.
    + intros x y Hy. apply AddMember_lookup. by left.
    + apply AddMember_is_Some. by right.
    + intros x y [|(_ & -> & ->)]%AddMember_lookup; [by left|by right].
Qed.

(** *** The steps of the master *)

Lemma genuine_valid s m : disc_inv s -> genuine s m -> is_Some (mp_marshal m).
Proof.
  intros I. unfold genuine. case_decide; [by intros [-> _]|]. intros (d & Hd & <-).
  destruct (nd_id _ _ _ (dv_nodes _ I _ d Hd)) as (_ & -> & _). by eexists.
Qed.

(** What the master does with a client's registration. *)
Lemma on_register_ok s order subs c n d dM : disc_inv s -> dn_nodes s !! c = Some d -> c <> μ -> dn_nodes s !! μ = Some dM ->
  range_order mm order (PRegister c n (d_bytes d)) s ->
  exists rsp l, on_register order subs c n (d_bytes d) dM =
    (with_disc (AddMember (d_app d)) dM, PReply c n rsp :: map (fun dst => PAdd dst (d_bytes d)) subs) /\
    mp_unmarshal_list rsp = Some l /\
    forall m, m ∈ l <-> dd_members (AddMember (d_app d) (d_disc dM)) !! NodeID m = Some m /\ NodeID m <> c.
Proof.
  intros I Hd Hc HM Ho. destruct (nd_id _ _ _ (dv_nodes _ I c d Hd)) as (Eid & Eb & _). pose proof (mp_member _ _ Eb) as Hu.
  unfold range_order, masterID in Ho. rewrite HM, Hu in Ho. destruct Ho as [Hnd Hdom]. unfold on_register. rewrite Hu.
  set (disc := AddMember (d_app d) (d_disc dM)) in *. change (d_disc (with_disc (AddMember (d_app d)) dM)) with disc.
  assert (K : forall x m, dd_members disc !! x = Some m -> NodeID m = x /\ genuine s m).
  { intros x m [Hm|(_ & -> & ->)]%AddMember_lookup.
    - destruct (nd_table _ _ _ (dv_nodes _ I _ dM HM) x m Hm) as [? [? _]]. done.
    - split; [done|]. unfold genuine. rewrite decide_False by congruence. rewrite Eid. by exists d. }
  set (l := omap _ order). assert (Hl : forall m, m ∈ l <-> dd_members disc !! NodeID m = Some m /\ NodeID m <> c).
  { intros m. unfold l. rewrite list_elem_of_omap. split.
    - intros (key & Hkey & E). destruct (dd_members disc !! key) as [x|] eqn:Ex; [|done]. simpl in E. case_decide as Hne; [|done]. injection E as ->.
      destruct (K key m Ex) as [Ek _]. rewrite Ek. split; [done|congruence].
    - intros [Hm Hne]. exists (NodeID m). split.
      + apply (elem_of_list_to_set (C := gset str)). rewrite Hdom. by apply elem_of_dom.
      + rewrite Hm. simpl. by rewrite decide_True by congruence. }
  destruct (mp_list l) as (rsp & -> & Hr).
  { apply list.Forall_forall. intros m Hm. apply Hl in Hm as [Hm _]. by eapply genuine_valid, K. }
  exists rsp, l. done.
Qed.

Lemma elem_of_clients s x : x ∈ clients mm s <-> is_Some (dn_nodes s !! x) /\ x <> μ.
Proof.
  unfold clients, everybody, masterID. rewrite list_elem_of_filter, list_elem_of_fmap. split.
  - intros [Hne ([k d] & -> & Hin)]. apply elem_of_map_to_list in Hin. split; [by eexists|done].
  - intros [[d Hd] Hne]. split; [done|]. exists (x, d). split; [done|by apply elem_of_map_to_list].
Qed.

(** The state after a registration. *)
Definition registered (i n : nat) (c : str) (d dM : node) (rsp : bytes) (s : dnet) : dnet :=
  mkDnet (<[μ := with_disc (AddMember (d_app d)) dM]> (dn_nodes s))
    (delete i (dn_net s) ++ PReply c n rsp :: map (fun dst => PAdd dst (d_bytes d)) (clients mm s)) (dn_next s).

Section Register.
Variables (s : dnet) (i n : nat) (c : str) (d dM : node) (rsp : bytes).
Hypothesis (I : disc_inv s) (Hd : dn_nodes s !! c = Some d) (Hc : c <> μ) (HM : dn_nodes s !! μ = Some dM)
  (Hp : dn_net s !! i = Some (PRegister c n (d_bytes d))).
Let s' := registered i n c d dM rsp s.

Lemma registered_id : NodeID (d_app d) = c.
Proof. apply (nd_id _ _ _ (dv_nodes _ I c d Hd)). Qed.

Lemma registered_table x : is_Some (master_table s' !! x) <-> is_Some (master_table s !! x) \/ x = c.
Proof.
  unfold master_table. simpl. rewrite lookup_insert_eq, HM. simpl. by rewrite AddMember_is_Some, registered_id.
Qed.

Lemma registered_coming a x : coming s a x -> coming s' a x.
Proof. apply coming_net. intros b' Hb. apply elem_of_app. left. by destruct (elem_of_delete _ _ _ _ Hp Hb). Qed.

Lemma registered_published a : a <> μ -> is_Some (dn_nodes s' !! a) -> coming s' a c.
Proof.
  intros Ha Hin. exists (d_bytes d), (d_app d). split; [|split; [|exact registered_id]].
  - apply elem_of_app. right. right. apply list_elem_of_fmap. exists a. split; [done|]. apply elem_of_clients. split; [|done].
    simpl in Hin. by rewrite lookup_insert_ne in Hin.
  - apply mp_member, (nd_id _ _ _ (dv_nodes _ I c d Hd)).
Qed.

Lemma registered_nodes a e' : dn_nodes s' !! a = Some e' ->
  (a = μ /\ e' = with_disc (AddMember (d_app d)) dM) \/ (a <> μ /\ dn_nodes s !! a = Some e').
Proof. simpl. rewrite lookup_insert_Some. intros [[<- <-]|[? ?]]; auto. Qed.

Lemma registered_advance : advance s s'.
Proof.
  split; [split|..].
  - intros a e He. simpl. destruct (decide (a = μ)) as [->|]; [rewrite lookup_insert_eq|rewrite lookup_insert_ne by done; eauto].
    rewrite HM in He. injection He as <-. by eexists.
  - intros x Hx. apply registered_table. by left.
  - done.
  - intros x. rewrite registered_table. intros [?| ->]; [by left|right; apply registered_published].
  - intros a e' [[-> ->]|[Hne He]]%registered_nodes; left.
    + exists dM. split; [done|]. split; [|by left]. intros x [[y Hx]|Hx]; [left|right; by apply registered_coming].
      apply AddMember_is_Some. left. by eexists.
    + exists e'. split; [done|]. split; [|by left]. intros x [|Hx]; [by left|right; by apply registered_coming].
Qed.

Lemma registered_known : known s' (d_app d).
Proof.
  split; [|apply registered_table; right; exact registered_id]. unfold genuine. rewrite registered_id, decide_False by done. exists d.
  split; [|done]. simpl. by rewrite lookup_insert_ne.
Qed.

Lemma registered_member x y : dd_members (AddMember (d_app d) (d_disc dM)) !! x = Some y -> NodeID y = x /\ known s' y.
Proof.
  intros [Hy|(_ & -> & ->)]%AddMember_lookup; [|split; [done|exact registered_known]].
  destruct (nd_table _ _ _ (dv_nodes _ I _ dM HM) _ y Hy) as [? Hk]. split; [done|]. apply (known_grows s), Hk. apply registered_advance.
Qed.
End Register.

Lemma register_inv s i order c n b : disc_inv s -> dn_net s !! i = Some (PRegister c n b) ->
  range_order mm order (PRegister c n b) s -> disc_inv (deliver mm order (PRegister c n b) (without i s)).
Proof.
  intros I Hp Ho. pose proof (dv_net _ I _ (list_elem_of_lookup_2 _ _ _ Hp)) as (Hn & Hc & [dM HM] & d & Hd & ->).
  destruct (on_register_ok s order (clients mm s) c n d dM I Hd Hc HM Ho) as (rsp & l & E & Hl & Hmem).
  unfold deliver, masterID. change (dn_nodes (without i s)) with (dn_nodes s). rewrite HM.
  change (clients mm (without i s)) with (clients mm s). rewrite E. clear E.
  change (mkDnet _ _ _) with (registered i n c d dM rsp s).
  pose proof (registered_table s i n c d dM rsp I Hd HM) as HT. pose proof (registered_advance s i n c d dM rsp I Hd HM Hp) as A.
  pose proof (registered_member s i n c d dM rsp I Hd Hc HM Hp) as HK. apply (inv_advance s); [done|done| |].
  - intros a e' He'. left. apply registered_nodes in He' as [[-> ->]|[Hne He]]; [|exists e'; split; [done|apply upd_refl]].
    exists dM. split; [done|]. split_and!; try done; [| |by left].
    + intros x y Hy. apply AddMember_lookup. by left.
    + intros x y Hy. right. by apply HK.
  - intros p [Hq|Hq]%elem_of_app; [left; exact (delete_elem_of i _ _ Hq)|right]. apply elem_of_cons in Hq as [->|Hq].
    + split; [done|]. split; [done|]. split; [apply HT; by right|]. exists l. split; [done|]. split; [|split].
      * apply list.Forall_forall. intros y [Hy _]%Hmem. by apply (HK _ y Hy).
      * apply Hmem. split; [|done]. apply AddMember_lookup. left. by apply (nd_master _ _ _ (dv_nodes _ I _ dM HM)).
      * intros e He _ x Hx. destruct (decide (x = c)) as [->|Hxc]; [left; right; apply registered_published; try done; by eexists|right].
        unfold master_table in Hx. simpl in Hx. rewrite lookup_insert_eq in Hx. destruct Hx as [y Hy]. apply list_elem_of_fmap.
        exists y. destruct (HK x y Hy) as [Ey _]. split; [done|]. apply Hmem. by rewrite Ey.
    + apply list_elem_of_fmap in Hq as (a & -> & Ha). apply elem_of_clients in Ha as [Ha Hne]. split; [done|].
      split; [simpl; by rewrite lookup_insert_ne|]. exists (d_app d). split; [apply mp_member, (nd_id _ _ _ (dv_nodes _ I c d Hd))|]. rewrite (registered_id s c d I Hd).
      split; [done|]. by apply registered_known.
Qed.

(** *** Starting *)

Lemma no_master_quiet s : disc_inv s -> dn_nodes s !! μ = None -> dn_net s = [] /\ forall a d x, dn_nodes s !! a = Some d -> table d !! x = None.
Proof.
  intros I Hmu. assert (E : forall x, ~ is_Some (master_table s !! x)) by (intros x; unfold master_table; rewrite Hmu; simpl; rewrite lookup_empty; by intros [? ?]).
  split.
  - destruct (dn_net s) as [|p net] eqn:En; [done|]. exfalso. pose proof (dv_net _ I p) as Hp. rewrite En in Hp. specialize (Hp ltac:(by left)).
    destruct p as [c n b|c n b|c b|c b]; simpl in Hp.
    + destruct Hp as (_ & _ & [? ?] & _). congruence.
    + destruct Hp as (_ & _ & H & _). by apply E in H.
    + destruct Hp as (_ & _ & m & _ & _ & _ & H). by apply E in H.
    + done.
  - intros a d x Hd. destruct (table d !! x) as [m|] eqn:Em; [|done]. exfalso.
    destruct (nd_table _ _ _ (dv_nodes _ I a d Hd) x m Em) as [_ [_ H]]. by apply E in H.
Qed.

Lemma Load_nats_ok app d : Load_nats mm app = Some d ->
  NodeID (d_app d) = NodeID app /\ mp_marshal (d_app d) = Some (d_bytes d) /\ d_request d = None /\
  table d = if decide (NodeID app = μ) then {[μ := mm]} else ∅.
Proof.
  unfold Load_nats, loadMember. destruct (mp_marshal (mkMember (NodeID app) (NodeType app) (Address app) ∅)) as [b|] eqn:Eb; [|done]. cbn [mbind option_bind fmap option_fmap option_map]. intros [= <-]. unfold serverInit, isMaster, masterID. simpl.
  destruct (bool_decide_reflect (NodeID app = μ)) as [E|E]; simpl; [rewrite decide_True by done|rewrite decide_False by done; done].
  split; [done|]. split; [done|]. split; [done|]. unfold AddMember. simpl. by rewrite lookup_empty.
Qed.

Lemma start_inv s app d : disc_inv s -> dn_nodes s !! NodeID app = None -> NodeID app <> EmptyString -> Load_nats mm app = Some d ->
  disc_inv (set_node (NodeID app) d s).
Proof.
  intros I Hno Hne (E1 & E2 & E3 & E4)%Load_nats_ok. set (a := NodeID app) in *. destruct (decide (a = μ)) as [Ea|Ha].
  - rewrite Ea in *. destruct (no_master_quiet s I Hno) as [Hnet Htab]. set (s' := set_node μ d s).
    assert (EM : master_table s' = {[μ := mm]}) by (unfold master_table; simpl; rewrite lookup_insert_eq; by simpl).
    assert (Kmm : known s' mm).
    { split; [|rewrite EM, lookup_singleton_eq; by eexists]. unfold genuine. rewrite decide_True by done. split; [done|]. simpl. rewrite lookup_insert_eq. by eexists. }
    split; [|intros p Hp; simpl in Hp; rewrite Hnet in Hp; by apply not_elem_of_nil in Hp].
    intros x e He. simpl in He. apply lookup_insert_Some in He as [[<- <-]|[Hx He]].
    + split; [done| | |done|by rewrite E3].
      * intros x m. rewrite E4, lookup_singleton_Some. by intros [<- <-].
      * intros _. by rewrite E4, lookup_singleton_eq.
    + destruct (dv_nodes _ I x e He) as [N1 N2 N3 N4 N5]. pose proof (fun y => Htab x e y He) as Hemp. split; try done.
      * intros y m. by rewrite Hemp.
      * rewrite Hemp. by intros _ [? ?].
  - set (s' := set_node a d s). assert (EM : master_table s' = master_table s) by (unfold master_table; simpl; by rewrite lookup_insert_ne).
    assert (A : advance s s').
    { split; [split; [|by rewrite EM|done]|rewrite EM; by left|].
      - intros x e He. exists e. split; [|done]. simpl. rewrite lookup_insert_ne; [done|congruence].
      - intros x e' He'. simpl in He'. apply lookup_insert_Some in He' as [[<- <-]|[Hx He]]; [by right|left].
        exists e'. split; [done|]. split; [|by left]. by intros y [|]; [left|right]. }
    apply (inv_advance s); [done|done| |by left]. intros x e He. simpl in He. apply lookup_insert_Some in He as [[<- <-]|[Hx He]].
    + right. split; [done|by intros y m; rewrite E4, lookup_empty|done|rewrite E4, lookup_empty; by intros _ [? ?]|by rewrite E3].
    + left. exists e. split; [done|apply upd_refl].
Qed.

(** *** Runs in which nobody leaves *)

Definition stays (a : disc_action) : Prop :=
  match a with DStop _ | DCrash _ => False | DStart app => NodeID app <> EmptyString | _ => True end.

Inductive stay_reach : dnet -> Prop :=
| stay_empty : stay_reach empty_net
| stay_step s a s' : stay_reach s -> stays a -> exec_disc mm a s = Some s' -> stay_reach s'.

Lemma deliver_inv s i order p : disc_inv s -> dn_net s !! i = Some p -> range_order mm order p s -> disc_inv (deliver mm order p (without i s)).
Proof.
  intros I Hp Ho. destruct p as [c n b|c n b|c b|c b]; [by apply register_inv| | |].
  - simpl. destruct (dn_nodes s !! c) as [d|] eqn:Hd; [by apply reply_inv|by eapply drop_inv].
  - simpl. destruct (dn_nodes s !! c) as [d|] eqn:Hd; [by apply add_inv|]. exfalso.
    destruct (dv_net _ I _ (list_elem_of_lookup_2 _ _ _ Hp)) as (_ & [? ?] & _). congruence.
  - by destruct (dv_net _ I _ (list_elem_of_lookup_2 _ _ _ Hp)).
Qed.
Lemma stay_step_inv s a s' : disc_inv s -> stays a -> exec_disc mm a s = Some s' -> disc_inv s'.
Proof.
  intros I Ha. destruct a as [app|c|c|i order|x|x]; simpl in *; try done.
  - destruct (dn_nodes s !! NodeID app) eqn:Hno; [done|]. destruct (Load_nats mm app) as [d|] eqn:El; [|done]. intros [= <-]. by apply start_inv.
  - by apply check_inv.
  - destruct (dn_nodes s !! c) as [d|] eqn:Hd; [|done]. simpl. destruct (d_request d) as [n|] eqn:Er; [|done]. intros [= <-]. by apply (timeout_inv s c d n).
  - destruct (dn_net s !! i) as [p|] eqn:Hp; [|done]. simpl. case_decide as Ho; [|done]. intros [= <-]. by apply deliver_inv.
Qed.

Lemma stay_reach_inv s : stay_reach s -> disc_inv s.
Proof.
  induction 1 as [|s a s' _ I Ha E]; [|by eapply stay_step_inv]. split; [by intros a d|by intros p ?%not_elem_of_nil].
Qed.

(** Nothing is under way and every client knows the master. *)
Definition settled (s : dnet) : Prop :=
  dn_net s = [] /\ is_Some (dn_nodes s !! μ) /\ forall c d, dn_nodes s !! c = Some d -> c <> μ -> is_Some (table d !! μ).

(** While no node leaves, discovery agrees: in every run of starts, checks, requests given
    up and deliveries in any order, once nothing is under way and the clients know the
    master, every node's table lists exactly the nodes that are there, each with the member
    it registered, the master with the one of the profile. *)
Theorem discovery_agrees (s : dnet) : stay_reach s -> settled s ->
  forall a d, dn_nodes s !! a = Some d ->
    dom (table d) = dom (dn_nodes s) /\
    forall x m, table d !! x = Some m -> if decide (x = μ) then m = mm else exists e, dn_nodes s !! x = Some e /\ m = d_app e.
Proof.
  intros I%stay_reach_inv (Hnet & [dM HM] & Hall) a d Hd. pose proof (dv_nodes _ I a d Hd) as N.
  assert (EM : forall e, dn_nodes s !! μ = Some e -> master_table s = table e) by (intros e He; unfold master_table; by rewrite He).
  assert (Hcl : forall c e, dn_nodes s !! c = Some e -> is_Some (master_table s !! c)).
  { intros c e He. destruct (decide (c = μ)) as [->|Hc].
    - rewrite (EM e He), (nd_master _ _ _ (dv_nodes _ I _ e He)) by done. by eexists.
    - apply (nd_registered _ _ _ (dv_nodes _ I c e He)); [done|by apply (Hall c e)]. }
  split.
  - apply set_eq. intros x. rewrite !elem_of_dom. split.
    + intros [m Hm]. destruct (nd_table _ _ _ N x m Hm) as [<- [Hg _]]. unfold genuine in Hg.
      case_decide as E; [destruct Hg as [_ ?]; by rewrite E|destruct Hg as (e & -> & _); by eexists].
    + intros [e He]. pose proof (Hcl x e He) as Hx. destruct (decide (a = μ)) as [->|Ha]; [by rewrite <- (EM d Hd)|].
      destruct (nd_registered _ _ _ N Ha (Hall a d Hd Ha)) as [_ Hh]. destruct (Hh x Hx) as [|(b & m & Hb & _)]; [done|].
      rewrite Hnet in Hb. by apply not_elem_of_nil in Hb.
  - intros x m Hm. destruct (nd_table _ _ _ N x m Hm) as [<- [Hg _]]. unfold genuine in Hg. case_decide; [by destruct Hg|].
    destruct Hg as (e & He & <-). by exists e.
Qed.

(** *** The protocol gets there *)

(** The steps the nodes and the network take by themselves. *)
Definition own_step (a : disc_action) : Prop := match a with DCheck _ | DTimeout _ | DDeliver _ _ => True | _ => False end.

(** No node comes or goes, and no member is lost. *)
Definition keeps (s s' : dnet) : Prop :=
  dom (dn_nodes s') = dom (dn_nodes s) /\
  forall a d, dn_nodes s !! a = Some d -> exists d', dn_nodes s' !! a = Some d' /\ forall x, is_Some (table d !! x) -> is_Some (table d' !! x).

Lemma keeps_refl s : keeps s s.
Proof. split; [done|]. intros a d Hd. by exists d. Qed.

Lemma keeps_trans s1 s2 s3 : keeps s1 s2 -> keeps s2 s3 -> keeps s1 s3.
Proof.
  intros [D1 K1] [D2 K2]. split; [congruence|]. intros a d Hd. destruct (K1 a d Hd) as (d2 & Hd2 & H2). destruct (K2 a d2 Hd2) as (d3 & Hd3 & H3).
  exists d3. auto.
Qed.

Lemma keeps_set s s' c d d' : dn_nodes s !! c = Some d -> dn_nodes s' = <[c := d']> (dn_nodes s) ->
  (forall x, is_Some (table d !! x) -> is_Some (table d' !! x)) -> keeps s s'.
Proof.
  intros Hd E Ht. split.
  - rewrite E, dom_insert_lookup_L; [done|by eexists].
  - intros a e He. rewrite E. destruct (decide (a = c)) as [->|Hne]; [rewrite lookup_insert_eq|rewrite lookup_insert_ne by done; eauto].
    rewrite Hd in He. injection He as <-. eauto.
Qed.

Lemma run_disc_cons a l s : run_disc mm (a :: l) s = s1 ← exec_disc mm a s; run_disc mm l s1.
Proof. unfold run_disc. simpl. destruct (exec_disc mm a s); [done|]. simpl. induction l as [|b l IH]; [done|exact IH]. Qed.

Lemma run_disc_app l1 l2 s : run_disc mm (l1 ++ l2) s = s1 ← run_disc mm l1 s; run_disc mm l2 s1.
Proof.
  revert s. induction l1 as [|a l1 IH]; intros s; [done|]. simpl app. rewrite !run_disc_cons. destruct (exec_disc mm a s); [apply IH|done].
Qed.

Definition gets (s s' : dnet) : Prop := exists l, Forall own_step l /\ run_disc mm l s = Some s'.

Lemma gets_refl s : gets s s.
Proof. exists []. by split; [constructor|]. Qed.

Lemma gets_step s a s1 s2 : own_step a -> exec_disc mm a s = Some s1 -> gets s1 s2 -> gets s s2.
Proof. intros Ha E (l & Hl & Hr). exists (a :: l). split; [by constructor|]. by rewrite run_disc_cons, E. Qed.

Lemma gets_trans s1 s2 s3 : gets s1 s2 -> gets s2 s3 -> gets s1 s3.
Proof.
  intros (l1 & H1 & R1) (l2 & H2 & R2). exists (l1 ++ l2). split; [by apply Forall_app|]. rewrite run_disc_app, R1. done.
Qed.

Lemma own_step_stays a : own_step a -> stays a.
Proof. by destruct a. Qed.

Lemma gets_inv s s' : disc_inv s -> gets s s' -> disc_inv s'.
Proof.
  intros I (l & Hl & Hr). revert s I Hr. induction Hl as [|a l Ha _ IH]; intros s I; [by intros [= <-]|].
  rewrite run_disc_cons. destruct (exec_disc mm a s) as [s1|] eqn:E; cbn [mbind option_bind]; [|done]. apply IH. eapply stay_step_inv; [done|by apply own_step_stays|done].
Qed.

(** A delivery makes the messages fewer, counting a registration for all it gives rise to. *)
Definition weight (k : nat) (p : packet) : nat := match p with PRegister _ _ _ => 2 + k | _ => 1 end.
Definition load (s : dnet) : nat := sum_list_with (weight (size (dn_nodes s))) (dn_net s).

Lemma clients_length s : (length (clients mm s) <= size (dn_nodes s))%nat.
Proof.
  unfold clients, everybody. etransitivity; [apply length_filter|]. rewrite length_fmap. by rewrite length_map_to_list.
Qed.

Lemma set_same c d s : dn_nodes s !! c = Some d -> set_node c d s = s.
Proof. intros Hd. destruct s. unfold set_node. simpl in *. by rewrite insert_id. Qed.

Lemma on_add_table b d x : is_Some (table d !! x) -> is_Some (table (on_add b d) !! x).
Proof. intros [m Hm]. unfold on_add. repeat case_match; try by eexists. simpl. apply AddMember_is_Some. left. by eexists. Qed.

Lemma on_reply_table n b d x : is_Some (table d !! x) -> is_Some (table (on_reply n b d) !! x).
Proof.
  intros [m Hm]. unfold on_reply. case_decide; [|by eexists]. destruct (mp_unmarshal_list b); [|by eexists].
  simpl. eexists. by apply foldl_AddMember_old.
Qed.

(** A delivery that changes one node's table. *)
Lemma deliver_node s p net c d d' : dn_net s = p :: net -> dn_nodes s !! c = Some d ->
  (forall x, is_Some (table d !! x) -> is_Some (table d' !! x)) ->
  keeps s (set_node c d' (without 0 s)) /\ (load (set_node c d' (without 0 s)) < load s)%nat.
Proof.
  intros En Hd Ht. split; [by apply (keeps_set s _ c d d')|]. unfold load. simpl. rewrite En, map_size_insert, Hd. simpl. destruct p; simpl; lia.
Qed.

Lemma deliver_register s c n b net : disc_inv s -> dn_net s = PRegister c n b :: net ->
  exists order rsp dM', exec_disc mm (DDeliver 0 order) s = Some (mkDnet (<[μ := dM']> (dn_nodes s))
      (net ++ PReply c n rsp :: map (fun dst => PAdd dst b) (clients mm s)) (dn_next s)) /\
    exists dM, dn_nodes s !! μ = Some dM /\ forall x, is_Some (table dM !! x) -> is_Some (table dM' !! x).
Proof.
  intros I En. assert (Hp : dn_net s !! 0%nat = Some (PRegister c n b)) by (by rewrite En).
  pose proof (dv_net _ I _ (list_elem_of_lookup_2 _ _ _ Hp)) as (_ & Hc & [dM HM] & d & Hd & ->). destruct (nd_id _ _ _ (dv_nodes _ I c d Hd)) as (_ & Eb & _).
  set (disc := AddMember (d_app d) (d_disc dM)). set (order := (map_to_list (dd_members disc)).*1).
  assert (Ho : range_order mm order (PRegister c n (d_bytes d)) s).
  { unfold range_order, masterID. rewrite HM, (mp_member _ _ Eb). split; [apply NoDup_fst_map_to_list|].
    apply set_eq. intros x. rewrite elem_of_list_to_set, elem_of_dom. unfold order. rewrite list_elem_of_fmap. split.
    - intros ([k y] & -> & Hy). apply elem_of_map_to_list in Hy. by eexists.
    - intros [y Hy]. exists (x, y). split; [done|by apply elem_of_map_to_list]. }
  destruct (on_register_ok s order (clients mm s) c n d dM I Hd Hc HM Ho) as (rsp & l & E & _).
  exists order, rsp, (with_disc (AddMember (d_app d)) dM). split.
  - simpl. rewrite Hp. simpl. rewrite decide_True by done. unfold masterID. rewrite HM. change (clients mm (mkDnet _ _ _)) with (clients mm s). by rewrite E, En.
  - exists dM. split; [done|]. intros x Hx. simpl. apply AddMember_is_Some. by left.
Qed.

Lemma sum_weight_adds k b l : sum_list_with (weight k) (map (fun dst => PAdd dst b) l) = length l.
Proof. induction l as [|y l IH]; [done|]. simpl. by rewrite IH. Qed.

(** Delivering the first message loses nothing and leaves less to deliver. *)
Lemma deliver_first s p net : disc_inv s -> dn_net s = p :: net ->
  exists order s', exec_disc mm (DDeliver 0 order) s = Some s' /\ keeps s s' /\ (load s' < load s)%nat.
Proof.
  intros I En. assert (Hp : dn_net s !! 0%nat = Some p) by (by rewrite En). pose proof (dv_net _ I _ (list_elem_of_lookup_2 _ _ _ Hp)) as Hok.
  destruct p as [c n b|c n b|c b|c b]; [| | |done].
  { destruct (deliver_register s c n b net I En) as (order & rsp & dM' & E & dM & HM & Ht). exists order. eexists. split; [exact E|].
    split; [by apply (keeps_set s _ μ dM dM')|]. unfold load. simpl. rewrite En, map_size_insert, HM. simpl.
    rewrite sum_list_with_app. simpl. rewrite sum_weight_adds. pose proof (clients_length s). lia. }
  all: exists []; eexists; split; [simpl; rewrite Hp; reflexivity|]; simpl.
  - destruct (dn_nodes s !! c) as [d|] eqn:Hd.
    + apply (deliver_node s (PReply c n b) net c d); try done. intros x. apply on_reply_table.
    + split; [split; [done|intros a e He; by exists e]|]. unfold load. simpl. rewrite En. simpl. lia.
  - destruct Hok as (_ & [d Hd] & _). rewrite Hd. apply (deliver_node s (PAdd c b) net c d); try done. intros x. apply on_add_table.
Qed.

Lemma drain s : disc_inv s -> exists s', gets s s' /\ keeps s s' /\ dn_net s' = [].
Proof.
  remember (load s) as k eqn:Ek. revert s Ek. induction k as [k IH] using lt_wf_ind. intros s -> I.
  destruct (dn_net s) as [|p net] eqn:En; [exists s; split; [apply gets_refl|split; [apply keeps_refl|done]]|].
  destruct (deliver_first s p net I En) as (order & s1 & E & K & Hlt).
  destruct (IH _ Hlt s1 eq_refl) as (s2 & G & K2 & En2); [by apply (stay_step_inv s (DDeliver 0 order))|].
  exists s2. split; [by apply (gets_step s (DDeliver 0 order) s1)|]. split; [by eapply keeps_trans|done].
Qed.

(** A client without the master, in three steps when nothing is under way. *)
Lemma client_registers s c d : disc_inv s -> dn_net s = [] -> is_Some (dn_nodes s !! μ) -> dn_nodes s !! c = Some d -> c <> μ ->
  table d !! μ = None -> d_request d = None ->
  exists s', gets s s' /\ keeps s s' /\ exists d', dn_nodes s' !! c = Some d' /\ is_Some (table d' !! μ).
Proof.
  intros I En [dM HM] Hd Hc Hno Hr. destruct (nd_id _ _ _ (dv_nodes _ I c d Hd)) as (Eid & _ & _).
  set (d1 := with_request (Some (dn_next s)) d). set (s1 := mkDnet (<[c := d1]> (dn_nodes s)) [PRegister c (dn_next s) (d_bytes d)] (S (dn_next s))).
  assert (E1 : exec_disc mm (DCheck c) s = Some s1).
  { simpl. unfold checkMaster. rewrite Hd. cbn [mbind option_bind]. unfold isClient, masterID. rewrite Eid, bool_decide_eq_false_2 by done. cbn [negb].
    rewrite Hr. unfold GetMember. rewrite decide_False, Hno by done. unfold registerToMaster, masterID. rewrite HM, En. done. }
  assert (I1 : disc_inv s1) by (by apply (stay_step_inv s (DCheck c))).
  destruct (deliver_register s1 c (dn_next s) (d_bytes d) [] I1 eq_refl) as (order & rsp & dM' & E2 & dM1 & HM1 & Ht).
  set (s2 := mkDnet _ _ _) in E2. assert (I2 : disc_inv s2) by (by apply (stay_step_inv s1 (DDeliver 0 order))).
  assert (Hd2 : dn_nodes s2 !! c = Some d1) by (simpl; rewrite lookup_insert_ne by done; by rewrite lookup_insert_eq).
  assert (Hok : packet_ok s2 (PReply c (dn_next s) rsp)) by (apply I2; by left). destruct Hok as (_ & _ & _ & l & Hl & _ & Hin & _).
  exists (set_node c (on_reply (dn_next s) rsp d1) (without 0 s2)). split; [|split].
  - eapply (gets_step _ (DCheck c)); [done|exact E1|]. eapply (gets_step _ (DDeliver 0 order)); [done|exact E2|].
    eapply (gets_step _ (DDeliver 0 [])); [done| |apply gets_refl]. cbn [exec_disc]. change (dn_net s2 !! 0%nat) with (Some (PReply c (dn_next s) rsp)).
    cbn [mbind option_bind]. rewrite decide_True by done. unfold deliver. change (dn_nodes (mkDnet (dn_nodes s2) _ _)) with (dn_nodes s2). by rewrite Hd2.
  - eapply keeps_trans; [by apply (keeps_set s s1 c d d1)|]. eapply keeps_trans; [by apply (keeps_set s1 s2 μ dM1 dM')|].
    apply (keeps_set s2 _ c d1 (on_reply (dn_next s) rsp d1)); [done|done|]. intros x. apply on_reply_table.
  - eexists. split; [simpl; by rewrite lookup_insert_eq|]. unfold on_reply. rewrite decide_True by done. rewrite Hl. apply foldl_AddMember_new.
    apply list_elem_of_fmap. by exists mm.
Qed.

Lemma abandon s c d : disc_inv s -> dn_nodes s !! c = Some d -> exists s', gets s s' /\ keeps s s' /\ dn_net s' = dn_net s /\
  exists d', dn_nodes s' !! c = Some d' /\ table d' = table d /\ d_request d' = None.
Proof.
  intros I Hd. destruct (d_request d) as [n|] eqn:Er.
  2: { exists s. split; [apply gets_refl|]. split; [apply keeps_refl|]. split; [done|]. by exists d. }
  exists (set_node c (with_request None d) s). split.
  - eapply (gets_step _ (DTimeout c)); [done| |apply gets_refl]. simpl. rewrite Hd. simpl. by rewrite Er.
  - split; [by apply (keeps_set s _ c d (with_request None d))|]. split; [done|]. exists (with_request None d). simpl. by rewrite lookup_insert_eq.
Qed.

(** All clients but those of a list know the master. *)
Lemma settle_all (todo : list str) s : disc_inv s -> is_Some (dn_nodes s !! μ) ->
  (forall c d, dn_nodes s !! c = Some d -> c <> μ -> c ∈ todo \/ is_Some (table d !! μ)) ->
  exists s', gets s s' /\ keeps s s' /\ settled s'.
Proof.
  assert (KM : forall s s', keeps s s' -> is_Some (dn_nodes s !! μ) -> is_Some (dn_nodes s' !! μ)).
  { intros t t' [E _] H. apply elem_of_dom. rewrite E. by apply elem_of_dom. }
  assert (KA : forall (l : list str) s s', keeps s s' -> (forall c d, dn_nodes s !! c = Some d -> c <> μ -> c ∈ l \/ is_Some (table d !! μ)) ->
    forall c d, dn_nodes s' !! c = Some d -> c <> μ -> c ∈ l \/ is_Some (table d !! μ)).
  { intros l t t' [E K] H c d Hd Hc. assert (Hin : is_Some (dn_nodes t !! c)) by (apply elem_of_dom; rewrite <- E; apply elem_of_dom; by eexists).
    destruct Hin as [d0 Hd0]. destruct (K c d0 Hd0) as (d' & Hd' & Ht). rewrite Hd in Hd'. injection Hd' as <-.
    destruct (H c d0 Hd0 Hc) as [|Hm]; [by left|right; by apply Ht]. }
  revert s. induction todo as [|c todo IH]; intros s I HM Hall; destruct (drain s I) as (s1 & G1 & K1 & En1);
    pose proof (gets_inv s s1 I G1) as I1; pose proof (KM s s1 K1 HM) as HM1; pose proof (KA _ s s1 K1 Hall) as Hall1.
  - exists s1. split; [done|]. split; [done|]. split; [done|]. split; [done|]. intros a d Hd Ha.
    destruct (Hall1 a d Hd Ha) as [H|]; [by apply not_elem_of_nil in H|done].
  - assert (Hnext : exists s2, gets s1 s2 /\ keeps s1 s2 /\ forall d, dn_nodes s2 !! c = Some d -> c <> μ -> is_Some (table d !! μ)).
    { destruct (dn_nodes s1 !! c) as [d|] eqn:Hd; [|exists s1; split; [apply gets_refl|split; [apply keeps_refl|congruence]]].
      destruct (decide (c = μ)) as [->|Hc]; [exists s1; split; [apply gets_refl|split; [apply keeps_refl|done]]|].
      destruct (table d !! μ) as [m|] eqn:Em.
      { exists s1. split; [apply gets_refl|]. split; [apply keeps_refl|]. intros d' Hd' _. rewrite Hd in Hd'. injection Hd' as <-. by eexists. }
      destruct (abandon s1 c d I1 Hd) as (s2 & G2 & K2 & En2 & d2 & Hd2 & Et2 & Er2). rewrite En1 in En2.
      destruct (client_registers s2 c d2) as (s3 & G3 & K3 & d3 & Hd3 & Hm3); try done; [by eapply gets_inv|by eapply KM|by rewrite Et2|].
      exists s3. split; [by eapply gets_trans|]. split; [by eapply keeps_trans|]. intros e He _. rewrite Hd3 in He. injection He as <-. done. }
    destruct Hnext as (s2 & G2 & K2 & Hc2). destruct (IH s2) as (s3 & G3 & K3 & Hs3); [by eapply gets_inv|by eapply KM| |].
    + intros a d Hd Ha. destruct (KA _ s1 s2 K2 Hall1 a d Hd Ha) as [[->|]%elem_of_cons|]; [right; by apply Hc2|by left|by right].
    + exists s3. split; [eapply gets_trans; [done|by eapply gets_trans]|]. split; [eapply keeps_trans; [done|by eapply keeps_trans]|done].
Qed.

(** C23: Discovery gets there: from every state of a run in which nobody has left and the
    master is running, checks, requests given up and deliveries alone lead to a state where
    nothing is under way and every client knows the master, with the same nodes and no
    member lost; so the tables agree there. *)
Theorem discovery_settles (s : dnet) : stay_reach s -> is_Some (dn_nodes s !! μ) ->
  exists l s', Forall own_step l /\ run_disc mm l s = Some s' /\ stay_reach s' /\ settled s' /\ keeps s s'.
Proof.
  intros R HM. destruct (settle_all (clients mm s) s (stay_reach_inv s R) HM) as (s' & (l & Hl & Hr) & K & S).
  { intros c d Hd Hc. left. apply elem_of_clients. split; [by eexists|done]. }
  exists l, s'. split; [done|]. split; [done|]. split; [|done]. clear HM K S. revert s R Hr.
  induction Hl as [|a l Ha _ IH]; intros s R; [by intros [= <-]|]. rewrite run_disc_cons.
  destruct (exec_disc mm a s) as [s1|] eqn:E; cbn [mbind option_bind]; [|done]. apply IH. by apply (stay_step s a s1 R (own_step_stays a Ha)).
Qed.
End Converge.

(** ** A network *)

Definition member_code (m : Member) : str * str * str * gmap str str := (NodeID m, NodeType m, Address m, Settings m).
Definition code_member (c : str * str * str * gmap str str) : Member := mkMember c.1.1.1 c.1.1.2 c.1.2 c.2.
Lemma code_member_code m : code_member (member_code m) = m.
Proof. by destruct m. Qed.

#[global] Instance toy_members : MemberProto := {|
  mp_marshal m := Some (pos_bytes (encode (member_code m)));
  mp_unmarshal b := code_member <$> (bytes_pos b ≫= decode);
  mp_marshal_list l := Some (pos_bytes (encode (map member_code l)));
  mp_unmarshal_list b := map code_member <$> (bytes_pos b ≫= decode) |}.

#[global] Instance toy_member_laws : MemberLaws toy_members.
Proof.
  split.
  - intros m b. cbn [mp_marshal mp_unmarshal toy_members]. intros [= <-]. rewrite bytes_pos_bytes. cbn [mbind option_bind]. rewrite decode_encode. simpl.
    by rewrite code_member_code.
  - intros l _. cbn [mp_marshal_list mp_unmarshal_list toy_members]. eexists. split; [reflexivity|]. rewrite bytes_pos_bytes. cbn [mbind option_bind].
    rewrite decode_encode. simpl. f_equal. rewrite map_map. rewrite <- (map_id l) at 2. apply map_ext, code_member_code.
Qed.

Definition the_master : Member := mkMember "1000" "master" "10.0.0.9:80" ∅.

(** The second client registers while the first one's registration is under way. *)
Definition demo_actions : list disc_action :=
  [DStart member_a; DCheck "10001"; DStart the_master; DCheck "10001"; DStart member_c; DCheck "20001";
   DDeliver 1 ["20001"; "1000"]; DDeliver 0 ["10001"; "1000"; "20001"]; DTimeout "10001"; DDeliver 2 []; DDeliver 0 [];
   DDeliver 0 []; DDeliver 0 []; DDeliver 0 []; DDeliver 0 [];
   DCheck "10001"; DDeliver 0 ["10001"; "1000"; "20001"]; DDeliver 0 []; DDeliver 0 []; DDeliver 0 []].

Definition disc_default (l : list disc_action) : dnet := default empty_net (run_disc the_master l empty_net).

Lemma stay_run_reach l s s' : stay_reach the_master s -> Forall stays l -> run_disc the_master l s = Some s' -> stay_reach the_master s'.
Proof.
  intros R Hl. revert s R. induction Hl as [|a l Ha _ IH]; intros s R; [by intros [= <-]|]. rewrite run_disc_cons.
  destruct (exec_disc the_master a s) as [s1|] eqn:E; cbn [mbind option_bind]; [|done]. apply IH. by apply (stay_step the_master s a s1).
Qed.

Lemma demo_disc_reach k : stay_reach the_master (disc_default (take k demo_actions)).
Proof.
  unfold disc_default. destruct (run_disc the_master (take k demo_actions) empty_net) as [s|] eqn:E; [|constructor]. simpl.
  apply (stay_run_reach (take k demo_actions) empty_net); [constructor| |done]. apply Forall_take. by repeat constructor.
Defined.

Lemma the_master_named : NodeID the_master <> ""%string.
Proof. done. Qed.

Lemma the_master_valid : exists b, mp_marshal the_master = Some b.
Proof. exists (pos_bytes (encode (member_code the_master))). reflexivity. Qed.

Definition demo_settled : dnet := disc_default (take 20 demo_actions).

Lemma demo_settled_settled : settled the_master demo_settled.
Proof.
  split; [vm_compute; reflexivity|]. split; [eexists; vm_compute; reflexivity|]. intros c e He _.
  assert (H : map_Forall (fun _ e => is_Some (dd_members (d_disc e) !! "1000"%string)) (dn_nodes demo_settled)).
  { apply (bool_decide_eq_true_1 _). vm_compute. reflexivity. }
  exact (H c e He).
Qed.

Lemma demo_settled_nodes : is_Some (dn_nodes demo_settled !! "10001"%string) /\ size (dn_nodes demo_settled) = 3%nat.
Proof. split; [eexists|]; vm_compute; reflexivity. Qed.

Lemma discovery_agrees_witness :
  exists d, dn_nodes demo_settled !! "10001"%string = Some d /\ dom (dd_members (d_disc d)) = dom (dn_nodes demo_settled) /\
    size (dn_nodes demo_settled) = 3%nat.
Proof.
  generalize demo_settled_nodes, demo_settled_settled, (demo_disc_reach 20). fold demo_settled. generalize demo_settled.
  intros s [[d Hd] Hsz] Hs R. exists d. split; [exact Hd|]. split; [|exact Hsz].
  exact (proj1 (discovery_agrees the_master the_master_valid s R Hs _ d Hd)).
Defined.

Definition demo_open : dnet := disc_default (take 8 demo_actions).

Lemma demo_open_nodes : length (dn_net demo_open) = 6%nat /\ is_Some (dn_nodes demo_open !! NodeID the_master).
Proof. split; [|eexists]; vm_compute; reflexivity. Qed.

Lemma discovery_settles_witness :
  length (dn_net demo_open) = 6%nat /\ exists l s', Forall own_step l /\ run_disc the_master l demo_open = Some s' /\ settled the_master s'.
Proof.
  generalize demo_open_nodes, (demo_disc_reach 8). fold demo_open. generalize demo_open. intros s [Hn HM] R. split; [exact Hn|].
  destruct (discovery_settles the_master the_master_named the_master_valid s R HM) as (l & s' & H1 & H2 & _ & H3 & _). by exists l, s'.
Defined.

(** ** When a node leaves *)

Definition tables (s : dnet) : list (str * list str) := (fun kv => (kv.1, (map_to_list (dd_members (d_disc kv.2))).*1)) <$> map_to_list (dn_nodes s).

(** A node stops between the master's answer and its delivery: the removal reaches the new
    node first and finds nothing to remove, then the answer brings the node that is gone,
    and nothing will remove it. *)
Lemma late_answer_keeps_gone_node :
  (fun s => (tables s, length (dn_net s))) <$> run_disc the_master
    [DStart the_master; DStart member_a; DCheck "10001"; DDeliver 0 ["10001"; "1000"]; DDeliver 0 []; DDeliver 0 [];
     DStart member_c; DCheck "20001"; DDeliver 0 ["10001"; "1000"; "20001"]; DStop "10001";
     DDeliver 3 []; DDeliver 3 []; DDeliver 3 []; DDeliver 0 []; DDeliver 0 []; DDeliver 0 []] empty_net =
  Some ([("1000", ["1000"; "20001"]); ("20001", ["10001"; "1000"; "20001"])]%string, 0%nat).
Proof. vm_compute. reflexivity. Qed.

(** The master dies and comes back: its table holds only itself, and no check of a client
    that knows the master ever registers that client again. *)
Lemma new_master_knows_nobody :
  (fun s => (tables s, length (dn_net s))) <$> run_disc the_master
    [DStart the_master; DStart member_a; DCheck "10001"; DDeliver 0 ["10001"; "1000"]; DDeliver 0 []; DDeliver 0 [];
     DCrash "1000"; DStart the_master; DCheck "10001"; DCheck "10001"] empty_net =
  Some ([("10001", ["10001"; "1000"]); ("1000", ["1000"])]%string, 0%nat).
Proof. vm_compute. reflexivity. Qed.

(** A node dies and comes back at another address: the others keep the old one. *)
Lemma restarted_node_keeps_old_address :
  (fun s => (fun d => Address <$> dd_members (d_disc d) !! "10001"%string) <$> dn_nodes s !! "1000"%string) <$> run_disc the_master
    [DStart the_master; DStart member_a; DCheck "10001"; DDeliver 0 ["10001"; "1000"]; DDeliver 0 []; DDeliver 0 [];
     DCrash "10001"; DStart (mkMember "10001" "gate" "10.0.0.7:80" ∅); DCheck "10001"; DDeliver 0 ["10001"; "1000"]; DDeliver 0 []; DDeliver 0 []] empty_net =
  Some (Some (Some "10.0.0.1:80"%string)).
Proof. vm_compute. reflexivity. Qed.
