(* ===== verification/Files.v ===== *)
(** Finding files (src/extend/file/file.go): slash-separated paths as [path/filepath] cleans
    and joins them, and the places where a relative path is looked for.

    The file system is what [os.Stat], [os.ReadFile] and [os.ReadDir] answer; it does not
    change during an operation. Paths are those of a Unix system. *)
From stdpp Require Import sorting.
From S2P Require Import Prelude HttpActor Discovery.

Definition slash : ascii := "/".
Definition dot : str := ".".
Definition dotdot : str := "..".

(** ** Paths *)

(** What comes before and after the last [c]. *)
Fixpoint cut_last (c : ascii) (s : str) : option (str * str) :=
  match s with
  | EmptyString => None
  | String a s =>
      match cut_last c s with
      | Some (b, e) => Some (String a b, e)
      | None => if Ascii.eqb a c then Some (EmptyString, s) else None
      end
  end.

(** One segment of a path, on the segments kept so far, the last first. *)
Definition clean_seg (rooted : bool) (out : list str) (seg : str) : list str :=
  if String.eqb seg EmptyString || String.eqb seg dot then out
  else if String.eqb seg dotdot then
    match out with
    | top :: rest => if String.eqb top dotdot then dotdot :: out else rest
    | [] => if rooted then [] else [dotdot]
    end
  else seg :: out.

Definition clean_segs (rooted : bool) (segs : list str) : list str := rev (foldl (clean_seg rooted) [] segs).

Definition is_rooted (p : str) : bool := match p with String a _ => Ascii.eqb a slash | EmptyString => false end.

(** The path of some segments. *)
Definition path_of (rooted : bool) (segs : list str) : str :=
  let s := join (char_str slash) segs in
  if rooted then String slash s else if String.eqb s EmptyString then dot else s.

(** [filepath.Clean]. *)
Definition Clean (p : str) : str := path_of (is_rooted p) (clean_segs (is_rooted p) (split_on slash p)).

(** [filepath.Join]: empty elements at the front are left out. *)
Fixpoint filepath_Join (elem : list str) : str :=
  match elem with
  | [] => EmptyString
  | e :: rest => if String.eqb e EmptyString then filepath_Join rest else Clean (join (char_str slash) elem)
  end.

(** [filepath.Split]. *)
Definition filepath_Split (p : str) : str * str :=
  match cut_last slash p with
  | None => (EmptyString, p)
  | Some (b, e) => (String.append b (char_str slash), e)
  end.

(** ** The file system *)

(** A directory has its entries by name, with their being directories. *)
Inductive fnode := FDir (entries : list (str * bool)) | FFile (content : bytes).

(** What [os.Stat] finds, the working directory, the directory of the executable (as
    [filepath.Abs] answers), and the text of the stack. *)
Record os_env := mkOs { os_stat : str -> option fnode; os_wd : str; os_exe : str; os_stack : str }.

Section Env.
Variable env : os_env.

(** src/extend/file/file.go:71-77, IsDir *)
Definition IsDir (dirPath : str) : bool := match os_stat env dirPath with Some (FDir _) => true | _ => false end.

(** src/extend/file/file.go:79-85, IsFile *)
Definition IsFile (fullPath : str) : bool := match os_stat env fullPath with Some (FFile _) => true | _ => false end.

(** src/extend/file/file.go:136-142, GetWorkDir *)
Definition GetWorkDir : str := os_wd env.

Fixpoint str_map (f : ascii -> ascii) (s : str) : str :=
  match s with EmptyString => EmptyString | String a s => String (f a) (str_map f s) end.

Definition backslash : ascii := ascii_of_N 92.

(** src/extend/file/file.go:87-94, GetCurrentDirectory *)
Definition GetCurrentDirectory : str := str_map (fun a => if Ascii.eqb a backslash then slash else a) (os_exe env).

(** The order of [sort.StringSlice], reversed. *)
Definition str_ge (a b : str) : Prop := String.leb b a = true.
#[global] Instance str_ge_dec a b : Decision (str_ge a b).
Proof. unfold str_ge. apply _. Defined.

(** One line of the stack: the directory of the source file it names, when there is such. *)
Definition stack_dir (dir : list str) (line : str) : list str :=
  let lastLine := TrimSpace line in
  match cut_last slash lastLine with
  | None => dir
  | Some (thisDir, _) =>
      if String.eqb thisDir EmptyString then dir
      else match os_stat env thisDir with
           | None => dir
           | Some _ => if snd (StringIn thisDir dir) then dir else dir ++ [thisDir]
           end
  end.

Definition newline : ascii := ascii_of_N 10.

(** src/extend/file/file.go:105-134, GetStackDir *)
Definition GetStackDir : list str :=
  merge_sort str_ge (foldl stack_dir [] (split_on newline (TrimSpace (os_stack env)))).

(** The places a relative path is looked for at, in this order. *)
Definition search_path (filePath : str) : list str :=
  filepath_Join [GetWorkDir; filePath] :: filepath_Join [GetCurrentDirectory; filePath] ::
  map (fun d => filepath_Join [d; filePath]) GetStackDir ++ [filePath].

Fixpoint first_dir (l : list str) : str * bool :=
  match l with
  | [] => (EmptyString, false)
  | p :: l => if IsDir p then (p, true) else first_dir l
  end.

(** src/extend/file/file.go:43-69, JudgePath *)
Definition JudgePath (filePath : str) : str * bool :=
  let tmpPath := filepath_Join [GetWorkDir; filePath] in
  if IsDir tmpPath then (tmpPath, true)
  else
    let tmpPath := filepath_Join [GetCurrentDirectory; filePath] in
    if IsDir tmpPath then (tmpPath, true)
    else
      match first_dir (map (fun d => filepath_Join [d; filePath]) GetStackDir) with
      | (tmpPath, true) => (tmpPath, true)
      | (_, false) => if IsDir filePath then (filePath, true) else (EmptyString, false)
      end.

(** src/extend/file/file.go:15-41, JudgeFile *)
Definition JudgeFile (filePath : str) : str * bool :=
  if String.eqb filePath EmptyString then (filePath, false)
  else
    let '(p, n) := match cut_last slash filePath with
      | Some (String a b, e) => (String a b, e)
      | _ => ("./"%string, filePath)
      end in
    let '(newPath, found) := JudgePath p in
    if negb found then (EmptyString, false)
    else
      let fullFilePath := filepath_Join [newPath; n] in
      if IsFile fullFilePath then (fullFilePath, true) else (EmptyString, false).

(** The error is that of [os.Stat]. *)
(** src/extend/file/file.go:154-161, CheckPath *)
Definition CheckPath (filePath : str) : bool := match os_stat env filePath with Some _ => true | None => false end.

(** The path, and whether it exists. *)
(** src/extend/file/file.go:144-152, JoinPath *)
Definition JoinPath (elem : list str) : str * bool :=
  let filePath := filepath_Join elem in
  (filePath, CheckPath filePath).

Definition has_prefix (p s : str) : bool := String.prefix p s.
Fixpoint has_suffix (p s : str) : bool :=
  String.eqb p s || match s with EmptyString => false | String _ s => has_suffix p s end.

(** [os.ReadDir] gives the entries sorted by name, as [FDir] has them. *)
(** src/extend/file/file.go:194-224, ReadDir *)
Definition ReadDir (rootPath filePrefix fileSuffix : str) : res (list str) :=
  let '(rootPath, found) := JudgePath rootPath in
  if negb found then Err (String.append "path = " (String.append rootPath ", file not found."))
  else match os_stat env rootPath with
       | Some (FDir entries) =>
           Ok (omap (fun info : str * bool =>
             if info.2 then None
             else if negb (String.eqb filePrefix EmptyString) && negb (has_prefix filePrefix info.1) then None
             else if negb (String.eqb fileSuffix EmptyString) && negb (has_suffix fileSuffix info.1) then None
             else Some info.1) entries)
       | _ => Err "readdirent"
       end.
End Env.

Fixpoint trim_slashes (s : str) : str :=
  match s with
  | EmptyString => EmptyString
  | String a s => match trim_slashes s with
                  | EmptyString => if Ascii.eqb a slash then EmptyString else String a EmptyString
                  | t => String a t
                  end
  end.

(** [path.Base]. *)
Definition path_Base (p : str) : str :=
  if String.eqb p EmptyString then dot
  else
    let p := trim_slashes p in
    let p := match cut_last slash p with Some (_, e) => e | None => p end in
    if String.eqb p EmptyString then char_str slash else p.

(** The name without what follows its last dot. *)
(** src/extend/file/file.go:163-171, GetFileName *)
Definition GetFileName (filePath : str) (removeExt : bool) : str :=
  let fileName := path_Base filePath in
  if negb removeExt then fileName
  else match cut_last "." fileName with Some (b, _) => b | None => fileName end.

(** ** Clean paths *)

(** What is left of a path: no empty or current-directory segment, and parents only at the
    front of a path that is not rooted. *)
Definition plain_seg (s : str) : Prop := s <> EmptyString /\ s <> dot /\ str_mem slash s = false.

Definition norm_out (rooted : bool) (out : list str) : Prop :=
  Forall plain_seg out /\ exists names n, out = names ++ repeat dotdot n /\ Forall (fun s => s <> dotdot) names /\ (rooted = true -> n = 0%nat).

Lemma norm_out_nil r : norm_out r [].
Proof. split; [constructor|]. by exists [], 0%nat. Qed.

Lemma dotdot_plain : plain_seg dotdot.
Proof. by repeat split. Qed.

Lemma clean_seg_norm r out seg : str_mem slash seg = false -> norm_out r out -> norm_out r (clean_seg r out seg).
Proof.
  intros Hs [Hp (names & n & -> & Hn & Hr)]. unfold clean_seg.
  destruct (String.eqb_spec seg EmptyString) as [->|He]; [by split; [|exists names, n]|].
  destruct (String.eqb_spec seg dot) as [->|Hd]; [by split; [|exists names, n]|]. simpl orb. cbv iota.
  destruct (String.eqb_spec seg dotdot) as [->|Hdd].
  - destruct names as [|x names]; simpl in *.
    + destruct n as [|n]; simpl in *.
      * destruct r; [apply norm_out_nil|]. split; [constructor; [apply dotdot_plain|constructor]|]. by exists [], 1%nat.
      * destruct (decide (r = true)) as [Er|Er]; [by apply Hr in Er|]. split; [constructor; [apply dotdot_plain|done]|]. by exists [], (S (S n)).
    + apply list.Forall_cons in Hn as [Hx Hn]. destruct (String.eqb_spec x dotdot) as [->|_]; [done|].
      apply list.Forall_cons in Hp as [_ Hp]. split; [done|]. by exists names, n.
  - split; [constructor; [by repeat split|done]|]. exists (seg :: names), n. split_and!; [done| |done]. by constructor.
Qed.

Lemma clean_norm r segs out : Forall (fun s => str_mem slash s = false) segs -> norm_out r out -> norm_out r (foldl (clean_seg r) out segs).
Proof. revert out. induction segs as [|s segs IH]; intros out Hs Ho; simpl; [done|]. apply list.Forall_cons in Hs as [Hs Hr]. apply IH; [done|]. by apply clean_seg_norm. Qed.

Lemma norm_out_tail r x out : norm_out r (x :: out) -> norm_out r out.
Proof.
  intros [Hp (names & n & E & Hn & Hr)]. apply list.Forall_cons in Hp as [_ Hp]. split; [done|].
  destruct names as [|y names]; simpl in E.
  - destruct n as [|n]; [done|]. injection E as -> ->. exists [], n. split_and!; [done|constructor|]. intros Er. by apply Hr in Er.
  - injection E as -> ->. exists names, n. split_and!; [done| |done]. by apply list.Forall_cons in Hn as [_ ?].
Qed.

Lemma clean_seg_push r x out : norm_out r (x :: out) -> clean_seg r out x = x :: out.
Proof.
  intros [Hp (names & n & E & Hn & Hr)]. apply list.Forall_cons in Hp as [(He & Hd & _) _]. unfold clean_seg.
  rewrite (proj2 (String.eqb_neq _ _) He), (proj2 (String.eqb_neq _ _) Hd). simpl orb. cbv iota.
  destruct (String.eqb_spec x dotdot) as [->|]; [|done]. destruct names as [|y names]; simpl in E.
  - destruct n as [|n]; [done|]. injection E as ->. destruct n as [|n]; simpl; [|done]. destruct r; [by specialize (Hr eq_refl)|done].
  - injection E as <- _. by apply list.Forall_cons in Hn as [? _].
Qed.

Lemma clean_fix r out : norm_out r out -> foldl (clean_seg r) [] (rev out) = out.
Proof.
  induction out as [|x out IH]; intros H; [done|]. simpl. rewrite foldl_app. rewrite (IH (norm_out_tail r x out H)). simpl.
  by apply clean_seg_push.
Qed.

Lemma path_of_split r segs : Forall plain_seg segs ->
  is_rooted (path_of r segs) = r /\
  split_on slash (path_of r segs) = (if r then [EmptyString] else []) ++ (if decide (segs = []) then (if r then [EmptyString] else [dot]) else segs).
Proof.
  intros Hp. unfold path_of. assert (Hm : Forall (fun s => str_mem slash s = false) segs) by (eapply list.Forall_impl; [exact Hp|by intros ? (_ & _ & ?)]).
  destruct (decide (segs = [])) as [->|Hne]; [by destruct r|].
  destruct r; simpl.
  - split; [done|]. by rewrite split_on_join.
  - destruct segs as [|s segs]; [done|]. apply list.Forall_cons in Hp as [(He & _ & Hs) _].
    destruct s as [|a s]; [done|]. cbn [str_mem] in Hs. destruct (Ascii.eqb a slash) eqn:Ha; [done|]. clear Hs.
    assert (Ej : exists t, join (char_str slash) (String a s :: segs) = String a t) by (destruct segs; eexists; reflexivity).
    destruct Ej as [t Ej]. pose proof (split_on_join slash (String a s :: segs) Hne Hm) as E. rewrite Ej in E |- *.
    change (String.eqb (String a t) EmptyString) with false. cbv iota. by rewrite E.
Qed.

Lemma clean_path_of r out : norm_out r out -> Clean (path_of r (rev out)) = path_of r (rev out).
Proof.
  intros H. pose proof H as [Hp _]. apply Forall_rev in Hp. unfold Clean. destruct (path_of_split r (rev out) Hp) as [-> ->].
  unfold clean_segs. f_equal. rewrite foldl_app.
  assert (E0 : foldl (clean_seg r) [] (if r then [EmptyString] else []) = []) by by destruct r. rewrite E0.
  destruct (decide (rev out = [])) as [En|]; [rewrite En; by destruct r|]. by rewrite clean_fix.
Qed.

Lemma Clean_norm p : exists out, norm_out (is_rooted p) out /\ Clean p = path_of (is_rooted p) (rev out).
Proof. exists (foldl (clean_seg (is_rooted p)) [] (split_on slash p)). split; [|done]. apply clean_norm; [apply split_on_parts_nomem|apply norm_out_nil]. Qed.

(** Cleaning twice is cleaning once. *)
Lemma Clean_idem p : Clean (Clean p) = Clean p.
Proof. destruct (Clean_norm p) as (out & Ho & E). rewrite E. by apply clean_path_of. Qed.

Lemma filepath_Join_clean elem : filepath_Join elem = EmptyString \/ Clean (filepath_Join elem) = filepath_Join elem.
Proof. induction elem as [|e elem IH]; [by left|]. simpl. destruct (String.eqb e EmptyString); [done|]. right. apply Clean_idem. Qed.

(** ** Splitting and joining *)

Lemma cut_last_some c s b e : cut_last c s = Some (b, e) -> s = String.append b (String c e).
Proof.
  revert b e. induction s as [|a s IH]; intros b e; simpl; [done|]. destruct (cut_last c s) as [[b' e']|].
  - intros [= <- <-]. by rewrite (IH b' e' eq_refl).
  - destruct (Ascii.eqb_spec a c) as [->|]; [|done]. by intros [= <- <-].
Qed.

Lemma split_on_cat c a b : split_on c (String.append a (String c b)) = split_on c a ++ split_on c b.
Proof.
  induction a as [|x a IH]; simpl; [by rewrite Ascii.eqb_refl|]. destruct (Ascii.eqb x c); [by rewrite IH|].
  rewrite IH. pose proof (split_on_ne c a). by destruct (split_on c a).
Qed.

Lemma Clean_double_slash b e : Clean (String.append b (String slash (String slash e))) = Clean (String.append b (String slash e)).
Proof.
  assert (Er : is_rooted (String.append b (String slash (String slash e))) = is_rooted (String.append b (String slash e))) by by destruct b.
  unfold Clean. rewrite Er. f_equal. unfold clean_segs. f_equal. rewrite !split_on_cat, !foldl_app.
  change (split_on slash (String slash e)) with (EmptyString :: split_on slash e). done.
Qed.

(** A clean path is put together again from its directory and its file. *)
Lemma Split_Join p : p <> EmptyString -> Clean p = p -> filepath_Join [fst (filepath_Split p); snd (filepath_Split p)] = p.
Proof.
  intros Hne Hc. unfold filepath_Split. destruct (cut_last slash p) as [[b e]|] eqn:E; simpl.
  - apply cut_last_some in E. assert (En : String.eqb (String.append b (char_str slash)) EmptyString = false) by by destruct b.
    rewrite En. change (join (char_str slash) [String.append b (char_str slash); e])
      with (String.append (String.append b (char_str slash)) (String.append (char_str slash) e)).
    rewrite <- str_app_assoc. change (String.append (char_str slash) (String.append (char_str slash) e)) with (String slash (String slash e)).
    rewrite Clean_double_slash. by rewrite <- E.
  - by rewrite (proj2 (String.eqb_neq _ _) Hne).
Qed.

(** ** Where a path is found *)

Lemma first_dir_app env l1 l2 : first_dir env (l1 ++ l2) = if snd (first_dir env l1) then first_dir env l1 else first_dir env l2.
Proof. induction l1 as [|p l1 IH]; simpl; [done|]. by destruct (IsDir env p). Qed.

Lemma first_dir_sound env l p : first_dir env l = (p, true) ->
  exists i, l !! i = Some p /\ IsDir env p = true /\ forall j q, (j < i)%nat -> l !! j = Some q -> IsDir env q = false.
Proof.
  induction l as [|x l IH]; simpl; [done|]. destruct (IsDir env x) eqn:Ex.
  - intros [= <-]. exists 0%nat. split_and!; [done..|lia].
  - intros (i & Hi & Hp & Hf)%IH. exists (S i). split_and!; [done..|]. intros [|j] q Hj; simpl; [by intros [= <-]|]. apply Hf. lia.
Qed.

Lemma first_dir_none env l p : first_dir env l = (p, false) -> p = EmptyString /\ Forall (fun q => IsDir env q = false) l.
Proof. induction l as [|x l IH]; simpl; [by intros [= <-]|]. destruct (IsDir env x) eqn:Ex; [done|]. intros [? ?]%IH. by split; [|constructor]. Qed.

Lemma JudgePath_search env f : JudgePath env f = first_dir env (search_path env f).
Proof.
  unfold JudgePath, search_path. cbn [first_dir]. cbv zeta. destruct (IsDir env (filepath_Join [GetWorkDir env; f])); [done|].
  destruct (IsDir env (filepath_Join [GetCurrentDirectory env; f])); [done|]. rewrite first_dir_app.
  destruct (first_dir env (map _ _)) as [q [|]]; done.
Qed.

(** What [JudgeFile] finds is a file, and the path splits and joins back. *)
Lemma JudgeFile_found env f p : JudgeFile env f = (p, true) ->
  IsFile env p = true /\ (p <> EmptyString -> filepath_Join [fst (filepath_Split p); snd (filepath_Split p)] = p).
Proof.
  unfold JudgeFile. destruct (String.eqb f EmptyString); [done|].
  destruct (match cut_last slash f with Some (String a b, e) => (String a b, e) | _ => ("./"%string, f) end) as [d n].
  destruct (JudgePath env d) as [newPath found]. destruct found; cbn [negb]; [|done].
  destruct (IsFile env (filepath_Join [newPath; n])) eqn:E; [|done]. intros [= <-]. split; [exact E|]. intros Hne.
  apply Split_Join; [done|]. destruct (filepath_Join_clean [newPath; n]); done.
Qed.

(** A directory that is there under the working directory hides an absolute path, and a
    file in the root directory is not found. *)
Definition shadow_env : os_env :=
  mkOs (fun p => if String.eqb p "/srv/etc" then Some (FDir [("a.json"%string, false)])
                 else if String.eqb p "/etc" then Some (FDir [("a.json"%string, false)])
                 else if String.eqb p "/srv" then Some (FDir [])
                 else if String.eqb p "/srv/etc/a.json" then Some (FFile [])
                 else if String.eqb p "/etc/a.json" then Some (FFile [])
                 else if String.eqb p "/a.json" then Some (FFile []) else None)
       "/srv" "/opt/bin" "goroutine 1".

Lemma absolute_path_shadowed :
  JudgeFile shadow_env "/etc/a.json" = ("/srv/etc/a.json"%string, true) /\
  IsFile shadow_env "/a.json" = true /\ JudgeFile shadow_env "/a.json" = (EmptyString, false).
Proof. vm_compute. done. Qed.
