(* ===== verification/Profile.v ===== *)
(** The profile (src/profile): the configuration file with its includes, the node it
    describes, and the settings of the process.

    A JSON document is [jval]; reading one ([JsonLib]) and reading from one through
    jsoniter's [Any] ([AnyLib]) are the library's. The global [cfg] is passed on. *)
From Stdlib Require Import QArith_base.
From S2P Require Import Prelude Strconv Facade Files.
#[local] Open Scope Z_scope.
#[local] Set Warnings "-register-all".

(** ** JSON documents *)

(** What [json.Unmarshal] puts into an [any]. A [float64] that JSON can write is a rational. *)
Inductive jval :=
| JNull | JBool (b : bool) | JNum (q : Q) | JStr (s : str) | JArr (l : list jval) | JObj (m : gmap str jval).


(** [Unmarshal] into a map: [None] is an error, [Some None] the document [null]. *)
Class JsonLib := { json_unmarshal : bytes -> option (option (gmap str jval)) }.

(** jsoniter's [Any]. A path has one element wherever the program uses it. *)
Inductive path_elem := PKey (k : str) | PIdx (i : Z).

Class AnyLib := {
  any : Type;
  any_Wrap : jval -> any;
  any_Get : any -> path_elem -> any;
  any_LastError : any -> option str;
  any_ToString : any -> str;
  any_ToBool : any -> bool;
  any_ToInt : any -> Z;
  any_ToInt32 : any -> Z;
  any_ToInt64 : any -> Z;
  any_Keys : any -> list str;
  any_Size : any -> Z }.

(** A lookup that fails gives an [Any] with an error, from which every lookup fails. *)
Class AnyLaws (L : AnyLib) : Prop := {
  any_ok : forall v, any_LastError (any_Wrap v) = None;
  any_key : forall m k v, m !! k = Some v -> any_Get (any_Wrap (JObj m)) (PKey k) = any_Wrap v;
  any_nokey : forall m k, m !! k = None -> any_LastError (any_Get (any_Wrap (JObj m)) (PKey k)) <> None;
  any_index : forall l i v, l !! i = Some v -> any_Get (any_Wrap (JArr l)) (PIdx (Z.of_nat i)) = any_Wrap v;
  any_fails : forall a p, any_LastError a <> None -> any_LastError (any_Get a p) <> None;
  any_str : forall s, any_ToString (any_Wrap (JStr s)) = s;
  any_bool : forall b, any_ToBool (any_Wrap (JBool b)) = b;
  any_keys : forall m, any_Keys (any_Wrap (JObj m)) ≡ₚ (map_to_list m).*1;
  any_size : forall l, any_Size (any_Wrap (JArr l)) = Z.of_nat (length l) }.

(** ** Merging *)

(** The value that [mergeMap] leaves at a key: [old] is what [dst] has there. The values of
    [dst] and of [src] are different maps, so writing into one does not show in the other. *)
(** src/profile/profile.go:179-195, mergeMap *)
Fixpoint assign (value : jval) (old : option jval) : jval :=
  match value with
  | JObj m2 =>
      match old with
      | Some (JObj m1) => JObj (map_fold (fun key f dst => <[key := f (dst !! key)]> dst) m1 (assign <$> m2))
      | _ => value
      end
  | _ => value
  end.

(** src/profile/profile.go:179-195, mergeMap *)
Definition mergeMap (dst src : (gmap str jval)) : (gmap str jval) := map_fold (fun key f dst => <[key := f (dst !! key)]> dst) dst (assign <$> src).

(** src/extend/string/string.go:146-155, ToStringSlice *)
Definition ToStringSlice (val : list jval) : list str := omap (fun item => match item with JStr v => Some v | _ => None end) val.

Section Profile.
Context `{J : JsonLib} `{A : AnyLib}.
Variable env : os_env.

(** ** Reading *)

(** Decoding into a map keeps the keys that the document does not have. *)
(** src/extend/json/json.go:22-33, ReadMaps *)
Definition ReadMaps (path : str) (maps : (gmap str jval)) : res (gmap str jval) :=
  match os_stat env path with
  | Some (FFile content) =>
      match json_unmarshal content with
      | None => Err (String.append "json: " path)
      | Some None => Ok maps
      | Some (Some m) => Ok (m ∪ maps)
      end
  | _ => Err (String.append "open " path)
  end.

Fixpoint read_includes (filePath : str) (paths : list str) (includeMaps : (gmap str jval)) : res (gmap str jval) :=
  match paths with
  | [] => Ok includeMaps
  | p :: paths => res_bind (ReadMaps (filepath_Join [filePath; p]) includeMaps) (read_includes filePath paths)
  end.

(** src/profile/profile.go:163-164, LoadFile *)
Definition include_paths (profileMaps : (gmap str jval)) : list str :=
  match profileMaps !! "include"%string with Some (JArr v) => ToStringSlice v | _ => [] end.

(** src/profile/profile.go:149-177, LoadFile *)
Definition LoadFile (filePath fileName : str) : res any :=
  res_bind (ReadMaps (filepath_Join [filePath; fileName]) ∅) (fun profileMaps =>
  res_bind (read_includes filePath (include_paths profileMaps) ∅) (fun includeMaps =>
  let rootMaps := mergeMap ∅ includeMaps in
  let rootMaps := mergeMap rootMaps profileMaps in
  Ok (any_Wrap (JObj rootMaps)))).

(** ** Getters *)

Definition default_or {T} (zero : T) (defaultVal : list T) : T := match defaultVal with d :: _ => d | [] => zero end.

Definition getter {T} (conv : any -> T) (zero : T) (p : any) (path : path_elem) (defaultVal : list T) : T :=
  let result := any_Get p path in
  match any_LastError result with
  | Some _ => default_or zero defaultVal
  | None => conv result
  end.

(** src/profile/config.go:22-26, Config.GetConfig *)
Definition Config_GetConfig (p : any) (path : path_elem) : any := any_Get p path.
(** src/profile/config.go:28-37, Config.GetString *)
Definition Config_GetString : any -> path_elem -> list str -> str := getter any_ToString EmptyString.
(** src/profile/config.go:39-50, Config.GetBool *)
Definition Config_GetBool : any -> path_elem -> list bool -> bool := getter any_ToBool false.
(** src/profile/config.go:52-62, Config.GetInt *)
Definition Config_GetInt : any -> path_elem -> list Z -> Z := getter any_ToInt 0.
(** src/profile/config.go:64-74, Config.GetInt32 *)
Definition Config_GetInt32 : any -> path_elem -> list Z -> Z := getter any_ToInt32 0.
(** src/profile/config.go:76-86, Config.GetInt64 *)
Definition Config_GetInt64 : any -> path_elem -> list Z -> Z := getter any_ToInt64 0.
(** A duration is a number of nanoseconds. *)
(** src/profile/config.go:88-98, Config.GetDuration *)
Definition Config_GetDuration : any -> path_elem -> list Z -> Z := getter any_ToInt64 0.

(** The text that is decoded, or the error. *)
(** src/profile/config.go:100-105, Config.Unmarshal *)
Definition Config_Unmarshal {T} (UnmarshalFromString : str -> res T) (p : any) : res T :=
  match any_LastError p with Some e => Err e | None => UnmarshalFromString (any_ToString p) end.

(** ** The node *)

(** src/profile/node.go:13-20, Node *)
Record ProfileNode := mkProfileNode {
  pn_nodeID : str; pn_nodeType : str; pn_address : str; pn_rpcAddress : str; pn_settings : any; pn_enabled : bool }.

(** [%v] of a bool. *)
(** src/profile/node.go:48-56, Node.String *)
Definition Node_String (n : ProfileNode) : str :=
  String.append "nodeID = " (String.append (pn_nodeID n) (String.append ", nodeType = " (String.append (pn_nodeType n)
  (String.append ", address = " (String.append (pn_address n) (String.append ", rpcAddress = " (String.append (pn_rpcAddress n)
  (String.append ", enabled = " (if pn_enabled n then "true" else "false"))))))))).

(** [regexp.Compile] and [MatchString]: [None] when the expression does not compile. *)
Variable regexp_match : str -> option (str -> bool).

(** src/profile/node.go:111-122, isRegexNodeID *)
Definition isRegexNodeID (nodeID regexNodeID : str) : bool :=
  if negb (has_prefix "^" regexNodeID) || negb (has_suffix "$" regexNodeID) then false
  else match regexp_match regexNodeID with None => false | Some regex => regex nodeID end.

(** src/profile/node.go:92-109, findNodeID *)
Definition findNodeID (nodeID : str) (nodeIDJson : any) : bool :=
  let configNodeID := any_ToString nodeIDJson in
  if String.eqb configNodeID nodeID then true
  else if isRegexNodeID nodeID configNodeID then true
  else existsb (fun i => String.eqb (Config_GetString nodeIDJson (PIdx (Z.of_nat i)) []) nodeID) (seq 0 (Z.to_nat (any_Size nodeIDJson))).

Definition node_of (nodeId nodeType : str) (item : any) : ProfileNode :=
  mkProfileNode nodeId nodeType (Config_GetString item (PKey "address") []) (Config_GetString item (PKey "rpc_address") [])
    (Config_GetConfig item (PKey "__settings__")) (Config_GetBool item (PKey "enabled") []).

(** The entries of one type. *)
(** src/profile/node.go:67-85, GetNodeWithConfig *)
Fixpoint scan_items (nodeId ndType nodeType : str) (typeJson : any) (idx : list nat) : option ProfileNode :=
  match idx with
  | [] => None
  | i :: idx =>
      let item := Config_GetConfig typeJson (PIdx (Z.of_nat i)) in
      if negb (String.eqb nodeType ndType) || negb (findNodeID nodeId (Config_GetConfig item (PKey "node_id")))
      then scan_items nodeId ndType nodeType typeJson idx
      else Some (node_of nodeId nodeType item)
  end.

Fixpoint scan_types (nodeId ndType : str) (nodeConfig : any) (keys : list str) : option ProfileNode :=
  match keys with
  | [] => None
  | nodeType :: keys =>
      let typeJson := Config_GetConfig nodeConfig (PKey nodeType) in
      match scan_items nodeId ndType nodeType typeJson (seq 0 (Z.to_nat (any_Size typeJson))) with
      | Some node => Some node
      | None => scan_types nodeId ndType nodeConfig keys
      end
  end.

(** src/profile/node.go:60-89, GetNodeWithConfig *)
Definition GetNodeWithConfig (config : any) (nodeId ndType : str) : res ProfileNode :=
  let nodeConfig := Config_GetConfig config (PKey "node") in
  match any_LastError nodeConfig with
  | Some _ => Err "`nodes` property not found in profile file."
  | None =>
      match scan_types nodeId ndType nodeConfig (any_Keys nodeConfig) with
      | Some node => Ok node
      | None => Err (String.append "ndType = " (String.append ndType " not found."))
      end
  end.

(** ** The process *)

(** A nil [jsonConfig] is [None]. *)
(** src/profile/profile.go:15-31, cfg *)
Record profile_cfg := mkCfg {
  cf_profilePath : str; cf_profileName : str; cf_jsonConfig : option any; cf_env : str; cf_debug : bool; cf_printLevel : str;
  cf_nodeId : str; cf_nodeType : str; cf_nodeIdStr : str; cf_bigWorldId : str; cf_printLogPath : str; cf_configPath : str;
  cf_actorTimeOut : Z; cf_arrivalTimeOut : Z; cf_nodeName : str }.

Definition zero_cfg : profile_cfg :=
  mkCfg EmptyString EmptyString None EmptyString false EmptyString EmptyString EmptyString EmptyString EmptyString EmptyString EmptyString 0 0 EmptyString.

(** src/profile/profile.go:90-105, Init *)
Definition init_cfg (p f : str) (jsonConfig : any) (nodeIdStr : str) (node : ProfileNode) : profile_cfg :=
  mkCfg p f (Some jsonConfig)
    (Config_GetString jsonConfig (PKey "env") ["default"%string]) (Config_GetBool jsonConfig (PKey "debug") [true])
    (Config_GetString jsonConfig (PKey "print_level") ["debug"%string])
    (pn_nodeID node) (pn_nodeType node) nodeIdStr (default EmptyString (head (split_on dot_char nodeIdStr)))
    (Config_GetString jsonConfig (PKey "print_logpath") ["./log/"%string])
    (Config_GetString jsonConfig (PKey "config_path") ["./config/"%string])
    (Config_GetInt64 (pn_settings node) (PKey "actor_time_out") [0])
    (Config_GetInt64 jsonConfig (PKey "arrival_timeout") [100])
    (Config_GetString (pn_settings node) (PKey "node_name") ["default"%string]).

(** src/profile/profile.go:58-108, Init *)
Definition Init (cfg : profile_cfg) (filePath nodeIdStr : str) : profile_cfg * res ProfileNode :=
  if String.eqb filePath EmptyString then (cfg, Err "File path is nil.")
  else if String.eqb nodeIdStr EmptyString then (cfg, Err "NodeID is nil.")
  else match JudgeFile env filePath with
  | (_, false) => (cfg, Err (String.append "File path error. filePath = " filePath))
  | (judgePath, true) =>
      let '(p, f) := filepath_Split judgePath in
      match LoadFile p f with
      | Err err => (cfg, Err (String.append "Load profile file error. [err = " (String.append err "]")))
      | Ok jsonConfig =>
          match any_LastError jsonConfig with
          | Some _ => (cfg, Err "Load profile file error. [err = <nil>]")
          | None =>
              match GenNodeIdByStr nodeIdStr with
              | Err err => (cfg, Err (String.append "Failed to generate node ID. [err = " (String.append err "]")))
              | Ok nodeId =>
                  let nodeType := GetNodeType nodeId in
                  match GetNodeWithConfig jsonConfig (ToString (AUint64 nodeId)) (ToString (AUint32 nodeType)) with
                  | Err err => (cfg, Err (String.append "Failed to get node config from profile file. [err = " (String.append err "]")))
                  | Ok node => (init_cfg p f jsonConfig nodeIdStr node, Ok node)
                  end
              end
          end
      end
  end.

(** [None]: nothing is loaded, and the nil configuration panics. *)
(** src/profile/profile.go:110-112, LoadNode *)
Definition LoadNode (cfg : profile_cfg) (nodeId nodeType : str) : option (res ProfileNode) :=
  c ← cf_jsonConfig cfg; Some (GetNodeWithConfig c nodeId nodeType).

(** src/profile/profile.go:114-116, GetConfig *)
Definition profile_GetConfig (cfg : profile_cfg) (path : path_elem) : option any := c ← cf_jsonConfig cfg; Some (Config_GetConfig c path).

(** src/profile/profile.go:130-132, PrintLogPath *)
Definition PrintLogPath (cfg : profile_cfg) : str :=
  String.append (cf_printLogPath cfg) (String.append "/" (String.append (cf_nodeName cfg) (String.append "." (String.append (cf_nodeIdStr cfg) "/")))).

(** [GetConfig] never gives nil. *)
(** src/profile/profile.go:134-147, DiscoveryMode *)
Definition DiscoveryMode (cfg : profile_cfg) : option str :=
  cluster ← profile_GetConfig cfg (PKey "cluster");
  let mode := Config_GetString (Config_GetConfig cluster (PKey "discovery")) (PKey "mode") [] in
  Some (if String.eqb mode EmptyString then "nats"%string else mode).
End Profile.

(** ** What merging gives *)

Lemma map_fold_assign (dst : (gmap str jval)) (fs : gmap str (option jval -> jval)) k :
  map_fold (fun key f d => <[key := f (d !! key)]> d) dst fs !! k =
  match fs !! k with Some f => Some (f (dst !! k)) | None => dst !! k end.
Proof.
  revert k. apply (map_fold_weak_ind (fun d fs => forall k, d !! k = match fs !! k with Some f => Some (f (dst !! k)) | None => dst !! k end)).
  - intros k. by rewrite lookup_empty.
  - intros i f m d Hi IH k. destruct (decide (k = i)) as [->|Hne].
    + by rewrite !lookup_insert_eq, IH, Hi.
    + rewrite !lookup_insert_ne by congruence. apply IH.
Qed.

(** One key of a merge. *)
Lemma mergeMap_lookup dst src k :
  mergeMap dst src !! k = match src !! k with Some v => Some (assign v (dst !! k)) | None => dst !! k end.
Proof. unfold mergeMap. rewrite map_fold_assign, lookup_fmap. by destruct (src !! k). Qed.

Lemma assign_obj m2 m1 : assign (JObj m2) (Some (JObj m1)) = JObj (mergeMap m1 m2).
Proof. done. Qed.

Definition is_obj (v : jval) : bool := match v with JObj _ => true | _ => false end.

(** The value at a path of keys, and whether a path leads through a value that is not an
    object. *)
Fixpoint jget (p : list str) (v : jval) : option jval :=
  match p with
  | [] => Some v
  | k :: p => match v with JObj m => m !! k ≫= jget p | _ => None end
  end.
Fixpoint jblocked (p : list str) (v : jval) : bool :=
  match p with
  | [] => false
  | k :: p => match v with JObj m => match m !! k with Some w => jblocked p w | None => false end | _ => true end
  end.

Lemma assign_leaf v old : is_obj v = false -> assign v old = v.
Proof. by destruct v. Qed.

Lemma assign_other v old : match old with Some w => is_obj w = false | None => True end -> assign v old = v.
Proof. destruct v; try done. by destruct old as [[]|]. Qed.


(** A value of the second document that is no object is there in the merge. *)
Lemma assign_wins p v old w : jget p v = Some w -> is_obj w = false -> jget p (assign v old) = Some w.
Proof.
  revert v old. induction p as [|k p IH]; intros v old; simpl; [intros [= ->] Hw; by rewrite assign_leaf|].
  destruct v as [| | | | |m2]; try done. intros Hg Hw. destruct old as [[| | | | |m1]|]; try done.
  rewrite assign_obj, mergeMap_lookup. destruct (m2 !! k) as [x|]; [|done]. simpl in *. by apply IH.
Qed.

(** What the second document does not speak of stays. *)
Lemma assign_keeps p v old : jget p v = None -> jblocked p v = false -> is_obj v = true ->
  jget p (assign v (Some old)) = if is_obj old then jget p old else None.
Proof.
  revert v old. induction p as [|k p IH]; intros v old; simpl; [done|]. destruct v as [| | | | |m2]; try done. intros Hg Hb _.
  destruct old as [| | | | |m1]; simpl; try (by destruct (m2 !! k)).
  change (mergeMap m1 m2 !! k ≫= jget p = (m1 !! k ≫= jget p)). rewrite mergeMap_lookup. destruct (m2 !! k) as [x|] eqn:Ek; simpl in *; [|done].
  destruct (m1 !! k) as [y|] eqn:E1; simpl; [|by rewrite assign_other].
  destruct p as [|k2 p]; [done|]. assert (Hx : is_obj x = true) by by destruct x.
  rewrite IH by done. destruct y; try done.
Qed.

Lemma mergeMap_empty src : mergeMap ∅ src = src.
Proof.
  apply map_eq. intros k. rewrite mergeMap_lookup, lookup_empty. destruct (src !! k) as [v|]; [|done]. f_equal. by apply assign_other.
Qed.

(** ** Loading *)

(** What [LoadFile] gives, in terms of the file and of its includes. *)
Section Load.
Context `{J : JsonLib} `{A : AnyLib}.
Variable env : os_env.

(** The documents that are read: the keys of a later include replace those of an earlier. *)
Lemma read_includes_ok filePath paths m r : read_includes env filePath paths m = Ok r ->
  exists docs : list (gmap str jval), length docs = length paths /\ r = foldl (fun acc d => d ∪ acc) m docs /\
    forall i p d, paths !! i = Some p -> docs !! i = Some d -> ReadMaps env (filepath_Join [filePath; p]) ∅ = Ok d.
Proof.
  revert m. induction paths as [|p paths IH]; intros m; simpl read_includes; [by intros [= <-]; exists []|].
  unfold ReadMaps at 1. destruct (os_stat env _) as [[|content]|] eqn:Es; try done.
  destruct (json_unmarshal content) as [[d|]|] eqn:Ej; cbn [res_bind]; try done; intros (docs & Hl & -> & Hd)%IH.
  - exists (d :: docs). split_and!; [simpl; by rewrite Hl|done|]. intros [|i] q x; simpl; [|apply Hd].
    intros [= <-] [= <-]. unfold ReadMaps. rewrite Es, Ej. by rewrite (right_id_L ∅ (∪)).
  - exists (∅ :: docs). split_and!; [simpl; by rewrite Hl|simpl; by rewrite (left_id_L ∅ (∪))|]. intros [|i] q x; simpl; [|apply Hd].
    intros [= <-] [= <-]. unfold ReadMaps. by rewrite Es, Ej.
Qed.

(** LoadFile reads the profile and its includes and gives one document in which the
    profile has the last word: a value of the profile that is no object is found there
    under its path whatever the includes say, and a path that the profile says nothing of,
    through objects only, leads to what the includes have there, a later include's key
    replacing an earlier one's. *)
Theorem LoadFile_overrides (filePath fileName : str) (c : any) :
  LoadFile env filePath fileName = Ok c ->
  exists (profile includes merged : gmap str jval) (docs : list (gmap str jval)),
    ReadMaps env (filepath_Join [filePath; fileName]) ∅ = Ok profile /\
    includes = foldl (fun acc d => d ∪ acc) ∅ docs /\
    length docs = length (include_paths profile) /\
    (forall i p d, include_paths profile !! i = Some p -> docs !! i = Some d -> ReadMaps env (filepath_Join [filePath; p]) ∅ = Ok d) /\
    c = any_Wrap (JObj merged) /\
    (forall p v, jget p (JObj profile) = Some v -> is_obj v = false -> jget p (JObj merged) = Some v) /\
    (forall p, jget p (JObj profile) = None -> jblocked p (JObj profile) = false -> jget p (JObj merged) = jget p (JObj includes)).
Proof.
  unfold LoadFile. destruct (ReadMaps env (filepath_Join [filePath; fileName]) ∅) as [profile|] eqn:Ep; [|done]. cbn [res_bind].
  destruct (read_includes env filePath (include_paths profile) ∅) as [includes|] eqn:Ei; [|done]. cbn [res_bind]. intros [= <-].
  apply read_includes_ok in Ei as (docs & Hl & Hi & Hd). rewrite mergeMap_empty.
  exists profile, includes, (mergeMap includes profile), docs. split_and!; try done.
  - intros p v Hv Hw. rewrite <- assign_obj. by apply assign_wins.
  - intros p Hp Hb. rewrite <- assign_obj. by rewrite assign_keeps.
Qed.
End Load.

(** ** The node of a profile *)

Section Nodes.
Context `{J : JsonLib} {A : AnyLib} {L : AnyLaws A}.
Variable regexp_match : str -> option (str -> bool).

Lemma getter_found {T} (conv : any -> T) zero m k v d : m !! k = Some v -> getter conv zero (any_Wrap (JObj m)) (PKey k) d = conv (any_Wrap v).
Proof. intros H. unfold getter. by rewrite (any_key m k v H), any_ok. Qed.

Lemma getter_missing {T} (conv : any -> T) zero m k d : m !! k = None -> getter conv zero (any_Wrap (JObj m)) (PKey k) d = default_or zero d.
Proof. intros H. unfold getter. pose proof (any_nokey m k H). by destruct (any_LastError _). Qed.

(** A missing section is as if every key of it was missing. *)
Lemma getter_no_section {T} (conv : any -> T) zero m s k d :
  m !! s = None -> getter conv zero (Config_GetConfig (any_Wrap (JObj m)) (PKey s)) k d = default_or zero d.
Proof. intros H. unfold getter, Config_GetConfig. pose proof (any_fails _ k (any_nokey m s H)). by destruct (any_LastError (any_Get _ k)). Qed.

Definition matches (nodeId : str) (item : jval) : bool :=
  findNodeID regexp_match nodeId (Config_GetConfig (any_Wrap item) (PKey "node_id")).

Lemma scan_items_other nodeId ndType t j idx : t <> ndType -> scan_items regexp_match nodeId ndType t j idx = None.
Proof. intros H. induction idx as [|i idx IH]; simpl; [done|]. by rewrite (proj2 (String.eqb_neq _ _) H). Qed.

Lemma scan_items_find nodeId t pre l :
  scan_items regexp_match nodeId t t (any_Wrap (JArr (pre ++ l))) (seq (length pre) (length l)) =
  match list_find (fun x => matches nodeId x = true) l with Some (_, item) => Some (node_of nodeId t (any_Wrap item)) | None => None end.
Proof.
  revert pre. induction l as [|x l IH]; intros pre; [done|].
  cbn [length seq scan_items list_find]. unfold Config_GetConfig.
  rewrite (any_index (pre ++ x :: l) (length pre) x) by (by apply list_lookup_middle). rewrite String.eqb_refl. simpl negb. simpl orb.
  change (findNodeID regexp_match nodeId (any_Get (any_Wrap x) (PKey "node_id"))) with (matches nodeId x).
  destruct (matches nodeId x) eqn:Em; simpl.
  - by destruct (decide (true = true)).
  - destruct (decide (false = true)); [done|]. specialize (IH (pre ++ [x])). rewrite length_app, <- app_assoc in IH. simpl in IH.
    rewrite Nat.add_1_r in IH. rewrite IH. by destruct (list_find _ l) as [[]|].
Qed.

Lemma scan_types_in nodeId ndType c keys :
  scan_types regexp_match nodeId ndType c keys =
  if decide (ndType ∈ keys)
  then let j := Config_GetConfig c (PKey ndType) in scan_items regexp_match nodeId ndType ndType j (seq 0 (Z.to_nat (any_Size j)))
  else None.
Proof.
  induction keys as [|k keys IH]; [done|]. cbn [scan_types]. rewrite IH. cbv zeta. destruct (decide (k = ndType)) as [->|Hne].
  - destruct (decide (ndType ∈ ndType :: keys)) as [_|Hn]; [|by destruct Hn; left].
    destruct (scan_items _ _ _ _ _ _) eqn:E; [done|]. by destruct (decide (ndType ∈ keys)).
  - rewrite scan_items_other by done.
    destruct (decide (ndType ∈ keys)) as [Hi|Hn], (decide (ndType ∈ k :: keys)) as [Hi2|Hn2]; try done.
    + by destruct Hn2; right.
    + apply elem_of_cons in Hi2 as [?|?]; [by subst|done].
Qed.

Lemma any_keys_in m k : k ∈ any_Keys (any_Wrap (JObj m)) <-> is_Some (m !! k).
Proof.
  rewrite (any_keys m). rewrite list_elem_of_fmap. split.
  - intros ([i x] & -> & Hx). apply elem_of_map_to_list in Hx. by exists x.
  - intros [x Hx]. exists (k, x). split; [done|]. by apply elem_of_map_to_list.
Qed.

(** The node of an identifier is the first entry of its type that names it, in whatever
    order the types are met. *)
Lemma GetNodeWithConfig_first m types nodeId ndType :
  m !! "node"%string = Some (JObj types) ->
  (forall items, types !! ndType = Some (JArr items) ->
    GetNodeWithConfig regexp_match (any_Wrap (JObj m)) nodeId ndType =
    match list_find (fun x => matches nodeId x = true) items with
    | Some (_, item) => Ok (node_of nodeId ndType (any_Wrap item))
    | None => Err (String.append "ndType = " (String.append ndType " not found."))
    end) /\
  (types !! ndType = None ->
    GetNodeWithConfig regexp_match (any_Wrap (JObj m)) nodeId ndType = Err (String.append "ndType = " (String.append ndType " not found."))).
Proof.
  intros Hn. unfold GetNodeWithConfig, Config_GetConfig. rewrite (any_key m _ _ Hn), any_ok. cbv zeta.
  rewrite scan_types_in. pose proof (any_keys_in types ndType) as Hk. split.
  - intros items Ht. rewrite decide_True by (apply Hk; by eexists). cbv zeta. unfold Config_GetConfig.
    rewrite (any_key types _ _ Ht), any_size, Nat2Z.id. pose proof (scan_items_find nodeId ndType [] items) as E. simpl in E. rewrite E. by destruct (list_find _ items) as [[]|].
  - intros Ht. rewrite decide_False; [done|]. intros [x Hx]%Hk. congruence.
Qed.

(** The node has the identifier and the type that were asked for. *)
Lemma GetNodeWithConfig_ids c nodeId ndType node : GetNodeWithConfig regexp_match c nodeId ndType = Ok node ->
  pn_nodeID node = nodeId /\ pn_nodeType node = ndType.
Proof.
  unfold GetNodeWithConfig. destruct (any_LastError _); [done|]. rewrite scan_types_in. destruct (decide _); [|done].
  cbv zeta. set (j := Config_GetConfig _ (PKey ndType)). generalize (seq 0 (Z.to_nat (any_Size j))). intros idx.
  induction idx as [|i idx IH]; cbn [scan_items]; [done|]. destruct (_ || _); [done|]. by intros [= <-].
Qed.

(** *** The process *)

Context (env : os_env).

(** Init changes the settings of the process only when it succeeds. The node then has
    the decimal form of the number that the dotted identifier stands for, the type is the
    one inside that number, the settings have it, LoadNode finds the same node again, and
    the file and the directory that are remembered are those of the profile that was read. *)
Theorem Init_spec (cfg : profile_cfg) (filePath nodeIdStr : str) :
  match Init env regexp_match cfg filePath nodeIdStr with
  | (cfg', Err _) => cfg' = cfg
  | (cfg', Ok node) =>
      exists id c p, GenNodeIdByStr nodeIdStr = Ok id /\ pn_nodeID node = format_uint 10 id /\
        pn_nodeType node = format_uint 10 (GetNodeType id) /\
        cf_nodeId cfg' = pn_nodeID node /\ cf_nodeType cfg' = pn_nodeType node /\ cf_nodeIdStr cfg' = nodeIdStr /\
        LoadNode regexp_match cfg' (cf_nodeId cfg') (cf_nodeType cfg') = Some (Ok node) /\
        JudgeFile env filePath = (p, true) /\ IsFile env p = true /\ (cf_profilePath cfg', cf_profileName cfg') = filepath_Split p /\
        LoadFile env (cf_profilePath cfg') (cf_profileName cfg') = Ok c /\ cf_jsonConfig cfg' = Some c
  end.
Proof.
  unfold Init. destruct (String.eqb filePath EmptyString); [done|]. destruct (String.eqb nodeIdStr EmptyString); [done|].
  destruct (JudgeFile env filePath) as [judgePath [|]] eqn:Ej; [|done]. destruct (filepath_Split judgePath) as [p f] eqn:Es.
  destruct (LoadFile env p f) as [c|] eqn:El; [|done]. destruct (any_LastError c); [done|].
  destruct (GenNodeIdByStr nodeIdStr) as [id|] eqn:Ei; [|done].
  destruct (GetNodeWithConfig regexp_match c _ _) as [node|] eqn:En; [|done].
  pose proof (GetNodeWithConfig_ids c _ _ node En) as Hid.
  destruct Hid as [Hid Ht]. exists id, c, judgePath. destruct (JudgeFile_found env filePath judgePath Ej) as [Hf _].
  cbn [cf_jsonConfig init_cfg cf_nodeId cf_nodeType cf_nodeIdStr cf_profilePath cf_profileName].
  refine (conj eq_refl (conj Hid (conj Ht (conj eq_refl (conj eq_refl (conj eq_refl (conj _ (conj eq_refl (conj Hf (conj _ (conj El eq_refl))))))))))); [|by rewrite Es].
  unfold LoadNode. cbn [cf_jsonConfig init_cfg]. rewrite Hid, Ht. exact (f_equal Some En).
Qed.
End Nodes.

(** ** A concrete library *)

(** An [Any] that is the document itself, [None] where the lookup failed. *)
#[global] Instance tree_any : AnyLib := {|
  any := option jval;
  any_Wrap := Some;
  any_Get a p :=
    match a, p with
    | Some (JObj m), PKey k => m !! k
    | Some (JArr l), PIdx i => if 0 <=? i then l !! Z.to_nat i else None
    | _, _ => None
    end;
  any_LastError a := match a with Some _ => None | None => Some "not found"%string end;
  any_ToString a := match a with
    | Some (JStr s) => s | Some (JBool true) => "true" | Some (JBool false) => "false"
    | Some (JNum q) => format_int 10 (Qnum q / Zpos (Qden q)) | _ => EmptyString end;
  any_ToBool a := match a with Some (JBool b) => b | Some (JStr EmptyString) | Some JNull | None => false | Some _ => true end;
  any_ToInt a := match a with Some (JNum q) => Z.quot (Qnum q) (Zpos (Qden q)) | _ => 0 end;
  any_ToInt32 a := match a with Some (JNum q) => i32 (Z.quot (Qnum q) (Zpos (Qden q))) | _ => 0 end;
  any_ToInt64 a := match a with Some (JNum q) => Z.quot (Qnum q) (Zpos (Qden q)) | _ => 0 end;
  any_Keys a := match a with Some (JObj m) => (map_to_list m).*1 | _ => [] end;
  any_Size a := match a with Some (JArr l) => Z.of_nat (length l) | Some (JObj m) => Z.of_nat (size m) | _ => 0 end |}.

#[global] Instance tree_any_laws : AnyLaws tree_any.
Proof.
  split; try done.
  - intros m k Hk. simpl. by rewrite Hk.
  - intros l i v Hi. simpl. by rewrite (proj2 (Z.leb_le _ _) (Zle_0_nat i)), Nat2Z.id.
  - by intros [v|] [k|i].
Qed.

(** A profile in a directory with one include: both have a node section and a cluster. *)
Definition demo_item (id : str) (node_name : str) : jval :=
  JObj {[ "node_id"%string := JStr id; "address"%string := JStr ":9000"; "__settings__"%string := JObj {[ "node_name"%string := JStr node_name ]} ]}.
Definition demo_profile_doc : gmap str jval :=
  {[ "include"%string := JArr [JStr "base.json"];
     "env"%string := JStr "dev";
     "cluster"%string := JObj {[ "mode"%string := JStr "rabbitmq" ]};
     "node"%string := JObj {[ "5"%string := JArr [demo_item "1.10001.5.1" "dotted"; demo_item "18701661997629441" "plain"] ]} ]}.
Definition demo_include_doc : gmap str jval :=
  {[ "env"%string := JStr "base";
     "cluster"%string := JObj {[ "mode"%string := JStr "nats"; "discovery"%string := JObj {[ "mode"%string := JStr "etcd" ]} ]} ]}.

#[global] Instance demo_json : JsonLib :=
  {| json_unmarshal b := match b with [x01] => Some (Some demo_profile_doc) | [x02] => Some (Some demo_include_doc) | _ => None end |}.

Definition profile_env : os_env :=
  mkOs (fun p => if String.eqb p "/srv/config" then Some (FDir [("app.json"%string, false); ("base.json"%string, false)])
                 else if String.eqb p "/srv/config/app.json" then Some (FFile [x01])
                 else if String.eqb p "/srv/config/base.json" then Some (FFile [x02]) else None)
       "/srv" "/opt/bin" "goroutine 1".

Definition no_regexp (s : str) : option (str -> bool) := None.

Lemma demo_includes : include_paths demo_profile_doc = ["base.json"%string].
Proof. vm_compute. reflexivity. Qed.
Lemma demo_read_profile : ReadMaps profile_env (filepath_Join ["/srv/config/"%string; "app.json"%string]) ∅ = Ok demo_profile_doc.
Proof. vm_compute. reflexivity. Qed.
Lemma demo_read_include : ReadMaps profile_env (filepath_Join ["/srv/config/"%string; "base.json"%string]) ∅ = Ok demo_include_doc.
Proof. vm_compute. reflexivity. Qed.
Lemma demo_loads : is_ok (LoadFile profile_env "/srv/config/" "app.json") = true.
Proof. vm_compute. reflexivity. Qed.
Lemma demo_discovery_free : jget ["cluster"%string; "discovery"%string; "mode"%string] (JObj demo_profile_doc) = None /\
  jblocked ["cluster"%string; "discovery"%string; "mode"%string] (JObj demo_profile_doc) = false /\
  jget ["cluster"%string; "discovery"%string; "mode"%string] (JObj (demo_include_doc ∪ ∅)) = Some (JStr "etcd") /\
  jget ["cluster"%string; "mode"%string] (JObj demo_profile_doc) = Some (JStr "rabbitmq").
Proof. vm_compute. done. Qed.

Lemma Ok_inj {T} (a b : T) : Ok a = Ok b -> b = a.
Proof. by intros [= ->]. Qed.

Lemma LoadFile_overrides_witness :
  exists c merged, LoadFile profile_env "/srv/config/" "app.json" = Ok c /\ c = any_Wrap (JObj merged) /\
    jget ["cluster"%string; "mode"%string] (JObj merged) = Some (JStr "rabbitmq") /\
    jget ["cluster"%string; "discovery"%string; "mode"%string] (JObj merged) = Some (JStr "etcd").
Proof.
  pose proof demo_loads as Hok. destruct (LoadFile profile_env "/srv/config/" "app.json") as [c|] eqn:E; [|discriminate Hok].
  destruct (LoadFile_overrides profile_env "/srv/config/" "app.json" c E) as (profile & includes & merged & docs & Hp & -> & Hl & Hd & -> & Hwin & Hkeep).
  rewrite demo_read_profile in Hp. apply Ok_inj in Hp. subst profile. rewrite demo_includes in Hl, Hd.
  destruct docs as [|d [|]]; [discriminate Hl| |discriminate Hl].
  specialize (Hd 0%nat _ d eq_refl eq_refl). rewrite demo_read_include in Hd. apply Ok_inj in Hd. subst d.
  destruct demo_discovery_free as (H1 & H2 & H3 & H4).
  exists (any_Wrap (JObj merged)), merged. split; [reflexivity|]. split; [reflexivity|]. split; [exact (Hwin _ _ H4 eq_refl)|].
  rewrite (Hkeep _ H1 H2). exact H3.
Defined.

Definition init_demo (id : str) := Init profile_env no_regexp zero_cfg "config/app.json" id.

(** A node is found under the decimal form of its identifier, and not under the dotted form
    that it is started with. *)
Definition init_name (id : str) : str :=
  match snd (init_demo id) with Ok node => Config_GetString (pn_settings node) (PKey "node_name") [] | Err _ => EmptyString end.
Lemma dotted_node_id_not_found :
  init_name "1.10001.5.1" = "plain"%string /\
  is_ok (GetNodeWithConfig no_regexp (any_Wrap (JObj demo_profile_doc)) "1.10001.5.1" "5") = true.
Proof. split; vm_compute; reflexivity. Qed.

Lemma demo_profile_settings :
  let cfg := fst (init_demo "1.10001.5.1") in
  cf_env cfg = "dev"%string /\ cf_arrivalTimeOut cfg = 100 /\ cf_bigWorldId cfg = "1"%string /\
  DiscoveryMode cfg = Some "etcd"%string /\ PrintLogPath cfg = "./log//plain.1.10001.5.1/"%string.
Proof. vm_compute. done. Qed.
