(* ===== verification/Etcd.v ===== *)
(** Discovery over etcd (src/net/discovery/discovery_etcd.go): a node reads the keys of its
    environment, watches them, puts its own, and reads them again; what the watch delivers
    is added to and removed from the member table of [Discovery] by a goroutine that runs
    beside the loading.

    The store is the list of its changes, each one a revision. A watch delivers those that
    come after it was created, in order; etcd may end it. [exec_etcd] is one step of the
    nodes and the store. The client is the choices of the run: which request fails, and
    whether a request that fails has taken effect. The namespace that the code puts in
    front of all keys is transparent to it; keys are those inside it. *)
From stdpp Require Import sorting.
From S2P Require Import Prelude Strconv Facade Files Profile Discovery.

(** ** Keys *)

(** src/net/discovery/discovery_etcd.go:22-24, keyPrefix *)
Definition keyPrefix : str := "/actorgo/node/".

(** src/net/discovery/discovery_etcd.go:177-179, DiscoveryETCD.GetEnvKeyPrefix *)
Definition GetEnvKeyPrefix (env : str) : str := String.append keyPrefix (String.append env "/").

(** src/net/discovery/discovery_etcd.go:173-175, DiscoveryETCD.GetRisterKeyPrefix *)
Definition GetRisterKeyPrefix (env nodeId : str) : str := String.append keyPrefix (String.append env (String.append "/" nodeId)).

(** [strings.ReplaceAll s old ""]: [skip] characters of a match are still to pass. *)
Fixpoint remove_from (skip : nat) (old s : str) : str :=
  match s with
  | EmptyString => EmptyString
  | String a s' =>
      match skip with
      | S k => remove_from k old s'
      | O => if String.prefix old s then remove_from (String.length old - 1) old s' else String a (remove_from 0 old s')
      end
  end.
Definition remove_all (old s : str) : str := remove_from 0 old s.

(** ** The store *)

Inductive etcd_event := EvPut (key : str) (value : bytes) | EvDelete (key : str).

#[global] Instance etcd_event_eq_dec : EqDecision etcd_event.
Proof. solve_decision. Defined.

Definition ev_key (ev : etcd_event) : str := match ev with EvPut k _ | EvDelete k => k end.

Definition apply_ev (m : gmap str bytes) (ev : etcd_event) : gmap str bytes :=
  match ev with EvPut k v => <[k := v]> m | EvDelete k => delete k m end.

Definition store (log : list etcd_event) : gmap str bytes := foldl apply_ev ∅ log.

Definition str_le (a b : str) : Prop := String.leb a b = true.
#[global] Instance str_le_dec a b : Decision (str_le a b).
Proof. unfold str_le. apply _. Defined.

(** What [Get] with [WithPrefix] answers: the values in the order of their keys. *)
Definition Get_prefix (prefix : str) (m : gmap str bytes) : list bytes :=
  omap (fun k => m !! k) (merge_sort str_le (filter (fun k => String.prefix prefix k = true) (map_to_list m).*1)).

(** ** Configuration *)

(** src/net/discovery/discovery_etcd.go:28-36, DiscoveryETCD *)
Record etcd_config := mkEtcdConfig { ec_Endpoints : list str; ec_DialTimeout : Z; ec_Username : str; ec_Password : str; ec_ttl : Z; ec_prefix : str }.

Section Config.
Context `{A : AnyLib}.

Definition second_ns : Z := 1000000000.

(** src/net/discovery/discovery_etcd.go:96-103, getDialTimeout *)
Definition getDialTimeout (config : any) : Z :=
  let t := wrapS 64 (any_ToInt64 (any_Get config (PKey "dial_timeout_second")) * second_ns) in
  if t <? second_ns then 3 * second_ns else t.

(** src/net/discovery/discovery_etcd.go:105-107, getEndPoints *)
Definition getEndPoints (config : any) : list str := split_on "," (any_ToString (any_Get config (PKey "end_points"))).

(** src/net/discovery/discovery_etcd.go:109-121, DiscoveryETCD.loadConfig *)
Definition loadConfig (config : any) : etcd_config :=
  mkEtcdConfig (getEndPoints config) (getDialTimeout config) (Config_GetString config (PKey "user") [])
    (Config_GetString config (PKey "password") []) (Config_GetInt64 config (PKey "ttl") [5]) (Config_GetString config (PKey "prefix") ["actorgo"%string]).

(** What [Load] does before it talks to etcd: without a section there is no client and
    nothing else happens; without a connection the client is nil, and the first request
    through it panics. *)
Inductive load_start := NoConfig | NoClient | Connected (c : etcd_config).

(** src/net/discovery/discovery_etcd.go:60-75, DiscoveryETCD.Load *)
Definition Load_start (root : any) (connects : bool) : load_start :=
  let clusterConfig := Config_GetConfig (Config_GetConfig root (PKey "cluster")) (PKey "etcd") in
  match any_LastError clusterConfig with
  | Some _ => NoConfig
  | None => if connects then Connected (loadConfig clusterConfig) else NoClient
  end.
End Config.

(** ** Nodes *)

(** jsoniter on members. *)
Class MemberJson := { mj_marshal : Member -> option bytes; mj_unmarshal : bytes -> option Member }.

Fixpoint is_ascii (s : str) : bool := match s with EmptyString => true | String a s => (N_of_ascii a <? 128)%N && is_ascii s end.

Definition ascii_member (m : Member) : Prop :=
  is_ascii (NodeID m) = true /\ is_ascii (NodeType m) = true /\ is_ascii (Address m) = true /\
  map_Forall (fun k v => is_ascii k = true /\ is_ascii v = true) (Settings m).

(** A member whose strings are ASCII marshals, and the text gives it back. *)
Class MemberJsonLaws (J : MemberJson) : Prop := {
  mj_round : forall m, ascii_member m -> exists b, mj_marshal m = Some b /\ mj_unmarshal b = Some m }.

(** Where [Load] is: before a [Get] and in the loop over its answer (the flag says that it is
    the one after registering), before [Watch], before [Put], done, or without a client. *)
Inductive load_phase := LGet (again : bool) | LAdding (again : bool) (kvs : list bytes) | LWatch | LPut | LDone | LNoClient.

(** The application, the table, and the watch: the number of changes that it has delivered or
    passed over, and whether it is open. [en_logged]: a request of [Load] has failed.
    [en_from] and [en_loaded], which the code does not have, are the lengths of the store's
    list when the loading began and when it ended. *)
Record enode := mkEnode {
  en_app : Member; en_env : str; en_disc : DiscoveryDefault; en_phase : load_phase; en_watch : option nat; en_open : bool;
  en_logged : bool; en_from : nat; en_loaded : nat }.

Record enet := mkEnet { et_log : list etcd_event; et_nodes : gmap (str * str) enode }.

Definition set_enode (x : str * str) (n : enode) (s : enet) : enet := mkEnet (et_log s) (<[x := n]> (et_nodes s)).
Definition with_phase (p : load_phase) (n : enode) : enode :=
  mkEnode (en_app n) (en_env n) (en_disc n) p (en_watch n) (en_open n) (en_logged n) (en_from n) (en_loaded n).
Definition with_table (f : DiscoveryDefault -> DiscoveryDefault) (n : enode) : enode :=
  mkEnode (en_app n) (en_env n) (f (en_disc n)) (en_phase n) (en_watch n) (en_open n) (en_logged n) (en_from n) (en_loaded n).
Definition with_watch (w : option nat) (open : bool) (n : enode) : enode :=
  mkEnode (en_app n) (en_env n) (en_disc n) (en_phase n) w open (en_logged n) (en_from n) (en_loaded n).
Definition log_failure (n : enode) : enode :=
  mkEnode (en_app n) (en_env n) (en_disc n) (en_phase n) (en_watch n) (en_open n) true (en_from n) (en_loaded n).
Definition loaded_at (k : nat) (n : enode) : enode :=
  mkEnode (en_app n) (en_env n) (en_disc n) LDone (en_watch n) (en_open n) (en_logged n) (en_from n) k.

Section Etcd.
Context `{J : MemberJson}.

(** src/net/discovery/discovery_etcd.go:248-258, DiscoveryETCD.addMember *)
Definition addMember (data : bytes) (d : DiscoveryDefault) : DiscoveryDefault :=
  match mj_unmarshal data with None => d | Some member => AddMember member d end.

(** An empty identifier is only logged. *)
(** src/net/discovery/discovery_etcd.go:260-270, DiscoveryETCD.removeMember *)
Definition removeMember (env key : str) (d : DiscoveryDefault) : DiscoveryDefault := RemoveMember (remove_all (GetEnvKeyPrefix env) key) d.

(** The start of [Load]. *)
(** src/net/discovery/discovery_etcd.go:60-75, DiscoveryETCD.Load *)
Definition start_node (env : str) (app : Member) (l : load_start) (s : enet) : option enet :=
  match et_nodes s !! (env, NodeID app) with
  | Some _ => None
  | None =>
      let n phase := mkEnode app env (PreInit newDiscovery) phase None true false (length (et_log s)) 0 in
      Some (match l with
        | NoConfig => set_enode (env, NodeID app) (n LNoClient) s
        | NoClient => s
        | Connected _ => set_enode (env, NodeID app) (n (LGet false)) s
        end)
  end.

(** The request of [forceSync]; a failure leaves nothing to add. *)
(** src/net/discovery/discovery_etcd.go:207-220, DiscoveryETCD.forceSync *)
Definition forceSync_get (ok : bool) (n : enode) (s : enet) : option enode :=
  match en_phase n with
  | LGet again =>
      Some (if ok then with_phase (LAdding again (Get_prefix (GetEnvKeyPrefix (en_env n)) (store (et_log s)))) n
            else with_phase (LAdding again []) (log_failure n))
  | _ => None
  end.

(** One turn of its loop, or its end, after which [watch] goes on, or [Load] is done. *)
(** src/net/discovery/discovery_etcd.go:217-219, DiscoveryETCD.forceSync *)
Definition forceSync_add (n : enode) (s : enet) : option enode :=
  match en_phase n with
  | LAdding again (v :: kvs) => Some (with_phase (LAdding again kvs) (with_table (addMember v) n))
  | LAdding false [] => Some (with_phase LWatch n)
  | LAdding true [] => Some (loaded_at (length (et_log s)) n)
  | _ => None
  end.

(** The watch is created, and its goroutine started. *)
(** src/net/discovery/discovery_etcd.go:222-230, DiscoveryETCD.watch *)
Definition watch_create (n : enode) (s : enet) : option enode :=
  match en_phase n with
  | LWatch => Some (with_phase LPut (with_watch (Some (length (et_log s))) true n))
  | _ => None
  end.

(** One change reaches the goroutine. *)
(** src/net/discovery/discovery_etcd.go:231-245, DiscoveryETCD.watch *)
Definition watch_event (ev : etcd_event) (env : str) (d : DiscoveryDefault) : DiscoveryDefault :=
  if String.prefix (GetEnvKeyPrefix env) (ev_key ev) then
    match ev with EvPut _ v => addMember v d | EvDelete k => removeMember env k d end
  else d.

Definition watch_step (n : enode) (s : enet) : option enode :=
  w ← en_watch n;
  ev ← et_log s !! w;
  if en_open n then Some (with_watch (Some (S w)) true (with_table (watch_event ev (en_env n)) n)) else None.

(** src/net/discovery/discovery_etcd.go:182-188, DiscoveryETCD.register *)
Definition register_member (now : Z) (app : Member) : Member :=
  mkMember (NodeID app) (NodeType app) (Address app) {[ "create_time"%string := format_int 10 now ]}.

(** [ok]: the request is answered; [applied]: it has taken effect although it was not. *)
(** src/net/discovery/discovery_etcd.go:181-204, DiscoveryETCD.register *)
Definition register (now : Z) (ok applied : bool) (n : enode) (log : list etcd_event) : enode * list etcd_event :=
  match mj_marshal (register_member now (en_app n)) with
  | None => (log_failure n, log)
  | Some jsonString =>
      let key := GetRisterKeyPrefix (en_env n) (NodeID (en_app n)) in
      (if ok then n else log_failure n, if ok || applied then log ++ [EvPut key jsonString] else log)
  end.

(** [Load] goes on to the second [forceSync]. *)
Definition register_step (now : Z) (ok applied : bool) (x : str * str) (n : enode) (s : enet) : option enet :=
  match en_phase n with
  | LPut => let '(n, log) := register now ok applied n (et_log s) in Some (mkEnet log (<[x := with_phase (LGet true) n]> (et_nodes s)))
  | _ => None
  end.

(** Deleting a key that is not there changes nothing. *)
Definition etcd_delete (key : str) (log : list etcd_event) : list etcd_event :=
  match store log !! key with Some _ => log ++ [EvDelete key] | None => log end.

(** The process ends with the client closed, or by the panic of a nil client. *)
(** src/net/discovery/discovery_etcd.go:85-94, DiscoveryETCD.Stop *)
Definition Stop_etcd (ok applied : bool) (x : str * str) (n : enode) (s : enet) : option enet :=
  match en_phase n with
  | LDone =>
      let key := GetRisterKeyPrefix (en_env n) (NodeID (en_app n)) in
      Some (mkEnet (if ok || applied then etcd_delete key (et_log s) else et_log s) (delete x (et_nodes s)))
  | LNoClient => Some (mkEnet (et_log s) (delete x (et_nodes s)))
  | _ => None
  end.

Inductive etcd_action :=
| EStart (env : str) (app : Member) (l : load_start) | EGet (x : str * str) (ok : bool) | EAdd (x : str * str) | EWatch (x : str * str)
| EEvent (x : str * str) | EUnwatch (x : str * str) | ERegister (x : str * str) (now : Z) (ok applied : bool)
| EStop (x : str * str) (ok applied : bool) | ECrash (x : str * str).

Definition on_enode (x : str * str) (f : enode -> enet -> option enode) (s : enet) : option enet :=
  n ← et_nodes s !! x; n' ← f n s; Some (set_enode x n' s).

Definition exec_etcd (a : etcd_action) (s : enet) : option enet :=
  match a with
  | EStart env app l => start_node env app l s
  | EGet x ok => on_enode x (forceSync_get ok) s
  | EAdd x => on_enode x forceSync_add s
  | EWatch x => on_enode x watch_create s
  | EEvent x => on_enode x watch_step s
  | EUnwatch x => on_enode x (fun n _ => Some (with_watch (en_watch n) false n)) s
  | ERegister x now ok applied => n ← et_nodes s !! x; register_step now ok applied x n s
  | EStop x ok applied => n ← et_nodes s !! x; Stop_etcd ok applied x n s
  | ECrash x => _ ← et_nodes s !! x; Some (mkEnet (et_log s) (delete x (et_nodes s)))
  end.

Definition run_etcd (l : list etcd_action) (s : enet) : option enet := foldl (fun s a => s ≫= exec_etcd a) (Some s) l.

Definition empty_etcd : enet := mkEnet [] ∅.
End Etcd.
