(* ===== verification/EtcdInv.v ===== *)
(** What holds of the runs of [Etcd]: a node that has caught up with the store lists the
    nodes whose keys are there, as long as no key was deleted while it was loading; and runs
    in which the table stays wrong. *)
From stdpp Require Import sorting.
From S2P Require Import Prelude Strconv Facade Files Profile Discovery DiscoveryInv Etcd.
#[local] Set Warnings "-clear-no-such-hyp".

(** ** Keys and their prefixes *)

Lemma prefix_iff p s : String.prefix p s = true <-> exists t, s = String.append p t.
Proof.
  revert s. induction p as [|a p IH]; intros s; [split; [by exists s|by destruct s]|].
  destruct s as [|b s]; simpl; [split; [done|by intros [t ?]]|].
  destruct (ascii_dec a b) as [->|Hne].
  - rewrite IH. split; intros [t Ht]; exists t; [by rewrite Ht|by injection Ht].
  - split; [done|]. intros [t [= ? _]]. congruence.
Qed.

Lemma register_key_env env id : GetRisterKeyPrefix env id = String.append (GetEnvKeyPrefix env) id.
Proof. unfold GetRisterKeyPrefix, GetEnvKeyPrefix. rewrite <- !str_app_assoc. done. Qed.

Lemma first_part_inj e1 e2 t1 t2 : str_mem slash e1 = false -> str_mem slash e2 = false ->
  String.append e1 (String slash t1) = String.append e2 (String slash t2) -> e1 = e2 /\ t1 = t2.
Proof.
  revert e2. induction e1 as [|a e1 IH]; intros [|b e2]; cbn [str_mem String.append]; intros H1 H2 E.
  - by injection E.
  - injection E as <- _. by rewrite Ascii.eqb_refl in H2.
  - injection E as -> _. by rewrite Ascii.eqb_refl in H1.
  - apply orb_false_iff in H1 as [_ H1], H2 as [_ H2]. injection E as -> E. by destruct (IH e2 H1 H2 E) as [-> ->].
Qed.

(** The keys of one environment are those of its nodes. *)
Lemma env_prefix_iff env env' id : str_mem slash env = false -> str_mem slash env' = false ->
  String.prefix (GetEnvKeyPrefix env) (GetRisterKeyPrefix env' id) = true <-> env = env'.
Proof.
  intros H1 H2. rewrite prefix_iff. split.
  - intros [t E]. unfold GetRisterKeyPrefix, GetEnvKeyPrefix in E. rewrite <- str_app_assoc in E. apply str_append_inj in E.
    rewrite <- str_app_assoc in E. by destruct (first_part_inj env' env id t H2 H1 E).
  - intros <-. exists id. apply register_key_env.
Qed.

Lemma register_key_inj env env' id id' : str_mem slash env = false -> str_mem slash env' = false ->
  GetRisterKeyPrefix env id = GetRisterKeyPrefix env' id' -> env = env' /\ id = id'.
Proof. intros H1 H2 E. apply str_append_inj in E. by apply first_part_inj. Qed.

Lemma remove_from_skip p s old : remove_from (String.length p) old (String.append p s) = remove_from 0 old s.
Proof. induction p as [|a p IH]; simpl; [by destruct s|]. apply IH. Qed.

Lemma remove_from_none a old s : str_mem a s = false -> remove_from 0 (String a old) s = s.
Proof.
  induction s as [|b s IH]; cbn [str_mem remove_from]; [done|]. intros [Hb Hs]%orb_false_iff. cbn [String.prefix].
  destruct (ascii_dec a b) as [->|]; [by rewrite Ascii.eqb_refl in Hb|]. by rewrite (IH Hs).
Qed.

Lemma remove_from_prefix a p s : remove_from 0 (String a p) (String.append (String a p) s) = remove_from 0 (String a p) s.
Proof.
  rewrite str_app_cons. cbn [remove_from]. assert (Hp : String.prefix (String a p) (String a (String.append p s)) = true) by (apply prefix_iff; by exists s).
  rewrite Hp. cbn [String.length]. rewrite Nat.sub_succ, Nat.sub_0_r. apply remove_from_skip.
Qed.

(** What [removeMember] makes of a key. *)
Lemma remove_all_key env id : str_mem slash id = false -> remove_all (GetEnvKeyPrefix env) (GetRisterKeyPrefix env id) = id.
Proof.
  intros Hid. rewrite register_key_env. unfold remove_all.
  change (GetEnvKeyPrefix env) with (String slash (String.append "actorgo/node/" (String.append env "/"))).
  rewrite remove_from_prefix. by apply remove_from_none.
Qed.

(** ** The store *)

Lemma store_snoc log ev : store (log ++ [ev]) = apply_ev (store log) ev.
Proof. unfold store. by rewrite foldl_app. Qed.

Lemma store_take_S log w ev : log !! w = Some ev -> store (take (S w) log) = apply_ev (store (take w log)) ev.
Proof. intros H. by rewrite (take_S_r log w ev H), store_snoc. Qed.

Lemma apply_ev_lookup m ev k : apply_ev m ev !! k = if decide (ev_key ev = k) then match ev with EvPut _ v => Some v | EvDelete _ => None end else m !! k.
Proof. destruct ev as [j v|j]; simpl; destruct (decide (j = k)) as [->|]; [apply lookup_insert_eq|by apply lookup_insert_ne|apply lookup_delete_eq|by apply lookup_delete_ne]. Qed.

Definition del_free (log : list etcd_event) (a b : nat) (k : str) : Prop := forall i, (a <= i < b)%nat -> log !! i <> Some (EvDelete k).

Lemma del_free_sub log a b a' b' k : del_free log a b k -> (a <= a')%nat -> (b' <= b)%nat -> del_free log a' b' k.
Proof. intros H ? ? i Hi. apply H. lia. Qed.

(** Without deletions, a key stays. *)
Lemma store_stay log a b k : (a <= b)%nat -> del_free log a b k -> is_Some (store (take a log) !! k) -> is_Some (store (take b log) !! k).
Proof.
  intros Hab. induction Hab as [|b Hab IH]; [done|]. intros Hf Ha.
  specialize (IH (del_free_sub log a (S b) a b k Hf ltac:(lia) ltac:(lia)) Ha). destruct (log !! b) as [ev|] eqn:E.
  - rewrite (store_take_S log b ev E), apply_ev_lookup. destruct (decide (ev_key ev = k)) as [Hk|]; [|done].
    destruct ev as [j v|j]; [done|]. simpl in Hk. subst j. by destruct (Hf b ltac:(lia)).
  - rewrite take_ge by (apply lookup_ge_None in E; lia). rewrite take_ge in IH by (by apply lookup_ge_None in E). done.
Qed.

Lemma store_put log w b k v : log !! w = Some (EvPut k v) -> (w < b)%nat -> del_free log (S w) b k -> is_Some (store (take b log) !! k).
Proof.
  intros E Hb Hf. apply (store_stay log (S w) b k); [lia|done|]. rewrite (store_take_S log w _ E), apply_ev_lookup. simpl.
  by rewrite decide_True.
Qed.

Lemma store_mem log k v : store log !! k = Some v -> EvPut k v ∈ log.
Proof.
  induction log as [|ev log IH] using rev_ind; [change (store []) with (∅ : gmap str bytes); by rewrite lookup_empty|]. rewrite store_snoc, apply_ev_lookup, elem_of_app.
  destruct (decide (ev_key ev = k)) as [Hk|]; [|intros ?; left; by apply IH]. destruct ev as [j v'|j]; [|done]. simpl in Hk. subst j. intros [= ->]. right. by left.
Qed.

Lemma Get_prefix_in p m v : v ∈ Get_prefix p m <-> exists k, String.prefix p k = true /\ m !! k = Some v.
Proof.
  unfold Get_prefix. rewrite list_elem_of_omap. apply exist_proper. intros k.
  rewrite merge_sort_Permutation, list_elem_of_filter, list_elem_of_fmap. split; [naive_solver|].
  intros [Hp Hm]. split; [|done]. split; [done|]. exists (k, v). split; [done|]. by apply elem_of_map_to_list.
Qed.

(** ** Members are ASCII *)

Lemma is_ascii_list l : Forall (fun a => (N_of_ascii a <? 128)%N = true) l -> is_ascii (string_of_list_ascii l) = true.
Proof. induction 1 as [|a l Ha _ IH]; simpl; [done|]. by rewrite Ha, IH. Qed.

Lemma format_uint_ascii n : 0 <= n -> is_ascii (format_uint 10 n) = true.
Proof.
  intros Hn. unfold format_uint. apply is_ascii_list, list.Forall_forall. intros a Ha. apply list_elem_of_fmap in Ha as (d & -> & Hd).
  unfold uint_digits in Hd. apply list_elem_of_In, in_rev in Hd.
  pose proof (digits_le_range (digit_fuel n) 10 n ltac:(lia) Hn) as Hr. rewrite List.Forall_forall in Hr. specialize (Hr d Hd).
  unfold digit_char. rewrite (proj2 (Z.ltb_lt d 10)) by lia. rewrite N_ascii_embedding by lia. apply N.ltb_lt. lia.
Qed.

Lemma format_int_ascii n : is_ascii (format_int 10 n) = true.
Proof. unfold format_int. destruct (Z.ltb_spec n 0); [simpl|]; apply format_uint_ascii; lia. Qed.

(** ** The invariant *)

#[global] Instance load_phase_eq_dec : EqDecision load_phase.
Proof. solve_decision. Defined.

Section Inv.
Context `{J : MemberJson} {JL : MemberJsonLaws J}.

Definition slash_free (s : str) : Prop := str_mem slash s = false.

Lemma register_member_ascii now app : ascii_member app -> ascii_member (register_member now app).
Proof.
  intros (H1 & H2 & H3 & _). unfold ascii_member, register_member. cbn [NodeID NodeType Address Settings]. split_and!; try done.
  apply map_Forall_singleton. split; [done|]. apply format_int_ascii.
Qed.

(** The changes of the store are those that nodes make. *)
Definition ev_ok (ev : etcd_event) : Prop :=
  match ev with
  | EvPut k v => exists env m, slash_free env /\ slash_free (NodeID m) /\ k = GetRisterKeyPrefix env (NodeID m) /\ mj_unmarshal v = Some m
  | EvDelete k => exists env id, slash_free env /\ slash_free id /\ k = GetRisterKeyPrefix env id
  end.

Definition pending (p : load_phase) : list bytes := match p with LAdding _ kvs => kvs | _ => [] end.

(** In the table, or about to be added. *)
Definition listed (n : enode) (id : str) : Prop :=
  is_Some (dd_members (en_disc n) !! id) \/ exists v m, v ∈ pending (en_phase n) /\ mj_unmarshal v = Some m /\ NodeID m = id.

Definition own_key (n : enode) (id : str) : str := GetRisterKeyPrefix (en_env n) id.

(** How far the table can know the store, and when the loading has ended or how far it is. *)
Definition load_end (log : list etcd_event) (n : enode) : nat := match en_phase n with LDone => en_loaded n | _ => length log end.
Definition known (log : list etcd_event) (n : enode) : nat :=
  match en_phase n with LDone => Nat.max (default 0%nat (en_watch n)) (en_loaded n) | _ => length log end.

(** No node left with this identifier while the node was loading. *)
Definition quiet (log : list etcd_event) (n : enode) (id : str) : Prop := del_free log (en_from n) (load_end log n) (own_key n id).

Definition second_read (n : enode) : Prop :=
  en_logged n = false /\ match en_phase n with LAdding true _ | LDone => True | _ => False end.
Definition registered (n : enode) : Prop :=
  en_logged n = false /\ match en_phase n with LGet true | LAdding true _ | LDone => True | _ => False end.

Definition from_store (log : list etcd_event) (n : enode) (v : bytes) : Prop :=
  exists id m, EvPut (own_key n id) v ∈ log /\ mj_unmarshal v = Some m /\ NodeID m = id /\ slash_free id.

Record node_inv (log : list etcd_event) (n : enode) : Prop := mkNodeInv {
  ni_app : slash_free (en_env n) /\ slash_free (NodeID (en_app n)) /\ ascii_member (en_app n);
  ni_from : (en_from n <= length log)%nat;
  ni_watch : forall w, en_watch n = Some w -> (en_from n <= w <= length log)%nat;
  ni_done : en_phase n = LDone -> (en_from n <= en_loaded n <= length log)%nat;
  ni_src : forall id m, dd_members (en_disc n) !! id = Some m -> NodeID m = id /\ exists v, EvPut (own_key n id) v ∈ log /\ mj_unmarshal v = Some m;
  ni_pend : Forall (from_store log n) (pending (en_phase n));
  ni_sound : forall id, slash_free id -> quiet log n id -> listed n id -> is_Some (store (take (known log n) log) !! own_key n id);
  ni_full : forall id w, slash_free id -> quiet log n id -> second_read n -> en_watch n = Some w ->
    is_Some (store (take w log) !! own_key n id) -> listed n id;
  ni_watching : match en_phase n with LPut | LGet true | LAdding true _ | LDone => is_Some (en_watch n) | _ => True end }.

Record etcd_inv (s : enet) : Prop := mkEtcdInv {
  ei_log : Forall ev_ok (et_log s);
  ei_key : forall x n, et_nodes s !! x = Some n -> x = (en_env n, NodeID (en_app n));
  ei_node : forall x n, et_nodes s !! x = Some n -> node_inv (et_log s) n;
  ei_reg : forall x n, et_nodes s !! x = Some n -> registered n -> is_Some (store (et_log s) !! own_key n (NodeID (en_app n))) }.

(** A value under a key of the environment is the member of that key. *)
Lemma put_member log env id v : Forall ev_ok log -> slash_free env -> EvPut (GetRisterKeyPrefix env id) v ∈ log ->
  exists m, mj_unmarshal v = Some m /\ NodeID m = id /\ slash_free id.
Proof.
  intros Hl He Hin. rewrite list.Forall_forall in Hl. destruct (Hl _ Hin) as (env' & m & He' & Hm & Hk & Hv).
  apply register_key_inj in Hk as [_ ->]; [|done..]. by exists m.
Qed.

Lemma from_store_grow log n v ev : from_store log n v -> from_store (log ++ [ev]) n v.
Proof. intros (id & m & H & ?). exists id, m. split; [|done]. apply elem_of_app. by left. Qed.

Lemma known_le log n : node_inv log n -> (known log n <= length log)%nat.
Proof.
  intros I. unfold known. destruct (en_phase n) eqn:E; try done. destruct (ni_done _ _ I E) as [_ ?].
  destruct (en_watch n) as [w|] eqn:Ew; simpl; [pose proof (ni_watch _ _ I w Ew)|]; lia.
Qed.

Lemma load_end_known log n : (load_end log n <= known log n)%nat.
Proof. unfold load_end, known. destruct (en_phase n); lia. Qed.

Lemma quiet_shrink log n ev id : node_inv log n -> quiet (log ++ [ev]) n id -> quiet log n id.
Proof.
  intros I Hq i Hi E. assert (Hlt : (i < length log)%nat) by (by eapply lookup_lt_Some).
  apply (Hq i); [|by rewrite lookup_app_l]. unfold load_end in *. rewrite length_app. destruct (en_phase n); simpl in *; lia.
Qed.

(** A change of the store that is not the node's doing. *)
Lemma node_inv_grow log n ev : node_inv log n -> node_inv (log ++ [ev]) n.
Proof.
  intros I. pose proof (known_le log n I) as Hk. split.
  - apply I.
  - rewrite length_app. pose proof (ni_from _ _ I). lia.
  - intros w Hw. rewrite length_app. pose proof (ni_watch _ _ I w Hw). lia.
  - intros Hd. rewrite length_app. pose proof (ni_done _ _ I Hd). lia.
  - intros id m Hm. destruct (ni_src _ _ I id m Hm) as (? & v & ? & ?). split; [done|]. exists v. split; [|done]. apply elem_of_app. by left.
  - eapply list.Forall_impl; [apply (ni_pend _ _ I)|]. intros v. apply from_store_grow.
  - intros id Hs Hq Hl. pose proof (ni_sound _ _ I id Hs (quiet_shrink log n ev id I Hq) Hl) as H.
    assert (Ht : take (known log n) (log ++ [ev]) = take (known log n) log) by (by apply take_app_le).
    apply (store_stay _ (known log n)); [| |by rewrite Ht].
    + unfold known. rewrite length_app. destruct (en_phase n); lia.
    + unfold known, quiet, load_end in *. destruct (en_phase n); try (apply (del_free_sub _ _ _ _ _ _ Hq); [apply I|lia]). intros i Hi. lia.
  - intros id w Hs Hq H2 Hw H. pose proof (ni_watch _ _ I w Hw). rewrite take_app_le in H by lia.
    apply (ni_full _ _ I id w); try done. by apply (quiet_shrink log n ev).
  - apply I.
Qed.

(** *** Steps of one node *)

Lemma store_all log n id : is_Some (store (take (length log) log) !! own_key n id) <-> is_Some (store log !! own_key n id).
Proof. by rewrite firstn_all. Qed.

Lemma Get_prefix_from log n v : Forall ev_ok log -> slash_free (en_env n) -> v ∈ Get_prefix (GetEnvKeyPrefix (en_env n)) (store log) ->
  exists id m, store log !! own_key n id = Some v /\ mj_unmarshal v = Some m /\ NodeID m = id /\ slash_free id.
Proof.
  intros Hl He (k & Hp & Hk)%Get_prefix_in. pose proof (store_mem log k v Hk) as Hin. pose proof Hl as Hl2. rewrite list.Forall_forall in Hl2.
  destruct (Hl2 _ Hin) as (env' & m & He' & Hm & -> & Hv). apply env_prefix_iff in Hp as <-; [|done..]. by exists (NodeID m), m.
Qed.

Lemma step_get log n again : Forall ev_ok log -> en_phase n = LGet again -> node_inv log n ->
  node_inv log (with_phase (LAdding again (Get_prefix (GetEnvKeyPrefix (en_env n)) (store log))) n).
Proof.
  intros Hl Ep I. destruct (ni_app _ _ I) as (He & _). split; try apply I.
  - done.
  - apply list.Forall_forall. intros v Hv. destruct (Get_prefix_from log n v Hl He Hv) as (id & m & Hk & Hu & Hn & Hs).
    exists id, m. split; [by apply store_mem|done].
  - intros id Hs Hq Hi. unfold known. cbn [en_phase with_phase]. apply store_all. destruct Hi as [Hi|(v & m & Hv & Hu & <-)].
    + pose proof (ni_sound _ _ I id Hs) as H. unfold known, quiet, load_end in H. rewrite Ep in H. apply store_all. apply H; [done|by left].
    + destruct (Get_prefix_from log n v Hl He Hv) as (id & m2 & Hk & Hu2 & Hn & _). exists v. change (store log !! own_key n (NodeID m) = Some v). congruence.
  - intros id w Hs Hq H2 Hw Ha. right. pose proof (ni_watch _ _ I w Hw) as Hb.
    unfold quiet, load_end in Hq. cbn [en_phase en_from with_phase] in Hq.
    apply (store_stay log w (length log)) in Ha; [|lia|apply (del_free_sub _ _ _ _ _ _ Hq); [lia|done]]. rewrite firstn_all in Ha. destruct Ha as [v Hv].
    change (store log !! own_key n id = Some v) in Hv.
    destruct (put_member log (en_env n) id v Hl He (store_mem log _ v Hv)) as (m & Hu & Hn & _). exists v, m. split; [|done].
    cbn [en_phase with_phase pending]. apply Get_prefix_in. exists (own_key n id). split; [|done]. apply prefix_iff. exists id. apply register_key_env.
  - pose proof (ni_watching _ _ I) as H. rewrite Ep in H. by destruct again.
Qed.

(** A step that leaves the table and the pending values where they are, between two points
    of the loading. *)
Lemma step_phase log n n' :
  (forall p, en_phase n' = p -> p <> LDone /\ pending p = []) -> en_phase n <> LDone ->
  en_app n' = en_app n -> en_env n' = en_env n -> en_disc n' = en_disc n -> en_from n' = en_from n ->
  (forall w, en_watch n' = Some w -> (en_from n <= w <= length log)%nat) ->
  (second_read n' -> False) ->
  match en_phase n' with LPut | LGet true | LAdding true _ | LDone => is_Some (en_watch n') | _ => True end ->
  node_inv log n -> node_inv log n'.
Proof.
  intros Hp Hnd Ha He Hd Hf Hw H2 Hws I. destruct (Hp _ eq_refl) as [Hn1 Hn2]. unfold own_key, from_store in *.
  assert (El : load_end log n' = load_end log n) by (unfold load_end; by destruct (en_phase n), (en_phase n')).
  assert (Ek : known log n' = known log n) by (unfold known; by destruct (en_phase n), (en_phase n')).
  split; rewrite ?Ha, ?He, ?Hf; try apply I.
  - done.
  - done.
  - unfold own_key. rewrite Hd, He. apply I.
  - rewrite Hn2. constructor.
  - unfold own_key, quiet, listed. rewrite Ek, El, He, Hf, Hd, Hn2. intros id Hs Hq Hl. apply (ni_sound _ _ I id Hs).
    + unfold quiet, own_key in *. by rewrite He in Hq.
    + destruct Hl as [Hl|(v & m & Hv & _)]; [by left|by apply not_elem_of_nil in Hv].
  - intros id w _ _ H. by destruct (H2 H).
  - done.
Qed.

Lemma addMember_listed v d id : is_Some (dd_members (addMember v d) !! id) <->
  is_Some (dd_members d !! id) \/ exists m, mj_unmarshal v = Some m /\ NodeID m = id.
Proof.
  unfold addMember. destruct (mj_unmarshal v) as [m|]; [rewrite AddMember_is_Some|]; naive_solver.
Qed.

Lemma add_listed again v kvs n id : en_phase n = LAdding again (v :: kvs) ->
  listed (with_phase (LAdding again kvs) (with_table (addMember v) n)) id <-> listed n id.
Proof.
  intros Ep. unfold listed. rewrite Ep. cbn [en_phase en_disc with_phase with_table pending]. rewrite addMember_listed. setoid_rewrite elem_of_cons. naive_solver.
Qed.

Lemma add_src log n v d : from_store log n v ->
  (forall id m, dd_members d !! id = Some m -> NodeID m = id /\ exists v, EvPut (own_key n id) v ∈ log /\ mj_unmarshal v = Some m) ->
  forall id m, dd_members (addMember v d) !! id = Some m -> NodeID m = id /\ exists v, EvPut (own_key n id) v ∈ log /\ mj_unmarshal v = Some m.
Proof.
  intros (i & x & Hin & Hu & <- & _) H id m. unfold addMember. rewrite Hu, AddMember_lookup. intros [?|(_ & -> & ->)]; [by apply H|].
  split; [done|]. by exists v.
Qed.

Lemma step_add log n again v kvs : en_phase n = LAdding again (v :: kvs) -> node_inv log n ->
  node_inv log (with_phase (LAdding again kvs) (with_table (addMember v) n)).
Proof.
  intros Ep I. pose proof (ni_pend _ _ I) as Hpend. rewrite Ep in Hpend. apply list.Forall_cons in Hpend as [Hv Hkvs]. split; try apply I.
  - done.
  - by apply add_src, I.
  - done.
  - intros id Hs Hq Hl. apply (add_listed again v kvs n id Ep) in Hl. pose proof (ni_sound _ _ I id Hs) as H.
    unfold known, quiet, load_end in *. rewrite Ep in H. by apply H.
  - intros id w Hs Hq H2 Hw Ha. apply (add_listed again v kvs n id Ep). apply (ni_full _ _ I id w); try done.
    + unfold quiet, load_end in *. by rewrite Ep.
    + unfold second_read in *. by rewrite Ep.
  - pose proof (ni_watching _ _ I) as H. rewrite Ep in H. by destruct again.
Qed.

Lemma step_loaded log n : en_phase n = LAdding true [] -> node_inv log n -> node_inv log (loaded_at (length log) n).
Proof.
  intros Ep I. assert (Ekn : known log (loaded_at (length log) n) = known log n).
  { unfold known. cbn [en_phase loaded_at en_watch en_loaded]. rewrite Ep. destruct (en_watch n) as [w|] eqn:Ew; simpl; [pose proof (ni_watch _ _ I w Ew)|]; lia. }
  assert (Ee : load_end log (loaded_at (length log) n) = load_end log n) by (unfold load_end; by rewrite Ep).
  assert (Hl : forall id, listed (loaded_at (length log) n) id -> listed n id).
  { intros id [H|(v & m & Hv & _)]; [by left|]. by apply not_elem_of_nil in Hv. }
  split; try apply I.
  - intros _. split; [apply I|done].
  - constructor.
  - intros id Hs Hq Hi. rewrite Ekn. apply (ni_sound _ _ I id Hs); [|by apply Hl]. unfold quiet in *. by rewrite Ee in Hq.
  - intros id w Hs Hq H2 Hw Ha. destruct (ni_full _ _ I id w Hs) as [H|(v & m & Hv & _)]; try done.
    + unfold quiet in *. by rewrite Ee in Hq.
    + destruct H2 as [H2 _]. split; [exact H2|]. by rewrite Ep.
    + by left.
    + rewrite Ep in Hv. by apply not_elem_of_nil in Hv.
  - pose proof (ni_watching _ _ I) as H. by rewrite Ep in H.
Qed.

Definition is_put (ev : etcd_event) : Prop := match ev with EvPut _ _ => True | EvDelete _ => False end.

(** What a change does to the table of a node, and to nobody else's entry. *)
Lemma event_members log n ev id : Forall ev_ok log -> ev ∈ log -> slash_free (en_env n) -> slash_free id ->
  is_Some (dd_members (watch_event ev (en_env n) (en_disc n)) !! id) <->
  if decide (ev_key ev = own_key n id) then is_put ev else is_Some (dd_members (en_disc n) !! id).
Proof.
  intros Hl Hin He Hid. rewrite list.Forall_forall in Hl. pose proof (Hl _ Hin) as Hev. unfold watch_event. destruct ev as [k v|k]; cbn [ev_key is_put].
  - destruct Hev as (env' & m & He' & Hm & -> & Hu). destruct (String.prefix _ _) eqn:Ep.
    + apply env_prefix_iff in Ep as <-; [|done..]. rewrite addMember_listed, Hu. unfold own_key. destruct (decide _) as [Hk|Hk].
      * apply register_key_inj in Hk as [_ <-]; [|done..]. split; [done|]. intros _. right. by exists m.
      * split; [|by left]. intros [?|(? & [= <-] & <-)]; done.
    + destruct (decide _) as [Hk|]; [|done]. apply register_key_inj in Hk as [-> _]; [|done..].
      assert (Hp : String.prefix (GetEnvKeyPrefix (en_env n)) (GetRisterKeyPrefix (en_env n) (NodeID m)) = true) by by apply env_prefix_iff. congruence.
  - destruct Hev as (env' & i & He' & Hi & ->). destruct (String.prefix _ _) eqn:Ep.
    + apply env_prefix_iff in Ep as <-; [|done..]. unfold removeMember, own_key. rewrite remove_all_key by done.
      unfold RemoveMember. destruct (decide _) as [Hk|Hk].
      * apply register_key_inj in Hk as [_ ->]; [|done..]. destruct (dd_members (en_disc n) !! id) eqn:E; simpl; [rewrite lookup_delete_eq|rewrite E]; by split; [intros []|].
      * destruct (dd_members (en_disc n) !! i) eqn:E; simpl; [|done]. rewrite lookup_delete_ne; [done|]. intros ->. done.
    + destruct (decide _) as [Hk|]; [|done]. apply register_key_inj in Hk as [-> _]; [|done..].
      assert (Hp : String.prefix (GetEnvKeyPrefix (en_env n)) (GetRisterKeyPrefix (en_env n) i) = true) by by apply env_prefix_iff. congruence.
Qed.

Lemma event_src log n ev : Forall ev_ok log -> ev ∈ log -> node_inv log n ->
  forall id m, dd_members (watch_event ev (en_env n) (en_disc n)) !! id = Some m ->
    NodeID m = id /\ exists v, EvPut (own_key n id) v ∈ log /\ mj_unmarshal v = Some m.
Proof.
  intros Hl Hin I. destruct (ni_app _ _ I) as (He & _). pose proof (ni_src _ _ I) as Hsrc. unfold watch_event. destruct (String.prefix _ _) eqn:Ep; [|done].
  pose proof Hl as Hl2. rewrite list.Forall_forall in Hl2. destruct ev as [k v|k]; cbn [ev_key] in Ep.
  - destruct (Hl2 _ Hin) as (env' & m & He' & Hm & -> & Hu). apply env_prefix_iff in Ep as <-; [|done..].
    apply add_src; [|done]. by exists (NodeID m), m.
  - intros id m. unfold removeMember, RemoveMember. destruct (dd_members (en_disc n) !! _); [|by apply Hsrc].
    simpl. rewrite lookup_delete_Some. intros [_ ?]. by apply Hsrc.
Qed.

(** How the two bounds move when a change is handled. *)
Lemma known_event log n w f : en_watch n = Some w ->
  known log (with_watch (Some (S w)) true (with_table f n)) =
  if decide (en_phase n = LDone /\ (en_loaded n <= w)%nat) then S w else known log n.
Proof.
  intros Ew. unfold known. cbn [en_phase with_watch with_table en_watch en_loaded]. rewrite Ew. simpl.
  destruct (decide _) as [[-> ?]|Hn]; [lia|]. destruct (en_phase n) eqn:Ep; try done. destruct (decide (en_loaded n <= w)%nat); [by destruct Hn|lia].
Qed.

Lemma quiet_event log n w f id : quiet log (with_watch (Some (S w)) true (with_table f n)) id <-> quiet log n id.
Proof. done. Qed.

(** A quiet identifier is deleted only once the loading is over. *)
Lemma quiet_delete log n w id : node_inv log n -> en_watch n = Some w -> log !! w = Some (EvDelete (own_key n id)) -> quiet log n id ->
  en_phase n = LDone /\ (en_loaded n <= w)%nat.
Proof.
  intros I Ew E Hq. pose proof (ni_watch _ _ I w Ew) as Hw. assert (Hlt : (w < length log)%nat) by (by eapply lookup_lt_Some).
  unfold quiet, load_end in Hq. destruct (decide (en_phase n = LDone)) as [Hd|Hd].
  - split; [done|]. rewrite Hd in Hq. destruct (decide (en_loaded n <= w)%nat); [done|]. destruct (Hq w); [lia|done].
  - destruct (en_phase n) eqn:Ep; try done; by destruct (Hq w); [lia|].
Qed.

Lemma step_event_sound log n w ev : Forall ev_ok log -> en_watch n = Some w -> log !! w = Some ev -> node_inv log n ->
  let n' := with_watch (Some (S w)) true (with_table (watch_event ev (en_env n)) n) in
  forall id, slash_free id -> quiet log n id -> listed n' id -> is_Some (store (take (known log n') log) !! own_key n id).
Proof.
  intros Hl Ew E I n' id Hs Hq Hi. destruct (ni_app _ _ I) as (He & _). pose proof (ni_watch _ _ I w Ew) as Hw.
  assert (Hin : ev ∈ log) by (by eapply list_elem_of_lookup_2). assert (Hlt : (w < length log)%nat) by (by eapply lookup_lt_Some).
  pose proof (event_members log n ev id Hl Hin He Hs) as Hm. unfold n'. rewrite (known_event log n w _ Ew).
  destruct (decide (ev_key ev = own_key n id)) as [Hk|Hk].
  - destruct ev as [k v|k]; simpl in Hk, Hm; subst k.
    + destruct (decide (en_phase n = LDone /\ (en_loaded n <= w)%nat)) as [_|Hc].
      * apply (store_put log w (S w) (own_key n id) v); [done|lia|]. intros i ?. lia.
      * assert (Hkn : (S w <= known log n)%nat /\ (known log n <= load_end log n)%nat).
        { unfold known, load_end. rewrite Ew. simpl. destruct (en_phase n) eqn:Ep; try (lia). destruct (decide (en_loaded n <= w)%nat); [by destruct Hc|lia]. }
        apply (store_put log w (known log n) (own_key n id) v); [done|lia|]. apply (del_free_sub _ _ _ _ _ _ Hq); lia.
    + destruct (quiet_delete log n w id I Ew E Hq) as [Hd _]. destruct Hi as [Hi|(v & m & Hv & _)].
      * by apply Hm in Hi.
      * change (v ∈ pending (en_phase n)) in Hv. rewrite Hd in Hv. by apply not_elem_of_nil in Hv.
  - assert (Hi' : listed n id) by (destruct Hi as [Hi|Hi]; [left; by apply Hm|by right]).
    pose proof (ni_sound _ _ I id Hs Hq Hi') as H. destruct (decide _) as [[Hd Hc]|_]; [|done].
    rewrite (store_take_S log w ev E), apply_ev_lookup, decide_False by done. unfold known in H. rewrite Hd, Ew in H. simpl in H.
    by rewrite Nat.max_l in H by lia.
Qed.

Lemma step_event log n w ev : Forall ev_ok log -> en_watch n = Some w -> log !! w = Some ev -> node_inv log n ->
  node_inv log (with_watch (Some (S w)) true (with_table (watch_event ev (en_env n)) n)).
Proof.
  intros Hl Ew E I. destruct (ni_app _ _ I) as (He & _). pose proof (ni_watch _ _ I w Ew) as Hw.
  assert (Hin : ev ∈ log) by (by eapply list_elem_of_lookup_2). assert (Hlt : (w < length log)%nat) by (by eapply lookup_lt_Some).
  split; try apply I.
  - intros w' [= <-]. cbn [en_from with_watch with_table]. lia.
  - exact (event_src log n ev Hl Hin I).
  - intros id Hs Hq Hi. by apply (step_event_sound log n w ev).
  - intros id w' Hs Hq H2 [= <-] Ha. change (own_key _ id) with (own_key n id) in Ha.
    pose proof (event_members log n ev id Hl Hin He Hs) as Hm. rewrite (store_take_S log w ev E), apply_ev_lookup in Ha.
    destruct (decide (ev_key ev = own_key n id)) as [Hk|Hk].
    + left. apply Hm. destruct ev; [done|]. by destruct Ha.
    + destruct (ni_full _ _ I id w Hs Hq H2 Ew Ha) as [H|H]; [left; by apply Hm|by right].
  - cbn [en_phase en_watch with_watch with_table]. destruct (en_phase n) as [[]|[]| | | |]; done.
Qed.

(** *** Runs *)

(** Identifiers and environments hold no slash, and what a member says is ASCII. *)
Definition plain_action (a : etcd_action) : Prop :=
  match a with EStart env app _ => slash_free env /\ slash_free (NodeID app) /\ ascii_member app | _ => True end.

Definition etcd_reach (s : enet) : Prop := exists l, Forall plain_action l /\ run_etcd l empty_etcd = Some s.

Lemma fresh_inv log env app p : slash_free env -> slash_free (NodeID app) -> ascii_member app -> p = LNoClient \/ p = LGet false ->
  node_inv log (mkEnode app env (PreInit newDiscovery) p None true false (length log) 0).
Proof.
  intros He Ha Hm Hp. assert (Hn : forall id, ~ listed (mkEnode app env (PreInit newDiscovery) p None true false (length log) 0) id).
  { intros id [[x Hx]|(v & m & Hv & _)]; [change ((∅ : gmap str Member) !! id = Some x) in Hx; by rewrite lookup_empty in Hx|]. destruct Hp as [-> | ->]; by apply not_elem_of_nil in Hv. }
  split; try done.
  - by destruct Hp as [-> | ->].
  - destruct Hp as [-> | ->]; constructor.
  - intros id _ _ Hl. by destruct (Hn id).
  - by destruct Hp as [-> | ->].
Qed.

Lemma set_inv s x n n' : etcd_inv s -> et_nodes s !! x = Some n -> en_env n' = en_env n -> en_app n' = en_app n ->
  node_inv (et_log s) n' -> (registered n' -> registered n) -> etcd_inv (set_enode x n' s).
Proof.
  intros I Hx He Ha Hn Hr. pose proof (ei_key _ I x n Hx) as Hk. split; cbn [et_log et_nodes set_enode]; [apply I| | |];
    intros y m; rewrite lookup_insert_Some; intros [[<- <-]|[_ Hm]]; try by (apply (ei_key _ I) || apply (ei_node _ I y) || apply (ei_reg _ I y)).
  - by rewrite He, Ha.
  - done.
  - intros Hreg. unfold own_key. rewrite He, Ha. by apply (ei_reg _ I x n), Hr.
Qed.

(** A change that deletes no key of a registered node. *)
Lemma grow_inv log nodes ev : ev_ok ev -> etcd_inv (mkEnet log nodes) ->
  (forall x n, nodes !! x = Some n -> ev <> EvDelete (own_key n (NodeID (en_app n)))) -> etcd_inv (mkEnet (log ++ [ev]) nodes).
Proof.
  intros Hev I Hd. split; cbn [et_log et_nodes].
  - apply Forall_app. split; [apply I|by constructor].
  - apply I.
  - intros x n Hx. apply node_inv_grow. by apply (ei_node _ I x).
  - intros x n Hx Hr. rewrite store_snoc, apply_ev_lookup. destruct (decide _) as [Hk|_]; [|by apply (ei_reg _ I x)].
    destruct ev as [k v|k]; [done|]. simpl in Hk. subst k. by destruct (Hd x n Hx).
Qed.

Lemma etcd_drop_inv log nodes x : etcd_inv (mkEnet log nodes) -> etcd_inv (mkEnet log (delete x nodes)).
Proof. intros I. split; cbn [et_log et_nodes]; [apply I| | |]; intros y n [_ Hy]%lookup_delete_Some;
    by (apply (ei_key _ I) || apply (ei_node _ I y) || apply (ei_reg _ I y)). Qed.

Lemma etcd_start_inv env app l s s' : plain_action (EStart env app l) -> etcd_inv s -> start_node env app l s = Some s' -> etcd_inv s'.
Proof.
  intros (He & Ha & Hm) I. unfold start_node. destruct (et_nodes s !! (env, NodeID app)) eqn:Ex; [done|]. cbv zeta.
  assert (H : forall p, p = LNoClient \/ p = LGet false ->
    etcd_inv (set_enode (env, NodeID app) (mkEnode app env (PreInit newDiscovery) p None true false (length (et_log s)) 0) s)).
  { intros p Hp. split; cbn [et_log et_nodes set_enode]; [apply I| | |]; intros y n; rewrite lookup_insert_Some; intros [[<- <-]|[_ Hy]]; try by (apply (ei_key _ I) || apply (ei_node _ I y) || apply (ei_reg _ I y)).
    - done.
    - by apply fresh_inv.
    - intros [_ Hr]. by destruct Hp as [-> | ->]. }
  destruct l; intros [= <-]; [apply H; by left|done|apply H; by right].
Qed.

Lemma etcd_register_inv now ok applied x n s s' : etcd_inv s -> et_nodes s !! x = Some n ->
  register_step now ok applied x n s = Some s' -> etcd_inv s'.
Proof.
  intros I Hx. unfold register_step. destruct (en_phase n) eqn:Ep; try done. pose proof (ei_node _ I x n Hx) as In.
  destruct (ni_app _ _ In) as (He & Ha & Hm).
  destruct (mj_round _ (register_member_ascii now (en_app n) Hm)) as (b & Hb & Hu). unfold register. rewrite Hb. intros [= <-].
  assert (Hev : ev_ok (EvPut (GetRisterKeyPrefix (en_env n) (NodeID (en_app n))) b)) by (by exists (en_env n), (register_member now (en_app n))).
  assert (Ig : etcd_inv (mkEnet (et_log s ++ [EvPut (GetRisterKeyPrefix (en_env n) (NodeID (en_app n))) b]) (et_nodes s))).
  { apply grow_inv; [done|destruct s; exact I|done]. }
  assert (Hphase : forall log n0, en_app n0 = en_app n -> en_env n0 = en_env n -> en_disc n0 = en_disc n -> en_from n0 = en_from n -> en_watch n0 = en_watch n ->
    node_inv log n -> node_inv log (with_phase (LGet true) n0)).
  { intros log n0 E1 E2 E3 E4 E5 I0. apply (step_phase log n); try done; cbn [en_watch en_phase with_phase]; rewrite ?E5.
    - by intros p <-.
    - by rewrite Ep.
    - apply I0.
    - by intros [_ []].
    - pose proof (ni_watching _ _ I0) as H. by rewrite Ep in H. }
  destruct ok; simpl.
  - split; cbn [et_log et_nodes]; [apply Ig| | |]; intros y m; rewrite lookup_insert_Some; intros [[<- <-]|[_ Hy]].
    + exact (ei_key _ I x n Hx).
    + by apply (ei_key _ I).
    + apply Hphase; try done. by apply (ei_node _ Ig x).
    + by apply (ei_node _ Ig y).
    + intros _. rewrite store_snoc, apply_ev_lookup. by rewrite decide_True.
    + by apply (ei_reg _ Ig y).
  - apply (set_inv (mkEnet (if applied then _ else et_log s) (et_nodes s)) x n); try done.
    + destruct applied; [exact Ig|by destruct s].
    + apply Hphase; try done. destruct applied; [by apply (ei_node _ Ig x)|done].
    + by intros [? _].
Qed.

Lemma stop_inv ok applied x n s s' : etcd_inv s -> et_nodes s !! x = Some n -> Stop_etcd ok applied x n s = Some s' -> etcd_inv s'.
Proof.
  intros I Hx. unfold Stop_etcd. destruct (ni_app _ _ (ei_node _ I x n Hx)) as (He & Ha & _). pose proof (ei_key _ I x n Hx) as Hk.
  assert (Id : etcd_inv (mkEnet (et_log s) (delete x (et_nodes s)))) by (apply etcd_drop_inv; by destruct s).
  destruct (en_phase n); try done; intros [= <-]; [|done]. destruct (ok || applied); [|done].
  unfold etcd_delete. destruct (store (et_log s) !! _); [|done]. apply grow_inv; [by exists (en_env n), (NodeID (en_app n))|done|].
  intros y m [Hne Hy]%lookup_delete_Some E. apply (f_equal ev_key) in E. cbn [ev_key] in E. destruct (ni_app _ _ (ei_node _ I y m Hy)) as (He' & _).
  apply register_key_inj in E as [E1 E2]; [|done..]. apply Hne. rewrite (ei_key _ I y m Hy), Hk. by rewrite E1, E2.
Qed.

Lemma exec_etcd_inv a s s' : plain_action a -> etcd_inv s -> exec_etcd a s = Some s' -> etcd_inv s'.
Proof.
  intros Ha I. destruct a as [env app l|x ok|x|x|x|x|x now ok applied|x ok applied|x]; cbn [exec_etcd]; [by apply etcd_start_inv| | | | | | | |];
    unfold on_enode; destruct (et_nodes s !! x) as [n|] eqn:Hx; cbn [mbind option_bind]; try done; pose proof (ei_node _ I x n Hx) as In.
  - unfold forceSync_get. destruct (en_phase n) as [again| | | | |] eqn:Ep; try done. destruct ok; intros [= <-]; apply (set_inv s x n); try done.
    + apply step_get; [apply I|done..].
    + unfold registered. by rewrite Ep.
    + apply (step_phase _ n); try done; cbn [en_phase en_watch with_phase log_failure]; [by intros p <-|by rewrite Ep|apply In|by intros [? _]|].
      pose proof (ni_watching _ _ In) as H. rewrite Ep in H. by destruct again.
    + by intros [? _].
  - unfold forceSync_add. destruct (en_phase n) as [|again [|v kvs]| | | |] eqn:Ep; try done.
    + destruct again; intros [= <-]; apply (set_inv s x n); try done; [by apply step_loaded|unfold registered; by rewrite Ep| |by intros [_ []]].
      apply (step_phase _ n); try done; [by intros p <-|by rewrite Ep|apply In|by intros [_ []]].
    + destruct again; intros [= <-]; apply (set_inv s x n); try done; first [by eapply step_add|by unfold registered; rewrite Ep].
  - unfold watch_create. destruct (en_phase n) eqn:Ep; try done. intros [= <-]. apply (set_inv s x n); try done; [|by intros [_ []]].
    apply (step_phase _ n); try done; [by intros p <-|by rewrite Ep| |by intros [_ []]|by eexists]. intros w [= <-]. split; [apply In|done].
  - unfold watch_step. destruct (en_watch n) as [w|] eqn:Ew; cbn [mbind option_bind]; [|done]. destruct (et_log s !! w) as [ev|] eqn:E; cbn [mbind option_bind]; [|done].
    destruct (en_open n); [|done]. intros [= <-]. apply (set_inv s x n); try done. apply (step_event _ n w ev); try done. apply I.
  - intros [= <-]. apply (set_inv s x n); try done. by destruct In.
  - by apply etcd_register_inv.
  - by apply stop_inv.
  - intros [= <-]. apply etcd_drop_inv. by destruct s.
Qed.

Lemma empty_etcd_inv : etcd_inv empty_etcd.
Proof. split; cbn [et_log et_nodes empty_etcd]; [constructor| | |]; intros x n; by rewrite lookup_empty. Qed.

Lemma run_etcd_cons a l s : run_etcd (a :: l) s = exec_etcd a s ≫= run_etcd l.
Proof.
  unfold run_etcd. cbn [foldl mbind option_bind]. destruct (exec_etcd a s) as [s'|]; cbn [mbind option_bind]; [done|]. by induction l.
Qed.

Lemma run_etcd_inv l s s' : Forall plain_action l -> etcd_inv s -> run_etcd l s = Some s' -> etcd_inv s'.
Proof.
  intros Hl. revert s. induction Hl as [|a l Ha _ IH]; intros s I; [by intros [= <-]|]. rewrite run_etcd_cons.
  destruct (exec_etcd a s) as [s1|] eqn:E; cbn [mbind option_bind]; [|done]. apply IH. by apply (exec_etcd_inv a s).
Qed.

Lemma etcd_reach_inv s : etcd_reach s -> etcd_inv s.
Proof. intros (l & Hl & E). apply (run_etcd_inv l empty_etcd s Hl empty_etcd_inv E). Qed.

(** ** A node that has caught up *)

Lemma run_repeat k x s n w : et_nodes s !! x = Some n -> en_open n = true -> en_watch n = Some w -> (w + k = length (et_log s))%nat ->
  exists n', run_etcd (repeat (EEvent x) k) s = Some (mkEnet (et_log s) (<[x := n']> (et_nodes s))) /\
    en_watch n' = Some (length (et_log s)) /\ en_phase n' = en_phase n /\ en_logged n' = en_logged n /\ en_from n' = en_from n /\
    en_loaded n' = en_loaded n /\ en_env n' = en_env n /\ en_app n' = en_app n.
Proof.
  revert s n w. induction k as [|k IH]; intros s n w Hx Ho Hw Hk.
  - exists n. cbn [repeat]. rewrite insert_id by done. rewrite Nat.add_0_r in Hk. subst w. split; [by destruct s|done].
  - cbn [repeat]. rewrite run_etcd_cons. cbn [exec_etcd]. unfold on_enode. rewrite Hx. cbn [mbind option_bind].
    unfold watch_step. rewrite Hw, Ho. cbn [mbind option_bind]. destruct (lookup_lt_is_Some_2 (et_log s) w ltac:(lia)) as [ev Hev]. rewrite Hev. cbn [mbind option_bind].
    destruct (IH (set_enode x (with_watch (Some (S w)) true (with_table (watch_event ev (en_env n)) n)) s)
      (with_watch (Some (S w)) true (with_table (watch_event ev (en_env n)) n)) (S w)) as (n' & Hr & H1 & H2 & H3 & H4 & H5 & H6 & H7); try done.
    + apply lookup_insert_eq.
    + cbn [et_log set_enode]. lia.
    + exists n'. split; [|done]. rewrite Hr. cbn [et_log et_nodes set_enode]. by rewrite insert_insert_eq.
Qed.

Lemma etcd_quiet_same log n n' id : en_phase n' = en_phase n -> en_from n' = en_from n -> en_loaded n' = en_loaded n -> en_env n' = en_env n ->
  quiet log n id -> quiet log n' id.
Proof. unfold quiet, load_end, own_key. by intros -> -> -> ->. Qed.

(** C28: a node whose loading has ended without a failed request, and whose watch is open,
    needs no more than the changes that its watch has still to deliver. After them its
    table lists exactly the identifiers whose keys etcd has, and among them every node of
    its environment that has registered, with a member that was put under that key: for
    every identifier of which no key was deleted while the node was loading. Environments
    and identifiers have no slash in them, which the code does not check (in the statement,
    and for every node that starts, [plain_action]), and members are ASCII. *)
Theorem etcd_settles (s : enet) (x : str * str) (n : enode) :
  etcd_reach s -> et_nodes s !! x = Some n -> en_phase n = LDone -> en_logged n = false -> en_open n = true ->
  exists w n', en_watch n = Some w /\ (w <= length (et_log s))%nat /\
    run_etcd (repeat (EEvent x) (length (et_log s) - w)) s = Some (mkEnet (et_log s) (<[x := n']> (et_nodes s))) /\
    (forall id, slash_free id -> quiet (et_log s) n id ->
      is_Some (dd_members (en_disc n') !! id) <-> is_Some (store (et_log s) !! own_key n id)) /\
    (forall y m, et_nodes s !! y = Some m -> registered m -> en_env m = en_env n -> quiet (et_log s) n (NodeID (en_app m)) ->
      is_Some (dd_members (en_disc n') !! NodeID (en_app m))) /\
    (forall id m, dd_members (en_disc n') !! id = Some m ->
      NodeID m = id /\ exists v, EvPut (own_key n id) v ∈ et_log s /\ mj_unmarshal v = Some m).
Proof.
  intros R Hx Hd Hlog Ho. pose proof (etcd_reach_inv s R) as I. pose proof (ei_node _ I x n Hx) as In.
  pose proof (ni_watching _ _ In) as Hw. rewrite Hd in Hw. destruct Hw as [w Hw]. pose proof (ni_watch _ _ In w Hw) as Hle.
  destruct (run_repeat (length (et_log s) - w) x s n w Hx Ho Hw ltac:(lia)) as (n' & Hr & H1 & H2 & H3 & H4 & H5 & H6 & H7).
  exists w, n'. split; [done|]. split; [lia|]. split; [done|].
  assert (I' : etcd_inv (mkEnet (et_log s) (<[x := n']> (et_nodes s)))).
  { apply (run_etcd_inv (repeat (EEvent x) (length (et_log s) - w)) s); try done. generalize (length (et_log s) - w)%nat. intros k. induction k; by constructor. }
  assert (In' : node_inv (et_log s) n') by (apply (ei_node _ I' x); cbn [et_nodes]; apply lookup_insert_eq).
  assert (Hk : known (et_log s) n' = length (et_log s)).
  { unfold known. rewrite H2, Hd, H1, H5. simpl. pose proof (ni_done _ _ In Hd). lia. }
  assert (Hp : pending (en_phase n') = []) by (by rewrite H2, Hd).
  assert (Hiff : forall id, slash_free id -> quiet (et_log s) n id -> is_Some (dd_members (en_disc n') !! id) <-> is_Some (store (et_log s) !! own_key n id)).
  { intros id Hs Hq. apply (etcd_quiet_same _ n n') in Hq; try done. assert (Ek : own_key n' id = own_key n id) by (unfold own_key; by rewrite H6). split.
    - intros Hm. pose proof (ni_sound _ _ In' id Hs Hq (or_introl Hm)) as H. by rewrite Hk, firstn_all, Ek in H.
    - intros Hst. destruct (ni_full _ _ In' id (length (et_log s)) Hs Hq) as [Hm|(v & m & Hv & _)]; try done.
      + split; [by rewrite H3|by rewrite H2, Hd].
      + by rewrite firstn_all, Ek.
      + rewrite Hp in Hv. by apply not_elem_of_nil in Hv. }
  split; [exact Hiff|]. split.
  - intros y m Hy Hreg He Hq. apply Hiff; [by apply (ni_app _ _ (ei_node _ I y m Hy))|done|].
    pose proof (ei_reg _ I y m Hy Hreg) as Hst. unfold own_key in *. by rewrite <- He.
  - intros id m Hm. pose proof (ni_src _ _ In' id m Hm) as Hs. unfold own_key in *. by rewrite H6 in Hs.
Qed.
End Inv.

(** ** Runs *)

#[global] Instance toy_json : MemberJson := {| mj_marshal := mp_marshal; mj_unmarshal := mp_unmarshal |}.
#[global] Instance toy_json_laws : MemberJsonLaws toy_json.
Proof. split. intros m _. eexists. split; [reflexivity|]. by apply mp_member. Qed.

Definition demo_conf : load_start := Connected (mkEtcdConfig ["127.0.0.1:2379"%string] 3000000000 EmptyString EmptyString 5 "actorgo").

(** A node that loads without anybody else in between; it finds [k] keys, and [j] when it
    has put its own. *)
Definition load_alone (m : Member) (k j : nat) : list etcd_action :=
  let x := ("dev"%string, NodeID m) in
  [EStart "dev" m demo_conf; EGet x true] ++ repeat (EAdd x) (S k) ++ [EWatch x; ERegister x 1700000000 true true; EGet x true] ++ repeat (EAdd x) (S j).

Definition etcd_default (l : list etcd_action) : enet := default empty_etcd (run_etcd l empty_etcd).

(** Every node with the identifiers in its table and what its watch has still to deliver;
    and the keys of the store. *)
Definition etcd_view (l : list etcd_action) : list (str * list str * nat) * list str :=
  let s := etcd_default l in
  ((fun kv => (kv.1.2, (map_to_list (dd_members (en_disc kv.2))).*1, (length (et_log s) - default 0%nat (en_watch kv.2))%nat)) <$> map_to_list (et_nodes s),
   (map_to_list (store (et_log s))).*1).

Definition xa : str * str := ("dev"%string, "10001"%string).
Definition xb : str * str := ("dev"%string, "10002"%string).

Lemma two_nodes_load : etcd_view (load_alone member_a 0 1 ++ load_alone member_b 1 2 ++ [EEvent xa; EEvent xa; EEvent xb]) =
  ([("10001"%string, ["10001"%string; "10002"%string], 0%nat); ("10002"%string, ["10001"%string; "10002"%string], 0%nat)],
   ["/actorgo/node/dev/10001"%string; "/actorgo/node/dev/10002"%string]).
Proof. vm_compute. reflexivity. Qed.

Definition demo_loaded : enet := etcd_default (load_alone member_a 0 1 ++ load_alone member_b 1 2).

Lemma ascii_plain_member id t addr : is_ascii id = true -> is_ascii t = true -> is_ascii addr = true -> ascii_member (mkMember id t addr ∅).
Proof. intros H1 H2 H3. by split_and!. Qed.

Lemma load_alone_plain m k j : slash_free (NodeID m) -> ascii_member m -> Forall plain_action (load_alone m k j).
Proof.
  intros Hs Hm. assert (Hr : forall i, Forall plain_action (repeat (EAdd ("dev"%string, NodeID m)) i)) by (intros i; induction i; by constructor).
  unfold load_alone. apply Forall_app_2; [by constructor; [|constructor]|]. apply Forall_app_2; [apply Hr|].
  apply Forall_app_2; [by repeat constructor|apply Hr].
Qed.

Lemma etcd_default_reach l : Forall plain_action l -> is_Some (run_etcd l empty_etcd) -> etcd_reach (etcd_default l).
Proof. intros Hl [s E]. exists l. unfold etcd_default. by rewrite E. Qed.

Lemma demo_loaded_runs : match run_etcd (load_alone member_a 0 1 ++ load_alone member_b 1 2) empty_etcd with Some _ => true | None => false end = true.
Proof. vm_compute. reflexivity. Qed.

Lemma demo_loaded_reach : etcd_reach demo_loaded.
Proof.
  apply etcd_default_reach.
  - apply Forall_app_2; apply load_alone_plain; try done; by apply ascii_plain_member.
  - pose proof demo_loaded_runs as H. destruct (run_etcd _ _); [by eexists|done].
Qed.

Lemma demo_loaded_facts :
  match et_nodes demo_loaded !! xa, et_nodes demo_loaded !! xb with
  | Some a, Some b => (en_phase a, en_logged a, NodeID (en_app a), en_phase b, en_logged b, en_open b, en_watch b, bool_decide (en_env a = en_env b)) =
      (LDone, false, "10001"%string, LDone, false, true, Some 1%nat, true)
  | _, _ => False
  end /\ length (et_log demo_loaded) = 2%nat /\ forallb (fun ev => match ev with EvPut _ _ => true | _ => false end) (et_log demo_loaded) = true.
Proof. vm_compute. repeat split. Qed.

Lemma puts_quiet log n id : forallb (fun ev => match ev with EvPut _ _ => true | _ => false end) log = true -> quiet log n id.
Proof. intros H i _ E. rewrite forallb_forall in H. apply list_elem_of_lookup_2, list_elem_of_In, H in E. done. Qed.

Lemma etcd_settles_witness :
  exists s n n', etcd_reach s /\ et_nodes s !! xb = Some n /\ en_watch n = Some 1%nat /\
    run_etcd [EEvent xb] s = Some (mkEnet (et_log s) (<[xb := n']> (et_nodes s))) /\ is_Some (dd_members (en_disc n') !! "10001"%string).
Proof.
  exists demo_loaded. generalize demo_loaded_facts, demo_loaded_reach. generalize demo_loaded. intros s [H [Hl Hf]] R.
  destruct (et_nodes s !! xa) as [a|] eqn:Ea; [|contradiction]. destruct (et_nodes s !! xb) as [b|] eqn:Eb; [|contradiction].
  injection H as Ha1 Ha2 Ha3 Hb1 Hb2 Hb3 Hb4 He. apply bool_decide_eq_true_1 in He.
  destruct (etcd_settles s xb b R Eb Hb1 Hb2 Hb3) as (w & n' & Hw & Hle & Hr & _ & Hreg & _). exists b, n'.
  rewrite Hb4 in Hw. injection Hw as <-. rewrite Hl in Hr.
  split; [exact R|]. split; [reflexivity|]. split; [exact Hb4|]. split; [exact Hr|].
  rewrite <- Ha3. apply (Hreg xa a Ea); [split; [exact Ha2|by rewrite Ha1]|exact He|by apply puts_quiet].
Defined.

(** *** Tables that stay wrong *)

(** The key of 10001 is deleted after 10002 has read it and before its watch is created:
    nothing tells 10002, and the second read only adds. *)
Lemma delete_before_watch_missed :
  etcd_view (load_alone member_a 0 1 ++ [EStart "dev" member_b demo_conf; EGet xb true; EAdd xb; EAdd xb; EStop xa true true; EWatch xb;
    ERegister xb 1700000000 true true; EGet xb true; EAdd xb; EAdd xb; EEvent xb]) =
  ([("10002"%string, ["10001"%string; "10002"%string], 0%nat)], ["/actorgo/node/dev/10002"%string]).
Proof. vm_compute. reflexivity. Qed.

(** 10001 leaves after the second read of 10002: its removal is handled at once, and the loop
    over the answer adds it again. *)
Lemma second_read_adds_gone_node :
  etcd_view (load_alone member_a 0 1 ++ [EStart "dev" member_b demo_conf; EGet xb true; EAdd xb; EAdd xb; EWatch xb;
    ERegister xb 1700000000 true true; EGet xb true; EStop xa true true; EEvent xb; EEvent xb; EAdd xb; EAdd xb; EAdd xb]) =
  ([("10002"%string, ["10001"%string; "10002"%string], 0%nat)], ["/actorgo/node/dev/10002"%string]).
Proof. vm_compute. reflexivity. Qed.

(** The key has no lease: a node that dies is listed by everybody, by those too that start
    after it. *)
Lemma dead_node_keeps_key :
  etcd_view (load_alone member_a 0 1 ++ [ECrash xa] ++ load_alone member_b 1 2 ++ [EEvent xb]) =
  ([("10002"%string, ["10001"%string; "10002"%string], 0%nat)], ["/actorgo/node/dev/10001"%string; "/actorgo/node/dev/10002"%string]).
Proof. vm_compute. reflexivity. Qed.

(** 10001 comes back at another address: its key is overwritten, and the table of 10002 keeps
    the old one. *)
Definition member_a_moved : Member := mkMember "10001" "gate" "10.0.0.7:80" ∅.
Definition address_of (l : list etcd_action) (x : str * str) (id : str) : option str :=
  n ← et_nodes (etcd_default l) !! x; Address <$> dd_members (en_disc n) !! id.
Lemma moved_node_keeps_old_address :
  let run := load_alone member_a 0 1 ++ load_alone member_b 1 2 ++ [ECrash xa] ++ load_alone member_a_moved 2 2 ++ [EEvent xb; EEvent xb] in
  address_of run xb "10001" = Some "10.0.0.1:80"%string /\ address_of run xa "10001" = Some "10.0.0.1:80"%string /\
  fst (etcd_view run) = [("10001"%string, ["10001"%string; "10002"%string], 1%nat); ("10002"%string, ["10001"%string; "10002"%string], 0%nat)].
Proof. vm_compute. done. Qed.
