(* ===== verification/Helpers.v ===== *)
(** Helpers: letters, emptiness and nil (src/extend/utils), the rest of src/extend/string,
    slices (src/extend/slice) and the limit of src/extend/sync.

    A Go value is [goval], as far as [reflect] looks at it. Results of slice functions are
    lists: what a result shares with the array of an argument is not modelled. Loops that
    need not end take fuel. *)
From S2P Require Import Prelude Strconv Facade Files.
#[local] Set Warnings "-register-all".

(** ** Letters and numbers *)

Definition in_bytes (lo hi b : ascii) : bool := (N_of_ascii lo <=? N_of_ascii b)%N && (N_of_ascii b <=? N_of_ascii hi)%N.

(** src/extend/utils/utils_letter.go:5-10, IsLetterUpper *)
Definition IsLetterUpper (b : ascii) : bool := in_bytes "A" "Z" b.
(** src/extend/utils/utils_letter.go:13-18, IsLetterLower *)
Definition IsLetterLower (b : ascii) : bool := in_bytes "a" "z" b.
(** src/extend/utils/utils_letter.go:21-23, IsLetter *)
Definition IsLetter (b : ascii) : bool := IsLetterUpper b || IsLetterLower b.

(** The loop from byte [i] on; [first] says that [i] is 0. *)
(** src/extend/utils/utils_letter.go:32-46, IsNumeric *)
Fixpoint numeric_from (first : bool) (s : str) : bool :=
  match s with
  | EmptyString => true
  | String b s =>
      if Ascii.eqb b "-" && first then numeric_from false s
      else if Ascii.eqb b "." then
        if negb first && negb (String.eqb s EmptyString) then numeric_from false s else false
      else if in_bytes "0" "9" b then numeric_from false s else false
  end.

(** src/extend/utils/utils_letter.go:27-48, IsNumeric *)
Definition IsNumeric (s : str) : bool := match s with EmptyString => false | _ => numeric_from true s end.

(** src/extend/utils/utils_letter.go:51-59, UcFirst *)
Definition UcFirst (s : str) : str :=
  match s with
  | EmptyString => s
  | String b r => if IsLetterLower b then String (ascii_of_N (N_of_ascii b - 32)) r else s
  end.

(** ** Values *)

(** What the kinds of [reflect] see. A number is kept as its being zero; a channel, map,
    slice and function by its being nil and its length. [GIface] is a field of interface
    type. *)
Inductive goval :=
| GNil | GBool (b : bool) | GNum (zero : bool) | GStr (s : str) | GSlice (isnil : bool) (len : nat) | GArray (len : nat)
| GMap (isnil : bool) (len : nat) | GChan (isnil : bool) (len : nat) | GFunc (isnil : bool) | GUnsafe (isnil : bool)
| GPtr (target : option goval) | GIface (dynamic : option goval) | GStruct (fields : list goval).

(** src/extend/utils/utils_empty.go:9-110, IsEmpty *)
Fixpoint IsEmpty (value : goval) : bool :=
  match value with
  | GNil => true
  | GBool val => negb val
  | GNum zero => zero
  | GStr val => String.eqb val EmptyString
  | GSlice _ len | GArray len | GMap _ len | GChan _ len => (len =? 0)%nat
  | GStruct fields => forallb IsEmpty fields
  | GFunc isnil | GUnsafe isnil => isnil
  | GPtr target => match target with None => true | Some _ => false end
  | GIface dynamic => match dynamic with None => true | Some _ => false end
  end.

(** A pointer that points to pointers is followed to its end. *)
(** src/extend/utils/utils_empty.go:137-146, IsNil *)
Fixpoint trace_source (value : goval) : bool :=
  match value with
  | GPtr None => true
  | GPtr (Some v) => trace_source v
  | _ => false
  end.

(** src/extend/utils/utils_empty.go:117-152, IsNil *)
Definition IsNil (value : goval) (traceSource : list bool) : bool :=
  match value with
  | GNil => true
  | GChan isnil _ | GMap isnil _ | GSlice isnil _ | GFunc isnil | GUnsafe isnil => isnil
  | GIface dynamic => match dynamic with None => true | Some _ => false end
  | GPtr target =>
      match traceSource with
      | true :: _ => trace_source value
      | _ => match target with None => true | Some _ => false end
      end
  | _ => false
  end.

(** ** Strings *)

(** The first rune of a string as its bytes, and the rest: a byte that starts no UTF-8
    sequence is a rune of its own, U+FFFD. *)
Definition cont (b : ascii) : bool := in_bytes (ascii_of_N 128) (ascii_of_N 191) b.
Definition replacement : str := String (ascii_of_N 239) (String (ascii_of_N 191) (String (ascii_of_N 189) EmptyString)).
Definition second_ok (b b1 : N) : bool :=
  (if b =? 224 then (160 <=? b1) && (b1 <=? 191) else if b =? 237 then (128 <=? b1) && (b1 <=? 159)
   else if b =? 240 then (144 <=? b1) && (b1 <=? 191) else if b =? 244 then (128 <=? b1) && (b1 <=? 143) else (128 <=? b1) && (b1 <=? 191))%N.

(** [[]rune(s)], each rune as its text. *)
Fixpoint runes (s : str) : list str :=
  match s with
  | EmptyString => []
  | String a s1 =>
      let b := N_of_ascii a in
      if (b <? 128)%N then char_str a :: runes s1
      else match s1 with
      | String a1 s2 =>
          let ok1 := second_ok b (N_of_ascii a1) in
          if ((194 <=? b) && (b <=? 223))%N && ok1 then String a (char_str a1) :: runes s2
          else match s2 with
          | String a2 s3 =>
              if ((224 <=? b) && (b <=? 239))%N && ok1 && cont a2 then String a (String a1 (char_str a2)) :: runes s3
              else match s3 with
              | String a3 s4 =>
                  if ((240 <=? b) && (b <=? 244))%N && ok1 && cont a2 && cont a3 then String a (String a1 (String a2 (char_str a3))) :: runes s4
                  else replacement :: runes s1
              | EmptyString => replacement :: runes s1
              end
          | EmptyString => replacement :: runes s1
          end
      | EmptyString => [replacement]
      end
  end.

(** [strings.LastIndex], in bytes; -1 when there is none. *)
Fixpoint LastIndex (s sub : str) : Z :=
  match s with
  | EmptyString => if String.eqb sub EmptyString then 0 else -1
  | String _ s' =>
      let i := LastIndex s' sub in
      if 0 <=? i then i + 1 else if String.prefix sub s then 0 else -1
  end.

Definition concat_str (l : list str) : str := foldr String.append EmptyString l.

(** [None]: the bounds of the slice are out of range. *)
(** src/extend/string/string.go:12-26, CutLastString *)
Definition CutLastString (text beginChar endChar : str) : option str :=
  if String.eqb text EmptyString || String.eqb beginChar EmptyString || String.eqb endChar EmptyString then Some EmptyString
  else
    let textRune := runes text in
    let len := Z.of_nat (length textRune) in
    let beginIndex := LastIndex text beginChar in
    let endIndex := LastIndex text endChar in
    let endIndex := if (endIndex <? 0) || (endIndex <? beginIndex) then len else endIndex in
    if (beginIndex + 1 <=? endIndex) && (endIndex <=? len)
    then Some (concat_str (take (Z.to_nat (endIndex - (beginIndex + 1))) (drop (Z.to_nat (beginIndex + 1)) textRune)))
    else None.

(** src/extend/string/string.go:28-30, IsBlank *)
Definition IsBlank (value : str) : bool := String.eqb value EmptyString.
(** src/extend/string/string.go:32-34, IsNotBlank *)
Definition IsNotBlank (value : str) : bool := negb (String.eqb value EmptyString).
(** src/extend/string/string.go:47-50, ToUintD *)
Definition ToUintD (value : str) (def : list Z) : Z := fst (ToUint value def).
(** src/extend/string/string.go:63-66, ToIntD *)
Definition ToIntD (value : str) (def : list Z) : Z := fst (ToInt value def).
(** src/extend/string/string.go:95-98, ToInt64D *)
Definition ToInt64D (value : str) (def : list Z) : Z := fst (ToInt64 value def).
(** src/extend/string/string.go:111-114, ToUint64D *)
Definition ToUint64D (value : str) (def : list Z) : Z := fst (ToUint64 value def).

(** [strings.Split] by a separator that is not empty: the part before the next one, in
    reverse, is [acc]; [skip] bytes of a separator are still to pass. *)
Fixpoint split_from (skip : nat) (sep s acc : str) : list str :=
  match s with
  | EmptyString => [acc]
  | String a s' =>
      match skip with
      | S k => split_from k sep s' acc
      | O => if String.prefix sep s then acc :: split_from (String.length sep - 1) sep s' EmptyString
             else split_from 0 sep s' (String.append acc (char_str a))
      end
  end.
Definition Split (s sep : str) : list str := if String.eqb sep EmptyString then runes s else split_from 0 sep s EmptyString.

(** [None]: a negative index. *)
(** src/extend/string/string.go:157-163, SplitIndex *)
Definition SplitIndex (s sep : str) (index : Z) : option (str * bool) :=
  let ret := Split s sep in
  if Z.of_nat (length ret) <=? index then Some (EmptyString, false)
  else if index <? 0 then None else Some (default EmptyString (ret !! Z.to_nat index), true).

(** ** Slices *)

Section Slices.
(** Values that [==] compares; comparing others panics, and is left out. *)
Context {A : Type} `{EqDecision A}.

Definition index_of (v : A) (sl : list A) : Z * bool :=
  match list_find (fun x => x = v) sl with Some (i, _) => (Z.of_nat i, true) | None => (0, false) end.

(** src/extend/slice/slice.go:41-43, InInterface *)
Definition InInterface (v : A) (sl : list A) : bool := bool_decide (v ∈ sl).

(** src/extend/slice/slice.go:60-63, Merge *)
Definition slice_Merge (slice1 slice2 : list A) : list A := slice1 ++ slice2.

(** src/extend/slice/slice.go:66-71, Reduce *)
Fixpoint Reduce {B} (slice : list A) (a : A -> B) : list B :=
  match slice with [] => [] | v :: slice => a v :: Reduce slice a end.

(** [Intn] panics on 0. *)
(** src/extend/slice/slice.go:74-78, Rand *)
Definition slice_Rand (Intn : nat -> nat) (a : list A) : option A :=
  match a with [] => None | _ => a !! Intn (length a) end.

(** src/extend/slice/slice.go:89-96, Filter *)
Fixpoint Filter (slice : list A) (a : A -> bool) : list A :=
  match slice with [] => [] | v :: slice => if a v then v :: Filter slice a else Filter slice a end.

(** src/extend/slice/slice.go:99-106, Diff *)
Fixpoint Diff (slice1 slice2 : list A) : list A :=
  match slice1 with [] => [] | v :: slice1 => if negb (InInterface v slice2) then v :: Diff slice1 slice2 else Diff slice1 slice2 end.

(** src/extend/slice/slice.go:109-116, Intersect *)
Fixpoint Intersect (slice1 slice2 : list A) : list A :=
  match slice1 with [] => [] | v :: slice1 => if InInterface v slice2 then v :: Intersect slice1 slice2 else Intersect slice1 slice2 end.

(** How a loop ends: with a result, by a panic, or not within the fuel. *)
Inductive loop_end (T : Type) := Ended (r : T) | Panicked | Running.
Arguments Ended {T} r. Arguments Panicked {T}. Arguments Running {T}.

(** [slice[lo:hi]] within the length. *)
Definition subslice (slice : list A) (lo hi : Z) : option (list A) :=
  if (0 <=? lo) && (lo <=? hi) && (hi <=? Z.of_nat (length slice)) then Some (take (Z.to_nat (hi - lo)) (drop (Z.to_nat lo) slice)) else None.

(** src/extend/slice/slice.go:124-128, Chunk *)
Fixpoint chunk_loop (fuel : nat) (slice : list A) (size i stop : Z) (chunkSlice : list (list A)) : loop_end (list (list A)) :=
  if i <=? Z.of_nat (length slice) - size then
    match fuel with
    | O => Running
    | S fuel =>
        match subslice slice i stop with
        | None => Panicked
        | Some c => chunk_loop fuel slice size (i + size) (stop + size) (chunkSlice ++ [c])
        end
    end
  else Ended chunkSlice.

(** src/extend/slice/slice.go:119-130, Chunk *)
Definition Chunk (fuel : nat) (slice : list A) (size : Z) : loop_end (list (list A)) :=
  if Z.of_nat (length slice) <=? size then Ended [slice] else chunk_loop fuel slice size 0 size [].

(** The condition reads the length that the body changes. *)
(** src/extend/slice/slice.go:145-147, Pad *)
Fixpoint pad_loop (fuel : nat) (slice : list A) (size i : Z) (val : A) : list A :=
  match fuel with
  | O => slice
  | S fuel => if i <? size - Z.of_nat (length slice) then pad_loop fuel (slice ++ [val]) size (i + 1) val else slice
  end.

(** Enough turns: each makes the slice longer. *)
(** src/extend/slice/slice.go:141-149, Pad *)
Definition Pad (slice : list A) (size : Z) (val : A) : list A :=
  if size <=? Z.of_nat (length slice) then slice else pad_loop (Z.to_nat (size - Z.of_nat (length slice))) slice size 0 val.

(** [order]: how [range] meets the keys, which are the elements. *)
(** src/extend/slice/slice.go:151-167, Uniques *)
Definition Uniques (slices : list (list A)) (order : list A) : Prop := NoDup order /\ forall t, t ∈ order <-> t ∈ concat slices.

(** One swap of the loop. *)
(** src/extend/slice/slice.go:175-182, Shuffle *)
Fixpoint Shuffle (turns : nat) (Intn : nat -> nat * nat) (slice : list A) : list A :=
  match turns with
  | O => slice
  | S turns =>
      let '(a, b) := Intn turns in
      match slice !! a, slice !! b with
      | Some x, Some y => Shuffle turns Intn (<[a := y]> (<[b := x]> slice))
      | _, _ => Shuffle turns Intn slice
      end
  end.
End Slices.
Arguments Ended {T} r. Arguments Panicked {T}. Arguments Running {T}.

(** src/extend/slice/slice.go:14-19, Int32In *)
Definition Int32In (v : Z) (sl : list Z) : Z * bool := index_of v sl.
(** src/extend/slice/slice.go:21-26, Int64In *)
Definition Int64In (v : Z) (sl : list Z) : Z * bool := index_of v sl.
(** src/extend/slice/slice.go:36-38, StringInSlice *)
Definition StringInSlice (v : str) (sl : list str) : bool := bool_decide (v ∈ sl).

(** [Perm]: a permutation of the numbers below its argument. [None]: it panics on a negative
    number, which the length of a range that is too wide becomes. *)
(** src/extend/slice/slice.go:46-57, RandList *)
Definition RandList (Perm : nat -> list Z) (minValue maxValue : Z) : option (list Z) :=
  let '(minValue, maxValue) := if maxValue <? minValue then (maxValue, minValue) else (minValue, maxValue) in
  let length := wrapS 64 (maxValue - minValue + 1) in
  if length <? 0 then None else Some (map (fun x => wrapS 64 (x + minValue)) (Perm (Z.to_nat length))).

(** src/extend/slice/slice.go:81-86, Sum *)
Definition Sum (intslice : list Z) : Z := foldl (fun sum v => wrapS 64 (sum + v)) 0 intslice.

(** src/extend/slice/slice.go:134-136, Range *)
Fixpoint range_loop (fuel : nat) (i stop step : Z) (intSlice : list Z) : loop_end (list Z) :=
  if i <=? stop then
    match fuel with
    | O => Running
    | S fuel => range_loop fuel (wrapS 64 (i + step)) stop step (intSlice ++ [i])
    end
  else Ended intSlice.

(** src/extend/slice/slice.go:133-138, Range *)
Definition slice_Range (fuel : nat) (start stop step : Z) : loop_end (list Z) := range_loop fuel start stop step [].

(** The numbers that [parse] takes out of numeric strings. *)
Definition numbers (parse : str -> Z * bool) (strSlice : list str) : list Z :=
  omap (fun s => if IsNumeric s then match parse s with (val, true) => Some val | (_, false) => None end else None) strSlice.

(** src/extend/slice/slice.go:184-197, StringToInt *)
Definition StringToInt (strSlice : list str) : list Z := numbers (fun s => ToInt s []) strSlice.
(** src/extend/slice/slice.go:199-212, StringToInt32 *)
Definition StringToInt32 (strSlice : list str) : list Z := numbers (fun s => ToInt32 s []) strSlice.
(** src/extend/slice/slice.go:214-227, StringToInt64 *)
Definition StringToInt64 (strSlice : list str) : list Z := numbers (fun s => ToInt64 s []) strSlice.

(** A pointer is followed once. *)
(** src/extend/slice/slice.go:231-244, IsSlice *)
Definition IsSlice (value : goval) : bool :=
  let rv := match value with GPtr (Some v) => v | v => v end in
  match rv with GArray _ | GSlice _ _ => true | _ => false end.

(** src/extend/slice/slice.go:246-253, IsEmptyWithString *)
Definition IsEmptyWithString (p : list str) : bool := existsb is_blank p.

(** ** A limit *)

(** The buffered channel: how many elements it has room for and how many are in it. *)
(** src/extend/sync/limit.go:16-18, Limit *)
Record Limit := mkLimit { l_cap : nat; l_pool : nat }.

(** A negative size panics. *)
(** src/extend/sync/limit.go:22-26, NewLimit *)
Definition NewLimit (n : Z) : option Limit := if n <? 0 then None else Some (mkLimit (Z.to_nat n) 0).

(** [None]: the sender waits. *)
(** src/extend/sync/limit.go:29-31, Limit.Borrow *)
Definition Limit_Borrow (l : Limit) : option Limit := if (l_pool l <? l_cap l)%nat then Some (mkLimit (l_cap l) (S (l_pool l))) else None.

(** src/extend/sync/limit.go:34-41, Limit.Return *)
Definition Limit_Return (l : Limit) : Limit * res unit :=
  match l_pool l with
  | S n => (mkLimit (l_cap l) n, Ok tt)
  | O => (l, Err "discarding limited token, resource pool is full, someone returned multiple times")
  end.

(** src/extend/sync/limit.go:45-52, Limit.TryBorrow *)
Definition Limit_TryBorrow (l : Limit) : Limit * bool :=
  if (l_pool l <? l_cap l)%nat then (mkLimit (l_cap l) (S (l_pool l)), true) else (l, false).

(** ** What they give *)

Lemma split_from_ne k sep s acc : split_from k sep s acc <> [].
Proof. revert k acc. induction s as [|a s IH]; intros k acc; cbn [split_from]; [done|]. destruct k; [destruct (String.prefix sep (String a s))|]; done || apply IH. Qed.

Lemma str_prefix_split p s : String.prefix p s = true -> exists t, s = String.append p t.
Proof.
  revert s. induction p as [|a p IH]; intros s; [by exists s|]. destruct s as [|b s]; simpl; [done|].
  destruct (ascii_dec a b) as [->|]; [|done]. intros [t ->]%IH. by exists t.
Qed.

Lemma split_from_skip p sep s acc : split_from (String.length p) sep (String.append p s) acc = split_from 0 sep s acc.
Proof. induction p as [|a p IH]; simpl; [by destruct s|]. apply IH. Qed.

(** Joining the parts by the separator gives the string again. *)
Lemma Split_join s sep : sep <> EmptyString -> join sep (Split s sep) = s.
Proof.
  intros Hne. unfold Split. rewrite (proj2 (String.eqb_neq _ _) Hne). enough (H : forall n s acc, (String.length s <= n)%nat ->
    join sep (split_from 0 sep s acc) = String.append acc s) by exact (H (String.length s) s EmptyString ltac:(lia)).
  clear s. induction n as [|n IH]; intros [|a s] acc Hl; simpl in Hl; try lia; try (cbn [split_from join]; by rewrite str_app_nil_r).
  cbn [split_from]. destruct (String.prefix sep (String a s)) eqn:Ep.
  - apply str_prefix_split in Ep as [t Et]. destruct sep as [|b sep]; [done|]. rewrite str_app_cons in Et. injection Et as <- ->.
    cbn [String.length]. rewrite Nat.sub_succ, Nat.sub_0_r, split_from_skip.
    pose proof (split_from_ne 0 (String a sep) t EmptyString) as Hnn. assert (Ht : (String.length t <= n)%nat).
    { assert (Hlen : forall x y, String.length (String.append x y) = (String.length x + String.length y)%nat) 
        by (intros x y; induction x as [|c x IHx]; [done|]; rewrite str_app_cons; cbn [String.length]; by rewrite IHx).
      rewrite Hlen in Hl. lia. }
    pose proof (IH t EmptyString Ht) as IHt. destruct (split_from 0 (String a sep) t EmptyString) as [|q l]; [done|].
    change (String.append acc (String.append (String a sep) (join (String a sep) (q :: l))) = String.append acc (String a (String.append sep t))).
    rewrite IHt. done.
  - rewrite (IH s _ ltac:(lia)), <- str_app_assoc. done.
Qed.

(** Two equal markers make the bounds cross, and positions are counted in bytes and applied
    to runes. *)
Lemma CutLastString_same_marker : CutLastString "a.b" "." "." = None.
Proof. vm_compute. reflexivity. Qed.
Definition e_acute : str := String (ascii_of_N 195) (char_str (ascii_of_N 169)).
Lemma CutLastString_bytes_and_runes :
  CutLastString "ab(cd)" "(" ")" = Some "cd"%string /\
  CutLastString (String.append e_acute "b(cd)ef") "(" ")" = Some "d)"%string /\ CutLastString (String.append e_acute "b(cd)") "(" ")" = Some "d)"%string.
Proof. vm_compute. done. Qed.

Section Laws.
Context {A : Type} `{EqDecision A}.

Lemma chunk_loop_spec fuel (slice : list A) size k cs : 0 < size -> size * Z.of_nat k <= Z.of_nat (length slice) ->
  Z.of_nat (length slice) / size - Z.of_nat k <= Z.of_nat fuel ->
  exists out, chunk_loop fuel slice size (size * Z.of_nat k) (size * Z.of_nat k + size) cs = Ended (cs ++ out) /\
    Forall (fun c => Z.of_nat (length c) = size) out /\
    concat out = take (Z.to_nat (size * (Z.of_nat (length slice) / size) - size * Z.of_nat k)) (drop (Z.to_nat (size * Z.of_nat k)) slice).
Proof.
  intros Hs. revert k cs. induction fuel as [|fuel IH]; intros k cs Hk Hf; cbn [chunk_loop];
    pose proof (Z.div_mod (Z.of_nat (length slice)) size ltac:(lia)) as Hdm; pose proof (Z.mod_pos_bound (Z.of_nat (length slice)) size Hs) as Hmb;
    set (q := Z.of_nat (length slice) / size) in *; destruct (Z.leb_spec (size * Z.of_nat k) (Z.of_nat (length slice) - size)) as [Hle|Hgt].
  - exfalso. nia.
  - assert (Hq : q <= Z.of_nat k) by (enough (q < Z.of_nat k + 1) by lia; apply Z.div_lt_upper_bound; lia).
    exists []. rewrite app_nil_r. split_and!; [done|constructor|]. by replace (Z.to_nat (size * q - size * Z.of_nat k)) with 0%nat by nia.
  - unfold subslice. rewrite (proj2 (Z.leb_le 0 (size * Z.of_nat k))), (proj2 (Z.leb_le (size * Z.of_nat k) _)), (proj2 (Z.leb_le (_ + size) _)) by nia.
    cbn [andb]. destruct (IH (S k) (cs ++ [take (Z.to_nat (size * Z.of_nat k + size - size * Z.of_nat k)) (drop (Z.to_nat (size * Z.of_nat k)) slice)]))
      as (out & E & Hall & Hc); [nia|nia|].
    replace (size * Z.of_nat (S k)) with (size * Z.of_nat k + size) in E, Hc by lia. rewrite E.
    eexists. rewrite <- app_assoc. split; [reflexivity|]. split.
    + constructor; [|done]. rewrite length_take, length_drop. lia.
    + cbn [concat app]. rewrite Hc. rewrite Z2Nat.inj_add, <- drop_drop by nia.
      replace (size * q - (size * Z.of_nat k + size)) with (size * q - size * Z.of_nat k - size) by lia.
      replace (size * Z.of_nat k + size - size * Z.of_nat k) with size by lia.
      assert (Hq0 : Z.of_nat k + 1 <= q) by (apply Z.div_le_lower_bound; lia).
      assert (Hq : 0 <= size * q - size * Z.of_nat k - size) by nia.
      replace (Z.to_nat (size * q - size * Z.of_nat k)) with (Z.to_nat size + Z.to_nat (size * q - size * Z.of_nat k - size))%nat by lia.
      by rewrite <- take_take_drop.
  - assert (Hq : q <= Z.of_nat k) by (enough (q < Z.of_nat k + 1) by lia; apply Z.div_lt_upper_bound; lia).
    exists []. rewrite app_nil_r. split_and!; [done|constructor|]. by replace (Z.to_nat (size * q - size * Z.of_nat k)) with 0%nat by nia.
Qed.

(** Chunks have the size they should have, and together they are the slice without what is
    left when its length is divided by the size; a size of 0 never ends, a negative one
    panics. *)
Lemma Chunk_spec (slice : list A) size :
  (0 < size < Z.of_nat (length slice) -> exists out, Chunk (length slice) slice size = Ended out /\
    Forall (fun c => Z.of_nat (length c) = size) out /\ concat out = take (Z.to_nat (size * (Z.of_nat (length slice) / size))) slice) /\
  (Z.of_nat (length slice) <= size -> forall fuel, Chunk fuel slice size = Ended [slice]) /\
  (slice <> [] -> forall fuel, Chunk fuel slice 0 = Running) /\
  (size < 0 -> forall fuel, Chunk (S fuel) slice size = Panicked).
Proof.
  split_and!.
  - intros Hs. unfold Chunk. rewrite (proj2 (Z.leb_gt _ _)) by lia.
    destruct (chunk_loop_spec (length slice) slice size 0 []) as (out & E & Hall & Hc); [lia|lia| |].
    { pose proof (Z.div_le_upper_bound (Z.of_nat (length slice)) size (Z.of_nat (length slice)) ltac:(lia) ltac:(nia)). lia. }
    rewrite Z.mul_0_r, Z.add_0_l in E. exists out. split; [exact E|]. split; [done|]. rewrite Hc, Z.mul_0_r, Z.sub_0_r. done.
  - intros H fuel. unfold Chunk. by rewrite (proj2 (Z.leb_le _ _)).
  - intros Hne fuel. unfold Chunk. rewrite (proj2 (Z.leb_gt _ _)) by (destruct slice; [done|simpl; lia]).
    generalize (@nil (list A)). induction fuel as [|fuel IH]; intros cs; cbn [chunk_loop]; rewrite (proj2 (Z.leb_le 0 _)) by lia; [done|].
    unfold subslice. rewrite (proj2 (Z.leb_le 0 0)), (proj2 (Z.leb_le 0 (Z.of_nat _))) by lia. apply IH.
  - intros H fuel. unfold Chunk. rewrite (proj2 (Z.leb_gt _ _)) by lia. cbn [chunk_loop]. rewrite (proj2 (Z.leb_le 0 _)) by lia.
    unfold subslice. rewrite (proj2 (Z.leb_gt 0 size)) by lia. by rewrite andb_false_r.
Qed.

(** The length grows with the counter: half of what is missing is added, rounded up. *)
Lemma Pad_spec (slice : list A) size val : Z.of_nat (length slice) <= size ->
  Pad slice size val = slice ++ replicate (Z.to_nat ((size - Z.of_nat (length slice) + 1) / 2)) val.
Proof.
  intros Hs. unfold Pad. destruct (Z.leb_spec size (Z.of_nat (length slice))) as [H|H].
  { replace (Z.to_nat _) with 0%nat; [by rewrite app_nil_r|]. replace (size - _ + 1) with 1 by lia. done. }
  set (n := size - Z.of_nat (length slice)) in *.
  enough (G : forall fuel i s, Z.of_nat (length s) = Z.of_nat (length slice) + i -> 0 <= i <= (n + 1) / 2 -> (n + 1) / 2 - i <= Z.of_nat fuel ->
    pad_loop fuel s size i val = s ++ replicate (Z.to_nat ((n + 1) / 2 - i)) val).
  { rewrite (G _ 0 slice); [by rewrite Z.sub_0_r|lia| |]; Z.div_mod_to_equations; lia. }
  induction fuel as [|fuel IH]; intros i s Hl Hi Hf; cbn [pad_loop].
  { replace (Z.to_nat _) with 0%nat by lia. by rewrite app_nil_r. }
  destruct (Z.ltb_spec i (size - Z.of_nat (length s))) as [Hlt|Hge].
  - rewrite IH.
    + rewrite <- app_assoc. f_equal. replace (Z.to_nat ((n + 1) / 2 - i)) with (S (Z.to_nat ((n + 1) / 2 - (i + 1)))); [done|].
      Z.div_mod_to_equations; lia.
    + rewrite length_app. simpl. lia.
    + Z.div_mod_to_equations; lia.
    + lia.
  - replace (Z.to_nat _) with 0%nat; [by rewrite app_nil_r|]. Z.div_mod_to_equations; lia.
Qed.

Lemma Shuffle_perm turns Intn (slice : list A) : Shuffle turns Intn slice ≡ₚ slice.
Proof.
  revert slice. induction turns as [|turns IH]; intros slice; simpl; [done|]. destruct (Intn turns) as [a b].
  destruct (slice !! a) as [x|] eqn:Ea; [|apply IH]. destruct (slice !! b) as [y|] eqn:Eb; [|apply IH]. rewrite IH.
  destruct (decide (a = b)) as [->|Hne].
  - rewrite list_insert_insert_eq. replace y with x by congruence. rewrite list_insert_id; [done|congruence].
  - apply list.Permutation_inj. split; [by rewrite !length_insert|].
    set (f := fun i => if decide (i = a) then b else if decide (i = b) then a else i).
    exists f. split.
    + intros i j. unfold f. repeat case_decide; congruence.
    + intros i. unfold f. repeat case_decide; subst.
      * rewrite list_lookup_insert_eq; [done|]. rewrite length_insert. by eapply lookup_lt_Some.
      * rewrite list_lookup_insert_ne by done. rewrite list_lookup_insert_eq; [done|]. by eapply lookup_lt_Some.
      * by rewrite !list_lookup_insert_ne by done.
Qed.
End Laws.

(** How many numbers there are from [i] on. *)
Definition range_count (i stop step : Z) : nat := if i <=? stop then Z.to_nat ((stop - i) / step + 1) else 0%nat.

Lemma range_loop_spec fuel i stop step acc : 0 < step -> inS 64 i -> stop + step < 2 ^ 63 -> (range_count i stop step <= fuel)%nat ->
  range_loop fuel i stop step acc = Ended (acc ++ map (fun k => i + step * Z.of_nat k) (seq 0 (range_count i stop step))).
Proof.
  intros Hs. unfold inS. change (64 - 1) with 63. revert i acc. induction fuel as [|fuel IH]; intros i acc Hi Hb Hf; unfold range_count in *; cbn [range_loop];
    destruct (Z.leb_spec i stop) as [Hle|Hgt]; try (simpl; by rewrite app_nil_r).
  - exfalso. pose proof (Z.div_pos (stop - i) step ltac:(lia) Hs). lia.
  - rewrite wrapS_id by (unfold inS; change (64 - 1) with 63; lia). rewrite IH; [|lia|done|].
    + rewrite <- app_assoc. f_equal. f_equal. pose proof (Z.div_pos (stop - i) step ltac:(lia) Hs) as Hd.
      replace (Z.to_nat ((stop - i) / step + 1)) with (S (Z.to_nat ((stop - i) / step))) by lia. cbn [seq map app].
      rewrite Z.mul_0_r, Z.add_0_r. f_equal. rewrite <- seq_shift, map_map.
      assert (Hc : (if i + step <=? stop then Z.to_nat ((stop - (i + step)) / step + 1) else 0%nat) = Z.to_nat ((stop - i) / step)).
      { replace (stop - (i + step)) with (stop - i - step) by lia. destruct (Z.leb_spec (i + step) stop).
        - replace (stop - i - step) with (stop - i + -1 * step) by lia. rewrite Z.div_add by lia. f_equal. lia.
        - rewrite Z.div_small by lia. done. }
      rewrite Hc. apply map_ext. intros k. lia.
    + destruct (Z.leb_spec (i + step) stop); [|lia]. replace (stop - (i + step)) with (stop - i + -1 * step) by lia. rewrite Z.div_add by lia. lia.
Qed.

(** A positive step gives the numbers from the start on, one after the other, as long as the
    counter does not pass the largest number; a step of 0 never ends. *)
Lemma slice_Range_spec start stop step :
  (0 < step -> inS 64 start -> stop + step < 2 ^ 63 ->
    slice_Range (range_count start stop step) start stop step = Ended (map (fun k => start + step * Z.of_nat k) (seq 0 (range_count start stop step)))) /\
  (inS 64 start -> start <= stop -> forall fuel, slice_Range fuel start stop 0 = Running).
Proof.
  split; [intros; by apply range_loop_spec|]. intros Hi Hle fuel. unfold slice_Range. generalize (@nil Z).
  induction fuel as [|fuel IH]; intros acc; cbn [range_loop]; rewrite (proj2 (Z.leb_le _ _) Hle); [done|]. rewrite Z.add_0_r, wrapS_id by (lia || done). apply IH.
Qed.

(** [RandList] gives every number between the bounds once, in either order of the bounds. *)
Lemma RandList_spec Perm lo hi : (forall n, Perm n ≡ₚ map Z.of_nat (seq 0 n)) -> inS 64 lo -> inS 64 hi -> Z.abs (hi - lo) + 1 < 2 ^ 63 ->
  exists l, RandList Perm lo hi = Some l /\ NoDup l /\ forall x, x ∈ l <-> Z.min lo hi <= x <= Z.max lo hi.
Proof.
  intros HP Hlo Hhi Hw. unfold inS in *. change (64 - 1) with 63 in *.
  enough (G : forall lo hi, - 2 ^ 63 <= lo -> hi < 2 ^ 63 -> lo <= hi -> hi - lo + 1 < 2 ^ 63 ->
    exists l, Some (map (fun x => wrapS 64 (x + lo)) (Perm (Z.to_nat (hi - lo + 1)))) = Some l /\ NoDup l /\ forall x, x ∈ l <-> lo <= x <= hi).
  { unfold RandList. destruct (Z.ltb_spec hi lo); rewrite wrapS_id by (lia || (unfold inS; change (64 - 1) with 63; lia)).
    - rewrite (proj2 (Z.ltb_ge _ _)) by lia. rewrite Z.min_r, Z.max_l by lia. apply G; lia.
    - rewrite (proj2 (Z.ltb_ge _ _)) by lia. rewrite Z.min_l, Z.max_r by lia. apply G; lia. }
  clear lo hi Hlo Hhi Hw. intros lo hi Hlo Hhi Hle Hw. eexists. split; [reflexivity|].
  assert (E : map (fun x => wrapS 64 (x + lo)) (Perm (Z.to_nat (hi - lo + 1))) ≡ₚ map (fun k => Z.of_nat k + lo) (seq 0 (Z.to_nat (hi - lo + 1)))).
  { rewrite (Permutation_map _ (HP _)), map_map. apply reflexive_eq, map_ext_in. intros k Hk. apply in_seq in Hk.
    apply wrapS_id; [lia|]. unfold inS. change (64 - 1) with 63. lia. }
  split.
  - rewrite E. apply NoDup_fmap_2; [|apply NoDup_seq]. intros a b ?. lia.
  - intros x. rewrite E, list_elem_of_fmap. split.
    + intros (k & -> & Hk). apply elem_of_seq in Hk. lia.
    + intros Hx. exists (Z.to_nat (x - lo)). split; [lia|]. apply elem_of_seq. lia.
Qed.

(** The limit over any sequence of calls: as many are out as were lent and not returned, and
    never more than its size. *)
Inductive limit_op := LTry | LBorrow | LReturn.
Definition limit_step (o : limit_op) (l : Limit) : option (Limit * Z) :=
  match o with
  | LTry => let '(l, ok) := Limit_TryBorrow l in Some (l, if ok then 1 else 0)
  | LBorrow => l ← Limit_Borrow l; Some (l, 1)
  | LReturn => let '(l, r) := Limit_Return l in Some (l, if is_ok r then -1 else 0)
  end.
Fixpoint limit_run (ops : list limit_op) (l : Limit) : option (Limit * Z) :=
  match ops with
  | [] => Some (l, 0)
  | o :: ops => r ← limit_step o l; r' ← limit_run ops r.1; Some (r'.1, r.2 + r'.2)
  end.
Lemma limit_bounded ops n l0 l lent : NewLimit n = Some l0 -> limit_run ops l0 = Some (l, lent) -> lent = Z.of_nat (l_pool l) /\ 0 <= lent <= n.
Proof.
  unfold NewLimit. destruct (Z.ltb_spec n 0); [done|]. intros [= <-].
  enough (G : forall ops l0 l lent, (l_pool l0 <= l_cap l0)%nat -> limit_run ops l0 = Some (l, lent) ->
    Z.of_nat (l_pool l0) + lent = Z.of_nat (l_pool l) /\ l_cap l = l_cap l0 /\ (l_pool l <= l_cap l)%nat).
  { intros Hr. apply G in Hr as (H1 & H2 & H3); simpl in *; lia. }
  clear. induction ops as [|o ops IH]; intros l0 l lent Hb; cbn [limit_run]; [intros [= <- <-]; lia|].
  destruct o; unfold limit_step, Limit_TryBorrow, Limit_Borrow, Limit_Return.
  - destruct (Nat.ltb_spec (l_pool l0) (l_cap l0)); cbn [mbind option_bind fst snd];
      destruct (limit_run ops _) as [[l' z]|] eqn:E; cbn [mbind option_bind fst snd]; try done; intros [= <- <-]; apply IH in E; simpl in *; lia.
  - destruct (Nat.ltb_spec (l_pool l0) (l_cap l0)); cbn [mbind option_bind fst snd]; [|done].
    destruct (limit_run ops _) as [[l' z]|] eqn:E; cbn [mbind option_bind fst snd]; try done; intros [= <- <-]; apply IH in E; simpl in *; lia.
  - destruct (l_pool l0) as [|k] eqn:Ek; cbn [mbind option_bind fst snd is_ok];
      destruct (limit_run ops _) as [[l' z]|] eqn:E; cbn [mbind option_bind fst snd]; try done; intros [= <- <-]; apply IH in E; simpl in *; lia.
Qed.
