(* ===== verification/AnyMap.v ===== *)
(** The string map (src/extend/map/string_any_map.go) and the generic map
    (src/extend/map/map.go), shared by goroutines.

    Go maps are objects of a heap: a [StringAnyMap] can share its map with whoever made it.
    Each has a lock of its own, also when they share a map. What a method does while it holds
    the lock is one [section]: nobody else is at the data meanwhile, unless it is shared. The
    section that [GetOrSet] and its kin set a key in is cut in two, the check and the write,
    with the lock held in between, and so is [Merge]; what they do before is a step of its
    own. Between the steps of [exec_sa] other calls come. Where Go ranges over a map the
    order is an argument. *)
From S2P Require Import Prelude Helpers.

(** ** The heap of Go maps *)

(** [None] is the nil map. *)
Definition gref := option nat.

(** src/extend/map/string_any_map.go:14-17, StringAnyMap *)
Record StringAnyMap := mkAnyMap { sa_data : gref; sa_locked : bool }.

Record sa_world := mkSaWorld { sw_heap : gmap nat (gmap str goval); sw_maps : gmap nat StringAnyMap; sw_next : nat }.

Definition content (d : gref) (h : gmap nat (gmap str goval)) : gmap str goval :=
  match d with None => ∅ | Some r => default ∅ (h !! r) end.
Definition update (d : gref) (f : gmap str goval -> gmap str goval) (h : gmap nat (gmap str goval)) : gmap nat (gmap str goval) :=
  match d with None => h | Some r => <[r := f (content d h)]> h end.

(** The state of a section: the map's field, the heap, the next free object. *)
Definition sec_state := (gref * gmap nat (gmap str goval) * nat)%type.

(** [make]. *)
Definition alloc (c : gmap str goval) (s : sec_state) : gref * sec_state :=
  let '(d, h, nx) := s in (Some nx, (d, <[nx := c]> h, S nx)).

(** A section of map [m]: [None] while somebody else holds the lock. *)
Definition section {T} (m : nat) (f : sec_state -> sec_state * T) (w : sa_world) : option (sa_world * T) :=
  s ← sw_maps w !! m;
  if sa_locked s then None
  else
    let '((d, h, nx), r) := f (sa_data s, sw_heap w, sw_next w) in
    Some (mkSaWorld h (<[m := mkAnyMap d false]> (sw_maps w)) nx, r).

(** What is left of a section of map [m], by whoever holds its lock: it is free then. *)
Definition section_end {T} (m : nat) (f : sec_state -> sec_state * T) (w : sa_world) : option (sa_world * T) :=
  s ← sw_maps w !! m;
  let '((d, h, nx), r) := f (sa_data s, sw_heap w, sw_next w) in
  Some (mkSaWorld h (<[m := mkAnyMap d false]> (sw_maps w)) nx, r).

Definition set_locked (m : nat) (b : bool) (w : sa_world) : sa_world :=
  mkSaWorld (sw_heap w) (alter (fun s => mkAnyMap (sa_data s) b) m (sw_maps w)) (sw_next w).

(** ** Sections *)

(** The field of a new map refers to what it is given; [NewStrAnyMap] makes one. *)
(** src/extend/map/string_any_map.go:32-37, NewStrAnyMapFrom *)
Definition NewStrAnyMapFrom (m : nat) (data : gref) (w : sa_world) : sa_world :=
  mkSaWorld (sw_heap w) (<[m := mkAnyMap data false]> (sw_maps w)) (sw_next w).
(** src/extend/map/string_any_map.go:22-27, NewStrAnyMap *)
Definition NewStrAnyMap (m : nat) (w : sa_world) : sa_world :=
  mkSaWorld (<[sw_next w := ∅]> (sw_heap w)) (<[m := mkAnyMap (Some (sw_next w)) false]> (sw_maps w)) (S (sw_next w)).

Definition ensure (s : sec_state) : sec_state :=
  let '(d, h, nx) := s in
  match d with None => (Some nx, <[nx := ∅]> h, S nx) | Some _ => s end.

Definition reading {T} (f : gmap str goval -> T) (s : sec_state) : sec_state * T := (s, f (content s.1.1 s.1.2)).
Definition writing (f : gmap str goval -> gmap str goval) (s : sec_state) : sec_state * unit :=
  let '(d, h, nx) := s in ((d, update d f h, nx), tt).

(** src/extend/map/string_any_map.go:99-106, StringAnyMap.Set *)
Definition sa_Set (key : str) (val : goval) (s : sec_state) : sec_state * unit := writing (insert key val) (ensure s).

(** src/extend/map/string_any_map.go:109-117, StringAnyMap.Sets *)
Definition sa_Sets (data : gref) (s : sec_state) : sec_state * unit :=
  let '(d, h, nx) := s in
  match d with
  | None => ((data, h, nx), tt)
  | Some _ => writing (fun c => content data h ∪ c) s
  end.

(** src/extend/map/string_any_map.go:121-128, StringAnyMap.Search *)
Definition sa_Search (key : str) : sec_state -> sec_state * (goval * bool) :=
  reading (fun c => match c !! key with Some v => (v, true) | None => (GNil, false) end).

(** src/extend/map/string_any_map.go:131-138, StringAnyMap.Get *)
Definition sa_Get (key : str) : sec_state -> sec_state * goval := reading (fun c => default GNil (c !! key)).

(** src/extend/map/string_any_map.go:336-344, StringAnyMap.Contains *)
Definition sa_Contains (key : str) : sec_state -> sec_state * bool :=
  reading (fun c => match c !! key with Some _ => true | None => false end).

(** src/extend/map/string_any_map.go:347-352, StringAnyMap.Size *)
Definition sa_Size : sec_state -> sec_state * nat := reading size.
(** src/extend/map/string_any_map.go:356-358, StringAnyMap.IsEmpty *)
Definition sa_IsEmpty : sec_state -> sec_state * bool := reading (fun c => (size c =? 0)%nat).

(** src/extend/map/string_any_map.go:321-325, StringAnyMap.Keys *)
Definition sa_Keys (order : list str) : sec_state -> sec_state * list str := reading (fun c => filter (fun k => is_Some (c !! k)) order).
(** src/extend/map/string_any_map.go:328-332, StringAnyMap.Values *)
Definition sa_Values (order : list str) : sec_state -> sec_state * list goval := reading (fun c => omap (fun k => c !! k) order).

(** The calls of the function, which stops the loop by answering false. *)
(** src/extend/map/string_any_map.go:41-49, StringAnyMap.Iterator *)
Fixpoint iterate (f : str -> goval -> bool) (l : list (str * goval)) : list (str * goval) :=
  match l with
  | [] => []
  | (k, v) :: l => (k, v) :: if f k v then iterate f l else []
  end.
Definition sa_Iterator (f : str -> goval -> bool) (order : list str) : sec_state -> sec_state * list (str * goval) :=
  reading (fun c => iterate f (omap (fun k => v ← c !! k; Some (k, v)) order)).

(** A copy of the nil map is nil. *)
(** src/extend/map/string_any_map.go:69-73, StringAnyMap.MapCopy *)
Definition sa_MapCopy (s : sec_state) : sec_state * gref :=
  let '(d, h, nx) := s in
  match d with
  | None => (s, None)
  | Some _ => let '(r, s) := alloc (content d h) s in (s, r)
  end.
(** src/extend/map/string_any_map.go:57-61, StringAnyMap.Map *)
Definition sa_Map : sec_state -> sec_state * gref := sa_MapCopy.
(** src/extend/map/string_any_map.go:64-66, StringAnyMap.MapStrAny *)
Definition sa_MapStrAny : sec_state -> sec_state * gref := sa_Map.

(** src/extend/map/string_any_map.go:77-85, StringAnyMap.FilterEmpty *)
Definition sa_FilterEmpty : sec_state -> sec_state * unit := writing (filter (fun kv => IsEmpty kv.2 = false)).
(** src/extend/map/string_any_map.go:88-96, StringAnyMap.FilterNil *)
Definition sa_FilterNil : sec_state -> sec_state * unit := writing (filter (fun kv => IsNil kv.2 [] = false)).

(** [pick]: the first key that the range meets, when there is one. *)
(** src/extend/map/string_any_map.go:141-149, StringAnyMap.Pop *)
Definition sa_Pop (pick : str) (s : sec_state) : sec_state * (str * goval) :=
  match content s.1.1 s.1.2 !! pick with
  | Some value => let '(s, _) := writing (delete pick) s in (s, (pick, value))
  | None => (s, (EmptyString, GNil))
  end.

(** The loop: [index] never meets a negative size. *)
(** src/extend/map/string_any_map.go:166-173, StringAnyMap.Pops *)
Fixpoint pops_loop (sz index : Z) (order : list str) (c newMap : gmap str goval) : gmap str goval * gmap str goval :=
  match order with
  | [] => (c, newMap)
  | k :: order =>
      match c !! k with
      | None => pops_loop sz index order c newMap
      | Some v =>
          let c := delete k c in
          let newMap := <[k := v]> newMap in
          let index := index + 1 in
          if index =? sz then (c, newMap) else pops_loop sz index order c newMap
      end
  end.

(** [None] is the nil map it answers for nothing. *)
(** src/extend/map/string_any_map.go:153-175, StringAnyMap.Pops *)
Definition sa_Pops (sz : Z) (order : list str) (s : sec_state) : sec_state * option (gmap str goval) :=
  let c := content s.1.1 s.1.2 in
  let len := Z.of_nat (size c) in
  let sz := if (len <? sz) || (sz =? -1) then len else sz in
  if sz =? 0 then (s, None)
  else
    let '(c, newMap) := pops_loop sz 0 order c ∅ in
    let '(s, _) := writing (fun _ => c) s in (s, Some newMap).

(** A value, or a function that gives one, with what it gives. *)
Inductive sa_arg := AVal (v : goval) | AFunc (r : goval).

(** The value under the key, if there is one. *)
(** src/extend/map/string_any_map.go:186-194, StringAnyMap.doSetWithLockCheck *)
Definition doSet_check (key : str) (s : sec_state) : sec_state * option goval :=
  let s := ensure s in (s, content s.1.1 s.1.2 !! key).

(** The rest, for a key that is missing: the function is called with the lock held. *)
(** src/extend/map/string_any_map.go:195-202, StringAnyMap.doSetWithLockCheck *)
Definition doSet_write (key : str) (value : sa_arg) (s : sec_state) : sec_state * goval :=
  let value := match value with AVal v => v | AFunc r => r end in
  match value with
  | GNil => (s, value)
  | _ => let '(s, _) := writing (insert key value) s in (s, value)
  end.

(** src/extend/map/string_any_map.go:297-305, StringAnyMap.Removes *)
Definition sa_Removes (keys : list str) : sec_state -> sec_state * unit := writing (fun c => foldl (fun c key => delete key c) c keys).

(** src/extend/map/string_any_map.go:308-318, StringAnyMap.Remove *)
Definition sa_Remove (key : str) (s : sec_state) : sec_state * goval :=
  match content s.1.1 s.1.2 !! key with
  | Some value => let '(s, _) := writing (delete key) s in (s, value)
  | None => (s, GNil)
  end.

(** src/extend/map/string_any_map.go:361-365, StringAnyMap.Clear *)
Definition sa_Clear : sec_state -> sec_state * unit := writing (fun _ => ∅).
(** src/extend/map/string_any_map.go:368-372, StringAnyMap.Replace *)
Definition sa_Replace (data : gref) (s : sec_state) : sec_state * unit := let '(_, h, nx) := s in ((data, h, nx), tt).

(** The function gets the map itself; writing into the nil map would panic in it. *)
(** src/extend/map/string_any_map.go:375-379, StringAnyMap.LockFunc *)
Definition sa_LockFunc (f : gmap str goval -> gmap str goval) : sec_state -> sec_state * unit := writing f.
(** src/extend/map/string_any_map.go:382-386, StringAnyMap.RLockFunc *)
Definition sa_RLockFunc {T} (f : gmap str goval -> T) : sec_state -> sec_state * T := reading f.

(** [encoding/json] on maps. *)
(** src/extend/map/string_any_map.go:411-415, StringAnyMap.MarshalJSON *)
Definition sa_MarshalJSON (Marshal : gmap str goval -> res str) : sec_state -> sec_state * res str := reading Marshal.
(** src/extend/map/string_any_map.go:405-408, StringAnyMap.String *)
Definition sa_String (Marshal : gmap str goval -> res str) : sec_state -> sec_state * str :=
  reading (fun c => match Marshal c with Ok b => b | Err _ => EmptyString end).
(** What the document has replaces what the map has under the same key; the document [null]
    makes the map nil. *)
(** src/extend/map/string_any_map.go:418-428, StringAnyMap.UnmarshalJSON *)
Definition sa_UnmarshalJSON (Unmarshal : str -> res (option (gmap str goval))) (b : str) (s : sec_state) : sec_state * res unit :=
  let s := ensure s in
  match Unmarshal b with
  | Err e => (s, Err e)
  | Ok None => let '(_, h, nx) := s in ((None, h, nx), Ok tt)
  | Ok (Some c) => let '(s, _) := writing (fun old => c ∪ old) s in (s, Ok tt)
  end.

(** ** Calls of two sections *)

(** What is called: the answers are a value or a boolean. *)
Inductive sa_kind := KGetOrSet | KSetIfNotExist.
Record sa_call := mkSaCall { sc_kind : sa_kind; sc_map : nat; sc_key : str; sc_arg : sa_arg }.

(** src/extend/map/string_any_map.go:206-212, StringAnyMap.GetOrSet *)
Definition GetOrSet (m : nat) (key : str) (value : sa_arg) : sa_call := mkSaCall KGetOrSet m key value.
(** The function is called before the second section, whose value is its result. *)
(** src/extend/map/string_any_map.go:217-223, StringAnyMap.GetOrSetFunc *)
Definition GetOrSetFunc (m : nat) (key : str) (r : goval) : sa_call := mkSaCall KGetOrSet m key (AVal r).
(** src/extend/map/string_any_map.go:231-237, StringAnyMap.GetOrSetFuncLock *)
Definition GetOrSetFuncLock (m : nat) (key : str) (r : goval) : sa_call := mkSaCall KGetOrSet m key (AFunc r).
(** src/extend/map/string_any_map.go:265-271, StringAnyMap.SetIfNotExist *)
Definition SetIfNotExist (m : nat) (key : str) (value : sa_arg) : sa_call := mkSaCall KSetIfNotExist m key value.
(** src/extend/map/string_any_map.go:275-281, StringAnyMap.SetIfNotExistFunc *)
Definition SetIfNotExistFunc (m : nat) (key : str) (r : goval) : sa_call := mkSaCall KSetIfNotExist m key (AVal r).
(** src/extend/map/string_any_map.go:288-294, StringAnyMap.SetIfNotExistFuncLock *)
Definition SetIfNotExistFuncLock (m : nat) (key : str) (r : goval) : sa_call := mkSaCall KSetIfNotExist m key (AFunc r).

Inductive sa_answer := AnsValue (v : goval) | AnsBool (b : bool).

(** Calls between their sections, what calls have answered, and, by map, the merges and the
    calls about to write that hold its lock. *)
Record sa_state := mkSaState {
  ss_world : sa_world; ss_pending : gmap nat sa_call; ss_done : list (sa_call * sa_answer); ss_merges : gmap nat nat;
  ss_setting : gmap nat sa_call }.

(** The first section: an answer, or the second section to do. *)
(** src/extend/map/string_any_map.go:206-212, StringAnyMap.GetOrSet *)
Definition call_first (i : nat) (c : sa_call) (s : sa_state) : option sa_state :=
  match ss_pending s !! i with
  | Some _ => None
  | None =>
      match section (sc_map c) (sa_Search (sc_key c)) (ss_world s) with
      | None => None
      | Some (w, (v, true)) =>
          Some (mkSaState w (ss_pending s) (ss_done s ++ [(c, match sc_kind c with KGetOrSet => AnsValue v | KSetIfNotExist => AnsBool false end)])
                  (ss_merges s) (ss_setting s))
      | Some (w, (_, false)) => Some (mkSaState w (<[i := c]> (ss_pending s)) (ss_done s) (ss_merges s) (ss_setting s))
      end
  end.

(** The end of the second section: whoever comes here answers that it has set the value. *)
(** src/extend/map/string_any_map.go:265-271, StringAnyMap.SetIfNotExist *)
Definition call_end (c : sa_call) (v : goval) : sa_call * sa_answer :=
  (c, match sc_kind c with KGetOrSet => AnsValue v | KSetIfNotExist => AnsBool true end).

(** The second section up to the check; with the key missing it goes on with the lock. *)
(** src/extend/map/string_any_map.go:186-194, StringAnyMap.doSetWithLockCheck *)
Definition call_second (i : nat) (s : sa_state) : option sa_state :=
  c ← ss_pending s !! i;
  match section (sc_map c) (doSet_check (sc_key c)) (ss_world s) with
  | None => None
  | Some (w, Some v) => Some (mkSaState w (delete i (ss_pending s)) (ss_done s ++ [call_end c v]) (ss_merges s) (ss_setting s))
  | Some (w, None) =>
      Some (mkSaState (set_locked (sc_map c) true w) (delete i (ss_pending s)) (ss_done s) (ss_merges s) (<[sc_map c := c]> (ss_setting s)))
  end.

(** Its end, on map [m]. *)
(** src/extend/map/string_any_map.go:195-202, StringAnyMap.doSetWithLockCheck *)
Definition call_write (m : nat) (s : sa_state) : option sa_state :=
  c ← ss_setting s !! m;
  match section_end m (doSet_write (sc_key c) (sc_arg c)) (ss_world s) with
  | None => None
  | Some (w, v) => Some (mkSaState w (ss_pending s) (ss_done s ++ [call_end c v]) (ss_merges s) (delete m (ss_setting s)))
  end.

(** ** Merge *)

(** The lock of the map that is merged into. *)
(** src/extend/map/string_any_map.go:390-391, StringAnyMap.Merge *)
Definition Merge_lock (m other : nat) (s : sa_state) : option sa_state :=
  sm ← sw_maps (ss_world s) !! m;
  _ ← sw_maps (ss_world s) !! other;
  if sa_locked sm then None else Some (mkSaState (set_locked m true (ss_world s)) (ss_pending s) (ss_done s) (<[m := other]> (ss_merges s)) (ss_setting s)).

(** The rest: the other map must be free for reading, unless it is the map itself and not
    nil, whose lock it does not ask for again. *)
(** src/extend/map/string_any_map.go:393-401, StringAnyMap.Merge *)
Definition Merge_copy (m : nat) (s : sa_state) : option sa_state :=
  other ← ss_merges s !! m;
  let w := ss_world s in
  sm ← sw_maps w !! m;
  so ← sw_maps w !! other;
  let finish h d nx := mkSaState (mkSaWorld h (<[m := mkAnyMap d false]> (sw_maps w)) nx) (ss_pending s) (ss_done s) (delete m (ss_merges s)) (ss_setting s) in
  match sa_data sm with
  | None =>
      if sa_locked so then None
      else
        let '((_, h, nx), r) := sa_MapCopy (sa_data so, sw_heap w, sw_next w) in Some (finish h r nx)
  | Some r =>
      if negb (other =? m)%nat && sa_locked so then None
      else Some (finish (update (Some r) (fun c => content (sa_data so) (sw_heap w) ∪ c) (sw_heap w)) (Some r) (sw_next w))
  end.

Inductive sa_action :=
| SFirst (i : nat) (c : sa_call) | SSecond (i : nat) | SWrite (m : nat) | SSection (m : nat) (f : sec_state -> sec_state * unit)
| SMergeLock (m other : nat) | SMergeCopy (m : nat).

Definition exec_sa (a : sa_action) (s : sa_state) : option sa_state :=
  match a with
  | SFirst i c => call_first i c s
  | SSecond i => call_second i s
  | SWrite m => call_write m s
  | SSection m f => match section m f (ss_world s) with Some (w, _) => Some (mkSaState w (ss_pending s) (ss_done s) (ss_merges s) (ss_setting s)) | None => None end
  | SMergeLock m other => Merge_lock m other s
  | SMergeCopy m => Merge_copy m s
  end.

Definition run_sa (l : list sa_action) (s : sa_state) : option sa_state := foldl (fun s a => s ≫= exec_sa a) (Some s) l.

(** ** Whoever sets first *)

(** Objects are below the next free one. *)
Definition sa_wf (w : sa_world) : Prop :=
  (forall m s r, sw_maps w !! m = Some s -> sa_data s = Some r -> (r < sw_next w)%nat) /\
  (forall r c, sw_heap w !! r = Some c -> (r < sw_next w)%nat).

(** What the map numbered [m] has under a key. *)
Definition sa_lookup (w : sa_world) (m : nat) (key : str) : option goval :=
  s ← sw_maps w !! m; content (sa_data s) (sw_heap w) !! key.

Definition arg_value (a : sa_arg) : goval := match a with AVal v | AFunc v => v end.

Lemma content_update_eq d f h : d <> None -> content d (update d f h) = f (content d h).
Proof. destruct d as [r|]; [|done]. intros _. simpl. by rewrite lookup_insert_eq. Qed.

Lemma content_update_ne d d' f h : d <> d' -> content d (update d' f h) = content d h.
Proof. destruct d as [r|], d' as [r'|]; try done. intros Hne. simpl. rewrite lookup_insert_ne; [done|]. intros ->. done. Qed.

(** Looking changes nothing. *)
Lemma section_reading {T} m (f : gmap str goval -> T) w w' r : section m (reading f) w = Some (w', r) ->
  w' = w /\ exists s, sw_maps w !! m = Some s /\ sa_locked s = false /\ r = f (content (sa_data s) (sw_heap w)).
Proof.
  unfold section, reading. destruct (sw_maps w !! m) as [[d b]|] eqn:E; cbn [mbind option_bind]; [|done]. destruct b; [done|].
  cbn [sa_locked sa_data fst snd]. intros [= <- <-]. split; [|by exists (mkAnyMap d false)]. rewrite insert_id by done. by destruct w.
Qed.

(** No two maps share their data. *)
Definition unshared (w : sa_world) : Prop := forall m m' s s' r,
  sw_maps w !! m = Some s -> sw_maps w !! m' = Some s' -> sa_data s = Some r -> sa_data s' = Some r -> m = m'.

(** What a write does with the entries of its map. *)
Definition set_absent (key : str) (a : sa_arg) (c : gmap str goval) : gmap str goval :=
  match c !! key with
  | Some _ => c
  | None => match arg_value a with GNil => c | v => <[key := v]> c end
  end.

Lemma set_absent_keeps key a c k x : c !! k = Some x -> set_absent key a c !! k = Some x.
Proof.
  intros H. unfold set_absent. destruct (c !! key) eqn:E; [done|]. assert (k <> key) by congruence.
  destruct (arg_value a); by rewrite ?lookup_insert_ne by congruence.
Qed.

Lemma set_absent_own key a c : c !! key = None -> arg_value a <> GNil -> set_absent key a c !! key = Some (arg_value a).
Proof. unfold set_absent. intros ->. destruct (arg_value a); try done; intros _; apply lookup_insert_eq. Qed.

Lemma set_absent_from key a c k x : set_absent key a c !! k = Some x -> c !! k = Some x \/ (k = key /\ x = arg_value a).
Proof.
  unfold set_absent. destruct (c !! key) eqn:E; [by left|]. destruct (arg_value a); [by left|..];
    (intros [[<- <-]|[_ ?]]%lookup_insert_Some; [by right|by left]).
Qed.

(** The check changes no entry of any map: it may make its own map's. *)
Lemma check_world m key w w' v : sa_wf w -> unshared w -> section m (doSet_check key) w = Some (w', v) ->
  sa_wf w' /\ unshared w' /\ (forall m' k, sa_lookup w' m' k = sa_lookup w m' k) /\ v = sa_lookup w m key /\
  (forall m', m' <> m -> sw_maps w' !! m' = sw_maps w !! m') /\
  (forall m' s', m' <> m -> sw_maps w !! m' = Some s' -> content (sa_data s') (sw_heap w') = content (sa_data s') (sw_heap w)) /\
  (exists sm, sw_maps w !! m = Some sm /\ sa_locked sm = false) /\
  exists r, sw_maps w' !! m = Some (mkAnyMap (Some r) false) /\ content (Some r) (sw_heap w') !! key = v.
Proof.
  intros [Wm Wh] U. unfold section. destruct (sw_maps w !! m) as [[d b]|] eqn:Em; cbn [mbind option_bind sa_locked sa_data]; [|done].
  destruct b; [done|]. unfold doSet_check, sa_lookup. destruct d as [r|]; cbn [ensure fst snd]; intros [= <- <-].
  - assert (sw_maps (mkSaWorld (sw_heap w) (<[m := mkAnyMap (Some r) false]> (sw_maps w)) (sw_next w)) = sw_maps w) as Ew by (simpl; by apply insert_id).
    split; [split; [by rewrite Ew|done]|]. split; [unfold unshared; by rewrite Ew|]. split; [intros m' k; by rewrite Ew|].
    rewrite Em, Ew. split; [done|]. split; [done|]. split; [done|]. split; [by eexists|]. exists r. by rewrite Em.
  - assert (Hfr : forall m' s', sw_maps w !! m' = Some s' -> content (sa_data s') (<[sw_next w := ∅]> (sw_heap w)) = content (sa_data s') (sw_heap w)).
    { intros m' s' Hm. apply (content_update_ne (sa_data s') (Some (sw_next w)) (fun _ => ∅)). intros E. pose proof (Wm m' s' _ Hm E). lia. }
    simpl. split_and!.
    + split; simpl.
      * intros m' s' r'. rewrite lookup_insert_Some. intros [[_ <-]|[_ Hm]]; [intros [= <-]; lia|]. intros Hr. pose proof (Wm m' s' r' Hm Hr). lia.
      * intros r' c. rewrite lookup_insert_Some. intros [[<- _]|[_ Hr]]; [lia|]. apply Wh in Hr. lia.
    + intros m1 m2 s1 s2 r'. simpl. rewrite !lookup_insert_Some. intros [[<- <-]|[H1 H2]] [[<- <-]|[H3 H4]]; try done; simpl.
      * intros [= <-] E. pose proof (Wm m2 s2 _ H4 E). lia.
      * intros E [= <-]. pose proof (Wm m1 s1 _ H2 E). lia.
      * by apply U.
    + intros m' k. destruct (decide (m' = m)) as [->|Hne].
      * rewrite lookup_insert_eq, Em. simpl. by rewrite lookup_insert_eq.
      * rewrite lookup_insert_ne by done. destruct (sw_maps w !! m') as [s'|] eqn:E'; [|done]. simpl. by rewrite (Hfr m' s' E').
    + rewrite Em. simpl. by rewrite lookup_insert_eq.
    + intros m' Hne. by rewrite lookup_insert_ne.
    + intros m' s' _. apply Hfr.
    + by eexists.
    + exists (sw_next w). rewrite lookup_insert_eq. simpl. by rewrite lookup_insert_eq.
Qed.

(** The write, on a map that shares its data with no other. *)
Lemma write_world m key a w w' v sm r : sa_wf w -> unshared w -> sw_maps w !! m = Some sm -> sa_data sm = Some r ->
  content (Some r) (sw_heap w) !! key = None -> section_end m (doSet_write key a) w = Some (w', v) ->
  sa_wf w' /\ unshared w' /\ v = arg_value a /\ sw_maps w' = <[m := mkAnyMap (Some r) false]> (sw_maps w) /\
  content (Some r) (sw_heap w') = set_absent key a (content (Some r) (sw_heap w)) /\
  (forall m' s', m' <> m -> sw_maps w !! m' = Some s' -> content (sa_data s') (sw_heap w') = content (sa_data s') (sw_heap w)).
Proof.
  intros [Wm Wh] U Em Ed Hkey. unfold section_end. rewrite Em. cbn [mbind option_bind]. rewrite Ed.
  assert (Hmaps : forall m' s', (<[m := mkAnyMap (Some r) false]> (sw_maps w)) !! m' = Some s' -> exists s0, sw_maps w !! m' = Some s0 /\ sa_data s0 = sa_data s').
  { intros m' s'. rewrite lookup_insert_Some. intros [[<- <-]|[_ Hm]]; [exists sm; by rewrite Ed|by exists s']. }
  assert (HU : forall h nx, unshared (mkSaWorld h (<[m := mkAnyMap (Some r) false]> (sw_maps w)) nx)).
  { intros h nx m1 m2 s1 s2 r'. simpl. intros (t1 & T1 & <-)%Hmaps (t2 & T2 & <-)%Hmaps. by apply U. }
  assert (HW : forall h, (forall r' c, h !! r' = Some c -> (r' < sw_next w)%nat) -> sa_wf (mkSaWorld h (<[m := mkAnyMap (Some r) false]> (sw_maps w)) (sw_next w))).
  { intros h Hh. split; [|done]. simpl. intros m1 s1 r' (t1 & T1 & <-)%Hmaps. by apply (Wm m1). }
  assert (Hne : forall m' s', m' <> m -> sw_maps w !! m' = Some s' -> sa_data s' <> Some r) by (intros m' s' Hne Hm Hr; by destruct Hne; eapply U).
  unfold doSet_write. change (match a with AVal v => v | AFunc r => r end) with (arg_value a). unfold set_absent. rewrite Hkey.
  destruct (arg_value a) eqn:Ea; cbn [writing]; intros [= <- <-]; cbn [sw_maps sw_heap sw_next]; (split_and!; try done; try apply HU; try apply HW; try done;
    try (by apply (content_update_eq (Some r))); try (intros m' s' Hm1 Hm2; apply (content_update_ne _ (Some r)); by apply (Hne m' s'))).
  all: intros r' c; simpl; rewrite lookup_insert_Some; intros [[<- _]|[_ Hr]]; [by apply (Wm m sm)|by apply (Wh r' c)].
Qed.

Definition is_call (a : sa_action) : Prop := match a with SFirst _ _ | SSecond _ | SWrite _ => True | _ => False end.

Record calls_inv (s0 s : sa_state) : Prop := mkCallsInv {
  ci_wf : sa_wf (ss_world s);
  ci_unshared : unshared (ss_world s);
  ci_keep : forall m k x, sa_lookup (ss_world s0) m k = Some x -> sa_lookup (ss_world s) m k = Some x;
  ci_done : forall c v, (c, AnsValue v) ∈ ss_done s -> v <> GNil -> sa_lookup (ss_world s) (sc_map c) (sc_key c) = Some v;
  ci_from : forall m k x, sa_lookup (ss_world s) m k = Some x -> sa_lookup (ss_world s0) m k = Some x \/
    exists c ans, (c, ans) ∈ ss_done s /\ sc_key c = k /\ arg_value (sc_arg c) = x;
  ci_setting : forall m c, ss_setting s !! m = Some c -> sc_map c = m /\
    exists r, sw_maps (ss_world s) !! m = Some (mkAnyMap (Some r) true) /\ content (Some r) (sw_heap (ss_world s)) !! sc_key c = None }.

(** One more answer, in a world with the same entries. *)
Lemma calls_answer s0 s w c ans p mg st : calls_inv s0 s -> sa_wf w -> unshared w ->
  (forall m k, sa_lookup w m k = sa_lookup (ss_world s) m k) -> (forall v, ans = AnsValue v -> v <> GNil -> sa_lookup w (sc_map c) (sc_key c) = Some v) ->
  (forall m c, st !! m = Some c -> sc_map c = m /\
    exists r, sw_maps w !! m = Some (mkAnyMap (Some r) true) /\ content (Some r) (sw_heap w) !! sc_key c = None) ->
  calls_inv s0 (mkSaState w p (ss_done s ++ [(c, ans)]) mg st).
Proof.
  intros [W U K D F S] Ww Uw Hl Ha Hst. split; cbn [ss_world ss_done ss_setting]; try done.
  - intros m k x Hx. rewrite Hl. by apply K.
  - intros c' v' [Hin|Hin]%elem_of_app Hnil; [rewrite Hl; by apply D|]. apply list_elem_of_singleton in Hin. injection Hin as -> <-. by apply Ha.
  - intros m k x. rewrite Hl. intros Hx. destruct (F m k x Hx) as [?|(c' & an & Hin & ?)]; [by left|]. right. exists c', an. split; [|done]. apply elem_of_app. by left.
Qed.

(** A step on another map leaves the calls about to write as they are. *)
Lemma setting_other (s : sa_state) w m0 : (forall m c, ss_setting s !! m = Some c -> sc_map c = m /\
    exists r, sw_maps (ss_world s) !! m = Some (mkAnyMap (Some r) true) /\ content (Some r) (sw_heap (ss_world s)) !! sc_key c = None) ->
  (forall m', m' <> m0 -> sw_maps w !! m' = sw_maps (ss_world s) !! m') ->
  (forall m' s', m' <> m0 -> sw_maps (ss_world s) !! m' = Some s' -> content (sa_data s') (sw_heap w) = content (sa_data s') (sw_heap (ss_world s))) ->
  forall m c, m <> m0 -> ss_setting s !! m = Some c -> sc_map c = m /\
    exists r, sw_maps w !! m = Some (mkAnyMap (Some r) true) /\ content (Some r) (sw_heap w) !! sc_key c = None.
Proof.
  intros S Hm Hc m c Hne Hs. destruct (S m c Hs) as (E & r & H1 & H2). split; [done|]. exists r. rewrite (Hm m Hne). split; [done|].
  pose proof (Hc m _ Hne H1) as Hx. simpl sa_data in Hx. by rewrite Hx.
Qed.

Lemma second_calls_inv i s0 s s' : calls_inv s0 s -> call_second i s = Some s' -> calls_inv s0 s'.
Proof.
  intros I. pose proof I as [W U K D F S]. unfold call_second. destruct (ss_pending s !! i) as [c|]; cbn [mbind option_bind]; [|done].
  destruct (section _ _ _) as [[w v]|] eqn:E; [|done].
  destruct (check_world _ _ _ _ _ W U E) as (W' & U' & Hl & Hv & Hm & Hc & (sm & Hsm & Hf) & r & Hr & Hrk).
  assert (S' : forall m d, ss_setting s !! m = Some d -> sc_map d = m /\
    exists r, sw_maps w !! m = Some (mkAnyMap (Some r) true) /\ content (Some r) (sw_heap w) !! sc_key d = None).
  { intros m d Hs. apply (setting_other s w (sc_map c) S Hm Hc m d); [|done]. intros ->. destruct (S _ d Hs) as (_ & r' & H1 & _).
    rewrite Hsm in H1. injection H1 as ->. done. }
  destruct v as [v|]; intros [= <-].
  - unfold call_end. apply calls_answer; try done. intros v' Hv' _. rewrite Hl, <- Hv. destruct (sc_kind c); [|done]. by injection Hv' as ->.
  - assert (Hloc : forall m, sw_maps (set_locked (sc_map c) true w) !! m = if decide (m = sc_map c) then Some (mkAnyMap (Some r) true) else sw_maps w !! m).
    { intros m. simpl. case_decide as Em; [subst m; by rewrite lookup_alter_eq, Hr|by rewrite lookup_alter_ne]. }
    assert (Hdat : forall m s', sw_maps (set_locked (sc_map c) true w) !! m = Some s' -> exists s1, sw_maps w !! m = Some s1 /\ sa_data s1 = sa_data s').
    { intros m s1. rewrite Hloc. case_decide as Em; [intros [= <-]; subst m; by eexists|by eexists]. }
    assert (Hlk : forall m k, sa_lookup (set_locked (sc_map c) true w) m k = sa_lookup (ss_world s) m k).
    { intros m k. rewrite <- Hl. unfold sa_lookup. rewrite Hloc. case_decide as Em; [subst m; by rewrite Hr|done]. }
    split; cbn [ss_world ss_done ss_setting].
    + split; [|apply W']. intros m s1 r1 (s2 & H1 & <-)%Hdat. by apply (proj1 W' m).
    + intros m1 m2 s1 s2 r1 (t1 & T1 & <-)%Hdat (t2 & T2 & <-)%Hdat. by apply U'.
    + intros m k x Hx. rewrite Hlk. by apply K.
    + intros d x Hin Hn. rewrite Hlk. by apply D.
    + intros m k x. rewrite Hlk. by apply F.
    + intros m d. rewrite lookup_insert_Some, Hloc. intros [[<- <-]|[Hne Hs]]; [rewrite decide_True by done; split; [done|]; by exists r|].
      rewrite decide_False by done. by apply S'.
Qed.

Lemma write_calls_inv m s0 s s' : calls_inv s0 s -> call_write m s = Some s' -> calls_inv s0 s'.
Proof.
  intros I. pose proof I as [W U K D F S]. unfold call_write. destruct (ss_setting s !! m) as [c|] eqn:Hs; cbn [mbind option_bind]; [|done].
  destruct (S m c Hs) as (Ec & r & Hm & Hk). destruct (section_end _ _ _) as [[w v]|] eqn:E; [|done].
  destruct (write_world _ _ _ _ _ _ _ r W U Hm eq_refl Hk E) as (W' & U' & -> & Hmaps & Hc & Ho). intros [= <-].
  assert (Hown : forall k, sa_lookup w m k = set_absent (sc_key c) (sc_arg c) (content (Some r) (sw_heap (ss_world s))) !! k).
  { intros k. unfold sa_lookup. rewrite Hmaps, lookup_insert_eq. cbn [mbind option_bind sa_data]. by rewrite Hc. }
  assert (Hwas : forall k, sa_lookup (ss_world s) m k = content (Some r) (sw_heap (ss_world s)) !! k) by (intros k; unfold sa_lookup; by rewrite Hm).
  assert (Hoth : forall m' k, m' <> m -> sa_lookup w m' k = sa_lookup (ss_world s) m' k).
  { intros m' k Hne. unfold sa_lookup. rewrite Hmaps, lookup_insert_ne by done. destruct (sw_maps (ss_world s) !! m') as [s1|] eqn:E1; [|done].
    simpl. by rewrite (Ho m' s1 Hne E1). }
  assert (Hkeep : forall m' k x, sa_lookup (ss_world s) m' k = Some x -> sa_lookup w m' k = Some x).
  { intros m' k x Hx. destruct (decide (m' = m)) as [->|Hne]; [|by rewrite Hoth]. rewrite Hown. rewrite Hwas in Hx. by apply set_absent_keeps. }
  split; cbn [ss_world ss_done ss_setting]; try done.
  - intros m' k x Hx. by apply Hkeep, K.
  - intros c' v' [Hin|Hin]%elem_of_app Hnil; [by apply Hkeep, D|]. apply list_elem_of_singleton in Hin. injection Hin as -> Hv.
    destruct (sc_kind c); [|done]. injection Hv as ->. rewrite Ec, Hown. by apply set_absent_own.
  - intros m' k x Hx. assert (Hx' : sa_lookup (ss_world s) m' k = Some x \/ (k = sc_key c /\ x = arg_value (sc_arg c))).
    { destruct (decide (m' = m)) as [->|Hne]; [|left; by rewrite <- Hoth]. rewrite Hown in Hx. rewrite Hwas. by apply (set_absent_from (sc_key c)). }
    destruct Hx' as [H| [-> ->]].
    + destruct (F m' k x H) as [?|(c' & ans & Hin & ?)]; [by left|]. right. exists c', ans. split; [|done]. apply elem_of_app. by left.
    + right. eexists c, _. split; [|done]. apply elem_of_app. right. by left.
  - intros m' d [Hne Hd]%lookup_delete_Some. apply (setting_other s w m S); [|done|done|done]. intros k Hk'. by rewrite Hmaps, lookup_insert_ne.
Qed.

Lemma exec_calls_inv a s0 s s' : is_call a -> calls_inv s0 s -> exec_sa a s = Some s' -> calls_inv s0 s'.
Proof.
  intros Ha I. destruct a as [i c|i|m|m f|m o|m]; try done; cbn [exec_sa]; [|by apply second_calls_inv|by apply write_calls_inv].
  pose proof I as [W U K D F S]. unfold call_first. destruct (ss_pending s !! i); [done|].
  destruct (section _ _ _) as [[w [v ok]]|] eqn:E; [|done]. apply section_reading in E as (-> & sm & Hm & _ & Hr).
  destruct ok; intros [= <-]; [|by split]. apply calls_answer; try done. intros v' Hv' _.
  unfold sa_lookup. rewrite Hm. simpl. destruct (sc_kind c); [|done]. injection Hv' as ->. by destruct (content _ _ !! sc_key c); injection Hr as ->.
Qed.

Lemma run_sa_cons a l s : run_sa (a :: l) s = exec_sa a s ≫= run_sa l.
Proof. unfold run_sa. cbn [foldl mbind option_bind]. destruct (exec_sa a s) as [s'|]; cbn [mbind option_bind]; [done|]. by induction l. Qed.

(** C34: However calls of GetOrSet, GetOrSetFunc, GetOrSetFuncLock and the three SetIfNotExist
    interleave, on maps that do not share their data ([unshared]; for maps that do, whose
    locks are different, see [shared_data_loses_first]), the value that is set first stays:
    every GetOrSet that has answered with a value other than nil has answered what the map
    has under its key now, so that all callers of a key got the same; what was there before
    is there still, and everything else is an argument of a finished call. At first none has
    answered or holds a lock to write, and there are no other calls. *)
Theorem GetOrSet_first_wins (l : list sa_action) (s0 s : sa_state) :
  sa_wf (ss_world s0) -> unshared (ss_world s0) -> ss_done s0 = [] -> ss_setting s0 = ∅ -> Forall is_call l -> run_sa l s0 = Some s ->
  (forall c v, (c, AnsValue v) ∈ ss_done s -> v <> GNil -> sa_lookup (ss_world s) (sc_map c) (sc_key c) = Some v) /\
  (forall m k x, sa_lookup (ss_world s0) m k = Some x -> sa_lookup (ss_world s) m k = Some x) /\
  (forall m k x, sa_lookup (ss_world s) m k = Some x ->
    sa_lookup (ss_world s0) m k = Some x \/ exists c ans, (c, ans) ∈ ss_done s /\ sc_key c = k /\ arg_value (sc_arg c) = x).
Proof.
  intros W U Hd Hs Hl E. assert (I : calls_inv s0 s).
  { assert (I0 : calls_inv s0 s0).
    { split; [done..|intros c v; rewrite Hd; by intros ?%not_elem_of_nil|by left|]. rewrite Hs. intros m c Hm. by rewrite lookup_empty in Hm. }
    revert E I0. generalize s0 at 1 3 as s1. induction Hl as [|a l Ha _ IH]; intros s1; [by intros [= <-]|]. rewrite run_sa_cons.
    destruct (exec_sa a s1) as [s2|] eqn:E2; cbn [mbind option_bind]; [|done]. intros E I1. apply (IH s2 E). by apply (exec_calls_inv a s0 s1). }
  split; [apply I|]. split; [apply I|apply I].
Qed.

(** ** Merges *)

(** The maps whose lock is held are those with a merge or a write under way, never both;
    merges are between maps that exist. *)
Record locks_ok (s : sa_state) : Prop := {
  lk_held : forall m sm, sw_maps (ss_world s) !! m = Some sm -> sa_locked sm = true <-> is_Some (ss_merges s !! m) \/ is_Some (ss_setting s !! m);
  lk_merges : forall m o, ss_merges s !! m = Some o -> is_Some (sw_maps (ss_world s) !! m) /\ is_Some (sw_maps (ss_world s) !! o);
  lk_setting : forall m, is_Some (ss_setting s !! m) -> is_Some (sw_maps (ss_world s) !! m) /\ ss_merges s !! m = None }.

Lemma section_maps {T} m (f : sec_state -> sec_state * T) w w' r : section m f w = Some (w', r) ->
  exists sm d, sw_maps w !! m = Some sm /\ sa_locked sm = false /\ sw_maps w' = <[m := mkAnyMap d false]> (sw_maps w).
Proof.
  unfold section. destruct (sw_maps w !! m) as [[d b]|]; cbn [mbind option_bind]; [|done]. destruct b; [done|].
  cbn [sa_locked sa_data]. destruct (f _) as [[[d' h'] nx'] r']. intros [= <- <-]. by exists (mkAnyMap d false), d'.
Qed.

Lemma section_end_maps {T} m (f : sec_state -> sec_state * T) w w' r : section_end m f w = Some (w', r) ->
  exists sm d, sw_maps w !! m = Some sm /\ sw_maps w' = <[m := mkAnyMap d false]> (sw_maps w).
Proof.
  unfold section_end. destruct (sw_maps w !! m) as [sm|]; cbn [mbind option_bind]; [|done].
  destruct (f _) as [[[d' h'] nx'] r']. intros [= <- <-]. by exists sm, d'.
Qed.

(** One map is replaced, and who holds its lock. *)
Lemma locks_put s m sm d b w p dn mg st : locks_ok s -> sw_maps (ss_world s) !! m = Some sm ->
  sw_maps w = <[m := mkAnyMap d b]> (sw_maps (ss_world s)) ->
  (forall m', m' <> m -> mg !! m' = ss_merges s !! m' /\ st !! m' = ss_setting s !! m') ->
  (b = true <-> is_Some (mg !! m) \/ is_Some (st !! m)) ->
  (forall o, mg !! m = Some o -> is_Some (sw_maps (ss_world s) !! o)) -> (is_Some (st !! m) -> mg !! m = None) ->
  locks_ok (mkSaState w p dn mg st).
Proof.
  intros [H1 H2 H3] Hm Hw Ho Hb Hmg Hst. split; cbn [ss_world ss_merges ss_setting]; rewrite ?Hw.
  - intros m' s'. rewrite lookup_insert_Some. intros [[<- <-]|[Hne Hs]]; [done|]. destruct (Ho m' (not_eq_sym Hne)) as [-> ->]. by apply H1.
  - intros m' o. rewrite !lookup_insert_is_Some. destruct (decide (m' = m)) as [->|Hne].
    + intros E. split; [by left|]. destruct (decide (m = o)); [by left|right]. split; [done|]. by apply Hmg.
    + destruct (Ho m' Hne) as [-> _]. intros E. destruct (H2 m' o E) as [E1 E2]. split; [right; by split; [congruence|]|].
      destruct (decide (m = o)); [by left|right; by split].
  - intros m'. rewrite lookup_insert_is_Some. destruct (decide (m' = m)) as [->|Hne]; [intros E; split; [by left|by apply Hst]|].
    destruct (Ho m' Hne) as [-> ->]. intros E. destruct (H3 m' E) as [E1 E2]. split; [|done]. right. by split; [congruence|].
Qed.

Lemma locks_free s m sm : locks_ok s -> sw_maps (ss_world s) !! m = Some sm -> sa_locked sm = false ->
  ss_merges s !! m = None /\ ss_setting s !! m = None.
Proof.
  intros [H1 _ _] Hm Hf. pose proof (H1 m sm Hm) as [_ E]. rewrite Hf in E.
  split; apply eq_None_not_Some; intros Hs; discriminate E; auto.
Qed.

Lemma locks_section s m sm d w p dn : locks_ok s -> sw_maps (ss_world s) !! m = Some sm -> sa_locked sm = false ->
  sw_maps w = <[m := mkAnyMap d false]> (sw_maps (ss_world s)) -> locks_ok (mkSaState w p dn (ss_merges s) (ss_setting s)).
Proof.
  intros I Hm Hf Hw. destruct (locks_free s m sm I Hm Hf) as [E1 E2]. apply (locks_put s m sm d false); try done.
  - split; [done|]. rewrite E1, E2. by intros [[? ?]|[? ?]].
  - intros o. by rewrite E1.
Qed.

Lemma exec_sa_locks a s s' : locks_ok s -> exec_sa a s = Some s' -> locks_ok s'.
Proof.
  intros I. pose proof I as [H1 H2 H3]. destruct a as [i c|i|m|m f|m o|m]; cbn [exec_sa].
  - unfold call_first. destruct (ss_pending s !! i); [done|]. destruct (section _ _ _) as [[w [v ok]]|] eqn:E; [|done].
    apply section_reading in E as (-> & _). destruct ok; intros [= <-]; by split.
  - unfold call_second. destruct (ss_pending s !! i) as [c|]; cbn [mbind option_bind]; [|done].
    destruct (section _ _ _) as [[w [v|]]|] eqn:E; [| |done]; apply section_maps in E as (sm & d & Hm & Hf & E); intros [= <-]; [by eapply locks_section|].
    destruct (locks_free s _ sm I Hm Hf) as [E1 E2]. apply (locks_put s (sc_map c) sm d true); [done|done| | | | |done].
    + simpl. by rewrite E, alter_insert_eq.
    + intros m' Hne. by rewrite lookup_insert_ne.
    + split; [|done]. intros _. right. rewrite lookup_insert_eq. by eexists.
    + intros o. by rewrite E1.
  - unfold call_write. destruct (ss_setting s !! m) as [c|] eqn:Es; cbn [mbind option_bind]; [|done].
    destruct (section_end _ _ _) as [[w v]|] eqn:E; [|done]. apply section_end_maps in E as (sm & d & Hm & E). intros [= <-].
    destruct (H3 m ltac:(by eexists)) as [_ E1]. apply (locks_put s m sm d false); try done.
    + intros m' Hne. by rewrite lookup_delete_ne.
    + split; [done|]. rewrite E1, lookup_delete_eq. by intros [[? ?]|[? ?]].
    + intros o. by rewrite E1.
  - destruct (section _ _ _) as [[w v]|] eqn:E; [|done]. apply section_maps in E as (sm & d & Hm & Hf & E).
    intros [= <-]. by eapply locks_section.
  - unfold Merge_lock. destruct (sw_maps (ss_world s) !! m) as [sm|] eqn:Em; cbn [mbind option_bind]; [|done].
    destruct (sw_maps (ss_world s) !! o) eqn:Eo; cbn [mbind option_bind]; [|done]. destruct (sa_locked sm) eqn:El; [done|]. intros [= <-].
    destruct (locks_free s m sm I Em El) as [E1 E2]. apply (locks_put s m sm (sa_data sm) true); [done|done| | | | |].
    + simpl. rewrite <- (insert_id (sw_maps (ss_world s)) m sm Em) at 1. by rewrite alter_insert_eq.
    + intros m' Hne. by rewrite lookup_insert_ne.
    + split; [|done]. intros _. left. rewrite lookup_insert_eq. by eexists.
    + intros o'. rewrite lookup_insert_eq. intros [= <-]. by eexists.
    + rewrite E2. by intros [? ?].
  - unfold Merge_copy. destruct (ss_merges s !! m) as [o|] eqn:Eo; cbn [mbind option_bind]; [|done].
    destruct (sw_maps (ss_world s) !! m) as [sm|] eqn:Em; cbn [mbind option_bind]; [|done]. destruct (sw_maps (ss_world s) !! o) as [so|]; cbn [mbind option_bind]; [|done].
    assert (Hst : ss_setting s !! m = None) by (apply eq_None_not_Some; intros Hs; apply H3 in Hs as [_ Hs]; congruence).
    assert (G : forall h d nx, locks_ok (mkSaState (mkSaWorld h (<[m := mkAnyMap d false]> (sw_maps (ss_world s))) nx) (ss_pending s) (ss_done s) (delete m (ss_merges s)) (ss_setting s))).
    { intros h d nx. apply (locks_put s m sm d false); try done.
      - intros m' Hne. by rewrite lookup_delete_ne.
      - split; [done|]. rewrite lookup_delete_eq, Hst. by intros [[? ?]|[? ?]].
      - intros o'. by rewrite lookup_delete_eq.
      - rewrite Hst. by intros [? ?]. }
    destruct (sa_data sm) as [r|].
    + destruct (_ && _); [done|]. intros [= <-]. apply G.
    + destruct (sa_locked so); [done|]. destruct (sa_MapCopy _) as [[[d h] nx] r]. intros [= <-]. apply G.
Qed.

(** Merges into maps of lower number from maps of higher number, or of a map that is not nil
    into itself, always come to an end: as long as one is under way, one can go on, or a call
    that holds the lock of a map can write and free it. *)
Theorem merge_ordered_progress (s : sa_state) : locks_ok s ->
  (forall m o, ss_merges s !! m = Some o -> (m < o)%nat \/ (m = o /\ exists sm, sw_maps (ss_world s) !! m = Some sm /\ sa_data sm <> None)) ->
  ss_merges s <> ∅ -> exists m s',
    (is_Some (ss_merges s !! m) /\ exec_sa (SMergeCopy m) s = Some s' /\ ss_merges s' = delete m (ss_merges s)) \/
    (is_Some (ss_setting s !! m) /\ exec_sa (SWrite m) s = Some s' /\ ss_setting s' = delete m (ss_setting s)).
Proof.
  intros [H1 H2 H3] Hord Hne. destruct (decide (ss_setting s = ∅)) as [Hempty|Hsome].
  2: { destruct (map_choose _ Hsome) as (m & c & Hm). destruct (H3 m ltac:(by eexists)) as [[sm Hsm] _]. exists m. cbn [exec_sa].
    unfold call_write, section_end. rewrite Hm. cbn [mbind option_bind]. rewrite Hsm. cbn [mbind option_bind].
    destruct (doSet_write _ _ _) as [[[d h] nx] v]. eexists. right. split; [by eexists|]. by split. }
  assert (Hmax : exists m o, ss_merges s !! m = Some o /\ forall m', is_Some (ss_merges s !! m') -> (m' <= m)%nat).
  { clear - Hne. revert Hne. induction (ss_merges s) as [|i x mm Hi IH] using map_ind; [done|]. intros _. destruct (decide (mm = ∅)) as [->|Hn].
    - exists i, x. split; [apply lookup_insert_eq|]. intros m' [->|H]%lookup_insert_is_Some'; [lia|]. by apply lookup_empty_is_Some in H.
    - destruct (IH Hn) as (m & o & Hm & Hall). destruct (decide (m <= i)%nat).
      + exists i, x. split; [apply lookup_insert_eq|]. intros m' [->|Hm']%lookup_insert_is_Some'; [lia|]. specialize (Hall m' Hm'). lia.
      + exists m, o. rewrite lookup_insert_ne by congruence. split; [done|]. intros m' [->|Hm']%lookup_insert_is_Some'; [lia|]. by apply Hall. }
  destruct Hmax as (m & o & Hm & Hall). destruct (H2 m o Hm) as [[sm Esm] [so Eso]].
  assert (Hfree : (m < o)%nat -> sa_locked so = false).
  { intros Hlt. destruct (sa_locked so) eqn:E; [|done]. apply (H1 o so Eso) in E as [E|E]; [apply Hall in E; lia|]. rewrite Hempty in E. by apply lookup_empty_is_Some in E. }
  exists m. cbn [exec_sa]. unfold Merge_copy. rewrite Hm. cbn [mbind option_bind]. rewrite Esm. cbn [mbind option_bind]. rewrite Eso. cbn [mbind option_bind].
  destruct (sa_data sm) as [r|] eqn:Ed.
  - destruct (Hord m o Hm) as [Hlt|[-> _]].
    + rewrite (Hfree Hlt), andb_false_r. eexists. left. split; [by eexists|]. by split.
    + rewrite Nat.eqb_refl. simpl. eexists. left. split; [by eexists|]. by split.
  - destruct (Hord m o Hm) as [Hlt|[-> (x & Hx & Hd)]]; [|congruence]. rewrite (Hfree Hlt).
    destruct (sa_MapCopy _) as [[[d h] nx] q]. eexists. left. split; [by eexists|]. by split.
Qed.

(** ** Runs *)

Definition fresh_state (w : sa_world) : sa_state := mkSaState w ∅ [] ∅ ∅.
(** Two maps, the first of which shares its map with a third. *)
Definition demo_world : sa_world := NewStrAnyMapFrom 3 (Some 0%nat) (NewStrAnyMap 2 (NewStrAnyMap 1 (mkSaWorld ∅ ∅ 0))).

Lemma demo_world_wf : sa_wf demo_world.
Proof.
  split.
  - intros m s r Hm Hr. assert (H : map_Forall (fun _ s => match sa_data s with Some r => (r <? 2)%nat | None => true end = true) (sw_maps demo_world)).
    { apply (bool_decide_eq_true_1 _). vm_compute. reflexivity. }
    specialize (H m s Hm). cbv beta in H. rewrite Hr in H. by apply Nat.ltb_lt in H.
  - intros r c Hr. assert (H : r ∈ dom (sw_heap demo_world)) by (apply elem_of_dom; by eexists).
    assert (E : dom (sw_heap demo_world) = {[0%nat; 1%nat]}) by (vm_compute; reflexivity). rewrite E in H. change (sw_next demo_world) with 2%nat.
    apply elem_of_union in H as [->%elem_of_singleton| ->%elem_of_singleton]; lia.
Qed.

(** Two maps that share nothing. *)
Definition own_world : sa_world := NewStrAnyMap 2 (NewStrAnyMap 1 (mkSaWorld ∅ ∅ 0)).

Lemma own_world_wf : sa_wf own_world /\ unshared own_world.
Proof.
  assert (H : forall m s, sw_maps own_world !! m = Some s -> (m = 1%nat /\ sa_data s = Some 0%nat) \/ (m = 2%nat /\ sa_data s = Some 1%nat)).
  { intros m s. unfold own_world, NewStrAnyMap. simpl. rewrite lookup_insert_Some. intros [[<- <-]|[_ Hs]]; [by right|].
    apply lookup_insert_Some in Hs as [[<- <-]|[_ Hs]]; [by left|]. by rewrite lookup_empty in Hs. }
  split; [split|].
  - intros m s r [[_ ->]|[_ ->]]%H [= <-]; simpl; lia.
  - intros r c. unfold own_world, NewStrAnyMap. simpl. rewrite lookup_insert_Some. intros [[<- _]|[_ Hs]]; [lia|].
    apply lookup_insert_Some in Hs as [[<- _]|[_ Hs]]; [lia|]. by rewrite lookup_empty in Hs.
  - intros m m' s s' r [[-> E]|[-> E]]%H [[-> E']|[-> E']]%H; congruence.
Qed.

Definition race_calls : list sa_action :=
  [SFirst 1 (GetOrSet 1 "k" (AVal (GStr "a"))); SFirst 2 (GetOrSetFuncLock 1 "k" (GStr "b")); SFirst 3 (SetIfNotExist 1 "k" (AVal (GStr "c")));
   SSecond 2; SFirst 4 (GetOrSet 2 "k" (AVal (GStr "d"))); SWrite 1; SSecond 1; SSecond 3; SSecond 4; SWrite 2].
Definition race_end : sa_state := default (fresh_state own_world) (run_sa race_calls (fresh_state own_world)).

Lemma race_end_answers : run_sa race_calls (fresh_state own_world) = Some race_end /\
  ss_done race_end !! 1%nat = Some (GetOrSet 1 "k" (AVal (GStr "a")), AnsValue (GStr "b")).
Proof. split; vm_compute; reflexivity. Qed.

Lemma GetOrSet_first_wins_witness :
  exists c, (c, AnsValue (GStr "b")) ∈ ss_done race_end /\ sa_lookup (ss_world race_end) (sc_map c) (sc_key c) = Some (GStr "b").
Proof.
  exists (GetOrSet 1 "k" (AVal (GStr "a"))). destruct race_end_answers as [E H]. apply list_elem_of_lookup_2 in H. split; [exact H|].
  apply (proj1 (GetOrSet_first_wins race_calls (fresh_state own_world) race_end (proj1 own_world_wf) (proj2 own_world_wf) eq_refl eq_refl
    ltac:(repeat constructor) E)); [exact H|discriminate].
Defined.

(** Two calls of SetIfNotExist that both find the key missing both answer true; the value of
    the second is dropped. *)
Lemma SetIfNotExist_both_true :
  (fun s => (ss_done s, sa_lookup (ss_world s) 1 "k")) <$>
    run_sa [SFirst 1 (SetIfNotExist 1 "k" (AVal (GStr "a"))); SFirst 2 (SetIfNotExist 1 "k" (AVal (GStr "b"))); SSecond 1; SWrite 1; SSecond 2] (fresh_state own_world) =
  Some ([(SetIfNotExist 1 "k" (AVal (GStr "a")), AnsBool true); (SetIfNotExist 1 "k" (AVal (GStr "b")), AnsBool true)], Some (GStr "a")).
Proof. vm_compute. reflexivity. Qed.

(** Two maps that share their data do not exclude each other: both calls find the key
    missing, each with its own lock, the second overwrites what the first has set, and the
    first has answered a value that no map has. *)
Lemma shared_data_loses_first :
  (fun s => (ss_done s, sa_lookup (ss_world s) 1 "k", sa_lookup (ss_world s) 3 "k")) <$>
    run_sa [SFirst 1 (GetOrSet 1 "k" (AVal (GStr "a"))); SFirst 2 (GetOrSet 3 "k" (AVal (GStr "b"))); SSecond 1; SSecond 2; SWrite 1; SWrite 3]
      (fresh_state demo_world) =
  Some ([(GetOrSet 1 "k" (AVal (GStr "a")), AnsValue (GStr "a")); (GetOrSet 3 "k" (AVal (GStr "b")), AnsValue (GStr "b"))], Some (GStr "b"), Some (GStr "b")).
Proof. vm_compute. reflexivity. Qed.

(** A map made from another's data changes with it. *)
Lemma given_map_is_shared :
  (fun s => sa_lookup (ss_world s) 3 "k") <$> run_sa [SSection 1 (sa_Set "k" (GStr "a"))] (fresh_state demo_world) = Some (Some (GStr "a")).
Proof. vm_compute. reflexivity. Qed.

(** A merge that waits for a lock which only its own end, or the end of a merge that waits
    for it, would release: it waits for ever, whatever else happens. *)
Definition merge_stuck (m : nat) (s : sa_state) : Prop :=
  ss_merges s !! m = Some m /\ ss_setting s !! m = None /\ exists sm, sw_maps (ss_world s) !! m = Some sm /\ sa_locked sm = true /\ sa_data sm = None.
Definition merges_stuck (m o : nat) (s : sa_state) : Prop :=
  m <> o /\ ss_merges s !! m = Some o /\ ss_merges s !! o = Some m /\ ss_setting s !! m = None /\ ss_setting s !! o = None /\
  exists sm so, sw_maps (ss_world s) !! m = Some sm /\ sw_maps (ss_world s) !! o = Some so /\ sa_locked sm = true /\ sa_locked so = true.

(** What a step does to a map whose lock a merge holds. *)
Lemma exec_sa_locked a s s' m sm : exec_sa a s = Some s' -> a <> SMergeCopy m -> sw_maps (ss_world s) !! m = Some sm -> sa_locked sm = true ->
  ss_setting s !! m = None -> sw_maps (ss_world s') !! m = Some sm /\ ss_merges s' !! m = ss_merges s !! m /\ ss_setting s' !! m = None.
Proof.
  intros E Ha Hm Hl Hst. destruct a as [i c|i|k|k f|k o|k]; cbn [exec_sa] in E.
  - unfold call_first in E. destruct (ss_pending s !! i); [done|]. destruct (section _ _ _) as [[w [v ok]]|] eqn:Es; [|done].
    apply section_reading in Es as (-> & _). by destruct ok; injection E as <-.
  - unfold call_second in E. destruct (ss_pending s !! i) as [c|]; cbn [mbind option_bind] in E; [|done].
    destruct (section _ _ _) as [[w v]|] eqn:Es; [|done]. apply section_maps in Es as (x & d & Hx & Hf & Emap).
    assert (sc_map c <> m) as Hc by (intros Hk; rewrite Hk in Hx; congruence).
    destruct v as [v|]; injection E as <-; cbn [ss_world ss_merges ss_setting set_locked sw_maps]; rewrite ?lookup_alter_ne, Emap by done; by rewrite !lookup_insert_ne.
  - unfold call_write in E. destruct (ss_setting s !! k) as [c|] eqn:Ek; cbn [mbind option_bind] in E; [|done].
    destruct (section_end _ _ _) as [[w v]|] eqn:Es; [|done]. apply section_end_maps in Es as (x & d & Hx & Emap). injection E as <-.
    assert (k <> m) by congruence. cbn [ss_world ss_merges ss_setting]. by rewrite Emap, lookup_insert_ne, lookup_delete_ne.
  - destruct (section _ _ _) as [[w v]|] eqn:Es; [|done]. apply section_maps in Es as (x & d & Hx & Hf & Emap). injection E as <-.
    cbn [ss_world ss_merges]. rewrite Emap, lookup_insert_ne; [done|]. intros Hk. rewrite Hk in Hx. congruence.
  - unfold Merge_lock in E. destruct (sw_maps (ss_world s) !! k) as [x|] eqn:Ek; cbn [mbind option_bind] in E; [|done].
    destruct (sw_maps (ss_world s) !! o); cbn [mbind option_bind] in E; [|done]. destruct (sa_locked x) eqn:El; [done|]. injection E as <-.
    cbn [ss_world ss_merges set_locked sw_maps]. assert (k <> m) by congruence. by rewrite lookup_alter_ne, lookup_insert_ne.
  - unfold Merge_copy in E. destruct (ss_merges s !! k) as [o|]; cbn [mbind option_bind] in E; [|done].
    destruct (sw_maps (ss_world s) !! k) as [x|]; cbn [mbind option_bind] in E; [|done]. destruct (sw_maps (ss_world s) !! o) as [y|]; cbn [mbind option_bind] in E; [|done].
    assert (Hk : k <> m) by congruence. destruct (sa_data x).
    + destruct (_ && _); [done|]. injection E as <-. cbn [ss_world ss_merges sw_maps]. by rewrite lookup_insert_ne, lookup_delete_ne.
    + destruct (sa_locked y); [done|]. destruct (sa_MapCopy _) as [[[d h] nx] q]. injection E as <-. cbn [ss_world ss_merges sw_maps]. by rewrite lookup_insert_ne, lookup_delete_ne.
Qed.

Lemma merge_stuck_forever m s a s' : merge_stuck m s -> exec_sa a s = Some s' -> merge_stuck m s'.
Proof.
  intros (Hm & Hst & sm & Hs & Hl & Hd) E. destruct (exec_sa_locked a s s' m sm E) as (H1 & H2 & H3); try done; [|split; [by rewrite H2|split; [done|by exists sm]]].
  intros ->. cbn [exec_sa] in E. unfold Merge_copy in E. rewrite Hm in E. cbn [mbind option_bind] in E. rewrite Hs in E. cbn [mbind option_bind] in E.
  by rewrite Hd, Hl in E.
Qed.

Lemma merges_stuck_forever m o s a s' : merges_stuck m o s -> exec_sa a s = Some s' -> merges_stuck m o s'.
Proof.
  intros (Hne & Hm & Ho & Sm & So & sm & so & Hs & Hso & Hl & Hlo) E.
  assert (Hblock : forall k j sk sj, k <> j -> ss_merges s !! k = Some j -> sw_maps (ss_world s) !! k = Some sk -> sw_maps (ss_world s) !! j = Some sj ->
    sa_locked sj = true -> Merge_copy k s = None).
  { intros k j sk sj Hk Hj Ek Ej El. unfold Merge_copy. rewrite Hj. cbn [mbind option_bind]. rewrite Ek. cbn [mbind option_bind]. rewrite Ej. cbn [mbind option_bind].
    rewrite El, andb_true_r, (proj2 (Nat.eqb_neq j k)) by congruence. by destruct (sa_data sk). }
  destruct (exec_sa_locked a s s' m sm E) as (H1 & H2 & H5); try done.
  { intros ->. cbn [exec_sa] in E. by rewrite (Hblock m o sm so) in E. }
  destruct (exec_sa_locked a s s' o so E) as (H3 & H4 & H6); try done.
  { intros ->. cbn [exec_sa] in E. by rewrite (Hblock o m so sm) in E. }
  split; [done|]. rewrite H2, H4. do 4 (split; [done|]). by exists sm, so.
Qed.

(** Merging a map that is nil into itself, and merging two maps into each other. *)
Definition nil_world : sa_world := NewStrAnyMapFrom 1 None demo_world.
Lemma merge_into_itself_hangs : exists s, run_sa [SMergeLock 1 1] (fresh_state nil_world) = Some s /\ merge_stuck 1 s.
Proof. eexists. split; [vm_compute; reflexivity|]. split_and!; [vm_compute; reflexivity..|]. eexists. split_and!; vm_compute; reflexivity. Qed.
Lemma merge_into_each_other_hangs : exists s, run_sa [SMergeLock 1 2; SMergeLock 2 1] (fresh_state demo_world) = Some s /\ merges_stuck 1 2 s.
Proof.
  eexists. split; [vm_compute; reflexivity|]. split; [done|]. do 4 (split; [vm_compute; reflexivity|]).
  eexists _, _. split_and!; vm_compute; reflexivity.
Qed.

(** No lock of a world that nobody is at is held. *)
Lemma fresh_locks w : map_Forall (fun _ s => sa_locked s = false) (sw_maps w) -> locks_ok (fresh_state w).
Proof.
  intros H. split; cbn [ss_world ss_merges ss_setting fresh_state].
  - intros m sm Hm. rewrite (H m sm Hm). split; [done|]. by intros [Hs%lookup_empty_is_Some|Hs%lookup_empty_is_Some].
  - intros m o Hm. by rewrite lookup_empty in Hm.
  - intros m Hs. by apply lookup_empty_is_Some in Hs.
Qed.

Lemma demo_locks : exists s, run_sa [SMergeLock 1 2] (fresh_state demo_world) = Some s /\ locks_ok s /\ ss_merges s = {[1%nat := 2%nat]} /\ ss_setting s = ∅.
Proof.
  destruct (run_sa [SMergeLock 1 2] (fresh_state demo_world)) as [s|] eqn:E; [|vm_compute in E; discriminate E]. exists s. split; [done|].
  rewrite run_sa_cons in E. destruct (exec_sa _ _) as [s1|] eqn:E1; [|done]. cbn [mbind option_bind] in E. injection E as ->. split.
  - apply (exec_sa_locks (SMergeLock 1 2) (fresh_state demo_world) s); [|done]. apply fresh_locks. apply (bool_decide_eq_true_1 _). vm_compute. reflexivity.
  - revert E1. vm_compute. by intros [= <-].
Qed.

Lemma merge_ordered_progress_witness : exists s m s', ss_merges s = {[1%nat := 2%nat]} /\ exec_sa (SMergeCopy m) s = Some s' /\ ss_merges s' = delete m (ss_merges s).
Proof.
  destruct demo_locks as (s & _ & I & Hm & Hst). exists s. destruct (merge_ordered_progress s I) as (m & s' & [(_ & E & Hd)|[Hs _]]).
  - intros m o. rewrite Hm. intros [<- <-]%lookup_singleton_Some. left. lia.
  - rewrite Hm. apply map_non_empty_singleton.
  - exists m, s'. split; [exact Hm|]. split; [exact E|exact Hd].
  - exfalso. rewrite Hst in Hs. by apply lookup_empty_is_Some in Hs.
Defined.
