(* ===== verification/Containers.v ===== *)
(** Two containers: the generic map (src/extend/map/map.go), whose [Keys] and [Values] take
    the size and the entries in two steps, and the queue of many producers and one consumer
    (src/extend/queue/queue.go), at the grain of its atomic operations. *)
From S2P Require Import Prelude.

(** ** The map *)

Section GenericMap.
Context {K V : Type} `{Countable K}.
Variables (zeroK : K) (zeroV : V).

(** A safe map takes its lock in every method; the other one leaves that to the caller. *)
(** src/extend/map/map.go:9-13, Map *)
Record GMap := mkGMap { gm_m : gmap K V; gm_safe : bool }.

(** src/extend/map/map.go:15-26, NewMap *)
Definition NewMap (safe : list bool) : GMap := mkGMap ∅ (match safe with b :: _ => b | [] => false end).
(** src/extend/map/map.go:28-35, Map.Put *)
Definition GMap_Put (key : K) (value : V) (p : GMap) : GMap := mkGMap (<[key := value]> (gm_m p)) (gm_safe p).
(** src/extend/map/map.go:37-45, Map.Get *)
Definition GMap_Get (key : K) (p : GMap) : V * bool := match gm_m p !! key with Some v => (v, true) | None => (zeroV, false) end.
(** src/extend/map/map.go:47-58, Map.Remove *)
Definition GMap_Remove (key : K) (p : GMap) : GMap * (V * bool) :=
  match gm_m p !! key with
  | Some v => (mkGMap (delete key (gm_m p)) (gm_safe p), (v, true))
  | None => (p, (zeroV, false))
  end.
(** src/extend/map/map.go:60-67, Map.Size *)
Definition GMap_Size (p : GMap) : nat := size (gm_m p).
(** src/extend/map/map.go:69-71, Map.Empty *)
Definition GMap_Empty (p : GMap) : bool := (GMap_Size p =? 0)%nat.
(** src/extend/map/map.go:105-112, Map.Clear *)
Definition GMap_Clear (p : GMap) : GMap := mkGMap ∅ (gm_safe p).

(** The loop over what the map has when the lock is taken, into a slice as long as the map
    was before: [None] is an index out of range. *)
Definition fill {T} (zero : T) (sz : nat) (l : list T) : option (list T) :=
  if (length l <=? sz)%nat then Some (l ++ replicate (sz - length l) zero) else None.

(** [before] and [now]: the map at [Size] and at the loop. *)
(** src/extend/map/map.go:73-87, Map.Keys *)
Definition GMap_Keys (before now : GMap) (order : list K) : option (list K) :=
  fill zeroK (GMap_Size before) (filter (fun k => is_Some (gm_m now !! k)) order).
(** src/extend/map/map.go:89-103, Map.Values *)
Definition GMap_Values (before now : GMap) (order : list K) : option (list V) :=
  fill zeroV (GMap_Size before) (omap (fun k => gm_m now !! k) order).

Definition covers (order : list K) (p : GMap) : Prop := NoDup order /\ forall k, k ∈ order <-> is_Some (gm_m p !! k).

Lemma covers_length order p : covers order p -> length order = GMap_Size p.
Proof.
  intros [Hnd Hk]. unfold GMap_Size. rewrite <- size_dom. rewrite <- (size_list_to_set (C := gset K) order Hnd). f_equal.
  apply set_eq. intros k. by rewrite elem_of_list_to_set, elem_of_dom, Hk.
Qed.

Lemma covers_filter order p : covers order p -> filter (fun k => is_Some (gm_m p !! k)) order = order.
Proof.
  intros [_ Hk]. assert (H0 : Forall (fun k => is_Some (gm_m p !! k)) order) by (apply list.Forall_forall; intros k; apply Hk).
  clear Hk. induction H0 as [|k l Hs _ IH]; [done|]. rewrite filter_cons_True by done. by rewrite IH.
Qed.

(** Left alone, [Keys] gives every key; when the map has grown in between it panics, and
    when it has shrunk there are zero values at the end. *)
Lemma GMap_Keys_spec before now order : covers order now ->
  GMap_Keys before now order =
  if (GMap_Size now <=? GMap_Size before)%nat then Some (order ++ replicate (GMap_Size before - GMap_Size now) zeroK) else None.
Proof. intros Hc. unfold GMap_Keys, fill. by rewrite covers_filter, (covers_length order now) by done. Qed.
End GenericMap.

(** ** The queue *)

Section Mpsc.
Context {A : Type}.

(** [None] is the nil value. *)
(** src/extend/queue/queue.go:14-17, node *)
Record qnode := mkQnode { qn_next : option nat; qn_val : option A }.

(** The pointers, the nodes, the producers between their two operations (the node they have
    displaced and their own), and what has been pushed and popped. *)
(** src/extend/queue/queue.go:19-21, Queue *)
Record mpsc := mkMpsc { mq_head : nat; mq_tail : nat; mq_nodes : list qnode; mq_open : list (nat * nat); mq_pushed : list (option A); mq_popped : list (option A) }.

(** src/extend/queue/queue.go:23-29, NewQueue *)
Definition NewQueue : mpsc := mkMpsc 0 0 [mkQnode None None] [] [] [].

(** The swap of the head; the new node is the next one. *)
(** src/extend/queue/queue.go:34-38, Queue.Push *)
Definition mq_swap (x : option A) (q : mpsc) : mpsc :=
  let n := length (mq_nodes q) in
  mkMpsc n (mq_tail q) (mq_nodes q ++ [mkQnode None x]) (mq_open q ++ [(mq_head q, n)]) (mq_pushed q ++ [x]) (mq_popped q).

(** The store of the link, by the [i]-th of those that have still to do it. *)
(** src/extend/queue/queue.go:40-42, Queue.Push *)
Definition mq_link (i : nat) (q : mpsc) : option mpsc :=
  '(prev, n) ← mq_open q !! i;
  Some (mkMpsc (mq_head q) (mq_tail q) (alter (fun nd => mkQnode (Some n) (qn_val nd)) prev (mq_nodes q)) (delete i (mq_open q)) (mq_pushed q) (mq_popped q)).

(** The answer, and whether an element was taken: nil is the answer for none and for an
    element that is nil. *)
(** src/extend/queue/queue.go:47-57, Queue.Pop *)
Definition mq_Pop (q : mpsc) : mpsc * (option A * bool) :=
  match mq_nodes q !! mq_tail q ≫= qn_next with
  | Some next =>
      let v := mq_nodes q !! next ≫= qn_val in
      (mkMpsc (mq_head q) next (alter (fun nd => mkQnode (qn_next nd) None) next (mq_nodes q)) (mq_open q) (mq_pushed q) (mq_popped q ++ [v]), (v, true))
  | None => (q, (None, false))
  end.

(** src/extend/queue/queue.go:62-66, Queue.Empty *)
Definition mq_Empty (q : mpsc) : bool := match mq_nodes q !! mq_tail q ≫= qn_next with Some _ => false | None => true end.

Inductive mq_action := QSwap (x : option A) | QLink (i : nat) | QPop.

Definition exec_mq (a : mq_action) (q : mpsc) : option mpsc :=
  match a with QSwap x => Some (mq_swap x q) | QLink i => mq_link i q | QPop => Some (mq_Pop q).1 end.

Inductive mq_reach : mpsc -> Prop :=
| mq_init : mq_reach NewQueue
| mq_step q a q' : mq_reach q -> exec_mq a q = Some q' -> mq_reach q'.

(** Nodes are numbered in the order of the swaps, the stub being 0. *)
Record mq_inv (q : mpsc) : Prop := mkMqInv {
  mi_len : length (mq_nodes q) = S (length (mq_pushed q));
  mi_head : mq_head q = length (mq_pushed q);
  mi_tail : (mq_tail q <= mq_head q)%nat;
  mi_open : forall i p n, mq_open q !! i = Some (p, n) -> n = S p /\ (p < mq_head q)%nat /\ (mq_tail q <= p)%nat;
  mi_once : NoDup (mq_open q);
  mi_next : forall i nd, mq_nodes q !! i = Some nd ->
    (i = mq_head q \/ (i, S i) ∈ mq_open q -> qn_next nd = None) /\ (i <> mq_head q -> (i, S i) ∉ mq_open q -> qn_next nd = Some (S i));
  mi_val : forall i nd, mq_nodes q !! S i = Some nd -> (mq_tail q < S i)%nat -> mq_pushed q !! i = Some (qn_val nd);
  mi_popped : mq_popped q = take (mq_tail q) (mq_pushed q) }.

Lemma NewQueue_inv : mq_inv NewQueue.
Proof.
  split; try done; simpl; try constructor.
  - intros _. destruct i; [by injection H as <-|by destruct i].
  - intros Hi _. destruct i; [done|by destruct i].
Qed.

Lemma swap_inv x q : mq_inv q -> mq_inv (mq_swap x q).
Proof.
  intros [L Hh T O N X V P]. unfold mq_swap. split; cbn [mq_head mq_tail mq_nodes mq_open mq_pushed mq_popped].
  - rewrite !length_app. simpl. lia.
  - rewrite length_app. simpl. lia.
  - lia.
  - intros i p n Hi. apply list_elem_of_lookup_2, elem_of_app in Hi as [Hi|Hi%list_elem_of_singleton].
    + apply list_elem_of_lookup in Hi as [j Hj]. destruct (O j p n Hj) as (? & ? & ?). lia.
    + injection Hi as -> ->. lia.
  - apply list.NoDup_app. split; [done|]. split; [|apply NoDup_singleton]. intros [p n] Hin Hp%list_elem_of_singleton. injection Hp as -> ->.
    apply list_elem_of_lookup in Hin as [j Hj]. destruct (O j _ _ Hj) as (? & ? & ?). lia.
  - intros i nd Hi. apply lookup_app_Some in Hi as [Hi|[Hge Hi]].
    + assert (Hlt : (i < length (mq_nodes q))%nat) by (by eapply lookup_lt_Some). destruct (X i nd Hi) as [X1 X2]. split.
      * intros [->|Hin]; [lia|]. apply elem_of_app in Hin as [Hin|Hin%list_elem_of_singleton]; [apply X1; by right|]. injection Hin as ->. apply X1. by left.
      * intros _ Hno. apply X2; [|by intros Hin; apply Hno, elem_of_app; left]. intros ->. apply Hno, elem_of_app. right.
        rewrite list_elem_of_singleton. f_equal. lia.
    + destruct (i - length (mq_nodes q))%nat eqn:Ei; [|done]. injection Hi as <-. split; [done|]. intros Hne. lia.
  - intros i nd Hi Ht. apply lookup_app_Some in Hi as [Hi|[Hge Hi]].
    + rewrite lookup_app_l; [by apply V|]. apply lookup_lt_Some in Hi. lia.
    + destruct (S i - length (mq_nodes q))%nat eqn:Ei; [|done]. injection Hi as <-. rewrite lookup_app_r by lia. by replace (i - length (mq_pushed q))%nat with 0%nat by lia.
  - rewrite take_app_le by lia. done.
Qed.

Lemma link_inv i q q' : mq_inv q -> mq_link i q = Some q' -> mq_inv q'.
Proof.
  intros [L Hh T O N X V P]. unfold mq_link. destruct (mq_open q !! i) as [[p n]|] eqn:Ei; cbn [mbind option_bind]; [|done]. intros [= <-].
  destruct (O i p n Ei) as (-> & Hp & Htp). assert (Hdel : forall e, e ∈ delete i (mq_open q) <-> e ∈ mq_open q /\ e <> (p, S p)).
  { intros e. pose proof (delete_Permutation (mq_open q) i _ Ei) as Hperm. revert Hperm N. generalize (delete i (mq_open q)). intros l Hperm N.
    rewrite Hperm, elem_of_cons. rewrite Hperm in N. apply list.NoDup_cons in N as [Hn _].
    split; [intros He; split; [by right|intros ->; done]|]. intros [[->|?] ?]; done. }
  split; cbn [mq_head mq_tail mq_nodes mq_open mq_pushed mq_popped]; try done.
  - by rewrite length_alter.
  - intros j a b Hj. apply list_elem_of_lookup_2, Hdel in Hj as [Hj _]. apply list_elem_of_lookup in Hj as [k Hk]. by apply (O k).
  - pose proof (delete_Permutation (mq_open q) i _ Ei) as Hperm. revert Hperm N. generalize (delete i (mq_open q)). intros l Hperm N.
    rewrite Hperm in N. by apply list.NoDup_cons in N as [_ ?].
  - intros j nd Hj. destruct (decide (j = p)) as [->|Hne].
    + rewrite list_lookup_alter_eq in Hj. destruct (mq_nodes q !! p) as [x|] eqn:Ex; [|done]. injection Hj as <-. cbn [qn_next]. split; [|done].
      intros [->|Hin]; [lia|]. by apply Hdel in Hin as [_ ?].
    + rewrite list_lookup_alter_ne in Hj by done. destruct (X j nd Hj) as [X1 X2]. split.
      * intros [->|Hin]; [apply X1; by left|]. apply Hdel in Hin as [? _]. apply X1. by right.
      * intros H1 H2. apply X2; [done|]. intros Hin. apply H2, Hdel. split; [done|]. congruence.
  - intros j nd Hj Ht. destruct (decide (S j = p)) as [<-|Hne].
    + rewrite list_lookup_alter_eq in Hj. destruct (mq_nodes q !! S j) as [x|] eqn:Ex; [|done]. injection Hj as <-. exact (V j x Ex Ht).
    + rewrite list_lookup_alter_ne in Hj by done. by apply V.
Qed.

(** What [Pop] finds: the link of the node at the tail. *)
Lemma tail_link q : mq_inv q -> mq_nodes q !! mq_tail q ≫= qn_next =
  if decide (mq_tail q = mq_head q) then None else if decide ((mq_tail q, S (mq_tail q)) ∈ mq_open q) then None else Some (S (mq_tail q)).
Proof.
  intros [L Hh T O N X V P]. destruct (lookup_lt_is_Some_2 (mq_nodes q) (mq_tail q) ltac:(lia)) as [nd Hnd]. rewrite Hnd. cbn [mbind option_bind].
  destruct (X _ _ Hnd) as [X1 X2]. destruct (decide (mq_tail q = mq_head q)); [apply X1; by left|].
  destruct (decide ((mq_tail q, S (mq_tail q)) ∈ mq_open q)); [apply X1; by right|by apply X2].
Qed.

Lemma pop_val q : mq_inv q -> (mq_tail q < mq_head q)%nat -> exists v, mq_pushed q !! mq_tail q = Some v /\ mq_nodes q !! S (mq_tail q) ≫= qn_val = v.
Proof.
  intros [L Hh T O N X V P] Hlt. destruct (lookup_lt_is_Some_2 (mq_nodes q) (S (mq_tail q)) ltac:(lia)) as [nd Hnd].
  exists (qn_val nd). split; [apply (V _ nd Hnd); lia|]. by rewrite Hnd.
Qed.

Lemma Pop_inv q : mq_inv q -> mq_inv (mq_Pop q).1.
Proof.
  intros I. unfold mq_Pop. rewrite (tail_link q I). destruct (decide (mq_tail q = mq_head q)) as [|Hne]; [done|].
  destruct (decide ((mq_tail q, S (mq_tail q)) ∈ mq_open q)) as [|Hno]; [done|]. cbv zeta. cbn [fst].
  assert (Hlt : (mq_tail q < mq_head q)%nat) by (pose proof (mi_tail _ I); lia). destruct (pop_val q I Hlt) as (v & Hv & Hq). rewrite Hq.
  destruct I as [L Hh T O N X V P]. split; cbn [mq_head mq_tail mq_nodes mq_open mq_pushed mq_popped]; try done.
  - by rewrite length_alter.
  - intros i p n Hi. destruct (O i p n Hi) as (-> & Hp & Htp). split_and!; [done..|]. destruct (decide (p = mq_tail q)) as [->|]; [|lia].
    destruct Hno. by eapply list_elem_of_lookup_2.
  - intros i nd Hi. destruct (decide (i = S (mq_tail q))) as [->|Hni].
    + rewrite list_lookup_alter_eq in Hi. destruct (mq_nodes q !! S (mq_tail q)) as [x|] eqn:Ex; [|done]. injection Hi as <-. by apply (X _ x).
    + rewrite list_lookup_alter_ne in Hi by done. by apply X.
  - intros i nd Hi Ht. rewrite list_lookup_alter_ne in Hi by lia. apply V; [done|lia].
  - rewrite P. by rewrite (take_S_r _ _ _ Hv).
Qed.

Lemma mq_reach_inv q : mq_reach q -> mq_inv q.
Proof.
  induction 1 as [|q a q' _ IH E]; [apply NewQueue_inv|]. destruct a as [x|i|]; cbn [exec_mq] in E.
  - injection E as <-. by apply swap_inv.
  - by apply (link_inv i q).
  - injection E as <-. by apply Pop_inv.
Qed.

(** Whatever the producers and the consumer do in whatever order, what has been taken
    is what was pushed first, in the order in which the producers swapped the head. A Pop
    finds nothing only when everything has been taken, or when the producer of the next
    element has swapped the head and not yet stored its link; otherwise it takes the next
    element. *)
Theorem mpsc_fifo (q : mpsc) : mq_reach q ->
  mq_popped q = take (mq_tail q) (mq_pushed q) /\
  (mq_Empty q = true <-> mq_popped q = mq_pushed q \/ (mq_tail q, S (mq_tail q)) ∈ mq_open q) /\
  (mq_Empty q = true -> mq_Pop q = (q, (None, false))) /\
  (mq_Empty q = false -> exists v, mq_pushed q !! length (mq_popped q) = Some v /\ (mq_Pop q).2 = (v, true) /\
    mq_popped (mq_Pop q).1 = mq_popped q ++ [v]).
Proof.
  intros R. pose proof (mq_reach_inv q R) as I. pose proof (tail_link q I) as Ht. pose proof (mi_tail _ I) as Hle. pose proof (mi_head _ I) as Hh.
  pose proof (mi_popped _ I) as Hp. split; [exact Hp|]. assert (Hl : length (mq_popped q) = mq_tail q) by (rewrite Hp, length_take; lia).
  unfold mq_Empty, mq_Pop. rewrite Ht. destruct (decide (mq_tail q = mq_head q)) as [He|Hne].
  - split; [|by split]. split; [|done]. intros _. left. rewrite Hp, take_ge by lia. done.
  - assert (Hlt : (mq_tail q < mq_head q)%nat) by lia. destruct (decide ((mq_tail q, S (mq_tail q)) ∈ mq_open q)) as [Hin|Hno].
    + split; [|by split]. split; [|done]. intros _. by right.
    + split; [|split; [done|]].
      * split; [done|]. intros [Heq|?]; [|done]. apply (f_equal length) in Heq. lia.
      * intros _. destruct (pop_val q I Hlt) as (v & Hv & Hq). exists v. cbv zeta. cbn [fst snd mq_popped]. rewrite Hq, Hl. done.
Qed.
End Mpsc.

(** ** Runs *)

(** A producer that is slow to store its link hides what others have pushed after it. *)
Definition hidden_push : list (mq_action (A := nat)) := [QSwap (Some 1%nat); QSwap (Some 2%nat); QLink 1; QPop; QLink 0; QPop; QPop].
Definition run_mq (l : list (mq_action (A := nat))) (q : mpsc) : option mpsc := foldl (fun q a => q ≫= exec_mq a) (Some q) l.
Lemma slow_link_hides :
  (fun q => (mq_popped q, mq_Empty q)) <$> run_mq (take 4 hidden_push) NewQueue = Some ([], true) /\
  mq_popped <$> run_mq hidden_push NewQueue = Some [Some 1%nat; Some 2%nat].
Proof. vm_compute. done. Qed.

Lemma run_mq_reach l q q' : mq_reach q -> run_mq l q = Some q' -> mq_reach q'.
Proof.
  revert q. induction l as [|a l IH]; intros q R; [by intros [= <-]|]. unfold run_mq. cbn [foldl mbind option_bind].
  destruct (exec_mq a q) as [q1|] eqn:E; [apply IH; by apply (mq_step q a)|]. clear. by induction l.
Qed.

Lemma mpsc_fifo_witness : exists q, run_mq hidden_push NewQueue = Some q /\ mq_popped q = take (mq_tail q) (mq_pushed q).
Proof.
  destruct (run_mq hidden_push NewQueue) as [q|] eqn:E; [|vm_compute in E; discriminate E]. exists q. split; [reflexivity|].
  exact (proj1 (mpsc_fifo q (run_mq_reach hidden_push NewQueue q mq_init E))).
Defined.

(** [Keys] of a map that grows after its size was taken. *)
Lemma Keys_race_panics :
  GMap_Keys 0%nat (mkGMap ({[ 1%nat := true ]} : gmap nat bool) true) (mkGMap {[ 1%nat := true; 2%nat := true ]} true) [1%nat; 2%nat] = None /\
  GMap_Keys 0%nat (mkGMap ({[ 1%nat := true; 2%nat := true ]} : gmap nat bool) true) (mkGMap {[ 2%nat := true ]} true) [2%nat] = Some [2%nat; 0%nat].
Proof. vm_compute. done. Qed.
