(* ===== verification/Connector.v ===== *)
(** Connectors (src/net/connector): the queue between whoever accepts sockets and the
    goroutine that hands them to the server, its shutdown, the accept loop of the TCP
    connector, and the byte stream over WebSocket messages.

    [exec_kn] is one step of one goroutine: of those in [InChan], of the dispatcher, of
    [Stop], of the accept loop. What is done under [handoffMu] is one step. Sockets are
    numbers; what the listener accepts is a choice of the run. *)
From S2P Require Import Prelude.

(** ** Options *)

(** src/net/connector/options.go:8-13, Options *)
Record ConnOptions := mkConnOptions { co_address : str; co_certFile : str; co_keyFile : str; co_chanSize : Z }.

(** src/net/connector/options.go:18-27, WithCert *)
Definition WithCert (certFile keyFile : str) (o : ConnOptions) : ConnOptions :=
  if negb (String.eqb certFile EmptyString) && negb (String.eqb keyFile EmptyString)
  then mkConnOptions (co_address o) certFile keyFile (co_chanSize o) else o.

(** src/net/connector/options.go:29-35, WithChanSize *)
Definition WithChanSize (sz : Z) (o : ConnOptions) : ConnOptions :=
  if 1 <? sz then mkConnOptions (co_address o) (co_certFile o) (co_keyFile o) sz else o.

(** ** State *)

Inductive disp_phase := DNone | DTop | DSelect | DGot (c : nat) | DCalling (c : nat) | DExit.
Inductive stop_phase := SNone | SRunning | SClose | SListener | SHandoffs | SDispatch | SQueue | SReturned.
Inductive listener := NoListener | ListenerOpen | ListenerClosed.

(** The accept loop: before [GetListener], before [Connector.Start], before [Running], in
    [Accept], with a socket for [InChan], in it, and at its end. *)
Inductive accept_phase := AcNone | AcListen | AcStart | AcCheck | AcAccept | AcSocket (c : nat) | AcHandoff | AcEnd.

#[global] Instance disp_phase_eq_dec : EqDecision disp_phase.
Proof. solve_decision. Defined.
#[global] Instance stop_phase_eq_dec : EqDecision stop_phase.
Proof. solve_decision. Defined.
#[global] Instance listener_eq_dec : EqDecision listener.
Proof. solve_decision. Defined.
#[global] Instance accept_phase_eq_dec : EqDecision accept_phase.
Proof. solve_decision. Defined.

(** [kn_handoffs]: the goroutines that [handoffWG] counts, with their sockets, and whether
    it is the accept loop. [kn_dispWG] is [dispatchWG]. The last three are what has been
    given to [InChan], to the callback, and what has been closed. *)
(** src/net/connector/connector.go:16-27, Connector *)
Record Connector := mkConnector {
  kn_cap : nat; kn_callback : bool; kn_running : bool; kn_stopped : bool; kn_done : bool; kn_queue : list nat;
  kn_handoffs : list (bool * nat); kn_started : bool; kn_dispWG : nat; kn_disp : disp_phase; kn_stop : stop_phase;
  kn_listener : listener; kn_accept : accept_phase; kn_entered : list nat; kn_called : list nat; kn_closed : list nat }.

(** [None]: a negative size panics. *)
(** src/net/connector/connector.go:30-34, NewConnector *)
Definition NewConnector (sz : Z) : option Connector :=
  if sz <? 0 then None
  else Some (mkConnector (Z.to_nat sz) false true false false [] [] false 0 DNone SNone NoListener AcNone [] [] []).

(** A nil address gives a nil connector. *)
(** src/net/connector/tcp_connector.go:27-49, NewTCP *)
Definition NewTCP (address : str) (opts : list (ConnOptions -> ConnOptions)) : option (ConnOptions * Connector) :=
  if String.eqb address EmptyString then None
  else
    let o := foldl (fun o opt => opt o) (mkConnOptions address EmptyString EmptyString 256) opts in
    c ← NewConnector (co_chanSize o); Some (o, c).

Definition set_handoffs (h : list (bool * nat)) (s : Connector) : Connector :=
  mkConnector (kn_cap s) (kn_callback s) (kn_running s) (kn_stopped s) (kn_done s) (kn_queue s) h (kn_started s) (kn_dispWG s) (kn_disp s)
    (kn_stop s) (kn_listener s) (kn_accept s) (kn_entered s) (kn_called s) (kn_closed s).
Definition set_queue (q : list nat) (s : Connector) : Connector :=
  mkConnector (kn_cap s) (kn_callback s) (kn_running s) (kn_stopped s) (kn_done s) q (kn_handoffs s) (kn_started s) (kn_dispWG s) (kn_disp s)
    (kn_stop s) (kn_listener s) (kn_accept s) (kn_entered s) (kn_called s) (kn_closed s).
Definition set_disp (d : disp_phase) (s : Connector) : Connector :=
  mkConnector (kn_cap s) (kn_callback s) (kn_running s) (kn_stopped s) (kn_done s) (kn_queue s) (kn_handoffs s) (kn_started s) (kn_dispWG s) d
    (kn_stop s) (kn_listener s) (kn_accept s) (kn_entered s) (kn_called s) (kn_closed s).
Definition set_stop (p : stop_phase) (s : Connector) : Connector :=
  mkConnector (kn_cap s) (kn_callback s) (kn_running s) (kn_stopped s) (kn_done s) (kn_queue s) (kn_handoffs s) (kn_started s) (kn_dispWG s) (kn_disp s)
    p (kn_listener s) (kn_accept s) (kn_entered s) (kn_called s) (kn_closed s).
Definition set_accept (a : accept_phase) (s : Connector) : Connector :=
  mkConnector (kn_cap s) (kn_callback s) (kn_running s) (kn_stopped s) (kn_done s) (kn_queue s) (kn_handoffs s) (kn_started s) (kn_dispWG s) (kn_disp s)
    (kn_stop s) (kn_listener s) a (kn_entered s) (kn_called s) (kn_closed s).
Definition set_listener (l : listener) (s : Connector) : Connector :=
  mkConnector (kn_cap s) (kn_callback s) (kn_running s) (kn_stopped s) (kn_done s) (kn_queue s) (kn_handoffs s) (kn_started s) (kn_dispWG s) (kn_disp s)
    (kn_stop s) l (kn_accept s) (kn_entered s) (kn_called s) (kn_closed s).
Definition close_conn (c : nat) (s : Connector) : Connector :=
  mkConnector (kn_cap s) (kn_callback s) (kn_running s) (kn_stopped s) (kn_done s) (kn_queue s) (kn_handoffs s) (kn_started s) (kn_dispWG s) (kn_disp s)
    (kn_stop s) (kn_listener s) (kn_accept s) (kn_entered s) (kn_called s) (kn_closed s ++ [c]).
Definition enter_conn (c : nat) (s : Connector) : Connector :=
  mkConnector (kn_cap s) (kn_callback s) (kn_running s) (kn_stopped s) (kn_done s) (kn_queue s) (kn_handoffs s) (kn_started s) (kn_dispWG s) (kn_disp s)
    (kn_stop s) (kn_listener s) (kn_accept s) (kn_entered s ++ [c]) (kn_called s) (kn_closed s).

(** ** Steps *)

(** src/net/connector/connector.go:37-41, Connector.OnConnect *)
Definition Connector_OnConnect (fn : bool) (s : Connector) : Connector :=
  if fn then mkConnector (kn_cap s) true (kn_running s) (kn_stopped s) (kn_done s) (kn_queue s) (kn_handoffs s) (kn_started s) (kn_dispWG s) (kn_disp s)
    (kn_stop s) (kn_listener s) (kn_accept s) (kn_entered s) (kn_called s) (kn_closed s) else s.

(** Under the lock: the socket is closed, or the goroutine counted. *)
(** src/net/connector/connector.go:44-56, Connector.InChan *)
Definition InChan_enter (accepting : bool) (c : nat) (s : Connector) : Connector :=
  let s := enter_conn c s in
  if kn_stopped s then close_conn c s else set_handoffs (kn_handoffs s ++ [(accepting, c)]) s.

(** The accept loop goes on when its call is over. *)
Definition leave_handoff (i : nat) (accepting : bool) (s : Connector) : Connector :=
  let s := set_handoffs (delete i (kn_handoffs s)) s in if accepting then set_accept AcCheck s else s.

(** The send: into the buffer, or straight to the dispatcher that waits for it. *)
(** src/net/connector/connector.go:57-58, Connector.InChan *)
Definition InChan_send (i : nat) (s : Connector) : option Connector :=
  match kn_handoffs s !! i with
  | None => None
  | Some (accepting, c) =>
      if (length (kn_queue s) <? kn_cap s)%nat then Some (leave_handoff i accepting (set_queue (kn_queue s ++ [c]) s))
      else if (kn_cap s =? 0)%nat && bool_decide (kn_disp s = DSelect) then Some (leave_handoff i accepting (set_disp (DGot c) s))
      else None
  end.

(** src/net/connector/connector.go:59-62, Connector.InChan *)
Definition InChan_done (i : nat) (s : Connector) : option Connector :=
  match kn_handoffs s !! i with
  | None => None
  | Some (accepting, c) => if kn_done s then Some (leave_handoff i accepting (close_conn c s)) else None
  end.

(** [None]: without a callback it panics. *)
(** src/net/connector/connector.go:66-80, Connector.Start *)
Definition Connector_Start (s : Connector) : option Connector :=
  if negb (kn_callback s) then None
  else if kn_started s then Some s
  else
    let start wg d := mkConnector (kn_cap s) (kn_callback s) (kn_running s) (kn_stopped s) (kn_done s) (kn_queue s) (kn_handoffs s) true wg d
      (kn_stop s) (kn_listener s) (kn_accept s) (kn_entered s) (kn_called s) (kn_closed s) in
    Some (if kn_stopped s then start (kn_dispWG s) (kn_disp s) else start (S (kn_dispWG s)) DTop).

Definition disp_exit (s : Connector) : Connector :=
  mkConnector (kn_cap s) (kn_callback s) (kn_running s) (kn_stopped s) (kn_done s) (kn_queue s) (kn_handoffs s) (kn_started s) (pred (kn_dispWG s)) DExit
    (kn_stop s) (kn_listener s) (kn_accept s) (kn_entered s) (kn_called s) (kn_closed s).

(** The first [select]. *)
(** src/net/connector/connector.go:84-90, Connector.dispatch *)
Definition dispatch_top (s : Connector) : option Connector :=
  match kn_disp s with DTop => Some (if kn_done s then disp_exit s else set_disp DSelect s) | _ => None end.

(** The second one, which takes either branch that is ready. *)
(** src/net/connector/connector.go:91-93, Connector.dispatch *)
Definition dispatch_done (s : Connector) : option Connector :=
  match kn_disp s with DSelect => if kn_done s then Some (disp_exit s) else None | _ => None end.
(** src/net/connector/connector.go:94-97, Connector.dispatch *)
Definition dispatch_recv (s : Connector) : option Connector :=
  match kn_disp s, kn_queue s with DSelect, c :: q => Some (set_disp (DGot c) (set_queue q s)) | _, _ => None end.

(** What is taken after [Stop] has begun is closed. *)
(** src/net/connector/connector.go:98-102, Connector.dispatch *)
Definition dispatch_check (s : Connector) : option Connector :=
  match kn_disp s with
  | DGot c =>
      Some (if kn_stopped s then set_disp DTop (close_conn c s)
            else mkConnector (kn_cap s) (kn_callback s) (kn_running s) (kn_stopped s) (kn_done s) (kn_queue s) (kn_handoffs s) (kn_started s) (kn_dispWG s)
              (DCalling c) (kn_stop s) (kn_listener s) (kn_accept s) (kn_entered s) (kn_called s ++ [c]) (kn_closed s))
  | _ => None
  end.
(** src/net/connector/connector.go:102-103, Connector.dispatch *)
Definition dispatch_return (s : Connector) : option Connector := match kn_disp s with DCalling _ => Some (set_disp DTop s) | _ => None end.

(** A second call returns at once. *)
(** src/net/connector/connector.go:121-124, Connector.Stop *)
Definition Stop_cas (s : Connector) : Connector :=
  if kn_stopped s then s
  else mkConnector (kn_cap s) (kn_callback s) (kn_running s) true (kn_done s) (kn_queue s) (kn_handoffs s) (kn_started s) (kn_dispWG s) (kn_disp s)
    SRunning (kn_listener s) (kn_accept s) (kn_entered s) (kn_called s) (kn_closed s).

(** The rest, up to a wait that is not over. *)
(** src/net/connector/connector.go:107-137, Connector.Stop *)
Definition Stop_step (s : Connector) : option Connector :=
  match kn_stop s with
  | SRunning => Some (mkConnector (kn_cap s) (kn_callback s) false (kn_stopped s) (kn_done s) (kn_queue s) (kn_handoffs s) (kn_started s) (kn_dispWG s) (kn_disp s)
      SClose (kn_listener s) (kn_accept s) (kn_entered s) (kn_called s) (kn_closed s))
  | SClose => Some (mkConnector (kn_cap s) (kn_callback s) (kn_running s) (kn_stopped s) true (kn_queue s) (kn_handoffs s) (kn_started s) (kn_dispWG s) (kn_disp s)
      SListener (kn_listener s) (kn_accept s) (kn_entered s) (kn_called s) (kn_closed s))
  | SListener => Some (set_stop SHandoffs (match kn_listener s with ListenerOpen => set_listener ListenerClosed s | _ => s end))
  | SHandoffs => match kn_handoffs s with [] => Some (set_stop SDispatch s) | _ => None end
  | SDispatch => if (kn_dispWG s =? 0)%nat then Some (set_stop SQueue s) else None
  | SQueue => Some (match kn_queue s with c :: q => close_conn c (set_queue q s) | [] => set_stop SReturned s end)
  | SNone | SReturned => None
  end.

(** The accept loop of the TCP connector. *)
(** src/net/connector/tcp_connector.go:52-77, TCPConnector.Start *)
Definition TCP_step (s : Connector) : option Connector :=
  match kn_accept s with
  | AcNone => Some (set_accept AcListen s)
  | AcListen => Some (set_accept AcStart (set_listener ListenerOpen s))
  | AcStart => s ← Connector_Start s; Some (set_accept AcCheck s)
  | AcCheck => Some (set_accept (if kn_running s then AcAccept else AcEnd) s)
  | AcSocket c => Some (if kn_stopped s then set_accept AcCheck (InChan_enter true c s) else InChan_enter true c (set_accept AcHandoff s))
  | AcAccept | AcHandoff | AcEnd => None
  end.

(** What [Accept] answers: a socket, while the listener is open, or an error. *)
(** src/net/connector/tcp_connector.go:65-76, TCPConnector.Start *)
Definition TCP_accept (socket : option nat) (s : Connector) : option Connector :=
  match kn_accept s, socket with
  | AcAccept, Some c => match kn_listener s with ListenerOpen => Some (set_accept (AcSocket c) s) | _ => None end
  | AcAccept, None => Some (set_accept (if kn_running s then AcCheck else AcEnd) s)
  | _, _ => None
  end.

Inductive kn_action :=
| KOnConnect (fn : bool) | KEnter (c : nat) | KSend (i : nat) | KGiveUp (i : nat) | KStart | KTop | KExit | KRecv | KCheck | KReturn
| KStop | KStopStep | TStep | TAccept (socket : option nat).

Definition exec_kn (a : kn_action) (s : Connector) : option Connector :=
  match a with
  | KOnConnect fn => Some (Connector_OnConnect fn s)
  | KEnter c => Some (InChan_enter false c s)
  | KSend i => InChan_send i s
  | KGiveUp i => InChan_done i s
  | KStart => Connector_Start s
  | KTop => dispatch_top s
  | KExit => dispatch_done s
  | KRecv => dispatch_recv s
  | KCheck => dispatch_check s
  | KReturn => dispatch_return s
  | KStop => Some (Stop_cas s)
  | KStopStep => Stop_step s
  | TStep => TCP_step s
  | TAccept socket => TCP_accept socket s
  end.

Definition run_kn (l : list kn_action) (s : Connector) : option Connector := foldl (fun s a => s ≫= exec_kn a) (Some s) l.

Inductive kn_reach (sz : Z) : Connector -> Prop :=
| kn_init s : NewConnector sz = Some s -> kn_reach sz s
| kn_step s a s' : kn_reach sz s -> exec_kn a s = Some s' -> kn_reach sz s'.

(** ** What every step keeps *)

(** How far [Stop] is. *)
Definition stop_rank (p : stop_phase) : nat :=
  match p with SNone => 0 | SRunning => 1 | SClose => 2 | SListener => 3 | SHandoffs => 4 | SDispatch => 5 | SQueue => 6 | SReturned => 7 end.

Definition disp_alive (d : disp_phase) : bool := match d with DNone | DExit => false | _ => true end.

(** The socket the dispatcher has taken and not dealt with. *)
Definition in_hand (d : disp_phase) : list nat := match d with DGot c => [c] | _ => [] end.

Definition kn_pending (s : Connector) : list nat := (kn_handoffs s).*2 ++ kn_queue s ++ in_hand (kn_disp s).

Record kn_ok (s : Connector) : Prop := {
  ck_sockets : kn_entered s ≡ₚ kn_pending s ++ kn_called s ++ kn_closed s;
  ck_running : kn_running s = (stop_rank (kn_stop s) <=? 1)%nat;
  ck_stopped : kn_stopped s = (1 <=? stop_rank (kn_stop s))%nat;
  ck_done : kn_done s = (3 <=? stop_rank (kn_stop s))%nat;
  ck_handoffs : (5 <= stop_rank (kn_stop s))%nat -> kn_handoffs s = [];
  ck_dispWG : kn_dispWG s = if disp_alive (kn_disp s) then 1%nat else 0%nat;
  ck_dispatch : (6 <= stop_rank (kn_stop s))%nat -> disp_alive (kn_disp s) = false;
  ck_queue : (7 <= stop_rank (kn_stop s))%nat -> kn_queue s = [];
  ck_cap : (length (kn_queue s) <= kn_cap s)%nat;
  ck_started : kn_started s = false -> kn_disp s = DNone }.

Lemma delete_perm (l : list (bool * nat)) i b c : l !! i = Some (b, c) -> l.*2 ≡ₚ c :: (delete i l).*2.
Proof. intros H. by rewrite (delete_Permutation _ _ _ H) at 1. Qed.

Ltac ck_perm H := unfold kn_pending in *; simpl in *; rewrite ?fmap_app in *; simpl in *; rewrite H; clear; solve_Permutation.

Lemma kn_ok_init sz s : NewConnector sz = Some s -> kn_ok s.
Proof.
  unfold NewConnector. destruct (sz <? 0); [done|]. intros [= <-]. split; simpl; try done; try lia.
Qed.

Lemma kn_ok_enter b c s : kn_ok s -> kn_ok (InChan_enter b c s).
Proof.
  destruct s as [cap cb run stp dn q hs st wg d sp li ac en ca cl]. intros []. unfold InChan_enter, enter_conn. simpl in *.
  destruct stp eqn:E; split; simpl; try done.
  - ck_perm ck_sockets0.
  - ck_perm ck_sockets0.
  - destruct (stop_rank sp); simpl in *; [lia|done].
Qed.

Ltac ck_open := simpl; intros [] E; simplify_eq; split; simpl in *; try done; try lia.

Lemma kn_ok_send i s s' : kn_ok s -> InChan_send i s = Some s' -> kn_ok s'.
Proof.
  destruct s as [cap cb run stp dn q hs st wg d sp li ac en ca cl]. unfold InChan_send, leave_handoff. simpl.
  destruct (hs !! i) as [[b c]|] eqn:Hi; [|done]. pose proof (delete_perm _ _ _ _ Hi) as Hp.
  assert (hs <> []) as Hne by (by destruct hs).
  destruct (length q <? cap)%nat eqn:Hq; [apply Nat.ltb_lt in Hq|destruct ((cap =? 0)%nat && bool_decide (d = DSelect)) eqn:Hd; [|done]].
  - destruct b; ck_open; try (rewrite length_app; simpl; lia).
    all: try (unfold kn_pending in *; simpl in *; rewrite Hp in ck_sockets0; ck_perm ck_sockets0).
    all: try (intros Hr; apply ck_handoffs0 in Hr; subst; by destruct i).
    all: intros Hr; exfalso; apply Hne, ck_handoffs0; lia.
  - apply andb_true_iff in Hd as [Hc Hd%bool_decide_eq_true]. subst d.
    destruct b; ck_open.
    all: try (unfold kn_pending in *; simpl in *; rewrite Hp in ck_sockets0; ck_perm ck_sockets0).
    all: try (intros Hr; apply ck_handoffs0 in Hr; subst; by destruct i).
    all: intros Hr; try (by specialize (ck_started0 Hr)); exfalso; apply Hne, ck_handoffs0; lia.
Qed.

Lemma kn_ok_done i s s' : kn_ok s -> InChan_done i s = Some s' -> kn_ok s'.
Proof.
  destruct s as [cap cb run stp dn q hs st wg d sp li ac en ca cl]. unfold InChan_done, leave_handoff. simpl.
  destruct (hs !! i) as [[b c]|] eqn:Hi; [|done]. pose proof (delete_perm _ _ _ _ Hi) as Hp. destruct dn; [|done].
  assert (hs <> []) as Hne by (by destruct hs).
  destruct b; ck_open.
  all: try (unfold kn_pending in *; simpl in *; rewrite Hp in ck_sockets0; ck_perm ck_sockets0).
  all: try (intros Hr; apply ck_handoffs0 in Hr; subst; by destruct i).
Qed.

Lemma kn_ok_start s s' : kn_ok s -> Connector_Start s = Some s' -> kn_ok s'.
Proof.
  destruct s as [cap cb run stp dn q hs st wg d sp li ac en ca cl]. unfold Connector_Start. simpl.
  destruct cb; [|done]. destruct st; [by intros ? [= <-]|]. simpl. destruct stp; ck_open; specialize (ck_started0 eq_refl); subst; try done.
  destruct (stop_rank sp); simpl in *; [lia|done].
Qed.

Ltac ck_close H := subst; try done; try (let E := fresh in intros E; by specialize (H E)).

Lemma kn_ok_dispatch a s s' : a ∈ [KTop; KExit; KRecv; KCheck; KReturn] -> kn_ok s -> exec_kn a s = Some s' -> kn_ok s'.
Proof.
  destruct s as [cap cb run stp dn q hs st wg d sp li ac en ca cl]. intros Ha.
  repeat (apply elem_of_cons in Ha as [->|Ha]); [..|by apply elem_of_nil in Ha]; simpl.
  - unfold dispatch_top. destruct d; try done. simpl. destruct dn; ck_open; ck_close ck_started0.
  - unfold dispatch_done. destruct d; try done. simpl. destruct dn; [|done]. ck_open; ck_close ck_started0.
  - unfold dispatch_recv. destruct d, q; try done. ck_open; ck_close ck_started0; ck_perm ck_sockets0.
  - unfold dispatch_check. destruct d; try done. simpl. destruct stp; ck_open; ck_close ck_started0; ck_perm ck_sockets0.
  - unfold dispatch_return. destruct d; try done. ck_open; ck_close ck_started0.
Qed.

Lemma kn_ok_stop s : kn_ok s -> kn_ok (Stop_cas s).
Proof.
  destruct s as [cap cb run stp dn q hs st wg d sp li ac en ca cl]. unfold Stop_cas. simpl. destruct stp; [done|].
  intros []. simpl in *. assert (sp = SNone) as -> by (by destruct sp). split; simpl in *; try done; lia.
Qed.

Lemma kn_ok_stop_step s s' : kn_ok s -> Stop_step s = Some s' -> kn_ok s'.
Proof.
  destruct s as [cap cb run stp dn q hs st wg d sp li ac en ca cl]. unfold Stop_step. simpl.
  destruct sp; try done; try (ck_open; fail).
  - destruct li; ck_open.
  - destruct hs; [|done]. ck_open.
  - destruct (Nat.eqb_spec wg 0) as [->|]; [|done]. ck_open; [by intros; apply ck_handoffs0; lia|]. intros _. by destruct (disp_alive d).
  - destruct q; ck_open; try (intros; apply ck_handoffs0; lia); try (intros; apply ck_dispatch0; lia); ck_perm ck_sockets0.
Qed.

Lemma kn_ok_tcp a s s' : kn_ok s -> TCP_step s = Some s' \/ TCP_accept a s = Some s' -> kn_ok s'.
Proof.
  intros H [E|E].
  - unfold TCP_step in E. destruct (kn_accept s) eqn:Ea; simplify_eq; try (by destruct H).
    + destruct (Connector_Start s) as [t|] eqn:Et; simplify_option_eq. apply kn_ok_start in Et; [|done]. by destruct Et.
    + destruct (kn_stopped s); simplify_eq; [pose proof (kn_ok_enter true c s H) as H'; by destruct H'|].
      apply kn_ok_enter. by destruct H.
  - unfold TCP_accept in E. destruct (kn_accept s), a; simplify_eq; [destruct (kn_listener s)|]; simplify_eq; by destruct H.
Qed.

Lemma exec_kn_ok a s s' : kn_ok s -> exec_kn a s = Some s' -> kn_ok s'.
Proof.
  intros H E. destruct a; simpl in E.
  - simplify_eq. destruct fn; [|done]. by destruct H.
  - simplify_eq. by apply kn_ok_enter.
  - by eapply kn_ok_send.
  - by eapply kn_ok_done.
  - by eapply kn_ok_start.
  - apply (kn_ok_dispatch KTop s); [set_solver|done..].
  - apply (kn_ok_dispatch KExit s); [set_solver|done..].
  - apply (kn_ok_dispatch KRecv s); [set_solver|done..].
  - apply (kn_ok_dispatch KCheck s); [set_solver|done..].
  - apply (kn_ok_dispatch KReturn s); [set_solver|done..].
  - simplify_eq. by apply kn_ok_stop.
  - by eapply kn_ok_stop_step.
  - eapply (kn_ok_tcp None); eauto.
  - eapply kn_ok_tcp; eauto.
Qed.

Lemma kn_reach_ok sz s : kn_reach sz s -> kn_ok s.
Proof. induction 1; eauto using kn_ok_init, exec_kn_ok. Qed.

Lemma run_kn_cons a l s : run_kn (a :: l) s = exec_kn a s ≫= run_kn l.
Proof.
  unfold run_kn. simpl. destruct (exec_kn a s); [done|]. simpl. by induction l.
Qed.

Lemma run_kn_ind (P : Connector -> Connector -> Prop) :
  (forall s, P s s) -> (forall a s s' s'', exec_kn a s = Some s' -> P s' s'' -> P s s'') ->
  forall l s s', run_kn l s = Some s' -> P s s'.
Proof.
  intros H0 H1. induction l as [|a l IH]; intros s s' E; [by injection E as <-|].
  rewrite run_kn_cons in E. destruct (exec_kn a s) as [t|] eqn:Et; [|done]. eauto.
Qed.

Lemma kn_reach_run sz l s s' : kn_reach sz s -> run_kn l s = Some s' -> kn_reach sz s'.
Proof. intros H E. revert H. revert l s s' E. apply (run_kn_ind (fun s s' => kn_reach sz s -> kn_reach sz s')); eauto using kn_step. Qed.

(** ** Stopping *)

(** The actions of goroutines that [Stop] waits for, and its own; [KReturn] is the callback
    that comes back. *)
Definition kn_own (a : kn_action) : bool :=
  match a with KSend _ | KGiveUp _ | KTop | KExit | KRecv | KCheck | KReturn | KStopStep => true | _ => false end.

Definition disp_work (d : disp_phase) : nat :=
  match d with DNone | DExit => 0 | DSelect => 1 | DTop => 2 | DCalling _ => 3 | DGot _ => 4 end.

Definition stop_work (s : Connector) : nat :=
  5 * length (kn_handoffs s) + 4 * length (kn_queue s) + disp_work (kn_disp s) + (7 - stop_rank (kn_stop s)).

Definition own_steps (l : list kn_action) : nat := length (List.filter kn_own l).

(** What does not change once [Stop] has begun: no callback starts. *)
Lemma stopped_keeps a s s' : kn_stopped s = true -> exec_kn a s = Some s' ->
  kn_stopped s' = true /\ kn_called s' = kn_called s /\ (kn_stop s = SReturned -> kn_stop s' = SReturned).
Proof.
  destruct s as [cap cb run stp dn q hs st wg d sp li ac en ca cl]. simpl. intros ->.
  destruct a; simpl; unfold InChan_send, InChan_done, leave_handoff, Connector_Start, dispatch_top, dispatch_done, dispatch_recv,
    dispatch_check, dispatch_return, Stop_step, TCP_step, TCP_accept; simpl; intros E.
  all: repeat case_match; simplify_eq; try done.
  - by destruct fn.
  - simplify_option_eq. unfold Connector_Start in *. simpl in *. by repeat case_match; simplify_eq.
Qed.

Lemma stopped_run l s s' : kn_stopped s = true -> run_kn l s = Some s' ->
  kn_stopped s' = true /\ kn_called s' = kn_called s /\ (kn_stop s = SReturned -> kn_stop s' = SReturned).
Proof.
  intros H E. revert H. revert l s s' E. apply (run_kn_ind (fun s s' => kn_stopped s = true -> _)); [done|].
  intros a s s' s'' E IH H. destruct (stopped_keeps a s s') as (H1 & H2 & H3); [done..|].
  destruct (IH H1) as (H4 & H5 & H6). rewrite H5. auto.
Qed.

Lemma own_decreases a s s' : kn_stopped s = true -> kn_own a = true -> exec_kn a s = Some s' -> (stop_work s' < stop_work s)%nat.
Proof.
  destruct s as [cap cb run stp dn q hs st wg d sp li ac en ca cl]. simpl. intros ->.
  destruct a; simpl; try done; intros _; unfold InChan_send, InChan_done, leave_handoff, dispatch_top, dispatch_done, dispatch_recv,
    dispatch_check, dispatch_return, Stop_step; simpl; intros E; repeat case_match; simplify_eq.
  all: unfold stop_work; simpl.
  all: try match goal with H : _ !! _ = Some _ |- _ => apply lookup_lt_Some in H as Hl; rewrite length_delete by eauto end.
  all: rewrite ?length_app; simpl; try lia.
  all: match goal with H : _ && _ = true |- _ => apply andb_true_iff in H as [_ H%bool_decide_eq_true]; subst; simpl; lia end.
Qed.

Lemma other_keeps a s s' : kn_stopped s = true -> kn_own a = false -> exec_kn a s = Some s' -> stop_work s' = stop_work s.
Proof.
  destruct s as [cap cb run stp dn q hs st wg d sp li ac en ca cl]. simpl. intros ->.
  destruct a; simpl; try done; intros _; unfold Connector_Start, TCP_step, TCP_accept, InChan_enter, Stop_cas; simpl; intros E.
  all: repeat case_match; simplify_eq; try done.
  - by destruct fn.
  - simplify_option_eq. unfold Connector_Start in *. simpl in *. by repeat case_match; simplify_eq.
Qed.

Lemma own_steps_bounded l s s' : kn_stopped s = true -> run_kn l s = Some s' -> (own_steps l + stop_work s' <= stop_work s)%nat.
Proof.
  revert s. induction l as [|a l IH]; intros s H E; [by injection E as ->|]. rewrite run_kn_cons in E.
  destruct (exec_kn a s) as [t|] eqn:Et; [|done]. destruct (stopped_keeps a s t) as (Ht & _); [done..|]. specialize (IH t Ht E).
  unfold own_steps in *. simpl. destruct (kn_own a) eqn:Ea.
  - pose proof (own_decreases a s t H Ea Et). simpl. lia.
  - simpl. rewrite <- (other_keeps a s t) by done. done.
Qed.

(** Until [Stop] has returned, somebody can go on. *)
Lemma stop_progress s : kn_ok s -> kn_stop s <> SNone -> kn_stop s <> SReturned -> exists a s', kn_own a = true /\ exec_kn a s = Some s'.
Proof.
  intros [] H0 H7. destruct (kn_stop s) eqn:E; try done; simpl in *.
  - exists KStopStep. simpl. unfold Stop_step. rewrite E. eauto.
  - exists KStopStep. simpl. unfold Stop_step. rewrite E. eauto.
  - exists KStopStep. simpl. unfold Stop_step. rewrite E. eauto.
  - destruct (kn_handoffs s) as [|[b c] hs] eqn:Eh.
    + exists KStopStep. simpl. unfold Stop_step. rewrite E, Eh. eauto.
    + exists (KGiveUp 0). simpl. unfold InChan_done. rewrite Eh. simpl. rewrite ck_done0. eauto.
  - destruct (kn_disp s) eqn:Ed.
    + exists KStopStep. simpl. unfold Stop_step. rewrite E, ck_dispWG0. eauto.
    + exists KTop. simpl. unfold dispatch_top. rewrite Ed. eauto.
    + exists KExit. simpl. unfold dispatch_done. rewrite Ed, ck_done0. eauto.
    + exists KCheck. simpl. unfold dispatch_check. rewrite Ed. eauto.
    + exists KReturn. simpl. unfold dispatch_return. rewrite Ed. eauto.
    + exists KStopStep. simpl. unfold Stop_step. rewrite E, ck_dispWG0. eauto.
  - exists KStopStep. simpl. unfold Stop_step. rewrite E. eauto.
Qed.

(** stopping a connector. Whatever goes on meanwhile, the goroutines that [Connector.Stop]
    waits for take a bounded number of steps after it has begun, and as long as it has not
    returned one of them can take one; no callback starts any more. When it has returned,
    every socket that was given to [InChan] has either gone to the callback or been closed,
    and so it stays for those that still come. *)
Theorem stop_returns sz s l s' :
  kn_reach sz s -> kn_stopped s = true -> run_kn l s = Some s' ->
  (own_steps l <= stop_work s)%nat /\
  (kn_stop s' <> SReturned -> exists a s'', kn_own a = true /\ exec_kn a s' = Some s'') /\
  kn_called s' = kn_called s /\
  (kn_stop s' = SReturned -> kn_entered s' ≡ₚ kn_called s' ++ kn_closed s').
Proof.
  intros Hr Hs E. pose proof (kn_reach_ok _ _ (kn_reach_run _ _ _ _ Hr E)) as Hok.
  pose proof (own_steps_bounded _ _ _ Hs E). destruct (stopped_run l s s' Hs E) as (Hs' & Hc & _).
  split; [lia|]. split; [|split; [done|]].
  - intros Hn. apply stop_progress; [done| |done]. intros H0. destruct Hok. rewrite H0 in *. simpl in *. congruence.
  - intros H7. destruct Hok. rewrite H7 in *. simpl in *. unfold kn_pending in *. rewrite ck_handoffs0, ck_queue0 in ck_sockets0 by lia.
    simpl in *. specialize (ck_dispatch0 ltac:(lia)). by destruct (kn_disp s').
Qed.

(** A run of [NewTCP] with room for one: a socket in the callback, one in the queue, one
    waiting, and one after [Stop] has begun. *)
Definition demo_kn : list kn_action :=
  [KOnConnect true; TStep; TStep; TStep; TStep; TAccept (Some 1%nat); TStep; KSend 0; KTop; KRecv; KCheck;
   TStep; TAccept (Some 2%nat); TStep; KSend 0; KEnter 3; KStop].
Definition demo_kn_rest : list kn_action :=
  [KStopStep; KStopStep; KStopStep; KEnter 4; KGiveUp 0; KReturn; KTop; KStopStep; KStopStep; KStopStep; KStopStep].
Definition demo_kn_state : Connector := default (mkConnector 0 false false false false [] [] false 0 DNone SNone NoListener AcNone [] [] [])
  (NewConnector 1 ≫= run_kn demo_kn).
Definition demo_kn_end : Connector := default demo_kn_state (run_kn demo_kn_rest demo_kn_state).

Example demo_kn_reach : kn_reach 1 demo_kn_state.
Proof. apply (kn_reach_run 1 demo_kn (default demo_kn_state (NewConnector 1))); [by apply kn_init|vm_compute; reflexivity]. Qed.

Theorem stop_returns_witness :
  kn_stop demo_kn_end = SReturned /\ kn_called demo_kn_end = [1%nat] /\ kn_closed demo_kn_end = [4%nat; 3%nat; 2%nat] /\
  (own_steps demo_kn_rest <= stop_work demo_kn_state)%nat /\ kn_entered demo_kn_end ≡ₚ kn_called demo_kn_end ++ kn_closed demo_kn_end.
Proof.
  split; [vm_compute; reflexivity|]. split; [vm_compute; reflexivity|]. split; [vm_compute; reflexivity|].
  destruct (stop_returns 1 demo_kn_state demo_kn_rest demo_kn_end) as (H1 & _ & _ & H4);
    [apply demo_kn_reach|vm_compute; reflexivity..|].
  split; [exact H1|]. apply H4. vm_compute. reflexivity.
Defined.

(** [Stop] before [GetListener]: the listener that [Start] then opens stays open for ever. *)
Definition late_start : Connector :=
  default demo_kn_state (NewConnector 1 ≫= run_kn (KOnConnect true :: KStop :: replicate 6 KStopStep ++ replicate 4 TStep)).

Lemma listener_kept a s s' : kn_stopped s = true -> kn_stop s = SReturned -> kn_listener s = ListenerOpen ->
  exec_kn a s = Some s' -> kn_listener s' = ListenerOpen.
Proof.
  destruct s as [cap cb run stp dn q hs st wg d sp li ac en ca cl]. simpl. intros -> -> ->.
  destruct a; simpl; unfold InChan_send, InChan_done, leave_handoff, Connector_Start, dispatch_top, dispatch_done, dispatch_recv,
    dispatch_check, dispatch_return, Stop_step, TCP_step, TCP_accept; simpl; intros E.
  all: repeat case_match; simplify_eq; try done.
  - by destruct fn.
  - simplify_option_eq. unfold Connector_Start in *. simpl in *. by repeat case_match; simplify_eq.
Qed.

Lemma listener_kept_run l s s' : kn_stopped s = true /\ kn_stop s = SReturned /\ kn_listener s = ListenerOpen ->
  run_kn l s = Some s' -> kn_stop s' = SReturned /\ kn_listener s' = ListenerOpen.
Proof.
  intros H E. revert H. revert l s s' E. apply (run_kn_ind (fun s s' =>
    kn_stopped s = true /\ kn_stop s = SReturned /\ kn_listener s = ListenerOpen -> kn_stop s' = SReturned /\ kn_listener s' = ListenerOpen)).
  - by intros s (_ & ?).
  - intros a s s' s'' E IH (H1 & H2 & H3). apply IH. destruct (stopped_keeps a s s' H1 E) as (H4 & _ & H5).
    split; [done|]. split; [auto|]. by apply (listener_kept a s s').
Qed.

Lemma stop_before_listen l s : run_kn l late_start = Some s -> kn_stop s = SReturned /\ kn_listener s = ListenerOpen.
Proof. apply listener_kept_run. vm_compute. done. Qed.

(** ** The accept loop *)

(** After [Stop] has closed the listener the loop ends, in at most three of its steps. *)
Definition accept_work (a : accept_phase) : nat :=
  match a with AcEnd => 0 | AcCheck => 1 | AcAccept | AcHandoff | AcSocket _ => 2 | AcStart => 3 | AcListen => 4 | AcNone => 5 end.

Lemma accept_loop_ends a s s' : kn_ok s -> kn_stopped s = true -> kn_running s = false -> kn_listener s = ListenerClosed ->
  TCP_step s = Some s' \/ TCP_accept a s = Some s' ->
  (accept_work (kn_accept s') < accept_work (kn_accept s))%nat.
Proof.
  intros Hok Hs Hr Hl [E|E].
  - unfold TCP_step in E. destruct (kn_accept s) eqn:Ea; simplify_eq; simpl; try lia.
    + simplify_option_eq. simpl. lia.
    + rewrite Hr. simpl. lia.
    + rewrite Hs. simpl. lia.
  - unfold TCP_accept in E. destruct (kn_accept s) eqn:Ea, a; simplify_eq; simpl.
    + by rewrite Hl in E.
    + rewrite Hr. simpl. lia.
Qed.

(** ** The WebSocket connector *)

(** The upgrader is the library's: the model keeps the subprotocols it offers. *)
(** src/net/connector/ws_connector.go:16-22, WSConnector *)
Record WSConnector := mkWSConnector { wc_conn : Connector; wc_options : ConnOptions; wc_upgrade : list str; wc_required : str }.

(** src/net/connector/ws_connector.go:41-70, NewWS *)
Definition NewWS (address : str) (opts : list (ConnOptions -> ConnOptions)) : option WSConnector :=
  if String.eqb address EmptyString then None
  else
    let o := foldl (fun o opt => opt o) (mkConnOptions address EmptyString EmptyString 256) opts in
    c ← NewConnector (co_chanSize o); Some (mkWSConnector c o [] EmptyString).

(** src/net/connector/ws_connector.go:90-94, WSConnector.SetUpgrade *)
Definition SetUpgrade (upgrade : option (list str)) (w : WSConnector) : WSConnector :=
  match upgrade with Some u => mkWSConnector (wc_conn w) (wc_options w) u (wc_required w) | None => w end.

(** src/net/connector/ws_connector.go:97-104, WSConnector.SetRequiredSubprotocol *)
Definition SetRequiredSubprotocol (protocol : str) (w : WSConnector) : WSConnector :=
  mkWSConnector (wc_conn w) (wc_options w) (if String.eqb protocol EmptyString then wc_upgrade w else [protocol]) protocol.

(** What becomes of a request. *)
Inductive ws_outcome := WSRequired (header : str) | WSRefused | WSQueued.

(** [asked]: the subprotocols of the request; [upgraded]: the socket, when the upgrade
    succeeds. *)
(** src/net/connector/ws_connector.go:107-121, WSConnector.ServeHTTP *)
Definition ServeHTTP (asked : list str) (upgraded : option nat) (w : WSConnector) : WSConnector * ws_outcome :=
  if negb (String.eqb (wc_required w) EmptyString) && negb (bool_decide (wc_required w ∈ asked)) then (w, WSRequired (wc_required w))
  else match upgraded with
       | None => (w, WSRefused)
       | Some c => (mkWSConnector (InChan_enter false c (wc_conn w)) (wc_options w) (wc_upgrade w) (wc_required w), WSQueued)
       end.

(** Once a subprotocol is required, only sockets that asked for it get to the connector. *)
Lemma ServeHTTP_required p asked upgraded w w' o :
  p <> EmptyString -> ServeHTTP asked upgraded (SetRequiredSubprotocol p w) = (w', o) ->
  (o = WSQueued -> p ∈ asked) /\ (o <> WSQueued -> w' = SetRequiredSubprotocol p w) /\ (p ∉ asked -> o = WSRequired p).
Proof.
  intros Hp. unfold ServeHTTP, SetRequiredSubprotocol. simpl. destruct (String.eqb_spec p EmptyString) as [|_]; [done|]. simpl.
  destruct (bool_decide_reflect (p ∈ asked)); simpl; [|by intros [= <- <-]].
  destruct upgraded; by intros [= <- <-].
Qed.

(** Without one, [NewWS] takes what asks for anything. *)
Lemma ServeHTTP_open address opts asked c w : NewWS address opts = Some w ->
  (ServeHTTP asked (Some c) w).2 = WSQueued /\ kn_entered (wc_conn (ServeHTTP asked (Some c) w).1) = [c].
Proof.
  unfold NewWS, NewConnector. intros E. destruct (String.eqb _ _); [done|]. destruct (_ <? 0); [done|]. simpl in E. by simplify_eq.
Qed.

(** ** The stream of a WebSocket connection *)

(** The messages that are still to come, and what is left of the present one; [None] before
    the first. *)
(** src/net/connector/ws_connector.go:25-28, WSConn *)
Record WSConn := mkWSConn { ws_messages : list bytes; ws_reader : option bytes }.

(** The next message, or the error at the end of the connection; what is left of the present
    message is dropped. *)
Definition NextReader (c : WSConn) : WSConn * bool :=
  match ws_messages c with m :: ms => (mkWSConn ms (Some m), true) | [] => (c, false) end.

(** The reader of one message, as the library has it: what is left of the message and the
    size of the buffer (and [k], what has arrived) give the bytes it hands over, or the end of
    the message, which comes alone. *)
Class MessageReader := {
  mr_read : nat -> nat -> bytes -> option (bytes * bytes);
  mr_bytes len k rest b rest' : mr_read len k rest = Some (b, rest') -> b ++ rest' = rest /\ (length b <= len)%nat;
  mr_some len k rest b rest' : mr_read len k rest = Some (b, rest') -> rest <> [] /\ ((0 < len)%nat -> b <> []);
  mr_none len k rest : mr_read len k rest = None -> rest = [] }.

Section Stream.
Context `{MessageReader}.

(** The bytes read and whether there was an error. *)
(** src/net/connector/ws_connector.go:131-151, WSConn.Read *)
Definition WSConn_Read (len k : nat) (c : WSConn) : WSConn * (bytes * bool) :=
  let read (c : WSConn) (rest : bytes) :=
    match mr_read len k rest with
    | Some (b, rest) => (mkWSConn (ws_messages c) (Some rest), (b, true))
    | None => let '(c, ok) := NextReader c in (c, ([], ok))
    end in
  match ws_reader c with
  | Some rest => read c rest
  | None => match NextReader c with
            | (c, false) => (c, ([], false))
            | (c, true) => read c (default [] (ws_reader c))
            end
  end.

(** Each call of [Write] is one message. *)
(** src/net/connector/ws_connector.go:153-160, WSConn.Write *)
Definition WSConn_Write (ok : bool) (b : bytes) (sent : list bytes) : list bytes * res Z :=
  if ok then (sent ++ [b], Ok (blen b)) else (sent, Err "websocket: write").

(** src/net/connector/ws_connector.go:162-168, WSConn.SetDeadline *)
Definition WSConn_SetDeadline (set_read set_write : option str) : option str * bool :=
  match set_read with Some e => (Some e, false) | None => (set_write, true) end.

(** What is still to be read. *)
Definition ws_left (c : WSConn) : bytes := default [] (ws_reader c) ++ concat (ws_messages c).

(** The steps of a reader until it has what is left or an error. *)
Definition ws_todo (c : WSConn) : nat := length (ws_left c) + 2 * length (ws_messages c) + match ws_reader c with None => 1 | Some _ => 2 end.

Lemma WSConn_Read_bytes len k c c' b ok : WSConn_Read len k c = (c', (b, ok)) -> b ++ ws_left c' = ws_left c /\ (length b <= len)%nat.
Proof.
  unfold WSConn_Read, NextReader, ws_left. destruct c as [ms [rest|]]; simpl; [|destruct ms as [|m ms]; simpl; [intros [= <- <- <-]; split; [done|simpl; lia]|]].
  - destruct (mr_read len k rest) as [[d rest']|] eqn:E; [apply mr_bytes in E as [<- Hl]; intros [= <- <- <-]; simpl; by rewrite app_assoc|].
    apply mr_none in E as ->. destruct ms; intros [= <- <- <-]; simpl; (split; [done|lia]).
  - destruct (mr_read len k m) as [[d rest']|] eqn:E; [apply mr_bytes in E as [<- Hl]; intros [= <- <- <-]; simpl; by rewrite app_assoc|].
    apply mr_none in E as ->. destruct ms; intros [= <- <- <-]; simpl; (split; [done|lia]).
Qed.

(** An error comes only at the end. *)
Lemma WSConn_Read_error len k c c' b : WSConn_Read len k c = (c', (b, false)) -> ws_left c' = [] /\ b = [].
Proof.
  unfold WSConn_Read, NextReader, ws_left. destruct c as [ms [rest|]]; simpl; [|destruct ms as [|m ms]; simpl; [by intros [= <- <-]|]].
  - destruct (mr_read len k rest) as [[d rest']|] eqn:E; [done|]. apply mr_none in E as ->. destruct ms; intros [= <- <-]. done.
  - destruct (mr_read len k m) as [[d rest']|] eqn:E; [done|]. apply mr_none in E as ->. destruct ms; intros [= <- <-]. done.
Qed.

(** And with room in the buffer every call gets nearer to it. *)
Lemma WSConn_Read_progress len k c c' b : (0 < len)%nat -> WSConn_Read len k c = (c', (b, true)) -> (ws_todo c' < ws_todo c)%nat.
Proof.
  intros Hl. unfold WSConn_Read, NextReader, ws_todo, ws_left. destruct c as [ms [rest|]]; simpl; [|destruct ms as [|m ms]; simpl; [done|]].
  - destruct (mr_read len k rest) as [[d rest']|] eqn:E.
    + destruct (mr_some _ _ _ _ _ E) as [_ Hd]. apply mr_bytes in E as [<- _]. intros [= <- <-]. simpl. rewrite !length_app.
      specialize (Hd Hl). destruct d; [done|]. simpl. lia.
    + apply mr_none in E as ->. destruct ms; intros [= <- <-]. simpl. lia.
  - destruct (mr_read len k m) as [[d rest']|] eqn:E.
    + destruct (mr_some _ _ _ _ _ E) as [_ Hd]. apply mr_bytes in E as [<- _]. intros [= <- <-]. simpl. rewrite !length_app.
      specialize (Hd Hl). destruct d; [done|]. simpl. lia.
    + apply mr_none in E as ->. destruct ms; intros [= <- <-]. simpl. lia.
Qed.

(** Reading on and on, with buffers and chunks of any size. *)
Fixpoint ws_read_all (calls : list (nat * nat)) (c : WSConn) : bytes * bool :=
  match calls with
  | [] => ([], true)
  | (len, k) :: calls =>
      let '(c, (b, ok)) := WSConn_Read len k c in
      if ok then let '(bs, ok) := ws_read_all calls c in (b ++ bs, ok) else ([], false)
  end.

(** The messages are one stream of bytes: whatever the buffers, enough calls read it all and
    then meet the error. *)
Theorem ws_stream calls c :
  Forall (fun call => 0 < call.1)%nat calls -> (ws_todo c < length calls)%nat ->
  ws_read_all calls c = (ws_left c, false).
Proof.
  revert c. induction calls as [|[len k] calls IH]; intros c HF Hn; simpl in *; [lia|].
  apply list.Forall_cons in HF as [Hl HF]. destruct (WSConn_Read len k c) as [c' [b ok]] eqn:E. pose proof (WSConn_Read_bytes _ _ _ _ _ _ E) as [<- _].
  destruct ok.
  - pose proof (WSConn_Read_progress _ _ _ _ _ Hl E). rewrite IH by (done || lia). done.
  - apply WSConn_Read_error in E as [-> ->]. done.
Qed.
End Stream.

(** A reader that hands over at most [k + 1] bytes at a time. *)
Definition chunk_read (len k : nat) (rest : bytes) : option (bytes * bytes) :=
  match rest with [] => None | _ => let n := Nat.min len (S k) in Some (take n rest, drop n rest) end.

#[export, program] Instance chunk_reader : MessageReader := {| mr_read := chunk_read |}.
Next Obligation. intros len k [|x rest] b rest' E; [done|]. injection E as <- <-. rewrite take_drop, length_take. split; [done|lia]. Qed.
Next Obligation. intros len k [|x rest] b rest' E; [done|]. injection E as <- <-. split; [done|]. intros Hl. destruct len; [lia|]. done. Qed.
Next Obligation. by intros len k [|x rest]. Qed.

Theorem ws_stream_witness :
  ws_read_all (replicate 15 (2, 0)%nat) (mkWSConn [[x01; x02; x03]; []; [x04]] None) = ([x01; x02; x03; x04], false).
Proof. apply (ws_stream (replicate 15 (2, 0)%nat) (mkWSConn [[x01; x02; x03]; []; [x04]] None)); [repeat constructor|vm_compute; lia]. Defined.
