(* ===== verification/Disconnect.v ===== *)
(** The notification of a disconnect (src/net/parser/connection.go): [Close] starts the
    callback once, and [waitDisconnect] waits for its end.

    [exec_dc] is one step of one goroutine of a single connection: of a call of [Close], of
    [runDisconnect], of a call of [waitDisconnect]. The channel is a number; closing it
    twice panics. *)
From S2P Require Import Prelude.

(** ** State *)

(** A call of [Close] after its [closeOnce]: before [disconnectChannel], before
    [disconnectOnce]. *)
Inductive closer := ClChannel | ClOnce (ch : nat).
(** [runDisconnect]: the callback, which may panic, and the deferred [close]. *)
Inductive runner := RnCallback (ch : nat) | RnClose (ch : nat).
(** [waitDisconnect]: before [disconnectChannel], and in its [select]. *)
Inductive waiter := WtChannel | WtSelect (ch : nat).

(** [dc_closed]: [closeOnce]; [dc_chan]: [disconnectDone], nil at first; [dc_started]:
    [disconnectOnce]; [dc_calls]: the calls of [OnDisconnect]; [dc_crashed]: a channel has
    been closed twice. *)
Record disconnect := mkDisconnect {
  dc_closed : bool; dc_chan : option nat; dc_next : nat; dc_started : bool; dc_ended : list nat; dc_calls : nat; dc_crashed : bool;
  dc_closers : list closer; dc_runners : list runner; dc_waiters : list waiter }.

Definition dc_init : disconnect := mkDisconnect false None 0 false [] 0 false [] [] [].

(** src/net/parser/connection.go:490-498, Connection.disconnectChannel *)
Definition disconnectChannel (s : disconnect) : nat * disconnect :=
  match dc_chan s with
  | Some ch => (ch, s)
  | None => (dc_next s, mkDisconnect (dc_closed s) (Some (dc_next s)) (S (dc_next s)) (dc_started s) (dc_ended s) (dc_calls s) (dc_crashed s)
                          (dc_closers s) (dc_runners s) (dc_waiters s))
  end.

Definition set_closers (l : list closer) (s : disconnect) : disconnect :=
  mkDisconnect (dc_closed s) (dc_chan s) (dc_next s) (dc_started s) (dc_ended s) (dc_calls s) (dc_crashed s) l (dc_runners s) (dc_waiters s).
Definition set_waiters (l : list waiter) (s : disconnect) : disconnect :=
  mkDisconnect (dc_closed s) (dc_chan s) (dc_next s) (dc_started s) (dc_ended s) (dc_calls s) (dc_crashed s) (dc_closers s) (dc_runners s) l.

(** The first call goes on after the [Once]; the others, which wait for its body, have nothing
    more to do. *)
(** src/net/parser/connection.go:438-459, Connection.Close *)
Definition Close_once (s : disconnect) : disconnect :=
  if dc_closed s then s
  else mkDisconnect true (dc_chan s) (dc_next s) (dc_started s) (dc_ended s) (dc_calls s) (dc_crashed s)
         (dc_closers s ++ [ClChannel]) (dc_runners s) (dc_waiters s).

(** src/net/parser/connection.go:459-463, Connection.Close *)
Definition Close_notify (i : nat) (s : disconnect) : option disconnect :=
  match dc_closers s !! i with
  | Some ClChannel => let '(ch, s) := disconnectChannel s in Some (set_closers (<[i := ClOnce ch]> (dc_closers s)) s)
  | Some (ClOnce ch) =>
      let s := set_closers (delete i (dc_closers s)) s in
      Some (if dc_started s then s
            else mkDisconnect (dc_closed s) (dc_chan s) (dc_next s) true (dc_ended s) (dc_calls s) (dc_crashed s)
                   (dc_closers s) (dc_runners s ++ [RnCallback ch]) (dc_waiters s))
  | None => None
  end.

Section Disconnect.
(** [OnDisconnect] is set. *)
Variable callback : bool.

(** The callback returns, or panics and is recovered; then the channel is closed. *)
(** src/net/parser/connection.go:466-476, Connection.runDisconnect *)
Definition runDisconnect_step (i : nat) (s : disconnect) : option disconnect :=
  match dc_runners s !! i with
  | Some (RnCallback ch) =>
      Some (mkDisconnect (dc_closed s) (dc_chan s) (dc_next s) (dc_started s) (dc_ended s) (dc_calls s + if callback then 1 else 0) (dc_crashed s)
              (dc_closers s) (<[i := RnClose ch]> (dc_runners s)) (dc_waiters s))
  | Some (RnClose ch) =>
      Some (mkDisconnect (dc_closed s) (dc_chan s) (dc_next s) (dc_started s) (ch :: dc_ended s) (dc_calls s)
              (dc_crashed s || bool_decide (ch ∈ dc_ended s)) (dc_closers s) (delete i (dc_runners s)) (dc_waiters s))
  | None => None
  end.

(** A wait without a timeout returns at once. *)
(** src/net/parser/connection.go:478-483, Connection.waitDisconnect *)
Definition waitDisconnect_start (timeout : Z) (s : disconnect) : disconnect :=
  if timeout <=? 0 then s else set_waiters (dc_waiters s ++ [WtChannel]) s.

(** [timer]: the time is over. *)
(** src/net/parser/connection.go:484-488, Connection.waitDisconnect *)
Definition waitDisconnect_step (i : nat) (timer : bool) (s : disconnect) : option disconnect :=
  match dc_waiters s !! i with
  | Some WtChannel => let '(ch, s) := disconnectChannel s in Some (set_waiters (<[i := WtSelect ch]> (dc_waiters s)) s)
  | Some (WtSelect ch) => if timer || bool_decide (ch ∈ dc_ended s) then Some (set_waiters (delete i (dc_waiters s)) s) else None
  | None => None
  end.

Inductive dc_action := DcClose | DcStep (i : nat) | DcRun (i : nat) | DcWait (timeout : Z) | DcWaitStep (i : nat) (timer : bool).

Definition exec_dc (a : dc_action) (s : disconnect) : option disconnect :=
  if dc_crashed s then None else
  match a with
  | DcClose => Some (Close_once s)
  | DcStep i => Close_notify i s
  | DcRun i => runDisconnect_step i s
  | DcWait timeout => Some (waitDisconnect_start timeout s)
  | DcWaitStep i timer => waitDisconnect_step i timer s
  end.

Inductive dc_reach : disconnect -> Prop :=
| dc_start : dc_reach dc_init
| dc_step s a s' : dc_reach s -> exec_dc a s = Some s' -> dc_reach s'.

Fixpoint run_dc (l : list dc_action) (s : disconnect) : option disconnect :=
  match l with [] => Some s | a :: l => exec_dc a s ≫= run_dc l end.

(** ** What holds of its runs *)

(** Everybody waits for the channel of the connection. *)
Definition waits (chan : option nat) (ws : list waiter) : Prop :=
  forall i ch, ws !! i = Some (WtSelect ch) -> chan = Some ch.

(** The six phases of a connection, of which each has one goroutine that can go on. *)
Inductive dc_ok : disconnect -> Prop :=
| dk_open chan nx ws : waits chan ws -> dc_ok (mkDisconnect false chan nx false [] 0 false [] [] ws)
| dk_closing chan nx ws : waits chan ws -> dc_ok (mkDisconnect true chan nx false [] 0 false [ClChannel] [] ws)
| dk_once ch nx ws : waits (Some ch) ws -> dc_ok (mkDisconnect true (Some ch) nx false [] 0 false [ClOnce ch] [] ws)
| dk_callback ch nx ws : waits (Some ch) ws -> dc_ok (mkDisconnect true (Some ch) nx true [] 0 false [] [RnCallback ch] ws)
| dk_ending ch nx ws : waits (Some ch) ws ->
    dc_ok (mkDisconnect true (Some ch) nx true [] (if callback then 1 else 0) false [] [RnClose ch] ws)
| dk_ended ch nx ws : waits (Some ch) ws ->
    dc_ok (mkDisconnect true (Some ch) nx true [ch] (if callback then 1 else 0) false [] [] ws).
#[local] Hint Constructors dc_ok : core.

Lemma waits_app chan ws : waits chan ws -> waits chan (ws ++ [WtChannel]).
Proof. intros H i ch [Hi|(_ & [Hi Ex]%list_lookup_singleton_Some)]%lookup_app_Some; [by eapply H|done]. Qed.

Lemma waits_delete chan ws i : waits chan ws -> waits chan (delete i ws).
Proof.
  intros H j ch Hj. destruct (decide (j < i)%nat); [rewrite list_lookup_delete_lt in Hj by done|rewrite list_lookup_delete_ge in Hj by lia]; by eapply H.
Qed.

Lemma waits_select ch ws i : waits (Some ch) ws -> waits (Some ch) (<[i := WtSelect ch]> ws).
Proof.
  intros H j ch' [(-> & [= ->] & _)|[_ Hj]]%list_lookup_insert_Some; [done|by eapply H].
Qed.

(** The channel is made for the first one who asks. *)
Lemma waits_new ws i nx : waits None ws -> waits (Some nx) (<[i := WtSelect nx]> ws).
Proof. intros H. apply waits_select. intros j ch Hj. by specialize (H j ch Hj). Qed.
#[local] Hint Resolve waits_app waits_delete waits_select waits_new : core.

Lemma waits_none ws nx : waits None ws -> waits (Some nx) ws.
Proof. intros H j ch Hj. by specialize (H j ch Hj). Qed.
#[local] Hint Resolve waits_none : core.

Lemma ok_alive s : dc_ok s -> dc_crashed s = false.
Proof. by destruct 1. Qed.

Lemma exec_dc_ok a s s' : dc_ok s -> exec_dc a s = Some s' -> dc_ok s'.
Proof.
  intros Hs. unfold exec_dc. rewrite (ok_alive _ Hs). destruct a as [|i|i|timeout|i timer].
  - intros [= <-]. unfold Close_once. destruct Hs; simpl; auto.
  - unfold Close_notify, disconnectChannel, set_closers. destruct Hs; simpl; destruct i as [|[|i]]; simpl; try done; [|intros [= <-]; auto].
    destruct chan; intros [= <-]; simpl; auto.
  - unfold runDisconnect_step. destruct Hs; simpl; destruct i as [|[|i]]; simpl; try done; intros [= <-]; auto.
  - intros [= <-]. unfold waitDisconnect_start, set_waiters. destruct (timeout <=? 0); [done|]. destruct Hs; simpl; auto.
  - unfold waitDisconnect_step, disconnectChannel, set_waiters. destruct (dc_waiters s !! i) as [[|c]|]; [| |done].
    + destruct Hs; simpl; try (destruct chan); intros [= <-]; simpl; auto.
    + destruct (_ || _); [|done]. intros [= <-]. destruct Hs; simpl; auto.
Qed.

Lemma dc_reach_ok s : dc_reach s -> dc_ok s.
Proof. induction 1; [apply dk_open; by intros i ch|by eapply exec_dc_ok]. Qed.

(** What [Close] and the goroutine it starts have still to do. *)
Definition dc_own (a : dc_action) : bool := match a with DcStep _ | DcRun _ => true | _ => false end.
Definition dc_work (s : disconnect) : nat :=
  ((if dc_closed s then 0 else 4) + list_sum (map (fun c => match c with ClChannel => 4 | ClOnce _ => 3 end) (dc_closers s)) +
  list_sum (map (fun r => match r with RnCallback _ => 2 | RnClose _ => 1 end) (dc_runners s)))%nat.

Lemma exec_dc_work a s s' : dc_ok s -> exec_dc a s = Some s' -> (dc_work s' + (if dc_own a then 1 else 0) <= dc_work s)%nat.
Proof.
  intros Hs. unfold exec_dc. rewrite (ok_alive _ Hs). destruct a as [|i|i|timeout|i timer]; simpl.
  - intros [= <-]. unfold Close_once. destruct Hs; simpl; unfold dc_work; simpl; lia.
  - unfold Close_notify, disconnectChannel, set_closers. destruct Hs; simpl; destruct i as [|[|i]]; simpl; try done;
      try destruct chan; intros [= <-]; unfold dc_work; simpl; lia.
  - unfold runDisconnect_step. destruct Hs; simpl; destruct i as [|[|i]]; simpl; try done; intros [= <-]; unfold dc_work; simpl; lia.
  - intros [= <-]. unfold waitDisconnect_start. destruct (timeout <=? 0); unfold dc_work; simpl; lia.
  - unfold waitDisconnect_step, disconnectChannel. destruct (dc_waiters s !! i) as [[|c]|]; [| |done].
    + destruct (dc_chan s); intros [= <-]; unfold dc_work; simpl; lia.
    + destruct (_ || _); [|done]. intros [= <-]. unfold dc_work; simpl; lia.
Qed.

Lemma run_dc_work l s s' : dc_ok s -> run_dc l s = Some s' -> (length (List.filter dc_own l) + dc_work s' <= dc_work s)%nat.
Proof.
  revert s. induction l as [|a l IH]; intros s Hs E; simpl in E; [by injection E as ->|].
  destruct (exec_dc a s) as [t|] eqn:Ea; [|done]. specialize (IH t (exec_dc_ok _ _ _ Hs Ea) E).
  pose proof (exec_dc_work a s t Hs Ea). simpl. destruct (dc_own a); simpl; lia.
Qed.

Lemma dc_work_max s : dc_ok s -> (dc_work s <= 4)%nat.
Proof. destruct 1; unfold dc_work; simpl; lia. Qed.

(** C18: The callback of a disconnect is called at most once, however often and from wherever the
    connection is closed; no channel is closed twice, whoever asks for it first; and once a
    [Close] has begun, either its goroutine or the one it starts can go on, and they do so
    four times at most in any run, or the callback, if there is one, has been called and
    everybody who waits in [waitDisconnect] can go without a timer. A callback comes back or
    panics, and the body of [closeOnce], which does nothing with the channel, is one step
    (its parts are those of [Connection.Close_step]). *)
Theorem disconnect_once s : dc_reach s ->
  (dc_calls s <= 1)%nat /\ dc_crashed s = false /\
  (forall l s', run_dc l s = Some s' -> (length (List.filter dc_own l) <= 4)%nat) /\
  (dc_closed s = true ->
     (exists s', exec_dc (DcStep 0) s = Some s' \/ exec_dc (DcRun 0) s = Some s') \/
     (dc_calls s = if callback then 1%nat else 0%nat) /\
     forall i ch, dc_waiters s !! i = Some (WtSelect ch) -> exists s', exec_dc (DcWaitStep i false) s = Some s').
Proof.
  intros Hs%dc_reach_ok. assert (forall l s', run_dc l s = Some s' -> (length (List.filter dc_own l) <= 4)%nat) as Hw4.
  { intros l s' E. pose proof (run_dc_work l s s' Hs E). pose proof (dc_work_max s Hs). lia. }
  destruct Hs as [chan nx ws Hw|chan nx ws Hw|ch nx ws Hw|ch nx ws Hw|ch nx ws Hw|ch nx ws Hw]; simpl;
    (split; [destruct callback; lia|split; [done|split; [exact Hw4|intros Hc; try done]]]).
  - left. unfold exec_dc, Close_notify, disconnectChannel. simpl. destruct chan; eauto.
  - left. unfold exec_dc, Close_notify. simpl. eauto.
  - left. unfold exec_dc, runDisconnect_step. simpl. eauto.
  - left. unfold exec_dc, runDisconnect_step. simpl. eauto.
  - right. split; [done|]. intros i c Hi. unfold exec_dc, waitDisconnect_step. simpl. rewrite Hi. pose proof (Hw i c Hi) as [= ->].
    rewrite bool_decide_true by set_solver. simpl. eauto.
Qed.
End Disconnect.

(** Two calls of [Close] and two waiters, one of whom asks for the channel first. *)
Definition demo_dc : list dc_action :=
  [DcWait 5; DcWaitStep 0 false; DcClose; DcClose; DcStep 0; DcWait 5; DcStep 0; DcWaitStep 1 false; DcRun 0; DcRun 0].
Definition demo_dc_state : disconnect := default dc_init (run_dc true demo_dc dc_init).

Lemma dc_reach_run callback l s s' : dc_reach callback s -> run_dc callback l s = Some s' -> dc_reach callback s'.
Proof.
  revert s. induction l as [|a l IH]; intros s Hs E; simpl in E; [by injection E as <-|].
  destruct (exec_dc callback a s) as [t|] eqn:Ea; [|done]. apply (IH t); [|done]. by eapply dc_step.
Qed.

Theorem disconnect_once_witness :
  (dc_calls demo_dc_state <= 1)%nat /\ dc_waiters demo_dc_state = [WtSelect 0; WtSelect 0] /\ dc_ended demo_dc_state = [0%nat].
Proof.
  split; [|vm_compute; done]. apply (disconnect_once true demo_dc_state).
  apply (dc_reach_run true demo_dc dc_init); [apply dc_start|vm_compute; reflexivity].
Defined.
