(* ===== verification/Server.v ===== *)
(** The AGP server with its connectors (src/net/parser/component.go): sockets from the
    listeners to the connection manager, and the shutdown of both.

    [exec_sv] is one step of one goroutine of the connectors ([exec_kn]), of the connections
    ([exec_net]), or of [OnBeforeStop]. The callback of a connector is [HandleConn]. What
    holds here combines the invariants of the two parts; at the end, the notification of a
    disconnect and the waits for it. *)
From S2P Require Import Prelude Strconv Facade Context Serializer Agp Connection ConnectionInv Connector.

(** ** The component *)

(** A connector as it is configured; [None] is nil. *)
Inductive any_connector := TCPC (o : ConnOptions) (c : Connector) | WSC (w : WSConnector).

Definition connector_of (a : any_connector) : Connector := match a with TCPC _ c => c | WSC w => wc_conn w end.
Definition on_connector (f : Connector -> Connector) (a : any_connector) : any_connector :=
  match a with
  | TCPC o c => TCPC o (f c)
  | WSC w => WSC (mkWSConnector (f (wc_conn w)) (wc_options w) (wc_upgrade w) (wc_required w))
  end.

(** What it does before the goroutines of [Start] run. *)
(** src/net/parser/component.go:55-67, Component.OnAfterInit *)
Definition Component_OnAfterInit (connectors : list (option any_connector)) : list any_connector :=
  omap (fun o => a ← o;
    let a := match a with WSC w => WSC (SetRequiredSubprotocol "agp.v1" w) | a => a end in
    Some (on_connector (Connector_OnConnect true) a)) connectors.

(** A nil application or table panics. *)
(** src/net/parser/component.go:48-52, Component.Init *)
Definition Component_Init (app methods : bool) : option unit := if negb app || negb methods then None else Some tt.

(** ** The running server *)

(** [OnBeforeStop]: the connector it stops; the snapshot; the wait for the goroutines of
    [GoAway], which ends with them or at its timer; the connections still to close; the
    wait for the callbacks. *)
Inductive before_stop :=
| BNone | BStop (i : nat) | BSnapshot | BWait (l : list nat) | BClose (l : list nat) | BDisconnects | BDone.

(** [sv_sockets]: the connector, the socket and the connection of each call of the callback
    that has come back. [sv_goaways]: the goroutines of [OnBeforeStop] that have not
    started. *)
(** src/net/parser/component.go:17-22, Component *)
Record server := mkServer {
  sv_connectors : list Connector; sv_sockets : list (nat * nat * nat); sv_net : net;
  sv_goaways : list nat; sv_before : before_stop }.

Definition sv_set_connector (i : nat) (c : Connector) (s : server) : server :=
  mkServer (<[i := c]> (sv_connectors s)) (sv_sockets s) (sv_net s) (sv_goaways s) (sv_before s).
Definition sv_set_net (n : net) (s : server) : server := mkServer (sv_connectors s) (sv_sockets s) n (sv_goaways s) (sv_before s).
Definition sv_set_before (b : before_stop) (s : server) : server := mkServer (sv_connectors s) (sv_sockets s) (sv_net s) (sv_goaways s) b.

Definition server_init (connectors : list (option any_connector)) : server :=
  mkServer (connector_of <$> Component_OnAfterInit connectors) [] fresh_net [] BNone.

Inductive sv_action :=
| VConnector (i : nat) (a : kn_action)
| VHandle (i : nat) (now : Z) (id remoteIP : str)
| VNet (a : net_action)
| VBefore | VBeforeStep | VGoAway (i : nat).

Section Server.
Context `{PacketProto} `{ControlProto}.
Variable codecs : Registry.
Variable options : Options.
Hypothesis max_inflight : 0 <= op_MaxInflight options.
Local Abbreviation exec_net := (Connection.exec_net codecs options).

(** The callback of connector [i] runs for the socket it has: a connection for it, and the
    dispatcher goes on. *)
(** src/net/parser/component.go:70-77, Component.HandleConn *)
Definition handle_socket (i : nat) (now : Z) (id remoteIP : str) (s : server) : option server :=
  c ← sv_connectors s !! i;
  match kn_disp c with
  | DCalling socket =>
      c' ← exec_kn KReturn c;
      n' ← exec_net (NAccept now id remoteIP true) (sv_net s);
      Some (mkServer (<[i := c']> (sv_connectors s)) (sv_sockets s ++ [(i, socket, n_next (sv_net s))]) n' (sv_goaways s) (sv_before s))
  | _ => None
  end.

(** The next step of [OnBeforeStop]. A call of [Close] is begun here, is carried on by
    [NCloseStep], and returns when the [Do] of [closeOnce] is over, whoever it was that
    began it. *)
(** src/net/parser/component.go:81-104, Component.OnBeforeStop *)
Definition OnBeforeStop_step (s : server) : option server :=
  match sv_before s with
  | BNone | BDone => None
  | BStop i =>
      match sv_connectors s !! i with
      | None => Some (sv_set_before BSnapshot s)
      | Some c =>
          if kn_stopped c
          then if bool_decide (kn_stop c = SReturned) then Some (sv_set_before (BStop (S i)) s) else None
          else Some (sv_set_connector i (Stop_cas c) s)
      end
  | BSnapshot =>
      let l := Manager_Snapshot (sv_net s) in
      Some (mkServer (sv_connectors s) (sv_sockets s) (sv_net s) (sv_goaways s ++ l) (BWait l))
  | BWait l => Some (sv_set_before (BClose l) s)
  | BClose (k :: l) =>
      match n_conns (sv_net s) !! k with
      | None => Some (sv_set_before (BClose l) s)
      | Some c =>
          match cn_closing c with
          | ClOpen => Some (sv_set_net (Close_begin k (sv_net s)) s)
          | ClNotified => Some (sv_set_before (BClose l) s)
          | _ => None
          end
      end
  | BClose [] => Some (sv_set_before BDisconnects s)
  | BDisconnects => Some (sv_set_before BDone s)
  end.

(** A goroutine of [OnBeforeStop] starts its [GoAway]. *)
(** src/net/parser/component.go:91-94, Component.OnBeforeStop *)
Definition start_goaway (i : nat) (s : server) : option server :=
  k ← sv_goaways s !! i;
  n' ← exec_net (NTerminal k (TGoAway 0 0)) (sv_net s);
  Some (mkServer (sv_connectors s) (sv_sockets s) n' (delete i (sv_goaways s)) (sv_before s)).

(** The callback is called through [VHandle] only, [Stop] by [OnBeforeStop]. *)
Definition exec_sv (a : sv_action) (s : server) : option server :=
  match a with
  | VConnector i a =>
      match a with
      | KReturn | KOnConnect _ | KStop => None
      | _ => c ← sv_connectors s !! i; c' ← exec_kn a c; Some (sv_set_connector i c' s)
      end
  | VHandle i now id remoteIP => handle_socket i now id remoteIP s
  | VNet a => match a with NAccept _ _ _ _ => None | _ => n' ← exec_net a (sv_net s); Some (sv_set_net n' s) end
  | VBefore => match sv_before s with BNone => Some (sv_set_before (BStop 0) s) | _ => None end
  | VBeforeStep => OnBeforeStop_step s
  | VGoAway i => start_goaway i s
  end.

Fixpoint run_sv (l : list sv_action) (s : server) : option server :=
  match l with [] => Some s | a :: l => exec_sv a s ≫= run_sv l end.

Inductive sv_reach (connectors : list (option any_connector)) : server -> Prop :=
| sv_start : sv_reach connectors (server_init connectors)
| sv_step s a s' : sv_reach connectors s -> exec_sv a s = Some s' -> sv_reach connectors s'.

(** ** The invariant of the server *)

Definition sockets_of (i : nat) (l : list (nat * nat * nat)) : list nat :=
  omap (fun x => if (x.1.1 =? i)%nat then Some x.1.2 else None) l.

Definition calling (c : Connector) : list nat := match kn_disp c with DCalling x => [x] | _ => [] end.

Definition all_returned (bound : nat -> Prop) (s : server) : Prop :=
  forall i c, bound i -> sv_connectors s !! i = Some c -> kn_stop c = SReturned.

Definition open_in (l : list nat) (s : server) : Prop :=
  forall k c, n_conns (sv_net s) !! k = Some c -> cn_removed c = false -> k ∈ l.

Record sv_ok (s : server) : Prop := {
  so_connectors : forall i c, sv_connectors s !! i = Some c -> kn_ok c;
  so_net : net_ok options (sv_net s);
  so_called : forall i c, sv_connectors s !! i = Some c -> kn_called c ≡ₚ sockets_of i (sv_sockets s) ++ calling c;
  so_sockets : forall i x k, (i, x, k) ∈ sv_sockets s -> is_Some (n_conns (sv_net s) !! k);
  so_returned : match sv_before s with
                | BNone => True
                | BStop i => all_returned (fun j => j < i)%nat s
                | _ => all_returned (fun _ => True) s
                end;
  so_open : match sv_before s with
            | BWait l | BClose l => open_in l s
            | BDisconnects | BDone => open_in [] s
            | _ => True
            end }.

(** What a step of a connector does to the sockets its callback has had. *)
Lemma called_step a c c' : kn_ok c -> (forall fn, a <> KOnConnect fn) -> a <> KReturn -> exec_kn a c = Some c' ->
  (kn_called c' = kn_called c /\ calling c' = calling c) \/
  (exists x, kn_called c' = kn_called c ++ [x] /\ calling c = [] /\ calling c' = [x]).
Proof.
  destruct c as [cap cb run stp dn q hs st wg d sp li ac en ca cl]. intros [] Hf Hr. simpl in *. unfold calling.
  clear ck_sockets ck_running ck_stopped ck_done ck_handoffs ck_dispWG ck_dispatch ck_queue ck_cap.
  destruct a; try done; simpl; unfold InChan_send, InChan_done, leave_handoff, Connector_Start, dispatch_top, dispatch_done, dispatch_recv,
    dispatch_check, Stop_step, Stop_cas, TCP_step, TCP_accept, InChan_enter; simpl; intros E.
  - by destruct (Hf fn).
  - destruct stp; simplify_eq; auto.
  - destruct (hs !! i) as [[b x]|]; [|done]. destruct (_ <? _)%nat; [destruct b; simplify_eq; auto|].
    destruct (_ && _) eqn:Ed; [|done]. apply andb_true_iff in Ed as [_ ->%bool_decide_eq_true]. destruct b; simplify_eq; auto.
  - destruct (hs !! i) as [[b x]|]; [|done]. destruct dn; [|done]. destruct b; simplify_eq; auto.
  - destruct cb; [|done]. simpl in E. destruct st; [simplify_eq; auto|]. specialize (ck_started eq_refl). subst d. destruct stp; simplify_eq; auto.
  - destruct d, dn; simplify_eq; auto.
  - destruct d, dn; simplify_eq; auto.
  - destruct d, q; simplify_eq; auto.
  - destruct d, stp; simplify_eq; simpl; eauto 6.
  - destruct stp; simplify_eq; auto.
  - destruct sp; try done; [| |destruct li|destruct hs; [|done]|destruct (wg =? 0)%nat; [|done]|destruct q]; simplify_eq; auto.
  - destruct ac; try done; simplify_eq; auto; [|destruct stp; auto].
    destruct (Connector_Start _) as [t|] eqn:Et; [|done]. unfold Connector_Start in Et. simplify_eq. simpl in *. destruct cb; [|done]. simpl in Et.
    destruct st; [simplify_eq; auto|]. specialize (ck_started eq_refl). subst d. destruct stp; simplify_eq; auto.
  - destruct ac, socket; try done; [destruct li; try done|]; simplify_eq; auto.
Qed.
(** The connectors come from [NewTCP] and [NewWS]. *)
Definition configured (connectors : list (option any_connector)) : Prop :=
  forall a, Some a ∈ connectors -> exists sz, NewConnector sz = Some (connector_of a).

Lemma init_connector connectors i c : configured connectors -> sv_connectors (server_init connectors) !! i = Some c ->
  exists sz c0, NewConnector sz = Some c0 /\ c = Connector_OnConnect true c0.
Proof.
  intros Hc. unfold server_init, Component_OnAfterInit. simpl. rewrite list_lookup_fmap. intros (a & Ha & ->)%fmap_Some.
  apply list_elem_of_lookup_2, list_elem_of_omap in Ha as ([b|] & Hb & E); [|done]. simpl in E. injection E as <-.
  destruct (Hc b Hb) as [sz E]. exists sz, (connector_of b). split; [done|]. by destruct b.
Qed.

Lemma sv_ok_init connectors : configured connectors -> sv_ok (server_init connectors).
Proof.
  intros Hc. split; try done.
  - intros i c H1. destruct (init_connector _ _ _ Hc H1) as (sz & c0 & E & ->). apply (exec_kn_ok (KOnConnect true) c0); [|done].
    by eapply kn_ok_init.
  - intros i c H1. destruct (init_connector _ _ _ Hc H1) as (sz & c0 & E & ->). unfold NewConnector in E. destruct (sz <? 0); [done|].
    by injection E as <-.
  - intros i x k H1. by apply elem_of_nil in H1.
Qed.

(** A connector that has stopped stays so. *)
Lemma returned_step a c c' : kn_ok c -> exec_kn a c = Some c' -> kn_stop c = SReturned -> kn_stop c' = SReturned.
Proof.
  intros Hok E H7. apply (stopped_keeps a c c'); [|done..]. destruct Hok. by rewrite ck_stopped, H7.
Qed.

Lemma all_returned_set bound i c c' s : all_returned bound s -> sv_connectors s !! i = Some c ->
  (kn_stop c = SReturned -> kn_stop c' = SReturned) -> all_returned bound (sv_set_connector i c' s).
Proof.
  intros H1 Hi Hr j d Hj. simpl. destruct (decide (j = i)) as [->|].
  - rewrite list_lookup_insert_eq by (by eapply lookup_lt_Some). intros [= <-]. by apply Hr, (H1 i).
  - rewrite list_lookup_insert_ne by done. by apply H1.
Qed.

Lemma connector_keeps i c c' s : sv_ok s -> sv_connectors s !! i = Some c -> kn_ok c' ->
  (kn_stop c = SReturned -> kn_stop c' = SReturned) ->
  kn_called c' ≡ₚ sockets_of i (sv_sockets s) ++ calling c' -> sv_ok (sv_set_connector i c' s).
Proof.
  intros [] Hi Hok Hr Hc. split; simpl; try done.
  - intros j d. destruct (decide (j = i)) as [->|].
    + rewrite list_lookup_insert_eq by (by eapply lookup_lt_Some). by intros [= <-].
    + rewrite list_lookup_insert_ne by done. apply so_connectors0.
  - intros j d. destruct (decide (j = i)) as [->|].
    + rewrite list_lookup_insert_eq by (by eapply lookup_lt_Some). by intros [= <-].
    + rewrite list_lookup_insert_ne by done. apply so_called0.
  - destruct (sv_before s); try done; by apply (all_returned_set _ i c).
Qed.

Lemma sv_ok_connector i a c c' s : sv_ok s -> sv_connectors s !! i = Some c -> (forall fn, a <> KOnConnect fn) -> a <> KReturn ->
  exec_kn a c = Some c' -> sv_ok (sv_set_connector i c' s).
Proof.
  intros Hs Hi Hf Hr E. pose proof (so_connectors _ Hs i c Hi) as Hok. apply (connector_keeps i c); try done.
  - by eapply exec_kn_ok.
  - by apply (returned_step a).
  - pose proof (so_called _ Hs i c Hi) as Hc.
    destruct (called_step a c c' Hok Hf Hr E) as [[-> ->]|(x & -> & H1 & ->)]; [done|]. rewrite Hc, H1. by rewrite app_nil_r.
Qed.

(** A step of the connections. *)
Lemma sv_ok_net n' s : sv_ok s -> net_ok options n' -> final (sv_net s) n' -> dom (n_conns n') = dom (n_conns (sv_net s)) ->
  sv_ok (sv_set_net n' s).
Proof.
  intros [] Hn Hf Hd.
  assert (Hopen : forall l, open_in l s -> open_in l (sv_set_net n' s)).
  { intros l Hl k c' Hk Hc'. assert (is_Some (n_conns (sv_net s) !! k)) as [c Hc] by (apply elem_of_dom; rewrite <- Hd; by apply elem_of_dom_2 in Hk).
    apply (Hl k c Hc). destruct (cn_removed c) eqn:Ec; [|done]. destruct (Hf k c Hc) as (d & H1 & H2 & _). simpl in Hk.
    assert (d = c') as -> by congruence. by rewrite (rank_removed c c' H2 Ec) in Hc'. }
  split; simpl; try done.
  - intros i x k H1. apply elem_of_dom. rewrite Hd. apply elem_of_dom. by eapply so_sockets0.
  - destruct (sv_before s); auto.
Qed.
Lemma sockets_of_app i l j x k : sockets_of i (l ++ [(j, x, k)]) = sockets_of i l ++ (if (j =? i)%nat then [x] else []).
Proof. unfold sockets_of. rewrite omap_app. simpl. by destruct (j =? i)%nat. Qed.

Lemma return_step c c' x : kn_disp c = DCalling x -> exec_kn KReturn c = Some c' ->
  kn_called c' = kn_called c /\ calling c' = [] /\ kn_stop c' = kn_stop c.
Proof. simpl. unfold dispatch_return. intros ->. by intros [= <-]. Qed.

Lemma accept_eq now id ip n n' : exec_net (NAccept now id ip true) n = Some n' ->
  n' = Component_HandleConn now id ip true n /\ id <> EmptyString /\ cm_connections (n_manager n) !! id = None.
Proof.
  unfold Connection.exec_net. destruct (n_crashed n); [done|]. destruct (_ !! id); [done|]. destruct (String.eqb_spec id EmptyString); [done|]. by intros [= <-].
Qed.

Lemma accept_lookup now id ip n k :
  n_conns (Component_HandleConn now id ip true n) !! k =
  if decide (k = n_next n) then Some (newConnection id ip true) else n_conns n !! k.
Proof.
  unfold Component_HandleConn, Manager_Add. simpl. rewrite lookup_insert_eq. simpl. case_decide as E.
  - subst. by rewrite lookup_insert_eq.
  - by rewrite lookup_insert_ne.
Qed.

Lemma next_free n : net_ok options n -> n_conns n !! n_next n = None.
Proof. intros []. destruct (n_conns n !! n_next n) eqn:E; [|done]. destruct (no_conns _ _ E). lia. Qed.

Lemma sv_ok_handle i now id ip s s' : sv_ok s -> handle_socket i now id ip s = Some s' -> sv_ok s'.
Proof.
  intros Hs. unfold handle_socket. destruct (sv_connectors s !! i) as [c|] eqn:Hi; [|done]. simpl.
  destruct (kn_disp c) as [| | | |x|] eqn:Hd; try done. destruct (dispatch_return c) as [c'|] eqn:Ec; [|done]. simpl.
  match goal with |- context [?x ≫= _] => destruct x as [n'|] eqn:En end; [|done]. intros [= <-]. apply accept_eq in En as (-> & Hid & Hnew).
  pose proof (so_connectors _ Hs i c Hi) as Hok. destruct (return_step c c' x Hd Ec) as (H1 & H2 & H3).
  assert (kn_stop c <> SReturned) as Hnr.
  { intros E. pose proof (ck_dispatch _ Hok) as Hx. rewrite E, Hd in Hx. simpl in Hx. specialize (Hx ltac:(lia)). done. }
  assert (Hi' : (i < length (sv_connectors s))%nat) by (by eapply lookup_lt_Some).
  destruct Hs. split; simpl.
  - intros j d. destruct (decide (j = i)) as [->|]; [rewrite list_lookup_insert_eq by done; intros [= <-]; by apply (exec_kn_ok KReturn c)|].
    rewrite list_lookup_insert_ne by done. apply so_connectors0.
  - by apply net_accept.
  - intros j d. rewrite sockets_of_app. destruct (decide (j = i)) as [->|].
    + rewrite list_lookup_insert_eq by done. intros [= <-]. rewrite H1, H2, (so_called0 i c Hi), Nat.eqb_refl. unfold calling. by rewrite Hd, app_nil_r.
    + rewrite list_lookup_insert_ne by done. destruct (Nat.eqb_spec i j); [done|]. rewrite app_nil_r. apply so_called0.
  - intros j y k Hin. rewrite accept_lookup by done. case_decide; [done|]. apply elem_of_app in Hin as [Hin|Hin].
    + by eapply so_sockets0.
    + apply list_elem_of_singleton in Hin as [= -> -> ->]. done.
  - destruct (sv_before s) as [|b| | | | |]; try done; try (by destruct (Hnr (so_returned0 i c I Hi))).
    intros j d Hj. simpl. destruct (decide (j = i)) as [->|].
    + by destruct (Hnr (so_returned0 i c Hj Hi)).
    + rewrite list_lookup_insert_ne by done. by apply so_returned0.
  - destruct (sv_before s) as [|b| | | | |]; try done; by destruct (Hnr (so_returned0 i c I Hi)).
Qed.

Lemma sv_ok_before s s' : sv_ok s -> OnBeforeStop_step s = Some s' -> sv_ok s'.
Proof.
  intros Hs. unfold OnBeforeStop_step. destruct (sv_before s) as [|i| |l|[|k l]| |] eqn:Eb; try done.
  - destruct (sv_connectors s !! i) as [c|] eqn:Hi.
    + destruct (kn_stopped c) eqn:Hst.
      * case_bool_decide as H7; [|done]. intros [= <-]. destruct Hs. rewrite Eb in *. split; simpl; try done.
        intros j d Hj Hd. destruct (decide (j = i)) as [->|]; [simpl in *; congruence|]. apply (so_returned0 j); [lia|done].
      * intros [= <-]. by apply (sv_ok_connector i KStop c).
    + intros [= <-]. destruct Hs. rewrite Eb in *. split; simpl; try done. intros j d _ Hd. apply (so_returned0 j); [|done].
      apply lookup_ge_None in Hi. apply lookup_lt_Some in Hd. simpl in Hd. lia.
  - intros [= <-]. destruct Hs. rewrite Eb in *. split; simpl; try done. intros k c Hk Hc. unfold Manager_Snapshot.
    apply list_elem_of_fmap. exists (cn_id c, k). split; [done|]. apply elem_of_map_to_list. by apply (no_open _ _ so_net0).
  - intros [= <-]. destruct Hs. rewrite Eb in *. by split.
  - intros [= <-]. destruct Hs. rewrite Eb in *. by split.
  - pose proof (so_net _ Hs) as Hn. intros E.
    assert (Hskip : (forall c, n_conns (sv_net s) !! k = Some c -> cn_removed c = true) -> sv_ok (sv_set_before (BClose l) s)).
    { intros Hk. destruct Hs. rewrite Eb in *. split; simpl; try done. intros j c Hj Hc. specialize (so_open0 j c Hj Hc).
      apply elem_of_cons in so_open0 as [->|]; [|done]. by rewrite (Hk c Hj) in Hc. }
    destruct (n_conns (sv_net s) !! k) as [c|] eqn:Hk; [|by injection E as <-; apply Hskip].
    destruct (cn_closing c) eqn:Ec; simplify_eq.
    + apply sv_ok_net; [done|by apply net_begin|apply final_begin|apply dom_begin].
    + apply Hskip. intros d [= <-]. unfold cn_removed. by rewrite Ec.
  - intros [= <-]. destruct Hs. rewrite Eb in *. by split.
Qed.

Lemma exec_sv_ok a s s' : sv_ok s -> exec_sv a s = Some s' -> sv_ok s'.
Proof.
  intros Hs E. destruct a as [i a|i now id ip|a| | |i]; unfold exec_sv in E.
  - assert (exists c c', sv_connectors s !! i = Some c /\ exec_kn a c = Some c' /\ s' = sv_set_connector i c' s /\
      (forall fn, a <> KOnConnect fn) /\ a <> KReturn) as (c & c' & Hi & Ec & -> & Hf & Hr).
    { destruct a; try done; (destruct (sv_connectors s !! i) as [c0|]; [|done]); cbn -[exec_kn] in E;
        match type of E with context [exec_kn ?a c0] => destruct (exec_kn a c0) as [c0'|] eqn:Ec0 end; try done; injection E as <-; eauto 10. }
    by apply (sv_ok_connector i a c).
  - by apply (sv_ok_handle i now id ip s).
  - assert (exists n', exec_net a (sv_net s) = Some n' /\ s' = sv_set_net n' s /\ (forall now id ip b, a <> NAccept now id ip b)) as (n' & En & -> & Ha).
    { destruct a; try done; match type of E with context [exec_net ?a ?n] => destruct (exec_net a n) as [n'|] eqn:En end; try done;
        injection E as <-; eauto. }
    pose proof (so_net _ Hs) as Hn. apply sv_ok_net; try done.
    + by apply (exec_net_ok codecs options max_inflight a (sv_net s)).
    + by apply (exec_net_final codecs options a).
    + by eapply exec_net_dom.
  - destruct (sv_before s) eqn:Eb; try done. injection E as <-. destruct Hs. split; simpl; try done. intros j c Hj. lia.
  - by eapply sv_ok_before.
  - unfold start_goaway in E. destruct (sv_goaways s !! i) as [k|]; [|done]. simpl in E.
    match type of E with ?x ≫= _ = _ => destruct x as [n'|] eqn:En end; [|done]. injection E as <-.
    pose proof (so_net _ Hs) as Hn.
    assert (sv_ok (sv_set_net n' s)) as H1; [|by destruct H1]. apply sv_ok_net; try done.
    + by apply (exec_net_ok codecs options max_inflight (NTerminal k (TGoAway 0 0)) (sv_net s)).
    + by apply (exec_net_final codecs options (NTerminal k (TGoAway 0 0))).
    + by eapply (exec_net_dom codecs options (NTerminal k (TGoAway 0 0))).
Qed.

Lemma sv_reach_ok connectors s : configured connectors -> sv_reach connectors s -> sv_ok s.
Proof. intros Hc. induction 1; [by apply sv_ok_init|by eapply exec_sv_ok]. Qed.
(** ** Shutdown *)

(** When the connectors have returned, what entered them was called back or closed. *)
Lemma returned_sockets i c s : sv_ok s -> sv_connectors s !! i = Some c -> kn_stop c = SReturned ->
  kn_entered c ≡ₚ sockets_of i (sv_sockets s) ++ kn_closed c.
Proof.
  intros Hs Hi H7. pose proof (so_called _ Hs i c Hi) as Hc. destruct (so_connectors _ Hs i c Hi). rewrite H7 in *. simpl in *.
  unfold kn_pending in *. rewrite ck_handoffs, ck_queue in ck_sockets by lia. specialize (ck_dispatch ltac:(lia)).
  unfold calling in *. destruct (kn_disp c); try done; simpl in *; rewrite app_nil_r in Hc; by rewrite ck_sockets, Hc.
Qed.

(** C27: the shutdown of the AGP server with its connectors. When [OnBeforeStop] has come to
    its end, under every interleaving with the accept loops, the dispatchers, the handlers
    and the clients, every socket that a connector was given has been closed, by the
    connector or with the connection that [HandleConn] made of it; every connection is
    closed and the index is empty; and all of it stays so for what comes after. *)
Theorem server_stop_closes_all connectors s :
  configured connectors -> sv_reach connectors s -> sv_before s = BDone ->
  (forall i c, sv_connectors s !! i = Some c -> kn_entered c ≡ₚ sockets_of i (sv_sockets s) ++ kn_closed c) /\
  (forall i x k, (i, x, k) ∈ sv_sockets s -> exists c, n_conns (sv_net s) !! k = Some c /\ cn_done c = true) /\
  (forall k c, n_conns (sv_net s) !! k = Some c -> cn_done c = true) /\
  cm_connections (n_manager (sv_net s)) = ∅.
Proof.
  intros Hc Hr Hb. pose proof (sv_reach_ok _ _ Hc Hr) as Hs.
  assert (forall k c, n_conns (sv_net s) !! k = Some c -> cn_removed c = true) as Hrem.
  { intros k c Hk. pose proof (so_open _ Hs) as Ho. rewrite Hb in Ho. destruct (cn_removed c) eqn:E; [done|].
    specialize (Ho k c Hk E). by apply elem_of_nil in Ho. }
  assert (forall k c, n_conns (sv_net s) !! k = Some c -> cn_done c = true) as Hall.
  { intros k c Hk%Hrem. unfold cn_removed, cn_done in *. by destruct (cn_closing c). }
  split_and!; [| |done|].
  - intros i c Hi. apply returned_sockets; [done..|]. pose proof (so_returned _ Hs) as Hret. rewrite Hb in Hret. by apply (Hret i c).
  - intros i x k Hin. destruct (so_sockets _ Hs i x k Hin) as [c Hk]. eauto.
  - apply map_empty. intros id. destruct (_ !! id) as [k|] eqn:E; [|done].
    destruct (no_index _ _ (so_net _ Hs) id k E) as (_ & c & Hk & _ & Hd). by rewrite (Hrem k c Hk) in Hd.
Qed.

(** A step of [OnBeforeStop], or of a goroutine that it waits for. *)
Definition moves_on (s : server) : Prop :=
  exists a s', exec_sv a s = Some s' /\
    (a = VBeforeStep \/ (exists i k, a = VConnector i k /\ kn_own k = true) \/ (exists i now id ip, a = VHandle i now id ip) \/
     exists k, a = VNet (NCloseStep k)).

(** It closes a connection, or waits for the goroutine that does. *)
Lemma close_progress k l s : sv_ok s -> sv_before s = BClose (k :: l) ->
  (forall s', OnBeforeStop_step s = Some s' -> moves_on s) ->
  moves_on s.
Proof.
  intros Hs Eb Hstep. destruct (n_conns (sv_net s) !! k) as [c|] eqn:Hk; [|eapply Hstep; unfold OnBeforeStop_step; by rewrite Eb, Hk].
  assert (cn_closing c = ClOpen \/ cn_closing c = ClNotified \/ (cn_closing c <> ClOpen /\ cn_closing c <> ClNotified)) as [Ec|[Ec|[Ec1 Ec2]]]
    by (destruct (cn_closing c); auto).
  - eapply Hstep. unfold OnBeforeStop_step. by rewrite Eb, Hk, Ec.
  - eapply Hstep. unfold OnBeforeStop_step. by rewrite Eb, Hk, Ec.
  - exists (VNet (NCloseStep k)). eexists. split; [|eauto 8]. unfold exec_sv, Connection.exec_net.
    rewrite (no_crash _ _ (so_net _ Hs)), Hk. by destruct (cn_closing c).
Qed.

(** While [OnBeforeStop] is on its way, it can go on, or a goroutine that it waits for. *)
Lemma server_stop_progress connectors s : configured connectors -> sv_reach connectors s ->
  sv_before s <> BNone -> sv_before s <> BDone ->
  moves_on s.
Proof.
  intros Hc Hr Hn0 Hn1. pose proof (sv_reach_ok _ _ Hc Hr) as Hs.
  assert (forall s', OnBeforeStop_step s = Some s' -> moves_on s) as Hstep
    by (intros s' E; exists VBeforeStep, s'; auto).
  destruct (sv_before s) as [|i| |l|[|k l]| |] eqn:Eb; try done; try (eapply Hstep; unfold OnBeforeStop_step; by rewrite Eb).
  2: by apply (close_progress k l s).
  destruct (sv_connectors s !! i) as [c|] eqn:Hi; [|eapply Hstep; unfold OnBeforeStop_step; by rewrite Eb, Hi].
  pose proof (so_connectors _ Hs i c Hi) as Hok. destruct (kn_stopped c) eqn:Hst; [|eapply Hstep; unfold OnBeforeStop_step; by rewrite Eb, Hi, Hst].
  destruct (decide (kn_stop c = SReturned)) as [H7|H7].
  { eapply Hstep. unfold OnBeforeStop_step. rewrite Eb, Hi, Hst. by rewrite bool_decide_true. }
  destruct (stop_progress c Hok) as (a & c' & Ha & Ec); [intros E0; destruct Hok; rewrite E0 in *; simpl in *; congruence|done|].
  destruct a; try done; try (match type of Ec with exec_kn ?a _ = _ => exists (VConnector i a), (sv_set_connector i c' s) end;
    split; [unfold exec_sv; rewrite Hi; cbn -[exec_kn]; by rewrite Ec|eauto 6]; fail).
  set (id := fresh ({[EmptyString]} ∪ dom (cm_connections (n_manager (sv_net s))))).
  assert (id ∉ ({[EmptyString]} ∪ dom (cm_connections (n_manager (sv_net s))))) as Hid by apply is_fresh.
  exists (VHandle i 0 id EmptyString). simpl in *. unfold handle_socket. rewrite Hi. simpl.
  revert Ec. unfold dispatch_return. destruct (kn_disp c) as [| | | |x|] eqn:Ed; intros Ec; try done. simpl.
  unfold Connection.exec_net. rewrite (no_crash _ _ (so_net _ Hs)). apply not_elem_of_union in Hid as [Hid1 Hid2].
  rewrite (not_elem_of_dom_1 _ _ Hid2). destruct (String.eqb_spec id EmptyString) as [E|]; [set_solver|]. simpl. eauto 10.
Qed.
End Server.

#[local] Existing Instance toy_proto.
#[local] Existing Instance toy_control.

(** A TCP connector with a socket in the callback and one in the queue when [OnBeforeStop]
    begins; a third comes later. *)
Definition demo_connectors : list (option any_connector) :=
  match NewTCP "127.0.0.1:0" [WithChanSize 8] with Some (o, c) => [None; Some (TCPC o c)] | None => [] end.
Definition demo_sv_run : list sv_action :=
  [VConnector 0 TStep; VConnector 0 TStep; VConnector 0 TStep; VConnector 0 TStep; VConnector 0 (TAccept (Some 5%nat)); VConnector 0 TStep;
   VConnector 0 (KSend 0); VConnector 0 KTop; VConnector 0 KRecv; VConnector 0 KCheck; VConnector 0 TStep; VConnector 0 (TAccept (Some 6%nat));
   VConnector 0 TStep; VConnector 0 (KSend 0); VBefore; VBeforeStep; VConnector 0 KStopStep; VConnector 0 KStopStep; VConnector 0 KStopStep;
   VConnector 0 (KEnter 7); VConnector 0 KStopStep; VHandle 0 0 "c1" "10.0.0.9"; VNet (NStart 0 0); VConnector 0 KTop; VConnector 0 KStopStep;
   VConnector 0 KStopStep; VConnector 0 KStopStep; VBeforeStep; VBeforeStep; VBeforeStep; VGoAway 0; VNet (NTerminalStep 0); VBeforeStep;
   VBeforeStep; VNet (NCloseStep 0); VNet (NCloseStep 0); VNet (NCloseStep 0); VNet (NCloseStep 0); VBeforeStep; VBeforeStep; VBeforeStep].
Definition demo_sv : server :=
  default (server_init []) (run_sv std_registry demo_options demo_sv_run (server_init demo_connectors)).

Lemma sv_reach_run `{PacketProto} `{ControlProto} codecs options connectors l s s' :
  sv_reach codecs options connectors s -> run_sv codecs options l s = Some s' -> sv_reach codecs options connectors s'.
Proof.
  revert s. induction l as [|a l IH]; intros s Hs E; simpl in E; [by injection E as <-|].
  destruct (exec_sv codecs options a s) as [t|] eqn:Ea; [|done]. apply (IH t); [|done]. by eapply sv_step.
Qed.

Lemma demo_sv_reach : sv_reach std_registry demo_options demo_connectors demo_sv.
Proof. apply (sv_reach_run _ _ _ demo_sv_run (server_init demo_connectors)); [apply sv_start|vm_compute; reflexivity]. Qed.

Lemma demo_configured : configured demo_connectors.
Proof.
  intros a Ha. exists 8. unfold demo_connectors in Ha. vm_compute in Ha. apply elem_of_cons in Ha as [Ha|Ha]; [done|].
  apply list_elem_of_singleton in Ha. injection Ha as ->. reflexivity.
Qed.

Theorem server_stop_closes_all_witness :
  sv_before demo_sv = BDone /\ (kn_closed <$> sv_connectors demo_sv) = [[7%nat; 6%nat]] /\ sv_sockets demo_sv = [(0, 5, 0)%nat] /\
  (forall i x k, (i, x, k) ∈ sv_sockets demo_sv -> exists c, n_conns (sv_net demo_sv) !! k = Some c /\ cn_done c = true).
Proof.
  split; [vm_compute; reflexivity|]. split; [vm_compute; reflexivity|]. split; [vm_compute; reflexivity|].
  apply (server_stop_closes_all std_registry demo_options demo_max demo_connectors demo_sv demo_configured demo_sv_reach).
  vm_compute. reflexivity.
Defined.
