(* ===== verification/Application.v ===== *)
(** The application (application.go, actorgo.go) and the components it is built with
    (facade/component.go, net/actor/component.go, net/cluster/component.go,
    net/discovery/component.go, discovery.go): registration, and the life of an application
    from [Startup] to the last [OnStop].

    Hooks of user components are scripts of calls on the application. [a.components] is a Go
    slice: [Remove] shifts the array that a loop of [Startup] may be ranging over, so arrays
    are kept in a memory and loops read it element by element. Components that the
    repository provides have the hooks of the code; what their transports do in [Init] is a
    parameter. Hooks do not call [Startup]. *)
From S2P Require Import Prelude Facade Serializer.
#[local] Set Warnings "-clear-no-such-hyp".

(** ** Components *)

(** The ones [AppBuilder.Startup] and [NewAppNode] make, numbered by their creation, and
    those of the program. *)
Inductive component := ActorC | ClusterC (k : nat) | DiscoveryC (k : nat) | UserC (i : nat).
#[global] Instance component_eq_dec : EqDecision component.
Proof. solve_decision. Defined.

Inductive backend := DefaultBackend | NatsBackend | EtcdBackend.
Inductive transport := NatsTransport | RabbitTransport.

(** src/net/cluster/component.go:40-53, Component.loadCluster *)
Definition loadCluster (mode : str) : transport :=
  if String.eqb mode "rabbitmq" then RabbitTransport
  else if String.eqb mode "nats" || String.eqb mode EmptyString then NatsTransport
  else NatsTransport.

(** src/net/discovery/discovery_default.go:69-71, DiscoveryDefault.Name *)
Definition backend_Name (d : backend) : str :=
  match d with DefaultBackend => "default" | NatsBackend => "nats" | EtcdBackend => "etcd" end.

(** A nil argument or an empty name is fatal; neither is possible for these. *)
(** src/net/discovery/discovery.go:16-27, Register *)
Definition discovery_Register (d : backend) (discoveryMap : gmap str backend) : gmap str backend :=
  <[backend_Name d := d]> discoveryMap.

(** src/net/discovery/discovery.go:8-14, init *)
Definition init_discoveryMap : gmap str backend := discovery_Register DefaultBackend ∅.

(** The registry after it, and the backend to load, if there is one. *)
(** src/net/discovery/component.go:26-43, Component.Init *)
Definition discovery_select (mode : str) (discoveryMap : gmap str backend) : gmap str backend * option backend :=
  if String.eqb mode EmptyString then (discoveryMap, None)
  else
    let discoveryMap := discovery_Register (if String.eqb "etcd" mode then EtcdBackend else NatsBackend) discoveryMap in
    (discoveryMap, discoveryMap !! mode).

(** ** Slices of components *)

(** An array has a slot for each place of its capacity. *)
Abbreviation memory := (list (list (option component))).
Record slice := mkSlice { sl_arr : nat; sl_len : nat }.

Definition array_of (m : memory) (s : slice) : list (option component) := default [] (m !! sl_arr s).
Definition contents (m : memory) (s : slice) : list (option component) := take (sl_len s) (array_of m s).

(** [s[i]]: [None] when the index is out of range. *)
Definition slice_get (m : memory) (s : slice) (i : nat) : option (option component) := contents m s !! i.

Definition write_at (pos : nat) (vals l : list (option component)) : list (option component) :=
  take pos l ++ vals ++ drop (pos + length vals) l.

(** [append(s, c)]; [newcap] is the capacity the runtime chooses when the array is full. *)
Definition slice_append (newcap : nat -> nat -> nat) (s : slice) (vals : list (option component)) (m : memory) : slice * memory :=
  let a := array_of m s in
  let n := (sl_len s + length vals)%nat in
  if Nat.leb n (length a) then (mkSlice (sl_arr s) n, <[sl_arr s := write_at (sl_len s) vals a]> m)
  else
    let cap := Nat.max n (newcap (length a) n) in
    (mkSlice (length m) n, m ++ [contents m s ++ vals ++ replicate (cap - n) None]).

(** [append(s[:i], s[i+1:]...)]: the same array, shifted. *)
Definition slice_remove (i : nat) (s : slice) (m : memory) : slice * memory :=
  (mkSlice (sl_arr s) (sl_len s - 1), <[sl_arr s := write_at i (drop (S i) (contents m s)) (array_of m s)]> m).

(** ** The application *)

Inductive event :=
| EvSet (c : component) | EvInit (c : component) | EvAfterInit (c : component) | EvCreateActor (h : nat) | EvRunning
| EvShutdownFn (f : nat) | EvBeforeStop (c : component) | EvStop (c : component).

(** [ap_senders]: goroutines that wait in [Shutdown]; [ap_loaded]: the cluster and
    discovery components that have a transport; [ap_discoveryMap] is the package's;
    [ap_next] numbers the components made; [ap_log] is what happened. *)
(** src/application.go:31-43, Application *)
Record Application := mkApplication {
  ap_mem : memory; ap_components : slice; ap_running : Z; ap_onShutdownFn : list nat; ap_codecs : Registry;
  ap_discovery : option component; ap_cluster : option component; ap_actorHandlers : list nat; ap_senders : nat;
  ap_loaded : list component; ap_discoveryMap : gmap str backend; ap_next : nat; ap_log : list event }.

(** src/application.go:58-79, NewAppNode *)
Definition NewAppNode `{CodecLib} : option Application :=
  codecs ← NewRegistry [Some NewProtobuf; Some NewJSON];
  Some (mkApplication [[]] (mkSlice 0 0) 0 [] codecs None None [] 0 [] init_discoveryMap 0 []).

Definition set_components (sm : slice * memory) (a : Application) : Application :=
  mkApplication sm.2 sm.1 (ap_running a) (ap_onShutdownFn a) (ap_codecs a) (ap_discovery a) (ap_cluster a)
    (ap_actorHandlers a) (ap_senders a) (ap_loaded a) (ap_discoveryMap a) (ap_next a) (ap_log a).
Definition set_running (r : Z) (a : Application) : Application :=
  mkApplication (ap_mem a) (ap_components a) r (ap_onShutdownFn a) (ap_codecs a) (ap_discovery a) (ap_cluster a)
    (ap_actorHandlers a) (ap_senders a) (ap_loaded a) (ap_discoveryMap a) (ap_next a) (ap_log a).
Definition set_codecs (r : Registry) (a : Application) : Application :=
  mkApplication (ap_mem a) (ap_components a) (ap_running a) (ap_onShutdownFn a) r (ap_discovery a) (ap_cluster a)
    (ap_actorHandlers a) (ap_senders a) (ap_loaded a) (ap_discoveryMap a) (ap_next a) (ap_log a).
Definition set_senders (n : nat) (a : Application) : Application :=
  mkApplication (ap_mem a) (ap_components a) (ap_running a) (ap_onShutdownFn a) (ap_codecs a) (ap_discovery a) (ap_cluster a)
    (ap_actorHandlers a) n (ap_loaded a) (ap_discoveryMap a) (ap_next a) (ap_log a).
Definition set_loaded (l : list component) (dm : gmap str backend) (a : Application) : Application :=
  mkApplication (ap_mem a) (ap_components a) (ap_running a) (ap_onShutdownFn a) (ap_codecs a) (ap_discovery a) (ap_cluster a)
    (ap_actorHandlers a) (ap_senders a) l dm (ap_next a) (ap_log a).
Definition add_log (e : event) (a : Application) : Application :=
  mkApplication (ap_mem a) (ap_components a) (ap_running a) (ap_onShutdownFn a) (ap_codecs a) (ap_discovery a) (ap_cluster a)
    (ap_actorHandlers a) (ap_senders a) (ap_loaded a) (ap_discoveryMap a) (ap_next a) (ap_log a ++ [e]).
Definition add_next (a : Application) : Application :=
  mkApplication (ap_mem a) (ap_components a) (ap_running a) (ap_onShutdownFn a) (ap_codecs a) (ap_discovery a) (ap_cluster a)
    (ap_actorHandlers a) (ap_senders a) (ap_loaded a) (ap_discoveryMap a) (S (ap_next a)) (ap_log a).

(** How a piece of the code ends: it returns, panics, or waits for ever. *)
Inductive outcome := Done | Panicked | Blocked.
Definition action : Type := Application -> Application * outcome.

Definition andthen (f g : action) : action := fun a =>
  match f a with (a, Done) => g a | r => r end.
Notation "f ;;; g" := (andthen f g) (at level 100, right associativity) : go_scope.
Definition emit (e : event) : action := fun a => (add_log e a, Done).

(** src/extend/utils/utils.go:7-21, Try *)
Definition Try (tryFn catchFn : action) : action := fun a =>
  match tryFn a with (a, Panicked) => catchFn a | r => r end.

(** What a hook, or another goroutine, does to the application. *)
Inductive app_call :=
| CallRegister (cs : list (option component)) | CallRemove (name : str) | CallOnShutdown (fns : list nat)
| CallSetDefaultBodyCodec (id : Z) | CallSetDiscovery (d : option component) | CallSetCluster (c : option component)
| CallShutdown | CallGoShutdown | CallPanic.

Inductive phase := PInit | PAfterInit | PBeforeStop | PStop.

(** The program an application runs: the names and the hooks of its components and the
    functions it gives to [OnShutdown]; the capacities the runtime chooses for arrays; the
    profile's discovery mode; whether the transport, the backend and the creation of an
    actor return, or panic. *)
Class Program := {
  user_Name : nat -> str;
  user_hook : phase -> nat -> list app_call;
  shutdown_fn : nat -> list app_call;
  newcap : nat -> nat -> nat;
  mode : str;
  transport_ok : bool;
  backend_ok : backend -> bool;
  create_ok : nat -> bool }.

Section App.
Context `{PR : Program}.

(** src/net/actor/component.go:5-7, Name *)
Definition Name (c : component) : str :=
  match c with
  | ActorC => "actor_component" | ClusterC _ => "cluster_component" | DiscoveryC _ => "discovery_component"
  | UserC i => user_Name i
  end.

(** src/application.go:85-87, Application.Running *)
Definition Running (a : Application) : bool := 0 <? ap_running a.

(** src/application.go:144-146, Application.All *)
Definition All (a : Application) : list (option component) := contents (ap_mem a) (ap_components a).

Definition named (name : str) (c : option component) : bool :=
  match c with Some c => String.eqb (Name c) name | None => false end.

(** src/application.go:114-125, Application.Find *)
Definition Find (name : str) (a : Application) : option component :=
  if String.eqb name EmptyString then None else mjoin (snd <$> list_find (fun c => named name c) (All a)).

(** src/application.go:93-112, Application.Register *)
Fixpoint app_Register (cs : list (option component)) (a : Application) : Application :=
  if Running a then a
  else
    match cs with
    | [] => a
    | None :: _ => a
    | Some c :: cs =>
        if String.eqb (Name c) EmptyString then a
        else match Find (Name c) a with
             | Some _ => a
             | None => app_Register cs (set_components (slice_append newcap (ap_components a) [Some c] (ap_mem a)) a)
             end
    end.

(** The loop from the index [i], with the [n] elements that remain; the index stays when
    an element is removed. *)
(** src/application.go:134-140, Application.Remove *)
Fixpoint remove_from (n i : nat) (name : str) (removed : option component) (a : Application) : option component * Application :=
  match n with
  | O => (removed, a)
  | S n =>
      match slice_get (ap_mem a) (ap_components a) i with
      | Some (Some c) =>
          if String.eqb (Name c) name
          then remove_from n i name (Some c) (set_components (slice_remove i (ap_components a) (ap_mem a)) a)
          else remove_from n (S i) name removed a
      | _ => (removed, a)
      end
  end.

(** src/application.go:128-142, Application.Remove *)
Definition app_Remove (name : str) (a : Application) : option component * Application :=
  if String.eqb name EmptyString then (None, a) else remove_from (sl_len (ap_components a)) 0 name None a.

(** src/application.go:148-150, Application.OnShutdown *)
Definition OnShutdown (fn : list nat) (a : Application) : Application :=
  mkApplication (ap_mem a) (ap_components a) (ap_running a) (ap_onShutdownFn a ++ fn) (ap_codecs a) (ap_discovery a) (ap_cluster a)
    (ap_actorHandlers a) (ap_senders a) (ap_loaded a) (ap_discoveryMap a) (ap_next a) (ap_log a).

(** src/application.go:276-283, Application.SetDefaultBodyCodec *)
Definition SetDefaultBodyCodec (id : Z) (a : Application) : Application :=
  if Running a then a
  else match Registry_SetDefault id (ap_codecs a) with Ok r => set_codecs r a | Err _ => a end.

(** src/application.go:307-313, Application.SetDiscovery *)
Definition SetDiscovery (discovery : option component) (a : Application) : Application :=
  match Running a, discovery with
  | false, Some _ => mkApplication (ap_mem a) (ap_components a) (ap_running a) (ap_onShutdownFn a) (ap_codecs a) discovery (ap_cluster a)
      (ap_actorHandlers a) (ap_senders a) (ap_loaded a) (ap_discoveryMap a) (ap_next a) (ap_log a)
  | _, _ => a
  end.

(** src/application.go:316-322, Application.SetCluster *)
Definition SetCluster (cluster : option component) (a : Application) : Application :=
  match Running a, cluster with
  | false, Some _ => mkApplication (ap_mem a) (ap_components a) (ap_running a) (ap_onShutdownFn a) (ap_codecs a) (ap_discovery a) cluster
      (ap_actorHandlers a) (ap_senders a) (ap_loaded a) (ap_discoveryMap a) (ap_next a) (ap_log a)
  | _, _ => a
  end.

(** src/net/actor/component.go:48-50, Component.Add *)
Definition Add (actors : list nat) (a : Application) : Application :=
  mkApplication (ap_mem a) (ap_components a) (ap_running a) (ap_onShutdownFn a) (ap_codecs a) (ap_discovery a) (ap_cluster a)
    (ap_actorHandlers a ++ actors) (ap_senders a) (ap_loaded a) (ap_discoveryMap a) (ap_next a) (ap_log a).

(** A call by the goroutine of [Startup]: its [Shutdown] sends to a channel that only it
    would receive from. *)
Definition do_call (c : app_call) : action := fun a =>
  match c with
  | CallRegister cs => (app_Register cs a, Done)
  | CallRemove name => ((app_Remove name a).2, Done)
  | CallOnShutdown fns => (OnShutdown fns a, Done)
  | CallSetDefaultBodyCodec id => (SetDefaultBodyCodec id a, Done)
  | CallSetDiscovery d => (SetDiscovery d a, Done)
  | CallSetCluster c => (SetCluster c a, Done)
  | CallShutdown => (a, Blocked)
  | CallGoShutdown => (set_senders (S (ap_senders a)) a, Done)
  | CallPanic => (a, Panicked)
  end.

Fixpoint do_calls (cs : list app_call) : action :=
  match cs with [] => fun a => (a, Done) | c :: cs => do_call c ;;; do_calls cs end.
(** A call by another goroutine; a panic there would end the process, and is not
    considered. *)
(** src/application.go:265-267, Application.Shutdown *)
Definition other_call (a : Application) (c : app_call) : Application :=
  match c with
  | CallShutdown => set_senders (S (ap_senders a)) a
  | _ => (do_call c a).1
  end.

(** ** Hooks *)

(** src/net/actor/component.go:33-40, Component.OnAfterInit *)
Fixpoint create_actors (hs : list nat) : action :=
  match hs with
  | [] => fun a => (a, Done)
  | h :: hs => emit (EvCreateActor h) ;;; (if create_ok h then create_actors hs else fun a => (a, Panicked))
  end.

(** src/net/cluster/component.go:31-34, Component.Init *)
Definition cluster_component_Init (c : component) : action := fun a =>
  let a := set_loaded (c :: ap_loaded a) (ap_discoveryMap a) a in
  if transport_ok then (a, Done) else (a, Panicked).

(** src/net/discovery/component.go:26-48, Component.Init *)
Definition discovery_component_Init (c : component) : action := fun a =>
  let '(dm, d) := discovery_select mode (ap_discoveryMap a) in
  match d with
  | None => (set_loaded (ap_loaded a) dm a, Done)
  | Some d => let a := set_loaded (c :: ap_loaded a) dm a in if backend_ok d then (a, Done) else (a, Panicked)
  end.

(** [OnStop] of a component without a transport calls a method of a nil interface. *)
(** src/net/cluster/component.go:36-38, Component.OnStop *)
Definition delegate_OnStop (c : component) : action := fun a =>
  if bool_decide (c ∈ ap_loaded a) then (a, Done) else (a, Panicked).

(** src/facade/component.go:19-46, Component *)
Definition run_hook (p : phase) (c : component) : action :=
  match c, p with
  | UserC i, _ => do_calls (user_hook p i)
  | ActorC, PAfterInit => fun a => create_actors (ap_actorHandlers a) a
  | ClusterC _, PInit => cluster_component_Init c
  | DiscoveryC _, PInit => discovery_component_Init c
  | ClusterC _, PStop | DiscoveryC _, PStop => delegate_OnStop c
  | _, _ => fun a => (a, Done)
  end.

Definition phase_event (p : phase) : component -> event :=
  match p with PInit => EvInit | PAfterInit => EvAfterInit | PBeforeStop => EvBeforeStop | PStop => EvStop end.

Definition call_hook (p : phase) (c : component) : action := emit (phase_event p c) ;;; run_hook p c.

(** ** Startup *)

(** [for _, c := range s]: the length and the array are those of the start, the elements
    those of the moment. *)
Fixpoint range_from (n i : nat) (s : slice) (body : component -> action) : action := fun a =>
  match n with
  | O => (a, Done)
  | S n =>
      match array_of (ap_mem a) s !! i with
      | Some (Some c) => (body c ;;; range_from n (S i) s body) a
      | _ => (a, Panicked)
      end
  end.
Definition range_components (body : component -> action) : action := fun a =>
  range_from (sl_len (ap_components a)) 0 (ap_components a) body a.

(** Each of the indices below [n], from the last: the handler of a panic names the
    component again. *)
(** src/application.go:244-260, Application.Startup *)
Fixpoint stop_from (n : nat) (p : phase) : action := fun a =>
  match n with
  | O => (a, Done)
  | S n =>
      let nth : action -> (component -> action) -> action := fun k f a =>
        match slice_get (ap_mem a) (ap_components a) n with
        | Some (Some c) => (f c ;;; k) a
        | _ => (a, Panicked)
        end in
      let skip : action := fun a => (a, Done) in
      (Try (nth skip (fun c => call_hook p c)) (nth skip (fun _ => skip)) ;;; stop_from n p) a
  end.
Definition stop_components (p : phase) : action := fun a => stop_from (sl_len (ap_components a)) p a.

(** src/application.go:233-241, Application.Startup *)
Fixpoint shutdown_fns (fs : list nat) : action :=
  match fs with
  | [] => fun a => (a, Done)
  | f :: fs => Try (emit (EvShutdownFn f) ;;; do_calls (shutdown_fn f)) (fun a => (a, Done)) ;;; shutdown_fns fs
  end.

(** The wait: other goroutines make the calls [during] it; then a signal, or a sender,
    ends it. *)
(** src/application.go:218-226, Application.Startup *)
Definition wait_shutdown (during : list app_call) (signalled : bool) : action := fun a =>
  let a := foldl other_call a during in
  if signalled then (a, Done)
  else match ap_senders a with O => (a, Blocked) | S n => (set_senders n a, Done) end.

(** src/application.go:169-173, Application.Startup *)
Definition add_actor_system (a : Application) : Application :=
  match Find (Name ActorC) a with
  | Some _ => a
  | None =>
      let one := (mkSlice (length (ap_mem a)) 1, ap_mem a ++ [[Some ActorC]]) in
      set_components (slice_append newcap one.1 (All a) one.2) a
  end.

(** src/application.go:191-260, Application.Startup *)
Definition startup_body (during : list app_call) (signalled : bool) : action :=
  range_components (fun c => emit (EvSet c)) ;;;
  range_components (call_hook PInit) ;;;
  range_components (call_hook PAfterInit) ;;;
  (fun a => (set_running (i32 (ap_running a + 1)) a, Done)) ;;;
  emit EvRunning ;;;
  wait_shutdown during signalled ;;;
  (fun a => (set_running 0 a, Done)) ;;;
  (fun a => shutdown_fns (ap_onShutdownFn a) a) ;;;
  stop_components PBeforeStop ;;;
  stop_components PStop.

(** src/application.go:153-263, Application.Startup *)
Definition Startup (during : list app_call) (signalled : bool) : action :=
  Try (fun a => if Running a then (a, Done) else startup_body during signalled (add_actor_system a)) (fun a => (a, Done)).

(** ** The builder *)

Inductive NodeMode := ClusterMode | Standalone.

(** src/actorgo.go:12-15, AppBuilder *)
Record AppBuilder := mkAppBuilder { ab_app : Application; ab_mode : NodeMode; ab_components : list (option component) }.

(** src/actorgo.go:29-36, ConfigureNode *)
Definition ConfigureNode `{CodecLib} (m : NodeMode) : option AppBuilder :=
  a ← NewAppNode; Some (mkAppBuilder a m []).

(** src/actorgo.go:61-63, AppBuilder.Register *)
Definition builder_Register (cs : list (option component)) (p : AppBuilder) : AppBuilder :=
  mkAppBuilder (ab_app p) (ab_mode p) (ab_components p ++ cs).

(** src/actorgo.go:66-68, AppBuilder.AddActors *)
Definition AddActors (actors : list nat) (p : AppBuilder) : AppBuilder :=
  mkAppBuilder (Add actors (ab_app p)) (ab_mode p) (ab_components p).

(** What the builder does to the application before it starts it. *)
(** src/actorgo.go:40-54, AppBuilder.Startup *)
Definition install (p : AppBuilder) : Application :=
  let app := ab_app p in
  let app := match ab_mode p with
    | ClusterMode =>
        let cluster := ClusterC (ap_next app) in
        let app := app_Register [Some cluster] (SetCluster (Some cluster) (add_next app)) in
        let discovery := DiscoveryC (ap_next app) in
        app_Register [Some discovery] (SetDiscovery (Some discovery) (add_next app))
    | Standalone => app
    end in
  app_Register (ab_components p) app.

(** src/actorgo.go:40-58, AppBuilder.Startup *)
Definition builder_Startup (during : list app_call) (signalled : bool) (p : AppBuilder) : AppBuilder * outcome :=
  let '(app, o) := Startup during signalled (install p) in (mkAppBuilder app (ab_mode p) (ab_components p), o).

(** ** Registration *)

(** The component slice lies in its array and holds components, of different non-empty
    names. *)
Record app_wf (a : Application) (l : list component) : Prop := {
  aw_arr : (sl_arr (ap_components a) < length (ap_mem a))%nat;
  aw_len : (sl_len (ap_components a) <= length (array_of (ap_mem a) (ap_components a)))%nat;
  aw_all : All a = Some <$> l;
  aw_names : NoDup (Name <$> l);
  aw_named : EmptyString ∉ (Name <$> l) }.

Lemma array_of_insert m s x n : (sl_arr s < length m)%nat -> array_of (<[sl_arr s := x]> m) (mkSlice (sl_arr s) n) = x.
Proof. intros H. unfold array_of. cbn [sl_arr]. rewrite (list_lookup_insert_eq m (sl_arr s)) by done. done. Qed.

Lemma write_at_take pos vals l : (pos + length vals <= length l)%nat -> take (pos + length vals) (write_at pos vals l) = take pos l ++ vals.
Proof. intros H. unfold write_at. rewrite app_assoc. apply take_app_length'. rewrite length_app, length_take. lia. Qed.

Lemma write_at_length pos vals l : (pos + length vals <= length l)%nat -> length (write_at pos vals l) = length l.
Proof. intros H. unfold write_at. rewrite !length_app, length_take, length_drop. lia. Qed.

(** What [append] does, whether the array is full or not. *)
Lemma slice_append_ok s vals m : (sl_arr s < length m)%nat -> (sl_len s <= length (array_of m s))%nat ->
  let '(s', m') := slice_append newcap s vals m in
  contents m' s' = contents m s ++ vals /\ (sl_arr s' < length m')%nat /\ (sl_len s' <= length (array_of m' s'))%nat.
Proof.
  intros Ha Hl. unfold slice_append. destruct (Nat.leb_spec (sl_len s + length vals) (length (array_of m s))) as [H|H].
  - unfold contents. rewrite array_of_insert by done. cbn [sl_arr sl_len]. rewrite write_at_take, write_at_length by done.
    split; [done|]. split; [|done]. by rewrite (length_insert m).
  - unfold contents at 1, array_of. simpl. rewrite lookup_app_r, Nat.sub_diag, length_app by lia. simpl.
    assert (Hc : length (contents m s) = sl_len s) by (unfold contents; rewrite length_take; lia).
    split_and!.
    + rewrite app_assoc. apply take_app_length'. rewrite length_app, Hc. done.
    + lia.
    + rewrite !length_app, Hc. lia.
Qed.

Lemma slice_remove_ok i s m : (sl_arr s < length m)%nat -> (sl_len s <= length (array_of m s))%nat -> (i < sl_len s)%nat ->
  let '(s', m') := slice_remove i s m in
  contents m' s' = delete i (contents m s) /\ (sl_arr s' < length m')%nat /\ (sl_len s' <= length (array_of m' s'))%nat.
Proof.
  intros Ha Hl Hi. unfold slice_remove. unfold contents at 1. rewrite array_of_insert by done. rewrite (length_insert m). cbn [sl_arr sl_len].
  assert (Hc : length (contents m s) = sl_len s) by (unfold contents; rewrite length_take; lia).
  assert (Hd : (i + length (drop (S i) (contents m s)) = sl_len s - 1)%nat) by (rewrite length_drop, Hc; lia).
  rewrite write_at_length by lia. split; [|lia]. rewrite <- Hd, write_at_take by lia. rewrite delete_take_drop. f_equal.
  unfold contents. rewrite take_take. f_equal. lia.
Qed.

Definition slice_ok (a : Application) : Prop :=
  (sl_arr (ap_components a) < length (ap_mem a))%nat /\
  (sl_len (ap_components a) <= length (array_of (ap_mem a) (ap_components a)))%nat.

Lemma append_All vals a : slice_ok a ->
  let a' := set_components (slice_append newcap (ap_components a) vals (ap_mem a)) a in slice_ok a' /\ All a' = All a ++ vals.
Proof.
  intros [H1 H2]. pose proof (slice_append_ok (ap_components a) vals (ap_mem a) H1 H2) as H.
  destruct (slice_append _ _ _ _) as [s1 m1]. by destruct H as (? & ? & ?).
Qed.

Lemma remove_All i a : slice_ok a -> (i < sl_len (ap_components a))%nat ->
  let a' := set_components (slice_remove i (ap_components a) (ap_mem a)) a in slice_ok a' /\ All a' = delete i (All a).
Proof.
  intros [H1 H2] Hi. pose proof (slice_remove_ok i (ap_components a) (ap_mem a) H1 H2 Hi) as H.
  destruct (slice_remove _ _ _) as [s1 m1]. by destruct H as (? & ? & ?).
Qed.

Lemma All_length a : slice_ok a -> length (All a) = sl_len (ap_components a).
Proof. intros [_ H]. unfold All, contents. rewrite length_take. lia. Qed.

Lemma wf_slice a l : app_wf a l <-> slice_ok a /\ All a = Some <$> l /\ NoDup (Name <$> l) /\ EmptyString ∉ (Name <$> l).
Proof. split; [intros [? ? ? ? ?]; by repeat split|intros ([? ?] & ? & ? & ?); by constructor]. Qed.

Lemma Find_list name a l : All a = Some <$> l -> name <> EmptyString -> Find name a = snd <$> list_find (fun c => Name c = name) l.
Proof.
  intros E Hn. unfold Find. apply String.eqb_neq in Hn as ->. rewrite E. clear E. induction l as [|c l IH]; [done|].
  assert (Hd : Is_true (named name (Some c)) <-> Name c = name) by (simpl; by rewrite Is_true_true, String.eqb_eq).
  rewrite fmap_cons. cbn [list_find]. destruct (decide (Name c = name)) as [Hc|Hc].
  - by rewrite decide_True by (by apply Hd).
  - rewrite decide_False by (by rewrite Hd).
    destruct (list_find _ (Some <$> l)) as [[]|], (list_find _ l) as [[]|]; simpl in *; congruence.
Qed.

Lemma Find_spec a l : app_wf a l -> forall name c, Find name a = Some c <-> c ∈ l /\ Name c = name /\ name <> EmptyString.
Proof.
  intros [_ _ E Hnd He] name c. destruct (decide (name = EmptyString)) as [->|Hn]; [split; [done|by intros (_ & _ & ?)]|].
  rewrite (Find_list name a l E Hn). split.
  - destruct (list_find _ l) as [[i x]|] eqn:F; simpl; [|done]. intros [= <-]. apply list_find_Some in F as (Hi & <- & _).
    split; [by apply list_elem_of_lookup_2 in Hi|done].
  - intros (Hc & <- & _). destruct (list_find_elem_of (fun c' => Name c' = Name c) l c Hc eq_refl) as [[i x] F]. rewrite F. simpl.
    apply list_find_Some in F as (Hi & Hx & _). f_equal. apply list_elem_of_lookup_1 in Hc as [j Hj].
    assert (i = j); [|congruence]. apply (NoDup_lookup (Name <$> l) i j (Name c) Hnd); rewrite list_lookup_fmap; [rewrite Hi|rewrite Hj]; simpl; congruence.
Qed.

Lemma Find_None a l : app_wf a l -> forall name, name <> EmptyString -> Find name a = None <-> name ∉ Name <$> l.
Proof.
  intros W name Hn. split.
  - intros F (c & -> & Hc)%list_elem_of_fmap. assert (Find (Name c) a = Some c) by (by apply (Find_spec a l W)). congruence.
  - intros Hni. destruct (Find name a) as [c|] eqn:F; [|done]. apply (Find_spec a l W) in F as (Hc & <- & _). destruct Hni. by apply list_elem_of_fmap_2.
Qed.

Lemma wf_append a l l' : app_wf a l -> NoDup (Name <$> l ++ l') -> EmptyString ∉ (Name <$> l') ->
  app_wf (set_components (slice_append newcap (ap_components a) (Some <$> l') (ap_mem a)) a) (l ++ l').
Proof.
  rewrite !wf_slice. intros (Hs & E & _ & He) Hnd He'. destruct (append_All (Some <$> l') a Hs) as [Hs' E'].
  split; [done|]. rewrite E', E, <- fmap_app. split; [done|]. split; [done|]. rewrite fmap_app. set_solver.
Qed.

(** Registering adds the components up to the first that is nil, nameless or a namesake;
    in a running application it does nothing. *)
Lemma app_Register_wf cs a l : app_wf a l -> exists l', app_wf (app_Register cs a) (l ++ l') /\
  (Running a = true -> l' = []) /\ exists rest, cs = (Some <$> l') ++ rest.
Proof.
  revert a l. induction cs as [|[c|] cs IH]; intros a l W; cbn [app_Register]; (destruct (Running a) eqn:ER; [exists []; rewrite app_nil_r; by eauto|]);
    [exists []; rewrite app_nil_r; by eauto| |exists []; rewrite app_nil_r; by eauto].
  destruct (String.eqb_spec (Name c) EmptyString) as [|Hn]; [exists []; rewrite app_nil_r; by eauto|].
  destruct (Find (Name c) a) eqn:F; [exists []; rewrite app_nil_r; by eauto|]. apply (Find_None a l W) in F; [|done].
  destruct (IH (set_components (slice_append newcap (ap_components a) [Some c] (ap_mem a)) a) (l ++ [c])) as (l' & W' & _ & rest & ->).
  - apply (wf_append a l [c] W); [|set_solver]. rewrite fmap_app. apply list.NoDup_app. split; [apply W|]. split; [set_solver|apply list.NoDup_singleton].
  - exists (c :: l'). rewrite cons_middle, app_assoc. split; [done|]. split; [done|]. by exists rest.
Qed.

Lemma remove_from_ok n name : forall i removed a pre suf, slice_ok a -> All a = Some <$> (pre ++ suf) -> length pre = i -> length suf = n ->
  let a' := (remove_from n i name removed a).2 in
  slice_ok a' /\ All a' = Some <$> (pre ++ filter (fun c => Name c <> name) suf).
Proof.
  induction n as [|n IH]; intros i removed a pre suf Hs E Hp Hl; cbn [remove_from].
  { destruct suf; [|done]. by rewrite filter_nil. }
  destruct suf as [|c suf]; [done|]. injection Hl as Hl.
  assert (G : slice_get (ap_mem a) (ap_components a) i = Some (Some c)).
  { change (All a !! i = Some (Some c)). rewrite E, list_lookup_fmap, lookup_app_r, Hp, Nat.sub_diag by lia. done. }
  rewrite G, filter_cons. destruct (String.eqb_spec (Name c) name) as [Hc|Hc].
  - rewrite decide_False by (intros ?; done). destruct (remove_All i a Hs) as [Hs' E'].
    { rewrite <- (All_length a Hs), E, length_fmap, length_app. simpl. lia. }
    apply IH; [done| |done|done]. rewrite E', E, <- list_fmap_delete. f_equal. by rewrite <- Hp, delete_middle.
  - rewrite decide_True by done. rewrite (cons_middle c pre), (app_assoc pre). apply IH; [done| | |done].
    + by rewrite E, <- app_assoc.
    + rewrite length_app. simpl. lia.
Qed.

Lemma app_Remove_wf name a l : app_wf a l -> app_wf (app_Remove name a).2 (filter (fun c => Name c <> name) l).
Proof.
  intros W. unfold app_Remove. pose proof W as (Hs & E & Hnd & He)%wf_slice. destruct (String.eqb_spec name EmptyString) as [->|Hn].
  - simpl. replace (filter (fun c => Name c <> EmptyString) l) with l; [done|]. symmetry. clear W E Hnd.
    induction l as [|c l IH]; [done|]. rewrite filter_cons, decide_True, IH; [done|set_solver|set_solver].
  - rewrite <- (All_length a Hs), E, length_fmap. destruct (remove_from_ok (length l) name 0 None a [] l Hs E eq_refl eq_refl) as [Hs' E'].
    apply wf_slice. split; [done|]. split; [done|]. split.
    + eapply sublist_NoDup; [exact Hnd|]. apply fmap_sublist, sublist_filter.
    + intros (c & Hc & [_ Hl]%list_elem_of_filter)%list_elem_of_fmap. apply He. rewrite Hc. by apply list_elem_of_fmap_2.
Qed.

Lemma remove_from_result n name : forall i removed a pre suf, slice_ok a -> All a = Some <$> (pre ++ suf) -> length pre = i -> length suf = n ->
  (remove_from n i name removed a).1 = match list.last (filter (fun c => Name c = name) suf) with Some c => Some c | None => removed end.
Proof.
  induction n as [|n IH]; intros i removed a pre suf Hs E Hp Hl; cbn [remove_from]; [by destruct suf|].
  destruct suf as [|c suf]; [done|]. injection Hl as Hl.
  assert (G : slice_get (ap_mem a) (ap_components a) i = Some (Some c)).
  { change (All a !! i = Some (Some c)). rewrite E, list_lookup_fmap, lookup_app_r, Hp, Nat.sub_diag by lia. done. }
  rewrite G, filter_cons. destruct (String.eqb_spec (Name c) name) as [Hc|Hc].
  - rewrite decide_True by done. destruct (remove_All i a Hs) as [Hs' E'].
    { rewrite <- (All_length a Hs), E, length_fmap, length_app. simpl. lia. }
    rewrite (IH _ _ _ pre suf); [|done| |done|done].
    + rewrite last_cons. by destruct (list.last _).
    + rewrite E', E, <- list_fmap_delete. f_equal. by rewrite <- Hp, delete_middle.
  - rewrite decide_False by done. rewrite (IH _ _ _ (pre ++ [c]) suf); [done|done| | |done].
    + by rewrite E, <- app_assoc.
    + rewrite length_app. simpl. lia.
Qed.

Lemma app_Remove_result name a l : app_wf a l -> (app_Remove name a).1 = Find name a.
Proof.
  intros W. unfold app_Remove. pose proof W as (Hs & E & Hnd & He)%wf_slice. destruct (String.eqb_spec name EmptyString) as [->|Hn]; [done|].
  rewrite <- (All_length a Hs), E, length_fmap, (remove_from_result _ name 0 None a [] l Hs E eq_refl eq_refl).
  destruct (list.last (filter _ l)) as [c|] eqn:El.
  - symmetry. apply (Find_spec a l W). apply last_Some_elem_of, list_elem_of_filter in El as [Hc Hl]. by split_and!.
  - apply last_None in El. symmetry. apply (Find_None a l W); [done|]. intros (c & -> & Hc)%list_elem_of_fmap.
    assert (H : c ∈ filter (fun c' => Name c' = Name c) l) by (by apply list_elem_of_filter). rewrite El in H. by apply not_elem_of_nil in H.
Qed.

Definition registered_ok (a : Application) : Prop := exists l, app_wf a l.
Definition keeps_registered (f : action) : Prop := forall a, registered_ok a -> registered_ok (f a).1.

Lemma kr_same a a' : ap_mem a' = ap_mem a -> ap_components a' = ap_components a -> registered_ok a -> registered_ok a'.
Proof. intros E1 E2 [l []]. exists l. split; unfold All in *; by rewrite ?E1, ?E2. Qed.

Lemma kr_Register cs a : registered_ok a -> registered_ok (app_Register cs a).
Proof. intros [l W]. destruct (app_Register_wf cs a l W) as (l' & W' & _). by exists (l ++ l'). Qed.

Lemma kr_next a : registered_ok a -> registered_ok (add_next a).
Proof. by apply kr_same. Qed.

Lemma kr_SetDiscovery d a : registered_ok a -> registered_ok (SetDiscovery d a).
Proof. intros H. unfold SetDiscovery. destruct (Running a), d; try done; by apply (kr_same a). Qed.

Lemma kr_SetCluster c a : registered_ok a -> registered_ok (SetCluster c a).
Proof. intros H. unfold SetCluster. destruct (Running a), c; try done; by apply (kr_same a). Qed.

Lemma kr_call c : keeps_registered (do_call c).
Proof.
  intros a H. destruct c; cbn [do_call fst]; try done.
  - by apply kr_Register.
  - destruct H as [l W]. exists (filter (fun c => Name c <> name) l). by apply app_Remove_wf.
  - by apply (kr_same a).
  - unfold SetDefaultBodyCodec. destruct (Running a); [done|]. destruct (Registry_SetDefault _ _); [by apply (kr_same a)|done].
  - by apply kr_SetDiscovery.
  - by apply kr_SetCluster.
  - by apply (kr_same a).
Qed.

Lemma kr_ret o : keeps_registered (fun a => (a, o)).
Proof. by intros a. Qed.

Lemma kr_emit e : keeps_registered (emit e).
Proof. intros a. by apply (kr_same a). Qed.

Lemma kr_then f g : keeps_registered f -> keeps_registered g -> keeps_registered (f ;;; g).
Proof. intros Hf Hg a H. unfold andthen. specialize (Hf a H). destruct (f a) as [a' []]; [by apply Hg|done|done]. Qed.

Lemma kr_try f g : keeps_registered f -> keeps_registered g -> keeps_registered (Try f g).
Proof. intros Hf Hg a H. unfold Try. specialize (Hf a H). destruct (f a) as [a' []]; [done|by apply Hg|done]. Qed.

Lemma kr_calls cs : keeps_registered (do_calls cs).
Proof. induction cs; [apply kr_ret|]. by apply kr_then; [apply kr_call|]. Qed.

Lemma kr_create hs : keeps_registered (create_actors hs).
Proof. induction hs as [|h hs IH]; [apply kr_ret|]. apply kr_then; [apply kr_emit|]. destruct (create_ok h); [done|apply kr_ret]. Qed.

Lemma kr_hook p c : keeps_registered (call_hook p c).
Proof.
  apply kr_then; [apply kr_emit|]. intros a H. unfold run_hook.
  destruct c, p; try (by apply kr_calls); try done; try (by apply kr_create); unfold cluster_component_Init, discovery_component_Init, delegate_OnStop.
  - destruct transport_ok; by apply (kr_same a).
  - by destruct (bool_decide _).
  - destruct (discovery_select _ _) as [dm [d|]]; [destruct (backend_ok d)|]; by apply (kr_same a).
  - by destruct (bool_decide _).
Qed.

Lemma kr_range n s body : (forall c, keeps_registered (body c)) -> forall i, keeps_registered (range_from n i s body).
Proof.
  intros Hb. induction n as [|n IH]; intros i a H; cbn [range_from]; [done|].
  destruct (_ !! i) as [[c|]|]; [|done|done]. by apply kr_then.
Qed.

Lemma kr_stop n p : keeps_registered (stop_from n p).
Proof.
  induction n as [|n IH]; [by intros a H|]. intros a H. cbn [stop_from]. apply kr_then; [|done|done]. apply kr_try; intros a' H'; simpl.
  - destruct (slice_get _ _ n) as [[c|]|]; [|done|done]. apply kr_then; [apply kr_hook|apply kr_ret|done].
  - by destruct (slice_get _ _ n) as [[c|]|].
Qed.

Lemma kr_shutdown fs : keeps_registered (shutdown_fns fs).
Proof.
  induction fs as [|f fs IH]; [apply kr_ret|]. apply kr_then; [|done]. apply kr_try; [|apply kr_ret].
  apply kr_then; [apply kr_emit|apply kr_calls].
Qed.

Lemma kr_other a c : registered_ok a -> registered_ok (other_call a c).
Proof. intros H. destruct c; try (by apply kr_call); by apply (kr_same a). Qed.

Lemma kr_wait during signalled : keeps_registered (wait_shutdown during signalled).
Proof.
  intros a H. unfold wait_shutdown. assert (H' : registered_ok (foldl other_call a during)).
  { clear signalled. revert a H. induction during as [|c during IH]; intros a H; [done|]. by apply IH, kr_other. }
  destruct signalled; [done|]. destruct (ap_senders _); [done|]. by apply (kr_same (foldl other_call a during)).
Qed.

(** The actor system comes first, unless the program registered it itself. *)
Definition with_actor_system (l : list component) : list component :=
  if bool_decide (Name ActorC ∈ Name <$> l) then l else ActorC :: l.

Lemma add_actor_system_wf a l : app_wf a l -> app_wf (add_actor_system a) (with_actor_system l).
Proof.
  intros W. pose proof W as (Hs & E & Hnd & He)%wf_slice. unfold add_actor_system, with_actor_system.
  pose proof (Find_None a l W (Name ActorC) ltac:(done)) as F. destruct (Find _ a) as [c|].
  - rewrite bool_decide_true; [done|]. destruct (decide (Name ActorC ∈ Name <$> l)) as [|Hn]; [done|]. by apply F in Hn.
  - pose proof (proj1 F eq_refl) as Hn. rewrite bool_decide_false by done. cbn zeta. cbn [fst snd].
    set (m := ap_mem a ++ [[Some ActorC]]). set (s := mkSlice (length (ap_mem a)) 1).
    assert (Ea : array_of m s = [Some ActorC]) by (unfold array_of, m, s; simpl; by rewrite lookup_app_r, Nat.sub_diag).
    pose proof (slice_append_ok s (All a) m) as H. unfold contents in H at 2. rewrite Ea in H.
    destruct (slice_append newcap s (All a) m) as [s1 m1]. destruct H as (E1 & H1 & H2).
    { unfold m, s. rewrite length_app. simpl. lia. } { simpl. lia. }
    apply wf_slice. split; [by split|]. unfold All at 1. simpl in *. rewrite E1, E. split; [done|]. split; [by constructor|set_solver].
Qed.

Lemma kr_startup during signalled : keeps_registered (Startup during signalled).
Proof.
  apply kr_try; [|apply kr_ret]. intros a H. destruct (Running a); [done|].
  assert (H' : registered_ok (add_actor_system a)) by (destruct H as [l W]; exists (with_actor_system l); by apply add_actor_system_wf).
  revert H'. generalize (add_actor_system a). clear a H. change (keeps_registered (startup_body during signalled)).
  unfold startup_body, range_components, stop_components.
  repeat (apply kr_then; [first [apply kr_emit|apply kr_wait|intros a H; first [by apply kr_range; [intros c; first [apply kr_emit|apply kr_hook]|]
    |by apply (kr_same a)|by apply kr_shutdown|by apply kr_stop]]|]).
  intros a H. by apply kr_stop.
Qed.

(** What can happen to an application from its creation on. *)
Inductive app_reach `{CodecLib} : Application -> Prop :=
| ar_new a : NewAppNode = Some a -> app_reach a
| ar_call a c : app_reach a -> app_reach (other_call a c)
| ar_add a hs : app_reach a -> app_reach (Add hs a)
| ar_install a m cs : app_reach a -> app_reach (install (mkAppBuilder a m cs))
| ar_startup a during signalled : app_reach a -> app_reach (Startup during signalled a).1.

Lemma app_reach_registered `{CodecLib} a : app_reach a -> registered_ok a.
Proof.
  induction 1 as [a E| | | |]; [|by apply kr_other|by apply (kr_same a)| |by apply kr_startup].
  - unfold NewAppNode in E. destruct (NewRegistry _); [|done]. injection E as <-. exists []. apply wf_slice. by repeat split; simpl; try lia; try set_solver; constructor.
  - unfold install. cbn [ab_app ab_mode ab_components]. apply kr_Register. destruct m; [|done].
    by apply kr_Register, kr_SetDiscovery, kr_next, kr_Register, kr_SetCluster, kr_next.
Qed.

(** The components of an application always have different, non-empty names: after any
    registrations, removals, configurations and starts, by anybody, and with hooks that
    register and remove components at any moment. [Find] finds exactly the registered
    component of a name; [Remove] takes it out, and only it, and returns it. *)
Theorem components_unique `{CodecLib} (a : Application) : app_reach a ->
  exists l, All a = Some <$> l /\ NoDup (Name <$> l) /\ (EmptyString ∉ Name <$> l) /\
  (forall name c, Find name a = Some c <-> c ∈ l /\ Name c = name /\ name <> EmptyString) /\
  forall name, (app_Remove name a).1 = Find name a /\ All (app_Remove name a).2 = Some <$> (filter (fun c => Name c <> name) l).
Proof.
  intros [l W]%app_reach_registered. exists l. pose proof W as (_ & E & Hnd & He)%wf_slice. split; [done|]. split; [done|]. split; [done|].
  split; [by apply Find_spec|]. intros name. split; [by apply (app_Remove_result name a l)|]. by destruct (app_Remove_wf name a l W).
Qed.
End App.
