(* ===== verification/Startup.v ===== *)
(** The life of an application ([Application]): what [Startup] does in which order, when its
    hooks leave the component list alone; what a failed start leaves; and runs in which a
    hook does not leave the list alone. *)
From S2P Require Import Prelude Facade Serializer Application.

Section Life.
Context `{PR : Program}.

(** Calls that leave the component list alone and return. *)
Definition mild (c : app_call) : bool :=
  match c with
  | CallOnShutdown _ | CallSetDefaultBodyCodec _ | CallSetDiscovery _ | CallSetCluster _ | CallGoShutdown => true
  | _ => false
  end.

(** The functions that calls give to [OnShutdown]. *)
Definition call_fns (c : app_call) : list nat := match c with CallOnShutdown fns => fns | _ => [] end.
Definition hook_fns (p : phase) (c : component) : list nat :=
  match c with UserC i => concat (call_fns <$> user_hook p i) | _ => [] end.

(** The actors that [OnAfterInit] tries to create. *)
Fixpoint attempted (hs : list nat) : list nat := match hs with [] => [] | h :: hs => h :: if create_ok h then attempted hs else [] end.
Definition hook_log (p : phase) (hs : list nat) (c : component) : list event :=
  phase_event p c :: match c, p with ActorC, PAfterInit => EvCreateActor <$> attempted hs | _, _ => [] end.

(** From [a] to [a'] the component list stays, [evs] is logged and [fns] are registered. *)
Record ran (a a' : Application) (evs : list event) (fns : list nat) : Prop := {
  rn_mem : ap_mem a' = ap_mem a;
  rn_components : ap_components a' = ap_components a;
  rn_running : ap_running a' = ap_running a;
  rn_handlers : ap_actorHandlers a' = ap_actorHandlers a;
  rn_fns : ap_onShutdownFn a' = ap_onShutdownFn a ++ fns;
  rn_log : ap_log a' = ap_log a ++ evs }.

Lemma ran_refl a : ran a a [] [].
Proof. by split; rewrite ?app_nil_r. Qed.

Lemma ran_trans a b c e1 e2 f1 f2 : ran a b e1 f1 -> ran b c e2 f2 -> ran a c (e1 ++ e2) (f1 ++ f2).
Proof. intros [] []. split; try congruence; [by rewrite app_assoc; congruence|by rewrite app_assoc; congruence]. Qed.

Lemma ran_emit e a : ran a (add_log e a) [e] [].
Proof. by split; simpl; rewrite ?app_nil_r. Qed.

Lemma ran_call c a : mild c = true -> exists a', do_call c a = (a', Done) /\ ran a a' [] (call_fns c).
Proof.
  destruct c; try done; intros _; cbn [do_call call_fns]; eexists; (split; [reflexivity|]); try by split; simpl; rewrite ?app_nil_r; auto with lia.
  - unfold SetDefaultBodyCodec. destruct (Running a); [apply ran_refl|]. destruct (Registry_SetDefault _ _); [by split; simpl; rewrite ?app_nil_r|apply ran_refl].
  - unfold SetDiscovery. destruct (Running a), d; try apply ran_refl; by split; simpl; rewrite ?app_nil_r.
  - unfold SetCluster. destruct (Running a), c; try apply ran_refl; by split; simpl; rewrite ?app_nil_r.
Qed.

Lemma ran_calls cs a : Forall (fun c => mild c = true) cs -> exists a', do_calls cs a = (a', Done) /\ ran a a' [] (concat (call_fns <$> cs)).
Proof.
  intros H. revert a. induction H as [|c cs Hc _ IH]; intros a; [exists a; split; [done|apply ran_refl]|].
  destruct (ran_call c a Hc) as (a1 & E1 & R1). destruct (IH a1) as (a2 & E2 & R2). exists a2. simpl. unfold andthen. rewrite E1. split; [done|].
  by apply (ran_trans a a1 a2 [] []).
Qed.

Lemma ran_create hs a : Forall (fun h => create_ok h = true) hs -> exists a', create_actors hs a = (a', Done) /\ ran a a' (EvCreateActor <$> attempted hs) [].
Proof.
  intros H. revert a. induction H as [|h hs Hh _ IH]; intros a; [exists a; split; [done|apply ran_refl]|].
  destruct (IH (add_log (EvCreateActor h) a)) as (a' & E & R). exists a'. simpl. unfold andthen, emit. rewrite Hh. split; [done|].
  eapply (ran_trans a _ a' [EvCreateActor h] _ [] []); [apply ran_emit|done].
Qed.

(** The hook of [c] in a phase of the start returns, and leaves the component list alone. *)
Definition starts (hs : list nat) (p : phase) (c : component) : Prop :=
  match c, p with
  | UserC i, _ => Forall (fun x => mild x = true) (user_hook p i)
  | ActorC, PAfterInit => Forall (fun h => create_ok h = true) hs
  | ClusterC _, PInit => transport_ok = true
  | DiscoveryC _, PInit => forall d, backend_ok d = true
  | _, _ => True
  end.

Lemma ran_loaded l dm a : ran a (set_loaded l dm a) [] [].
Proof. by split; simpl; rewrite ?app_nil_r. Qed.

Lemma ran_hook p c a : p = PInit \/ p = PAfterInit -> starts (ap_actorHandlers a) p c ->
  exists a', call_hook p c a = (a', Done) /\ ran a a' (hook_log p (ap_actorHandlers a) c) (hook_fns p c).
Proof.
  intros Hp Hc. unfold call_hook, andthen, emit.
  cut (exists a', run_hook p c (add_log (phase_event p c) a) = (a', Done) /\
    ran (add_log (phase_event p c) a) a' (match c, p with ActorC, PAfterInit => EvCreateActor <$> attempted (ap_actorHandlers a) | _, _ => [] end) (hook_fns p c)).
  { intros (a' & E & R). exists a'. split; [done|]. by eapply (ran_trans a _ a' [phase_event p c] _ [] _ (ran_emit _ a)). }
  generalize (ran_emit (phase_event p c) a). generalize (add_log (phase_event p c) a). intros b Hb. rewrite <- (rn_handlers _ _ _ _ Hb) in Hc |- *.
  destruct c as [|k|k|i]; [destruct Hp as [-> | ->]|destruct Hp as [-> | ->]|destruct Hp as [-> | ->]|by destruct p; apply ran_calls].
  - exists b. split; [done|apply ran_refl].
  - by apply ran_create.
  - simpl in *. unfold cluster_component_Init. rewrite Hc. eexists. split; [done|apply ran_loaded].
  - exists b. split; [done|apply ran_refl].
  - simpl in *. unfold discovery_component_Init. destruct (discovery_select _ _) as [dm [d|]]; [rewrite Hc|]; (eexists; split; [done|apply ran_loaded]).
  - exists b. split; [done|apply ran_refl].
Qed.

(** ** Loops over the components *)

Lemma andthen_done (f g : action) a a' : f a = (a', Done) -> (f ;;; g) a = g a'.
Proof. intros E. unfold andthen. by rewrite E. Qed.

Lemma andthen_panicked (f g : action) a a' : f a = (a', Panicked) -> (f ;;; g) a = (a', Panicked).
Proof. intros E. unfold andthen. by rewrite E. Qed.

Lemma ran_All a a' e f : ran a a' e f -> All a' = All a.
Proof. intros []. unfold All. by rewrite rn_mem0, rn_components0. Qed.

(** A loop has gone through [l1], whose bodies return. *)
Lemma range_steps (body : component -> action) (good : component -> Prop) evs fns hs s n :
  (forall a c, ap_actorHandlers a = hs -> good c -> exists a', body c a = (a', Done) /\ ran a a' (evs c) (fns c)) ->
  forall l1 pre l2 a, ap_actorHandlers a = hs -> contents (ap_mem a) s = Some <$> (pre ++ l1 ++ l2) -> Forall good l1 ->
  exists a', ran a a' (concat (evs <$> l1)) (concat (fns <$> l1)) /\
    range_from (length l1 + n) (length pre) s body a = range_from n (length (pre ++ l1)) s body a'.
Proof.
  intros Hb. induction l1 as [|c l1 IH]; intros pre l2 a Hh E Hg.
  { exists a. split; [apply ran_refl|]. by rewrite app_nil_r. }
  apply Forall_cons_iff in Hg as [Hc Hg]. destruct (Hb a c Hh Hc) as (a1 & E1 & R1).
  destruct (IH (pre ++ [c]) l2 a1) as (a2 & R2 & E2).
  - by rewrite (rn_handlers _ _ _ _ R1).
  - rewrite (rn_mem _ _ _ _ R1), E. f_equal. by rewrite <- !app_assoc.
  - done.
  - exists a2. split; [by apply (ran_trans a a1 a2 (evs c) _ (fns c))|]. rewrite <- app_assoc in E2. simpl in E2 |- *. rewrite <- E2.
    assert (Hi : contents (ap_mem a) s !! length pre = Some (Some c)).
    { by rewrite E, list_lookup_fmap, lookup_app_r, Nat.sub_diag by lia. }
    apply lookup_take_Some in Hi as [Hi _]. rewrite Hi, (andthen_done _ _ _ _ E1), length_app. simpl. by rewrite Nat.add_1_r.
Qed.

(** The hook of [c] in a phase of the stop, or a shutdown function, may panic too. *)
Definition soft (c : app_call) : bool := match c with CallPanic => true | _ => mild c end.
Definition stops (p : phase) (c : component) : Prop := match c with UserC i => Forall (fun x => soft x = true) (user_hook p i) | _ => True end.

Lemma ran_soft cs a : Forall (fun c => soft c = true) cs -> exists a' o fns, do_calls cs a = (a', o) /\ o <> Blocked /\ ran a a' [] fns.
Proof.
  intros H. revert a. induction H as [|c cs Hc _ IH]; intros a; [exists a, Done, []; split_and!; [done|done|apply ran_refl]|].
  destruct (mild c) eqn:Hm.
  - destruct (ran_call c a Hm) as (a1 & E1 & R1). destruct (IH a1) as (a2 & o & fns & E2 & Ho & R2). exists a2, o, (call_fns c ++ fns).
    simpl. rewrite (andthen_done _ _ _ _ E1). split; [done|]. split; [done|]. by apply (ran_trans a a1 a2 [] []).
  - destruct c; try done. exists a, Panicked, []. split_and!; [done|done|apply ran_refl].
Qed.

Lemma ran_stop_hook p c a : p = PBeforeStop \/ p = PStop -> stops p c ->
  exists a' o fns, call_hook p c a = (a', o) /\ o <> Blocked /\ ran a a' [phase_event p c] fns.
Proof.
  intros Hp Hc. unfold call_hook. rewrite (andthen_done _ _ a _ eq_refl).
  cut (exists a' o fns, run_hook p c (add_log (phase_event p c) a) = (a', o) /\ o <> Blocked /\ ran (add_log (phase_event p c) a) a' [] fns).
  { intros (a' & o & fns & E & Ho & R). exists a', o, fns. split; [done|]. split; [done|]. by apply (ran_trans a _ a' [_] [] [] fns (ran_emit _ a)). }
  generalize (add_log (phase_event p c) a). intros b.
  assert (T : forall o, o <> Blocked -> exists a' o' fns, (b, o) = (a', o') /\ o' <> Blocked /\ ran b a' [] fns).
  { intros o Ho. exists b, o, []. split_and!; [done|done|apply ran_refl]. }
  destruct c as [|k|k|i]; [destruct Hp as [-> | ->]; by apply T| | |by destruct p; apply ran_soft];
    (destruct Hp as [-> | ->]; [by apply T|]; simpl; unfold delegate_OnStop; case_bool_decide; by apply T).
Qed.

Lemma ran_stop_from p : p = PBeforeStop \/ p = PStop -> forall l1 l2 a, All a = Some <$> (l1 ++ l2) -> Forall (stops p) l1 ->
  exists a' fns, stop_from (length l1) p a = (a', Done) /\ ran a a' (phase_event p <$> rev l1) fns.
Proof.
  intros Hp l1. induction l1 as [|c l1 IH] using rev_ind; intros l2 a E Hg; [exists a, []; split; [done|apply ran_refl]|].
  apply Forall_app in Hg as [Hg [Hc _]%Forall_cons_iff]. rewrite <- app_assoc in E. rewrite length_app, Nat.add_1_r. cbn [stop_from].
  destruct (ran_stop_hook p c a Hp Hc) as (a1 & o & f1 & E1 & Ho & R1).
  assert (G : forall b, All b = All a -> slice_get (ap_mem b) (ap_components b) (length l1) = Some (Some c)).
  { intros b Hb. change (All b !! length l1 = Some (Some c)). by rewrite Hb, E, list_lookup_fmap, lookup_app_r, Nat.sub_diag by lia. }
  destruct (IH ([c] ++ l2) a1) as (a2 & f2 & E2 & R2); [by rewrite (ran_All _ _ _ _ R1)|done|].
  exists a2, (f1 ++ f2). rewrite rev_app_distr, fmap_app. split; [|by apply (ran_trans a a1 a2)].
  erewrite andthen_done; [exact E2|]. unfold Try. rewrite (G a eq_refl). destruct o; [by rewrite (andthen_done _ _ _ _ E1)| |done].
  rewrite (andthen_panicked _ _ _ _ E1), (G a1 (ran_All _ _ _ _ R1)). done.
Qed.

Lemma ran_shutdown_fns fs a : Forall (fun f => Forall (fun c => soft c = true) (shutdown_fn f)) fs ->
  exists a' fns, shutdown_fns fs a = (a', Done) /\ ran a a' (EvShutdownFn <$> fs) fns.
Proof.
  intros H. revert a. induction H as [|f fs Hf _ IH]; intros a; [exists a, []; split; [done|apply ran_refl]|].
  destruct (ran_soft _ (add_log (EvShutdownFn f) a) Hf) as (a1 & o & f1 & E1 & Ho & R1). destruct (IH a1) as (a2 & f2 & E2 & R2).
  exists a2, (f1 ++ f2). split.
  - cbn [shutdown_fns]. erewrite andthen_done; [exact E2|]. unfold Try, emit. erewrite andthen_done; [|reflexivity]. rewrite E1. by destruct o.
  - apply (ran_trans a a1 a2 [EvShutdownFn f]); [|done]. by apply (ran_trans a _ a1 [_] [] [] f1 (ran_emit _ a)).
Qed.

(** ** While the application runs *)

(** Other goroutines remove no component and do not panic; what they register is ignored. *)
Definition calm (c : app_call) : bool := match c with CallRemove _ | CallPanic => false | _ => true end.

Lemma ran_other a c : Running a = true -> calm c = true -> ran a (other_call a c) [] (call_fns c) /\
  (ap_senders a <= ap_senders (other_call a c))%nat /\ (c = CallShutdown -> (0 < ap_senders (other_call a c))%nat).
Proof.
  intros HR Hc. destruct c; try done; cbn [other_call do_call call_fns fst].
  - assert (E : app_Register cs a = a) by (destruct cs; simpl; by rewrite HR). rewrite E. split; [apply ran_refl|done].
  - split; [by split; simpl; rewrite ?app_nil_r|done].
  - unfold SetDefaultBodyCodec. rewrite HR. split; [apply ran_refl|done].
  - unfold SetDiscovery. rewrite HR. split; [apply ran_refl|done].
  - unfold SetCluster. rewrite HR. split; [apply ran_refl|done].
  - split; [by split; simpl; rewrite ?app_nil_r|simpl; lia].
  - split; [by split; simpl; rewrite ?app_nil_r|simpl; split; [lia|done]].
Qed.

Lemma ran_during during a : Running a = true -> Forall (fun c => calm c = true) during ->
  ran a (foldl other_call a during) [] (concat (call_fns <$> during)) /\
  (ap_senders a <= ap_senders (foldl other_call a during))%nat /\ (CallShutdown ∈ during -> (0 < ap_senders (foldl other_call a during))%nat).
Proof.
  intros HR H. revert a HR. induction H as [|c during Hc _ IH]; intros a HR; [split; [apply ran_refl|]; split; [done|by intros ?%not_elem_of_nil]|].
  destruct (ran_other a c HR Hc) as (R1 & S1 & Z1). destruct (IH (other_call a c)) as (R2 & S2 & Z2).
  { unfold Running. by rewrite (rn_running _ _ _ _ R1). }
  simpl. split; [by apply (ran_trans a _ _ [] [] _ _ R1)|]. split; [lia|]. intros [<-|?]%elem_of_cons; [specialize (Z1 eq_refl); lia|by apply Z2].
Qed.

Lemma ran_wait during signalled a : Running a = true -> Forall (fun c => calm c = true) during -> signalled = true \/ CallShutdown ∈ during ->
  exists a', wait_shutdown during signalled a = (a', Done) /\ ran a a' [] (concat (call_fns <$> during)).
Proof.
  intros HR H Hs. destruct (ran_during during a HR H) as (R & _ & Z). unfold wait_shutdown. destruct signalled; [by eexists|].
  destruct Hs as [|Hs]; [done|]. specialize (Z Hs). destruct (ap_senders _) as [|k]; [lia|]. eexists. split; [done|].
  destruct R. by split.
Qed.

(** ** The whole life *)

Lemma ran_slice a a' e f : ran a a' e f -> slice_ok a -> slice_ok a'.
Proof. intros [] H. unfold slice_ok in *. by rewrite rn_mem0, rn_components0. Qed.

(** A loop over all components, up to one whose body does not return. *)
Lemma ran_range_part (body : component -> action) good evs fns hs l1 l2 a :
  (forall a c, ap_actorHandlers a = hs -> good c -> exists a', body c a = (a', Done) /\ ran a a' (evs c) (fns c)) ->
  slice_ok a -> ap_actorHandlers a = hs -> All a = Some <$> (l1 ++ l2) -> Forall good l1 ->
  exists a', ran a a' (concat (evs <$> l1)) (concat (fns <$> l1)) /\
    range_components body a = range_from (length l2) (length l1) (ap_components a) body a'.
Proof.
  intros Hb Hs Hh E Hg. destruct (range_steps body good evs fns hs (ap_components a) (length l2) Hb l1 [] l2 a Hh E Hg) as (a' & R & E').
  exists a'. split; [done|]. simpl in E'. rewrite <- E'. unfold range_components. f_equal. rewrite <- (All_length a Hs), E, length_fmap, length_app. done.
Qed.

Lemma ran_range_all (body : component -> action) good evs fns hs l a :
  (forall a c, ap_actorHandlers a = hs -> good c -> exists a', body c a = (a', Done) /\ ran a a' (evs c) (fns c)) ->
  slice_ok a -> ap_actorHandlers a = hs -> All a = Some <$> l -> Forall good l ->
  exists a', range_components body a = (a', Done) /\ ran a a' (concat (evs <$> l)) (concat (fns <$> l)).
Proof.
  intros Hb Hs Hh E Hg. destruct (ran_range_part body good evs fns hs l [] a Hb Hs Hh) as (a' & R & E'); [by rewrite app_nil_r|done|].
  exists a'. by split.
Qed.

Lemma concat_singletons {A B} (f : A -> B) (l : list A) : concat ((fun x => [f x]) <$> l) = f <$> l.
Proof. induction l as [|x l IH]; [done|]. simpl. by f_equal. Qed.

Lemma concat_nils {A B} (l : list A) : concat ((fun _ => []) <$> l) = [] :> list B.
Proof. by induction l. Qed.

Lemma init_logs hs l : concat (hook_log PInit hs <$> l) = EvInit <$> l.
Proof. rewrite <- (concat_singletons EvInit). f_equal. apply list_fmap_ext. intros _ c _. by destruct c. Qed.

Lemma ran_sets l a : slice_ok a -> All a = Some <$> l ->
  exists a', range_components (fun c => emit (EvSet c)) a = (a', Done) /\ ran a a' (EvSet <$> l) [].
Proof.
  intros Hs E. destruct (ran_range_all (fun c => emit (EvSet c)) (fun _ => True) (fun c => [EvSet c]) (fun _ => []) (ap_actorHandlers a) l a) as (a' & E' & R); try done.
  - intros b c _ _. eexists. split; [done|apply ran_emit].
  - by apply Forall_true.
  - rewrite concat_singletons, concat_nils in R. by exists a'.
Qed.

Lemma add_actor_system_same a : let b := add_actor_system a in
  ap_running b = ap_running a /\ ap_onShutdownFn b = ap_onShutdownFn a /\ ap_actorHandlers b = ap_actorHandlers a /\ ap_log b = ap_log a.
Proof. unfold add_actor_system. by destruct (Find _ a). Qed.

Lemma stop_all p l a : p = PBeforeStop \/ p = PStop -> slice_ok a -> All a = Some <$> l -> Forall (stops p) l ->
  exists a' fns, stop_components p a = (a', Done) /\ ran a a' (phase_event p <$> rev l) fns.
Proof.
  intros Hp Hs E Hg. unfold stop_components. rewrite <- (All_length a Hs), E, length_fmap.
  apply (ran_stop_from p Hp l []); [by rewrite app_nil_r|done].
Qed.

(** From the end of the wait to the end. *)
Lemma ran_shutdown l a : slice_ok a -> All a = Some <$> l -> (forall p, Forall (stops p) l) ->
  Forall (fun f => Forall (fun c => soft c = true) (shutdown_fn f)) (ap_onShutdownFn a) ->
  exists a' fns, ((fun a => shutdown_fns (ap_onShutdownFn a) a) ;;; stop_components PBeforeStop ;;; stop_components PStop) a = (a', Done) /\
    ran a a' ((EvShutdownFn <$> ap_onShutdownFn a) ++ (EvBeforeStop <$> rev l) ++ (EvStop <$> rev l)) fns.
Proof.
  intros Hs E Hg Hf. destruct (ran_shutdown_fns _ a Hf) as (a1 & f1 & E1 & R1).
  destruct (stop_all PBeforeStop l a1) as (a2 & f2 & E2 & R2); [by left|by apply (ran_slice a a1 _ _ R1)|by rewrite (ran_All _ _ _ _ R1)|done|].
  destruct (stop_all PStop l a2) as (a3 & f3 & E3 & R3); [by right| | |done|].
  { apply (ran_slice a1 a2 _ _ R2), (ran_slice a a1 _ _ R1), Hs. } { by rewrite (ran_All _ _ _ _ R2), (ran_All _ _ _ _ R1). }
  exists a3, (f1 ++ f2 ++ f3). split; [by rewrite (andthen_done (fun a => shutdown_fns (ap_onShutdownFn a) a) _ a a1 E1), (andthen_done _ _ _ _ E2)|].
  apply (ran_trans a a1 a3 _ _ _ _ R1), (ran_trans a1 a2 a3 _ _ _ _ R2 R3).
Qed.

(** From the start to the running application. *)
Lemma ran_starting l a : slice_ok a -> All a = Some <$> l -> (forall p, p = PInit \/ p = PAfterInit -> Forall (starts (ap_actorHandlers a) p) l) ->
  exists a', ran a a' ((EvSet <$> l) ++ (EvInit <$> l) ++ concat (hook_log PAfterInit (ap_actorHandlers a) <$> l))
      (concat (hook_fns PInit <$> l) ++ concat (hook_fns PAfterInit <$> l)) /\
    forall k, (range_components (fun c => emit (EvSet c)) ;;; range_components (call_hook PInit) ;;; range_components (call_hook PAfterInit) ;;; k) a = k a'.
Proof.
  intros Hs E Hg. set (hs := ap_actorHandlers a) in *. destruct (ran_sets l a Hs E) as (a1 & E1 & R1).
  assert (Hb : forall p, p = PInit \/ p = PAfterInit -> forall b c, ap_actorHandlers b = hs -> starts hs p c ->
    exists b', call_hook p c b = (b', Done) /\ ran b b' (hook_log p hs c) (hook_fns p c)).
  { intros p Hp b c Hh Hc. rewrite <- Hh in *. by apply ran_hook. }
  destruct (ran_range_all _ _ _ _ hs l a1 (Hb PInit (or_introl eq_refl))) as (a2 & E2 & R2); [by apply (ran_slice a a1 _ _ R1)|by apply R1|by rewrite (ran_All _ _ _ _ R1)|by apply Hg; left|].
  pose proof (ran_trans _ _ _ _ _ _ _ R1 R2) as R12.
  destruct (ran_range_all _ _ _ _ hs l a2 (Hb PAfterInit (or_intror eq_refl))) as (a3 & E3 & R3); [by apply (ran_slice a a2 _ _ R12)|by apply R12|by rewrite (ran_All _ _ _ _ R12)|by apply Hg; right|].
  exists a3. split.
  - rewrite <- (init_logs hs). pose proof (ran_trans _ _ _ _ _ _ _ R12 R3) as R. by rewrite <- !app_assoc in R.
  - intros k. by rewrite (andthen_done _ _ _ _ E1), (andthen_done _ _ _ _ E2), (andthen_done _ _ _ _ E3).
Qed.

(** C20: The life of an application. When its hooks return and leave the component list alone
    (hooks and functions of the shutdown may panic instead), [Startup] runs to its end as
    soon as a signal or a [Shutdown] has come, and does exactly this: [Set] on every
    component, then every [Init], then every [OnAfterInit], in order of registration with
    the actor system first; then, after the wait, the shutdown functions, in the order they
    were given, those given by hooks or while the application was running included; then
    every [OnBeforeStop] and then every [OnStop], in the opposite order. What others
    register while it runs is ignored. *)
Theorem startup_lifecycle (during : list app_call) (signalled : bool) (a : Application) (l : list component) :
  let L := with_actor_system l in
  let fns := ap_onShutdownFn a ++ concat (hook_fns PInit <$> L) ++ concat (hook_fns PAfterInit <$> L) ++ concat (call_fns <$> during) in
  app_wf a l -> ap_running a = 0 ->
  (forall p, p = PInit \/ p = PAfterInit -> Forall (starts (ap_actorHandlers a) p) L) -> (forall p, Forall (stops p) L) ->
  Forall (fun f => Forall (fun c => soft c = true) (shutdown_fn f)) fns ->
  Forall (fun c => calm c = true) during -> signalled = true \/ CallShutdown ∈ during ->
  exists a', Startup during signalled a = (a', Done) /\ Running a' = false /\ All a' = Some <$> L /\
    ap_log a' = ap_log a ++ (EvSet <$> L) ++ (EvInit <$> L) ++ concat (hook_log PAfterInit (ap_actorHandlers a) <$> L) ++ [EvRunning] ++
      (EvShutdownFn <$> fns) ++ (EvBeforeStop <$> rev L) ++ (EvStop <$> rev L).
Proof.
  intros L fns W HR Hst Hsp Hf Hd Hs. pose proof (add_actor_system_wf a l W) as W0. destruct (add_actor_system_same a) as (HR0 & Hf0 & Hh0 & Hl0).
  fold L in W0. apply wf_slice in W0 as (Hs0 & E0 & _). unfold Startup, Try. assert (ER : Running a = false) by (unfold Running; by rewrite HR). rewrite ER.
  revert Hs0 E0 HR0 Hf0 Hh0 Hl0. generalize (add_actor_system a). intros a0 Hs0 E0 HR0 Hf0 Hh0 Hl0. rewrite HR in HR0. rewrite <- Hh0 in *.
  destruct (ran_starting L a0 Hs0 E0 Hst) as (a1 & R1 & K1). unfold startup_body. rewrite K1. rewrite (andthen_done _ _ _ (set_running 1 a1)).
  2: { by rewrite (rn_running _ _ _ _ R1), HR0. }
  rewrite (andthen_done _ _ _ _ eq_refl). destruct (ran_wait during signalled (add_log EvRunning (set_running 1 a1)) eq_refl Hd Hs) as (a3 & E3 & R3).
  rewrite (andthen_done _ _ _ _ E3), (andthen_done _ _ _ _ eq_refl).
  pose proof (ran_trans _ _ _ _ _ _ _ (ran_emit EvRunning (set_running 1 a1)) R3) as R13.
  assert (Hfns : ap_onShutdownFn (set_running 0 a3) = fns).
  { simpl. rewrite (rn_fns _ _ _ _ R13). simpl. rewrite (rn_fns _ _ _ _ R1), Hf0. unfold fns. by rewrite <- !app_assoc. }
  assert (E1 : All a3 = Some <$> L) by (rewrite (ran_All _ _ _ _ R13); change (All a1 = Some <$> L); by rewrite (ran_All _ _ _ _ R1)).
  destruct (ran_shutdown L (set_running 0 a3)) as (a4 & f4 & E4 & R4); [| |done|by rewrite Hfns|].
  { apply (ran_slice (set_running 1 a1) a3 _ _ R13), (ran_slice a0 a1 _ _ R1), Hs0. } { exact E1. }
  rewrite E4. exists a4. split; [done|]. split; [unfold Running; by rewrite (rn_running _ _ _ _ R4)|]. split; [by rewrite (ran_All _ _ _ _ R4)|].
  rewrite (rn_log _ _ _ _ R4), Hfns. simpl. rewrite (rn_log _ _ _ _ R13). simpl. rewrite (rn_log _ _ _ _ R1), Hl0. by rewrite <- !app_assoc.
Qed.

(** ** A start that fails *)

(** The hook of [c] panics, after calls that leave the component list alone. *)
Definition fails (hs : list nat) (p : phase) (c : component) : Prop :=
  match c, p with
  | UserC i, _ => exists cs rest, user_hook p i = cs ++ CallPanic :: rest /\ Forall (fun x => mild x = true) cs
  | ActorC, PAfterInit => exists h, h ∈ hs /\ create_ok h = false
  | ClusterC _, PInit => transport_ok = false
  | DiscoveryC _, PInit => forall dm, exists d, (discovery_select mode dm).2 = Some d /\ backend_ok d = false
  | _, _ => False
  end.

Lemma panic_calls cs rest a : Forall (fun x => mild x = true) cs ->
  exists a', do_calls (cs ++ CallPanic :: rest) a = (a', Panicked) /\ ran a a' [] (concat (call_fns <$> cs)).
Proof.
  intros H. revert a. induction H as [|c cs Hc _ IH]; intros a; [exists a; split; [done|apply ran_refl]|].
  destruct (ran_call c a Hc) as (a1 & E1 & R1). destruct (IH a1) as (a2 & E2 & R2). exists a2. simpl. rewrite (andthen_done _ _ _ _ E1).
  split; [done|]. by apply (ran_trans a a1 a2 [] []).
Qed.

Lemma create_fails hs a : (exists h, h ∈ hs /\ create_ok h = false) ->
  exists a', create_actors hs a = (a', Panicked) /\ ran a a' (EvCreateActor <$> attempted hs) [].
Proof.
  revert a. induction hs as [|h hs IH]; intros a (x & Hx & Hc); [by apply not_elem_of_nil in Hx|].
  simpl. rewrite (andthen_done _ _ _ _ eq_refl). destruct (create_ok h) eqn:Eh.
  - destruct (IH (add_log (EvCreateActor h) a)) as (a' & E & R).
    { exists x. split; [|done]. apply elem_of_cons in Hx as [-> |]; [congruence|done]. }
    exists a'. split; [done|]. eapply (ran_trans a _ a' [EvCreateActor h] _ [] []); [apply ran_emit|done].
  - eexists. split; [done|apply ran_emit].
Qed.

Lemma fail_hook p c a : fails (ap_actorHandlers a) p c ->
  exists a' fns, call_hook p c a = (a', Panicked) /\ ran a a' (hook_log p (ap_actorHandlers a) c) fns.
Proof.
  intros Hc. unfold call_hook. rewrite (andthen_done _ _ a _ eq_refl).
  cut (exists a' fns, run_hook p c (add_log (phase_event p c) a) = (a', Panicked) /\
    ran (add_log (phase_event p c) a) a' (match c, p with ActorC, PAfterInit => EvCreateActor <$> attempted (ap_actorHandlers a) | _, _ => [] end) fns).
  { intros (a' & fns & E & R). exists a', fns. split; [done|]. by eapply (ran_trans a _ a' [phase_event p c] _ [] _ (ran_emit _ a)). }
  generalize (ran_emit (phase_event p c) a). generalize (add_log (phase_event p c) a). intros b Hb. rewrite <- (rn_handlers _ _ _ _ Hb) in Hc |- *.
  destruct c as [|k|k|i], p; try done; try (destruct Hc as (cs & rest & E & Hm); simpl; rewrite E; destruct (panic_calls cs rest b Hm) as (b' & E' & R'); by exists b', (concat (call_fns <$> cs))).
  - destruct (create_fails _ b Hc) as (b' & E' & R'). by exists b', [].
  - simpl in *. unfold cluster_component_Init. rewrite Hc. eexists _, []. split; [done|apply ran_loaded].
  - simpl in *. unfold discovery_component_Init. destruct (Hc (ap_discoveryMap b)) as (d & Ed & Eb). destruct (discovery_select _ _) as [dm d'].
    simpl in Ed. subst d'. rewrite Eb. eexists _, []. split; [done|apply ran_loaded].
Qed.

Lemma fail_range p l1 c l2 a : p = PInit \/ p = PAfterInit -> slice_ok a -> All a = Some <$> (l1 ++ c :: l2) ->
  Forall (starts (ap_actorHandlers a) p) l1 -> fails (ap_actorHandlers a) p c ->
  exists a' fns, range_components (call_hook p) a = (a', Panicked) /\ ran a a' (concat (hook_log p (ap_actorHandlers a) <$> (l1 ++ [c]))) fns.
Proof.
  intros Hp Hs E Hg Hc. set (hs := ap_actorHandlers a) in *.
  destruct (ran_range_part (call_hook p) (starts hs p) (hook_log p hs) (hook_fns p) hs l1 (c :: l2) a) as (a1 & R1 & E1); try done.
  { intros b x Hh Hx. rewrite <- Hh in *. by apply ran_hook. }
  assert (Hh : ap_actorHandlers a1 = hs) by apply R1. rewrite <- Hh in Hc. destruct (fail_hook p c a1 Hc) as (a2 & f2 & E2 & R2). rewrite Hh in R2.
  exists a2, (concat (hook_fns p <$> l1) ++ f2). rewrite fmap_app, concat_app. simpl. rewrite app_nil_r. split; [|by apply (ran_trans a a1 a2)].
  rewrite E1. cbn [length range_from].
  assert (Hi : All a !! length l1 = Some (Some c)) by (by rewrite E, list_lookup_fmap, lookup_app_r, Nat.sub_diag by lia).
  apply lookup_take_Some in Hi as [Hi _]. rewrite (rn_mem _ _ _ _ R1), Hi. by apply andthen_panicked.
Qed.

(** C21: A start that fails. When the hook of a component panics in [Init] or in
    [OnAfterInit] (the creation of an actor that fails included), [Startup] returns as if
    nothing were wrong: no later component is started, the application does not report
    that it is running, and what was started is left as it is: no shutdown function, no
    [OnBeforeStop] and no [OnStop] is called. *)
Theorem startup_failed (during : list app_call) (signalled : bool) (a : Application) (l l1 l2 : list component) (c : component) (p : phase) :
  app_wf a l -> ap_running a = 0 -> with_actor_system l = l1 ++ c :: l2 -> p = PInit \/ p = PAfterInit ->
  (p = PAfterInit -> Forall (starts (ap_actorHandlers a) PInit) (with_actor_system l)) ->
  Forall (starts (ap_actorHandlers a) p) l1 -> fails (ap_actorHandlers a) p c ->
  exists a', Startup during signalled a = (a', Done) /\ Running a' = false /\ All a' = Some <$> with_actor_system l /\
    ap_log a' = ap_log a ++ (EvSet <$> with_actor_system l) ++
      match p with PInit => [] | _ => EvInit <$> with_actor_system l end ++ concat (hook_log p (ap_actorHandlers a) <$> (l1 ++ [c])).
Proof.
  intros W HR EL Hp H0 H1 Hc. pose proof (add_actor_system_wf a l W) as W0. destruct (add_actor_system_same a) as (HR0 & _ & Hh0 & Hl0).
  apply wf_slice in W0 as (Hs0 & E0 & _). unfold Startup, Try. assert (ER : Running a = false) by (unfold Running; by rewrite HR). rewrite ER.
  revert Hs0 E0 HR0 Hh0 Hl0. generalize (add_actor_system a). intros a0 Hs0 E0 HR0 Hh0 Hl0. rewrite HR in HR0. rewrite <- Hh0, <- Hl0 in *. clear W HR ER Hh0 Hl0 a.
  set (L := with_actor_system l) in *. clearbody L. set (hs := ap_actorHandlers a0) in *. destruct (ran_sets L a0 Hs0 E0) as (a1 & E1 & R1).
  pose proof (ran_slice _ _ _ _ R1 Hs0) as Hs1. assert (Hh1 : ap_actorHandlers a1 = hs) by apply R1.
  assert (EA1 : All a1 = Some <$> L) by (by rewrite (ran_All _ _ _ _ R1)).
  assert (Fin : forall b e f, ran a0 b e f -> Running b = false /\ All b = Some <$> L /\ ap_log b = ap_log a0 ++ e).
  { intros b e f R. split_and!; [unfold Running; by rewrite (rn_running _ _ _ _ R), HR0|by rewrite (ran_All _ _ _ _ R)|apply R]. }
  unfold startup_body. rewrite (andthen_done _ _ _ _ E1). destruct Hp as [-> | ->].
  - destruct (fail_range PInit l1 c l2 a1) as (a2 & f2 & E2 & R2); [by left|done|by rewrite EA1, EL|by rewrite Hh1|by rewrite Hh1|].
    exists a2. rewrite (andthen_panicked _ _ _ _ E2). split; [done|]. rewrite Hh1 in R2. exact (Fin _ _ _ (ran_trans _ _ _ _ _ _ _ R1 R2)).
  - destruct (ran_range_all (call_hook PInit) (starts hs PInit) (hook_log PInit hs) (hook_fns PInit) hs L a1) as (a2 & E2 & R2); try done; [|by apply H0|].
    { intros b x Hh Hx. rewrite <- Hh in *. apply ran_hook; [by left|done]. }
    rewrite (andthen_done _ _ _ _ E2). assert (Hh2 : ap_actorHandlers a2 = hs) by (rewrite <- Hh1; apply R2).
    destruct (fail_range PAfterInit l1 c l2 a2) as (a3 & f3 & E3 & R3); [by right|by apply (ran_slice _ _ _ _ R2)|by rewrite (ran_All _ _ _ _ R2), EA1, EL|by rewrite Hh2|by rewrite Hh2|].
    exists a3. rewrite (andthen_panicked _ _ _ _ E3). split; [done|]. rewrite Hh2 in R3. rewrite init_logs in R2.
    exact (Fin _ _ _ (ran_trans _ _ _ _ _ _ _ R1 (ran_trans _ _ _ _ _ _ _ R2 R3))).
Qed.
End Life.

(** ** Runs *)

(** Components 1 and 2 and, for some runs, the scripts of their hooks. *)
Definition demo_names (i : nat) : str := match i with 1%nat => "gate" | 2%nat => "db" | _ => "extra" end.
Definition demo_program (hooks : phase -> nat -> list app_call) : Program := {|
  user_Name := demo_names; user_hook := hooks; shutdown_fn := fun _ => [CallPanic]; newcap := fun old _ => (2 * old)%nat;
  mode := "nats"; transport_ok := true; backend_ok := fun _ => true; create_ok := fun h => Nat.ltb h 9 |}.

Definition quiet_hooks (p : phase) (i : nat) : list app_call :=
  match p, i with PInit, 1%nat => [CallOnShutdown [5%nat]] | PBeforeStop, 2%nat => [CallPanic] | _, _ => [] end.

Definition app_registry : Registry := default (mkRegistry ∅ 0) (NewRegistry [Some (@NewProtobuf plain_lib); Some (@NewJSON plain_lib)]).
Definition new_app : Application := mkApplication [[]] (mkSlice 0 0) 0 [] app_registry None None [] 0 [] init_discoveryMap 0 [].
Definition demo_builder (handlers : list nat) : AppBuilder := AddActors handlers (builder_Register [Some (UserC 1); Some (UserC 2); Some (UserC 1)] (mkAppBuilder new_app ClusterMode [])).
Definition demo_list : list component := [ClusterC 0; DiscoveryC 1; UserC 1; UserC 2].

Section Demo.
#[local] Instance quiet_program : Program := demo_program quiet_hooks.

Lemma new_app_new : @NewAppNode plain_lib = Some new_app.
Proof. reflexivity. Qed.

Definition demo_app (handlers : list nat) : Application := install (demo_builder handlers).

Lemma demo_app_reach handlers : @app_reach _ plain_lib (demo_app handlers).
Proof. apply ar_install, ar_add, ar_new. exact new_app_new. Defined.

Lemma demo_app_wf handlers : app_wf (demo_app handlers) demo_list.
Proof. split; [vm_compute; lia|vm_compute; lia|reflexivity| |]; apply (bool_decide_eq_true_1 _); vm_compute; reflexivity. Qed.

Definition demo_ended : Application := (Startup [CallOnShutdown [6%nat]; CallRegister [Some (UserC 3)]; CallShutdown] false (demo_app [4%nat])).1.

Lemma components_unique_witness :
  exists l, All demo_ended = Some <$> l /\ NoDup (Name <$> l) /\ Find "db" demo_ended = Some (UserC 2).
Proof.
  destruct (@components_unique _ plain_lib demo_ended (ar_startup _ _ _ (demo_app_reach [4%nat]))) as (l & E & Hnd & _ & _ & _).
  exists l. split; [exact E|]. split; [exact Hnd|]. vm_compute. reflexivity.
Defined.

Lemma startup_lifecycle_witness :
  exists a', Startup [CallOnShutdown [6%nat]; CallRegister [Some (UserC 3)]; CallShutdown] false (demo_app [4%nat]) = (a', Done) /\
    ap_log a' = (EvSet <$> ActorC :: demo_list) ++ (EvInit <$> ActorC :: demo_list) ++
      [EvAfterInit ActorC; EvCreateActor 4] ++ (EvAfterInit <$> demo_list) ++ [EvRunning; EvShutdownFn 5; EvShutdownFn 6] ++
      (EvBeforeStop <$> rev (ActorC :: demo_list)) ++ (EvStop <$> rev (ActorC :: demo_list)).
Proof.
  destruct (startup_lifecycle [CallOnShutdown [6%nat]; CallRegister [Some (UserC 3)]; CallShutdown] false (demo_app [4%nat]) demo_list)
    as (a' & E & _ & _ & El).
  - apply demo_app_wf.
  - reflexivity.
  - intros p [-> | ->]; repeat constructor.
  - intros []; repeat constructor.
  - repeat constructor.
  - repeat constructor.
  - right. set_solver.
  - exists a'. split; [exact E|]. rewrite El. reflexivity.
Defined.

Lemma startup_failed_witness :
  exists a', Startup [] false (demo_app [4%nat; 9%nat; 5%nat]) = (a', Done) /\
    ap_log a' = (EvSet <$> ActorC :: demo_list) ++ (EvInit <$> ActorC :: demo_list) ++ [EvAfterInit ActorC; EvCreateActor 4; EvCreateActor 9].
Proof.
  destruct (startup_failed [] false (demo_app [4%nat; 9%nat; 5%nat]) demo_list [] demo_list ActorC PAfterInit) as (a' & E & _ & _ & El).
  - apply demo_app_wf.
  - reflexivity.
  - reflexivity.
  - by right.
  - intros _. repeat constructor.
  - constructor.
  - exists 9%nat. split; [set_solver|reflexivity].
  - exists a'. split; [exact E|]. rewrite El. reflexivity.
Defined.
End Demo.

Definition run_with (hooks : phase -> nat -> list app_call) (cs : list component) : Application * outcome :=
  @Startup (demo_program hooks) [] true (@app_Register (demo_program hooks) (Some <$> cs) new_app).

(** A component that another registers in its [Init] is never initialized, and is stopped. *)
Lemma registered_in_init :
  ap_log (run_with (fun p i => match p, i with PInit, 1%nat => [CallRegister [Some (UserC 2)]] | _, _ => [] end) [UserC 1]).1 =
  [EvSet ActorC; EvSet (UserC 1); EvInit ActorC; EvInit (UserC 1);
   EvAfterInit ActorC; EvAfterInit (UserC 1); EvAfterInit (UserC 2); EvRunning;
   EvBeforeStop (UserC 2); EvBeforeStop (UserC 1); EvBeforeStop ActorC; EvStop (UserC 2); EvStop (UserC 1); EvStop ActorC].
Proof. vm_compute. reflexivity. Qed.

(** A component that removes itself in its [Init] makes the loop skip the next one and
    initialize the last one twice. *)
Lemma removed_in_init :
  ap_log (run_with (fun p i => match p, i with PInit, 1%nat => [CallRemove "gate"] | _, _ => [] end) [UserC 1; UserC 2; UserC 3]).1 =
  [EvSet ActorC; EvSet (UserC 1); EvSet (UserC 2); EvSet (UserC 3); EvInit ActorC; EvInit (UserC 1); EvInit (UserC 3); EvInit (UserC 3);
   EvAfterInit ActorC; EvAfterInit (UserC 2); EvAfterInit (UserC 3); EvRunning;
   EvBeforeStop (UserC 3); EvBeforeStop (UserC 2); EvBeforeStop ActorC; EvStop (UserC 3); EvStop (UserC 2); EvStop ActorC].
Proof. vm_compute. reflexivity. Qed.

(** When hooks of the stop have removed components the loop's index is out of range, in the
    hook's call and again in the handler of its panic: the stop ends there, and the
    components that are left are not stopped. *)
Lemma stop_abandoned :
  let r := run_with (fun p i => match p, i with PBeforeStop, 2%nat => [CallRemove "gate"; CallRemove "actor_component"] | _, _ => [] end) [UserC 1; UserC 2] in
  r.2 = Done /\ All r.1 = [Some (UserC 2)] /\ list.last (ap_log r.1) = Some (EvBeforeStop (UserC 2)).
Proof. vm_compute. done. Qed.

(** A builder that is started again replaces the cluster by a component that is not
    registered, since its name is taken, and so is never initialized. *)
Lemma restarted_builder_loses_cluster :
  let started := fun p => (@builder_Startup (demo_program quiet_hooks) [] true p).1 in
  let a := ab_app (started (started (demo_builder [4%nat]))) in
  ap_cluster a = Some (ClusterC 2) /\ (ClusterC 2 ∉ ap_loaded a) /\ (Some (ClusterC 2) ∉ All a) /\ Some (ClusterC 0) ∈ All a.
Proof. cbv zeta. split; [vm_compute; reflexivity|]. split_and!; apply (bool_decide_eq_true_1 _); vm_compute; reflexivity. Qed.
