(* ===== verification/Rabbit.v ===== *)
(** Cluster transport over RabbitMQ (net/cluster/rabbitmq_cluster/cluster.go, const.go): what
    a node does with one message, and a network of nodes and the broker's queues as a step
    relation ([exec_rb]): requests and their deferred clean-up, the two pumps, the work
    queue and its workers, the goroutine that watches the connection, and [Stop].

    The work queue and its workers are the ones of the NATS transport, whose code is the
    same ([Cluster]). The AMQP client and the broker are choices of the run: whether
    connecting and publishing succeed, and which published message is delivered next, or
    lost; a queue is bound to its own name, so a message reaches the node whose key it
    carries. *)
From S2P Require Import Prelude Strconv Facade Context Serializer Method Actor ActorSystem Agp Cluster.

(** ** One message *)

(** src/net/cluster/rabbitmq_cluster/const.go:11-13, GetRemoteRoutingKey *)
Definition GetRemoteRoutingKey (prefix nodeType nodeID : str) : str :=
  String.append "actorgo-" (String.append prefix (String.append ".remote." (String.append nodeType (String.append DOT nodeID)))).

(** src/net/cluster/rabbitmq_cluster/const.go:16-18, GetReplyRoutingKey *)
Definition GetReplyRoutingKey (prefix nodeType nodeID : str) : str :=
  String.append "actorgo-" (String.append prefix (String.append ".reply." (String.append nodeType (String.append DOT nodeID)))).

(** An AMQP message: published, or delivered. *)
Record delivery := mkDelivery { dl_RoutingKey : str; dl_Body : bytes; dl_ReplyTo : str; dl_CorrelationId : str }.
#[global] Instance delivery_eq_dec : EqDecision delivery.
Proof. solve_decision. Defined.

(** src/net/cluster/rabbitmq_cluster/cluster.go:470-489, validateMessage *)
Definition rb_validateMessage (message : option ClusterMessage) : res unit :=
  match message with
  | None => Err "actorgo cluster: message is nil"
  | Some m =>
      if (cm_MessageId m =? 0) || (cm_MethodId m =? 0) then Err "actorgo cluster: message id and method id are required"
      else if negb (String.eqb (cm_TargetPath m) EmptyString) && negb (is_ok (ToActorPath (cm_TargetPath m)))
      then Err "actorgo cluster: invalid actor target"
      else if negb (MsgType_eqb (cm_MsgType m) REQUEST) && negb (MsgType_eqb (cm_MsgType m) NOTIFY)
      then Err "actorgo cluster: invalid outbound message type"
      else if negb (cm_Codec m =? CodecJSON) && negb (cm_Codec m =? CodecProtobuf) then Err "actorgo cluster: unsupported codec"
      else Ok tt
  end.

(** src/net/cluster/rabbitmq_cluster/cluster.go:491-505, messageContext *)
Definition rb_messageContext (now : Z) (message : ClusterMessage) : RequestContext :=
  let base := if 0 <? cm_DeadlineUnixMs message then WithDeadline now Background (cm_DeadlineUnixMs message * 1000000) else Background in
  mkRequestContext (rc_Context (NewRequestContext (Some base))) (cm_RequestId message) TransportCluster (cm_Codec message)
    (match cm_Session message with
     | Some session => Some (mkSession (s_Sid session) (s_Uid session) (s_Ip session) (maps_Clone (s_Data session)))
     | None => None
     end)
    (cm_Metadata message).

(** What a node has when it handles a message: the clock, the body codecs, the target
    calls of its actor system, Dispatch of its method table. *)
Record rb_calls := mkRbCalls {
  rc_now : Z; rc_codecs : option Registry;
  rc_NotifyTarget : RequestContext -> str -> Z -> payload -> option InvokeResult;
  rc_InvokeTarget : RequestContext -> str -> Z -> payload -> option InvokeResult;
  rc_Dispatch : option (RequestContext -> Z -> bytes -> MsgType -> option InvokeResult) }.

Section Messages.
Context `{ClusterProto}.

(** The message published as the reply. *)
(** src/net/cluster/rabbitmq_cluster/cluster.go:349-376, Cluster.reply *)
Definition rb_reply (codecs : option Registry) (message : delivery) (request : ClusterMessage) (ctx : option RequestContext)
    (result : InvokeResult) : option delivery :=
  if MsgType_eqb (cm_MsgType request) NOTIFY || String.eqb (dl_ReplyTo message) EmptyString then None
  else
    let '(payload, result) :=
      match ctx, codecs with
      | Some ctx, Some codecs =>
          if InvokeResult_OK (Some result) && negb (bool_decide (r_Payload result = PNil)) then
            match Registry_Marshal codecs (rc_Codec ctx) (r_Payload result) with
            | Ok payload => (payload, result)
            | Err _ => ([], ErrorResult STATUS_INTERNAL "response body encode failed")
            end
          else ([], result)
      | _, _ => ([], result)
      end in
    match cm_Marshal (mkClusterMessage (cm_MessageId request) RESPONSE (cm_RequestId request) (cm_MethodId request) 0
        EmptyString None None (cm_Codec request) payload (r_Code result) (r_Message result)) with
    | Err _ => None
    | Ok data => Some (mkDelivery (dl_ReplyTo message) data EmptyString (dl_CorrelationId message))
    end.

(** src/net/cluster/rabbitmq_cluster/cluster.go:300-310, Cluster.rejectOverload *)
Definition rb_rejectOverload (message : delivery) : option delivery :=
  if String.eqb (dl_ReplyTo message) EmptyString then None
  else match cm_Unmarshal (dl_Body message) with
       | Err _ => None
       | Ok m =>
           if negb (MsgType_eqb (cm_MsgType m) REQUEST) then None
           else rb_reply None message m None (ErrorResult STATUS_RESOURCE_EXHAUSTED "cluster work queue is full")
       end.

(** src/net/cluster/rabbitmq_cluster/cluster.go:312-347, Cluster.process *)
Definition rb_process (c : rb_calls) (message : delivery) : option delivery :=
  match cm_Unmarshal (dl_Body message) with
  | Err _ => None
  | Ok m =>
      if negb (is_ok (rb_validateMessage (Some m))) then None
      else if MsgType_eqb (cm_MsgType m) RESPONSE then None
      else
        let ctx := rb_messageContext (rc_now c) m in
        let result :=
          if negb (String.eqb (cm_TargetPath m) EmptyString) then
            if MsgType_eqb (cm_MsgType m) NOTIFY then rc_NotifyTarget c ctx (cm_TargetPath m) (cm_MethodId m) (PBytes (cm_Payload m))
            else rc_InvokeTarget c ctx (cm_TargetPath m) (cm_MethodId m) (PBytes (cm_Payload m))
          else match rc_Dispatch c with
               | None => Some (ErrorResult STATUS_UNAVAILABLE "method table is not configured")
               | Some dispatch => dispatch ctx (cm_MethodId m) (cm_Payload m) (cm_MsgType m)
               end in
        let result := match result with Some r => r | None => ErrorResult STATUS_INTERNAL "dispatcher returned nil result" end in
        rb_reply (rc_codecs c) message m (Some ctx) result
  end.

(** src/net/cluster/rabbitmq_cluster/cluster.go:459-468, Cluster.nodeRoutingKey *)
Definition rb_nodeRoutingKey (prefix : str) (GetType : str -> res str) (nodeID : str) : res str :=
  if String.eqb nodeID EmptyString then Err "actorgo cluster: node id is required"
  else match GetType nodeID with
       | Err e => Err (String.append "actorgo cluster: node not found: " e)
       | Ok nodeType => Ok (GetRemoteRoutingKey prefix nodeType nodeID)
       end.

(** Up to its publication: the key and the encoded message. *)
(** src/net/cluster/rabbitmq_cluster/cluster.go:398-410, Cluster.Request *)
Definition rb_outgoing (prefix : str) (GetType : str -> res str) (nodeID : str) (message : option ClusterMessage) : res (str * bytes) :=
  routingKey <-? rb_nodeRoutingKey prefix GetType nodeID ;;
  rb_validateMessage message ;;?
  match message with
  | None => Err "unreachable"
  | Some m => match cm_Marshal m with
              | Err e => Err (String.append "actorgo cluster: marshal message: " e)
              | Ok data => Ok (routingKey, data)
              end
  end.

(** src/net/cluster/rabbitmq_cluster/cluster.go:426-433, Cluster.Request *)
Definition rb_response (message : ClusterMessage) (resp : delivery) : res ClusterMessage :=
  match cm_Unmarshal (dl_Body resp) with
  | Err e => Err (String.append "actorgo cluster: unmarshal response: " e)
  | Ok response =>
      if negb (MsgType_eqb (cm_MsgType response) RESPONSE) || negb (cm_MessageId response =? cm_MessageId message)
      then Err "actorgo cluster: response correlation mismatch"
      else Ok response
  end.
End Messages.

(** ** The network *)

(** Where a goroutine in [Request] stands: it has its number and its channel; it stored the
    channel; it waits in the select; it has its result and is about to run its deferred
    [Delete]; it returned. *)
Inductive rb_pc := RbNumbered | RbStored | RbWaiting | RbLeaving (r : res ClusterMessage) | RbDone (r : res ClusterMessage).

(** A call of [Request]: the node, the message, the key and the encoded message, its
    correlation identifier, the buffer of its channel, of capacity 1. *)
Record rb_request := mkRbRequest {
  rr_to : str; rr_msg : ClusterMessage; rr_key : str; rr_data : bytes; rr_corr : str; rr_ch : list delivery; rr_at : rb_pc }.

(** Where [watchConnection] stands: waiting for the connection to close; at the head of its
    loop of attempts; connecting; returned. *)
Inductive watch_pc := WatchNotify | WatchHead | WatchConnect | WatchGone.

(** A node. [rn_held]: what the reply pumps hold between taking a waiter and sending to it
    (an old pump may still hold one when the next connection has its own). [rn_ch]: the
    channel is set. [rn_closed]: [Stop] has returned. *)
(** src/net/cluster/rabbitmq_cluster/cluster.go:23-51, Cluster *)
Record rb_node := mkRbNode {
  rn_type : str; rn_seq : Z; rn_waiters : gmap str nat; rn_requests : list rb_request; rn_held : list (nat * delivery);
  rn_work : workq delivery; rn_ch : bool; rn_watch : watch_pc; rn_closed : bool }.

(** How a reply came about: the call of [process], or the rejection of a message. *)
Inductive rb_how := Processed (c : rb_calls) | Overloaded.

(** A reply that was published: by which node, to which message. *)
Record rb_answer := mkRbAnswer { an_node : str; an_request : delivery; an_how : rb_how; an_reply : delivery }.

(** The nodes, the messages in the broker, the replies published so far; whether a process
    was started under an identifier that another had before. *)
Record rb_net := mkRbNet { rb_nodes : gmap str rb_node; rb_bus : list delivery; rb_answers : list rb_answer; rb_restarted : bool }.
Definition empty_rb : rb_net := mkRbNet ∅ [] [] false.

Definition set_requests (l : list rb_request) (n : rb_node) : rb_node :=
  mkRbNode (rn_type n) (rn_seq n) (rn_waiters n) l (rn_held n) (rn_work n) (rn_ch n) (rn_watch n) (rn_closed n).
Definition rb_set_waiters (w : gmap str nat) (n : rb_node) : rb_node :=
  mkRbNode (rn_type n) (rn_seq n) w (rn_requests n) (rn_held n) (rn_work n) (rn_ch n) (rn_watch n) (rn_closed n).
Definition set_held (h : list (nat * delivery)) (n : rb_node) : rb_node :=
  mkRbNode (rn_type n) (rn_seq n) (rn_waiters n) (rn_requests n) h (rn_work n) (rn_ch n) (rn_watch n) (rn_closed n).
Definition set_work (q : workq delivery) (n : rb_node) : rb_node :=
  mkRbNode (rn_type n) (rn_seq n) (rn_waiters n) (rn_requests n) (rn_held n) q (rn_ch n) (rn_watch n) (rn_closed n).
Definition set_conn (ch : bool) (w : watch_pc) (closed : bool) (n : rb_node) : rb_node :=
  mkRbNode (rn_type n) (rn_seq n) (rn_waiters n) (rn_requests n) (rn_held n) (rn_work n) ch w closed.
Definition rr_set (pc : rb_pc) (r : rb_request) : rb_request :=
  mkRbRequest (rr_to r) (rr_msg r) (rr_key r) (rr_data r) (rr_corr r) (rr_ch r) pc.
Definition rr_send (ch : list delivery) (r : rb_request) : rb_request :=
  mkRbRequest (rr_to r) (rr_msg r) (rr_key r) (rr_data r) (rr_corr r) ch (rr_at r).
Definition put_node (x : str) (n : rb_node) (s : rb_net) : rb_net := mkRbNet (<[x := n]> (rb_nodes s)) (rb_bus s) (rb_answers s) (rb_restarted s).
Definition add_bus (l : list delivery) (s : rb_net) : rb_net := mkRbNet (rb_nodes s) (rb_bus s ++ l) (rb_answers s) (rb_restarted s).
Definition add_answers (l : list rb_answer) (s : rb_net) : rb_net := mkRbNet (rb_nodes s) (rb_bus s) (rb_answers s ++ l) (rb_restarted s).
Definition mark_start (x : str) (s : rb_net) : rb_net :=
  mkRbNet (rb_nodes s) (rb_bus s) (rb_answers s) (rb_restarted s || bool_decide (is_Some (rb_nodes s !! x))).

Section Net.
Context `{ClusterProto}.
Variable prefix : str.
Variable GetType : str -> res str.

(** [ok]: the client's publication succeeds. *)
(** src/net/cluster/rabbitmq_cluster/cluster.go:441-457, Cluster.publish *)
Definition rb_publish (n : rb_node) (ok : bool) (m : delivery) : res (list delivery) :=
  if negb (rn_ch n) then Err "rabbitmq channel is not ready"
  else if ok then Ok [m] else Err "publish failed".

(** In a process that has just been started under the identifier [x]; one that had it before
    is gone. *)
(** src/net/cluster/rabbitmq_cluster/cluster.go:59-92, Cluster.Init *)
Definition rb_Init (x nodeType : str) (workerCount queueSize : Z) (dial_ok : bool) (s : rb_net) : option rb_net :=
  q ← Cluster_Init workerCount queueSize;
  if dial_ok then Some (put_node x (mkRbNode nodeType 0 ∅ [] [] q true WatchNotify false) (mark_start x s)) else None.

(** src/net/cluster/rabbitmq_cluster/cluster.go:379-395, Cluster.Publish *)
Definition rb_Publish (x nodeID : str) (message : option ClusterMessage) (ok : bool) (s : rb_net) : option (rb_net * res unit) :=
  n ← rb_nodes s !! x;
  Some match rb_outgoing prefix GetType nodeID message with
       | Err e => (s, Err e)
       | Ok (key, data) => match rb_publish n ok (mkDelivery key data EmptyString EmptyString) with
                           | Err e => (s, Err (String.append "actorgo cluster: publish: " e))
                           | Ok l => (add_bus l s, Ok tt)
                           end
       end.

(** A call that passes its checks takes its number. *)
(** src/net/cluster/rabbitmq_cluster/cluster.go:398-415, Cluster.Request *)
Definition rb_Request_start (x nodeID : str) (message : ClusterMessage) (s : rb_net) : option rb_net :=
  n ← rb_nodes s !! x;
  match rb_outgoing prefix GetType nodeID (Some message) with
  | Err _ => None
  | Ok (key, data) =>
      let seq := u64 (rn_seq n + 1) in
      Some (put_node x (mkRbNode (rn_type n) seq (rn_waiters n)
        (rn_requests n ++ [mkRbRequest nodeID message key data (format_uint 10 seq) [] RbNumbered]) (rn_held n) (rn_work n) (rn_ch n) (rn_watch n) (rn_closed n)) s)
  end.

(** src/net/cluster/rabbitmq_cluster/cluster.go:416-416, Cluster.Request *)
Definition rb_Request_store (x : str) (i : nat) (s : rb_net) : option rb_net :=
  n ← rb_nodes s !! x; r ← rn_requests n !! i;
  match rr_at r with
  | RbNumbered => Some (put_node x (rb_set_waiters (<[rr_corr r := i]> (rn_waiters n)) (set_requests (<[i := rr_set RbStored r]> (rn_requests n)) n)) s)
  | _ => None
  end.

(** src/net/cluster/rabbitmq_cluster/cluster.go:419-421, Cluster.Request *)
Definition rb_Request_publish (x : str) (i : nat) (ok : bool) (s : rb_net) : option rb_net :=
  n ← rb_nodes s !! x; r ← rn_requests n !! i;
  match rr_at r with
  | RbStored =>
      match rb_publish n ok (mkDelivery (rr_key r) (rr_data r) (GetReplyRoutingKey prefix (rn_type n) x) (rr_corr r)) with
      | Ok l => Some (add_bus l (put_node x (set_requests (<[i := rr_set RbWaiting r]> (rn_requests n)) n) s))
      | Err e => Some (put_node x (set_requests (<[i := rr_set (RbLeaving (Err (String.append "actorgo cluster: request: " e))) r]> (rn_requests n)) n) s)
      end
  | _ => None
  end.

(** src/net/cluster/rabbitmq_cluster/cluster.go:425-433, Cluster.Request *)
Definition rb_Request_receive (x : str) (i : nat) (s : rb_net) : option rb_net :=
  n ← rb_nodes s !! x; r ← rn_requests n !! i;
  match rr_at r, rr_ch r with
  | RbWaiting, resp :: ch =>
      Some (put_node x (set_requests (<[i := rr_set (RbLeaving (rb_response (rr_msg r) resp)) (rr_send ch r)]> (rn_requests n)) n) s)
  | _, _ => None
  end.

(** src/net/cluster/rabbitmq_cluster/cluster.go:434-436, Cluster.Request *)
Definition rb_Request_timeout (x : str) (i : nat) (s : rb_net) : option rb_net :=
  n ← rb_nodes s !! x; r ← rn_requests n !! i;
  match rr_at r with
  | RbWaiting => Some (put_node x (set_requests (<[i := rr_set (RbLeaving (Err "cluster request timeout")) r]> (rn_requests n)) n) s)
  | _ => None
  end.

(** src/net/cluster/rabbitmq_cluster/cluster.go:417-417, Cluster.Request *)
Definition rb_Request_return (x : str) (i : nat) (s : rb_net) : option rb_net :=
  n ← rb_nodes s !! x; r ← rn_requests n !! i;
  match rr_at r with
  | RbLeaving res => Some (put_node x (rb_set_waiters (delete (rr_corr r) (rn_waiters n)) (set_requests (<[i := rr_set (RbDone res) r]> (rn_requests n)) n)) s)
  | _ => None
  end.

(** The reply to a message, when there is one and it is published. *)
Definition rb_answer_with (x : str) (d : delivery) (how : rb_how) (reply : option delivery) (ok : bool) (s : rb_net) : rb_net :=
  match rb_nodes s !! x, reply with
  | Some n, Some reply => match rb_publish n ok reply with
      | Ok l => add_answers [mkRbAnswer x d how reply] (add_bus l s)
      | Err _ => s
      end
  | _, _ => s
  end.

(** src/net/cluster/rabbitmq_cluster/cluster.go:230-242, Cluster.pumpRemote *)
Definition rb_pumpRemote (x : str) (d : delivery) (ok : bool) (s : rb_net) : option rb_net :=
  n ← rb_nodes s !! x;
  let q := Cluster_enqueue d (rn_work n) in
  let s' := put_node x (set_work q n) s in
  Some (if negb (wq_stopping (rn_work n)) && negb (Nat.ltb (length (wq_work (rn_work n))) (wq_cap (rn_work n)))
        then rb_answer_with x d Overloaded (rb_rejectOverload d) ok s' else s').

(** src/net/cluster/rabbitmq_cluster/cluster.go:244-257, Cluster.pumpReply *)
Definition rb_pumpReply_load (x : str) (d : delivery) (s : rb_net) : option rb_net :=
  n ← rb_nodes s !! x;
  if String.eqb (dl_CorrelationId d) EmptyString then Some s
  else match rn_waiters n !! dl_CorrelationId d with
       | Some i => Some (put_node x (set_held (rn_held n ++ [(i, d)]) (rb_set_waiters (delete (dl_CorrelationId d) (rn_waiters n)) n)) s)
       | None => Some s
       end.

(** src/net/cluster/rabbitmq_cluster/cluster.go:258-263, Cluster.pumpReply *)
Definition rb_pumpReply_send (x : str) (k : nat) (s : rb_net) : option rb_net :=
  n ← rb_nodes s !! x; '(i, d) ← rn_held n !! k; r ← rn_requests n !! i;
  let r := if (length (rr_ch r) <? 1)%nat then rr_send (rr_ch r ++ [d]) r else r in
  Some (put_node x (set_held (delete k (rn_held n)) (set_requests (<[i := r]> (rn_requests n)) n)) s).

(** The broker hands a message to the node whose queue its key names. *)
Definition rb_deliver (k : nat) (x : str) (ok : bool) (s : rb_net) : option rb_net :=
  d ← rb_bus s !! k; n ← rb_nodes s !! x;
  let s' := mkRbNet (rb_nodes s) (delete k (rb_bus s)) (rb_answers s) (rb_restarted s) in
  if String.eqb (dl_RoutingKey d) (GetRemoteRoutingKey prefix (rn_type n) x) then rb_pumpRemote x d ok s'
  else if String.eqb (dl_RoutingKey d) (GetReplyRoutingKey prefix (rn_type n) x) then rb_pumpReply_load x d s'
  else None.

(** A worker's step; when it finishes a message it publishes the reply. *)
(** src/net/cluster/rabbitmq_cluster/cluster.go:281-298, Cluster.worker *)
Definition rb_worker (x : str) (j : nat) (st : worker_step) (c : rb_calls) (ok : bool) (s : rb_net) : option rb_net :=
  n ← rb_nodes s !! x; q ← Cluster_worker j st (rn_work n);
  let s' := put_node x (set_work q n) s in
  match st, wq_workers (rn_work n) !! j with
  | WFinish, Some (WBusy d _) => Some (rb_answer_with x d (Processed c) (rb_process c d) ok s')
  | _, _ => Some s'
  end.

(** src/net/cluster/rabbitmq_cluster/cluster.go:97-102, Cluster.Stop *)
Definition rb_Stop_flag (x : str) (s : rb_net) : option rb_net :=
  n ← rb_nodes s !! x; Some (put_node x (set_work (Cluster_Stop_flag (rn_work n)) n) s).
(** src/net/cluster/rabbitmq_cluster/cluster.go:103-104, Cluster.Stop *)
Definition rb_Stop_close (x : str) (s : rb_net) : option rb_net :=
  n ← rb_nodes s !! x; q ← Cluster_Stop_close (rn_work n); Some (put_node x (set_work q n) s).
(** [workerWG.Wait] has returned. *)
(** src/net/cluster/rabbitmq_cluster/cluster.go:105-109, Cluster.Stop *)
Definition rb_Stop_end (x : str) (s : rb_net) : option rb_net :=
  n ← rb_nodes s !! x;
  if wq_stopped (rn_work n) && forallb (fun w => match w with WGone => true | _ => false end) (wq_workers (rn_work n))
  then Some (put_node x (set_conn false (rn_watch n) true n) s) else None.

(** Steps of [watchConnection]: the connection is closed by the other side; [stop] is seen,
    or not, at the head of the inner loop; an attempt to connect, which closes what is left
    of the old connection. *)
Inductive watch_step := WatchLost | WatchStop | WatchGo | WatchDial (ok : bool).

(** src/net/cluster/rabbitmq_cluster/cluster.go:187-228, Cluster.watchConnection *)
Definition rb_watch (x : str) (w : watch_step) (s : rb_net) : option rb_net :=
  n ← rb_nodes s !! x;
  match w, rn_watch n with
  | WatchLost, WatchNotify => Some (put_node x (set_conn (rn_ch n) (if wq_stopping (rn_work n) then WatchGone else WatchHead) (rn_closed n) n) s)
  | WatchStop, WatchNotify | WatchStop, WatchHead =>
      if wq_stopped (rn_work n) then Some (put_node x (set_conn (rn_ch n) WatchGone (rn_closed n) n) s) else None
  | WatchGo, WatchHead => if wq_stopped (rn_work n) then None else Some (put_node x (set_conn (rn_ch n) WatchConnect (rn_closed n) n) s)
  | WatchDial ok, WatchConnect => Some (put_node x (set_conn ok (if ok then WatchNotify else WatchHead) (rn_closed n) n) s)
  | _, _ => None
  end.

Inductive rb_action :=
| RbInit (x nodeType : str) (workers size : Z) | RbPublish (x nodeID : str) (m : option ClusterMessage) (ok : bool)
| RbStart (x nodeID : str) (m : ClusterMessage) | RbStore (x : str) (i : nat) | RbSend (x : str) (i : nat) (ok : bool)
| RbReceive (x : str) (i : nat) | RbTimeout (x : str) (i : nat) | RbReturn (x : str) (i : nat)
| RbDeliver (k : nat) (x : str) (ok : bool) | RbLose (k : nat) | RbReply (x : str) (k : nat)
| RbWorker (x : str) (j : nat) (st : worker_step) (c : rb_calls) (ok : bool)
| RbStopFlag (x : str) | RbStopClose (x : str) | RbStopEnd (x : str) | RbWatch (x : str) (w : watch_step).

(** src/net/cluster/rabbitmq_cluster/cluster.go:379-457, Cluster *)
Definition exec_rb (a : rb_action) (s : rb_net) : option rb_net :=
  match a with
  | RbInit x ty workers size => rb_Init x ty workers size true s
  | RbPublish x id m ok => fst <$> rb_Publish x id m ok s
  | RbStart x id m => rb_Request_start x id m s
  | RbStore x i => rb_Request_store x i s
  | RbSend x i ok => rb_Request_publish x i ok s
  | RbReceive x i => rb_Request_receive x i s
  | RbTimeout x i => rb_Request_timeout x i s
  | RbReturn x i => rb_Request_return x i s
  | RbDeliver k x ok => rb_deliver k x ok s
  | RbLose k => _ ← rb_bus s !! k; Some (mkRbNet (rb_nodes s) (delete k (rb_bus s)) (rb_answers s) (rb_restarted s))
  | RbReply x k => rb_pumpReply_send x k s
  | RbWorker x j st c ok => rb_worker x j st c ok s
  | RbStopFlag x => rb_Stop_flag x s
  | RbStopClose x => rb_Stop_close x s
  | RbStopEnd x => rb_Stop_end x s
  | RbWatch x w => rb_watch x w s
  end.

Definition run_rb (l : list rb_action) (s : rb_net) : option rb_net := foldl (fun s a => s ≫= exec_rb a) (Some s) l.

Inductive rb_reach : rb_net -> Prop :=
| rb_start : rb_reach empty_rb
| rb_step s a s' : rb_reach s -> exec_rb a s = Some s' -> rb_reach s'.
End Net.
