(* ===== verification/RabbitInv.v ===== *)
(** What holds of the runs of [Rabbit]: a request is answered by the node it was sent to,
    from that very message; the two transports treat a message alike; and a run in which a
    node that was stopped keeps a connection. *)
From S2P Require Import Prelude Strconv Facade Context Serializer Method Actor ActorSystem Agp Cluster Nats Rabbit.
#[local] Set Warnings "-clear-no-such-hyp".

(** ** Keys *)

Lemma dot_split_inj (t1 t2 x1 x2 : str) : str_mem "." t1 = false -> str_mem "." t2 = false ->
  String.append t1 (String.append DOT x1) = String.append t2 (String.append DOT x2) -> t1 = t2 /\ x1 = x2.
Proof.
  intros H1 H2 E. change (String.append DOT x1) with (String "." x1) in E. change (String.append DOT x2) with (String "." x2) in E.
  pose proof (f_equal (split_on ".") E) as S. rewrite !split_on_app in S by done. injection S as -> _. apply str_append_inj in E. by injection E.
Qed.

Lemma remote_key_inj prefix t1 t2 x1 x2 : str_mem "." t1 = false -> str_mem "." t2 = false ->
  GetRemoteRoutingKey prefix t1 x1 = GetRemoteRoutingKey prefix t2 x2 -> t1 = t2 /\ x1 = x2.
Proof. intros H1 H2 E. unfold GetRemoteRoutingKey in E. do 3 apply str_append_inj in E. by apply dot_split_inj. Qed.

Lemma reply_key_inj prefix t1 t2 x1 x2 : str_mem "." t1 = false -> str_mem "." t2 = false ->
  GetReplyRoutingKey prefix t1 x1 = GetReplyRoutingKey prefix t2 x2 -> t1 = t2 /\ x1 = x2.
Proof. intros H1 H2 E. unfold GetReplyRoutingKey in E. do 3 apply str_append_inj in E. by apply dot_split_inj. Qed.

Lemma remote_not_reply prefix t1 t2 x1 x2 : GetRemoteRoutingKey prefix t1 x1 <> GetReplyRoutingKey prefix t2 x2.
Proof. unfold GetRemoteRoutingKey, GetReplyRoutingKey. intros E. do 2 apply str_append_inj in E. discriminate E. Qed.

Section Inv.
Context `{ClusterProto}.
Variable prefix : str.
Variable GetType : str -> res str.
(** Node types, which make up the middle of a key, hold no dot. *)
Hypothesis types_plain : forall id t, GetType id = Ok t -> str_mem "." t = false.

(** ** Steps only add *)

Definition same_call (r r' : rb_request) : Prop :=
  rr_to r' = rr_to r /\ rr_msg r' = rr_msg r /\ rr_key r' = rr_key r /\ rr_data r' = rr_data r /\ rr_corr r' = rr_corr r.
Definition node_grows (n n' : rb_node) : Prop :=
  rn_type n' = rn_type n /\ forall i r, rn_requests n !! i = Some r -> exists r', rn_requests n' !! i = Some r' /\ same_call r r'.
Definition rb_grows (s s' : rb_net) : Prop :=
  (forall x n, rb_nodes s !! x = Some n -> exists n', rb_nodes s' !! x = Some n' /\ node_grows n n') /\
  (forall h, h ∈ rb_answers s -> h ∈ rb_answers s') /\ (rb_restarted s' = false -> rb_restarted s = false).

Lemma same_call_refl r : same_call r r.
Proof. done. Qed.

Lemma node_grows_refl n : node_grows n n.
Proof. split; [done|]. intros i r Hr. by exists r. Qed.

Lemma node_grows_trans a b c : node_grows a b -> node_grows b c -> node_grows a c.
Proof.
  intros [T1 G1] [T2 G2]. split; [congruence|]. intros i r Hr. destruct (G1 i r Hr) as (r1 & H1 & S1). destruct (G2 i r1 H1) as (r2 & H2 & S2).
  exists r2. split; [done|]. unfold same_call in *. intuition congruence.
Qed.

Lemma rb_grows_refl s : rb_grows s s.
Proof. split; [|done]. intros x n Hn. exists n. split; [done|apply node_grows_refl]. Qed.

Lemma rb_grows_trans a b c : rb_grows a b -> rb_grows b c -> rb_grows a c.
Proof.
  intros (G1 & A1 & S1) (G2 & A2 & S2). split; [|by auto]. intros x n Hn. destruct (G1 x n Hn) as (n1 & H1 & N1). destruct (G2 x n1 H1) as (n2 & H2 & N2).
  exists n2. split; [done|]. by apply (node_grows_trans n n1).
Qed.

Lemma grows_put x n n' s : rb_nodes s !! x = Some n -> node_grows n n' -> rb_grows s (put_node x n' s).
Proof.
  intros Hx G. split; [|done]. intros y m Hy. simpl. destruct (decide (y = x)) as [->|Hne].
  - rewrite lookup_insert_eq. rewrite Hx in Hy. injection Hy as <-. by exists n'.
  - rewrite lookup_insert_ne by done. exists m. split; [done|apply node_grows_refl].
Qed.

Lemma grows_put_same x n n' s : rb_nodes s !! x = Some n -> rn_type n' = rn_type n -> rn_requests n' = rn_requests n -> rb_grows s (put_node x n' s).
Proof. intros Hx Ht Hr. apply (grows_put x n); [done|]. split; [done|]. rewrite Hr. intros i r Hi. by exists r. Qed.

Lemma node_grows_set i r r' n n' : rn_requests n !! i = Some r -> same_call r r' -> rn_type n' = rn_type n ->
  rn_requests n' = <[i := r']> (rn_requests n) -> node_grows n n'.
Proof.
  intros Hi Hs Ht Hr. split; [done|]. intros j x Hj. rewrite Hr. destruct (decide (j = i)) as [->|Hne].
  - rewrite list_lookup_insert_eq by (by eapply lookup_lt_Some). rewrite Hi in Hj. injection Hj as <-. by exists r'.
  - rewrite list_lookup_insert_ne by done. by exists x.
Qed.

Lemma grows_answer x d how reply ok s : rb_grows s (rb_answer_with x d how reply ok s).
Proof.
  unfold rb_answer_with. destruct (rb_nodes s !! x), reply; try apply rb_grows_refl. destruct (rb_publish _ _ _); [|apply rb_grows_refl].
  split; [|split; [intros h Hh; simpl; apply elem_of_app; by left|done]]. intros y n Hy. exists n. split; [done|apply node_grows_refl].
Qed.

Lemma grows_same_nodes s s' : rb_nodes s' = rb_nodes s -> rb_answers s' = rb_answers s -> rb_restarted s' = rb_restarted s -> rb_grows s s'.
Proof. intros E1 E2 E3. split; [|by rewrite E2, E3]. rewrite E1. intros x n Hn. exists n. split; [done|apply node_grows_refl]. Qed.

#[local] Hint Resolve same_call_refl node_grows_refl rb_grows_refl grows_answer : core.

Ltac node_of E := match type of E with
  | (mbind _ (rb_nodes ?s !! ?x)) = _ => let n := fresh "n" in let Hn := fresh "Hn" in destruct (rb_nodes s !! x) as [n|] eqn:Hn; cbn [mbind option_bind] in E; [|done]
  end.
Ltac request_of_step E := match type of E with
  | (mbind _ (rn_requests ?n !! ?i)) = _ => let r := fresh "r" in let Hr := fresh "Hr" in destruct (rn_requests n !! i) as [r|] eqn:Hr; cbn [mbind option_bind] in E; [|done]
  end.

Ltac grow_set i r := eapply (node_grows_set i r); [eassumption| |reflexivity|reflexivity]; done.

Lemma grows_deliver k x ok s s' : rb_deliver prefix k x ok s = Some s' -> rb_grows s s'.
Proof.
  unfold rb_deliver. intros E. destruct (rb_bus s !! k) as [d|]; cbn [mbind option_bind] in E; [|done]. node_of E.
  case_if_in E; [|case_if_in E; [|done]].
  - unfold rb_pumpRemote in E. simpl in E. rewrite Hn in E. cbn [mbind option_bind] in E. injection E as <-.
    assert (G : rb_grows s (put_node x (set_work (Cluster_enqueue d (rn_work n)) n) (mkRbNet (rb_nodes s) (delete k (rb_bus s)) (rb_answers s) (rb_restarted s)))).
    { apply (rb_grows_trans _ (mkRbNet (rb_nodes s) (delete k (rb_bus s)) (rb_answers s) (rb_restarted s))); [by apply grows_same_nodes|]. by apply (grows_put_same x n). }
    destruct (_ && _); [|done]. eapply rb_grows_trans; [exact G|apply grows_answer].
  - unfold rb_pumpReply_load in E. simpl in E. rewrite Hn in E. cbn [mbind option_bind] in E.
    case_if_in E; [injection E as <-; by apply grows_same_nodes|]. destruct (rn_waiters n !! _); injection E as <-; [|by apply grows_same_nodes].
    apply (rb_grows_trans _ (mkRbNet (rb_nodes s) (delete k (rb_bus s)) (rb_answers s) (rb_restarted s))); [by apply grows_same_nodes|]. by apply (grows_put_same x n).
Qed.

(** Unless it starts an identifier again. *)
Definition start_ok (a : rb_action) (s' : rb_net) : Prop := match a with RbInit _ _ _ _ => rb_restarted s' = false | _ => True end.

Lemma exec_rb_grows a s s' : start_ok a s' -> exec_rb prefix GetType a s = Some s' -> rb_grows s s'.
Proof.
  intros H0 E. destruct a; cbn [exec_rb] in E.
  - unfold rb_Init in E. destruct (Cluster_Init _ _); cbn [mbind option_bind] in E; [|done]. injection E as <-.
    simpl in H0. apply orb_false_iff in H0 as [H1 Hx%bool_decide_eq_false]. split; [|done]. intros y m Hy. simpl. rewrite lookup_insert_ne by (intros <-; apply Hx; by eexists). exists m. split; [done|apply node_grows_refl].
  - unfold rb_Publish in E. destruct (rb_nodes s !! x) as [n|]; cbn [mbind option_bind fmap option_fmap option_map] in E; [|done]. injection E as <-.
    destruct (rb_outgoing _ _ _ _) as [[key data]|]; [|apply rb_grows_refl]. destruct (rb_publish _ _ _); [|apply rb_grows_refl]. by apply grows_same_nodes.
  - unfold rb_Request_start in E. node_of E. destruct (rb_outgoing _ _ _ _) as [[key data]|]; [|done]. injection E as <-.
    apply (grows_put x n); [done|]. split; [done|]. intros j r Hr. simpl. exists r. split; [by apply lookup_app_l_Some|done].
  - unfold rb_Request_store in E. node_of E. request_of_step E. destruct (rr_at r); try done. injection E as <-. apply (grows_put x n); [done|]. grow_set i r.
  - unfold rb_Request_publish in E. node_of E. request_of_step E. destruct (rr_at r); try done. destruct (rb_publish _ _ _); injection E as <-.
    + apply (rb_grows_trans _ (put_node x (set_requests (<[i:=rr_set RbWaiting r]> (rn_requests n)) n) s)); [|by apply grows_same_nodes].
      apply (grows_put x n); [done|]. grow_set i r.
    + apply (grows_put x n); [done|]. grow_set i r.
  - unfold rb_Request_receive in E. node_of E. request_of_step E. destruct (rr_at r); try done. destruct (rr_ch r); [done|]. injection E as <-.
    apply (grows_put x n); [done|]. grow_set i r.
  - unfold rb_Request_timeout in E. node_of E. request_of_step E. destruct (rr_at r); try done. injection E as <-. apply (grows_put x n); [done|]. grow_set i r.
  - unfold rb_Request_return in E. node_of E. request_of_step E. destruct (rr_at r); try done. injection E as <-. apply (grows_put x n); [done|]. grow_set i r.
  - by apply (grows_deliver k x ok).
  - destruct (rb_bus s !! k); cbn [mbind option_bind] in E; [|done]. injection E as <-. by apply grows_same_nodes.
  - unfold rb_pumpReply_send in E. node_of E. destruct (rn_held n !! k) as [[i d]|]; cbn [mbind option_bind] in E; [|done]. request_of_step E. injection E as <-.
    apply (grows_put x n); [done|]. eapply (node_grows_set i r); [exact Hr| |reflexivity|reflexivity]. by destruct (_ <? _)%nat.
  - unfold rb_worker in E. node_of E. destruct (Cluster_worker _ _ _); cbn [mbind option_bind] in E; [|done].
    assert (G : rb_grows s (put_node x (set_work w n) s)) by (by apply (grows_put_same x n)).
    destruct st; try (injection E as <-; exact G). destruct (wq_workers (rn_work n) !! j) as [[]|]; injection E as <-; try exact G.
    eapply rb_grows_trans; [exact G|apply grows_answer].
  - unfold rb_Stop_flag in E. node_of E. injection E as <-. by apply (grows_put_same x n).
  - unfold rb_Stop_close in E. node_of E. destruct (Cluster_Stop_close _); cbn [mbind option_bind] in E; [|done]. injection E as <-. by apply (grows_put_same x n).
  - unfold rb_Stop_end in E. node_of E. case_if_in E; [|done]. injection E as <-. by apply (grows_put_same x n).
  - unfold rb_watch in E. node_of E. destruct w, (rn_watch n); try done; try (case_if_in E; try done); injection E as <-; by apply (grows_put_same x n).
Qed.

(** ** The invariant *)

(** What a request publishes. *)
Definition rr_delivery (x : str) (n : rb_node) (r : rb_request) : delivery :=
  mkDelivery (rr_key r) (rr_data r) (GetReplyRoutingKey prefix (rn_type n) x) (rr_corr r).

(** A message to [y]: one-way, or a request's. *)
Definition request_of (s : rb_net) (y : str) (d : delivery) : Prop :=
  dl_ReplyTo d = EmptyString \/
  exists x n i r, rb_nodes s !! x = Some n /\ rn_requests n !! i = Some r /\ rr_to r = y /\ d = rr_delivery x n r.

(** [d] was published by [y] as a reply to [d0]. *)
Definition answered (s : rb_net) (y : str) (d0 d : delivery) : Prop :=
  exists h, h ∈ rb_answers s /\ an_node h = y /\ an_request h = d0 /\ an_reply h = d.

Definition made (h : rb_answer) : Prop :=
  match an_how h with
  | Processed c => rb_process c (an_request h) = Some (an_reply h)
  | Overloaded => rb_rejectOverload (an_request h) = Some (an_reply h)
  end.

Definition bus_ok (s : rb_net) (d : delivery) : Prop :=
  (exists y t, GetType y = Ok t /\ dl_RoutingKey d = GetRemoteRoutingKey prefix t y /\ request_of s y d) \/
  (exists x n i r, rb_nodes s !! x = Some n /\ rn_requests n !! i = Some r /\ dl_RoutingKey d = GetReplyRoutingKey prefix (rn_type n) x /\
     dl_CorrelationId d = rr_corr r /\ dl_ReplyTo d = EmptyString /\ answered s (rr_to r) (rr_delivery x n r) d).

Record req_ok (s : rb_net) (x : str) (n : rb_node) (i : nat) (r : rb_request) : Prop := {
  rq_corr : rr_corr r = format_uint 10 (Z.of_nat i + 1);
  rq_key : exists t, GetType (rr_to r) = Ok t /\ rr_key r = GetRemoteRoutingKey prefix t (rr_to r);
  rq_data : cm_Marshal (rr_msg r) = Ok (rr_data r);
  rq_chan : Forall (answered s (rr_to r) (rr_delivery x n r)) (rr_ch r);
  rq_result : match rr_at r with
    | RbLeaving (Ok m) | RbDone (Ok m) => exists d, answered s (rr_to r) (rr_delivery x n r) d /\ rb_response (rr_msg r) d = Ok m
    | _ => True
    end }.

(** It is in the work queue or in a worker's hand; or it was accepted or rejected before. *)
Definition at_work (q : workq delivery) (d : delivery) : Prop := d ∈ wq_work q \/ d ∈ in_hand q.
Definition works (q : workq delivery) (d : delivery) : Prop := at_work q d \/ d ∈ wq_accepted q ++ wq_rejected q.

Record rb_node_ok (s : rb_net) (x : str) (n : rb_node) : Prop := {
  bn_seq : rn_seq n = Z.of_nat (length (rn_requests n));
  bn_req : forall i r, rn_requests n !! i = Some r -> req_ok s x n i r;
  bn_wait : forall (k : str) (i : nat), rn_waiters n !! k = Some i -> exists r, rn_requests n !! i = Some r /\ rr_corr r = k;
  bn_held : forall i d, (i, d) ∈ rn_held n -> exists r, rn_requests n !! i = Some r /\ answered s (rr_to r) (rr_delivery x n r) d;
  bn_work : forall d, works (rn_work n) d -> request_of s x d }.

Record rb_inv (s : rb_net) : Prop := {
  ri_node : forall x n, rb_nodes s !! x = Some n -> rb_node_ok s x n;
  ri_bus : forall d, d ∈ rb_bus s -> bus_ok s d;
  ri_answers : forall h, h ∈ rb_answers s -> made h }.

Lemma same_delivery x n n' r r' : rn_type n' = rn_type n -> same_call r r' -> rr_delivery x n' r' = rr_delivery x n r.
Proof. intros Ht (_ & _ & E1 & E2 & E3). unfold rr_delivery. congruence. Qed.

Lemma answered_grows s s' y d0 d : rb_grows s s' -> answered s y d0 d -> answered s' y d0 d.
Proof. intros [_ G] (h & Hh & ?). exists h. split; [by apply G|done]. Qed.

Lemma request_grows s s' y d : rb_grows s s' -> request_of s y d -> request_of s' y d.
Proof.
  intros [G _] [?|(x & n & i & r & Hn & Hr & Hy & ->)]; [by left|right]. destruct (G x n Hn) as (n' & Hn' & Ht & Gn). destruct (Gn i r Hr) as (r' & Hr' & S).
  exists x, n', i, r'. split; [done|]. split; [done|]. split; [by rewrite (proj1 S)|by rewrite (same_delivery x n n' r r' Ht S)].
Qed.

Lemma bus_grows s s' d : rb_grows s s' -> bus_ok s d -> bus_ok s' d.
Proof.
  intros G [(y & t & Ht & Hk & Hd)|(x & n & i & r & Hn & Hr & Hk & Hc & Hp & Ha)]; [left; exists y, t; split_and!; [done..|by apply (request_grows s)]|right].
  destruct (proj1 G x n Hn) as (n' & Hn' & Ht & Gn). destruct (Gn i r Hr) as (r' & Hr' & S).
  exists x, n', i, r'. rewrite Ht, (same_delivery x n n' r r' Ht S), (proj1 S). split_and!; try done; [|by apply (answered_grows s)].
  destruct S as (_ & _ & _ & _ & ->). done.
Qed.

Lemma req_ok_grows s s' x n n' i r : rb_grows s s' -> rn_type n' = rn_type n -> req_ok s x n i r -> req_ok s' x n' i r.
Proof.
  intros G Ht [C K D Ch R]. split; [done|done|done| |].
  - rewrite (same_delivery x n n' r r Ht (same_call_refl r)). eapply list.Forall_impl; [exact Ch|]. intros d. by apply answered_grows.
  - rewrite (same_delivery x n n' r r Ht (same_call_refl r)).
    destruct (rr_at r) as [| | |[m|]|[m|]]; try done; destruct R as (d & Hd & Hm); exists d; (split; [by apply (answered_grows s)|done]).
Qed.

Lemma node_ok_grows s s' x n : rb_grows s s' -> rb_node_ok s x n -> rb_node_ok s' x n.
Proof.
  intros G [Q R W Hh Hw]. split; [done| |done| |].
  - intros i r Hr. by apply (req_ok_grows s s' x n n i r G eq_refl), R.
  - intros i d Hd. destruct (Hh i d Hd) as (r & Hr & Ha). exists r. split; [done|by apply (answered_grows s)].
  - intros d Hd. by apply (request_grows s), Hw.
Qed.

(** A step that changes one node, and perhaps publishes. *)
Lemma inv_step s s' x n' : rb_inv s -> rb_grows s s' -> rb_nodes s' = <[x := n']> (rb_nodes s) -> rb_node_ok s' x n' ->
  (forall d, d ∈ rb_bus s' -> d ∈ rb_bus s \/ bus_ok s' d) -> (forall h, h ∈ rb_answers s' -> h ∈ rb_answers s \/ made h) -> rb_inv s'.
Proof.
  intros [IN IB IA] G En Hx Hb Ha. split.
  - intros y m Hy. rewrite En in Hy. apply lookup_insert_Some in Hy as [[<- <-]|[_ Hy]]; [done|]. by apply (node_ok_grows s), IN.
  - intros d Hd. destruct (Hb d Hd) as [Hd'|]; [|done]. by apply (bus_grows s), IB.
  - intros h Hh. destruct (Ha h Hh) as [Hh'|]; [|done]. by apply IA.
Qed.

(** A step that changes one call of a node. *)
Lemma node_ok_update s x n n' i r r' : rb_node_ok s x n -> rn_requests n !! i = Some r -> same_call r r' ->
  rn_type n' = rn_type n -> rn_seq n' = rn_seq n -> rn_work n' = rn_work n -> rn_requests n' = <[i := r']> (rn_requests n) ->
  Forall (answered s (rr_to r) (rr_delivery x n r)) (rr_ch r') ->
  match rr_at r' with
  | RbLeaving (Ok m) | RbDone (Ok m) => exists d, answered s (rr_to r) (rr_delivery x n r) d /\ rb_response (rr_msg r) d = Ok m
  | _ => True
  end ->
  (forall k j, rn_waiters n' !! k = Some j -> rn_waiters n !! k = Some j \/ (k = rr_corr r /\ j = i)) ->
  (forall p, p ∈ rn_held n' -> p ∈ rn_held n) -> rb_node_ok s x n'.
Proof.
  intros [Q R W Hh Hw] Hi S Ht Hs Hq Er Hch Hpc Hwait Hheld. pose proof (lookup_lt_Some _ _ _ Hi) as Hlt.
  assert (Hl : forall j y, rn_requests n !! j = Some y -> exists y', rn_requests n' !! j = Some y' /\ same_call y y').
  { intros j y Hj. rewrite Er. destruct (decide (j = i)) as [->|Hne].
    - rewrite list_lookup_insert_eq by done. exists r'. rewrite Hi in Hj. injection Hj as <-. done.
    - rewrite list_lookup_insert_ne by done. by exists y. }
  split.
  - by rewrite Hs, Er, length_insert.
  - intros j y Hj. rewrite Er in Hj. apply list_lookup_insert_Some in Hj as [(<- & <- & _)|[_ Hj]].
    + destruct (R i r Hi) as [C K D _ _]. pose proof (same_delivery x n n' r r' Ht S) as Ed. destruct S as (S1 & S2 & S3 & S4 & S5). split; rewrite ?S1, ?S2, ?S3, ?S4, ?S5, ?Ed; done.
    + by apply (req_ok_grows s s x n n' j y (rb_grows_refl s) Ht), R.
  - intros k j Hk. destruct (Hwait k j Hk) as [Hk'|[-> ->]].
    + destruct (W k j Hk') as (y & Hy & Ey). destruct (Hl j y Hy) as (y' & Hy' & S'). exists y'. split; [done|]. destruct S' as (_ & _ & _ & _ & ->). done.
    + destruct (Hl i r Hi) as (y' & Hy' & S'). exists y'. split; [done|]. destruct S' as (_ & _ & _ & _ & ->). done.
  - intros j d Hd. destruct (Hh j d (Hheld _ Hd)) as (y & Hy & Ha). destruct (Hl j y Hy) as (y' & Hy' & S'). exists y'. split; [done|].
    by rewrite (same_delivery x n n' y y' Ht S'), (proj1 S').
  - rewrite Hq. done.
Qed.

(** A step that leaves the calls of a node alone. *)
Lemma node_ok_same s x n n' : rb_node_ok s x n -> rn_type n' = rn_type n -> rn_seq n' = rn_seq n -> rn_requests n' = rn_requests n ->
  (forall k j, rn_waiters n' !! k = Some j -> rn_waiters n !! k = Some j) ->
  (forall i d, (i, d) ∈ rn_held n' -> (i, d) ∈ rn_held n \/ exists r, rn_requests n !! i = Some r /\ answered s (rr_to r) (rr_delivery x n r) d) ->
  (forall d, works (rn_work n') d -> works (rn_work n) d \/ request_of s x d) -> rb_node_ok s x n'.
Proof.
  intros [Q R W Hh Hw] Ht Hs Er Hwait Hheld Hwork. split.
  - by rewrite Hs, Er.
  - intros i r Hr. rewrite Er in Hr. by apply (req_ok_grows s s x n n' i r (rb_grows_refl s) Ht), R.
  - intros k i Hk. rewrite Er. by apply W, Hwait.
  - intros i d Hd. rewrite Er. destruct (Hheld i d Hd) as [Hd'|(r & Hr & Ha)]; [destruct (Hh i d Hd') as (r & Hr & Ha)|];
      exists r; by rewrite (same_delivery x n n' r r Ht (same_call_refl r)).
  - intros d Hd. destruct (Hwork d Hd) as [Hd'|]; [by apply Hw|done].
Qed.

(** ** Every step keeps it *)

(** The types of the nodes, which make up the middle of a key, hold no dot, and no node has
    made 2^64 requests, so that no counter has wrapped. *)
Definition plain (s : rb_net) : Prop :=
  forall x n, rb_nodes s !! x = Some n -> str_mem "." (rn_type n) = false /\ Z.of_nat (length (rn_requests n)) < 2 ^ 64.

Lemma node_grows_length n n' : node_grows n n' -> (length (rn_requests n) <= length (rn_requests n'))%nat.
Proof.
  intros [_ G]. destruct (length (rn_requests n)) as [|k] eqn:E; [lia|].
  destruct (lookup_lt_is_Some_2 (rn_requests n) k ltac:(lia)) as [r Hr]. destruct (G k r Hr) as (r' & Hr' & _). apply lookup_lt_Some in Hr'. lia.
Qed.

Definition tame (s : rb_net) : Prop := rb_restarted s = false /\ plain s.

Lemma start_tame a s' : tame s' -> start_ok a s'.
Proof. intros [H0 _]. by destruct a. Qed.

Lemma tame_back s s' : rb_grows s s' -> tame s' -> tame s.
Proof.
  intros (G & _ & S) [Ps P]. split; [by apply S|]. intros x n Hn. destruct (G x n Hn) as (n' & Hn' & Gn). destruct (P x n' Hn') as [Ht Hl]. pose proof (node_grows_length n n' Gn). destruct Gn as [<- _].
  split; [done|lia].
Qed.

(** Where a reply goes. *)
Definition replies (d p : delivery) : Prop :=
  dl_RoutingKey p = dl_ReplyTo d /\ dl_CorrelationId p = dl_CorrelationId d /\ dl_ReplyTo p = EmptyString /\ dl_ReplyTo d <> EmptyString.

Lemma rb_reply_shape codecs d req ctx res p : rb_reply codecs d req ctx res = Some p -> replies d p.
Proof.
  unfold rb_reply. intros E. destruct (_ || _) eqn:E1; [done|]. apply orb_false_iff in E1 as [_ E1%String.eqb_neq].
  destruct (match ctx with Some _ => _ | None => _ end) as [payload res']. destruct (cm_Marshal _); [|done]. by injection E as <-.
Qed.

Lemma rb_process_shape c d p : rb_process c d = Some p -> replies d p.
Proof. unfold rb_process. intros E. destruct (cm_Unmarshal _) as [m|]; [|done].
  destruct (negb _); [done|]. destruct (MsgType_eqb (cm_MsgType m) RESPONSE); [done|]. by apply rb_reply_shape in E. Qed.

Lemma rb_reject_shape d p : rb_rejectOverload d = Some p -> replies d p.
Proof. unfold rb_rejectOverload. intros E. destruct (String.eqb _ _); [done|]. destruct (cm_Unmarshal _); [|done]. destruct (negb _); [done|]. by apply rb_reply_shape in E. Qed.

Lemma inv_answer x d how reply ok s : rb_inv s -> request_of s x d ->
  (forall p, reply = Some p -> made (mkRbAnswer x d how p) /\ replies d p) -> rb_inv (rb_answer_with x d how reply ok s).
Proof.
  intros I Hd Hp. pose proof (grows_answer x d how reply ok s) as G. revert G. unfold rb_answer_with. destruct (rb_nodes s !! x) as [n|]; [|done]. destruct reply as [p|]; [|done].
  unfold rb_publish. destruct (negb (rn_ch n)); [done|]. destruct ok; [|done]. destruct (Hp p eq_refl) as [Hm (E1 & E2 & E3 & E4)]. intros G.
  destruct I as [IN IB IA]. split.
  - intros y m Hy. by apply (node_ok_grows s _ y m G), IN.
  - intros e He. simpl in He. apply elem_of_app in He as [He|He]; [by apply (bus_grows s), IB|]. apply list_elem_of_singleton in He as ->.
    destruct Hd as [|(x0 & n0 & i & r & Hn & Hr & <- & ->)]; [done|]. right. exists x0, n0, i, r. split; [done|]. split; [done|].
    split; [by rewrite E1|]. split; [by rewrite E2|]. split; [done|]. eexists. split; [simpl; apply elem_of_app; right; by apply list_elem_of_singleton|done].
  - intros h Hh. simpl in Hh. apply elem_of_app in Hh as [Hh|Hh]; [by apply IA|]. by apply list_elem_of_singleton in Hh as ->.
Qed.

Lemma in_hand_set (l : list (worker_state delivery)) j w w' d : l !! j = Some w -> d ∈ concat (busy_of <$> <[j := w']> l) ->
  d ∈ busy_of w' \/ d ∈ concat (busy_of <$> l).
Proof.
  intros Hj Hd. pose proof (in_hand_insert l j w w' Hj) as P. apply elem_of_app. rewrite <- P. apply elem_of_app. by right.
Qed.

Lemma in_hand_busy (q : workq delivery) j d b : wq_workers q !! j = Some (WBusy d b) -> works q d.
Proof.
  intros Hj. left. right. unfold in_hand. pose proof (in_hand_insert (wq_workers q) j (WBusy d b) WIdle Hj) as P. simpl in P. simpl. rewrite <- P. apply elem_of_cons. by left.
Qed.

Lemma worker_at_work j st (q q' : workq delivery) : Cluster_worker j st q = Some q' -> forall d, at_work q' d -> at_work q d.
Proof.
  intros E. unfold Cluster_worker in E. destruct (wq_workers q !! j) as [w|] eqn:Hj; [|by destruct st].
  assert (K : forall w' d, d ∈ concat (busy_of <$> <[j := w']> (wq_workers q)) -> d ∈ busy_of w' \/ at_work q d).
  { intros w' d Hd. apply (in_hand_set _ j w w' d Hj) in Hd as [Hd|Hd]; [by left|by right; right]. }
  destruct st, w as [|m b| |]; try done.
  - destruct (wq_work q) as [|m work] eqn:Ew; [done|]. injection E as <-. intros d [Hd|Hd]; simpl in Hd.
    + left. rewrite Ew. by apply elem_of_cons; right.
    + apply K in Hd as [Hd|]; [|done]. apply list_elem_of_singleton in Hd as ->. left. rewrite Ew. apply elem_of_cons. by left.
  - destruct (wq_work q) as [|m work] eqn:Ew; [done|]. injection E as <-. intros d [Hd|Hd]; simpl in Hd.
    + left. rewrite Ew. by apply elem_of_cons; right.
    + apply K in Hd as [Hd|]; [|done]. apply list_elem_of_singleton in Hd as ->. left. rewrite Ew. apply elem_of_cons. by left.
  - injection E as <-. intros d [Hd|Hd]; simpl in Hd; [by left|]. apply K in Hd as [Hd|]; [|done]. destruct b; by apply not_elem_of_nil in Hd.
  - destruct (wq_stopped q); [|done]. injection E as <-. intros d [Hd|Hd]; simpl in Hd; [by left|]. apply K in Hd as [Hd|]; [|done]. by apply not_elem_of_nil in Hd.
  - destruct (wq_work q) eqn:Ew; [|done]. injection E as <-. intros d [Hd|Hd]; simpl in Hd; [left; congruence|]. apply K in Hd as [Hd|]; [|done]. by apply not_elem_of_nil in Hd.
Qed.

Lemma worker_seen j st (q q' : workq delivery) : Cluster_worker j st q = Some q' -> wq_accepted q' = wq_accepted q /\ wq_rejected q' = wq_rejected q.
Proof.
  unfold Cluster_worker. destruct st, (wq_workers q !! j) as [[|m b| |]|]; try done; try (destruct (wq_work q); try done); try (destruct (wq_stopped q); try done); by intros [= <-].
Qed.

Lemma worker_works j st (q q' : workq delivery) : Cluster_worker j st q = Some q' -> forall d, works q' d -> works q d.
Proof.
  intros E d [Hd|Hd]; [left; by apply (worker_at_work j st q q' E)|right]. by destruct (worker_seen j st q q' E) as [<- <-].
Qed.

Lemma enqueue_works d (q : workq delivery) e : works (Cluster_enqueue d q) e -> works q e \/ e = d.
Proof.
  unfold Cluster_enqueue. destruct (wq_stopping q); [by left|]. destruct (Nat.ltb _ _); unfold works, at_work, in_hand; simpl;
    rewrite !elem_of_app, ?list_elem_of_singleton; tauto.
Qed.

Lemma pumpRemote_inv x d ok s s' : rb_inv s -> request_of s x d -> rb_pumpRemote x d ok s = Some s' -> rb_inv s'.
Proof.
  intros I Hd E. unfold rb_pumpRemote in E. node_of E. injection E as <-.
  assert (G : rb_grows s (put_node x (set_work (Cluster_enqueue d (rn_work n)) n) s)) by (by apply (grows_put_same x n)).
  assert (I' : rb_inv (put_node x (set_work (Cluster_enqueue d (rn_work n)) n) s)).
  { eapply (inv_step s _ x _ I G); [done| |by left|by left]. apply (node_ok_same _ x n); try done; [by apply (node_ok_grows s _ x n G), I|by left|].
    intros e He. apply enqueue_works in He as [He| ->]; [by left|right]. by apply (request_grows s). }
  destruct (_ && _); [|done]. apply inv_answer; [done|by apply (request_grows s)|]. intros p Hp. split; [done|]. by apply rb_reject_shape.
Qed.

Lemma pumpReply_inv x n d s s' : tame s -> rb_inv s -> rb_nodes s !! x = Some n ->
  (exists i r, rn_requests n !! i = Some r /\ dl_CorrelationId d = rr_corr r /\ answered s (rr_to r) (rr_delivery x n r) d) ->
  rb_pumpReply_load x d s = Some s' -> rb_inv s'.
Proof.
  intros P I Hx (i & r & Hr & Hc & Ha) E. unfold rb_pumpReply_load in E. rewrite Hx in E. cbn [mbind option_bind] in E.
  case_if_in E; [by injection E as <-|]. destruct (rn_waiters n !! dl_CorrelationId d) as [j|] eqn:Hw; injection E as <-; [|done].
  eapply (inv_step s _ x _ I); [by apply (grows_put_same x n)|reflexivity| |by left|by left].
  assert (G : rb_grows s (put_node x (set_held (rn_held n ++ [(j, d)]) (rb_set_waiters (delete (dl_CorrelationId d) (rn_waiters n)) n)) s)) by (by apply (grows_put_same x n)).
  pose proof (ri_node s I x n Hx) as Nx. apply (node_ok_same _ x n); try done.
  - by apply (node_ok_grows s).
  - intros k l Hk. simpl in Hk. by apply lookup_delete_Some in Hk as [_ Hk].
  - intros l e He. simpl in He. apply elem_of_app in He as [He|He]; [by left|]. apply list_elem_of_singleton in He. injection He as -> ->. right.
    destruct (bn_wait _ _ _ Nx _ _ Hw) as (r' & Hr' & Hc'). assert (j = i) as ->; [|exists r; split; [done|by apply (answered_grows s)]].
    pose proof (rq_corr _ _ _ _ _ (bn_req _ _ _ Nx _ _ Hr)) as C1. pose proof (rq_corr _ _ _ _ _ (bn_req _ _ _ Nx _ _ Hr')) as C2.
    pose proof (lookup_lt_Some _ _ _ Hr). pose proof (lookup_lt_Some _ _ _ Hr'). destruct (proj2 P x n Hx) as [_ Hl].
    assert (Ef : format_uint 10 (Z.of_nat j + 1) = format_uint 10 (Z.of_nat i + 1)) by congruence. apply format_uint_inj in Ef; unfold inU; lia.
  - by left.
Qed.

Lemma delete_bus_inv k s : rb_inv s -> rb_inv (mkRbNet (rb_nodes s) (delete k (rb_bus s)) (rb_answers s) (rb_restarted s)).
Proof.
  intros [IN IB IA]. assert (G : rb_grows s (mkRbNet (rb_nodes s) (delete k (rb_bus s)) (rb_answers s) (rb_restarted s))) by (by apply grows_same_nodes).
  split; [|simpl|done].
  - intros y m Hy. by apply (node_ok_grows s _ y m G), IN.
  - intros d Hd. apply (bus_grows s _ d G), IB. by eapply list_elem_of_delete_inv.
Qed.

Lemma rb_deliver_inv k x ok s s' : tame s -> rb_inv s -> rb_deliver prefix k x ok s = Some s' -> rb_inv s'.
Proof.
  intros P I E. unfold rb_deliver in E. destruct (rb_bus s !! k) as [d|] eqn:Hk; cbn [mbind option_bind] in E; [|done]. node_of E.
  pose proof (delete_bus_inv k s I) as I'. set (s1 := mkRbNet (rb_nodes s) (delete k (rb_bus s)) (rb_answers s) (rb_restarted s)) in *.
  assert (G : rb_grows s s1) by (by apply grows_same_nodes). assert (P1 : tame s1) by exact P.
  assert (B : bus_ok s1 d) by (apply (bus_grows s _ d G), I; by eapply list_elem_of_lookup_2). destruct (proj2 P x n Hn) as [Ht _].
  destruct (String.eqb_spec (dl_RoutingKey d) (GetRemoteRoutingKey prefix (rn_type n) x)) as [E1|N1].
  - apply (pumpRemote_inv x d ok s1); [done| |done]. destruct B as [(y & t & Hy & Hkey & Hd)|(x0 & n0 & i & r & _ & _ & Hkey & _)].
    + rewrite E1 in Hkey. apply remote_key_inj in Hkey as [_ ->]; [done|done|by apply (types_plain y)].
    + rewrite E1 in Hkey. by apply remote_not_reply in Hkey.
  - destruct (String.eqb_spec (dl_RoutingKey d) (GetReplyRoutingKey prefix (rn_type n) x)) as [E2|]; [|done].
    apply (pumpReply_inv x n d s1); try done. destruct B as [(y & t & Hy & Hkey & Hd)|(x0 & n0 & i & r & H0 & Hr & Hkey & Hc & _ & Ha)].
    + rewrite E2 in Hkey. symmetry in Hkey. by apply remote_not_reply in Hkey.
    + rewrite E2 in Hkey. apply reply_key_inj in Hkey as [_ <-]; [|done|by apply (proj2 P x0)]. simpl in H0. rewrite Hn in H0. injection H0 as <-. by exists i, r.
Qed.

Lemma outgoing_ok id m key data : rb_outgoing prefix GetType id (Some m) = Ok (key, data) ->
  (exists t, GetType id = Ok t /\ key = GetRemoteRoutingKey prefix t id) /\ cm_Marshal m = Ok data.
Proof.
  unfold rb_outgoing, rb_nodeRoutingKey. destruct (String.eqb _ _); [done|]. destruct (GetType id) as [t|]; [|done]. cbn [res_bind].
  destruct (rb_validateMessage _); [|done]. cbn [res_bind]. destruct (cm_Marshal m); [|done]. intros [= <- <-]. split; [by exists t|done].
Qed.

Lemma publish_inv x id m ok s s' : rb_inv s -> fst <$> rb_Publish prefix GetType x id m ok s = Some s' -> rb_inv s'.
Proof.
  intros I E. unfold rb_Publish in E. destruct (rb_nodes s !! x) as [n|]; cbn [mbind option_bind fmap option_fmap option_map] in E; [|done]. injection E as <-.
  destruct m as [m|]; [|unfold rb_outgoing; by destruct (rb_nodeRoutingKey _ _ _); [destruct (rb_validateMessage _)|]].
  destruct (rb_outgoing _ _ _ _) as [[key data]|] eqn:Eo; [|done]. apply outgoing_ok in Eo as [(t & Ht & ->) _].
  unfold rb_publish. destruct (negb _); [done|]. destruct ok; [|done]. cbn [fst]. destruct I as [IN IB IA]. split; [| |done].
  - intros y k Hy. apply (node_ok_grows s); [by apply grows_same_nodes|by apply IN].
  - intros d Hd. simpl in Hd. apply elem_of_app in Hd as [Hd|Hd]; [apply (bus_grows s); [by apply grows_same_nodes|by apply IB]|].
    apply list_elem_of_singleton in Hd as ->. left. exists id, t. split_and!; [done|done|by left].
Qed.

Lemma rb_start_inv x id m s s' : tame s' -> rb_inv s -> rb_Request_start prefix GetType x id m s = Some s' -> rb_inv s'.
Proof.
  intros P' I E. pose proof (exec_rb_grows (RbStart x id m) s s' ltac:(done) E) as G. pose proof (tame_back s s' G P') as P. unfold rb_Request_start in E. node_of E.
  destruct (rb_outgoing _ _ _ _) as [[key data]|] eqn:Eo; [|done]. apply outgoing_ok in Eo as [Hk Hdata]. injection E as <-.
  pose proof (ri_node s I x n Hn) as Nx. assert (Eseq : u64 (rn_seq n + 1) = Z.of_nat (length (rn_requests n)) + 1).
  { rewrite (bn_seq _ _ _ Nx). apply wrapU_id. unfold inU. destruct P' as [_ P']. specialize (P' x). simpl in P'. rewrite lookup_insert_eq in P'.
    destruct (P' _ eq_refl) as [_ Hl]. simpl in Hl. rewrite length_app in Hl. simpl in Hl. lia. }
  rewrite Eseq in *. eapply (inv_step s _ x _ I G); [reflexivity| |by left|by left]. apply (node_ok_grows s _ x n G) in Nx as [Q R W Hh Hw].
  assert (Hl : forall j y, rn_requests n !! j = Some y -> (rn_requests n ++ [mkRbRequest id m key data (format_uint 10 (Z.of_nat (length (rn_requests n)) + 1)) [] RbNumbered]) !! j = Some y).
  { intros j y Hj. by apply lookup_app_l_Some. }
  split; simpl.
  - rewrite length_app. simpl. lia.
  - intros j y Hj. apply lookup_app_Some in Hj as [Hj|[Hlt Hj]]; [eapply (req_ok_grows _ _ x n); [apply rb_grows_refl|reflexivity|by apply R]|].
    destruct (j - length (rn_requests n))%nat eqn:Ej; [|done]. injection Hj as <-. assert (j = length (rn_requests n)) as -> by lia. by split.
  - intros k j Hj. destruct (W k j Hj) as (y & Hy & Hc). exists y. split; [by apply Hl|done].
  - intros j d Hd. destruct (Hh j d Hd) as (y & Hy & Ha). exists y. split; [by apply Hl|done].
  - done.
Qed.

(** The steps of a call that change only it and its entry. *)
Lemma call_inv s s' x n n' i r r' : rb_inv s -> rb_grows s s' -> rb_nodes s !! x = Some n -> rn_requests n !! i = Some r -> same_call r r' ->
  rb_nodes s' = <[x := n']> (rb_nodes s) ->
  rn_type n' = rn_type n -> rn_seq n' = rn_seq n -> rn_work n' = rn_work n -> rn_requests n' = <[i := r']> (rn_requests n) ->
  Forall (answered s (rr_to r) (rr_delivery x n r)) (rr_ch r') ->
  match rr_at r' with
  | RbLeaving (Ok m) | RbDone (Ok m) => exists d, answered s (rr_to r) (rr_delivery x n r) d /\ rb_response (rr_msg r) d = Ok m
  | _ => True
  end ->
  (forall k j, rn_waiters n' !! k = Some j -> rn_waiters n !! k = Some j \/ (k = rr_corr r /\ j = i)) ->
  (forall p, p ∈ rn_held n' -> p ∈ rn_held n) ->
  (forall d, d ∈ rb_bus s' -> d ∈ rb_bus s \/ bus_ok s' d) -> rb_answers s' = rb_answers s -> rb_inv s'.
Proof.
  intros I G Hn Hi S En Ht Hs Hq Er Hch Hpc Hwait Hheld Hb Ha. apply (inv_step s s' x n' I G En); [|done|by rewrite Ha; left].
  apply (node_ok_grows s s' x n' G). apply (node_ok_update s x n n' i r r'); try done. by apply I.
Qed.

Lemma store_inv x i s s' : rb_inv s -> rb_Request_store x i s = Some s' -> rb_inv s'.
Proof.
  intros I E. pose proof (exec_rb_grows (RbStore x i) s s' ltac:(done) E) as G. unfold rb_Request_store in E. node_of E. request_of_step E. destruct (rr_at r) eqn:Ea; try done. injection E as <-.
  eapply (call_inv s _ x n _ i r (rr_set RbStored r)); try done; [by apply (bn_req _ _ _ (ri_node s I x n Hn) i r Hr)| |by left].
  intros k j Hk. simpl in Hk. apply lookup_insert_Some in Hk as [[<- <-]|[_ Hk]]; [by right|by left].
Qed.

Lemma send_inv x i ok s s' : rb_inv s -> rb_Request_publish prefix x i ok s = Some s' -> rb_inv s'.
Proof.
  intros I E. pose proof (exec_rb_grows (RbSend x i ok) s s' ltac:(done) E) as G. unfold rb_Request_publish in E. node_of E. request_of_step E. destruct (rr_at r) eqn:Ea; try done.
  pose proof (bn_req _ _ _ (ri_node s I x n Hn) i r Hr) as R. unfold rb_publish in E.
  destruct (negb _); [|destruct ok]; injection E as <-; eapply (call_inv s _ x n _ i r (rr_set _ r)); try done; try (by apply R); try (by left).
  intros d Hd. simpl in Hd. apply elem_of_app in Hd as [Hd|Hd]; [by left|right]. apply list_elem_of_singleton in Hd as ->.
  left. destruct (rq_key _ _ _ _ _ R) as (t & Ht & Hk). exists (rr_to r), t. split; [done|]. split; [done|]. right.
  exists x, (set_requests (<[i:=rr_set RbWaiting r]> (rn_requests n)) n), i, (rr_set RbWaiting r). simpl.
  rewrite lookup_insert_eq, list_lookup_insert_eq by (by eapply lookup_lt_Some). done.
Qed.

Lemma receive_inv x i s s' : rb_inv s -> rb_Request_receive x i s = Some s' -> rb_inv s'.
Proof.
  intros I E. pose proof (exec_rb_grows (RbReceive x i) s s' ltac:(done) E) as G. unfold rb_Request_receive in E. node_of E. request_of_step E. destruct (rr_at r) eqn:Ea; try done.
  pose proof (bn_req _ _ _ (ri_node s I x n Hn) i r Hr) as R. destruct (rr_ch r) as [|d ch] eqn:Ech; [done|]. injection E as <-.
  pose proof (rq_chan _ _ _ _ _ R) as Hch. rewrite Ech in Hch. apply Forall_cons_iff in Hch as [Hd Hch].
  eapply (call_inv s _ x n _ i r (rr_set _ (rr_send ch r))); try done; [|by left|by left]. simpl.
  destruct (rb_response (rr_msg r) d) as [m|] eqn:Em; [|done]. by exists d.
Qed.

Lemma leave_inv x i s s' : rb_inv s -> rb_Request_timeout x i s = Some s' \/ rb_Request_return x i s = Some s' -> rb_inv s'.
Proof.
  intros I [E|E].
  - pose proof (exec_rb_grows (RbTimeout x i) s s' ltac:(done) E) as G. unfold rb_Request_timeout in E. node_of E. request_of_step E. destruct (rr_at r) eqn:Ea; try done. injection E as <-.
    eapply (call_inv s _ x n _ i r (rr_set _ r)); try done; [by apply (bn_req _ _ _ (ri_node s I x n Hn) i r Hr)|by left|by left].
  - pose proof (exec_rb_grows (RbReturn x i) s s' ltac:(done) E) as G. unfold rb_Request_return in E. node_of E. request_of_step E.
    pose proof (bn_req _ _ _ (ri_node s I x n Hn) i r Hr) as R. pose proof (rq_result _ _ _ _ _ R) as Hres. destruct (rr_at r) as [| | |res|res] eqn:Ea; try done. injection E as <-.
    eapply (call_inv s _ x n _ i r (rr_set _ r)); try done; [by apply R| |by left]. intros k j Hk. simpl in Hk. apply lookup_delete_Some in Hk as [_ Hk]. by left.
Qed.

Lemma pump_send_inv x k s s' : rb_inv s -> rb_pumpReply_send x k s = Some s' -> rb_inv s'.
Proof.
  intros I E. pose proof (exec_rb_grows (RbReply x k) s s' ltac:(done) E) as G. unfold rb_pumpReply_send in E. node_of E.
  destruct (rn_held n !! k) as [[i d]|] eqn:Hk; cbn [mbind option_bind] in E; [|done]. request_of_step E. injection E as <-.
  pose proof (ri_node s I x n Hn) as Nx. pose proof (bn_req _ _ _ Nx i r Hr) as R.
  destruct (bn_held _ _ _ Nx i d) as (r1 & Hr1 & Ha); [by eapply list_elem_of_lookup_2|]. rewrite Hr in Hr1. injection Hr1 as <-.
  set (r' := if (length (rr_ch r) <? 1)%nat then rr_send (rr_ch r ++ [d]) r else r) in *.
  assert (Hs : same_call r r') by (unfold r'; by destruct (_ <? _)%nat). assert (Hat : rr_at r' = rr_at r) by (unfold r'; by destruct (_ <? _)%nat).
  assert (Hch : Forall (answered s (rr_to r) (rr_delivery x n r)) (rr_ch r')).
  { unfold r'. destruct (_ <? _)%nat; [|by apply R]. simpl. apply Forall_app. split; [by apply R|by constructor]. }
  clearbody r'. eapply (call_inv s _ x n _ i r r'); try done; [rewrite Hat; by apply R|by left| |by left].
  intros p Hp. simpl in Hp. by eapply list_elem_of_delete_inv.
Qed.

Lemma worker_inv x j st c ok s s' : rb_inv s -> rb_worker x j st c ok s = Some s' -> rb_inv s'.
Proof.
  intros I E. unfold rb_worker in E. node_of E. destruct (Cluster_worker j st (rn_work n)) as [q|] eqn:Eq; cbn [mbind option_bind] in E; [|done].
  assert (G : rb_grows s (put_node x (set_work q n) s)) by (by apply (grows_put_same x n)). pose proof (ri_node s I x n Hn) as Nx.
  assert (I' : rb_inv (put_node x (set_work q n) s)).
  { eapply (inv_step s _ x _ I G); [done| |by left|by left]. apply (node_ok_same _ x n); try done; [by apply (node_ok_grows s _ x n G)|by left|].
    intros e He. left. by apply (worker_works j st _ q Eq). }
  destruct st; try (injection E as <-; exact I'). destruct (wq_workers (rn_work n) !! j) as [[|d b| |]|] eqn:Hj; injection E as <-; try exact I'.
  apply inv_answer; [done| |].
  - apply (request_grows s _ x d G), (bn_work _ _ _ Nx). by apply (in_hand_busy _ j d b).
  - intros p Hp. split; [done|]. by apply (rb_process_shape c).
Qed.

(** The steps that leave the calls and the messages of a node alone. *)
Lemma other_inv s x n n' : rb_inv s -> rb_nodes s !! x = Some n -> rn_type n' = rn_type n -> rn_seq n' = rn_seq n -> rn_requests n' = rn_requests n ->
  rn_waiters n' = rn_waiters n -> rn_held n' = rn_held n -> (forall d, works (rn_work n') d -> works (rn_work n) d) -> rb_inv (put_node x n' s).
Proof.
  intros I Hn Ht Hs Hr Hw Hh Hq. assert (G : rb_grows s (put_node x n' s)) by (by apply (grows_put_same x n)).
  eapply (inv_step s _ x n' I G); [done| |by left|by left]. apply (node_ok_same _ x n); try done; rewrite ?Hw, ?Hh; auto. by apply (node_ok_grows s), I.
Qed.

Lemma idle_hands k : concat (busy_of (M:=delivery) <$> replicate k WIdle) = [].
Proof. by induction k. Qed.

Lemma exec_rb_inv a s s' : tame s' -> rb_inv s -> exec_rb prefix GetType a s = Some s' -> rb_inv s'.
Proof.
  intros P' I E. pose proof (tame_back s s' (exec_rb_grows a s s' (start_tame a s' P') E) P') as P. destruct a; cbn [exec_rb] in E.
  - pose proof (exec_rb_grows (RbInit x nodeType workers size) s s' (proj1 P') E) as G. unfold rb_Init, Cluster_Init in E. destruct (_ || _); [done|]. cbn [mbind option_bind] in E. injection E as <-.
    eapply (inv_step s _ x _ I G); [reflexivity| |by left|by left]. split; simpl; [done|done|intros k j Hk; by rewrite lookup_empty in Hk|by intros j d Hd%not_elem_of_nil|].
    intros d [[Hd|Hd]|Hd]; simpl in Hd; [by apply not_elem_of_nil in Hd| |by apply not_elem_of_nil in Hd]. unfold in_hand in Hd. simpl in Hd. rewrite idle_hands in Hd. by apply not_elem_of_nil in Hd.
  - by apply (publish_inv x nodeID m ok s).
  - by apply (rb_start_inv x nodeID m s).
  - by apply (store_inv x i s).
  - by apply (send_inv x i ok s).
  - by apply (receive_inv x i s).
  - apply (leave_inv x i s); [done|by left].
  - apply (leave_inv x i s); [done|by right].
  - by apply (rb_deliver_inv k x ok s).
  - destruct (rb_bus s !! k); cbn [mbind option_bind] in E; [|done]. injection E as <-. by apply delete_bus_inv.
  - by apply (pump_send_inv x k s).
  - by apply (worker_inv x j st c ok s).
  - unfold rb_Stop_flag in E. node_of E. injection E as <-. by apply (other_inv s x n).
  - unfold rb_Stop_close in E. node_of E. destruct (Cluster_Stop_close _) as [q|] eqn:Eq; cbn [mbind option_bind] in E; [|done]. injection E as <-.
    apply (other_inv s x n); try done. unfold Cluster_Stop_close in Eq. destruct (_ && _); [|done]. by injection Eq as <-.
  - unfold rb_Stop_end in E. node_of E. case_if_in E; [|done]. injection E as <-. by apply (other_inv s x n).
  - unfold rb_watch in E. node_of E. destruct w, (rn_watch n); try done; try (case_if_in E; try done); injection E as <-; by apply (other_inv s x n).
Qed.

Lemma rb_reach_inv s : rb_reach prefix GetType s -> tame s -> rb_inv s.
Proof.
  induction 1 as [|s a s' _ IH E]; intros P; [split; simpl; [done|by intros ? ?%not_elem_of_nil|by intros ? ?%not_elem_of_nil]|].
  apply (exec_rb_inv a s s' P); [|done]. apply IH, (tame_back s s'); [by apply (exec_rb_grows a); [apply start_tame|]|done].
Qed.

(** C12: A request over RabbitMQ is answered by the node it was sent to, from that very
    message. In every run of a network of nodes and a broker that reorders and loses
    messages, with connections that break and come back and nodes that stop, when a call
    of [Request] returns a response, the node it was addressed to has handled the message
    that this call published, and published a reply to it that says exactly this, under
    the message's identifier: either its [process] did, with what its actor system or
    method table returned, or it rejected the message because its work queue was full.
    Conditions: no identifier is started twice ([rb_restarted]; [restart_takes_stale_reply]
    is a run that does), the types of the nodes hold no dot ([types_plain], [plain];
    [dotted_types_share_a_queue]), and no node makes 2^64 requests ([plain]). *)
Theorem rabbit_request_answered (s : rb_net) (x : str) (n : rb_node) (i : nat) (r : rb_request) (response : ClusterMessage) :
  rb_reach prefix GetType s -> rb_restarted s = false -> plain s ->
  rb_nodes s !! x = Some n -> rn_requests n !! i = Some r -> rr_at r = RbDone (Ok response) ->
  exists h, h ∈ rb_answers s /\ an_node h = rr_to r /\
    an_request h = mkDelivery (rr_key r) (rr_data r) (GetReplyRoutingKey prefix (rn_type n) x) (rr_corr r) /\ cm_Marshal (rr_msg r) = Ok (rr_data r) /\
    match an_how h with
    | Processed c => rb_process c (an_request h) = Some (an_reply h)
    | Overloaded => rb_rejectOverload (an_request h) = Some (an_reply h)
    end /\
    cm_Unmarshal (dl_Body (an_reply h)) = Ok response /\ cm_MsgType response = RESPONSE /\ cm_MessageId response = cm_MessageId (rr_msg r).
Proof.
  intros R Hs P Hn Hr Ha. pose proof (rb_reach_inv s R (conj Hs P)) as I. pose proof (bn_req _ _ _ (ri_node s I x n Hn) i r Hr) as [_ _ Hm _ Hres].
  rewrite Ha in Hres. destruct Hres as (d & (h & Hh & H1 & H2 & <-) & Hd). exists h. split; [done|]. split; [done|]. split; [done|]. split; [done|].
  split; [exact (ri_answers s I h Hh)|]. unfold rb_response in Hd. destruct (cm_Unmarshal _) as [m|]; [|done].
  destruct (MsgType_eqb (cm_MsgType m) RESPONSE) eqn:E1; [|done]. destruct (Z.eqb_spec (cm_MessageId m) (cm_MessageId (rr_msg r))); [|done].
  injection Hd as <-. apply bool_decide_eq_true in E1. done.
Qed.

(** ** At most once *)

Definition rb_sent (r : rb_request) : bool := match rr_at r with RbNumbered | RbStored => false | _ => true end.

(** The messages a node has taken from its queue: accepted, or rejected by a full one. *)
Definition seen (s : rb_net) (y : str) : list delivery := from_option (fun n => wq_accepted (rn_work n) ++ wq_rejected (rn_work n)) [] (rb_nodes s !! y).

Abbreviation copies d l := (count_occ delivery_eq_dec l d).

Definition once (s : rb_net) : Prop :=
  forall x n i r y, rb_nodes s !! x = Some n -> rn_requests n !! i = Some r ->
    (copies (rr_delivery x n r) (rb_bus s) + copies (rr_delivery x n r) (seen s y) <= if rb_sent r then 1 else 0)%nat.

Lemma delivery_inj s x1 n1 i1 r1 x2 n2 i2 r2 : rb_inv s -> tame s -> rb_nodes s !! x1 = Some n1 -> rn_requests n1 !! i1 = Some r1 ->
  rb_nodes s !! x2 = Some n2 -> rn_requests n2 !! i2 = Some r2 -> rr_delivery x1 n1 r1 = rr_delivery x2 n2 r2 -> x1 = x2 /\ i1 = i2.
Proof.
  intros I P H1 R1 H2 R2 E. pose proof (f_equal dl_ReplyTo E) as Ek. pose proof (f_equal dl_CorrelationId E) as Ec. cbn [rr_delivery dl_ReplyTo dl_CorrelationId] in Ek, Ec.
  destruct (proj2 P x1 n1 H1) as [T1 L1], (proj2 P x2 n2 H2) as [T2 L2].
  apply reply_key_inj in Ek as [_ ->]; [|done|done]. split; [done|]. rewrite H1 in H2. injection H2 as <-.
  rewrite (rq_corr _ _ _ _ _ (bn_req _ _ _ (ri_node s I _ _ H1) _ _ R1)), (rq_corr _ _ _ _ _ (bn_req _ _ _ (ri_node s I _ _ H1) _ _ R2)) in Ec.
  apply lookup_lt_Some in R1, R2. apply format_uint_inj in Ec; unfold inU; lia.
Qed.

Lemma reply_key_ne t x : GetReplyRoutingKey prefix t x <> EmptyString.
Proof. done. Qed.

(** A step that keeps the calls' messages and adds only messages without a reply key. *)
Lemma once_step s s' : once s -> rb_grows s s' ->
  (forall x n' i r', rb_nodes s' !! x = Some n' -> rn_requests n' !! i = Some r' ->
     exists n r, rb_nodes s !! x = Some n /\ rn_requests n !! i = Some r /\ (rb_sent r = true -> rb_sent r' = true)) ->
  (forall d y, dl_ReplyTo d <> EmptyString -> (copies d (rb_bus s') + copies d (seen s' y) <= copies d (rb_bus s) + copies d (seen s y))%nat) -> once s'.
Proof.
  intros O [G _] Hb Hc x n' i r' y Hn' Hr'. destruct (Hb x n' i r' Hn' Hr') as (n & r & Hn & Hr & Hs). destruct (G x n Hn) as (n1 & Hn1 & Ht & Gr).
  rewrite Hn' in Hn1. injection Hn1 as <-. destruct (Gr i r Hr) as (r1 & Hr1 & S). rewrite Hr' in Hr1. injection Hr1 as <-.
  rewrite (same_delivery x n n' r r' Ht S). etransitivity; [apply Hc, reply_key_ne|]. specialize (O x n i r y Hn Hr).
  destruct (rb_sent r); [by rewrite Hs|]. lia.
Qed.

Lemma calls_back s x n n' : rb_nodes s !! x = Some n ->
  (forall i r', rn_requests n' !! i = Some r' -> exists r, rn_requests n !! i = Some r /\ (rb_sent r = true -> rb_sent r' = true)) ->
  forall y m' i r', <[x := n']> (rb_nodes s) !! y = Some m' -> rn_requests m' !! i = Some r' ->
     exists m r, rb_nodes s !! y = Some m /\ rn_requests m !! i = Some r /\ (rb_sent r = true -> rb_sent r' = true).
Proof.
  intros Hn Hb y m' i r' Hy Hr. apply lookup_insert_Some in Hy as [[<- <-]|[_ Hy]]; [destruct (Hb i r' Hr) as (r & ? & ?); by exists n, r|by exists m', r'].
Qed.

Lemma set_back (l : list rb_request) i r r' : l !! i = Some r -> (rb_sent r = true -> rb_sent r' = true) ->
  forall j y', <[i := r']> l !! j = Some y' -> exists y, l !! j = Some y /\ (rb_sent y = true -> rb_sent y' = true).
Proof. intros Hi Hs j y' Hj. apply list_lookup_insert_Some in Hj as [(<- & <- & _)|[_ Hj]]; [by exists r|by exists y']. Qed.

Lemma seen_put s x n n' y : rb_nodes s !! x = Some n -> wq_accepted (rn_work n') = wq_accepted (rn_work n) -> wq_rejected (rn_work n') = wq_rejected (rn_work n) ->
  seen (put_node x n' s) y = seen s y.
Proof.
  intros Hn E1 E2. unfold seen. simpl. destruct (decide (y = x)) as [->|Hne]; [rewrite lookup_insert_eq, Hn; simpl; by rewrite E1, E2|by rewrite lookup_insert_ne].
Qed.

Lemma once_answer x d how reply ok s : once s -> (forall p, reply = Some p -> dl_ReplyTo p = EmptyString) -> once (rb_answer_with x d how reply ok s).
Proof.
  intros O Hp. pose proof (grows_answer x d how reply ok s) as G. revert G. unfold rb_answer_with. destruct (rb_nodes s !! x) as [n|]; [|done]. destruct reply as [p|]; [|done].
  unfold rb_publish. destruct (negb (rn_ch n)); [done|]. destruct ok; [|done]. intros G. apply (once_step s); [done|done|intros y m i r Hm Hr; by exists m, r|].
  intros e y He. simpl. rewrite count_occ_app. simpl. destruct (delivery_eq_dec p e) as [->|]; [by destruct He; apply Hp|]. unfold seen. simpl. lia.
Qed.

(** A step that changes one node and no messages. *)
Lemma once_put s x n n' : once s -> rb_grows s (put_node x n' s) -> rb_nodes s !! x = Some n ->
  wq_accepted (rn_work n') = wq_accepted (rn_work n) -> wq_rejected (rn_work n') = wq_rejected (rn_work n) ->
  (forall i r', rn_requests n' !! i = Some r' -> exists r, rn_requests n !! i = Some r /\ (rb_sent r = true -> rb_sent r' = true)) -> once (put_node x n' s).
Proof.
  intros O G Hn E1 E2 Hb. apply (once_step s); [done|done|by apply (calls_back s x n)|]. intros d y _. by rewrite (seen_put s x n n' y Hn E1 E2).
Qed.

Lemma copies_delete (d e : delivery) k l : l !! k = Some d -> copies e l = ((if delivery_eq_dec d e then 1 else 0) + copies e (delete k l))%nat.
Proof.
  intros Hk. rewrite (proj1 (Permutation_count_occ delivery_eq_dec l (d :: delete k l)) (delete_Permutation l k d Hk)). simpl. by destruct (delivery_eq_dec d e).
Qed.

Lemma once_lose k d s : rb_bus s !! k = Some d -> once s -> once (mkRbNet (rb_nodes s) (delete k (rb_bus s)) (rb_answers s) (rb_restarted s)).
Proof.
  intros Hk O x n i r y Hn Hr. specialize (O x n i r y Hn Hr). simpl. change (seen (mkRbNet (rb_nodes s) (delete k (rb_bus s)) (rb_answers s) (rb_restarted s)) y) with (seen s y).
  rewrite (copies_delete d _ k _ Hk) in O. lia.
Qed.

Lemma once_deliver k x ok s s' : once s -> rb_deliver prefix k x ok s = Some s' -> once s'.
Proof.
  intros O E. pose proof (grows_deliver k x ok s s' E) as G. unfold rb_deliver in E. destruct (rb_bus s !! k) as [d|] eqn:Hk; cbn [mbind option_bind] in E; [|done]. node_of E.
  set (s1 := mkRbNet (rb_nodes s) (delete k (rb_bus s)) (rb_answers s) (rb_restarted s)) in *. pose proof (once_lose k d s Hk O) as O1. fold s1 in O1.
  destruct (String.eqb (dl_RoutingKey d) (GetRemoteRoutingKey prefix (rn_type n) x)); [|destruct (String.eqb (dl_RoutingKey d) (GetReplyRoutingKey prefix (rn_type n) x)); [|done]].
  - unfold rb_pumpRemote in E. simpl in E. rewrite Hn in E. cbn [mbind option_bind] in E. injection E as <-. set (n' := set_work _ n).
    assert (O2 : once (put_node x n' s1)).
    { apply (once_step s); [done| |apply (calls_back s x n n' Hn); intros j r Hr; by exists r|].
      - apply (rb_grows_trans _ s1); [by apply grows_same_nodes|by apply (grows_put_same x n)].
      - intros e y _. simpl. rewrite (copies_delete d e k _ Hk).
        assert (Hsn : (copies e (seen (put_node x n' s1) y) <= (if delivery_eq_dec d e then 1 else 0) + copies e (seen s y))%nat); [|lia].
        unfold seen. simpl. destruct (decide (y = x)) as [->|Hne]; [|rewrite lookup_insert_ne by done; lia]. rewrite lookup_insert_eq, Hn. simpl. unfold Cluster_enqueue.
        destruct (wq_stopping _); [lia|]. destruct (Nat.ltb _ _); simpl; rewrite !count_occ_app; simpl; destruct (delivery_eq_dec d e); lia. }
    destruct (_ && _); [|exact O2]. apply once_answer; [exact O2|]. intros p Hp. by apply rb_reject_shape in Hp as (_ & _ & ? & _).
  - unfold rb_pumpReply_load in E. simpl in E. rewrite Hn in E. cbn [mbind option_bind] in E. destruct (String.eqb (dl_CorrelationId d) EmptyString); [by injection E as <-|].
    destruct (rn_waiters n !! _); injection E as <-; [|done]. apply (once_put s1 x n); [done|by apply (grows_put_same x n)|done|done|done|]. intros j r Hr. by exists r.
Qed.

Lemma seen_request s y d : rb_inv s -> d ∈ seen s y -> request_of s y d.
Proof.
  intros I Hd. unfold seen in Hd. destruct (rb_nodes s !! y) as [n|] eqn:Hn; [|by apply not_elem_of_nil in Hd]. simpl in Hd.
  apply (bn_work _ _ _ (ri_node s I y n Hn)). by right.
Qed.

Lemma once_start x id m s s' : tame s' -> rb_inv s -> rb_inv s' -> once s -> rb_Request_start prefix GetType x id m s = Some s' -> once s'.
Proof.
  intros P I0 I O E. pose proof (exec_rb_grows (RbStart x id m) s s' ltac:(done) E) as G. unfold rb_Request_start in E. node_of E.
  destruct (rb_outgoing _ _ _ _) as [[key data]|]; [|done]. injection E as <-. set (n' := mkRbNode _ _ _ _ _ _ _ _ _) in *.
  intros x1 n1 i r y Hn1 Hr. assert (Es : seen (put_node x n' s) y = seen s y) by (by apply (seen_put s x n)). rewrite Es. simpl.
  destruct (match rb_nodes s !! x1 with Some m => rn_requests m !! i | None => None end) as [r0|] eqn:Hold.
  - destruct (rb_nodes s !! x1) as [n0|] eqn:Hn0; [|done]. destruct (proj1 G x1 n0 Hn0) as (n2 & Hn2 & Ht & Gr). rewrite Hn1 in Hn2. injection Hn2 as <-.
    destruct (Gr i r0 Hold) as (r2 & Hr2 & S). rewrite Hr in Hr2. injection Hr2 as <-. rewrite (same_delivery x1 n0 n1 r0 r Ht S).
    specialize (O x1 n0 i r0 y Hn0 Hold). assert (rb_sent r = rb_sent r0) as ->; [|done].
    simpl in Hn1. apply lookup_insert_Some in Hn1 as [[<- <-]|[_ Hn1]]; [|by rewrite Hn0 in Hn1; injection Hn1 as <-; rewrite Hold in Hr; injection Hr as <-].
    rewrite Hn in Hn0. injection Hn0 as <-. simpl in Hr. rewrite (lookup_app_l_Some _ _ _ _ Hold) in Hr. by injection Hr as <-.
  - assert (Z1 : forall d, dl_ReplyTo d = EmptyString \/ (exists xx nn ii rr, rb_nodes s !! xx = Some nn /\ rn_requests nn !! ii = Some rr /\ d = rr_delivery xx nn rr) -> d <> rr_delivery x1 n1 r).
    { intros d [Hd|(xx & nn & ii & rr & H1 & H2 & ->)] E; [by rewrite E in Hd|]. destruct (proj1 G xx nn H1) as (n2 & Hn2 & Ht & Gr). destruct (Gr ii rr H2) as (r2 & Hr2 & S).
      rewrite <- (same_delivery xx nn n2 rr r2 Ht S) in E. destruct (delivery_inj _ _ _ _ _ _ _ _ _ I P Hn2 Hr2 Hn1 Hr E) as [-> ->]. rewrite H1 in Hold. congruence. }
    rewrite (proj1 (count_occ_not_In _ _ _)), (proj1 (count_occ_not_In _ _ _)); [lia| |]; intros Hd%list_elem_of_In; refine (Z1 _ _ eq_refl).
    + apply seen_request in Hd as [?|(xx & nn & ii & rr & ? & ? & _ & ?)]; [by left|right; by exists xx, nn, ii, rr|done].
    + destruct (ri_bus s I0 _ Hd) as [(yy & t & _ & _ & [?|(xx & nn & ii & rr & ? & ? & _ & ?)])|(xx & nn & ii & rr & _ & _ & _ & _ & ? & _)]; [by left|right; by exists xx, nn, ii, rr|by left].
Qed.

Lemma once_send x i ok s s' : tame s' -> rb_inv s' -> once s -> rb_Request_publish prefix x i ok s = Some s' -> once s'.
Proof.
  intros P I O E. pose proof (exec_rb_grows (RbSend x i ok) s s' ltac:(done) E) as G. unfold rb_Request_publish in E. node_of E. request_of_step E. destruct (rr_at r) eqn:Ea; try done.
  assert (Hs : rb_sent r = false) by (unfold rb_sent; by rewrite Ea). unfold rb_publish in E.
  destruct (negb _); [|destruct ok]; injection E as <-; [by apply (once_put s x n); [| | | | |by apply (set_back _ i r)]| |by apply (once_put s x n); [| | | | |by apply (set_back _ i r)]].
  set (n' := set_requests _ n) in *. intros x1 n1 i1 r1 y Hn1 Hr1. simpl. rewrite count_occ_app.
  assert (Es : seen (add_bus [mkDelivery (rr_key r) (rr_data r) (GetReplyRoutingKey prefix (rn_type n) x) (rr_corr r)] (put_node x n' s)) y = seen s y) by (by apply (seen_put s x n)). rewrite Es.
  destruct (calls_back s x n n' Hn (set_back _ i r (rr_set RbWaiting r) Hr ltac:(done)) x1 n1 i1 r1 Hn1 Hr1) as (n0 & r0 & Hn0 & Hr0 & Hs0).
  destruct (proj1 G x1 n0 Hn0) as (n2 & Hn2 & Ht & Gr). rewrite Hn1 in Hn2. injection Hn2 as <-. destruct (Gr i1 r0 Hr0) as (r2 & Hr2 & S). rewrite Hr1 in Hr2. injection Hr2 as <-.
  pose proof (same_delivery x1 n0 n1 r0 r1 Ht S) as Ed. specialize (O x1 n0 i1 r0 y Hn0 Hr0). rewrite <- Ed in O.
  cbn [count_occ]. destruct (delivery_eq_dec _ _) as [Eq|Nq]; [|destruct (rb_sent r0); [rewrite Hs0 by done; lia|lia]].
  assert (Hx : x1 = x /\ i1 = i).
  { apply (delivery_inj _ x1 n1 i1 r1 x n' i (rr_set RbWaiting r) I P Hn1 Hr1); [by simpl; rewrite lookup_insert_eq| |by rewrite <- Eq].
    simpl. apply list_lookup_insert_eq. by eapply lookup_lt_Some. }
  destruct Hx as [-> ->]. rewrite Hn in Hn0. injection Hn0 as <-. rewrite Hr in Hr0. injection Hr0 as <-. rewrite Hs in O.
  assert (rb_sent r1 = true) as ->; [|lia]. simpl in Hn1. rewrite lookup_insert_eq in Hn1. injection Hn1 as <-. simpl in Hr1.
  rewrite list_lookup_insert_eq in Hr1 by (by eapply lookup_lt_Some). by injection Hr1 as <-.
Qed.

Lemma seen_work s x n q y : rb_nodes s !! x = Some n -> wq_accepted q = wq_accepted (rn_work n) -> wq_rejected q = wq_rejected (rn_work n) ->
  seen (put_node x (set_work q n) s) y = seen s y.
Proof. intros Hn E1 E2. by apply (seen_put s x n). Qed.

Lemma exec_rb_once a s s' : tame s' -> rb_inv s -> once s -> exec_rb prefix GetType a s = Some s' -> once s'.
Proof.
  intros P' I O E. pose proof (exec_rb_grows a s s' (start_tame a s' P') E) as G. pose proof (exec_rb_inv a s s' P' I E) as I'.
  assert (K : forall n j (r' : rb_request), rn_requests n !! j = Some r' -> exists r, rn_requests n !! j = Some r /\ (rb_sent r = true -> rb_sent r' = true)) by (intros n j r' Hr; by exists r').
  destruct a; cbn [exec_rb] in E.
  - unfold rb_Init in E. destruct (Cluster_Init _ _) as [q|] eqn:Eq; cbn [mbind option_bind] in E; [|done]. injection E as <-.
    apply (once_step s); [done|done| |].
    + intros y m i r Hm Hr. simpl in Hm. apply lookup_insert_Some in Hm as [[<- <-]|[_ Hm]]; [done|by exists m, r].
    + intros d y _. simpl. unfold seen. simpl. destruct (decide (y = x)) as [->|Hne]; [|by rewrite lookup_insert_ne]. rewrite lookup_insert_eq. simpl.
      unfold Cluster_Init in Eq. destruct (_ || _); [done|]. injection Eq as <-. simpl. lia.
  - unfold rb_Publish in E. destruct (rb_nodes s !! x) as [n|]; cbn [mbind option_bind fmap option_fmap option_map] in E; [|done]. injection E as <-.
    destruct (rb_outgoing _ _ _ _) as [[key data]|]; [|done]. unfold rb_publish in *. destruct (negb _); [done|]. destruct ok; [|done].
    apply (once_step s); [done|done|intros y k i r Hk Hr; by exists k, r|]. intros d y Hd. set (p := mkDelivery key data EmptyString EmptyString). cbn [fst add_bus rb_bus]. rewrite count_occ_app. cbn [count_occ].
    destruct (delivery_eq_dec p d) as [<-|]; [done|]. unfold seen. simpl. lia.
  - by apply (once_start x nodeID m s).
  - unfold rb_Request_store in E. node_of E. request_of_step E. destruct (rr_at r) eqn:Ea; try done. injection E as <-. apply (once_put s x n); try done.
    apply (set_back _ i r); [done|]. unfold rb_sent. by rewrite Ea.
  - by apply (once_send x i ok s).
  - unfold rb_Request_receive in E. node_of E. request_of_step E. destruct (rr_at r) eqn:Ea; try done. destruct (rr_ch r); [done|]. injection E as <-. apply (once_put s x n); try done. by apply (set_back _ i r).
  - unfold rb_Request_timeout in E. node_of E. request_of_step E. destruct (rr_at r) eqn:Ea; try done. injection E as <-. apply (once_put s x n); try done. by apply (set_back _ i r).
  - unfold rb_Request_return in E. node_of E. request_of_step E. destruct (rr_at r) eqn:Ea; try done. injection E as <-. apply (once_put s x n); try done. by apply (set_back _ i r).
  - by apply (once_deliver k x ok s).
  - destruct (rb_bus s !! k) as [d|] eqn:Hk; cbn [mbind option_bind] in E; [|done]. injection E as <-. by apply (once_lose k d).
  - unfold rb_pumpReply_send in E. node_of E. destruct (rn_held n !! k) as [[i d]|]; cbn [mbind option_bind] in E; [|done]. request_of_step E. injection E as <-.
    apply (once_put s x n); try done. apply (set_back _ i r); [done|]. by destruct (_ <? _)%nat.
  - unfold rb_worker in E. node_of E. destruct (Cluster_worker j st (rn_work n)) as [q|] eqn:Eq; cbn [mbind option_bind] in E; [|done]. apply worker_seen in Eq as [E1 E2].
    assert (O' : once (put_node x (set_work q n) s)) by (apply (once_put s x n); try done; [by apply (grows_put_same x n)|apply (K n)]).
    destruct st; try (injection E as <-; exact O'). destruct (wq_workers (rn_work n) !! j) as [[|d b| |]|]; injection E as <-; try exact O'.
    apply once_answer; [exact O'|]. intros p Hp. by apply rb_process_shape in Hp as (_ & _ & ? & _).
  - unfold rb_Stop_flag in E. node_of E. injection E as <-. apply (once_put s x n); try done. apply (K n).
  - unfold rb_Stop_close in E. node_of E. destruct (Cluster_Stop_close _) as [q|] eqn:Eq; cbn [mbind option_bind] in E; [|done]. injection E as <-.
    unfold Cluster_Stop_close in Eq. destruct (_ && _); [|done]. injection Eq as <-. apply (once_put s x n); try done. apply (K n).
  - unfold rb_Stop_end in E. node_of E. case_if_in E; [|done]. injection E as <-. apply (once_put s x n); try done. apply (K n).
  - unfold rb_watch in E. node_of E. destruct w, (rn_watch n); try done; try (case_if_in E; try done); injection E as <-; (apply (once_put s x n); try done; apply (K n)).
Qed.

Lemma rb_reach_once s : rb_reach prefix GetType s -> tame s -> once s.
Proof.
  induction 1 as [|s a s' R IH E]; intros P; [intros x n i r y Hn; unfold empty_rb in Hn; cbn [rb_nodes] in Hn; by apply lookup_empty_Some in Hn|].
  assert (P0 : tame s) by (apply (tame_back s s'); [by apply (exec_rb_grows a); [apply start_tame|]|done]). by apply (exec_rb_once a s s' P (rb_reach_inv s R P0) (IH P0)).
Qed.

(** C13: A request over RabbitMQ is handled at most once. Of the message that a call publishes
    there is at most one in the whole network, in the broker or accepted or rejected by a
    node; no node but the one it was addressed to ever has it; and there is none before the
    call has published. Conditions: as for the answer of a request, no identifier is started
    twice, the types of the nodes hold no dot, and no node makes 2^64 requests. *)
Theorem rabbit_at_most_once (s : rb_net) (x : str) (n : rb_node) (i : nat) (r : rb_request) :
  rb_reach prefix GetType s -> rb_restarted s = false -> plain s -> rb_nodes s !! x = Some n -> rn_requests n !! i = Some r ->
  let d := mkDelivery (rr_key r) (rr_data r) (GetReplyRoutingKey prefix (rn_type n) x) (rr_corr r) in
  (forall y m, rb_nodes s !! y = Some m ->
     (count_occ delivery_eq_dec (rb_bus s) d + count_occ delivery_eq_dec (wq_accepted (rn_work m)) d +
      count_occ delivery_eq_dec (wq_rejected (rn_work m)) d <= if rb_sent r then 1 else 0)%nat /\
     (d ∈ wq_accepted (rn_work m) ++ wq_rejected (rn_work m) -> y = rr_to r)).
Proof.
  intros R Hs P0 Hn Hr d y m Hm. pose proof (conj Hs P0) as P. pose proof (rb_reach_once s R P x n i r y Hn Hr) as O. pose proof (rb_reach_inv s R P) as I. unfold seen in O. rewrite Hm in O. simpl in O.
  rewrite count_occ_app in O. change (rr_delivery x n r) with d in O. split; [lia|]. intros Hd.
  destruct (bn_work _ _ _ (ri_node s I y m Hm) d (or_intror Hd)) as [|(x' & n' & i' & r' & Hn' & Hr' & <- & E)]; [done|].
  destruct (delivery_inj s x n i r x' n' i' r' I P Hn Hr Hn' Hr' E) as [<- <-]. rewrite Hn in Hn'. injection Hn' as <-. rewrite Hr in Hr'. by injection Hr' as <-.
Qed.
End Inv.

(** ** The two transports *)

(** C39: The two transports treat a message alike: on the same body and reply address, with
    the same actor system, method table and codecs, [process] and the rejection of an
    overload publish the same reply to the same address on both, or none on both; they
    accept the same messages, rebuild the same context and use the same addresses. *)
Theorem transports_agree `{ClusterProto} (c : rb_calls) (d : delivery) (header : list (str * str)) :
  let as_delivery p := mkDelivery (pb_Subject p) (pb_Data p) EmptyString (dl_CorrelationId d) in
  let message := mkNatsMsg (dl_Body d) (dl_ReplyTo d) header in
  rb_process c d = as_delivery <$> Cluster_process (rc_codecs c) (rc_NotifyTarget c) (rc_InvokeTarget c) (rc_Dispatch c) (rc_now c) message /\
  rb_rejectOverload d = as_delivery <$> Cluster_rejectOverload (rc_codecs c) message /\
  (forall m, rb_validateMessage m = validateMessage m) /\ (forall now m, rb_messageContext now m = messageContext now m) /\
  forall prefix t x, GetRemoteRoutingKey prefix t x = GetRemoteSubject prefix t x /\ GetReplyRoutingKey prefix t x = GetReplySubject prefix t x.
Proof.
  intros as_delivery message.
  assert (V : forall m, rb_validateMessage m = validateMessage m).
  { intros [m|]; [|done]. unfold rb_validateMessage, validateMessage. destruct (_ || _); [done|]. by destruct (String.eqb _ _), (is_ok _). }
  assert (R : forall codecs m ctx r, rb_reply codecs d m ctx r = as_delivery <$> Cluster_reply codecs message m ctx r).
  { intros codecs m ctx r. unfold rb_reply, Cluster_reply. cbn [nm_Reply message]. destruct (_ || _); [done|].
    destruct (match ctx with Some _ => _ | None => _ end) as [payload res]. by destruct (cm_Marshal _). }
  split; [|split; [|split; [exact V|split; [done|done]]]].
  - unfold rb_process, Cluster_process. cbn [nm_Data message]. destruct (cm_Unmarshal _) as [m|]; [|done]. rewrite V.
    destruct (validateMessage (Some m)); [|done]. cbn [is_ok negb]. destruct (MsgType_eqb (cm_MsgType m) RESPONSE); [done|]. by rewrite R.
  - unfold rb_rejectOverload, Cluster_rejectOverload. cbn [nm_Data nm_Reply message]. destruct (String.eqb _ _); [done|].
    destruct (cm_Unmarshal _) as [m|]; [|done]. destruct (negb _); [done|]. rewrite R. unfold Cluster_reply. destruct (_ || _); [done|]. by destruct (cm_Marshal _).
Qed.

(** ** Runs *)

Definition demo_types (id : str) : res str := if String.eqb id "n2" then Ok "game"%string else Ok "gate"%string.
Definition demo_msg : ClusterMessage := (System_buildClusterMessage far_ctx "n2.bag" 100 REQUEST [Byte.x61] NewSystem).2.
Definition demo_calls : rb_calls := mkRbCalls 0 None (fun _ _ _ _ => None) (fun _ _ _ _ => Some (ErrorResult STATUS_UNAVAILABLE "bag is locked")) None.

Section Demo.
#[local] Existing Instance toy_cluster.

(** A request and its answer; another request gives up while its message is on its way. *)
Definition demo_rb_actions : list rb_action :=
  [RbInit "n1" "gate" 2 8; RbInit "n2" "game" 1 8; RbStart "n1" "n2" demo_msg; RbStore "n1" 0; RbSend "n1" 0 true;
   RbStart "n1" "n2" demo_msg; RbStore "n1" 1; RbSend "n1" 1 true; RbTimeout "n1" 1; RbReturn "n1" 1;
   RbDeliver 0 "n2" true; RbWorker "n2" 0 WReceive demo_calls true; RbWorker "n2" 0 WFinish demo_calls true;
   RbDeliver 1 "n1" true; RbReply "n1" 0; RbReceive "n1" 0; RbReturn "n1" 0]%string.

Definition demo_rb : rb_net := default empty_rb (run_rb "dev" demo_types demo_rb_actions empty_rb).

Lemma rb_run_reach l s s' : rb_reach "dev" demo_types s -> run_rb "dev" demo_types l s = Some s' -> rb_reach "dev" demo_types s'.
Proof.
  revert s. induction l as [|a l IH]; intros s R; [by intros [= <-]|]. change (run_rb "dev" demo_types (a :: l) s) with (foldl (fun s a => s ≫= exec_rb "dev" demo_types a) (exec_rb "dev" demo_types a s) l).
  destruct (exec_rb "dev" demo_types a s) as [s1|] eqn:E.
  - apply IH. by apply (rb_step _ _ s a).
  - intros F. exfalso. revert F. clear. induction l; [done|]. exact IHl.
Qed.

Lemma demo_rb_reach : rb_reach "dev" demo_types demo_rb.
Proof.
  unfold demo_rb. destruct (run_rb "dev" demo_types demo_rb_actions empty_rb) as [s|] eqn:E; [|constructor]. apply (rb_run_reach demo_rb_actions empty_rb); [constructor|exact E].
Qed.

Lemma demo_rb_plain : rb_restarted demo_rb = false /\ plain demo_rb.
Proof.
  split; [vm_compute; reflexivity|].
  assert (H : map_Forall (fun _ n => str_mem "." (rn_type n) = false /\ Z.of_nat (length (rn_requests n)) < 2 ^ 64) (rb_nodes demo_rb)).
  { apply (bool_decide_eq_true_1 _). vm_compute. reflexivity. }
  exact H.
Qed.

Lemma demo_types_plain id t : demo_types id = Ok t -> str_mem "." t = false.
Proof. unfold demo_types. destruct (String.eqb id "n2"); by intros [= <-]. Qed.

Definition call_at (s : rb_net) (x : str) (i : nat) : option (rb_node * rb_request) := n ← rb_nodes s !! x; r ← rn_requests n !! i; Some (n, r).

Lemma demo_rb_done : match call_at demo_rb "n1" 0 with Some (n, r) => match rr_at r with RbDone (Ok m) => cm_Message m = "bag is locked"%string | _ => False end | None => False end.
Proof. vm_compute. reflexivity. Qed.

Lemma call_at_some s x i n r : call_at s x i = Some (n, r) -> rb_nodes s !! x = Some n /\ rn_requests n !! i = Some r.
Proof.
  unfold call_at. destruct (rb_nodes s !! x) as [m|]; cbn [mbind option_bind]; [|done]. destruct (rn_requests m !! i) as [r'|] eqn:E; cbn [mbind option_bind]; [|done].
  by intros [= <- <-].
Qed.

Lemma rabbit_request_answered_witness :
  exists h m, h ∈ rb_answers demo_rb /\ cm_Unmarshal (dl_Body (an_reply h)) = Ok m /\ cm_Message m = "bag is locked"%string.
Proof.
  generalize demo_rb_reach, demo_rb_plain, demo_rb_done. generalize demo_rb. intros s R [P1 P2] D.
  destruct (call_at s "n1" 0) as [[n r]|] eqn:E; [|done]. apply call_at_some in E as [Hn Hr]. destruct (rr_at r) as [| | | |[m|]] eqn:Ea; try done.
  destruct (rabbit_request_answered "dev" demo_types demo_types_plain s _ n _ r m R P1 P2 Hn Hr Ea) as (h & Hh & _ & _ & _ & _ & Hm & _).
  exists h, m. split; [exact Hh|]. split; [exact Hm|exact D].
Defined.

Definition demo_copies : rb_net := default empty_rb (run_rb "dev" demo_types (take 11 demo_rb_actions) empty_rb).

Lemma demo_copies_reach : rb_reach "dev" demo_types demo_copies.
Proof.
  unfold demo_copies. destruct (run_rb "dev" demo_types (take 11 demo_rb_actions) empty_rb) as [s|] eqn:E; [|constructor]. apply (rb_run_reach (take 11 demo_rb_actions) empty_rb); [constructor|exact E].
Qed.

Lemma demo_copies_plain : rb_restarted demo_copies = false /\ plain demo_copies.
Proof.
  split; [vm_compute; reflexivity|].
  assert (H : map_Forall (fun _ n => str_mem "." (rn_type n) = false /\ Z.of_nat (length (rn_requests n)) < 2 ^ 64) (rb_nodes demo_copies)).
  { apply (bool_decide_eq_true_1 _). vm_compute. reflexivity. }
  exact H.
Qed.

Lemma demo_copies_call : is_Some (call_at demo_copies "n1" 0) /\ match rb_nodes demo_copies !! "n2"%string with Some m => length (wq_accepted (rn_work m)) = 1%nat | None => False end.
Proof. split; [eexists|]; vm_compute; reflexivity. Qed.

Lemma rabbit_at_most_once_witness :
  exists n r m, call_at demo_copies "n1" 0 = Some (n, r) /\ rb_nodes demo_copies !! "n2"%string = Some m /\ length (wq_accepted (rn_work m)) = 1%nat /\
    (count_occ delivery_eq_dec (wq_accepted (rn_work m)) (rr_delivery "dev" "n1" n r) <= 1)%nat.
Proof.
  generalize demo_copies_reach, demo_copies_plain, demo_copies_call. generalize demo_copies. intros s R [P1 P2] [[[n r] E] D].
  destruct (rb_nodes s !! "n2"%string) as [m|] eqn:Em; [|done]. exists n, r, m. split; [exact E|]. split; [reflexivity|]. split; [exact D|].
  apply call_at_some in E as [Hn Hr]. destruct (rabbit_at_most_once "dev" demo_types demo_types_plain s _ n _ r R P1 P2 Hn Hr _ m Em) as [H _].
  unfold rr_delivery. destruct (rb_sent r); lia.
Defined.

(** A process makes a request and is gone; the one that takes its identifier counts its
    requests, and its messages, from 1 again, and accepts the reply to the first one's
    request as that to its own, which nobody has handled. *)
Definition other_msg : ClusterMessage := (System_buildClusterMessage far_ctx "n2.bag" 200 REQUEST [Byte.x62] NewSystem).2.
Definition restart_actions : list rb_action :=
  [RbInit "n1" "gate" 2 8; RbInit "n2" "game" 1 8; RbStart "n1" "n2" demo_msg; RbStore "n1" 0; RbSend "n1" 0 true;
   RbDeliver 0 "n2" true; RbWorker "n2" 0 WReceive demo_calls true; RbWorker "n2" 0 WFinish demo_calls true;
   RbInit "n1" "gate" 2 8; RbStart "n1" "n2" other_msg; RbStore "n1" 0; RbSend "n1" 0 true;
   RbDeliver 0 "n1" true; RbReply "n1" 0; RbReceive "n1" 0; RbReturn "n1" 0]%string.

Lemma restart_takes_stale_reply :
  match run_rb "dev" demo_types restart_actions empty_rb with
  | Some s => match call_at s "n1" 0 with
              | Some (n, r) => match rr_at r with RbDone (Ok m) => String.eqb (cm_Message m) "bag is locked" | _ => false end
                               && (cm_MethodId (rr_msg r) =? 200) && Nat.eqb (length (rb_bus s)) 1
              | None => false
              end
  | None => false
  end = true.
Proof. vm_compute. reflexivity. Qed.

(** The node "c" of the type "a.b" and the node "b.c" of the type "a" have one key, so one
    queue: what is sent to the first is handled by the second. *)
Definition dotted_types (id : str) : res str := if String.eqb id "c" then Ok "a.b"%string else Ok "a"%string.

Lemma dotted_types_share_a_queue :
  GetRemoteRoutingKey "dev" "a.b" "c" = GetRemoteRoutingKey "dev" "a" "b.c" /\
  match run_rb "dev" dotted_types [RbInit "n1" "gate" 1 8; RbInit "c" "a.b" 1 8; RbInit "b.c" "a" 1 8;
      RbStart "n1" "c" demo_msg; RbStore "n1" 0; RbSend "n1" 0 true; RbDeliver 0 "b.c" true]%string empty_rb ≫=
    fun s => rb_nodes s !! "b.c"%string with
  | Some n => length (wq_accepted (rn_work n)) = 1%nat
  | None => False
  end.
Proof. split; vm_compute; reflexivity. Qed.

(** The connection is lost, and before it is restored the node is stopped: [Stop] closes
    what there is and returns, and the attempt that had passed its check connects
    afterwards. Nobody closes that connection. *)
Lemma stopped_node_keeps_connection :
  (fun n => (rn_closed n, rn_ch n, rn_watch n)) <$> (run_rb "dev" demo_types
    [RbInit "n1" "gate" 1 8; RbWatch "n1" WatchLost; RbWatch "n1" WatchGo; RbStopFlag "n1"; RbStopClose "n1";
     RbWorker "n1" 0 WSeeStop demo_calls true; RbWorker "n1" 0 WEmpty demo_calls true; RbStopEnd "n1";
     RbWatch "n1" (WatchDial true); RbWatch "n1" WatchStop]%string empty_rb ≫= fun s => rb_nodes s !! "n1"%string) =
  Some (true, true, WatchGone).
Proof. vm_compute. reflexivity. Qed.
End Demo.
