(* ===== verification/RedisLock.v ===== *)
(** The distributed lock on a Redis server (src/components/redis/lock.go).

    The locks of all processes, their watchdogs and the server are one state, and [exec_lock]
    is one step: an operation of a lock (its mutex makes it one, around the one command it
    sends), a tick or the end of a watchdog, a cancellation, the passing of time. A command
    can fail, and may have taken effect then. The server and the source of tokens are
    interfaces with the behaviour that they document. Times are nanoseconds. *)

From stdpp Require Import gmap sets strings.
From S2P Require Import Prelude.

(** ** The server *)

Definition ms_ns : Z := 1000000.

(** [r_live now k] is the value of a key that has not expired, with its deadline. *)
Class Redis := {
  rstate : Type;
  r_live : Z -> str -> rstate -> option (str * Z);
  r_setnx : Z -> str -> str -> Z -> rstate -> bool * rstate;
  r_del : Z -> str -> rstate -> Z * rstate;
  r_pexpire : Z -> str -> Z -> rstate -> Z * rstate;
  (** The milliseconds the client sends for a duration. *)
  r_px : Z -> Z;
  r_px_ms d : ms_ns <= d -> r_px d = d / ms_ns;
  r_px_pos d : 0 < d -> 0 < r_px d;
  r_live_deadline now k s v d : r_live now k s = Some (v, d) -> now < d;
  r_live_later now now' k s : now <= now' ->
    r_live now' k s = match r_live now k s with Some (v, d) => if now' <? d then Some (v, d) else None | None => None end;
  (** SET with NX and PX *)
  r_setnx_free now k v d s : r_live now k s = None -> 0 < d ->
    (r_setnx now k v d s).1 = true /\ r_live now k (r_setnx now k v d s).2 = Some (v, now + r_px d * ms_ns);
  r_setnx_held now k v d s e : r_live now k s = Some e ->
    (r_setnx now k v d s).1 = false /\ r_live now k (r_setnx now k v d s).2 = Some e;
  r_setnx_other now k v d s k' : k' <> k -> r_live now k' (r_setnx now k v d s).2 = r_live now k' s;
  (** DEL *)
  r_del_live now k s e : r_live now k s = Some e -> (r_del now k s).1 = 1 /\ r_live now k (r_del now k s).2 = None;
  r_del_other now k s k' : k' <> k -> r_live now k' (r_del now k s).2 = r_live now k' s;
  (** PEXPIRE; a time that is not ahead deletes the key. *)
  r_pexpire_live now k ms s v d : r_live now k s = Some (v, d) -> 0 < ms ->
    (r_pexpire now k ms s).1 = 1 /\ r_live now k (r_pexpire now k ms s).2 = Some (v, now + ms * ms_ns);
  r_pexpire_past now k ms s e : r_live now k s = Some e -> ms <= 0 ->
    (r_pexpire now k ms s).1 = 1 /\ r_live now k (r_pexpire now k ms s).2 = None;
  r_pexpire_other now k ms s k' : k' <> k -> r_live now k' (r_pexpire now k ms s).2 = r_live now k' s
}.

(** The identifiers of [nuid]: different for every call, and not empty. *)
Class Tokens := { tok : nat -> str; tok_inj : Inj (=) (=) tok; tok_ne n : tok n <> EmptyString }.

Section Lock.
Context `{Redis} `{Tokens}.

Definition r_get (now : Z) (k : str) (s : rstate) : option str := fst <$> r_live now k s.

(** src/components/redis/lock.go:32-38, unlockScript *)
Definition unlockScript (now : Z) (key token : str) (s : rstate) : Z * rstate :=
  if decide (r_get now key s = Some token) then r_del now key s else (0, s).

(** src/components/redis/lock.go:41-47, renewScript *)
Definition renewScript (now : Z) (key token : str) (ms : Z) (s : rstate) : Z * rstate :=
  if decide (r_get now key s = Some token) then r_pexpire now key ms s else (0, s).

(** ** Locks *)

(** [None] is no error. *)
(** src/components/redis/lock.go:15-22, ErrLockNotObtained, ErrLockNotHeld, ErrClientNil *)
Inductive lock_err := ErrLockNotObtained | ErrLockNotHeld | ErrClientNil | ErrCommand | ErrContext.

(** src/components/redis/lock.go:26-26, defaultLockTTL *)
Definition defaultLockTTL : Z := 30 * 1000000000.
(** src/components/redis/lock.go:28-28, defaultRetryInterval *)
Definition defaultRetryInterval : Z := 100 * 1000000.

(** Channels are numbered; the empty token is a lock that is not held. *)
(** src/components/redis/lock.go:55-66, Lock *)
Record Lock := mkLock {
  lk_rdb : bool; lk_key : str; lk_ttl : Z; lk_retryInterval : Z; lk_autoRenew : bool;
  lk_token : str; lk_stopCh : option nat; lk_watching : bool }.

(** src/components/redis/lock.go:69-69, Option *)
Definition LockOption : Type := Lock -> Lock.

(** src/components/redis/lock.go:73-79, WithTTL *)
Definition WithTTL (ttl : Z) : LockOption := fun l =>
  if 0 <? ttl then mkLock (lk_rdb l) (lk_key l) ttl (lk_retryInterval l) (lk_autoRenew l) (lk_token l) (lk_stopCh l) (lk_watching l) else l.

(** src/components/redis/lock.go:82-88, WithRetryInterval *)
Definition WithRetryInterval (interval : Z) : LockOption := fun l =>
  if 0 <? interval then mkLock (lk_rdb l) (lk_key l) (lk_ttl l) interval (lk_autoRenew l) (lk_token l) (lk_stopCh l) (lk_watching l) else l.

(** src/components/redis/lock.go:92-96, WithAutoRenew *)
Definition WithAutoRenew : LockOption := fun l =>
  mkLock (lk_rdb l) (lk_key l) (lk_ttl l) (lk_retryInterval l) true (lk_token l) (lk_stopCh l) (lk_watching l).

(** src/components/redis/lock.go:99-112, NewLock *)
Definition NewLock (rdb : bool) (key : str) (opts : list LockOption) : Lock :=
  fold_left (fun l opt => opt l) opts (mkLock rdb key defaultLockTTL defaultRetryInterval false EmptyString None false).

(** The component of the process: whether it has a client, and its prefix. *)
(** src/components/redis/lock.go:116-125, NewLockWithInstance *)
Definition NewLockWithInstance (instance : option (bool * str)) (key : str) (opts : list LockOption) : Lock :=
  let fullKey := match instance with
                 | Some (_, prefix) => if decide (prefix = EmptyString) then key else String.append prefix key
                 | None => key
                 end in
  NewLock (match instance with Some (rdb, _) => rdb | None => false end) fullKey opts.

(** A watchdog goroutine: the channel, the context and the token it has, its ticker. *)
Record Dog := mkDog { dg_lock : nat; dg_stop : nat; dg_ctx : nat; dg_token : str; dg_interval : Z; dg_next : Z }.

(** Locks, watchdogs, channels and contexts are numbered; [w_tokens] have been drawn. *)
Record lworld := mkW {
  w_now : Z; w_redis : rstate; w_locks : gmap nat Lock; w_dogs : gmap nat Dog;
  w_closed : gset nat; w_nchans : nat; w_cancelled : gset nat; w_tokens : nat }.

Definition with_redis (r : rstate) (w : lworld) : lworld :=
  mkW (w_now w) r (w_locks w) (w_dogs w) (w_closed w) (w_nchans w) (w_cancelled w) (w_tokens w).
Definition with_lock (i : nat) (l : Lock) (w : lworld) : lworld :=
  mkW (w_now w) (w_redis w) (<[i := l]> (w_locks w)) (w_dogs w) (w_closed w) (w_nchans w) (w_cancelled w) (w_tokens w).
Definition with_dogs (ds : gmap nat Dog) (w : lworld) : lworld :=
  mkW (w_now w) (w_redis w) (w_locks w) ds (w_closed w) (w_nchans w) (w_cancelled w) (w_tokens w).
Definition draw_token (w : lworld) : str * lworld :=
  (tok (w_tokens w), mkW (w_now w) (w_redis w) (w_locks w) (w_dogs w) (w_closed w) (w_nchans w) (w_cancelled w) (S (w_tokens w))).

Definition set_token (t : str) (l : Lock) : Lock :=
  mkLock (lk_rdb l) (lk_key l) (lk_ttl l) (lk_retryInterval l) (lk_autoRenew l) t (lk_stopCh l) (lk_watching l).
Definition set_watch (ch : option nat) (b : bool) (l : Lock) : Lock :=
  mkLock (lk_rdb l) (lk_key l) (lk_ttl l) (lk_retryInterval l) (lk_autoRenew l) (lk_token l) ch b.

(** What becomes of a command: its answer arrives, or an error, and then the server may have
    carried it out or not. *)
Inductive reply := Answered | Failed (applied : bool).

Definition command {A} (f : rstate -> A * rstate) (o : reply) (w : lworld) : option A * lworld :=
  match o with
  | Answered => (Some (f (w_redis w)).1, with_redis (f (w_redis w)).2 w)
  | Failed true => (None, with_redis (f (w_redis w)).2 w)
  | Failed false => (None, w)
  end.

(** A third of the time to live, when that is not nothing. *)
Definition dog_interval (l : Lock) : Z := let i := Z.quot (lk_ttl l) 3 in if i <=? 0 then lk_ttl l else i.

(** The goroutine takes the number of its channel. *)
(** src/components/redis/lock.go:240-284, Lock.startWatchdog *)
Definition startWatchdog (i ctx : nat) (l : Lock) (w : lworld) : lworld :=
  if lk_watching l then with_lock i l w
  else
    let ch := w_nchans w in
    let l := set_watch (Some ch) true l in
    let interval := dog_interval l in
    let dog := mkDog i ch ctx (lk_token l) interval (w_now w + interval) in
    mkW (w_now w) (w_redis w) (<[i := l]> (w_locks w)) (<[ch := dog]> (w_dogs w)) (w_closed w) (S ch) (w_cancelled w) (w_tokens w).

(** src/components/redis/lock.go:287-292, Lock.stopWatchdog *)
Definition stopWatchdog (i : nat) (l : Lock) (w : lworld) : lworld :=
  match lk_watching l, lk_stopCh l with
  | true, Some ch =>
      let w := with_lock i (set_watch (lk_stopCh l) false l) w in
      mkW (w_now w) (w_redis w) (w_locks w) (w_dogs w) ({[ch]} ∪ w_closed w) (w_nchans w) (w_cancelled w) (w_tokens w)
  | _, _ => with_lock i l w
  end.

(** src/components/redis/lock.go:134-158, Lock.TryLock *)
Definition TryLock (i ctx : nat) (l : Lock) (o : reply) (w : lworld) : option lock_err * lworld :=
  if negb (lk_rdb l) then (Some ErrClientNil, w)
  else
    let '(token, w) := draw_token w in
    match command (r_setnx (w_now w) (lk_key l) token (lk_ttl l)) o w with
    | (None, w) => (Some ErrCommand, w)
    | (Some false, w) => (Some ErrLockNotObtained, w)
    | (Some true, w) =>
        let l := set_token token l in
        (None, if lk_autoRenew l then startWatchdog i ctx l w else with_lock i l w)
    end.

(** src/components/redis/lock.go:190-211, Lock.Unlock *)
Definition Unlock (i : nat) (l : Lock) (o : reply) (w : lworld) : option lock_err * lworld :=
  if decide (lk_token l = EmptyString) then (Some ErrLockNotHeld, w)
  else
    let token := lk_token l in
    let w := stopWatchdog i l w in
    let l := default l (w_locks w !! i) in
    let '(res, w) := command (unlockScript (w_now w) (lk_key l) token) o w in
    let w := with_lock i (set_token EmptyString l) w in
    match res with
    | None => (Some ErrCommand, w)
    | Some n => (if n =? 0 then Some ErrLockNotHeld else None, w)
    end.

(** src/components/redis/lock.go:222-237, Lock.renew *)
Definition renew (l : Lock) (o : reply) (w : lworld) : option lock_err * lworld :=
  if decide (lk_token l = EmptyString) then (Some ErrLockNotHeld, w)
  else
    match command (renewScript (w_now w) (lk_key l) (lk_token l) (Z.quot (lk_ttl l) ms_ns)) o w with
    | (None, w) => (Some ErrCommand, w)
    | (Some n, w) => (if n =? 0 then Some ErrLockNotHeld else None, w)
    end.

(** src/components/redis/lock.go:215-220, Lock.Renew *)
Definition Renew (l : Lock) (o : reply) (w : lworld) : option lock_err * lworld := renew l o w.

Definition kill_dog (d : nat) (w : lworld) : lworld := with_dogs (delete d (w_dogs w)) w.

(** A turn of the watchdog on its ticker, at or after the time it is due. A tick that is
    missed is dropped: the next is the first multiple that is still ahead. *)
(** src/components/redis/lock.go:266-281, Lock.startWatchdog *)
Definition dog_tick (d : nat) (dog : Dog) (l : Lock) (o : reply) (w : lworld) : lworld :=
  let next := dg_next dog + dg_interval dog * ((w_now w - dg_next dog) / dg_interval dog + 1) in
  let w := with_dogs (<[d := mkDog (dg_lock dog) (dg_stop dog) (dg_ctx dog) (dg_token dog) (dg_interval dog) next]> (w_dogs w)) w in
  if decide (lk_token l <> dg_token dog) then kill_dog d w
  else match renew l o w with
       | (None, w) => w
       | (Some _, w) => kill_dog d w
       end.

(** ** Runs *)

(** The options there are: the fields of a lock are private to the package. *)
Inductive lock_opt := OTTL (ttl : Z) | ORetry (interval : Z) | OAutoRenew.
Definition opt_fun (o : lock_opt) : LockOption :=
  match o with OTTL ttl => WithTTL ttl | ORetry interval => WithRetryInterval interval | OAutoRenew => WithAutoRenew end.

Inductive laction :=
| LNew (i : nat) (rdb : bool) (key : str) (opts : list lock_opt)
| LTryLock (i ctx : nat) (o : reply)
| LUnlock (i : nat) (o : reply)
| LRenew (i : nat) (o : reply)
| LTick (d : nat) (o : reply)       (* a watchdog's ticker *)
| LDogEnd (d : nat)                 (* a watchdog sees its channel closed or its context done *)
| LCancel (ctx : nat)
| LTime (t : Z).

(** [None]: the step is not possible. *)
Definition exec_lock (a : laction) (w : lworld) : option (option lock_err * lworld) :=
  match a with
  | LNew i rdb key opts =>
      if decide (w_locks w !! i = None) then Some (None, with_lock i (NewLock rdb key (map opt_fun opts)) w) else None
  | LTryLock i ctx o => l ← w_locks w !! i; Some (TryLock i ctx l o w)
  | LUnlock i o => l ← w_locks w !! i; Some (Unlock i l o w)
  | LRenew i o => l ← w_locks w !! i; Some (Renew l o w)
  | LTick d o =>
      dog ← w_dogs w !! d; l ← w_locks w !! dg_lock dog;
      if dg_next dog <=? w_now w then Some (None, dog_tick d dog l o w) else None
  | LDogEnd d =>
      dog ← w_dogs w !! d;
      if decide (dg_stop dog ∈ w_closed w \/ dg_ctx dog ∈ w_cancelled w) then Some (None, kill_dog d w) else None
  | LCancel ctx =>
      Some (None, mkW (w_now w) (w_redis w) (w_locks w) (w_dogs w) (w_closed w) (w_nchans w) ({[ctx]} ∪ w_cancelled w) (w_tokens w))
  | LTime t =>
      if w_now w <=? t then
        Some (None, mkW t (w_redis w) (w_locks w) (w_dogs w) (w_closed w) (w_nchans w) (w_cancelled w) (w_tokens w))
      else None
  end.

(** A run is a list of steps from a state. *)
Fixpoint lrun (acts : list laction) (w : lworld) : option lworld :=
  match acts with
  | [] => Some w
  | a :: acts => '(_, w) ← exec_lock a w; lrun acts w
  end.

(** A turn of the blocking loop: the answer to its attempt, what others do while it waits,
    and whether the context is done when it stops waiting. *)
Record lock_turn := mkTurn { lt_reply : reply; lt_others : list laction; lt_done : bool }.

(** [None]: the turns are used up and the call still waits, or they are not possible. *)
(** src/components/redis/lock.go:162-186, Lock.Lock *)
Fixpoint Lock_loop (i ctx : nat) (turns : list lock_turn) (w : lworld) : option (option lock_err * lworld) :=
  match turns with
  | [] => None
  | t :: turns =>
      '(err, w) ← exec_lock (LTryLock i ctx (lt_reply t)) w;
      match err with
      | Some ErrLockNotObtained =>
          w ← lrun (lt_others t) w;
          if lt_done t then Some (Some ErrContext, w) else Lock_loop i ctx turns w
      | _ => Some (err, w)
      end
  end.

(** [fn] is what the caller does with the lock: steps of the system, and its error. *)
(** src/components/redis/lock.go:296-309, WithLock *)
Definition WithLock (i ctx : nat) (rdb : bool) (key : str) (fn : list laction * option lock_err)
    (opts : list lock_opt) (turns : list lock_turn) (o : reply) (w : lworld) : option (option lock_err * lworld) :=
  '(_, w) ← exec_lock (LNew i rdb key opts) w;
  '(err, w) ← Lock_loop i ctx turns w;
  match err with
  | Some _ => Some (err, w)
  | None =>
      w ← lrun fn.1 w;
      '(_, w) ← exec_lock (LUnlock i o) w;
      Some (fn.2, w)
  end.

(** At the start there are no locks, and no key holds a token yet to be drawn. *)
Definition lock_init (w : lworld) : Prop :=
  w_locks w = ∅ /\ w_dogs w = ∅ /\ w_closed w = ∅ /\
  forall k v d, r_live (w_now w) k (w_redis w) = Some (v, d) -> forall n, (w_tokens w <= n)%nat -> v <> tok n.

Definition lock_reach (w : lworld) : Prop := exists w0 acts, lock_init w0 /\ lrun acts w0 = Some w.

(** The lock holds its key, until [d] unless it is renewed. *)
Definition holds (i : nat) (d : Z) (w : lworld) : Prop :=
  exists l, w_locks w !! i = Some l /\ lk_token l <> EmptyString /\
    r_live (w_now w) (lk_key l) (w_redis w) = Some (lk_token l, d).

(** ** Who holds a lock *)

(** Locks have tokens that were drawn, each its own; no key holds one still to be drawn. *)
Definition tokens_inv (w : lworld) : Prop :=
  (forall i l, w_locks w !! i = Some l -> lk_token l <> EmptyString -> exists n, (n < w_tokens w)%nat /\ lk_token l = tok n) /\
  (forall i j li lj, w_locks w !! i = Some li -> w_locks w !! j = Some lj ->
     lk_token li <> EmptyString -> lk_token li = lk_token lj -> i = j) /\
  (forall k v d, r_live (w_now w) k (w_redis w) = Some (v, d) -> forall n, (w_tokens w <= n)%nat -> v <> tok n).

(** What the commands can leave behind. *)
Lemma setnx_values now k v d s k' e : 0 < d -> r_live now k' (r_setnx now k v d s).2 = Some e ->
  r_live now k' s = Some e \/ (k' = k /\ e = (v, now + r_px d * ms_ns)).
Proof.
  intros Hd E. destruct (decide (k' = k)) as [-> | Hk]; [|left; by rewrite r_setnx_other in E].
  destruct (r_live now k s) as [e0|] eqn:E0.
  - destruct (r_setnx_held now k v d s e0 E0) as [_ E1]. left. congruence.
  - destruct (r_setnx_free now k v d s E0 Hd) as [_ E1]. right. split; [done|congruence].
Qed.

Lemma get_live now k s v : r_get now k s = Some v -> exists d, r_live now k s = Some (v, d).
Proof. unfold r_get. destruct (r_live now k s) as [[v' d]|]; [|done]. intros E. injection E as ->. by exists d. Qed.

Lemma unlock_values now k t s k' e : r_live now k' (unlockScript now k t s).2 = Some e -> r_live now k' s = Some e.
Proof.
  unfold unlockScript. destruct (decide (r_get now k s = Some t)) as [G|]; [|done].
  apply get_live in G as [d G]. destruct (decide (k' = k)) as [-> | Hk]; [|by rewrite r_del_other].
  destruct (r_del_live now k s _ G) as [_ E]. congruence.
Qed.

Lemma unlock_spares now k t s k' v d : r_live now k' s = Some (v, d) -> v <> t ->
  r_live now k' (unlockScript now k t s).2 = Some (v, d).
Proof.
  intros E Hv. unfold unlockScript. destruct (decide (r_get now k s = Some t)) as [G|]; [|done].
  apply get_live in G as [d' G]. rewrite r_del_other; [done|]. intros ->. congruence.
Qed.

Lemma renew_values now k t ms s k' v d : r_live now k' (renewScript now k t ms s).2 = Some (v, d) ->
  exists d', r_live now k' s = Some (v, d').
Proof.
  unfold renewScript. destruct (decide (r_get now k s = Some t)) as [G|]; [|eauto].
  apply get_live in G as [d' G]. destruct (decide (k' = k)) as [-> | Hk]; [|rewrite r_pexpire_other; eauto].
  intros E. destruct (Z.lt_ge_cases 0 ms) as [Hm|Hm].
  - destruct (r_pexpire_live now k ms s t d' G Hm) as [_ E']. exists d'. congruence.
  - destruct (r_pexpire_past now k ms s _ G Hm) as [_ E']. congruence.
Qed.

Lemma renew_keeps now k t ms s k' v d : r_live now k' s = Some (v, d) -> (v = t -> 0 < ms) ->
  exists d', (d' = d \/ (v = t /\ d' = now + ms * ms_ns)) /\ r_live now k' (renewScript now k t ms s).2 = Some (v, d').
Proof.
  intros E Hm. unfold renewScript. destruct (decide (r_get now k s = Some t)) as [G|]; [|exists d; auto].
  apply get_live in G as [d' G]. destruct (decide (k' = k)) as [-> | Hk].
  - assert (v = t) as -> by congruence. destruct (r_pexpire_live now k ms s t d' G (Hm eq_refl)) as [_ E'].
    exists (now + ms * ms_ns). auto.
  - exists d. split; [by left|by rewrite r_pexpire_other].
Qed.

Lemma command_cases {A} (f : rstate -> A * rstate) o w r w' : command f o w = (r, w') ->
  (r = None /\ w' = w) \/ (w' = with_redis (f (w_redis w)).2 w /\ (r = None \/ r = Some (f (w_redis w)).1)).
Proof. destruct o as [|[]]; cbn; intros E; injection E as <- <-; auto. Qed.

Lemma holds_unique w i j di dj li lj : tokens_inv w -> holds i di w -> holds j dj w ->
  w_locks w !! i = Some li -> w_locks w !! j = Some lj -> lk_key li = lk_key lj -> i = j.
Proof.
  intros (_ & Hu & _) (l1 & E1 & N1 & L1) (l2 & E2 & N2 & L2) Ei Ej Ek.
  rewrite Ei in E1. rewrite Ej in E2. injection E1 as <-. injection E2 as <-.
  rewrite Ek in L1. rewrite L2 in L1. injection L1 as Et _. by apply (Hu i j li lj).
Qed.

Lemma inv_lock w i l l' : tokens_inv w -> w_locks w !! i = Some l -> (lk_token l' = lk_token l \/ lk_token l' = EmptyString) ->
  tokens_inv (with_lock i l' w).
Proof.
  intros (Hd & Hu & Hr) E Ht. split; [|split; [|exact Hr]]; cbn.
  - intros j lj Ej Hne. destruct (decide (i = j)) as [<- | Hij].
    + rewrite lookup_insert_eq in Ej. injection Ej as <-. destruct Ht as [Ht|]; [|done]. rewrite Ht in *. by apply (Hd i l).
    + rewrite lookup_insert_ne in Ej by done. by apply (Hd j lj).
  - assert (G : forall j lj, <[i := l']> (w_locks w) !! j = Some lj -> lk_token lj <> EmptyString ->
      exists lj0, w_locks w !! j = Some lj0 /\ lk_token lj0 = lk_token lj).
    { intros j lj Ej Hne. destruct (decide (i = j)) as [<- | Hij].
      - rewrite lookup_insert_eq in Ej. injection Ej as <-. destruct Ht as [Ht|]; [|done]. by exists l.
      - rewrite lookup_insert_ne in Ej by done. by exists lj. }
    intros j k lj lk Ej Ek Hne Eq. destruct (G j lj Ej Hne) as (lj0 & Ej0 & Tj).
    destruct (G k lk Ek ltac:(congruence)) as (lk0 & Ek0 & Tk). apply (Hu j k lj0 lk0); congruence.
Qed.

Lemma inv_redis w r : tokens_inv w ->
  (forall k v d, r_live (w_now w) k r = Some (v, d) -> exists d', r_live (w_now w) k (w_redis w) = Some (v, d')) ->
  tokens_inv (with_redis r w).
Proof. intros (Hd & Hu & Hr) Hs. split; [exact Hd|split; [exact Hu|]]. intros k v d [d' E]%Hs. by apply (Hr k v d'). Qed.

(** A lock with a new token that may be in the server. *)
Lemma inv_draw w r : tokens_inv w ->
  (forall k v d, r_live (w_now w) k r = Some (v, d) ->
     v = tok (w_tokens w) \/ exists d', r_live (w_now w) k (w_redis w) = Some (v, d')) ->
  tokens_inv (with_redis r (draw_token w).2) /\
  forall i l l', w_locks w !! i = Some l -> lk_token l' = tok (w_tokens w) ->
    tokens_inv (with_lock i l' (with_redis r (draw_token w).2)).
Proof.
  intros (Hd & Hu & Hr) Hs.
  assert (Hr' : forall k v d, r_live (w_now w) k r = Some (v, d) -> forall n, (S (w_tokens w) <= n)%nat -> v <> tok n).
  { intros k v d E n Hn. destruct (Hs k v d E) as [-> | [d' E']].
    - intros Heq%tok_inj. lia.
    - apply (Hr k v d' E'). lia. }
  assert (Hd' : forall i l, w_locks w !! i = Some l -> lk_token l <> EmptyString -> exists n, (n < S (w_tokens w))%nat /\ lk_token l = tok n).
  { intros i l E Hne. destruct (Hd i l E Hne) as (n & Hn & Et). exists n. split; [lia|done]. }
  split; [split; [exact Hd'|split; [exact Hu|exact Hr']]|].
  intros i l l' E Et. split; [|split; [|exact Hr']]; cbn.
  - intros j lj Ej Hne. destruct (decide (i = j)) as [<- | Hij].
    + rewrite lookup_insert_eq in Ej. injection Ej as <-. exists (w_tokens w). split; [lia|done].
    + rewrite lookup_insert_ne in Ej by done. by apply (Hd' j lj).
  - assert (F : forall j lj, w_locks w !! j = Some lj -> lk_token lj <> EmptyString -> lk_token lj <> tok (w_tokens w)).
    { intros j lj Ej Hne. destruct (Hd j lj Ej Hne) as (n & Hn & ->). intros Heq%tok_inj. lia. }
    intros j k lj lk Ej Ek Hne Eq. destruct (decide (i = j)) as [<- | Hij], (decide (i = k)) as [<- | Hik]; [done|..].
    + rewrite lookup_insert_eq in Ej. rewrite lookup_insert_ne in Ek by done. injection Ej as <-.
      exfalso. apply (F k lk Ek); congruence.
    + rewrite lookup_insert_eq in Ek. rewrite lookup_insert_ne in Ej by done. injection Ek as <-.
      exfalso. apply (F j lj Ej); congruence.
    + rewrite lookup_insert_ne in Ej, Ek by done. by apply (Hu j k lj lk).
Qed.

Definition ttl_inv (w : lworld) : Prop := forall i l, w_locks w !! i = Some l -> 0 < lk_ttl l.
Definition lock_inv (w : lworld) : Prop := tokens_inv w /\ ttl_inv w.

Lemma new_lock_fields rdb key opts : let l := NewLock rdb key (map opt_fun opts) in
  lk_key l = key /\ lk_rdb l = rdb /\ 0 < lk_ttl l /\ lk_token l = EmptyString /\ lk_watching l = false.
Proof.
  unfold NewLock. assert (G : forall l0, lk_key l0 = key -> lk_rdb l0 = rdb -> 0 < lk_ttl l0 -> lk_token l0 = EmptyString -> lk_watching l0 = false ->
    let l := fold_left (fun l opt => opt l) (map opt_fun opts) l0 in
    lk_key l = key /\ lk_rdb l = rdb /\ 0 < lk_ttl l /\ lk_token l = EmptyString /\ lk_watching l = false).
  { induction opts as [|o opts IH]; intros l0 H1 H2 H3 H4 H5; [done|]. cbn [map fold_left].
    destruct o as [ttl|itv|]; cbn [opt_fun]; unfold WithTTL, WithRetryInterval;
      [destruct (Z.ltb_spec 0 ttl)|destruct (Z.ltb_spec 0 itv)|]; by apply IH. }
  apply G; done.
Qed.

Lemma ttl_with_lock w i l : ttl_inv w -> 0 < lk_ttl l -> ttl_inv (with_lock i l w).
Proof.
  intros H1 H2 j lj E. cbn in E. destruct (decide (i = j)) as [<- | Hij].
  - rewrite lookup_insert_eq in E. by injection E as <-.
  - rewrite lookup_insert_ne in E by done. by apply (H1 j).
Qed.

(** The invariant reads the locks, the server, the clock and the count of tokens only. *)
Lemma lock_inv_ext w w' : w_locks w' = w_locks w -> w_redis w' = w_redis w -> w_now w' = w_now w -> w_tokens w' = w_tokens w ->
  lock_inv w -> lock_inv w'.
Proof. unfold lock_inv, tokens_inv, ttl_inv. intros -> -> -> ->. done. Qed.

Lemma startWatchdog_inv i ctx l w : lock_inv (with_lock i l w) -> lock_inv (startWatchdog i ctx l w).
Proof.
  unfold startWatchdog. intros I. destruct (lk_watching l); [exact I|].
  destruct I as [I T]. assert (E : w_locks (with_lock i l w) !! i = Some l) by apply lookup_insert_eq.
  set (l' := set_watch (Some (w_nchans w)) true l).
  apply (lock_inv_ext (with_lock i l' (with_lock i l w))); try done; [cbn; by rewrite insert_insert_eq|].
  split; [by apply (inv_lock _ i l); [|exact E|left]|]. apply ttl_with_lock; [exact T|]. by apply (T i l).
Qed.

Lemma stopWatchdog_inv i l w : w_locks w !! i = Some l -> lock_inv w ->
  lock_inv (stopWatchdog i l w) /\ w_now (stopWatchdog i l w) = w_now w /\ w_redis (stopWatchdog i l w) = w_redis w /\
  exists l', w_locks (stopWatchdog i l w) = <[i := l']> (w_locks w) /\ lk_token l' = lk_token l /\ lk_key l' = lk_key l /\ lk_ttl l' = lk_ttl l.
Proof.
  intros E [I T]. assert (G : forall l', lk_token l' = lk_token l -> lk_ttl l' = lk_ttl l -> lock_inv (with_lock i l' w)).
  { intros l' Et El. split; [by apply (inv_lock w i l); [|exact E|left]|]. apply ttl_with_lock; [exact T|]. rewrite El. by apply (T i). }
  unfold stopWatchdog. destruct (lk_watching l), (lk_stopCh l) as [ch|] eqn:Ec.
  1: split; [by apply (lock_inv_ext (with_lock i (set_watch (Some ch) false l) w)), G|].
  2-4: split; [by apply G|]. all: repeat split; eexists; repeat split; done.
Qed.

Lemma renew_inv l o w : lock_inv w -> lock_inv (renew l o w).2 /\ w_locks (renew l o w).2 = w_locks w.
Proof.
  intros [I T]. unfold renew. destruct (decide _); [done|]. destruct (command _ o w) as [r w'] eqn:C.
  assert (lock_inv w' /\ w_locks w' = w_locks w) as G.
  { apply command_cases in C as [[_ ->] | [-> _]]; [done|]. split; [|done]. split; [|exact T].
    apply inv_redis; [exact I|]. intros k v d. apply renew_values. }
  by destruct r as [m|].
Qed.

Lemma TryLock_inv i ctx l o w : w_locks w !! i = Some l -> lock_inv w -> lock_inv (TryLock i ctx l o w).2.
Proof.
  intros E [I T]. pose proof (T i l E) as Hl. unfold TryLock. destruct (negb _); [done|]. cbn [draw_token].
  destruct (command _ o _) as [r w'] eqn:C. set (w1 := (draw_token w).2) in *.
  assert (Hw : exists s, w' = with_redis s w1 /\ forall k v d, r_live (w_now w) k s = Some (v, d) ->
    v = tok (w_tokens w) \/ exists d', r_live (w_now w) k (w_redis w) = Some (v, d')).
  { apply command_cases in C as [[_ ->] | [-> _]].
    - exists (w_redis w). split; [done|eauto].
    - eexists. split; [done|]. intros k v d Ev. apply setnx_values in Ev as [Ev | [-> Ev]]; [eauto|left; by injection Ev|exact Hl]. }
  destruct Hw as (s & -> & Hs). destruct (inv_draw w s I Hs) as [I1 I2].
  destruct r as [[]|]; [|by split..].
  assert (G : lock_inv (with_lock i (set_token (tok (w_tokens w)) l) (with_redis s w1))).
  { split; [by apply (I2 i l)|]. apply ttl_with_lock; [exact T|exact Hl]. }
  cbn. destruct (lk_autoRenew l); [by apply startWatchdog_inv|exact G].
Qed.

Lemma Unlock_inv i l o w : w_locks w !! i = Some l -> lock_inv w -> lock_inv (Unlock i l o w).2.
Proof.
  intros E I. unfold Unlock. destruct (decide _); [done|].
  destruct (stopWatchdog_inv i l w E I) as (I1 & _ & _ & l' & El & _ & _ & Ht). set (w1 := stopWatchdog i l w) in *.
  rewrite El, lookup_insert_eq. cbn [default]. destruct (command _ o w1) as [r w'] eqn:C.
  assert (G : lock_inv w' /\ w_locks w' = w_locks w1).
  { apply command_cases in C as [[_ ->] | [-> _]]; [done|]. split; [|done]. destruct I1 as [I1 T1]. split; [|exact T1].
    apply inv_redis; [exact I1|]. intros k v d Ev. exists d. by apply unlock_values in Ev. }
  destruct G as [[I2 T2] El2]. assert (E2 : w_locks w' !! i = Some l') by (rewrite El2, El; apply lookup_insert_eq).
  assert (lock_inv (with_lock i (set_token EmptyString l') w')).
  { split; [apply (inv_lock w' i l'); [done..|by right]|]. apply ttl_with_lock; [exact T2|]. exact (T2 i l' E2). }
  by destruct r.
Qed.

Lemma exec_lock_inv a w r w' : exec_lock a w = Some (r, w') -> lock_inv w -> lock_inv w'.
Proof.
  intros X I. destruct a; cbn [exec_lock] in X.
  - destruct (decide _) as [E|]; [|done]. injection X as _ <-. destruct I as [(Hd & Hu & Hr) T].
    destruct (new_lock_fields rdb key opts) as (_ & _ & Hl & Hn & _). set (l := NewLock _ _ _) in *.
    split; [|by apply ttl_with_lock]. split; [|split; [|exact Hr]]; cbn.
    + intros j lj Ej Hne. destruct (decide (i = j)) as [<- | Hij].
      * rewrite lookup_insert_eq in Ej. by injection Ej as <-.
      * rewrite lookup_insert_ne in Ej by done. by apply (Hd j lj).
    + intros j k lj lk Ej Ek Hne Eq. destruct (decide (i = j)) as [<- | Hij], (decide (i = k)) as [<- | Hik]; [done|..].
      * rewrite lookup_insert_eq in Ej. by injection Ej as <-.
      * rewrite lookup_insert_eq in Ek. injection Ek as <-. congruence.
      * rewrite lookup_insert_ne in Ej, Ek by done. by apply (Hu j k lj lk).
  - destruct (w_locks w !! i) as [l|] eqn:E; [|done]. injection X as X. change w' with (r, w').2. rewrite <- X. by apply TryLock_inv.
  - destruct (w_locks w !! i) as [l|] eqn:E; [|done]. injection X as X. change w' with (r, w').2. rewrite <- X. by apply Unlock_inv.
  - destruct (w_locks w !! i) as [l|] eqn:E; [|done]. injection X as X. change w' with (r, w').2. rewrite <- X. by apply renew_inv.
  - destruct (w_dogs w !! d) as [dog|] eqn:E; [|done]. cbn in X. destruct (w_locks w !! dg_lock dog) as [l|] eqn:El; [|done]. cbn in X.
    destruct (_ <=? _); [|done]. injection X as _ <-. unfold dog_tick. destruct (decide _); [exact I|].
    match goal with |- context [renew l o ?w1] => pose proof (renew_inv l o w1 I) as [I1 _]; destruct (renew l o w1) as [[] w2] end; exact I1.
  - destruct (w_dogs w !! d) as [dog|]; [|done]. cbn in X. destruct (decide _); [|done]. injection X as _ <-. exact I.
  - injection X as _ <-. exact I.
  - destruct (Z.leb_spec (w_now w) t) as [Ht|]; [|done]. injection X as _ <-. destruct I as [(Hd & Hu & Hr) T].
    split; [|exact T]. split; [exact Hd|split; [exact Hu|]]. intros k v d E n Hn. cbn in E.
    rewrite (r_live_later (w_now w) t) in E by done. destruct (r_live (w_now w) k (w_redis w)) as [[v' d']|] eqn:E0; [|done].
    case_match; [|done]. injection E as -> ->. by apply (Hr k v d E0).
Qed.

(** ** A lock that is held stays held *)

(** Lock [i] holds key [k] with token [t], at least until [d]. *)
Definition keeps (i : nat) (k t : str) (T d : Z) (w : lworld) : Prop :=
  t <> EmptyString /\ ms_ns <= T /\ d <= w_now w + T / ms_ns * ms_ns /\
  exists l d', w_locks w !! i = Some l /\ lk_token l = t /\ lk_key l = k /\ lk_ttl l = T /\
    r_live (w_now w) k (w_redis w) = Some (t, d') /\ d <= d'.

Lemma startWatchdog_frame i ctx l w j : j <> i -> w_locks (startWatchdog i ctx l w) !! j = w_locks w !! j.
Proof. intros Hj. unfold startWatchdog. destruct (lk_watching l); cbn; by rewrite lookup_insert_ne. Qed.

Lemma startWatchdog_rest i ctx l w : w_now (startWatchdog i ctx l w) = w_now w /\ w_redis (startWatchdog i ctx l w) = w_redis w.
Proof. unfold startWatchdog. by destruct (lk_watching l). Qed.

Lemma stopWatchdog_frame i l w j : j <> i -> w_locks (stopWatchdog i l w) !! j = w_locks w !! j.
Proof. intros Hj. unfold stopWatchdog. destruct (lk_watching l), (lk_stopCh l); cbn; by rewrite lookup_insert_ne. Qed.

(** An attempt leaves a key that is taken alone, and the lock that made it. *)
Lemma TryLock_taken j ctx l o w k e : r_live (w_now w) k (w_redis w) = Some e ->
  let w' := (TryLock j ctx l o w).2 in
  w_now w' = w_now w /\ r_live (w_now w) k (w_redis w') = Some e /\
  (forall i, i <> j \/ lk_key l = k -> w_locks w' !! i = w_locks w !! i) /\
  (lk_key l = k -> lk_rdb l = true -> (TryLock j ctx l o w).1 = Some (match o with Answered => ErrLockNotObtained | Failed _ => ErrCommand end)).
Proof.
  intros E. unfold TryLock. destruct (lk_rdb l) eqn:Er; [|done]. cbn [negb draw_token].
  destruct (decide (lk_key l = k)) as [Ek|Ek].
  - destruct (r_setnx_held (w_now w) k (tok (w_tokens w)) (lk_ttl l) (w_redis w) e E) as [F1 F2].
    rewrite Ek. destruct o as [|[]]; cbn [command]; cbn; [rewrite F1|..]; cbn; done.
  - assert (F : r_live (w_now w) k (r_setnx (w_now w) (lk_key l) (tok (w_tokens w)) (lk_ttl l) (w_redis w)).2 = Some e)
      by (rewrite r_setnx_other; congruence).
    destruct o as [|[]]; cbn [command w_redis]; [|cbn; split; [done|]; split; [exact F|done]|cbn; split; [done|]; split; [exact E|done]].
    destruct (r_setnx _ _ _ _ _).1; [|cbn; split; [done|]; split; [exact F|done]].
    destruct (lk_autoRenew _).
    + cbn [snd]. destruct (startWatchdog_rest j ctx (set_token (tok (w_tokens w)) l) (with_redis (r_setnx (w_now w) (lk_key l) (tok (w_tokens w)) (lk_ttl l) (w_redis w)).2 (draw_token w).2)) as [N R].
      cbn in N, R |- *. rewrite N, R. split; [done|]. split; [exact F|]. split; [|done]. intros i [Hi|]; [|done].
      by rewrite startWatchdog_frame.
    + cbn. split; [done|]. split; [exact F|]. split; [|done]. intros i [Hi|]; [|done]. by rewrite lookup_insert_ne.
Qed.

Lemma Unlock_spares j l o w k t d : w_locks w !! j = Some l -> lock_inv w -> lk_token l <> t -> r_live (w_now w) k (w_redis w) = Some (t, d) ->
  let w' := (Unlock j l o w).2 in
  w_now w' = w_now w /\ r_live (w_now w) k (w_redis w') = Some (t, d) /\ forall i, i <> j -> w_locks w' !! i = w_locks w !! i.
Proof.
  intros El I Ht E. unfold Unlock. destruct (decide _); [done|].
  destruct (stopWatchdog_inv j l w El I) as (_ & N & R & l' & Els & _ & Ek & _).
  pose proof (stopWatchdog_frame j l w) as F. set (w1 := stopWatchdog j l w) in *.
  rewrite Els, lookup_insert_eq. cbn [default]. destruct (command _ o w1) as [r w'] eqn:C.
  assert (G : w_now w' = w_now w /\ r_live (w_now w) k (w_redis w') = Some (t, d) /\ w_locks w' = w_locks w1).
  { rewrite <- N, <- R in *. apply command_cases in C as [[_ ->] | [-> _]]; [done|]. split; [done|]. split; [|done].
    apply unlock_spares; [exact E|congruence]. }
  destruct G as (G1 & G2 & G3).
  assert (H' : w_now (with_lock j (set_token EmptyString l') w') = w_now w /\
    r_live (w_now w) k (w_redis (with_lock j (set_token EmptyString l') w')) = Some (t, d) /\
    forall i, i <> j -> w_locks (with_lock j (set_token EmptyString l') w') !! i = w_locks w !! i).
  { split; [done|]. split; [done|]. intros i Hi. cbn. rewrite lookup_insert_ne, G3 by done. by apply F. }
  by destruct r.
Qed.

Lemma renew_spares l o w k t d : r_live (w_now w) k (w_redis w) = Some (t, d) -> (lk_token l = t -> ms_ns <= lk_ttl l) ->
  let w' := (renew l o w).2 in
  w_now w' = w_now w /\ w_locks w' = w_locks w /\
  exists d', (d' = d \/ (lk_token l = t /\ d' = w_now w + lk_ttl l / ms_ns * ms_ns)) /\ r_live (w_now w) k (w_redis w') = Some (t, d').
Proof.
  intros E Ht. unfold renew. destruct (decide _); [cbn; eauto 6|].
  destruct (command _ o w) as [r w'] eqn:C.
  assert (G : w_now w' = w_now w /\ w_locks w' = w_locks w /\
    exists d', (d' = d \/ (lk_token l = t /\ d' = w_now w + lk_ttl l / ms_ns * ms_ns)) /\ r_live (w_now w) k (w_redis w') = Some (t, d')).
  { apply command_cases in C as [[_ ->] | [-> _]]; [eauto 6|]. split; [done|]. split; [done|].
    assert (Q : lk_token l = t -> 0 < Z.quot (lk_ttl l) ms_ns /\ Z.quot (lk_ttl l) ms_ns = lk_ttl l / ms_ns).
    { intros Q. specialize (Ht Q). unfold ms_ns in *. rewrite Z.quot_div_nonneg by lia. split; [|done].
      apply Z.div_str_pos. lia. }
    destruct (renew_keeps (w_now w) (lk_key l) (lk_token l) (Z.quot (lk_ttl l) ms_ns) (w_redis w) k t d E) as (d' & Hd' & E');
      [intros ->; by apply Q|].
    exists d'. split; [|exact E']. destruct Hd' as [-> | [Et ->]]; [by left|right]. split; [by symmetry|]. by rewrite (proj2 (Q (eq_sym Et))). }
  by destruct r.
Qed.

Lemma now_mono a w r w' : exec_lock a w = Some (r, w') -> w_now w <= w_now w'.
Proof.
  intros X. destruct a; cbn [exec_lock] in X.
  - destruct (decide _); [|done]. by injection X as _ <-.
  - destruct (w_locks w !! i) as [l|]; [|done]. injection X as X. change w' with (r, w').2. rewrite <- X.
    unfold TryLock. destruct (negb _); [done|]. cbn [draw_token]. destruct (command _ o _) as [r1 w1] eqn:C.
    assert (w_now w1 = w_now w) as E by (by apply command_cases in C as [[_ ->] | [-> _]]).
    destruct r1 as [[]|]; cbn; [|lia..]. destruct (lk_autoRenew l); [|cbn; lia].
    destruct (startWatchdog_rest i ctx (set_token (tok (w_tokens w)) l) w1) as [N _]. cbn in N. lia.
  - destruct (w_locks w !! i) as [l|]; [|done]. injection X as X. change w' with (r, w').2. rewrite <- X.
    unfold Unlock. destruct (decide _); [done|]. destruct (command _ o _) as [r1 w1] eqn:C.
    assert (w_now w1 = w_now w) as E.
    { transitivity (w_now (stopWatchdog i l w)); [by apply command_cases in C as [[_ ->] | [-> _]]|].
      unfold stopWatchdog. by destruct (lk_watching l), (lk_stopCh l). }
    destruct r1; cbn; lia.
  - destruct (w_locks w !! i) as [l|]; [|done]. injection X as X. change w' with (r, w').2. rewrite <- X.
    unfold Renew, renew. destruct (decide _); [done|]. destruct (command _ o _) as [r1 w1] eqn:C.
    assert (w_now w1 = w_now w) as E by (by apply command_cases in C as [[_ ->] | [-> _]]). destruct r1; cbn; lia.
  - destruct (w_dogs w !! d) as [dog|]; [|done]. cbn in X. destruct (w_locks w !! dg_lock dog) as [l|]; [|done]. cbn in X.
    destruct (_ <=? _); [|done]. injection X as _ <-. unfold dog_tick. destruct (decide _); [done|].
    unfold renew. destruct (decide _); [done|]. destruct (command _ o _) as [r1 w1] eqn:C.
    assert (w_now w1 = w_now w) as E by (by apply command_cases in C as [[_ ->] | [-> _]]).
    destruct r1 as [n'|]; [destruct (n' =? 0)|]; cbn; lia.
  - destruct (w_dogs w !! d); [|done]. cbn in X. destruct (decide _); [|done]. by injection X as _ <-.
  - by injection X as _ <-.
  - destruct (Z.leb_spec (w_now w) t); [|done]. by injection X as _ <-.
Qed.

Definition unlocks (i : nat) (a : laction) : Prop := exists o, a = LUnlock i o.

Lemma keeps_step i k t T d a w r w' : lock_inv w -> exec_lock a w = Some (r, w') -> ~ unlocks i a -> w_now w' < d ->
  keeps i k t T d w -> keeps i k t T d w' /\ w_locks w' !! i = w_locks w !! i.
Proof.
  intros I X Hu Hd (Ht & HT & Hdn & l & d' & E & Et & Ek & ET & L & Hdd). pose proof (now_mono _ _ _ _ X) as Hnow.
  assert (Ren : forall l1 o (w1 : lworld), w_now w1 = w_now w -> w_locks w1 = w_locks w -> w_redis w1 = w_redis w ->
    (exists j, w_locks w !! j = Some l1) -> let w2 := (renew l1 o w1).2 in keeps i k t T d w2 /\ w_locks w2 !! i = w_locks w !! i).
  { intros l1 o w1 En El Er [j Ej]. rewrite <- Er, <- En in L.
    assert (HT1 : lk_token l1 = t -> lk_ttl l1 = T).
    { intros E1. destruct I as [(_ & Huq & _) _]. assert (j = i) as -> by (apply (Huq j i l1 l); congruence). congruence. }
    destruct (renew_spares l1 o w1 k t d' L) as (N & Lk & d'' & Hd'' & L'); [intros E1; rewrite (HT1 E1); exact HT|].
    split; [|by rewrite Lk, El]. split; [done|]. split; [done|]. split; [rewrite N, En; lia|]. exists l, d''. rewrite Lk, El, N. repeat (split; [done|]).
    destruct Hd'' as [-> | [E1 ->]]; [done|]. rewrite (HT1 E1), En. lia. }
  assert (Same : forall w2, w_now w2 = w_now w -> w_locks w2 !! i = Some l -> r_live (w_now w) k (w_redis w2) = Some (t, d') ->
    keeps i k t T d w2 /\ w_locks w2 !! i = w_locks w !! i).
  { intros w2 N El L2. split; [|congruence]. split; [done|]. split; [done|]. split; [lia|]. exists l, d'. rewrite N. done. }
  destruct a; cbn [exec_lock] in X.
  - destruct (decide _) as [E'|]; [|done]. injection X as _ <-. apply Same; [done| |exact L]. cbn. rewrite lookup_insert_ne; congruence.
  - destruct (w_locks w !! i0) as [l0|] eqn:E0; [|done]. injection X as X. change w' with (r, w').2. rewrite <- X.
    destruct (TryLock_taken i0 ctx l0 o w k _ L) as (N & L' & Lk & _). apply Same; [done| |done].
    rewrite Lk; [done|]. destruct (decide (i = i0)) as [<- | Hi]; [right; congruence|by left].
  - destruct (w_locks w !! i0) as [l0|] eqn:E0; [|done]. injection X as X. change w' with (r, w').2. rewrite <- X.
    assert (i <> i0) as Hi by (intros <-; apply Hu; by exists o). destruct I as [I1 I2]. pose proof I1 as (_ & Huq & _).
    assert (lk_token l0 <> t) as Ht0.
    { intros E1. apply Hi. symmetry. apply (Huq i0 i l0 l); congruence. }
    destruct (Unlock_spares i0 l0 o w k t d' E0 (conj I1 I2) Ht0 L) as (N & L' & Lk). apply Same; [done|by rewrite Lk|done].
  - destruct (w_locks w !! i0) as [l0|] eqn:E0; [|done]. injection X as X. change w' with (r, w').2. rewrite <- X.
    apply Ren; eauto.
  - destruct (w_dogs w !! d0) as [dog|] eqn:Ed; [|done]. cbn in X. destruct (w_locks w !! dg_lock dog) as [l0|] eqn:E0; [|done]. cbn in X.
    destruct (_ <=? _); [|done]. injection X as _ <-. unfold dog_tick. destruct (decide _); [by apply Same|].
    match goal with |- context [renew l0 o ?w1] => pose proof (Ren l0 o w1 eq_refl eq_refl eq_refl (ex_intro _ _ E0)) as G; destruct (renew l0 o w1) as [[] w2] end; exact G.
  - destruct (w_dogs w !! d0); [|done]. cbn in X. destruct (decide _); [|done]. injection X as _ <-. by apply Same.
  - injection X as _ <-. by apply Same.
  - destruct (Z.leb_spec (w_now w) t0) as [Ht0|]; [|done]. injection X as _ <-. cbn in Hd.
    split; [|done]. split; [done|]. split; [done|]. split; [cbn; lia|]. exists l, d'. cbn. rewrite (r_live_later (w_now w) t0) by done. rewrite L.
    rewrite (proj2 (Z.ltb_lt t0 d')) by lia. done.
Qed.

Lemma init_inv w : lock_init w -> lock_inv w.
Proof.
  intros (El & _ & _ & Hr). split; [split; [|split; [|exact Hr]]|]; unfold ttl_inv; rewrite El; intros i; intros; simplify_map_eq.
Qed.

Lemma lrun_inv acts w w' : lrun acts w = Some w' -> lock_inv w -> lock_inv w'.
Proof.
  revert w. induction acts as [|a acts IH]; intros w X I; cbn in X; [by injection X as <-|].
  destruct (exec_lock a w) as [[r w1]|] eqn:E; [|done]. cbn in X. by apply (IH w1), (exec_lock_inv a w r).
Qed.

Lemma reach_inv w : lock_reach w -> lock_inv w.
Proof. intros (w0 & acts & I & X). by apply (lrun_inv acts w0), init_inv. Qed.

Lemma lrun_mono acts w w' : lrun acts w = Some w' -> w_now w <= w_now w'.
Proof.
  revert w. induction acts as [|a acts IH]; intros w X; cbn in X; [injection X as <-; lia|].
  destruct (exec_lock a w) as [[r w1]|] eqn:E; [|done]. cbn in X. apply now_mono in E. apply IH in X. lia.
Qed.

Lemma keeps_run i k t T d acts w w' : lock_inv w -> lrun acts w = Some w' -> Forall (fun a => ~ unlocks i a) acts -> w_now w' < d ->
  keeps i k t T d w -> lock_inv w' /\ keeps i k t T d w'.
Proof.
  revert w. induction acts as [|a acts IH]; intros w I X Hf Hd K; cbn in X; [by injection X as <-|].
  destruct (exec_lock a w) as [[r w1]|] eqn:E; [|done]. cbn in X. apply Forall_cons_iff in Hf as [Ha Hf].
  pose proof (lrun_mono _ _ _ X). apply (IH w1); try done; [by apply (exec_lock_inv a w r)|].
  apply (keeps_step i k t T d a w r); try done. lia.
Qed.

(** An attempt that succeeds. *)
Lemma TryLock_success i ctx l w w1 : lock_inv w -> w_locks w !! i = Some l -> ms_ns <= lk_ttl l ->
  TryLock i ctx l Answered w = (None, w1) ->
  w_now w1 = w_now w /\ lk_rdb l = true /\
  w_redis w1 = (r_setnx (w_now w) (lk_key l) (tok (w_tokens w)) (lk_ttl l) (w_redis w)).2 /\
  let w0 := with_redis (w_redis w1) (draw_token w).2 in let l1 := set_token (tok (w_tokens w)) l in
  w1 = (if lk_autoRenew l then startWatchdog i ctx l1 w0 else with_lock i l1 w0) /\
  r_live (w_now w) (lk_key l) (w_redis w1) = Some (tok (w_tokens w), w_now w + lk_ttl l / ms_ns * ms_ns).
Proof.
  intros I E HT. unfold TryLock. destruct (lk_rdb l); [|done]. cbn [negb draw_token command w_redis w_now w_tokens].
  set (f := r_setnx _ _ _ _ _). destruct f.1 eqn:Ef; [|done].
  assert (L : r_live (w_now w) (lk_key l) f.2 = Some (tok (w_tokens w), w_now w + lk_ttl l / ms_ns * ms_ns)).
  { unfold f in *. destruct (r_live (w_now w) (lk_key l) (w_redis w)) as [e|] eqn:El.
    - destruct (r_setnx_held (w_now w) (lk_key l) (tok (w_tokens w)) (lk_ttl l) _ _ El) as [F _]. congruence.
    - destruct (r_setnx_free (w_now w) (lk_key l) (tok (w_tokens w)) (lk_ttl l) _ El) as [_ F]; [unfold ms_ns in *; lia|].
      by rewrite F, r_px_ms. }
  cbv beta iota zeta. change (lk_autoRenew (set_token (tok (w_tokens w)) l)) with (lk_autoRenew l).
  set (w0 := with_redis f.2 _). intros X. injection X as <-. destruct (lk_autoRenew l).
  - destruct (startWatchdog_rest i ctx (set_token (tok (w_tokens w)) l) w0) as [N R]. rewrite N, R. done.
  - done.
Qed.

Lemma TryLock_keeps i ctx l w w1 : lock_inv w -> w_locks w !! i = Some l -> ms_ns <= lk_ttl l ->
  TryLock i ctx l Answered w = (None, w1) ->
  keeps i (lk_key l) (tok (w_tokens w)) (lk_ttl l) (w_now w + lk_ttl l / ms_ns * ms_ns) w1.
Proof.
  intros I E HT X. destruct (TryLock_success i ctx l w w1 I E HT X) as (N & _ & _ & E1 & L). cbv zeta in E1.
  split; [apply tok_ne|]. split; [done|]. split; [lia|].
  assert (G : exists l1, w_locks w1 !! i = Some l1 /\ lk_token l1 = tok (w_tokens w) /\ lk_key l1 = lk_key l /\ lk_ttl l1 = lk_ttl l).
  { rewrite E1. destruct (lk_autoRenew l); [|cbn; rewrite lookup_insert_eq; by eexists].
    unfold startWatchdog. destruct (lk_watching _); cbn; rewrite lookup_insert_eq; by eexists. }
  destruct G as (l1 & G1 & G2 & G3 & G4). exists l1, (w_now w + lk_ttl l / ms_ns * ms_ns). rewrite N. done.
Qed.

(** C35: Mutual exclusion on the server, for a time to live of a millisecond or more (for less
    see [short_renewal_releases]). A [TryLock] that returns no error gives the lock its key
    for its time to live, in whole milliseconds. Until that time is over or the lock is unlocked, whatever the
    other locks, their watchdogs and lost commands do, the lock holds the key, no other
    lock holds it, and every attempt to take the key fails. *)
Theorem lock_mutual_exclusion (w w1 : lworld) (i ctx : nat) (l : Lock) :
  lock_reach w -> w_locks w !! i = Some l -> ms_ns <= lk_ttl l ->
  exec_lock (LTryLock i ctx Answered) w = Some (None, w1) ->
  let d := w_now w + lk_ttl l / ms_ns * ms_ns in
  forall acts w2, lrun acts w1 = Some w2 -> Forall (fun a => ~ unlocks i a) acts -> w_now w2 < d ->
  (exists d', d <= d' /\ holds i d' w2) /\
  forall j lj, w_locks w2 !! j = Some lj -> lk_key lj = lk_key l ->
    (forall dj, holds j dj w2 -> j = i) /\ forall ctx' o, (TryLock j ctx' lj o w2).1 <> None.
Proof.
  intros Hr E HT X d acts w2 Hrun Hf Hd. pose proof (reach_inv w Hr) as I. pose proof (exec_lock_inv _ _ _ _ X I) as I1.
  cbn [exec_lock] in X. rewrite E in X. injection X as X.
  pose proof (TryLock_keeps i ctx l w w1 I E HT X) as K. fold d in K.
  destruct (keeps_run _ _ _ _ _ _ _ _ I1 Hrun Hf Hd K) as [I2 (Ht & _ & _ & l2 & d' & E2 & Et & Ek & _ & L & Hdd)].
  assert (Hh : holds i d' w2) by (exists l2; rewrite Ek, Et; done). split; [by exists d'|].
  intros j lj Ej Ekj. split.
  - intros dj Hj. apply (holds_unique w2 j i dj d' lj l2); [apply I2|done..|congruence].
  - intros ctx' o. destruct (TryLock_taken j ctx' lj o w2 (lk_key l) _ L) as (_ & _ & _ & F).
    destruct (lk_rdb lj) eqn:Er; [by rewrite F|]. unfold TryLock. by rewrite Er.
Qed.
End Lock.

(** ** A server and tokens that behave as documented *)

Definition table_live (now : Z) (k : str) (s : gmap str (str * Z)) : option (str * Z) :=
  match s !! k with Some (v, d) => if now <? d then Some (v, d) else None | None => None end.

Definition client_ms (d : Z) : Z := if d <? ms_ns then 1 else d / ms_ns.

Definition table_setnx (now : Z) (k v : str) (d : Z) (s : gmap str (str * Z)) : bool * gmap str (str * Z) :=
  match table_live now k s with
  | Some _ => (false, s)
  | None => (true, <[k := (v, now + client_ms d * ms_ns)]> s)
  end.
Definition table_del (now : Z) (k : str) (s : gmap str (str * Z)) : Z * gmap str (str * Z) :=
  (match table_live now k s with Some _ => 1 | None => 0 end, delete k s).
Definition table_pexpire (now : Z) (k : str) (ms : Z) (s : gmap str (str * Z)) : Z * gmap str (str * Z) :=
  match table_live now k s with
  | Some (v, _) => (1, if 0 <? ms then <[k := (v, now + ms * ms_ns)]> s else delete k s)
  | None => (0, s)
  end.

Lemma client_ms_floor d : ms_ns <= d -> client_ms d = d / ms_ns.
Proof. intros Hd. unfold client_ms. rewrite (proj2 (Z.ltb_ge _ _)) by done. reflexivity. Qed.

Lemma client_ms_pos d : 0 < d -> 0 < client_ms d.
Proof.
  intros Hd. unfold client_ms. destruct (Z.ltb_spec d ms_ns); [lia|]. apply Z.div_str_pos. unfold ms_ns in *. lia.
Qed.

Lemma table_live_deadline now k s v d : table_live now k s = Some (v, d) -> now < d.
Proof. unfold table_live. intros E. repeat case_match; simplify_eq. by apply Z.ltb_lt. Qed.

Lemma table_live_later now now' k s : now <= now' ->
  table_live now' k s = match table_live now k s with Some (v, d) => if now' <? d then Some (v, d) else None | None => None end.
Proof.
  unfold table_live. intros Hn. destruct (s !! k) as [[v d]|]; [|done].
  destruct (Z.ltb_spec now d); [done|]. by rewrite (proj2 (Z.ltb_ge _ _)) by lia.
Qed.

Lemma table_live_insert now k v d s : now < d -> table_live now k (<[k := (v, d)]> s) = Some (v, d).
Proof. intros H. unfold table_live. by rewrite lookup_insert_eq, (proj2 (Z.ltb_lt _ _)). Qed.

Lemma table_live_delete now k s : table_live now k (delete k s) = None.
Proof. unfold table_live. by rewrite lookup_delete_eq. Qed.

Lemma table_setnx_free now k v d s : table_live now k s = None -> 0 < d ->
  (table_setnx now k v d s).1 = true /\ table_live now k (table_setnx now k v d s).2 = Some (v, now + client_ms d * ms_ns).
Proof.
  intros E Hd. unfold table_setnx. rewrite E. split; [done|]. apply table_live_insert.
  pose proof (client_ms_pos d Hd). unfold ms_ns. lia.
Qed.

Lemma table_setnx_held now k v d s e : table_live now k s = Some e ->
  (table_setnx now k v d s).1 = false /\ table_live now k (table_setnx now k v d s).2 = Some e.
Proof. intros E. unfold table_setnx. rewrite E. done. Qed.

Lemma table_setnx_other now k v d s k' : k' <> k -> table_live now k' (table_setnx now k v d s).2 = table_live now k' s.
Proof. intros Hk. unfold table_setnx. destruct (table_live now k s); [done|]. unfold table_live. cbn. by rewrite lookup_insert_ne. Qed.

Lemma table_del_live now k s e : table_live now k s = Some e ->
  (table_del now k s).1 = 1 /\ table_live now k (table_del now k s).2 = None.
Proof. intros E. unfold table_del. rewrite E. split; [done|]. apply table_live_delete. Qed.

Lemma table_del_other now k s k' : k' <> k -> table_live now k' (table_del now k s).2 = table_live now k' s.
Proof. intros Hk. unfold table_live. cbn. by rewrite lookup_delete_ne. Qed.

Lemma table_pexpire_live now k ms s v d : table_live now k s = Some (v, d) -> 0 < ms ->
  (table_pexpire now k ms s).1 = 1 /\ table_live now k (table_pexpire now k ms s).2 = Some (v, now + ms * ms_ns).
Proof.
  intros E Hm. unfold table_pexpire. rewrite E, (proj2 (Z.ltb_lt _ _)) by done. split; [done|].
  apply table_live_insert. unfold ms_ns. lia.
Qed.

Lemma table_pexpire_past now k ms s e : table_live now k s = Some e -> ms <= 0 ->
  (table_pexpire now k ms s).1 = 1 /\ table_live now k (table_pexpire now k ms s).2 = None.
Proof.
  intros E Hm. unfold table_pexpire. rewrite E, (proj2 (Z.ltb_ge _ _)) by done. destruct e. split; [done|].
  apply table_live_delete.
Qed.

Lemma table_pexpire_other now k ms s k' : k' <> k -> table_live now k' (table_pexpire now k ms s).2 = table_live now k' s.
Proof.
  intros Hk. unfold table_pexpire. destruct (table_live now k s) as [[v d]|]; [|done]. unfold table_live. cbn.
  destruct (0 <? ms); [by rewrite lookup_insert_ne|by rewrite lookup_delete_ne].
Qed.

#[export] Instance table_redis : Redis := {|
  rstate := gmap str (str * Z);
  r_live := table_live; r_setnx := table_setnx; r_del := table_del; r_pexpire := table_pexpire; r_px := client_ms;
  r_px_ms := client_ms_floor; r_px_pos := client_ms_pos;
  r_live_deadline := table_live_deadline; r_live_later := table_live_later;
  r_setnx_free := table_setnx_free; r_setnx_held := table_setnx_held; r_setnx_other := table_setnx_other;
  r_del_live := table_del_live; r_del_other := table_del_other;
  r_pexpire_live := table_pexpire_live; r_pexpire_past := table_pexpire_past; r_pexpire_other := table_pexpire_other |}.

Fixpoint unary (n : nat) : str := match n with O => EmptyString | S n => String "x" (unary n) end.

Lemma unary_inj n m : unary n = unary m -> n = m.
Proof. revert m. induction n as [|n IH]; intros [|m] E; try done. injection E as E. f_equal. by apply IH. Qed.

Lemma unary_S_inj : Inj (=) (=) (fun n => unary (S n)).
Proof. intros n m E. apply unary_inj in E. by injection E. Qed.

Lemma unary_S_ne n : unary (S n) <> EmptyString.
Proof. done. Qed.

#[export] Instance unary_tokens : Tokens := {| tok := fun n => unary (S n); tok_inj := unary_S_inj; tok_ne := unary_S_ne |}.

Definition lock_start : lworld := mkW 0 (∅ : gmap str (str * Z)) ∅ ∅ ∅ 0 ∅ 0.

Lemma lock_start_init : lock_init lock_start.
Proof. repeat split. intros k v d E. done. Qed.

(** Two locks of one key: the second tries while the first is held. *)
Definition demo_before : list laction := [LNew 0 true "k" []; LNew 1 true "k" []].
Definition demo_after : list laction := [LTime 5000000000; LTryLock 1 0 Answered; LUnlock 1 Answered; LTime 20000000000].

Definition demo_w : lworld := default lock_start (lrun demo_before lock_start).
Definition demo_w1 : lworld := match exec_lock (LTryLock 0 0 Answered) demo_w with Some (_, w) => w | None => lock_start end.
Definition demo_w2 : lworld := default lock_start (lrun demo_after demo_w1).
Definition demo_lock : Lock := NewLock true "k" [].

(** What a run gives is named by evaluating only whether there is something. *)
Lemma some_default {A} (d : A) (x : option A) : (match x with Some _ => true | None => false end) = true -> x = Some (default d x).
Proof. by destruct x. Qed.

Lemma some_ok {A B} (d : B) (x : option (option A * B)) : (match x with Some (None, _) => true | _ => false end) = true ->
  x = Some (None, match x with Some (_, b) => b | None => d end).
Proof. by destruct x as [[[]]|]. Qed.

Lemma demo_w_run : lrun demo_before lock_start = Some demo_w.
Proof. apply some_default. vm_compute. reflexivity. Qed.
Lemma demo_w_lock : w_locks demo_w !! 0%nat = Some demo_lock.
Proof. vm_compute. reflexivity. Qed.
Lemma demo_w1_run : exec_lock (LTryLock 0 0 Answered) demo_w = Some (None, demo_w1).
Proof. apply some_ok. vm_compute. reflexivity. Qed.
Lemma demo_w2_run : lrun demo_after demo_w1 = Some demo_w2.
Proof. apply some_default. vm_compute. reflexivity. Qed.
Lemma demo_w2_lock : w_locks demo_w2 !! 1%nat = Some demo_lock.
Proof. vm_compute. reflexivity. Qed.
Lemma demo_w2_now : w_now demo_w2 < w_now demo_w + lk_ttl demo_lock / ms_ns * ms_ns.
Proof. vm_compute. reflexivity. Qed.

Lemma lock_mutual_exclusion_witness : (TryLock 1 0 demo_lock Answered demo_w2).1 <> None.
Proof.
  refine (proj2 (proj2 (lock_mutual_exclusion demo_w demo_w1 0 0 demo_lock _ demo_w_lock _ demo_w1_run demo_after demo_w2
    demo_w2_run _ demo_w2_now) 1%nat demo_lock demo_w2_lock eq_refl) 0%nat Answered).
  - exists lock_start, demo_before. split; [exact lock_start_init|exact demo_w_run].
  - vm_compute. discriminate.
  - repeat constructor; intros [o E]; discriminate.
Defined.
