(* ===== verification/RedisRenew.v ===== *)
(** The watchdog of the distributed lock, and what its blocking and releasing operations
    give: a lock that renews itself is held as long as its watchdog runs on time, commands
    are answered, and nobody unlocks it or cancels its context. *)

From stdpp Require Import gmap sets strings.
From S2P Require Import Prelude RedisLock.

Section Renew.
Context `{Redis} `{Tokens}.

(** ** Releasing and waiting *)

(** [Unlock] with an answer: no error if and only if the lock held its key, which is free
    then; otherwise the key stays as it is. The token is gone in any case. *)
Lemma Unlock_result i l w : lock_inv w -> w_locks w !! i = Some l ->
  let '(err, w') := Unlock i l Answered w in
  (err = None <-> exists d, holds i d w) /\
  (err = None -> r_live (w_now w) (lk_key l) (w_redis w') = None) /\
  (err <> None -> err = Some ErrLockNotHeld /\ w_redis w' = w_redis w) /\
  forall d, ~ holds i d w'.
Proof.
  intros I E. unfold Unlock. destruct (decide (lk_token l = EmptyString)) as [Et|Et].
  { split; [split; [done|intros (d & l' & E' & Hne & _); congruence]|]. split; [done|]. split; [done|].
    intros d (l' & E' & Hne & _). congruence. }
  destruct (stopWatchdog_inv i l w E I) as (_ & N & R & l' & El & _ & Ek & _). set (w1 := stopWatchdog i l w) in *.
  rewrite El, lookup_insert_eq. change (default l (Some l')) with l'. cbn [command]. rewrite N, R, Ek. clearbody w1.
  assert (Hno : forall r d, ~ holds i d (with_lock i (set_token EmptyString l') (with_redis r w1))).
  { intros r d (l2 & E2 & Hne & _). cbn in E2. rewrite lookup_insert_eq in E2. by injection E2 as <-. }
  unfold unlockScript. destruct (decide (r_get (w_now w) (lk_key l) (w_redis w) = Some (lk_token l))) as [G|G].
  - apply get_live in G as [d G]. destruct (r_del_live _ _ _ _ G) as [D1 D2]. rewrite D1. cbn [fst snd Z.eqb].
    split; [split; [intros _; exists d, l; done|done]|]. split; [intros _; exact D2|]. split; [done|apply Hno].
  - cbn [fst snd Z.eqb]. split; [split; [done|]|]. 2: { split; [done|]. split; [done|apply Hno]. }
    intros (d & l2 & E2 & _ & L). rewrite E in E2. injection E2 as <-. exfalso. apply G. unfold r_get. by rewrite L.
Qed.

(** An attempt that gives no error leaves the lock with its key. *)
Lemma TryLock_holds i ctx l o w w1 : lock_inv w -> w_locks w !! i = Some l -> ms_ns <= lk_ttl l ->
  TryLock i ctx l o w = (None, w1) -> holds i (w_now w + lk_ttl l / ms_ns * ms_ns) w1.
Proof.
  intros I E HT X. assert (o = Answered) as ->.
  { revert X. unfold TryLock. destruct (negb _); [done|]. cbn [draw_token]. by destruct o as [|[]]. }
  destruct (TryLock_keeps i ctx l w w1 I E HT X) as (Ht & _ & _ & l1 & d' & E1 & Et & Ek & _).
  destruct (TryLock_success i ctx l w w1 I E HT X) as (N & _ & _ & _ & L).
  exists l1. rewrite N, Et, Ek. done.
Qed.

(** [Lock] that returns no error returns with the key held; otherwise its error is not
    [ErrLockNotObtained]: the caller learns of a failed command or of its context. *)
Lemma Lock_loop_result i ctx turns w err w' : lock_inv w ->
  (forall l, w_locks w !! i = Some l -> ms_ns <= lk_ttl l) ->
  (forall t, t ∈ turns -> forall w1 w2, lrun (lt_others t) w1 = Some w2 -> lk_ttl <$> w_locks w2 !! i = lk_ttl <$> w_locks w1 !! i) ->
  Lock_loop i ctx turns w = Some (err, w') ->
  err <> Some ErrLockNotObtained /\ (err = None -> exists d, holds i d w').
Proof.
  revert w. induction turns as [|t turns IH]; intros w I HT Ho X; cbn [Lock_loop] in X; [done|].
  destruct (exec_lock _ w) as [[e w1]|] eqn:E; [|done]. cbn [mbind option_bind] in X. pose proof (exec_lock_inv _ _ _ _ E I) as I1.
  cbn [exec_lock] in E. destruct (w_locks w !! i) as [l|] eqn:El; [|done]. cbn in E. injection E as E.
  destruct e as [[]|]; try by injection X as <- <-.
  - destruct (lrun (lt_others t) w1) as [w2|] eqn:E2; [|done]. cbn in X.
    destruct (lt_done t); [by injection X as <- <-|]. apply (IH w2); [by apply (lrun_inv (lt_others t) w1)| | |exact X].
    + intros l2 El2. pose proof (Ho t ltac:(left) w1 w2 E2) as Ht. rewrite El2 in Ht. cbn in Ht.
      assert (w_locks w1 !! i = Some l) as El1.
      { revert E. unfold TryLock. destruct (negb _); [done|]. cbn [draw_token]. destruct (command _ _ _) as [r w3] eqn:C.
        destruct r as [[]|]; intros X1; try done. injection X1 as <-.
        by apply command_cases in C as [[_ ->] | [-> _]]. }
      rewrite El1 in Ht. cbn in Ht. injection Ht as ->. by apply HT.
    + intros t' Ht'. apply Ho. by right.
  - injection X as <- <-. split; [done|]. intros _. eexists. apply (TryLock_holds i ctx l (lt_reply t) w w1); [done|done|by apply HT|done].
Qed.

(** ** Channels *)

(** Every channel was made once, by the lock that has it, for the watchdog that has its
    number; a lock that is watching has one. *)
Definition chan_inv (w : lworld) : Prop :=
  (forall i l ch, w_locks w !! i = Some l -> lk_stopCh l = Some ch -> (ch < w_nchans w)%nat) /\
  (forall i j li lj ch, w_locks w !! i = Some li -> w_locks w !! j = Some lj ->
     lk_stopCh li = Some ch -> lk_stopCh lj = Some ch -> i = j) /\
  (forall c, c ∈ w_closed w -> (c < w_nchans w)%nat).

Lemma chan_inv_lock i l l' w w' : chan_inv w -> w_locks w !! i = Some l -> lk_stopCh l' = lk_stopCh l ->
  w_locks w' = <[i := l']> (w_locks w) -> w_nchans w' = w_nchans w -> w_closed w' = w_closed w -> chan_inv w'.
Proof.
  unfold chan_inv. intros (H1 & H2 & H3) E Ec -> -> ->.
  assert (G : forall j lj, <[i := l']> (w_locks w) !! j = Some lj -> exists lj0, w_locks w !! j = Some lj0 /\ lk_stopCh lj = lk_stopCh lj0).
  { intros j lj Ej. destruct (decide (i = j)) as [<- | Hij].
    - rewrite lookup_insert_eq in Ej. injection Ej as <-. by exists l.
    - rewrite lookup_insert_ne in Ej by done. by exists lj. }
  split; [|split; [|exact H3]].
  - intros j lj ch (lj0 & E0 & F0)%G Ech. apply (H1 j lj0); congruence.
  - intros j k lj lk ch (lj0 & E0 & F0)%G (lk0 & E1 & F1)%G X Y. apply (H2 j k lj0 lk0 ch); congruence.
Qed.

Lemma chan_inv_same w w' : chan_inv w -> w_locks w' = w_locks w -> w_nchans w' = w_nchans w -> w_closed w' = w_closed w -> chan_inv w'.
Proof. unfold chan_inv. by intros I -> -> ->. Qed.

Lemma chan_inv_start i ctx l l0 w : chan_inv w -> w_locks w !! i = Some l0 -> lk_stopCh l = lk_stopCh l0 -> chan_inv (startWatchdog i ctx l w).
Proof.
  intros I E Ec. unfold startWatchdog. destruct (lk_watching l); [by apply (chan_inv_lock i l0 l w)|].
  destruct I as (H1 & H2 & H3). split; [|split]; cbn.
  - intros j lj ch Ej Ech. destruct (decide (i = j)) as [<- | Hij].
    + rewrite lookup_insert_eq in Ej. injection Ej as <-. injection Ech as <-. lia.
    + rewrite lookup_insert_ne in Ej by done. specialize (H1 j lj ch Ej Ech). lia.
  - intros j k lj lk ch Ej Ek X Y. destruct (decide (i = j)) as [<- | Hij], (decide (i = k)) as [<- | Hik]; [done|..].
    + rewrite lookup_insert_eq in Ej. rewrite lookup_insert_ne in Ek by done. injection Ej as <-. injection X as <-.
      specialize (H1 k lk _ Ek Y). lia.
    + rewrite lookup_insert_eq in Ek. rewrite lookup_insert_ne in Ej by done. injection Ek as <-. injection Y as <-.
      specialize (H1 j lj _ Ej X). lia.
    + rewrite lookup_insert_ne in Ej, Ek by done. by apply (H2 j k lj lk ch).
  - intros c Hc. specialize (H3 c Hc). lia.
Qed.

Lemma chan_inv_stop i l w : chan_inv w -> w_locks w !! i = Some l -> chan_inv (stopWatchdog i l w).
Proof.
  intros I E. unfold stopWatchdog. destruct (lk_watching l), (lk_stopCh l) as [ch|] eqn:Ec.
  2-4: by apply (chan_inv_lock i l l w).
  assert (G : chan_inv (with_lock i (set_watch (Some ch) false l) w)) by (by apply (chan_inv_lock i l (set_watch (Some ch) false l) w)).
  destruct G as (H1 & H2 & H3). split; [exact H1|]. split; [exact H2|]. cbn. intros c [Hc%elem_of_singleton | Hc]%elem_of_union; [|by apply H3].
  subst c. destruct I as (I1 & _). by apply (I1 i l).
Qed.

Lemma command_frame {A} (f : rstate -> A * rstate) o w r w' : command f o w = (r, w') ->
  w_now w' = w_now w /\ w_locks w' = w_locks w /\ w_dogs w' = w_dogs w /\ w_nchans w' = w_nchans w /\ w_closed w' = w_closed w /\ w_cancelled w' = w_cancelled w.
Proof. intros C. by apply command_cases in C as [[_ ->] | [-> _]]. Qed.

Lemma renew_frame l o w : let w' := (renew l o w).2 in
  w_now w' = w_now w /\ w_locks w' = w_locks w /\ w_dogs w' = w_dogs w /\ w_nchans w' = w_nchans w /\ w_closed w' = w_closed w /\ w_cancelled w' = w_cancelled w.
Proof.
  unfold renew. destruct (decide _); [done|]. destruct (command _ o w) as [r w'] eqn:C. apply command_frame in C.
  by destruct r as [z|].
Qed.

Lemma dog_tick_frame d dog l o w : let w' := dog_tick d dog l o w in
  w_now w' = w_now w /\ w_locks w' = w_locks w /\ (forall c, c <> d -> w_dogs w' !! c = w_dogs w !! c) /\
  w_nchans w' = w_nchans w /\ w_closed w' = w_closed w /\ w_cancelled w' = w_cancelled w.
Proof.
  unfold dog_tick. set (w1 := with_dogs _ w).
  assert (D : forall c, c <> d -> w_dogs w1 !! c = w_dogs w !! c) by (intros c Hc; cbn; by rewrite lookup_insert_ne).
  destruct (decide _).
  - cbn. repeat (split; [done|]). split; [|done]. intros c Hc. rewrite lookup_delete_ne by done. by apply D.
  - destruct (renew_frame l o w1) as (F1 & F2 & F3 & F4 & F5 & F6). destruct (renew l o w1) as [[e|] w2]; cbn [snd] in *.
    + cbn. repeat (split; [done|]). split; [|done]. intros c Hc. rewrite lookup_delete_ne, F3 by done. by apply D.
    + repeat (split; [done|]). split; [|done]. intros c Hc. rewrite F3. by apply D.
Qed.

Lemma exec_lock_chans a w r w' : exec_lock a w = Some (r, w') -> chan_inv w -> chan_inv w'.
Proof.
  intros X I. destruct a; cbn [exec_lock] in X.
  - destruct (decide _) as [E|]; [|done]. injection X as _ <-. assert (Hn : lk_stopCh (NewLock rdb key (map opt_fun opts)) = None).
    { unfold NewLock. assert (G : forall l0, lk_stopCh l0 = None -> lk_stopCh (fold_left (fun l opt => opt l) (map opt_fun opts) l0) = None).
      { induction opts as [|x opts IH]; intros l0 H1; [done|]. cbn [map fold_left]. apply IH.
        destruct x as [ttl|itv|]; cbn [opt_fun]; unfold WithTTL, WithRetryInterval; try case_match; done. }
      by apply G. }
    destruct I as (H1 & H2 & H3). split; [|split; [|exact H3]]; cbn.
    + intros j lj ch Ej Ech. destruct (decide (i = j)) as [<- | Hij]; [rewrite lookup_insert_eq in Ej; congruence|].
      rewrite lookup_insert_ne in Ej by done. by apply (H1 j lj).
    + intros j k lj lk ch Ej Ek Xc Yc.
      destruct (decide (i = j)) as [<- | Hij]; [rewrite lookup_insert_eq in Ej; congruence|].
      destruct (decide (i = k)) as [<- | Hik]; [rewrite lookup_insert_eq in Ek; congruence|].
      rewrite lookup_insert_ne in Ej, Ek by done. by apply (H2 j k lj lk ch).
  - destruct (w_locks w !! i) as [l|] eqn:E; [|done]. injection X as X. change w' with (r, w').2. rewrite <- X.
    unfold TryLock. destruct (negb _); [done|]. cbn [draw_token]. destruct (command _ o _) as [r1 w1] eqn:C.
    apply command_frame in C as (F1 & F2 & F3 & F4 & F5 & F6). cbn in F2, F4, F5.
    assert (I1 : chan_inv w1) by (by apply (chan_inv_same w)).
    destruct r1 as [[]|]; [|exact I1..]. cbn. destruct (lk_autoRenew l).
    + apply (chan_inv_start i ctx _ l); [exact I1|by rewrite F2|done].
    + apply (chan_inv_lock i l (set_token (tok (w_tokens w)) l) w1); try done. by rewrite F2.
  - destruct (w_locks w !! i) as [l|] eqn:E; [|done]. injection X as X. change w' with (r, w').2. rewrite <- X.
    unfold Unlock. destruct (decide _); [done|]. pose proof (chan_inv_stop i l w I E) as I1.
    assert (El : exists l', w_locks (stopWatchdog i l w) !! i = Some l').
    { unfold stopWatchdog. destruct (lk_watching l), (lk_stopCh l); cbn; rewrite lookup_insert_eq; eauto. }
    destruct El as [l' El]. set (w1 := stopWatchdog i l w) in *. rewrite El. change (default l (Some l')) with l'.
    destruct (command _ o w1) as [r1 w2] eqn:C. apply command_frame in C as (F1 & F2 & F3 & F4 & F5 & F6).
    assert (chan_inv (with_lock i (set_token EmptyString l') w2)); [|by destruct r1].
    apply (chan_inv_lock i l' (set_token EmptyString l') w2); try done; [by apply (chan_inv_same w1)|by rewrite F2].
  - destruct (w_locks w !! i) as [l|] eqn:E; [|done]. injection X as X. change w' with (r, w').2. rewrite <- X.
    destruct (renew_frame l o w) as (F1 & F2 & F3 & F4 & F5 & F6). by apply (chan_inv_same w).
  - destruct (w_dogs w !! d) as [dog|]; [|done]. cbn in X. destruct (w_locks w !! dg_lock dog) as [l|]; [|done]. cbn in X.
    destruct (_ <=? _); [|done]. injection X as _ <-. destruct (dog_tick_frame d dog l o w) as (F1 & F2 & F3 & F4 & F5 & F6).
    by apply (chan_inv_same w).
  - destruct (w_dogs w !! d); [|done]. cbn in X. destruct (decide _); [|done]. injection X as _ <-. by apply (chan_inv_same w).
  - injection X as _ <-. by apply (chan_inv_same w).
  - destruct (_ <=? _); [|done]. injection X as _ <-. by apply (chan_inv_same w).
Qed.

(** ** The watchdog keeps the lock *)

Lemma TryLock_frame i ctx l o w c : (c < w_nchans w)%nat -> let w' := (TryLock i ctx l o w).2 in
  w_dogs w' !! c = w_dogs w !! c /\ (w_nchans w <= w_nchans w')%nat /\ w_closed w' = w_closed w /\ w_cancelled w' = w_cancelled w.
Proof.
  intros Hc. unfold TryLock. destruct (negb _); [done|]. cbn [draw_token]. destruct (command _ o _) as [r1 w1] eqn:C.
  apply command_frame in C as (F1 & F2 & F3 & F4 & F5 & F6). cbn in F2, F3, F4, F5, F6.
  destruct r1 as [[]|]; cbn [snd]; [|rewrite F3, F4, F5, F6; done..].
  destruct (lk_autoRenew _); [|cbn; rewrite F3, F4, F5, F6; done].
  unfold startWatchdog. destruct (lk_watching _); cbn; rewrite F3, F4, F5, F6; [done|].
  rewrite lookup_insert_ne by lia. split; [done|]. split; [lia|done].
Qed.

Lemma Unlock_frame i l o w : let w' := (Unlock i l o w).2 in
  w_dogs w' = w_dogs w /\ w_nchans w' = w_nchans w /\ w_cancelled w' = w_cancelled w /\
  forall c, c ∈ w_closed w' -> c ∈ w_closed w \/ lk_stopCh l = Some c.
Proof.
  unfold Unlock. destruct (decide _); [cbn; auto|].
  assert (S : w_dogs (stopWatchdog i l w) = w_dogs w /\ w_nchans (stopWatchdog i l w) = w_nchans w /\ w_cancelled (stopWatchdog i l w) = w_cancelled w /\
    forall c, c ∈ w_closed (stopWatchdog i l w) -> c ∈ w_closed w \/ lk_stopCh l = Some c).
  { unfold stopWatchdog. destruct (lk_watching l), (lk_stopCh l) as [ch|] eqn:E; cbn; (split; [done|split; [done|split; [done|]]]); intros c Hc; [|by left..].
    apply elem_of_union in Hc as [->%elem_of_singleton | Hc]; [by right|by left]. }
  set (w1 := stopWatchdog i l w) in *. destruct (command _ o w1) as [r1 w2] eqn:C. apply command_frame in C as (F1 & F2 & F3 & F4 & F5 & F6).
  assert (G : w_dogs w2 = w_dogs w /\ w_nchans w2 = w_nchans w /\ w_cancelled w2 = w_cancelled w /\
    forall c, c ∈ w_closed w2 -> c ∈ w_closed w \/ lk_stopCh l = Some c) by (rewrite F3, F4, F5, F6; exact S).
  by destruct r1.
Qed.

Section Watch.
Context (i c ctx : nat) (k t : str) (T J slack : Z).
Context (HJ : 0 < J) (Hroom : J + slack < T / ms_ns * ms_ns).

(** The watchdog [c] of lock [i] runs, the channel and the context it listens to are open,
    and the key is held until after its next tick, late by [slack] at most. *)
Definition watched (w : lworld) : Prop :=
  exists dog, w_dogs w !! c = Some dog /\ dg_lock dog = i /\ dg_stop dog = c /\ dg_ctx dog = ctx /\ dg_token dog = t /\
    dg_interval dog = J /\ dg_next dog <= w_now w + J /\ (c < w_nchans w)%nat /\ (c ∉ w_closed w) /\ (ctx ∉ w_cancelled w) /\
    keeps i k t T (dg_next dog + slack + 1) w /\ exists l, w_locks w !! i = Some l /\ lk_stopCh l = Some c.

(** No watchdog is late by more than [slack]. *)
Definition prompt (w : lworld) : Prop := forall d dog, w_dogs w !! d = Some dog -> w_now w <= dg_next dog + slack.

(** Nobody unlocks the lock or cancels the context, and renewals are answered. *)
Definition calm (a : laction) : Prop :=
  match a with
  | LUnlock j _ => j <> i
  | LCancel x => x <> ctx
  | LTick _ o => o = Answered
  | _ => True
  end.

Inductive calm_run : list laction -> lworld -> lworld -> Prop :=
| cr_nil w : calm_run [] w w
| cr_step a acts w r w1 w2 : exec_lock a w = Some (r, w1) -> calm a -> prompt w1 -> calm_run acts w1 w2 -> calm_run (a :: acts) w w2.

(** Steps other than the watchdog's own. *)
Lemma other_frame a w r w' l : exec_lock a w = Some (r, w') -> calm a -> chan_inv w -> w_locks w !! i = Some l -> lk_stopCh l = Some c ->
  (c < w_nchans w)%nat -> c ∉ w_closed w -> ctx ∉ w_cancelled w -> (forall o, a <> LTick c o) -> a <> LDogEnd c ->
  w_dogs w' !! c = w_dogs w !! c /\ (c < w_nchans w')%nat /\ (c ∉ w_closed w') /\ (ctx ∉ w_cancelled w').
Proof.
  intros X Hcalm (_ & Hu & _) Ei Ec Hc Hcl Hx Ht He. destruct a; cbn [exec_lock] in X; cbn [calm] in Hcalm.
  - destruct (decide _); [|done]. injection X as _ <-. done.
  - destruct (w_locks w !! i0) as [l0|]; [|done]. injection X as X. change w' with (r, w').2. rewrite <- X.
    destruct (TryLock_frame i0 ctx0 l0 o w c Hc) as (F1 & F2 & F3 & F4). rewrite F1, F3, F4. split; [done|]. split; [lia|done].
  - destruct (w_locks w !! i0) as [l0|] eqn:E0; [|done]. injection X as X. change w' with (r, w').2. rewrite <- X.
    destruct (Unlock_frame i0 l0 o w) as (F1 & F2 & F3 & F4). rewrite F1, F2, F3. split; [done|]. split; [done|]. split; [|done].
    intros [?|E1]%F4; [done|]. apply Hcalm. by apply (Hu i0 i l0 l c).
  - destruct (w_locks w !! i0) as [l0|]; [|done]. injection X as X. change w' with (r, w').2. rewrite <- X.
    destruct (renew_frame l0 o w) as (F1 & F2 & F3 & F4 & F5 & F6). unfold Renew. rewrite F3, F4, F5, F6. done.
  - destruct (w_dogs w !! d) as [dog|]; [|done]. cbn in X. destruct (w_locks w !! dg_lock dog) as [l0|]; [|done]. cbn in X.
    destruct (_ <=? _); [|done]. injection X as _ <-. destruct (dog_tick_frame d dog l0 o w) as (F1 & F2 & F3 & F4 & F5 & F6).
    rewrite F3, F4, F5, F6; [done|]. intros Hd. rewrite Hd in Ht. by apply (Ht o).
  - destruct (w_dogs w !! d); [|done]. cbn in X. destruct (decide _); [|done]. injection X as _ <-.
    cbn. rewrite lookup_delete_ne; [done|congruence].
  - injection X as _ <-. cbn. split; [done|]. split; [done|]. split; [done|].
    intros [Hx'%elem_of_singleton | Hx']%elem_of_union; congruence.
  - destruct (_ <=? _); [|done]. by injection X as _ <-.
Qed.

(** Its own tick moves the deadline a full time to live ahead. *)
Lemma own_tick w dog l : watched w -> w_dogs w !! c = Some dog -> w_locks w !! i = Some l -> dg_next dog <= w_now w ->
  watched (dog_tick c dog l Answered w).
Proof.
  intros (dog0 & E & Hi & Hst & Hx & Htk & Hj & Hn & Hc & Hcl & Hcx & (Ht & HT & Hd & l0 & d' & E0 & Et & Ek & ET & L & Hdd) & l1 & E1 & Ec) Ed El Hdue.
  assert (dog0 = dog) as -> by congruence. assert (l0 = l) as -> by congruence. assert (l1 = l) as -> by congruence.
  assert (P : 0 < Z.quot T ms_ns /\ Z.quot T ms_ns = T / ms_ns).
  { unfold ms_ns in *. rewrite Z.quot_div_nonneg by lia. split; [|done]. apply Z.div_str_pos. lia. }
  unfold dog_tick. set (next := dg_next dog + _). set (w1 := with_dogs _ w).
  rewrite decide_False by congruence. unfold renew. rewrite decide_False by congruence. cbn [command].
  assert (G : r_get (w_now w1) (lk_key l) (w_redis w1) = Some (lk_token l)) by (unfold r_get; cbn; by rewrite Ek, L, Et).
  unfold renewScript. rewrite decide_True by exact G. cbn [w_now w_redis w1 with_dogs]. rewrite ET, Ek.
  destruct (r_pexpire_live (w_now w) k (Z.quot T ms_ns) (w_redis w) t d' L (proj1 P)) as [R1 R2]. rewrite R1. cbn [fst snd Z.eqb].
  assert (Hnext : next <= w_now w + J).
  { unfold next. rewrite Hj. pose proof (Z.mul_div_le (w_now w - dg_next dog) J HJ). lia. }
  eexists. cbn. rewrite lookup_insert_eq. split; [reflexivity|]. cbn. rewrite Hj. repeat (split; [done|]).
  split; [|by exists l]. split; [done|]. split; [done|]. cbn. split; [lia|].
  exists l, (w_now w + Z.quot T ms_ns * ms_ns). repeat (split; [done|]). rewrite (proj2 P). lia.
Qed.

Lemma own_or_other a : (exists o, a = LTick c o) \/ a = LDogEnd c \/ ((forall o, a <> LTick c o) /\ a <> LDogEnd c).
Proof.
  destruct a; try (right; right; split; [intros ?|]; discriminate).
  - destruct (decide (d = c)) as [-> | Hd]; [left; by eexists|]. right. right. split; [intros o' Eo; congruence|done].
  - destruct (decide (d = c)) as [-> | Hd]; [right; by left|]. right. right. split; [done|congruence].
Qed.

Lemma watched_step a w r w' : lock_inv w -> chan_inv w -> exec_lock a w = Some (r, w') -> calm a -> prompt w' ->
  watched w -> watched w'.
Proof.
  intros I Ic X Hcalm Hp W. pose proof W as (dog & E & Hi & Hst & Hx & Htk & Hj & Hn & Hc & Hcl & Hcx & K & l & El & Ec).
  destruct (own_or_other a) as [[o ->] | [-> | [Hno Hne]]].
  - cbn [exec_lock] in X. rewrite E in X. cbn in X. rewrite Hi, El in X. cbn in X. cbn in Hcalm. subst o.
    destruct (Z.leb_spec (dg_next dog) (w_now w)) as [Hdue|]; [|done]. injection X as _ <-. by apply own_tick.
  - cbn [exec_lock] in X. rewrite E in X. cbn in X. rewrite Hst, Hx in X. rewrite decide_False in X by tauto. done.
  - destruct (other_frame a w r w' l X Hcalm Ic El Ec Hc Hcl Hcx Hno Hne) as (F1 & F2 & F3 & F4).
    rewrite E in F1. pose proof (Hp c dog F1) as Hlate. pose proof (now_mono _ _ _ _ X) as Hm.
    destruct (keeps_step i k t T (dg_next dog + slack + 1) a w r w' I X) as [K' Lk]; [|lia|exact K|].
    { intros [o ->]. by apply Hcalm. }
    exists dog. repeat (split; [done || lia|]). exists l. by rewrite Lk.
Qed.

Lemma watched_run acts w w' : lock_inv w -> chan_inv w -> calm_run acts w w' -> watched w -> watched w'.
Proof.
  intros I Ic R. induction R as [|a acts w r w1 w2 X Hcalm Hp R IH]; [done|]. intros W. apply IH.
  - by apply (exec_lock_inv a w r).
  - by apply (exec_lock_chans a w r).
  - by apply (watched_step a w r).
Qed.
End Watch.

Lemma reach_chans w : lock_reach w -> chan_inv w.
Proof.
  intros (w0 & acts & (El & _ & Ec & _) & X). assert (I0 : chan_inv w0).
  { unfold chan_inv. rewrite El, Ec. split; [|split]; intros; (simplify_map_eq || set_solver). }
  clear El Ec. revert w0 X I0. induction acts as [|a acts IH]; intros w0 X I0; cbn in X; [by injection X as <-|].
  destruct (exec_lock a w0) as [[r w1]|] eqn:E; [|done]. cbn in X. by apply (IH w1), (exec_lock_chans a w0 r).
Qed.

Lemma keeps_weaken i k t T d d1 w : keeps i k t T d w -> d1 <= d -> keeps i k t T d1 w.
Proof.
  intros (Ht & HT & Hd & l & d' & E & Et & Ek & ET & L & Hdd) H1. split; [done|]. split; [done|]. split; [lia|].
  exists l, d'. repeat (split; [done|]). lia.
Qed.

(** C36: A lock that renews itself is held for as long as its watchdog works: after a [TryLock]
    without error by a lock that does not count as watching, with a context that is not
    cancelled and a time to live of a millisecond or more, in every run in which the
    watchdogs' ticks come at most [slack] late (a third of the time to live and [slack] being
    less than the whole), renewals are answered, and nobody unlocks the lock or cancels the
    context, the lock holds its key at every moment, however long the run. A lock does not
    count as watching when it is new and after an [Unlock] that had a token to give up; it
    still does after its watchdog has ended by itself, and then a later [TryLock] starts none
    and nothing is promised: see [watchdog_not_restarted]. *)
Theorem auto_renew_holds (w w1 : lworld) (i ctx : nat) (l : Lock) (slack : Z) :
  lock_reach w -> w_locks w !! i = Some l -> lk_autoRenew l = true -> lk_watching l = false -> ms_ns <= lk_ttl l ->
  dog_interval l + slack < lk_ttl l / ms_ns * ms_ns -> (ctx ∉ w_cancelled w) ->
  exec_lock (LTryLock i ctx Answered) w = Some (None, w1) ->
  forall acts w2, calm_run i ctx slack acts w1 w2 -> exists d, w_now w2 < d /\ holds i d w2.
Proof.
  intros Hr E Ha Hwt HT Hroom Hcx X acts w2 Hrun. pose proof (reach_inv w Hr) as I. pose proof (reach_chans w Hr) as Ic.
  pose proof (exec_lock_inv _ _ _ _ X I) as I1. pose proof (exec_lock_chans _ _ _ _ X Ic) as Ic1.
  cbn [exec_lock] in X. rewrite E in X. injection X as X. pose proof (TryLock_keeps i ctx l w w1 I E HT X) as K.
  destruct (TryLock_success i ctx l w w1 I E HT X) as (N & _ & _ & E1 & _). cbv zeta in E1. rewrite Ha in E1.
  unfold startWatchdog in E1. change (lk_watching (set_token (tok (w_tokens w)) l)) with (lk_watching l) in E1. rewrite Hwt in E1.
  assert (HJ : 0 < dog_interval l).
  { unfold dog_interval, ms_ns in *. cbv zeta. destruct (Z.leb_spec (Z.quot (lk_ttl l) 3) 0); lia. }
  assert (W : watched i (w_nchans w) ctx (lk_key l) (tok (w_tokens w)) (lk_ttl l) (dog_interval l) slack w1).
  { exists (mkDog i (w_nchans w) ctx (tok (w_tokens w)) (dog_interval l) (w_now w + dog_interval l)).
    split; [rewrite E1; cbn; by rewrite lookup_insert_eq|]. repeat (split; [done|]). cbn [dg_next]. split; [lia|].
    split; [rewrite E1; cbn; lia|]. split; [rewrite E1; cbn; intros Hc; apply Ic in Hc; lia|]. split; [by rewrite E1|].
    split; [apply (keeps_weaken _ _ _ _ _ _ _ K); lia|]. rewrite E1. eexists. cbn. rewrite lookup_insert_eq. done. }
  destruct (watched_run i (w_nchans w) ctx (lk_key l) (tok (w_tokens w)) (lk_ttl l) (dog_interval l) slack HJ Hroom acts w1 w2 I1 Ic1 Hrun W)
    as (dog & _ & _ & _ & _ & _ & _ & _ & _ & _ & _ & (Ht & _ & _ & l2 & d' & E2 & Et & Ek & _ & L & _) & _).
  exists d'. split; [by apply (r_live_deadline _ _ _ _ _ L)|]. exists l2. rewrite Ek, Et. done.
Qed.
End Renew.

(** ** Runs *)

(** A lock of 30 seconds with a watchdog, after 25 seconds with two ticks on time. *)
Definition renew_before : list laction := [LNew 0 true "k" [OAutoRenew]].
Definition renew_w : lworld := default lock_start (lrun renew_before lock_start).
Definition renew_w1 : lworld := match exec_lock (LTryLock 0 0 Answered) renew_w with Some (_, w) => w | None => lock_start end.
Definition renew_lock : Lock := NewLock true "k" [WithAutoRenew].
Definition renew_acts : list laction :=
  [LTime 10500000000; LTick 0 Answered; LTime 20500000000; LTick 0 Answered; LTime 30500000000; LTick 0 Answered; LTime 40000000000].

Lemma renew_w_run : lrun renew_before lock_start = Some renew_w.
Proof. apply some_default. vm_compute. reflexivity. Qed.
Lemma renew_w_lock : w_locks renew_w !! 0%nat = Some renew_lock.
Proof. vm_compute. reflexivity. Qed.
Lemma renew_w1_run : exec_lock (LTryLock 0 0 Answered) renew_w = Some (None, renew_w1).
Proof. apply some_ok. vm_compute. reflexivity. Qed.

(** A run is calm if its steps are possible and there is one watchdog, in time. *)
Definition prompt_b (slack : Z) (w : lworld) : bool :=
  bool_decide (map_Forall (fun _ dog => w_now w <= dg_next dog + slack) (w_dogs w)).
Definition calm_b (i ctx : nat) (a : laction) : bool :=
  match a with
  | LUnlock j _ => negb (Nat.eqb j i)
  | LCancel x => negb (Nat.eqb x ctx)
  | LTick _ o => match o with Answered => true | Failed _ => false end
  | _ => true
  end.
Fixpoint calm_runs (i ctx : nat) (slack : Z) (acts : list laction) (w : lworld) : bool :=
  match acts with
  | [] => true
  | a :: acts => match exec_lock a w with
                 | Some (_, w1) => calm_b i ctx a && prompt_b slack w1 && calm_runs i ctx slack acts w1
                 | None => false
                 end
  end.

Lemma calm_runs_ok i ctx slack acts w : calm_runs i ctx slack acts w = true ->
  exists w2, lrun acts w = Some w2 /\ calm_run i ctx slack acts w w2.
Proof.
  revert w. induction acts as [|a acts IH]; intros w X; cbn in X; [exists w; split; [done|constructor]|].
  destruct (exec_lock a w) as [[r w1]|] eqn:E; [|done]. apply andb_true_iff in X as [X X2]. apply andb_true_iff in X as [X0 X1].
  destruct (IH w1 X2) as (w2 & R1 & R2). exists w2. split; [cbn; rewrite E; exact R1|]. apply (cr_step i ctx slack a acts w r w1 w2 E).
  - destruct a as [| |j o| |d o| |x|]; try done; cbn in X0 |- *; [apply negb_true_iff, Nat.eqb_neq in X0; done|by destruct o|
      apply negb_true_iff, Nat.eqb_neq in X0; done].
  - unfold prompt_b in X1. apply bool_decide_eq_true in X1. exact X1.
  - exact R2.
Qed.

Lemma renew_calm : calm_runs 0 0 1000000000 renew_acts renew_w1 = true.
Proof. vm_compute. reflexivity. Qed.

Lemma auto_renew_holds_witness : exists w2, lrun renew_acts renew_w1 = Some w2 /\ exists d, w_now w2 < d /\ holds 0 d w2.
Proof.
  destruct (calm_runs_ok _ _ _ _ _ renew_calm) as (w2 & R1 & R2). exists w2. split; [exact R1|].
  refine (auto_renew_holds renew_w renew_w1 0 0 renew_lock 1000000000 _ renew_w_lock eq_refl eq_refl _ _ _ renew_w1_run renew_acts w2 R2).
  - exists lock_start, renew_before. split; [exact lock_start_init|exact renew_w_run].
  - vm_compute. discriminate.
  - vm_compute. reflexivity.
  - change (w_cancelled renew_w) with (∅ : gset nat). apply not_elem_of_empty.
Defined.

(** After the context of its first watchdog was cancelled and the time ran out, a lock taken
    again has no watchdog: it still counts as watching. *)
Lemma watchdog_not_restarted :
  (match lrun [LCancel 0; LDogEnd 0; LTime 31000000000] renew_w1 with
   | Some w => match exec_lock (LTryLock 0 1 Answered) w with Some (None, w') => bool_decide (w_dogs w' = ∅) | _ => false end
   | None => false
   end) = true.
Proof. vm_compute. reflexivity. Qed.

(** One renewal that is not answered ends the watchdog of a lock that is held. *)
Lemma failed_renewal_ends_watchdog :
  (match lrun [LTime 10000000000; LTick 0 (Failed false)] renew_w1 with
   | Some w => bool_decide (w_dogs w = ∅) && bool_decide (r_get (w_now w) "k" (w_redis w) = Some (tok 0))
   | None => false
   end) = true.
Proof. vm_compute. reflexivity. Qed.

(** A time to live under a millisecond is sent as one when the lock is taken and as none when
    it is renewed: the renewal deletes the key and reports success. *)
Lemma short_renewal_releases :
  (match lrun [LNew 0 true "k" [OTTL 500000]; LTryLock 0 0 Answered] lock_start with
   | Some w => match exec_lock (LRenew 0 Answered) w with
               | Some (None, w') => bool_decide (r_get (w_now w) "k" (w_redis w) = Some (tok 0)) && bool_decide (r_get (w_now w') "k" (w_redis w') = None)
               | _ => false
               end
   | None => false
   end) = true.
Proof. vm_compute. reflexivity. Qed.
