(* ===== verification/Links.v ===== *)
(** Making and breaking the connections of the cluster transports: the AMQP connection of
    the RabbitMQ cluster (cluster.go), with what it opens and closes at the broker, and the
    NATS connection with its subscriptions (net/nats/connect.go).

    The clients are the environment: [bk_errors] says which of the calls to come fail. The
    model keeps which handles are open. *)
From S2P Require Import Prelude Strconv Facade Agp Cluster Nats.

(** ** AMQP *)

(** What was asked of the broker. *)
Inductive broker_call :=
| BkDial | BkChannel (conn : nat) | BkExchange (ch : nat) (exchange : str) | BkQueue (ch : nat) (key : str)
| BkBind (ch : nat) (key exchange : str) | BkConsume (ch : nat) (key : str).

(** Handles are numbered; [bk_open] are the connections and channels that have not been
    closed. *)
Record broker := mkBroker { bk_errors : list (option str); bk_next : nat; bk_open : list nat; bk_calls : list broker_call }.

(** A call, with the error it is answered with. *)
Definition bk_call (c : broker_call) (b : broker) : option str * broker :=
  match bk_errors b with
  | [] => (None, mkBroker [] (bk_next b) (bk_open b) (bk_calls b ++ [c]))
  | e :: errors => (e, mkBroker errors (bk_next b) (bk_open b) (bk_calls b ++ [c]))
  end.

(** A call that opens a handle when it succeeds. *)
Definition bk_new (c : broker_call) (b : broker) : res nat * broker :=
  match bk_call c b with
  | (Some e, b) => (Err e, b)
  | (None, b) => (Ok (bk_next b), mkBroker (bk_errors b) (S (bk_next b)) (bk_open b ++ [bk_next b]) (bk_calls b))
  end.

(** The error of [Close] is ignored. *)
Definition bk_close (h : nat) (b : broker) : broker :=
  mkBroker (bk_errors b) (bk_next b) (List.filter (fun x => negb (x =? h)%nat) (bk_open b)) (bk_calls b).

(** The part of a cluster that is about its connection. [lk_pumps]: the goroutines started:
    their channel, and whether they pump replies. *)
Record amqp_link := mkLink {
  lk_exchange : str; lk_remoteKey : str; lk_replyKey : str; lk_conn : option nat; lk_ch : option nat; lk_pumps : list (nat * bool) }.

Definition set_link (conn ch : option nat) (pumps : list (nat * bool)) (l : amqp_link) : amqp_link :=
  mkLink (lk_exchange l) (lk_remoteKey l) (lk_replyKey l) conn ch pumps.

(** src/net/cluster/rabbitmq_cluster/cluster.go:176-185, Cluster.closeLocked *)
Definition closeLocked (l : amqp_link) (b : broker) : amqp_link * broker :=
  let b := match lk_ch l with Some ch => bk_close ch b | None => b end in
  let b := match lk_conn l with Some conn => bk_close conn b | None => b end in
  (set_link None None (lk_pumps l) l, b).

(** src/net/cluster/rabbitmq_cluster/cluster.go:166-174, Cluster.declareAndBind *)
Definition declareAndBind (ch : nat) (key exchange : str) (b : broker) : option str * broker :=
  match bk_call (BkQueue ch key) b with
  | (Some e, b) => (Some (String.append "queue declare " (String.append key (String.append ": " e))), b)
  | (None, b) =>
      match bk_call (BkBind ch key exchange) b with
      | (Some e, b) => (Some (String.append "queue bind " (String.append key (String.append ": " e))), b)
      | (None, b) => (None, b)
      end
  end.

(** The way out when a step fails: both handles are closed. *)
Definition bk_abandon (conn ch : nat) (e : str) (l : amqp_link) (b : broker) : option str * amqp_link * broker :=
  (Some e, l, bk_close conn (bk_close ch b)).

(** src/net/cluster/rabbitmq_cluster/cluster.go:118-164, Cluster.connectAndServeLocked *)
Definition connectAndServeLocked (l : amqp_link) (b : broker) : option str * amqp_link * broker :=
  let '(l, b) := closeLocked l b in
  match bk_new BkDial b with
  | (Err e, b) => (Some (String.append "dial: " e), l, b)
  | (Ok conn, b) =>
  match bk_new (BkChannel conn) b with
  | (Err e, b) => (Some (String.append "channel: " e), l, bk_close conn b)
  | (Ok ch, b) =>
  match bk_call (BkExchange ch (lk_exchange l)) b with
  | (Some e, b) => bk_abandon conn ch (String.append "exchange declare: " e) l b
  | (None, b) =>
  match declareAndBind ch (lk_remoteKey l) (lk_exchange l) b with
  | (Some e, b) => bk_abandon conn ch e l b
  | (None, b) =>
  match declareAndBind ch (lk_replyKey l) (lk_exchange l) b with
  | (Some e, b) => bk_abandon conn ch e l b
  | (None, b) =>
  match bk_call (BkConsume ch (lk_remoteKey l)) b with
  | (Some e, b) => bk_abandon conn ch (String.append "consume remote: " e) l b
  | (None, b) =>
  match bk_call (BkConsume ch (lk_replyKey l)) b with
  | (Some e, b) => bk_abandon conn ch (String.append "consume reply: " e) l b
  | (None, b) => (None, set_link (Some conn) (Some ch) (lk_pumps l ++ [(ch, false); (ch, true)]) l, b)
  end end end end end end end.

(** What is open is what the cluster has, both or neither. *)
Record link_ok (l : amqp_link) (b : broker) : Prop := {
  lo_both : lk_conn l = None <-> lk_ch l = None;
  lo_open : bk_open b = match lk_conn l, lk_ch l with Some conn, Some ch => [conn; ch] | _, _ => [] end;
  lo_next : forall h, h ∈ bk_open b -> (h < bk_next b)%nat }.

Lemma bk_call_open c b : bk_open (bk_call c b).2 = bk_open b /\ bk_next (bk_call c b).2 = bk_next b /\ bk_calls (bk_call c b).2 = bk_calls b ++ [c].
Proof. unfold bk_call. by destruct (bk_errors b). Qed.

Lemma closeLocked_open l b : link_ok l b -> bk_open (closeLocked l b).2 = [] /\ bk_next (closeLocked l b).2 = bk_next b /\
  bk_calls (closeLocked l b).2 = bk_calls b /\ lk_conn (closeLocked l b).1 = None /\ lk_ch (closeLocked l b).1 = None.
Proof.
  intros [Hb Ho _]. unfold closeLocked, bk_close. simpl.
  destruct (lk_conn l) as [conn|] eqn:E1, (lk_ch l) as [ch|] eqn:E2; simpl; rewrite Ho; simpl; try done.
  destruct (Nat.eqb_spec conn ch); simpl; rewrite ?Nat.eqb_refl; done.
Qed.

Lemma bk_close_two conn ch b : bk_open b = [conn; ch] -> bk_open (bk_close conn (bk_close ch b)) = [].
Proof.
  intros E. unfold bk_close. simpl. rewrite E. simpl. rewrite Nat.eqb_refl. destruct (Nat.eqb_spec conn ch); simpl; [done|].
  by rewrite Nat.eqb_refl.
Qed.

Lemma bind_open ch key exchange b : bk_open (declareAndBind ch key exchange b).2 = bk_open b /\
  bk_next (declareAndBind ch key exchange b).2 = bk_next b /\
  ((declareAndBind ch key exchange b).1 = None ->
   bk_calls (declareAndBind ch key exchange b).2 = bk_calls b ++ [BkQueue ch key; BkBind ch key exchange]).
Proof.
  unfold declareAndBind. destruct (bk_call_open (BkQueue ch key) b) as (H1 & H2 & H3). destruct (bk_call (BkQueue ch key) b) as [[e|] b1]; [done|].
  destruct (bk_call_open (BkBind ch key exchange) b1) as (H4 & H5 & H6). destruct (bk_call (BkBind ch key exchange) b1) as [[e|] b2]; simpl in *;
    split_and!; try congruence. intros _. rewrite H6, H3, <- app_assoc. done.
Qed.

(** The calls of a connection that succeeds. *)
Definition link_calls (l : amqp_link) (conn ch : nat) : list broker_call :=
  [BkDial; BkChannel conn; BkExchange ch (lk_exchange l); BkQueue ch (lk_remoteKey l); BkBind ch (lk_remoteKey l) (lk_exchange l);
   BkQueue ch (lk_replyKey l); BkBind ch (lk_replyKey l) (lk_exchange l); BkConsume ch (lk_remoteKey l); BkConsume ch (lk_replyKey l)].

(** What [connectAndServeLocked] has done, when it ends without an error and when not. *)
Definition link_result (l : amqp_link) (b : broker) (r : option str * amqp_link * broker) : Prop :=
  match r with
  | (Some _, l', b') => lk_conn l' = None /\ lk_ch l' = None /\ bk_open b' = [] /\ lk_pumps l' = lk_pumps l
  | (None, l', b') => let conn := bk_next b in let ch := S (bk_next b) in
      lk_conn l' = Some conn /\ lk_ch l' = Some ch /\ bk_open b' = [conn; ch] /\ bk_next b' = S (S (bk_next b)) /\
      lk_pumps l' = lk_pumps l ++ [(ch, false); (ch, true)] /\ bk_calls b' = bk_calls b ++ link_calls l conn ch
  end.

Lemma abandon_result l0 b0 conn ch e l b : lk_conn l = None -> lk_ch l = None -> bk_open b = [conn; ch] -> lk_pumps l = lk_pumps l0 ->
  link_result l0 b0 (bk_abandon conn ch e l b).
Proof. intros H1 H2 H3 H4. unfold bk_abandon, link_result. split_and!; try done. by apply bk_close_two. Qed.

Lemma bk_new_spec c b : match bk_new c b with
  | (Ok h, b') => h = bk_next b /\ bk_open b' = bk_open b ++ [h] /\ bk_next b' = S h /\ bk_calls b' = bk_calls b ++ [c]
  | (Err _, b') => bk_open b' = bk_open b /\ bk_next b' = bk_next b
  end.
Proof.
  unfold bk_new. destruct (bk_call_open c b) as (H1 & H2 & H3). destruct (bk_call c b) as [[e|] b1]; simpl in *; split_and!; congruence.
Qed.

(** Connecting to the broker: whichever of the calls fails, nothing stays open, neither of
    this attempt nor of the connection before it, and no pump is started; without an error
    the two handles are those that are open, and both queues are declared and bound before
    they are consumed. *)
Theorem connect_no_leak l b : link_ok l b -> link_result l b (connectAndServeLocked l b).
Proof.
  intros Hok. unfold connectAndServeLocked. pose proof (closeLocked_open l b Hok) as (O0 & N0 & C0 & L1 & L2).
  assert (lk_pumps (closeLocked l b).1 = lk_pumps l /\ link_calls (closeLocked l b).1 = link_calls l) as [Hp Hl] by done.
  destruct (closeLocked l b) as [l0 b0]. simpl in *.
  pose proof (bk_new_spec BkDial b0) as H1. destruct (bk_new BkDial b0) as [[conn|e] b1]; [|destruct H1; split_and!; congruence].
  destruct H1 as (-> & O1 & N1 & C1). pose proof (bk_new_spec (BkChannel (bk_next b0)) b1) as H2.
  destruct (bk_new (BkChannel (bk_next b0)) b1) as [[ch|e] b2].
  2: { destruct H2 as [O2 _]. split_and!; try done. unfold bk_close. simpl. rewrite O2, O1, O0. simpl. by rewrite Nat.eqb_refl. }
  destruct H2 as (-> & O2 & N2 & C2).
  assert (bk_open b2 = [bk_next b0; bk_next b1]) as O2' by (by rewrite O2, O1, O0).
  set (conn := bk_next b0) in *. set (ch := bk_next b1) in *.
  destruct (bk_call_open (BkExchange ch (lk_exchange l0)) b2) as (O3 & N3 & C3).
  destruct (bk_call (BkExchange ch (lk_exchange l0)) b2) as [[e|] b3]; [apply abandon_result; simpl in *; congruence|].
  destruct (bind_open ch (lk_remoteKey l0) (lk_exchange l0) b3) as (O4 & N4 & C4).
  destruct (declareAndBind ch (lk_remoteKey l0) (lk_exchange l0) b3) as [[e|] b4]; [apply abandon_result; simpl in *; congruence|].
  destruct (bind_open ch (lk_replyKey l0) (lk_exchange l0) b4) as (O5 & N5 & C5).
  destruct (declareAndBind ch (lk_replyKey l0) (lk_exchange l0) b4) as [[e|] b5]; [apply abandon_result; simpl in *; congruence|].
  destruct (bk_call_open (BkConsume ch (lk_remoteKey l0)) b5) as (O6 & N6 & C6).
  destruct (bk_call (BkConsume ch (lk_remoteKey l0)) b5) as [[e|] b6]; [apply abandon_result; simpl in *; congruence|].
  destruct (bk_call_open (BkConsume ch (lk_replyKey l0)) b6) as (O7 & N7 & C7).
  destruct (bk_call (BkConsume ch (lk_replyKey l0)) b6) as [[e|] b7]; [apply abandon_result; simpl in *; congruence|].
  simpl in *. assert (conn = bk_next b) as -> by done. assert (ch = S (bk_next b)) as -> by congruence.
  rewrite <- Hl, Hp. split_and!; try done; try congruence.
  rewrite C7, C6, C5, C4, C3, C2, C1, C0 by done. by rewrite <- !app_assoc.
Qed.

(** What is open is always what the cluster has. *)
Lemma connect_keeps l b : link_ok l b ->
  link_ok (connectAndServeLocked l b).1.2 (connectAndServeLocked l b).2.
Proof.
  intros Hok. pose proof (connect_no_leak l b Hok) as H. destruct (connectAndServeLocked l b) as [[[e|] l'] b']; simpl in *.
  - destruct H as (H1 & H2 & H3 & _). split; rewrite ?H1, ?H2, ?H3; try done. intros h Hh. by apply elem_of_nil in Hh.
  - destruct H as (H1 & H2 & H3 & H4 & _). split; rewrite ?H1, ?H2, ?H3; try done. intros h Hh. rewrite H4.
    apply elem_of_cons in Hh as [->|Hh]; [lia|]. apply list_elem_of_singleton in Hh. lia.
Qed.

(** A second connection, whose queue for replies cannot be bound. *)
Definition demo_link : amqp_link := mkLink "actorgo.cluster" "r" "y" (Some 0%nat) (Some 1%nat) [(1%nat, false); (1%nat, true)].
Definition demo_broker (errors : list (option str)) : broker := mkBroker errors 2 [0%nat; 1%nat] [].

Theorem connect_no_leak_witness :
  connectAndServeLocked demo_link (demo_broker (replicate 6 None ++ [Some "closed"%string])) =
    (Some "queue bind y: closed"%string, set_link None None (lk_pumps demo_link) demo_link,
     mkBroker [] 4 [] (take 7 (link_calls demo_link 2 3))) /\
  link_result demo_link (demo_broker []) (connectAndServeLocked demo_link (demo_broker [])).
Proof.
  split; [vm_compute; reflexivity|]. apply connect_no_leak. split; [done|done|]. simpl. intros h Hh.
  apply elem_of_cons in Hh as [->|Hh]; [lia|]. apply list_elem_of_singleton in Hh as ->. lia.
Defined.

(** ** NATS *)

(** What [nats.Connect] is given besides the address. *)
Inductive nats_option :=
| ReconnectWait (d : Z) | MaxReconnects (n : Z) | DisconnectErrHandler | ReconnectHandler | ClosedHandler | ErrorHandler
| UserInfo (user password : str).

(** src/net/nats/connect.go:228-268, options.natsOptions *)
Definition natsOptions (reconnectDelay : Z) (o : natsConnect) : list nats_option :=
  (if 0 <? reconnectDelay then [ReconnectWait reconnectDelay] else []) ++
  (if 0 <? nn_maxReconnects o then [MaxReconnects (nn_maxReconnects o)] else []) ++
  [DisconnectErrHandler; ReconnectHandler; ClosedHandler; ErrorHandler] ++
  (if String.eqb (nn_user o) EmptyString then [] else [UserInfo (nn_user o) (nn_password o)]).

(** A connection of the client: it is up or trying to get up again, or closed; and the
    subscriptions that are active on it. *)
Inductive nats_status := NatsUp | NatsReconnecting | NatsClosed.
Record nats_link := mkNatsLink {
  nl_conn : option nats_status; nl_subs : list nat; nl_active : list nat; nl_next : nat; nl_stats : bool }.
Definition nl_init : nats_link := mkNatsLink None [] [] 0 false.

(** [ok]: the answer of the client. *)
(** src/net/nats/connect.go:202-213, Connect.SubscribeHandle *)
Definition SubscribeHandle (err : option str) (l : nats_link) : res nat * nats_link :=
  match err with
  | Some e => (Err e, l)
  | None => (Ok (nl_next l), mkNatsLink (nl_conn l) (nl_subs l ++ [nl_next l]) (nl_active l ++ [nl_next l]) (S (nl_next l)) (nl_stats l))
  end.

(** src/net/nats/connect.go:195-198, Connect.Subscribe *)
Definition Connect_Subscribe (err : option str) (l : nats_link) : option str * nats_link :=
  match SubscribeHandle err l with (Err e, l) => (Some e, l) | (Ok _, l) => (None, l) end.

(** src/net/nats/connect.go:215-226, Connect.QueueSubscribe *)
Definition QueueSubscribe (err : option str) (l : nats_link) : option str * nats_link :=
  match err with
  | Some e => (Some e, l)
  | None => (None, mkNatsLink (nl_conn l) (nl_subs l ++ [nl_next l]) (nl_active l ++ [nl_next l]) (S (nl_next l)) (nl_stats l))
  end.

(** The attempts, one for each answer of [nats.Connect]; [None]: still trying. A reply
    subscription that fails is logged. *)
(** src/net/nats/connect.go:60-75, Connect.Connect *)
Fixpoint Connect_loop (isStats : bool) (answers : list bool) (reply : option str) (l : nats_link) : option nats_link :=
  match answers with
  | [] => None
  | false :: answers => Connect_loop isStats answers reply l
  | true :: _ =>
      let l := mkNatsLink (Some NatsUp) (nl_subs l) (nl_active l) (nl_next l) (nl_stats l) in
      let l := (Connect_Subscribe reply l).2 in
      Some (mkNatsLink (nl_conn l) (nl_subs l) (nl_active l) (nl_next l) isStats)
  end.

(** src/net/nats/connect.go:55-76, Connect.Connect *)
Definition Connect_Connect (isStats : bool) (answers : list bool) (reply : option str) (l : nats_link) : option nats_link :=
  match nl_conn l with Some _ => Some l | None => Connect_loop isStats answers reply l end.

(** src/net/nats/connect.go:82-90, Connect.Close *)
Definition Connect_Close (l : nats_link) : nats_link :=
  match nl_conn l with
  | Some NatsUp => mkNatsLink (Some NatsClosed) (nl_subs l) (List.filter (fun s => negb (bool_decide (s ∈ nl_subs l))) (nl_active l)) (nl_next l) (nl_stats l)
  | _ => l
  end.

(** The other side: the connection is lost, and comes back with its subscriptions. *)
Definition nats_lost (l : nats_link) : nats_link :=
  match nl_conn l with Some NatsUp => mkNatsLink (Some NatsReconnecting) (nl_subs l) (nl_active l) (nl_next l) (nl_stats l) | _ => l end.
Definition nats_back (l : nats_link) : nats_link :=
  match nl_conn l with Some NatsReconnecting => mkNatsLink (Some NatsUp) (nl_subs l) (nl_active l) (nl_next l) (nl_stats l) | _ => l end.

Inductive link_action := LConnect (isStats : bool) (answers : list bool) (reply : option str) | LSubscribe (err : option str) | LQueue (err : option str)
| LClose | LLost | LBack.

Definition exec_link (a : link_action) (l : nats_link) : option nats_link :=
  match a with
  | LConnect isStats answers reply => Connect_Connect isStats answers reply l
  | LSubscribe err => Some (Connect_Subscribe err l).2
  | LQueue err => Some (QueueSubscribe err l).2
  | LClose => Some (Connect_Close l)
  | LLost => Some (nats_lost l)
  | LBack => Some (nats_back l)
  end.

Inductive link_reach : nats_link -> Prop :=
| link_start : link_reach nl_init
| link_step l a l' : link_reach l -> exec_link a l = Some l' -> link_reach l'.

(** The connection knows its subscriptions. *)
Lemma link_subs l : link_reach l -> nl_active l ⊆ nl_subs l.
Proof.
  induction 1 as [|l a l' _ IH E]; [done|]. destruct a as [isStats answers reply|[e|]|[e|]| | |]; simpl in E.
  - unfold Connect_Connect in E. destruct (nl_conn l); [by injection E as <-|]. clear -IH E.
    induction answers as [|[] answers IHa]; simpl in E; [done| |by apply IHa]. destruct reply; injection E as <-; simpl; set_solver.
  - by injection E as <-.
  - injection E as <-. simpl. set_solver.
  - by injection E as <-.
  - injection E as <-. simpl. set_solver.
  - injection E as <-. unfold Connect_Close. destruct (nl_conn l) as [[]|]; simpl; try done. intros x Hx.
    apply list_elem_of_In, List.filter_In in Hx as [Hx _]. apply IH, list_elem_of_In, Hx.
  - injection E as <-. unfold nats_lost. by destruct (nl_conn l) as [[]|].
  - injection E as <-. unfold nats_back. by destruct (nl_conn l) as [[]|].
Qed.

(** [Close] on a connection that is up ends all of its subscriptions. *)
Lemma Connect_Close_spec l : link_reach l -> nl_conn l = Some NatsUp ->
  nl_conn (Connect_Close l) = Some NatsClosed /\ nl_active (Connect_Close l) = [].
Proof.
  intros Hr E. unfold Connect_Close. rewrite E. simpl. split; [done|]. pose proof (link_subs l Hr) as Hs.
  destruct (List.filter _ (nl_active l)) as [|x xs] eqn:F; [done|]. assert (In x (x :: xs)) as Hx by (by left). rewrite <- F in Hx.
  apply List.filter_In in Hx as [Hx Hn]. apply list_elem_of_In in Hx. rewrite bool_decide_true in Hn by (by apply Hs). done.
Qed.

(** While the client reconnects it does nothing: the connection comes back, with all of its
    subscriptions, and nobody closes it any more. *)
Lemma close_while_reconnecting l : nl_conn l = Some NatsReconnecting ->
  Connect_Close l = l /\ nl_conn (nats_back (Connect_Close l)) = Some NatsUp /\ nl_active (nats_back (Connect_Close l)) = nl_active l.
Proof. intros E. unfold Connect_Close, nats_back. rewrite E. simpl. rewrite E. done. Qed.

(** [Connect] comes back as soon as an attempt succeeds, and not before. *)
Lemma Connect_loop_returns isStats answers reply l :
  (exists l', Connect_loop isStats answers reply l = Some l') <-> true ∈ answers.
Proof.
  induction answers as [|[] answers IH]; simpl.
  - split; [by intros [? ?]|by intros ?%elem_of_nil].
  - split; [intros _; by left|eauto].
  - rewrite IH. rewrite elem_of_cons. naive_solver.
Qed.

(** A pool of them. *)
(** src/net/nats/pool.go:79-84, ConnectClose *)
Definition ConnectClose (pool : list nats_link) : list nats_link := Connect_Close <$> pool.

(** A connection that was closed is not made again: neither [Connect] nor [NewPool], which
    finds the pool ready, does anything. *)
Lemma closed_not_renewed isStats answers reply l : nl_conn l = Some NatsClosed ->
  Connect_Connect isStats answers reply l = Some l /\ nats_back l = l.
Proof. intros E. unfold Connect_Connect, nats_back. by rewrite E. Qed.
