(* ===== verification/DataConfig.v ===== *)
(** The configuration of data (src/components/data-config): tables that are read from files
    or from Redis when the application starts, and again when they change.

    The tables, the parser and the files are the user's and the system's. A hook of a table
    returns or panics; what is called is recorded in order. *)
From S2P Require Import Prelude Strconv Facade Files.

(** ** Calls that can panic *)

Inductive dc_event :=
| EvInit (name : str) | EvLoad (name : str) (data : bytes) (reload : bool) | EvAfterLoad (name : str) (reload : bool) | EvSource | EvWatch.

(** What has been called, and whether it came back. *)
Definition eff : Type := list dc_event * bool.

Definition ret : eff := ([], true).
Definition call (e : dc_event) (returns : bool) : eff := ([e], returns).
(** A panic leaves out the rest. *)
Definition andThen (a b : eff) : eff := if a.2 then (a.1 ++ b.1, b.2) else a.
Notation "a ;;; b" := (andThen a b) (at level 100, right associativity) : go_scope.

Fixpoint each {A} (f : A -> eff) (l : list A) : eff := match l with [] => ret | x :: l => f x ;;; each f l end.

(** The error is logged; [catchFn] does nothing else here. *)
(** src/extend/utils/utils.go:7-16, Try *)
Definition dc_Try (a : eff) : eff := (a.1, true).

(** ** The component *)

(** What [OnLoad] does with a document. *)
Inductive load_outcome := LoadOk (size : Z) | LoadErr | LoadPanic.

Section DataConfig.
Context {doc : Type}.

(** [false]: the hook panics. *)
(** src/components/data-config/interfaces.go:30-36, IConfig *)
Record IConfig := mkIConfig {
  ic_Name : str; ic_Init : bool; ic_OnLoad : doc -> bool -> load_outcome; ic_OnAfterLoad : bool -> bool }.

(** src/components/data-config/interfaces.go:13-16, IDataParser *)
Record IDataParser := mkIDataParser { dp_TypeName : str; dp_Unmarshal : bytes -> option doc }.

(** [ds_Init]: it returns. *)
(** src/components/data-config/interfaces.go:19-25, IDataSource *)
Record IDataSource := mkIDataSource { ds_Name : str; ds_Init : bool; ds_ReadBytes : str -> res bytes }.

(** The registries, as maps by name. *)
(** src/components/data-config/data_config.go:18-20, RegisterParser *)
Definition RegisterParser (p : IDataParser) (m : gmap str IDataParser) : gmap str IDataParser := <[dp_TypeName p := p]> m.
(** src/components/data-config/data_config.go:26-28, RegisterSource *)
Definition RegisterSource (s : IDataSource) (m : gmap str IDataSource) : gmap str IDataSource := <[ds_Name s := s]> m.
(** src/components/data-config/data_config.go:14-16, GetParser *)
Definition GetParser (name : str) (m : gmap str IDataParser) : option IDataParser := m !! name.
(** src/components/data-config/data_config.go:22-24, GetDataSource *)
Definition GetDataSource (name : str) (m : gmap str IDataSource) : option IDataSource := m !! name.

(** src/components/data-config/component.go:16-22, Component *)
Record dc_component := mkDc { dc_source : option IDataSource; dc_parser : option IDataParser; dc_configs : list IConfig }.

(** A nil table is left out. *)
(** src/components/data-config/component.go:123-134, Component.Register *)
Definition dc_Register (configs : list (option IConfig)) (d : dc_component) : dc_component :=
  mkDc (dc_source d) (dc_parser d) (dc_configs d ++ omap id configs).

(** src/components/data-config/component.go:136-143, Component.GetIConfig *)
Fixpoint GetIConfig (name : str) (configs : list IConfig) : option IConfig :=
  match configs with
  | [] => None
  | cfg :: configs => if String.eqb (ic_Name cfg) name then Some cfg else GetIConfig name configs
  end.

(** src/components/data-config/component.go:145-153, Component.GetBytes *)
Definition dc_GetBytes (source : IDataSource) (configName : str) : option bytes :=
  match ds_ReadBytes source configName with Ok data => Some data | Err _ => None end.

(** The lock is released when [OnLoad] panics. *)
(** src/components/data-config/component.go:96-115, Component.onLoadConfig *)
Definition onLoadConfig (parser : IDataParser) (cfg : IConfig) (data : bytes) (reload : bool) : eff :=
  match dp_Unmarshal parser data with
  | None => ret
  | Some object => call (EvLoad (ic_Name cfg) data reload) (match ic_OnLoad cfg object reload with LoadPanic => false | _ => true end)
  end.

(** src/components/data-config/component.go:63-75, Component.Init *)
Definition load_registered (source : IDataSource) (parser : IDataParser) (cfg : IConfig) : eff :=
  match dc_GetBytes source (ic_Name cfg) with
  | None => ret
  | Some data => dc_Try (onLoadConfig parser cfg data false)
  end.

(** What is done when a table has changed. *)
(** src/components/data-config/component.go:83-89, Component.Init *)
Definition on_change (parser : IDataParser) (configs : list IConfig) (configName : str) (data : bytes) : eff :=
  match GetIConfig configName configs with
  | None => ret
  | Some cfg => onLoadConfig parser cfg data true ;;; call (EvAfterLoad (ic_Name cfg) true) (ic_OnAfterLoad cfg true)
  end.

(** [None]: [Fatal] ends the process. *)
(** src/components/data-config/component.go:33-94, Component.Init *)
Definition dc_Init (sources : gmap str IDataSource) (parsers : gmap str IDataParser) (sourceName parserName : str) (d : dc_component)
  : option (dc_component * list dc_event) :=
  source ← GetDataSource sourceName sources;
  parser ← GetParser parserName parsers;
  let d := mkDc (Some source) (Some parser) (dc_configs d) in
  let configs := dc_configs d in
  let run :=
    call EvSource (ds_Init source) ;;;
    each (fun cfg => call (EvInit (ic_Name cfg)) (ic_Init cfg)) configs ;;;
    each (load_registered source parser) configs ;;;
    each (fun cfg => call (EvAfterLoad (ic_Name cfg) false) (ic_OnAfterLoad cfg false)) configs ;;;
    call EvWatch true in
  Some (d, (dc_Try run).1).

(** ** What it does *)

Lemma andThen_ret a : andThen ret a = a.
Proof. by destruct a. Qed.

Lemma each_calls {A} (f : A -> dc_event) (ok : A -> bool) l : Forall (fun x => ok x = true) l ->
  each (fun x => call (f x) (ok x)) l = (f <$> l, true).
Proof. induction 1 as [|x l Hx _ IH]; [done|]. simpl. rewrite IH, Hx. done. Qed.

(** The call that a table makes of its [OnLoad]. *)
Definition load_event (source : IDataSource) (parser : IDataParser) (cfg : IConfig) : list dc_event :=
  match dc_GetBytes source (ic_Name cfg) with
  | Some data => match dp_Unmarshal parser data with Some _ => [EvLoad (ic_Name cfg) data false] | None => [] end
  | None => []
  end.

Lemma load_one source parser cfg : load_registered source parser cfg = (load_event source parser cfg, true).
Proof.
  unfold load_registered, load_event, onLoadConfig, dc_Try. destruct (dc_GetBytes source (ic_Name cfg)) as [data|]; [|done].
  by destruct (dp_Unmarshal parser data).
Qed.

Lemma load_all source parser l : each (load_registered source parser) l = (l ≫= load_event source parser, true).
Proof. induction l as [|cfg l IH]; [done|]. simpl. rewrite load_one, IH. done. Qed.

(** The start of the component: all tables are initialized, then all that can be read and
    parsed are loaded, then all are told, in the order of their registration; an [OnLoad]
    that fails or panics keeps none of the others from being loaded. *)
Theorem data_config_Init sources parsers sourceName parserName source parser d :
  sources !! sourceName = Some source -> parsers !! parserName = Some parser -> ds_Init source = true ->
  Forall (fun cfg => ic_Init cfg = true /\ ic_OnAfterLoad cfg false = true) (dc_configs d) ->
  dc_Init sources parsers sourceName parserName d =
    Some (mkDc (Some source) (Some parser) (dc_configs d),
      EvSource :: ((fun cfg => EvInit (ic_Name cfg)) <$> dc_configs d) ++ (dc_configs d ≫= load_event source parser) ++
      ((fun cfg => EvAfterLoad (ic_Name cfg) false) <$> dc_configs d) ++ [EvWatch]).
Proof.
  intros Hs Hp Hi HF. unfold dc_Init, GetDataSource, GetParser. rewrite Hs, Hp. simpl. rewrite Hi.
  rewrite each_calls by (eapply list.Forall_impl; [exact HF|naive_solver]). rewrite load_all.
  rewrite each_calls by (eapply list.Forall_impl; [exact HF|naive_solver]). done.
Qed.

(** A table whose [Init] panics ends it: no table is loaded and changes are not watched. *)
Lemma init_panic_loads_nothing source parser cfg rest : ds_Init source = true -> ic_Init cfg = false ->
  dc_Init {[ "s" := source ]} {[ "p" := parser ]} "s" "p" (mkDc None None (cfg :: rest)) =
  Some (mkDc (Some source) (Some parser) (cfg :: rest), [EvSource; EvInit (ic_Name cfg)]).
Proof. intros H1 H2. unfold dc_Init, GetDataSource, GetParser. rewrite !lookup_singleton_eq. simpl. by rewrite H1, H2. Qed.

(** A change: the table is loaded, and told even when the data cannot be parsed or [OnLoad]
    fails. A panic is not caught: it ends the goroutine of the source, and the process. *)
Lemma change_told_anyway parser configs cfg data : GetIConfig (ic_Name cfg) configs = Some cfg -> dp_Unmarshal parser data = None ->
  (on_change parser configs (ic_Name cfg) data).1 = [EvAfterLoad (ic_Name cfg) true].
Proof. intros H1 H2. unfold on_change, onLoadConfig. by rewrite H1, H2. Qed.

Lemma change_panic_escapes parser configs cfg data object : GetIConfig (ic_Name cfg) configs = Some cfg ->
  dp_Unmarshal parser data = Some object -> ic_OnLoad cfg object true = LoadPanic ->
  (on_change parser configs (ic_Name cfg) data).2 = false.
Proof. intros H1 H2 H3. unfold on_change, onLoadConfig. by rewrite H1, H2, H3. Qed.
End DataConfig.

(** ** Files *)

Section SourceFile.
Variable env : os_env.

(** src/components/data-config/source_file.go:24-28, fileConfig *)
Record fileConfig := mkFileConfig { fc_FilePath : str; fc_ExtName : str; fc_ReloadTime : Z }.

(** The defaults; [None]: the node cannot be decoded. *)
(** src/components/data-config/source_file.go:145-167, SourceFile.unmarshalFileConfig *)
Definition unmarshalFileConfig (decoded : option fileConfig) : option fileConfig :=
  c ← decoded;
  Some (mkFileConfig (if str_len (fc_FilePath c) <? 1 then "data/"%string else fc_FilePath c)
                     (if str_len (fc_ExtName c) <? 1 then ".json"%string else fc_ExtName c)
                     (if fc_ReloadTime c <? 1 then 3000 else fc_ReloadTime c)).

(** [Init] with a watcher that accepts the path and the expression: the path that is
    watched; [None]: a panic. *)
(** src/components/data-config/source_file.go:35-66, SourceFile.Init *)
Definition SourceFile_Init (decoded : option fileConfig) (compiles : str -> bool) (adds : str -> bool) (profilePath : str)
  : option (fileConfig * str) :=
  c ← unmarshalFileConfig decoded;
  if negb (compiles (String.append ".*\" (String.append (fc_ExtName c) "$"))) then None
  else match JoinPath env [profilePath; fc_FilePath c] with
       | (_, false) => None
       | (monitorPath, true) => if adds monitorPath then Some (c, monitorPath) else None
       end.

(** src/components/data-config/source_file.go:68-88, SourceFile.ReadBytes *)
Definition SourceFile_ReadBytes (c : fileConfig) (monitorPath configName : str) : res bytes :=
  if String.eqb configName EmptyString then Err "Config name is empty."
  else match JoinPath env [monitorPath; String.append configName (fc_ExtName c)] with
       | (_, false) => Err "Config file not found."
       | (fullPath, true) =>
           match os_stat env fullPath with
           | Some (FFile data) => if blen data <? 1 then Err "Data is empty." else Ok data
           | _ => Err "Read file error."
           end
       end.

(** An event of the watcher: the table that is changed, with its data, when there is
    something to call [changeFn] with. *)
(** src/components/data-config/source_file.go:97-117, SourceFile.newWatcher *)
Definition file_event (c : fileConfig) (monitorPath : str) (isDir : bool) (fileName : str) : option (str * bytes) :=
  if isDir then None
  else let configName := GetFileName fileName true in
       match SourceFile_ReadBytes c monitorPath configName with Ok data => Some (configName, data) | Err _ => None end.

Lemma cut_last_app c p e : str_mem c e = false -> cut_last c (String.append p (String c e)) = Some (p, e).
Proof.
  intros He. induction p as [|a p IH].
  - change (String.append EmptyString (String c e)) with (String c e). simpl. rewrite Ascii.eqb_refl.
    destruct (cut_last c e) as [[b x]|] eqn:E; [|done]. apply cut_last_some in E as ->. exfalso. clear -He.
    induction b as [|y b IH]; simpl in *; [by rewrite Ascii.eqb_refl in He|]. apply orb_false_iff in He as [_ He]. auto.
  - rewrite str_app_cons. simpl. by rewrite IH.
Qed.

Lemma cut_last_none c s : str_mem c s = false -> cut_last c s = None.
Proof. induction s as [|a s IH]; simpl; [done|]. intros [Ha Hs]%orb_false_iff. by rewrite IH, Ha. Qed.

Lemma trim_slashes_none s : str_mem slash s = false -> trim_slashes s = s.
Proof.
  induction s as [|a s IH]; simpl; [done|]. intros [Ha Hs]%orb_false_iff. rewrite IH by done. destruct s; [|done]. by rewrite Ha.
Qed.

Lemma path_Base_none s : s <> EmptyString -> str_mem slash s = false -> path_Base s = s.
Proof.
  intros H1 H2. unfold path_Base. destruct (String.eqb_spec s EmptyString) as [|_]; [done|]. rewrite trim_slashes_none by done.
  rewrite cut_last_none by done. by destruct (String.eqb_spec s EmptyString).
Qed.

(** A file that is written is read as the table it belongs to, when the extension has one
    dot. *)
Theorem file_event_reads c monitorPath name e data :
  fc_ExtName c = String "." e -> str_mem "." e = false -> str_mem slash e = false -> str_mem slash name = false ->
  SourceFile_ReadBytes c monitorPath name = Ok data ->
  file_event c monitorPath false (String.append name (fc_ExtName c)) = Some (name, data).
Proof.
  intros Hx Hd Hs Hn Hr. unfold file_event. rewrite Hx. unfold GetFileName.
  rewrite path_Base_none; [|by destruct name|]; [|rewrite str_mem_app; simpl; by rewrite Hn, Hs].
  rewrite cut_last_app by done. cbn [negb]. by rewrite Hr.
Qed.
End SourceFile.

(** With two dots it is not found again. *)
Definition demo_files : os_env :=
  mkOs (fun p => if String.eqb p "data/item.cfg.json" then Some (FFile [Byte.x31]) else if String.eqb p "data" then Some (FDir []) else None) "/" "/" "".

Lemma two_dots_not_reloaded :
  let c := mkFileConfig "data/" ".cfg.json" 3000 in
  SourceFile_ReadBytes demo_files c "data" "item" = Ok [Byte.x31] /\ file_event demo_files c "data" false "item.cfg.json" = None.
Proof. vm_compute. done. Qed.

Theorem file_event_reads_witness :
  file_event demo_files (mkFileConfig "data/" ".json" 3000) "data" false "item.cfg.json" = Some ("item.cfg"%string, [Byte.x31]).
Proof.
  apply (file_event_reads demo_files (mkFileConfig "data/" ".json" 3000) "data" "item.cfg" "json"); vm_compute; reflexivity.
Defined.

(** ** Redis *)

(** Where the goroutine of [newSubscribe] is: not started; in its [select]; with a payload;
    returned. [Stop]: at its send, which the goroutine has to take; with the client still to
    close; returned. *)
Inductive sub_pc := SubNone | SubSelect | SubRead (payload : str) | SubGone.
Inductive rstop_pc := RsNone | RsSend | RsClose | RsDone.

(** [sr_close]: the channel is made, [Init] has decoded its node. *)
(** src/components/data-config/source_redis.go:20-25, SourceRedis *)
Record SourceRedis := mkSourceRedis {
  sr_PrefixKey : str; sr_SubscribeKey : str; sr_change : bool; sr_close : bool; sr_rdb : bool; sr_sub : sub_pc; sr_stop : rstop_pc;
  sr_changes : list (str * bytes) }.

Definition sr_set (change close rdb : bool) (sub : sub_pc) (stop : rstop_pc) (changes : list (str * bytes)) (r : SourceRedis) : SourceRedis :=
  mkSourceRedis (sr_PrefixKey r) (sr_SubscribeKey r) change close rdb sub stop changes.

Section SourceRedis.
(** GET on the server. *)
Variable redis_get : str -> res bytes.

(** src/components/data-config/source_redis.go:104-112, SourceRedis.ReadBytes *)
Definition SourceRedis_ReadBytes (r : SourceRedis) (configName : str) : res bytes :=
  if String.eqb configName EmptyString then Err "configName is empty."
  else redis_get (String.append (sr_PrefixKey r) (String.append ":" configName)).

(** src/components/data-config/source_redis.go:40-52, SourceRedis.Init *)
Definition SourceRedis_Init (decoded : bool) (r : SourceRedis) : SourceRedis :=
  if decoded then sr_set (sr_change r) true true SubSelect (sr_stop r) (sr_changes r) r else r.

(** src/components/data-config/source_redis.go:114-116, SourceRedis.OnChange *)
Definition SourceRedis_OnChange (r : SourceRedis) : SourceRedis := sr_set true (sr_close r) (sr_rdb r) (sr_sub r) (sr_stop r) (sr_changes r) r.

(** A message; without a payload it is dropped. *)
(** src/components/data-config/source_redis.go:80-89, SourceRedis.newSubscribe *)
Definition sub_message (payload : str) (r : SourceRedis) : option SourceRedis :=
  match sr_sub r with
  | SubSelect => Some (if String.eqb payload EmptyString then r
                       else sr_set (sr_change r) (sr_close r) (sr_rdb r) (SubRead payload) (sr_stop r) (sr_changes r) r)
  | _ => None
  end.

(** src/components/data-config/source_redis.go:91-99, SourceRedis.newSubscribe *)
Definition sub_read (r : SourceRedis) : option SourceRedis :=
  match sr_sub r with
  | SubRead payload =>
      let changes := match SourceRedis_ReadBytes r payload with
                     | Ok data => if sr_change r then [(payload, data)] else []
                     | Err _ => [] end in
      Some (sr_set (sr_change r) (sr_close r) (sr_rdb r) SubSelect (sr_stop r) (sr_changes r ++ changes) r)
  | _ => None
  end.

(** The send on the channel, taken by the [select]. *)
(** src/components/data-config/source_redis.go:118-120, SourceRedis.Stop *)
Definition stop_send (r : SourceRedis) : option SourceRedis :=
  match sr_stop r, sr_sub r with
  | RsSend, SubSelect => if sr_close r then Some (sr_set (sr_change r) (sr_close r) (sr_rdb r) SubGone RsClose (sr_changes r) r) else None
  | _, _ => None
  end.

(** src/components/data-config/source_redis.go:122-128, SourceRedis.Stop *)
Definition stop_close (r : SourceRedis) : option SourceRedis :=
  match sr_stop r with
  | RsClose => Some (sr_set (sr_change r) (sr_close r) false (sr_sub r) RsDone (sr_changes r) r)
  | _ => None
  end.

Inductive sr_action := SrInit (decoded : bool) | SrOnChange | SrMessage (payload : str) | SrRead | SrStop | SrSend | SrClose.

Definition exec_sr (a : sr_action) (r : SourceRedis) : option SourceRedis :=
  match a with
  | SrInit decoded => match sr_sub r, sr_stop r with SubNone, RsNone => Some (SourceRedis_Init decoded r) | _, _ => None end
  | SrOnChange => Some (SourceRedis_OnChange r)
  | SrMessage payload => sub_message payload r
  | SrRead => sub_read r
  | SrStop => match sr_stop r with RsNone => Some (sr_set (sr_change r) (sr_close r) (sr_rdb r) (sr_sub r) RsSend (sr_changes r) r) | _ => None end
  | SrSend => stop_send r
  | SrClose => stop_close r
  end.

Definition sr_init (prefix key : str) : SourceRedis := mkSourceRedis prefix key false false false SubNone RsNone [].

Inductive sr_reach : SourceRedis -> Prop :=
| sr_start prefix key : sr_reach (sr_init prefix key)
| sr_step r a r' : sr_reach r -> exec_sr a r = Some r' -> sr_reach r'.

Definition sr_ok (r : SourceRedis) : Prop :=
  (sr_close r = true <-> sr_sub r <> SubNone) /\ (sr_sub r = SubGone <-> sr_stop r = RsClose \/ sr_stop r = RsDone).

Lemma sr_reach_ok r : sr_reach r -> sr_ok r.
Proof.
  induction 1 as [|r a r' _ IH E]; [split; simpl; naive_solver|]. destruct r as [pk sk ch cl rdb sub stop changes].
  unfold sr_ok in *. simpl in *.
  destruct a; simpl in E; unfold sub_message, sub_read, stop_send, stop_close, SourceRedis_Init in E; simpl in E;
    destruct sub, stop; simplify_eq; try (destruct decoded); try (destruct (String.eqb payload EmptyString)); try (destruct cl);
    simplify_eq; simpl in *; naive_solver.
Qed.

(** [Stop] comes back when [Init] has started the goroutine: it is in its [select], or gets
    there with one step. *)
Lemma redis_stop_returns r : sr_reach r -> sr_close r = true -> sr_stop r = RsSend ->
  exists r', (exec_sr SrSend r ≫= exec_sr SrClose = Some r' \/ exec_sr SrRead r ≫= (fun r => exec_sr SrSend r ≫= exec_sr SrClose) = Some r') /\
    sr_stop r' = RsDone.
Proof.
  intros Hr Hc Hs. destruct (sr_reach_ok r Hr) as [H1 H2]. destruct r as [pk sk ch cl rdb sub stop changes]. simpl in *. subst.
  unfold stop_send, sub_read, stop_close. simpl. destruct sub; simpl; [naive_solver|eauto| |naive_solver].
  eexists. split; [right; reflexivity|]. done.
Qed.

(** When the node cannot be decoded there is none, and [Stop] never comes back. *)
Lemma redis_stop_hangs r : sr_reach r -> sr_close r = false -> sr_stop r = RsSend -> forall a r', exec_sr a r = Some r' ->
  sr_close r' = false /\ sr_stop r' = RsSend.
Proof.
  intros Hr Hc Hs a r' E. destruct (sr_reach_ok r Hr) as [H1 _]. destruct r as [pk sk ch cl rdb sub stop changes]. simpl in *. subst.
  assert (sub = SubNone) as -> by (destruct sub; [done|..]; destruct H1 as [_ H1]; by specialize (H1 ltac:(done))).
  destruct a; simpl in E; simplify_eq; done.
Qed.
End SourceRedis.
