(* ===== verification/FileSys.v ===== *)
(** A file system that changes: files, directories and symbolic links under cleaned paths,
    the calls of [os] that the rotating log makes, and [filepath.Rel], [Match] and [Glob].

    A file is an inode: it keeps its contents while a handle is open, when its name is gone
    too. A path names what its cleaned text names; characters are bytes. A call can also fail
    for a reason outside the model, which its caller says ([fails]). *)
From stdpp Require Import sorting.
From S2P Require Import Prelude Strconv Files.

(** ** Paths *)

(** [filepath.Dir]. *)
Definition filepath_Dir (p : str) : str := Clean (filepath_Split p).1.

Definition segments (p : str) : list str :=
  filter (fun s => s <> EmptyString) (split_on slash (if String.eqb (Clean p) dot then EmptyString else Clean p)).

(** What is left of two lists behind their common front. *)
Fixpoint drop_common (a b : list str) : list str * list str :=
  match a, b with
  | x :: a', y :: b' => if String.eqb x y then drop_common a' b' else (a, b)
  | _, _ => (a, b)
  end.

(** [filepath.Rel]. *)
Definition filepath_Rel (base targ : str) : res str :=
  if negb (Bool.eqb (is_rooted (Clean base)) (is_rooted (Clean targ))) then Err (String.append "Rel: can't make " (String.append targ (String.append " relative to " base)))
  else
    let '(b, t) := drop_common (segments base) (segments targ) in
    match b with
    | s :: _ => if String.eqb s dotdot then Err (String.append "Rel: can't make " (String.append targ (String.append " relative to " base)))
                else Ok (path_of false (replicate (length b) dotdot ++ t))
    | [] => Ok (path_of false t)
    end.

(** [strings.Contains s p]. *)
Fixpoint has_infix (p s : str) : bool := String.prefix p s || match s with EmptyString => false | String _ s => has_infix p s end.

(** ** The file system *)

Inductive entry := EFile (ino : nat) | EDir (mtime : Z) | ELink (dest : str).

(** The entries by their paths, the contents and modification times of files, and the next
    file's number. *)
Record fs := mkFs { fs_entries : gmap str entry; fs_inodes : gmap nat (bytes * Z); fs_next : nat }.

Definition fs_set (entries : gmap str entry) (f : fs) : fs := mkFs entries (fs_inodes f) (fs_next f).
Definition fs_set_inode (i : nat) (x : bytes * Z) (f : fs) : fs := mkFs (fs_entries f) (<[i := x]> (fs_inodes f)) (fs_next f).

(** The working directory and the root are there. *)
Definition entry_at (p : str) (f : fs) : option entry :=
  match fs_entries f !! Clean p with
  | Some e => Some e
  | None => if String.eqb (Clean p) dot || String.eqb (Clean p) (char_str slash) then Some (EDir 0) else None
  end.

(** The path that a path leads to through links at its end, at most 40 of them. *)
Fixpoint resolve_link (fuel : nat) (p : str) (f : fs) : option str :=
  match entry_at p f with
  | Some (ELink d) =>
      match fuel with
      | O => None
      | S fuel => resolve_link fuel (if is_rooted d then d else filepath_Join [filepath_Dir p; d]) f
      end
  | _ => Some (Clean p)
  end.
Definition resolve (p : str) (f : fs) : option str := if String.eqb p EmptyString then None else resolve_link 40 p f.

Inductive file_info := FiFile (size mtime : Z) | FiDir (mtime : Z) | FiLink.

Definition info_of (e : entry) (f : fs) : option file_info :=
  match e with
  | EFile i => x ← fs_inodes f !! i; Some (FiFile (blen x.1) x.2)
  | EDir t => Some (FiDir t)
  | ELink _ => Some FiLink
  end.

(** [os.Lstat] and [os.Stat]; [None] is an error. *)
Definition os_Lstat (p : str) (f : fs) : option file_info :=
  if String.eqb p EmptyString then None else e ← entry_at p f; info_of e f.
Definition os_Stat (p : str) (f : fs) : option file_info := q ← resolve p f; os_Lstat q f.

Definition is_dir (p : str) (f : fs) : bool := match os_Stat p f with Some (FiDir _) => true | _ => false end.
Definition mod_time (i : file_info) : Z := match i with FiFile _ t => t | FiDir t => t | FiLink => 0 end.

(** A new name needs its directory. *)
Definition can_create (p : str) (f : fs) : bool := negb (String.eqb p EmptyString) && is_dir (filepath_Dir p) f.

(** A new empty file. *)
Definition create_file (p : str) (now : Z) (f : fs) : fs * nat :=
  (mkFs (<[Clean p := EFile (fs_next f)]> (fs_entries f)) (<[fs_next f := ([], now)]> (fs_inodes f)) (S (fs_next f)), fs_next f).

(** [os.OpenFile] with [O_CREATE|O_APPEND|O_WRONLY]: the file's number. *)
Definition open_append (fails : bool) (p : str) (now : Z) (f : fs) : res (fs * nat) :=
  if fails then Err "open failed"
  else match resolve p f with
       | None => Err "too many levels of symbolic links"
       | Some q =>
           match entry_at q f with
           | Some (EFile i) => Ok (f, i)
           | Some _ => Err "is a directory"
           | None => if can_create q f then Ok (create_file q now f) else Err "no such file or directory"
           end
       end.

(** [os.OpenFile] with [O_CREATE|O_EXCL]: a link is not followed. *)
Definition open_excl (fails : bool) (p : str) (now : Z) (f : fs) : res fs :=
  if fails then Err "open failed"
  else match entry_at p f with
       | Some _ => Err "file exists"
       | None => if can_create p f then Ok (create_file p now f).1 else Err "no such file or directory"
       end.

(** [Write] on a handle: at the end of the file. *)
Definition append_file (i : nat) (data : bytes) (now : Z) (f : fs) : fs :=
  match fs_inodes f !! i with
  | Some (old, _) => fs_set_inode i (old ++ data, now) f
  | None => f
  end.

Definition has_entries (p : str) (f : fs) : bool :=
  bool_decide (map_Exists (fun q _ => q <> Clean p /\ filepath_Dir q = Clean p) (fs_entries f)).

(** [os.Remove]: a file, a link, or an empty directory; an error leaves it. *)
Definition os_Remove (p : str) (f : fs) : fs :=
  match fs_entries f !! Clean p with
  | None => f
  | Some (EDir _) => if has_entries p f then f else fs_set (delete (Clean p) (fs_entries f)) f
  | Some _ => fs_set (delete (Clean p) (fs_entries f)) f
  end.

(** [os.Symlink]. *)
Definition os_Symlink (fails : bool) (dest name : str) (f : fs) : res fs :=
  if fails then Err "symlink failed"
  else match entry_at name f with
       | Some _ => Err "file exists"
       | None => if can_create name f then Ok (fs_set (<[Clean name := ELink dest]> (fs_entries f)) f) else Err "no such file or directory"
       end.

(** [os.Rename] of a link: what has the new name goes, unless it is a directory. *)
Definition os_Rename (fails : bool) (from to : str) (f : fs) : res fs :=
  if fails then Err "rename failed"
  else match fs_entries f !! Clean from, entry_at to f with
       | None, _ => Err "no such file or directory"
       | Some _, Some (EDir _) => Err "file exists"
       | Some e, _ => if can_create to f then Ok (fs_set (<[Clean to := e]> (delete (Clean from) (fs_entries f))) f)
                      else Err "no such file or directory"
       end.

(** The directories on the way to a path, the first one first. *)
Definition ancestors (p : str) : list str :=
  map (fun i => path_of (is_rooted p) (take (S i) (segments p))) (seq 0 (length (segments p))).

Definition mkdir_step (now : Z) (p : str) (f : fs) : res fs :=
  match os_Stat p f with
  | Some (FiDir _) => Ok f
  | Some _ => Err "not a directory"
  | None => match entry_at p f with
            | Some _ => Err "file exists"
            | None => Ok (fs_set (<[Clean p := EDir now]> (fs_entries f)) f)
            end
  end.

(** [os.MkdirAll]: what it made before an error stays. *)
Fixpoint mkdir_all (now : Z) (ps : list str) (f : fs) : fs * res unit :=
  match ps with
  | [] => (f, Ok tt)
  | p :: ps => match mkdir_step now p f with
               | Ok f' => mkdir_all now ps f'
               | Err e => (f, Err e)
               end
  end.
Definition os_MkdirAll (fails : bool) (p : str) (now : Z) (f : fs) : fs * res unit :=
  if fails then (f, Err "mkdir failed") else mkdir_all now (ancestors p) f.

(** ** Patterns *)

(** A pattern's parts: any run of characters but slashes, one character but a slash, a class
    with its ranges, a character. *)
Inductive pat := PStar | PAny | PClass (negated : bool) (ranges : list (ascii * ascii)) | PChar (c : ascii).

Definition star_char : ascii := "*".
Definition question_char : ascii := "?".
Definition open_bracket : ascii := "[".
Definition close_bracket : ascii := "]".
Definition caret : ascii := "^".
Definition hyphen : ascii := "-".

(** One end of a range: not a hyphen, nor the end of the class. *)
Definition get_esc (s : str) : option (ascii * str) :=
  match s with
  | EmptyString => None
  | String c s =>
      if Ascii.eqb c hyphen || Ascii.eqb c close_bracket then None
      else if Ascii.eqb c backslash then match s with String c' (String _ _ as s') => Some (c', s') | _ => None end
      else match s with EmptyString => None | _ => Some (c, s) end
  end.

(** The ranges of a class, from the first on; there is at least one. *)
Fixpoint class_ranges (fuel : nat) (nrange : bool) (s : str) : option (list (ascii * ascii) * str) :=
  match fuel with
  | O => None
  | S fuel =>
      match s with
      | String c s' => if Ascii.eqb c close_bracket && nrange then Some ([], s')
                       else
                         '(lo, s1) ← get_esc s;
                         '(hi, s2) ← match s1 with
                                     | String h s1' => if Ascii.eqb h hyphen then get_esc s1' else Some (lo, s1)
                                     | EmptyString => None
                                     end;
                         '(rest, s3) ← class_ranges fuel true s2;
                         Some ((lo, hi) :: rest, s3)
      | EmptyString => None
      end
  end.

(** [None]: the pattern is bad. *)
Fixpoint parse_pattern (fuel : nat) (s : str) : option (list pat) :=
  match fuel with
  | O => None
  | S fuel =>
      match s with
      | EmptyString => Some []
      | String c s' =>
          if Ascii.eqb c star_char then cons PStar <$> parse_pattern fuel s'
          else if Ascii.eqb c question_char then cons PAny <$> parse_pattern fuel s'
          else if Ascii.eqb c open_bracket then
            let '(neg, s1) := match s' with String h s1 => if Ascii.eqb h caret then (true, s1) else (false, s') | EmptyString => (false, s') end in
            '(ranges, rest) ← class_ranges (S (String.length s1)) false s1;
            cons (PClass neg ranges) <$> parse_pattern fuel rest
          else if Ascii.eqb c backslash then
            match s' with String c' rest => cons (PChar c') <$> parse_pattern fuel rest | EmptyString => None end
          else cons (PChar c) <$> parse_pattern fuel s'
      end
  end.

Definition in_range (c : ascii) (r : ascii * ascii) : bool := (nat_of_ascii r.1 <=? nat_of_ascii c)%nat && (nat_of_ascii c <=? nat_of_ascii r.2)%nat.

(** One character against one part. *)
Definition pat_char (p : pat) (c : ascii) : bool :=
  match p with
  | PStar => false
  | PAny => negb (Ascii.eqb c slash)
  | PClass neg ranges => negb (Bool.eqb (existsb (in_range c) ranges) neg)
  | PChar c' => Ascii.eqb c c'
  end.

(** A star takes nothing, or one character and stays. *)
Fixpoint match_pats (ps : list pat) (name : str) : bool :=
  match ps with
  | [] => String.eqb name EmptyString
  | PStar :: ps => (fix star (name : str) : bool :=
      match_pats ps name || match name with String c rest => negb (Ascii.eqb c slash) && star rest | EmptyString => false end) name
  | p :: ps => match name with String c rest => pat_char p c && match_pats ps rest | EmptyString => false end
  end.

Definition parse_pat (pattern : str) : option (list pat) := parse_pattern (S (String.length pattern)) pattern.

(** [filepath.Match]; [None] is [ErrBadPattern]. *)
Definition filepath_Match (pattern name : str) : option bool := ps ← parse_pat pattern; Some (match_pats ps name).

Fixpoint hasMeta (path : str) : bool :=
  match path with
  | EmptyString => false
  | String c path => Ascii.eqb c star_char || Ascii.eqb c question_char || Ascii.eqb c open_bracket || Ascii.eqb c backslash || hasMeta path
  end.

Definition str_le (a b : str) : Prop := String.leb a b = true.
#[global] Instance str_le_dec a b : Decision (str_le a b).
Proof. unfold str_le. apply _. Defined.

(** The names in a directory, sorted. *)
Definition dir_names (dir : str) (f : fs) : list str :=
  merge_sort str_le (path_Base <$> filter (fun q => q <> Clean dir /\ filepath_Dir q = Clean dir) (map_to_list (fs_entries f)).*1).

(** [filepath]'s [glob]: the matching names of one directory. *)
Definition glob_dir (dir pattern : str) (f : fs) : res (list str) :=
  if negb (is_dir dir f) then Ok []
  else match parse_pat pattern with
       | None => if bool_decide (dir_names dir f = []) then Ok [] else Err "syntax error in pattern"
       | Some ps => Ok ((fun n => filepath_Join [dir; n]) <$> filter (fun n => match_pats ps n = true) (dir_names dir f))
       end.

Fixpoint glob_dirs (dirs : list str) (pattern : str) (f : fs) : res (list str) :=
  match dirs with
  | [] => Ok []
  | d :: dirs => m <-? glob_dir d pattern f ;; rest <-? glob_dirs dirs pattern f ;; Ok (m ++ rest)
  end.

Definition cleanGlobPath (path : str) : str :=
  if String.eqb path EmptyString then dot
  else if String.eqb path (char_str slash) then path
  else substring 0 (String.length path - 1) path.

(** [filepath.Glob]: [fuel] bounds the depth of the path. *)
Fixpoint glob_from (fuel : nat) (pattern : str) (f : fs) : res (list str) :=
  match filepath_Match pattern EmptyString with
  | None => Err "syntax error in pattern"
  | Some _ =>
      if negb (hasMeta pattern) then Ok (match os_Lstat pattern f with Some _ => [pattern] | None => [] end)
      else
        let '(d, file) := filepath_Split pattern in
        let dir := cleanGlobPath d in
        if negb (hasMeta dir) then glob_dir dir file f
        else if String.eqb dir pattern then Err "syntax error in pattern"
        else match fuel with
             | O => Err "out of depth"
             | S fuel => m <-? glob_from fuel dir f ;; glob_dirs m file f
             end
  end.
Definition filepath_Glob (pattern : str) (f : fs) : res (list str) := glob_from (String.length pattern) pattern f.

(** ** What the calls keep *)

(** Every number of a file is used up, and every name of a file has its contents. *)
Record fs_ok (f : fs) : Prop := {
  fo_next : forall i, is_Some (fs_inodes f !! i) -> (i < fs_next f)%nat;
  fo_files : forall p i, fs_entries f !! p = Some (EFile i) -> is_Some (fs_inodes f !! i) }.

(** Files keep their contents; new ones are empty. *)
Record fs_ext (f f' : fs) : Prop := {
  fe_ok : fs_ok f -> fs_ok f';
  fe_next : (fs_next f <= fs_next f')%nat;
  fe_keep : fs_ok f -> forall i x, fs_inodes f !! i = Some x -> fs_inodes f' !! i = Some x;
  fe_new : fs_ok f -> forall i x, fs_inodes f' !! i = Some x -> fs_inodes f !! i = None -> (fs_next f <= i)%nat /\ x.1 = [] }.

Lemma fs_ext_refl f : fs_ext f f.
Proof. split; [done|done|done|congruence]. Qed.

Lemma fs_ext_trans f f1 f2 : fs_ext f f1 -> fs_ext f1 f2 -> fs_ext f f2.
Proof.
  intros [A1 A2 A3 A4] [B1 B2 B3 B4]. split; [auto|lia|auto|]. intros Hok i x Hx Hn. destruct (fs_inodes f1 !! i) as [y|] eqn:Hy.
  - pose proof (B3 (A1 Hok) i y Hy) as Hy'. rewrite Hx in Hy'. injection Hy' as <-. by apply A4.
  - destruct (B4 (A1 Hok) i x Hx Hy). split; [lia|done].
Qed.

Lemma fs_set_ext entries f : (fs_ok f -> forall p i, entries !! p = Some (EFile i) -> is_Some (fs_inodes f !! i)) -> fs_ext f (fs_set entries f).
Proof. intros H. split; simpl; [|done|done|congruence]. intros Hok. split; simpl; [apply (fo_next f Hok)|by apply H]. Qed.

Lemma create_file_ext p now f : fs_ext f (create_file p now f).1.
Proof.
  assert (forall i, fs_ok f -> fs_inodes f !! i <> None -> i <> fs_next f) as Hne.
  { intros i Hok Hi ->. pose proof (fo_next f Hok (fs_next f)). destruct (fs_inodes f !! fs_next f); [|done]. specialize (H ltac:(by eexists)). lia. }
  split; simpl; [|lia| |].
  - intros Hok. split; simpl.
    + intros i. rewrite lookup_insert_is_Some. intros [->|[_ Hi]]; [lia|]. apply (fo_next f Hok) in Hi. lia.
    + intros q i. rewrite lookup_insert_is_Some. intros [[_ [= <-]]|[_ Hq]]%lookup_insert_Some; [by left|]. destruct (decide (fs_next f = i)); [by left|right].
      split; [done|by eapply fo_files].
  - intros Hok i x Hi. rewrite lookup_insert_ne; [done|]. intros <-. by apply (Hne (fs_next f) Hok); [rewrite Hi|].
  - intros Hok i x [[<- <-]|[_ Hi]]%lookup_insert_Some Hn; [done|congruence].
Qed.

Lemma open_excl_ext fails p now f f' : open_excl fails p now f = Ok f' -> fs_ext f f'.
Proof.
  unfold open_excl. destruct fails; [done|]. destruct (entry_at p f); [done|]. destruct (can_create p f); [|done]. intros [= <-]. apply create_file_ext.
Qed.

Lemma open_append_ext fails p now f f' i : open_append fails p now f = Ok (f', i) ->
  fs_ext f f' /\ (fs_ok f -> is_Some (fs_inodes f' !! i)) /\ (i = fs_next f \/ f' = f).
Proof.
  unfold open_append. destruct fails; [done|]. destruct (resolve p f) as [q|]; [|done]. unfold entry_at.
  assert (can_create q f = true -> fs_ext f (create_file q now f).1 /\ (fs_ok f -> is_Some (fs_inodes (create_file q now f).1 !! fs_next f))) as Hc
    by (intros _; split; [apply create_file_ext|intros _; simpl; rewrite lookup_insert_eq; by eexists]).
  destruct (fs_entries f !! Clean q) as [[j|t|d]|] eqn:Eq; try done.
  - intros [= <- <-]. split_and!; [apply fs_ext_refl| |by right]. intros Hok. by eapply fo_files.
  - case_if; [done|]. destruct (can_create q f); [|done]. intros [= <- <-]. destruct (Hc eq_refl). split_and!; [done|done|by left].
Qed.

Lemma os_Remove_ext p f : fs_ext f (os_Remove p f).
Proof.
  assert (fs_ext f (fs_set (delete (Clean p) (fs_entries f)) f)) as Hd
    by (apply fs_set_ext; intros Hok q i [_ Hq]%lookup_delete_Some; by eapply fo_files).
  unfold os_Remove. destruct (fs_entries f !! Clean p) as [[]|]; [done| |done|apply fs_ext_refl]. case_if; [apply fs_ext_refl|done].
Qed.

Lemma os_Symlink_ext fails d p f f' : os_Symlink fails d p f = Ok f' -> fs_ext f f'.
Proof.
  unfold os_Symlink. destruct fails; [done|]. destruct (entry_at p f); [done|]. destruct (can_create p f); [|done]. intros [= <-].
  apply fs_set_ext. intros Hok q i [[_ ?]|[_ Hq]]%lookup_insert_Some; [done|by eapply fo_files].
Qed.

Lemma os_Rename_ext fails p q f f' : os_Rename fails p q f = Ok f' -> fs_ext f f'.
Proof.
  unfold os_Rename. destruct fails; [done|]. destruct (fs_entries f !! Clean p) as [e|] eqn:Ep; [|done].
  assert (fs_ext f (fs_set (<[Clean q := e]> (delete (Clean p) (fs_entries f))) f)) as Hm.
  { apply fs_set_ext. intros Hok r i [[_ ->]|[_ [_ Hr]%lookup_delete_Some]]%lookup_insert_Some; by eapply fo_files. }
  destruct (entry_at q f) as [[]|]; try done; (destruct (can_create q f); [|done]); by intros [= <-].
Qed.

Lemma mkdir_all_ext now ps f f' r : mkdir_all now ps f = (f', r) -> fs_ext f f'.
Proof.
  revert f. induction ps as [|p ps IH]; intros f; simpl; [intros [= <- _]; apply fs_ext_refl|].
  destruct (mkdir_step now p f) as [f1|e] eqn:E; [|intros [= <- _]; apply fs_ext_refl]. intros H. eapply fs_ext_trans; [|by apply IH].
  revert E. unfold mkdir_step. destruct (os_Stat p f) as [[]|]; try done; [intros [= <-]; apply fs_ext_refl|]. destruct (entry_at p f); [done|].
  intros [= <-]. apply fs_set_ext. intros Hok q i [[_ ?]|[_ Hq]]%lookup_insert_Some; [done|by eapply fo_files].
Qed.

Lemma os_MkdirAll_ext fails p now f f' r : os_MkdirAll fails p now f = (f', r) -> fs_ext f f'.
Proof. unfold os_MkdirAll. destruct fails; [intros [= <- _]; apply fs_ext_refl|apply mkdir_all_ext]. Qed.

(** ** Numbered names *)

Lemma format_plain n : 0 <= n -> str_mem slash (format_uint 10 n) = false.
Proof. intros Hn. by apply format_no_char. Qed.

Lemma format_inj a b : 0 <= a -> 0 <= b -> itoa a = itoa b -> a = b.
Proof.
  intros Ha Hb E. set (w := Z.log2 (Z.max a b) + 2). assert (inS w a /\ inS w b) as [Wa Wb].
  { pose proof (Z.log2_spec_alt (Z.max a b)). unfold inS. subst w. pose proof (Z.log2_nonneg (Z.max a b)).
    destruct (Z.eq_dec (Z.max a b) 0) as [Hz|Hz].
    - assert (a = 0 /\ b = 0) as [-> ->] by lia. by vm_compute.
    - pose proof (Z.log2_spec (Z.max a b) ltac:(lia)) as [_ Hs]. replace (Z.log2 (Z.max a b) + 2 - 1) with (Z.succ (Z.log2 (Z.max a b))) by lia. lia. }
  assert (1 <= w) by (subst w; pose proof (Z.log2_nonneg (Z.max a b)); lia).
  pose proof (parse_format_int 10 w a ltac:(lia) ltac:(lia) Wa) as P. rewrite E, parse_format_int in P by (done || lia). congruence.
Qed.

Lemma split_on_append c s t : str_mem c t = false -> exists l x, split_on c s = l ++ [x] /\ split_on c (String.append s t) = l ++ [String.append x t].
Proof.
  intros Ht. induction s as [|a s (l & x & E1 & E2)]; simpl; [exists [], EmptyString; by rewrite split_on_nomem|].
  rewrite E1, E2. destruct (Ascii.eqb a c); [by exists (EmptyString :: l), x|]. destruct l as [|y l]; simpl; [by exists [], (String a x)|].
  by exists (String a y :: l), x.
Qed.

(** The last part of a cleaned path that ends in a plain name is that name. *)
Lemma Clean_last s l x : split_on slash s = l ++ [x] -> plain_seg x -> x <> dotdot -> exists m, split_on slash (Clean s) = m ++ [x].
Proof.
  intros Es (He & Hd & Hm) Hdd. pose proof (split_on_parts_nomem slash s) as Hf. unfold Clean, clean_segs. rewrite Es in *. rewrite foldl_app. simpl.
  apply Forall_app in Hf as [Hf _]. pose proof (clean_norm (is_rooted s) l [] Hf (norm_out_nil _)) as [Hp _]. set (out := foldl (clean_seg (is_rooted s)) [] l) in *.
  assert (clean_seg (is_rooted s) out x = x :: out) as ->.
  { unfold clean_seg. by rewrite (proj2 (String.eqb_neq _ _) He), (proj2 (String.eqb_neq _ _) Hd), (proj2 (String.eqb_neq _ _) Hdd). }
  destruct (path_of_split (is_rooted s) (rev (x :: out))) as [_ E].
  { apply Forall_rev. by constructor. }
  rewrite E. simpl. destruct (decide (rev out ++ [x] = [])) as [En|_]; [by destruct (rev out)|]. eexists. by rewrite app_assoc.
Qed.

(** A name with a number behind a dot. *)
Definition numbered (base : str) (k : Z) : str := String.append base (String.append "." (itoa k)).

Lemma numbered_seg y k : 0 <= k -> str_mem slash y = false -> let x := String.append y (String.append "." (itoa k)) in plain_seg x /\ x <> dotdot.
Proof.
  intros Hk Hy. simpl. unfold format_int. rewrite (proj2 (Z.ltb_ge k 0)) by done.
  destruct (format_uint_first 10 k ltac:(lia) Hk) as (d & s & Hd & E). pose proof (format_plain k Hk) as Hp.
  assert (digit_char d <> "."%char) as Hdot by (intros H; pose proof (digit_val_char d ltac:(lia)) as Hv; rewrite H in Hv; discriminate Hv).
  assert (str_mem slash (String.append y (String "." (format_uint 10 k))) = false) as Hm by (rewrite str_mem_app, Hy; exact Hp).
  rewrite E in *. destruct y as [|a [|b y]]; simpl in *; (split; [split_and!|]); try done; first [intros [=]; congruence|by destruct y].
Qed.

Lemma numbered_clean base : exists y, forall k, 0 <= k -> exists m, split_on slash (Clean (numbered base k)) = m ++ [String.append y (String.append "." (itoa k))].
Proof.
  assert (forall k, 0 <= k -> str_mem slash (String.append "." (itoa k)) = false) as Hs.
  { intros k Hk. simpl. unfold format_int. rewrite (proj2 (Z.ltb_ge k 0)) by done. by apply format_plain. }
  destruct (split_on_append slash base "" eq_refl) as (l & y & E & _). exists y. intros k Hk.
  destruct (split_on_append slash base _ (Hs k Hk)) as (l' & y' & E' & Ek). rewrite E in E'. apply app_inj_tail in E' as [<- <-].
  pose proof (split_on_parts_nomem slash base) as Hf. rewrite E in Hf. apply Forall_app in Hf as [_ Hf]. rewrite list.Forall_singleton in Hf.
  destruct (numbered_seg y k Hk Hf). by eapply Clean_last.
Qed.

Lemma numbered_inj base a b : 0 <= a -> 0 <= b -> Clean (numbered base a) = Clean (numbered base b) -> a = b.
Proof.
  intros Ha Hb E. destruct (numbered_clean base) as [y Hy]. destruct (Hy a Ha) as [m Em], (Hy b Hb) as [m' Em']. rewrite E, Em' in Em.
  apply app_inj_tail in Em as [_ Em]. apply str_append_inj in Em. injection Em as Em. symmetry. by apply format_inj.
Qed.

Lemma numbered_low base k : 0 <= k -> Clean (numbered base k) <> dot /\ Clean (numbered base k) <> char_str slash.
Proof.
  intros Hk. destruct (numbered_clean base) as [y Hy]. destruct (Hy k Hk) as [m Em].
  assert (forall z, String.append y (String.append "." (itoa k)) = z -> z <> EmptyString /\ z <> dot) as Hz.
  { intros z <-. unfold format_int. rewrite (proj2 (Z.ltb_ge k 0)) by done. destruct (format_uint_first 10 k ltac:(lia) Hk) as (d & s & _ & ->).
    by destruct y as [|a [|b y]]. }
  split; intros E; rewrite E in Em; [change (split_on slash dot) with ([] ++ [dot]) in Em|change (split_on slash (char_str slash)) with ([EmptyString] ++ [EmptyString]) in Em];
    apply app_inj_tail in Em as [_ Em]; by destruct (Hz _ (eq_sym Em)).
Qed.

(** What [os.Stat] finds has an entry. *)
Lemma Stat_entry p f i : os_Stat p f = Some i -> is_Some (entry_at p f).
Proof.
  unfold os_Stat, resolve. destruct (String.eqb p EmptyString); [done|]. change 40%nat with (S 39). cbn [resolve_link].
  destruct (entry_at p f) as [[]|] eqn:E; try by eexists. simpl. unfold os_Lstat. destruct (String.eqb _ _); [done|].
  unfold entry_at in *. by rewrite Clean_idem, E.
Qed.

Lemma Stat_numbered base k f i : 0 <= k -> os_Stat (numbered base k) f = Some i -> Clean (numbered base k) ∈ dom (fs_entries f).
Proof.
  intros Hk H. apply Stat_entry in H. unfold entry_at in H. apply elem_of_dom. destruct (fs_entries f !! Clean (numbered base k)); [by eexists|].
  destruct (numbered_low base k Hk) as [H1 H2]. rewrite (proj2 (String.eqb_neq _ _) H1), (proj2 (String.eqb_neq _ _) H2) in H. by destruct H.
Qed.

(** Not all of more names than there are entries are taken. *)
Lemma numbered_free base (g : Z) (n : nat) f : 0 <= g -> (forall i, (i < n)%nat -> is_Some (os_Stat (numbered base (g + Z.of_nat i)) f)) ->
  (n <= size (fs_entries f))%nat.
Proof.
  intros Hg H. set (names := (fun i => Clean (numbered base (g + Z.of_nat i))) <$> seq 0 n).
  assert (NoDup names) as Hd.
  { apply NoDup_fmap_2_strong; [|apply NoDup_ListNoDup, List.seq_NoDup]. intros i j _ _ E. apply numbered_inj in E; lia. }
  assert (list_to_set names ⊆ dom (fs_entries f)) as Hs.
  { intros x Hx. apply elem_of_list_to_set, list_elem_of_fmap in Hx as (i & -> & Hi). apply elem_of_seq in Hi. destruct (H i ltac:(lia)) as [y Hy].
    by eapply Stat_numbered; [|exact Hy]; lia. }
  apply subseteq_size in Hs. rewrite size_list_to_set in Hs by done. subst names. rewrite length_fmap, length_seq in Hs. by rewrite size_dom in Hs.
Qed.

(** Only directories are new. *)
Definition dirs_added (f f' : fs) : Prop :=
  fs_inodes f' = fs_inodes f /\ fs_next f' = fs_next f /\
  forall p, fs_entries f' !! p = fs_entries f !! p \/ (fs_entries f !! p = None /\ exists t, fs_entries f' !! p = Some (EDir t)).

Lemma dirs_added_refl f : dirs_added f f.
Proof. split_and!; [done|done|by left]. Qed.

Lemma dirs_added_trans f f1 f2 : dirs_added f f1 -> dirs_added f1 f2 -> dirs_added f f2.
Proof.
  intros (A1 & A2 & A3) (B1 & B2 & B3). split_and!; [congruence|congruence|]. intros p. destruct (A3 p) as [Ha|[Ha (t & Ht)]].
  - rewrite <- Ha. apply B3.
  - right. split; [done|]. destruct (B3 p) as [->|[Hb _]]; [by exists t|congruence].
Qed.

Lemma mkdir_all_adds now ps f f' r : mkdir_all now ps f = (f', r) -> dirs_added f f'.
Proof.
  revert f. induction ps as [|p ps IH]; intros f; simpl; [intros [= <- _]; apply dirs_added_refl|].
  destruct (mkdir_step now p f) as [f1|e] eqn:E; [|intros [= <- _]; apply dirs_added_refl]. intros H. eapply dirs_added_trans; [|by apply IH].
  revert E. unfold mkdir_step. destruct (os_Stat p f) as [[]|]; try done; [intros [= <-]; apply dirs_added_refl|]. destruct (entry_at p f) eqn:Ep; [done|].
  intros [= <-]. split_and!; [done|done|]. intros q. simpl. destruct (decide (Clean p = q)) as [<-|]; [|left; by rewrite lookup_insert_ne].
  right. rewrite lookup_insert_eq. split; [|by eexists]. unfold entry_at in Ep. by destruct (fs_entries f !! Clean p).
Qed.

Lemma added_entry f f' p e : dirs_added f f' -> entry_at p f' = Some e -> (forall t, e <> EDir t) -> entry_at p f = Some e.
Proof.
  intros (_ & _ & H). unfold entry_at. destruct (H (Clean p)) as [->|[_ (t & ->)]]; [done|]. intros [= <-] He. by destruct (He t).
Qed.

Lemma resolve_added f f' fuel p q i : dirs_added f f' -> resolve_link fuel p f' = Some q -> entry_at q f' = Some (EFile i) ->
  resolve_link fuel p f = Some q.
Proof.
  intros Ha. revert p. induction fuel as [|fuel IH]; intros p; cbn [resolve_link]; destruct (entry_at p f') as [[j|t|d]|] eqn:E; try done.
  all: try (intros [= <-]; unfold entry_at at 1; rewrite Clean_idem; fold (entry_at p f'); rewrite E; by intros).
  all: try (intros [= <-] Hq; by rewrite (added_entry f f' p _ Ha E)).
  intros Hr Hq. rewrite (added_entry f f' p _ Ha E) by done. by apply IH.
Qed.

Lemma resolve_clean fuel p f q : resolve_link fuel p f = Some q -> Clean q = q.
Proof.
  revert p. induction fuel as [|fuel IH]; intros p; cbn [resolve_link]; destruct (entry_at p f) as [[]|]; try done; try (intros [= <-]; apply Clean_idem). by apply IH.
Qed.

(** A name that nothing was found under opens a new file, whatever directories are made first. *)
Lemma open_append_new fails p now f f1 f2 i : fs_ok f -> dirs_added f f1 -> os_Stat p f = None -> open_append fails p now f1 = Ok (f2, i) ->
  i = fs_next f.
Proof.
  intros Hok Ha Hs. unfold open_append. destruct fails; [done|]. unfold resolve. destruct (String.eqb p EmptyString) eqn:Ep; [done|].
  destruct (resolve_link 40 p f1) as [q|] eqn:Eq; [|done]. destruct (entry_at q f1) as [[j|t|d]|] eqn:Ee; try done.
  - intros [= <- <-]. exfalso. pose proof (resolve_added f f1 40 p q j Ha Eq Ee) as Hr. pose proof (added_entry f f1 q _ Ha Ee ltac:(done)) as Hq.
    unfold os_Stat, resolve in Hs. rewrite Ep, Hr in Hs. simpl in Hs. unfold os_Lstat in Hs. destruct (String.eqb q EmptyString) eqn:En.
    + apply String.eqb_eq in En. subst q. unfold entry_at in Hq. destruct (fs_entries f !! Clean "") as [e|] eqn:E0; [|done].
      pose proof (resolve_clean 40 p f "" Hr) as Hc. by vm_compute in Hc.
    + rewrite Hq in Hs. simpl in Hs. unfold entry_at in Hq. destruct (fs_entries f !! Clean q) as [e|] eqn:E0; [|by case_if_in Hq].
      injection Hq as ->. destruct (fo_files f Hok _ _ E0) as [x Hx]. by rewrite Hx in Hs.
  - destruct (can_create q f1); [|done]. unfold create_file. intros [= _ <-]. by destruct Ha as (_ & -> & _).
Qed.
