(* ===== verification/RotateLogs.v ===== *)
(** The rotating log (src/logger/rotatelogs): a writer that changes its file when its name
    changes with the time, when the file is large, or when it is asked to, and that removes
    old files.

    The names come from a pattern of the strftime library ([strftime_New], not under src/).
    Every operation holds the mutex, so it is one step; the goroutines that remove files take
    steps of their own ([exec_rl]). *)
From S2P Require Import Prelude Strconv Files FileSys.

(** ** Options and names *)

(** src/error/error.go:16-18, Wrap *)
Definition Wrap (err text : str) : str := String.append "err:" (String.append err (String.append ", text:" text)).

Definition ns_per_s : Z := 1000000000.

(** A duration and a size are [int64], a count is a [uint]. A clock is the offset it adds to
    the time in UTC. *)
(** src/logger/rotatelogs/options.go:9-18, optkeyClock *)
Inductive rl_option :=
| OptClock (offset : Z -> Z) | OptHandler | OptLinkName (s : str) | OptMaxAge (d : Z) | OptRotationTime (d : Z) | OptRotationSize (s : Z)
| OptRotationCount (n : Z) | OptForceNewFile.

(** src/logger/rotatelogs/options.go:28-30, WithClock *)
Definition WithClock (c : Z -> Z) : rl_option := OptClock c.
(** src/logger/rotatelogs/options.go:38-42, WithLocation *)
Definition WithLocation (loc : Z -> Z) : rl_option := OptClock loc.
(** src/logger/rotatelogs/options.go:47-49, WithLinkName *)
Definition WithLinkName (s : str) : rl_option := OptLinkName s.
(** src/logger/rotatelogs/options.go:54-56, WithMaxAge *)
Definition WithMaxAge (d : Z) : rl_option := OptMaxAge d.
(** src/logger/rotatelogs/options.go:60-62, WithRotationTime *)
Definition WithRotationTime (d : Z) : rl_option := OptRotationTime d.
(** src/logger/rotatelogs/options.go:66-68, WithRotationSize *)
Definition WithRotationSize (s : Z) : rl_option := OptRotationSize s.
(** src/logger/rotatelogs/options.go:73-75, WithRotationCount *)
Definition WithRotationCount (n : Z) : rl_option := OptRotationCount n.
(** src/logger/rotatelogs/options.go:80-82, WithHandler *)
Definition WithHandler : rl_option := OptHandler.
(** src/logger/rotatelogs/options.go:87-89, ForceNewFile *)
Definition ForceNewFile : rl_option := OptForceNewFile.

(** [rl_outFh]: the number of the open file. The handler is there or not. *)
(** src/logger/rotatelogs/interface.go:35-51, RotateLogs *)
Record RotateLogs := mkRL {
  rl_clock : Z -> Z; rl_curFn : str; rl_curBaseFn : str; rl_globPattern : str; rl_generation : Z; rl_linkName : str; rl_maxAge : Z;
  rl_eventHandler : bool; rl_outFh : option nat; rl_pattern : Z -> str; rl_rotationTime : Z; rl_rotationSize : Z; rl_rotationCount : Z;
  rl_forceNewFile : bool }.

(** The letters that follow a percent sign. *)
Definition conv_letter (c : ascii) : bool :=
  let n := nat_of_ascii c in
  Ascii.eqb c "%" || Ascii.eqb c "+" || ((65 <=? n)%nat && (n <=? 90)%nat) || ((97 <=? n)%nat && (n <=? 122)%nat).

(** The first expression: a percent sign and a letter become a star. *)
Fixpoint conversions (s : str) : str :=
  match s with
  | String p rest =>
      match rest with
      | String c rest' => if Ascii.eqb p "%" && conv_letter c then String star_char (conversions rest') else String p (conversions rest)
      | EmptyString => s
      end
  | EmptyString => s
  end.

(** The second one: stars in a row become one. *)
Fixpoint one_star (s : str) : str :=
  match s with
  | String c rest => if Ascii.eqb c star_char && match rest with String d _ => Ascii.eqb d star_char | _ => false end then one_star rest
                     else String c (one_star rest)
  | EmptyString => EmptyString
  end.

(** src/logger/rotatelogs/rotatelogs.go:28-31, New *)
Definition glob_pattern (p : str) : str := one_star (conversions p).

(** src/logger/rotatelogs/rotatelogs.go:47-66, New *)
Definition apply_option (o : rl_option) (l : RotateLogs) : RotateLogs :=
  let '(mkRL clock cf cb g gen link age h fh pt rt rs rc force) := l in
  match o with
  | OptClock c => mkRL c cf cb g gen link age h fh pt rt rs rc force
  | OptLinkName s => mkRL clock cf cb g gen s age h fh pt rt rs rc force
  | OptMaxAge d => mkRL clock cf cb g gen link (Z.max d 0) h fh pt rt rs rc force
  | OptRotationTime d => mkRL clock cf cb g gen link age h fh pt (Z.max d 0) rs rc force
  | OptRotationSize s => mkRL clock cf cb g gen link age h fh pt rt (Z.max s 0) rc force
  | OptRotationCount n => mkRL clock cf cb g gen link age h fh pt rt rs n force
  | OptHandler => mkRL clock cf cb g gen link age true fh pt rt rs rc force
  | OptForceNewFile => mkRL clock cf cb g gen link age h fh pt rt rs rc true
  end.

Definition day_ns : Z := 24 * 3600 * ns_per_s.

Definition rl_set_maxAge (d : Z) (l : RotateLogs) : RotateLogs :=
  mkRL (rl_clock l) (rl_curFn l) (rl_curBaseFn l) (rl_globPattern l) (rl_generation l) (rl_linkName l) d (rl_eventHandler l) (rl_outFh l)
    (rl_pattern l) (rl_rotationTime l) (rl_rotationSize l) (rl_rotationCount l) (rl_forceNewFile l).

(** [local]: the clock of the machine. *)
(** src/logger/rotatelogs/rotatelogs.go:27-89, New *)
Definition rl_New (strftime_New : str -> res (Z -> str)) (local : Z -> Z) (p : str) (options : list rl_option) : res RotateLogs :=
  match strftime_New p with
  | Err err => Err (Wrap err "invalid strftime pattern")
  | Ok pattern =>
      let l := foldl (fun l o => apply_option o l)
                 (mkRL local EmptyString EmptyString (glob_pattern p) 0 EmptyString 0 false None pattern day_ns 0 0 false) options in
      if (0 <? rl_maxAge l) && (0 <? rl_rotationCount l) then Err "options MaxAge and RotationCount cannot be both set"
      else if (rl_maxAge l =? 0) && (rl_rotationCount l =? 0) then Ok (rl_set_maxAge (7 * day_ns) l)
      else Ok l
  end.

(** [Truncate] works on the time since the year 1. *)
Definition year1_ns : Z := 62135596800 * ns_per_s.
Definition time_Truncate (t d : Z) : Z := if d <=? 0 then t else t - (t + year1_ns) mod d.

(** The fields of the local time read in UTC are those of the time and its offset. *)
(** src/logger/rotatelogs/rotatelogs.go:91-113, RotateLogs.genFilename *)
Definition genFilename (now : Z) (l : RotateLogs) : str := rl_pattern l (time_Truncate (now + rl_clock l now) (rl_rotationTime l)).

(** ** Rotating *)

(** Which calls fail, and the clock: when a name is made, and when old files are looked for.
    [en_write]: the write to the file fails after so many bytes, which stay in it. *)
Record rl_env := mkRlEnv {
  en_now : Z; en_now2 : Z; en_mkdir : bool; en_open : bool; en_lock : bool; en_symlink : bool; en_linkdir : bool; en_rename : bool; en_write : option nat }.

Definition gen_name (filename : str) (generation : Z) : str :=
  if generation =? 0 then filename else String.append filename (String.append "." (itoa generation)).

(** The first generation from [generation] on whose name is free; [None]: there is fuel for
    no more. *)
(** src/logger/rotatelogs/rotatelogs.go:168-180, RotateLogs.getWriterNoLock *)
Fixpoint free_name (fuel : nat) (filename : str) (generation : Z) (f : fs) : option (str * Z) :=
  let name := gen_name filename generation in
  match os_Stat name f with
  | None => Some (name, generation)
  | Some _ => match fuel with O => None | S fuel => free_name fuel filename (generation + 1) f end
  end.

(** The link is changed: the link's name is replaced by a new link's. The text for a path
    that is not relative to it leaves the two paths out. *)
(** src/logger/rotatelogs/rotatelogs.go:284-320, RotateLogs.rotateNoLock *)
Definition replace_link (e : rl_env) (filename linkName : str) (f : fs) : fs * res unit :=
  let tmpLinkName := String.append filename "_symlink" in
  let linkDir := filepath_Dir linkName in
  let linkDest := if has_infix (filepath_Dir filename) linkName then filepath_Rel linkDir filename else Ok filename in
  match linkDest with
  | Err err => (f, Err (Wrap err "failed to evaluate relative path"))
  | Ok linkDest =>
      match os_Symlink (en_symlink e) linkDest tmpLinkName f with
      | Err err => (f, Err (Wrap err "failed to create new symlink"))
      | Ok f =>
          let '(f, made) := match os_Stat linkDir f with
                            | Some _ => (f, Ok tt)
                            | None => os_MkdirAll (en_linkdir e) linkDir (en_now2 e) f
                            end in
          match made with
          | Err err => (f, Err (Wrap err (String.append "failed to create directory " linkDir)))
          | Ok _ => match os_Rename (en_rename e) tmpLinkName linkName f with
                    | Ok f => (f, Ok tt)
                    | Err err => (f, Err (Wrap err "failed to rename new symlink"))
                    end
          end
      end
  end.

(** Whether a path that matches may be removed. *)
(** src/logger/rotatelogs/rotatelogs.go:334-358, RotateLogs.rotateNoLock *)
Definition to_unlink (l : RotateLogs) (cutoff : Z) (f : fs) (path : str) : bool :=
  if has_suffix "_lock" path || has_suffix "_symlink" path then false
  else match os_Stat path f, os_Lstat path f with
       | Some fi, Some fl =>
           if (0 <? rl_maxAge l) && (cutoff <? mod_time fi) then false
           else if (0 <? rl_rotationCount l) && match fl with FiLink => true | _ => false end then false
           else true
       | _, _ => false
       end.

(** The paths that are left to a goroutine to remove. *)
(** src/logger/rotatelogs/rotatelogs.go:323-379, RotateLogs.rotateNoLock *)
Definition purge_list (e : rl_env) (l : RotateLogs) (f : fs) : res (list str) :=
  if (rl_maxAge l <=? 0) && (rl_rotationCount l <=? 0) then Err "panic: maxAge and rotationCount are both set"
  else
    matches <-? filepath_Glob (rl_globPattern l) f ;;
    let cutoff := en_now2 e - rl_maxAge l in
    let toUnlink := filter (fun p => to_unlink l cutoff f p = true) matches in
    if 0 <? rl_rotationCount l then
      if Z.of_nat (length toUnlink) <=? rl_rotationCount l then Ok []
      else Ok (take (length toUnlink - Z.to_nat (rl_rotationCount l)) toUnlink)
    else Ok toUnlink.

(** Under the lock file, which is removed at the end. *)
(** src/logger/rotatelogs/rotatelogs.go:271-382, RotateLogs.rotateNoLock *)
Definition rotateNoLock (e : rl_env) (filename : str) (l : RotateLogs) (f : fs) : fs * res (list str) :=
  let lockFile := String.append filename "_lock" in
  match open_excl (en_lock e) lockFile (en_now2 e) f with
  | Err err => (f, Err err)
  | Ok f =>
      let '(f, linked) := if String.eqb (rl_linkName l) EmptyString then (f, Ok tt) else replace_link e filename (rl_linkName l) f in
      let r := linked ;;? purge_list e l f in
      (os_Remove lockFile f, r)
  end.

(** What an operation does to the log and the files; [op_purge] is what a new goroutine is
    to remove, [op_event] what the handler is told. *)
Record outcome A := mkOutcome { op_log : RotateLogs; op_fs : fs; op_purge : list str; op_event : option (str * str); op_result : res A }.
Arguments mkOutcome {A}. Arguments op_log {A}. Arguments op_fs {A}. Arguments op_purge {A}. Arguments op_event {A}. Arguments op_result {A}.

Definition rl_set_file (fh : option nat) (base fn : str) (generation : Z) (l : RotateLogs) : RotateLogs :=
  mkRL (rl_clock l) fn base (rl_globPattern l) generation (rl_linkName l) (rl_maxAge l) (rl_eventHandler l) fh
    (rl_pattern l) (rl_rotationTime l) (rl_rotationSize l) (rl_rotationCount l) (rl_forceNewFile l).

(** The file is larger than a file may be. *)
(** src/logger/rotatelogs/rotatelogs.go:142-147, RotateLogs.getWriterNoLock *)
Definition size_rotation (l : RotateLogs) (f : fs) : bool :=
  match os_Stat (rl_curFn l) f with
  | Some (FiFile size _) => (0 <? rl_rotationSize l) && (rl_rotationSize l <=? size)
  | _ => false
  end.

(** The name of the next file with its generation, and whether it has to be a new one;
    [None]: there is nothing to do. *)
(** src/logger/rotatelogs/rotatelogs.go:149-163, RotateLogs.getWriterNoLock *)
Definition next_generation (useGenerationalNames sizeRotation : bool) (baseFn : str) (l : RotateLogs) : option (Z * bool) :=
  if negb (String.eqb baseFn (rl_curBaseFn l)) then Some (0, sizeRotation || rl_forceNewFile l)
  else if negb useGenerationalNames && negb sizeRotation then None
  else Some (rl_generation l + 1, true).

(** The new file is opened, and old ones are looked for. The text for a file that is not
    opened leaves the pattern out. *)
(** src/logger/rotatelogs/rotatelogs.go:182-225, RotateLogs.getWriterNoLock *)
Definition open_next (e : rl_env) (bailOnRotateFail : bool) (baseFn filename : str) (generation : Z) (l : RotateLogs) (f : fs) : outcome (option nat) :=
  let fail f err := mkOutcome l f [] None (Err err) in
  match os_MkdirAll (en_mkdir e) (filepath_Dir filename) (en_now e) f with
  | (f, Err err) => fail f (Wrap err (String.append "failed to create directory " (filepath_Dir filename)))
  | (f, Ok _) =>
      match open_append (en_open e) filename (en_now e) f with
      | Err err => fail f (String.append "failed to open file: " err)
      | Ok (f, ino) =>
          let '(f, rotated) := rotateNoLock e filename l f in
          let continue purge :=
            mkOutcome (rl_set_file (Some ino) baseFn filename generation l) f purge
              (if rl_eventHandler l then Some (rl_curFn l, filename) else None) (Ok (Some ino)) in
          match rotated with
          | Err err => if bailOnRotateFail then fail f (Wrap err "failed to rotate") else continue []
          | Ok purge => continue purge
          end
      end
  end.

(** [Ok None] is the nil file of a log that is closed. There are names enough for every
    entry of the file system and one more. *)
(** src/logger/rotatelogs/rotatelogs.go:133-225, RotateLogs.getWriterNoLock *)
Definition getWriterNoLock (e : rl_env) (bailOnRotateFail useGenerationalNames : bool) (l : RotateLogs) (f : fs) : outcome (option nat) :=
  let baseFn := genFilename (en_now e) l in
  match next_generation useGenerationalNames (size_rotation l f) baseFn l with
  | None => mkOutcome l f [] None (Ok (rl_outFh l))
  | Some (generation, forceNewFile) =>
      match (if forceNewFile then free_name (S (size (fs_entries f))) baseFn generation f else Some (baseFn, generation)) with
      | None => mkOutcome l f [] None (Err "no name is free")
      | Some (filename, generation) => open_next e bailOnRotateFail baseFn filename generation l f
      end
  end.

(** What it returns: the number of bytes, and the error of the file, of a write, or of a closed
    log. [os.File.Write] that fails may have written a part. *)
(** src/logger/rotatelogs/rotatelogs.go:119-130, RotateLogs.Write *)
Definition rl_Write (e : rl_env) (p : bytes) (l : RotateLogs) (f : fs) : outcome (Z * option str) :=
  let o := getWriterNoLock e false false l f in
  let back f r := mkOutcome (op_log o) f (op_purge o) (op_event o) (Ok r) in
  match op_result o with
  | Err err => back (op_fs o) (0, Some (Wrap err "failed to acquite target io.Writer"))
  | Ok None => back (op_fs o) (0, Some "invalid argument"%string)
  | Ok (Some ino) =>
      match en_write e with
      | None => back (append_file ino p (en_now e) (op_fs o)) (blen p, None)
      | Some k =>
          let part := take k p in
          back (match part with [] => op_fs o | _ => append_file ino part (en_now e) (op_fs o) end) (blen part, Some "write failed"%string)
      end
  end.

(** src/logger/rotatelogs/rotatelogs.go:262-269, RotateLogs.Rotate *)
Definition rl_Rotate (e : rl_env) (l : RotateLogs) (f : fs) : outcome unit :=
  let o := getWriterNoLock e true true l f in
  mkOutcome (op_log o) (op_fs o) (op_purge o) (op_event o) (match op_result o with Ok _ => Ok tt | Err err => Err err end).

(** src/logger/rotatelogs/rotatelogs.go:387-398, RotateLogs.Close *)
Definition rl_Close (l : RotateLogs) : RotateLogs := rl_set_file None (rl_curBaseFn l) (rl_curFn l) (rl_generation l) l.

(** src/logger/rotatelogs/rotatelogs.go:229-233, RotateLogs.CurrentFileName *)
Definition CurrentFileName (l : RotateLogs) : str := rl_curFn l.

(** ** The log at work *)

(** The log, the files, what the goroutines have left to remove, what the handler was told,
    and what the writes wrote: to which file, and what. *)
Record rl_state := mkRlState { rs_log : RotateLogs; rs_fs : fs; rs_purges : list (list str); rs_events : list (str * str); rs_written : list (nat * bytes) }.

Inductive rl_action := RlWrite (e : rl_env) (p : bytes) | RlRotate (e : rl_env) | RlClose | RlUnlink (i : nat).

Definition after {A} (o : outcome A) (written : list (nat * bytes)) (s : rl_state) : rl_state :=
  mkRlState (op_log o) (op_fs o) (match op_purge o with [] => rs_purges s | l => l :: rs_purges s end)
    (rs_events s ++ match op_event o with Some x => [x] | None => [] end) (rs_written s ++ written).

(** What a write wrote, and to which file. *)
Definition wrote_to (o : outcome (Z * option str)) (p : bytes) : list (nat * bytes) :=
  match op_result o, rl_outFh (op_log o) with
  | Ok (n, err), Some ino => if (n =? 0) && bool_decide (is_Some err) then [] else [(ino, take (Z.to_nat n) p)]
  | _, _ => []
  end.

(** src/logger/rotatelogs/rotatelogs.go:374-379, RotateLogs.rotateNoLock *)
Definition unlink_next (i : nat) (s : rl_state) : option rl_state :=
  match rs_purges s !! i with
  | Some (path :: rest) =>
      Some (mkRlState (rs_log s) (os_Remove path (rs_fs s)) (<[i := rest]> (rs_purges s)) (rs_events s) (rs_written s))
  | _ => None
  end.

Definition exec_rl (a : rl_action) (s : rl_state) : option rl_state :=
  match a with
  | RlWrite e p => let o := rl_Write e p (rs_log s) (rs_fs s) in Some (after o (wrote_to o p) s)
  | RlRotate e => Some (after (rl_Rotate e (rs_log s) (rs_fs s)) [] s)
  | RlClose => Some (mkRlState (rl_Close (rs_log s)) (rs_fs s) (rs_purges s) (rs_events s) (rs_written s))
  | RlUnlink i => unlink_next i s
  end.

Fixpoint run_rl (acts : list rl_action) (s : rl_state) : option rl_state :=
  match acts with [] => Some s | a :: acts => exec_rl a s ≫= run_rl acts end.

Inductive rl_reach (l : RotateLogs) (f : fs) : rl_state -> Prop :=
| rl_start : rl_reach l f (mkRlState l f [] [] [])
| rl_step s a s' : rl_reach l f s -> exec_rl a s = Some s' -> rl_reach l f s'.

(** ** What is written stays *)

Lemma replace_link_ext e filename linkName f f' r : replace_link e filename linkName f = (f', r) -> fs_ext f f'.
Proof.
  unfold replace_link. destruct (if has_infix _ _ then _ else _) as [d|]; [|intros [= <- _]; apply fs_ext_refl].
  destruct (os_Symlink _ _ _ f) as [f1|] eqn:E1; [|intros [= <- _]; apply fs_ext_refl]. apply os_Symlink_ext in E1.
  destruct (match os_Stat (filepath_Dir linkName) f1 with Some _ => (f1, Ok tt) | None => os_MkdirAll (en_linkdir e) (filepath_Dir linkName) (en_now2 e) f1 end)
    as [f2 made] eqn:E2. assert (fs_ext f1 f2) as H2.
  { destruct (os_Stat _ f1); [injection E2 as <- _; apply fs_ext_refl|by eapply os_MkdirAll_ext]. }
  pose proof (fs_ext_trans _ _ _ E1 H2). destruct made; [|by intros [= <- _]].
  destruct (os_Rename _ _ _ f2) as [f3|] eqn:E3; intros [= <- _]; [|done]. eapply fs_ext_trans; [done|by eapply os_Rename_ext].
Qed.

Lemma rotateNoLock_ext e filename l f f' r : rotateNoLock e filename l f = (f', r) -> fs_ext f f'.
Proof.
  unfold rotateNoLock. destruct (open_excl _ _ _ f) as [f1|] eqn:E1; [|intros [= <- _]; apply fs_ext_refl]. apply open_excl_ext in E1.
  destruct (if String.eqb _ _ then _ else _) as [f2 linked] eqn:E2. assert (fs_ext f1 f2) as H2
    by (case_if_in E2; [injection E2 as <- _; apply fs_ext_refl|by eapply replace_link_ext]).
  intros [= <- _]. eapply fs_ext_trans; [done|]. eapply fs_ext_trans; [done|apply os_Remove_ext].
Qed.

(** The open file of a log is there. *)
Definition fh_ok (l : RotateLogs) (f : fs) : Prop := forall i, rl_outFh l = Some i -> is_Some (fs_inodes f !! i).

Lemma fh_ok_ext l f f' : fs_ok f -> fs_ext f f' -> fh_ok l f -> fh_ok l f'.
Proof. intros Hok Hx Hf i Hi. destruct (Hf i Hi) as [x H]. exists x. by apply (fe_keep f f' Hx Hok). Qed.

Lemma open_next_ok e bail base fn g l f o : open_next e bail base fn g l f = o -> fs_ok f -> fh_ok l f ->
  fs_ext f (op_fs o) /\ fh_ok (op_log o) (op_fs o) /\ (forall w, op_result o = Ok w -> w = rl_outFh (op_log o)).
Proof.
  unfold open_next. intros <- Hok Hl. destruct (os_MkdirAll _ _ _ f) as [f1 [u|err]] eqn:E1; apply os_MkdirAll_ext in E1.
  2: { split_and!; [done|by eapply fh_ok_ext|done]. }
  destruct (open_append _ fn _ f1) as [[f2 ino]|] eqn:E2; [|split_and!; [done|by eapply fh_ok_ext|done]].
  apply open_append_ext in E2 as (E2 & Hino & _). pose proof (fs_ext_trans _ _ _ E1 E2) as H2. specialize (Hino (fe_ok _ _ E1 Hok)).
  destruct (rotateNoLock e fn l f2) as [f3 rotated] eqn:E3. apply rotateNoLock_ext in E3. pose proof (fs_ext_trans _ _ _ H2 E3) as H3.
  assert (is_Some (fs_inodes f3 !! ino)) as Hi by (destruct Hino as [x Hx]; exists x; by apply (fe_keep _ _ E3 (fe_ok _ _ H2 Hok))).
  destruct rotated as [purge|err]; [|destruct bail]; simpl; split_and!; try done; try (by intros i [= <-]); try (by intros w [= <-]). by eapply fh_ok_ext.
Qed.

Lemma getWriter_ok e bail gens l f : fs_ok f -> fh_ok l f -> let o := getWriterNoLock e bail gens l f in
  fs_ext f (op_fs o) /\ fh_ok (op_log o) (op_fs o) /\ (forall w, op_result o = Ok w -> w = rl_outFh (op_log o)).
Proof.
  intros Hok Hl o. subst o. unfold getWriterNoLock. destruct (next_generation _ _ _ l) as [[g force]|]; [|split_and!; [apply fs_ext_refl|done|by intros w [= <-]]].
  destruct (if force then _ else _) as [[fn g']|]; [by eapply open_next_ok|split_and!; [apply fs_ext_refl|done|done]].
Qed.

(** What was written to a file, in order. *)
Definition written_to (i : nat) (l : list (nat * bytes)) : bytes := l ≫= fun w => if (w.1 =? i)%nat then w.2 else [].

Record rl_ok (f0 : fs) (s : rl_state) : Prop := {
  ro_fs : fs_ok (rs_fs s);
  ro_fh : fh_ok (rs_log s) (rs_fs s);
  ro_old : forall i x, fs_inodes f0 !! i = Some x -> is_Some (fs_inodes (rs_fs s) !! i);
  ro_written : forall i p, (i, p) ∈ rs_written s -> is_Some (fs_inodes (rs_fs s) !! i);
  ro_data : forall i x, fs_inodes (rs_fs s) !! i = Some x -> x.1 = default [] (fst <$> fs_inodes f0 !! i) ++ written_to i (rs_written s) }.

Lemma written_none i l : (forall p, (i, p) ∈ l -> False) -> written_to i l = [].
Proof.
  induction l as [|[j p] l IH]; [done|]. intros H. unfold written_to in *. simpl. destruct (Nat.eqb_spec j i) as [->|_].
  - exfalso. apply (H p). by left.
  - apply IH. intros q Hq. apply (H q). by right.
Qed.

(** A step that changes no file's contents. *)
Lemma rl_ok_ext f0 s l f purges events : rl_ok f0 s -> fs_ext (rs_fs s) f -> fh_ok l f -> rl_ok f0 (mkRlState l f purges events (rs_written s)).
Proof.
  intros [] Hx Hl. pose proof (fe_keep _ _ Hx ro_fs0) as Hk. assert (forall i, is_Some (fs_inodes (rs_fs s) !! i) -> is_Some (fs_inodes f !! i)) as Hs
    by (intros i [x Hi]; exists x; by apply Hk).
  split; simpl; [by apply (fe_ok _ _ Hx)|done|eauto|eauto|]. intros i x Hi. destruct (fs_inodes (rs_fs s) !! i) as [y|] eqn:Hy.
  - rewrite (Hk i y Hy) in Hi. injection Hi as ->. by apply ro_data0.
  - destruct (fe_new _ _ Hx ro_fs0 i x Hi Hy) as [_ ->]. rewrite written_none by (intros p Hp; apply ro_written0 in Hp; rewrite Hy in Hp; by destruct Hp).
    destruct (fs_inodes f0 !! i) as [z|] eqn:Hz; [|done]. apply ro_old0 in Hz. rewrite Hy in Hz. by destruct Hz.
Qed.

(** A write to the open file. *)
Lemma rl_ok_append f0 s ino p now purges events : rl_ok f0 s -> rl_outFh (rs_log s) = Some ino ->
  rl_ok f0 (mkRlState (rs_log s) (append_file ino p now (rs_fs s)) purges events (rs_written s ++ [(ino, p)])).
Proof.
  intros [] Hino. destruct (ro_fh0 ino Hino) as [[old t] Ho]. unfold append_file. rewrite Ho.
  assert (forall i, is_Some (fs_inodes (rs_fs s) !! i) -> is_Some (<[ino := (old ++ p, now)]> (fs_inodes (rs_fs s)) !! i)) as Hs
    by (intros i Hi; rewrite lookup_insert_is_Some; destruct (decide (ino = i)); auto).
  split; simpl.
  - destruct ro_fs0. split; simpl; [|eauto]. intros i [->|[_ Hi]]%lookup_insert_is_Some; [apply fo_next; by eexists|by apply fo_next].
  - intros i Hi. apply Hs. by apply ro_fh0.
  - eauto.
  - intros i q [Hq|[= -> ->]%list_elem_of_singleton]%elem_of_app; [eauto|]. rewrite lookup_insert_eq. by eexists.
  - intros i x. unfold written_to. rewrite bind_app. simpl. destruct (decide (ino = i)) as [<-|Hne].
    + rewrite lookup_insert_eq, Nat.eqb_refl, app_nil_r. intros [= <-]. simpl. rewrite app_assoc. f_equal. by apply (ro_data0 ino (old, t)).
    + rewrite lookup_insert_ne by done. rewrite (proj2 (Nat.eqb_neq _ _)), app_nil_r by done. apply ro_data0.
Qed.

(** A part that is not empty is recorded. *)
Lemma blen_taken (ino k : nat) (p : bytes) b q x : take k p = b :: q ->
  (if (blen (b :: q) =? 0) && x then [] else [(ino, take (Z.to_nat (blen (b :: q))) p)]) = [(ino, b :: q)].
Proof.
  intros E. unfold blen. rewrite (proj2 (Z.eqb_neq _ _)) by (simpl; lia). simpl andb. cbn iota. rewrite Nat2Z.id, <- E, length_take.
  do 2 f_equal. destruct (Nat.le_ge_cases k (length p)); [by rewrite Nat.min_l|]. rewrite Nat.min_r by done. by rewrite !take_ge.
Qed.

Lemma exec_rl_ok f0 a s s' : rl_ok f0 s -> exec_rl a s = Some s' -> rl_ok f0 s'.
Proof.
  intros I. destruct a as [e p|e| |i]; simpl.
  - intros [= <-]. destruct (getWriter_ok e false false (rs_log s) (rs_fs s) (ro_fs f0 s I) (ro_fh f0 s I)) as (Hx & Hl & Hw).
    unfold rl_Write, after, wrote_to. set (o := getWriterNoLock e false false (rs_log s) (rs_fs s)) in *.
    pose proof (rl_ok_ext f0 s (op_log o) (op_fs o) (rs_purges s) (rs_events s) I Hx Hl) as I'.
    destruct (op_result o) as [[ino|]|err] eqn:Er; simpl.
    + specialize (Hw _ eq_refl). pose proof (fun q => rl_ok_append f0 _ ino q (en_now e)
        (match op_purge o with [] => rs_purges s | l => l :: rs_purges s end) (rs_events s ++ match op_event o with Some x => [x] | None => [] end)
        I' (eq_sym Hw)) as Ha. simpl in Ha. destruct (en_write e) as [k|]; simpl; rewrite <- Hw.
      * destruct (take k p) as [|b q] eqn:Ek; [rewrite app_nil_r; by eapply rl_ok_ext|]. rewrite (blen_taken ino k p b q _ Ek). apply Ha.
      * rewrite andb_false_r. unfold blen. rewrite Nat2Z.id, take_ge by done. apply Ha.
    + destruct (rl_outFh (op_log o)); simpl; rewrite app_nil_r; by eapply rl_ok_ext.
    + destruct (rl_outFh (op_log o)); simpl; rewrite app_nil_r; by eapply rl_ok_ext.
  - intros [= <-]. destruct (getWriter_ok e true true (rs_log s) (rs_fs s) (ro_fs f0 s I) (ro_fh f0 s I)) as (Hx & Hl & _).
    unfold after, rl_Rotate. simpl. rewrite app_nil_r. by eapply rl_ok_ext.
  - intros [= <-]. eapply rl_ok_ext; [done|apply fs_ext_refl|]. by intros i Hi.
  - unfold unlink_next. destruct (rs_purges s !! i) as [[|path rest]|]; try done. intros [= <-]. eapply rl_ok_ext; [done|apply os_Remove_ext|].
    eapply fh_ok_ext; [apply I|apply os_Remove_ext|apply I].
Qed.

Lemma rl_reach_ok l f s : fs_ok f -> rl_outFh l = None -> rl_reach l f s -> rl_ok f s.
Proof.
  intros Hok Hfh. induction 1 as [|s a s' _ IH E]; [|by eapply exec_rl_ok]. split; simpl; [done|by intros i Hi; rewrite Hfh in Hi|by eauto| |].
  - intros i p Hp. by apply elem_of_nil in Hp.
  - intros i x Hx. by rewrite Hx, app_nil_r.
Qed.

(** C30: What is written to the log is in a file, in order. Under every interleaving of writes,
    rotations, closings and the removal of old files, and whichever calls of the system fail,
    a write to a file after some bytes too: each file holds what it held at first and then
    what the writes to it wrote, in order, also when its name is gone. A write that reports
    no error has put its whole line into one file, once; one that reports an error and [n]
    bytes has put the first [n] bytes of its line into one file, which stay there, and
    nothing when [n] is 0. *)
Theorem log_keeps_writes (l : RotateLogs) (f : fs) (s : rl_state) : fs_ok f -> rl_outFh l = None -> rl_reach l f s ->
  (forall i x, fs_inodes (rs_fs s) !! i = Some x -> x.1 = default [] (fst <$> fs_inodes f !! i) ++ written_to i (rs_written s)) /\
  (forall i x, fs_inodes f !! i = Some x -> is_Some (fs_inodes (rs_fs s) !! i)) /\
  (forall e p s', exec_rl (RlWrite e p) s = Some s' -> exists n err,
     op_result (rl_Write e p (rs_log s) (rs_fs s)) = Ok (n, err) /\ 0 <= n <= blen p /\ (err = None -> n = blen p) /\
     ((n = 0 /\ is_Some err /\ rs_written s' = rs_written s) \/
      exists i, rl_outFh (rs_log s') = Some i /\ rs_written s' = rs_written s ++ [(i, take (Z.to_nat n) p)])).
Proof.
  intros Hok Hfh Hr. pose proof (rl_reach_ok _ _ _ Hok Hfh Hr) as I.
  split_and!; [apply (ro_data f s I)|apply (ro_old f s I)|]. intros e p s'. simpl. intros [= <-].
  destruct (getWriter_ok e false false (rs_log s) (rs_fs s) (ro_fs f s I) (ro_fh f s I)) as (_ & _ & Hw).
  unfold rl_Write, after, wrote_to. set (o := getWriterNoLock e false false (rs_log s) (rs_fs s)) in *. assert (0 <= blen p) as Hp by (unfold blen; lia).
  assert (forall err, exists n err', Ok (A:=Z * option str) (0, Some err) = Ok (n, err') /\ 0 <= n <= blen p /\ (err' = None -> n = blen p) /\
    (n = 0 /\ is_Some err' /\ rs_written s ++ match rl_outFh (op_log o) with Some _ => [] | None => [] end = rs_written s)) as Hnone.
  { intros err. exists 0, (Some err). split; [done|]. split; [lia|]. split; [done|]. split; [done|]. split; [by eexists|].
    destruct (rl_outFh (op_log o)); by rewrite app_nil_r. }
  destruct (op_result o) as [[ino|]|err] eqn:Er; simpl; [|destruct (Hnone "invalid argument"%string) as (n & er & H1 & H2 & H3 & H4)|
    destruct (Hnone (Wrap err "failed to acquite target io.Writer")) as (n & er & H1 & H2 & H3 & H4)].
  2, 3: exists n, er; destruct (rl_outFh (op_log o)); (split; [exact H1|split; [exact H2|split; [exact H3|left; exact H4]]]).
  specialize (Hw _ eq_refl). destruct (en_write e) as [k|]; simpl; rewrite <- Hw.
  - exists (blen (take k p)), (Some "write failed"%string). split; [done|]. split; [unfold blen; rewrite length_take; lia|]. split; [done|].
    destruct (take k p) as [|b q] eqn:Ek; [left; by rewrite app_nil_r|]. right. exists ino. split; [done|]. by destruct (blen (b :: q) =? 0) eqn:E.
  - exists (blen p), None. split; [done|]. split; [lia|]. split; [done|]. right. exists ino. split; [done|]. by rewrite andb_false_r.
Qed.

(** ** A name for a new file *)

Lemma free_name_some fuel base g f name g' : free_name fuel base g f = Some (name, g') ->
  g <= g' /\ name = gen_name base g' /\ os_Stat name f = None /\ forall k, g <= k < g' -> is_Some (os_Stat (gen_name base k) f).
Proof.
  revert g. induction fuel as [|fuel IH]; intros g; simpl; destruct (os_Stat (gen_name base g) f) as [i|] eqn:E; try done.
  1, 3: intros [= <- <-]; split_and!; [lia|done|done|lia].
  intros (H1 & H2 & H3 & H4)%IH. split_and!; [lia|done|done|]. intros k Hk. destruct (decide (k = g)) as [->|]; [by rewrite E|apply H4; lia].
Qed.

Lemma free_name_none fuel base g f : free_name fuel base g f = None -> forall i, (i <= fuel)%nat -> is_Some (os_Stat (gen_name base (g + Z.of_nat i)) f).
Proof.
  revert g. induction fuel as [|fuel IH]; intros g; simpl; destruct (os_Stat (gen_name base g) f) as [x|] eqn:E; try done; intros H i Hi.
  - assert (i = 0%nat) as -> by lia. rewrite Z.add_0_r, E. by eexists.
  - destruct i as [|i]; [rewrite Z.add_0_r, E; by eexists|]. replace (g + Z.of_nat (S i)) with (g + 1 + Z.of_nat i) by lia. apply IH; [done|lia].
Qed.

(** The search for a name ends: there are more names than files. *)
Lemma free_name_ends base g f : 0 <= g -> is_Some (free_name (S (size (fs_entries f))) base g f).
Proof.
  intros Hg. destruct (free_name _ base g f) as [x|] eqn:E; [by eexists|]. exfalso. pose proof (free_name_none _ _ _ _ E) as H.
  pose proof (numbered_free base (g + 1) (S (size (fs_entries f))) f ltac:(lia)) as Hf. assert (S (size (fs_entries f)) <= size (fs_entries f))%nat; [|lia].
  apply Hf. intros i Hi. specialize (H (S i) ltac:(lia)). unfold gen_name in H. rewrite (proj2 (Z.eqb_neq _ _)) in H by lia.
  by replace (g + 1 + Z.of_nat i) with (g + Z.of_nat (S i)) by lia.
Qed.

Lemma open_next_new e bail base fn g l f i : fs_ok f -> os_Stat fn f = None -> op_result (open_next e bail base fn g l f) = Ok (Some i) ->
  i = fs_next f /\ rl_curFn (op_log (open_next e bail base fn g l f)) = fn.
Proof.
  intros Hok Hs. unfold open_next. destruct (os_MkdirAll _ _ _ f) as [f1 [u|err]] eqn:E1; [|done].
  assert (dirs_added f f1) as Ha.
  { unfold os_MkdirAll in E1. destruct (en_mkdir e); [injection E1 as <- _; apply dirs_added_refl|by eapply mkdir_all_adds]. }
  destruct (open_append _ fn _ f1) as [[f2 ino]|] eqn:E2; [|done]. pose proof (open_append_new _ _ _ _ _ _ _ Hok Ha Hs E2) as ->.
  destruct (rotateNoLock e fn l f2) as [f3 [purge|err]]; [|destruct bail]; simpl; try done; by intros [= <-].
Qed.

(** A log that has to have a new file gets one, after finitely many names: the first
    free one of the name for the time and its numbered followers. Nothing was under that
    name, so no earlier file is written on, whichever calls fail and whatever directories are
    made on the way. *)
Theorem new_file_is_new (e : rl_env) (bail gens : bool) (l : RotateLogs) (f : fs) (g : Z) : fs_ok f -> 0 <= rl_generation l ->
  let base := genFilename (en_now e) l in let o := getWriterNoLock e bail gens l f in
  next_generation gens (size_rotation l f) base l = Some (g, true) ->
  exists g', g <= g' /\ os_Stat (gen_name base g') f = None /\ (forall k, g <= k < g' -> is_Some (os_Stat (gen_name base k) f)) /\
    op_result o <> Err "no name is free" /\
    forall i, op_result o = Ok (Some i) -> i = fs_next f /\ fs_inodes f !! i = None /\ CurrentFileName (op_log o) = gen_name base g'.
Proof.
  intros Hok Hg base o Hn. assert (0 <= g) as Hg0 by (unfold next_generation in Hn; repeat case_if_in Hn; try done; injection Hn as <-; lia).
  subst o. unfold getWriterNoLock. fold base. rewrite Hn. destruct (free_name_ends base g f Hg0) as [[fn g'] Ef]. rewrite Ef.
  apply free_name_some in Ef as (H1 & -> & H3 & H4). exists g'. split_and!; [done|done|done| |].
  - unfold open_next. destruct (os_MkdirAll _ _ _ f) as [f1 [u|err]]; [|simpl; by destruct (filepath_Dir _)].
    destruct (open_append _ _ _ f1) as [[f2 ino]|err]; [|done]. destruct (rotateNoLock _ _ _ f2) as [f3 [purge|err]]; [|destruct bail]; done.
  - intros i Hi. destruct (open_next_new _ _ _ _ _ _ _ _ Hok H3 Hi) as [-> Hc]. split_and!; [done| |done].
    destruct (fs_inodes f !! fs_next f) eqn:En; [|done]. pose proof (fo_next f Hok (fs_next f) ltac:(by rewrite En)). lia.
Qed.

(** ** What is removed *)

Lemma options_age options l : 0 <= rl_maxAge l -> 0 <= rl_maxAge (foldl (fun l o => apply_option o l) l options).
Proof. revert l. induction options as [|o options IH]; intros l Hl; [done|]. apply IH. destruct l, o; simpl in *; lia. Qed.

Lemma New_keeps strftime local p options l : rl_New strftime local p options = Ok l -> 0 <= rl_rotationCount l ->
  (0 < rl_maxAge l /\ rl_rotationCount l = 0) \/ (rl_maxAge l = 0 /\ 0 < rl_rotationCount l).
Proof.
  unfold rl_New. destruct (strftime p) as [pt|]; [|done].
  pose proof (options_age options (mkRL local EmptyString EmptyString (glob_pattern p) 0 EmptyString 0 false None pt day_ns 0 0 false) ltac:(done)) as Hage.
  set (x := foldl _ _ options) in *. destruct (0 <? rl_maxAge x) eqn:E1, (0 <? rl_rotationCount x) eqn:E2; cbn [andb]; [done|..];
    destruct (rl_maxAge x =? 0) eqn:E3, (rl_rotationCount x =? 0) eqn:E4; cbn [andb]; intros [= <-]; unfold rl_set_maxAge; simpl; breflect; unfold day_ns, ns_per_s; lia.
Qed.

Lemma to_unlink_old l cutoff f q : to_unlink l cutoff f q = true ->
  has_suffix "_lock" q = false /\ has_suffix "_symlink" q = false /\ exists i, os_Stat q f = Some i /\ (0 < rl_maxAge l -> mod_time i <= cutoff).
Proof.
  unfold to_unlink. destruct (has_suffix "_lock" q); [done|]. destruct (has_suffix "_symlink" q); [done|]. simpl.
  destruct (os_Stat q f) as [i|]; [|done]. destruct (os_Lstat q f); [|done]. destruct (0 <? rl_maxAge l) eqn:E1; simpl.
  - destruct (cutoff <? mod_time i) eqn:E2; [done|]. intros _. split_and!; [done|done|]. exists i. split; [done|]. breflect. lia.
  - intros _. split_and!; [done|done|]. exists i. split; [done|]. breflect. lia.
Qed.

(** What a rotation has removed are files the pattern matches, never a lock or a link
    being made; with an age only ones that were not written to within it, with a count all
    but the last of that many names. A log that [New] made has the one or the other. *)
Theorem purge_spec (e : rl_env) (strftime : str -> res (Z -> str)) (local : Z -> Z) (p : str) (options : list rl_option) (l : RotateLogs)
    (f : fs) (matches : list str) :
  rl_New strftime local p options = Ok l -> 0 <= rl_rotationCount l -> filepath_Glob (rl_globPattern l) f = Ok matches ->
  exists gone, purge_list e l f = Ok gone /\ gone `sublist_of` matches /\
    (forall q, q ∈ gone -> has_suffix "_lock" q = false /\ has_suffix "_symlink" q = false /\ exists i, os_Stat q f = Some i /\
       (0 < rl_maxAge l -> mod_time i <= en_now2 e - rl_maxAge l)) /\
    (0 < rl_rotationCount l -> exists kept, filter (fun q => to_unlink l (en_now2 e - rl_maxAge l) f q = true) matches = gone ++ kept /\
       (gone = [] \/ Z.of_nat (length kept) = rl_rotationCount l) /\ Z.of_nat (length kept) <= rl_rotationCount l).
Proof.
  intros HN Hc HG. pose proof (New_keeps _ _ _ _ _ HN Hc) as Hx. unfold purge_list. assert ((rl_maxAge l <=? 0) && (rl_rotationCount l <=? 0) = false) as ->
    by (apply andb_false_iff; rewrite !Z.leb_gt; lia).
  rewrite HG. cbn [res_bind]. set (cs := filter (fun q => to_unlink l (en_now2 e - rl_maxAge l) f q = true) matches).
  assert (forall gone, gone `sublist_of` cs -> gone `sublist_of` matches /\ forall q, q ∈ gone -> has_suffix "_lock" q = false /\ has_suffix "_symlink" q = false /\
    exists i, os_Stat q f = Some i /\ (0 < rl_maxAge l -> mod_time i <= en_now2 e - rl_maxAge l)) as Hgone.
  { intros gone Hs. split; [etrans; [exact Hs|apply sublist_filter]|]. intros q Hq. pose proof (elem_of_sublist _ _ _ Hq Hs) as Hin.
    apply list_elem_of_filter in Hin as [Hu _]. by apply to_unlink_old. }
  destruct (0 <? rl_rotationCount l) eqn:E0; breflect.
  - destruct (Z.leb_spec (Z.of_nat (length cs)) (rl_rotationCount l)).
    + exists []. destruct (Hgone [] (sublist_nil_l _)). split_and!; try done. intros _. exists cs. split_and!; [done|by left|done].
    + set (n := (length cs - Z.to_nat (rl_rotationCount l))%nat). exists (take n cs). destruct (Hgone _ (sublist_take cs n)). split_and!; try done.
      intros _. exists (drop n cs). rewrite take_drop, length_drop. split_and!; [done|right; lia|lia].
  - exists cs. destruct (Hgone cs ltac:(done)). split_and!; try done. lia.
Qed.

(** ** Examples *)

(** A library that writes the number of the day for the conversions of a pattern. *)
Fixpoint before_percent (s : str) : str :=
  match s with String c rest => if Ascii.eqb c "%" then EmptyString else String c (before_percent rest) | EmptyString => EmptyString end.
Fixpoint after_percent (seen : bool) (s : str) : str :=
  match s with
  | String p rest =>
      match rest with
      | String _ rest' => if Ascii.eqb p "%" then after_percent true rest' else if seen then s else after_percent seen rest
      | EmptyString => if seen then s else EmptyString
      end
  | EmptyString => EmptyString
  end.
Definition demo_strftime (p : str) : res (Z -> str) :=
  Ok (fun t => if str_mem "%" p then String.append (before_percent p) (String.append (itoa (t / day_ns)) (after_percent false p)) else p).

Definition no_fs : fs := mkFs ∅ ∅ 0.
Lemma no_fs_ok : fs_ok no_fs.
Proof. split; [intros i [x Hx]|intros p i Hp]; simpl in *; by rewrite lookup_empty in *. Qed.

(** Nothing fails, [days] after the epoch. *)
Definition env_at (days : Z) : rl_env := mkRlEnv (days * day_ns) (days * day_ns) false false false false false false None.
(** The write fails after [k] bytes. *)
Definition env_full (days : Z) (k : nat) : rl_env := mkRlEnv (days * day_ns) (days * day_ns) false false false false false false (Some k).
Definition demo_log (p : str) (options : list rl_option) : RotateLogs :=
  match rl_New demo_strftime (fun _ => 0) p options with
  | Ok l => l
  | Err _ => mkRL (fun _ => 0) EmptyString EmptyString EmptyString 0 EmptyString 0 false None (fun _ => EmptyString) 0 0 0 false
  end.
Definition rl_run (p : str) (options : list rl_option) (acts : list rl_action) (f : fs) : rl_state :=
  let s := mkRlState (demo_log p options) f [] [] [] in default s (run_rl acts s).

Lemma rl_reach_run l f acts s s' : rl_reach l f s -> run_rl acts s = Some s' -> rl_reach l f s'.
Proof.
  revert s. induction acts as [|a acts IH]; simpl; intros s Hs; [by intros [= <-]|].
  destruct (exec_rl a s) as [s1|] eqn:E; [|done]. simpl. apply IH. by eapply rl_step.
Qed.
Lemma rl_run_reach p options acts f : rl_reach (demo_log p options) f (rl_run p options acts f).
Proof.
  unfold rl_run. destruct (run_rl acts _) as [s|] eqn:E; simpl; [|apply rl_start]. eapply rl_reach_run; [apply rl_start|exact E].
Qed.

Definition word (s : str) : bytes := map (fun c => byte_of (Z.of_N (N_of_ascii c))) (list_ascii_of_string s).

(** Two lines on one day, a rotation, one more line, and one on the next day. *)
Definition demo_rl_acts : list rl_action :=
  [RlWrite (env_at 10) (word "one"); RlWrite (env_at 10) (word "two"); RlRotate (env_at 10); RlWrite (env_at 10) (word "three");
   RlWrite (env_at 11) (word "four")].
Definition demo_rl_options : list rl_option := [WithLinkName "logs/a.log"; WithMaxAge day_ns].
Definition demo_rl : rl_state := rl_run "logs/a_%Y.log" demo_rl_options demo_rl_acts no_fs.

Lemma log_keeps_writes_witness : rs_written demo_rl = [(0%nat, word "one"); (0%nat, word "two"); (2%nat, word "three"); (4%nat, word "four")] /\
  os_Stat "logs/a.log" (rs_fs demo_rl) = Some (FiFile 4 (11 * day_ns)) /\
  forall x, fs_inodes (rs_fs demo_rl) !! 0%nat = Some x -> x.1 = word "onetwo".
Proof.
  split_and!; [by vm_compute..|]. intros x Hx.
  exact (proj1 (log_keeps_writes (demo_log "logs/a_%Y.log" demo_rl_options) no_fs demo_rl no_fs_ok eq_refl (rl_run_reach _ _ _ _)) 0%nat x Hx).
Defined.

(** Three generations are there: the next name is the fourth's. *)
Definition demo_gens : rl_state := rl_run "app_%Y.log" [WithRotationCount 1] (RlWrite (env_at 8) (word "y") :: replicate 3 (RlRotate (env_at 8))) no_fs.

Lemma demo_gens_ok : fs_ok (rs_fs demo_gens).
Proof. eapply ro_fs, rl_reach_ok; [exact no_fs_ok| |apply rl_run_reach]. done. Qed.

Definition demo_gens_log : RotateLogs := rl_set_file None "app_8.log" "app_8.log" 0 (demo_log "app_%Y.log" [WithRotationCount 1]).

Lemma new_file_is_new_witness : exists g', 1 <= g' /\ os_Stat (gen_name "app_8.log" g') (rs_fs demo_gens) = None /\
  forall k, 1 <= k < g' -> is_Some (os_Stat (gen_name "app_8.log" k) (rs_fs demo_gens)).
Proof.
  assert (next_generation true (size_rotation demo_gens_log (rs_fs demo_gens)) (genFilename (en_now (env_at 8)) demo_gens_log) demo_gens_log = Some (1, true))
    as H by (by vm_compute).
  assert (0 <= rl_generation demo_gens_log) as Hg by (by vm_compute).
  destruct (new_file_is_new (env_at 8) true true demo_gens_log (rs_fs demo_gens) 1 demo_gens_ok Hg H) as (g' & H1 & H2 & H3 & _).
  assert (genFilename (en_now (env_at 8)) demo_gens_log = "app_8.log") as Hn by (by vm_compute). rewrite Hn in H2, H3.
  exists g'. exact (conj H1 (conj H2 H3)).
Defined.

(** A file of two weeks ago and one of yesterday. *)
Definition two_files : fs := mkFs {["app_1.log" := EFile 0; "app_14.log" := EFile 1]} {[0%nat := (word "x", day_ns); 1%nat := (word "y", 14 * day_ns)]} 2.

Lemma purge_spec_witness : exists gone, purge_list (env_at 15) (demo_log "app_%Y.log" []) two_files = Ok gone /\ gone = ["app_1.log"].
Proof.
  destruct (purge_spec (env_at 15) demo_strftime (fun _ => 0) "app_%Y.log" [] (demo_log "app_%Y.log" []) two_files ["app_1.log"; "app_14.log"]
    eq_refl ltac:(done) ltac:(by vm_compute)) as (gone & H & _).
  exists gone. split; [exact H|]. assert (Ok gone = Ok ["app_1.log"]) as [= ->] by (rewrite <- H; by vm_compute). done.
Defined.

(** ** What it does that it does not mean to do *)

(** The files that a count leaves are the last ones by name: when the numbers follow the
    whole name, generation 10 is before generation 9, and the open file is removed. *)
Lemma current_file_removed_by_count :
  let s := rl_run "app.%Y" [WithRotationCount 1] (RlWrite (env_at 10) (word "x") :: mjoin (replicate 10 [RlRotate (env_at 10); RlUnlink 0])) no_fs in
  CurrentFileName (rs_log s) = "app.10.10" /\ os_Stat "app.10.10" (rs_fs s) = None /\ is_Some (os_Stat "app.10.9" (rs_fs s)).
Proof. vm_compute. split_and!; [done..|by eexists]. Qed.

(** A restart on a file that was last written to longer ago than the age: the file that is
    just opened is removed, before it is written to; the lines go to a file without a name. *)
Lemma current_file_removed_by_age :
  let f := mkFs {["app.log" := EFile 0]} {[0%nat := (word "x", 0)]} 1 in
  let s := rl_run "app.log" [] [RlWrite (env_at 8) (word "y"); RlUnlink 0; RlWrite (env_at 8) (word "z")] f in
  os_Stat "app.log" (rs_fs s) = None /\ rs_written s = [(0%nat, word "y"); (0%nat, word "z")].
Proof. by vm_compute. Qed.

(** The pattern of names for the removal does not know of generations: behind an extension
    they stay for ever, whatever the count or the age. *)
Lemma generations_stay : size (fs_entries (rs_fs demo_gens)) = 4%nat /\ rs_purges demo_gens = [] /\
  filepath_Glob "app_*.log" (rs_fs demo_gens) = Ok ["app_8.log"].
Proof. by vm_compute. Qed.

(** A link in a directory that is not above the file's is made to the name as it was given:
    a relative name leads nowhere from there. *)
Lemma link_dangles : let s := rl_run "logs/a.log" [WithLinkName "links/cur.log"] [RlWrite (env_at 8) (word "y")] no_fs in
  os_Lstat "links/cur.log" (rs_fs s) = Some FiLink /\ os_Stat "links/cur.log" (rs_fs s) = None.
Proof. by vm_compute. Qed.

(** A closed log is not open again until its name changes. *)
Lemma closed_log_refuses : let s := rl_run "a_%Y.log" [] [RlWrite (env_at 8) (word "y"); RlClose] no_fs in
  op_result (rl_Write (env_at 8) (word "z") (rs_log s) (rs_fs s)) = Ok (0, Some "invalid argument"%string) /\
  op_result (rl_Write (env_at 9) (word "z") (rs_log s) (rs_fs s)) = Ok (1, None).
Proof. by vm_compute. Qed.

(** A file system that is full takes a part of a line: the next line follows it directly. *)
Lemma failed_write_tears_line :
  let s := rl_run "a.log" [] [RlWrite (env_full 8 2) (word "line"); RlWrite (env_at 8) (word "next")] no_fs in
  rs_written s = [(0%nat, word "li"); (0%nat, word "next")] /\ fst <$> fs_inodes (rs_fs s) !! 0%nat = Some (word "linext").
Proof. by vm_compute. Qed.
