(* ===== verification/Logger.v ===== *)
(** The logger (src/logger): its settings from the profile, the writers of a logger, and the
    loggers that are kept by their names.

    The encoder and the core of zap are not under src/: what they are given is here. The
    files are the rotating logs of [RotateLogs]. *)
From Stdlib Require Import QArith_base.
From S2P Require Import Prelude Strconv Facade Files Profile HttpActor FileSys RotateLogs.
#[local] Open Scope Z_scope.
#[local] Set Warnings "-register-all".

(** ** Texts *)

(** [strings.ReplaceAll s old new] for a text that is not empty: [skip] characters of a match
    are still to pass. *)
Fixpoint replace_from (skip : nat) (old new s : str) : str :=
  match s with
  | EmptyString => EmptyString
  | String c rest =>
      match skip with
      | S k => replace_from k old new rest
      | O => if String.prefix old s then String.append new (replace_from (pred (String.length old)) old new rest)
             else String c (replace_from 0 old new rest)
      end
  end.
Definition ReplaceAll (s old new : str) : str := replace_from 0 old new s.

Definition extra_args (args : list str) : str :=
  match args with
  | [] => EmptyString
  | _ => String.append "%!(EXTRA " (String.append (join ", " (map (String.append "string=") args)) ")")
  end.

(** [fmt.Sprintf] with texts; [None]: the format has a directive other than [%s] and [%%]. *)
Fixpoint Sprintf (format : str) (args : list str) : option str :=
  match format with
  | EmptyString => Some (extra_args args)
  | String p rest =>
      if Ascii.eqb p "%" then
        match rest with
        | EmptyString => Some (String.append "%!(NOVERB)" (extra_args args))
        | String c rest' =>
            if Ascii.eqb c "s" then
              match args with
              | a :: args => String.append a <$> Sprintf rest' args
              | [] => String.append "%!s(MISSING)" <$> Sprintf rest' []
              end
            else if Ascii.eqb c "%" then String "%" <$> Sprintf rest' args
            else None
        end
      else String p <$> Sprintf rest args
  end.

(** ** Levels *)

Definition DebugLevel : Z := -1.
Definition InfoLevel : Z := 0.
Definition WarnLevel : Z := 1.
Definition ErrorLevel : Z := 2.
Definition PanicLevel : Z := 4.
Definition FatalLevel : Z := 5.

(** src/logger/logger.go:266-283, GetLevel *)
Definition GetLevel (level : str) : Z :=
  let l := ToLower level in
  if String.eqb l "debug" then DebugLevel
  else if String.eqb l "info" then InfoLevel
  else if String.eqb l "warn" then WarnLevel
  else if String.eqb l "error" then ErrorLevel
  else if String.eqb l "panic" then PanicLevel
  else if String.eqb l "fatal" then FatalLevel
  else DebugLevel.

(** [zapcore.Level.CapitalString]. *)
Definition CapitalString (level : Z) : str :=
  if level =? -1 then "DEBUG" else if level =? 0 then "INFO" else if level =? 1 then "WARN" else if level =? 2 then "ERROR"
  else if level =? 3 then "DPANIC" else if level =? 4 then "PANIC" else if level =? 5 then "FATAL"
  else String.append "LEVEL(" (String.append (itoa level) ")").

(** ["%-5s"]. *)
Definition pad5 (s : str) : str := String.append s (string_of_list_ascii (replicate (5 - String.length s) " "%char)).

(** The node's identifier is read whenever a line is written. *)
(** src/logger/logger.go:110-116, NewConfigLogger *)
Definition EncodeLevel (nodeID : str) (level : Z) : str :=
  if String.eqb nodeID EmptyString then CapitalString level
  else String.append nodeID (String.append "  " (pad5 (CapitalString level))).

(** ** Settings *)

(** [cfg_AtomicLevel] is the level that zap's object starts with. *)
(** src/logger/logger_config.go:15-29, Config *)
Record log_config := mkLogConfig {
  cfg_LogLevel : str; cfg_StackLevel : str; cfg_EnableConsole : bool; cfg_EnableWriteFile : bool; cfg_MaxAge : Z; cfg_TimeFormat : str;
  cfg_PrintCaller : bool; cfg_RotationTime : Z; cfg_FileLinkPath : str; cfg_FilePathFormat : str; cfg_IncludeStdout : bool;
  cfg_IncludeStderr : bool; cfg_AtomicLevel : Z }.

(** src/logger/logger_config.go:32-49, defaultConsoleConfig *)
Definition defaultConsoleConfig : log_config :=
  mkLogConfig "debug" "error" true false 7 "15:04:05.000" true 86400 "logs/debug.log" "logs/debug_%Y%m%d.log" false false DebugLevel.

Definition set_paths (link format : str) (c : log_config) : log_config :=
  mkLogConfig (cfg_LogLevel c) (cfg_StackLevel c) (cfg_EnableConsole c) (cfg_EnableWriteFile c) (cfg_MaxAge c) (cfg_TimeFormat c)
    (cfg_PrintCaller c) (cfg_RotationTime c) link format (cfg_IncludeStdout c) (cfg_IncludeStderr c) (cfg_AtomicLevel c).

(** ** Loggers *)

(** [zap.AddCallerSkip] and [zap.AddCaller]. *)
Inductive zap_option := ZAddCallerSkip (n : Z) | ZAddCaller.

(** A logger's writers, in order. *)
Inductive log_writer := WFile (l : RotateLogs) | WConsole | WStdout | WStderr.

(** What the encoder does beyond the message: the time and the name are left out where it
    is told of no way to write them. *)
Record encoder_config := mkEncoder { ec_time : option str; ec_name : bool }.

(** [al_id]: which object it is. *)
(** src/logger/logger.go:31-34, ActorLogger *)
Record ActorLogger := mkActorLogger {
  al_id : nat; al_config : log_config; al_opts : list zap_option; al_encoder : encoder_config; al_writers : list log_writer; al_level : Z }.

(** The variables of the package; [lg_next] numbers new loggers. *)
(** src/logger/logger.go:17-24, DefaultLogger *)
Record logger_state := mkLoggerState {
  lg_default : ActorLogger; lg_loggers : gmap str ActorLogger; lg_nodeID : str; lg_printLevel : Z; lg_vars : gmap str str; lg_next : nat }.

Section Logger.
Context `{A : AnyLib}.
Variable strftime_New : str -> res (Z -> str).
Variable local : Z -> Z.

(** [None] here and below: a path whose directives are not modelled ([Sprintf]). *)
(** src/logger/logger_config.go:68-78, NewConfig *)
Definition file_paths (cfg : profile_cfg) (jsonConfig : any) (config : log_config) : option log_config :=
  if cfg_EnableWriteFile config then
    link ← (if String.eqb (cfg_FileLinkPath config) EmptyString
            then v ← Sprintf (String.append (PrintLogPath cfg) "/%s.log") [cf_nodeName cfg]; Some (Config_GetString jsonConfig (PKey "file_link_path") [v])
            else Some (cfg_FileLinkPath config));
    format ← (if String.eqb (cfg_FilePathFormat config) EmptyString
              then v ← Sprintf (String.append (PrintLogPath cfg) "/%s_%s.log") [cf_nodeName cfg; "%Y%m%d"%string];
                   Some (Config_GetString jsonConfig (PKey "file_path_format") [v])
              else Some (cfg_FilePathFormat config));
    Some (set_paths link format config)
  else Some config.

(** src/logger/logger_config.go:51-81, NewConfig *)
Definition NewConfig (cfg : profile_cfg) (jsonConfig : any) : option log_config :=
  let level := Config_GetString jsonConfig (PKey "level") ["debug"%string] in
  file_paths cfg jsonConfig
    (mkLogConfig level (Config_GetString jsonConfig (PKey "stack_level") ["error"%string])
       (Config_GetBool jsonConfig (PKey "enable_console") [false]) (Config_GetBool jsonConfig (PKey "enable_write_file") [true])
       (Config_GetInt jsonConfig (PKey "max_age") [7]) (Config_GetString jsonConfig (PKey "time_format") ["15:04:05.000"%string])
       (Config_GetBool jsonConfig (PKey "print_caller") [true]) (Config_GetInt jsonConfig (PKey "rotation_time") [86400])
       (Config_GetString jsonConfig (PKey "file_link_path") [EmptyString]) (Config_GetString jsonConfig (PKey "file_path_format") [EmptyString])
       (Config_GetBool jsonConfig (PKey "include_stdout") [false]) (Config_GetBool jsonConfig (PKey "include_stderr") [false])
       (GetLevel level)).

(** A profile that is not loaded panics. *)
(** src/logger/logger_config.go:83-95, NewConfigWithName *)
Definition NewConfigWithName (cfg : profile_cfg) (refLoggerName : str) : option (res log_config) :=
  match profile_GetConfig cfg (PKey "logger") with
  | None => Some (Err "nil pointer dereference")
  | Some loggerConfig =>
      match any_LastError loggerConfig with
      | Some err => Some (Err err)
      | None =>
          let jsonConfig := Config_GetConfig loggerConfig (PKey refLoggerName) in
          match any_LastError jsonConfig with
          | Some err => Some (Err err)
          | None => Ok <$> NewConfig cfg jsonConfig
          end
      end
  end.

(** [vars]: the variables in the order in which the map gives them. *)
(** src/logger/logger.go:91-96, NewConfigLogger *)
Definition set_file_vars (vars : list (str * str)) (c : log_config) : log_config :=
  if cfg_EnableWriteFile c then
    foldl (fun c '(key, value) => set_paths (ReplaceAll (cfg_FileLinkPath c) (String "%" key) value)
                                            (ReplaceAll (cfg_FilePathFormat c) (String "%" key) value) c) c vars
  else c.

(** Products of durations wrap. *)
(** src/logger/logger.go:129-139, NewConfigLogger *)
Definition file_hook (c : log_config) : res RotateLogs :=
  rl_New strftime_New local (cfg_FilePathFormat c)
    [WithLinkName (cfg_FileLinkPath c); WithMaxAge (wrapS 64 (day_ns * cfg_MaxAge c)); WithRotationTime (wrapS 64 (ns_per_s * cfg_RotationTime c))].

(** An error of the files' library is a panic. *)
(** src/logger/logger.go:90-168, NewConfigLogger *)
Definition NewConfigLogger (id : nat) (vars : list (str * str)) (config : log_config) (opts : list zap_option) : res ActorLogger :=
  let config := set_file_vars vars config in
  let encoder := if cfg_PrintCaller config then mkEncoder (Some (cfg_TimeFormat config)) true else mkEncoder None false in
  let opts := if cfg_PrintCaller config then opts ++ [ZAddCaller] else opts in
  file <-? (if cfg_EnableWriteFile config then hook <-? file_hook config ;; Ok [WFile hook] else Ok []) ;;
  let writers := file ++ (if cfg_EnableConsole config then [WConsole] else []) ++ (if cfg_IncludeStdout config then [WStdout] else [])
                      ++ (if cfg_IncludeStderr config then [WStderr] else []) in
  Ok (mkActorLogger id config opts encoder writers (GetLevel (cfg_LogLevel config))).

(** What the call leaves, and the logger; a nil one is [None]. *)
(** src/logger/logger.go:67-88, NewLogger *)
Definition NewLogger (cfg : profile_cfg) (vars : list (str * str)) (refLoggerName : str) (opts : list zap_option) (s : logger_state) :
    option (res (logger_state * option ActorLogger)) :=
  if String.eqb refLoggerName EmptyString then Some (Ok (s, None))
  else match lg_loggers s !! refLoggerName with
       | Some logger => Some (Ok (s, Some logger))
       | None =>
           rc ← NewConfigWithName cfg refLoggerName;
           Some (config <-? match rc with Ok c => Ok c | Err err => Err (String.append "New Config fail. err = " err) end ;;
                 logger <-? NewConfigLogger (lg_next s) vars config opts ;;
                 Ok (mkLoggerState (lg_default s) (<[refLoggerName := logger]> (lg_loggers s)) (lg_nodeID s) (lg_printLevel s) (lg_vars s) (S (lg_next s)),
                     Some logger))
       end.

(** src/logger/logger.go:55-57, SetFileNameVar *)
Definition SetFileNameVar (key value : str) (s : logger_state) : logger_state :=
  mkLoggerState (lg_default s) (lg_loggers s) (lg_nodeID s) (lg_printLevel s) (<[key := value]> (lg_vars s)) (lg_next s).

(** src/logger/logger.go:41-41, SetNodeLogger *)
Definition set_nodeID (nodeID : str) (s : logger_state) : logger_state :=
  mkLoggerState (lg_default s) (lg_loggers s) nodeID (lg_printLevel s) (lg_vars s) (lg_next s).

(** src/logger/logger.go:51-52, SetNodeLogger *)
Definition set_default (logger : ActorLogger) (printLevel : Z) (s : logger_state) : logger_state :=
  mkLoggerState logger (lg_loggers s) (lg_nodeID s) printLevel (lg_vars s) (lg_next s).

(** [vars]: the order in which the map gives its entries, once they are set. *)
(** src/logger/logger.go:40-53, SetNodeLogger *)
Definition SetNodeLogger (cfg : profile_cfg) (vars : gmap str str -> list (str * str)) (node : ProfileNode) (s : logger_state) : option (res logger_state) :=
  let s := set_nodeID (pn_nodeID node) s in
  let refLoggerName := any_ToString (any_Get (pn_settings node) (PKey "ref_logger")) in
  if String.eqb refLoggerName EmptyString then Some (Ok s)
  else
    let s := SetFileNameVar "nodetype" (pn_nodeType node) (SetFileNameVar "nodeid" (pn_nodeID node) s) in
    r ← NewLogger cfg (vars (lg_vars s)) refLoggerName [ZAddCallerSkip 1] s;
    Some (match r with
          | Err err => Err err
          | Ok (s, logger) => Ok (set_default (default (lg_default s) logger) (GetLevel (cf_printLevel cfg)) s)
          end).

(** src/logger/logger.go:26-29, init *)
Definition logger_init : res logger_state :=
  logger <-? NewConfigLogger 0 [] defaultConsoleConfig [ZAddCallerSkip 1] ;;
  Ok (mkLoggerState logger ∅ EmptyString InfoLevel ∅ 1).

(** src/logger/logger.go:262-264, PrintLevel *)
Definition PrintLevel (level : Z) (s : logger_state) : bool := lg_printLevel s <=? level.

(** ** The package at work *)

Inductive logger_action :=
| LgNew (vars : list (str * str)) (refLoggerName : str) (opts : list zap_option) | LgVar (key value : str) | LgNode (vars : gmap str str -> list (str * str)) (node : ProfileNode).

(** A call that panics has no step. *)
Definition exec_logger (cfg : profile_cfg) (a : logger_action) (s : logger_state) : option logger_state :=
  match a with
  | LgNew vars ref opts => match NewLogger cfg vars ref opts s with Some (Ok (s', _)) => Some s' | _ => None end
  | LgVar key value => Some (SetFileNameVar key value s)
  | LgNode vars node => match SetNodeLogger cfg vars node s with Some (Ok s') => Some s' | _ => None end
  end.

Fixpoint run_logger (cfg : profile_cfg) (acts : list logger_action) (s : logger_state) : option logger_state :=
  match acts with [] => Some s | a :: acts => exec_logger cfg a s ≫= run_logger cfg acts end.

(** Loggers are numbered apart; each was made from the profile's settings for its name. *)
Record lg_ok (cfg : profile_cfg) (s : logger_state) : Prop := {
  lo_next : forall name a, lg_loggers s !! name = Some a -> (0 < al_id a < lg_next s)%nat;
  lo_apart : forall n1 n2 a1 a2, lg_loggers s !! n1 = Some a1 -> lg_loggers s !! n2 = Some a2 -> al_id a1 = al_id a2 -> n1 = n2;
  lo_made : forall name a, lg_loggers s !! name = Some a -> exists config vars opts,
    NewConfigWithName cfg name = Some (Ok config) /\ NewConfigLogger (al_id a) vars config opts = Ok a;
  lo_first : (0 < lg_next s)%nat }.

Lemma NewConfigLogger_id id vars c opts a : NewConfigLogger id vars c opts = Ok a -> al_id a = id.
Proof. unfold NewConfigLogger. destruct (if cfg_EnableWriteFile _ then _ else _); [by intros [= <-]|done]. Qed.

(** What a call does: nothing, or one more logger under a name that had none. *)
Lemma NewLogger_cases cfg vars ref opts s s' r : NewLogger cfg vars ref opts s = Some (Ok (s', r)) ->
  (s' = s /\ (ref <> EmptyString -> exists a, r = Some a /\ lg_loggers s !! ref = Some a)) \/
  (exists a config, r = Some a /\ lg_loggers s !! ref = None /\ NewConfigWithName cfg ref = Some (Ok config) /\
     NewConfigLogger (lg_next s) vars config opts = Ok a /\
     s' = mkLoggerState (lg_default s) (<[ref := a]> (lg_loggers s)) (lg_nodeID s) (lg_printLevel s) (lg_vars s) (S (lg_next s))).
Proof.
  unfold NewLogger. destruct (String.eqb_spec ref EmptyString); [by intros [= <- <-]; left|].
  destruct (lg_loggers s !! ref) as [a|] eqn:E; [intros [= <- <-]; left; by eauto|].
  destruct (NewConfigWithName cfg ref) as [[config|err]|] eqn:Ec; [|done..]. simpl.
  destruct (NewConfigLogger _ _ _ _) as [a|] eqn:El; simpl; [|done]. intros [= <- <-]. right. by exists a, config.
Qed.

Lemma NewLogger_ok cfg vars ref opts s s' r : NewLogger cfg vars ref opts s = Some (Ok (s', r)) -> lg_ok cfg s ->
  lg_ok cfg s' /\ lg_loggers s ⊆ lg_loggers s' /\ (forall a, r = Some a -> lg_loggers s' !! ref = Some a).
Proof.
  intros H I. destruct (NewLogger_cases _ _ _ _ _ _ _ H) as [[-> Hr]|(a & config & -> & Hn & Hc & Ha & ->)].
  - split_and!; [done|done|]. intros a ->. destruct (decide (ref = EmptyString)) as [->|Hne]; [cbv beta delta [NewLogger] iota in H; simpl in H; congruence|].
    destruct (Hr Hne) as (a' & [= <-] & ?). done.
  - pose proof (NewConfigLogger_id _ _ _ _ _ Ha) as Hid. split_and!; simpl.
    + split; simpl; [| | |lia].
      * intros name b [[<- <-]|[_ Hb]]%lookup_insert_Some; [pose proof (lo_first _ _ I); lia|]. pose proof (lo_next _ _ I _ _ Hb). lia.
      * intros n1 n2 a1 a2 [[<- <-]|[_ H1]]%lookup_insert_Some [[<- <-]|[_ H2]]%lookup_insert_Some He; [done|..].
        -- pose proof (lo_next _ _ I _ _ H2). lia.
        -- pose proof (lo_next _ _ I _ _ H1). lia.
        -- by eapply (lo_apart _ _ I).
      * intros name b [[<- <-]|[_ Hb]]%lookup_insert_Some; [|by eapply (lo_made _ _ I)]. rewrite Hid. by eexists _, _, _.
    + by apply insert_subseteq.
    + intros b [= <-]. by rewrite lookup_insert_eq.
Qed.

Lemma lg_ok_same cfg s s' : lg_loggers s' = lg_loggers s -> lg_next s' = lg_next s -> lg_ok cfg s -> lg_ok cfg s'.
Proof. intros E1 E2 I. split; rewrite ?E1, ?E2; apply I. Qed.

Lemma exec_logger_ok cfg a s s' : exec_logger cfg a s = Some s' -> lg_ok cfg s -> lg_ok cfg s' /\ lg_loggers s ⊆ lg_loggers s'.
Proof.
  destruct a as [vars ref opts|key value|vars node]; simpl.
  - destruct (NewLogger cfg vars ref opts s) as [[[t r]|]|] eqn:E; [|done..]. intros [= <-] I.
    destruct (NewLogger_ok _ _ _ _ _ _ _ E I) as (? & ? & _). done.
  - intros [= <-] I. split; [|done]. by apply (lg_ok_same _ s).
  - unfold SetNodeLogger. destruct (String.eqb _ EmptyString); [intros [= <-] I; split; [by apply (lg_ok_same _ s)|done]|].
    destruct (NewLogger _ _ _ _ _) as [[[t r]|]|] eqn:E; [|done..]. intros [= <-] I.
    destruct (NewLogger_ok _ _ _ _ _ _ _ E) as (H1 & H2 & _); [by apply (lg_ok_same _ s)|]. split; [by apply (lg_ok_same _ t)|done].
Qed.

Lemma run_logger_ok cfg acts s s' : run_logger cfg acts s = Some s' -> lg_ok cfg s -> lg_ok cfg s' /\ lg_loggers s ⊆ lg_loggers s'.
Proof.
  revert s. induction acts as [|a acts IH]; simpl; intros s; [intros [= <-]; done|].
  destruct (exec_logger cfg a s) as [t|] eqn:E; [|done]. intros H I. destruct (exec_logger_ok _ _ _ _ E I) as [I1 H1].
  destruct (IH _ H I1) as [I2 H2]. split; [done|by etrans].
Qed.

(** A name has one logger for the life of the process. Whatever is called in between, a
    name that has a logger keeps it and is given it again, options and variables of later
    calls notwithstanding; two names never share one; and each is as the profile says
    under its name. *)
Theorem loggers_stay (cfg : profile_cfg) (s0 s1 s2 : logger_state) (acts1 acts2 : list logger_action) (name : str) (a : ActorLogger) :
  logger_init = Ok s0 -> run_logger cfg acts1 s0 = Some s1 -> run_logger cfg acts2 s1 = Some s2 -> name <> EmptyString ->
  lg_loggers s1 !! name = Some a ->
  (forall vars opts, NewLogger cfg vars name opts s2 = Some (Ok (s2, Some a))) /\
  (forall other b, lg_loggers s2 !! other = Some b -> al_id b = al_id a -> other = name) /\
  exists config vars opts, NewConfigWithName cfg name = Some (Ok config) /\ NewConfigLogger (al_id a) vars config opts = Ok a.
Proof.
  intros H0 H1 H2 Hn Ha. assert (lg_ok cfg s0) as I0.
  { unfold logger_init in H0. destruct (NewConfigLogger _ _ _ _); [|done]. injection H0 as <-. split; simpl; intros; simplify_map_eq; lia. }
  destruct (run_logger_ok _ _ _ _ H1 I0) as [I1 _]. destruct (run_logger_ok _ _ _ _ H2 I1) as [I2 Hsub].
  assert (lg_loggers s2 !! name = Some a) as Ha2 by (by eapply lookup_weaken). split_and!.
  - intros vars opts. unfold NewLogger. rewrite (proj2 (String.eqb_neq _ _)) by done. by rewrite Ha2.
  - intros other b Hb Hid. by eapply (lo_apart _ _ I2).
  - by eapply (lo_made _ _ I2).
Qed.

(** ** Its files *)

Context {L : AnyLaws A}.

(** The settings of a name that the profile has. *)
Lemma NewConfigWithName_found cfg doc sections ref m :
  cf_jsonConfig cfg = Some (any_Wrap (JObj doc)) -> doc !! "logger"%string = Some (JObj sections) -> sections !! ref = Some (JObj m) ->
  NewConfigWithName cfg ref = Ok <$> NewConfig cfg (any_Wrap (JObj m)).
Proof.
  intros Hc Hl Hr. unfold NewConfigWithName, profile_GetConfig, Config_GetConfig. rewrite Hc. simpl. rewrite (any_key _ _ _ Hl), any_ok, (any_key _ _ _ Hr), any_ok. done.
Qed.

Lemma set_file_vars_other vars c : let c' := set_file_vars vars c in
  cfg_EnableWriteFile c' = cfg_EnableWriteFile c /\ cfg_MaxAge c' = cfg_MaxAge c /\ cfg_RotationTime c' = cfg_RotationTime c /\
  cfg_LogLevel c' = cfg_LogLevel c /\ cfg_EnableConsole c' = cfg_EnableConsole c.
Proof.
  unfold set_file_vars. destruct (cfg_EnableWriteFile c) eqn:E; [|done]. simpl. revert c E.
  induction vars as [|[k v] vars IH]; intros c E; [done|]. exact (IH (set_paths _ _ c) E).
Qed.

Lemma set_file_vars_paths vars c : cfg_EnableWriteFile c = true ->
  let subst := foldl (fun s '(key, value) => ReplaceAll s (String "%" key) value) in
  cfg_FilePathFormat (set_file_vars vars c) = subst (cfg_FilePathFormat c) vars /\ cfg_FileLinkPath (set_file_vars vars c) = subst (cfg_FileLinkPath c) vars.
Proof.
  unfold set_file_vars. intros E. rewrite E. clear E. revert c. induction vars as [|[k v] vars IH]; intros c; [done|]. simpl.
  destruct (IH (set_paths (ReplaceAll (cfg_FileLinkPath c) (String "%" k) v) (ReplaceAll (cfg_FilePathFormat c) (String "%" k) v) c)) as [-> ->]. done.
Qed.

Lemma day_fits days : 0 < days <= 106751 -> wrapS 64 (day_ns * days) = day_ns * days.
Proof. intros H. apply wrapS_id; [lia|]. unfold inS, day_ns, ns_per_s. change (2 ^ (64 - 1)) with 9223372036854775808. lia. Qed.

(** What a section of the profile says of files is what the new logger's files do: the
    names are the section's with the variables put in, in the order in which they come, the
    files change once a day unless it says otherwise, they are kept for the days it says, up
    to 106751, and never by their number; what it writes goes to them first. A pattern that
    is not one is a panic. *)
Theorem NewLogger_files (cfg : profile_cfg) (doc sections m : gmap str jval) (ref : str) (vars : list (str * str)) (opts : list zap_option)
    (s : logger_state) (age : jval) (format link : str) :
  cf_jsonConfig cfg = Some (any_Wrap (JObj doc)) -> doc !! "logger"%string = Some (JObj sections) -> sections !! ref = Some (JObj m) ->
  ref <> EmptyString -> lg_loggers s !! ref = None ->
  m !! "enable_write_file"%string = None -> m !! "rotation_time"%string = None -> m !! "max_age"%string = Some age -> 0 < any_ToInt (any_Wrap age) <= 106751 ->
  m !! "file_path_format"%string = Some (JStr format) -> format <> EmptyString -> m !! "file_link_path"%string = Some (JStr link) -> link <> EmptyString ->
  let subst := foldl (fun s '(key, value) => ReplaceAll s (String "%" key) value) in
  match strftime_New (subst format vars) with
  | Err err => NewLogger cfg vars ref opts s = Some (Err (Wrap err "invalid strftime pattern"))
  | Ok pattern => exists s' a rl, NewLogger cfg vars ref opts s = Some (Ok (s', Some a)) /\ lg_loggers s' = <[ref := a]> (lg_loggers s) /\
      head (al_writers a) = Some (WFile rl) /\ rl_outFh rl = None /\ rl_pattern rl = pattern /\ rl_globPattern rl = glob_pattern (subst format vars) /\
      rl_linkName rl = subst link vars /\ rl_rotationTime rl = day_ns /\ rl_maxAge rl = day_ns * any_ToInt (any_Wrap age) /\ rl_rotationCount rl = 0
  end.
Proof.
  intros Hc Hd Hs Hn Hnew Hw Hr Ha Hage Hf Hfe Hl Hle subst. unfold NewLogger. rewrite (proj2 (String.eqb_neq _ _)) by done. rewrite Hnew.
  rewrite (NewConfigWithName_found _ _ _ _ _ Hc Hd Hs). unfold NewConfig, Config_GetString, Config_GetBool, Config_GetInt.
  rewrite (getter_missing _ _ _ _ _ Hw), (getter_missing _ _ _ _ _ Hr), (getter_found _ _ _ _ _ _ Ha), (getter_found _ _ _ _ _ _ Hf),
    (getter_found _ _ _ _ _ _ Hl), !any_str. unfold default_or, file_paths. simpl. rewrite !(proj2 (String.eqb_neq _ _)) by done. simpl.
  match goal with |- context [mkLogConfig ?a ?b ?c ?d ?e ?f ?g ?h ?i ?j ?k ?l ?n] =>
    set (c0 := set_paths link format (mkLogConfig a b c d e f g h i j k l n)) end.
  unfold NewConfigLogger. destruct (set_file_vars_other vars c0) as (-> & _). destruct (set_file_vars_paths vars c0 eq_refl) as [Hpath Hlink]. fold subst in Hpath, Hlink.
  simpl. unfold file_hook, rl_New. rewrite Hpath. destruct (set_file_vars_other vars c0) as (_ & -> & -> & _). simpl.
  destruct (strftime_New _) as [pattern|]; [|done]. rewrite (day_fits _ Hage), Hlink. simpl. unfold WithLinkName, WithMaxAge, WithRotationTime. simpl.
  assert (0 < day_ns * any_ToInt (any_Wrap age)) as Hpos by (unfold day_ns, ns_per_s; lia).
  rewrite (Z.max_l _ _ (Z.lt_le_incl _ _ Hpos)), (proj2 (Z.ltb_lt _ _) Hpos), (proj2 (Z.eqb_neq _ _)) by lia. simpl.
  eexists _, _, _. split; [reflexivity|]. by split_and!.
Qed.
End Logger.

(** ** Examples *)

Definition demo_section : gmap str jval :=
  {[ "max_age"%string := JNum (inject_Z 30); "file_path_format"%string := JStr "logs/%nodeid_%Y.log"; "file_link_path"%string := JStr "logs/%nodeid.log";
     "level"%string := JStr "WARN" ]}.
Definition quiet_section : gmap str jval :=
  {[ "enable_write_file"%string := JBool false; "print_caller"%string := JBool false; "enable_console"%string := JBool true; "include_stderr"%string := JBool true ]}.
Definition century_section : gmap str jval := {[ "max_age"%string := JNum (inject_Z 106752) ]}.
Definition demo_sections : gmap str jval :=
  {[ "game"%string := JObj demo_section; "quiet"%string := JObj quiet_section; "century"%string := JObj century_section ]}.
Definition demo_logger_doc : gmap str jval := {[ "logger"%string := JObj demo_sections ]}.
Definition demo_logger_cfg : profile_cfg :=
  mkCfg "/srv" "app.json" (Some (any_Wrap (JObj demo_logger_doc))) "dev" true "error" "1" "5" "1.1.5.1" "1" "log" "conf" 0 0 "game".
Definition demo_node (ref : str) : ProfileNode := mkProfileNode "1" "5" ":9000" EmptyString (any_Wrap (JObj {[ "ref_logger"%string := JStr ref ]})) true.

Definition demo_logger_run (acts : list logger_action) : option logger_state :=
  match logger_init demo_strftime (fun _ => 0) with
  | Ok s => run_logger demo_strftime (fun _ => 0) demo_logger_cfg acts s
  | Err _ => None
  end.

Lemma NewLogger_files_witness : exists s, demo_logger_run [LgVar "nodeid" "n1"] = Some s /\
  exists s' a rl, NewLogger demo_strftime (fun _ => 0) demo_logger_cfg [("nodeid"%string, "n1"%string)] "game" [] s = Some (Ok (s', Some a)) /\
    head (al_writers a) = Some (WFile rl) /\ rl_globPattern rl = "logs/n1_*.log" /\ rl_maxAge rl = 30 * day_ns.
Proof.
  destruct (demo_logger_run [LgVar "nodeid" "n1"]) as [s|] eqn:E; [|exfalso; revert E; by vm_compute]. exists s. split; [done|].
  assert (lg_loggers s !! "game"%string = None) as Hn by (unfold demo_logger_run in E; simpl in E; injection E as <-; reflexivity).
  pose proof (NewLogger_files demo_strftime (fun _ => 0) demo_logger_cfg demo_logger_doc demo_sections demo_section "game" [("nodeid"%string, "n1"%string)] [] s
    (JNum (inject_Z 30)) "logs/%nodeid_%Y.log" "logs/%nodeid.log" eq_refl ltac:(by vm_compute) ltac:(by vm_compute) ltac:(done) Hn ltac:(by vm_compute)
    ltac:(by vm_compute) ltac:(by vm_compute) ltac:(by vm_compute) ltac:(by vm_compute) ltac:(done) ltac:(by vm_compute) ltac:(done)) as H.
  cbv zeta in H. change (demo_strftime _) with (demo_strftime "logs/n1_%Y.log") in H. cbv beta iota delta [demo_strftime] in H.
  destruct H as (s' & a & rl & H1 & _ & H2 & _ & _ & H3 & _ & _ & H4 & _). exists s', a, rl. split; [exact H1|]. split; [exact H2|].
  split; [rewrite H3; by vm_compute|rewrite H4; by vm_compute].
Defined.

Definition demo_acts : list logger_action := [LgNode map_to_list (demo_node "game")].
Definition later_acts : list logger_action := [LgVar "nodeid" "other"; LgNew [] "quiet" []; LgNew [] "game" [ZAddCaller]].

Definition demo_run (acts : list logger_action) (s : logger_state) : option logger_state := run_logger demo_strftime (fun _ => 0) demo_logger_cfg acts s.

Lemma demo_stays : match logger_init demo_strftime (fun _ => 0) with
  | Err _ => False
  | Ok s0 => match demo_run demo_acts s0 with
             | None => False
             | Some s1 => match demo_run later_acts s1, lg_loggers s1 !! "game"%string with
                          | Some _, Some a => cfg_FilePathFormat (al_config a) = "logs/1_%Y.log" /\ al_opts a = [ZAddCallerSkip 1; ZAddCaller]
                          | _, _ => False end end end.
Proof. by vm_compute. Qed.

Lemma loggers_stay_witness : exists s0 s1 s2 a, logger_init demo_strftime (fun _ => 0) = Ok s0 /\
  demo_run demo_acts s0 = Some s1 /\ demo_run later_acts s1 = Some s2 /\
  cfg_FilePathFormat (al_config a) = "logs/1_%Y.log" /\ al_opts a = [ZAddCallerSkip 1; ZAddCaller] /\
  NewLogger demo_strftime (fun _ => 0) demo_logger_cfg [] "game" [] s2 = Some (Ok (s2, Some a)).
Proof.
  pose proof demo_stays as H. destruct (logger_init demo_strftime (fun _ => 0)) as [s0|] eqn:E0; [|destruct H].
  destruct (demo_run demo_acts s0) as [s1|] eqn:E1; [|destruct H]. destruct (demo_run later_acts s1) as [s2|] eqn:E2; [|destruct H].
  destruct (lg_loggers s1 !! "game"%string) as [a|] eqn:Ha; [|destruct H]. exists s0, s1, s2, a. destruct H as [Hf Ho].
  refine (conj eq_refl (conj E1 (conj E2 (conj Hf (conj Ho _))))).
  exact (proj1 (loggers_stay demo_strftime (fun _ => 0) demo_logger_cfg s0 s1 s2 demo_acts later_acts "game" a E0 E1 E2 ltac:(discriminate) Ha) [] []).
Defined.

(** ** What it does that it does not mean to do *)

Definition demo_config (name : str) : option log_config :=
  match NewConfigWithName demo_logger_cfg name with Some (Ok c) => Some c | _ => None end.

(** The days are counted in nanoseconds: with 106752 of them the number is negative, and the
    files are kept for the seven days of a log without settings. *)
Lemma max_age_wraps : match demo_config "century" with
                      | Some c => match file_hook demo_strftime (fun _ => 0) c with Ok l => rl_maxAge l | Err _ => 0 end = 7 * day_ns
                      | None => False end.
Proof. by vm_compute. Qed.

(** The level for printing is read only by a node that names a logger. *)
Lemma print_level_ignored : match demo_logger_run [LgNode map_to_list (demo_node EmptyString)] with
                            | Some s => cf_printLevel demo_logger_cfg = "error" /\ PrintLevel InfoLevel s = true
                            | None => False end.
Proof. by vm_compute. Qed.

(** A logger that does not print its caller prints no time either; one that is to print on
    the console and on the standard error prints every line there twice. *)
Lemma no_caller_no_time_stderr_twice : match demo_logger_run [LgNew [] "quiet" []] with
    | Some s => match lg_loggers s !! "quiet"%string with
                | Some a => ec_time (al_encoder a) = None /\ al_writers a = [WConsole; WStderr]
                | None => False end
    | None => False end.
Proof. by vm_compute. Qed.

(** The default names of a node are the start of another's: the other's old files are
    removed as well. *)
Lemma purges_other_nodes : glob_pattern "log/game_%Y%m%d.log" = "log/game_*.log" /\
  filepath_Glob "log/game_*.log" (mkFs {["log" := EDir 0; "log/game_20260101.log" := EFile 0; "log/game_two_20260101.log" := EFile 1]} ∅ 2) =
    Ok ["log/game_20260101.log"; "log/game_two_20260101.log"].
Proof. by vm_compute. Qed.

(** A variable whose name is the start of another's: what the file is called depends on the
    order in which the map gives them. *)
Lemma var_order_matters : let c := set_paths EmptyString "%nodeid.log" (mkLogConfig EmptyString EmptyString false true 0 EmptyString false 0 EmptyString EmptyString false false 0) in
  cfg_FilePathFormat (set_file_vars [("node"%string, "n"%string); ("nodeid"%string, "1"%string)] c) = "nid.log" /\
  cfg_FilePathFormat (set_file_vars [("nodeid"%string, "1"%string); ("node"%string, "n"%string)] c) = "1.log".
Proof. by vm_compute. Qed.
