(* ===== verification/Gin.v ===== *)
(** The Gin component (src/components/gin): what a handler reads from a request, the
    middlewares, and the HTTP server with its controllers.

    A request and the responses are Gin's: a request is what Gin answers about it
    ([gin_request]), a response the calls that were made ([gin_call]). The server runs in a
    goroutine of its own beside the component's stop ([exec_gin]). *)
From S2P Require Import Prelude Strconv Facade HttpActor Files Helpers.

(** ** Reading a request *)

(** What Gin answers: a part of the path, a value of the query or of the posted form, a
    cookie; and the request itself. [gq_body] is what was read, and whether all of it could
    be. [gq_ParseForm] fails or gives the posted form. *)
Record gin_request := mkGinRequest {
  gq_Method : str; gq_RequestURI : str; gq_body : str * bool;
  gq_Query : gmap str (list str); gq_Params : list (str * str); gq_ParseForm : option (gmap str (list str));
  gq_Param : str -> str; gq_GetQuery : str -> option str; gq_GetPostForm : str -> option str;
  gq_PostFormArray : str -> list str; gq_Cookie : str -> option str }.

(** How Gin answers from the request: the first value of a name, and no value is as if it
    were empty for a part of the path. *)
Record gin_laws (g : gin_request) : Prop := {
  gl_param : forall k, gq_Param g k = default EmptyString (snd <$> find (fun p => String.eqb p.1 k) (gq_Params g));
  gl_query : forall k, gq_GetQuery g k = gq_Query g !! k ≫= head;
  gl_post : forall k, gq_GetPostForm g k = match gq_ParseForm g with Some m => m !! k ≫= head | None => None end }.

Section Context.
Variable g : gin_request.

Definition asked (checkPost : list bool) : bool := match checkPost with b :: _ => b | [] => false end.

(** src/components/gin/context.go:22-28, Context.GetBody *)
Definition GetBody : str := let '(data, ok) := gq_body g in if negb ok then data else EmptyString.

(** The first value of each name; [None]: a name without values panics. *)
Definition first_values (m : gmap str (list str)) : option (gmap str str) :=
  if bool_decide (map_Forall (fun _ l => l <> []) m) then Some (omap head m) else None.

(** src/components/gin/context.go:30-53, Context.GetParams *)
Definition GetParams (checkPost : list bool) : option (gmap str str) :=
  q ← first_values (gq_Query g);
  let maps := foldl (fun m p => <[p.1 := p.2]> m) q (gq_Params g) in
  if asked checkPost then
    match gq_ParseForm g with
    | None => Some maps
    | Some form => f ← first_values form; Some (f ∪ maps)
    end
  else Some maps.

(** src/components/gin/context.go:55-57, Context.IsPost *)
Definition IsPost : bool := String.eqb (gq_Method g) "POST".
(** src/components/gin/context.go:59-61, Context.IsGet *)
Definition IsGet : bool := String.eqb (gq_Method g) "GET".

(** src/components/gin/context.go:157-162, Context.PostString *)
Definition PostString (name defaultValue : str) : str := default defaultValue (gq_GetPostForm g name).

(** src/components/gin/context.go:115-128, Context.GetString *)
Definition GetString (name defaultValue : str) (checkPost : list bool) : str :=
  if negb (String.eqb (gq_Param g name) EmptyString) then gq_Param g name
  else match gq_GetQuery g name with
       | Some value => value
       | None => if asked checkPost then PostString name defaultValue else defaultValue
       end.

(** The number in a text, and the default when there is none. *)
Definition number_or (parse : str -> list Z -> Z * bool) (value : str) (defaultValue : Z) : Z :=
  match parse value [] with (v, true) => v | (_, false) => defaultValue end.

(** src/components/gin/context.go:63-75, Context.GetBool *)
Definition GetBool (name : str) (defaultValue : bool) (checkPost : list bool) : bool :=
  let value := GetString name EmptyString checkPost in
  if String.eqb value EmptyString then defaultValue
  else match ToInt value [] with (intValue, true) => 0 <? intValue | (_, false) => defaultValue end.

(** src/components/gin/context.go:77-89, Context.GetInt *)
Definition GetInt (name : str) (defaultValue : Z) (checkPost : list bool) : Z :=
  let value := GetString name EmptyString checkPost in
  if String.eqb value EmptyString then defaultValue else number_or ToInt value defaultValue.

(** src/components/gin/context.go:91-103, Context.GetInt32 *)
Definition GetInt32 (name : str) (defaultValue : Z) (checkPost : list bool) : Z :=
  let value := GetString name EmptyString checkPost in
  if String.eqb value EmptyString then defaultValue else number_or ToInt32 value defaultValue.

(** src/components/gin/context.go:105-113, Context.GetInt64 *)
Definition GetInt64 (name : str) (defaultValue : Z) (checkPost : list bool) : Z :=
  let value := GetString name EmptyString checkPost in
  if String.eqb value EmptyString then defaultValue else (ToInt64 value [defaultValue]).1.

Definition post_number (parse : str -> list Z -> Z * bool) (name : str) (defaultValue : Z) : Z :=
  match gq_GetPostForm g name with Some value => number_or parse value defaultValue | None => defaultValue end.

(** src/components/gin/context.go:130-137, Context.PostInt *)
Definition PostInt : str -> Z -> Z := post_number ToInt.
(** src/components/gin/context.go:139-146, Context.PostInt32 *)
Definition PostInt32 : str -> Z -> Z := post_number ToInt32.
(** src/components/gin/context.go:148-155, Context.PostInt64 *)
Definition PostInt64 : str -> Z -> Z := post_number ToInt64.

Definition post_numbers (conv : list str -> list Z) (name : str) : list Z :=
  let array := gq_PostFormArray g name in
  if (Z.of_nat (length array) <? 1) then [] else conv array.

(** src/components/gin/context.go:164-171, Context.PostFormIntArray *)
Definition PostFormIntArray : str -> list Z := post_numbers StringToInt.
(** src/components/gin/context.go:173-180, Context.PostFormInt32Array *)
Definition PostFormInt32Array : str -> list Z := post_numbers StringToInt32.
(** src/components/gin/context.go:182-189, Context.PostFormInt64Array *)
Definition PostFormInt64Array : str -> list Z := post_numbers StringToInt64.

Definition cookie_number (parse : str -> list Z -> Z * bool) (name : str) (defaultValue : Z) : Z :=
  match gq_Cookie g name with Some value => number_or parse value defaultValue | None => defaultValue end.

(** src/components/gin/context.go:217-227, Context.GetIntCookie *)
Definition GetIntCookie : str -> Z -> Z := cookie_number ToInt.
(** src/components/gin/context.go:229-239, Context.GetInt32Cookie *)
Definition GetInt32Cookie : str -> Z -> Z := cookie_number ToInt32.
(** src/components/gin/context.go:241-251, Context.GetInt64Cookie *)
Definition GetInt64Cookie : str -> Z -> Z := cookie_number ToInt64.
(** src/components/gin/context.go:253-260, Context.GetStringCookie *)
Definition GetStringCookie (name defaultValue : str) : str := default defaultValue (gq_Cookie g name).
End Context.

(** ** Answering *)

(** A call of Gin's. [GNext] runs the handlers behind this one. *)
Inductive gin_call (obj : Type) :=
| GHeader (name value : str) | GString (code : Z) (body : str) | GJSON (code : Z) (value : obj)
| GHTML (code : Z) (name : str) (value : option obj) | GAbort | GAbortWithStatus (code : Z) | GError | GNext.
Arguments GHeader {obj}. Arguments GString {obj}. Arguments GJSON {obj}. Arguments GHTML {obj}.
Arguments GAbort {obj}. Arguments GAbortWithStatus {obj}. Arguments GError {obj}. Arguments GNext {obj}.

Section Answers.
Context {obj : Type}.
Local Abbreviation call := (gin_call obj).

(** src/components/gin/context.go:191-197, Context.HTML200 *)
Definition HTML200 (name : str) (objs : list obj) : list call := [GHTML 200 name (head objs)].
(** src/components/gin/context.go:199-201, Context.JSON200 *)
Definition JSON200 (value : obj) : list call := [GJSON 200 value].
(** src/components/gin/context.go:203-205, Context.RenderJSON *)
Definition RenderJSON (value : obj) : list call := [GJSON 200 value].
(** src/components/gin/context.go:207-210, Context.RenderHTML *)
Definition RenderHTML (html : str) : list call := [GHeader "Content-Type" "text/html; charset=utf-8"; GString 200 html].
(** src/components/gin/context.go:212-215, Context.RenderJsonString *)
Definition RenderJsonString (json : str) : list call := [GHeader "Content-Type" "application/json; charset=utf-8"; GString 200 json].

(** ** Middlewares *)

(** src/components/gin/middleware.go:118-138, Cors *)
Definition Cors (domain : list str) (method : str) : list call :=
  [GHeader "Access-Control-Allow-Origin" (match domain with d :: _ => d | [] => "*"%string end);
   GHeader "Access-Control-Allow-Methods" "POST, GET, OPTIONS, PUT, DELETE, UPDATE";
   GHeader "Access-Control-Allow-Headers" "Content-Type,AccessToken,X-CSRF-Token, Authorization, Token";
   GHeader "Access-Control-Expose-Headers" "Content-Length, Access-Control-Allow-Origin, Access-Control-Allow-Headers, Content-Type";
   GHeader "Access-Control-Allow-Credentials" "true"] ++
  (if String.eqb method "OPTIONS" then [GAbortWithStatus 204] else []) ++ [GNext].

Fixpoint str_contains (p s : str) : bool :=
  String.prefix p s || match s with EmptyString => false | String _ s => str_contains p s end.

(** What a handler panics with: an error of the network that comes from a system call, with
    its text, or anything else. *)
Inductive panic_value := PvSyscall (text : str) | PvOther.

(** src/components/gin/middleware.go:74-83, RecoveryWithZap *)
Definition brokenPipe (err : panic_value) : bool :=
  match err with
  | PvSyscall text => str_contains "broken pipe" (ToLower text) || str_contains "connection reset by peer" (ToLower text)
  | PvOther => false
  end.

(** The calls behind [Next], and the warning's subject; [stack] adds the stack to it. *)
(** src/components/gin/middleware.go:68-116, RecoveryWithZap *)
Definition RecoveryWithZap (stack : bool) (path : str) (panicked : option panic_value) : list call * option (str * bool) :=
  match panicked with
  | None => ([], None)
  | Some err =>
      if brokenPipe err then ([GError; GAbort], Some (path, false))
      else ([GAbortWithStatus 500], Some ("[Recovery from panic]"%string, stack))
  end.

(** What is logged: the errors of the request, or the request as it came in. *)
Inductive gin_log := GlError (text : str) | GlDebug (route : str) (status : Z) (method path query ip agent : str) (at_time : str) (latency : Z).

(** A request before and after the handlers: they may change its path and query. *)
Record zap_view := mkZapView {
  zv_path : str; zv_query : str; zv_route : str; zv_status : Z; zv_method : str; zv_ip : str; zv_agent : str; zv_errors : list str }.

(** [fmt_time] writes a time in the format, in UTC or not. *)
(** src/components/gin/middleware.go:29-61, GinZap *)
Definition GinZap (fmt_time : str -> bool -> Z -> str) (timeFormat : str) (utc : bool) (start end_ : Z) (before after : zap_view) : list gin_log :=
  match zv_errors after with
  | [] => [GlDebug (zv_route after) (zv_status after) (zv_method after) (zv_path before) (zv_query before) (zv_ip after) (zv_agent after)
             (fmt_time timeFormat utc end_) (end_ - start)]
  | errors => GlError <$> errors
  end.

(** src/components/gin/middleware.go:17-19, GinDefaultZap *)
Definition GinDefaultZap (fmt_time : str -> bool -> Z -> str) := GinZap fmt_time "2006-01-02T15:04:05Z07:00" true.
End Answers.

(** The requests that a [MaxConnect] lets in, and those it has turned away with how many were
    inside then. *)
Record latch_state := mkLatch { lt_limit : Limit; lt_inside : list nat; lt_turned : list (nat * nat); lt_warned : nat }.

Inductive latch_action := LtEnter (request : nat) | LtLeave (request : nat) (panics : bool).

(** A request goes in, or is aborted with 503; it comes out of its handlers, by a panic too,
    and gives its place back. *)
(** src/components/gin/middleware.go:143-156, MaxConnect *)
Definition exec_latch (a : latch_action) (s : latch_state) : option latch_state :=
  match a with
  | LtEnter request =>
      match Limit_TryBorrow (lt_limit s) with
      | (l, true) => Some (mkLatch l (request :: lt_inside s) (lt_turned s) (lt_warned s))
      | (l, false) => Some (mkLatch l (lt_inside s) ((request, length (lt_inside s)) :: lt_turned s) (lt_warned s))
      end
  | LtLeave request _ =>
      i ← fst <$> list_find (eq request) (lt_inside s);
      match Limit_Return (lt_limit s) with
      | (l, Ok _) => Some (mkLatch l (delete i (lt_inside s)) (lt_turned s) (lt_warned s))
      | (l, Err _) => Some (mkLatch l (delete i (lt_inside s)) (lt_turned s) (S (lt_warned s)))
      end
  end.

(** [None]: a negative limit panics. *)
(** src/components/gin/middleware.go:140-143, MaxConnect *)
Definition MaxConnect (n : Z) : option latch_state := l ← NewLimit n; Some (mkLatch l [] [] 0).

(** src/components/gin/controller.go:16-22, BindHandlers *)
Definition BindHandlers {H G} (BindHandler : H -> G) (handlers : list H) : list G := BindHandler <$> handlers.

(** ** The server *)

(** Durations are nanoseconds. *)
(** src/components/gin/server.go:18-26, Options *)
Record GinOptions := mkGinOptions {
  go_ReadTimeout : Z; go_ReadHeaderTimeout : Z; go_WriteTimeout : Z; go_IdleTimeout : Z; go_MaxHeaderBytes : Z;
  go_CertFile : str; go_KeyFile : str }.

Definition OptionFunc : Type := GinOptions -> GinOptions.

(** src/components/gin/server.go:70-80, defaultOptions *)
Definition gin_defaultOptions : GinOptions := mkGinOptions 0 0 0 0 0 EmptyString EmptyString.

(** src/components/gin/server.go:181-185, WithReadTimeout *)
Definition WithReadTimeout (t : Z) : OptionFunc := fun o =>
  mkGinOptions t (go_ReadHeaderTimeout o) (go_WriteTimeout o) (go_IdleTimeout o) (go_MaxHeaderBytes o) (go_CertFile o) (go_KeyFile o).
(** src/components/gin/server.go:187-191, WithReadHeaderTimeout *)
Definition WithReadHeaderTimeout (t : Z) : OptionFunc := fun o =>
  mkGinOptions (go_ReadTimeout o) t (go_WriteTimeout o) (go_IdleTimeout o) (go_MaxHeaderBytes o) (go_CertFile o) (go_KeyFile o).
(** src/components/gin/server.go:193-197, WithIdleTimeout *)
Definition gin_WithIdleTimeout (t : Z) : OptionFunc := fun o =>
  mkGinOptions (go_ReadTimeout o) (go_ReadHeaderTimeout o) (go_WriteTimeout o) t (go_MaxHeaderBytes o) (go_CertFile o) (go_KeyFile o).
(** src/components/gin/server.go:199-203, WithMaxHeaderBytes *)
Definition WithMaxHeaderBytes (val : Z) : OptionFunc := fun o =>
  mkGinOptions (go_ReadTimeout o) (go_ReadHeaderTimeout o) (go_WriteTimeout o) (go_IdleTimeout o) val (go_CertFile o) (go_KeyFile o).
(** src/components/gin/server.go:205-213, WithCert *)
Definition gin_WithCert (certFile keyFile : str) : OptionFunc := fun o =>
  if String.eqb certFile EmptyString || String.eqb keyFile EmptyString then o
  else mkGinOptions (go_ReadTimeout o) (go_ReadHeaderTimeout o) (go_WriteTimeout o) (go_IdleTimeout o) (go_MaxHeaderBytes o) certFile keyFile.

(** The limits of [http.Server]; 0 is none. *)
Record http_limits := mkHttpLimits { hl_Read : Z; hl_ReadHeader : Z; hl_Write : Z; hl_Idle : Z; hl_MaxHeader : Z }.

(** What is served: directories, files and the endpoint of the actors. *)
Inductive gin_route := GRDir (relativePath dir : str) | GRFile (relativePath file : str) | GRActor (path : str).

(** A controller and a middleware are known by a number. *)
(** src/components/gin/server.go:28-34, HttpServer *)
Record HttpServer := mkHttpServer {
  hv_Addr : str; hv_Options : GinOptions; hv_limits : http_limits; hv_controllers : list nat; hv_middlewares : list nat; hv_routes : list gin_route }.

(** src/components/gin/server.go:45-68, NewHttpServer *)
Definition NewHttpServer (address : str) (opts : list OptionFunc) : option HttpServer :=
  if String.eqb address EmptyString then None
  else Some (mkHttpServer address (foldl (fun o f => f o) gin_defaultOptions opts) (mkHttpLimits 0 0 0 0 0) [] [] []).

(** src/components/gin/server.go:82-84, HttpServer.Use *)
Definition HttpServer_Use (middleware : list nat) (p : HttpServer) : HttpServer :=
  mkHttpServer (hv_Addr p) (hv_Options p) (hv_limits p) (hv_controllers p) (hv_middlewares p ++ BindHandlers id middleware) (hv_routes p).

(** src/components/gin/server.go:90-93, HttpServer.Register *)
Definition HttpServer_Register (controllers : list nat) (p : HttpServer) : HttpServer :=
  mkHttpServer (hv_Addr p) (hv_Options p) (hv_limits p) (hv_controllers p ++ controllers) (hv_middlewares p) (hv_routes p).

Definition add_route (r : gin_route) (p : HttpServer) : HttpServer :=
  mkHttpServer (hv_Addr p) (hv_Options p) (hv_limits p) (hv_controllers p) (hv_middlewares p) (hv_routes p ++ [r]).

(** src/components/gin/server.go:95-103, HttpServer.Static *)
Definition HttpServer_Static (env : os_env) (relativePath staticDir : str) (p : HttpServer) : HttpServer :=
  match JudgePath env staticDir with
  | (dir, true) => add_route (GRDir relativePath dir) p
  | (_, false) => p
  end.

(** src/components/gin/server.go:105-113, HttpServer.StaticFile *)
Definition HttpServer_StaticFile (env : os_env) (relativePath filepath : str) (p : HttpServer) : HttpServer :=
  match JudgeFile env filepath with
  | (dir, true) => add_route (GRFile relativePath dir) p
  | (_, false) => p
  end.

(** [handler]: it is not nil. *)
(** src/components/gin/actor_handler.go:12-18, HttpServer.RegisterActorRoutes *)
Definition RegisterActorRoutes (handler : bool) (p : HttpServer) : HttpServer * res unit :=
  if negb handler then (p, Err "actorgo gin: actor handler is nil") else (add_route (GRActor "/actor/:methodID") p, Ok tt).

Definition set_positive (v old : Z) : Z := if 0 <? v then v else old.

(** src/components/gin/server.go:121-139, HttpServer.Run *)
Definition run_limits (o : GinOptions) (l : http_limits) : http_limits :=
  mkHttpLimits (set_positive (go_ReadTimeout o) (hl_Read l)) (set_positive (go_ReadHeaderTimeout o) (hl_ReadHeader l))
    (set_positive (go_WriteTimeout o) (hl_Write l)) (set_positive (go_IdleTimeout o) (hl_Idle l)) (set_positive (go_MaxHeaderBytes o) (hl_MaxHeader l)).

(** Whether it listens with TLS. *)
(** src/components/gin/server.go:151-151, HttpServer.listener *)
Definition listens_tls (o : GinOptions) : bool := negb (String.eqb (go_CertFile o) EmptyString) && negb (String.eqb (go_KeyFile o) EmptyString).

(** What controllers are asked, and the beginning and end of serving. *)
Inductive gin_event := GvPreInit (c : nat) | GvInit (c : nat) | GvStop (c : nat) | GvServe (tls : bool) | GvServed.

(** The goroutine of [Run]: not started, before the [PreInit] or the [Init] of the first of
    the controllers that are left, about to listen, serving, ended. *)
Inductive run_phase := RnNot | RnPre (rest : list nat) | RnInit (c : nat) (rest : list nat) | RnListen | RnServing | RnEnded.

(** [OnStop]: not called, before the [Stop] of the controllers that are left, about to shut
    the server down, back. *)
Inductive stop_phase := SpNot | SpStop (rest : list nat) | SpShutdown | SpBack.

Record gin_state := mkGin { gn_server : HttpServer; gn_run : run_phase; gn_stop : stop_phase; gn_down : bool; gn_events : list gin_event }.

Definition gn_set_run (r : run_phase) (l : list gin_event) (s : gin_state) : gin_state :=
  mkGin (gn_server s) r (gn_stop s) (gn_down s) (gn_events s ++ l).
Definition gn_set_stop (p : stop_phase) (l : list gin_event) (s : gin_state) : gin_state :=
  mkGin (gn_server s) (gn_run s) p (gn_down s) (gn_events s ++ l).

(** [GnListen]: whether the address can be bound. [GnServeEnd] is the return of a server that
    was shut down, [GnServeFail] that of a listener that failed. *)
Inductive gin_action := GnStart | GnRun | GnListen (bound : bool) | GnServeEnd | GnServeFail | GnStop | GnStopNext | GnShutdown.

(** src/components/gin/server.go:141-146, HttpServer.Run *)
Definition run_from (rest : list nat) : run_phase := match rest with [] => RnListen | _ => RnPre rest end.

(** [go g.Run()] *)
(** src/components/gin/server.go:115-139, HttpServer.Run *)
Definition Run_begin (p : HttpServer) : HttpServer * run_phase :=
  if String.eqb (hv_Addr p) EmptyString then (p, RnEnded)
  else (mkHttpServer (hv_Addr p) (hv_Options p) (run_limits (hv_Options p) (hv_limits p)) (hv_controllers p) (hv_middlewares p) (hv_routes p),
        run_from (hv_controllers p)).

(** A server that was shut down does not listen. *)
(** src/components/gin/server.go:149-163, HttpServer.listener *)
Definition listener_step (bound : bool) (s : gin_state) : gin_state :=
  if gn_down s || negb bound then gn_set_run RnEnded [] s
  else gn_set_run RnServing [GvServe (listens_tls (hv_Options (gn_server s)))] s.

(** src/components/gin/server.go:165-178, HttpServer.Stop *)
Definition stop_from_next (rest : list nat) : stop_phase := match rest with [] => SpShutdown | _ => SpStop rest end.

(** One step of the goroutine of [Run], of the stop, or of the environment. *)
(** src/components/gin/component.go:49-60, Component.OnAfterInit *)
Definition exec_gin (a : gin_action) (s : gin_state) : option gin_state :=
  match a with
  | GnStart => match gn_run s with
               | RnNot => let '(p, r) := Run_begin (gn_server s) in Some (mkGin p r (gn_stop s) (gn_down s) (gn_events s))
               | _ => None
               end
  | GnRun => match gn_run s with
             | RnPre (c :: rest) => Some (gn_set_run (RnInit c rest) [GvPreInit c] s)
             | RnInit c rest => Some (gn_set_run (run_from rest) [GvInit c] s)
             | _ => None
             end
  | GnListen bound => match gn_run s with RnListen => Some (listener_step bound s) | _ => None end
  | GnServeEnd => match gn_run s with RnServing => if gn_down s then Some (gn_set_run RnEnded [GvServed] s) else None | _ => None end
  | GnServeFail => match gn_run s with RnServing => Some (gn_set_run RnEnded [GvServed] s) | _ => None end
  | GnStop => match gn_stop s with SpNot => Some (gn_set_stop (stop_from_next (hv_controllers (gn_server s))) [] s) | _ => None end
  | GnStopNext => match gn_stop s with
                  | SpStop (c :: rest) => Some (gn_set_stop (stop_from_next rest) [GvStop c] s)
                  | _ => None
                  end
  | GnShutdown => match gn_stop s with
                  | SpShutdown => Some (mkGin (gn_server s) (gn_run s) SpBack true (gn_events s))
                  | _ => None
                  end
  end.

(** The component; [None]: there is no server, and its use panics. *)
(** src/components/gin/component.go:34-39, New *)
Definition gin_New (name address : str) (opts : list OptionFunc) : str * option HttpServer := (name, NewHttpServer address opts).
(** src/components/gin/component.go:22-24, NewHttp *)
Definition NewHttp (name address : str) := gin_New name address [].
(** src/components/gin/component.go:26-32, NewHttps *)
Definition NewHttps (name address certFile keyFile : str) := gin_New name address [gin_WithCert certFile keyFile].
(** src/components/gin/component.go:42-44, Component.Name *)
Definition gin_Name (g : str * option HttpServer) : str := String.append "gin_component_" g.1.
(** src/components/gin/component.go:62-65, Component.Register *)
Definition gin_Register (controllers : list nat) (g : str * option HttpServer) : option (str * option HttpServer) :=
  p ← g.2; Some (g.1, Some (HttpServer_Register controllers p)).

(** src/components/gin/component.go:49-52, Component.OnAfterInit *)
Definition gin_OnAfterInit (g : str * option HttpServer) : option gin_state := p ← g.2; Some (mkGin p RnNot SpNot false []).

Fixpoint run_gin (l : list gin_action) (s : gin_state) : option gin_state :=
  match l with [] => Some s | a :: l => exec_gin a s ≫= run_gin l end.

(** ** What a handler reads *)

(** Where the value of a name is taken from: the path, the query, and the posted form when
    it is asked for. *)
Lemma GetString_path g name d post : gin_laws g -> forall v, find (fun p => String.eqb p.1 name) (gq_Params g) = Some (name, v) -> v <> EmptyString ->
  GetString g name d post = v.
Proof. intros L v Hf Hv. unfold GetString. rewrite (gl_param g L), Hf. simpl. by destruct (String.eqb_spec v EmptyString). Qed.

Lemma param_none g name : gin_laws g -> find (fun p => String.eqb p.1 name) (gq_Params g) = None -> gq_Param g name = EmptyString.
Proof. intros L Hf. by rewrite (gl_param g L), Hf. Qed.

Lemma find_none {A} (f : A -> bool) l : (forall x, x ∈ l -> f x = false) -> find f l = None.
Proof.
  induction l as [|x l IH]; [done|]. intros H. simpl. rewrite H by (by left). apply IH. intros y Hy. apply H. by right.
Qed.

Lemma params_fold (l : list (str * str)) (m : gmap str str) k : (forall v, (k, v) ∈ l -> False) -> foldl (fun m p => <[p.1 := p.2]> m) m l !! k = m !! k.
Proof.
  revert m. induction l as [|[k' v] l IH]; [done|]. intros m H. simpl. rewrite IH by (intros w Hw; apply (H w); by right).
  apply lookup_insert_ne. intros ->. apply (H v). by left.
Qed.

Lemma first_values_lookup (m : gmap str (list str)) (q : gmap str str) k : first_values m = Some q -> q !! k = m !! k ≫= head.
Proof. unfold first_values. case_bool_decide; [|done]. intros [= <-]. apply lookup_omap. Qed.

(** The two ways of reading agree on a name that the path does not have: both take the
    query's value, unless the form is asked for and has the name too. *)
Lemma params_agree g name post maps v : gin_laws g -> (forall w, (name, w) ∈ gq_Params g -> False) -> GetParams g post = Some maps ->
  gq_Query g !! name ≫= head = Some v -> (asked post = true -> forall f, gq_ParseForm g = Some f -> f !! name = None) ->
  maps !! name = Some v /\ GetString g name EmptyString post = v.
Proof.
  intros L Hp HG Hq Hf. split.
  - unfold GetParams in HG. destruct (first_values (gq_Query g)) as [q|] eqn:Eq; [|done]. simpl in HG.
    assert (foldl (fun m p => <[p.1 := p.2]> m) q (gq_Params g) !! name = Some v) as Hm
      by (rewrite params_fold by done; by rewrite (first_values_lookup _ _ _ Eq)).
    destruct (asked post); [|by injection HG as <-]. destruct (gq_ParseForm g) as [f|]; [|by injection HG as <-].
    destruct (first_values f) as [ff|] eqn:Ef; [|done]. injection HG as <-. apply lookup_union_Some_raw. right. split; [|done].
    by rewrite (first_values_lookup _ _ _ Ef), (Hf eq_refl f eq_refl).
  - unfold GetString. rewrite (param_none g name L), (gl_query g L), Hq; [done|]. apply find_none. intros [k w] Hw. simpl.
    destruct (String.eqb_spec k name) as [->|]; [|done]. exfalso. by eapply Hp.
Qed.

(** A number that is read is one of its width, or the default. *)
Lemma number_or_range parse w value d : (forall s v, parse s [] = (v, true) -> inS w v) -> inS w d -> inS w (number_or parse value d).
Proof. intros H Hd. unfold number_or. destruct (parse value []) as [v []] eqn:E; [by eapply H|done]. Qed.

Lemma ToInt_inS s v : ToInt s [] = (v, true) -> inS 64 v.
Proof. unfold ToInt. destruct (atoi s) as [x [e|]] eqn:E; [done|]. intros [= <-]. by eapply parse_int_range; [| |exact E]. Qed.
Lemma ToInt32_inS s v : ToInt32 s [] = (v, true) -> inS 32 v.
Proof. unfold ToInt32. destruct (parse_int 10 32 s) as [x [e|]]; [done|]. intros [= <-]. by apply wrapS_range. Qed.
Lemma ToInt64_inS s d : inS 64 d -> inS 64 (ToInt64 s [d]).1.
Proof. intros Hd. unfold ToInt64. destruct (parse_int 10 64 s) as [x [e|]] eqn:E; [done|]. by eapply parse_int_range; [| |exact E]. Qed.

(** A number that a handler reads from a request, in any of the three ways, has its
    width, whatever the client sent: text that is no number of the width gives the default. *)
Theorem read_numbers_fit (g : gin_request) (name : str) (d : Z) (post : list bool) :
  (inS 64 d -> inS 64 (GetInt g name d post) /\ inS 64 (GetInt64 g name d post) /\ inS 64 (PostInt g name d) /\ inS 64 (GetIntCookie g name d)) /\
  (inS 32 d -> inS 32 (GetInt32 g name d post) /\ inS 32 (PostInt32 g name d) /\ inS 32 (GetInt32Cookie g name d)).
Proof.
  pose proof (fun s d => number_or_range ToInt 64 s d ToInt_inS) as H64. pose proof (fun s d => number_or_range ToInt32 32 s d ToInt32_inS) as H32.
  split; intros Hd; unfold GetInt, GetInt64, PostInt, GetIntCookie, GetInt32, PostInt32, GetInt32Cookie, post_number, cookie_number; split_and!;
    repeat (case_if || case_match); auto. by apply ToInt64_inS.
Qed.

(** ** The limit *)

Inductive latch_reach (n : Z) : latch_state -> Prop :=
| latch_init s : MaxConnect n = Some s -> latch_reach n s
| latch_step s a s' : latch_reach n s -> exec_latch a s = Some s' -> latch_reach n s'.

Definition latch_ok (n : Z) (s : latch_state) : Prop :=
  l_cap (lt_limit s) = Z.to_nat n /\ l_pool (lt_limit s) = length (lt_inside s) /\ (length (lt_inside s) <= Z.to_nat n)%nat /\
  Forall (fun t => t.2 = Z.to_nat n) (lt_turned s) /\ lt_warned s = 0%nat.

Lemma latch_reach_ok n s : latch_reach n s -> latch_ok n s.
Proof.
  induction 1 as [s Hs|s a s' _ (I1 & I2 & I3 & I4 & I5) E].
  - unfold MaxConnect, NewLimit in Hs. destruct (n <? 0); [done|]. injection Hs as <-. split_and!; try done; simpl; lia || by constructor.
  - destruct a as [r|r p]; simpl in E.
    + unfold Limit_TryBorrow in E. destruct (Nat.ltb_spec (l_pool (lt_limit s)) (l_cap (lt_limit s))); injection E as <-; split_and!; simpl; try done; try lia.
      constructor; [simpl; lia|done].
    + destruct (list_find (eq r) (lt_inside s)) as [[i x]|] eqn:Ef; [|done]. simpl in E. apply list_find_Some in Ef as (Hi & _ & _).
      unfold Limit_Return in E. pose proof (lookup_lt_Some _ _ _ Hi). destruct (l_pool (lt_limit s)) eqn:Ep; [lia|]. injection E as <-.
      split_and!; simpl; try done; rewrite length_delete by (by eexists); lia.
Qed.

(** [MaxConnect] never lets more requests in than its limit, and turns one away only
    when that many are inside; a request that comes out, by a panic too, makes room for
    another, and no place is ever given back twice. *)
Theorem max_connect_bound (n : Z) (s : latch_state) : latch_reach n s ->
  (length (lt_inside s) <= Z.to_nat n)%nat /\ Forall (fun t => t.2 = Z.to_nat n) (lt_turned s) /\ lt_warned s = 0%nat /\
  (forall r p, r ∈ lt_inside s -> exists s', exec_latch (LtLeave r p) s = Some s' /\
     forall q, exists s'', exec_latch (LtEnter q) s' = Some s'' /\ q ∈ lt_inside s'') /\
  (forall q s', exec_latch (LtEnter q) s = Some s' -> (length (lt_inside s) < Z.to_nat n)%nat -> q ∈ lt_inside s').
Proof.
  intros Hr. destruct (latch_reach_ok n s Hr) as (I1 & I2 & I3 & I4 & I5). split_and!; try done.
  - intros r p Hin. simpl. destruct (list_find_elem_of (eq r) (lt_inside s) r Hin eq_refl) as [[i x] Ef]. rewrite Ef. simpl. apply list_find_Some in Ef as (Hi & _ & _).
    pose proof (lookup_lt_Some _ _ _ Hi). unfold Limit_Return. destruct (l_pool (lt_limit s)) as [|k] eqn:Ep; [lia|]. eexists. split; [done|].
    intros q. simpl. unfold Limit_TryBorrow. simpl. rewrite (proj2 (Nat.ltb_lt _ _)) by lia. eexists. split; [done|by left].
  - intros q s' E Hl. simpl in E. unfold Limit_TryBorrow in E. rewrite (proj2 (Nat.ltb_lt _ _)) in E by lia. injection E as <-. by left.
Qed.

Fixpoint run_latch (l : list latch_action) (s : latch_state) : option latch_state :=
  match l with [] => Some s | a :: l => exec_latch a s ≫= run_latch l end.

Lemma latch_reach_run n l s s' : latch_reach n s -> run_latch l s = Some s' -> latch_reach n s'.
Proof.
  revert s. induction l as [|a l IH]; simpl; intros s Hs; [by intros [= <-]|].
  destruct (exec_latch a s) as [s1|] eqn:E; [|done]. simpl. apply IH. by eapply latch_step.
Qed.

(** Three requests come to a limit of two; the second panics. *)
Definition demo_latch : latch_state := mkLatch (mkLimit 2 1) [10%nat] [(12%nat, 2%nat)] 0.
Lemma demo_latch_reach : latch_reach 2 demo_latch.
Proof.
  eapply (latch_reach_run 2 [LtEnter 10; LtEnter 11; LtEnter 12; LtLeave 11 true]); [by apply latch_init|]. vm_compute. reflexivity.
Qed.

Lemma max_connect_bound_witness : latch_reach 2 demo_latch /\ (length (lt_inside demo_latch) <= 2)%nat /\
  exists s', exec_latch (LtLeave 10 false) demo_latch = Some s'.
Proof.
  destruct (max_connect_bound 2 demo_latch demo_latch_reach) as (H1 & _ & _ & H2 & _). split; [exact demo_latch_reach|]. split; [exact H1|].
  destruct (H2 10%nat false) as (s' & Hs & _); [by left|]. by exists s'.
Defined.

(** ** The life of the server *)

Definition is_stop (e : gin_event) : bool := match e with GvStop _ => true | _ => false end.
Definition run_events (l : list gin_event) : list gin_event := filter (fun e => is_stop e = false) l.
Definition stop_events (l : list gin_event) : list gin_event := filter (fun e => is_stop e = true) l.
Definition inits (l : list nat) : list gin_event := l ≫= fun c => [GvPreInit c; GvInit c].

(** What the goroutine of [Run] has done, by where it is. *)
Definition run_done (cs : list nat) (tls : bool) (r : run_phase) (l : list gin_event) : Prop :=
  match r with
  | RnNot => l = []
  | RnPre rest => rest <> [] /\ exists d, cs = d ++ rest /\ l = inits d
  | RnInit c rest => exists d, cs = d ++ c :: rest /\ l = inits d ++ [GvPreInit c]
  | RnListen => l = inits cs
  | RnServing => l = inits cs ++ [GvServe tls]
  | RnEnded => l = [] \/ l = inits cs \/ l = inits cs ++ [GvServe tls; GvServed]
  end.

Definition stop_done (cs : list nat) (p : stop_phase) (down : bool) (l : list gin_event) : Prop :=
  match p with
  | SpNot => l = [] /\ down = false
  | SpStop rest => rest <> [] /\ (exists d, cs = d ++ rest /\ l = GvStop <$> d) /\ down = false
  | SpShutdown => l = GvStop <$> cs /\ down = false
  | SpBack => l = GvStop <$> cs /\ down = true
  end.

Inductive gin_reach (g : str * option HttpServer) : gin_state -> Prop :=
| gin_init s : gin_OnAfterInit g = Some s -> gin_reach g s
| gin_step s a s' : gin_reach g s -> exec_gin a s = Some s' -> gin_reach g s'.

Definition gin_ok (p : HttpServer) (s : gin_state) : Prop :=
  hv_controllers (gn_server s) = hv_controllers p /\ hv_Options (gn_server s) = hv_Options p /\
  run_done (hv_controllers p) (listens_tls (hv_Options p)) (gn_run s) (run_events (gn_events s)) /\
  stop_done (hv_controllers p) (gn_stop s) (gn_down s) (stop_events (gn_events s)).

Lemma run_events_run l e : is_stop e = false -> run_events (l ++ [e]) = run_events l ++ [e].
Proof. intros H. unfold run_events. rewrite list.filter_app, filter_cons_True by done. done. Qed.
Lemma stop_events_run l e : is_stop e = false -> stop_events (l ++ [e]) = stop_events l.
Proof. intros H. unfold stop_events. rewrite list.filter_app, filter_cons_False by congruence. apply app_nil_r. Qed.
Lemma run_events_stop l c : run_events (l ++ [GvStop c]) = run_events l.
Proof. unfold run_events. rewrite list.filter_app, filter_cons_False by done. apply app_nil_r. Qed.
Lemma stop_events_stop l c : stop_events (l ++ [GvStop c]) = stop_events l ++ [GvStop c].
Proof. unfold stop_events. rewrite list.filter_app, filter_cons_True by done. done. Qed.
Ltac events := simpl; rewrite ?app_nil_r, ?run_events_stop, ?stop_events_stop, ?run_events_run, ?stop_events_run by done.
Lemma inits_app l1 l2 : inits (l1 ++ l2) = inits l1 ++ inits l2.
Proof. apply bind_app. Qed.

Lemma run_from_done cs tls d rest l : cs = d ++ rest -> l = inits d -> run_done cs tls (run_from rest) l.
Proof. intros -> ->. destruct rest as [|c rest]; simpl; [by rewrite app_nil_r|]. split; [done|by exists d]. Qed.

Lemma stop_next_done cs d rest l : cs = d ++ rest -> l = GvStop <$> d -> stop_done cs (stop_from_next rest) false l.
Proof. intros -> ->. destruct rest as [|c rest]; simpl; [by rewrite app_nil_r|]. split_and!; [done|by exists d|done]. Qed.

Lemma exec_gin_ok p a s s' : gin_ok p s -> exec_gin a s = Some s' -> gin_ok p s'.
Proof.
  intros (I1 & I2 & I3 & I4) E. destruct a; simpl in E.
  - destruct (gn_run s) eqn:Er; try done. unfold Run_begin in E. case_if_in E; injection E as <-; split_and!; try done; simpl in *; [by left|].
    rewrite I1. by apply (run_from_done _ _ []).
  - destruct (gn_run s) as [|[|c rest]|c rest| | |] eqn:Er; try done; injection E as <-; split_and!; try done; events; try done.
    + destruct I3 as (_ & d & -> & ->). by exists d.
    + destruct I3 as (d & -> & ->). apply (run_from_done _ _ (d ++ [c])); [by rewrite <- app_assoc|]. by rewrite inits_app, <- app_assoc.
  - destruct (gn_run s) eqn:Er; try done. injection E as <-. simpl in I3. unfold listener_step.
    case_if; split_and!; try done; events; [auto|done|by rewrite I3, I2|done].
  - destruct (gn_run s) eqn:Er; try done. case_if_in E; [|done]. injection E as <-. simpl in I3. split_and!; try done; events; [|by rewrite E0].
    right. right. by rewrite I3, <- app_assoc.
  - destruct (gn_run s) eqn:Er; try done. injection E as <-. simpl in I3. split_and!; try done; events; [|done].
    right. right. by rewrite I3, <- app_assoc.
  - destruct (gn_stop s) eqn:Es; try done. injection E as <-. destruct I4 as [I4 Hd]. split_and!; try done; events; [done|].
    rewrite Hd, I1. by apply (stop_next_done _ []).
  - destruct (gn_stop s) as [|[|c rest]| |] eqn:Es; try done. injection E as <-. destruct I4 as (_ & (d & Ec & El) & Ed).
    split_and!; try done; events; [done|]. rewrite Ed. apply (stop_next_done _ (d ++ [c])); [by rewrite <- app_assoc|]. by rewrite El, fmap_app.
  - destruct (gn_stop s) eqn:Es; try done. injection E as <-. destruct I4 as [I4 _]. by split_and!.
Qed.

Lemma gin_reach_ok g p s : g.2 = Some p -> gin_reach g s -> gin_ok p s.
Proof.
  intros Hp. induction 1 as [s Hs|s a s' _ IH E]; [|by eapply exec_gin_ok]. unfold gin_OnAfterInit in Hs. rewrite Hp in Hs. injection Hs as <-. by split_and!.
Qed.

(** A server that was shut down does not begin to serve. *)
Lemma down_stays a s s1 : gn_down s = true -> exec_gin a s = Some s1 ->
  gn_down s1 = true /\ forall tls, GvServe tls ∈ gn_events s1 -> GvServe tls ∈ gn_events s.
Proof.
  intros Hd E. destruct a; simpl in E.
  all: try (unfold listener_step in E; rewrite Hd in E).
  all: repeat case_match; try done; simplify_eq; simpl; (split; [done|]); intros tls; rewrite ?app_nil_r; try done;
    intros [Hin|Hin%list_elem_of_singleton]%elem_of_app; done.
Qed.

(** The server serves only after all its controllers were prepared and initialised, each
    once and in the order they were registered, and it serves at most once; when the
    component's stop is back every controller was stopped once in that order, the server no
    longer takes requests, and whatever still runs it never serves again. *)
Theorem gin_server_lifecycle (g : str * option HttpServer) (p : HttpServer) (s : gin_state) : g.2 = Some p -> gin_reach g s ->
  (forall tls, GvServe tls ∈ gn_events s -> tls = listens_tls (hv_Options p) /\
     exists rest, run_events (gn_events s) = inits (hv_controllers p) ++ GvServe tls :: rest /\ (rest = [] \/ rest = [GvServed])) /\
  (gn_stop s = SpBack -> stop_events (gn_events s) = GvStop <$> hv_controllers p /\
     (gn_run s = RnServing -> is_Some (exec_gin GnServeEnd s)) /\
     forall l s' tls, run_gin l s = Some s' -> GvServe tls ∈ gn_events s' -> GvServe tls ∈ gn_events s).
Proof.
  intros Hp Hr. destruct (gin_reach_ok g p s Hp Hr) as (I1 & I2 & I3 & I4).
  assert (forall tls l, run_done (hv_controllers p) (listens_tls (hv_Options p)) (gn_run s) l -> GvServe tls ∈ l -> tls = listens_tls (hv_Options p) /\
    exists rest, l = inits (hv_controllers p) ++ GvServe tls :: rest /\ (rest = [] \/ rest = [GvServed])) as Hserve.
  { intros tls l Hd Hin. assert (forall d, GvServe tls ∈ inits d -> False) as Hno.
    { intros d (c & Hc & _)%list_elem_of_bind. rewrite !elem_of_cons, elem_of_nil in Hc. by destruct Hc as [|[|]]. }
    destruct (gn_run s); simpl in Hd.
    - by subst l; apply elem_of_nil in Hin.
    - destruct Hd as (_ & d & _ & ->). by apply Hno in Hin.
    - destruct Hd as (d & _ & ->). apply elem_of_app in Hin as [Hin|Hin%list_elem_of_singleton]; [by apply Hno in Hin|done].
    - subst l. by apply Hno in Hin.
    - subst l. apply elem_of_app in Hin as [Hin|Hin%list_elem_of_singleton]; [by apply Hno in Hin|]. injection Hin as ->. split; [done|]. exists []. auto.
    - destruct Hd as [->|[->| ->]]; [by apply elem_of_nil in Hin|by apply Hno in Hin|]. apply elem_of_app in Hin as [Hin|Hin]; [by apply Hno in Hin|].
      rewrite !elem_of_cons, elem_of_nil in Hin. destruct Hin as [Hin|[|]]; try done. injection Hin as ->. split; [done|]. exists [GvServed]. auto. }
  split.
  - intros tls Hin. apply Hserve; [done|]. by apply list_elem_of_filter.
  - intros Hb. rewrite Hb in I4. destruct I4 as [I4 Hdown]. split_and!; [done| |].
    + intros Hs. simpl. rewrite Hs, Hdown. by eexists.
    + clear -Hdown. intros l. revert s Hdown. induction l as [|a l IH]; simpl; intros s Hdown s' tls; [by intros [= <-]|].
      destruct (exec_gin a s) as [s1|] eqn:E; [|done]. simpl. intros Hrun Hin.
      destruct (down_stays a s s1 Hdown E) as [Hd He]. apply (He tls). by apply (IH s1 Hd s').
Qed.

Definition demo_gin : str * option HttpServer := default (NewHttp "web" ":80") (gin_Register [1%nat; 2%nat] (NewHttp "web" ":80")).
Definition demo_gin_server : HttpServer := default (mkHttpServer EmptyString gin_defaultOptions (mkHttpLimits 0 0 0 0 0) [] [] []) demo_gin.2.
Definition gin_begin (g : str * option HttpServer) : gin_state := default (mkGin demo_gin_server RnEnded SpBack true []) (gin_OnAfterInit g).

Lemma gin_reach_run g l s s' : gin_reach g s -> run_gin l s = Some s' -> gin_reach g s'.
Proof.
  revert s. induction l as [|a l IH]; simpl; intros s Hs; [by intros [= <-]|].
  destruct (exec_gin a s) as [s1|] eqn:E; [|done]. simpl. apply IH. by eapply gin_step.
Qed.

(** It is stopped while it serves. *)
Definition demo_gin_run : list gin_action := [GnStart; GnRun; GnRun; GnRun; GnRun; GnListen true; GnStop; GnStopNext; GnStopNext; GnShutdown].
Definition demo_gin_state : gin_state := default (gin_begin demo_gin) (run_gin demo_gin_run (gin_begin demo_gin)).
Lemma demo_gin_reach : gin_reach demo_gin demo_gin_state.
Proof. apply (gin_reach_run _ demo_gin_run (gin_begin demo_gin)); [by apply gin_init|vm_compute; reflexivity]. Qed.

Lemma gin_server_lifecycle_witness : gn_stop demo_gin_state = SpBack /\
  run_events (gn_events demo_gin_state) = [GvPreInit 1; GvInit 1; GvPreInit 2; GvInit 2; GvServe false] /\
  stop_events (gn_events demo_gin_state) = [GvStop 1; GvStop 2] /\ is_Some (exec_gin GnServeEnd demo_gin_state).
Proof.
  destruct (gin_server_lifecycle demo_gin demo_gin_server demo_gin_state eq_refl demo_gin_reach) as [Hs Hb].
  split; [reflexivity|]. destruct (Hb eq_refl) as (H1 & H2 & _). split; [|split; [exact H1|by apply H2]].
  destruct (Hs false) as (_ & rest & Hr & _); [vm_compute; repeat constructor|]. vm_compute. reflexivity.
Defined.

Lemma read_numbers_fit_witness : forall g, inS 32 (GetInt32 g "level" 7 [true]) /\ inS 64 (GetInt g "level" 7 []).
Proof.
  intros g. destruct (read_numbers_fit g "level" 7 [true]) as [_ H32]. destruct (read_numbers_fit g "level" 7 []) as [H64 _].
  split; [apply H32|apply H64]; by vm_compute.
Defined.

(** ** What goes wrong *)

(** The body is given back only when it could not be read. *)
Lemma body_read_is_lost g data : gq_body g = (data, true) -> GetBody g = EmptyString.
Proof. intros H. unfold GetBody. by rewrite H. Qed.

(** A component that is stopped while its goroutine has not come far initialises controllers
    that were stopped before. *)
Lemma stopped_before_init : exists l s, run_gin l (gin_begin demo_gin) = Some s /\ gn_stop s = SpBack /\
  gn_events s = [GvStop 1; GvStop 2; GvPreInit 1; GvInit 1; GvPreInit 2; GvInit 2] /\ gn_run s = RnEnded.
Proof. exists [GnStop; GnStopNext; GnStopNext; GnShutdown; GnStart; GnRun; GnRun; GnRun; GnRun; GnListen true]. eexists. by vm_compute. Qed.

(** Without an address there is no server, and the component panics when it is started. *)
Lemma no_address_panics name : gin_OnAfterInit (NewHttp name EmptyString) = None.
Proof. done. Qed.

(** The same name in the path and in the query, and twice in the path. *)
Definition two_sources : gin_request :=
  mkGinRequest "GET" "/a" (EmptyString, true) {["id" := ["1"]]} [("id", ""); ("to", "2"); ("to", "3")] None
    (fun k => default EmptyString (snd <$> find (fun p => String.eqb p.1 k) [("id", ""); ("to", "2"); ("to", "3")]))
    (fun k => ({["id" := ["1"]]} : gmap str (list str)) !! k ≫= head) (fun _ => None) (fun _ => []) (fun _ => None).

(** The two ways of reading differ on them. *)
Lemma params_disagree : gin_laws two_sources /\
  (GetParams two_sources [] ≫= (!!) "id"%string) = Some EmptyString /\ GetString two_sources "id" EmptyString [] = "1"%string /\
  (GetParams two_sources [] ≫= (!!) "to"%string) = Some "3"%string /\ GetString two_sources "to" EmptyString [] = "2"%string.
Proof. split; [by split|]. by vm_compute. Qed.
