(* ===== verification/Databases.v ===== *)
(** The components of databases (src/components/gorm, src/components/mongo,
    src/components/redis/component.go): what they connect to at the start, from the profile
    and the node's settings, and how a database is found.

    A call that panics is an error. The drivers are not under src/: what they answer is an
    argument, a handle is what it was made with. *)
From Stdlib Require Import QArith_base.
From S2P Require Import Prelude Strconv Facade Files Profile HttpActor FileSys RotateLogs Logger.
#[local] Open Scope Z_scope.
#[local] Set Warnings "-register-all".

(** ** Groups of databases *)

Section Groups.
Context `{A : AnyLib} {D : Type}.

(** What [step] does with the items of a group, in order. *)
Fixpoint group_items (step : any -> gmap str D -> res (gmap str D)) (items : list any) (m : gmap str D) : res (gmap str D) :=
  match items with
  | [] => Ok m
  | item :: items => m <-? step item m ;; group_items step items m
  end.

Definition items_of (dbGroup : any) : list any := map (fun i => Config_GetConfig dbGroup (PIdx (Z.of_nat i))) (seq 0 (Z.to_nat (any_Size dbGroup))).

Fixpoint init_groups (step : str -> any -> gmap str D -> res (gmap str D)) (config : any) (keys : list str) (m : gmap str (gmap str D)) : res (gmap str (gmap str D)) :=
  match keys with
  | [] => Ok m
  | groupID :: keys =>
      g <-? group_items (step groupID) (items_of (Config_GetConfig config (PKey groupID))) ∅ ;;
      init_groups step config keys (<[groupID := g]> m)
  end.

(** The values of the node's list are compared one by one: an identifier that is there twice
    is connected twice. *)
Fixpoint for_listed (ids : list str) (id : str) (create : res D) (m : gmap str D) : res (gmap str D) :=
  match ids with
  | [] => Ok m
  | x :: ids => if String.eqb x id then db <-? create ;; for_listed ids id create (<[id := db]> m) else for_listed ids id create m
  end.

Definition listed (l : any) : list str := map (fun key => any_ToString (any_Get l (PKey key))) (any_Keys l).

Lemma for_listed_spec ids id create m :
  for_listed ids id create m = if bool_decide (id ∈ ids) then (db <-? create ;; Ok (<[id := db]> m)) else Ok m.
Proof.
  revert m. induction ids as [|x ids IH]; intros m; [done|]. simpl. destruct (String.eqb_spec x id) as [->|Hne].
  - rewrite bool_decide_true by (by left). destruct create as [db|]; [|done]. simpl. rewrite IH. simpl. rewrite insert_insert_eq. by destruct (bool_decide _).
  - rewrite IH. by rewrite (bool_decide_ext (id ∈ x :: ids) (id ∈ ids)) by set_solver.
Qed.

(** What a list of items leaves when each says under which name it is, if it is there: the
    last one of a name. *)
Definition pick_step (pick : any -> option (res (str * D))) (item : any) (m : gmap str D) : res (gmap str D) :=
  match pick item with
  | None => Ok m
  | Some (Ok (id, db)) => Ok (<[id := db]> m)
  | Some (Err err) => Err err
  end.

Lemma group_items_ext step1 step2 items m : (forall x m, step1 x m = step2 x m) -> group_items step1 items m = group_items step2 items m.
Proof. intros H. revert m. induction items as [|x items IH]; intros m; [done|]. simpl. rewrite H. destruct (step2 x m); [apply IH|done]. Qed.

Definition contributions (pick : any -> option (res (str * D))) (items : list any) : list (str * D) :=
  omap (fun item => match pick item with Some (Ok x) => Some x | _ => None end) items.
Definition picked (pick : any -> option (res (str * D))) (items : list any) (id : str) : option D :=
  snd <$> list.last (filter (fun x : str * D => x.1 = id) (contributions pick items)).

Lemma group_items_pick pick items m r : group_items (pick_step pick) items m = Ok r ->
  (forall item, item ∈ items -> match pick item with Some (Err _) => False | _ => True end) /\
  forall id, r !! id = match picked pick items id with Some d => Some d | None => m !! id end.
Proof.
  revert m. induction items as [|x items IH]; intros m; simpl.
  - intros [= <-]. split; [by intros ? ?%elem_of_nil|done].
  - unfold pick_step at 1. unfold picked, contributions. simpl. destruct (pick x) as [[[id0 db]|err]|] eqn:Ex; simpl; [|done|].
    + intros [H1 H2]%IH. split; [intros item [->|Hi]%elem_of_cons; [by rewrite Ex|by apply H1]|]. intros id. rewrite H2. unfold picked, contributions. rewrite filter_cons. simpl.
      case_decide as Hid; [subst id0; rewrite last_cons; rewrite lookup_insert_eq; by destruct (list.last _)|].
      by rewrite lookup_insert_ne.
    + intros [H1 H2]%IH. split; [intros item [->|Hi]%elem_of_cons; [by rewrite Ex|by apply H1]|]. done.
Qed.

Lemma init_groups_lookup pick config keys m r : NoDup keys -> init_groups (fun g => pick_step (pick g)) config keys m = Ok r -> forall g,
  (g ∈ keys -> (forall item, item ∈ items_of (Config_GetConfig config (PKey g)) -> match pick g item with Some (Err _) => False | _ => True end) /\
     exists dbs, r !! g = Some dbs /\ forall id, dbs !! id = picked (pick g) (items_of (Config_GetConfig config (PKey g))) id) /\
  (g ∉ keys -> r !! g = m !! g).
Proof.
  revert m. induction keys as [|k keys IH]; intros m Hnd; simpl.
  - intros [= <-] g. split; [by intros ?%elem_of_nil|done].
  - apply list.NoDup_cons in Hnd as [Hk Hnd]. destruct (group_items _ _ ∅) as [dbs|] eqn:E; [|done]. simpl. intros H g.
    destruct (IH _ Hnd H g) as [H1 H2]. apply group_items_pick in E as [E1 E2]. split.
    + intros [->|Hg]%elem_of_cons; [|by apply H1]. rewrite (H2 Hk), lookup_insert_eq. split; [done|]. exists dbs. split; [done|]. intros id. rewrite E2, lookup_empty. by destruct (picked _ _ id).
    + intros Hg. rewrite H2 by set_solver. apply lookup_insert_ne. set_solver.
Qed.

Lemma init_groups_ext step1 step2 config keys m : (forall g x m, step1 g x m = step2 g x m) -> init_groups step1 config keys m = init_groups step2 config keys m.
Proof.
  intros H. revert m. induction keys as [|k keys IH]; intros m; [done|]. simpl.
  rewrite (group_items_ext (step1 k) (step2 k)) by apply H. destruct (group_items _ _ _); [apply IH|done].
Qed.

(** The last item of a name is the one that is found. *)
Lemma picked_last pick items id d : picked pick items id = Some d <->
  exists i item, items !! i = Some item /\ pick item = Some (Ok (id, d)) /\
    forall j item' d', (i < j)%nat -> items !! j = Some item' -> pick item' <> Some (Ok (id, d')).
Proof.
  unfold picked, contributions. induction items as [|x items IH] using rev_ind.
  - simpl. split; [done|]. by intros (i & item & H & _).
  - rewrite omap_app, list.filter_app. simpl. destruct (pick x) as [[[id0 db]|err]|] eqn:Ex; simpl.
    1: rewrite filter_cons, filter_nil; simpl; case_decide as Hid.
    1: { subst id0. rewrite last_snoc. simpl. split.
      - intros [= ->]. exists (length items), x. rewrite list_lookup_middle by done. split_and!; [done|done|]. intros j item' d' Hj Hl%lookup_lt_Some. rewrite length_app in Hl. simpl in Hl. lia.
      - intros (i & item & Hi & Hp & Hlast). apply lookup_app_Some in Hi as [Hi|[Hi Hx]].
        + apply lookup_lt_Some in Hi as Hlt. destruct (Hlast (length items) x db Hlt); [by rewrite list_lookup_middle|done].
        + apply list_lookup_singleton_Some in Hx as [_ <-]. congruence. }
    all: rewrite app_nil_r, IH; split; intros (i & item & Hi & Hp & Hlast); exists i, item.
    all: try (split_and!; [by apply lookup_app_l_Some|done|]; intros j item' d' Hj [Hl|[_ [_ <-]%list_lookup_singleton_Some]]%lookup_app_Some; [by eapply Hlast|congruence]).
    all: apply lookup_app_Some in Hi as [Hi|[_ [_ <-]%list_lookup_singleton_Some]]; [|congruence].
    all: split_and!; [done|done|]; intros j item' d' Hj Hl; eapply Hlast; [done|by apply lookup_app_l_Some].
Qed.
End Groups.

(** ** MySQL *)

(** src/components/gorm/component.go:27-39, mySqlConfig *)
Record mySqlConfig := mkMySql {
  my_Enable : bool; my_GroupID : str; my_ID : str; my_DbName : str; my_Host : str; my_UserName : str; my_Password : str;
  my_MaxIdleConnect : Z; my_MaxOpenConnect : Z; my_LogMode : bool; my_DSN : str }.

(** What a handle of gorm was made with. *)
Record gorm_db := mkGormDb { go_dsn : str; go_idle : Z; go_open : Z; go_lifetime : Z; go_debug : bool }.

(** [HashDb]: the identifier for the databases of a group. *)
Definition HashDb (D : Type) : Type := gmap str D -> str.

(** src/components/gorm/component.go:172-175, Component.GetDbMap *)
Definition GetDbMap {D} (groupID : str) (m : gmap str (gmap str D)) : option (gmap str D) := m !! groupID.

(** src/components/gorm/component.go:160-170, Component.GetHashDb *)
Definition GetHashDb {D} (groupID : str) (hashFn : HashDb D) (m : gmap str (gmap str D)) : option D :=
  match GetDbMap groupID m with None => None | Some dbGroup => dbGroup !! hashFn dbGroup end.

(** [order]: the groups as the map gives them. *)
(** src/components/gorm/component.go:149-158, Component.GetDb *)
Definition GetDb {D} (order : list str) (id : str) (m : gmap str (gmap str D)) : option D :=
  head (omap (fun g => dbs ← m !! g; dbs !! id) order).

(** src/components/gorm/component.go:17-17, dsn *)
Definition dsn : str := "%s:%s@(%s)/%s?charset=utf8&parseTime=True&loc=Local".

Section Gorm.
Context `{A : AnyLib}.

(** What [Sprintf] makes of a format that has other directives than [%s]. *)
Variable sprintf_other : str -> list str -> str.
(** The errors of [gorm.Open] and of [DB]. *)
Variables gorm_Open gorm_DB : str -> option str.

(** src/components/gorm/component.go:55-69, parseMysqlConfig *)
Definition parseMysqlConfig (groupID : str) (item : any) : mySqlConfig :=
  mkMySql (Config_GetBool item (PKey "enable") [true]) groupID (Config_GetString item (PKey "db_id") []) (Config_GetString item (PKey "db_name") [])
    (Config_GetString item (PKey "host") []) (Config_GetString item (PKey "user_name") []) (Config_GetString item (PKey "password") [])
    (Config_GetInt item (PKey "max_idle_connect") [4]) (Config_GetInt item (PKey "max_open_connect") [8]) (Config_GetBool item (PKey "log_mode") [true])
    (Config_GetString item (PKey "dsn") [EmptyString]).

(** src/components/gorm/component.go:177-183, mySqlConfig.GetDSN *)
Definition GetDSN (s : mySqlConfig) : str :=
  let format := if String.eqb (my_DSN s) EmptyString then dsn else my_DSN s in
  let args := [my_UserName s; my_Password s; my_Host s; my_DbName s] in
  default (sprintf_other format args) (Sprintf format args).

(** src/components/gorm/component.go:113-136, Component.createORM *)
Definition createORM (cfg : mySqlConfig) : res gorm_db :=
  match gorm_Open (GetDSN cfg) with
  | Some err => Err err
  | None => match gorm_DB (GetDSN cfg) with
            | Some err => Err err
            | None => Ok (mkGormDb (GetDSN cfg) (my_MaxIdleConnect cfg) (my_MaxOpenConnect cfg) (60 * ns_per_s) (my_LogMode cfg))
            end
  end.

(** src/components/gorm/component.go:97-104, Component.Init *)
Definition gorm_create (mysqlConfig : mySqlConfig) : res gorm_db :=
  if negb (my_Enable mysqlConfig) then Err (String.append "[dbName = " (String.append (my_DbName mysqlConfig) "] is disabled!"))
  else match createORM mysqlConfig with
       | Err err => Err (String.append "[dbName = " (String.append (my_DbName mysqlConfig) (String.append "] create orm fail. error = " err)))
       | Ok db => Ok db
       end.

(** src/components/gorm/component.go:89-108, Component.Init *)
Definition gorm_item (ids : list str) (groupID : str) (item : any) (m : gmap str gorm_db) : res (gmap str gorm_db) :=
  let mysqlConfig := parseMysqlConfig groupID item in
  for_listed ids (my_ID mysqlConfig) (gorm_create mysqlConfig) m.

(** A node without a list has no databases. *)
(** src/components/gorm/component.go:71-111, Component.Init *)
Definition gorm_Init (cfg : profile_cfg) (settings : any) (m : gmap str (gmap str gorm_db)) : res (gmap str (gmap str gorm_db)) :=
  let dbIDList := any_Get settings (PKey "db_id_list") in
  match any_LastError dbIDList with
  | Some _ => Ok m
  | None =>
      if any_Size dbIDList <? 1 then Ok m
      else match profile_GetConfig cfg (PKey "db") with
           | None => Err "nil pointer dereference"
           | Some dbConfig =>
               match any_LastError dbConfig with
               | Some _ => Err "`db` property not exists in profile file."
               | None => init_groups (gorm_item (listed dbIDList)) dbConfig (any_Keys dbConfig) m
               end
           end
  end.

Definition gorm_pick (ids : list str) (groupID : str) (item : any) : option (res (str * gorm_db)) :=
  let c := parseMysqlConfig groupID item in
  if bool_decide (my_ID c ∈ ids) then Some (db <-? gorm_create c ;; Ok (my_ID c, db)) else None.

Lemma gorm_item_pick ids g item m : gorm_item ids g item m = pick_step (gorm_pick ids g) item m.
Proof. unfold gorm_item, pick_step, gorm_pick. rewrite for_listed_spec. case_match; [by destruct (gorm_create _)|done]. Qed.

Lemma gorm_create_ok c db : gorm_create c = Ok db <-> my_Enable c = true /\ createORM c = Ok db.
Proof. unfold gorm_create. destruct (my_Enable c), (createORM c); naive_solver. Qed.

(** A start that does not panic has connected what the node's list names in the profile
    and nothing else: in a group of the profile an identifier leads to a database if and only
    if the list has it and an entry of the group has it, and then to the database of the last
    such entry, made with its settings; every entry that is named is enabled; every other
    group is as it was. *)
Theorem gorm_Init_spec (cfg : profile_cfg) (settings config : any) (m0 m : gmap str (gmap str gorm_db)) (groupID : str) :
  let ids := listed (any_Get settings (PKey "db_id_list")) in let entries g := map (parseMysqlConfig g) (items_of (Config_GetConfig config (PKey g))) in
  any_LastError (any_Get settings (PKey "db_id_list")) = None -> 1 <= any_Size (any_Get settings (PKey "db_id_list")) ->
  profile_GetConfig cfg (PKey "db") = Some config -> any_LastError config = None -> NoDup (any_Keys config) -> gorm_Init cfg settings m0 = Ok m ->
  (groupID ∉ any_Keys config -> GetDbMap groupID m = GetDbMap groupID m0) /\
  (groupID ∈ any_Keys config -> (forall c, c ∈ entries groupID -> my_ID c ∈ ids -> my_Enable c = true) /\
     forall id db, GetHashDb groupID (fun _ => id) m = Some db <-> id ∈ ids /\ exists i c, entries groupID !! i = Some c /\ my_ID c = id /\
       createORM c = Ok db /\ forall j c', (i < j)%nat -> entries groupID !! j = Some c' -> my_ID c' <> id).
Proof.
  intros ids entries He Hsz Hc Hce Hnd. unfold gorm_Init. rewrite He, (proj2 (Z.ltb_ge _ _)) by lia. rewrite Hc, Hce. fold ids.
  rewrite (init_groups_ext _ (fun g => pick_step (gorm_pick ids g))) by apply gorm_item_pick. intros H.
  destruct (init_groups_lookup _ _ _ _ _ Hnd H groupID) as [Hin Hout]. split; [exact Hout|]. intros Hg. destruct (Hin Hg) as (Hno & dbs & Hm & Hl). clear Hin Hout.
  unfold GetHashDb, GetDbMap. rewrite Hm. unfold entries. clear H Hm. set (items := items_of _) in *. split.
  - intros c (item & -> & Hi)%list_elem_of_fmap Hid. specialize (Hno _ Hi). unfold gorm_pick in Hno. rewrite bool_decide_true in Hno by done.
    destruct (gorm_create _) as [db|] eqn:E; [|done]. by apply gorm_create_ok in E as [? _].
  - intros id db. rewrite Hl, picked_last. unfold gorm_pick. split.
    + intros (i & item & Hi & Hp & Hlast). case_bool_decide as Hid; [|done]. destruct (gorm_create _) as [db'|] eqn:E; [|done]. injection Hp as <- <-.
      split; [done|]. exists i, (parseMysqlConfig groupID item). split_and!; [by rewrite list_lookup_fmap, Hi|done|by apply gorm_create_ok in E as [_ ?]|].
      intros j c' Hj Hc' Hsame. rewrite list_lookup_fmap_Some in Hc'. destruct Hc' as (item' & -> & Hi').
      specialize (Hno item' (list_elem_of_lookup_2 _ _ _ Hi')). specialize (Hlast j item'). unfold gorm_pick in Hno. rewrite Hsame, bool_decide_true in Hno by done.
      destruct (gorm_create (parseMysqlConfig groupID item')) as [d'|] eqn:E'; [|done]. apply (Hlast d' Hj Hi'). by rewrite Hsame, bool_decide_true.
    + intros (Hid & i & c & Hi & <- & Hdb & Hlast). rewrite list_lookup_fmap_Some in Hi. destruct Hi as (item & -> & Hi). exists i, item.
      pose proof (Hno item (list_elem_of_lookup_2 _ _ _ Hi)) as Hn. unfold gorm_pick in Hn. rewrite bool_decide_true in Hn |- * by done.
      destruct (gorm_create (parseMysqlConfig groupID item)) as [d'|] eqn:E; [|done]. apply gorm_create_ok in E as [_ E]. split_and!; [done|simpl; congruence|].
      intros j item' d2 Hj Hi' Hp. case_bool_decide; [|done]. destruct (gorm_create _); [|done]. injection Hp as Hp _.
      eapply (Hlast j (parseMysqlConfig groupID item')); [done| |exact Hp]. by rewrite list_lookup_fmap, Hi'.
Qed.
End Gorm.

(** ** MongoDB *)

(** What a handle of MongoDB was made with. *)
Record mongo_db := mkMongoDb { mo_uri : str; mo_name : str; mo_timeout : Z }.

Section Mongo.
Context `{A : AnyLib}.

(** The errors of [Validate], [Connect] and the two pings; the first one has a time limit. *)
Variables mongo_Validate mongo_Connect mongo_PingTODO : str -> option str.
Variable mongo_Ping : str -> Z -> option str.

(** src/components/mongo/component.go:102-106, CreateDatabase *)
Definition mongo_timeout (timeout : list Z) : Z :=
  match timeout with t :: _ => if 3 * ns_per_s <? t then t else 3 * ns_per_s | [] => 3 * ns_per_s end.

(** src/components/mongo/component.go:101-138, CreateDatabase *)
Definition CreateDatabase (uri dbName : str) (timeout : list Z) : res mongo_db :=
  match mongo_Validate uri, mongo_Connect uri, mongo_Ping uri (mongo_timeout timeout), mongo_PingTODO uri with
  | Some err, _, _, _ => Err err
  | _, Some err, _, _ => Err err
  | _, _, Some err, _ => Err err
  | _, _, _, Some err => Err err
  | _, _, _, _ => Ok (mkMongoDb uri dbName (mongo_timeout timeout))
  end.

(** The number of seconds is multiplied as a duration. *)
(** src/components/mongo/component.go:70-96, Component.Init *)
Definition mongo_item (ids : list str) (item : any) (m : gmap str mongo_db) : res (gmap str mongo_db) :=
  let enable := Config_GetBool item (PKey "enable") [true] in
  let id := Config_GetString item (PKey "db_id") [] in
  let dbName := Config_GetString item (PKey "db_name") [] in
  let uri := Config_GetString item (PKey "uri") [] in
  let timeout := wrapS 64 (Config_GetInt64 item (PKey "timeout") [3] * ns_per_s) in
  if negb enable then Ok m
  else for_listed ids id (match CreateDatabase uri dbName [timeout] with
                          | Ok db => Ok db
                          | Err err => Err (String.append "[dbName = " (String.append dbName (String.append "] create mongodb fail. error = " err)))
                          end) m.

(** src/components/mongo/component.go:52-99, Component.Init *)
Definition mongo_Init (cfg : profile_cfg) (settings : any) (m : gmap str (gmap str mongo_db)) : res (gmap str (gmap str mongo_db)) :=
  let mongoIDList := any_Get settings (PKey "mongo_id_list") in
  match any_LastError mongoIDList with
  | Some _ => Ok m
  | None =>
      if any_Size mongoIDList <? 1 then Ok m
      else match profile_GetConfig cfg (PKey "mongo") with
           | None => Err "nil pointer dereference"
           | Some mongoConfig =>
               match any_LastError mongoConfig with
               | Some _ => Err "`mongo` property not exists in profile file."
               | None => init_groups (fun _ => mongo_item (listed mongoIDList)) mongoConfig (any_Keys mongoConfig) m
               end
           end
  end.

(** src/components/mongo/component.go:163-166, Component.GetDbMap *)
Definition mongo_GetDbMap (groupID : str) (m : gmap str (gmap str mongo_db)) : option (gmap str mongo_db) := m !! groupID.
(** src/components/mongo/component.go:151-161, Component.GetHashDb *)
Definition mongo_GetHashDb (groupID : str) (hashFn : HashDb mongo_db) (m : gmap str (gmap str mongo_db)) : option mongo_db :=
  match mongo_GetDbMap groupID m with None => None | Some dbGroup => dbGroup !! hashFn dbGroup end.
(** src/components/mongo/component.go:140-149, Component.GetDb *)
Definition mongo_GetDb (order : list str) (id : str) (m : gmap str (gmap str mongo_db)) : option mongo_db :=
  head (omap (fun g => dbs ← m !! g; dbs !! id) order).

(** The wait for the first answer is three seconds at least, whatever is set. *)
Lemma mongo_timeout_floor timeout : 3 * ns_per_s <= mongo_timeout timeout /\
  (forall t, head timeout = Some t -> 3 * ns_per_s <= t -> mongo_timeout timeout = t).
Proof.
  unfold mongo_timeout. destruct timeout as [|t rest]; [split; [lia|done]|]. split.
  - destruct (Z.ltb_spec (3 * ns_per_s) t); lia.
  - intros t' [= ->] Ht. destruct (Z.ltb_spec (3 * ns_per_s) t'); lia.
Qed.

(** A disabled entry is left out, also when the node's list names it. *)
Lemma mongo_disabled ids item m : Config_GetBool item (PKey "enable") [true] = false -> mongo_item ids item m = Ok m.
Proof. intros H. unfold mongo_item. by rewrite H. Qed.
End Mongo.

(** ** Redis *)

(** src/components/redis/component.go:24-32, redisConfig *)
Record redisConfig := mkRedisConfig {
  re_address : str; re_password : str; re_db : Z; re_prefix_key : str; re_subscribe_key : str; re_pool_size : Z; re_min_idle : Z }.

(** [rdb]: what the client was made with, and whether it is closed. *)
(** src/components/redis/component.go:18-22, Component *)
Record redis_component := mkRedisComponent { rec_config : redisConfig; rec_rdb : option (redisConfig * bool) }.

Section RedisComponent.
Context `{A : AnyLib}.

(** [Unmarshal] into the settings: what is there is kept where the text has no value; an
    error can leave a part of them. *)
Variable redis_unmarshal : str -> redisConfig -> redisConfig * bool.

(** A profile that is not loaded panics. *)
(** src/components/redis/component.go:57-76, Component.Init *)
Definition redis_Init (cfg : profile_cfg) (s : redis_component) : option redis_component :=
  data ← profile_GetConfig cfg (PKey "data_config");
  let dataConfig := Config_GetConfig data (PKey "redis") in
  Some (match any_LastError dataConfig with
        | Some _ => s
        | None => let '(c, ok) := redis_unmarshal (any_ToString dataConfig) (rec_config s) in
                  mkRedisComponent c (if ok then Some (c, false) else rec_rdb s)
        end).

(** src/components/redis/component.go:81-85, Component.OnStop *)
Definition redis_OnStop (s : redis_component) : redis_component :=
  mkRedisComponent (rec_config s) (match rec_rdb s with Some (c, _) => Some (c, true) | None => None end).
End RedisComponent.

Definition zero_redisConfig : redisConfig := mkRedisConfig EmptyString EmptyString 0 EmptyString EmptyString 0 0.

(** The component of the process, made once. *)
(** src/components/redis/component.go:46-51, NewComponent *)
Definition redis_NewComponent (instance : option redis_component) : redis_component :=
  default (mkRedisComponent zero_redisConfig None) instance.
(** src/components/redis/component.go:38-44, Instance *)
Definition redis_Instance (instance : option redis_component) : option (redisConfig * bool) := s ← instance; rec_rdb s.

(** ** Examples *)

Definition demo_db (id : str) (enable : bool) (extra : gmap str jval) : jval :=
  JObj (extra ∪ {[ "db_id"%string := JStr id; "enable"%string := JBool enable; "db_name"%string := JStr id; "host"%string := JStr "h";
                   "user_name"%string := JStr "u"; "password"%string := JStr "p" ]}).
Definition demo_db_groups : gmap str jval :=
  {[ "game"%string := JArr [demo_db "game_1" true ∅; demo_db "game_2" true ∅; demo_db "off" false ∅];
     "center"%string := JArr [demo_db "center_1" true {["dsn"%string := JStr "u:p@(h)/center_1"]}] ]}.
Definition demo_db_cfg : profile_cfg :=
  mkCfg "/srv" "app.json" (Some (any_Wrap (JObj {["db"%string := JObj demo_db_groups; "mongo"%string := JObj demo_db_groups]}))) "dev" true "error" "1" "5" "1.1.5.1" "1" "log" "conf" 0 0 "game".
Definition demo_settings (ids : list str) : any :=
  any_Wrap (JObj {["db_id_list"%string := JObj (list_to_map (map (fun id => (id, JStr id)) ids)); "mongo_id_list"%string := JObj (list_to_map (map (fun id => (id, JStr id)) ids))]}).
Definition no_error : str -> option str := fun _ => None.
Definition demo_gorm (ids : list str) : res (gmap str (gmap str gorm_db)) :=
  gorm_Init (fun _ _ => EmptyString) no_error no_error demo_db_cfg (demo_settings ids) ∅.

Lemma gorm_Init_spec_witness : exists m db, demo_gorm ["game_2"%string] = Ok m /\
  GetHashDb "game" (fun _ => "game_2"%string) m = Some db /\ go_dsn db = "u:p@(h)/game_2?charset=utf8&parseTime=True&loc=Local" /\
  GetHashDb "game" (fun _ => "game_1"%string) m = None.
Proof.
  assert (is_ok (demo_gorm ["game_2"%string]) = true) as Hok by (by vm_compute). destruct (demo_gorm ["game_2"%string]) as [m|] eqn:E; [|discriminate Hok].
  unfold demo_gorm in E.
  assert (NoDup (any_Keys (any_Wrap (JObj demo_db_groups)))) as Hnd by (apply (bool_decide_unpack _); by vm_compute).
  assert ("game"%string ∈ any_Keys (any_Wrap (JObj demo_db_groups))) as Hg by (apply (bool_decide_unpack _); by vm_compute).
  assert (1 <= any_Size (any_Get (demo_settings ["game_2"%string]) (PKey "db_id_list"))) as Hs by (by vm_compute).
  destruct (gorm_Init_spec (fun _ _ => EmptyString) no_error no_error demo_db_cfg (demo_settings ["game_2"%string]) (any_Wrap (JObj demo_db_groups)) ∅ m "game"
    eq_refl Hs eq_refl eq_refl Hnd E) as [_ H]. destruct (H Hg) as [_ Hi]. clear H.
  set (c := parseMysqlConfig "game" (any_Wrap (demo_db "game_2" true ∅))).
  destruct (createORM (fun _ _ => EmptyString) no_error no_error c) as [db|] eqn:Ec; [|discriminate Ec]. exists m, db. split; [reflexivity|]. split; [|split].
  - apply Hi. split; [apply (bool_decide_unpack _); by vm_compute|]. exists 1%nat, c. split; [reflexivity|]. split; [reflexivity|]. split; [exact Ec|].
    intros [|[|[|j]]] c' Hj Hc'; [lia|lia| |discriminate Hc']. injection Hc' as <-. discriminate.
  - injection Ec as <-. reflexivity.
  - destruct (GetHashDb "game" (fun _ => "game_1"%string) m) as [d|] eqn:Eh; [|reflexivity]. apply Hi in Eh as [Hin _].
    exfalso. revert Hin. apply (bool_decide_unpack _). by vm_compute.
Defined.

(** ** What they do that they do not mean to do *)

(** A complete DSN has no place for the user and the others, which are put behind it. *)
Lemma full_dsn_garbled : GetDSN (fun _ _ => EmptyString) (parseMysqlConfig "center" (any_Wrap (demo_db "center_1" true {["dsn"%string := JStr "u:p@(h)/center_1"]}))) =
  "u:p@(h)/center_1%!(EXTRA string=u, string=p, string=h, string=center_1)".
Proof. by vm_compute. Qed.

(** A disabled entry that the list names ends the start of MySQL, and is left out by that of
    MongoDB. *)
Lemma disabled_panics_or_skips : demo_gorm ["off"%string] = Err "[dbName = off] is disabled!" /\
  is_ok (mongo_Init no_error no_error no_error (fun _ _ => None) demo_db_cfg (demo_settings ["off"%string]) ∅) = true.
Proof. by vm_compute. Qed.
