(* ===== verification/Gob.v ===== *)
(** The gob codec with its pooled buffers (src/extend/gob/gob.go), on a heap of arrays.

    [Encode] gives out a slice of the array of a buffer that it has put back into the pool:
    what the slice holds depends on who takes the buffer next. The encoding itself is the
    library's ([GobLib]). *)
From S2P Require Import Prelude Strconv Facade.

(** A value is encoded by some writes to the buffer, or not; a decoder reads one value of a
    type after another. *)
Class GobLib := {
  gob_value : Type; gob_type : Type; gob_encoder : Type; gob_decoder : Type;
  gob_new : gob_encoder;
  gob_encode : gob_encoder -> gob_value -> gob_encoder * list bytes * option str;
  gob_open : bytes -> gob_decoder;
  gob_decode : gob_decoder -> gob_type -> res (gob_value * gob_decoder) }.

Section Gob.
Context `{G : GobLib}.

(** The capacity that [bytes.Buffer] takes beyond what it needs, for its length and that of
    what is written. *)
Variable spare : nat -> nat -> nat.

(** The arrays, the next one, and the buffers of the pool, which are empty: their arrays. *)
(** src/extend/gob/gob.go:10-16, bufferPool *)
Record gob_state := mkGob { gs_heap : gmap nat bytes; gs_next : nat; gs_pool : list (option nat) }.

(** A buffer outside the pool: its array and its length. *)
Record buffer := mkBuffer { bf_arr : option nat; bf_len : nat }.

Definition arr_of (a : option nat) (h : gmap nat bytes) : bytes := match a with Some a => default [] (h !! a) | None => [] end.

(** [Write]: in place when there is room, into a new array otherwise. *)
Definition buf_write (p : bytes) (b : buffer) (s : gob_state) : buffer * gob_state :=
  let arr := arr_of (bf_arr b) (gs_heap s) in
  let n := bf_len b in
  match bf_arr b with
  | Some a =>
      if (n + length p <=? length arr)%nat
      then (mkBuffer (Some a) (n + length p), mkGob (<[a := take n arr ++ p ++ drop (n + length p) arr]> (gs_heap s)) (gs_next s) (gs_pool s))
      else (mkBuffer (Some (gs_next s)) (n + length p),
            mkGob (<[gs_next s := take n arr ++ p ++ replicate (spare n (length p)) x00]> (gs_heap s)) (S (gs_next s)) (gs_pool s))
  | None =>
      if (length p =? 0)%nat then (b, s)
      else (mkBuffer (Some (gs_next s)) (length p), mkGob (<[gs_next s := p ++ replicate (spare 0 (length p)) x00]> (gs_heap s)) (S (gs_next s)) (gs_pool s))
  end.

Fixpoint buf_writes (ps : list bytes) (b : buffer) (s : gob_state) : buffer * gob_state :=
  match ps with [] => (b, s) | p :: ps => let '(b, s) := buf_write p b s in buf_writes ps b s end.

(** [choice]: which buffer the pool gives; a new one when there is none of that number. *)
(** src/extend/gob/gob.go:18-24, getBuffer *)
Definition getBuffer (choice : nat) (data : option bytes) (s : gob_state) : buffer * gob_state :=
  let b := mkBuffer (default None (gs_pool s !! choice)) 0 in
  let s := mkGob (gs_heap s) (gs_next s) (delete choice (gs_pool s)) in
  match data with Some data => buf_write data b s | None => (b, s) end.

(** src/extend/gob/gob.go:26-31, putBuffer *)
Definition putBuffer (b : buffer) (s : gob_state) : gob_state := mkGob (gs_heap s) (gs_next s) (bf_arr b :: gs_pool s).

(** src/extend/gob/gob.go:40-48, Decode *)
Fixpoint decode_all (d : gob_decoder) (params : list gob_type) : res (list gob_value) :=
  match params with
  | [] => Ok []
  | t :: params => x <-? gob_decode d t ;; vs <-? decode_all x.2 params ;; Ok (x.1 :: vs)
  end.

(** src/extend/gob/gob.go:33-51, Decode *)
Definition gob_Decode (choice : nat) (data : bytes) (params : list gob_type) (s : gob_state) : gob_state * res (list gob_value) :=
  let '(b, s) := getBuffer choice (Some data) s in
  (putBuffer b s, decode_all (gob_open (take (bf_len b) (arr_of (bf_arr b) (gs_heap s)))) params).

(** The types of a function's parameters; none is no values and no error. *)
(** src/extend/gob/gob.go:53-76, DecodeFunc *)
Definition DecodeFunc (choice : nat) (data : bytes) (paramsType : list gob_type) (s : gob_state) : gob_state * res (list gob_value) :=
  match paramsType with [] => (s, Ok []) | _ => gob_Decode choice data paramsType s end.

(** src/extend/gob/gob.go:84-90, Encode *)
Fixpoint encode_all (e : gob_encoder) (values : list gob_value) (b : buffer) (s : gob_state) : buffer * gob_state * option str :=
  match values with
  | [] => (b, s, None)
  | v :: values =>
      let '(e, ps, err) := gob_encode e v in
      let '(b, s) := buf_writes ps b s in
      match err with Some err => (b, s, Some err) | None => encode_all e values b s end
  end.

(** The slice that is given out: an array and a length. *)
Record slice := mkSlice { sl_arr : option nat; sl_len : nat }.

Definition read (sl : slice) (s : gob_state) : bytes := take (sl_len sl) (arr_of (sl_arr sl) (gs_heap s)).

(** The buffer is put back before the caller has the slice. *)
(** src/extend/gob/gob.go:78-94, Encode *)
Definition gob_Encode (choice : nat) (values : list gob_value) (s : gob_state) : gob_state * res slice :=
  let '(b, s) := getBuffer choice None s in
  let '(b, s, err) := encode_all gob_new values b s in
  (putBuffer b s, match err with Some err => Err err | None => Ok (mkSlice (bf_arr b) (bf_len b)) end).

(** ** What the slice holds *)

(** All that is written for some values. *)
Fixpoint gob_text (e : gob_encoder) (values : list gob_value) : bytes :=
  match values with [] => [] | v :: values => let '(e, ps, _) := gob_encode e v in mjoin ps ++ gob_text e values end.

Inductive gob_action := GEncode (choice : nat) (values : list gob_value) | GDecode (choice : nat) (data : bytes) (params : list gob_type).

Definition act_choice (a : gob_action) : nat := match a with GEncode c _ => c | GDecode c _ _ => c end.

Definition exec_gob (a : gob_action) (s : gob_state) : gob_state :=
  match a with GEncode c vs => (gob_Encode c vs s).1 | GDecode c data params => (gob_Decode c data params s).1 end.

(** Runs in which nobody takes a buffer with this array. *)
Inductive gob_spares (arr : option nat) : gob_state -> gob_state -> Prop :=
| gp_stop s : gob_spares arr s s
| gp_step s a s' : default None (gs_pool s !! act_choice a) <> arr -> gob_spares arr (exec_gob a s) s' -> gob_spares arr s s'.

Definition gob_ok (s : gob_state) : Prop := forall a, is_Some (gs_heap s !! a) -> (a < gs_next s)%nat.

(** A buffer holds its text in an array that is there. *)
Definition holds (b : buffer) (text : bytes) (s : gob_state) : Prop :=
  take (bf_len b) (arr_of (bf_arr b) (gs_heap s)) = text /\ length text = bf_len b /\ match bf_arr b with Some a => (a < gs_next s)%nat | None => True end.

Lemma gob_ok_insert s a v n pool : gob_ok s -> (a < n)%nat -> (gs_next s <= n)%nat -> gob_ok (mkGob (<[a := v]> (gs_heap s)) n pool).
Proof.
  intros H Ha Hn x [v' Hx]. simpl in *. apply lookup_insert_Some in Hx as [[<- _]|[_ Hx]]; [done|].
  pose proof (H x ltac:(by eexists)). lia.
Qed.

Lemma buf_write_holds p b s text b' s' : buf_write p b s = (b', s') -> gob_ok s -> holds b text s ->
  gob_ok s' /\ holds b' (text ++ p) s' /\ gs_pool s' = gs_pool s /\ (bf_arr b' = bf_arr b \/ bf_arr b' = Some (gs_next s) /\ gs_next s' = S (gs_next s)) /\ (gs_next s <= gs_next s')%nat /\
  forall a, (a < gs_next s)%nat -> Some a <> bf_arr b -> gs_heap s' !! a = gs_heap s !! a.
Proof.
  unfold buf_write, holds. intros H Hok (Ht & Hl & Ha). destruct b as [[a|] n]; simpl in *.
  - destruct (Nat.leb_spec (n + length p) (length (default [] (gs_heap s !! a)))) as [Hle|Hgt]; injection H as <- <-; simpl.
    + rewrite lookup_insert_eq. simpl. split_and!; try done; try lia; try by left.
      * by apply gob_ok_insert.
      * rewrite take_app_add' by (rewrite length_take; lia). by rewrite Ht, take_app_length.
      * rewrite length_app. lia.
      * intros x _ Hx. rewrite lookup_insert_ne by congruence. done.
    + rewrite lookup_insert_eq. simpl. split_and!; try done; try lia; try by right.
      * apply gob_ok_insert; [done|lia..].
      * rewrite Ht, app_assoc, take_app_length'; [done|]. rewrite length_app. lia.
      * rewrite length_app. lia.
      * intros x Hx _. rewrite lookup_insert_ne by lia. done.
  - rewrite take_nil in Ht. subst text. simpl in *. destruct (Nat.eqb_spec (length p) 0) as [Hp|_]; injection H as <- <-; simpl.
    { apply nil_length_inv in Hp as ->. rewrite take_nil. split_and!; try done; by left. } rewrite lookup_insert_eq. simpl. split_and!; try done; try lia; try by right.
    + apply gob_ok_insert; [done|lia..].
    + by rewrite take_app_length.
    + intros x Hx _. rewrite lookup_insert_ne by lia. done.
Qed.

(** What writing to a buffer leaves alone: the pool, and every array but the buffer's. *)
Record buf_ext (b : buffer) (s : gob_state) (b' : buffer) (s' : gob_state) : Prop := {
  be_ok : gob_ok s';
  be_pool : gs_pool s' = gs_pool s;
  be_next : (gs_next s <= gs_next s')%nat;
  be_arr : bf_arr b' = bf_arr b \/ exists a, bf_arr b' = Some a /\ (gs_next s <= a < gs_next s')%nat;
  be_frame : forall a, (a < gs_next s)%nat -> Some a <> bf_arr b -> gs_heap s' !! a = gs_heap s !! a }.

Lemma buf_ext_refl b s : gob_ok s -> buf_ext b s b s.
Proof. split; try done. by left. Qed.

Lemma buf_ext_trans b1 s1 b2 s2 b3 s3 : buf_ext b1 s1 b2 s2 -> buf_ext b2 s2 b3 s3 -> buf_ext b1 s1 b3 s3.
Proof.
  intros [H1 H2 H3 H4 H5] [K1 K2 K3 K4 K5]. split; [done|congruence|lia| |].
  - destruct K4 as [->|(a & -> & Ha)]; [|right; exists a; split; [done|lia]].
    destruct H4 as [->|(a & -> & Ha)]; [by left|right; exists a; split; [done|lia]].
  - intros a Ha Hne. rewrite K5, H5; [done..|lia|]. destruct H4 as [->|(x & -> & Hx)]; [done|]. intros [= ->]. lia.
Qed.

Lemma buf_writes_holds ps b s text b' s' : buf_writes ps b s = (b', s') -> gob_ok s -> holds b text s ->
  buf_ext b s b' s' /\ holds b' (text ++ mjoin ps) s'.
Proof.
  revert b s text. induction ps as [|p ps IH]; intros b s text; simpl.
  - intros [= <- <-] Hok Hh. rewrite app_nil_r. split; [by apply buf_ext_refl|done].
  - destruct (buf_write p b s) as [b1 s1] eqn:E. intros H Hok Hh. destruct (buf_write_holds _ _ _ _ _ _ E Hok Hh) as (H1 & H2 & H3 & H4 & H5 & H6).
    destruct (IH _ _ _ H H1 H2) as [K1 K2]. rewrite <- app_assoc in K2. split; [|done]. eapply buf_ext_trans; [|exact K1].
    split; try done. destruct H4 as [->|[-> ->]]; [by left|right; eexists; split; [done|lia]].
Qed.

Lemma encode_all_holds values e b s text b' s' err : encode_all e values b s = (b', s', err) -> gob_ok s -> holds b text s ->
  buf_ext b s b' s' /\ (err = None -> holds b' (text ++ gob_text e values) s').
Proof.
  revert e b s text. induction values as [|v values IH]; intros e b s text; simpl.
  - intros [= <- <- <-] Hok Hh. rewrite app_nil_r. split; [by apply buf_ext_refl|done].
  - destruct (gob_encode e v) as [[e1 ps] [er|]]; destruct (buf_writes ps b s) as [b1 s1] eqn:E; intros H Hok Hh;
      destruct (buf_writes_holds _ _ _ _ _ _ E Hok Hh) as [H1 H2].
    + by injection H as <- <- <-.
    + destruct (IH _ _ _ _ H (be_ok _ _ _ _ H1) H2) as [K1 K2]. split; [by eapply buf_ext_trans|]. intros He. rewrite app_assoc. by apply K2.
Qed.

Definition pool_ok (s : gob_state) : Prop := forall a, Some a ∈ gs_pool s -> (a < gs_next s)%nat.

Lemma pool_choice s choice a : pool_ok s -> default None (gs_pool s !! choice) = Some a -> (a < gs_next s)%nat.
Proof. intros Hp H. destruct (gs_pool s !! choice) as [x|] eqn:E; [|done]. simpl in H. subst x. apply Hp. by eapply list_elem_of_lookup_2. Qed.

Lemma empty_holds choice s : pool_ok s -> holds (mkBuffer (default None (gs_pool s !! choice)) 0) [] (mkGob (gs_heap s) (gs_next s) (delete choice (gs_pool s))).
Proof. intros Hp. unfold holds. simpl. split_and!; [done|done|]. destruct (default None _) as [a|] eqn:E; [by eapply pool_choice|done]. Qed.

(** Taking a buffer, writing to it and putting it back. *)
Lemma round_ok choice s b' s' : gob_ok s -> pool_ok s ->
  buf_ext (mkBuffer (default None (gs_pool s !! choice)) 0) (mkGob (gs_heap s) (gs_next s) (delete choice (gs_pool s))) b' s' ->
  gob_ok (putBuffer b' s') /\ pool_ok (putBuffer b' s') /\
  forall a, (a < gs_next s)%nat -> Some a <> default None (gs_pool s !! choice) -> gs_heap (putBuffer b' s') !! a = gs_heap s !! a.
Proof.
  intros Hok Hp [H1 H2 H3 H4 H5]. simpl in *. split_and!; [done| |done]. intros a Ha. simpl in *. apply elem_of_cons in Ha as [Ha|Ha].
  - destruct H4 as [Hb|(x & Hb & Hx)]; rewrite Hb in Ha; [|injection Ha as ->; lia]. symmetry in Ha. pose proof (pool_choice _ _ _ Hp Ha). lia.
  - rewrite H2 in Ha. pose proof (Hp a (elem_of_sublist _ _ _ Ha (sublist_delete _ _))). lia.
Qed.

Lemma Encode_ok choice values s s' r : gob_Encode choice values s = (s', r) -> gob_ok s -> pool_ok s ->
  gob_ok s' /\ pool_ok s' /\
  (forall a, (a < gs_next s)%nat -> Some a <> default None (gs_pool s !! choice) -> gs_heap s' !! a = gs_heap s !! a) /\
  (gs_next s <= gs_next s')%nat /\
  forall sl, r = Ok sl -> read sl s' = gob_text gob_new values /\ match sl_arr sl with Some a => (a < gs_next s')%nat | None => True end.
Proof.
  unfold gob_Encode, getBuffer. destruct (encode_all _ _ _ _) as [[b1 s1] err] eqn:E. intros [= <- <-] Hok Hp.
  pose proof (empty_holds choice s Hp) as He. destruct (encode_all_holds _ _ _ _ _ _ _ _ E Hok He) as [H1 H2].
  destruct (round_ok _ _ _ _ Hok Hp H1) as (K1 & K2 & K3). split_and!; [done|done|done|apply H1|].
  intros sl Hsl. destruct err; [done|]. injection Hsl as <-. destruct (H2 eq_refl) as (L1 & _ & L3). done.
Qed.

Lemma Decode_ok choice data params s s' r : gob_Decode choice data params s = (s', r) -> gob_ok s -> pool_ok s ->
  gob_ok s' /\ pool_ok s' /\
  (forall a, (a < gs_next s)%nat -> Some a <> default None (gs_pool s !! choice) -> gs_heap s' !! a = gs_heap s !! a) /\
  (gs_next s <= gs_next s')%nat /\ r = decode_all (gob_open data) params.
Proof.
  unfold gob_Decode, getBuffer. destruct (buf_write data _ _) as [b1 s1] eqn:E. intros [= <- <-] Hok Hp.
  pose proof (empty_holds choice s Hp) as He. destruct (buf_writes_holds [data] _ _ [] b1 s1 ltac:(by simpl; rewrite E) Hok He) as [H1 H2].
  destruct (round_ok _ _ _ _ Hok Hp H1) as (K1 & K2 & K3). split_and!; [done|done|done|apply H1|].
  destruct H2 as [H2 _]. rewrite H2. simpl. by rewrite app_nil_r.
Qed.

Lemma exec_gob_ok a s : gob_ok s -> pool_ok s -> gob_ok (exec_gob a s) /\ pool_ok (exec_gob a s) /\ (gs_next s <= gs_next (exec_gob a s))%nat /\
  forall x, (x < gs_next s)%nat -> Some x <> default None (gs_pool s !! act_choice a) -> gs_heap (exec_gob a s) !! x = gs_heap s !! x.
Proof.
  intros Hok Hp. destruct a as [c vs|c data params]; simpl.
  - destruct (gob_Encode c vs s) as [s' r] eqn:E. destruct (Encode_ok _ _ _ _ _ E Hok Hp) as (H1 & H2 & H3 & H4 & _). by split_and!.
  - destruct (gob_Decode c data params s) as [s' r] eqn:E. destruct (Decode_ok _ _ _ _ _ _ E Hok Hp) as (H1 & H2 & H3 & H4 & _). by split_and!.
Qed.

Definition gob_start : gob_state := mkGob ∅ 0 [].
Definition run_gob (acts : list gob_action) : gob_state := foldl (fun s a => exec_gob a s) gob_start acts.

Lemma run_gob_ok acts : gob_ok (run_gob acts) /\ pool_ok (run_gob acts).
Proof.
  induction acts as [|a acts IH] using rev_ind.
  - split; [intros a [x Hx]; simpl in Hx; by rewrite lookup_empty in Hx|by intros a Ha%elem_of_nil].
  - unfold run_gob. rewrite foldl_snoc. destruct IH as [H1 H2]. by destruct (exec_gob_ok a _ H1 H2) as (? & ? & _).
Qed.

Lemma spared_read arr len s s' : gob_spares arr s s' -> gob_ok s -> pool_ok s -> match arr with Some a => (a < gs_next s)%nat | None => True end ->
  read (mkSlice arr len) s' = read (mkSlice arr len) s /\ gob_ok s' /\ pool_ok s'.
Proof.
  induction 1 as [s|s a s' Hne _ IH]; intros Hok Hp Ha; [done|]. destruct (exec_gob_ok a s Hok Hp) as (H1 & H2 & H3 & H4).
  destruct IH as (K1 & K2 & K3); [done|done|destruct arr; [lia|done]|]. split_and!; [|done|done]. rewrite K1. unfold read. simpl.
  destruct arr as [x|]; [|done]. simpl. by rewrite H4 by congruence.
Qed.

(** The types of values, which a decoder is given: it reads back what was encoded. *)
Class GobLaws := {
  gob_type_of : gob_value -> gob_type;
  gob_round : forall vs, decode_all (gob_open (gob_text gob_new vs)) (map gob_type_of vs) = Ok vs }.

(** C31: What Encode gives out is the encoding of the values, and decoding it gives them back
    in any use of the codec before and after, as long as nobody takes the buffer that it was
    made in; that buffer is in the pool. *)
Theorem encoded_until_reused {L : GobLaws} (before : list gob_action) (c c' : nat) (vs : list gob_value) (sl : slice) (s1 s2 : gob_state) :
  gob_Encode c vs (run_gob before) = (s1, Ok sl) -> gob_spares (sl_arr sl) s1 s2 ->
  read sl s2 = gob_text gob_new vs /\ (gob_Decode c' (read sl s2) (map gob_type_of vs) s2).2 = Ok vs /\ sl_arr sl ∈ gs_pool s1.
Proof.
  intros E Hs. destruct (run_gob_ok before) as [Hok Hp]. destruct (Encode_ok _ _ _ _ _ E Hok Hp) as (H1 & H2 & _ & _ & H3).
  destruct (H3 sl eq_refl) as [Hr Ha]. destruct sl as [arr len]. simpl in *. destruct (spared_read arr len _ _ Hs H1 H2 Ha) as (K1 & K2 & K3).
  rewrite K1, Hr. split_and!; [done| |].
  - destruct (gob_Decode c' _ _ s2) as [s3 r] eqn:Ed. destruct (Decode_ok _ _ _ _ _ _ Ed K2 K3) as (_ & _ & _ & _ & ->). apply gob_round.
  - unfold gob_Encode in E. destruct (getBuffer c None (run_gob before)) as [b s]. destruct (encode_all _ _ _ _) as [[b1 s'] [err|]]; [done|].
    injection E as <- <- _. by left.
Qed.
End Gob.

(** ** Examples *)

(** A value is a byte and is encoded as one; there is one type. *)
#[export] Instance byte_gob : GobLib := {|
  gob_value := Byte.byte; gob_type := unit; gob_encoder := unit; gob_decoder := bytes;
  gob_new := tt;
  gob_encode e v := (e, [[v]], None);
  gob_open data := data;
  gob_decode d t := match d with b :: d => Ok (b, d) | [] => Err "EOF" end |}.

#[export] Instance byte_gob_laws : GobLaws.
Proof. refine {| gob_type_of := fun v : gob_value => tt : gob_type |}. intros vs. induction vs as [|v vs IH]; [done|]. simpl in *. by rewrite IH. Defined.

Definition demo_spare (n m : nat) : nat := 8.

(** Another buffer is in use at the same time: the slice is not touched. *)
Lemma encoded_until_reused_witness : exists s1 sl, gob_Encode demo_spare 0 [x01; x02] (run_gob demo_spare [GDecode 0 [x07] []; GDecode 5 [x08] []]) = (s1, Ok sl) /\
  read sl (exec_gob demo_spare (GEncode 1 [x03]) s1) = [x01; x02].
Proof.
  eexists _, _. split; [by vm_compute|].
  refine (proj1 (encoded_until_reused demo_spare [GDecode 0 [x07] []; GDecode 5 [x08] []] 0 0 [x01; x02] _ _ _ _ _)); [by vm_compute|].
  eapply gp_step; [|apply gp_stop]. vm_compute. discriminate.
Defined.

(** ** What it does that it does not mean to do *)

(** The next encoding takes the buffer from the pool and writes over what the first caller
    was given. *)
Lemma encode_overwritten : let '(s1, r1) := gob_Encode demo_spare 0 [x01; x02] gob_start in let '(s2, r2) := gob_Encode demo_spare 0 [x09] s1 in
  match r1, r2 with
  | Ok first, Ok second => read first s1 = [x01; x02] /\ read first s2 = [x09; x02] /\ read second s2 = [x09]
  | _, _ => False
  end.
Proof. by vm_compute. Qed.
