(* ===== verification/HttpClient.v ===== *)
(** The HTTP client helpers and the addresses (src/extend/http/client.go,
    src/extend/net/net.go).

    The query of a URL is written and read as [net/url] does; the exchange with the server is
    an argument. *)
From stdpp Require Import sorting.
From S2P Require Import Prelude Strconv Files FileSys.
#[local] Open Scope Z_scope.

(** ** Escaping *)

Definition hex_upper (n : nat) : ascii := ascii_of_nat (if (n <? 10)%nat then 48 + n else 55 + n).
Definition unhex (c : ascii) : option nat :=
  let n := nat_of_ascii c in
  if ((48 <=? n) && (n <=? 57))%nat then Some (n - 48)%nat
  else if ((65 <=? n) && (n <=? 70))%nat then Some (n - 55)%nat
  else if ((97 <=? n) && (n <=? 102))%nat then Some (n - 87)%nat
  else None.

(** Letters, digits and four signs stay. *)
Definition unreserved (c : ascii) : bool :=
  let n := nat_of_ascii c in
  (((48 <=? n) && (n <=? 57)) || ((65 <=? n) && (n <=? 90)) || ((97 <=? n) && (n <=? 122)))%nat ||
  Ascii.eqb c "-" || Ascii.eqb c "_" || Ascii.eqb c "." || Ascii.eqb c "~".

Definition escape_char (c : ascii) : str :=
  if unreserved c then String c EmptyString
  else if Ascii.eqb c " " then "+"
  else String "%" (String (hex_upper (nat_of_ascii c / 16)) (String (hex_upper (nat_of_ascii c mod 16)) EmptyString)).

(** [url.QueryEscape] and [url.QueryUnescape]. *)
Fixpoint QueryEscape (s : str) : str := match s with EmptyString => EmptyString | String c s => String.append (escape_char c) (QueryEscape s) end.
Fixpoint QueryUnescape (s : str) : option str :=
  match s with
  | EmptyString => Some EmptyString
  | String c rest =>
      if Ascii.eqb c "%" then
        match rest with
        | String h (String l rest) =>
            match unhex h, unhex l with
            | Some h, Some l => String (ascii_of_nat (16 * h + l)) <$> QueryUnescape rest
            | _, _ => None
            end
        | _ => None
        end
      else if Ascii.eqb c "+" then String " " <$> QueryUnescape rest
      else String c <$> QueryUnescape rest
  end.

(** ** Queries *)

(** [strings.Cut]: what is before the first [c], and what is behind it if it is there. *)
Fixpoint cut_char (c : ascii) (s : str) : str * option str :=
  match s with
  | EmptyString => (EmptyString, None)
  | String a s => if Ascii.eqb a c then (EmptyString, Some s) else let '(x, y) := cut_char c s in (String a x, y)
  end.

(** The parameters that [url.ParseQuery] finds, in order; parts it cannot read are left out. *)
Definition query_pair (part : str) : option (str * str) :=
  if String.eqb part EmptyString || str_mem ";" part then None
  else let '(k, v) := cut_char "=" part in
       match QueryUnescape k, QueryUnescape (default EmptyString v) with Some k, Some v => Some (k, v) | _, _ => None end.
Definition query_pairs (q : str) : list (str * str) := omap query_pair (split_on "&" q).

(** The query of a URL, without its fragment. *)
Definition raw_query (url : str) : str := default EmptyString (cut_char "?" (cut_char "#" url).1).2.

(** [url.Values] is a map of lists. *)
Definition Values_Add (k v : str) (vs : gmap str (list str)) : gmap str (list str) := <[k := default [] (vs !! k) ++ [v]]> vs.

(** [Encode]: by the keys in order. *)
Definition encoded_parts (vs : gmap str (list str)) : list str :=
  merge_sort str_le (map_to_list vs).*1 ≫= fun k =>
    map (fun v => String.append (QueryEscape k) (String "=" (QueryEscape v))) (default [] (vs !! k)).
Definition Values_Encode (vs : gmap str (list str)) : str := join "&" (encoded_parts vs).

(** src/extend/http/client.go:120-126, ToUrlValues *)
Definition ToUrlValues (values : gmap str str) : gmap str (list str) := map_fold Values_Add ∅ values.

(** src/extend/http/client.go:102-118, AddParams *)
Definition AddParams (httpURL : str) (params : gmap str (list str)) : str :=
  if (size params =? 0)%nat then httpURL
  else
    let httpURL := if has_infix "?" httpURL then httpURL else String.append httpURL "?" in
    if has_suffix "?" httpURL || has_suffix "&" httpURL then String.append httpURL (Values_Encode params)
    else String.append httpURL (String.append "&" (Values_Encode params)).

(** ** Exchanges *)

(** A response: its status and its body, or the error of reading it. *)
Record response := mkResponse { rsp_status : Z; rsp_body : res bytes }.

(** What is sent: a request without a body, or one with its content type and its body. *)
Inductive http_request := HttpGet (url : str) | HttpPost (url contentType body : str).

(** src/extend/http/client.go:15-18, DefaultTimeout *)
Definition DefaultTimeout : Z := 5 * 1000000000.
Definition postContentType : str := "application/x-www-form-urlencoded".
Definition jsonContentType : str := "application/json".

Section Client.
(** A client with a time limit: the response, which a failed redirect has besides the error. *)
Variable http_Do : Z -> http_request -> option response * option str.

(** The body, the response and the error. *)
(** src/extend/http/client.go:29-45, GET *)
Definition exchange (request : http_request) : option bytes * option response * option str :=
  match http_Do DefaultTimeout request with
  | (rsp, Some err) => (None, rsp, Some err)
  | (None, None) => (None, None, Some "nil response")
  | (Some rsp, None) => match rsp_body rsp with Ok body => (Some body, Some rsp, None) | Err err => (None, Some rsp, Some err) end
  end.

(** src/extend/http/client.go:22-48, GET *)
Definition GET (httpURL : str) (values : list (gmap str str)) : option bytes * option response * option str :=
  exchange (HttpGet (match values with v :: _ => AddParams httpURL (ToUrlValues v) | [] => httpURL end)).

(** src/extend/http/client.go:50-72, POST *)
Definition POST (httpURL : str) (values : gmap str str) : option bytes * option response * option str :=
  exchange (HttpPost httpURL postContentType (Values_Encode (ToUrlValues values))).

(** [json_Marshal]: the library's. *)
(** src/extend/http/client.go:74-100, PostJSON *)
Definition PostJSON {V} (json_Marshal : V -> res str) (httpURL : str) (values : V) : option bytes * option response * option str :=
  match json_Marshal values with
  | Err err => (None, None, Some err)
  | Ok text => exchange (HttpPost httpURL jsonContentType text)
  end.
End Client.

(** ** Addresses *)

(** An address of an interface, and of a connection. *)
Inductive net_addr := IPNet (ip : str) (loopback v4 : bool) | OtherNet.
Inductive conn_addr := TCPAddr (ip : str) | UDPAddr (ip : str) | OtherAddr.

(** Asked once: the first call's interfaces, [None] for an error, give every call's answer. *)
(** src/extend/net/net.go:11-25, LocalIPV4 *)
Definition LocalIPV4 (InterfaceAddrs : option (list net_addr)) : str :=
  match InterfaceAddrs with
  | None => "0.0.0.0"
  | Some l => default "0.0.0.0"%string (head (omap (fun a => match a with IPNet ip false true => Some ip | _ => None end) l))
  end.

(** src/extend/net/net.go:27-41, GetIPV4 *)
Definition GetIPV4 (addr : option conn_addr) : str := match addr with Some (TCPAddr ip) | Some (UDPAddr ip) => ip | _ => EmptyString end.

(** ** Reading what was written *)

Lemma escape_char_back c s : QueryUnescape (String.append (escape_char c) s) = String c <$> QueryUnescape s.
Proof. destruct c as [[] [] [] [] [] [] [] []]; reflexivity. Qed.

Lemma QueryEscape_back s : QueryUnescape (QueryEscape s) = Some s.
Proof. induction s as [|c s IH]; [done|]. simpl. by rewrite escape_char_back, IH. Qed.

(** The signs that have a meaning in a URL are not in an escaped text. *)
Definition url_sign (c : ascii) : bool := existsb (Ascii.eqb c) ["&"; "="; ";"; "#"; "?"]%char.

Lemma escape_char_plain c x : url_sign x = true -> str_mem x (escape_char c) = false.
Proof.
  intros H. assert (In x ["&"; "="; ";"; "#"; "?"]%char) as Hx.
  { apply existsb_exists in H as (y & Hy & ->%Ascii.eqb_eq). exact Hy. }
  clear H. destruct c as [[] [] [] [] [] [] [] []]; simpl in Hx; repeat destruct Hx as [<-|Hx]; try destruct Hx; reflexivity.
Qed.

Lemma QueryEscape_plain s x : url_sign x = true -> str_mem x (QueryEscape s) = false.
Proof. intros H. induction s as [|c s IH]; [done|]. simpl. by rewrite str_mem_app, escape_char_plain, IH. Qed.

Lemma cut_char_at c a b : str_mem c a = false -> cut_char c (String.append a (String c b)) = (a, Some b).
Proof. induction a as [|x a IH]; simpl; [by rewrite Ascii.eqb_refl|]. destruct (Ascii.eqb x c); [done|]. intros H. by rewrite IH. Qed.

Lemma cut_char_none c a : str_mem c a = false -> cut_char c a = (a, None).
Proof. induction a as [|x a IH]; simpl; [done|]. destruct (Ascii.eqb x c); [done|]. intros H. by rewrite IH. Qed.

Lemma cut_char_some c s a b : cut_char c s = (a, Some b) -> s = String.append a (String c b) /\ str_mem c a = false.
Proof.
  revert a b. induction s as [|x s IH]; intros a b; simpl; [done|]. destruct (Ascii.eqb_spec x c) as [->|Hne]; [by intros [= <- <-]|].
  destruct (cut_char c s) as [a' [b'|]]; [|done]. intros [= <- <-]. destruct (IH _ _ eq_refl) as [-> H]. split; [done|]. simpl. by apply Ascii.eqb_neq in Hne as ->.
Qed.

Lemma cut_char_no c s a : cut_char c s = (a, None) -> str_mem c s = false.
Proof.
  revert a. induction s as [|x s IH]; intros a; simpl; [done|]. destruct (Ascii.eqb_spec x c) as [->|Hne]; [done|].
  destruct (cut_char c s) as [a' [b'|]]; [done|]. intros _. simpl. by eapply IH.
Qed.

Definition part_of (k v : str) : str := String.append (QueryEscape k) (String "=" (QueryEscape v)).

Lemma part_plain k v x : url_sign x = true -> x <> "="%char -> str_mem x (part_of k v) = false.
Proof.
  intros Hx Hne. unfold part_of. rewrite str_mem_app. cbn [str_mem]. rewrite !QueryEscape_plain by done.
  destruct (Ascii.eqb_spec "=" x); [congruence|done].
Qed.

Lemma part_read k v : query_pair (part_of k v) = Some (k, v).
Proof.
  unfold query_pair. rewrite part_plain by done. rewrite orb_false_r. unfold part_of. destruct (String.eqb_spec (String.append (QueryEscape k) (String "=" (QueryEscape v))) EmptyString) as [E|_].
  - by destruct (QueryEscape k).
  - rewrite cut_char_at by (by apply QueryEscape_plain). simpl. by rewrite !QueryEscape_back.
Qed.

Lemma ToUrlValues_map m : ToUrlValues m = (fun v => [v]) <$> m.
Proof.
  unfold ToUrlValues. apply (map_fold_weak_ind (fun r m => r = (fun v : str => [v]) <$> m)); [by rewrite fmap_empty|].
  intros k v m' r Hk ->. unfold Values_Add. by rewrite lookup_fmap, Hk, fmap_insert.
Qed.

(** The parameters that are written, in the order of their keys. *)
Definition pair_at (m : gmap str str) (k : str) : list (str * str) := match m !! k with Some v => [(k, v)] | None => [] end.
Definition sorted_pairs (m : gmap str str) : list (str * str) := merge_sort str_le (map_to_list m).*1 ≫= pair_at m.

Lemma sorted_pairs_perm m : sorted_pairs m ≡ₚ map_to_list m.
Proof.
  unfold sorted_pairs. rewrite merge_sort_Permutation. assert (forall l, l ⊆ map_to_list m ->
    l.*1 ≫= pair_at m = l) as H.
  { induction l as [|[k v] l IH]; intros Hl; [done|]. simpl. unfold pair_at at 1. assert ((k, v) ∈ map_to_list m) as ->%elem_of_map_to_list by (apply Hl; by left).
    simpl. f_equal. apply IH. intros x Hx. apply Hl. by right. }
  by rewrite H.
Qed.

Lemma encoded_parts_map m : encoded_parts (ToUrlValues m) = map (fun x => part_of x.1 x.2) (sorted_pairs m).
Proof.
  rewrite ToUrlValues_map. unfold encoded_parts, sorted_pairs. rewrite map_to_list_fmap.
  replace ((prod_map id (fun v : str => [v]) <$> map_to_list m).*1) with ((map_to_list m).*1) by (rewrite <- list_fmap_compose; by apply list_fmap_ext).
  induction (merge_sort str_le _) as [|k l IH]; [done|]. rewrite !bind_cons, IH, lookup_fmap, map_app. f_equal. unfold pair_at. by destruct (m !! k).
Qed.

Lemma sorted_pairs_ne m : size m <> 0%nat -> map (fun x : str * str => part_of x.1 x.2) (sorted_pairs m) <> [].
Proof.
  intros H E. apply H. apply map_eq_nil in E. pose proof (sorted_pairs_perm m) as Hp. rewrite E in Hp. symmetry in Hp. apply Permutation_nil_r in Hp.
  by apply map_to_list_empty_iff in Hp as ->.
Qed.

Lemma parts_plain m x : url_sign x = true -> x <> "="%char -> Forall (fun p => str_mem x p = false) (map (fun x : str * str => part_of x.1 x.2) (sorted_pairs m)).
Proof. intros. apply Forall_map, Forall_true. intros [k v]. by apply part_plain. Qed.

Lemma join_plain x ps : Forall (fun p => str_mem x p = false) ps -> x <> "&"%char -> str_mem x (join "&" ps) = false.
Proof.
  intros H Hne. induction H as [|p ps Hp Hps IH]; [done|]. destruct ps as [|q ps]; [done|].
  change (str_mem x (String.append p (String "&" (join "&" (q :: ps)))) = false). rewrite str_mem_app, Hp. cbn [str_mem].
  rewrite IH. by destruct (Ascii.eqb_spec "&" x).
Qed.

(** What is written for a map has its pairs. *)
Lemma encode_pairs m : size m <> 0%nat -> query_pairs (Values_Encode (ToUrlValues m)) = sorted_pairs m.
Proof.
  intros Hm. unfold query_pairs, Values_Encode. rewrite encoded_parts_map. change "&"%string with (char_str "&").
  rewrite split_on_join; [|by apply sorted_pairs_ne|by apply parts_plain].
  induction (sorted_pairs m) as [|[k v] l IH]; [done|]. cbn [map fst snd omap list_omap]. rewrite part_read. f_equal. exact IH.
Qed.

Lemma query_pairs_cat a b : query_pairs (String.append a (String "&" b)) = query_pairs a ++ query_pairs b.
Proof. unfold query_pairs. by rewrite split_on_cat, omap_app. Qed.

Lemma has_infix_char c s : has_infix (char_str c) s = str_mem c s.
Proof.
  induction s as [|x s IH]; [done|]. cbn [has_infix str_mem]. rewrite IH. f_equal. simpl. destruct (ascii_dec c x) as [->|Hne]; [by rewrite Ascii.eqb_refl; destruct s|].
  symmetry. apply Ascii.eqb_neq. congruence.
Qed.

Lemma has_suffix_char c s : has_suffix (char_str c) s = true -> exists a, s = String.append a (char_str c).
Proof.
  induction s as [|x s IH]; [done|]. cbn [has_suffix]. intros [->%String.eqb_eq|H]%orb_true_iff; [by exists EmptyString|].
  destruct (IH H) as [a ->]. by exists (String x a).
Qed.

Lemma has_suffix_app c a s : s <> EmptyString -> has_suffix (char_str c) (String.append a s) = has_suffix (char_str c) s.
Proof.
  intros Hs. induction a as [|x a IH]; [done|]. rewrite str_app_cons. cbn [has_suffix]. rewrite IH.
  destruct (String.eqb_spec (char_str c) (String x (String.append a s))) as [E|_]; [|done]. injection E as _ E. by destruct a, s.
Qed.

(** C33: What a request is given, the server finds: the parameters in the query of the URL
    are those that it had, and then those of the map, each once and as they were, whatever
    signs they have. The URL has no fragment, and its query does not end with a question
    mark. *)
Theorem AddParams_query (httpURL : str) (values : gmap str str) :
  str_mem "#" httpURL = false -> has_suffix "?" (raw_query httpURL) = false ->
  exists l, l ≡ₚ map_to_list values /\ query_pairs (raw_query (AddParams httpURL (ToUrlValues values))) = query_pairs (raw_query httpURL) ++ l.
Proof.
  intros Hf Hq. unfold AddParams. assert (size (ToUrlValues values) = size values) as -> by (rewrite ToUrlValues_map; apply map_size_fmap).
  destruct (Nat.eqb_spec (size values) 0) as [->%map_size_empty_iff|Hm]; [exists []; by rewrite app_nil_r, map_to_list_empty|].
  exists (sorted_pairs values). split; [apply sorted_pairs_perm|]. rewrite <- (encode_pairs _ Hm). set (enc := Values_Encode (ToUrlValues values)).
  assert (str_mem "#" enc = false) as He by (subst enc; unfold Values_Encode; rewrite encoded_parts_map; apply join_plain; [by apply parts_plain|done]).
  assert (forall a q, str_mem "#" a = false -> str_mem "#" q = false -> str_mem "?" a = false -> raw_query (String.append a (String "?" q)) = q) as Hraw.
  { intros a q Ha Hq' Hqa. unfold raw_query. rewrite (cut_char_none "#"); [|by rewrite str_mem_app, Ha]. cbn [fst]. by rewrite cut_char_at. }
  change "?"%string with (char_str "?") in *. change "&"%string with (char_str "&"). rewrite has_infix_char.
  destruct (cut_char "?" httpURL) as [a [q|]] eqn:Ec.
  - apply cut_char_some in Ec as [-> Hqa]. rewrite str_mem_app in Hf |- *. cbn [str_mem] in Hf |- *. apply orb_false_iff in Hf as [Ha Hq']. change (str_mem "#" q = false) in Hq'.
    rewrite Ascii.eqb_refl, orb_true_r. rewrite (Hraw a q) in * by done.
    destruct q as [|c q']; [|set (q := String c q') in *].
    + rewrite has_suffix_app by done. change (has_suffix (char_str "?") (String "?" EmptyString)) with true. cbn [orb].
      rewrite <- str_app_assoc, str_app_cons, Hraw by done. done.
    + assert (forall d, has_suffix (char_str d) (String.append a (String "?" q)) = has_suffix (char_str d) q) as Hs.
      { intros d. change (String "?" q) with (String.append (char_str "?") q). rewrite str_app_assoc. by rewrite has_suffix_app. }
      rewrite !Hs, Hq. cbn [orb]. destruct (has_suffix (char_str "&") q) eqn:Es.
      * apply has_suffix_char in Es as [q0 E0]. rewrite <- str_app_assoc, str_app_cons, (Hraw a) by (done || by rewrite str_mem_app, Hq').
        rewrite E0, <- str_app_assoc. change (String.append (char_str "&") enc) with (String "&" enc). change (char_str "&") with (String "&" EmptyString). rewrite !query_pairs_cat. change (query_pairs EmptyString) with (@nil (str * str)). by rewrite app_nil_r.
      * change (String.append (char_str "&") enc) with (String "&" enc).
        rewrite <- str_app_assoc, str_app_cons, (Hraw a) by (done || by rewrite str_mem_app, Hq'). apply query_pairs_cat.
  - assert (str_mem "?" httpURL = false) as Hn by (by eapply cut_char_no). rewrite Hn.
    rewrite has_suffix_app by done. change (has_suffix (char_str "?") (char_str "?")) with true. cbn [orb].
    rewrite <- str_app_assoc. change (String.append (char_str "?") enc) with (String "?" enc). rewrite Hraw by done.
    unfold raw_query. rewrite (cut_char_none "#" httpURL) by done. simpl. by rewrite Ec.
Qed.

Lemma AddParams_query_witness : exists l, l ≡ₚ [("a&b"%string, "1 = #"%string)] /\
  query_pairs (raw_query (AddParams "http://h/p?x=1&" (ToUrlValues {["a&b"%string := "1 = #"%string]}))) = [("x"%string, "1"%string)] ++ l.
Proof. exact (AddParams_query "http://h/p?x=1&" {["a&b"%string := "1 = #"%string]} eq_refl eq_refl). Defined.

(** ** What it does that it does not mean to do *)

(** A question mark at the end of a value is taken for the start of the query, and the
    parameter becomes a part of the value; parameters behind a fragment are no parameters. *)
Lemma params_swallowed :
  query_pairs (raw_query (AddParams "http://h/?a=b?" (ToUrlValues {["k"%string := "v"%string]}))) = [("a"%string, "b?k=v"%string)] /\
  query_pairs (raw_query (AddParams "http://h/#top" (ToUrlValues {["k"%string := "v"%string]}))) = [].
Proof. by vm_compute. Qed.
