(* ===== verification/Regex.v ===== *)
(** Regular expressions with their cache (src/extend/regex).

    Compiling and matching are the library's ([RegexpLib]). A call of [getRegexp] has two
    sections with the lock, between which other goroutines run. *)
From S2P Require Import Prelude Strconv.

Class RegexpLib := {
  regexp : Type;
  re_Compile : str -> res regexp;
  re_Match : regexp -> bytes -> bool;
  re_FindSubmatch : regexp -> bytes -> option (list bytes);
  re_FindAllSubmatch : regexp -> bytes -> list (list bytes);
  re_ReplaceAll : regexp -> bytes -> bytes -> bytes;
  re_ReplaceAllFunc : regexp -> bytes -> (bytes -> bytes) -> bytes;
  re_Split : regexp -> str -> list str }.

(** The conversions of strings and byte slices. *)
Definition to_bytes (s : str) : bytes := list_byte_of_string s.
Definition to_string (b : bytes) : str := string_of_list_byte b.

(** [regexp.QuoteMeta]. *)
Definition special_char (c : ascii) : bool := existsb (Ascii.eqb c) ["\"; "."; "+"; "*"; "?"; "("; ")"; "|"; "["; "]"; "{"; "}"; "^"; "$"]%char.
(** src/extend/regex/regex.go:11-13, Quote *)
Fixpoint Quote (s : str) : str :=
  match s with
  | EmptyString => EmptyString
  | String c s => if special_char c then String "\" (String c (Quote s)) else String c (Quote s)
  end.

Section Regex.
Context `{R : RegexpLib}.

(** src/extend/regex/regex_cache.go:8-14, regexMap *)
Definition regex_cache : Type := gmap str regexp.

(** ** One call *)

(** src/extend/regex/regex_cache.go:23-42, getRegexp *)
Definition getRegexp (pattern : str) (c : regex_cache) : regex_cache * res regexp :=
  match c !! pattern with
  | Some r => (c, Ok r)
  | None => match re_Compile pattern with
            | Ok r => (<[pattern := r]> c, Ok r)
            | Err err => (c, Err err)
            end
  end.

Definition with_regexp {T} (pattern : str) (k : regexp -> T) (c : regex_cache) : regex_cache * res T :=
  let '(c, r) := getRegexp pattern c in (c, match r with Ok r => Ok (k r) | Err err => Err err end).

(** src/extend/regex/regex.go:16-19, Validate *)
Definition Validate (pattern : str) : regex_cache -> regex_cache * res unit := with_regexp pattern (fun _ => tt).
(** src/extend/regex/regex.go:22-27, IsMatch *)
Definition IsMatch (pattern : str) (src : bytes) (c : regex_cache) : regex_cache * bool :=
  let '(c, r) := with_regexp pattern (fun r => re_Match r src) c in (c, match r with Ok b => b | Err _ => false end).
(** src/extend/regex/regex.go:30-32, IsMatchString *)
Definition IsMatchString (pattern src : str) : regex_cache -> regex_cache * bool := IsMatch pattern (to_bytes src).
(** src/extend/regex/regex.go:35-41, Match *)
Definition Match (pattern : str) (src : bytes) : regex_cache -> regex_cache * res (option (list bytes)) := with_regexp pattern (fun r => re_FindSubmatch r src).
(** src/extend/regex/regex.go:44-50, MatchString *)
Definition MatchString (pattern src : str) : regex_cache -> regex_cache * res (option (list str)) :=
  with_regexp pattern (fun r => map to_string <$> re_FindSubmatch r (to_bytes src)).
(** src/extend/regex/regex.go:53-59, MatchAll *)
Definition MatchAll (pattern : str) (src : bytes) : regex_cache -> regex_cache * res (list (list bytes)) := with_regexp pattern (fun r => re_FindAllSubmatch r src).
(** src/extend/regex/regex.go:62-68, MatchAllString *)
Definition MatchAllString (pattern src : str) : regex_cache -> regex_cache * res (list (list str)) :=
  with_regexp pattern (fun r => map (map to_string) (re_FindAllSubmatch r (to_bytes src))).
(** src/extend/regex/regex.go:71-77, Replace *)
Definition Replace (pattern : str) (replace src : bytes) : regex_cache -> regex_cache * res bytes := with_regexp pattern (fun r => re_ReplaceAll r src replace).
(** The text is empty besides an error. *)
(** src/extend/regex/regex.go:80-83, ReplaceString *)
Definition ReplaceString (pattern replace src : str) (c : regex_cache) : regex_cache * res str :=
  let '(c, r) := Replace pattern (to_bytes replace) (to_bytes src) c in (c, b <-? r ;; Ok (to_string b)).
(** src/extend/regex/regex.go:87-93, ReplaceFunc *)
Definition ReplaceFunc (pattern : str) (src : bytes) (replaceFunc : bytes -> bytes) : regex_cache -> regex_cache * res bytes :=
  with_regexp pattern (fun r => re_ReplaceAllFunc r src replaceFunc).
(** The matches are those of each part alone; the expression is in the cache by then. *)
(** src/extend/regex/regex.go:99-108, ReplaceFuncMatch *)
Definition ReplaceFuncMatch (pattern : str) (src : bytes) (replaceFunc : option (list bytes) -> bytes) : regex_cache -> regex_cache * res bytes :=
  with_regexp pattern (fun r => re_ReplaceAllFunc r src (fun part => replaceFunc (re_FindSubmatch r part))).
(** src/extend/regex/regex.go:112-117, ReplaceStringFunc *)
Definition ReplaceStringFunc (pattern src : str) (replaceFunc : str -> str) (c : regex_cache) : regex_cache * res str :=
  let '(c, r) := ReplaceFunc pattern (to_bytes src) (fun b => to_bytes (replaceFunc (to_string b))) c in (c, b <-? r ;; Ok (to_string b)).
(** src/extend/regex/regex.go:123-132, ReplaceStringFuncMatch *)
Definition ReplaceStringFuncMatch (pattern src : str) (replaceFunc : option (list str) -> str) : regex_cache -> regex_cache * res str :=
  with_regexp pattern (fun r => to_string (re_ReplaceAllFunc r (to_bytes src) (fun part => to_bytes (replaceFunc (map to_string <$> re_FindSubmatch r part))))).
(** An expression that does not compile gives no parts. *)
(** src/extend/regex/regex.go:136-141, Split *)
Definition regex_Split (pattern src : str) (c : regex_cache) : regex_cache * list str :=
  let '(c, r) := with_regexp pattern (fun r => re_Split r src) c in (c, match r with Ok l => l | Err _ => [] end).

(** ** Many calls *)

(** A call: to look, to store what it compiled, or with its result. *)
Inductive regex_call := RcLook (pattern : str) | RcStore (pattern : str) (r : regexp) | RcDone (pattern : str) (r : res regexp).

Record regex_state := mkRegexState { rs_cache : regex_cache; rs_calls : list regex_call }.

(** src/extend/regex/regex_cache.go:24-41, getRegexp *)
Definition call_step (call : regex_call) (c : regex_cache) : option (regex_cache * regex_call) :=
  match call with
  | RcLook p => Some (c, match c !! p with
                         | Some r => RcDone p (Ok r)
                         | None => match re_Compile p with Ok r => RcStore p r | Err err => RcDone p (Err err) end
                         end)
  | RcStore p r => Some (<[p := r]> c, RcDone p (Ok r))
  | RcDone _ _ => None
  end.

(** A new call, or the next step of one. *)
Inductive regex_step : regex_state -> regex_state -> Prop :=
| rst_call p s : regex_step s (mkRegexState (rs_cache s) (rs_calls s ++ [RcLook p]))
| rst_next i call c call' s : rs_calls s !! i = Some call -> call_step call (rs_cache s) = Some (c, call') ->
    regex_step s (mkRegexState c (<[i := call']> (rs_calls s))).

Definition call_ok (call : regex_call) : Prop :=
  match call with RcLook _ => True | RcStore p r => re_Compile p = Ok r | RcDone p r => re_Compile p = r end.

Record regex_ok (s : regex_state) : Prop := {
  ro_cache : map_Forall (fun p r => re_Compile p = Ok r) (rs_cache s);
  ro_calls : Forall call_ok (rs_calls s) }.

Lemma call_step_ok call c c' call' : map_Forall (fun p r => re_Compile p = Ok r) c -> call_ok call -> call_step call c = Some (c', call') ->
  map_Forall (fun p r => re_Compile p = Ok r) c' /\ call_ok call'.
Proof.
  intros Hc Hok. destruct call as [p|p r|p r]; simpl; [| |done].
  - destruct (c !! p) as [r|] eqn:E; [|destruct (re_Compile p) eqn:Ep]; intros [= <- <-]; split; try done. exact (Hc p r E).
  - intros [= <- <-]. split; [|done]. by apply map_Forall_insert_2.
Qed.

Lemma regex_step_ok s s' : regex_step s s' -> regex_ok s -> regex_ok s'.
Proof.
  destruct 1 as [p s|i call c call' s Hi Hs]; intros [H1 H2]; split; simpl; [done| | |].
  - apply Forall_app. split; [done|]. by apply list.Forall_singleton.
  - eapply call_step_ok; [exact H1|exact (Forall_lookup_1 _ _ _ _ H2 Hi)|exact Hs].
  - apply Forall_insert; [done|]. eapply call_step_ok; [exact H1|exact (Forall_lookup_1 _ _ _ _ H2 Hi)|exact Hs].
Qed.

(** The cache does not show. Whatever calls run at the same time, one that is done has
    the result of compiling its own pattern, an error included; a call that runs alone is
    done after at most two steps with the same result, and then finds the cache. *)
Theorem regex_cache_transparent (s : regex_state) : rtc regex_step (mkRegexState ∅ []) s ->
  (forall i p r, rs_calls s !! i = Some (RcDone p r) -> r = re_Compile p) /\
  (forall p, let '(c, r) := getRegexp p (rs_cache s) in r = re_Compile p /\ (forall x, r = Ok x -> c !! p = Some x) /\
     exists call, call_step (RcLook p) (rs_cache s) = Some (rs_cache s, call) /\
       (call = RcDone p r /\ c = rs_cache s \/ call_step call (rs_cache s) = Some (c, RcDone p r))).
Proof.
  intros Hr. assert (regex_ok s) as [H1 H2].
  { remember (mkRegexState ∅ []) as s0 eqn:E0. assert (regex_ok s0) as I by (subst; split; [apply map_Forall_empty|constructor]). clear E0.
    induction Hr as [|s1 s2 s3 Hs _ IH]; [done|]. apply IH. by eapply regex_step_ok. }
  split.
  - intros i p r Hi. by apply (Forall_lookup_1 _ _ _ _ H2) in Hi.
  - intros p. unfold getRegexp. simpl. destruct (rs_cache s !! p) as [r|] eqn:E.
    + rewrite (H1 p r E). split_and!; [done|by intros x [= <-]|]. eexists. split; [done|by left].
    + destruct (re_Compile p) as [r|err] eqn:Ep; split_and!; try done.
      * intros x [= <-]. apply lookup_insert_eq.
      * eexists. split; [done|by right].
      * eexists. split; [done|by left].
Qed.
End Regex.

(** ** Examples *)

(** An expression is a text without an opening bracket, and matches itself. *)
#[export] Instance literal_regexp : RegexpLib := {|
  regexp := str;
  re_Compile p := if str_mem "(" p then Err "missing closing )"%string else Ok p;
  re_Match r src := bool_decide (to_bytes r = src);
  re_FindSubmatch r src := if bool_decide (to_bytes r = src) then Some [src] else None;
  re_FindAllSubmatch r src := if bool_decide (to_bytes r = src) then [[src]] else [];
  re_ReplaceAll r src replace := if bool_decide (to_bytes r = src) then replace else src;
  re_ReplaceAllFunc r src f := if bool_decide (to_bytes r = src) then f src else src;
  re_Split r src := if String.eqb r src then [EmptyString; EmptyString] else [src] |}.

(** Two calls of one pattern both compile it. *)
Lemma regex_cache_transparent_witness : exists s, rs_calls s !! 1%nat = Some (RcDone "a" (Ok ("a"%string : @regexp literal_regexp))) /\ re_Compile "a" = Ok "a"%string /\ Quote "a.b" = "a\.b"%string.
Proof.
  set (s := mkRegexState {["a"%string := ("a"%string : @regexp literal_regexp)]} [RcStore "a" ("a"%string : @regexp literal_regexp); RcDone "a" (Ok ("a"%string : @regexp literal_regexp))]).
  assert (rtc regex_step (mkRegexState ∅ []) s) as Hs.
  { eapply rtc_l; [apply (rst_call "a")|]. eapply rtc_l; [apply (rst_call "a")|].
    eapply rtc_l; [by eapply (rst_next 0)|]. eapply rtc_l; [by eapply (rst_next 1)|]. eapply rtc_l; [by eapply (rst_next 1)|]. apply rtc_refl. }
  exists s. split; [reflexivity|]. split; [|reflexivity].
  symmetry. exact (proj1 (regex_cache_transparent s Hs) 1%nat "a"%string _ eq_refl).
Defined.
