(* ===== verification/HttpServe.v ===== *)
(** The HTTP component's server (src/net/httpactor/component.go): its start in a goroutine and
    its shutdown, as a step relation.

    [http.Server] is the Go library's: [Serve] closes the listener it is given and returns
    when the server shuts down already; [Shutdown] closes the listeners that are served and
    waits for the connections until its time is over. *)
From S2P Require Import Prelude Strconv.
#[local] Open Scope Z_scope.

Definition ns_s : Z := 1000000000.

(** [c_server]: the address and the limits of the server; [c_name] as given. *)
(** src/net/httpactor/component.go:14-21, Component *)
Record HttpComponent := mkHttpComponent { c_name : str; c_address : str; c_server : option (str * list Z) }.

(** src/net/httpactor/component.go:24-29, NewComponent *)
Definition NewHttpComponent (name address : str) : HttpComponent :=
  mkHttpComponent (if String.eqb name EmptyString then "default" else name) address None.

(** The handler is made by [NewHandler]. *)
(** src/net/httpactor/component.go:38-44, Component.Init *)
Definition HttpComponent_Init (c : HttpComponent) : HttpComponent :=
  let address := if String.eqb (c_address c) EmptyString then "127.0.0.1:9080" else c_address c in
  mkHttpComponent (c_name c) address (Some (address, [5 * ns_s; 30 * ns_s; 30 * ns_s; 60 * ns_s])).

(** ** At work *)

(** The goroutine of the start, and the call of the stop. *)
Inductive serve_pc := SvNone | SvListen | SvServe | SvServing | SvDone.
Inductive stop_pc := StNone | StWait (deadline : Z) | StDone.

(** [hs_listener]: the listener is open. [hs_conns] are the connections with a request,
    [hs_requests] counts the requests that were taken. *)
Record serve_state := mkServe {
  hs_component : HttpComponent; hs_serve : serve_pc; hs_stop : stop_pc; hs_listener : bool; hs_shutdown : bool; hs_conns : list nat; hs_requests : nat; hs_now : Z }.

Inductive serve_action := SaInit | SaAfterInit | SaListen (fails : bool) | SaServe | SaServeEnds | SaRequest | SaAnswer (i : nat) | SaStop | SaStopEnds | SaTime (d : Z).

Definition sv_set (c : HttpComponent) (pc : serve_pc) (st : stop_pc) (l sh : bool) (conns : list nat) (n : nat) (s : serve_state) : serve_state :=
  mkServe c pc st l sh conns n (hs_now s).

(** src/net/httpactor/component.go:47-68, Component.OnAfterInit *)
Definition exec_serve (a : serve_action) (s : serve_state) : option serve_state :=
  let '(mkServe c pc st l sh conns n now) := s in
  match a with
  | SaInit => match c_server c with None => Some (sv_set (HttpComponent_Init c) pc st l sh conns n s) | Some _ => None end
  | SaAfterInit => match c_server c, pc with Some _, SvNone => Some (sv_set c SvListen st l sh conns n s) | _, _ => None end
  | SaListen fails => match pc with SvListen => Some (if fails then sv_set c SvDone st l sh conns n s else sv_set c SvServe st true sh conns n s) | _ => None end
  | SaServe => match pc with
               | SvServe => Some (if sh then sv_set c SvDone st false sh conns n s else sv_set c SvServing st l sh conns n s)
               | _ => None end
  | SaServeEnds => match pc with SvServing => if sh then Some (sv_set c SvDone st l sh conns n s) else None | _ => None end
  | SaRequest => match pc with SvServing => if l && negb sh then Some (sv_set c pc st l sh (n :: conns) (S n) s) else None | _ => None end
  | SaAnswer i => match conns !! i with Some _ => Some (sv_set c pc st l sh (delete i conns) n s) | None => None end
  | SaStop => match st with
              | StNone => match c_server c with
                          | None => Some (sv_set c pc StDone l sh conns n s)
                          | Some _ => Some (sv_set c pc (StWait (now + 5 * ns_s)) (match pc with SvServing => false | _ => l end) true conns n s)
                          end
              | _ => None end
  | SaStopEnds => match st with StWait d => if bool_decide (conns = []) || (d <=? now) then Some (sv_set c pc StDone l sh conns n s) else None | _ => None end
  | SaTime d => if 0 <=? d then Some (mkServe c pc st l sh conns n (now + d)) else None
  end.

Fixpoint run_serve (acts : list serve_action) (s : serve_state) : option serve_state :=
  match acts with [] => Some s | a :: acts => exec_serve a s ≫= run_serve acts end.

Definition serve_start (name address : str) (now : Z) : serve_state := mkServe (NewHttpComponent name address) SvNone StNone false false [] 0 now.

Record serve_ok (s : serve_state) : Prop := {
  so_listener : hs_listener s = true <-> (hs_serve s = SvServe \/ hs_serve s = SvServing /\ hs_shutdown s = false);
  so_server : hs_serve s <> SvNone -> is_Some (c_server (hs_component s));
  so_stop : hs_stop s <> StNone -> c_server (hs_component s) = None \/ hs_shutdown s = true }.

(** The application calls the hooks in their order: the stop of a component that was not
    initialised comes instead of its start. *)
Definition in_order (a : serve_action) (s : serve_state) : Prop := match a with SaInit => hs_stop s = StNone | _ => True end.

Lemma exec_serve_ok a s s' : exec_serve a s = Some s' -> in_order a s -> serve_ok s -> serve_ok s'.
Proof.
  destruct s as [c pc st l sh conns n now]. intros H Ho [H1 H2 H3]. simpl in *.
  destruct a; simpl in *; repeat case_match; simplify_eq; (split; simpl in *; try done; try (intuition congruence); try (intros; by eauto)).
Qed.

Inductive serve_runs : serve_state -> serve_state -> Prop :=
| sr_stop s : serve_runs s s
| sr_step s a s1 s2 : in_order a s -> exec_serve a s = Some s1 -> serve_runs s1 s2 -> serve_runs s s2.

Lemma serve_runs_ok s s' : serve_runs s s' -> serve_ok s -> serve_ok s'.
Proof. induction 1; [done|]. intros H3. eauto using exec_serve_ok. Qed.

Lemma serve_start_ok name address now : serve_ok (serve_start name address now).
Proof. split; simpl; [naive_solver|done|done]. Qed.

(** A step after the stop takes no request. *)
Lemma stopped_step a s s' : exec_serve a s = Some s' -> in_order a s -> serve_ok s -> hs_stop s <> StNone ->
  hs_stop s' <> StNone /\ hs_requests s' = hs_requests s /\ hs_conns s' ⊆ hs_conns s.
Proof.
  destruct s as [c pc st l sh conns n now]. intros H Ho [H1 H2 H3] Hst. simpl in *. specialize (H3 Hst).
  destruct a; simpl in *; repeat case_match; simplify_eq; simpl; try (split_and!; [done|done|done]).
  - destruct H3 as [H3| ->]; [|by rewrite andb_false_r in *]. destruct (H2 ltac:(done)) as [x Hx]. congruence.
  - split_and!; [done|done|]. intros x Hx. exact (elem_of_sublist _ _ _ Hx (sublist_delete _ _)).
Qed.

(** C32: A stop is a stop, wherever the start is by then. From the call on no request is
    taken and no connection comes; the listener is closed, at the latest when the goroutine
    that opens it has come to an end, which it does by itself; and the call returns within
    five seconds. *)
Theorem http_component_stops (name address : str) (t0 : Z) (s s' : serve_state) :
  serve_runs (serve_start name address t0) s -> hs_stop s <> StNone -> serve_runs s s' ->
  hs_requests s' = hs_requests s /\ hs_conns s' ⊆ hs_conns s /\
  (hs_serve s' <> SvListen -> hs_serve s' <> SvServe -> hs_listener s' = false) /\
  (forall fails, (hs_serve s' = SvServe -> exists s2, exec_serve SaServe s' = Some s2 /\ hs_serve s2 = SvDone /\ hs_listener s2 = false) /\
     (hs_serve s' = SvListen -> exists s1, exec_serve (SaListen fails) s' = Some s1 /\ (fails = true -> hs_listener s1 = false))) /\
  (forall now c pc l sh conns n, s = mkServe c pc (StWait (now + 5 * ns_s)) l sh conns n now -> now + 5 * ns_s <= hs_now s' ->
     hs_stop s' = StDone \/ exists s2, exec_serve SaStopEnds s' = Some s2 /\ hs_stop s2 = StDone).
Proof.
  intros Hr Hst Hr'. pose proof (serve_runs_ok _ _ Hr (serve_start_ok _ _ _)) as I. clear Hr.
  assert (hs_stop s' <> StNone /\ hs_requests s' = hs_requests s /\ hs_conns s' ⊆ hs_conns s /\ serve_ok s' /\
    (forall d, hs_stop s = StWait d -> hs_stop s' = StWait d \/ hs_stop s' = StDone)) as (Hst' & H1 & H2 & I' & Hd).
  { induction Hr' as [s|s a s1 s2 Ho E Hr' IH]; [by split_and!; auto|]. destruct (stopped_step _ _ _ E Ho I Hst) as (K1 & K2 & K3).
    pose proof (exec_serve_ok _ _ _ E Ho I) as I1. destruct (IH K1 I1) as (L1 & L2 & L3 & L4 & L5). split_and!; [done|congruence|by etrans|done|].
    intros d Hd. assert (hs_stop s1 = StWait d \/ hs_stop s1 = StDone) as [Hs1|Hs1]; [|exact (L5 d Hs1)|].
    - destruct s as [c pc st l sh conns n now]. simpl in Hd. subst st. destruct a; simpl in E; repeat case_match; simplify_eq; simpl; auto.
    - right. clear -Hr' Hs1. induction Hr' as [|s a s1 s2 Ho E Hr IH]; [done|]. apply IH.
      destruct s as [c pc st l sh conns n now]. simpl in Hs1. subst st. destruct a; simpl in E; repeat case_match; by simplify_eq. }
  destruct I' as [J1 J2 J3]. specialize (J3 Hst'). split_and!; [done|done| | |].
  - intros Hl Hs. destruct (hs_listener s') eqn:El; [|done]. destruct (proj1 J1 eq_refl) as [?|[Hp Hsh]]; [done|].
    destruct J3 as [J3|J3]; [|congruence]. destruct (J2 ltac:(by rewrite Hp)) as [x Hx]. congruence.
  - intros fails. destruct s' as [c pc st l sh conns n now]. simpl in *. split; intros ->.
    + destruct J3 as [J3| ->]; [|by eexists]. destruct (J2 ltac:(done)) as [x Hx]. congruence.
    + eexists. split; [reflexivity|]. intros ->. simpl. destruct l; [|done]. by destruct (proj1 J1 eq_refl) as [?|[? _]].
  - intros now c pc l sh conns n -> Hnow. destruct (Hd _ eq_refl) as [Hw|Hw]; [right|by left]. destruct s' as [c' pc' st' l' sh' conns' n' now']. simpl in *. subst st'.
    rewrite (proj2 (Z.leb_le _ _) Hnow), orb_true_r. by eexists.
Qed.

(** The stop comes between the opening of the listener and its use. *)
Definition demo_before : list serve_action := [SaInit; SaAfterInit; SaListen false; SaStop].

Lemma run_serve_runs acts s s' : run_serve acts s = Some s' -> Forall (fun a => a <> SaInit) acts -> serve_runs s s'.
Proof.
  revert s. induction acts as [|a acts IH]; simpl; intros s; [intros [= <-] _; constructor|]. destruct (exec_serve a s) as [s1|] eqn:E; [|done].
  intros H [Ha Hacts]%Forall_cons_iff. refine (sr_step s a s1 s' _ E (IH _ H Hacts)). by destruct a.
Qed.

Lemma http_component_stops_witness : exists s s', run_serve demo_before (serve_start "web" EmptyString 0) = Some s /\ run_serve [SaServe; SaStopEnds] s = Some s' /\
  hs_listener s = true /\ hs_requests s' = 0%nat /\ (hs_serve s' <> SvListen -> hs_serve s' <> SvServe -> hs_listener s' = false) /\ hs_serve s' = SvDone.
Proof.
  destruct (run_serve demo_before (serve_start "web" EmptyString 0)) as [s|] eqn:E; [|discriminate E].
  destruct (run_serve [SaServe; SaStopEnds] s) as [s'|] eqn:E'; [|injection E as <-; discriminate E'].
  assert (serve_runs (serve_start "web" EmptyString 0) s) as Hr.
  { refine (sr_step (serve_start "web" EmptyString 0) SaInit _ s eq_refl eq_refl _). eapply (run_serve_runs [SaAfterInit; SaListen false; SaStop]); [exact E|by repeat constructor]. }
  assert (serve_runs s s') as Hr' by (eapply run_serve_runs; [exact E'|by repeat constructor]).
  assert (hs_stop s <> StNone) as Hst by (by injection E as <-).
  destruct (http_component_stops "web" EmptyString 0 s s' Hr Hst Hr') as (H1 & _ & H3 & _). exists s, s'.
  split; [done|]. split; [done|]. split; [by injection E as <-|]. split; [rewrite H1; by injection E as <-|]. split; [exact H3|].
  injection E as <-. by injection E' as <-.
Defined.
