(* ===== verification/Cron.v ===== *)
(** The cron component (src/components/cron): the texts of its schedules, and the scheduler
    of the package, which can be replaced.

    The scheduler and the parser of its texts are the library's: a parser is told whether
    texts begin with seconds, and gives a schedule or an error. *)
From Stdlib Require Import SpecFloat.
From S2P Require Import Prelude Strconv.
#[local] Open Scope Z_scope.

(** ** Durations *)

(** A [float64]; the sum and the quotient are rounded. *)
Definition float_of_Z (n : Z) : spec_float := binary_normalize 53 1024 n 0 false.
Definition float_trunc (f : spec_float) : Z :=
  match f with
  | S754_finite s m e => let v := if 0 <=? e then Zpos m * 2 ^ e else Zpos m / 2 ^ (- e) in if s then - v else v
  | _ => 0
  end.

(** [Duration.Seconds]. *)
Definition Duration_Seconds (d : Z) : spec_float :=
  SFadd 53 1024 (float_of_Z (Z.quot d 1000000000)) (SFdiv 53 1024 (float_of_Z (Z.rem d 1000000000)) (float_of_Z 1000000000)).

(** ** Texts *)

Definition blank : str := " ".
Definition words (l : list str) : str := join blank l.

Definition has_at (s : str) : bool := match s with String c _ => Ascii.eqb c "@" | EmptyString => false end.

(** src/components/cron/cron.go:40-43, AddEveryDayFunc *)
Definition every_day_spec (hour minutes seconds : Z) : str := words [itoa seconds; itoa minutes; itoa hour; "*"%string; "*"%string; "?"%string].
(** src/components/cron/cron.go:46-49, AddEveryHourFunc *)
Definition every_hour_spec (minute second : Z) : str := words [itoa second; itoa minute; "*"%string; "*"%string; "*"%string; "?"%string].
(** src/components/cron/cron.go:52-55, AddDurationFunc *)
Definition duration_spec (duration : Z) : str := String.append "@every " (String.append (itoa (float_trunc (Duration_Seconds duration))) "s").

(** ** The scheduler of the package *)

Section Cron.
Context {schedule cmd : Type}.
Variable parse : bool -> str -> res schedule.

(** [WithSeconds], and the options that say nothing of texts. *)
Inductive cron_option := CrWithSeconds | CrWithChain | CrOther.

(** An entry: its number, its schedule and what it runs. *)
Record cron_state := mkCron { cr_seconds : bool; cr_entries : list (Z * schedule * cmd); cr_nextID : Z; cr_running : bool }.

Definition cron_New (opts : list cron_option) : cron_state :=
  mkCron (existsb (fun o => match o with CrWithSeconds => true | _ => false end) opts) [] 0 false.

(** The scheduler that is used, and those that were replaced, which keep running. *)
(** src/components/cron/cron.go:11-14, _cron *)
Record cron_package := mkCronPackage { cp_cron : cron_state; cp_old : list cron_state }.
Definition cron_start : cron_package := mkCronPackage (cron_New [CrWithSeconds; CrWithChain]) [].

Definition with_cron (f : cron_state -> cron_state) (p : cron_package) : cron_package := mkCronPackage (f (cp_cron p)) (cp_old p).

(** src/components/cron/cron.go:27-33, Init *)
Definition cron_Init (opts : list cron_option) (p : cron_package) : cron_package :=
  mkCronPackage (cron_New (match opts with [] => [CrWithSeconds; CrWithChain] | _ => opts end)) (cp_cron p :: cp_old p).

(** src/components/cron/component.go:32-37, New *)
Definition cron_component_New (opts : list cron_option) (p : cron_package) : cron_package := match opts with [] => p | _ => cron_Init opts p end.

(** src/components/cron/cron.go:62-64, Schedule *)
Definition cron_Schedule (s : schedule) (c : cmd) (p : cron_package) : cron_package * Z :=
  let id := cr_nextID (cp_cron p) + 1 in
  (with_cron (fun r => mkCron (cr_seconds r) (cr_entries r ++ [(id, s, c)]) id (cr_running r)) p, id).

(** src/components/cron/cron.go:58-60, AddJob *)
Definition AddJob (spec : str) (c : cmd) (p : cron_package) : cron_package * res Z :=
  match parse (cr_seconds (cp_cron p)) spec with
  | Err err => (p, Err err)
  | Ok s => let '(p, id) := cron_Schedule s c p in (p, Ok id)
  end.
(** src/components/cron/cron.go:35-37, AddFunc *)
Definition AddFunc (spec : str) (c : cmd) : cron_package -> cron_package * res Z := AddJob spec c.
(** src/components/cron/cron.go:40-43, AddEveryDayFunc *)
Definition AddEveryDayFunc (c : cmd) (hour minutes seconds : Z) : cron_package -> cron_package * res Z := AddJob (every_day_spec hour minutes seconds) c.
(** src/components/cron/cron.go:46-49, AddEveryHourFunc *)
Definition AddEveryHourFunc (c : cmd) (minute second : Z) : cron_package -> cron_package * res Z := AddJob (every_hour_spec minute second) c.
(** src/components/cron/cron.go:52-56, AddDurationFunc *)
Definition AddDurationFunc (c : cmd) (duration : Z) : cron_package -> cron_package * res Z := AddJob (duration_spec duration) c.

(** src/components/cron/cron.go:66-68, Entries *)
Definition cron_Entries (p : cron_package) : list (Z * schedule * cmd) := cr_entries (cp_cron p).
(** src/components/cron/cron.go:74-76, Entry *)
Definition cron_Entry (id : Z) (p : cron_package) : option (Z * schedule * cmd) := head (filter (fun e => e.1.1 = id) (cron_Entries p)).
(** src/components/cron/cron.go:78-80, Remove *)
Definition cron_Remove (id : Z) : cron_package -> cron_package :=
  with_cron (fun r => mkCron (cr_seconds r) (filter (fun e => e.1.1 <> id) (cr_entries r)) (cr_nextID r) (cr_running r)).
Definition set_running (b : bool) (r : cron_state) : cron_state := mkCron (cr_seconds r) (cr_entries r) (cr_nextID r) b.
(** src/components/cron/cron.go:82-84, Start *)
Definition cron_Start : cron_package -> cron_package := with_cron (set_running true).
(** src/components/cron/cron.go:90-92, Stop *)
Definition cron_Stop : cron_package -> cron_package := with_cron (set_running false).
(** src/components/cron/component.go:22-25, Component.Init *)
Definition cron_component_Init : cron_package -> cron_package := cron_Start.
(** src/components/cron/component.go:27-30, Component.OnStop *)
Definition cron_component_OnStop : cron_package -> cron_package := cron_Stop.

(** ** Its laws *)

Inductive cron_action := CaInit (opts : list cron_option) | CaSchedule (s : schedule) (c : cmd) | CaAdd (spec : str) (c : cmd) | CaRemove (id : Z) | CaStart | CaStop.

Definition exec_cron (a : cron_action) (p : cron_package) : cron_package :=
  match a with
  | CaInit opts => cron_Init opts p
  | CaSchedule s c => (cron_Schedule s c p).1
  | CaAdd spec c => (AddJob spec c p).1
  | CaRemove id => cron_Remove id p
  | CaStart => cron_Start p
  | CaStop => cron_Stop p
  end.

Definition cron_ok (p : cron_package) : Prop := Forall (fun e => 0 < e.1.1 <= cr_nextID (cp_cron p)) (cron_Entries p) /\
  NoDup (map (fun e => e.1.1) (cron_Entries p)) /\ 0 <= cr_nextID (cp_cron p).

Lemma exec_cron_ok a p : cron_ok p -> cron_ok (exec_cron a p).
Proof.
  intros (H1 & H2 & H3). assert (forall s c, cron_ok (cron_Schedule s c p).1) as Hs.
  { intros s c. unfold cron_ok, cron_Entries, cron_Schedule in *. simpl. split_and!; [| |lia].
    - apply Forall_app. split; [|apply list.Forall_singleton; simpl; lia]. eapply list.Forall_impl; [exact H1|]. intros e He. simpl in *. lia.
    - rewrite map_app. apply list.NoDup_app. split; [done|]. split; [|apply NoDup_singleton]. intros x Hx Hy%list_elem_of_singleton. simpl in Hy. subst x.
      apply list_elem_of_fmap in Hx as (e & He & Hin). rewrite list.Forall_forall in H1. specialize (H1 e Hin). lia. }
  destruct a as [opts|s c|spec c|id| |]; simpl; try done.
  - unfold cron_ok. simpl. split_and!; [constructor|constructor|done].
  - apply Hs.
  - unfold AddJob. destruct (parse _ spec) as [s|]; [|done]. specialize (Hs s c). by destruct (cron_Schedule s c p).
  - unfold cron_ok, cron_Remove, cron_Entries in *. simpl. split_and!; [| |done].
    { rewrite list.Forall_forall in H1 |- *. intros e [_ He]%list_elem_of_filter. by apply H1. }
    eapply sublist_NoDup; [exact H2|]. apply (fmap_sublist (fun e : Z * schedule * cmd => e.1.1)), sublist_filter.
Qed.

(** Entries are numbered apart, and one that is added is found under its number. *)
Lemma added_is_found acts s c : let p := foldl (fun p a => exec_cron a p) cron_start acts in
  let '(p', id) := cron_Schedule s c p in cron_Entry id p' = Some (id, s, c) /\ cron_Entry id p = None.
Proof.
  intros p. assert (cron_ok p) as (H1 & H2 & H3).
  { subst p. induction acts as [|a acts IH] using rev_ind; [split_and!; [constructor|constructor|done]|]. rewrite foldl_snoc. by apply exec_cron_ok. }
  unfold cron_Schedule, cron_Entry, cron_Entries. simpl. rewrite list.filter_app. assert (filter (fun e => e.1.1 = cr_nextID (cp_cron p) + 1) (cr_entries (cp_cron p)) = []) as ->.
  { apply elem_of_nil_inv. intros e [He Hin]%list_elem_of_filter. rewrite list.Forall_forall in H1. specialize (H1 e Hin). lia. }
  simpl. rewrite filter_cons. by rewrite decide_True.
Qed.
End Cron.

(** ** What it says and what it does *)

(** The fields of a daily text are the numbers it was made of. *)
Lemma every_day_fields hour minutes seconds : 0 <= hour -> 0 <= minutes -> 0 <= seconds ->
  split_on " " (every_day_spec hour minutes seconds) = [itoa seconds; itoa minutes; itoa hour; "*"%string; "*"%string; "?"%string].
Proof.
  intros H1 H2 H3. unfold every_day_spec, words, blank. change " "%string with (char_str " "). apply split_on_join; [done|].
  repeat constructor; unfold format_int; rewrite (proj2 (Z.ltb_ge _ _)) by done; by apply format_no_char.
Qed.

(** What is left of a second is lost, except that of half a year and a nanosecond less than
    a second makes a second more. *)
Lemma duration_fractions : duration_spec 1999999999 = "@every 1s" /\ duration_spec 500000000 = "@every 0s" /\
  duration_spec (16777216 * 1000000000 + 999999999) = "@every 16777217s".
Proof. by vm_compute. Qed.

(** A parser that knows how many fields there have to be. *)
Definition count_fields (seconds : bool) (spec : str) : res nat :=
  let n := length (split_on " " spec) in
  if has_at spec || (n =? (if seconds then 6 else 5))%nat then Ok n else Err "expected 5 fields".

(** Options of one's own that do not have seconds among them: the daily function does not
    work any more. *)
Lemma own_options_reject_daily : let p := cron_component_New [CrOther] (cron_start (schedule := nat) (cmd := unit)) in
  (AddEveryDayFunc count_fields tt 17 32 5 p).2 = Err "expected 5 fields" /\ (AddEveryDayFunc count_fields tt 17 32 5 cron_start).2 = Ok 1.
Proof. by vm_compute. Qed.

(** Init replaces the scheduler: what was added is not among the entries any more, and what
    was started goes on when the component stops. *)
Lemma Init_leaves_old_running : let p := cron_component_OnStop (cron_Init [] (cron_Start (AddEveryDayFunc count_fields tt 17 32 5 cron_start).1)) in
  cron_Entries p = [] /\ cr_running (cp_cron p) = false /\ map cr_running (cp_old p) = [true] /\ map (fun c => length (cr_entries c)) (cp_old p) = [1%nat].
Proof. by vm_compute. Qed.
