(* ===== verification/ActorBase.v ===== *)
(** The base of business actors (src/net/actor/actor_base.go): its hooks that do nothing, and
    the paths it builds for the actor that it was given. *)
From S2P Require Import Prelude Strconv Facade.

(** The base holds a pointer to its actor: here its path, none before [load]. *)
(** src/net/actor/actor_base.go:9-11, Base *)
Record Base := mkBase { base_actor : option ActorPath }.

(** src/net/actor/actor_base.go:13-15, Base.load *)
Definition Base_load (a : ActorPath) (p : Base) : Base := mkBase (Some a).
(** src/net/actor/actor_base.go:17-19, Base.AliasID *)
Definition Base_AliasID (p : Base) : str := EmptyString.
(** No child is found. *)
(** src/net/actor/actor_base.go:30-32, Base.OnFindChild *)
Definition Base_OnFindChild {M C : Type} (m : M) : option C := None.
(** src/net/actor/actor_base.go:35-37, Base.NewPath *)
Definition Base_NewPath (p : Base) (nodeID actorID : any_arg) : str := NewPath nodeID actorID.
(** Without its actor the base panics: [None]. *)
(** src/net/actor/actor_base.go:40-42, Base.NewNodePath *)
Definition Base_NewNodePath (p : Base) (actorID : any_arg) : option str := a ← base_actor p; Some (NewPath (AStr (NodeID a)) actorID).
(** src/net/actor/actor_base.go:45-47, Base.NewChildPath *)
Definition Base_NewChildPath (p : Base) (actorID childID : any_arg) : option str := a ← base_actor p; Some (NewChildPath (AStr (NodeID a)) actorID childID).
(** src/net/actor/actor_base.go:50-52, Base.NewMyChildPath *)
Definition Base_NewMyChildPath (p : Base) (childID : any_arg) : option str :=
  a ← base_actor p; Some (NewChildPath (AStr (NodeID a)) (AStr (ActorID a)) childID).

(** What the base of an actor with a well-formed path builds from texts without dots is read
    as the paths that are meant: an actor of the same node, its child, and the actor's own. *)
Lemma Base_paths (a : ActorPath) (actorID childID : str) (p : Base) : wf_path a -> dot_free actorID -> dot_free childID ->
  exists node child mine, Base_NewNodePath (Base_load a p) (AStr actorID) = Some node /\ Base_NewChildPath (Base_load a p) (AStr actorID) (AStr childID) = Some child /\
    Base_NewMyChildPath (Base_load a p) (AStr childID) = Some mine /\
    ToActorPath node = Ok (mkActorPath (NodeID a) actorID EmptyString) /\ ToActorPath child = Ok (mkActorPath (NodeID a) actorID childID) /\
    ToActorPath mine = Ok (mkActorPath (NodeID a) (ActorID a) childID).
Proof.
  intros (Hn & Ha & _) H1 H2. eexists _, _, _. do 3 (split; [reflexivity|]).
  assert (forall x y, dot_free x -> dot_free y -> ToActorPath (NewChildPath (AStr (NodeID a)) (AStr x) (AStr y)) = Ok (mkActorPath (NodeID a) x y)) as H
    by (intros x y Hx Hy; by apply (ToActorPath_String (mkActorPath (NodeID a) x y))).
  split_and!; [by apply (H actorID EmptyString)|by apply H|by apply H].
Qed.

(** A child that is given as nil and not as an empty text ends the path with a dot; it is
    read as the path of the parent. *)
Lemma nil_child_is_parent : NewChildPath (AStr "n") (AStr "a") ANil = "n.a." /\ ToActorPath "n.a." = Ok (mkActorPath "n" "a" EmptyString).
Proof. by vm_compute. Qed.
