(* ===== verification/WheelLife.v ===== *)
(** Starting and stopping a time wheel (src/extend/time_wheel/time_wheel.go): its two
    goroutines around the delay queue of [Poller], and [Stop], which waits for both.

    The loop takes an element from the poller, and puts buckets back into the queue while it
    flushes ([Offer] of its own goroutine); other goroutines offer too. *)
From S2P Require Import Prelude DelayQueue Poller TimeWheel.
#[local] Open Scope Z_scope.

Section WheelLife.
Context {A : Type}.

(** The loop: not started; at its [select]; with elements to offer; after one became the
    head; sending on [wakeupC]; gone. *)
Inductive loop_pc : Type := LpNone | LpSelect | LpOffer (xs : list (item A)) | LpWon (xs : list (item A)) | LpSending (xs : list (item A)) | LpGone.
Inductive stop_at := WsNone | WsWait | WsDone.

(** [wl_flushed]: the elements that were handed over. [wl_poll]: whether the poller is
    started. *)
Record wheel_life := mkWheelLife { wl_dq : dq A; wl_poll : bool; wl_loop : loop_pc; wl_stop : stop_at; wl_flushed : list (item A) }.

Inductive wheel_action :=
| WaStart | WaLook (now : Z) | WaWakeupLoop | WaWakeupOther | WaTimer (now : Z) | WaSwap | WaHand (xs : list (item A)) | WaExit | WaLeave
| WaLoopPush | WaLoopSwap | WaLoopExit | WaOffer (x : item A) | WaOfferSwap | WaStop | WaStopReturn.

Definition wl_set_dq (d : dq A) (w : wheel_life) : wheel_life := mkWheelLife d (wl_poll w) (wl_loop w) (wl_stop w) (wl_flushed w).
Definition wl_set_loop (l : loop_pc) (w : wheel_life) : wheel_life := mkWheelLife (wl_dq w) (wl_poll w) l (wl_stop w) (wl_flushed w).

Definition next_offer (xs : list (item A)) : loop_pc := match xs with [] => LpSelect | _ => LpOffer xs end.
Definition is_won (l : loop_pc) : nat := match l with LpWon _ => 1 | _ => 0 end.
Definition is_sending (l : loop_pc) : nat := match l with LpSending _ => 1 | _ => 0 end.

(** src/extend/time_wheel/time_wheel.go:138-157, TimeWheel.Start *)
Definition TimeWheel_Start (w : wheel_life) : option wheel_life :=
  match wl_loop w with LpNone => Some (mkWheelLife (wl_dq w) true LpSelect (wl_stop w) (wl_flushed w)) | _ => None end.

(** src/extend/time_wheel/time_wheel.go:145-156, TimeWheel.Start *)
Definition loop_step (a : wheel_action) (w : wheel_life) : option wheel_life :=
  match a, wl_loop w with
  | WaLoopPush, LpOffer (x :: xs) =>
      let d := Offer_push x (wl_dq w) in
      let l := if (dq_won d =? dq_won (wl_dq w))%nat then next_offer xs else LpWon xs in
      Some (wl_set_loop l (wl_set_dq d w))
  | WaLoopSwap, LpWon xs =>
      d ← Offer_swap (wl_dq w);
      Some (wl_set_loop (if (dq_sending d =? dq_sending (wl_dq w))%nat then next_offer xs else LpSending xs) (wl_set_dq d w))
  | WaLoopExit, LpSelect => if dq_exit (wl_dq w) then Some (wl_set_loop LpGone w) else None
  | _, _ => None
  end.

(** The poller and the loop meet on [C]. *)
(** src/extend/time_wheel/time_wheel.go:147-151, TimeWheel.Start *)
Definition hand_over (xs : list (item A)) (w : wheel_life) : option wheel_life :=
  match dq_pc (wl_dq w), wl_loop w with
  | PSend x, LpSelect => d ← Poll_send (wl_dq w); Some (mkWheelLife d (wl_poll w) (next_offer xs) (wl_stop w) (x :: wl_flushed w))
  | _, _ => None
  end.

(** A second call panics: it has no step. *)
(** src/extend/time_wheel/time_wheel.go:164-167, TimeWheel.Stop *)
Definition stop_step (a : wheel_action) (w : wheel_life) : option wheel_life :=
  match a, wl_stop w with
  | WaStop, WsNone => d ← exec_dq DClose (wl_dq w); Some (mkWheelLife d (wl_poll w) (wl_loop w) WsWait (wl_flushed w))
  | WaStopReturn, WsWait =>
      match wl_loop w, wl_poll w, dq_pc (wl_dq w) with
      | LpNone, _, _ | LpGone, true, PGone => Some (mkWheelLife (wl_dq w) (wl_poll w) (wl_loop w) WsDone (wl_flushed w))
      | _, _, _ => None
      end
  | _, _ => None
  end.

Definition poll_step (a : dq_action A) (w : wheel_life) : option wheel_life :=
  if wl_poll w then d ← exec_dq a (wl_dq w); Some (wl_set_dq d w) else None.

Definition exec_wheel (a : wheel_action) (w : wheel_life) : option wheel_life :=
  match a with
  | WaStart => TimeWheel_Start w
  | WaLook now => poll_step (DLook now) w
  | WaTimer now => poll_step (DTimer now) w
  | WaSwap => poll_step DSwapPoll w
  | WaExit => poll_step DExit w
  | WaLeave => poll_step DLeave w
  | WaWakeupLoop => match wl_loop w with LpSending xs => wl_set_loop (next_offer xs) <$> poll_step DWakeup w | _ => None end
  | WaWakeupOther => if (is_sending (wl_loop w) <? dq_sending (wl_dq w))%nat then poll_step DWakeup w else None
  | WaOffer x => Some (wl_set_dq (Offer_push x (wl_dq w)) w)
  | WaOfferSwap => if (is_won (wl_loop w) <? dq_won (wl_dq w))%nat then d ← Offer_swap (wl_dq w); Some (wl_set_dq d w) else None
  | WaHand xs => hand_over xs w
  | WaLoopPush | WaLoopSwap | WaLoopExit => loop_step a w
  | WaStop | WaStopReturn => stop_step a w
  end.

Definition wheel_new : wheel_life := mkWheelLife NewDelayQueue false LpNone WsNone [].
Fixpoint run_wheel (acts : list wheel_action) (w : wheel_life) : option wheel_life := match acts with [] => Some w | a :: acts => exec_wheel a w ≫= run_wheel acts end.

(** Nobody but the loop and the poller is in the wheel: what they can do by themselves. *)
Definition own_action (a : wheel_action) : Prop := match a with WaStart | WaOffer _ | WaOfferSwap | WaStop => False | _ => True end.

Lemma gone_step a w w' : exec_wheel a w = Some w' -> wl_loop w = LpGone -> dq_pc (wl_dq w) = PGone ->
  wl_loop w' = LpGone /\ dq_pc (wl_dq w') = PGone /\ wl_flushed w' = wl_flushed w.
Proof.
  intros H Hl Hp. destruct w as [d poll l st fl]. simpl in *. subst l. destruct d as [pq sl pc won sending ex]. simpl in *. subst pc.
  destruct a; simpl in H; unfold poll_step, hand_over, stop_step, TimeWheel_Start, Poll_wakeup, Poll_timer, Poll_swap, Poll_look, Poll_exit, Poll_leave, Offer_swap in H; simpl in H;
    repeat (case_match; simpl in H); simplify_eq; done.
Qed.

Lemma gone_run acts w w' : run_wheel acts w = Some w' -> wl_loop w = LpGone -> dq_pc (wl_dq w) = PGone -> wl_flushed w' = wl_flushed w.
Proof.
  revert w. induction acts as [|a acts IH]; simpl; intros w; [by intros [= <-]|]. destruct (exec_wheel a w) as [w1|] eqn:E; [|done]. intros H Hl Hp.
  destruct (gone_step _ _ _ E Hl Hp) as (H1 & H2 & H3). rewrite <- H3. by eapply IH.
Qed.

(** After [Stop] has returned on a wheel that was started, nothing is handed over any more,
    whoever offers. *)
Lemma stop_is_final w w1 acts w2 : exec_wheel WaStopReturn w = Some w1 -> wl_loop w <> LpNone -> run_wheel acts w1 = Some w2 -> wl_flushed w2 = wl_flushed w.
Proof.
  simpl. intros H Hn Hr. assert (wl_loop w1 = LpGone /\ dq_pc (wl_dq w1) = PGone /\ wl_flushed w1 = wl_flushed w) as (H1 & H2 & <-).
  { destruct (wl_stop w); try done. destruct (wl_loop w) eqn:El, (wl_poll w), (dq_pc (wl_dq w)) eqn:Ep; try done; by injection H as <-. }
  by eapply gone_run.
Qed.
End WheelLife.

(** ** A stop that does not return *)

(** The loop puts a bucket back that becomes the head of the queue, and has lowered the flag,
    when the poller leaves: nobody receives from the loop, it does not come to its [select],
    and [Stop] waits for ever. *)
Definition hanging : list (wheel_action (A := nat)) :=
  [WaStart; WaOffer (mkItem 1%nat 5); WaLook 5; WaHand [mkItem 2%nat 9]; WaLook 5; WaLoopPush; WaLoopSwap; WaStop; WaExit; WaLeave].

Lemma wheel_stop_hangs : exists w, run_wheel hanging wheel_new = Some w /\ wl_stop w = WsWait /\ wl_loop w = LpSending [] /\
  forall a, own_action a -> exec_wheel a w = None.
Proof. eexists. split; [by vm_compute|]. split; [done|]. split; [done|]. intros a Ha. by destruct a. Qed.

(** Where the loop is at its [select], it does return. *)
Lemma wheel_stop_returns : exists w, run_wheel [WaStart; WaOffer (mkItem 1%nat 5); WaLook 5; WaHand [mkItem 2%nat 9]; WaLook 5; WaLoopPush; WaLoopSwap; WaWakeupLoop;
    WaStop; WaLook 6; WaExit; WaLeave; WaLoopExit; WaStopReturn] wheel_new = Some w /\ wl_stop w = WsDone.
Proof. eexists. by vm_compute. Qed.

(** ** Timers with a number of the package *)

(** src/extend/time_wheel/utils.go:41-43, NextID *)
Definition NextID (nextID : Z) : Z := wrapU 64 (nextID + 1).

(** The counter that is left, and the timer. [zero] is the time zero of [TimeWheel]. *)
(** src/extend/time_wheel/time_wheel.go:187-190, TimeWheel.BuildAfterFunc *)
Definition BuildAfterFunc (zero nextID now d : Z) (f : nat) (s : tws) : Z * option tws :=
  let id := NextID nextID in (id, TimeWheel_AfterFunc zero id now d f false s).
(** src/extend/time_wheel/time_wheel.go:192-195, TimeWheel.BuildEveryFunc *)
Definition BuildEveryFunc (zero nextID now interval : Z) (f : nat) (async : bool) (s : tws) : Z * option (option nat * tws) :=
  let id := NextID nextID in (id, TimeWheel_AddEveryFunc zero id now interval f async s).

Lemma next_ids_apart n k : 0 <= n -> n + Z.of_nat k < 2 ^ 64 -> Nat.iter k NextID n = n + Z.of_nat k.
Proof.
  intros Hn Hk. induction k as [|k IH]; [simpl; lia|]. cbn [Nat.iter]. change (NextID (Nat.iter k NextID n) = n + Z.of_nat (S k)). rewrite IH by lia.
  unfold NextID, wrapU. rewrite Z.mod_small; lia.
Qed.
